(* ===== verification/_CoqProject ===== *)
-Q . S2P
Prelude.v
Text.v
Pmm.v
Memory.v
Paging.v
Heap.v
HeapSpec.v
Elf.v
ElfSpec.v
Process.v
ProcessSpec.v
Hepfs.v
HepfsBlock.v
HepfsRep.v
HepfsFile.v
HepfsRead.v
HepfsDir.v
HepfsOps.v
HepfsPath.v
HepfsSpec.v
Input.v
Scheduler.v
Preempt.v
Editor.v
EditorSpec.v
EditorFs.v
Net.v
NetSpec.v
Syscall.v
SyscallFs.v
SyscallSpec.v
Display.v
DisplaySpec.v
Gopd.v
Media.v
MediaSpec.v
Hdad.v
HdadSpec.v
Desktop.v
Mouse.v
MouseSpec.v
DesktopSpec.v
Terminal.v
TerminalSpec.v
Nvme.v
NvmeSpec.v
Firmware.v
FirmwareSpec.v
Runtime.v
RuntimeSpec.v
Rtl8139.v
Rtl8139Spec.v
E1000.v
E1000Spec.v
Files.v
FilesSpec.v
Ahci.v
AhciSpec.v
Hepbl.v
HepblSpec.v
HepblLoad.v
