(* ===== verification/Prelude.v ===== *)
(** * HepOS: a verification development of the kernel

    HepOS is an x86-64 kernel in Rust (no_std, [panic = "abort"]) with a boot loader
    ([src/hepbl]), ring-3 driver processes ([src/userspace]) and a graphical desktop. The
    kernel boots on one core; [kernel/src/main.rs] brings the parts up and runs the desktop
    loop as one task, beside worker tasks for jobs and one task per process. Everything
    stateful is a static behind a spin lock; every failed [assert!], [expect], [unwrap],
    slice index or out-of-range insertion halts the machine. That is why most theorems say
    that an operation does not panic before they say what it computes.

    ** How the model is written

    A Rust expression is an [outcome] (a value or a panic); stateful code is [ST S A], state
    passing in that monad; [wp] is its total-correctness weakest precondition, so a theorem
    stated with it includes termination without panic. Machine integers are [Z] with their
    wrap-around written out ([wrap], [u8] .. [u64], [i32]); release builds wrap silently and
    so does the model. A lock is left out where an operation runs to its end holding it, and
    is an explicit part of the state where another task can meet it held ([Syscall]).
    Two conventions for concurrency: a step relation where tasks and devices may be switched
    between individual accesses ([Preempt], [Gopd], [Nvme], [Ahci], [Rtl8139], the allocator of [Runtime]),
    and sequences of whole operations elsewhere. A device or firmware the repository does not
    contain is a class ([Drive], [SataPort], [RtlCard], [BootServices] and the like) whose laws
    are what its specification documents, with an instance that shows they can hold. Loops
    are structural on the data where they can be; otherwise on a fuel that the source's own
    bound gives (a spin limit, a count of blocks, the length of a string), and the theorems show
    that the fuel suffices or that what is reported on running out is what the source reports.

    ** The files

    Paths are under [src/]; each file opens with what it models.

    - this file: the monads, slices, byte encodings, arithmetic automation ([dlia]), record
      updates ([upd]); [Text]: byte strings, UTF-8, decimal numbers, [Vec] operations.
    - [Pmm] ([kernel/src/pmm.rs]): the frame bitmap. It exports the class [FrameSource], which
      HepFS and the drivers' pages are modelled against, and its instance.
    - [Memory], [Paging] ([vmm.rs], [paging.rs]): physical memory by byte, page tables in it, and
      [translate], the processor's walk, as their specification.
    - [Heap], [HeapSpec] ([heap.rs]): the slab allocator, with its links stored in memory.
    - [Elf], [ElfSpec] ([elf.rs]): the loader against an abstract image of the file.
    - [Process], [ProcessSpec] ([process.rs]): user memory, output, the table of processes,
      background execution. The excursion to ring 3 is a parameter.
    - [Hepfs] and [HepfsBlock], [HepfsRep], [HepfsFile], [HepfsRead], [HepfsDir], [HepfsOps],
      [HepfsPath], [HepfsSpec] ([hepfs.rs]): the file system over the class [Drive], whose laws are what
      a disk documents. The proofs climb in that order: blocks and bitmaps, ownership of
      blocks, files, reading, directories, operations, paths, properties.
    - [Input] ([ps2.rs], [mouse.rs]); [Scheduler] ([scheduler.rs], with the stacks it switches) and
      [Preempt], the same calls statement by statement with interrupts between them.
    - [Editor], [EditorSpec], [EditorFs] ([editor.rs], [clipboard.rs]): the editor is proved
      against the interface [FileStore]; [EditorFs] discharges it with HepFS.
    - [Net], [NetSpec] ([net.rs]): frames, ARP, IP, ICMP, UDP, DNS, TCP, and the job machine.
    - [Syscall], [SyscallFs], [SyscallSpec] ([syscall.rs]): the dispatcher, grants, user pointers,
      job queues; [SyscallFs] says what a file job promises, in terms of paths and contents.
    - [Display], [DisplaySpec] ([framebuffer.rs]) and [Gopd] ([userspace/gopd]): drawing, and the
      hand-over of frames to the presenting process.
    - [Media], [MediaSpec] ([image.rs], [audio.rs], the playing half of [hda.rs]) and [Hdad],
      [HdadSpec] ([userspace/hdad]): BMP and WAV, and the audio driver's loop.
    - [Desktop], [Mouse], [MouseSpec], [DesktopSpec] ([desktop.rs]): windows, icons, menus and
      prompts; [Mouse.update_mouse] is one mouse report, stage by stage.
    - [Terminal], [TerminalSpec] ([terminal.rs]): the screen, the input line, the file commands.
    - [Files], [FilesSpec] (the file-manager windows of [main.rs]): navigation, hit tests,
      selection, scrolling, drag and drop, over [Desktop] and [Hepfs].
    - [Nvme], [NvmeSpec] ([nvme.rs], [userspace/nvmed]): the queues and the mailbox between the
      kernel and the driver process; [Ahci], [AhciSpec] ([ahci.rs], [userspace/ahcid]): the
      command slot and the same kind of mailbox for SATA.
    - [Rtl8139], [Rtl8139Spec] ([rtl8139.rs], [userspace/rtl8139d]) and [E1000], [E1000Spec]
      ([e1000.rs]): the rings of the network cards.
    - [Firmware], [FirmwareSpec] ([acpi.rs], [pci.rs], [rtc.rs]): tables, power-off, the bus, the
      clock.
    - [Runtime], [RuntimeSpec] ([userspace/hepos-rt], [userspace/hepos-std], the entry stub of
      [syscall.rs]): what a user program calls, down to the registers.
    - [Hepbl], [HepblSpec], [HepblLoad] ([hepbl/src/main.rs]): the boot loader.

    State and operations keep the source's names; a [Record] stands for a struct or for a
    module's statics, and a [*_step] or [on_*] relation or function for what the callers may do.

    ** What the theorems show

    - Memory: the frame counter is exact; a mapping adds exactly its translation; live heap
      blocks never overlap whatever the kernel writes into them; anonymous user memory is
      fresh, zeroed and unaliased; a loaded process sees exactly its executable's image.
    - HepFS: a write is read back through all three levels of block pointers and changes no
      other file; creating, renaming and formatting do what they promise, entry by entry.
    - Tasks and calls: in every state reachable from boot, as long as no interrupt falls inside
      a scheduler call that runs with interrupts on, only the current task runs, on its own
      page table and stacks (what such an interrupt breaks is shown too); a ready task gets
      the processor within a bound; file jobs give the answers and effects their paths call
      for, once each, in the caller's buffer; device mappings stay inside the grants.
    - Editor and terminal: sessions of keys behave as an abstract buffer with a cursor. The
      terminal's theorem needs the input to fit in its row, and a second one shows the panic
      when it does not.
    - Network: segments and answers are read back as built, with correct checksums; polling
      a live ring delivers each result once and ends unless frames keep coming; exactly one kind of frame panics the kernel.
    - Display and media: rectangles and partial flushes are exact; the screen only ever shows
      whole frames wherever the scheduler switches; decoders agree with reference images and
      chunk lists; a sound that starts also ends.
    - Desktop: windows, focus and pins survive any session; clicks reach the topmost window;
      a Files window's history is a browser's, and a click hits the entry drawn there.
    - Drivers: the in-kernel NVMe path is a block device; both mailboxes answer a request with
      its own result under every interleaving (SATA while nothing times out); the RTL8139
      delivers the accepted frames in order over restarts of its process.
    - Boot and runtime: the loader puts every byte of the kernel where it was linked and maps
      exactly the first 4 GiB; the frame allocator frees only what the firmware calls free; a
      user program's call reaches the handler of its name with its arguments; blocks of the
      user allocator never overlap; the structures of both sides have one layout.
    - Errors: the properties of kind "error" prove defects in general: a short echo request,
      the last 72 bytes of a block that the NVMe mailbox loses, the e1000 that no longer
      receives once drained. Further lemmas show, at general or concrete inputs: a hostile ELF
      file, a wrapped terminal line, output during typing, a rename prompt whose icon moved, a
      SATA port that never leaves its error state, a late answer taken for the next request's, a
      frame muted by a driver's restart, a stale file size, a click swallowed where two windows
      overlap.

    ** Bounds

    Every bound is the source's: 4096-byte blocks and pages, 1024 blocks per indirect page,
    63 keys in the ring, 512 entries per table, 32 task slots, and so on. Fuel appears in HepFS's
    [copy_entry] (the depth of the tree), in string scanners (the length of the string: each
    turn consumes a byte), in [Hdad]'s and [Display]'s bounded waits (the source's own spin
    limits, as are those of the disk drivers' polls) and in the highlighter (one turn per byte,
    proved enough).

    ** Not modelled

    - [xhci.rs] and [xhcid]: USB descriptors, contexts and transfer rings; their effect is the
      controller's and the devices', and what the kernel takes from them are reports, which
      [Input] models. [virtio_net.rs] is not called; [virtio_gpu.rs] is a chain of commands to a
      device.
    - Register programming when a driver starts: the mapping of registers, resets and bus
      mastering of [nvme.rs], [ahci.rs], [e1000.rs], [rtl8139.rs], and the register half of [hda.rs].
    - [idt.rs], [gdt.rs], [apic.rs], [serial.rs], [panic.rs]: tables and instructions of the
      processor. Their effects on tasks are part of [Scheduler].
    - [main.rs]: boot order and the render loop, apart from the pieces other files name.
    - Drawing of windows, icons and the editor's text ([desktop.rs] render, [icons.rs]): of it
      only what hit tests must agree with.
    - The terminal's commands that only call other subsystems: a parameter of [Terminal.execute].
    - The loader's console, file protocol and [ExitBootServices]; the user test programs and
      build scripts.
    - Caches: the TLB and memory ordering; the machine has one core.

    ** What remains

    Specifications of HepFS's [remove] and [copy_entry], which are modelled and used by the
    terminal and the file manager, in the detail of [write_file]'s; the USB stack against an
    abstract controller; an instance of [Drive] from [Nvme]'s block device, which differs
    from it in that a transfer may time out. *)

From stdpp Require Import prelude gmap strings list numbers.

Local Open Scope Z_scope.

(** ** Outcomes: a Rust expression either yields a value or panics.

    The kernel is built with [panic = "abort"]: a failed [assert!], [expect],
    [unwrap] or an out-of-range index stops the machine. *)

Inductive outcome (A : Type) : Type :=
| Ok (a : A)
| Panic (msg : string).
Arguments Ok {A} a.
Arguments Panic {A} msg.

#[global] Instance outcome_ret : MRet outcome := λ A a, Ok a.
#[global] Instance outcome_bind : MBind outcome := λ A B k c,
  match c with Ok a => k a | Panic m => Panic m end.
#[global] Instance outcome_fmap : FMap outcome := λ A B f c,
  match c with Ok a => Ok (f a) | Panic m => Panic m end.

Definition unwrap {A} (msg : string) (o : option A) : outcome A :=
  match o with Some a => Ok a | None => Panic msg end.

Definition rassert (b : bool) (msg : string) : outcome unit :=
  if b then Ok tt else Panic msg.

Definition is_ok {A} (c : outcome A) : bool :=
  match c with Ok _ => true | Panic _ => false end.

(** ** Stateful code that may panic *)

Definition ST (S A : Type) : Type := S → outcome (A * S).

#[global] Instance ST_ret S : MRet (ST S) := λ A a s, Ok (a, s).
#[global] Instance ST_bind S : MBind (ST S) := λ A B k c s,
  match c s with Ok (a, s') => k a s' | Panic m => Panic m end.
#[global] Instance ST_fmap S : FMap (ST S) := λ A B f c s,
  match c s with Ok (a, s') => Ok (f a, s') | Panic m => Panic m end.

Definition get {S} : ST S S := λ s, Ok (s, s).
Definition gets {S A} (f : S → A) : ST S A := λ s, Ok (f s, s).
Definition put {S} (s : S) : ST S unit := λ _, Ok (tt, s).
Definition modify {S} (f : S → S) : ST S unit := λ s, Ok (tt, f s).
Definition panic {S A} (msg : string) : ST S A := λ _, Panic msg.
Definition lift {S A} (c : outcome A) : ST S A := λ s,
  match c with Ok a => Ok (a, s) | Panic m => Panic m end.

(** Total-correctness weakest precondition: [c] run from [s] does not panic
    and its result and final state satisfy [Q]. *)
Definition wp {S A} (c : ST S A) (s : S) (Q : A → S → Prop) : Prop :=
  match c s with Ok (a, s') => Q a s' | Panic _ => False end.

Lemma wp_ret {S A} (a : A) (s : S) Q : Q a s → wp (mret a) s Q.
Proof. done. Qed.

Lemma wp_bind {S A B} (c : ST S A) (k : A → ST S B) s Q :
  wp c s (λ a s', wp (k a) s' Q) → wp (c ≫= k) s Q.
Proof. unfold wp, mbind, ST_bind. by destruct (c s) as [[a s']|]. Qed.

Lemma wp_mono {S A} (c : ST S A) s (Q Q' : A → S → Prop) :
  wp c s Q → (∀ a s', Q a s' → Q' a s') → wp c s Q'.
Proof. unfold wp. destruct (c s) as [[a s']|]; eauto. Qed.

Lemma wp_bind_mono {S A B} (c : ST S A) (k : A → ST S B) s P Q :
  wp c s P → (∀ a s', P a s' → wp (k a) s' Q) → wp (c ≫= k) s Q.
Proof. intros H1 H2. apply wp_bind. eapply wp_mono; eauto. Qed.

Lemma wp_ok {S A} (c : ST S A) s a s' (Q : A → S → Prop) :
  c s = Ok (a, s') → Q a s' → wp c s Q.
Proof. unfold wp. by intros ->. Qed.

Lemma wp_lift {S A} (c : outcome A) (s : S) a (Q : A → S → Prop) :
  c = Ok a → Q a s → wp (lift c) s Q.
Proof. unfold wp, lift. by intros ->. Qed.

Lemma wp_rassert {S} (b : bool) m (s : S) (Q : unit → S → Prop) :
  b = true → Q tt s → wp (lift (rassert b m)) s Q.
Proof. by intros ->. Qed.

Lemma wp_inv {S A} (c : ST S A) s (Q : A → S → Prop) :
  wp c s Q → ∃ a s', c s = Ok (a, s') ∧ Q a s'.
Proof. unfold wp. destruct (c s) as [[a s']|]; [eauto|done]. Qed.

Lemma wp_result {S A} (c : ST S A) s (Q : A → S → Prop) a s' :
  wp c s Q → c s = Ok (a, s') → Q a s'.
Proof. unfold wp. intros H E. by rewrite E in H. Qed.

Lemma bind_ok_inv {S A B} (c : ST S A) (k : A → ST S B) s b s' :
  (c ≫= k) s = Ok (b, s') → ∃ a s1, c s = Ok (a, s1) ∧ k a s1 = Ok (b, s').
Proof. unfold mbind, ST_bind. destruct (c s) as [[a s1]|]; [eauto|done]. Qed.

(** ** Field updates: [eta] rebuilds the record [r] from its projections; the result is
    that with the projection [p] replaced by [v]. *)

Ltac upd eta p r v :=
  let e := eval unfold eta in (eta r) in
  match eval pattern (p r) in e with ?f _ => let e := eval cbv beta in (f v) in exact e end.

(** ** Machine integers: a [w]-bit unsigned integer is a [Z] in [0, 2^w). *)

Definition wrap (w z : Z) : Z := z mod 2 ^ w.
Abbreviation u8 := (wrap 8).
Abbreviation u16 := (wrap 16).
Abbreviation u32 := (wrap 32).
Abbreviation u64 := (wrap 64).
Definition U64_MAX : Z := 2 ^ 64 - 1.

Definition is_u (w z : Z) : Prop := 0 ≤ z < 2 ^ w.
Abbreviation is_byte := (is_u 8).

Definition len {A} (l : list A) : Z := Z.of_nat (length l).

Lemma wrap_range w z : 0 ≤ w → is_u w (wrap w z).
Proof. intros. apply Z.mod_pos_bound. lia. Qed.

Lemma wrap_small w z : is_u w z → wrap w z = z.
Proof. apply Z.mod_small. Qed.

(** The signed view of a 32-bit word; [i32] arithmetic wraps. *)
Definition i32 (z : Z) : Z := (z + 2 ^ 31) mod 2 ^ 32 - 2 ^ 31.

Lemma i32_small z : - 2 ^ 31 ≤ z < 2 ^ 31 → i32 z = z.
Proof. intros. unfold i32. rewrite Z.mod_small; lia. Qed.

(** ** Slices with Rust's bounds checks *)

Definition idx {A} (l : list A) (i : Z) : outcome A :=
  if bool_decide (0 ≤ i < len l) then unwrap "index out of bounds" (l !! Z.to_nat i)
  else Panic "index out of bounds".

(** [&l[a..b]]: panics when [a > b] or [b] exceeds the length. *)
Definition slice {A} (l : list A) (a b : Z) : outcome (list A) :=
  if bool_decide (0 ≤ a ∧ a ≤ b ∧ b ≤ len l)
  then Ok (take (Z.to_nat (b - a)) (drop (Z.to_nat a) l))
  else Panic "slice out of range".

(** In-place overwrite of [length l'] elements starting at [off]. *)
Definition splice {A} (off : nat) (l' l : list A) : list A :=
  take off l ++ l' ++ drop (off + length l') l.

Definition sub {A} (off n : nat) (l : list A) : list A := take n (drop off l).

Section splice.
Context {A : Type}.
Implicit Types (l : list A).

Lemma length_splice off l' l :
  (off + length l' ≤ length l)%nat → length (splice off l' l) = length l.
Proof. intros. unfold splice. rewrite !length_app, length_take, length_drop. lia. Qed.

Lemma length_sub off n l : (off + n ≤ length l)%nat → length (sub off n l) = n.
Proof. intros. unfold sub. rewrite length_take, length_drop. lia. Qed.

Lemma lookup_sub off n l i : (i < n)%nat → sub off n l !! i = l !! (off + i)%nat.
Proof. intros. unfold sub. by rewrite lookup_take_lt, lookup_drop. Qed.

Lemma lookup_splice_in off l' l i :
  (off + length l' ≤ length l)%nat → (off ≤ i < off + length l')%nat →
  splice off l' l !! i = l' !! (i - off)%nat.
Proof.
  intros. unfold splice. rewrite lookup_app_r; rewrite length_take; [|lia].
  rewrite lookup_app_l; [f_equal|]; lia.
Qed.

Lemma lookup_splice_out off l' l i :
  (off + length l' ≤ length l)%nat → ¬ (off ≤ i < off + length l')%nat →
  splice off l' l !! i = l !! i.
Proof.
  intros ? Hi. unfold splice.
  destruct (decide (i < off)%nat).
  - rewrite lookup_app_l by (rewrite length_take; lia). by apply lookup_take_lt.
  - rewrite lookup_app_r; rewrite length_take; [|lia].
    rewrite lookup_app_r by lia. rewrite lookup_drop. f_equal. lia.
Qed.

Lemma sub_splice_eq off l' l :
  (off + length l' ≤ length l)%nat → sub off (length l') (splice off l' l) = l'.
Proof.
  intros. unfold sub, splice.
  rewrite drop_app_length' by (rewrite length_take; lia).
  by rewrite take_app_length.
Qed.

Lemma sub_splice_ne o n off l' l :
  (off + length l' ≤ length l)%nat → (o + n ≤ off ∨ off + length l' ≤ o)%nat →
  sub o n (splice off l' l) = sub o n l.
Proof.
  intros Hb Hd. apply list_eq. intros i. destruct (decide (i < n)%nat).
  - rewrite !lookup_sub by done. apply lookup_splice_out; [done|lia].
  - unfold sub. rewrite !lookup_ge_None_2; [done|rewrite length_take; lia..].
Qed.

Lemma sub_sub o n o' n' l :
  (o' + n' ≤ n)%nat → sub o' n' (sub o n l) = sub (o + o') n' l.
Proof.
  intros. apply list_eq. intros i. destruct (decide (i < n')%nat).
  - rewrite !lookup_sub by lia. f_equal. lia.
  - unfold sub. rewrite !lookup_ge_None_2; [done|rewrite !length_take; lia..].
Qed.

Lemma sub_all n l : n = length l → sub 0 n l = l.
Proof. intros ->. unfold sub. by rewrite drop_0, firstn_all. Qed.

Lemma splice_all l' l : length l' = length l → splice 0 l' l = l'.
Proof. intros H. unfold splice. rewrite take_0, drop_ge by lia. by rewrite app_nil_r. Qed.

Lemma Forall_splice (P : A → Prop) off l' l :
  Forall P l' → Forall P l → Forall P (splice off l' l).
Proof. intros. unfold splice. rewrite !Forall_app. auto using Forall_take, Forall_drop. Qed.

Lemma Forall_sub (P : A → Prop) off n l : Forall P l → Forall P (sub off n l).
Proof. intros. unfold sub. auto using Forall_take, Forall_drop. Qed.

Lemma slice_ok l a b :
  0 ≤ a → a ≤ b → b ≤ len l → slice l a b = Ok (sub (Z.to_nat a) (Z.to_nat (b - a)) l).
Proof. intros. unfold slice. by rewrite bool_decide_true by lia. Qed.

Lemma idx_ok l i : 0 ≤ i < len l → ∃ x, idx l i = Ok x ∧ l !! Z.to_nat i = Some x.
Proof.
  intros Hi. unfold idx. rewrite bool_decide_true by done. unfold len in *.
  destruct (lookup_lt_is_Some_2 l (Z.to_nat i)) as [x Hx]; [lia|].
  exists x. by rewrite Hx.
Qed.

Lemma idx_some l i x : 0 ≤ i → l !! Z.to_nat i = Some x → idx l i = Ok x.
Proof.
  intros Hi Hx. unfold idx. pose proof (lookup_lt_Some _ _ _ Hx). rewrite bool_decide_true by (unfold len; lia). by rewrite Hx.
Qed.
End splice.

(** ** Byte encodings *)

(** [to_le_bytes]/[from_le_bytes] at [n] bytes; the big-endian forms reverse. *)
Fixpoint le_bytes (n : nat) (z : Z) : list Z :=
  match n with O => [] | S n => z mod 256 :: le_bytes n (z / 256) end.
Fixpoint le_val (l : list Z) : Z :=
  match l with [] => 0 | b :: l => b + 256 * le_val l end.
Definition be_bytes (n : nat) (z : Z) : list Z := reverse (le_bytes n z).
Definition be_val (l : list Z) : Z := le_val (reverse l).

Lemma length_le_bytes n z : length (le_bytes n z) = n.
Proof. revert z. induction n; simpl; auto. Qed.

Lemma length_be_bytes n z : length (be_bytes n z) = n.
Proof. unfold be_bytes. by rewrite length_reverse, length_le_bytes. Qed.

Lemma le_bytes_byte n z : Forall is_byte (le_bytes n z).
Proof.
  revert z. induction n; simpl; constructor; auto.
  unfold is_u. pose proof (Z.mod_pos_bound z 256). lia.
Qed.

Lemma be_bytes_byte n z : Forall is_byte (be_bytes n z).
Proof. apply Forall_reverse, le_bytes_byte. Qed.

Lemma pow256_S n : 2 ^ (8 * Z.of_nat (S n)) = 256 * 2 ^ (8 * Z.of_nat n).
Proof.
  replace (8 * Z.of_nat (S n)) with (8 + 8 * Z.of_nat n) by lia.
  rewrite Z.pow_add_r by lia. reflexivity.
Qed.

Lemma le_val_bytes n z : 0 ≤ z < 2 ^ (8 * Z.of_nat n) → le_val (le_bytes n z) = z.
Proof.
  revert z. induction n as [|n IH]; intros z Hz; cbn [le_bytes le_val].
  - change (8 * Z.of_nat 0) with 0 in Hz. lia.
  - rewrite pow256_S in Hz. rewrite IH; [|split].
    + pose proof (Z.div_mod z 256). lia.
    + apply Z.div_pos; lia.
    + apply Z.div_lt_upper_bound; lia.
Qed.

Lemma le_bytes_val l : Forall is_byte l → le_bytes (length l) (le_val l) = l.
Proof.
  induction 1 as [|b l Hb Hl IH]; [done|]. simpl. unfold is_u in Hb.
  assert ((b + 256 * le_val l) mod 256 = b) as ->.
  { rewrite (Z.mul_comm 256), Z.mod_add by lia. apply Z.mod_small. lia. }
  assert ((b + 256 * le_val l) / 256 = le_val l) as ->.
  { rewrite (Z.mul_comm 256), Z.div_add by lia. rewrite Z.div_small; lia. }
  by rewrite IH.
Qed.

Lemma le_val_range l : Forall is_byte l → 0 ≤ le_val l < 2 ^ (8 * Z.of_nat (length l)).
Proof.
  induction 1 as [|b l Hb Hl IH]; [done|].
  cbn [length]. rewrite pow256_S. simpl. unfold is_u in Hb. lia.
Qed.

Lemma be_val_bytes n z : 0 ≤ z < 2 ^ (8 * Z.of_nat n) → be_val (be_bytes n z) = z.
Proof. intros. unfold be_val, be_bytes. rewrite reverse_involutive. by apply le_val_bytes. Qed.

Lemma be_val_range l : Forall is_byte l → 0 ≤ be_val l < 2 ^ (8 * Z.of_nat (length l)).
Proof.
  intros. unfold be_val. rewrite <- (length_reverse l).
  apply le_val_range. by apply Forall_reverse.
Qed.

(** ** Single bits of a word *)

Definition bit (k : Z) : Z := Z.shiftl 1 k.

Lemma bit_testbit k i : 0 ≤ k → Z.testbit (bit k) i = bool_decide (i = k).
Proof.
  intros. unfold bit. rewrite Z.shiftl_1_l. rewrite Z.pow2_bits_eqb by done.
  destruct (Z.eqb_spec k i); case_bool_decide; congruence.
Qed.

Lemma land_bit w k : 0 ≤ k → Z.land w (bit k) = if Z.testbit w k then bit k else 0.
Proof.
  intros. apply Z.bits_inj'. intros i Hi. rewrite Z.land_spec, bit_testbit by done.
  case_bool_decide; subst.
  - destruct (Z.testbit w k); [by rewrite bit_testbit, bool_decide_true|]. by rewrite Z.bits_0.
  - rewrite andb_false_r. destruct (Z.testbit w k); [|by rewrite Z.bits_0].
    by rewrite bit_testbit, bool_decide_false.
Qed.

Lemma bit_pos k : 0 ≤ k → 0 < bit k.
Proof. intros. unfold bit. rewrite Z.shiftl_1_l. apply Z.pow_pos_nonneg; lia. Qed.

Lemma land_bit_eqb w k : 0 ≤ k → (Z.land w (bit k) =? 0) = negb (Z.testbit w k).
Proof.
  intros. rewrite land_bit by done. pose proof (bit_pos k). destruct (Z.testbit w k); simpl.
  - apply Z.eqb_neq. lia.
  - done.
Qed.

Lemma lor_bit_testbit w k i :
  0 ≤ k → Z.testbit (Z.lor w (bit k)) i = Z.testbit w i || bool_decide (i = k).
Proof. intros. by rewrite Z.lor_spec, bit_testbit. Qed.

Lemma ldiff_bit_testbit w k i :
  0 ≤ k → Z.testbit (Z.ldiff w (bit k)) i = Z.testbit w i && negb (bool_decide (i = k)).
Proof. intros. by rewrite Z.ldiff_spec, bit_testbit. Qed.

(** A non-negative word stays below [2^w] exactly when its high bits are clear. *)
Lemma is_u_testbit w z :
  0 ≤ w → 0 ≤ z → (∀ i, w ≤ i → Z.testbit z i = false) → is_u w z.
Proof.
  intros Hw Hz H. split; [done|].
  destruct (decide (z = 0)) as [->|]; [apply Z.pow_pos_nonneg; lia|].
  apply Z.log2_lt_pow2; [lia|].
  destruct (Z.lt_ge_cases (Z.log2 z) w); [done|].
  pose proof (H (Z.log2 z) ltac:(done)) as Hb.
  rewrite Z.bit_log2 in Hb by lia. done.
Qed.

Lemma testbit_is_u w z i : is_u w z → w ≤ i → Z.testbit z i = false.
Proof.
  intros [H0 H1] Hi. destruct (decide (z = 0)) as [->|]; [apply Z.bits_0|].
  apply Z.bits_above_log2; [done|].
  enough (Z.log2 z < w) by lia. apply Z.log2_lt_pow2; lia.
Qed.

Lemma is_u_lor_bit w z k : is_u w z → 0 ≤ k < w → is_u w (Z.lor z (bit k)).
Proof.
  intros Hz Hk. pose proof (bit_pos k ltac:(lia)).
  apply is_u_testbit; [lia|apply Z.lor_nonneg; destruct Hz; lia|].
  intros i Hi. rewrite lor_bit_testbit, (testbit_is_u w) by (done || lia).
  apply bool_decide_false. lia.
Qed.

Lemma is_u_ldiff w z z' : is_u w z → 0 ≤ w → is_u w (Z.ldiff z z').
Proof.
  intros Hz Hw. apply is_u_testbit; [done| |].
  - apply Z.ldiff_nonneg. destruct Hz; auto.
  - intros i Hi. by rewrite Z.ldiff_spec, (testbit_is_u w).
Qed.

(** ** Automation *)

Create HintDb hepos.
Create Rewrite HintDb len.
Create Rewrite HintDb vec.
#[export] Hint Resolve wp_ret wrap_range le_bytes_byte be_bytes_byte Forall_splice Forall_sub
  is_u_lor_bit is_u_ldiff : hepos.
#[export] Hint Rewrite @length_splice @length_sub @length_le_bytes @length_be_bytes
  @length_app @length_take @length_drop @length_replicate @length_insert using lia : len.

(** Linear arithmetic with quotients and remainders by constants. *)
Ltac dlia := intros; Z.to_euclidean_division_equations; lia.

(** Length arithmetic over the list operations of the models. *)
Ltac len_solve := unfold len in *; autorewrite with len in *; lia.

(** Run a bind of a stateful computation whose first part has a known [wp]. *)
Ltac wp_step H := eapply wp_bind_mono; [eapply H|].
