(* ===== verification/Text.v ===== *)
(** Byte strings: the parts of Rust's [core::str], [slice] and [Vec] the text
    handling components use, with the bounds checks that panic. Text is a list of
    bytes; byte positions are [nat]. *)

From stdpp Require Import prelude list numbers strings.
From S2P Require Import Prelude.

Local Open Scope Z_scope.

Definition txt (s : string) : list Z := (λ a, Z.of_nat (Ascii.nat_of_ascii a)) <$> String.list_ascii_of_string s.

(** ** Character classes *)

Definition is_digit (b : Z) : bool := (0x30 <=? b) && (b <=? 0x39).
Definition is_lower (b : Z) : bool := (0x61 <=? b) && (b <=? 0x7A).
Definition is_upper (b : Z) : bool := (0x41 <=? b) && (b <=? 0x5A).
Definition is_alpha (b : Z) : bool := is_lower b || is_upper b.
Definition is_alnum (b : Z) : bool := is_alpha b || is_digit b.
Definition to_lower (b : Z) : Z := if is_upper b then b + 32 else b.

Definition beq (a b : list Z) : bool := bool_decide (a = b).
Definition starts_with (p s : list Z) : bool := beq (take (length p) s) p.
Definition ends_with (p s : list Z) : bool :=
  (length p <=? length s)%nat && beq (drop (length s - length p) s) p.

(** [trim_start_matches(c)] *)
Fixpoint trim_start (c : Z) (s : list Z) : list Z :=
  match s with b :: s' => if b =? c then trim_start c s' else s | [] => [] end.

(** ** Splitting and joining *)

(** [slice::split]: always at least one piece. *)
Fixpoint split_on (c : Z) (s : list Z) : list (list Z) :=
  match s with
  | [] => [[]]
  | b :: s =>
    if b =? c then [] :: split_on c s
    else match split_on c s with l :: ls => (b :: l) :: ls | [] => [[b]] end
  end.

Fixpoint join_with (c : Z) (ls : list (list Z)) : list Z :=
  match ls with
  | [] => []
  | [l] => l
  | l :: ls => l ++ c :: join_with c ls
  end.

Lemma split_on_nonempty c s : split_on c s ≠ [].
Proof. destruct s as [|b s]; simpl; [done|]. case_match; [done|]. by case_match. Qed.

Lemma join_split c s : join_with c (split_on c s) = s.
Proof.
  induction s as [|b s IH]; [done|]. simpl. pose proof (split_on_nonempty c s).
  destruct (split_on c s) as [|l ls]; [done|]. destruct (Z.eqb_spec b c) as [->|].
  - simpl. by rewrite <- IH.
  - destruct ls; simpl in *; by rewrite <- IH.
Qed.

Lemma split_on_none c l : c ∉ l → split_on c l = [l].
Proof.
  induction l as [|b l IH]; [done|]. intros [Hb Hl]%not_elem_of_cons. simpl.
  destruct (Z.eqb_spec b c); [congruence|]. by rewrite IH.
Qed.

Lemma split_on_app c l s : c ∉ l → split_on c (l ++ c :: s) = l :: split_on c s.
Proof.
  induction l as [|b l IH]; simpl.
  - intros _. by rewrite Z.eqb_refl.
  - intros [Hb Hl]%not_elem_of_cons. destruct (Z.eqb_spec b c); [congruence|]. by rewrite IH.
Qed.

Lemma split_join c ls : ls ≠ [] → Forall (λ l, c ∉ l) ls → split_on c (join_with c ls) = ls.
Proof.
  intros Hne H. induction H as [|l ls Hl Hls IH]; [done|]. destruct ls as [|l' ls]; [by apply split_on_none|].
  change (join_with c (l :: l' :: ls)) with (l ++ c :: join_with c (l' :: ls)). rewrite split_on_app by done. by rewrite IH.
Qed.

Lemma split_on_notin c s : Forall (λ l, c ∉ l) (split_on c s).
Proof.
  induction s as [|b s IH]; simpl; [by constructor; [apply not_elem_of_nil|]|].
  destruct (Z.eqb_spec b c); [constructor; [apply not_elem_of_nil|done]|].
  destruct (split_on c s) as [|l ls].
  - constructor; [|done]. apply not_elem_of_cons. split; [done|apply not_elem_of_nil].
  - apply Forall_cons_iff in IH as [Hl Hls]. constructor; [|done]. by apply not_elem_of_cons.
Qed.

(** ** Decimal *)

Fixpoint dec_fuel (fuel : nat) (n : Z) (acc : list Z) : list Z :=
  match fuel with
  | O => acc
  | S fuel =>
    let acc := (0x30 + n mod 10) :: acc in
    if n / 10 =? 0 then acc else dec_fuel fuel (n / 10) acc
  end.

(** [{}] of a [u64]: at most 20 digits. *)
Definition show_dec (n : Z) : list Z := dec_fuel 20 n [].

(** ** [Vec] *)

Definition v_get {A} (l : list A) (i : nat) : outcome A := unwrap "index out of bounds" (l !! i).

Definition v_insert {A} (i : nat) (x : A) (l : list A) : outcome (list A) :=
  if (i <=? length l)%nat then Ok (take i l ++ x :: drop i l) else Panic "insertion index should be <= len".

Definition v_remove {A} (i : nat) (l : list A) : outcome (A * list A) :=
  match l !! i with Some x => Ok (x, delete i l) | None => Panic "removal index should be < len" end.

(** [split_off(at)]: what stays and what is returned. *)
Definition v_split_off {A} (i : nat) (l : list A) : outcome (list A * list A) :=
  if (i <=? length l)%nat then Ok (take i l, drop i l) else Panic "split_off: at should be <= len".

Definition v_drain {A} (a b : nat) (l : list A) : outcome (list A) :=
  if (a <=? b)%nat && (b <=? length l)%nat then Ok (take a l ++ drop b l) else Panic "drain: range out of bounds".

Definition v_slice {A} (a b : nat) (l : list A) : outcome (list A) :=
  if (a <=? b)%nat && (b <=? length l)%nat then Ok (take (b - a) (drop a l)) else Panic "slice index out of range".

Definition v_set {A} (i : nat) (x : A) (l : list A) : outcome (list A) :=
  if (i <? length l)%nat then Ok (<[i := x]> l) else Panic "index out of bounds".

Lemma v_get_ok {A} (l : list A) i x : l !! i = Some x → v_get l i = Ok x.
Proof. unfold v_get. by intros ->. Qed.

Lemma v_insert_ok {A} i (x : A) l : (i ≤ length l)%nat → v_insert i x l = Ok (take i l ++ x :: drop i l).
Proof. intros H. unfold v_insert. by rewrite (proj2 (Nat.leb_le _ _) H). Qed.

Lemma v_split_ok {A} i (l : list A) : (i ≤ length l)%nat → v_split_off i l = Ok (take i l, drop i l).
Proof. intros H. unfold v_split_off. by rewrite (proj2 (Nat.leb_le _ _) H). Qed.

Lemma v_drain_ok {A} a b (l : list A) : (a ≤ b)%nat → (b ≤ length l)%nat → v_drain a b l = Ok (take a l ++ drop b l).
Proof. intros H1 H2. unfold v_drain. by rewrite (proj2 (Nat.leb_le _ _) H1), (proj2 (Nat.leb_le _ _) H2). Qed.

Lemma v_slice_ok {A} a b (l : list A) : (a ≤ b)%nat → (b ≤ length l)%nat → v_slice a b l = Ok (take (b - a) (drop a l)).
Proof. intros H1 H2. unfold v_slice. by rewrite (proj2 (Nat.leb_le _ _) H1), (proj2 (Nat.leb_le _ _) H2). Qed.

Lemma v_set_ok {A} i (x : A) l : (i < length l)%nat → v_set i x l = Ok (<[i := x]> l).
Proof. intros H. unfold v_set. by rewrite (proj2 (Nat.ltb_lt _ _) H). Qed.

Lemma v_remove_ok {A} i (x : A) l : l !! i = Some x → v_remove i l = Ok (x, delete i l).
Proof. unfold v_remove. by intros ->. Qed.

#[export] Hint Rewrite @v_insert_ok @v_split_ok @v_drain_ok @v_slice_ok @v_set_ok using lia : vec.

(** ** UTF-8 ([core::str::from_utf8]) *)

Definition in_range (lo hi b : Z) : bool := (lo <=? b) && (b <=? hi).
Definition is_cont (b : Z) : bool := in_range 0x80 0xBF b.

(** Width of the sequence at the head of [s], if it is well formed. *)
Definition utf8_width (s : list Z) : option nat :=
  match s with
  | b0 :: r =>
    if b0 <? 0x80 then Some 1%nat
    else match r with
    | b1 :: r =>
      if in_range 0xC2 0xDF b0 && is_cont b1 then Some 2%nat
      else match r with
      | b2 :: r =>
        if (((b0 =? 0xE0) && in_range 0xA0 0xBF b1) || (in_range 0xE1 0xEC b0 && is_cont b1)
            || ((b0 =? 0xED) && in_range 0x80 0x9F b1) || (in_range 0xEE 0xEF b0 && is_cont b1)) && is_cont b2
        then Some 3%nat
        else match r with
        | b3 :: _ =>
          if (((b0 =? 0xF0) && in_range 0x90 0xBF b1) || (in_range 0xF1 0xF3 b0 && is_cont b1)
              || ((b0 =? 0xF4) && in_range 0x80 0x8F b1)) && is_cont b2 && is_cont b3
          then Some 4%nat else None
        | [] => None
        end
      | [] => None
      end
    | [] => None
    end
  | [] => None
  end.

Fixpoint utf8_valid_fuel (fuel : nat) (s : list Z) : bool :=
  match fuel, s with
  | _, [] => true
  | O, _ => false
  | S fuel, s => match utf8_width s with Some n => utf8_valid_fuel fuel (drop n s) | None => false end
  end.
Definition utf8_valid (s : list Z) : bool := utf8_valid_fuel (length s) s.

(** [from_utf8(s).unwrap_or(dflt)] *)
Definition utf8_or (dflt s : list Z) : list Z := if utf8_valid s then s else dflt.

(** How many bytes of an ill-formed head [s] one U+FFFD replaces: the longest prefix
    that could still have begun a sequence, at least one byte. *)
Definition utf8_bad (s : list Z) : nat :=
  match s with
  | b0 :: b1 :: r =>
    if ((b0 =? 0xE0) && in_range 0xA0 0xBF b1) || (in_range 0xE1 0xEC b0 && is_cont b1)
       || ((b0 =? 0xED) && in_range 0x80 0x9F b1) || (in_range 0xEE 0xEF b0 && is_cont b1) then 2%nat
    else if ((b0 =? 0xF0) && in_range 0x90 0xBF b1) || (in_range 0xF1 0xF3 b0 && is_cont b1)
       || ((b0 =? 0xF4) && in_range 0x80 0x8F b1)
    then (match r with b2 :: _ => if is_cont b2 then 3%nat else 2%nat | [] => 2%nat end) else 1%nat
  | _ => 1%nat
  end.

(** [String::from_utf8_lossy] *)
Fixpoint utf8_lossy_fuel (fuel : nat) (s : list Z) : list Z :=
  match fuel, s with
  | _, [] => []
  | O, _ => []
  | S fuel, s =>
    match utf8_width s with
    | Some n => take n s ++ utf8_lossy_fuel fuel (drop n s)
    | None => [0xEF; 0xBF; 0xBD] ++ utf8_lossy_fuel fuel (drop (utf8_bad s) s)
    end
  end.
Definition utf8_lossy (s : list Z) : list Z := utf8_lossy_fuel (length s) s.

(** [str::parse::<u8>]: an optional plus sign and decimal digits, at most 255. *)
Fixpoint digits_val (s : list Z) (acc : Z) : option Z :=
  match s with
  | [] => Some acc
  | b :: s =>
    if is_digit b then
      let acc := acc * 10 + (b - 0x30) in if 255 <? acc then None else digits_val s acc
    else None
  end.
Definition parse_u8 (s : list Z) : option Z :=
  match s with
  | [] => None
  | b :: s' => if b =? 0x2B then (match s' with [] => None | _ => digits_val s' 0 end) else digits_val s 0
  end.
