(* ===== verification/Pmm.v ===== *)
(** Physical memory manager ([kernel/src/pmm.rs]): a bitmap of 4 KiB frames
    with a free counter. Bit set = frame used.

    The statics [BITMAP], [TOTAL_PAGES], [FREE_PAGES] are one record; the
    atomics are read and written by a single core, so each atomic operation is
    one sequential update. The file ends with the interface the rest of the
    kernel relies on ([FrameSource]) and its instance. *)

From stdpp Require Import prelude list numbers.
From S2P Require Import Prelude.

Local Open Scope Z_scope.

Definition PAGE_SIZE : Z := 4096.
Definition MAX_PAGES : Z := 512 * 1024.

Record pmm := mkPmm {
  BITMAP : list Z;
  TOTAL_PAGES : Z;
  FREE_PAGES : Z;
}.

(** [bootinfo::MemRegion] *)
Record MemRegion := mkRegion { base : Z; rlen : Z; typ : Z }.

Definition with_bitmap (s : pmm) (ws : list Z) : pmm :=
  mkPmm ws (TOTAL_PAGES s) (FREE_PAGES s).

(** Update of [BITMAP[page / 64]]; out of range panics as the array access does. *)
Definition update_word (f : Z → Z) (page : Z) : ST pmm unit := λ s,
  w ← idx (BITMAP s) (page / 64);
  Ok (tt, with_bitmap s (<[Z.to_nat (page / 64) := f w]> (BITMAP s))).

Definition set_used (page : Z) : ST pmm unit :=
  update_word (λ w, Z.lor w (bit (page mod 64))) page.

Definition set_free (page : Z) : ST pmm unit :=
  update_word (λ w, Z.ldiff w (bit (page mod 64))) page.

Definition is_used (s : pmm) (page : Z) : outcome bool :=
  w ← idx (BITMAP s) (page / 64);
  Ok (negb (Z.land w (bit (page mod 64)) =? 0)).

(** The inner loop of [init]: pages [page .. page + n) of one region; the loop's
    [break] at [MAX_PAGES] is the bound [n] the caller computes. *)
Fixpoint init_pages (n : nat) (page : Z) (usable : bool) (total free : Z) : ST pmm (Z * Z) :=
  match n with
  | O => mret (total, free)
  | S n =>
    if usable
    then set_free page ≫= λ _, init_pages n (page + 1) usable (u64 (total + 1)) (u64 (free + 1))
    else init_pages n (page + 1) usable (u64 (total + 1)) free
  end.

Definition region_first (e : MemRegion) : Z := base e / PAGE_SIZE.
Definition region_last (e : MemRegion) : Z := u64 (base e + rlen e) / PAGE_SIZE.
Definition region_usable (e : MemRegion) : bool := (typ e =? 1) && (0x100000 <=? base e).

Fixpoint init_regions (memmap : list MemRegion) (total free : Z) : ST pmm (Z * Z) :=
  match memmap with
  | [] => mret (total, free)
  | e :: rest =>
    '(total, free) ← init_pages
      (Z.to_nat (Z.min (region_last e) MAX_PAGES - region_first e))
      (region_first e) (region_usable e) total free;
    init_regions rest total free
  end.

Definition init (memmap : list MemRegion) : ST pmm unit :=
  modify (λ s, with_bitmap s (replicate (length (BITMAP s)) U64_MAX)) ≫= λ _,
  '(total, free) ← init_regions memmap 0 0;
  modify (λ s, mkPmm (BITMAP s) total free).

(** [u64::trailing_ones] *)
Fixpoint trailing_ones (fuel : nat) (v : Z) : Z :=
  match fuel with
  | O => 0
  | S n => if Z.odd v then 1 + trailing_ones n (Z.div2 v) else 0
  end.

Fixpoint alloc_scan (i : Z) (ws : list Z) : option Z * list Z :=
  match ws with
  | [] => (None, [])
  | val :: rest =>
    if val =? U64_MAX then let '(r, rest') := alloc_scan (i + 1) rest in (r, val :: rest')
    else
      let b := trailing_ones 64 val in
      let page := i * 64 + b in
      if MAX_PAGES <=? page then (None, val :: rest)
      else if Z.land val (bit b) =? 0 then (Some page, Z.lor val (bit b) :: rest)
      else let '(r, rest') := alloc_scan (i + 1) rest in (r, Z.lor val (bit b) :: rest')
  end.

Definition alloc_page (s : pmm) : option Z * pmm :=
  match alloc_scan 0 (BITMAP s) with
  | (Some page, ws) => (Some (page * PAGE_SIZE), mkPmm ws (TOTAL_PAGES s) (u64 (FREE_PAGES s - 1)))
  | (None, ws) => (None, with_bitmap s ws)
  end.

Definition free_page (addr : Z) : ST pmm unit :=
  let page := addr / PAGE_SIZE in
  if MAX_PAGES <=? page then mret tt
  else set_free page ≫= λ _, modify (λ s, mkPmm (BITMAP s) (TOTAL_PAGES s) (u64 (FREE_PAGES s + 1))).

(** [alloc_contiguous]: what the inner check loop reports for one start page. *)
Inductive run_check := RunFree | RunUsed | RunPastEnd.

Fixpoint check_run (s : pmm) (page : Z) (n : nat) : outcome run_check :=
  match n with
  | O => Ok RunFree
  | S n =>
    if MAX_PAGES <=? page then Ok RunPastEnd
    else u ← is_used s page; if (u : bool) then Ok RunUsed else check_run s (page + 1) n
  end.

Fixpoint claim_run (page : Z) (n : nat) : ST pmm unit :=
  match n with
  | O => mret tt
  | S n => set_used page ≫= λ _, claim_run (page + 1) n
  end.

Fixpoint alloc_contiguous_from (fuel : nat) (i count : Z) : ST pmm (option Z) :=
  match fuel with
  | O => mret None
  | S fuel => λ s,
    r ← check_run s i (Z.to_nat count);
    match r with
    | RunPastEnd => Ok (None, s)
    | RunUsed => alloc_contiguous_from fuel (i + 1) count s
    | RunFree =>
      '(_, s') ← claim_run i (Z.to_nat count) s;
      Ok (Some (i * PAGE_SIZE), mkPmm (BITMAP s') (TOTAL_PAGES s') (u64 (FREE_PAGES s' - count)))
    end
  end.

Definition alloc_contiguous (count : Z) : ST pmm (option Z) :=
  alloc_contiguous_from (Z.to_nat MAX_PAGES) 0 count.

(** ** Abstract view: the set of used frames *)

Definition used (s : pmm) (page : Z) : bool :=
  match BITMAP s !! Z.to_nat (page / 64) with
  | Some w => Z.testbit w (page mod 64)
  | None => true
  end.

Definition wf (s : pmm) : Prop :=
  length (BITMAP s) = Z.to_nat (MAX_PAGES / 64) ∧ Forall (is_u 64) (BITMAP s).

Definition valid_page (page : Z) : Prop := 0 ≤ page < MAX_PAGES.

(** Number of clear bits among the low [n] bits of a word, and of a bitmap. *)
Fixpoint zeros (n : nat) (w : Z) : Z :=
  match n with
  | O => 0
  | S n => zeros n w + (if Z.testbit w (Z.of_nat n) then 0 else 1)
  end.
Definition word_zeros (w : Z) : Z := zeros 64 w.
Fixpoint zeros_all (ws : list Z) : Z :=
  match ws with [] => 0 | w :: ws => word_zeros w + zeros_all ws end.
Definition free_count (s : pmm) : Z := zeros_all (BITMAP s).

(** The counter agrees with the bitmap. *)
Definition inv (s : pmm) : Prop := wf s ∧ FREE_PAGES s = free_count s.

(** ** Bit-level lemmas *)

Lemma max_pages_words : MAX_PAGES = 64 * (MAX_PAGES / 64) ∧ 0 < MAX_PAGES / 64.
Proof. done. Qed.

Lemma word_of_page s p :
  wf s → valid_page p →
  ∃ w, BITMAP s !! Z.to_nat (p / 64) = Some w ∧ is_u 64 w ∧ idx (BITMAP s) (p / 64) = Ok w.
Proof.
  intros [Hlen Hall] Hp. pose proof max_pages_words. unfold valid_page in Hp.
  assert (0 ≤ p / 64 < MAX_PAGES / 64) by dlia.
  assert (len (BITMAP s) = MAX_PAGES / 64) by (unfold len; rewrite Hlen; lia).
  destruct (idx_ok (BITMAP s) (p / 64)) as (w & Hw & Hl); [lia|].
  exists w. split_and!; try done. by eapply Forall_lookup_1 in Hall.
Qed.

Lemma page_eq p q : p = q ↔ p / 64 = q / 64 ∧ p mod 64 = q mod 64.
Proof. split; [by intros ->|]. intros [H1 H2]. rewrite (Z.div_mod p 64), (Z.div_mod q 64); lia. Qed.

Lemma is_used_spec s p : wf s → valid_page p → is_used s p = Ok (used s p).
Proof.
  intros Hwf Hp. destruct (word_of_page s p) as (w & Hl & Hw & Hi); [done..|].
  unfold is_used, used. rewrite Hi, Hl. simpl. rewrite land_bit_eqb by dlia. by rewrite negb_involutive.
Qed.

Lemma update_word_spec f s p :
  wf s → valid_page p → (∀ w, is_u 64 w → is_u 64 (f w)) →
  ∃ w s', update_word f p s = Ok (tt, s') ∧ wf s' ∧
    TOTAL_PAGES s' = TOTAL_PAGES s ∧ FREE_PAGES s' = FREE_PAGES s ∧
    BITMAP s !! Z.to_nat (p / 64) = Some w ∧
    ∀ q, 0 ≤ q → used s' q =
      if decide (q / 64 = p / 64) then Z.testbit (f w) (q mod 64) else used s q.
Proof.
  intros Hwf Hp Hf. destruct (word_of_page s p) as (w & Hl & Hw & Hi); [done..|].
  eexists w, _. split_and!; [| | | |done|].
  - unfold update_word. rewrite Hi. reflexivity.
  - destruct Hwf as [Hlen Hall]. split; simpl; [by rewrite length_insert|].
    apply Forall_insert; auto.
  - done.
  - done.
  - intros q Hq. unfold used. simpl.
    apply lookup_lt_Some in Hl as Hlt. case_decide as E.
    + rewrite E, list_lookup_insert_eq by done. done.
    + rewrite list_lookup_insert_ne; [done|]. unfold valid_page in Hp.
      intros Heq. apply E. apply Z2Nat.inj in Heq; dlia.
Qed.

Definition only_changes (s s' : pmm) (p : Z) (b : bool) : Prop :=
  used s' p = b ∧ ∀ q, 0 ≤ q → q ≠ p → used s' q = used s q.

Lemma set_used_spec s p :
  wf s → valid_page p →
  ∃ s', set_used p s = Ok (tt, s') ∧ wf s' ∧ TOTAL_PAGES s' = TOTAL_PAGES s ∧
    FREE_PAGES s' = FREE_PAGES s ∧ only_changes s s' p true.
Proof.
  intros Hwf Hp. pose proof (Z.mod_pos_bound p 64 ltac:(lia)).
  destruct (update_word_spec (λ w, Z.lor w (bit (p mod 64))) s p) as (w & s' & Hu & Hwf' & Ht & Hf & Hl & Hq);
    [done..|auto with hepos|].
  exists s'. split_and!; try done. unfold only_changes. unfold valid_page in Hp. split.
  - rewrite Hq by lia. rewrite decide_True by done. rewrite lor_bit_testbit by lia.
    rewrite bool_decide_true by done. apply orb_true_r.
  - intros q Hq0 Hne. rewrite Hq by done. case_decide as E; [|done].
    rewrite lor_bit_testbit by lia. rewrite bool_decide_false.
    + unfold used. rewrite E, Hl. by rewrite orb_false_r.
    + intros E2. apply Hne. apply page_eq. auto.
Qed.

Lemma set_free_spec s p :
  wf s → valid_page p →
  ∃ s', set_free p s = Ok (tt, s') ∧ wf s' ∧ TOTAL_PAGES s' = TOTAL_PAGES s ∧
    FREE_PAGES s' = FREE_PAGES s ∧ only_changes s s' p false.
Proof.
  intros Hwf Hp. pose proof (Z.mod_pos_bound p 64 ltac:(lia)).
  destruct (update_word_spec (λ w, Z.ldiff w (bit (p mod 64))) s p) as (w & s' & Hu & Hwf' & Ht & Hf & Hl & Hq);
    [done..|intros; apply is_u_ldiff; [done|lia]|].
  exists s'. split_and!; try done. unfold only_changes. unfold valid_page in Hp. split.
  - rewrite Hq by lia. rewrite decide_True by done. rewrite ldiff_bit_testbit by lia.
    rewrite bool_decide_true by done. apply andb_false_r.
  - intros q Hq0 Hne. rewrite Hq by done. case_decide as E; [|done].
    rewrite ldiff_bit_testbit by lia. rewrite bool_decide_false.
    + unfold used. rewrite E, Hl. by rewrite andb_true_r.
    + intros E2. apply Hne. apply page_eq. auto.
Qed.

(** ** Counting free frames *)

Lemma zeros_range n w : 0 ≤ zeros n w ≤ Z.of_nat n.
Proof. induction n as [|n IH]; cbn [zeros]; [lia|]. destruct (Z.testbit w _); lia. Qed.

Lemma zeros_ext n w w' :
  (∀ j, 0 ≤ j < Z.of_nat n → Z.testbit w' j = Z.testbit w j) → zeros n w' = zeros n w.
Proof.
  induction n as [|n IH]; intros H; cbn [zeros]; [done|].
  rewrite IH by (intros; apply H; lia). by rewrite H by lia.
Qed.

Lemma zeros_flip n w w' k b :
  0 ≤ k < Z.of_nat n → Z.testbit w k = negb b → Z.testbit w' k = b →
  (∀ j, 0 ≤ j → j ≠ k → Z.testbit w' j = Z.testbit w j) →
  zeros n w' = zeros n w + if b then -1 else 1.
Proof.
  intros Hk Hw Hw' Ho. induction n as [|n IH]; [lia|]. cbn [zeros].
  destruct (decide (k = Z.of_nat n)) as [->|].
  - rewrite (zeros_ext n w w') by (intros; apply Ho; lia). rewrite Hw, Hw'. destruct b; simpl; lia.
  - rewrite IH by lia. rewrite Ho by lia. destruct (Z.testbit w (Z.of_nat n)); lia.
Qed.

Lemma zeros_pos n w : 0 < zeros n w ↔ ∃ j, 0 ≤ j < Z.of_nat n ∧ Z.testbit w j = false.
Proof.
  induction n as [|n IH]; cbn [zeros].
  - split; [lia|]. intros (j & ? & _). lia.
  - pose proof (zeros_range n w). destruct (Z.testbit w (Z.of_nat n)) eqn:E.
    + rewrite Z.add_0_r, IH. split; intros (j & Hj & Hu); exists j; (split; [|done]); [lia|].
      destruct (decide (j = Z.of_nat n)); [congruence|lia].
    + split; [|lia]. intros _. exists (Z.of_nat n). split; [lia|done].
Qed.

Lemma word_zeros_range w : 0 ≤ word_zeros w ≤ 64.
Proof. apply (zeros_range 64). Qed.

Lemma word_zeros_pos w : 0 < word_zeros w ↔ ∃ j, 0 ≤ j < 64 ∧ Z.testbit w j = false.
Proof. apply (zeros_pos 64). Qed.

Lemma word_zeros_flip w w' k b :
  0 ≤ k < 64 → Z.testbit w k = negb b → Z.testbit w' k = b →
  (∀ j, 0 ≤ j → j ≠ k → Z.testbit w' j = Z.testbit w j) →
  word_zeros w' = word_zeros w + if b then -1 else 1.
Proof. apply (zeros_flip 64). Qed.
#[local] Opaque word_zeros.

Lemma zeros_all_range ws : 0 ≤ zeros_all ws ≤ 64 * len ws.
Proof.
  unfold len. induction ws as [|w ws IH]; cbn [zeros_all length]; [lia|].
  pose proof (word_zeros_range w). lia.
Qed.

Lemma zeros_all_insert ws i w w' :
  ws !! i = Some w → zeros_all (<[i := w']> ws) = zeros_all ws - word_zeros w + word_zeros w'.
Proof.
  revert i. induction ws as [|v ws IH]; intros [|i] H; simplify_eq/=; [lia|]. rewrite IH; [lia|done].
Qed.

Lemma zeros_all_pos ws :
  0 < zeros_all ws ↔ ∃ i w j, ws !! i = Some w ∧ 0 ≤ j < 64 ∧ Z.testbit w j = false.
Proof.
  induction ws as [|v ws IH]; cbn [zeros_all].
  - split; [lia|]. by intros (i & w & j & ? & _).
  - pose proof (word_zeros_range v). pose proof (zeros_all_range ws). pose proof (word_zeros_pos v) as Hv.
    split.
    + intros Hp. destruct (decide (0 < word_zeros v)) as [Hz|].
      * apply Hv in Hz as (j & Hj & Ht). exists 0%nat, v, j. done.
      * destruct (proj1 IH) as (i & w & j & Hi & Hj); [lia|]. by exists (S i), w, j.
    + intros ([|i] & w & j & Hi & Hj & Ht); simplify_eq/=.
      * enough (0 < word_zeros w) by lia. apply Hv. eauto.
      * enough (0 < zeros_all ws) by lia. apply IH. eauto 10.
Qed.

Lemma zeros_all_app ws ws' : zeros_all (ws ++ ws') = zeros_all ws + zeros_all ws'.
Proof. induction ws as [|w ws IH]; cbn [zeros_all app]; lia. Qed.

Lemma zeros_all_replicate n w : zeros_all (replicate n w) = Z.of_nat n * word_zeros w.
Proof. induction n as [|n IH]; cbn [zeros_all replicate]; lia. Qed.

Lemma free_count_range s : wf s → 0 ≤ free_count s ≤ MAX_PAGES.
Proof.
  intros [Hlen _]. unfold free_count. pose proof (zeros_all_range (BITMAP s)).
  pose proof max_pages_words.
  assert (len (BITMAP s) = MAX_PAGES / 64) by (unfold len; rewrite Hlen; lia). lia.
Qed.

Lemma free_count_pos s : wf s → 0 < free_count s ↔ ∃ p, valid_page p ∧ used s p = false.
Proof.
  intros Hwf. unfold free_count. rewrite zeros_all_pos. pose proof max_pages_words. split.
  - intros (i & w & j & Hi & Hj & Ht). exists (Z.of_nat i * 64 + j).
    apply lookup_lt_Some in Hi as Hlt. destruct Hwf as [Hlen _].
    assert ((Z.of_nat i * 64 + j) / 64 = Z.of_nat i) as E1 by dlia.
    assert ((Z.of_nat i * 64 + j) mod 64 = j) as E2 by dlia.
    split; [unfold valid_page; lia|]. unfold used. by rewrite E1, E2, Nat2Z.id, Hi.
  - intros (p & Hp & Hu). destruct (word_of_page s p) as (w & Hw & _); [done..|].
    unfold used in Hu. rewrite Hw in Hu. exists (Z.to_nat (p / 64)), w, (p mod 64). split_and!; [done|dlia|dlia|done].
Qed.

Lemma free_count_change s s' p b :
  wf s → wf s' → valid_page p → only_changes s s' p b → used s p = negb b →
  free_count s' = free_count s + if b then -1 else 1.
Proof.
  intros Hwf Hwf' Hp [Hb Ho] Hu. destruct (word_of_page s p) as (w & Hw & _); [done..|].
  destruct (word_of_page s' p) as (w' & Hw' & _); [done..|].
  assert (BITMAP s' = <[Z.to_nat (p / 64) := w']> (BITMAP s)) as E.
  { apply list_eq_same_length with (n := length (BITMAP s)); [by rewrite length_insert|
      by rewrite (proj1 Hwf), (proj1 Hwf')|].
    intros i y x Hi Hy Hx. destruct (decide (i = Z.to_nat (p / 64))) as [->|].
    - rewrite list_lookup_insert_eq in Hx by done. congruence.
    - rewrite list_lookup_insert_ne in Hx by done. unfold valid_page in Hp.
      apply Z.bits_inj'. intros j Hj. destruct (decide (j < 64)).
      + specialize (Ho (Z.of_nat i * 64 + j) ltac:(lia)).
        assert ((Z.of_nat i * 64 + j) / 64 = Z.of_nat i) as E1 by dlia.
        assert ((Z.of_nat i * 64 + j) mod 64 = j) as E2 by dlia.
        unfold used in Ho. rewrite E1, E2, Nat2Z.id, Hx, Hy in Ho. rewrite Ho; [done|].
        intros Heq. rewrite <- Heq in n. lia.
      + destruct Hwf as [_ Hall], Hwf' as [_ Hall'].
        pose proof (Forall_lookup_1 _ _ _ _ Hall Hx). pose proof (Forall_lookup_1 _ _ _ _ Hall' Hy).
        rewrite !(testbit_is_u 64) by (done || lia). done. }
  unfold free_count. rewrite E, (zeros_all_insert _ _ w) by done.
  unfold used in Hu, Hb. rewrite Hw in Hu. rewrite Hw' in Hb.
  rewrite (word_zeros_flip w w' (p mod 64) b); [lia|dlia|done|done|].
  intros j Hj Hne. destruct (decide (j < 64)).
  - specialize (Ho (p / 64 * 64 + j)). unfold valid_page in Hp.
    assert ((p / 64 * 64 + j) / 64 = p / 64) as E1 by dlia.
    assert ((p / 64 * 64 + j) mod 64 = j) as E2 by dlia.
    unfold used in Ho. rewrite E1, E2, Hw, Hw' in Ho. apply Ho; dlia.
  - destruct Hwf as [_ Hall], Hwf' as [_ Hall'].
    pose proof (Forall_lookup_1 _ _ _ _ Hall Hw). pose proof (Forall_lookup_1 _ _ _ _ Hall' Hw').
    rewrite !(testbit_is_u 64) by (done || lia). done.
Qed.

(** ** Single-frame allocation *)

Lemma trailing_ones_spec n v :
  0 ≤ v < 2 ^ Z.of_nat n → v ≠ 2 ^ Z.of_nat n - 1 →
  let b := trailing_ones n v in
  0 ≤ b < Z.of_nat n ∧ Z.testbit v b = false ∧ ∀ j, 0 ≤ j < b → Z.testbit v j = true.
Proof.
  revert v. induction n as [|n IH]; intros v Hv Hne; cbn [trailing_ones].
  - simpl in *. lia.
  - rewrite Nat2Z.inj_succ, Z.pow_succ_r in Hv, Hne by lia.
    pose proof (Zodd_mod v). pose proof (Z.bit0_odd v).
    destruct (Z.odd v) eqn:Ho.
    + assert (v = 2 * Z.div2 v + 1) as Hv2.
      { pose proof (Z.div2_odd v) as Hd. rewrite Ho in Hd. simpl in Hd. lia. }
      destruct (IH (Z.div2 v)) as (Hb & Hf & Ht); [lia..|].
      set (b := trailing_ones n (Z.div2 v)) in *. split_and!; try lia.
      * rewrite Z.add_1_l, Hv2, Z.testbit_odd_succ by lia. done.
      * intros j Hj. destruct (decide (j = 0)) as [->|]; [done|].
        replace j with (Z.succ (j - 1)) by lia.
        rewrite Hv2, Z.testbit_odd_succ by lia. apply Ht. lia.
    + split_and!; [lia|lia|done|lia].
Qed.

Lemma all_ones_testbit j : 0 ≤ j < 64 → Z.testbit U64_MAX j = true.
Proof. intros. change U64_MAX with (Z.ones 64). apply Z.ones_spec_low. lia. Qed.

Lemma alloc_scan_spec i ws :
  0 ≤ i → (i + len ws) * 64 ≤ MAX_PAGES → Forall (is_u 64) ws →
  match alloc_scan i ws with
  | (Some page, ws') => ∃ k w b, ws !! k = Some w ∧ page = (i + Z.of_nat k) * 64 + b ∧ 0 ≤ b < 64 ∧
      Z.testbit w b = false ∧ (∀ j, 0 ≤ j < b → Z.testbit w j = true) ∧
      (∀ k', (k' < k)%nat → ws !! k' = Some U64_MAX) ∧
      ws' = <[k := Z.lor w (bit b)]> ws
  | (None, ws') => ws' = ws ∧ Forall (.= U64_MAX) ws
  end.
Proof.
  unfold len. revert i. induction ws as [|v ws IH]; intros i Hi Hlen Hall; cbn [alloc_scan].
  - split; [done|constructor].
  - apply Forall_cons_iff in Hall as [Hv Hall]. cbn [length] in Hlen.
    destruct (Z.eqb_spec v U64_MAX) as [->|Hne].
    + specialize (IH (i + 1) ltac:(lia) ltac:(lia) Hall).
      destruct (alloc_scan (i + 1) ws) as [[page|] ws'].
      * destruct IH as (k & w & b & Hk & -> & Hb & Hf & Ht & Hpre & ->).
        exists (S k), w, b. split_and!; [done|lia|lia|lia|done|done| |done].
        intros [|k'] Hk'; [done|]. apply Hpre. lia.
      * destruct IH as [-> IH]. split; [done|]. by constructor.
    + destruct (trailing_ones_spec 64 v) as (Hb & Hf & Ht); [apply Hv|done|].
      set (b := trailing_ones 64 v) in *. change (Z.of_nat 64) with 64 in Hb.
      rewrite (proj2 (Z.leb_gt _ _)) by lia. rewrite land_bit_eqb, Hf by lia. simpl.
      exists 0%nat, v, b. split_and!; [done|lia|lia|lia|done|done| |done]. intros k' Hk'. lia.
Qed.

Lemma used_full_word s p :
  BITMAP s !! Z.to_nat (p / 64) = Some U64_MAX → used s p = true.
Proof. intros H. unfold used. rewrite H. apply all_ones_testbit. dlia. Qed.

Lemma alloc_page_some s a s' :
  wf s → alloc_page s = (Some a, s') →
  ∃ p, a = p * PAGE_SIZE ∧ valid_page p ∧ used s p = false ∧
    (∀ q, 0 ≤ q < p → used s q = true) ∧ only_changes s s' p true ∧ wf s' ∧
    TOTAL_PAGES s' = TOTAL_PAGES s ∧ FREE_PAGES s' = u64 (FREE_PAGES s - 1).
Proof.
  intros [Hlen Hall] Ha. unfold alloc_page in Ha.
  pose proof (alloc_scan_spec 0 (BITMAP s)) as Hs.
  destruct (alloc_scan 0 (BITMAP s)) as [[page|] ws]; [|done]. simplify_eq. pose proof max_pages_words.
  destruct Hs as (k & w & b & Hk & -> & Hb & Hf & Ht & Hpre & ->);
    [lia|unfold len; rewrite Hlen; lia|done|].
  apply lookup_lt_Some in Hk as Hlt. rewrite Hlen in Hlt.
  set (p := (0 + Z.of_nat k) * 64 + b).
  assert (p / 64 = Z.of_nat k) as Hpd by (unfold p; dlia).
  assert (p mod 64 = b) as Hpm by (unfold p; dlia).
  assert (valid_page p) by (unfold p, valid_page; lia).
  exists p. split; [done|]. split; [done|]. split; [|split; [|split; [split|split; [split|done]]]].
  - unfold used. by rewrite Hpd, Nat2Z.id, Hk, Hpm.
  - intros q Hq. destruct (decide (q / 64 = Z.of_nat k)) as [E|E].
    + unfold used. rewrite E, Nat2Z.id, Hk. apply Ht. unfold p in *. dlia.
    + apply used_full_word, Hpre. unfold p in *. dlia.
  - unfold used. simpl. rewrite Hpd, Nat2Z.id, list_lookup_insert_eq by lia.
    rewrite lor_bit_testbit by lia. rewrite bool_decide_true by done. apply orb_true_r.
  - intros q Hq Hne. unfold used. simpl. destruct (decide (q / 64 = Z.of_nat k)) as [E|E].
    + rewrite E, Nat2Z.id, Hk, list_lookup_insert_eq by lia.
      rewrite lor_bit_testbit by lia. rewrite bool_decide_false; [apply orb_false_r|].
      intros E2. apply Hne, page_eq. split; congruence.
    + rewrite list_lookup_insert_ne; [done|]. intros Heq. apply E. subst k. dlia.
  - simpl. by rewrite length_insert.
  - apply Forall_insert; [done|]. apply is_u_lor_bit; [by eapply Forall_lookup_1|lia].
Qed.

Lemma alloc_page_none s s' :
  wf s → alloc_page s = (None, s') → s' = s ∧ ∀ p, valid_page p → used s p = true.
Proof.
  intros [Hlen Hall] Ha. unfold alloc_page in Ha.
  pose proof (alloc_scan_spec 0 (BITMAP s)) as Hs.
  destruct (alloc_scan 0 (BITMAP s)) as [[page|] ws]; [done|]. simplify_eq. pose proof max_pages_words.
  destruct Hs as [-> Hfull]; [lia|unfold len; rewrite Hlen; lia|done|].
  split; [by destruct s|]. intros p Hp. destruct (word_of_page s p) as (w & Hw & _); [done..|].
  apply used_full_word. rewrite Hw. f_equal. by eapply Forall_lookup_1 in Hfull.
Qed.

(** Allocation succeeds exactly when some frame is free. *)
Lemma alloc_page_succeeds s : wf s → 0 < free_count s → ∃ a s', alloc_page s = (Some a, s').
Proof.
  intros Hwf Hpos. destruct (alloc_page s) as [[a|] s'] eqn:E; [eauto|]. exfalso.
  apply alloc_page_none in E as [-> Hfull]; [|done].
  apply free_count_pos in Hpos as (p & Hp & Hu); [|done]. by rewrite Hfull in Hu.
Qed.

Lemma u64_small z : 0 ≤ z ≤ MAX_PAGES → u64 z = z.
Proof. intros. apply wrap_small. unfold is_u, MAX_PAGES in *. lia. Qed.

Lemma alloc_page_inv s r s' : inv s → alloc_page s = (r, s') → inv s'.
Proof.
  intros [Hwf Hc] Ha. destruct r as [a|].
  - apply alloc_page_some in Ha as (p & -> & Hp & Hu & _ & Hch & Hwf' & _ & Hf); [|done].
    pose proof (free_count_change s s' p true Hwf Hwf' Hp Hch Hu) as E. cbv iota in E.
    pose proof (free_count_range s Hwf). pose proof (free_count_range s' Hwf').
    split; [done|]. rewrite Hf, u64_small; lia.
  - apply alloc_page_none in Ha as [-> _]; done.
Qed.

(** ** Freeing *)

Lemma free_page_spec s p :
  wf s → valid_page p →
  ∃ s', free_page (p * PAGE_SIZE) s = Ok (tt, s') ∧ wf s' ∧ only_changes s s' p false ∧
    FREE_PAGES s' = u64 (FREE_PAGES s + 1).
Proof.
  intros Hwf Hp. unfold free_page. rewrite Z.div_mul by done.
  rewrite (proj2 (Z.leb_gt _ _)) by apply Hp.
  destruct (set_free_spec s p) as (s' & Hs & Hwf' & _ & Hf & Hch); [done..|].
  unfold mbind, ST_bind, modify. rewrite Hs. eexists. split; [reflexivity|].
  rewrite <- Hf. split; [exact Hwf'|]. split; [exact Hch|done].
Qed.

Lemma free_page_inv s p :
  inv s → valid_page p → used s p = true →
  ∃ s', free_page (p * PAGE_SIZE) s = Ok (tt, s') ∧ inv s' ∧ used s' p = false.
Proof.
  intros [Hwf Hc] Hp Hu. destruct (free_page_spec s p) as (s' & Hs & Hwf' & Hch & Hf); [done..|].
  exists s'. split; [done|]. split; [|apply Hch]. split; [done|].
  pose proof (free_count_change s s' p false Hwf Hwf' Hp Hch Hu) as E. cbv iota in E.
  pose proof (free_count_range s Hwf). pose proof (free_count_range s' Hwf'). rewrite Hf, u64_small; lia.
Qed.

(** ** Contiguous allocation *)

Definition run_free (s : pmm) (i count : Z) : Prop :=
  0 ≤ i ∧ i + count ≤ MAX_PAGES ∧ ∀ p, i ≤ p < i + count → used s p = false.

Lemma check_run_spec s i n :
  wf s → 0 ≤ i →
  match check_run s i n with
  | Ok RunFree => (n = 0%nat ∨ i + Z.of_nat n ≤ MAX_PAGES) ∧ ∀ p, i ≤ p < i + Z.of_nat n → used s p = false
  | Ok RunUsed => ∃ p, i ≤ p < i + Z.of_nat n ∧ used s p = true
  | Ok RunPastEnd => MAX_PAGES < i + Z.of_nat n
  | Panic _ => False
  end.
Proof.
  intros Hwf. revert i. induction n as [|n IH]; intros i Hi; cbn [check_run].
  - split; [by left|lia].
  - rewrite Nat2Z.inj_succ. destruct (Z.leb_spec MAX_PAGES i); [lia|].
    rewrite is_used_spec by done. cbn [mbind outcome_bind].
    destruct (used s i) eqn:Hu; [exists i; split; [lia|done]|].
    specialize (IH (i + 1) ltac:(lia)). destruct (check_run s (i + 1) n) as [[]|].
    + destruct IH as [Hb Hf]. split; [lia|]. intros p Hp.
      destruct (decide (p = i)) as [->|]; [done|]. apply Hf. lia.
    + destruct IH as (p & Hp & Hup). exists p. split; [lia|done].
    + lia.
    + done.
Qed.

Definition claims (s s' : pmm) (i count : Z) : Prop :=
  ∀ q, 0 ≤ q → used s' q = used s q || bool_decide (i ≤ q < i + count).

Lemma claim_run_spec s i n :
  wf s → 0 ≤ i → i + Z.of_nat n ≤ MAX_PAGES → (∀ p, i ≤ p < i + Z.of_nat n → used s p = false) →
  ∃ s', claim_run i n s = Ok (tt, s') ∧ wf s' ∧ claims s s' i (Z.of_nat n) ∧
    TOTAL_PAGES s' = TOTAL_PAGES s ∧ FREE_PAGES s' = FREE_PAGES s ∧
    free_count s' = free_count s - Z.of_nat n.
Proof.
  revert s i. induction n as [|n IH]; intros s i Hwf Hi Hb Hfree; cbn [claim_run].
  - exists s. split; [done|]. split; [done|]. split; [|split; [done|split; [done|lia]]].
    intros q Hq. rewrite bool_decide_false by lia. by rewrite orb_false_r.
  - assert (valid_page i) by (unfold valid_page; lia).
    destruct (set_used_spec s i) as (s1 & H1 & Hwf1 & Ht1 & Hf1 & Hch); [done..|].
    pose proof (free_count_change s s1 i true) as Hc1. cbv iota in Hc1.
    destruct (IH s1 (i + 1)) as (s2 & H2 & Hwf2 & Hc & Ht2 & Hf2 & Hc2); [done|lia|lia| |].
    { intros p Hp. rewrite (proj2 Hch) by lia. apply Hfree. lia. }
    exists s2. unfold mbind, ST_bind. rewrite H1, H2. split; [done|]. split; [done|].
    split; [|split; [congruence|split; [congruence|]]].
    + intros q Hq. rewrite Hc by done. destruct (decide (q = i)) as [->|].
      * rewrite (proj1 Hch). rewrite (bool_decide_true (i ≤ i < _)) by lia. by rewrite orb_true_r.
      * rewrite (proj2 Hch) by done. f_equal. apply bool_decide_ext. lia.
    + rewrite Hc2, Hc1; [lia|done..|]. apply Hfree. lia.
Qed.

(** What one call of [alloc_contiguous] guarantees. *)
Definition contiguous_post (s : pmm) (count : Z) (r : option Z) (s' : pmm) : Prop :=
  match r with
  | Some a => ∃ i, a = i * PAGE_SIZE ∧ run_free s i count ∧ (∀ j, 0 ≤ j < i → ¬ run_free s j count) ∧
      claims s s' i count ∧ wf s' ∧ FREE_PAGES s' = u64 (FREE_PAGES s - count) ∧
      free_count s' = free_count s - count
  | None => s' = s ∧ ∀ j, ¬ run_free s j count
  end.

Lemma alloc_contiguous_from_spec s count fuel i :
  wf s → 0 < count → 0 ≤ i → Z.of_nat fuel = MAX_PAGES - i →
  (∀ j, 0 ≤ j < i → ¬ run_free s j count) →
  wp (alloc_contiguous_from fuel i count) s (contiguous_post s count).
Proof.
  intros Hwf Hc. revert i. induction fuel as [|fuel IH]; intros i Hi Hfu Hpre; cbn [alloc_contiguous_from].
  - apply wp_ret. split; [done|]. intros j Hj. apply (Hpre j); [destruct Hj as (? & ? & _); lia|exact Hj].
  - unfold wp. pose proof (check_run_spec s i (Z.to_nat count) Hwf Hi) as Hr.
    rewrite Z2Nat.id in Hr by lia.
    destruct (check_run s i (Z.to_nat count)) as [[]|]; cbn [mbind outcome_bind]; [| | |done].
    + destruct Hr as [Hb Hf].
      destruct (claim_run_spec s i (Z.to_nat count)) as (s' & Hs & Hwf' & Hcl & Ht & Hfp & Hfc);
        [done|done|lia|intros; apply Hf; lia|].
      rewrite Hs. cbn [mbind outcome_bind]. rewrite Z2Nat.id in Hcl, Hfc by lia.
      exists i. split; [done|]. split; [split; [done|split; [lia|done]]|].
      split; [done|]. split; [done|]. split; [done|]. split; [|done]. simpl. by rewrite Hfp.
    + destruct Hr as (p & Hp & Hu). apply IH; [lia|lia|]. intros j Hj Hrf.
      destruct (decide (j = i)) as [->|]; [|apply (Hpre j); [lia|exact Hrf]].
      destruct Hrf as (_ & _ & Hall). rewrite Hall in Hu by lia. done.
    + split; [done|]. intros j Hj. apply (Hpre j); [destruct Hj as (? & ? & _); lia|exact Hj].
Qed.

Lemma alloc_contiguous_spec s count :
  wf s → 0 < count → wp (alloc_contiguous count) s (contiguous_post s count).
Proof.
  intros Hwf Hc. unfold alloc_contiguous.
  assert (Z.of_nat (Z.to_nat MAX_PAGES) = MAX_PAGES - 0) as Hn
    by (rewrite Z.sub_0_r; by apply Z2Nat.id).
  revert Hn. generalize (Z.to_nat MAX_PAGES). intros n Hn.
  apply alloc_contiguous_from_spec; [done|done|done|done|lia].
Qed.

Lemma contiguous_inv s count r s' :
  inv s → 0 < count → alloc_contiguous count s = Ok (r, s') → inv s'.
Proof.
  intros [Hwf Hc] Hcount Ha.
  pose proof (wp_result _ _ _ _ _ (alloc_contiguous_spec s count Hwf Hcount) Ha) as Hp.
  destruct r as [a|]; unfold contiguous_post in Hp.
  - destruct Hp as (i & _ & _ & _ & _ & Hwf' & Hf & Hfc). split; [done|].
    pose proof (free_count_range s' Hwf'). pose proof (free_count_range s Hwf).
    rewrite Hf, u64_small; lia.
  - destruct Hp as [-> _]. by split.
Qed.

(** ** Initialisation *)

Definition region_ok (e : MemRegion) : Prop := is_u 64 (base e) ∧ is_u 64 (rlen e).

(** Frame [p] lies in a usable region (rounded to frames as [init] does). *)
Definition frees (e : MemRegion) (p : Z) : bool :=
  region_usable e && bool_decide (region_first e ≤ p < region_last e).
Definition covered (memmap : list MemRegion) (p : Z) : bool := existsb (λ e, frees e p) memmap.

(** No frame is freed by two regions of the map. *)
Fixpoint regions_disjoint (seen memmap : list MemRegion) : Prop :=
  match memmap with
  | [] => True
  | e :: rest =>
    (∀ p, valid_page p → frees e p = true → covered seen p = false) ∧ regions_disjoint (seen ++ [e]) rest
  end.

Lemma init_pages_spec s n page usable total free :
  wf s → 0 ≤ page → (n = 0%nat ∨ page + Z.of_nat n ≤ MAX_PAGES) →
  wp (init_pages n page usable total free) s (λ r s', wf s' ∧
    (∀ q, 0 ≤ q → used s' q = used s q && negb (usable && bool_decide (page ≤ q < page + Z.of_nat n))) ∧
    ((usable = true → ∀ q, page ≤ q < page + Z.of_nat n → used s q = true) →
     free = free_count s → snd r = free_count s')).
Proof.
  revert s page total free. induction n as [|n IH]; intros s page total free Hwf Hp Hn; cbn [init_pages].
  - apply wp_ret. split; [done|]. split; [|done]. intros q Hq.
    rewrite bool_decide_false by lia. by rewrite andb_false_r, andb_true_r.
  - destruct usable; cycle 1.
    + eapply wp_mono; [apply IH; [done|lia|lia]|]. intros r s' (Hwf' & Hu & Hc).
      split; [done|]. split; [|intros _; by apply Hc]. intros q Hq. rewrite Hu by done. by rewrite !andb_false_l.
    + assert (valid_page page) by (unfold valid_page; lia).
      destruct (set_free_spec s page) as (s1 & H1 & Hwf1 & _ & _ & Hch); [done..|].
      apply wp_bind. eapply wp_ok; [exact H1|]. eapply wp_mono; [apply IH; [done|lia|lia]|].
      intros r s' (Hwf' & Hu & Hc). split; [done|]. split.
      * intros q Hq. rewrite Hu by done. simpl. destruct (decide (q = page)) as [->|].
        -- rewrite (proj1 Hch). rewrite (bool_decide_true (page ≤ page < _)) by lia. by rewrite andb_false_r.
        -- rewrite (proj2 Hch) by done. do 2 f_equal. apply bool_decide_ext. lia.
      * intros Hall Hfree. apply Hc.
        -- intros _ q Hq. rewrite (proj2 Hch) by lia. apply Hall; [done|lia].
        -- assert (free_count s1 = free_count s + 1).
           { apply (free_count_change s s1 page false); [done..|]. apply Hall; [done|lia]. }
           pose proof (free_count_range s1 Hwf1). pose proof (free_count_range s Hwf).
           rewrite u64_small; lia.
Qed.

Lemma init_regions_spec s seen memmap total free :
  wf s → Forall region_ok memmap → (∀ q, valid_page q → used s q = negb (covered seen q)) →
  wp (init_regions memmap total free) s (λ r s', wf s' ∧
    (∀ q, valid_page q → used s' q = negb (covered (seen ++ memmap) q)) ∧
    (regions_disjoint seen memmap → free = free_count s → snd r = free_count s')).
Proof.
  revert s seen total free. induction memmap as [|e memmap IH]; intros s seen total free Hwf Hok Hseen;
    cbn [init_regions].
  - apply wp_ret. rewrite app_nil_r. done.
  - apply Forall_cons_iff in Hok as [[He1 He2] Hok].
    assert (0 ≤ region_first e) by (unfold region_first, PAGE_SIZE, is_u in *; dlia).
    wp_step init_pages_spec; [done|done|lia|]. intros [total1 free1] s1 (Hwf1 & Hu1 & Hc1).
    eapply wp_mono; [apply (IH s1 (seen ++ [e])); [done|done|]|].
    + intros q Hq. rewrite Hu1 by apply Hq. rewrite Hseen by done. unfold covered.
      rewrite existsb_app. simpl. rewrite orb_false_r, negb_orb. do 2 f_equal. unfold frees. f_equal.
      apply bool_decide_ext. unfold valid_page in Hq. lia.
    + intros r s' (Hwf' & Hu & Hc). rewrite <- app_assoc in Hu. split; [done|]. split; [done|].
      intros [Hd Hdr] Hf. apply Hc; [done|]. apply Hc1; [|done]. intros Hus q Hq.
      assert (valid_page q) by (unfold valid_page; lia).
      rewrite Hseen by done. rewrite Hd; [done|done|]. unfold frees. rewrite Hus. simpl.
      apply bool_decide_true. lia.
Qed.

Lemma all_used_init s p :
  length (BITMAP s) = Z.to_nat (MAX_PAGES / 64) → valid_page p →
  used (with_bitmap s (replicate (length (BITMAP s)) U64_MAX)) p = true.
Proof.
  intros Hlen Hp. apply used_full_word. simpl. pose proof max_pages_words. unfold valid_page in Hp.
  rewrite lookup_replicate_2; [done|]. rewrite Hlen. dlia.
Qed.

Lemma init_wf s :
  length (BITMAP s) = Z.to_nat (MAX_PAGES / 64) →
  wf (with_bitmap s (replicate (length (BITMAP s)) U64_MAX)).
Proof.
  intros Hlen. split; simpl; [by rewrite length_replicate|].
  apply Forall_replicate. unfold is_u, U64_MAX. lia.
Qed.

Lemma init_spec s memmap :
  length (BITMAP s) = Z.to_nat (MAX_PAGES / 64) → Forall region_ok memmap →
  wp (init memmap) s (λ _ s', wf s' ∧ (∀ p, valid_page p → used s' p = negb (covered memmap p)) ∧
    (regions_disjoint [] memmap → inv s')).
Proof.
  intros Hlen Hok. unfold init. apply wp_bind. eapply wp_ok; [reflexivity|].
  set (s0 := with_bitmap _ _). assert (wf s0) as Hwf by by apply init_wf.
  wp_step (init_regions_spec s0 []); [done|done|intros q Hq; by apply all_used_init|].
  intros [total free] s1 (Hwf1 & Hu & Hc). unfold wp, modify. split; [exact Hwf1|]. split; [exact Hu|].
  intros Hd. split; [exact Hwf1|]. apply Hc; [done|].
  symmetry. pose proof (free_count_range s0 Hwf). pose proof (free_count_pos s0 Hwf) as Hpos.
  destruct (decide (free_count s0 = 0)); [done|].
  destruct (proj1 Hpos) as (p & Hp & Hup); [lia|]. unfold s0 in Hup. by rewrite all_used_init in Hup.
Qed.

(** ** The interface the rest of the kernel relies on

    A frame source hands out physical frames by address. Clients (page
    tables, the heap, the ELF loader, HepFS's I/O pages) are proved against
    this class; the bitmap allocator is its instance. *)

Class FrameSource (S : Type) := {
  fs_alloc : S → option Z * S;
  fs_inv : S → Prop;
  fs_avail : S → Z;
  fs_used : S → Z → bool;
  fs_alloc_law : ∀ s, fs_inv s →
    match fs_alloc s with
    | (Some a, s') =>
      fs_inv s' ∧ 0 < fs_avail s ∧ fs_avail s' = fs_avail s - 1 ∧
      0 ≤ a < MAX_PAGES * PAGE_SIZE ∧ a mod PAGE_SIZE = 0 ∧ fs_used s a = false ∧
      ∀ b, 0 ≤ b → b mod PAGE_SIZE = 0 → fs_used s' b = fs_used s b || bool_decide (b = a)
    | (None, s') => s' = s ∧ fs_avail s ≤ 0
    end
}.

Lemma pmm_alloc_law s : inv s →
  match alloc_page s with
  | (Some a, s') =>
    inv s' ∧ 0 < free_count s ∧ free_count s' = free_count s - 1 ∧
    0 ≤ a < MAX_PAGES * PAGE_SIZE ∧ a mod PAGE_SIZE = 0 ∧ used s (a / PAGE_SIZE) = false ∧
    ∀ b, 0 ≤ b → b mod PAGE_SIZE = 0 →
      used s' (b / PAGE_SIZE) = used s (b / PAGE_SIZE) || bool_decide (b = a)
  | (None, s') => s' = s ∧ free_count s ≤ 0
  end.
Proof.
  intros Hinv. destruct (alloc_page s) as [[a|] s'] eqn:E.
  - pose proof (alloc_page_inv s _ s' Hinv E) as Hinv'. destruct Hinv as [Hwf Hc].
    apply alloc_page_some in E as (p & -> & Hp & Hu & _ & Hch & Hwf' & _ & Hf); [|done].
    pose proof (free_count_change s s' p true Hwf Hwf' Hp Hch Hu) as Hd. cbv iota in Hd.
    unfold valid_page in Hp. rewrite Z.div_mul by done.
    split; [done|]. split; [apply free_count_pos; [done|]; exists p; done|]. split; [lia|].
    split; [unfold PAGE_SIZE; lia|]. split; [by apply Z.mod_mul|]. split; [done|].
    intros b Hb Hbm. destruct (decide (b = p * PAGE_SIZE)) as [->|Hne].
    + rewrite Z.div_mul by done. rewrite (proj1 Hch), bool_decide_true by done. by rewrite orb_true_r.
    + rewrite (bool_decide_false (b = _)) by done. rewrite orb_false_r.
      apply (proj2 Hch); unfold PAGE_SIZE in *; dlia.
  - destruct Hinv as [Hwf Hc]. apply alloc_page_none in E as [-> Hfull]; [|done]. split; [done|].
    destruct (decide (0 < free_count s)) as [Hpos|]; [|lia].
    apply free_count_pos in Hpos as (p & Hp & Hu); [|done]. by rewrite Hfull in Hu.
Qed.

#[export] Instance pmm_frames : FrameSource pmm := {|
  fs_alloc := alloc_page;
  fs_inv := inv;
  fs_avail := free_count;
  fs_used s a := used s (a / PAGE_SIZE);
  fs_alloc_law := pmm_alloc_law
|}.

(** ** Properties *)

(** [alloc_page] from a consistent allocator returns the lowest free frame,
    marks exactly that frame used and keeps [FREE_PAGES] equal to the number of
    clear bits; it fails only when every frame is used, changing nothing. *)
Theorem alloc_page_lowest_free s r s' :
  inv s → alloc_page s = (r, s') →
  inv s' ∧
  match r with
  | Some a => ∃ p, a = p * PAGE_SIZE ∧ valid_page p ∧ used s p = false ∧
      (∀ q, 0 ≤ q < p → used s q = true) ∧ only_changes s s' p true ∧
      FREE_PAGES s' = FREE_PAGES s - 1
  | None => s' = s ∧ ∀ p, valid_page p → used s p = true
  end.
Proof.
  intros Hinv Ha. pose proof (alloc_page_inv s r s' Hinv Ha) as Hinv'. split; [done|].
  destruct Hinv as [Hwf Hc], Hinv' as [Hwf' Hc']. destruct r as [a|].
  - apply alloc_page_some in Ha as (p & -> & Hp & Hu & Hlow & Hch & _ & _ & Hf); [|done].
    exists p. do 5 (split; [done|]).
    rewrite Hc', Hc, (free_count_change s s' p true) by done. lia.
  - by apply alloc_page_none.
Qed.

(** [alloc_contiguous(count)] for [count > 0] never panics; it claims the first
    run of [count] free frames, exactly those frames, and keeps the free counter
    exact; it returns [None] only when no such run exists. *)
Theorem alloc_contiguous_first_fit s count :
  inv s → 0 < count →
  wp (alloc_contiguous count) s (λ r s', inv s' ∧
    match r with
    | Some a => ∃ i, a = i * PAGE_SIZE ∧ run_free s i count ∧
        (∀ j, 0 ≤ j < i → ¬ run_free s j count) ∧ claims s s' i count
    | None => s' = s ∧ ∀ j, ¬ run_free s j count
    end).
Proof.
  intros [Hwf Hc] Hcount. eapply wp_mono; [by apply alloc_contiguous_spec|].
  intros [a|] s' Hpost; simpl in Hpost.
  - destruct Hpost as (i & -> & Hrf & Hfirst & Hcl & Hwf' & Hf & Hfc). split; [|by exists i].
    pose proof (free_count_range s' Hwf'). pose proof (free_count_range s Hwf).
    split; [done|]. rewrite Hf, u64_small; lia.
  - destruct Hpost as [-> Hnone]. by split; [|split].
Qed.

(** after [init] a frame is free exactly when some usable region with base at or
    above 1 MiB covers it, and, when no frame is freed twice, the free counter is
    the number of clear bits. *)
Theorem init_frees_usable_regions s memmap :
  length (BITMAP s) = Z.to_nat (MAX_PAGES / 64) → Forall region_ok memmap →
  regions_disjoint [] memmap →
  wp (init memmap) s (λ _ s', inv s' ∧ ∀ p, valid_page p → used s' p = negb (covered memmap p)).
Proof.
  intros Hlen Hok Hd. eapply wp_mono; [by apply init_spec|]. intros _ s' (Hwf & Hu & Hinv). auto.
Qed.

(** Allocator states reachable from boot by allocating frames, allocating runs and
    freeing frames that are in use. *)
Inductive reachable (memmap : list MemRegion) : pmm → Prop :=
| reach_init s s' :
    length (BITMAP s) = Z.to_nat (MAX_PAGES / 64) → init memmap s = Ok (tt, s') → reachable memmap s'
| reach_alloc s r s' : reachable memmap s → alloc_page s = (r, s') → reachable memmap s'
| reach_contig s count r s' :
    reachable memmap s → 0 < count → alloc_contiguous count s = Ok (r, s') → reachable memmap s'
| reach_free s p s' :
    reachable memmap s → valid_page p → used s p = true →
    free_page (p * PAGE_SIZE) s = Ok (tt, s') → reachable memmap s'.

(** C40: in every state reachable from boot by the allocator's operations, with no
    frame freed twice, [FREE_PAGES] is the number of free frames of the bitmap. *)
Theorem free_pages_exact memmap s :
  Forall region_ok memmap → regions_disjoint [] memmap → reachable memmap s →
  wf s ∧ FREE_PAGES s = free_count s.
Proof.
  intros Hok Hd. induction 1 as [s s' Hlen Hi|s r s' _ IH Ha|s c r s' _ IH Hc Ha|s p s' _ IH Hp Hu Hf].
  - by apply (wp_result _ _ _ _ _ (init_spec s memmap Hlen Hok) Hi).
  - by eapply alloc_page_inv.
  - by eapply contiguous_inv.
  - destruct (free_page_inv s p IH Hp Hu) as (s1 & Hs1 & Hinv & _).
    rewrite Hs1 in Hf. by injection Hf as <-.
Qed.

(** ** Concrete machine: 64 KiB of RAM at 1 MiB and a reserved hole *)

Definition demo_map : list MemRegion :=
  [mkRegion 0 0xA0000 1; mkRegion 0x100000 0x10000 1; mkRegion 0x110000 0x1000 0].
Definition demo_boot : pmm := mkPmm (replicate (Z.to_nat (MAX_PAGES / 64)) 0) 0 0.
Definition demo_pmm : pmm :=
  match init demo_map demo_boot with Ok (_, s) => s | Panic _ => demo_boot end.

Lemma demo_map_ok : Forall region_ok demo_map.
Proof. repeat (constructor; [split; unfold is_u; simpl; lia|]). constructor. Qed.

Lemma demo_map_disjoint : regions_disjoint [] demo_map.
Proof.
  unfold demo_map. cbn [regions_disjoint]. split_and!; [| | |done]; intros p Hp;
    unfold frees, covered, region_first, region_last, region_usable; simpl; try done.
Qed.

Lemma demo_boot_len : length (BITMAP demo_boot) = Z.to_nat (MAX_PAGES / 64).
Proof. apply length_replicate. Qed.

Lemma demo_init : init demo_map demo_boot = Ok (tt, demo_pmm).
Proof.
  destruct (wp_inv _ _ _ (init_spec demo_boot demo_map demo_boot_len demo_map_ok)) as ([] & s & E & _).
  unfold demo_pmm. by rewrite E.
Qed.

Lemma demo_pmm_inv : inv demo_pmm.
Proof.
  destruct (wp_result _ _ _ _ _ (init_spec demo_boot demo_map demo_boot_len demo_map_ok) demo_init)
    as (_ & _ & H).
  apply H, demo_map_disjoint.
Qed.

Lemma alloc_page_lowest_free_witness :
  inv (snd (alloc_page demo_pmm)) ∧
  match fst (alloc_page demo_pmm) with
  | Some a => ∃ p, a = p * PAGE_SIZE ∧ valid_page p ∧ used demo_pmm p = false ∧
      (∀ q, 0 ≤ q < p → used demo_pmm q = true) ∧ only_changes demo_pmm (snd (alloc_page demo_pmm)) p true ∧
      FREE_PAGES (snd (alloc_page demo_pmm)) = FREE_PAGES demo_pmm - 1
  | None => snd (alloc_page demo_pmm) = demo_pmm ∧ ∀ p, valid_page p → used demo_pmm p = true
  end.
Proof. exact (alloc_page_lowest_free demo_pmm _ _ demo_pmm_inv (surjective_pairing _)). Defined.

Lemma alloc_contiguous_first_fit_witness :
  wp (alloc_contiguous 4) demo_pmm (λ r s', inv s' ∧
    match r with
    | Some a => ∃ i, a = i * PAGE_SIZE ∧ run_free demo_pmm i 4 ∧
        (∀ j, 0 ≤ j < i → ¬ run_free demo_pmm j 4) ∧ claims demo_pmm s' i 4
    | None => s' = demo_pmm ∧ ∀ j, ¬ run_free demo_pmm j 4
    end).
Proof. apply (alloc_contiguous_first_fit demo_pmm 4 demo_pmm_inv). lia. Defined.

Lemma init_frees_usable_regions_witness :
  wp (init demo_map) demo_boot (λ _ s', inv s' ∧
    ∀ p, valid_page p → used s' p = negb (covered demo_map p)).
Proof.
  apply (init_frees_usable_regions demo_boot demo_map).
  - exact demo_boot_len.
  - exact demo_map_ok.
  - exact demo_map_disjoint.
Defined.

Lemma free_pages_exact_witness : wf demo_pmm ∧ FREE_PAGES demo_pmm = free_count demo_pmm.
Proof.
  apply (free_pages_exact demo_map demo_pmm demo_map_ok demo_map_disjoint).
  eapply reach_init; [exact demo_boot_len|exact demo_init].
Defined.

(** 16384 free frames at address 0, the rest in use. *)
Definition demo_frames : pmm :=
  mkPmm (replicate 256 0 ++ replicate (Z.to_nat 7936) U64_MAX) 16384 16384.

Lemma demo_frames_inv : inv demo_frames.
Proof.
  split; [split|].
  - unfold demo_frames. cbn [BITMAP]. rewrite length_app, !length_replicate. unfold MAX_PAGES. change (512 * 1024 / 64) with 8192. lia.
  - unfold demo_frames. cbn [BITMAP]. apply Forall_app. split; apply Forall_replicate; unfold is_u, U64_MAX; lia.
  - unfold free_count, demo_frames. cbn [BITMAP FREE_PAGES]. rewrite zeros_all_app, !zeros_all_replicate.
    change (word_zeros 0) with 64. change (word_zeros U64_MAX) with 0. lia.
Qed.

Lemma demo_frames_used p : 16384 ≤ p < MAX_PAGES → used demo_frames p = true.
Proof.
  intros Hp. unfold MAX_PAGES in Hp. apply used_full_word. unfold demo_frames. cbn [BITMAP].
  rewrite lookup_app_r by (rewrite length_replicate; dlia). rewrite length_replicate. apply lookup_replicate_2. dlia.
Qed.
