(* ===== verification/Memory.v ===== *)
(** Physical memory and the kernel's direct-map window ([kernel/src/vmm.rs]).

    Memory is a byte per physical address. The kernel reaches physical address
    [a] through the virtual address [hhdm + a] (wrapping at 64 bits), set up by
    the boot loader: an access through that window is modelled as the access to
    the physical byte. The machine also carries the frame allocator and [CR3]. *)

From stdpp Require Import prelude list numbers.
From S2P Require Import Prelude Pmm.

Local Open Scope Z_scope.

Definition memory : Type := Z → Z.

(** [n] bytes from [a], and [l] written at [a]. *)
Definition peek (m : memory) (a : Z) (n : nat) : list Z := (λ i, m (a + Z.of_nat i)) <$> seq 0 n.
Definition poke (m : memory) (a : Z) (l : list Z) : memory := λ x,
  if (a <=? x) && (x <? a + len l) then default 0 (l !! Z.to_nat (x - a)) else m x.

Definition read64 (m : memory) (a : Z) : Z := le_val (peek m a 8).
Definition write64 (m : memory) (a v : Z) : memory := poke m a (le_bytes 8 v).
Definition zero_page (m : memory) (a : Z) : memory := poke m a (replicate 4096 0).

Record mach (F : Type) := mkMach { frames : F; ram : memory; cr3 : Z; hhdm : Z }.
Arguments mkMach {F}. Arguments frames {F}. Arguments ram {F}. Arguments cr3 {F}. Arguments hhdm {F}.

Section mach.
Context {F : Type} `{!FrameSource F}.

Definition set_frames (f : F) (s : mach F) : mach F := mkMach f (ram s) (cr3 s) (hhdm s).
Definition set_ram (m : memory) (s : mach F) : mach F := mkMach (frames s) m (cr3 s) (hhdm s).
Definition set_cr3 (c : Z) (s : mach F) : mach F := mkMach (frames s) (ram s) c (hhdm s).

Definition vmm_init (h : Z) : ST (mach F) unit := modify (λ s, mkMach (frames s) (ram s) (cr3 s) h).
Definition phys_to_virt (s : mach F) (phys : Z) : Z := u64 (hhdm s + phys).
Definition hhdm_offset (s : mach F) : Z := hhdm s.

(** The physical address behind a pointer into the window. *)
Definition behind (s : mach F) (v : Z) : Z := u64 (v - hhdm s).

Definition kread64 (v : Z) : ST (mach F) Z := gets (λ s, read64 (ram s) (behind s v)).
Definition kwrite64 (v w : Z) : ST (mach F) unit := modify (λ s, set_ram (write64 (ram s) (behind s v) w) s).
Definition kwrite (v : Z) (l : list Z) : ST (mach F) unit := modify (λ s, set_ram (poke (ram s) (behind s v) l) s).
(** [ptr::write_bytes(v, 0, 4096)] *)
Definition kzero_page (v : Z) : ST (mach F) unit := modify (λ s, set_ram (zero_page (ram s) (behind s v)) s).

(** [pmm::alloc_page()] *)
Definition page_alloc : ST (mach F) (option Z) := λ s,
  let '(r, f) := fs_alloc (frames s) in Ok (r, set_frames f s).

Lemma behind_virt s phys off : 0 ≤ phys + off < 2 ^ 64 → behind s (phys_to_virt s phys + off) = phys + off.
Proof.
  intros H. unfold behind, phys_to_virt, wrap.
  replace ((hhdm s + phys) mod 2 ^ 64 + off - hhdm s) with ((hhdm s + phys) mod 2 ^ 64 + (off - hhdm s)) by lia.
  rewrite Zplus_mod_idemp_l. replace (hhdm s + phys + (off - hhdm s)) with (phys + off) by lia. by apply Z.mod_small.
Qed.

Lemma behind_virt0 s phys : 0 ≤ phys < 2 ^ 64 → behind s (phys_to_virt s phys) = phys.
Proof. intros. rewrite <- (Z.add_0_r (phys_to_virt s phys)). rewrite behind_virt; lia. Qed.
End mach.

(** ** Reading what was written *)

Section memory.
Implicit Types (m : memory).

Lemma length_peek m a n : length (peek m a n) = n.
Proof. unfold peek. by rewrite length_fmap, length_seq. Qed.

Lemma lookup_peek m a n i : (i < n)%nat → peek m a n !! i = Some (m (a + Z.of_nat i)).
Proof. intros Hi. unfold peek. rewrite list_lookup_fmap, lookup_seq_lt by done. done. Qed.

Lemma peek_ext m m' a n : (∀ x, a ≤ x < a + Z.of_nat n → m' x = m x) → peek m' a n = peek m a n.
Proof.
  intros H. apply list_eq. intros i. destruct (decide (i < n)%nat).
  - rewrite !lookup_peek by done. f_equal. apply H. lia.
  - rewrite !lookup_ge_None_2; [done|rewrite length_peek; lia..].
Qed.

Lemma poke_in m a l x b : l !! Z.to_nat (x - a) = Some b → a ≤ x → poke m a l x = b.
Proof.
  intros Hl Hx. unfold poke. pose proof (lookup_lt_Some _ _ _ Hl). rewrite (proj2 (Z.leb_le _ _)) by lia.
  rewrite (proj2 (Z.ltb_lt _ _)) by (unfold len; lia). cbn. by rewrite Hl.
Qed.

Lemma poke_out m a l x : ¬ (a ≤ x < a + len l) → poke m a l x = m x.
Proof.
  intros Hx. unfold poke. destruct (Z.leb_spec a x); [|done]. cbn. by rewrite (proj2 (Z.ltb_ge _ _)) by lia.
Qed.

Lemma peek_poke_same m a l : peek (poke m a l) a (length l) = l.
Proof.
  apply list_eq. intros i. destruct (decide (i < length l)%nat) as [Hi|].
  - rewrite lookup_peek by done. destruct (lookup_lt_is_Some_2 l i Hi) as [b Hb]. rewrite Hb. f_equal. apply poke_in; [|lia].
    rewrite <- Hb. f_equal. lia.
  - rewrite !lookup_ge_None_2; [done|lia|rewrite length_peek; lia].
Qed.
Lemma peek_poke_len (m : memory) a l n : length l = n → peek (poke m a l) a n = l.
Proof. intros <-. apply peek_poke_same. Qed.

Lemma peek_poke_out m a l a' n : a' + Z.of_nat n ≤ a ∨ a + len l ≤ a' → peek (poke m a l) a' n = peek m a' n.
Proof. intros H. apply peek_ext. intros x Hx. apply poke_out. lia. Qed.

Lemma read64_ext m m' a : (∀ x, a ≤ x < a + 8 → m' x = m x) → read64 m' a = read64 m a.
Proof. intros H. unfold read64. by rewrite (peek_ext m m'). Qed.

Lemma read64_write64 m a v : is_u 64 v → read64 (write64 m a v) a = v.
Proof.
  intros Hv. unfold read64, write64. pose proof (peek_poke_same m a (le_bytes 8 v)) as E. rewrite length_le_bytes in E. rewrite E.
  by apply le_val_bytes.
Qed.

Lemma write64_out m a v x : ¬ (a ≤ x < a + 8) → write64 m a v x = m x.
Proof. intros H. apply poke_out. unfold len. by rewrite length_le_bytes. Qed.

Lemma read64_write64_ne m a v a' : a' + 8 ≤ a ∨ a + 8 ≤ a' → read64 (write64 m a v) a' = read64 m a'.
Proof. intros H. apply read64_ext. intros x Hx. apply write64_out. lia. Qed.

Lemma zero_page_in m a x : a ≤ x < a + 4096 → zero_page m a x = 0.
Proof. intros H. apply poke_in; [|lia]. apply lookup_replicate_2. lia. Qed.

Lemma zero_page_out m a x : ¬ (a ≤ x < a + 4096) → zero_page m a x = m x.
Proof. intros H. apply poke_out. unfold len. by rewrite length_replicate. Qed.

Lemma read64_zero_page m a i : 0 ≤ i < 512 → read64 (zero_page m a) (a + 8 * i) = 0.
Proof.
  intros Hi. unfold read64. assert (peek (zero_page m a) (a + 8 * i) 8 = replicate 8 0) as ->; [|done].
  apply list_eq. intros j. destruct (decide (j < 8)%nat).
  - rewrite lookup_peek, lookup_replicate_2 by done. f_equal. apply zero_page_in. lia.
  - rewrite !lookup_ge_None_2; [done|rewrite length_replicate; lia|rewrite length_peek; lia].
Qed.
End memory.
