(* ===== verification/Paging.v ===== *)
(** Page tables ([kernel/src/paging.rs]): four-level x86-64 tables built in
    physical memory, and the walk the processor makes through them.

    [invlpg] is not modelled: there is no translation cache in the model, as if
    every change were flushed. *)

From stdpp Require Import prelude list numbers strings.
From S2P Require Import Prelude Pmm Memory.

Local Open Scope Z_scope.

Definition PRESENT : Z := bit 0.
Definition WRITE : Z := bit 1.
Definition USER : Z := bit 2.
Definition NOCACHE : Z := bit 4.

(** The address field of an entry, and its present bit. *)
Definition entry_addr (e : Z) : Z := Z.land e 0x000FFFFFFFFFF000.
Definition present (e : Z) : bool := negb (Z.land e PRESENT =? 0).

Definition i4 (virt : Z) : Z := Z.land (Z.shiftr virt 39) 0x1FF.
Definition i3 (virt : Z) : Z := Z.land (Z.shiftr virt 30) 0x1FF.
Definition i2 (virt : Z) : Z := Z.land (Z.shiftr virt 21) 0x1FF.
Definition i1 (virt : Z) : Z := Z.land (Z.shiftr virt 12) 0x1FF.

Section paging.
Context {F : Type} `{!FrameSource F}.

Definition cr3_phys : ST (mach F) Z := gets (λ s, Z.land (cr3 s) (Z.lnot 0xFFF)).

(** [get_or_make] and [get_or_make_user] differ only in the flags of a new entry. *)
Definition get_or_make_with (flags table_phys idx : Z) : ST (mach F) Z :=
  s ← get;
  let ptr := phys_to_virt s table_phys + 8 * idx in
  e ← kread64 ptr;
  if present e then mret (entry_addr e)
  else
    o ← page_alloc;
    p ← lift (unwrap "paging: OOM" o);
    kzero_page (phys_to_virt s p) ≫= λ _,
    kwrite64 ptr (Z.lor p flags) ≫= λ _,
    mret p.

Definition get_or_make : Z → Z → ST (mach F) Z := get_or_make_with (Z.lor PRESENT WRITE).
Definition get_or_make_user : Z → Z → ST (mach F) Z := get_or_make_with (Z.lor (Z.lor PRESENT WRITE) USER).

(** The three walks: to the table entry for [virt], then the leaf. *)
Definition map_with (gom : Z → Z → ST (mach F) Z) (pml4 virt leaf : Z) : ST (mach F) unit :=
  p3 ← gom pml4 (i4 virt);
  p2 ← gom p3 (i3 virt);
  p1 ← gom p2 (i2 virt);
  s ← get;
  kwrite64 (phys_to_virt s p1 + 8 * i1 virt) leaf.

Definition map_page (virt phys flags : Z) : ST (mach F) unit :=
  c ← cr3_phys; map_with get_or_make c virt (Z.lor (Z.lor (Z.lor phys flags) PRESENT) WRITE).

Definition map_page_current_user (virt phys flags : Z) : ST (mach F) unit :=
  c ← cr3_phys; map_with get_or_make_user c virt (Z.lor (Z.lor (Z.lor phys flags) PRESENT) USER).

Definition map_page_into (pml4_phys virt phys flags : Z) : ST (mach F) unit :=
  map_with get_or_make_user pml4_phys virt (Z.lor (Z.lor phys flags) PRESENT).

Fixpoint map_mmio_pages (n : nat) (i h phys : Z) : ST (mach F) unit :=
  match n with
  | O => mret tt
  | S n =>
    map_page (u64 (h + phys + i * 4096)) (u64 (phys + i * 4096)) NOCACHE ≫= λ _,
    map_mmio_pages n (i + 1) h phys
  end.

Definition map_mmio (phys size : Z) : ST (mach F) Z :=
  s ← get;
  map_mmio_pages (Z.to_nat (u64 (size + 4095) / 4096)) 0 (hhdm_offset s) phys ≫= λ _,
  mret (u64 (hhdm_offset s + phys)).
End paging.

(** ** The processor's walk *)

Definition PS : Z := bit 7.

Definition indices (virt : Z) : list Z := [i4 virt; i3 virt; i2 virt; i1 virt].

(** Follow entries from table [a]; [f] collects the permission bits granted at
    every level. An entry that is not present, or that maps a large page where a
    table is expected, ends the walk. *)
Fixpoint walk (m : memory) (a : Z) (path : list Z) (f : Z) : option (Z * Z) :=
  match path with
  | [] => Some (a, f)
  | i :: path =>
    let e := read64 m (a + 8 * i) in
    if present e && (bool_decide (path = []) || (Z.land e PS =? 0))
    then walk m (entry_addr e) path (Z.land f e) else None
  end.

(** Physical address, writable, user. *)
Definition translate (m : memory) (root virt : Z) : option (Z * bool * bool) :=
  '(a, f) ← walk m root (indices virt) U64_MAX;
  Some (a + virt mod 4096, negb (Z.land f WRITE =? 0), negb (Z.land f USER =? 0)).

(** The table reached along [path], whatever the permissions. *)
Fixpoint table_at (m : memory) (a : Z) (path : list Z) : option Z :=
  match path with
  | [] => Some a
  | i :: path => let e := read64 m (a + 8 * i) in if present e then table_at m (entry_addr e) path else None
  end.

(** ** Bits of entries *)

Lemma present_bit e : present e = Z.testbit e 0.
Proof. unfold present, PRESENT. rewrite land_bit_eqb by lia. by rewrite negb_involutive. Qed.

Lemma idx_range v k : 0 ≤ Z.land (Z.shiftr v k) 0x1FF < 512.
Proof. change 0x1FF with (Z.ones 9). rewrite Z.land_ones by lia. apply Z.mod_pos_bound. lia. Qed.

(** A frame address: page aligned and within the allocator's range. *)
Definition frame (a : Z) : Prop := 0 ≤ a < MAX_PAGES * PAGE_SIZE ∧ a mod PAGE_SIZE = 0.

(** Any page an entry can name: page aligned, within 52 bits. *)
Definition phys_page (a : Z) : Prop := 0 ≤ a < 2 ^ 52 ∧ a mod PAGE_SIZE = 0.

Lemma frame_page a : frame a → phys_page a.
Proof. intros [Hr Hm]. split; [|done]. unfold MAX_PAGES, PAGE_SIZE in *. lia. Qed.

Lemma page_bits a k : phys_page a → k < 12 ∨ 52 ≤ k → Z.testbit a k = false.
Proof.
  intros [Hr Hm] Hk. destruct (decide (k < 0)); [by apply Z.testbit_neg_r|]. destruct Hk.
  - change PAGE_SIZE with (2 ^ 12) in Hm. rewrite <- (Z.mod_pow2_bits_low a 12 k) by lia. rewrite Hm. apply Z.bits_0.
  - by apply (testbit_is_u 52).
Qed.

Lemma mask_bits k : 0 ≤ k → Z.testbit 0x000FFFFFFFFFF000 k = bool_decide (12 ≤ k < 52).
Proof.
  intros Hk. change 0x000FFFFFFFFFF000 with (Z.shiftl (Z.ones 40) 12). destruct (decide (k < 12)).
  - rewrite Z.shiftl_spec_low by lia. by rewrite bool_decide_false by lia.
  - rewrite Z.shiftl_spec_high by lia. destruct (decide (k < 52)).
    + rewrite Z.ones_spec_low by lia. by rewrite bool_decide_true by lia.
    + rewrite Z.ones_spec_high by lia. by rewrite bool_decide_false by lia.
Qed.

(** Flags live in the low twelve bits, so an entry gives back its address. *)
Lemma entry_addr_lor a f : phys_page a → 0 ≤ f < 4096 → entry_addr (Z.lor a f) = a.
Proof.
  intros Ha Hf. unfold entry_addr. apply Z.bits_inj'. intros k Hk. rewrite Z.land_spec, Z.lor_spec, mask_bits by done.
  case_bool_decide.
  - rewrite andb_true_r. rewrite (testbit_is_u 12 f k) by (unfold is_u; lia). apply orb_false_r.
  - rewrite andb_false_r. symmetry. apply page_bits; [done|lia].
Qed.

Lemma entry_u64 a f : phys_page a → 0 ≤ f < 4096 → is_u 64 (Z.lor a f).
Proof.
  intros Ha Hf. pose proof (proj1 Ha). apply is_u_testbit; [lia|apply Z.lor_nonneg; lia|]. intros k Hk. rewrite Z.lor_spec.
  rewrite (page_bits a k) by (done || lia). apply (testbit_is_u 12); [unfold is_u; lia|lia].
Qed.

Lemma entry_flag a f k : phys_page a → 0 ≤ k < 12 → Z.testbit (Z.lor a f) k = Z.testbit f k.
Proof. intros Ha Hk. rewrite Z.lor_spec, (page_bits a k) by (done || lia). done. Qed.

(** Entries of different tables, or different entries of one table, do not overlap. *)
Lemma entries_apart a b i j : frame a → frame b → 0 ≤ i < 512 → 0 ≤ j < 512 → (a, i) ≠ (b, j) →
  b + 8 * j + 8 ≤ a + 8 * i ∨ a + 8 * i + 8 ≤ b + 8 * j.
Proof.
  intros [_ Ha] [_ Hb] Hi Hj Hne. unfold PAGE_SIZE in *. destruct (decide (a = b)) as [->|].
  - assert (i ≠ j) by (intros ->; by apply Hne). lia.
  - assert (a + 4096 ≤ b ∨ b + 4096 ≤ a) by dlia. lia.
Qed.

Lemma frames_apart a b x : frame a → frame b → a ≠ b → b ≤ x < b + 4096 → ¬ (a ≤ x < a + 4096).
Proof. intros [_ Ha] [_ Hb] Hne Hx. unfold PAGE_SIZE in *. dlia. Qed.

(** ** The tree of tables

    [dom] selects the slots of the top table whose subtrees are described: the
    lower half for a process, whose upper half is shared with the kernel. *)

Section tree.
Context {F : Type} `{!FrameSource F} (dom : Z → Prop).
Implicit Types (m : memory) (f : F) (p q : list Z).

Definition vpath (p : list Z) : Prop := Forall (λ i, 0 ≤ i < 512) p ∧ ∀ i, head p = Some i → dom i.

(** [a] is a table of the tree, at the end of path [p]. *)
Definition table (m : memory) (root : Z) (p : list Z) (a : Z) : Prop :=
  (length p ≤ 3)%nat ∧ vpath p ∧ table_at m root p = Some a.

Definition good_entry (e : Z) : Prop := Z.testbit e 1 = true ∧ Z.testbit e 2 = true ∧ Z.testbit e 7 = false.

(** Every table is a used frame, no frame is a table twice, and the entries that
    lead to tables let user code through. *)
Record space (f : F) (m : memory) (root : Z) : Prop := {
  sp_frame : ∀ p a, table m root p a → frame a ∧ fs_used f a = true;
  sp_inj : ∀ p q a, table m root p a → table m root q a → p = q;
  sp_flags : ∀ p a i, table m root p a → (length p ≤ 2)%nat → vpath (p ++ [i]) →
    present (read64 m (a + 8 * i)) = true → good_entry (read64 m (a + 8 * i));
  sp_inv : fs_inv f }.

(** What building more of the tree preserves. *)
Record grows (root : Z) (f : F) (m : memory) (f' : F) (m' : memory) : Prop := {
  gr_tables : ∀ p a, table m root p a → table m' root p a;
  gr_fresh : ∀ p a, table m' root p a → table m root p a ∨ (fs_used f a = false ∧ frame a);
  gr_leaf : ∀ p a j, length p = 3%nat → table m root p a → 0 ≤ j < 512 → read64 m' (a + 8 * j) = read64 m (a + 8 * j);
  gr_zero : ∀ p a j, length p = 3%nat → table m' root p a → ¬ table m root p a → 0 ≤ j < 512 → read64 m' (a + 8 * j) = 0;
  gr_other : ∀ a x, frame a → fs_used f a = true → (∀ p, ¬ table m root p a) → a ≤ x < a + 4096 → m' x = m x;
  gr_used : ∀ a, frame a → fs_used f a = true → fs_used f' a = true }.

Lemma table_at_snoc m a p i : table_at m a (p ++ [i]) =
  (b ← table_at m a p; let e := read64 m (b + 8 * i) in if present e then Some (entry_addr e) else None).
Proof. revert a. induction p as [|j p IH]; intros a; cbn; [done|]. by destruct (present _). Qed.

Lemma table_at_app m a p q : table_at m a (p ++ q) = (b ← table_at m a p; table_at m b q).
Proof. revert a. induction p as [|j p IH]; intros a; cbn; [done|]. by destruct (present _). Qed.

Lemma vpath_snoc p i : vpath (p ++ [i]) → vpath p ∧ 0 ≤ i < 512.
Proof.
  intros [Hp Hh]. apply Forall_app in Hp as [Hp Hi]. apply Forall_cons_iff in Hi as [Hi _]. split; [|done]. split; [done|].
  intros j Hj. apply Hh. by destruct p.
Qed.

Lemma vpath_pre p q : vpath (p ++ q) → vpath p.
Proof. intros [Hp Hh]. apply Forall_app in Hp as [Hp _]. split; [done|]. intros j Hj. apply Hh. by destruct p. Qed.

Lemma table_snoc m root p i b :
  table m root (p ++ [i]) b ↔ (length p ≤ 2)%nat ∧ vpath (p ++ [i]) ∧
    ∃ a, table m root p a ∧ present (read64 m (a + 8 * i)) = true ∧ entry_addr (read64 m (a + 8 * i)) = b.
Proof.
  unfold table. rewrite table_at_snoc, length_app. cbn [length]. split.
  - intros (Hl & Hv & E). split; [lia|]. split; [done|]. destruct (table_at m root p) as [a|]; [|done]. exists a. cbn in E.
    destruct (present _) eqn:Hp; [|done]. injection E as E. split_and!; [lia|by apply vpath_snoc in Hv as [? ?]|done|done|done].
  - intros (Hl & Hv & a & (_ & _ & E) & Hp & He). split; [lia|]. split; [done|]. rewrite E. cbv zeta. cbn [mbind option_bind]. by rewrite Hp, He.
Qed.

Lemma table_nil m root : table m root [] root.
Proof. split_and!; [cbn; lia|by split|done]. Qed.

(** A memory that agrees on the entries along a path reaches the same tables. *)
Lemma table_at_agree m m' root q :
  (∀ p b i, (p ++ [i]) `prefix_of` q → table_at m root p = Some b → read64 m' (b + 8 * i) = read64 m (b + 8 * i)) →
  table_at m' root q = table_at m root q.
Proof.
  induction q as [|i q IH] using rev_ind; intros H; [done|]. rewrite !table_at_snoc. rewrite IH.
  - destruct (table_at m root q) as [b|] eqn:E; [|done]. cbv zeta. cbn [mbind option_bind]. by rewrite (H q b i).
  - intros p b j Hp. apply H. etrans; [exact Hp|]. by eexists.
Qed.

Lemma grows_refl root f m : grows root f m f m.
Proof. split; auto; tauto. Qed.

Lemma grows_trans root f m f1 m1 f2 m2 : grows root f m f1 m1 → grows root f1 m1 f2 m2 → grows root f m f2 m2.
Proof.
  intros A B. split.
  - intros p a H. by apply (gr_tables _ _ _ _ _ B), (gr_tables _ _ _ _ _ A).
  - intros p a H. apply (gr_fresh _ _ _ _ _ B) in H as [H|[H Hf]]; [by apply (gr_fresh _ _ _ _ _ A) in H|]. right. split; [|done].
    destruct (fs_used f a) eqn:E; [|done]. by rewrite (gr_used _ _ _ _ _ A a Hf E) in H.
  - intros p a j Hl H Hj. rewrite (gr_leaf _ _ _ _ _ B p) by (try apply (gr_tables _ _ _ _ _ A); done). by apply (gr_leaf _ _ _ _ _ A p).
  - intros p a j Hl H Hn Hj. destruct (decide (table_at m1 root p = Some a)) as [E|E].
    + assert (table m1 root p a) as H1 by (destruct H as (? & ? & _); done).
      rewrite (gr_leaf _ _ _ _ _ B p) by done. by apply (gr_zero _ _ _ _ _ A p).
    + apply (gr_zero _ _ _ _ _ B p); try done. by intros (_ & _ & ?).
  - intros a x Ha Hu Hn Hx. rewrite (gr_other _ _ _ _ _ B a); [by apply (gr_other _ _ _ _ _ A a)|done| |..|done].
    + by apply (gr_used _ _ _ _ _ A).
    + intros p H. destruct (gr_fresh _ _ _ _ _ A p a H) as [H1|[H1 _]]; [by apply (Hn p)|congruence].
  - intros a Ha Hu. by apply (gr_used _ _ _ _ _ B), (gr_used _ _ _ _ _ A).
Qed.

(** ** One step of the walk *)

Definition same_regs (s s' : mach F) : Prop := cr3 s' = cr3 s ∧ hhdm s' = hhdm s.

Lemma entry_ptr (s : mach F) a i : frame a → 0 ≤ i < 512 → behind s (phys_to_virt s a + 8 * i) = a + 8 * i.
Proof. intros [Ha _] Hi. apply behind_virt. unfold MAX_PAGES, PAGE_SIZE in Ha. lia. Qed.

(** The memory after a new table [r] is linked at entry [i] of table [a]. *)
Definition linked (m : memory) (a i r fl : Z) : memory := write64 (zero_page m r) (a + 8 * i) (Z.lor r fl).

Section link.
Context (m : memory) (root : Z) (f f' : F) (p : list Z) (a i r fl : Z).
Hypothesis (Hsp : space f m root) (Hp : table m root p a) (Hlen : (length p ≤ 2)%nat) (Hv : vpath (p ++ [i])).
Hypothesis (Hnew : present (read64 m (a + 8 * i)) = false) (Hr : frame r) (Hfr : fs_used f r = false).
Hypothesis (Hfl : 0 ≤ fl < 4096) (Hpr : Z.testbit fl 0 = true).

Lemma link_i : 0 ≤ i < 512.
Proof. by apply vpath_snoc in Hv as [_ ?]. Qed.

Lemma link_ne q b : table m root q b → b ≠ r.
Proof. intros H ->. apply (sp_frame _ _ _ Hsp) in H as [_ H]. congruence. Qed.

Lemma link_read q b j : table m root q b → 0 ≤ j < 512 → (q, j) ≠ (p, i) → read64 (linked m a i r fl) (b + 8 * j) = read64 m (b + 8 * j).
Proof.
  intros Hq Hj Hne. destruct (sp_frame _ _ _ Hsp _ _ Hp) as [Ha _]. destruct (sp_frame _ _ _ Hsp _ _ Hq) as [Hb _]. pose proof link_i.
  unfold linked. rewrite read64_write64_ne.
  - apply read64_ext. intros x Hx. apply zero_page_out. apply (frames_apart r b); [done|done|by apply not_eq_sym, (link_ne q)|lia].
  - apply entries_apart; try done. intros [= <- <-]. apply Hne. f_equal. by apply (sp_inj _ _ _ Hsp _ _ a).
Qed.

Lemma link_entry : read64 (linked m a i r fl) (a + 8 * i) = Z.lor r fl.
Proof. apply read64_write64. apply entry_u64; [by apply frame_page|done]. Qed.

Lemma link_new j : 0 ≤ j < 512 → read64 (linked m a i r fl) (r + 8 * j) = 0.
Proof.
  intros Hj. destruct (sp_frame _ _ _ Hsp _ _ Hp) as [Ha _]. pose proof link_i. unfold linked. rewrite read64_write64_ne; [by apply read64_zero_page|].
  apply entries_apart; try done. intros [= E _]. by apply (link_ne p a).
Qed.

(** The new tree: the old one and the new table, which has no children. *)
Lemma link_table q b : (length q ≤ 3)%nat → vpath q → table_at (linked m a i r fl) root q = Some b ↔ table_at m root q = Some b ∨ (q = p ++ [i] ∧ b = r).
Proof.
  intros Hl Hvq. destruct (decide ((p ++ [i]) `prefix_of` q)) as [[q' ->]|Hn].
  - assert (table_at (linked m a i r fl) root (p ++ [i]) = Some r) as E1.
    { rewrite table_at_snoc. rewrite (table_at_agree m).
      - rewrite (proj2 (proj2 Hp)). cbv zeta. cbn [mbind option_bind]. rewrite link_entry, present_bit, (entry_flag r) by (done || lia || by apply frame_page). rewrite Hpr. by rewrite entry_addr_lor by (done || by apply frame_page).
      - intros p' b' j Hpre Hb'. apply prefix_length in Hpre as Hl'. rewrite length_app in Hl'. cbn in Hl'. assert (vpath p) as Hvp by apply Hp.
        destruct Hpre as [k Ek]. rewrite Ek in Hvp. apply vpath_pre in Hvp as Hvp'. apply (link_read p').
        + split_and!; [lia|by apply vpath_snoc in Hvp' as [? _]|done].
        + by apply vpath_snoc in Hvp' as [_ ?].
        + intros [= E _]. apply (f_equal length) in E. lia. }
    assert (table_at m root (p ++ [i]) = None) as E2.
    { rewrite table_at_snoc, (proj2 (proj2 Hp)). cbv zeta. cbn [mbind option_bind]. by rewrite Hnew. }
    rewrite !(table_at_app _ _ (p ++ [i])), E1, E2. cbn [mbind option_bind]. destruct q' as [|j q'].
    + rewrite app_nil_r. cbn [table_at]. split; [intros [= <-]; by right|]. intros [?|[_ ->]]; done.
    + cbn [table_at]. rewrite link_new.
      * split; [done|]. intros [?|[E _]]; [done|]. apply (f_equal length) in E. rewrite !length_app in E. cbn in E. lia.
      * assert (vpath (((p ++ [i]) ++ [j]) ++ q')) as Hvq' by (by rewrite <- (app_assoc (p ++ [i]))).
        by apply vpath_pre, vpath_snoc in Hvq' as [_ ?].
  - rewrite (table_at_agree m).
    + split; [by left|]. intros [?|[-> _]]; [done|]. by destruct Hn.
    + intros p' b' j Hpre Hb'. apply prefix_length in Hpre as Hl'. rewrite length_app in Hl'. cbn in Hl'.
      destruct Hpre as [k Ek]. rewrite Ek in Hvq. apply vpath_pre in Hvq as Hvp'. apply (link_read p').
      * split_and!; [lia|by apply vpath_snoc in Hvp' as [? _]|done].
      * by apply vpath_snoc in Hvp' as [_ ?].
      * intros [= Ep Ej]. apply Hn. exists k. by rewrite Ek, Ep, Ej.
Qed.

Hypothesis (Hgood : good_entry fl) (Hinv : fs_inv f').
Hypothesis (Hused : ∀ b, 0 ≤ b → b mod PAGE_SIZE = 0 → fs_used f' b = fs_used f b || bool_decide (b = r)).

Lemma link_tab q b : table (linked m a i r fl) root q b ↔ table m root q b ∨ (q = p ++ [i] ∧ b = r).
Proof.
  unfold table. split.
  - intros (Hl & Hvq & E). apply link_table in E as [E|[-> ->]]; [by left|by right|done|done].
  - intros [(Hl & Hvq & E)|[-> ->]].
    + split_and!; [done|done|]. apply link_table; [done..|]. by left.
    + assert (length (p ++ [i]) ≤ 3)%nat by (rewrite length_app; cbn; lia). split_and!; [done|done|]. apply link_table; [done..|]. by right.
Qed.

Lemma link_used b : frame b → fs_used f b = true → fs_used f' b = true.
Proof. intros [? ?] E. by rewrite Hused, E by lia. Qed.

Lemma link_space : space f' (linked m a i r fl) root.
Proof.
  split; [| | |exact Hinv].
  - intros q b [H|[-> ->]]%link_tab.
    + destruct (sp_frame _ _ _ Hsp _ _ H) as [Hb Hu]. split; [done|by apply link_used].
    + split; [done|]. destruct Hr as [? ?]. rewrite Hused by lia. rewrite bool_decide_true by done. apply orb_true_r.
  - intros q q' b [H|[-> ->]]%link_tab [H'|[-> E]]%link_tab; [by apply (sp_inj _ _ _ Hsp _ _ b)| | |done].
    + subst b. by apply link_ne in H.
    + by apply link_ne in H'.
  - intros q b j [H|[-> ->]]%link_tab Hl Hvq Hpres; apply vpath_snoc in Hvq as Hj; destruct Hj as [_ Hj].
    + destruct (decide ((q, j) = (p, i))) as [E|Hne].
      * injection E as -> ->. assert (b = a) as -> by (destruct H as (_ & _ & H), Hp as (_ & _ & Hp'); congruence).
        rewrite link_entry. unfold good_entry. by rewrite !(entry_flag r) by (done || lia || by apply frame_page).
      * rewrite (link_read q b j H Hj Hne) in *. by apply (sp_flags _ _ _ Hsp q).
    + by rewrite link_new in Hpres.
Qed.

Lemma link_grows : grows root f m f' (linked m a i r fl).
Proof.
  destruct (sp_frame _ _ _ Hsp _ _ Hp) as [Ha Hau]. pose proof link_i. split.
  - intros q b H'. apply link_tab. by left.
  - intros q b [H'|[-> ->]]%link_tab; [by left|by right].
  - intros q b j Hl H' Hj. apply (link_read q); [done|done|]. intros [= -> _]. lia.
  - intros q b j Hl H' Hn Hj. apply link_tab in H' as [H'|[-> ->]]; [done|]. by apply link_new.
  - intros b x Hb Hu Hn Hx. unfold linked. rewrite write64_out.
    + apply zero_page_out. apply (frames_apart r b); try done. intros <-. congruence.
    + intros Hx'. apply (frames_apart a b x); try done; [|lia]. intros <-. by apply (Hn p).
  - apply link_used.
Qed.
End link.

Lemma gom_user_spec (s : mach F) root p a i : space (frames s) (ram s) root → table (ram s) root p a → (length p ≤ 2)%nat → vpath (p ++ [i]) →
  1 ≤ fs_avail (frames s) →
  wp (get_or_make_user a i) s (λ r s', space (frames s') (ram s') root ∧ grows root (frames s) (ram s) (frames s') (ram s') ∧
    same_regs s s' ∧ fs_avail (frames s) - 1 ≤ fs_avail (frames s') ∧ table (ram s') root (p ++ [i]) r).
Proof.
  intros Hsp Hp Hl Hv Hav. destruct (sp_frame _ _ _ Hsp _ _ Hp) as [Ha Hau]. apply vpath_snoc in Hv as Hi. destruct Hi as [_ Hi].
  unfold get_or_make_user, get_or_make_with. apply wp_bind. unfold get at 1, wp at 1. apply wp_bind. unfold kread64, gets, wp at 1.
  rewrite entry_ptr by done. set (e := read64 (ram s) (a + 8 * i)). destruct (present e) eqn:Epr.
  - apply wp_ret. split_and!; [done|apply grows_refl|done|lia|]. apply table_snoc. split_and!; [done|done|]. exists a. done.
  - apply wp_bind. unfold page_alloc, wp at 1. pose proof (fs_alloc_law (frames s) (sp_inv _ _ _ Hsp)) as Hal.
    destruct (fs_alloc (frames s)) as [[r|] f']; [|lia]. destruct Hal as (Hinv & _ & Hav' & Hr1 & Hr2 & Hfr & Hused). cbn [set_frames].
    assert (frame r) as Hr by done. apply wp_bind. unfold lift, unwrap, wp at 1. apply wp_bind. unfold kzero_page, modify, wp at 1.
    apply wp_bind. unfold kwrite64, modify, wp at 1. apply wp_ret. cbn [set_frames set_ram frames ram hhdm cr3].
    change (behind _ (phys_to_virt s r)) with (behind s (phys_to_virt s r)).
    change (behind _ (phys_to_virt s a + 8 * i)) with (behind s (phys_to_virt s a + 8 * i)).
    rewrite behind_virt0 by (unfold MAX_PAGES, PAGE_SIZE in Hr1; lia). rewrite entry_ptr by done.
    fold (linked (ram s) a i r (Z.lor (Z.lor PRESENT WRITE) USER)).
    assert (good_entry (Z.lor (Z.lor PRESENT WRITE) USER)) as Hg by done.
    split_and!; try done; [by eapply (link_space _ _ (frames s) f' p)|by eapply (link_grows _ _ (frames s) f' p)|lia|].
    eapply (link_tab _ _ (frames s) p); try done. by right.
Qed.

(** ** Leaves *)

Definition leaf (m : memory) (root v : Z) : Z :=
  match table_at m root [i4 v; i3 v; i2 v] with Some a => read64 m (a + 8 * i1 v) | None => 0 end.

Lemma vpath_of v : dom (i4 v) → vpath [i4 v; i3 v; i2 v].
Proof.
  intros Hd. split; [repeat constructor; apply idx_range|]. by intros i [= <-].
Qed.

Lemma table_of v m root a : dom (i4 v) → table_at m root [i4 v; i3 v; i2 v] = Some a → table m root [i4 v; i3 v; i2 v] a.
Proof. intros Hd E. split_and!; [cbn; lia|by apply vpath_of|done]. Qed.

Lemma grows_leaf root f m f' m' v : grows root f m f' m' → dom (i4 v) → leaf m' root v = leaf m root v.
Proof.
  intros Hg Hd. unfold leaf. destruct (table_at m root _) as [a|] eqn:E.
  - apply table_of in E; [|done]. destruct (gr_tables _ _ _ _ _ Hg _ _ E) as (_ & _ & ->).
    apply (gr_leaf _ _ _ _ _ Hg [i4 v; i3 v; i2 v]); [done|done|apply idx_range].
  - destruct (table_at m' root _) as [a|] eqn:E'; [|done]. apply table_of in E'; [|done].
    apply (gr_zero _ _ _ _ _ Hg [i4 v; i3 v; i2 v]); [done|done| |apply idx_range]. intros (_ & _ & E2). congruence.
Qed.

Lemma walk_step m a i p g : p ≠ [] → present (read64 m (a + 8 * i)) = true → good_entry (read64 m (a + 8 * i)) →
  walk m a (i :: p) g = walk m (entry_addr (read64 m (a + 8 * i))) p (Z.land g (read64 m (a + 8 * i))).
Proof.
  intros Hp Hpr (_ & _ & Hps). cbn [walk]. cbv zeta. rewrite Hpr. rewrite bool_decide_false by done.
  unfold PS. rewrite land_bit_eqb, Hps by lia. done.
Qed.

(** What the processor sees is the leaf entry: the tables above it grant everything. *)
Lemma translate_leaf f m root v : space f m root → dom (i4 v) →
  translate m root v = if present (leaf m root v)
    then Some (entry_addr (leaf m root v) + v mod 4096, Z.testbit (leaf m root v) 1, Z.testbit (leaf m root v) 2) else None.
Proof.
  intros Hsp Hd. pose proof (vpath_of v Hd) as Hv. unfold translate, indices, leaf. cbn [table_at].
  assert (∀ q a i g, table m root q a → (length q ≤ 2)%nat → vpath (q ++ [i]) → present (read64 m (a + 8 * i)) = true →
    ∀ p, p ≠ [] → walk m a (i :: p) g = walk m (entry_addr (read64 m (a + 8 * i))) p (Z.land g (read64 m (a + 8 * i))) ∧
    good_entry (read64 m (a + 8 * i)) ∧ table m root (q ++ [i]) (entry_addr (read64 m (a + 8 * i)))) as Hstep.
  { intros q a i g Hq Hl Hvi Hpr p Hp. pose proof (sp_flags _ _ _ Hsp q a i Hq Hl Hvi Hpr). split_and!; [by apply walk_step|done|].
    apply table_snoc. split_and!; [done|done|]. by exists a. }
  assert (∀ a i p g, present (read64 m (a + 8 * i)) = false → walk m a (i :: p) g = None) as Hstop.
  { intros a i p g E. cbn [walk]. cbv zeta. by rewrite E. }
  destruct (present (read64 m (root + 8 * i4 v))) eqn:E4; [|by rewrite Hstop].
  destruct (Hstep [] root (i4 v) U64_MAX (table_nil m root) ltac:(cbn; lia) (vpath_pre [i4 v] [i3 v; i2 v] Hv) E4 [i3 v; i2 v; i1 v] ltac:(done)) as (-> & G4 & T3).
  set (e4 := read64 m (root + 8 * i4 v)) in *. cbn [app] in T3.
  destruct (present (read64 m (entry_addr e4 + 8 * i3 v))) eqn:E3; [|by rewrite Hstop].
  destruct (Hstep [i4 v] (entry_addr e4) (i3 v) (Z.land U64_MAX e4) T3 ltac:(cbn; lia) (vpath_pre [i4 v; i3 v] [i2 v] Hv) E3 [i2 v; i1 v] ltac:(done)) as (-> & G3 & T2).
  set (e3 := read64 m (entry_addr e4 + 8 * i3 v)) in *. cbn [app] in T2.
  destruct (present (read64 m (entry_addr e3 + 8 * i2 v))) eqn:E2; [|by rewrite Hstop].
  destruct (Hstep [i4 v; i3 v] (entry_addr e3) (i2 v) (Z.land (Z.land U64_MAX e4) e3) T2 ltac:(cbn; lia) Hv E2 [i1 v] ltac:(done)) as (-> & G2 & _).
  set (e2 := read64 m (entry_addr e3 + 8 * i2 v)) in *. cbn [walk]. cbv zeta.
  set (e1 := read64 m (entry_addr e2 + 8 * i1 v)) in *. rewrite bool_decide_true by done. cbn [orb]. rewrite andb_true_r.
  destruct (present e1); [|done]. cbn [mbind option_bind]. unfold WRITE, USER. rewrite !land_bit_eqb by lia. rewrite !negb_involutive.
  rewrite !Z.land_spec. destruct G4 as (-> & -> & _), G3 as (-> & -> & _), G2 as (-> & -> & _). done.
Qed.

Lemma leaf_write f m root q a j w : space f m root → table m root q a → length q = 3%nat → 0 ≤ j < 512 → is_u 64 w →
  let m' := write64 m (a + 8 * j) w in
  space f m' root ∧ (∀ p b, table m' root p b ↔ table m root p b) ∧
  ∀ v, dom (i4 v) → leaf m' root v = if decide (q = [i4 v; i3 v; i2 v] ∧ j = i1 v) then w else leaf m root v.
Proof.
  cbv zeta. intros Hsp Hq Hl Hj Hw. destruct (sp_frame _ _ _ Hsp _ _ Hq) as [Ha _]. set (m' := write64 m (a + 8 * j) w).
  assert (∀ p b i, table m root p b → 0 ≤ i < 512 → (p, i) ≠ (q, j) → read64 m' (b + 8 * i) = read64 m (b + 8 * i)) as Hread.
  { intros p b i Hp Hi Hne. destruct (sp_frame _ _ _ Hsp _ _ Hp) as [Hb _]. apply read64_write64_ne. apply entries_apart; try done.
    intros [= <- <-]. apply Hne. f_equal. by apply (sp_inj _ _ _ Hsp _ _ a). }
  assert (∀ p, (length p ≤ 3)%nat → vpath p → table_at m' root p = table_at m root p) as Htab.
  { intros p Hlp Hvp. apply table_at_agree. intros p' b i Hpre Hb. apply prefix_length in Hpre as Hl'. rewrite length_app in Hl'. cbn in Hl'.
    destruct Hpre as [k ->]. apply vpath_pre in Hvp as Hvp'. apply (Hread p').
    - split_and!; [lia|by apply vpath_snoc in Hvp' as [? _]|done].
    - by apply vpath_snoc in Hvp' as [_ ?].
    - intros [= -> _]. lia. }
  assert (∀ p b, table m' root p b ↔ table m root p b) as Hiff.
  { intros p b. unfold table. split; intros (H1 & H2 & H3); (rewrite Htab in * by done || rewrite Htab by done); done. }
  split; [|split; [exact Hiff|]].
  - split; [| | |apply Hsp].
    + intros p b H. apply Hiff in H. by apply (sp_frame _ _ _ Hsp p).
    + intros p p' b H H'. apply Hiff in H. apply Hiff in H'. by apply (sp_inj _ _ _ Hsp p p' b).
    + intros p b i H Hlp Hvp Hpr. apply Hiff in H. apply vpath_snoc in Hvp as Hi. destruct Hi as [_ Hi].
      rewrite (Hread p b i) in * by (try done; intros [= -> _]; lia). by apply (sp_flags _ _ _ Hsp p).
  - intros v Hd. unfold leaf. rewrite Htab by (cbn; try lia; by apply vpath_of). destruct (table_at m root _) as [b|] eqn:E.
    + apply table_of in E; [|done]. case_decide as Hc.
      * destruct Hc as [-> ->]. assert (b = a) as -> by (destruct E as (_ & _ & E), Hq as (_ & _ & Hq); congruence). by apply read64_write64.
      * apply (Hread [i4 v; i3 v; i2 v]); [done|apply idx_range|]. intros [= <- <-]. by apply Hc.
    + rewrite decide_False; [done|]. intros [-> _]. destruct Hq as (_ & _ & Hq). congruence.
Qed.

(** ** Mapping a page *)

(** Everything a mapping operation leaves as it was, and the leaf it sets. *)
Record mapped (root virt w : Z) (s s' : mach F) : Prop := {
  mp_space : space (frames s') (ram s') root;
  mp_leaf : ∀ v, dom (i4 v) → leaf (ram s') root v = if decide (indices v = indices virt) then w else leaf (ram s) root v;
  mp_regs : same_regs s s';
  mp_avail : fs_avail (frames s) - 3 ≤ fs_avail (frames s');
  mp_used : ∀ a, frame a → fs_used (frames s) a = true → fs_used (frames s') a = true;
  mp_fresh : ∀ p a, table (ram s') root p a → table (ram s) root p a ∨ fs_used (frames s) a = false;
  mp_tables : ∀ p a, table (ram s) root p a → table (ram s') root p a;
  mp_other : ∀ a x, frame a → fs_used (frames s) a = true → (∀ p, ¬ table (ram s) root p a) → a ≤ x < a + 4096 →
    ram s' x = ram s x }.

Lemma map_user_spec (s : mach F) root virt w : space (frames s) (ram s) root → dom (i4 virt) → 3 ≤ fs_avail (frames s) → is_u 64 w →
  wp (map_with get_or_make_user root virt w) s (λ _ s', mapped root virt w s s').
Proof.
  intros Hsp Hd Hav Hw. pose proof (vpath_of virt Hd) as Hv. unfold map_with.
  wp_step (gom_user_spec s root [] root (i4 virt) Hsp (table_nil _ _) ltac:(cbn; lia) (vpath_pre [i4 virt] [i3 virt; i2 virt] Hv) ltac:(lia)).
  intros p3 s1 (Sp1 & G1 & [R1 R1'] & A1 & T1). cbn [app] in T1.
  wp_step (gom_user_spec s1 root [i4 virt] p3 (i3 virt) Sp1 T1 ltac:(cbn; lia) (vpath_pre [i4 virt; i3 virt] [i2 virt] Hv) ltac:(lia)).
  intros p2 s2 (Sp2 & G2 & [R2 R2'] & A2 & T2). cbn [app] in T2.
  wp_step (gom_user_spec s2 root [i4 virt; i3 virt] p2 (i2 virt) Sp2 T2 ltac:(cbn; lia) Hv ltac:(lia)).
  intros p1 s3 (Sp3 & G3 & [R3 R3'] & A3 & T3). cbn [app] in T3.
  pose proof (grows_trans _ _ _ _ _ _ _ G1 (grows_trans _ _ _ _ _ _ _ G2 G3)) as G. clear G1 G2 G3 Sp1 Sp2 T1 T2.
  apply wp_bind. unfold get at 1, wp at 1. unfold kwrite64, modify, wp.
  destruct (sp_frame _ _ _ Sp3 _ _ T3) as [Hp1 Hu1]. rewrite entry_ptr by (done || apply idx_range).
  destruct (leaf_write _ _ _ _ _ (i1 virt) w Sp3 T3 eq_refl (idx_range _ _) Hw) as (Sp4 & Hiff & Hleaf).
  split; cbn [set_ram frames ram cr3 hhdm].
  - exact Sp4.
  - intros v Hdv. rewrite Hleaf by done. rewrite (grows_leaf _ _ _ _ _ _ G) by done. unfold indices.
    destruct (decide (indices v = indices virt)) as [E|E]; unfold indices in E.
    + injection E as E1 E2 E3 E4. rewrite decide_True by (split; congruence). rewrite decide_True by congruence. done.
    + rewrite decide_False by (intros [E1 E2]; apply E; congruence). by rewrite decide_False by done.
  - split; cbn; congruence.
  - lia.
  - apply (gr_used _ _ _ _ _ G).
  - intros p a H%Hiff. apply (gr_fresh _ _ _ _ _ G) in H as [?|[? _]]; [by left|by right].
  - intros p a H. apply Hiff. by apply (gr_tables _ _ _ _ _ G).
  - intros a x Ha Hu Hn Hx. rewrite write64_out; [by apply (gr_other _ _ _ _ _ G a)|].
    intros Hx'. pose proof (idx_range virt 12) as Hi. fold (i1 virt) in Hi. apply (frames_apart p1 a x); try done; [|lia]. intros ->.
    destruct (gr_fresh _ _ _ _ _ G _ _ T3) as [H|[H _]]; [by apply (Hn _ H)|congruence].
Qed.

(** Frames handed out and memory changed elsewhere leave the tree as it is. *)
Lemma space_frames f f' m root : space f m root → fs_inv f' → (∀ a, frame a → fs_used f a = true → fs_used f' a = true) → space f' m root.
Proof.
  intros Hsp Hi Hu. split; [|apply Hsp|apply Hsp|done]. intros p a H. destruct (sp_frame _ _ _ Hsp p a H). auto.
Qed.

Lemma space_agree f m m' root : space f m root → (∀ p a x, table m root p a → a ≤ x < a + 4096 → m' x = m x) →
  space f m' root ∧ (∀ p b, table m' root p b ↔ table m root p b) ∧ ∀ v, dom (i4 v) → leaf m' root v = leaf m root v.
Proof.
  intros Hsp Hag. assert (∀ p a i, table m root p a → 0 ≤ i < 512 → read64 m' (a + 8 * i) = read64 m (a + 8 * i)) as Hread.
  { intros p a i Hp Hi. apply read64_ext. intros x Hx. apply (Hag p a); [done|lia]. }
  assert (∀ p, (length p ≤ 3)%nat → vpath p → table_at m' root p = table_at m root p) as Htab.
  { intros p Hlp Hvp. apply table_at_agree. intros p' b i Hpre Hb. apply prefix_length in Hpre as Hl'. rewrite length_app in Hl'. cbn in Hl'.
    destruct Hpre as [k ->]. apply vpath_pre in Hvp as Hvp'. apply (Hread p').
    - split_and!; [lia|by apply vpath_snoc in Hvp' as [? _]|done].
    - by apply vpath_snoc in Hvp' as [_ ?]. }
  assert (∀ p b, table m' root p b ↔ table m root p b) as Hiff.
  { intros p b. unfold table. split; intros (H1 & H2 & H3); (rewrite Htab in * by done || rewrite Htab by done); done. }
  split; [|split; [exact Hiff|]].
  - split; [| | |apply Hsp].
    + intros p b H. apply Hiff in H. by apply (sp_frame _ _ _ Hsp p).
    + intros p p' b H H'. apply Hiff in H. apply Hiff in H'. by apply (sp_inj _ _ _ Hsp p p' b).
    + intros p b i H Hlp Hvp Hpr. apply Hiff in H. apply vpath_snoc in Hvp as Hi. destruct Hi as [_ Hi].
      rewrite (Hread p b i) in * by done. by apply (sp_flags _ _ _ Hsp p).
  - intros v Hd. unfold leaf. rewrite Htab by (cbn; try lia; by apply vpath_of). destruct (table_at m root _) as [b|] eqn:E; [|done].
    apply table_of in E; [|done]. apply (Hread [i4 v; i3 v; i2 v]); [done|apply idx_range].
Qed.
End tree.


(** ** Pages below 2^48 have distinct walks *)

Lemma idx_div v k : 0 ≤ k → Z.land (Z.shiftr v k) 0x1FF = (v / 2 ^ k) mod 512.
Proof. intros Hk. change 0x1FF with (Z.ones 9). rewrite Z.land_ones, Z.shiftr_div_pow2 by lia. done. Qed.

Lemma indices_page v w : 0 ≤ v < 2 ^ 48 → 0 ≤ w < 2 ^ 48 → indices v = indices w ↔ v / 4096 = w / 4096.
Proof.
  intros Hv Hw. unfold indices, i4, i3, i2, i1. rewrite !idx_div by lia.
  assert (∀ x, x / 2 ^ 39 = x / 4096 / 512 / 512 / 512) as E39 by (intros; by rewrite !Z.div_div by lia).
  assert (∀ x, x / 2 ^ 30 = x / 4096 / 512 / 512) as E30 by (intros; by rewrite !Z.div_div by lia).
  assert (∀ x, x / 2 ^ 21 = x / 4096 / 512) as E21 by (intros; by rewrite !Z.div_div by lia).
  rewrite !E39, !E30, !E21. change (2 ^ 12) with 4096. split; [|by intros ->]. intros E. injection E as H4 H3 H2 H1.
  assert (0 ≤ v / 4096 < 2 ^ 36) as Ha by dlia. assert (0 ≤ w / 4096 < 2 ^ 36) as Hb by dlia.
  set (a := v / 4096) in *. set (b := w / 4096) in *. clearbody a b. clear -H1 H2 H3 H4 Ha Hb. dlia.
Qed.

Lemma low_half_small v : 0 ≤ v < 2 ^ 47 → i4 v < 256.
Proof. intros Hv. unfold i4. rewrite idx_div by lia. dlia. Qed.

(** ** User mappings *)

Section user.
Context {F : Type} `{!FrameSource F} (dom : Z → Prop).

Lemma is_flags fl k : 0 ≤ fl < 4096 → 0 ≤ k < 12 → 0 ≤ Z.lor fl (bit k) < 4096.
Proof. intros Hf Hk. change 4096 with (2 ^ 12). apply is_u_lor_bit; [unfold is_u; lia|done]. Qed.

(** Whatever leaf [phys | fl] is set, that is what the processor then sees. *)
Lemma mapped_translate root virt phys fl (s s' : mach F) : space dom (frames s) (ram s) root → dom (i4 virt) →
  phys_page phys → 0 ≤ fl < 4096 → Z.testbit fl 0 = true → mapped dom root virt (Z.lor phys fl) s s' →
  (∀ v, indices v = indices virt → translate (ram s') root v = Some (phys + v mod 4096, Z.testbit fl 1, Z.testbit fl 2)) ∧
  (∀ v, dom (i4 v) → indices v ≠ indices virt → translate (ram s') root v = translate (ram s) root v).
Proof.
  intros Hsp Hd Hph Hfl Hpr Hm. pose proof (mp_space _ _ _ _ _ _ Hm) as Hsp'. split.
  - intros v Hv. assert (dom (i4 v)) as Hdv by (injection Hv as -> _; done). rewrite (translate_leaf dom (frames s')) by done.
    rewrite (mp_leaf _ _ _ _ _ _ Hm) by done. rewrite decide_True by done.
    rewrite present_bit, !(entry_flag phys) by (done || lia). rewrite Hpr. by rewrite entry_addr_lor.
  - intros v Hdv Hne. rewrite (translate_leaf dom (frames s')), (translate_leaf dom (frames s)) by done.
    rewrite (mp_leaf _ _ _ _ _ _ Hm) by done. by rewrite decide_False by done.
Qed.

Lemma map_into_spec root virt phys flags (s : mach F) : space dom (frames s) (ram s) root → dom (i4 virt) → phys_page phys →
  0 ≤ flags < 4096 → 3 ≤ fs_avail (frames s) →
  wp (map_page_into root virt phys flags) s (λ _ s', mapped dom root virt (Z.lor phys (Z.lor flags (bit 0))) s s').
Proof.
  intros Hsp Hd Hph Hfl Hav. unfold map_page_into, PRESENT. rewrite <- Z.lor_assoc. apply map_user_spec; try done.
  apply entry_u64; [done|]. by apply is_flags.
Qed.

Lemma cr3_frame a : frame a → Z.land a (Z.lnot 0xFFF) = a.
Proof.
  intros Ha. apply Z.bits_inj'. intros k Hk. change 0xFFF with (Z.ones 12). rewrite Z.land_spec, Z.lnot_spec by done.
  destruct (decide (k < 12)).
  - rewrite (page_bits a k) by (lia || by apply frame_page). done.
  - rewrite Z.ones_spec_high by lia. apply andb_true_r.
Qed.

Lemma map_current_spec virt phys flags (s : mach F) : space dom (frames s) (ram s) (cr3 s) → dom (i4 virt) → phys_page phys →
  0 ≤ flags < 4096 → 3 ≤ fs_avail (frames s) →
  wp (map_page_current_user virt phys flags) s (λ _ s',
    mapped dom (cr3 s) virt (Z.lor phys (Z.lor (Z.lor flags (bit 0)) (bit 2))) s s').
Proof.
  intros Hsp Hd Hph Hfl Hav. unfold map_page_current_user, PRESENT, USER, cr3_phys. apply wp_bind. unfold gets, wp at 1.
  destruct (sp_frame _ _ _ _ Hsp _ _ (table_nil dom _ _)) as [Hc _]. rewrite cr3_frame by done.
  rewrite <- !Z.lor_assoc. rewrite (Z.lor_assoc flags). apply map_user_spec; try done.
  apply entry_u64; [done|]. by repeat apply is_flags.
Qed.

(** An empty top table is a space of its own. *)
Lemma empty_space f m root : fs_inv f → frame root → fs_used f root = true →
  (∀ i, 0 ≤ i < 512 → dom i → read64 m (root + 8 * i) = 0) → space dom f m root.
Proof.
  intros Hinv Hr Hu Hz. assert (∀ p a, table dom m root p a → p = [] ∧ a = root) as Ht.
  { intros p a (_ & Hv & E). destruct p as [|i p]; [cbn in E; by simplify_eq|]. exfalso. destruct Hv as [Hi Hd]. apply Forall_cons_iff in Hi as [Hi _].
    cbn [table_at] in E. rewrite Hz in E by (try done; by apply Hd). done. }
  split; [| | |done].
  - by intros p a [-> ->]%Ht.
  - by intros p q a [-> _]%Ht [-> _]%Ht.
  - intros p a i [-> ->]%Ht _ Hv Hpr. destruct Hv as [Hi Hd]. apply Forall_cons_iff in Hi as [Hi _]. rewrite Hz in Hpr by (try done; by apply Hd). done.
Qed.
End user.

(** The lower half of the address space: what a process does not share. *)
Definition low_half (i : Z) : Prop := i < 256.

Section claims.
Context {F : Type} `{!FrameSource F}.

(** C25: Mapping a page into an address space makes the processor's own walk of the
    tables yield exactly the given frame and permissions for every address of the
    page, changes the translation of no other page of the space, and never fails
    while three frames are left for tables. *)
Theorem map_page_into_translates root virt phys flags (s : mach F)
    (Hsp : space low_half (frames s) (ram s) root) (Hvirt : low_half (i4 virt)) (Hphys : phys_page phys)
    (Hflags : 0 ≤ flags < 4096) (Havail : 3 ≤ fs_avail (frames s)) :
  wp (map_page_into root virt phys flags) s (λ _ s', space low_half (frames s') (ram s') root ∧
    (∀ v, indices v = indices virt →
      translate (ram s') root v = Some (phys + v mod 4096, Z.testbit flags 1, Z.testbit flags 2)) ∧
    (∀ v, low_half (i4 v) → indices v ≠ indices virt → translate (ram s') root v = translate (ram s) root v)).
Proof.
  eapply wp_mono; [by apply (map_into_spec low_half)|]. intros u s' Hm; cbv beta in Hm. split; [by apply (mp_space _ _ _ _ _ _ Hm)|].
  assert (∀ k, 0 ≤ k < 12 → k ≠ 0 → Z.testbit (Z.lor flags (bit 0)) k = Z.testbit flags k) as Hb.
  { intros k Hk Hne. rewrite lor_bit_testbit, bool_decide_false by lia. apply orb_false_r. }
  rewrite <- (Hb 1), <- (Hb 2) by lia. eapply (mapped_translate low_half); try done; [by apply is_flags|].
  rewrite lor_bit_testbit by lia. by rewrite bool_decide_true, orb_true_r.
Qed.
End claims.

(** ** A machine with an empty user space at 64 MiB *)

Definition demo_root : Z := 0x4000000.
Definition demo_mach : mach pmm := mkMach demo_frames (λ _, 0) demo_root 0xFFFF800000000000.

Lemma demo_space : space low_half (frames demo_mach) (ram demo_mach) demo_root.
Proof.
  apply empty_space; [exact demo_frames_inv|split; unfold demo_root, MAX_PAGES, PAGE_SIZE; [lia|done]| |].
  - apply (demo_frames_used 16384). unfold MAX_PAGES. lia.
  - reflexivity.
Qed.

Lemma demo_avail_frames : fs_avail (frames demo_mach) = 16384.
Proof. destruct demo_frames_inv as [_ E]. symmetry. exact E. Qed.

Lemma map_page_into_translates_witness :
  wp (map_page_into demo_root 0x400000 0x4001000 (Z.lor USER WRITE)) demo_mach (λ _ s',
    translate (ram s') demo_root 0x400123 = Some (0x4001123, true, true)).
Proof.
  eapply wp_mono.
  - apply (map_page_into_translates demo_root 0x400000 0x4001000 (Z.lor USER WRITE) demo_mach demo_space).
    + unfold low_half. vm_compute. reflexivity.
    + split; [lia|reflexivity].
    + split; vm_compute; [discriminate|reflexivity].
    + rewrite demo_avail_frames. lia.
  - intros _ s' (_ & H & _). exact (H 0x400123 eq_refl).
Defined.
