(* ===== verification/Heap.v ===== *)
(** The kernel heap ([kernel/src/heap.rs]): ten slab classes with free lists
    threaded through the chunks themselves, and page runs for large requests.

    The allocator keeps only the list heads; every link is a word of physical
    memory, so the proofs have to show that no live block overlaps a chunk. *)

From stdpp Require Import prelude list numbers strings.
From S2P Require Import Prelude Pmm Memory Paging.

Local Open Scope Z_scope.

Definition NUM_CLASSES : nat := 10.
Definition SIZE_CLASSES : list Z := [8; 16; 32; 64; 128; 256; 512; 1024; 2048; 4096].

(** [core::alloc::Layout] *)
Record Layout := mkLayout { size : Z; align : Z }.

(** [SlabInner] and the machine below it. *)
Record heap := mkHeap { free_lists : list Z; machine : mach pmm }.

Definition set_head (ci : nat) (p : Z) (s : heap) : heap := mkHeap (<[ci := p]> (free_lists s)) (machine s).

(** A machine operation inside the heap's state. *)
Definition on_mach {A} (c : ST (mach pmm) A) : ST heap A := λ s,
  match c (machine s) with Ok (a, m) => Ok (a, mkHeap (free_lists s) m) | Panic e => Panic e end.

(** A frame-allocator operation on the machine. *)
Definition on_frames {A} (c : ST pmm A) : ST (mach pmm) A := λ s,
  match c (frames s) with Ok (a, f) => Ok (a, set_frames f s) | Panic e => Panic e end.

Definition heap_new (m : mach pmm) : heap := mkHeap (replicate NUM_CLASSES 0) m.

(** [position(|&sz| sz >= min)] *)
Definition class_for (ly : Layout) : option nat :=
  fst <$> list_find (λ sz, Z.max (Z.max (size ly) (align ly)) 8 ≤ sz) SIZE_CLASSES.

Definition pages_for (bytes : Z) : Z := u64 (u64 (bytes + PAGE_SIZE) - 1) / PAGE_SIZE.

(** [free_lists[ci]], [SIZE_CLASSES[ci]] *)
Definition head_of (s : heap) (ci : nat) : outcome Z := unwrap "index out of bounds" (free_lists s !! ci).
Definition class_size (ci : nat) : Z := default 0 (SIZE_CLASSES !! ci).

(** [for i in (1..count).rev()]: thread chunks [i .. 1] of the page at [base]. *)
Fixpoint thread_chunks (i : nat) (base : Z) (ci : nat) : ST heap unit :=
  match i with
  | O => mret tt
  | S j =>
    let chunk := base + Z.of_nat i * class_size ci in
    s ← get;
    head ← lift (head_of s ci);
    on_mach (kwrite64 chunk head) ≫= λ _,
    modify (set_head ci chunk) ≫= λ _,
    thread_chunks j base ci
  end.

(** Null is 0. *)
Definition alloc (ly : Layout) : ST heap Z :=
  if size ly =? 0 then mret (align ly)
  else if PAGE_SIZE <? size ly then
    o ← on_mach (on_frames (alloc_contiguous (pages_for (size ly))));
    s ← get;
    mret (match o with Some phys => phys_to_virt (machine s) phys | None => 0 end)
  else
    match class_for ly with
    | None => mret 0
    | Some ci =>
      s ← get;
      node ← lift (head_of s ci);
      if negb (node =? 0) then
        next ← on_mach (kread64 node);
        modify (set_head ci next) ≫= λ _, mret node
      else
        o ← on_mach page_alloc;
        match o with
        | None => mret 0
        | Some phys =>
          s ← get;
          let base := phys_to_virt (machine s) phys in
          thread_chunks (Z.to_nat (PAGE_SIZE / class_size ci - 1)) base ci ≫= λ _, mret base
        end
    end.

Fixpoint free_run (n : nat) (i phys : Z) : ST heap unit :=
  match n with
  | O => mret tt
  | S n => on_mach (on_frames (free_page (u64 (phys + u64 (i * PAGE_SIZE))))) ≫= λ _, free_run n (i + 1) phys
  end.

Definition dealloc (ptr : Z) (ly : Layout) : ST heap unit :=
  if (ptr =? 0) || (size ly =? 0) then mret tt
  else if PAGE_SIZE <? size ly then
    s ← get;
    free_run (Z.to_nat (pages_for (size ly))) 0 (u64 (ptr - hhdm_offset (machine s)))
  else
    match class_for ly with
    | None => mret tt
    | Some ci =>
      s ← get;
      head ← lift (head_of s ci);
      on_mach (kwrite64 ptr head) ≫= λ _, modify (set_head ci ptr)
    end.

(** ** Blocks *)

(** The bytes a layout's block takes. *)
Definition block_size (ly : Layout) : Z :=
  if PAGE_SIZE <? size ly then pages_for (size ly) * PAGE_SIZE
  else match class_for ly with Some ci => class_size ci | None => 0 end.

Definition block : Type := Z * Z.
Definition apart (b c : block) : Prop := b.1 + b.2 ≤ c.1 ∨ c.1 + c.2 ≤ b.1.

Fixpoint pairwise (l : list block) : Prop :=
  match l with [] => True | b :: l => Forall (apart b) l ∧ pairwise l end.

Definition block_of (e : Z * Layout) : block := (e.1, block_size e.2).

(** A block of the direct map whose frames are all in use. *)
Definition good_block (m : mach pmm) (b : block) : Prop :=
  8 ≤ b.2 ∧ hhdm m ≤ b.1 ∧ b.1 + b.2 ≤ hhdm m + MAX_PAGES * PAGE_SIZE ∧
  ∀ x, b.1 ≤ x < b.1 + b.2 → used (frames m) ((x - hhdm m) / PAGE_SIZE) = true.

(** The free list from pointer [p], link by link through memory. *)
Fixpoint chain (m : mach pmm) (p : Z) (l : list Z) : Prop :=
  match l with [] => p = 0 | a :: l => p = a ∧ chain m (read64 (ram m) (a - hhdm m)) l end.

Definition free_blocks (fl : nat → list Z) : list block :=
  concat ((λ ci, (λ a, (a, class_size ci)) <$> fl ci) <$> seq 0 NUM_CLASSES).

(** The direct map is page aligned and does not reach the top of the address space. *)
Definition window_ok (m : mach pmm) : Prop :=
  0 < hhdm m ∧ hhdm m mod PAGE_SIZE = 0 ∧ hhdm m + MAX_PAGES * PAGE_SIZE ≤ 2 ^ 64.

(** The heap with free chunks [fl] and blocks [bs] handed out. *)
Record heap_ok (s : heap) (bs : list block) (fl : nat → list Z) : Prop := {
  hk_window : window_ok (machine s);
  hk_wf : wf (frames (machine s));
  hk_len : length (free_lists s) = NUM_CLASSES;
  hk_chain : ∀ ci, (ci < NUM_CLASSES)%nat → ∃ p, free_lists s !! ci = Some p ∧ chain (machine s) p (fl ci);
  hk_good : Forall (good_block (machine s)) (free_blocks fl ++ bs);
  hk_apart : pairwise (free_blocks fl ++ bs);
  hk_align : ∀ ci a, (ci < NUM_CLASSES)%nat → a ∈ fl ci → a mod class_size ci = 0 }.

(** A layout as Rust guarantees it. *)
Definition layout_ok (ly : Layout) : Prop :=
  0 ≤ size ly < 2 ^ 63 ∧ ∃ k, (k < 63)%nat ∧ align ly = 2 ^ Z.of_nat k.

(** Operations of the kernel on its heap, with the ghost list of live blocks:
    allocating, freeing a live block with its layout, and writing inside one. *)
Inductive heap_step : heap * list (Z * Layout) → heap * list (Z * Layout) → Prop :=
| step_alloc s live ly p s' : layout_ok ly → alloc ly s = Ok (p, s') →
    heap_step (s, live) (s', if (size ly =? 0) || (p =? 0) then live else (p, ly) :: live)
| step_dealloc s l1 l2 p ly s' : dealloc p ly s = Ok (tt, s') →
    heap_step (s, l1 ++ (p, ly) :: l2) (s', l1 ++ l2)
| step_write s live p ly off l : (p, ly) ∈ live → 0 ≤ off → off + len l ≤ block_size ly →
    heap_step (s, live)
      (mkHeap (free_lists s) (set_ram (poke (ram (machine s)) (p + off - hhdm (machine s)) l) (machine s)), live).
