(* ===== verification/HeapSpec.v ===== *)
(** The heap hands out disjoint blocks: every operation keeps live blocks and free
    chunks apart, so a free list survives whatever the kernel writes. *)

From stdpp Require Import prelude list numbers strings.
From S2P Require Import Prelude Pmm Memory Paging Heap.

Local Open Scope Z_scope.

(** ** Disjoint blocks *)

Lemma apart_sym b c : apart b c → apart c b.
Proof. unfold apart. lia. Qed.

Lemma pairwise_perm l l' : l ≡ₚ l' → pairwise l → pairwise l'.
Proof.
  induction 1 as [|b l l' Hp IH|b c l|l1 l2 l3 _ IH1 _ IH2]; cbn [pairwise]; [done| | |tauto].
  - intros [Hb Hl]. split; [by rewrite <- Hp|by apply IH].
  - rewrite !Forall_cons_iff. intros ([Hbc Hb] & Hc & Hl). auto using apart_sym.
Qed.

Lemma pairwise_app l l' : pairwise (l ++ l') ↔ pairwise l ∧ pairwise l' ∧ Forall (λ b, Forall (apart b) l') l.
Proof.
  induction l as [|b l IH]; cbn [app pairwise]; [by rewrite Forall_nil; tauto|].
  rewrite Forall_app, IH, Forall_cons_iff. tauto.
Qed.

(** Chunks [base + k * sz .. base + (k + n) * sz) of [sz] bytes each. *)
Definition chunks (k n : nat) (base sz : Z) : list Z := (λ i, base + Z.of_nat i * sz) <$> seq k n.

Definition with_size (sz : Z) (l : list Z) : list block := (λ a, (a, sz)) <$> l.

Lemma chunks_apart k n base sz : 0 < sz → pairwise (with_size sz (chunks k n base sz)).
Proof.
  intros Hs. revert k. induction n as [|n IH]; intros k; cbn; [done|]. split; [|apply IH]. apply Forall_forall.
  intros b Hb. unfold chunks in Hb. rewrite !list_elem_of_fmap in Hb. destruct Hb as (a & -> & Ha). rewrite list_elem_of_fmap in Ha.
  destruct Ha as (i & -> & Hi%elem_of_seq). left. cbn. nia.
Qed.

Lemma chunks_in k n base sz b : b ∈ with_size sz (chunks k n base sz) → ∃ i, (k ≤ i < k + n)%nat ∧ b = (base + Z.of_nat i * sz, sz).
Proof.
  unfold with_size, chunks. rewrite !list_elem_of_fmap. intros (a & -> & Ha). rewrite list_elem_of_fmap in Ha.
  destruct Ha as (i & -> & Hi%elem_of_seq). by exists i.
Qed.

(** ** Free lists *)

Definition upd (fl : nat → list Z) (ci : nat) (l : list Z) : nat → list Z := λ i, if decide (i = ci) then l else fl i.

Lemma fl_upd_eq fl ci l : upd fl ci l ci = l.
Proof. unfold upd. by rewrite decide_True. Qed.

Lemma fl_upd_ne fl ci l i : i ≠ ci → upd fl ci l i = fl i.
Proof. intros. unfold upd. by rewrite decide_False. Qed.

Lemma free_blocks_ext fl fl' : (∀ ci, (ci < NUM_CLASSES)%nat → fl ci = fl' ci) → free_blocks fl = free_blocks fl'.
Proof.
  intros H. unfold free_blocks. f_equal. apply list_fmap_ext. intros i ci Hi. apply lookup_seq in Hi as [-> Hi]. by rewrite H by lia.
Qed.

(** One class of the free blocks, and all the others. *)
Lemma free_blocks_split fl ci : (ci < NUM_CLASSES)%nat →
  ∃ rest, (∀ l, free_blocks (upd fl ci l) ≡ₚ with_size (class_size ci) l ++ rest) ∧
    free_blocks fl ≡ₚ with_size (class_size ci) (fl ci) ++ rest.
Proof.
  intros Hci. set (bl := λ (fl : nat → list Z) ci, with_size (class_size ci) (fl ci)).
  exists (concat (bl fl <$> seq 0 ci) ++ concat (bl fl <$> seq (S ci) (NUM_CLASSES - S ci))).
  assert (∀ l, free_blocks (upd fl ci l) ≡ₚ with_size (class_size ci) l ++
    concat (bl fl <$> seq 0 ci) ++ concat (bl fl <$> seq (S ci) (NUM_CLASSES - S ci))) as H.
  { intros l. unfold free_blocks. replace NUM_CLASSES with (ci + S (NUM_CLASSES - S ci))%nat at 1 by lia.
    rewrite seq_app, fmap_app, concat_app. cbn [seq fmap list_fmap concat]. rewrite fl_upd_eq, Nat.add_0_l.
    assert (∀ k n, (ci < k ∨ k + n ≤ ci)%nat → (λ i, (λ a, (a, class_size i)) <$> upd fl ci l i) <$> seq k n = bl fl <$> seq k n) as E.
    { intros k n Hk. apply list_fmap_ext. intros i j Hj. apply lookup_seq in Hj as [-> Hj]. unfold bl, with_size. by rewrite fl_upd_ne by lia. }
    rewrite !E by lia. fold (with_size (class_size ci) l). solve_Permutation. }
  split; [exact H|]. rewrite <- H. erewrite free_blocks_ext; [done|]. intros i Hi. unfold upd. case_decide; by subst.
Qed.

Lemma chain_ext m m' p l : hhdm m' = hhdm m → (∀ a, a ∈ l → read64 (ram m') (a - hhdm m) = read64 (ram m) (a - hhdm m)) →
  chain m p l → chain m' p l.
Proof.
  intros Hh. revert p. induction l as [|a l IH]; intros p Hr; cbn [chain]; [done|]. intros [-> Hc]. split; [done|].
  rewrite Hh, Hr by (by left). apply IH; [|done]. intros b Hb. apply Hr. by right.
Qed.

(** ** Machine operations on the heap *)

Definition set_mem (m : memory) (s : heap) : heap := mkHeap (free_lists s) (set_ram m (machine s)).

Lemma behind_window m v : window_ok m → hhdm m ≤ v < hhdm m + MAX_PAGES * PAGE_SIZE → behind m v = v - hhdm m.
Proof. intros (H1 & H2 & H3) Hv. apply wrap_small. unfold is_u, MAX_PAGES, PAGE_SIZE in *. lia. Qed.

Lemma virt_window m a : window_ok m → 0 ≤ a < MAX_PAGES * PAGE_SIZE → phys_to_virt m a = hhdm m + a.
Proof. intros (H1 & H2 & H3) Ha. apply wrap_small. unfold is_u. lia. Qed.

(** A write inside one block leaves every word at the start of another block alone. *)
Lemma write_elsewhere (m : memory) h b c off l : apart b c → 8 ≤ c.2 → 0 ≤ off → off + len l ≤ b.2 →
  read64 (poke m (b.1 + off - h) l) (c.1 - h) = read64 m (c.1 - h).
Proof. intros Ha Hc Ho Hl. apply read64_ext. intros x Hx. apply poke_out. unfold apart in Ha. lia. Qed.

Lemma free_in fl ci a : (ci < NUM_CLASSES)%nat → a ∈ fl ci → (a, class_size ci) ∈ free_blocks fl.
Proof.
  intros Hci Ha. destruct (free_blocks_split fl ci Hci) as (rest & _ & E). rewrite E. apply elem_of_app. left.
  unfold with_size. rewrite list_elem_of_fmap. by exists a.
Qed.

(** Writing inside a block that is handed out. *)
Lemma write_ok s b bs fl off l : heap_ok s (b :: bs) fl → 0 ≤ off → off + len l ≤ b.2 →
  heap_ok (set_mem (poke (ram (machine s)) (b.1 + off - hhdm (machine s)) l) s) (b :: bs) fl.
Proof.
  intros H Ho Hl. destruct H as [Hw Hwf Hlen Hch Hg Hap Hal]. split; try done. intros ci Hci. destruct (Hch ci Hci) as (p & Hp & Hc). exists p.
  split; [done|]. eapply chain_ext; [| |exact Hc]; [done|]. intros a Ha. cbn [set_mem machine set_ram ram].
  pose proof (free_in fl ci a Hci Ha) as Hin. apply (write_elsewhere _ _ b (a, class_size ci)); try done.
  - apply apart_sym. apply pairwise_app in Hap as (_ & _ & Hx). rewrite Forall_forall in Hx. specialize (Hx _ Hin).
    by apply Forall_cons_iff in Hx as [Hx _].
  - rewrite Forall_forall in Hg. apply (Hg (a, class_size ci)). apply elem_of_app. by left.
Qed.

Lemma heap_ok_perm s bs bs' fl : bs ≡ₚ bs' → heap_ok s bs fl → heap_ok s bs' fl.
Proof.
  intros Hp [Hw Hwf Hlen Hch Hg Hap Hal]. split; try done; [by rewrite <- Hp|].
  eapply pairwise_perm; [|exact Hap]. by rewrite Hp.
Qed.

(** ** Free-list operations *)

Lemma good_ptr m b : window_ok m → good_block m b → hhdm m ≤ b.1 < hhdm m + MAX_PAGES * PAGE_SIZE ∧ b.1 ≠ 0 ∧ is_u 64 b.1.
Proof. intros (H1 & H2 & H3) (G1 & G2 & G3 & _). unfold is_u. lia. Qed.

Lemma chain_head m p l : chain m p l → Forall (λ a, a ≠ 0) l → p = 0 ↔ l = [].
Proof.
  destruct l as [|a l]; cbn; [by intros ->|]. intros [-> _] [Ha _]%Forall_cons_iff. split; [by intros ->|done].
Qed.

Lemma class_list_nonzero s bs fl ci : heap_ok s bs fl → (ci < NUM_CLASSES)%nat → Forall (λ a, a ≠ 0) (fl ci).
Proof.
  intros H Hci. apply Forall_forall. intros a Ha. pose proof (free_in fl ci a Hci Ha) as Hin.
  pose proof (hk_good _ _ _ H) as Hg. rewrite Forall_forall in Hg. specialize (Hg (a, class_size ci) ltac:(apply elem_of_app; by left)).
  by apply (good_ptr _ _ (hk_window _ _ _ H)) in Hg as (_ & ? & _).
Qed.

Lemma head_spec s bs fl ci : heap_ok s bs fl → (ci < NUM_CLASSES)%nat →
  ∃ p, head_of s ci = Ok p ∧ free_lists s !! ci = Some p ∧ chain (machine s) p (fl ci) ∧ (p = 0 ↔ fl ci = []).
Proof.
  intros H Hci. destruct (hk_chain _ _ _ H ci Hci) as (p & Hp & Hc). exists p. unfold head_of. rewrite Hp.
  do 3 (split; [done|]). exact (chain_head _ _ _ Hc (class_list_nonzero _ _ _ _ H Hci)).
Qed.

(** Popping the head chunk hands it out. *)
Lemma pop_ok s bs fl ci a l : heap_ok s bs fl → (ci < NUM_CLASSES)%nat → fl ci = a :: l →
  heap_ok (set_head ci (read64 (ram (machine s)) (a - hhdm (machine s))) s) ((a, class_size ci) :: bs) (upd fl ci l).
Proof.
  intros [Hw Hwf Hlen Hch Hg Hap Hal] Hci El. destruct (free_blocks_split fl ci Hci) as (rest & Hupd & Efl).
  assert (free_blocks fl ++ bs ≡ₚ free_blocks (upd fl ci l) ++ (a, class_size ci) :: bs) as Hperm.
  { rewrite Efl, Hupd, El. unfold with_size. cbn [fmap list_fmap]. solve_Permutation. }
  split; cbn [set_head machine free_lists]; try done.
  - by rewrite length_insert.
  - intros i Hi. destruct (Hch i Hi) as (p & Hp & Hc). destruct (decide (i = ci)) as [->|Hne].
    + rewrite fl_upd_eq, list_lookup_insert_eq by lia. rewrite El in Hc. destruct Hc as [-> Hc]. eauto.
    + rewrite fl_upd_ne, list_lookup_insert_ne by done. eauto.
  - by rewrite <- Hperm.
  - by eapply pairwise_perm.
  - intros i b Hi Hb. apply (Hal i b Hi). unfold upd in Hb. case_decide; [|done]. subst. rewrite El. by right.
Qed.

(** Pushing a handed-out chunk writes the old head into it and makes it the head. *)
Lemma push_ok s bs fl ci a p : heap_ok s ((a, class_size ci) :: bs) fl → (ci < NUM_CLASSES)%nat → a mod class_size ci = 0 →
  free_lists s !! ci = Some p →
  heap_ok (set_head ci a (set_mem (write64 (ram (machine s)) (a - hhdm (machine s)) p) s)) bs (upd fl ci (a :: fl ci)).
Proof.
  intros H Hci Hal0 Hp. pose proof H as [_ _ Hlen _ Hg _ _]. assert (good_block (machine s) (a, class_size ci)) as Hga.
  { rewrite Forall_forall in Hg. apply Hg. apply elem_of_app. right. by left. }
  pose proof (write_ok s (a, class_size ci) bs fl 0 (le_bytes 8 p) H ltac:(lia)) as Hw. cbn [fst snd] in Hw. rewrite Z.add_0_r in Hw.
  specialize (Hw ltac:(destruct Hga as [? _]; unfold len; rewrite length_le_bytes; cbn in *; lia)).
  assert (is_u 64 p) as Hpu.
  { destruct (head_spec s _ fl ci H Hci) as (p' & _ & Hp' & Hc & _). simplify_eq. destruct (fl ci) as [|b l] eqn:El; cbn in Hc; [subst; unfold is_u; lia|].
    destruct Hc as [-> _]. pose proof (free_in fl ci b Hci ltac:(rewrite El; by left)) as Hin. rewrite Forall_forall in Hg.
    apply (good_ptr (machine s) (b, class_size ci)); [apply H|]. apply Hg, elem_of_app. by left. }
  destruct Hw as [Hwin Hwf _ Hch' Hg' Hap Hal]. destruct (free_blocks_split fl ci Hci) as (rest & Hupd & Efl).
  assert (free_blocks fl ++ (a, class_size ci) :: bs ≡ₚ free_blocks (upd fl ci (a :: fl ci)) ++ bs) as Hperm.
  { rewrite Efl, Hupd. unfold with_size. cbn [fmap list_fmap]. solve_Permutation. }
  split; cbn [set_head machine free_lists]; try done.
  - by rewrite length_insert.
  - intros i Hi. destruct (Hch' i Hi) as (q & Hq & Hc). cbn [set_mem free_lists] in Hq. destruct (decide (i = ci)) as [->|Hne].
    + rewrite fl_upd_eq, list_lookup_insert_eq by (cbn; lia). exists a. split; [done|]. cbn [chain]. split; [done|].
      simplify_eq. cbn [set_mem machine set_ram ram hhdm]. rewrite read64_write64 by done. exact Hc.
    + rewrite fl_upd_ne, list_lookup_insert_ne by done. eauto.
  - by rewrite <- Hperm.
  - by eapply pairwise_perm.
  - intros i b Hi Hb. unfold upd in Hb. case_decide as E; [subst i|by apply Hal]. apply elem_of_cons in Hb as [->|Hb]; [done|by apply Hal].
Qed.

(** ** Taking and returning frames *)

(** More frames in use, other bytes untouched: what is held stays held. *)
Lemma good_mono m m' b : hhdm m' = hhdm m → (∀ q, 0 ≤ q → used (frames m) q = true → used (frames m') q = true) → good_block m b → good_block m' b.
Proof.
  intros Hh Hu (G1 & G2 & G3 & G4). unfold good_block. rewrite Hh. split_and!; try done. intros x Hx. apply Hu; [unfold PAGE_SIZE; dlia|by apply G4].
Qed.

Lemma acquire_ok s bs fl f' a n : heap_ok s bs fl → wf f' → 0 < n → 0 ≤ a → a mod PAGE_SIZE = 0 → a + n * PAGE_SIZE ≤ MAX_PAGES * PAGE_SIZE →
  (∀ q, a / PAGE_SIZE ≤ q < a / PAGE_SIZE + n → used (frames (machine s)) q = false) →
  (∀ q, 0 ≤ q → used f' q = used (frames (machine s)) q || bool_decide (a / PAGE_SIZE ≤ q < a / PAGE_SIZE + n)) →
  heap_ok (mkHeap (free_lists s) (set_frames f' (machine s))) ((hhdm (machine s) + a, n * PAGE_SIZE) :: bs) fl.
Proof.
  intros [Hw Hwf Hlen Hch Hg Hap Hal] Hwf' Hn Ha Ham Hmax Hfree Hused. split; cbn [machine free_lists set_frames]; try done.
  - intros ci Hci. destruct (Hch ci Hci) as (p & Hp & Hc). exists p. split; [done|]. by eapply chain_ext; [| |exact Hc].
  - assert (Forall (good_block (set_frames f' (machine s))) (free_blocks fl ++ bs)) as Hg'.
    { eapply Forall_impl; [exact Hg|]. intros b Hb. eapply good_mono; [| |exact Hb]; [done|]. intros q Hq Eq. cbn. by rewrite Hused, Eq. }
    rewrite <- Permutation_middle. constructor; [|exact Hg']. unfold good_block, PAGE_SIZE in *. cbn [fst snd set_frames hhdm frames]. split_and!; [lia|lia|lia|].
    intros x Hx. rewrite Hused by dlia. rewrite bool_decide_true by dlia. apply orb_true_r.
  - eapply pairwise_perm; [apply Permutation_middle|]. cbn [pairwise]. split; [|done]. apply Forall_forall. intros b Hb. rewrite Forall_forall in Hg.
    destruct (Hg b Hb) as (G1 & G2 & G3 & G4). unfold apart. cbn [fst snd]. unfold PAGE_SIZE in *.
    destruct (decide (hhdm (machine s) + a + n * 4096 ≤ b.1)); [by left|]. destruct (decide (b.1 + b.2 ≤ hhdm (machine s) + a)); [by right|]. exfalso.
    set (x := Z.max b.1 (hhdm (machine s) + a)). assert (b.1 ≤ x < b.1 + b.2 ∧ hhdm (machine s) + a ≤ x < hhdm (machine s) + a + n * 4096) as [Hx1 Hx2] by (unfold x; lia).
    specialize (G4 x Hx1). rewrite Hfree in G4; [done|]. clearbody x. dlia.
Qed.

(** A page splits into the chunks of its class. *)
Lemma split_ok s bs fl base sz n : heap_ok s ((base, Z.of_nat (S n) * sz) :: bs) fl → 8 ≤ sz →
  heap_ok s ((base, sz) :: with_size sz (chunks 1 n base sz) ++ bs) fl.
Proof.
  intros [Hw Hwf Hlen Hch Hg Hap Hal] Hsz. assert (@cons block (base, sz) (with_size sz (chunks 1 n base sz)) = with_size sz (chunks 0 (S n) base sz)) as E.
  { unfold with_size, chunks. cbn [seq fmap list_fmap]. by rewrite Z.mul_0_l, Z.add_0_r. }
  rewrite app_comm_cons, E. set (cs := with_size sz (chunks 0 (S n) base sz)).
  assert (∀ b, b ∈ cs → b.2 = sz ∧ base ≤ b.1 ∧ b.1 + sz ≤ base + Z.of_nat (S n) * sz) as Hcs.
  { intros b (i & Hi & ->)%chunks_in. cbn [fst snd]. nia. }
  rewrite <- Permutation_middle in Hg. apply Forall_cons_iff in Hg as [(G1 & G2 & G3 & G4) Hg]. cbn [fst snd] in *.
  apply (pairwise_perm _ ((base, Z.of_nat (S n) * sz) :: free_blocks fl ++ bs)) in Hap; [|by rewrite Permutation_middle].
  cbn [pairwise] in Hap. destruct Hap as [Hb Hap]. split; try done.
  - assert (Forall (good_block (machine s)) cs) as Hgc.
    { apply Forall_forall. intros b Hin. destruct (Hcs b Hin) as (E2 & ? & ?). unfold good_block. rewrite E2. split_and!; [lia|lia|lia|].
      intros x Hx. apply G4. lia. }
    apply Forall_app in Hg as [? ?]. rewrite !Forall_app. auto.
  - eapply (pairwise_perm (cs ++ free_blocks fl ++ bs)); [by rewrite Permutation_app_swap_app|]. apply pairwise_app. split_and!; [by apply chunks_apart; lia|done|].
    apply Forall_forall. intros b Hin. destruct (Hcs b Hin) as (E2 & ? & ?). eapply Forall_impl; [exact Hb|]. intros c Hc.
    unfold apart in *. cbn [fst snd] in Hc. lia.
Qed.

Lemma thread_ok n base ci s bs fl : heap_ok s (with_size (class_size ci) (chunks 1 n base (class_size ci)) ++ bs) fl → (ci < NUM_CLASSES)%nat →
  base mod class_size ci = 0 → 8 ≤ class_size ci →
  wp (thread_chunks n base ci) s (λ _ s', ∃ fl', heap_ok s' bs fl' ∧ hhdm (machine s') = hhdm (machine s) ∧ frames (machine s') = frames (machine s)).
Proof.
  revert s fl. induction n as [|n IH]; intros s fl H Hci Hb Hsz; cbn [thread_chunks]; [apply wp_ret; by exists fl|].
  assert (with_size (class_size ci) (chunks 1 (S n) base (class_size ci)) ++ bs ≡ₚ
    (base + Z.of_nat (S n) * class_size ci, class_size ci) :: with_size (class_size ci) (chunks 1 n base (class_size ci)) ++ bs) as E.
  { unfold chunks. rewrite seq_S, fmap_app. unfold with_size. rewrite fmap_app. cbn [fmap list_fmap]. replace (1 + n)%nat with (S n) by lia. solve_Permutation. }
  apply (heap_ok_perm _ _ _ _ E) in H. set (chunk := base + Z.of_nat (S n) * class_size ci) in *.
  assert (chunk mod class_size ci = 0) as Hcm by (unfold chunk; by rewrite Z.mod_add by lia).
  destruct (head_spec s _ fl ci H Hci) as (p & Hh & Hp & _).
  apply wp_bind. unfold get at 1, wp at 1. apply wp_bind. eapply wp_lift; [exact Hh|].
  apply wp_bind. unfold on_mach, kwrite64, modify, wp at 1.
  assert (good_block (machine s) (chunk, class_size ci)) as Hg.
  { pose proof (hk_good _ _ _ H) as Hg. rewrite Forall_forall in Hg. apply Hg, elem_of_app. right. by left. }
  rewrite behind_window; [|apply H|by apply (good_ptr (machine s) (chunk, class_size ci)); [apply H|]].
  apply wp_bind. unfold wp at 1. pose proof (push_ok s _ fl ci chunk p H Hci Hcm Hp) as Hpush.
  eapply wp_mono; [by apply (IH _ _ Hpush)|]. intros ? s' (fl' & Hok & Hhh & Hff). exists fl'. split; [done|]. by rewrite Hhh, Hff.
Qed.

(** ** Size classes *)

Lemma class_sizes ci : (ci < NUM_CLASSES)%nat → class_size ci = 2 ^ Z.of_nat (3 + ci).
Proof. intros Hci. unfold NUM_CLASSES in Hci. do 10 (destruct ci as [|ci]; [reflexivity|]). lia. Qed.

Lemma class_range ci : (ci < NUM_CLASSES)%nat → 8 ≤ class_size ci ≤ 4096 ∧ 4096 = (4096 / class_size ci) * class_size ci ∧ (4096 mod class_size ci = 0).
Proof. intros Hci. unfold NUM_CLASSES in Hci. do 10 (destruct ci as [|ci]; [by vm_compute|]). lia. Qed.

Lemma class_for_some ly ci : class_for ly = Some ci → (ci < NUM_CLASSES)%nat ∧ size ly ≤ class_size ci ∧ align ly ≤ class_size ci.
Proof.
  unfold class_for. intros ((i & z) & E & Ei)%fmap_Some. cbn in Ei. subst i. apply list_find_Some in E as (Hz & Hle & _). cbv beta in Hle.
  pose proof (lookup_lt_Some _ _ _ Hz). split; [done|]. unfold class_size. rewrite Hz. cbn. lia.
Qed.

Lemma class_for_none ly : class_for ly = None → 4096 < size ly ∨ 4096 < align ly.
Proof.
  unfold class_for. intros E%fmap_None%list_find_None. rewrite Forall_forall in E.
  specialize (E 4096 ltac:(unfold SIZE_CLASSES; set_solver)). cbv beta in E. lia.
Qed.

(** A multiple of the class size is a multiple of any alignment it covers. *)
Lemma class_aligned ly ci a : layout_ok ly → class_for ly = Some ci → a mod class_size ci = 0 → a mod align ly = 0.
Proof.
  intros (_ & k & Hk & Ek) Hc Ha. apply class_for_some in Hc as (Hci & _ & Hal). rewrite class_sizes in * by done. rewrite Ek in *.
  assert (Z.of_nat k ≤ Z.of_nat (3 + ci)) as Hle by (apply (Z.pow_le_mono_r_iff 2); lia).
  assert ((2 ^ Z.of_nat k | a)); [|by apply Z.mod_divide; [apply Z.pow_nonzero; lia|]].
  apply Z.mod_divide in Ha; [|apply Z.pow_nonzero; lia]. etrans; [|exact Ha]. exists (2 ^ (Z.of_nat (3 + ci) - Z.of_nat k)). rewrite <- Z.pow_add_r by lia. f_equal. lia.
Qed.

Lemma pages_for_eq n : 0 ≤ n < 2 ^ 63 → pages_for n = (n + 4095) / 4096 ∧ n ≤ pages_for n * 4096 < n + 4096.
Proof.
  intros Hn. unfold pages_for, PAGE_SIZE. rewrite (wrap_small 64 (n + 4096)) by (unfold is_u; lia). rewrite wrap_small by (unfold is_u; lia).
  split; [f_equal; lia|dlia].
Qed.

(** ** Allocation *)

(** What a block handed out for a layout is like. *)
Definition block_ok (e : Z * Layout) : Prop :=
  layout_ok e.2 ∧ 0 < size e.2 ∧ e.1 ≠ 0 ∧ size e.2 ≤ block_size e.2 ∧
  (if PAGE_SIZE <? size e.2 then e.1 mod PAGE_SIZE = 0 else ∃ ci, class_for e.2 = Some ci ∧ e.1 mod class_size ci = 0).

Lemma block_size_small ly ci : size ly ≤ PAGE_SIZE → class_for ly = Some ci → block_size ly = class_size ci.
Proof. intros Hs Hc. unfold block_size. rewrite (proj2 (Z.ltb_ge _ _)) by done. by rewrite Hc. Qed.

Lemma mod_class h a ci : (ci < NUM_CLASSES)%nat → h mod PAGE_SIZE = 0 → a mod PAGE_SIZE = 0 → (h + a) mod class_size ci = 0.
Proof.
  intros Hci Hh Ha. destruct (class_range ci Hci) as (Hr & Ed & _). unfold PAGE_SIZE in *.
  assert ((class_size ci | 4096)) as Hd by (eexists; exact Ed). apply Z.mod_divide; [lia|].
  apply Z.divide_add_r; (etrans; [exact Hd|]; apply Z.mod_divide; [lia|done]).
Qed.

Lemma alloc_ok s bs fl ly : heap_ok s bs fl → layout_ok ly →
  wp (alloc ly) s (λ p s', ∃ fl', hhdm (machine s') = hhdm (machine s) ∧
    if (size ly =? 0) || (p =? 0) then heap_ok s' bs fl' else heap_ok s' (block_of (p, ly) :: bs) fl' ∧ block_ok (p, ly)).
Proof.
  intros H Hly. pose proof (proj1 Hly) as Hsz. unfold alloc. destruct (Z.eqb_spec (size ly) 0) as [E0|Hne]; [apply wp_ret; by exists fl|].
  cbn [orb]. pose proof (hk_window _ _ _ H) as Hwin. destruct (Z.ltb_spec PAGE_SIZE (size ly)) as [Hbig|Hsmall].
  - destruct (pages_for_eq (size ly) Hsz) as [_ Hpf]. set (n := pages_for (size ly)) in *.
    assert (0 < n) as Hn by (unfold PAGE_SIZE in Hbig; lia). apply wp_bind. unfold on_mach, on_frames, wp at 1.
    destruct (wp_inv _ _ _ (alloc_contiguous_spec (frames (machine s)) n (hk_wf _ _ _ H) Hn)) as (r & f' & -> & Hpost).
    apply wp_bind. unfold get at 1, wp at 1. apply wp_ret. destruct r as [a|]; cbn [contiguous_post] in Hpost.
    + destruct Hpost as (i & -> & (Hi & Hmax & Hfree) & _ & Hcl & Hwf' & _). unfold PAGE_SIZE in *.
      assert (i * 4096 / 4096 = i) as Edv by (by apply Z.div_mul).
      pose proof (acquire_ok s bs fl f' (i * 4096) n H Hwf' Hn ltac:(lia) ltac:(unfold PAGE_SIZE; by apply Z.mod_mul) ltac:(unfold PAGE_SIZE; lia)) as Hacq.
      unfold PAGE_SIZE in Hacq. rewrite Edv in Hacq. specialize (Hacq Hfree Hcl). cbn [machine].
      rewrite virt_window by (try exact Hwin; unfold PAGE_SIZE; lia). cbn [set_frames hhdm].
      exists fl. split; [done|]. destruct Hwin as (W1 & W2 & W3).
      destruct (Z.eqb_spec (hhdm (machine s) + i * 4096) 0); [lia|]. unfold block_of, block_ok, block_size, PAGE_SIZE. cbn [fst snd].
      rewrite (proj2 (Z.ltb_lt 4096 (size ly))) by done. fold n. split; [exact Hacq|]. split_and!; try done; [lia|lia|].
      unfold PAGE_SIZE in W2. rewrite Z.add_mod, W2, Z.mod_mul by lia. done.
    + destruct Hpost as [-> _]. exists fl. split; [done|]. cbn. by destruct s as [? []].
  - destruct (class_for ly) as [ci|] eqn:Ec; [|apply wp_ret; by exists fl]. destruct (class_for_some _ _ Ec) as (Hci & Hcs & _).
    destruct (class_range ci Hci) as (Hr & Ed & _). destruct (head_spec s bs fl ci H Hci) as (p & Hh & Hp & Hc & Hp0).
    apply wp_bind. unfold get at 1, wp at 1. apply wp_bind. eapply wp_lift; [exact Hh|].
    destruct (Z.eqb_spec p 0) as [E0|Hpne]; cbn [negb].
    + apply wp_bind. unfold on_mach, page_alloc, wp at 1. change fs_alloc with alloc_page.
      destruct (alloc_page (frames (machine s))) as [[a|] f'] eqn:Ea.
      2:{ apply alloc_page_none in Ea as [-> _]; [|apply H]. apply wp_ret. exists fl. split; [done|]. cbn. by destruct s as [? []]. }
      apply alloc_page_some in Ea as (q & -> & Hq & Hu & _ & [Hc1 Hc2] & Hwf' & _); [|apply H]. unfold valid_page in Hq.
      apply wp_bind. unfold get at 1, wp at 1. cbn [machine]. rewrite virt_window by (try exact Hwin; unfold PAGE_SIZE; lia).
      pose proof (acquire_ok s bs fl f' (q * PAGE_SIZE) 1 H Hwf' ltac:(lia) ltac:(unfold PAGE_SIZE; lia) ltac:(by apply Z.mod_mul) ltac:(unfold PAGE_SIZE; lia)) as Hacq.
      rewrite Z.div_mul in Hacq by done. specialize (Hacq ltac:(intros r Hr'; by replace r with q by lia)).
      assert (∀ r, 0 ≤ r → used f' r = used (frames (machine s)) r || bool_decide (q ≤ r < q + 1)) as Hx.
      { intros r Hr'. destruct (decide (r = q)) as [->|Hrq]; [by rewrite Hc1, bool_decide_true, orb_true_r by lia|].
        rewrite Hc2 by done. rewrite bool_decide_false by lia. by rewrite orb_false_r. }
      specialize (Hacq Hx). set (s1 := mkHeap (free_lists s) (set_frames f' (machine s))) in *.
      set (base := hhdm (machine s) + q * PAGE_SIZE) in *. assert (base mod class_size ci = 0) as Hbm.
      { apply mod_class; [done|apply Hwin|by apply Z.mod_mul]. }
      set (n := Z.to_nat (PAGE_SIZE / class_size ci - 1)).
      assert (1 ≤ 4096 / class_size ci) as Hq1 by (apply Z.div_le_lower_bound; lia).
      assert (Z.of_nat (S n) * class_size ci = 1 * PAGE_SIZE) as En by (unfold n, PAGE_SIZE; rewrite Nat2Z.inj_succ, Z2Nat.id by lia; lia).
      rewrite <- En in Hacq. apply split_ok in Hacq; [|lia].
      apply (heap_ok_perm _ _ _ _ (Permutation_middle _ _ _)) in Hacq.
      change (hhdm (set_frames f' (machine s)) + q * PAGE_SIZE) with base.
      wp_step (thread_ok n base ci s1 _ fl Hacq Hci Hbm ltac:(lia)). intros ? s2 (fl' & Hok & Hhh & _). apply wp_ret. exists fl'. split; [done|].
      destruct (Z.eqb_spec base 0) as [Eb|Hbne]; [destruct Hwin; unfold base, PAGE_SIZE in Eb; lia|].
      unfold block_of, block_ok. cbn [fst snd]. rewrite (block_size_small ly ci) by done. split; [exact Hok|].
      rewrite (proj2 (Z.ltb_ge _ _)) by done. split_and!; try done; [lia|eauto].
    + destruct (fl ci) as [|a l] eqn:El; [by destruct Hpne; apply Hp0|]. destruct Hc as [-> Hc].
      assert (good_block (machine s) (a, class_size ci)) as Hg.
      { pose proof (hk_good _ _ _ H) as Hg. rewrite Forall_forall in Hg. apply Hg, elem_of_app. left. apply free_in; [done|]. rewrite El. by left. }
      apply wp_bind. unfold on_mach, kread64, gets, wp at 1.
      rewrite behind_window by (try exact Hwin; apply (good_ptr (machine s) (a, class_size ci)); done).
      apply wp_bind. unfold modify, wp at 1. apply wp_ret. exists (upd fl ci l). split; [done|].
      destruct (Z.eqb_spec a 0); [done|]. unfold block_of, block_ok. cbn [fst snd]. rewrite (block_size_small ly ci) by done.
      rewrite (proj2 (Z.ltb_ge _ _)) by done. pose proof (pop_ok s bs fl ci a l H Hci El) as Hpop.
      split; [by destruct s|]. split_and!; try done; [lia|]. exists ci. split; [done|]. apply (hk_align _ _ _ H ci); [done|]. rewrite El. by left.
Qed.

(** ** Deallocation *)

Definition frees_run (f f' : pmm) (lo n : Z) : Prop :=
  ∀ q, 0 ≤ q → used f' q = used f q && negb (bool_decide (lo ≤ q < lo + n)).

Lemma free_run_ok n i a s : wf (frames (machine s)) → 0 ≤ i → 0 ≤ a → a mod PAGE_SIZE = 0 → a + (i + Z.of_nat n) * PAGE_SIZE ≤ MAX_PAGES * PAGE_SIZE →
  wp (free_run n i a) s (λ _ s', ∃ f', s' = mkHeap (free_lists s) (set_frames f' (machine s)) ∧ wf f' ∧
    frees_run (frames (machine s)) f' (a / PAGE_SIZE + i) (Z.of_nat n)).
Proof.
  revert i s. induction n as [|n IH]; intros i s Hwf Hi Ha Ham Hmax; cbn [free_run].
  - apply wp_ret. exists (frames (machine s)). split; [by destruct s as [? []]|]. split; [done|]. intros q Hq.
    rewrite bool_decide_false by lia. by rewrite andb_true_r.
  - unfold MAX_PAGES, PAGE_SIZE in *. assert (u64 (a + u64 (i * 4096)) = (a / 4096 + i) * 4096) as ->.
    { rewrite (wrap_small 64 (i * 4096)) by (unfold is_u; lia). rewrite wrap_small by (unfold is_u; lia). dlia. }
    assert (valid_page (a / 4096 + i)) as Hv by (unfold valid_page, MAX_PAGES; dlia).
    destruct (free_page_spec (frames (machine s)) (a / 4096 + i) Hwf Hv) as (f1 & E & Hwf1 & [Hc1 Hc2] & _).
    unfold PAGE_SIZE in E. apply wp_bind. unfold on_mach, on_frames, wp at 1. rewrite E.
    eapply wp_mono; [apply (IH (i + 1)); cbn; [done|lia|lia|done|lia]|]. intros ? s' (f' & -> & Hwf' & Hf). cbn [machine frames set_frames free_lists] in *.
    exists f'. split; [done|]. split; [done|]. intros q Hq. rewrite Hf by done. destruct (decide (q = a / 4096 + i)) as [->|Hne].
    + rewrite Hc1. cbn [andb]. rewrite (bool_decide_true (a / 4096 + i ≤ a / 4096 + i < _)) by lia. by rewrite andb_false_r.
    + rewrite Hc2 by done. f_equal. f_equal. apply bool_decide_ext. lia.
Qed.

Lemma release_ok s bs fl f' a n : heap_ok s ((hhdm (machine s) + a, n * PAGE_SIZE) :: bs) fl → 0 ≤ a → a mod PAGE_SIZE = 0 → wf f' →
  frees_run (frames (machine s)) f' (a / PAGE_SIZE) n →
  heap_ok (mkHeap (free_lists s) (set_frames f' (machine s))) bs fl.
Proof.
  intros [Hw Hwf Hlen Hch Hg Hap Hal] Ha Ham Hwf' Hf. rewrite <- Permutation_middle in Hg. apply Forall_cons_iff in Hg as [_ Hg].
  apply (pairwise_perm _ _ (symmetry (Permutation_middle (free_blocks fl) bs (hhdm (machine s) + a, n * PAGE_SIZE)))) in Hap.
  cbn [pairwise] in Hap. destruct Hap as [Hb Hap]. split; cbn [machine free_lists set_frames]; try done.
  - intros ci Hci. destruct (Hch ci Hci) as (p & Hp & Hc). exists p. split; [done|]. by eapply chain_ext; [| |exact Hc].
  - rewrite Forall_forall in Hg, Hb |- *. intros b Hin. destruct (Hg b Hin) as (G1 & G2 & G3 & G4). specialize (Hb b Hin).
    split_and!; try done. intros x Hx. cbn [set_frames frames hhdm]. rewrite Hf by (unfold PAGE_SIZE; dlia). rewrite G4 by done.
    rewrite bool_decide_false; [done|]. unfold apart in Hb. cbn [fst snd] in Hb. unfold PAGE_SIZE in *. dlia.
Qed.

Lemma dealloc_ok s bs fl p ly : heap_ok s (block_of (p, ly) :: bs) fl → block_ok (p, ly) →
  wp (dealloc p ly) s (λ _ s', hhdm (machine s') = hhdm (machine s) ∧ ∃ fl', heap_ok s' bs fl').
Proof.
  intros H (Hly & Hpos & Hp0 & Hle & Hal). cbn [fst snd] in *. unfold dealloc.
  rewrite (proj2 (Z.eqb_neq p 0)), (proj2 (Z.eqb_neq (size ly) 0)) by lia. cbn [orb].
  assert (good_block (machine s) (block_of (p, ly))) as Hg.
  { pose proof (hk_good _ _ _ H) as Hg. rewrite Forall_forall in Hg. apply Hg, elem_of_app. right. by left. }
  pose proof (hk_window _ _ _ H) as Hwin. unfold block_of in *. cbn [fst snd] in *. destruct (Z.ltb_spec PAGE_SIZE (size ly)) as [Hbig|Hsmall].
  - assert (block_size ly = pages_for (size ly) * PAGE_SIZE) as Eb by (unfold block_size; by rewrite (proj2 (Z.ltb_lt _ _))).
    rewrite Eb in *. destruct (pages_for_eq (size ly) (proj1 Hly)) as [_ Hpf]. set (n := pages_for (size ly)) in *.
    destruct Hg as (G1 & G2 & G3 & _). cbn [fst snd] in *. destruct Hwin as (W1 & W2 & W3). unfold PAGE_SIZE in *.
    apply wp_bind. unfold get at 1, wp at 1. unfold hhdm_offset. rewrite (wrap_small 64 (p - _)) by (unfold is_u; lia).
    set (a := p - hhdm (machine s)) in *. assert (a mod 4096 = 0) as Ham by (unfold a; dlia).
    eapply wp_mono; [apply free_run_ok; unfold PAGE_SIZE; [apply H|lia|lia|exact Ham|lia]|].
    intros ? s' (f' & -> & Hwf' & Hf). split; [done|]. exists fl. rewrite Z.add_0_r, Z2Nat.id in Hf by lia.
    apply (release_ok s bs fl f' a n); try done; [|lia]. unfold PAGE_SIZE, a. by replace (hhdm (machine s) + (p - hhdm (machine s))) with p by lia.
  - destruct Hal as (ci & Hc & Hm). rewrite Hc. rewrite (block_size_small ly ci) in H by done. destruct (class_for_some _ _ Hc) as (Hci & _).
    destruct (head_spec s _ fl ci H Hci) as (q & Hh & Hq & _). apply wp_bind. unfold get at 1, wp at 1. apply wp_bind. eapply wp_lift; [exact Hh|].
    apply wp_bind. unfold on_mach, kwrite64, modify, wp. rewrite behind_window by (try exact Hwin; by apply (good_ptr (machine s) (p, block_size ly))).
    pose proof (push_ok s bs fl ci p q H Hci Hm Hq) as Hpush. split; [done|]. eexists. exact Hpush.
Qed.

(** ** Reachable heaps *)

Definition heap_inv (h : Z) (st : heap * list (Z * Layout)) : Prop :=
  hhdm (machine st.1) = h ∧ (∃ fl, heap_ok st.1 (block_of <$> st.2) fl) ∧ Forall block_ok st.2.

Lemma heap_init h m : window_ok m → wf (frames m) → hhdm m = h → heap_inv h (heap_new m, []).
Proof.
  intros Hw Hwf Hh. split; [done|]. split; [|constructor]. exists (λ _, []). split; try done.
  - intros ci Hci. exists 0. split; [|done]. by apply lookup_replicate_2.
  - intros ci a _ Ha. by apply elem_of_nil in Ha.
Qed.

Lemma heap_step_inv h st st' : heap_step st st' → heap_inv h st → heap_inv h st'.
Proof.
  intros Hs (Hh & (fl & Hok) & Hb). destruct Hs as [s live ly p s' Hly E|s l1 l2 p ly s' E|s live p ly off l Hin Ho Hl]; cbn [fst snd] in *.
  - destruct (wp_result _ _ _ _ _ (alloc_ok s _ fl ly Hok Hly) E) as (fl' & Hh' & H'). destruct (_ || _).
    + split; [cbn; congruence|]. split; [by exists fl'|done].
    + destruct H' as [H' Hbo]. split; [cbn; congruence|]. split; [by exists fl'|by constructor].
  - rewrite fmap_app, fmap_cons in Hok. apply (heap_ok_perm _ _ _ _ (symmetry (Permutation_middle _ _ _))) in Hok. rewrite <- fmap_app in Hok.
    apply Forall_app in Hb as [Hb1 Hb2]. apply Forall_cons_iff in Hb2 as [Hbp Hb2].
    destruct (wp_result _ _ _ _ _ (dealloc_ok s _ fl p ly Hok Hbp) E) as (Hh' & fl' & H').
    split; [cbn; congruence|]. split; [by exists fl'|by apply Forall_app].
  - split; [done|]. split; [|done]. apply list_elem_of_split in Hin as (l1 & l2 & ->). exists fl. cbn [fst snd]. rewrite fmap_app, fmap_cons in *.
    apply (heap_ok_perm _ _ _ _ (symmetry (Permutation_middle _ _ _))) in Hok.
    apply (heap_ok_perm _ _ _ _ (Permutation_middle _ _ _)). by apply (write_ok s (block_of (p, ly)) _ fl off l Hok).
Qed.

(** C30: However the kernel allocates, frees live blocks and writes inside them, its
    live blocks never overlap each other, are as large as asked for and aligned as
    asked for (page-aligned above one page), and lie in frames that are in use; and
    neither [alloc] nor the [dealloc] of a live block ever panics. *)
Theorem heap_blocks_disjoint (m : mach pmm) s live
    (Hwin : window_ok m) (Hwf : wf (frames m)) (Hreach : rtc heap_step (heap_new m, []) (s, live)) :
  pairwise (block_of <$> live) ∧
  (∀ p ly, (p, ly) ∈ live → good_block (machine s) (p, block_size ly) ∧ size ly ≤ block_size ly ∧
    (if PAGE_SIZE <? size ly then p mod PAGE_SIZE = 0 else p mod align ly = 0) ∧ is_ok (dealloc p ly s) = true) ∧
  ∀ ly, layout_ok ly → is_ok (alloc ly s) = true.
Proof.
  assert (heap_inv (hhdm m) (s, live)) as (_ & (fl & Hok) & Hb).
  { remember (heap_new m, []) as st eqn:E. remember (s, live) as st' eqn:E'. assert (heap_inv (hhdm m) st) as Hi by (subst; by apply heap_init).
    clear E E' s live. induction Hreach as [|x y z Hs _ IH]; [done|]. apply IH. by eapply heap_step_inv. }
  cbn [fst snd] in *. split_and!.
  - pose proof (hk_apart _ _ _ Hok) as Ha. by apply pairwise_app in Ha as (_ & ? & _).
  - intros p ly Hin. rewrite Forall_forall in Hb. pose proof (Hb _ Hin) as Hbp. destruct Hbp as (Hly & Hpos & _ & Hle & Hal). cbn [fst snd] in *.
    split; [|split; [done|split]].
    + pose proof (hk_good _ _ _ Hok) as Hg. rewrite Forall_forall in Hg. apply (Hg (p, block_size ly)), elem_of_app. right.
      rewrite list_elem_of_fmap. by exists (p, ly).
    + destruct (PAGE_SIZE <? size ly); [done|]. destruct Hal as (ci & Hc & Hm). by apply (class_aligned ly ci).
    + apply list_elem_of_split in Hin as Hsp. destruct Hsp as (l1 & l2 & ->). rewrite fmap_app, fmap_cons in Hok.
      apply (heap_ok_perm _ _ _ _ (symmetry (Permutation_middle _ _ _))) in Hok.
      destruct (wp_inv _ _ _ (dealloc_ok s _ fl p ly Hok (Hb _ Hin))) as (? & ? & -> & _). done.
  - intros ly Hly. destruct (wp_inv _ _ _ (alloc_ok s _ fl ly Hok Hly)) as (? & ? & -> & _). done.
Qed.

(** Two small blocks and a large one on the demonstration machine. *)
Lemma demo_window : window_ok demo_mach.
Proof. split_and!; [done|reflexivity|]. unfold demo_mach, MAX_PAGES, PAGE_SIZE. cbn [hhdm]. lia. Qed.

Lemma demo_alloc : ∃ s, alloc (mkLayout 4096 8) (heap_new demo_mach) = Ok (0xFFFF800000000000, s).
Proof.
  assert (match alloc (mkLayout 4096 8) (heap_new demo_mach) with Ok (p, _) => p | Panic _ => -1 end = 0xFFFF800000000000) as E by (lazy; reflexivity).
  destruct (alloc _ _) as [[p s]|]; [exists s; by rewrite E|discriminate].
Qed.

Lemma heap_blocks_disjoint_witness :
  ∃ s, pairwise [(0xFFFF800000000000, 4096)] ∧ is_ok (dealloc 0xFFFF800000000000 (mkLayout 4096 8) s) = true ∧
    is_ok (alloc (mkLayout 64 64) s) = true.
Proof.
  destruct demo_alloc as [s E]. exists s.
  destruct (heap_blocks_disjoint demo_mach s [(0xFFFF800000000000, mkLayout 4096 8)] demo_window (proj1 demo_frames_inv)) as (H1 & H2 & H3).
  - eapply rtc_l; [|apply rtc_refl].
    refine (step_alloc (heap_new demo_mach) [] (mkLayout 4096 8) 0xFFFF800000000000 s _ E).
    split; [cbn; lia|]. exists 3%nat. split; [lia|reflexivity].
  - split; [exact H1|]. split; [apply (H2 0xFFFF800000000000 (mkLayout 4096 8)); by left|].
    apply H3. split; [cbn; lia|]. exists 6%nat. split; [lia|reflexivity].
Defined.
