(* ===== verification/Elf.v ===== *)
(** The ELF64 loader ([kernel/src/elf.rs]): header checks, PT_LOAD segments mapped
    into a user address space page by page, and the image a process then sees.

    [usize] arithmetic wraps at 64 bits, as in the release build; slices panic
    out of range. *)

From stdpp Require Import prelude list numbers strings.
From S2P Require Import Prelude Text Pmm Memory Paging.

Local Open Scope Z_scope.

(** A program header's fields the loader uses. *)
Record phdr := mkPhdr { p_type : Z; p_offset : Z; p_vaddr : Z; p_filesz : Z; p_memsz : Z }.

(** [pages] and [page_map] of [load]. *)
Record loading := mkLoading { pages : list Z; page_map : list (Z * Z) }.

Definition le_at (data : list Z) (off n : Z) : outcome Z := l ← slice data off (off + n); Ok (le_val l).

Definition parse_phdr (ph : list Z) : outcome phdr :=
  t ← le_at ph 0 4; o ← le_at ph 8 8; v ← le_at ph 16 8; f ← le_at ph 32 8; m ← le_at ph 40 8;
  Ok (mkPhdr t o v f m).

(** [x & !(PAGE_SIZE - 1)] on [usize] *)
Definition page_floor (x : Z) : Z := Z.land x (U64_MAX - 4095).

Definition page_start (ph : phdr) : Z := page_floor (p_vaddr ph).
Definition page_end (ph : phdr) : Z := page_floor (u64 (u64 (u64 (p_vaddr ph + p_memsz ph) + PAGE_SIZE) - 1)).
Definition num_pages (ph : phdr) : Z := u64 (page_end ph - page_start ph) / PAGE_SIZE.

(** [process::TEST_ELF]: the 183-byte program that greets from ring 3. *)
Definition TEST_ELF : list Z :=
  [0x7F; 0x45; 0x4C; 0x46; 0x2; 0x1; 0x1] ++ replicate 9 0 ++ [0x2; 0x0; 0x3E; 0x0; 0x1] ++ replicate 3 0 ++
  [0x78; 0x0; 0x40] ++ replicate 5 0 ++ [0x40] ++ replicate 19 0 ++ [0x40; 0x0; 0x38; 0x0; 0x1; 0x0; 0x40] ++
  replicate 5 0 ++ [0x1] ++ replicate 3 0 ++ [0x5] ++ replicate 13 0 ++ [0x40] ++ replicate 7 0 ++ [0x40] ++
  replicate 5 0 ++ [0xB7] ++ replicate 7 0 ++ [0xB7] ++ replicate 8 0 ++ [0x10] ++ replicate 6 0 ++
  [0x48; 0xC7; 0xC0; 0x1] ++ replicate 3 0 ++ [0x48; 0xC7; 0xC7; 0x1] ++ replicate 3 0 ++
  [0x48; 0x8D; 0x35; 0x17] ++ replicate 3 0 ++ [0x48; 0xC7; 0xC2; 0x13] ++ replicate 3 0 ++
  [0xF; 0x5; 0x48; 0xC7; 0xC0; 0x3C] ++ replicate 3 0 ++ [0x48; 0x31; 0xFF; 0xF; 0x5; 0xEB; 0xFE] ++ txt "Hello from ring 3!" ++ [0x0A].

Section elf.
Context {F : Type} `{!FrameSource F}.

(** The frame for [virt]: the one an earlier segment got, or a fresh zeroed one. *)
Definition page_for (pml4 virt : Z) (l : loading) : ST (mach F) ((Z * loading) + string) :=
  match list_find (λ e, e.1 = virt) (page_map l) with
  | Some (_, (_, existing)) => mret (inl (existing, l))
  | None =>
    o ← page_alloc;
    match o with
    | None => mret (inr "ELF load: out of physical memory"%string)
    | Some phys =>
      s ← get;
      kzero_page (phys_to_virt s phys) ≫= λ _,
      map_page_into pml4 virt phys (Z.lor USER WRITE) ≫= λ _,
      mret (inl (phys, mkLoading (pages l ++ [phys]) (page_map l ++ [(virt, phys)])))
    end
  end.

(** The part of the file that falls into the page at [page_va_lo]. *)
Definition copy_page (data : list Z) (ph : phdr) (page_va_lo phys : Z) : ST (mach F) unit :=
  let page_va_hi := u64 (page_va_lo + PAGE_SIZE) in
  let file_va_lo := p_vaddr ph in
  let file_va_hi := u64 (file_va_lo + p_filesz ph) in
  let copy_lo := Z.max file_va_lo page_va_lo in
  let copy_hi := Z.min file_va_hi page_va_hi in
  if copy_lo <? copy_hi then
    let dst_off := copy_lo - page_va_lo in
    let src_off := u64 (p_offset ph + (copy_lo - file_va_lo)) in
    let n := copy_hi - copy_lo in
    lift (rassert (dst_off + n <=? PAGE_SIZE) "slice out of range") ≫= λ _,
    src ← lift (slice data src_off (u64 (src_off + n)));
    s ← get;
    kwrite (phys_to_virt s phys + dst_off) src
  else mret tt.

Fixpoint load_pages (n : nat) (p : Z) (data : list Z) (pml4 : Z) (ph : phdr) (l : loading) : ST (mach F) (loading + string) :=
  match n with
  | O => mret (inl l)
  | S n =>
    let virt := u64 (page_start ph + p * PAGE_SIZE) in
    r ← page_for pml4 virt l;
    match r with
    | inr e => mret (inr e)
    | inl (phys, l) => copy_page data ph virt phys ≫= λ _, load_pages n (p + 1) data pml4 ph l
    end
  end.

Fixpoint load_segments (n : nat) (i e_phoff e_phentsize : Z) (data : list Z) (pml4 : Z) (l : loading) : ST (mach F) (loading + string) :=
  match n with
  | O => mret (inl l)
  | S n =>
    let ph_off := u64 (e_phoff + i * e_phentsize) in
    if len data <? u64 (ph_off + 56) then mret (inr "program header out of bounds"%string)
    else
      raw ← lift (slice data ph_off (u64 (ph_off + 56)));
      ph ← lift (parse_phdr raw);
      let next := load_segments n (i + 1) e_phoff e_phentsize data pml4 in
      if negb (p_type ph =? 1) then next l
      else if p_memsz ph =? 0 then next l
      else if (0 <? p_filesz ph) && (len data <? u64 (p_offset ph + p_filesz ph)) then
        mret (inr "segment data extends past end of file"%string)
      else
        r ← load_pages (Z.to_nat (num_pages ph)) 0 data pml4 ph l;
        match r with inr e => mret (inr e) | inl l => next l end
  end.

(** The checks before the loop: entry point, table offset, entry size and count. *)
Definition check_header (data : list Z) : outcome ((Z * Z * Z * Z) + string) :=
  if len data <? 64 then Ok (inr "ELF too small"%string)
  else
    magic ← slice data 0 4;
    if negb (bool_decide (magic = [0x7F; 0x45; 0x4C; 0x46])) then Ok (inr "bad ELF magic"%string)
    else
      class ← idx data 4;
      if negb (class =? 2) then Ok (inr "not ELF64"%string)
      else
        enc ← idx data 5;
        if negb (enc =? 1) then Ok (inr "not little-endian"%string)
        else
          e_type ← le_at data 16 2;
          e_machine ← le_at data 18 2;
          if negb (e_type =? 2) then Ok (inr "not an executable ELF"%string)
          else if negb (e_machine =? 0x3E) then Ok (inr "not x86-64"%string)
          else
            e_entry ← le_at data 24 8;
            e_phoff ← le_at data 32 8;
            e_phentsize ← le_at data 54 2;
            e_phnum ← le_at data 56 2;
            if e_phentsize <? 56 then Ok (inr "phentsize too small"%string)
            else Ok (inl (e_entry, e_phoff, e_phentsize, e_phnum)).

(** [Loaded { entry, pages }] or the error. *)
Definition load (data : list Z) (pml4 : Z) : ST (mach F) ((Z * list Z) + string) :=
  h ← lift (check_header data);
  match h with
  | inr e => mret (inr e)
  | inl (e_entry, e_phoff, e_phentsize, e_phnum) =>
    r ← load_segments (Z.to_nat e_phnum) 0 e_phoff e_phentsize data pml4 (mkLoading [] []);
    match r with
    | inr e => mret (inr e)
    | inl l =>
      match pages l with
      | [] => mret (inr "no PT_LOAD segments found"%string)
      | _ => mret (inl (e_entry, pages l))
      end
    end
  end.
End elf.
