(* ===== verification/ElfSpec.v ===== *)
(** The ELF loader builds the process image: an abstract image of the file's
    segments, and the proof that the loaded address space shows it. *)

From stdpp Require Import prelude list numbers strings.
From S2P Require Import Prelude Pmm Memory Paging Elf.

Local Open Scope Z_scope.

(** ** The abstract image *)

(** A segment the loader can place: inside the file and the lower half. *)
Definition seg_ok (data : list Z) (ph : phdr) : Prop :=
  0 < p_memsz ph ∧ 0 ≤ p_vaddr ph ∧ p_vaddr ph + p_memsz ph ≤ 2 ^ 47 - 4096 ∧
  0 ≤ p_filesz ph ∧ p_vaddr ph + p_filesz ph ≤ 2 ^ 47 - 4096 ∧
  0 ≤ p_offset ph ∧ p_offset ph + p_filesz ph ≤ len data < 2 ^ 62.

(** Pages [lo, hi) of one segment over an image: file bytes where there are any. *)
Definition overlay (data : list Z) (ph : phdr) (lo hi : Z) (img : Z → Z) : Z → Z := λ va,
  if (lo <=? va) && (va <? hi) && (p_vaddr ph <=? va) && (va <? p_vaddr ph + p_filesz ph)
  then default 0 (data !! Z.to_nat (p_offset ph + (va - p_vaddr ph))) else img va.

(** The image of a list of segments: later segments win, the rest is zero. *)
Definition image (data : list Z) (segs : list phdr) : Z → Z :=
  fold_left (λ img ph, overlay data ph (page_start ph) (page_end ph) img) segs (λ _, 0).

Definition covered_by (segs : list phdr) (va : Z) : bool :=
  existsb (λ ph, (page_start ph <=? va) && (va <? page_end ph)) segs.

(** The loadable segments a header table lists; [None] when a header is cut off. *)
Fixpoint segments_of (n : nat) (i e_phoff e_phentsize : Z) (data : list Z) : option (list phdr) :=
  match n with
  | O => Some []
  | S n =>
    let off := e_phoff + i * e_phentsize in
    if len data <? off + 56 then None
    else match parse_phdr (sub (Z.to_nat off) 56 data) with
    | Panic _ => None
    | Ok ph =>
      rest ← segments_of n (i + 1) e_phoff e_phentsize data;
      Some (if (p_type ph =? 1) && negb (p_memsz ph =? 0) then ph :: rest else rest)
    end
  end.

(** ** Page arithmetic *)

Lemma page_floor_eq x : 0 ≤ x < 2 ^ 64 → page_floor x = x - x mod 4096.
Proof.
  intros Hx. unfold page_floor. assert (x - x mod 4096 = Z.shiftl (Z.shiftr x 12) 12) as ->.
  { rewrite Z.shiftl_mul_pow2, Z.shiftr_div_pow2 by lia. change (2 ^ 12) with 4096. dlia. }
  change (U64_MAX - 4095) with (Z.shiftl (Z.ones 52) 12). apply Z.bits_inj'. intros k Hk. rewrite Z.land_spec.
  destruct (decide (k < 12)).
  - rewrite !Z.shiftl_spec_low by lia. apply andb_false_r.
  - rewrite !Z.shiftl_spec_high, Z.shiftr_spec by lia. replace (k - 12 + 12) with k by lia. destruct (decide (k < 64)).
    + rewrite Z.ones_spec_low by lia. apply andb_true_r.
    + rewrite (testbit_is_u 64 x) by (unfold is_u; lia). done.
Qed.

Lemma page_bounds data ph : seg_ok data ph →
  page_start ph = p_vaddr ph - p_vaddr ph mod 4096 ∧ page_end ph mod 4096 = 0 ∧
  p_vaddr ph + p_memsz ph ≤ page_end ph < p_vaddr ph + p_memsz ph + 4096 ∧
  Z.of_nat (Z.to_nat (num_pages ph)) * 4096 = page_end ph - page_start ph.
Proof.
  intros (Hm & Hv & Hvm & _). unfold num_pages. assert (page_start ph = p_vaddr ph - p_vaddr ph mod 4096) as Es.
  { unfold page_start. apply page_floor_eq. lia. }
  assert (page_end ph = (p_vaddr ph + p_memsz ph + 4095) - (p_vaddr ph + p_memsz ph + 4095) mod 4096) as Ee.
  { unfold page_end, PAGE_SIZE. rewrite (wrap_small 64 (p_vaddr ph + p_memsz ph)) by (unfold is_u; lia).
    rewrite (wrap_small 64 (_ + 4096)) by (unfold is_u; lia). rewrite (wrap_small 64) by (unfold is_u; lia).
    replace (p_vaddr ph + p_memsz ph + 4096 - 1) with (p_vaddr ph + p_memsz ph + 4095) by lia. apply page_floor_eq. lia. }
  rewrite Es, Ee. unfold PAGE_SIZE. rewrite wrap_small by (unfold is_u; dlia). split_and!; dlia.
Qed.

Section spec.
Context {F : Type} `{!FrameSource F}.
Implicit Types (s : mach F).

(** ** What holds while a file is being loaded *)

Definition page_of (va : Z) : Z := va - va mod 4096.

Record load_inv (root : Z) (s0 : mach F) (l : loading) (img : Z → Z) (s : mach F) : Prop := {
  li_space : space low_half (frames s) (ram s) root;
  li_regs : same_regs s0 s;
  li_frame : ∀ v a, (v, a) ∈ page_map l → page_of v = v ∧ 0 ≤ v < 2 ^ 47 ∧ frame a ∧
    fs_used (frames s) a = true ∧ fs_used (frames s0) a = false ∧ (∀ p, ¬ table low_half (ram s) root p a);
  li_leaf : ∀ v a, (v, a) ∈ page_map l → leaf (ram s) root v = Z.lor a 7;
  li_bytes : ∀ v a o, (v, a) ∈ page_map l → 0 ≤ o < 4096 → ram s (a + o) = img (v + o);
  li_virts : NoDup (fst <$> page_map l);
  li_frames : NoDup (snd <$> page_map l);
  li_other : ∀ v, 0 ≤ v < 2 ^ 47 → page_of v ∉ fst <$> page_map l → leaf (ram s) root v = leaf (ram s0) root v ∧ img v = 0;
  li_pages : pages l = snd <$> page_map l;
  li_used : ∀ a, frame a → fs_used (frames s0) a = true → fs_used (frames s) a = true;
  li_old : ∀ a x, frame a → fs_used (frames s0) a = true → (∀ p, ¬ table low_half (ram s0) root p a) → a ≤ x < a + 4096 →
    ram s x = ram s0 x;
  li_tables : ∀ p a, table low_half (ram s) root p a → table low_half (ram s0) root p a ∨ fs_used (frames s0) a = false;
  li_avail : fs_avail (frames s0) - 4 * len (page_map l) ≤ fs_avail (frames s) }.

Lemma load_inv_init root s : space low_half (frames s) (ram s) root → load_inv root s (mkLoading [] []) (λ _, 0) s.
Proof.
  intros Hsp. split; cbn [page_map pages]; try done; try (intros *; rewrite elem_of_nil; done); try (unfold len; cbn; lia); eauto using NoDup_nil_2.
Qed.

Lemma page_of_same v w : page_of v = v → page_of w = w → v / 4096 = w / 4096 → v = w.
Proof. unfold page_of. intros Hv Hw E. dlia. Qed.

Lemma found_in l virt i e : list_find (λ e : Z * Z, e.1 = virt) (page_map l) = Some (i, e) → e.1 = virt ∧ e ∈ page_map l.
Proof.
  intros (E & Hp & _)%list_find_Some. split; [done|]. by apply list_elem_of_lookup_2 in E.
Qed.

Lemma not_found l virt : list_find (λ e : Z * Z, e.1 = virt) (page_map l) = None → virt ∉ fst <$> page_map l.
Proof.
  intros H%list_find_None. rewrite list_elem_of_fmap. intros (e & -> & He). rewrite Forall_forall in H. by apply (H e).
Qed.

Lemma in_fst (l : list (Z * Z)) v a : (v, a) ∈ l → v ∈ fst <$> l.
Proof. intros H. rewrite list_elem_of_fmap. by exists (v, a). Qed.

Lemma in_snd (l : list (Z * Z)) v a : (v, a) ∈ l → a ∈ snd <$> l.
Proof. intros H. rewrite list_elem_of_fmap. by exists (v, a). Qed.

(** The machine after [a] was taken from the allocator and zeroed. *)
Definition taken (s : mach F) (f' : F) (a : Z) : mach F := set_ram (zero_page (ram s) a) (set_frames f' s).

(** Taking and zeroing a frame disturbs nothing that was there. *)
Lemma taken_ok root s0 l img s a f' : load_inv root s0 l img s → fs_alloc (frames s) = (Some a, f') →
  (∀ b, frame b → fs_used (frames s) b = true → fs_used f' b = true) ∧
  (∀ b x, frame b → fs_used (frames s) b = true → b ≤ x < b + 4096 → ram (taken s f' a) x = ram s x) ∧
  space low_half f' (ram (taken s f' a)) root ∧
  (∀ p b, table low_half (ram (taken s f' a)) root p b ↔ table low_half (ram s) root p b) ∧
  (∀ v, low_half (i4 v) → leaf (ram (taken s f' a)) root v = leaf (ram s) root v) ∧
  (∀ p, ¬ table low_half (ram (taken s f' a)) root p a) ∧ fs_used f' a = true ∧ fs_used (frames s0) a = false.
Proof.
  intros Hi Eal. pose proof (fs_alloc_law (frames s) (sp_inv _ _ _ _ (li_space _ _ _ _ _ Hi))) as Hal.
  rewrite Eal in Hal. destruct Hal as (Hinv & _ & Hav' & Ha1 & Ha2 & Hfr & Hused). assert (frame a) as Ha by done.
  set (s1 := taken s f' a).
  assert (∀ b, frame b → fs_used (frames s) b = true → fs_used f' b = true) as Hmono by (intros b [? ?] E; by rewrite Hused, E by lia).
  assert (∀ b, frame b → fs_used (frames s) b = true → b ≠ a) as Hne by (intros b _ E ->; congruence).
  assert (∀ b x, frame b → fs_used (frames s) b = true → b ≤ x < b + 4096 → ram s1 x = ram s x) as Hsame.
  { intros b x Hb Hu Hx. apply zero_page_out. apply (frames_apart a b); try done. by apply not_eq_sym, Hne. }
  destruct (space_agree low_half f' (ram s) (ram s1) root) as (Hsp1 & Htab1 & Hleaf1).
  { eapply space_frames; [by apply (li_space _ _ _ _ _ Hi)|done|done]. }
  { intros p b x Ht Hx. destruct (sp_frame _ _ _ _ (li_space _ _ _ _ _ Hi) _ _ Ht) as [Hb Hu]. by apply (Hsame b). }
  assert (∀ p, ¬ table low_half (ram s1) root p a) as Hnt.
  { intros p Ht%Htab1. destruct (sp_frame _ _ _ _ (li_space _ _ _ _ _ Hi) _ _ Ht) as [_ Hu]. congruence. }
  assert (fs_used f' a = true) as Hua by (rewrite Hused by lia; rewrite bool_decide_true by done; apply orb_true_r).
  assert (fs_used (frames s0) a = false) as Hu0.
  { destruct (fs_used (frames s0) a) eqn:E; [|done]. by rewrite (li_used _ _ _ _ _ Hi a Ha E) in Hfr. }
  split; [exact Hmono|]. split; [exact Hsame|]. split; [exact Hsp1|]. split; [exact Htab1|]. split; [exact Hleaf1|].
  split; [exact Hnt|]. by split.
Qed.

(** A fresh zeroed frame mapped at a new page extends the loaded pages. *)
Lemma fresh_page root s0 l img s virt a f' s' : load_inv root s0 l img s → page_of virt = virt → 0 ≤ virt < 2 ^ 47 →
  virt ∉ fst <$> page_map l → fs_alloc (frames s) = (Some a, f') → mapped low_half root virt (Z.lor a 7) (taken s f' a) s' →
  load_inv root s0 (mkLoading (pages l ++ [a]) (page_map l ++ [(virt, a)])) img s'.
Proof.
  intros Hi Hpv Hv Ef Eal Hm. pose proof (fs_alloc_law (frames s) (sp_inv _ _ _ _ (li_space _ _ _ _ _ Hi))) as Hal.
  rewrite Eal in Hal. destruct Hal as (Hinv & _ & Hav' & Ha1 & Ha2 & Hfr & Hused). assert (frame a) as Ha by done.
  destruct (taken_ok root s0 l img s a f' Hi Eal) as (Hmono & Hsame & Hsp1 & Htab1 & Hleaf1 & Hnt & Hua & Hu0).
  set (s1 := taken s f' a) in *. assert (low_half (i4 virt)) as Hlow by (by apply low_half_small).
  assert (∀ b, frame b → fs_used (frames s) b = true → b ≠ a) as Hne by (intros b _ E ->; congruence).
  assert (∀ v b, (v, b) ∈ page_map l → frame b ∧ fs_used (frames s) b = true ∧ b ≠ a ∧ (∀ p, ¬ table low_half (ram s) root p b)) as Hold.
  { intros v b Hin. destruct (li_frame _ _ _ _ _ Hi v b Hin) as (_ & _ & Hb & Hu & _ & Hn). auto. }
  assert (∀ v, 0 ≤ v < 2 ^ 47 → page_of v ≠ virt → leaf (ram s') root v = leaf (ram s) root v) as Hleaf.
  { intros v Hvr Hpne. rewrite (mp_leaf _ _ _ _ _ _ Hm) by (by apply low_half_small). rewrite decide_False; [apply Hleaf1; by apply low_half_small|].
    rewrite indices_page by lia. intros E. apply Hpne. unfold page_of in *. dlia. }
  constructor; cbn [page_map pages].
  - apply (mp_space _ _ _ _ _ _ Hm).
  - destruct (mp_regs _ _ _ _ _ _ Hm), (li_regs _ _ _ _ _ Hi). split; cbn in *; congruence.
  - intros v b [Hin|[= -> ->]%list_elem_of_singleton]%elem_of_app.
    + destruct (li_frame _ _ _ _ _ Hi v b Hin) as (H1 & H2 & Hb & Hu & H4 & H5).
      do 3 (split; [done|]). split; [by apply (mp_used _ _ _ _ _ _ Hm), Hmono|]. split; [done|].
      intros p Ht. apply (mp_fresh _ _ _ _ _ _ Hm) in Ht as [Ht%Htab1|Hf]; [by apply (H5 p)|]. cbn in Hf. by rewrite Hmono in Hf.
    + do 3 (split; [done|]). split; [by apply (mp_used _ _ _ _ _ _ Hm)|]. split; [done|]. intros p Ht.
      apply (mp_fresh _ _ _ _ _ _ Hm) in Ht as [Ht|Hf]; [by apply (Hnt p)|]. cbn in Hf. congruence.
  - intros v b [Hin|[= -> ->]%list_elem_of_singleton]%elem_of_app.
    + destruct (li_frame _ _ _ _ _ Hi v b Hin) as (H1 & H2 & _). rewrite Hleaf; [by apply (li_leaf _ _ _ _ _ Hi)|done|].
      rewrite H1. intros ->. by apply Ef, (in_fst _ _ b).
    + rewrite (mp_leaf _ _ _ _ _ _ Hm) by done. by rewrite decide_True.
  - intros v b o [Hin|[= -> ->]%list_elem_of_singleton]%elem_of_app Ho.
    + destruct (Hold v b Hin) as (Hb & Hu & Hba & Hn). rewrite (mp_other _ _ _ _ _ _ Hm b); [|done|by apply Hmono| |lia].
      * rewrite (Hsame b) by (done || lia). by apply (li_bytes _ _ _ _ _ Hi).
      * intros p Ht%Htab1. by apply (Hn p).
    + rewrite (mp_other _ _ _ _ _ _ Hm a) by (done || lia). change (ram s1 (a + o)) with (zero_page (ram s) a (a + o)).
      rewrite zero_page_in by lia. symmetry.
      apply (li_other _ _ _ _ _ Hi); [unfold page_of in *; dlia|]. replace (page_of (virt + o)) with virt; [done|]. unfold page_of in *. dlia.
  - rewrite fmap_app. apply NoDup_app. split_and!; [apply Hi| |apply NoDup_singleton]. intros v Hin ->%list_elem_of_singleton. done.
  - rewrite fmap_app. apply NoDup_app. split_and!; [apply Hi| |apply NoDup_singleton]. intros b Hin ->%list_elem_of_singleton.
    rewrite list_elem_of_fmap in Hin. destruct Hin as ([v b] & E & Hin). cbn in E. subst. by destruct (Hold v b Hin) as (_ & _ & ? & _).
  - intros v Hvr Hn. rewrite fmap_app, elem_of_app in Hn. cbn in Hn. rewrite list_elem_of_singleton in Hn.
    destruct (li_other _ _ _ _ _ Hi v Hvr) as [E1 E2]; [tauto|]. split; [|done]. rewrite Hleaf; [done|done|tauto].
  - rewrite fmap_app. cbn. by rewrite (li_pages _ _ _ _ _ Hi).
  - intros b Hb Hu. apply (mp_used _ _ _ _ _ _ Hm); [done|]. cbn. apply Hmono; [done|]. by apply (li_used _ _ _ _ _ Hi).
  - intros b x Hb Hu Hn Hx. pose proof (li_used _ _ _ _ _ Hi b Hb Hu) as Hus. rewrite (mp_other _ _ _ _ _ _ Hm b); [|done|by apply Hmono| |done].
    + rewrite (Hsame b) by done. by apply (li_old _ _ _ _ _ Hi b).
    + intros p Ht%Htab1. destruct (li_tables _ _ _ _ _ Hi _ _ Ht) as [H|H]; [by apply (Hn p)|congruence].
  - intros p b Ht. destruct (sp_frame _ _ _ _ (mp_space _ _ _ _ _ _ Hm) p b Ht) as [Hb _].
    apply (mp_fresh _ _ _ _ _ _ Hm) in Ht as [Ht%Htab1|Hf]; [by apply (li_tables _ _ _ _ _ Hi p)|]. right. cbn in Hf.
    destruct (fs_used (frames s0) b) eqn:E; [|done]. by rewrite (Hmono b Hb (li_used _ _ _ _ _ Hi b Hb E)) in Hf.
  - pose proof (mp_avail _ _ _ _ _ _ Hm). pose proof (li_avail _ _ _ _ _ Hi). unfold len in *. rewrite length_app. cbn in *. lia.
Qed.

(** A fresh zeroed page for [virt]. *)
Lemma page_for_spec root s0 l img s virt : load_inv root s0 l img s → page_of virt = virt → 0 ≤ virt < 2 ^ 47 →
  4 ≤ fs_avail (frames s) →
  wp (page_for root virt l) s (λ r s', ∃ a l', r = inl (a, l') ∧ load_inv root s0 l' img s' ∧ (virt, a) ∈ page_map l' ∧
    (∀ v, v ∈ fst <$> page_map l' ↔ v = virt ∨ v ∈ fst <$> page_map l) ∧ (length (page_map l') ≤ S (length (page_map l)))%nat).
Proof.
  intros Hi Hpv Hv Hav. unfold page_for. destruct (list_find _ _) as [[i [v a]]|] eqn:Ef.
  { apply found_in in Ef as [<- Hin]. cbn [fst] in *. apply wp_ret. exists a, l. split_and!; try done; [|lia].
    intros w. split; [by right|]. intros [->|]; [|done]. by eapply in_fst. }
  apply not_found in Ef. apply wp_bind. unfold page_alloc, wp at 1.
  pose proof (fs_alloc_law (frames s) (sp_inv _ _ _ _ (li_space _ _ _ _ _ Hi))) as Hal.
  destruct (fs_alloc (frames s)) as [[a|] f'] eqn:Eal; [|lia]. destruct Hal as (Hinv & _ & Hav' & Ha1 & Ha2 & Hfr & Hused).
  assert (frame a) as Ha by done. apply wp_bind. unfold get at 1, wp at 1. apply wp_bind. unfold kzero_page, modify, wp at 1.
  rewrite behind_virt0 by (unfold MAX_PAGES, PAGE_SIZE in Ha1; lia). cbn [set_frames ram].
  change (set_ram (zero_page (ram s) a) (set_frames f' s)) with (taken s f' a).
  destruct (taken_ok root s0 l img s a f' Hi Eal) as (_ & _ & Hsp1 & _).
  wp_step (map_into_spec low_half root virt a (Z.lor USER WRITE) (taken s f' a) Hsp1 ltac:(by apply low_half_small) (frame_page a Ha)
    ltac:(split; vm_compute; [discriminate|reflexivity]) ltac:(cbn; lia)).
  intros ? s' Hm. cbv beta in Hm. change (Z.lor (Z.lor USER WRITE) (bit 0)) with 7 in Hm. apply wp_ret.
  exists a, (mkLoading (pages l ++ [a]) (page_map l ++ [(virt, a)])). cbn [page_map]. split; [done|].
  split_and!; [by eapply fresh_page| | |].
  - apply elem_of_app. right. by apply list_elem_of_singleton.
  - intros v. rewrite fmap_app, elem_of_app. cbn. rewrite list_elem_of_singleton. tauto.
  - rewrite length_app. cbn. lia.
Qed.

Lemma load_inv_ext root s0 l img img' s : (∀ va, img' va = img va) → load_inv root s0 l img s → load_inv root s0 l img' s.
Proof.
  intros He Hi. destruct Hi. split; try done.
  - intros v a o Hin Ho. rewrite He. by apply li_bytes0.
  - intros v Hv Hn. rewrite He. by apply li_other0.
Qed.

(** Writing inside a loaded page changes its bytes and nothing else. *)
Lemma write_page root s0 l img s v a off src img' : load_inv root s0 l img s → (v, a) ∈ page_map l →
  0 ≤ off → off + len src ≤ 4096 →
  (∀ o, 0 ≤ o < 4096 → img' (v + o) = if (off <=? o) && (o <? off + len src) then default 0 (src !! Z.to_nat (o - off)) else img (v + o)) →
  (∀ w, page_of w ≠ v → img' w = img w) →
  load_inv root s0 l img' (set_ram (poke (ram s) (a + off) src) s).
Proof.
  intros Hi Hin Hoff Hlen Himg Hother. destruct (li_frame _ _ _ _ _ Hi v a Hin) as (Hpv & Hv & Ha & Hu & Hu0 & Hnt).
  assert (∀ b x, frame b → b ≠ a → b ≤ x < b + 4096 → poke (ram s) (a + off) src x = ram s x) as Hsame.
  { intros b x Hb Hne Hx. apply poke_out. intros Hx'. apply (frames_apart a b x); [done|done|by apply not_eq_sym|done|lia]. }
  destruct (space_agree low_half (frames s) (ram s) (poke (ram s) (a + off) src) root (li_space _ _ _ _ _ Hi)) as (Hsp & Htab & Hleaf).
  { intros p b x Ht Hx. destruct (sp_frame _ _ _ _ (li_space _ _ _ _ _ Hi) _ _ Ht) as [Hb _]. apply (Hsame b); [done| |done].
    intros ->. by apply (Hnt p). }
  assert (∀ w b, (w, b) ∈ page_map l → b = a → w = v) as Huniq.
  { intros w b Hw ->. apply list_elem_of_lookup in Hin as [i Ei], Hw as [j Ej].
    assert ((snd <$> page_map l) !! i = Some a) as E1 by (by rewrite list_lookup_fmap, Ei).
    assert ((snd <$> page_map l) !! j = Some a) as E2 by (by rewrite list_lookup_fmap, Ej).
    pose proof (NoDup_lookup _ _ _ _ (li_frames _ _ _ _ _ Hi) E1 E2) as ->. congruence. }
  split; cbn [set_ram frames ram cr3 hhdm].
  - exact Hsp.
  - exact (li_regs _ _ _ _ _ Hi).
  - intros w b Hw. destruct (li_frame _ _ _ _ _ Hi w b Hw) as (H1 & H2 & H3 & H4 & H5 & H6). do 5 (split; [done|]).
    intros p Ht%Htab. by apply (H6 p).
  - intros w b Hw. destruct (li_frame _ _ _ _ _ Hi w b Hw) as (_ & H2 & _). rewrite Hleaf by (by apply low_half_small).
    by apply (li_leaf _ _ _ _ _ Hi).
  - intros w b o Hw Ho. destruct (decide (b = a)) as [->|Hne].
    + rewrite (Huniq w a Hw eq_refl), Himg by done. rewrite <- (li_bytes _ _ _ _ _ Hi v a) by done. unfold poke.
      assert ((a + off <=? a + o) = (off <=? o)) as -> by (destruct (Z.leb_spec off o), (Z.leb_spec (a + off) (a + o)); lia).
      assert ((a + o <? a + off + len src) = (o <? off + len src)) as ->
        by (destruct (Z.ltb_spec o (off + len src)), (Z.ltb_spec (a + o) (a + off + len src)); lia).
      replace (a + o - (a + off)) with (o - off) by lia. done.
    + destruct (li_frame _ _ _ _ _ Hi w b Hw) as (H1 & H2 & H3 & _). rewrite (Hsame b) by (done || lia).
      rewrite (li_bytes _ _ _ _ _ Hi w b) by done. symmetry. apply Hother. intros E.
      assert (w = v) as -> by (unfold page_of in *; dlia). apply Hne. apply list_elem_of_lookup in Hin as [i Ei], Hw as [j Ej].
      assert ((fst <$> page_map l) !! i = Some v) as E1 by (by rewrite list_lookup_fmap, Ei).
      assert ((fst <$> page_map l) !! j = Some v) as E2 by (by rewrite list_lookup_fmap, Ej).
      pose proof (NoDup_lookup _ _ _ _ (li_virts _ _ _ _ _ Hi) E1 E2) as ->. congruence.
  - apply (li_virts _ _ _ _ _ Hi).
  - apply (li_frames _ _ _ _ _ Hi).
  - intros w Hw Hn. rewrite Hleaf by (by apply low_half_small). rewrite Hother; [by apply (li_other _ _ _ _ _ Hi)|].
    intros E. apply Hn. rewrite E. by eapply in_fst.
  - apply (li_pages _ _ _ _ _ Hi).
  - apply (li_used _ _ _ _ _ Hi).
  - intros b x Hb Hub Hn Hx. rewrite (Hsame b); [by apply (li_old _ _ _ _ _ Hi b)|done| |done]. intros ->. congruence.
  - intros p b Ht%Htab. by apply (li_tables _ _ _ _ _ Hi p).
  - apply (li_avail _ _ _ _ _ Hi).
Qed.

Lemma copy_page_spec root s0 l img s data ph virt a : load_inv root s0 l img s → (virt, a) ∈ page_map l → seg_ok data ph →
  wp (copy_page data ph virt a) s (λ _ s', load_inv root s0 l (overlay data ph virt (virt + 4096) img) s').
Proof.
  intros Hi Hin (Hm & Hv & Hvm & Hf & Hvf & Ho & Hof). destruct (li_frame _ _ _ _ _ Hi virt a Hin) as (Hpv & Hvr & Ha & _).
  unfold copy_page, PAGE_SIZE. rewrite !(wrap_small 64 (virt + 4096)) by (unfold is_u; lia).
  rewrite !(wrap_small 64 (p_vaddr ph + p_filesz ph)) by (unfold is_u; lia).
  destruct (Z.ltb_spec (Z.max (p_vaddr ph) virt) (Z.min (p_vaddr ph + p_filesz ph) (virt + 4096))) as [Hlt|Hge].
  2:{ apply wp_ret. eapply load_inv_ext; [|exact Hi]. intros va. unfold overlay.
      destruct (Z.leb_spec virt va), (Z.ltb_spec va (virt + 4096)), (Z.leb_spec (p_vaddr ph) va), (Z.ltb_spec va (p_vaddr ph + p_filesz ph)); try done; lia. }
  set (lo := Z.max (p_vaddr ph) virt) in *. set (hi := Z.min (p_vaddr ph + p_filesz ph) (virt + 4096)) in *.
  assert (virt ≤ lo ∧ p_vaddr ph ≤ lo ∧ hi ≤ virt + 4096 ∧ hi ≤ p_vaddr ph + p_filesz ph) as (L1 & L2 & L3 & L4) by (unfold lo, hi; lia).
  rewrite (wrap_small 64 (p_offset ph + (lo - p_vaddr ph))) by (unfold is_u; lia).
  rewrite (wrap_small 64 (p_offset ph + (lo - p_vaddr ph) + (hi - lo))) by (unfold is_u; lia).
  apply wp_bind. apply wp_rassert; [apply Z.leb_le; lia|]. apply wp_bind. eapply wp_lift; [apply slice_ok; lia|].
  set (src := sub _ _ data). assert (len src = hi - lo) as Hls.
  { unfold src, len. rewrite length_sub; [lia|]. unfold len in Hof. lia. }
  apply wp_bind. unfold get at 1, wp at 1. unfold kwrite, modify, wp.
  rewrite behind_virt by (destruct Ha as [Ha _]; unfold MAX_PAGES, PAGE_SIZE in Ha; lia).
  eapply write_page; [exact Hi|exact Hin|lia|lia| |].
  - intros o Hoo. unfold overlay. rewrite (proj2 (Z.leb_le virt (virt + o))), (proj2 (Z.ltb_lt (virt + o) (virt + 4096))) by lia. cbn [andb].
    assert ((p_vaddr ph <=? virt + o) && (virt + o <? p_vaddr ph + p_filesz ph) = (lo - virt <=? o) && (o <? lo - virt + len src)) as ->.
    { rewrite Hls. unfold lo, hi in *. destruct (Z.leb_spec (p_vaddr ph) (virt + o)), (Z.ltb_spec (virt + o) (p_vaddr ph + p_filesz ph)),
        (Z.leb_spec (Z.max (p_vaddr ph) virt - virt) o); cbn; try lia;
        symmetry; first [apply Z.ltb_lt; lia|apply Z.ltb_ge; lia]. }
    destruct ((lo - virt <=? o) && _) eqn:E; [|done]. apply andb_prop in E as [E1%Z.leb_le E2%Z.ltb_lt]. rewrite Hls in E2.
    unfold src. rewrite lookup_sub by lia. do 2 f_equal. lia.
  - intros w Hw. unfold overlay. destruct (Z.leb_spec virt w), (Z.ltb_spec w (virt + 4096)); try done. exfalso. apply Hw. unfold page_of in *. dlia.
Qed.

Lemma overlay_join data ph lo mid hi img va : lo ≤ mid ≤ hi →
  overlay data ph mid hi (overlay data ph lo mid img) va = overlay data ph lo hi img va.
Proof.
  intros H. unfold overlay. destruct (Z.leb_spec mid va), (Z.ltb_spec va hi), (Z.leb_spec lo va), (Z.ltb_spec va mid); try lia; cbn; try done;
    by destruct (_ && _).
Qed.

(** [v] is one of the [n] pages from [lo]. *)
Definition page_in (v lo hi : Z) : Prop := page_of v = v ∧ lo ≤ v < hi.

Lemma load_pages_spec root s0 data ph n p l img s : load_inv root s0 l img s → seg_ok data ph → 0 ≤ p →
  page_start ph + (p + Z.of_nat n) * 4096 ≤ page_end ph →
  4 * (len (page_map l) + Z.of_nat n) ≤ fs_avail (frames s0) →
  let lo := page_start ph + p * 4096 in
  let hi := page_start ph + (p + Z.of_nat n) * 4096 in
  wp (load_pages n p data root ph l) s (λ r s', ∃ l', r = inl l' ∧ load_inv root s0 l' (overlay data ph lo hi img) s' ∧
    (∀ v, v ∈ fst <$> page_map l' ↔ page_in v lo hi ∨ v ∈ fst <$> page_map l) ∧ len (page_map l') ≤ len (page_map l) + Z.of_nat n).
Proof.
  cbv zeta. intros Hi Hph. destruct (page_bounds data ph Hph) as (Es & Ee & Her & _).
  revert p l img s Hi. induction n as [|n IH]; intros p l img s Hi Hp Hend Hav; cbn [load_pages].
  - apply wp_ret. exists l. split; [done|]. split; [|split; [|lia]].
    + eapply load_inv_ext; [|exact Hi]. intros va. unfold overlay.
      destruct (Z.leb_spec (page_start ph + p * 4096) va), (Z.ltb_spec va (page_start ph + (p + Z.of_nat 0) * 4096)); try done; lia.
    + intros v. unfold page_in. split; [by right|]. intros [[_ ?]|?]; [lia|done].
  - cbv zeta. destruct Hph as (Hm & Hv & Hvm & Hrest). unfold PAGE_SIZE.
    rewrite (wrap_small 64 (page_start ph + p * 4096)) by (unfold is_u; dlia).
    set (virt := page_start ph + p * 4096) in *. assert (page_of virt = virt) as Hpv by (unfold page_of, virt; dlia).
    assert (0 ≤ virt < 2 ^ 47) as Hvr by (unfold virt; dlia). pose proof (li_avail _ _ _ _ _ Hi) as Ha.
    wp_step (page_for_spec root s0 l img s virt Hi Hpv Hvr ltac:(lia)). intros r s1 (a & l1 & -> & Hi1 & Hin & Hdom & Hlen).
    assert (seg_ok data ph) as Hph by done. wp_step (copy_page_spec root s0 l1 img s1 data ph virt a Hi1 Hin Hph). intros ? s2 Hi2. cbv beta in Hi2.
    assert (len (page_map l1) ≤ len (page_map l) + 1) as Hlen1 by (unfold len; lia).
    eapply wp_mono; [apply (IH (p + 1)); [exact Hi2|lia|lia|lia]|]. intros r s' (l' & -> & Hi' & Hdom' & Hlen'). exists l'.
    replace (page_start ph + (p + 1) * 4096) with (virt + 4096) in * by (unfold virt; lia).
    replace (page_start ph + (p + 1 + Z.of_nat n) * 4096) with (page_start ph + (p + Z.of_nat (S n)) * 4096) in * by lia.
    split; [done|]. split; [|split; [|lia]].
    + eapply load_inv_ext; [|exact Hi']. intros va. rewrite overlay_join; [done|]. unfold virt. lia.
    + intros v. rewrite Hdom', Hdom. unfold page_in. split.
      * intros [[H1 H2]|[->|?]]; [left; split; [done|lia]|left; split; [done|unfold virt; lia]|by right].
      * intros [[H1 H2]|?]; [|tauto]. destruct (decide (v = virt)); [tauto|]. left. split; [done|]. unfold page_of in *. dlia.
Qed.

(** Frames a list of segments may need: a page and three tables each. *)
Fixpoint total_pages (segs : list phdr) : Z :=
  match segs with [] => 0 | ph :: segs => Z.of_nat (Z.to_nat (num_pages ph)) + total_pages segs end.

Lemma total_pages_pos segs : 0 ≤ total_pages segs.
Proof. induction segs; cbn; lia. Qed.

Definition covered_page (segs : list phdr) (v : Z) : Prop :=
  Exists (λ ph, page_in v (page_start ph) (page_end ph)) segs.

Lemma load_segments_spec root s0 data phoff phentsize n i segs l img s : load_inv root s0 l img s →
  0 ≤ phoff → 0 ≤ i → 0 ≤ phentsize → len data < 2 ^ 62 → segments_of n i phoff phentsize data = Some segs → Forall (seg_ok data) segs →
  4 * (len (page_map l) + total_pages segs) ≤ fs_avail (frames s0) →
  wp (load_segments n i phoff phentsize data root l) s (λ r s', ∃ l', r = inl l' ∧
    load_inv root s0 l' (fold_left (λ img ph, overlay data ph (page_start ph) (page_end ph) img) segs img) s' ∧
    (∀ v, v ∈ fst <$> page_map l' ↔ covered_page segs v ∨ v ∈ fst <$> page_map l)).
Proof.
  revert i segs l img s. induction n as [|n IH]; intros i segs l img s Hi Hoff Hi0 Hsz Hdl Hsegs Hok Hav; cbn [load_segments segments_of] in *.
  - simplify_eq. apply wp_ret. exists l. split; [done|]. split; [done|]. intros v. unfold covered_page. rewrite Exists_nil. tauto.
  - cbv zeta in *. destruct (Z.ltb_spec (len data) (phoff + i * phentsize + 56)) as [|Hb]; [done|].
    assert (0 ≤ phoff + i * phentsize) as Hnn by nia.
    rewrite !(wrap_small 64 (phoff + i * phentsize)) by (unfold is_u; lia).
    rewrite !(wrap_small 64 (phoff + i * phentsize + 56)) by (unfold is_u; lia).
    rewrite (proj2 (Z.ltb_ge _ _)) by done. apply wp_bind. eapply wp_lift; [apply slice_ok; lia|].
    replace (Z.to_nat (phoff + i * phentsize + 56 - (phoff + i * phentsize))) with 56%nat by lia.
    destruct (parse_phdr _) as [ph|]; [|done]. destruct (segments_of n _ _ _ _) as [rest|] eqn:Er; [|done].
    cbn [mbind option_bind] in Hsegs. apply wp_bind. eapply wp_lift; [done|]. cbv beta.
    destruct (Z.eqb_spec (p_type ph) 1) as [Et|Et]; cbn [andb negb] in *; [|simplify_eq; by eapply IH; [..|exact Er| |]; try done; lia].
    destruct (Z.eqb_spec (p_memsz ph) 0) as [Em|Em]; cbn [negb] in *; [simplify_eq; by eapply IH; [..|exact Er| |]; try done; lia|].
    simplify_eq. apply Forall_cons_iff in Hok as [Hph Hok]. cbn [total_pages] in Hav. pose proof (total_pages_pos rest).
    destruct (page_bounds data ph Hph) as (Es & Ee & Her & Hn). pose proof Hph as (Hm & Hv & Hvm & Hf & Hvf & Ho & Hof).
    rewrite (wrap_small 64 (p_offset ph + p_filesz ph)) by (unfold is_u; lia). rewrite (proj2 (Z.ltb_ge (len data) _)) by lia. rewrite andb_false_r.
    wp_step (load_pages_spec root s0 data ph (Z.to_nat (num_pages ph)) 0 l img s Hi Hph ltac:(lia) ltac:(lia) ltac:(lia)).
    intros r s1 (l1 & -> & Hi1 & Hdom1 & Hlen1). rewrite Z.mul_0_l, !Z.add_0_l, !Z.add_0_r in *.
    replace (page_start ph + Z.of_nat (Z.to_nat (num_pages ph)) * 4096) with (page_end ph) in * by lia.
    eapply wp_mono; [eapply (IH (i + 1) rest l1); try done; lia|]. intros r s' (l' & -> & Hi' & Hdom'). exists l'. split; [done|]. split; [done|].
    intros v. rewrite Hdom', Hdom1. unfold covered_page. rewrite Exists_cons. tauto.
Qed.

Lemma le_at_nonneg data off n z : Forall is_byte data → le_at data off n = Ok z → 0 ≤ z.
Proof.
  intros Hb. unfold le_at, slice. case_bool_decide; [|done]. cbn [mbind outcome_bind]. intros [= <-].
  apply le_val_range. by apply Forall_take, Forall_drop.
Qed.

Ltac header_step H := match type of H with
  | (?c ≫= _) = _ => let E := fresh "E" in destruct c eqn:E; cbn [mbind outcome_bind] in H; [|discriminate]
  | (if ?b then _ else _) = _ => destruct b; [discriminate|]
  end.

Lemma header_nonneg data e off sz n : Forall is_byte data → check_header data = Ok (inl (e, off, sz, n)) → 0 ≤ off ∧ 0 ≤ sz.
Proof.
  intros Hb H. unfold check_header in H. repeat header_step H. injection H as -> -> -> ->. eauto using le_at_nonneg.
Qed.

Lemma covered_pages data segs va : Forall (seg_ok data) segs → covered_by segs va = true ↔ covered_page segs (page_of va).
Proof.
  intros Hok. unfold covered_by, covered_page. induction Hok as [|ph segs Hph Hok IH]; cbn [existsb]; [by rewrite Exists_nil|].
  rewrite Exists_cons, orb_true_iff, IH, andb_true_iff, Z.leb_le, Z.ltb_lt. destruct (page_bounds data ph Hph) as (Es & Ee & _).
  apply or_iff_compat_r. unfold page_in, page_of. split; [|intros [_ ?]; dlia]. intros [? ?]. split; dlia.
Qed.

(** C32: Loading an executable builds its image: for a file whose headers pass the
    loader's checks and whose segments lie in the file and the lower half, loading
    succeeds (never runs out of frames or panics when enough are free); every
    address of a segment's pages is then mapped for user code onto a byte that is
    the file's byte, or zero where the file has none, later segments winning; pages
    shared by segments are one frame; all other mappings are unchanged, and the
    frames it reports for the caller to free are distinct and were free before. *)
Theorem elf_load_builds_image data pml4 (s : mach F) entry phoff phentsize phnum segs
    (Hbytes : Forall is_byte data) (Hlen : len data < 2 ^ 62)
    (Hheader : check_header data = Ok (inl (entry, phoff, phentsize, phnum)))
    (Hsegs : segments_of (Z.to_nat phnum) 0 phoff phentsize data = Some segs)
    (Hok : Forall (seg_ok data) segs) (Hne : segs ≠ [])
    (Hspace : space low_half (frames s) (ram s) pml4) (Hframes : 4 * total_pages segs ≤ fs_avail (frames s)) :
  wp (load data pml4) s (λ r s', ∃ pgs, r = inl (entry, pgs) ∧ space low_half (frames s') (ram s') pml4 ∧
    (∀ va, 0 ≤ va < 2 ^ 47 →
      if covered_by segs va
      then ∃ pa, translate (ram s') pml4 va = Some (pa, true, true) ∧ ram s' pa = image data segs va
      else translate (ram s') pml4 va = translate (ram s) pml4 va) ∧
    NoDup pgs ∧ ∀ a, a ∈ pgs → frame a ∧ fs_used (frames s) a = false ∧ fs_used (frames s') a = true).
Proof.
  unfold load. apply wp_bind. eapply wp_lift; [exact Hheader|]. cbv beta iota.
  destruct (header_nonneg data _ _ _ _ Hbytes Hheader) as [Hoff Hsz].
  wp_step (load_segments_spec pml4 s data phoff phentsize (Z.to_nat phnum) 0 segs (mkLoading [] []) (λ _, 0) s
    (load_inv_init pml4 s Hspace) Hoff ltac:(lia) Hsz Hlen Hsegs Hok ltac:(cbn [page_map]; unfold len; cbn; lia)).
  intros r s' (l & -> & Hi & Hdom). fold (image data segs) in Hi.
  assert (pages l ≠ []) as Hnil.
  { rewrite (li_pages _ _ _ _ _ Hi). destruct segs as [|ph segs]; [done|]. apply Forall_cons_iff in Hok as [Hph _].
    destruct (page_bounds data ph Hph) as (Es & Ee & Her & _). destruct Hph as (Hm & _).
    assert (page_start ph ∈ fst <$> page_map l) as Hin.
    { apply Hdom. left. apply Exists_cons. left. unfold page_in, page_of. split; dlia. }
    destruct (page_map l); [by apply elem_of_nil in Hin|done]. }
  destruct (pages l) as [|a0 pgs] eqn:Ep; [done|]. rewrite <- Ep. apply wp_ret. exists (pages l). split; [done|]. split; [apply Hi|].
  split; [|rewrite (li_pages _ _ _ _ _ Hi); split; [apply Hi|]].
  - intros va Hva. assert (low_half (i4 va)) as Hlow by (by apply low_half_small). pose proof (covered_pages data segs va Hok) as Hcov.
    rewrite (translate_leaf low_half (frames s')), (translate_leaf low_half (frames s)) by (done || apply Hi).
    assert (page_of va ∈ fst <$> page_map l ↔ covered_by segs va = true) as Hmap.
    { rewrite Hdom, Hcov. cbn [page_map]. rewrite fmap_nil, elem_of_nil. tauto. }
    destruct (covered_by segs va).
    + apply proj2 in Hmap. specialize (Hmap eq_refl). rewrite list_elem_of_fmap in Hmap. destruct Hmap as ([v a] & Ev & Hin). cbn in Ev. subst v.
      destruct (li_frame _ _ _ _ _ Hi _ _ Hin) as (_ & Hv & Ha & _).
      assert (leaf (ram s') pml4 va = leaf (ram s') pml4 (page_of va)) as ->.
      { unfold leaf. assert (indices va = indices (page_of va)) as E by (apply indices_page; unfold page_of in *; dlia).
        unfold indices in E. injection E as -> -> -> ->. done. }
      rewrite (li_leaf _ _ _ _ _ Hi _ _ Hin). exists (a + va mod 4096). split.
      * rewrite present_bit, !(entry_flag a) by (done || lia || by apply frame_page). by rewrite entry_addr_lor by (done || lia || by apply frame_page).
      * rewrite (li_bytes _ _ _ _ _ Hi _ _ _ Hin) by dlia. f_equal. unfold page_of. lia.
    + destruct (li_other _ _ _ _ _ Hi va Hva) as [-> _]; [|done]. intros H%Hmap. done.
  - intros a Ha. rewrite list_elem_of_fmap in Ha. destruct Ha as ([v b] & -> & Hin). cbn.
    destruct (li_frame _ _ _ _ _ Hi _ _ Hin) as (_ & _ & ? & ? & ? & _). done.
Qed.

(** A file whose one segment claims two bytes at the very end of the offset range. *)
Definition hostile_elf : list Z :=
  [0x7F; 0x45; 0x4C; 0x46; 2; 1; 1; 0] ++ replicate 8 0 ++ le_bytes 2 2 ++ le_bytes 2 0x3E ++ le_bytes 4 1 ++
  le_bytes 8 0x400000 ++ le_bytes 8 64 ++ replicate 14 0 ++ le_bytes 2 56 ++ le_bytes 2 1 ++ replicate 6 0 ++
  le_bytes 4 1 ++ le_bytes 4 5 ++ le_bytes 8 (2 ^ 64 - 1) ++ le_bytes 8 0x400000 ++ replicate 8 0 ++
  le_bytes 8 2 ++ le_bytes 8 2 ++ replicate 8 0.

Definition hostile_ph : phdr := mkPhdr 1 (2 ^ 64 - 1) 0x400000 2 2.

Lemma hostile_header : check_header hostile_elf = Ok (inl (0x400000, 64, 56, 1)).
Proof. reflexivity. Qed.

(** The loader's bounds check can be passed with an offset that wraps: this
    120-byte file is accepted, its page is mapped, and the copy then panics, so
    running a file can stop the kernel. *)
Theorem hostile_elf_panics pml4 (s : mach F)
    (Hspace : space low_half (frames s) (ram s) pml4) (Hframes : 4 ≤ fs_avail (frames s)) :
  is_ok (load hostile_elf pml4 s) = false.
Proof.
  unfold load, mbind, ST_bind. unfold lift at 1. rewrite hostile_header. change (Z.to_nat 1) with 1%nat. cbn [load_segments]. cbv zeta.
  change (len hostile_elf <? u64 (u64 (64 + 0 * 56) + 56)) with false. cbv iota. unfold mbind, ST_bind.
  change (u64 (64 + 0 * 56)) with 64. change (u64 (64 + 56)) with 120. unfold lift at 1.
  destruct (slice hostile_elf 64 120) as [raw|] eqn:Eraw; [|done].
  assert (parse_phdr raw = Ok hostile_ph) as Eph by (injection Eraw as <-; reflexivity).
  unfold lift at 1. rewrite Eph. change (negb (p_type hostile_ph =? 1)) with false. change (p_memsz hostile_ph =? 0) with false. cbv iota.
  change ((0 <? p_filesz hostile_ph) && (len hostile_elf <? u64 (p_offset hostile_ph + p_filesz hostile_ph))) with false. cbv iota.
  change (Z.to_nat (num_pages hostile_ph)) with 1%nat. cbn [load_pages]. cbv zeta.
  change (u64 (page_start hostile_ph + 0 * PAGE_SIZE)) with 0x400000. unfold mbind, ST_bind.
  destruct (wp_inv _ _ _ (page_for_spec pml4 s (mkLoading [] []) (λ _, 0) s 0x400000 (load_inv_init pml4 s Hspace) eq_refl ltac:(lia) Hframes))
    as (r & s1 & -> & a & l & -> & _). cbv beta iota.
  assert (copy_page hostile_elf hostile_ph 0x400000 a s1 = Panic "slice out of range") as -> by reflexivity. done.
Qed.
End spec.

(** ** The embedded test program in an empty user space *)

Definition test_ph : phdr := mkPhdr 1 0 0x400000 183 183.

Lemma test_header : check_header TEST_ELF = Ok (inl (0x400078, 64, 56, 1)).
Proof. reflexivity. Qed.

Lemma test_segments : segments_of 1 0 64 56 TEST_ELF = Some [test_ph].
Proof. reflexivity. Qed.

Lemma test_bytes : Forall is_byte TEST_ELF.
Proof. unfold TEST_ELF. repeat (constructor; [split; reflexivity || (intros H; discriminate H)|]). constructor. Qed.

Lemma test_ok : seg_ok TEST_ELF test_ph.
Proof. unfold seg_ok, test_ph. cbn [p_memsz p_vaddr p_filesz p_offset]. change (len TEST_ELF) with 183. lia. Qed.

Lemma elf_load_builds_image_witness :
  wp (load TEST_ELF demo_root) demo_mach (λ r s', ∃ pgs pa, r = inl (0x400078, pgs) ∧
    translate (ram s') demo_root 0x400078 = Some (pa, true, true) ∧ ram s' pa = 0x48).
Proof.
  eapply wp_mono.
  - apply (elf_load_builds_image TEST_ELF demo_root demo_mach 0x400078 64 56 1 [test_ph] test_bytes).
    + reflexivity.
    + exact test_header.
    + exact test_segments.
    + constructor; [exact test_ok|constructor].
    + discriminate.
    + exact demo_space.
    + rewrite demo_avail_frames. discriminate.
  - intros r s' (pgs & -> & _ & H & _). specialize (H 0x400078 ltac:(lia)).
    change (covered_by [test_ph] 0x400078) with true in H. destruct H as (pa & Ht & Hb). exists pgs, pa. split; [done|]. split; [exact Ht|].
    rewrite Hb. reflexivity.
Defined.

Lemma hostile_elf_panics_witness : is_ok (load hostile_elf demo_root demo_mach) = false.
Proof. apply (hostile_elf_panics demo_root demo_mach demo_space). rewrite demo_avail_frames. discriminate. Defined.
