(* ===== verification/Process.v ===== *)
(** Ring-3 processes ([kernel/src/process.rs]): per-task slots, the user memory
    arena, captured output, the process table and background execution.

    Each slot belongs to the scheduler task at its index; [task] is what
    [scheduler::current_task_index()] yields. Spawning a worker task is counted.
    What happens between entering ring 3 and the process's exit call is a
    parameter: the user program, its system calls and the other tasks. *)

From stdpp Require Import prelude list numbers strings.
From S2P Require Import Prelude Text Pmm Memory Paging Elf.

Local Open Scope Z_scope.

Definition USER_STACK_PAGES : Z := 8.
Definition USER_STACK_TOP : Z := 0x7FFFF000.
Definition USER_STACK_BASE : Z := USER_STACK_TOP - USER_STACK_PAGES * 4096.
Definition USER_MMIO_BASE : Z := 0x60000000.
Definition MAX_TASKS : nat := 32.
Definition MAX_PROCS : nat := 32.

Record ProcSlot := mkSlot {
  kernel_return_rsp : Z; exit_code : Z; user_running : bool; mmio_next_va : Z; pid : Z }.

Definition slot_empty : ProcSlot := mkSlot 0 0 false 0 0.

Inductive ProcState := Running | Exited.
#[global] Instance ProcState_eq_dec : EqDecision ProcState.
Proof. solve_decision. Defined.

Record ProcEntry := mkEntry { pe_pid : Z; pe_name : list Z; pe_state : ProcState; pe_exit_code : Z }.
Record AsyncJob := mkJob { issuer : Z; job_name : list Z; job_data : list Z; job_arg : Z }.

(** The statics of the module, the current task and its [cr3] in the scheduler, the
    workers spawned and not yet started, and the machine. *)
Record procs := mkProcs {
  PROC_SLOTS : list ProcSlot;
  PROC_OUT : list (nat * list Z);
  PROCTAB : list ProcEntry;
  NEXT_PID : Z;
  PENDING_QUEUE : list AsyncJob;
  DONE_QUEUE : list (Z * list Z);
  ACTIVE_JOBS : Z;
  task : nat;
  spawned : nat;
  task_cr3 : Z;
  mach_of : mach pmm }.

Definition set_slots (l : list ProcSlot) (s : procs) : procs :=
  mkProcs l (PROC_OUT s) (PROCTAB s) (NEXT_PID s) (PENDING_QUEUE s) (DONE_QUEUE s) (ACTIVE_JOBS s) (task s) (spawned s) (task_cr3 s) (mach_of s).
Definition set_out (o : list (nat * list Z)) (s : procs) : procs :=
  mkProcs (PROC_SLOTS s) o (PROCTAB s) (NEXT_PID s) (PENDING_QUEUE s) (DONE_QUEUE s) (ACTIVE_JOBS s) (task s) (spawned s) (task_cr3 s) (mach_of s).
Definition set_tab (t : list ProcEntry) (s : procs) : procs :=
  mkProcs (PROC_SLOTS s) (PROC_OUT s) t (NEXT_PID s) (PENDING_QUEUE s) (DONE_QUEUE s) (ACTIVE_JOBS s) (task s) (spawned s) (task_cr3 s) (mach_of s).
Definition set_next_pid (n : Z) (s : procs) : procs :=
  mkProcs (PROC_SLOTS s) (PROC_OUT s) (PROCTAB s) n (PENDING_QUEUE s) (DONE_QUEUE s) (ACTIVE_JOBS s) (task s) (spawned s) (task_cr3 s) (mach_of s).
Definition set_queues (p : list AsyncJob) (d : list (Z * list Z)) (a : Z) (n : nat) (s : procs) : procs :=
  mkProcs (PROC_SLOTS s) (PROC_OUT s) (PROCTAB s) (NEXT_PID s) p d a (task s) n (task_cr3 s) (mach_of s).
Definition set_mach (m : mach pmm) (s : procs) : procs :=
  mkProcs (PROC_SLOTS s) (PROC_OUT s) (PROCTAB s) (NEXT_PID s) (PENDING_QUEUE s) (DONE_QUEUE s) (ACTIVE_JOBS s) (task s) (spawned s) (task_cr3 s) m.

Definition set_task_cr3 (c : Z) (s : procs) : procs :=
  mkProcs (PROC_SLOTS s) (PROC_OUT s) (PROCTAB s) (NEXT_PID s) (PENDING_QUEUE s) (DONE_QUEUE s) (ACTIVE_JOBS s) (task s) (spawned s) c (mach_of s).

(** A machine operation inside the module's state. *)
Definition on_machine {A} (c : ST (mach pmm) A) : ST procs A := λ s,
  match c (mach_of s) with Ok (a, m) => Ok (a, set_mach m s) | Panic e => Panic e end.

(** ** Slots *)

Definition slot_index (s : procs) : nat := Nat.min (task s) (MAX_TASKS - 1).

Definition get_slot (i : nat) : ST procs ProcSlot := s ← get; lift (unwrap "index out of bounds" (PROC_SLOTS s !! i)).
Definition put_slot (i : nat) (p : ProcSlot) : ST procs unit := modify (λ s, set_slots (<[i := p]> (PROC_SLOTS s)) s).

Definition slot : ST procs ProcSlot := s ← get; get_slot (slot_index s).

Definition current_pid : ST procs Z := p ← slot; mret (pid p).
Definition is_user_running : ST procs bool := p ← slot; mret (user_running p).

(** ** The user memory arena *)

Definition set_next_va (v : Z) (p : ProcSlot) : ProcSlot :=
  mkSlot (kernel_return_rsp p) (exit_code p) (user_running p) v (pid p).

Fixpoint map_mmio_loop (n : nat) (i virt_base phys_base : Z) : ST procs unit :=
  match n with
  | O => mret tt
  | S n =>
    on_machine (map_page_current_user (u64 (virt_base + i * 4096)) (u64 (phys_base + i * 4096)) (Z.lor WRITE NOCACHE)) ≫= λ _,
    map_mmio_loop n (i + 1) virt_base phys_base
  end.

Definition map_mmio_for_user (phys n : Z) : ST procs Z :=
  st ← get;
  s ← slot;
  if negb (user_running s) then mret 0
  else if (n =? 0) || (16 * 1024 * 1024 <? n) then mret 0
  else
    let page_off := Z.land phys 0xFFF in
    let phys_base := page_floor phys in
    let npages := u64 (page_off + n + 0xFFF) / 4096 in
    let virt_base := mmio_next_va s in
    put_slot (slot_index st) (set_next_va (u64 (virt_base + npages * 4096)) s) ≫= λ _,
    map_mmio_loop (Z.to_nat npages) 0 virt_base phys_base ≫= λ _,
    mret (u64 (virt_base + page_off)).

(** One page per turn; [false]: out of frames, what was mapped stays mapped. *)
Fixpoint map_anon_loop (n : nat) (i virt_base : Z) : ST procs bool :=
  match n with
  | O => mret true
  | S n =>
    o ← on_machine page_alloc;
    match o with
    | None => mret false
    | Some phys =>
      s ← get;
      on_machine (kzero_page (phys_to_virt (mach_of s) phys)) ≫= λ _,
      on_machine (map_page_current_user (u64 (virt_base + i * 4096)) phys WRITE) ≫= λ _,
      map_anon_loop n (i + 1) virt_base
    end
  end.

Definition map_anon_for_user (n : Z) : ST procs Z :=
  st ← get;
  s ← slot;
  if negb (user_running s) then mret 0
  else if (n =? 0) || (64 * 1024 * 1024 <? n) then mret 0
  else
    let npages := u64 (n + 0xFFF) / 4096 in
    let virt_base := mmio_next_va s in
    put_slot (slot_index st) (set_next_va (u64 (virt_base + npages * 4096)) s) ≫= λ _,
    ok ← map_anon_loop (Z.to_nat npages) 0 virt_base;
    mret (if (ok : bool) then virt_base else 0).

(** ** Captured output *)

Fixpoint append_out (idx : nat) (bytes : list Z) (out : list (nat * list Z)) : list (nat * list Z) :=
  match out with
  | [] => [(idx, bytes)]
  | (i, buf) :: out => if decide (i = idx) then (i, buf ++ bytes) :: out else (i, buf) :: append_out idx bytes out
  end.

Definition proc_write (bytes : list Z) : ST procs unit := modify (λ s, set_out (append_out (slot_index s) bytes (PROC_OUT s)) s).

Definition take_proc_output : ST procs (list Z) := λ s,
  match list_find (λ e, e.1 = slot_index s) (PROC_OUT s) with
  | Some (pos, (_, buf)) => Ok (buf, set_out (delete pos (PROC_OUT s)) s)
  | None => Ok ([], s)
  end.

(** ** Address spaces *)

Definition read_cr3 : ST procs Z := on_machine cr3_phys.
Definition write_cr3 (c : Z) : ST procs unit := on_machine (modify (set_cr3 c)).

(** [for i in 256..512]: copy the upper half of the top table. *)
Fixpoint copy_upper (n : nat) (i cur new : Z) : ST procs unit :=
  match n with
  | O => mret tt
  | S n =>
    e ← on_machine (kread64 (cur + 8 * i));
    on_machine (kwrite64 (new + 8 * i) e) ≫= λ _, copy_upper n (i + 1) cur new
  end.

Definition create_user_pml4 : ST procs Z :=
  o ← on_machine page_alloc;
  phys ← lift (unwrap "process: OOM for PML4" o);
  s ← get;
  let virt := phys_to_virt (mach_of s) phys in
  cur_cr3 ← read_cr3;
  on_machine (kzero_page virt) ≫= λ _,
  copy_upper 256 256 (phys_to_virt (mach_of s) cur_cr3) virt ≫= λ _,
  mret phys.

(** [pmm::free_page] on each frame of a list. *)
Definition free_frame (a : Z) : ST procs unit := on_machine (λ m,
  match free_page a (frames m) with Ok (_, f) => Ok (tt, set_frames f m) | Panic e => Panic e end).

Fixpoint free_frames (l : list Z) : ST procs unit :=
  match l with [] => mret tt | a :: l => free_frame a ≫= λ _, free_frames l end.

Fixpoint map_stack (n : nat) (i pml4 : Z) (stack_pages : list Z) : ST procs (list Z + string) :=
  match n with
  | O => mret (inl stack_pages)
  | S n =>
    o ← on_machine page_alloc;
    match o with
    | None => mret (inr "run_elf: OOM for stack"%string)
    | Some p =>
      s ← get;
      on_machine (kzero_page (phys_to_virt (mach_of s) p)) ≫= λ _,
      on_machine (map_page_into pml4 (USER_STACK_BASE + i * 4096) p (Z.lor USER WRITE)) ≫= λ _,
      map_stack n (i + 1) pml4 (stack_pages ++ [p])
    end
  end.

(** The state change of [do_exit]; it then returns control to [run_elf]. *)
Definition do_exit (code : Z) : ST procs unit :=
  st ← get; s ← slot;
  put_slot (slot_index st) (mkSlot (kernel_return_rsp s) code false (mmio_next_va s) (pid s)).

Definition set_running (p : ProcSlot) : ProcSlot := mkSlot (kernel_return_rsp p) (exit_code p) true (mmio_next_va p) (pid p).

Section exec.
(** Ring 3 from entry point, stack top and argument up to the exit call. *)
Context (ring3 : Z → Z → Z → ST procs unit).

Definition run_elf (pid : Z) (data : list Z) (arg : Z) : ST procs (Z + string) :=
  st ← get;
  let idx := slot_index st in
  put_slot idx (mkSlot 0 0 false USER_MMIO_BASE pid) ≫= λ _,
  pml4 ← create_user_pml4;
  loaded ← on_machine (load data pml4);
  match loaded with
  | inr e => mret (inr e)
  | inl (entry, pgs) =>
    stack ← map_stack (Z.to_nat USER_STACK_PAGES) 0 pml4 [];
    match stack with
    | inr e => mret (inr e)
    | inl stack_pages =>
      orig_cr3 ← read_cr3;
      write_cr3 pml4 ≫= λ _,
      modify (set_task_cr3 pml4) ≫= λ _,
      s ← get_slot idx;
      put_slot idx (set_running s) ≫= λ _,
      ring3 entry USER_STACK_TOP arg ≫= λ _,
      write_cr3 orig_cr3 ≫= λ _,
      modify (set_task_cr3 orig_cr3) ≫= λ _,
      free_frames stack_pages ≫= λ _,
      free_frames pgs ≫= λ _,
      free_frame pml4 ≫= λ _,
      s ← get_slot idx;
      mret (inl (exit_code s))
    end
  end.

(** ** The process table *)

Definition drop_exited (tab : list ProcEntry) : list ProcEntry :=
  if (MAX_PROCS <=? length tab)%nat then
    match list_find (λ e, pe_state e = Exited) tab with Some (i, _) => delete i tab | None => tab end
  else tab.

Definition mark_exited (pid code : Z) (tab : list ProcEntry) : list ProcEntry :=
  match list_find (λ e, pe_pid e = pid) tab with
  | Some (i, e) => <[i := mkEntry (pe_pid e) (pe_name e) Exited code]> tab
  | None => tab
  end.

Definition exec_blocking (name data : list Z) (arg : Z) : ST procs (Z + string) :=
  take_proc_output ≫= λ _,
  pid ← gets NEXT_PID;
  modify (set_next_pid (u32 (pid + 1))) ≫= λ _,
  modify (λ s, set_tab (drop_exited (PROCTAB s) ++ [mkEntry pid name Running 0]) s) ≫= λ _,
  result ← run_elf pid data arg;
  modify (λ s, set_tab (mark_exited pid (match result with inl c => c | inr _ => U64_MAX end) (PROCTAB s)) s) ≫= λ _,
  mret result.

(** Queries fold over the table in order; the last match wins. *)
Definition is_process_running (name : list Z) (s : procs) : bool :=
  foldl (λ found e, if bool_decide (pe_state e = Running) && beq (pe_name e) name then true else found) false (PROCTAB s).
Definition pid_for_name (name : list Z) (s : procs) : option Z :=
  foldl (λ found e, if bool_decide (pe_state e = Running) && beq (pe_name e) name then Some (pe_pid e) else found) None (PROCTAB s).
Definition name_for_running_pid (pid : Z) (s : procs) : option (list Z) :=
  foldl (λ found e, if bool_decide (pe_state e = Running) && (pe_pid e =? pid) then Some (pe_name e) else found) None (PROCTAB s).

(** ** Background execution *)

Definition job_in_progress : ST procs bool := gets (λ s, 0 <? ACTIVE_JOBS s).

(** Nothing to run is an error; a job never is. *)
Definition exec_async_with_arg (issuer : Z) (name data : list Z) (arg : Z) : ST procs (option string) :=
  match data with
  | [] => mret (Some "nothing to run"%string)
  | _ =>
    modify (λ s, set_queues (PENDING_QUEUE s ++ [mkJob issuer name data arg]) (DONE_QUEUE s) (u64 (ACTIVE_JOBS s + 1)) (S (spawned s)) s) ≫= λ _,
    mret None
  end.

Definition exec_async (issuer : Z) (name data : list Z) : ST procs (option string) := exec_async_with_arg issuer name data 0.

(** [PENDING_QUEUE.lock().pop()]: the last job; a worker starts with it. *)
Definition pop_job : ST procs (option AsyncJob) := λ s,
  match last (PENDING_QUEUE s) with
  | Some j => Ok (Some j, set_queues (take (length (PENDING_QUEUE s) - 1) (PENDING_QUEUE s)) (DONE_QUEUE s) (ACTIVE_JOBS s) (Nat.pred (spawned s)) s)
  | None => Ok (None, set_queues [] (DONE_QUEUE s) (ACTIVE_JOBS s) (Nat.pred (spawned s)) s)
  end.

Definition result_message (name : list Z) (result : Z + string) (output : list Z) : list Z :=
  match result with
  | inl code =>
    (match output with
     | [] => []
     | _ => let t := utf8_lossy output in if bool_decide (last t = Some 0x0A) then t else t ++ [0x0A]
     end) ++ name ++ txt " exited: " ++ show_dec code
  | inr e => name ++ txt ": " ++ txt e
  end.

Definition push_done (issuer : Z) (msg : list Z) : ST procs unit :=
  modify (λ s, set_queues (PENDING_QUEUE s) (DONE_QUEUE s ++ [(issuer, msg)]) (ACTIVE_JOBS s) (spawned s) s).

Definition drop_active : ST procs unit :=
  modify (λ s, set_queues (PENDING_QUEUE s) (DONE_QUEUE s) (u64 (ACTIVE_JOBS s - 1)) (spawned s) s).

(** The body of a worker task, up to [exit_current]. *)
Definition async_task_entry : ST procs unit :=
  popped ← pop_job;
  (match popped with
   | Some j =>
     result ← exec_blocking (job_name j) (job_data j) (job_arg j);
     output ← take_proc_output;
     push_done (issuer j) (result_message (job_name j) result output)
   | None => mret tt
   end) ≫= λ _,
  drop_active.

Definition poll_async : ST procs (option (Z * list Z)) := λ s,
  match last (DONE_QUEUE s) with
  | Some r => Ok (Some r, set_queues (PENDING_QUEUE s) (take (length (DONE_QUEUE s) - 1) (DONE_QUEUE s)) (ACTIVE_JOBS s) (spawned s) s)
  | None => Ok (None, s)
  end.

Definition run_test_async (issuer : Z) : ST procs (option string) := exec_async issuer (txt "<test>") TEST_ELF.
End exec.

(** The built-in programs come from the build: [elf] is what it embedded, empty when
    it has not been built. *)
Definition run_builtin_async (issuer : Z) (name elf : list Z) (err : string) : ST procs (option string) :=
  match elf with [] => mret (Some err) | _ => exec_async issuer name elf end.
