(* ===== verification/ProcessSpec.v ===== *)
(** Processes: what anonymous mappings give a process, and that every background
    job's result reaches its issuer once. *)

From stdpp Require Import prelude list numbers strings.
From S2P Require Import Prelude Text Pmm Memory Paging Elf ElfSpec Process.

Local Open Scope Z_scope.

(** ** Anonymous memory *)

Lemma on_machine_wp {A} (c : ST (mach pmm) A) s Q :
  wp c (mach_of s) (λ a m, Q a (set_mach m s)) → wp (on_machine c) s Q.
Proof. unfold wp, on_machine. by destruct (c (mach_of s)) as [[a m]|]. Qed.

Lemma map_anon_loop_spec root s0 base n i l s :
  load_inv root s0 l (λ _, 0) (mach_of s) → cr3 s0 = root → page_of base = base → 0 ≤ base → 0 ≤ i →
  base + (i + Z.of_nat n) * 4096 ≤ 2 ^ 47 → 4 * (len (page_map l) + Z.of_nat n) ≤ fs_avail (frames s0) →
  (∀ v, v ∈ fst <$> page_map l ↔ page_in v base (base + i * 4096)) →
  wp (map_anon_loop n i base) s (λ ok s', ok = true ∧ ∃ l' m', s' = set_mach m' s ∧ load_inv root s0 l' (λ _, 0) m' ∧
    ∀ v, v ∈ fst <$> page_map l' ↔ page_in v base (base + (i + Z.of_nat n) * 4096)).
Proof.
  intros Hi Hcr Hb Hb0. revert i l s Hi. induction n as [|n IH]; intros i l s Hi Hi0 Hend Hav Hdom; cbn [map_anon_loop].
  - apply wp_ret. split; [done|]. exists l, (mach_of s). split; [by destruct s|]. split; [done|]. intros v. rewrite Hdom.
    by replace (i + Z.of_nat 0) with i by lia.
  - pose proof (li_avail _ _ _ _ _ Hi) as Ha0. apply wp_bind, on_machine_wp. unfold page_alloc, wp at 1.
    pose proof (fs_alloc_law (frames (mach_of s)) (sp_inv _ _ _ _ (li_space _ _ _ _ _ Hi))) as Hal.
    destruct (fs_alloc (frames (mach_of s))) as [[a|] f'] eqn:Eal; [|lia]. destruct Hal as (_ & _ & Hav' & Ha1 & Ha2 & _).
    apply wp_bind. unfold get at 1, wp at 1. apply wp_bind, on_machine_wp. unfold kzero_page, modify, wp at 1.
    cbn [set_mach mach_of]. rewrite behind_virt0 by (unfold MAX_PAGES, PAGE_SIZE in Ha1; lia). cbn [set_frames ram].
    change (set_ram (zero_page (ram (mach_of s)) a) (set_frames f' (mach_of s))) with (taken (mach_of s) f' a).
    destruct (taken_ok root s0 l (λ _, 0) (mach_of s) a f' Hi Eal) as (_ & _ & Hsp1 & _).
    set (virt := base + i * 4096) in *. assert (0 ≤ virt < 2 ^ 47) as Hv by (unfold virt; lia).
    assert (page_of virt = virt) as Hpv by (unfold page_of, virt in *; dlia).
    rewrite (wrap_small 64 virt) by (unfold is_u; lia).
    assert (cr3 (taken (mach_of s) f' a) = root) as Hc.
    { destruct (li_regs _ _ _ _ _ Hi) as [Hc _]. cbn. congruence. }
    apply wp_bind, on_machine_wp. cbn [set_mach mach_of].
    eapply wp_mono; [apply (map_current_spec low_half); [by rewrite Hc|by apply low_half_small|by apply frame_page|split; vm_compute; [discriminate|reflexivity]|change (frames (taken (mach_of s) f' a)) with f'; lia]|].
    intros ? m' Hm. cbv beta in Hm. rewrite Hc in Hm. change (Z.lor (Z.lor WRITE (bit 0)) (bit 2)) with 7 in Hm.
    assert (virt ∉ fst <$> page_map l) as Hnew by (rewrite Hdom; unfold page_in, virt; lia).
    pose proof (fresh_page root s0 l (λ _, 0) (mach_of s) virt a f' m' Hi Hpv Hv Hnew Eal Hm) as Hi'.
    eapply wp_mono; [eapply (IH (i + 1)); [exact Hi'|lia|lia| |]|].
    + cbn [page_map]. unfold len in *. rewrite length_app. cbn [length]. lia.
    + intros v. cbn [page_map]. rewrite fmap_app, elem_of_app, Hdom. cbn. rewrite list_elem_of_singleton. unfold page_in, virt in *.
      split; [intros [[? ?]| ->]; split; [done|lia|done|lia]|]. intros [Hp Hr]. destruct (decide (v = base + i * 4096)); [by right|left].
      split; [done|]. unfold page_of in *. dlia.
    + intros ok s' (-> & l' & m2 & -> & Hl' & Hd'). split; [done|]. exists l', m2. split; [done|]. split; [done|].
      intros v. rewrite Hd'. by replace (i + 1 + Z.of_nat n) with (i + Z.of_nat (S n)) by lia.
Qed.

(** C35: [SYS_MMAP_ANON]: with enough free frames a running process gets the next
    page-rounded stretch of its arena. Every byte of it is readable and writable from
    ring 3, zero, and in a frame that was free before the call, is marked used after
    it and is no part of the page tables, so it is memory that nothing in use shares;
    no two of its addresses are the same memory. The arena moves past it, the rest of
    the address space translates as before, used frames stay used, and no memory that
    was in use is touched. *)
Theorem map_anon_gives_zeroed_pages (s : procs) p n
    (Hslot : PROC_SLOTS s !! slot_index s = Some p) (Hrun : user_running p = true) (Hn : 0 < n ≤ 64 * 1024 * 1024)
    (Hspace : space low_half (frames (mach_of s)) (ram (mach_of s)) (cr3 (mach_of s)))
    (Hva : page_of (mmio_next_va p) = mmio_next_va p) (Hlow : 0 ≤ mmio_next_va p ≤ 2 ^ 46)
    (Hframes : 4 * ((n + 4095) / 4096) ≤ fs_avail (frames (mach_of s))) :
  let base := mmio_next_va p in
  let top := base + (n + 4095) / 4096 * 4096 in
  wp (map_anon_for_user n) s (λ r s', r = base ∧ mmio_next_va <$> PROC_SLOTS s' !! slot_index s' = Some top ∧
    (∀ va, base ≤ va < top → ∃ pa, translate (ram (mach_of s')) (cr3 (mach_of s')) va = Some (pa, true, true) ∧ ram (mach_of s') pa = 0 ∧
      fs_used (frames (mach_of s)) (page_of pa) = false ∧ fs_used (frames (mach_of s')) (page_of pa) = true ∧
      ∀ q, ¬ table low_half (ram (mach_of s')) (cr3 (mach_of s')) q (page_of pa)) ∧
    (∀ a, frame a → fs_used (frames (mach_of s)) a = true → fs_used (frames (mach_of s')) a = true) ∧
    (∀ va va' pa, base ≤ va < top → base ≤ va' < top → translate (ram (mach_of s')) (cr3 (mach_of s')) va = Some (pa, true, true) →
      translate (ram (mach_of s')) (cr3 (mach_of s')) va' = Some (pa, true, true) → va = va') ∧
    (∀ va, 0 ≤ va < 2 ^ 47 → ¬ (base ≤ va < top) →
      translate (ram (mach_of s')) (cr3 (mach_of s')) va = translate (ram (mach_of s)) (cr3 (mach_of s)) va) ∧
    (∀ a x, frame a → fs_used (frames (mach_of s)) a = true → (∀ q, ¬ table low_half (ram (mach_of s)) (cr3 (mach_of s)) q a) →
      a ≤ x < a + 4096 → ram (mach_of s') x = ram (mach_of s) x)).
Proof.
  cbv zeta. set (base := mmio_next_va p) in *. set (np := (n + 4095) / 4096) in *. assert (0 < np ≤ 2 ^ 15) as Hnp by (unfold np; dlia).
  unfold map_anon_for_user. apply wp_bind. unfold get at 1, wp at 1. apply wp_bind. unfold slot. apply wp_bind. unfold get at 1, wp at 1.
  unfold get_slot. apply wp_bind. unfold get at 1, wp at 1. rewrite Hslot. apply (wp_lift _ _ p); [done|]. rewrite Hrun. cbn [negb].
  rewrite (proj2 (Z.eqb_neq n 0)), (proj2 (Z.ltb_ge (64 * 1024 * 1024) n)) by lia. cbn [orb].
  rewrite (wrap_small 64 (n + 0xFFF)) by (unfold is_u; lia). change (n + 0xFFF) with (n + 4095). fold np. fold base.
  rewrite (wrap_small 64 (base + np * 4096)) by (unfold is_u; lia). apply wp_bind. unfold put_slot, modify, wp at 1.
  set (s1 := set_slots _ s). assert (load_inv (cr3 (mach_of s)) (mach_of s) (mkLoading [] []) (λ _, 0) (mach_of s1)) as Hi by (by apply load_inv_init).
  wp_step (map_anon_loop_spec (cr3 (mach_of s)) (mach_of s) base (Z.to_nat np) 0 (mkLoading [] []) s1 Hi eq_refl Hva ltac:(lia) ltac:(lia)
    ltac:(rewrite Z2Nat.id by lia; lia) ltac:(unfold len; cbn [page_map length]; lia)
    ltac:(intros v; cbn [page_map]; rewrite fmap_nil, elem_of_nil; unfold page_in; lia)).
  intros ok s' (-> & l & m' & -> & Hl & Hdom). rewrite Z.add_0_l, Z2Nat.id in Hdom by lia. apply wp_ret.
  assert (cr3 m' = cr3 (mach_of s)) as Hcr by apply (li_regs _ _ _ _ _ Hl).
  cbn [set_mach mach_of PROC_SLOTS]. rewrite Hcr. set (root := cr3 (mach_of s)) in *.
  assert (∀ va, base ≤ va < base + np * 4096 → ∃ a, (page_of va, a) ∈ page_map l ∧ translate (ram m') root va = Some (a + va mod 4096, true, true)) as Htr.
  { intros va Hr. assert (page_of va ∈ fst <$> page_map l) as Hin by (apply Hdom; unfold page_in, page_of in *; split; dlia).
    rewrite list_elem_of_fmap in Hin. destruct Hin as ([v a] & Ev & Hin). cbn in Ev. subst v. exists a. split; [done|].
    destruct (li_frame _ _ _ _ _ Hl _ _ Hin) as (_ & _ & Hfa & _). pose proof (li_leaf _ _ _ _ _ Hl _ _ Hin) as Hleaf.
    rewrite (translate_leaf low_half (frames m')) by (apply Hl || (apply low_half_small; lia)).
    assert (leaf (ram m') root va = Z.lor a 7) as ->.
    { rewrite <- Hleaf. unfold leaf. assert (indices va = indices (page_of va)) as E by (apply indices_page; unfold page_of in *; dlia).
      unfold indices in E. injection E as -> -> -> ->. done. }
    rewrite present_bit, !(entry_flag a) by (done || lia || by apply frame_page). by rewrite entry_addr_lor by (done || lia || by apply frame_page). }
  split; [done|]. split; [|split; [|split; [|split; [|split]]]].
  - unfold s1, set_slots, slot_index, set_mach. cbn [PROC_SLOTS task]. fold (slot_index s).
    rewrite list_lookup_insert_eq by (by eapply lookup_lt_Some). done.
  - intros va Hr. destruct (Htr va Hr) as (a & Hin & ->). eexists. split; [done|].
    split; [by apply (li_bytes _ _ _ _ _ Hl _ _ _ Hin); dlia|].
    destruct (li_frame _ _ _ _ _ Hl _ _ Hin) as (_ & _ & [_ Hfa] & Hu & Hu0 & Hnt). unfold PAGE_SIZE in Hfa.
    assert (page_of (a + va mod 4096) = a) as -> by (unfold page_of; dlia). done.
  - apply (li_used _ _ _ _ _ Hl).
  - intros va va' pa Hr Hr' E E'. destruct (Htr va Hr) as (a & Hin & Ea). destruct (Htr va' Hr') as (a' & Hin' & Ea'). rewrite Ea in E. rewrite Ea' in E'.
    injection E as E. injection E' as E'. destruct (li_frame _ _ _ _ _ Hl _ _ Hin) as (_ & _ & [_ Hfa] & _).
    destruct (li_frame _ _ _ _ _ Hl _ _ Hin') as (_ & _ & [_ Hfa'] & _). unfold PAGE_SIZE in *.
    assert (a = a') as <- by dlia. assert (page_of va = page_of va') as Ep; [|unfold page_of in Ep; lia].
    apply list_elem_of_lookup in Hin as [i Ei], Hin' as [j Ej].
    assert ((snd <$> page_map l) !! i = Some a) as E1 by (by rewrite list_lookup_fmap, Ei).
    assert ((snd <$> page_map l) !! j = Some a) as E2 by (by rewrite list_lookup_fmap, Ej).
    pose proof (NoDup_lookup _ _ _ _ (li_frames _ _ _ _ _ Hl) E1 E2) as ->. congruence.
  - intros va Hv Hn'. rewrite (translate_leaf low_half (frames m')), (translate_leaf low_half (frames (mach_of s)))
      by (done || apply Hl || (by apply low_half_small)).
    destruct (li_other _ _ _ _ _ Hl va Hv) as [-> _]; [|done]. rewrite Hdom. unfold page_in, page_of in *. intros [_ ?]. apply Hn'. dlia.
  - intros a x Ha Hu Hnt Hx. by apply (li_old _ _ _ _ _ Hl a).
Qed.

(** ** Background jobs *)

(** The queues with their history: jobs submitted, jobs a worker is running, and the
    issuers to whom a result was delivered. *)
Record history := mkHist { submitted : list AsyncJob; running_jobs : list AsyncJob; delivered : list Z }.

(** The pieces of [async_task_entry], of submission and of delivery, in any order the
    scheduler can produce; between a worker's start and its end anything may happen
    to the rest of the state. *)
Inductive job_step : procs * history → procs * history → Prop :=
| js_submit s h iss nm data arg s' :
    exec_async_with_arg iss nm data arg s = Ok (None, s') →
    job_step (s, h) (s', mkHist (mkJob iss nm data arg :: submitted h) (running_jobs h) (delivered h))
| js_start s h j s' : (0 < spawned s)%nat → pop_job s = Ok (Some j, s') →
    job_step (s, h) (s', mkHist (submitted h) (j :: running_jobs h) (delivered h))
| js_start_empty s h s' : (0 < spawned s)%nat → (pop_job ≫= λ _, drop_active) s = Ok (tt, s') → last (PENDING_QUEUE s) = None →
    job_step (s, h) (s', h)
| js_finish s h j r1 r2 result output s' : running_jobs h = r1 ++ j :: r2 →
    (push_done (issuer j) (result_message (job_name j) result output) ≫= λ _, drop_active) s = Ok (tt, s') →
    job_step (s, h) (s', mkHist (submitted h) (r1 ++ r2) (delivered h))
| js_poll s h i m s' : poll_async s = Ok (Some (i, m), s') →
    job_step (s, h) (s', mkHist (submitted h) (running_jobs h) (i :: delivered h))
| js_other s h s' : PENDING_QUEUE s' = PENDING_QUEUE s → DONE_QUEUE s' = DONE_QUEUE s → ACTIVE_JOBS s' = ACTIVE_JOBS s →
    spawned s' = spawned s → job_step (s, h) (s', h).

Definition jobs_ok (sh : procs * history) : Prop :=
  let '(s, h) := sh in
  issuer <$> submitted h ≡ₚ (issuer <$> PENDING_QUEUE s) ++ (issuer <$> running_jobs h) ++ (fst <$> DONE_QUEUE s) ++ delivered h ∧
  ACTIVE_JOBS s = u64 (len (PENDING_QUEUE s) + len (running_jobs h)) ∧ spawned s = length (PENDING_QUEUE s).

Lemma last_split {A} (l : list A) x : last l = Some x → l = take (length l - 1) l ++ [x].
Proof.
  intros (l' & ->)%last_Some. rewrite length_app. cbn. rewrite Nat.add_sub. by rewrite take_app_length.
Qed.

Lemma u64_plus_one a : u64 (u64 a + 1) = u64 (a + 1).
Proof. unfold wrap. by rewrite Zplus_mod_idemp_l. Qed.

Lemma u64_minus_one a : u64 (u64 a - 1) = u64 (a - 1).
Proof. unfold wrap. by rewrite Zminus_mod_idemp_l. Qed.

Lemma job_step_ok x y : job_step x y → jobs_ok x → jobs_ok y.
Proof.
  intros Hs. destruct Hs as [s h iss nm data arg s' E|s h j s' Hsp E|s h s' Hsp _ El|s h j r1 r2 res out s' Er E|s h i m s' E|s h s' E1 E2 E3 E4];
    unfold jobs_ok; intros (Hp & Ha & Hn).
  - destruct data as [|b data]; [done|]. injection E as <-. cbn. rewrite Ha, Hn. split_and!.
    + rewrite fmap_app, Hp. cbn. solve_Permutation.
    + rewrite u64_plus_one. f_equal. unfold len. rewrite length_app. cbn. lia.
    + rewrite length_app. cbn. lia.
  - unfold pop_job in E. destruct (last (PENDING_QUEUE s)) as [k|] eqn:El; [|done]. injection E as -> <-. cbn.
    apply last_split in El. set (q := take (length (PENDING_QUEUE s) - 1) (PENDING_QUEUE s)) in *. rewrite El in Hp, Ha, Hn. rewrite Ha, Hn. split_and!.
    + rewrite Hp, fmap_app. cbn. solve_Permutation.
    + f_equal. unfold len. rewrite length_app. cbn. lia.
    + rewrite length_app. cbn. lia.
  - apply last_None in El. rewrite El in Hn. cbn in Hn. lia.
  - injection E as <-. cbn. rewrite Er in *. split_and!.
    + rewrite Hp, !fmap_app, !fmap_cons. cbn. solve_Permutation.
    + rewrite Ha, u64_minus_one. f_equal. unfold len. rewrite !length_app. cbn. lia.
    + done.
  - unfold poll_async in E. destruct (last (DONE_QUEUE s)) as [k|] eqn:El; [|done]. injection E as -> <-. cbn.
    apply last_split in El. set (q := take (length (DONE_QUEUE s) - 1) (DONE_QUEUE s)) in *. rewrite El in Hp. split_and!; [|done|done].
    rewrite Hp, fmap_app. cbn. solve_Permutation.
  - rewrite E1, E2, E3, E4. done.
Qed.

Definition quiet (s : procs) : Prop := PENDING_QUEUE s = [] ∧ DONE_QUEUE s = [] ∧ ACTIVE_JOBS s = 0 ∧ spawned s = O.

(** However submissions, workers and polls interleave, every submitted job is in
    exactly one place - queued, running, finished and waiting, or delivered - so its
    issuer gets exactly one result; the count of active jobs is exact, and no worker
    ever finds the queue empty. *)
Theorem async_results_delivered_once (s0 s : procs) (h : history)
    (Hq : quiet s0) (Hreach : rtc job_step (s0, mkHist [] [] []) (s, h)) (Hbound : len (submitted h) < 2 ^ 64) :
  issuer <$> submitted h ≡ₚ (issuer <$> PENDING_QUEUE s) ++ (issuer <$> running_jobs h) ++ (fst <$> DONE_QUEUE s) ++ delivered h ∧
  ACTIVE_JOBS s = len (PENDING_QUEUE s) + len (running_jobs h) ∧ spawned s = length (PENDING_QUEUE s) ∧
  (fst <$> job_in_progress s = Ok false → issuer <$> submitted h ≡ₚ (fst <$> DONE_QUEUE s) ++ delivered h).
Proof.
  assert (jobs_ok (s, h)) as (Hp & Ha & Hn).
  { remember (s0, mkHist [] [] []) as x eqn:Ex. remember (s, h) as y eqn:Ey.
    assert (jobs_ok x) as Hx by (subst x; destruct Hq as (E1 & E2 & E3 & E4); unfold jobs_ok; rewrite E1, E2, E3, E4; done).
    clear Ex Ey Hbound s h. induction Hreach as [|x y z Hs _ IH]; [done|]. by eapply IH, job_step_ok. }
  assert (length (submitted h) = (length (PENDING_QUEUE s) + (length (running_jobs h) + (length (DONE_QUEUE s) + length (delivered h))))%nat) as Hl.
  { apply Permutation_length in Hp. by rewrite !length_app, !length_fmap in Hp. }
  assert (ACTIVE_JOBS s = len (PENDING_QUEUE s) + len (running_jobs h)) as Ea.
  { rewrite Ha. apply wrap_small. unfold is_u, len in *. lia. }
  split; [done|]. split; [done|]. split; [done|]. unfold job_in_progress, gets. cbn. intros [= E]. apply Z.ltb_ge in E. unfold len in Ea.
  destruct (PENDING_QUEUE s); [|cbn in Ea; lia]. destruct (running_jobs h); [|cbn in Ea; lia]. by rewrite Hp.
Qed.

(** ** A running process, and one job from submission to delivery *)

Definition demo_procs (p : ProcSlot) : procs := mkProcs [p] [] [] 1 [] [] 0 0 0 demo_root demo_mach.

Lemma map_anon_gives_zeroed_pages_witness :
  wp (map_anon_for_user 5000) (demo_procs (mkSlot 0 0 true USER_MMIO_BASE 1)) (λ r s', r = USER_MMIO_BASE ∧
    ∃ pa, translate (ram (mach_of s')) (cr3 (mach_of s')) (USER_MMIO_BASE + 8191) = Some (pa, true, true) ∧ ram (mach_of s') pa = 0 ∧
      fs_used (frames demo_mach) (page_of pa) = false).
Proof.
  eapply wp_mono.
  - apply (map_anon_gives_zeroed_pages (demo_procs (mkSlot 0 0 true USER_MMIO_BASE 1)) (mkSlot 0 0 true USER_MMIO_BASE 1) 5000).
    + reflexivity.
    + reflexivity.
    + lia.
    + exact demo_space.
    + reflexivity.
    + split; [discriminate|]. unfold USER_MMIO_BASE. cbn [mmio_next_va]. lia.
    + change (frames (mach_of (demo_procs (mkSlot 0 0 true USER_MMIO_BASE 1)))) with (frames demo_mach). rewrite demo_avail_frames. discriminate.
  - intros r s' (Hr & _ & H & _). split; [exact Hr|].
    destruct (H (USER_MMIO_BASE + 8191)) as (pa & Ht & Hz & Hf & _); [split; [discriminate|reflexivity]|].
    exists pa. split; [exact Ht|]. split; [exact Hz|exact Hf].
Defined.

Lemma async_results_delivered_once_witness :
  ∃ s h, delivered h = [7] ∧ ACTIVE_JOBS s = 0 ∧ submitted h = [mkJob 7 [0x61] [1] 0].
Proof.
  set (j := mkJob 7 [0x61] [1] 0). set (s0 := demo_procs slot_empty).
  set (s1 := set_queues [j] [] 1 1 s0). set (s2 := set_queues [] [] 1 0 s0).
  set (msg := result_message [0x61] (inl 0) []). set (s3 := set_queues [] [(7, msg)] 0 0 s0). set (s4 := set_queues [] [] 0 0 s0).
  exists s4, (mkHist [j] [] [7]).
  destruct (async_results_delivered_once s0 s4 (mkHist [j] [] [7])) as (_ & Ha & _).
  - repeat split.
  - apply (rtc_l _ _ (s1, mkHist [j] [] [])); [by apply (js_submit s0 (mkHist [] [] []) 7 [0x61] [1] 0)|].
    apply (rtc_l _ _ (s2, mkHist [j] [j] [])); [apply (js_start s1 (mkHist [j] [] []) j); [cbn; lia|reflexivity]|].
    apply (rtc_l _ _ (s3, mkHist [j] [] [])); [by apply (js_finish s2 (mkHist [j] [j] []) j [] [] (inl 0) [])|].
    apply (rtc_l _ _ (s4, mkHist [j] [] [7])); [by apply (js_poll s3 (mkHist [j] [] []) 7 msg)|]. apply rtc_refl.
  - reflexivity.
  - split; [reflexivity|]. split; [exact Ha|reflexivity].
Defined.
