(* ===== verification/Hepfs.v ===== *)
(** HepFS ([kernel/src/hepfs.rs]): the model of the file system.

    The state of every operation is the block device, the frame allocator the
    I/O pages come from, and the [GENERATION] counter. An I/O page is the list
    of its 4096 bytes; [Page::alloc] takes a frame and no operation gives it
    back, as in the source. Storage hardware is outside the sources: it is the
    class [Drive], whose laws are what an NVMe or SATA device documents (an
    in-range read returns the stored bytes, an in-range write replaces exactly
    the addressed bytes). Names and paths are byte strings. *)

From stdpp Require Import prelude list numbers strings gmap.
From S2P Require Import Prelude Pmm.

Local Open Scope Z_scope.

(** ** The block device *)

Inductive dev_kind := Nvme | Ahci.

Class Drive (D : Type) := {
  dr_kind : D → dev_kind;
  dr_lba_size : D → Z;
  dr_lba_count : D → Z;
  (** [None]: the device reported an error. *)
  dr_read : D → Z → Z → option (list Z);
  dr_write : D → Z → Z → list Z → bool * D;
  (** The stored byte at a byte offset of the medium. *)
  dr_byte : D → Z → Z;
  dr_byte_range : ∀ d o, is_byte (dr_byte d o);
  dr_read_law : ∀ d lba count, 0 ≤ lba → 0 < count → lba + count ≤ dr_lba_count d →
    0 < dr_lba_size d → count * dr_lba_size d ≤ 4096 →
    dr_read d lba count =
      Some (dr_byte d <$> seqZ (lba * dr_lba_size d) (count * dr_lba_size d));
  dr_write_law : ∀ d lba count l, 0 ≤ lba → 0 < count → lba + count ≤ dr_lba_count d →
    0 < dr_lba_size d → count * dr_lba_size d ≤ 4096 → len l = count * dr_lba_size d →
    Forall is_byte l →
    ∃ d', dr_write d lba count l = (true, d') ∧ dr_kind d' = dr_kind d ∧
      dr_lba_size d' = dr_lba_size d ∧ dr_lba_count d' = dr_lba_count d ∧
      ∀ o, 0 ≤ o → dr_byte d' o =
        if bool_decide (lba * dr_lba_size d ≤ o < lba * dr_lba_size d + len l)
        then default 0 (l !! Z.to_nat (o - lba * dr_lba_size d)) else dr_byte d o
}.

(** ** Constants *)

Definition MAGIC : Z := 0x4865704653000001.
Definition BLOCK_SIZE : Z := 4096.
Definition INODES_PER_BLK : Z := BLOCK_SIZE / 128.
Definition MAX_INODES : Z := 1024.
Definition DIRECT_PTRS : Z := 12.
Definition SB_BLOCK : Z := 0.
Definition INODE_BM_BLOCK : Z := 1.
Definition BLOCK_BM_BLOCK : Z := 2.
Definition BLOCK_BM_LEN : Z := 4.
Definition INODE_TBL_BLOCK : Z := 6.
Definition INODE_TBL_LEN : Z := 32.
Definition DATA_BLOCK_START : Z := 38.
Definition ROOT_INO : Z := 0.
Definition F_FREE : Z := 0.
Definition F_FILE : Z := 1.
Definition F_DIR : Z := 2.
Definition DIR_ENTRY_SIZE : Z := 32.
Definition ENTRIES_PER_BLK : Z := BLOCK_SIZE / DIR_ENTRY_SIZE.
Definition PTRS_PER_INDIRECT : Z := BLOCK_SIZE / 4.
Definition DINDIRECT_MAX_BLOCKS : Z := PTRS_PER_INDIRECT * PTRS_PER_INDIRECT.

(** ** Bytes of a page *)

Definition poke (off : Z) (bs buf : list Z) : list Z := splice (Z.to_nat off) bs buf.
Definition peek (off : Z) (n : nat) (buf : list Z) : list Z := sub (Z.to_nat off) n buf.
Definition peek_u32 (off : Z) (buf : list Z) : Z := le_val (peek off 4 buf).
Definition peek_u64 (off : Z) (buf : list Z) : Z := le_val (peek off 8 buf).
Definition zero_page : list Z := replicate (Z.to_nat BLOCK_SIZE) 0.

(** ** On-disk structures *)

(** [Inode], [repr(C)]: 4 bytes of padding follow [flags] and [nblocks]. *)
Record Inode := mkInode {
  flags : Z; size : Z; nblocks : Z; ctime : Z; mtime : Z;
  direct : list Z; indirect : Z; dindirect : Z; ipad : list Z;
}.

Definition inode_default : Inode := mkInode 0 0 0 0 0 (replicate 12 0) 0 0 (replicate 32 0).

Definition set_flags (f : Z) (i : Inode) : Inode :=
  mkInode f (size i) (nblocks i) (ctime i) (mtime i) (direct i) (indirect i) (dindirect i) (ipad i).
Definition set_size (z : Z) (i : Inode) : Inode :=
  mkInode (flags i) z (nblocks i) (ctime i) (mtime i) (direct i) (indirect i) (dindirect i) (ipad i).
Definition set_nblocks (n : Z) (i : Inode) : Inode :=
  mkInode (flags i) (size i) n (ctime i) (mtime i) (direct i) (indirect i) (dindirect i) (ipad i).
Definition set_direct (k : nat) (b : Z) (i : Inode) : Inode :=
  mkInode (flags i) (size i) (nblocks i) (ctime i) (mtime i) (<[k := b]> (direct i))
    (indirect i) (dindirect i) (ipad i).
Definition set_indirect (b : Z) (i : Inode) : Inode :=
  mkInode (flags i) (size i) (nblocks i) (ctime i) (mtime i) (direct i) b (dindirect i) (ipad i).
Definition set_dindirect (b : Z) (i : Inode) : Inode :=
  mkInode (flags i) (size i) (nblocks i) (ctime i) (mtime i) (direct i) (indirect i) b (ipad i).
Definition inc_nblocks (i : Inode) : Inode := set_nblocks (u32 (nblocks i + 1)) i.

(** The 128 bytes of an inode; the padding bytes are never read back. *)
Definition inode_bytes (i : Inode) : list Z :=
  le_bytes 4 (flags i) ++ replicate 4 0 ++ le_bytes 8 (size i) ++
  le_bytes 4 (nblocks i) ++ replicate 4 0 ++ le_bytes 8 (ctime i) ++ le_bytes 8 (mtime i) ++
  mjoin (le_bytes 4 <$> direct i) ++ le_bytes 4 (indirect i) ++ le_bytes 4 (dindirect i) ++ ipad i.

Definition inode_of_bytes (l : list Z) : Inode :=
  mkInode (peek_u32 0 l) (peek_u64 8 l) (peek_u32 16 l) (peek_u64 24 l) (peek_u64 32 l)
    ((λ k, peek_u32 (40 + 4 * Z.of_nat k) l) <$> seq 0 12) (peek_u32 88 l) (peek_u32 92 l) (peek 96 32 l).

Record DirEntry := mkEntry { inode : Z; name_len : Z; name : list Z }.

Definition entry_bytes (e : DirEntry) : list Z := le_bytes 4 (inode e) ++ [name_len e] ++ name e.

(** [core::str::from_utf8(..).is_ok()] *)
Definition in_rng (lo hi b : Z) : bool := (lo <=? b) && (b <=? hi).
Definition cont (b : Z) : bool := in_rng 0x80 0xBF b.

Fixpoint utf8_valid (l : list Z) : bool :=
  match l with
  | [] => true
  | b0 :: l1 =>
    if b0 <? 0x80 then utf8_valid l1
    else match l1 with
    | [] => false
    | b1 :: l2 =>
      if in_rng 0xC2 0xDF b0 then cont b1 && utf8_valid l2
      else match l2 with
      | [] => false
      | b2 :: l3 =>
        if in_rng 0xE0 0xEF b0 then
          (if b0 =? 0xE0 then in_rng 0xA0 0xBF b1
           else if b0 =? 0xED then in_rng 0x80 0x9F b1 else cont b1)
          && cont b2 && utf8_valid l3
        else match l3 with
        | [] => false
        | b3 :: l4 =>
          in_rng 0xF0 0xF4 b0 &&
          (if b0 =? 0xF0 then in_rng 0x90 0xBF b1
           else if b0 =? 0xF4 then in_rng 0x80 0x8F b1 else cont b1)
          && cont b2 && cont b3 && utf8_valid l4
        end
      end
    end
  end.

Definition name_str (e : DirEntry) : list Z :=
  let s := take (Z.to_nat (Z.min (name_len e) 27)) (name e) in
  if utf8_valid s then s else [].

(** The entry in slot [i] of a directory page, and its overwrite. *)
Definition get_entry (buf : list Z) (i : Z) : DirEntry :=
  let off := i * DIR_ENTRY_SIZE in
  mkEntry (peek_u32 off buf) (le_val (peek (off + 4) 1 buf)) (peek (off + 5) 27 buf).
Definition put_entry (buf : list Z) (i : Z) (e : DirEntry) : list Z :=
  poke (i * DIR_ENTRY_SIZE) (entry_bytes e) buf.

(** [DirEntry { inode, name_len: name.len() as u8, name: name padded with zeros }]; the
    [copy_from_slice] into [entry.name[..len]] panics past 27 bytes, which callers exclude. *)
Definition new_entry (ino : Z) (nm : list Z) : DirEntry :=
  mkEntry ino (u8 (len nm)) (nm ++ replicate (27 - length nm) 0).
Definition blank_entry : DirEntry := mkEntry 0 0 (replicate 27 0).

(** First slot in [i, i + n) whose entry satisfies [p]. *)
Fixpoint scan_entries (p : DirEntry → bool) (buf : list Z) (n : nat) (i : Z) : option (Z * DirEntry) :=
  match n with
  | O => None
  | S n => let e := get_entry buf i in
           if p e then Some (i, e) else scan_entries p buf n (i + 1)
  end.
Definition find_entry (p : DirEntry → bool) (buf : list Z) : option (Z * DirEntry) :=
  scan_entries p buf (Z.to_nat ENTRIES_PER_BLK) 0.
Definition entries (buf : list Z) : list DirEntry :=
  get_entry buf <$> seqZ 0 ENTRIES_PER_BLK.

(** The occupied entries of a page, and what [list_dir] reports of one. *)
Definition live (buf : list Z) : list DirEntry := filter (λ e, inode e ≠ 0) (entries buf).
Definition item (e : DirEntry) : Z * list Z := (inode e, name_str e).

Definition has_ino (ino : Z) (e : DirEntry) : bool := inode e =? ino.
Definition names (nm : list Z) (e : DirEntry) : bool :=
  negb (inode e =? 0) && bool_decide (name_str e = nm).

Section hepfs.
Context {D F : Type} `{Drive D} `{FrameSource F}.

Record fs := mkFs { dev : D; frames : F; GENERATION : Z }.

Definition generation (s : fs) : Z := GENERATION s.
Definition bump_generation : ST fs unit :=
  modify (λ s, mkFs (dev s) (frames s) (u64 (GENERATION s + 1))).

(** ** Pages and block I/O *)

Definition page_alloc : ST fs (list Z) := λ s,
  match fs_alloc (frames s) with
  | (Some _, f) => Ok (zero_page, mkFs (dev s) f (GENERATION s))
  | (None, _) => Panic "hepfs: OOM"
  end.

(** [BlockDev::read_blocks] into a page that holds [buf]: NVMe errors panic, AHCI
    errors leave the page as it was. *)
Definition read_blocks (lba count : Z) (buf : list Z) : ST fs (list Z) := λ s,
  match dr_read (dev s) lba count with
  | Some l => Ok (splice 0 l buf, s)
  | None => match dr_kind (dev s) with Nvme => Panic "NVMe read failed" | Ahci => Ok (buf, s) end
  end.

Definition write_blocks (lba count : Z) (buf : list Z) : ST fs unit := λ s,
  let n := Z.to_nat (count * dr_lba_size (dev s)) in
  match dr_write (dev s) lba count (take n buf) with
  | (true, d) => Ok (tt, mkFs d (frames s) (GENERATION s))
  | (false, d) => match dr_kind (dev s) with
                  | Nvme => Panic "NVMe write failed"
                  | Ahci => Ok (tt, mkFs d (frames s) (GENERATION s)) end
  end.

Definition sectors_per_block : ST fs Z := λ s,
  if dr_lba_size (dev s) =? 0 then Panic "attempt to divide by zero"
  else Ok (u16 (BLOCK_SIZE / dr_lba_size (dev s)), s).

Definition read_block (block : Z) : ST fs (list Z) :=
  page ← page_alloc;
  spb ← sectors_per_block;
  read_blocks (u64 (block * spb)) spb page.

Definition write_block (block : Z) (page : list Z) : ST fs unit :=
  spb ← sectors_per_block;
  write_blocks (u64 (block * spb)) spb page.

(** ** Bitmaps *)

(** The scan over the eight bits of one byte whose bit 0 has index [base]. *)
Fixpoint scan_bits (v base skip : Z) (n : nat) (b : Z) : option Z :=
  match n with
  | O => None
  | S n =>
    if (Z.land v (bit b) =? 0) && negb (base + b <? skip) then Some b
    else scan_bits v base skip n (b + 1)
  end.

Fixpoint scan_bytes (buf : list Z) (base skip byte : Z) : option (Z * Z) :=
  match buf with
  | [] => None
  | v :: rest =>
    if v =? 0xFF then scan_bytes rest base skip (byte + 1)
    else match scan_bits v (base + byte * 8) skip 8 0 with
         | Some b => Some (byte, b)
         | None => scan_bytes rest base skip (byte + 1)
         end
  end.

Fixpoint bitmap_alloc_from (n : nat) (bi bm_start skip : Z) : ST fs (option Z) :=
  match n with
  | O => mret None
  | S n =>
    buf ← read_block (bm_start + bi);
    let base := bi * BLOCK_SIZE * 8 in
    match scan_bytes buf base skip 0 with
    | Some (byte, b) =>
      mbuf ← read_block (bm_start + bi);
      v ← lift (idx mbuf byte);
      write_block (bm_start + bi) (<[Z.to_nat byte := Z.lor v (bit b)]> mbuf) ≫= λ _,
      mret (Some (base + byte * 8 + b))
    | None => bitmap_alloc_from n (bi + 1) bm_start skip
    end
  end.

Definition bitmap_alloc (bm_start bm_len skip : Z) : ST fs (option Z) :=
  bitmap_alloc_from (Z.to_nat bm_len) 0 bm_start skip.

Definition bitmap_set (bm_start i : Z) (used : bool) : ST fs unit :=
  let block := bm_start + i / (BLOCK_SIZE * 8) in
  let byte := (i / 8) mod BLOCK_SIZE in
  let b := i mod 8 in
  buf ← read_block block;
  v ← lift (idx buf byte);
  write_block block
    (<[Z.to_nat byte := if used then Z.lor v (bit b) else Z.ldiff v (bit b)]> buf).

(** ** Inodes *)

Definition inode_block (ino : Z) : Z := INODE_TBL_BLOCK + ino / INODES_PER_BLK.
Definition inode_off (ino : Z) : Z := (ino mod INODES_PER_BLK) * 128.

Definition read_inode (ino : Z) : ST fs Inode :=
  page ← read_block (inode_block ino);
  mret (inode_of_bytes (peek (inode_off ino) 128 page)).

Definition write_inode (ino : Z) (i : Inode) : ST fs unit :=
  page ← read_block (inode_block ino);
  write_block (inode_block ino) (poke (inode_off ino) (inode_bytes i) page).

(** ** Allocation *)

Definition alloc_block : ST fs Z :=
  r ← bitmap_alloc BLOCK_BM_BLOCK BLOCK_BM_LEN DATA_BLOCK_START;
  blk ← lift (unwrap "hepfs: disk full" r);
  page ← page_alloc;
  write_block blk page ≫= λ _,
  mret (u32 blk).

Definition alloc_inode : ST fs Z :=
  r ← bitmap_alloc INODE_BM_BLOCK 1 0;
  i ← lift (unwrap "hepfs: inode table full" r);
  let ino := u32 i in
  lift (rassert (ino <? MAX_INODES) "hepfs: too many inodes") ≫= λ _,
  mret ino.

(** ** Formatting *)

Definition superblock (total_blocks : Z) : list Z :=
  poke 0 (le_bytes 8 MAGIC) (poke 8 (le_bytes 4 BLOCK_SIZE) (poke 16 (le_bytes 8 total_blocks)
    (poke 24 (le_bytes 8 (u64 (total_blocks - DATA_BLOCK_START))) (poke 32 (le_bytes 4 MAX_INODES)
      (poke 36 (le_bytes 4 (MAX_INODES - 1)) zero_page))))).

(** [for i in from..from+n { body(i) }] *)
Fixpoint for_each {S} (n : nat) (i : Z) (body : Z → ST S unit) : ST S unit :=
  match n with
  | O => mret tt
  | S n => body i ≫= λ _, for_each n (i + 1) body
  end.

(** The superblock, the bitmaps and the inode table; the result is the blank page. *)
Definition format_meta : ST fs (list Z) :=
  d ← gets dev;
  let total_blocks := u64 (dr_lba_count d * dr_lba_size d) / BLOCK_SIZE in
  page_alloc ≫= λ _,
  write_block SB_BLOCK (superblock total_blocks) ≫= λ _,
  empty ← page_alloc;
  for_each (Z.to_nat (BLOCK_BM_LEN + 1)) 0 (λ i, write_block (INODE_BM_BLOCK + i) empty) ≫= λ _,
  for_each (Z.to_nat DATA_BLOCK_START) 0 (λ b, bitmap_set BLOCK_BM_BLOCK b true) ≫= λ _,
  bitmap_set INODE_BM_BLOCK 0 true ≫= λ _,
  for_each (Z.to_nat INODE_TBL_LEN) 0 (λ i, write_block (INODE_TBL_BLOCK + i) empty) ≫= λ _,
  mret empty.

(** The root directory. *)
Definition format_root (empty : list Z) : ST fs unit :=
  root_blk ← alloc_block;
  write_inode ROOT_INO (set_direct 0 root_blk (set_nblocks 1 (set_flags F_DIR inode_default))) ≫= λ _,
  write_block root_blk empty.

Definition format : ST fs unit :=
  empty ← format_meta;
  format_root empty.

Definition probe : ST fs bool :=
  page ← read_block SB_BLOCK;
  mret (peek_u64 0 page =? MAGIC).

(** ** Directories *)

(** The blocks of [inode.direct.iter().filter(|&&b| b != 0)]. *)
Definition dir_blocks (i : Inode) : list Z := filter (λ b, b ≠ 0) (direct i).

Fixpoint list_blocks (blks : list Z) : ST fs (list (Z * list Z)) :=
  match blks with
  | [] => mret []
  | blk :: rest =>
    buf ← read_block blk;
    out ← list_blocks rest;
    mret ((item <$> live buf) ++ out)
  end.

Definition list_dir (dir_ino : Z) : ST fs (list (Z * list Z)) :=
  i ← read_inode dir_ino;
  lift (rassert (flags i =? F_DIR) "not a directory") ≫= λ _,
  list_blocks (dir_blocks i).

(** The first block, slot and page holding an entry that satisfies [p]. *)
Fixpoint search_blocks (p : DirEntry → bool) (blks : list Z) :
    ST fs (option (Z * Z * DirEntry * list Z)) :=
  match blks with
  | [] => mret None
  | blk :: rest =>
    buf ← read_block blk;
    match find_entry p buf with
    | Some (i, e) => mret (Some (blk, i, e, buf))
    | None => search_blocks p rest
    end
  end.

Definition find_in_dir (dir_ino : Z) (nm : list Z) : ST fs (option Z) :=
  i ← read_inode dir_ino;
  r ← search_blocks (names nm) (dir_blocks i);
  mret (match r with Some (_, _, e, _) => Some (inode e) | None => None end).

(** [path.split('/')], empty parts dropped. *)
Fixpoint split_slash (l acc : list Z) : list (list Z) :=
  match l with
  | [] => [reverse acc]
  | c :: l => if c =? 0x2F then reverse acc :: split_slash l [] else split_slash l (c :: acc)
  end.
Definition path_parts (path : list Z) : list (list Z) :=
  filter (λ p, p ≠ []) (split_slash path []).

Fixpoint lookup_from (ino : Z) (parts : list (list Z)) : ST fs (option Z) :=
  match parts with
  | [] => mret (Some ino)
  | p :: rest =>
    r ← find_in_dir ino p;
    match r with Some i => lookup_from i rest | None => mret None end
  end.
Definition lookup (path : list Z) : ST fs (option Z) := lookup_from ROOT_INO (path_parts path).

Fixpoint add_dir_loop (n slot_blk : nat) (dir_ino : Z) (i : Inode) (nm : list Z) (ino : Z) : ST fs unit :=
  match n with
  | O => panic "hepfs: directory full"
  | S n =>
    old ← lift (unwrap "index out of bounds" (direct i !! slot_blk));
    i ← (if old =? 0 then
           new_blk ← alloc_block;
           let i := inc_nblocks (set_direct slot_blk new_blk i) in
           write_inode dir_ino i ≫= λ _, mret i
         else mret i);
    blk ← lift (unwrap "index out of bounds" (direct i !! slot_blk));
    buf ← read_block blk;
    match find_entry (has_ino 0) buf with
    | Some (k, _) =>
      write_block blk (put_entry buf k (new_entry ino nm)) ≫= λ _,
      write_inode dir_ino (set_size (u64 (size i + DIR_ENTRY_SIZE)) i)
    | None => add_dir_loop n (S slot_blk) dir_ino i nm ino
    end
  end.

Definition add_dir_entry (dir_ino : Z) (nm : list Z) (ino : Z) : ST fs unit :=
  i ← read_inode dir_ino;
  lift (rassert (len nm <=? 27) "filename too long (max 27)") ≫= λ _,
  add_dir_loop (Z.to_nat DIRECT_PTRS) 0 dir_ino i nm ino.

Definition create_file (parent : Z) (nm : list Z) : ST fs Z :=
  bump_generation ≫= λ _,
  ino ← alloc_inode;
  write_inode ino (set_flags F_FILE inode_default) ≫= λ _,
  add_dir_entry parent nm ino ≫= λ _,
  mret ino.

Definition create_dir (parent : Z) (nm : list Z) : ST fs Z :=
  bump_generation ≫= λ _,
  ino ← alloc_inode;
  blk ← alloc_block;
  write_inode ino (set_direct 0 blk (set_nblocks 1 (set_flags F_DIR inode_default))) ≫= λ _,
  add_dir_entry parent nm ino ≫= λ _,
  mret ino.

(** ** Writing a file *)

Definition chunk_of (remaining : list Z) : nat := Nat.min (length remaining) (Z.to_nat BLOCK_SIZE).

(** Fresh page, copy of the next chunk, write: the tail shared by the three phases. *)
Definition write_chunk (blk : Z) (remaining : list Z) : ST fs (list Z) :=
  page ← page_alloc;
  let chunk := chunk_of remaining in
  write_block blk (splice 0 (take chunk remaining) page) ≫= λ _,
  mret (drop chunk remaining).

Fixpoint write_direct (n block_idx : nat) (i : Inode) (remaining : list Z) : ST fs (Inode * list Z) :=
  match n with
  | O => mret (i, remaining)
  | S n =>
    if decide (remaining = []) then mret (i, remaining)
    else
      old ← lift (unwrap "index out of bounds" (direct i !! block_idx));
      i ← (if old =? 0 then b ← alloc_block; mret (inc_nblocks (set_direct block_idx b i)) else mret i);
      blk ← lift (unwrap "index out of bounds" (direct i !! block_idx));
      rest ← write_chunk blk remaining;
      write_direct n (S block_idx) i rest
  end.

(** The pointer at [off] of a table page, allocated (and stored in the page) when zero. *)
Definition get_or_alloc (off : Z) (buf : list Z) (i : Inode) : ST fs (Z * list Z * Inode * bool) :=
  let existing := peek_u32 off buf in
  if negb (existing =? 0) then mret (existing, buf, i, false)
  else b ← alloc_block; mret (b, poke off (le_bytes 4 b) buf, inc_nblocks i, true).

Fixpoint write_indirect (n : nat) (ind_idx : Z) (i : Inode) (ind_buf remaining : list Z) :
    ST fs (Inode * list Z * list Z) :=
  match n with
  | O => mret (i, ind_buf, remaining)
  | S n =>
    if decide (remaining = []) then mret (i, ind_buf, remaining)
    else
      '(blk, ind_buf, i, _) ← get_or_alloc (ind_idx * 4) ind_buf i;
      rest ← write_chunk blk remaining;
      write_indirect n (ind_idx + 1) i ind_buf rest
  end.

(** One level of the double-indirect walk: load the table, take or allocate the
    pointer, store the table back when it changed. *)
Definition table_slot (tbl off : Z) (i : Inode) : ST fs (Z * Inode) :=
  buf ← read_block tbl;
  '(blk, buf, i, new) ← get_or_alloc off buf i;
  (if (new : bool) then write_block tbl buf else mret tt) ≫= λ _,
  mret (blk, i).

Fixpoint write_dindirect (fuel : nat) (counter : Z) (i : Inode) (remaining : list Z) : ST fs Inode :=
  match fuel with
  | O => mret i
  | S fuel =>
    if decide (remaining = []) then mret i
    else
      lift (rassert (counter <? DINDIRECT_MAX_BLOCKS) "file too large (max ~4GB)") ≫= λ _,
      let l1_idx := counter / PTRS_PER_INDIRECT in
      let l2_idx := counter mod PTRS_PER_INDIRECT in
      '(l1_blk, i) ← table_slot (dindirect i) (l1_idx * 4) i;
      '(data_blk, i) ← table_slot l1_blk (l2_idx * 4) i;
      rest ← write_chunk data_blk remaining;
      write_dindirect fuel (counter + 1) i rest
  end.

(** Phases 2 and 3. *)
Definition write_phase2 (i : Inode) (remaining : list Z) : ST fs (Inode * list Z) :=
  if decide (remaining = []) then mret (i, remaining)
  else
    i ← (if indirect i =? 0 then b ← alloc_block; mret (inc_nblocks (set_indirect b i)) else mret i);
    ind_buf ← read_block (indirect i);
    '(i, ind_buf, remaining) ← write_indirect (Z.to_nat PTRS_PER_INDIRECT) 0 i ind_buf remaining;
    write_block (indirect i) ind_buf ≫= λ _,
    mret (i, remaining).

Definition write_phase3 (i : Inode) (remaining : list Z) : ST fs Inode :=
  if decide (remaining = []) then mret i
  else
    i ← (if dindirect i =? 0 then b ← alloc_block; mret (inc_nblocks (set_dindirect b i)) else mret i);
    write_dindirect (length remaining) 0 i remaining.

Definition write_file (ino : Z) (data : list Z) : ST fs unit :=
  i ← read_inode ino;
  lift (rassert (flags i =? F_FILE) "not a file") ≫= λ _,
  '(i, remaining) ← write_direct (Z.to_nat DIRECT_PTRS) 0 i data;
  '(i, remaining) ← write_phase2 i remaining;
  i ← write_phase3 i remaining;
  write_inode ino (set_size (len data) i).

(** ** Reading a file *)

(** [out.extend_from_slice(&page[..chunk])] with [chunk = left.min(BLOCK_SIZE)]. *)
Definition read_chunk (blk lft : Z) : ST fs (list Z * Z) :=
  page ← read_block blk;
  let chunk := Z.min lft BLOCK_SIZE in
  mret (take (Z.to_nat chunk) page, lft - chunk).

Fixpoint read_direct (blks : list Z) (lft : Z) : ST fs (list Z * Z) :=
  match blks with
  | [] => mret ([], lft)
  | blk :: rest =>
    if lft =? 0 then mret ([], lft)
    else
      '(here, lft) ← read_chunk blk lft;
      '(out, lft) ← read_direct rest lft;
      mret (here ++ out, lft)
  end.

(** Entries [i, i + n) of a pointer table: stops at [left == 0] or a zero pointer. *)
Fixpoint read_table (n : nat) (i : Z) (buf : list Z) (lft : Z) : ST fs (list Z * Z) :=
  match n with
  | O => mret ([], lft)
  | S n =>
    if lft =? 0 then mret ([], lft)
    else
      let blk := peek_u32 (i * 4) buf in
      if blk =? 0 then mret ([], lft)
      else
        '(here, lft) ← read_chunk blk lft;
        '(out, lft) ← read_table n (i + 1) buf lft;
        mret (here ++ out, lft)
  end.

Fixpoint read_tables (n : nat) (i : Z) (buf : list Z) (lft : Z) : ST fs (list Z * Z) :=
  match n with
  | O => mret ([], lft)
  | S n =>
    if lft =? 0 then mret ([], lft)
    else
      let l1_blk := peek_u32 (i * 4) buf in
      if l1_blk =? 0 then mret ([], lft)
      else
        l1_buf ← read_block l1_blk;
        '(here, lft) ← read_table (Z.to_nat PTRS_PER_INDIRECT) 0 l1_buf lft;
        '(out, lft) ← read_tables n (i + 1) buf lft;
        mret (here ++ out, lft)
  end.

Definition read_file (ino : Z) : ST fs (list Z) :=
  i ← read_inode ino;
  lift (rassert (flags i =? F_FILE) "not a file") ≫= λ _,
  '(out1, lft) ← read_direct (dir_blocks i) (size i);
  '(out2, lft) ←
    (if (0 <? lft) && negb (indirect i =? 0) then
       ind_buf ← read_block (indirect i);
       read_table (Z.to_nat PTRS_PER_INDIRECT) 0 ind_buf lft
     else mret ([], lft));
  '(out3, lft) ←
    (if (0 <? lft) && negb (dindirect i =? 0) then
       dind_buf ← read_block (dindirect i);
       read_tables (Z.to_nat PTRS_PER_INDIRECT) 0 dind_buf lft
     else mret ([], lft));
  mret (out1 ++ out2 ++ out3).

Definition stat (ino : Z) : ST fs (bool * Z) :=
  i ← read_inode ino;
  mret (flags i =? F_DIR, size i).

(** ** Removing, renaming, moving *)

Fixpoint free_blocks (blks : list Z) : ST fs unit :=
  match blks with
  | [] => mret tt
  | blk :: rest => bitmap_set BLOCK_BM_BLOCK blk false ≫= λ _, free_blocks rest
  end.

(** Frees the pointers of a table up to the first zero. *)
Fixpoint free_table (n : nat) (i : Z) (buf : list Z) : ST fs unit :=
  match n with
  | O => mret tt
  | S n =>
    let blk := peek_u32 (i * 4) buf in
    if blk =? 0 then mret tt
    else bitmap_set BLOCK_BM_BLOCK blk false ≫= λ _, free_table n (i + 1) buf
  end.

Fixpoint free_tables (n : nat) (i : Z) (buf : list Z) : ST fs unit :=
  match n with
  | O => mret tt
  | S n =>
    let l1_blk := peek_u32 (i * 4) buf in
    if l1_blk =? 0 then mret tt
    else
      l1_buf ← read_block l1_blk;
      free_table (Z.to_nat PTRS_PER_INDIRECT) 0 l1_buf ≫= λ _,
      bitmap_set BLOCK_BM_BLOCK l1_blk false ≫= λ _,
      free_tables n (i + 1) buf
  end.

Definition free_data (i : Inode) : ST fs unit :=
  free_blocks (dir_blocks i) ≫= λ _,
  (if negb (indirect i =? 0) then
     ind_buf ← read_block (indirect i);
     free_table (Z.to_nat PTRS_PER_INDIRECT) 0 ind_buf ≫= λ _,
     bitmap_set BLOCK_BM_BLOCK (indirect i) false
   else mret tt) ≫= λ _,
  (if negb (dindirect i =? 0) then
     dind_buf ← read_block (dindirect i);
     free_tables (Z.to_nat PTRS_PER_INDIRECT) 0 dind_buf ≫= λ _,
     bitmap_set BLOCK_BM_BLOCK (dindirect i) false
   else mret tt).

(** Blanks the first entry of the directory that refers to [ino]. *)
Definition wipe_entry (parent_ino ino : Z) : ST fs bool :=
  parent ← read_inode parent_ino;
  r ← search_blocks (has_ino ino) (dir_blocks parent);
  match r with
  | Some (blk, i, _, buf) => write_block blk (put_entry buf i blank_entry) ≫= λ _, mret true
  | None => mret false
  end.

Definition remove (parent_ino : Z) (nm : list Z) : ST fs bool :=
  bump_generation ≫= λ _,
  r ← find_in_dir parent_ino nm;
  match r with
  | None => mret false
  | Some ino =>
    i ← read_inode ino;
    if ino =? ROOT_INO then mret false
    else
      busy ← (if flags i =? F_DIR then l ← list_dir ino; mret (negb (bool_decide (l = []))) else mret false);
      if (busy : bool) then mret false
      else
        free_data i ≫= λ _,
        bitmap_set INODE_BM_BLOCK ino false ≫= λ _,
        write_inode ino (set_flags F_FREE inode_default) ≫= λ _,
        wipe_entry parent_ino ino ≫= λ _,
        mret true
  end.

Definition rename (parent_ino : Z) (old_name new_name : list Z) : ST fs bool :=
  bump_generation ≫= λ _,
  taken ← find_in_dir parent_ino new_name;
  match taken with
  | Some _ => mret false
  | None =>
    if 27 <? len new_name then mret false
    else
      parent ← read_inode parent_ino;
      r ← search_blocks (names old_name) (dir_blocks parent);
      match r with
      | Some (blk, i, e, buf) =>
        write_block blk (put_entry buf i (new_entry (inode e) new_name)) ≫= λ _, mret true
      | None => mret false
      end
  end.

Definition move_entry (from_parent to_parent : Z) (nm : list Z) : ST fs bool :=
  bump_generation ≫= λ _,
  if from_parent =? to_parent then mret false
  else
    taken ← find_in_dir to_parent nm;
    match taken with
    | Some _ => mret false
    | None =>
      r ← find_in_dir from_parent nm;
      match r with
      | None => mret false
      | Some ino =>
        removed ← wipe_entry from_parent ino;
        if (removed : bool) then add_dir_entry to_parent nm ino ≫= λ _, mret true
        else mret false
      end
    end.

(** ** Copying: recursive over the source tree; [fuel] bounds the depth. *)

Fixpoint for_list {A S} (l : list A) (body : A → ST S unit) : ST S unit :=
  match l with
  | [] => mret tt
  | x :: l => body x ≫= λ _, for_list l body
  end.

Fixpoint copy_entry (fuel : nat) (from_parent to_parent : Z) (nm dest_name : list Z) : ST fs (option Z) :=
  match fuel with
  | O => panic "stack overflow"
  | S fuel =>
    taken ← find_in_dir to_parent dest_name;
    match taken with
    | Some _ => mret None
    | None =>
      src ← find_in_dir from_parent nm;
      match src with
      | None => mret None
      | Some src_ino =>
        if src_ino =? to_parent then mret None
        else
          i ← read_inode src_ino;
          if flags i =? F_DIR then
            new_ino ← create_dir to_parent dest_name;
            children ← list_dir src_ino;
            for_list children (λ c, copy_entry fuel src_ino new_ino (snd c) (snd c) ≫= λ _, mret tt) ≫= λ _,
            mret (Some new_ino)
          else
            data ← read_file src_ino;
            new_ino ← create_file to_parent dest_name;
            write_file new_ino data ≫= λ _,
            mret (Some new_ino)
      end
    end
  end.

(** Decimal digits of a [u32] as ASCII. *)
Fixpoint dec_digits (fuel : nat) (n : Z) (acc : list Z) : list Z :=
  match fuel with
  | O => acc
  | S fuel =>
    let acc := (0x30 + n mod 10) :: acc in
    if n / 10 =? 0 then acc else dec_digits fuel (n / 10) acc
  end.
Definition show_u32 (n : Z) : list Z := dec_digits 10 n [].

(** [format!("{} ({})", name, n)] *)
Definition numbered (nm : list Z) (n : Z) : list Z := nm ++ [0x20; 0x28] ++ show_u32 n ++ [0x29].

(** The retry loop: [n] grows to 100, then the copy is given up. *)
Fixpoint copy_unique_loop (tries : nat) (n : Z) (fuel : nat) (from_parent to_parent : Z)
    (nm candidate : list Z) : ST fs (option Z) :=
  match tries with
  | O => mret None
  | S tries =>
    r ← copy_entry fuel from_parent to_parent nm candidate;
    match r with
    | Some ino => mret (Some ino)
    | None =>
      let n := n + 1 in
      if 100 <? n then mret None
      else copy_unique_loop tries n fuel from_parent to_parent nm (numbered nm n)
    end
  end.

Definition copy_entry_unique (fuel : nat) (from_parent to_parent : Z) (nm : list Z) : ST fs (option Z) :=
  copy_unique_loop 101 0 fuel from_parent to_parent nm nm.
End hepfs.

Arguments fs D F : clear implicits.

(** ** A concrete drive: a disk with 4096-byte sectors kept in a map *)

Record ram_disk := mkDisk { rd_kind : dev_kind; rd_count : Z; rd_sectors : gmap Z (list Z) }.

Definition rd_sector (d : ram_disk) (lba : Z) : list Z :=
  resize (Z.to_nat 4096) 0 (u8 <$> default [] (rd_sectors d !! lba)).
Definition rd_byte (d : ram_disk) (o : Z) : Z :=
  default 0 (rd_sector d (o / 4096) !! Z.to_nat (o mod 4096)).
Definition rd_read (d : ram_disk) (lba count : Z) : option (list Z) :=
  if bool_decide (count = 1 ∧ 0 ≤ lba < rd_count d) then Some (rd_sector d lba) else None.
Definition rd_write (d : ram_disk) (lba count : Z) (l : list Z) : bool * ram_disk :=
  if bool_decide (count = 1 ∧ 0 ≤ lba < rd_count d)
  then (true, mkDisk (rd_kind d) (rd_count d) (<[lba := l]> (rd_sectors d)))
  else (false, d).

Lemma length_rd_sector d lba : length (rd_sector d lba) = Z.to_nat 4096.
Proof. apply length_resize. Qed.

Lemma rd_byte_range d o : is_byte (rd_byte d o).
Proof.
  unfold rd_byte. destruct (rd_sector d (o / 4096) !! _) as [x|] eqn:E; simpl; [|unfold is_u; lia].
  revert x E. apply Forall_lookup. unfold rd_sector. apply Forall_resize; [unfold is_u; lia|].
  apply Forall_fmap, Forall_true. intros z. by apply wrap_range.
Qed.

Lemma rd_read_law d lba count :
  0 ≤ lba → 0 < count → lba + count ≤ rd_count d → 0 < 4096 → count * 4096 ≤ 4096 →
  rd_read d lba count = Some (rd_byte d <$> seqZ (lba * 4096) (count * 4096)).
Proof.
  intros. unfold rd_read. assert (count = 1) as -> by lia. rewrite bool_decide_true by lia.
  f_equal. apply list_eq_same_length with (n := Z.to_nat 4096);
    [by rewrite length_fmap, length_seqZ|apply length_rd_sector|].
  intros i x y Hi Hx Hy. apply list_lookup_fmap_Some in Hy as (z & -> & Hz).
  apply lookup_seqZ in Hz as [-> Hlt]. unfold rd_byte.
  replace ((lba * 4096 + Z.of_nat i) / 4096) with lba by dlia.
  replace ((lba * 4096 + Z.of_nat i) mod 4096) with (Z.of_nat i) by dlia.
  by rewrite Nat2Z.id, Hx.
Qed.

Lemma rd_write_law d lba count l :
  0 ≤ lba → 0 < count → lba + count ≤ rd_count d → 0 < 4096 → count * 4096 ≤ 4096 →
  len l = count * 4096 → Forall is_byte l →
  ∃ d', rd_write d lba count l = (true, d') ∧ rd_kind d' = rd_kind d ∧ 4096 = 4096 ∧
    rd_count d' = rd_count d ∧
    ∀ o, 0 ≤ o → rd_byte d' o =
      if bool_decide (lba * 4096 ≤ o < lba * 4096 + len l)
      then default 0 (l !! Z.to_nat (o - lba * 4096)) else rd_byte d o.
Proof.
  intros Hl Hc Hr _ Hs Hlen Hb. unfold rd_write. assert (count = 1) as -> by lia.
  rewrite bool_decide_true by lia. eexists. split; [done|]. do 3 (split; [done|]).
  intros o Ho. unfold rd_byte, rd_sector. simpl.
  case_bool_decide as E.
  - replace (o / 4096) with lba by dlia. rewrite lookup_insert_eq. simpl.
    replace (o mod 4096) with (o - lba * 4096) by dlia.
    assert (u8 <$> l = l) as ->.
    { clear -Hb. induction Hb as [|x l Hx Hl IH]; [done|]. csimpl. by rewrite IH, wrap_small. }
    rewrite lookup_resize; [done|unfold len in *; lia..].
  - rewrite lookup_insert_ne; [done|]. intros ->. apply E. rewrite Hlen. dlia.
Qed.

#[export] Instance ram_drive : Drive ram_disk := {|
  dr_kind := rd_kind;
  dr_lba_size _ := 4096;
  dr_lba_count := rd_count;
  dr_read := rd_read;
  dr_write := rd_write;
  dr_byte := rd_byte;
  dr_byte_range := rd_byte_range;
  dr_read_law := rd_read_law;
  dr_write_law := rd_write_law
|}.

(** A 64-block disk of stale bytes. *)
Definition demo_disk : fs ram_disk pmm :=
  mkFs (mkDisk Nvme 64 (<[40 := replicate (Z.to_nat 4096) 0xAA]> ∅)) demo_frames 0.
