(* ===== verification/HepfsBlock.v ===== *)
(** HepFS, block layer: what a read or write of a block does to the disk, the
    bitmaps as sets of used indices, the inode table as a map from inode
    numbers to inodes, and the specifications of [bitmap_alloc],
    [bitmap_set], [read_inode], [write_inode], [alloc_block] and
    [alloc_inode] over those views. *)

From stdpp Require Import prelude list numbers strings gmap.
From S2P Require Import Prelude Pmm Hepfs.

Local Open Scope Z_scope.

(** ** Views: the disk as a function from block numbers to pages *)

Abbreviation view := (Z → list Z).

Definition upd (v : view) (b : Z) (p : list Z) : view := λ b', if decide (b' = b) then p else v b'.

Lemma upd_eq v b p : upd v b p b = p.
Proof. unfold upd. by rewrite decide_True. Qed.
Lemma upd_ne v b p b' : b' ≠ b → upd v b p b' = v b'.
Proof. intros. unfold upd. by rewrite decide_False. Qed.

Definition is_page (p : list Z) : Prop := length p = Z.to_nat BLOCK_SIZE ∧ Forall is_byte p.

(** Bit [i] of the bitmap that starts at block [start]. *)
Definition bmbit (v : view) (start i : Z) : bool :=
  Z.testbit (default 0 (v (start + i / (BLOCK_SIZE * 8)) !! Z.to_nat ((i / 8) mod BLOCK_SIZE))) (i mod 8).
Definition used (v : view) (b : Z) : bool := bmbit v BLOCK_BM_BLOCK b.
Definition iused (v : view) (i : Z) : bool := bmbit v INODE_BM_BLOCK i.

Definition inode_at (v : view) (ino : Z) : Inode :=
  inode_of_bytes (peek (inode_off ino) 128 (v (inode_block ino))).

(** Blocks the block bitmap describes. *)
Definition BM_BITS : Z := BLOCK_BM_LEN * BLOCK_SIZE * 8.

(** ** Bits of a page *)

Definition pbit (p : list Z) (i : Z) : bool := Z.testbit (default 0 (p !! Z.to_nat (i / 8))) (i mod 8).

Lemma bmbit_pbit v start i :
  0 ≤ i → bmbit v start i = pbit (v (start + i / (BLOCK_SIZE * 8))) (i mod (BLOCK_SIZE * 8)).
Proof.
  intros. unfold bmbit, pbit, BLOCK_SIZE.
  replace ((i mod (4096 * 8)) / 8) with ((i / 8) mod 4096) by dlia.
  by replace ((i mod (4096 * 8)) mod 8) with (i mod 8) by dlia.
Qed.

Lemma bit_index i y : 0 ≤ i → 0 ≤ y → (Z.to_nat (i / 8) = Z.to_nat y ∧ i mod 8 = y mod 8) → i / 8 = y.
Proof. intros ?? [E _]. apply Z2Nat.inj in E; dlia. Qed.

(** Flipping one bit of a byte of a page changes that index only. *)
Lemma pbit_insert p byte b x x' i :
  0 ≤ byte < len p → 0 ≤ b < 8 → p !! Z.to_nat byte = Some x → 0 ≤ i →
  (∀ j, 0 ≤ j → j ≠ b → Z.testbit x' j = Z.testbit x j) →
  pbit (<[Z.to_nat byte := x']> p) i = if bool_decide (i = byte * 8 + b) then Z.testbit x' b else pbit p i.
Proof.
  intros Hby Hb Hx Hi Ho. unfold pbit. apply lookup_lt_Some in Hx as Hlt.
  destruct (decide (i / 8 = byte)) as [<-|Hne].
  - rewrite list_lookup_insert_eq by done. rewrite Hx. simpl.
    case_bool_decide as E; [by replace (i mod 8) with b by dlia|].
    apply Ho; [dlia|]. intros <-. apply E. dlia.
  - rewrite list_lookup_insert_ne by (intros E; apply Z2Nat.inj in E; dlia).
    rewrite bool_decide_false; [done|]. dlia.
Qed.

Lemma scan_bits_spec x base skip n b :
  0 ≤ b →
  match scan_bits x base skip n b with
  | Some r => b ≤ r < b + Z.of_nat n ∧ Z.testbit x r = false ∧ skip ≤ base + r ∧
      ∀ j, b ≤ j < r → Z.testbit x j = true ∨ base + j < skip
  | None => ∀ j, b ≤ j < b + Z.of_nat n → Z.testbit x j = true ∨ base + j < skip
  end.
Proof.
  revert b. induction n as [|n IH]; intros b Hb; cbn [scan_bits]; [lia|].
  rewrite land_bit_eqb by done.
  destruct (negb (Z.testbit x b) && negb (base + b <? skip)) eqn:E.
  - apply andb_true_iff in E as [E1 E2]. apply negb_true_iff in E1, E2. apply Z.ltb_ge in E2.
    split; [lia|]. split; [done|]. split; [lia|]. lia.
  - assert (Z.testbit x b = true ∨ base + b < skip) as Hhere.
    { apply andb_false_iff in E as [E|E]; apply negb_false_iff in E; [by left|]. right. by apply Z.ltb_lt. }
    specialize (IH (b + 1) ltac:(lia)). destruct (scan_bits x base skip n (b + 1)) as [r|].
    + destruct IH as (Hr & Ht & Hs & Hlow). split; [lia|]. do 2 (split; [done|]).
      intros j Hj. destruct (decide (j = b)) as [->|]; [done|]. apply Hlow. lia.
    + intros j Hj. destruct (decide (j = b)) as [->|]; [done|]. apply IH. lia.
Qed.

Lemma scan_bytes_spec full buf base skip byte :
  0 ≤ byte → buf = drop (Z.to_nat byte) full → Forall is_byte full →
  match scan_bytes buf base skip byte with
  | Some (y, b) => byte ≤ y < len full ∧ 0 ≤ b < 8 ∧ pbit full (y * 8 + b) = false ∧
      skip ≤ base + (y * 8 + b) ∧
      ∀ j, byte * 8 ≤ j < y * 8 + b → pbit full j = true ∨ base + j < skip
  | None => ∀ j, byte * 8 ≤ j < len full * 8 → pbit full j = true ∨ base + j < skip
  end.
Proof.
  revert byte. induction buf as [|x buf IH]; intros byte Hby Hbuf Hall; cbn [scan_bytes].
  - intros j Hj. pose proof (f_equal length Hbuf) as E. rewrite length_drop in E. simpl in E. unfold len in Hj. lia.
  - assert (full !! Z.to_nat byte = Some x) as Hx.
    { rewrite <- (Nat.add_0_r (Z.to_nat byte)), <- lookup_drop, <- Hbuf. done. }
    assert (buf = drop (Z.to_nat (byte + 1)) full) as Hbuf'.
    { rewrite Z2Nat.inj_add by lia. rewrite <- drop_drop, <- Hbuf. done. }
    apply lookup_lt_Some in Hx as Hlt.
    assert (∀ j, byte * 8 ≤ j < byte * 8 + 8 → pbit full j = Z.testbit x (j - byte * 8)) as Hbits.
    { intros j Hj. unfold pbit. replace (j / 8) with byte by dlia. rewrite Hx. simpl. f_equal. dlia. }
    specialize (IH (byte + 1) ltac:(lia) Hbuf' Hall).
    assert (∀ P : Z → Prop, (∀ j, 0 ≤ j < 8 → P (byte * 8 + j)) → ∀ j, byte * 8 ≤ j < byte * 8 + 8 → P j) as Hshift.
    { intros P HP j Hj. replace j with (byte * 8 + (j - byte * 8)) by lia. apply HP. lia. }
    assert ((∀ j, 0 ≤ j < 8 → Z.testbit x j = true ∨ base + (byte * 8 + j) < skip) →
      match scan_bytes buf base skip (byte + 1) with
      | Some (y, b) => byte ≤ y < len full ∧ 0 ≤ b < 8 ∧ pbit full (y * 8 + b) = false ∧
          skip ≤ base + (y * 8 + b) ∧ ∀ j, byte * 8 ≤ j < y * 8 + b → pbit full j = true ∨ base + j < skip
      | None => ∀ j, byte * 8 ≤ j < len full * 8 → pbit full j = true ∨ base + j < skip
      end) as Hskip.
    { intros Hfull.
      assert (∀ j, byte * 8 ≤ j < byte * 8 + 8 → pbit full j = true ∨ base + j < skip) as Hhere.
      { intros j Hj. rewrite Hbits by done. specialize (Hfull (j - byte * 8)).
        replace (base + (byte * 8 + (j - byte * 8))) with (base + j) in Hfull by lia. apply Hfull. lia. }
      destruct (scan_bytes buf base skip (byte + 1)) as [[y b]|].
      - destruct IH as (Hy & Hb & Hp & Hs & Hlow). split; [lia|]. do 3 (split; [done|]).
        intros j Hj. destruct (decide (j < byte * 8 + 8)); [apply Hhere; lia|]. apply Hlow. lia.
      - intros j Hj. destruct (decide (j < byte * 8 + 8)); [apply Hhere; lia|]. apply IH. lia. }
    destruct (Z.eqb_spec x 0xFF) as [->|].
    + apply Hskip. intros j Hj. left. change 0xFF with (Z.ones 8). apply Z.ones_spec_low. lia.
    + pose proof (scan_bits_spec x (base + byte * 8) skip 8 0 ltac:(lia)) as Hb.
      destruct (scan_bits x (base + byte * 8) skip 8 0) as [b|].
      * destruct Hb as (Hb & Ht & Hs & Hlow). unfold len. split; [lia|]. split; [lia|].
        split; [rewrite Hbits by lia; by replace (byte * 8 + b - byte * 8) with b by lia|].
        split; [lia|]. intros j Hj. rewrite Hbits by lia. specialize (Hlow (j - byte * 8)).
        replace (base + byte * 8 + (j - byte * 8)) with (base + j) in Hlow by lia. apply Hlow. lia.
      * apply Hskip. intros j Hj. rewrite Z.add_assoc. apply Hb. lia.
Qed.

(** ** Inodes as bytes *)

Definition inode_wf (i : Inode) : Prop :=
  (is_u 32 (flags i) ∧ is_u 64 (size i) ∧ is_u 32 (nblocks i) ∧ is_u 64 (ctime i) ∧ is_u 64 (mtime i)) ∧
  (length (direct i) = 12%nat ∧ Forall (is_u 32) (direct i)) ∧
  is_u 32 (indirect i) ∧ is_u 32 (dindirect i) ∧ length (ipad i) = 32%nat ∧ Forall is_byte (ipad i).

Lemma inode_default_wf : inode_wf inode_default.
Proof. repeat split; simpl; try (unfold is_u; lia); repeat constructor; unfold is_u; lia. Qed.

Lemma length_mjoin_le n l : length (mjoin (le_bytes n <$> l)) = (n * length l)%nat.
Proof. induction l as [|x l IH]; csimpl; [lia|]. rewrite length_app, length_le_bytes. unfold mjoin in *. lia. Qed.

Lemma length_inode_bytes i : inode_wf i → length (inode_bytes i) = 128%nat.
Proof.
  intros (_ & [Hd _] & _ & _ & Hp & _). unfold inode_bytes.
  repeat rewrite length_app. rewrite !length_le_bytes, length_mjoin_le, !length_replicate. lia.
Qed.

Lemma inode_bytes_byte i : inode_wf i → Forall is_byte (inode_bytes i).
Proof.
  intros (_ & [Hd _] & _ & _ & _ & Hp). unfold inode_bytes. rewrite !Forall_app.
  repeat split; try apply le_bytes_byte; try done; try (apply Forall_replicate; unfold is_u; lia).
  apply Forall_join. apply Forall_fmap, Forall_true. intros. apply le_bytes_byte.
Qed.

Lemma le_val_4 z : is_u 32 z → le_val (le_bytes 4 z) = z.
Proof. apply (le_val_bytes 4). Qed.
Lemma le_val_8 z : is_u 64 z → le_val (le_bytes 8 z) = z.
Proof. apply (le_val_bytes 8). Qed.

(** Reading a field that starts where a prefix ends. *)
Lemma peek_skip (l1 l2 : list Z) off n :
  Z.of_nat (length l1) ≤ off → peek off n (l1 ++ l2) = peek (off - Z.of_nat (length l1)) n l2.
Proof.
  intros. unfold peek, sub. rewrite drop_app_ge by lia. f_equal. f_equal. lia.
Qed.
Lemma peek_here (l1 l2 : list Z) off n : off = 0 → length l1 = n → peek off n (l1 ++ l2) = l1.
Proof. intros -> <-. unfold peek, sub. change (Z.to_nat 0) with 0%nat. rewrite drop_0. apply take_app_length. Qed.

Ltac field_len := rewrite ?length_le_bytes, ?length_replicate; lia.
Ltac field_skip := rewrite peek_skip by field_len.

Lemma peek_mjoin l n k :
  (k < length l)%nat → peek (Z.of_nat (n * k)) n (mjoin (le_bytes n <$> l)) = le_bytes n (default 0 (l !! k)).
Proof.
  revert k. induction l as [|x l IH]; intros k Hk; [simpl in Hk; lia|]. destruct k as [|k].
  - rewrite Nat.mul_0_r. by apply peek_here, length_le_bytes.
  - csimpl. rewrite peek_skip by (rewrite length_le_bytes; lia). rewrite length_le_bytes.
    replace (Z.of_nat (n * S k) - Z.of_nat n) with (Z.of_nat (n * k)) by lia. apply IH. simpl in Hk. lia.
Qed.

Lemma peek_app_l (l1 l2 : list Z) off n :
  0 ≤ off → off + Z.of_nat n ≤ Z.of_nat (length l1) → peek off n (l1 ++ l2) = peek off n l1.
Proof.
  intros. unfold peek, sub. rewrite drop_app_le by lia. rewrite take_app_le; [done|]. rewrite length_drop. lia.
Qed.

Lemma inode_of_bytes_bytes i : inode_wf i → inode_of_bytes (inode_bytes i) = i.
Proof.
  intros ((Hf & Hs & Hn & Hc & Hm) & [Hd Hdb] & Hi & Hdi & Hp & _).
  destruct i as [f sz nb ct mt dir ind dind pad]; simpl in *. unfold inode_of_bytes, inode_bytes.
  cbn [flags size nblocks ctime mtime direct indirect dindirect ipad].
  assert (length (mjoin (le_bytes 4 <$> dir)) = 48%nat) as Hj by (rewrite length_mjoin_le; lia).
  unfold peek_u32, peek_u64. f_equal.
  - rewrite peek_here by field_len. by apply le_val_4.
  - do 2 field_skip. rewrite peek_here by field_len. by apply le_val_8.
  - do 3 field_skip. rewrite peek_here by field_len. by apply le_val_4.
  - do 5 field_skip. rewrite peek_here by field_len. by apply le_val_8.
  - do 6 field_skip. rewrite peek_here by field_len. by apply le_val_8.
  - apply list_eq_same_length with (n := 12%nat); [done|by rewrite length_fmap, length_seq|].
    intros k x y Hk Hx Hy. apply list_lookup_fmap_Some in Hx as (k' & -> & Hk').
    apply lookup_seq in Hk' as [-> _]. rewrite Nat.add_0_l.
    do 7 field_skip. rewrite !length_le_bytes, !length_replicate, peek_app_l by (rewrite ?Hj; lia).
    replace (40 + 4 * Z.of_nat k - _ - _ - _ - _ - _ - _ - _) with (Z.of_nat (4 * k)) by lia.
    rewrite peek_mjoin by lia. rewrite Hy. simpl default. apply le_val_4.
    by eapply Forall_lookup_1 in Hdb.
  - do 7 field_skip. rewrite (peek_skip (mjoin _)), Hj by (rewrite ?Hj; field_len).
    rewrite peek_here by field_len. by apply le_val_4.
  - do 7 field_skip. rewrite (peek_skip (mjoin _)), Hj by (rewrite ?Hj; field_len).
    field_skip. rewrite peek_here by field_len. by apply le_val_4.
  - do 7 field_skip. rewrite (peek_skip (mjoin _)), Hj by (rewrite ?Hj; field_len). do 2 field_skip.
    rewrite <- (app_nil_r pad) at 1. apply peek_here; [field_len|done].
Qed.

Lemma peek_byte off n l : Forall is_byte l → Forall is_byte (peek off n l).
Proof. apply Forall_sub. Qed.

Lemma peek_u32_range off l : Forall is_byte l → is_u 32 (peek_u32 off l).
Proof.
  intros Hl. unfold peek_u32. pose proof (le_val_range (peek off 4 l) (peek_byte _ _ _ Hl)) as Hr.
  assert (length (peek off 4 l) ≤ 4)%nat by (unfold peek, sub; rewrite length_take; lia).
  unfold is_u. split; [lia|]. eapply Z.lt_le_trans; [apply Hr|]. apply Z.pow_le_mono_r; lia.
Qed.
Lemma peek_u64_range off l : Forall is_byte l → is_u 64 (peek_u64 off l).
Proof.
  intros Hl. unfold peek_u64. pose proof (le_val_range (peek off 8 l) (peek_byte _ _ _ Hl)) as Hr.
  assert (length (peek off 8 l) ≤ 8)%nat by (unfold peek, sub; rewrite length_take; lia).
  unfold is_u. split; [lia|]. eapply Z.lt_le_trans; [apply Hr|]. apply Z.pow_le_mono_r; lia.
Qed.

Lemma inode_of_bytes_wf l : length l = 128%nat → Forall is_byte l → inode_wf (inode_of_bytes l).
Proof.
  intros Hl Hb. unfold inode_wf, inode_of_bytes; simpl.
  repeat split; try (apply peek_u32_range || apply peek_u64_range; done).
  - repeat constructor; apply peek_u32_range; done.
  - unfold peek. rewrite length_sub; [done|]. rewrite Hl. lia.
  - by apply peek_byte.
Qed.

Lemma inode_at_wf v ino : 0 ≤ ino → is_page (v (inode_block ino)) → inode_wf (inode_at v ino).
Proof.
  intros Hi [Hl Hb]. apply inode_of_bytes_wf; [|by apply peek_byte].
  unfold peek. apply length_sub. rewrite Hl. unfold inode_off, INODES_PER_BLK, BLOCK_SIZE. change (4096 / 128) with 32. dlia.
Qed.

(** ** Free data blocks below [c] *)

Definition room (v : view) (c : Z) : Z :=
  len (filter (λ b, used v b = false) (seqZ DATA_BLOCK_START (c - DATA_BLOCK_START))).

Lemma room_pos v c : 1 ≤ room v c → ∃ b, DATA_BLOCK_START ≤ b < c ∧ used v b = false.
Proof.
  unfold room, len. destruct (filter _ _) as [|b l] eqn:E; simpl; [lia|]. intros _.
  assert (b ∈ b :: l) as Hin by left. rewrite <- E in Hin. apply list_elem_of_filter in Hin as [Hu Hin].
  apply elem_of_seqZ in Hin. exists b. split; [lia|done].
Qed.

Lemma room_le v c : c ≤ BM_BITS → room v c ≤ BM_BITS.
Proof.
  intros. unfold room, len. pose proof (length_filter (λ b, used v b = false)
    (seqZ DATA_BLOCK_START (c - DATA_BLOCK_START))) as Hl.
  rewrite length_seqZ in Hl. unfold BM_BITS, BLOCK_BM_LEN, BLOCK_SIZE, DATA_BLOCK_START in *. lia.
Qed.

Lemma filter_lose_one (P Q : Z → Prop) `{!∀ x, Decision (P x)} `{!∀ x, Decision (Q x)} (l : list Z) b :
  NoDup l → (∀ x, x ∈ l → x ≠ b → P x → Q x) → (length (filter P l) ≤ S (length (filter Q l)))%nat.
Proof.
  induction 1 as [|x l Hx Hnd IH]; intros Hpq; [simpl; lia|].
  destruct (decide (x = b)) as [->|Hne].
  - assert (length (filter P l) ≤ length (filter Q l))%nat.
    { clear IH Hnd. induction l as [|y l IHl]; [done|]. rewrite !filter_cons.
      apply not_elem_of_cons in Hx as [Hy Hx].
      assert (length (filter P l) ≤ length (filter Q l))%nat.
      { apply IHl; [done|]. intros z Hz. apply Hpq. set_solver. }
      destruct (decide (P y)); [|destruct (decide (Q y)); simpl; lia].
      rewrite decide_True; [simpl; lia|]. apply Hpq; [set_solver|done|done]. }
    rewrite !filter_cons. destruct (decide (P b)), (decide (Q b)); simpl; lia.
  - assert (length (filter P l) ≤ S (length (filter Q l)))%nat.
    { apply IH. intros z Hz. apply Hpq. set_solver. }
    rewrite !filter_cons. destruct (decide (P x)); [|destruct (decide (Q x)); simpl; lia].
    rewrite decide_True; [simpl; lia|]. apply Hpq; [set_solver|done|done].
Qed.

Lemma room_use v v' c b :
  (∀ j, 0 ≤ j < c → used v' j = (if bool_decide (j = b) then true else used v j)) → room v c - 1 ≤ room v' c.
Proof.
  intros Hu. unfold room, len.
  pose proof (filter_lose_one (λ b, used v b = false) (λ b, used v' b = false)
    (seqZ DATA_BLOCK_START (c - DATA_BLOCK_START)) b (NoDup_seqZ _ _)) as Hl.
  enough (length (filter (λ b, used v b = false) (seqZ DATA_BLOCK_START (c - DATA_BLOCK_START))) ≤
    S (length (filter (λ b, used v' b = false) (seqZ DATA_BLOCK_START (c - DATA_BLOCK_START)))))%nat by lia.
  apply Hl. intros x Hx Hne Hf. apply elem_of_seqZ in Hx. unfold DATA_BLOCK_START in Hx.
  rewrite Hu by lia. by rewrite bool_decide_false.
Qed.

Lemma filter_ext_in {A} (P Q : A → Prop) `{!∀ x, Decision (P x)} `{!∀ x, Decision (Q x)} (l : list A) :
  (∀ x, x ∈ l → P x ↔ Q x) → filter P l = filter Q l.
Proof.
  induction l as [|x l IH]; intros Hpq; [done|]. rewrite !filter_cons.
  rewrite IH by (intros; apply Hpq; set_solver). pose proof (Hpq x ltac:(set_solver)).
  destruct (decide (P x)), (decide (Q x)); tauto.
Qed.

Lemma room_ext v v' c : (∀ j, 0 ≤ j < c → used v' j = used v j) → room v' c = room v c.
Proof.
  intros Hu. unfold room. f_equal. apply filter_ext_in. intros x Hx. apply elem_of_seqZ in Hx.
  unfold DATA_BLOCK_START in Hx. rewrite Hu by lia. done.
Qed.

Section block.
Context {D F : Type} `{!Drive D} `{!FrameSource F}.
Implicit Types (s : fs D F) (d : D).

Definition rd d (b : Z) : list Z := dr_byte d <$> seqZ (b * BLOCK_SIZE) BLOCK_SIZE.
Definition bl s : view := rd (dev s).

Definition geom d : Prop :=
  0 < dr_lba_size d ∧ BLOCK_SIZE mod dr_lba_size d = 0 ∧ is_u 64 (dr_lba_count d).
Definition nblk s : Z := dr_lba_count (dev s) / (BLOCK_SIZE / dr_lba_size (dev s)).
(** Data blocks are below both the disk size and the bitmap's reach. *)
Definition cap s : Z := Z.min (nblk s) BM_BITS.

Definition ok s : Prop := geom (dev s) ∧ fs_inv (frames s).
Definition avail s : Z := fs_avail (frames s).

(** [s'] follows [s]: still sound, same disk geometry, at most [k] frames spent. *)
Definition step (k : Z) s s' : Prop :=
  ok s' ∧ nblk s' = nblk s ∧ avail s - k ≤ avail s' ∧ GENERATION s' = GENERATION s.

Lemma step_refl s : ok s → step 0 s s.
Proof. intros. unfold step. split_and!; auto with lia. Qed.

Lemma step_trans k1 k2 k s1 s2 s3 : step k1 s1 s2 → step k2 s2 s3 → k1 + k2 ≤ k → step k s1 s3.
Proof. intros (?&?&?&?) (?&?&?&?) ?. unfold step. split; [done|]. split; [congruence|]. split; [lia|congruence]. Qed.

Lemma step_ok k s s' : step k s s' → ok s'.
Proof. by intros (?&_). Qed.
Lemma step_nblk k s s' : step k s s' → nblk s' = nblk s.
Proof. by intros (_&?&_). Qed.
Lemma step_cap k s s' : step k s s' → cap s' = cap s.
Proof. intros Hs. unfold cap. by rewrite (step_nblk _ _ _ Hs). Qed.
Lemma step_avail k s s' : step k s s' → avail s - k ≤ avail s'.
Proof. by intros (_&_&?&_). Qed.

Lemma rd_page d b : is_page (rd d b).
Proof.
  split; unfold rd.
  - by rewrite length_fmap, length_seqZ.
  - apply Forall_fmap, Forall_true. intros. apply dr_byte_range.
Qed.

Lemma bl_page s b : is_page (bl s b).
Proof. apply rd_page. Qed.

Lemma rd_lookup d b i : 0 ≤ i < BLOCK_SIZE → rd d b !! Z.to_nat i = Some (dr_byte d (b * BLOCK_SIZE + i)).
Proof.
  intros. unfold rd. rewrite list_lookup_fmap, lookup_seqZ_lt by lia. simpl. by rewrite Z2Nat.id by lia.
Qed.

Lemma geom_spb d : geom d →
  0 < BLOCK_SIZE / dr_lba_size d ≤ 4096 ∧ BLOCK_SIZE / dr_lba_size d * dr_lba_size d = BLOCK_SIZE.
Proof.
  intros (Hs & Hm & _). unfold BLOCK_SIZE in *. pose proof (Z.div_mod 4096 (dr_lba_size d)). nia.
Qed.

Lemma block_lba s b : geom (dev s) → 0 ≤ b < nblk s →
  let spb := BLOCK_SIZE / dr_lba_size (dev s) in
  u64 (b * spb) = b * spb ∧ b * spb + spb ≤ dr_lba_count (dev s).
Proof.
  intros Hg Hb spb. destruct (geom_spb _ Hg) as [Hspb Hmul]. destruct Hg as (Hs & Hm & Hc).
  unfold nblk in Hb. fold spb in Hb, Hspb, Hmul.
  pose proof (Z.mul_div_le (dr_lba_count (dev s)) spb ltac:(lia)).
  assert (b * spb + spb ≤ dr_lba_count (dev s)) by nia. split; [|done].
  apply wrap_small. unfold is_u in *. nia.
Qed.

Lemma spb_spec s : geom (dev s) →
  sectors_per_block s = Ok (BLOCK_SIZE / dr_lba_size (dev s), s).
Proof.
  intros Hg. destruct (geom_spb _ Hg) as [Hspb _]. destruct Hg as (Hs & _). unfold sectors_per_block.
  destruct (Z.eqb_spec (dr_lba_size (dev s)) 0); [lia|].
  rewrite wrap_small by (unfold is_u; lia). done.
Qed.

Lemma page_alloc_spec s : ok s → 1 ≤ avail s →
  wp page_alloc s (λ p s', p = zero_page ∧ dev s' = dev s ∧ step 1 s s').
Proof.
  intros [Hg Hf] Ha. unfold wp, page_alloc, avail in *. pose proof (fs_alloc_law (frames s) Hf) as L.
  destruct (fs_alloc (frames s)) as [[a|] f]; [|lia].
  destruct L as (Hf' & _ & Hav & _). split; [done|]. split; [done|].
  unfold step, ok, nblk, avail. simpl. do 2 (split; [done|]). split; [lia|done].
Qed.

Lemma zero_page_page : is_page zero_page.
Proof.
  unfold zero_page. split; [by rewrite length_replicate|]. apply Forall_replicate. unfold is_u. lia.
Qed.

Lemma read_block_spec s b : ok s → 0 ≤ b < nblk s → 1 ≤ avail s →
  wp (read_block b) s (λ p s', p = bl s b ∧ dev s' = dev s ∧ step 1 s s').
Proof.
  intros Hok Hb Ha. unfold read_block. wp_step page_alloc_spec; [done..|].
  intros p s1 (-> & Hd & Hs1). assert (geom (dev s1)) as Hg1 by apply Hs1.
  apply wp_bind. eapply wp_ok; [by apply spb_spec|].
  destruct (geom_spb _ Hg1) as [Hspb Hmul].
  destruct (block_lba s1 b Hg1) as [-> Hr]; [by rewrite (step_nblk _ _ _ Hs1)|].
  unfold wp, read_blocks. rewrite dr_read_law; [|nia|lia|done|apply Hg1|unfold BLOCK_SIZE in *; lia].
  split; [|by split]. unfold bl, rd. rewrite splice_all.
  - rewrite <- Z.mul_assoc, Hmul, Hd. done.
  - rewrite length_fmap, length_seqZ, Hmul. unfold zero_page. by rewrite length_replicate.
Qed.

Lemma write_block_spec s b p : ok s → 0 ≤ b < nblk s → is_page p →
  wp (write_block b p) s (λ _ s', step 0 s s' ∧ ∀ b', 0 ≤ b' → bl s' b' = upd (bl s) b p b').
Proof.
  intros [Hg Hf] Hb [Hlen Hbytes]. unfold write_block. apply wp_bind. eapply wp_ok; [by apply spb_spec|].
  destruct (geom_spb _ Hg) as [Hspb Hmul]. destruct (block_lba s b Hg Hb) as [-> Hr].
  unfold wp, write_blocks. rewrite Hmul, firstn_all2 by lia.
  destruct (dr_write_law (dev s) (b * (BLOCK_SIZE / dr_lba_size (dev s))) (BLOCK_SIZE / dr_lba_size (dev s)) p)
    as (d' & -> & Hk & Hls & Hlc & Hbyte); [nia|lia|done|apply Hg|unfold BLOCK_SIZE in *; lia| |done|].
  { unfold len. rewrite Hlen, Hmul. unfold BLOCK_SIZE. lia. }
  split.
  - unfold step, ok, nblk, avail, geom. simpl. rewrite Hls, Hlc. split; [split; [exact Hg|exact Hf]|]. by split; [|split; [lia|]].
  - intros b' Hb'. unfold bl, upd. simpl. destruct (rd_page d' b') as [Hl' _].
    apply list_eq_same_length with (n := Z.to_nat BLOCK_SIZE); [|done|].
    { case_decide; [done|]. apply rd_page. }
    intros i x y Hi Hx. rewrite <- (Nat2Z.id i) in Hx |- *.
    rewrite rd_lookup in Hx by lia. injection Hx as <-.
    rewrite Hbyte by (unfold BLOCK_SIZE; lia).
    replace (len p) with BLOCK_SIZE by (unfold len, BLOCK_SIZE in *; lia).
    rewrite <- Z.mul_assoc, Hmul. case_decide as E.
    + subst b'. rewrite bool_decide_true by lia. intros Hy.
      replace (b * BLOCK_SIZE + Z.of_nat i - b * BLOCK_SIZE) with (Z.of_nat i) by lia. by rewrite Hy.
    + rewrite bool_decide_false by (unfold BLOCK_SIZE in *; nia).
      rewrite rd_lookup by lia. congruence.
Qed.
(** ** Bitmap operations *)

(** Bit [i] of a bitmap becomes [b]; the rest of the disk stays. *)
Definition bit_set_to (v v' : view) (start i : Z) (b : bool) : Prop :=
  (∀ j, 0 ≤ j → bmbit v' start j = if bool_decide (j = i) then b else bmbit v start j) ∧
  ∀ blk, 0 ≤ blk → blk ≠ start + i / (BLOCK_SIZE * 8) → v' blk = v blk.

Lemma set_bit_page v v' start i x x' b :
  0 ≤ start → 0 ≤ i →
  v (start + i / (BLOCK_SIZE * 8)) !! Z.to_nat ((i / 8) mod BLOCK_SIZE) = Some x →
  Z.testbit x' (i mod 8) = b → (∀ j, 0 ≤ j → j ≠ i mod 8 → Z.testbit x' j = Z.testbit x j) →
  (∀ blk, 0 ≤ blk → v' blk = upd v (start + i / (BLOCK_SIZE * 8))
     (<[Z.to_nat ((i / 8) mod BLOCK_SIZE) := x']> (v (start + i / (BLOCK_SIZE * 8)))) blk) →
  bit_set_to v v' start i b.
Proof.
  intros Hst Hi Hx Hb Ho Hv. assert (0 < BLOCK_SIZE) by done. split.
  - intros j Hj. rewrite !bmbit_pbit by done.
    rewrite Hv by (unfold BLOCK_SIZE; dlia). destruct (decide (j / (BLOCK_SIZE * 8) = i / (BLOCK_SIZE * 8))) as [E|E].
    + rewrite E, upd_eq. apply lookup_lt_Some in Hx as Hlt.
      rewrite (pbit_insert _ _ (i mod 8) x); [|unfold len, BLOCK_SIZE in *; dlia|dlia|done|unfold BLOCK_SIZE; dlia|done].
      rewrite Hb. unfold BLOCK_SIZE in *. destruct (decide (j = i)) as [->|].
      * rewrite !bool_decide_true by dlia. done.
      * rewrite !bool_decide_false by dlia. done.
    + rewrite upd_ne by lia. rewrite bool_decide_false; [done|]. intros ->. by apply E.
  - intros blk Hblk Hne. rewrite Hv by done. by apply upd_ne.
Qed.

Lemma page_insert p k x : is_page p → is_byte x → is_page (<[k := x]> p).
Proof. intros [Hl Hb] Hx. split; [by rewrite length_insert|]. by apply Forall_insert. Qed.

Lemma page_byte s b k : 0 ≤ k < BLOCK_SIZE →
  ∃ x, idx (bl s b) k = Ok x ∧ bl s b !! Z.to_nat k = Some x ∧ is_byte x.
Proof.
  intros Hk. destruct (bl_page s b) as [Hlen Hall].
  destruct (idx_ok (bl s b) k) as (x & Hi & Hx); [unfold len; rewrite Hlen; lia|].
  exists x. split; [done|]. split; [done|]. by eapply Forall_lookup_1 in Hall.
Qed.

Lemma bitmap_set_spec s start i (b : bool) :
  ok s → 0 ≤ start → 0 ≤ i → start + i / (BLOCK_SIZE * 8) < nblk s → 1 ≤ avail s →
  wp (bitmap_set start i b) s (λ _ s', step 1 s s' ∧ bit_set_to (bl s) (bl s') start i b).
Proof.
  intros Hok Hst Hi Hn Ha. unfold bitmap_set. assert (0 ≤ i / (BLOCK_SIZE * 8)) by (unfold BLOCK_SIZE; dlia).
  wp_step read_block_spec; [done|lia|done|]. intros p s1 (-> & Hd & Hs1).
  destruct (page_byte s (start + i / (BLOCK_SIZE * 8)) ((i / 8) mod BLOCK_SIZE)) as (x & Hx & Hl & Hbx);
    [unfold BLOCK_SIZE; dlia|].
  apply wp_bind. unfold wp at 1, lift. rewrite Hx.
  assert (0 ≤ i mod 8 < 8) by dlia.
  wp_step write_block_spec || eapply wp_mono; [eapply write_block_spec|].
  - by eapply step_ok.
  - rewrite (step_nblk _ _ _ Hs1). lia.
  - apply page_insert; [apply bl_page|]. destruct b; [by apply is_u_lor_bit|by apply is_u_ldiff].
  - intros _ s' [Hs2 Hv]. split; [by eapply step_trans; [exact Hs1|exact Hs2|lia]|].
    assert (bl s1 = bl s) as E by (unfold bl; by rewrite Hd). rewrite E in Hv.
    eapply set_bit_page; [done|done|exact Hl| | |exact Hv]; destruct b.
    + rewrite lor_bit_testbit by lia. rewrite bool_decide_true by done. apply orb_true_r.
    + rewrite ldiff_bit_testbit by lia. rewrite bool_decide_true by done. apply andb_false_r.
    + intros j ??. rewrite lor_bit_testbit by lia. rewrite bool_decide_false by done. apply orb_false_r.
    + intros j ??. rewrite ldiff_bit_testbit by lia. rewrite bool_decide_false by done. apply andb_true_r.
Qed.

(** What a bitmap allocation returns and does. *)
Definition alloc_post (v v' : view) (start n skip : Z) (r : option Z) : Prop :=
  match r with
  | Some i => skip ≤ i < n * BLOCK_SIZE * 8 ∧ 0 ≤ i ∧ bmbit v start i = false ∧
      (∀ j, skip ≤ j < i → 0 ≤ j → bmbit v start j = true) ∧ bit_set_to v v' start i true
  | None => v' = v ∧ ∀ j, skip ≤ j < n * BLOCK_SIZE * 8 → 0 ≤ j → bmbit v start j = true
  end.

Lemma bitmap_alloc_from_spec s start n bi skip :
  ok s → 0 ≤ start → 0 ≤ bi → start + bi + Z.of_nat n ≤ nblk s → Z.of_nat n + 1 ≤ avail s →
  (∀ j, 0 ≤ j < bi * BLOCK_SIZE * 8 → skip ≤ j → bmbit (bl s) start j = true) →
  wp (bitmap_alloc_from n bi start skip) s (λ r s', step (Z.of_nat n + 1) s s' ∧
    alloc_post (bl s) (bl s') start (bi + Z.of_nat n) skip r).
Proof.
  intros Hok Hst. revert s bi Hok. induction n as [|n IH]; intros s bi Hok Hbi Hn Ha Hlow;
    cbn [bitmap_alloc_from].
  { apply wp_ret. split; [eapply step_trans; [by apply step_refl..|lia]|]. split; [done|].
    intros j Hj Hj0. apply Hlow; lia. }
  wp_step read_block_spec; [done|lia|lia|]. intros p s1 (-> & Hd & Hs1).
  assert (bl s1 = bl s) as E1 by (unfold bl; by rewrite Hd).
  destruct (bl_page s (start + bi)) as [Hlen Hbytes].
  assert (len (bl s (start + bi)) = BLOCK_SIZE) as Hlen' by (unfold len; rewrite Hlen; unfold BLOCK_SIZE; lia).
  pose proof (scan_bytes_spec (bl s (start + bi)) (bl s (start + bi)) (bi * BLOCK_SIZE * 8) skip 0
    ltac:(lia) (eq_sym (drop_0 _)) Hbytes) as Hscan.
  assert (∀ j, bi * BLOCK_SIZE * 8 ≤ j < (bi + 1) * BLOCK_SIZE * 8 →
    bmbit (bl s) start j = pbit (bl s (start + bi)) (j - bi * BLOCK_SIZE * 8)) as Hpb.
  { intros j Hj. unfold BLOCK_SIZE in *. rewrite bmbit_pbit by lia. unfold BLOCK_SIZE.
    replace (j / (4096 * 8)) with bi by dlia. f_equal. dlia. }
  destruct (scan_bytes (bl s (start + bi)) (bi * BLOCK_SIZE * 8) skip 0) as [[byte b]|].
  - destruct Hscan as (Hby & Hb & Hfree & Hskip & Hlow').
    rewrite Hlen' in Hby.
    wp_step read_block_spec; [by eapply step_ok|rewrite (step_nblk _ _ _ Hs1); lia|pose proof (step_avail _ _ _ Hs1); lia|].
    intros p s2 (-> & Hd2 & Hs2). rewrite E1.
    assert (bl s2 = bl s) as E2 by (unfold bl; by rewrite Hd2, Hd).
    destruct (page_byte s (start + bi) byte) as (x & Hx & Hl & Hbx); [lia|].
    apply wp_bind. unfold wp at 1, lift. rewrite Hx.
    wp_step write_block_spec.
    + by eapply step_ok.
    + rewrite (step_nblk _ _ _ Hs2), (step_nblk _ _ _ Hs1). lia.
    + apply page_insert; [apply bl_page|]. apply is_u_lor_bit; [done|lia].
    + intros _ s3 [Hs3 Hv]. rewrite E2 in Hv. apply wp_ret. split.
      { eapply step_trans; [exact Hs1|eapply step_trans; [exact Hs2|exact Hs3|reflexivity]|lia]. }
      set (i := bi * BLOCK_SIZE * 8 + byte * 8 + b).
      assert (0 ≤ i) by (unfold i, BLOCK_SIZE in *; lia).
      assert (i / (BLOCK_SIZE * 8) = bi) as Ei1 by (unfold i, BLOCK_SIZE in *; dlia).
      assert ((i / 8) mod BLOCK_SIZE = byte) as Ei2 by (unfold i, BLOCK_SIZE in *; dlia).
      assert (i mod 8 = b) as Ei3 by (unfold i, BLOCK_SIZE in *; dlia).
      split; [unfold i, BLOCK_SIZE in *; lia|]. split; [done|].
      split; [rewrite Hpb by (unfold i, BLOCK_SIZE in *; lia);
        replace (i - bi * BLOCK_SIZE * 8) with (byte * 8 + b) by (unfold i; lia); done|].
      split.
      * intros j Hj Hj0. destruct (decide (j < bi * BLOCK_SIZE * 8)); [apply Hlow; lia|].
        rewrite Hpb by (unfold i, BLOCK_SIZE in *; lia).
        destruct (Hlow' (j - bi * BLOCK_SIZE * 8)) as [?|?]; [unfold i in Hj; lia|done|lia].
      * eapply set_bit_page with (x := x); [done|done|rewrite Ei1, Ei2; exact Hl| | |rewrite Ei1, Ei2; exact Hv].
        -- rewrite Ei3, lor_bit_testbit by lia. rewrite bool_decide_true by done. apply orb_true_r.
        -- rewrite Ei3. intros j ??. rewrite lor_bit_testbit by lia.
           rewrite bool_decide_false by done. apply orb_false_r.
  - eapply wp_mono; [apply (IH s1 (bi + 1))|].
    + by eapply step_ok.
    + lia.
    + rewrite (step_nblk _ _ _ Hs1). lia.
    + pose proof (step_avail _ _ _ Hs1). lia.
    + rewrite E1. intros j Hj Hsk. destruct (decide (j < bi * BLOCK_SIZE * 8)); [apply Hlow; lia|].
      rewrite Hpb by (unfold BLOCK_SIZE in *; lia).
      destruct (Hscan (j - bi * BLOCK_SIZE * 8)) as [?|?]; [rewrite Hlen'; unfold BLOCK_SIZE in *; lia|done|lia].
    + intros r s' [Hs2 Hpost]. split; [eapply step_trans; [exact Hs1|exact Hs2|lia]|].
      rewrite E1 in Hpost. by replace (bi + Z.of_nat (S n)) with (bi + 1 + Z.of_nat n) by lia.
Qed.

Lemma bitmap_alloc_spec s start n skip :
  ok s → 0 ≤ start → 0 ≤ n → start + n ≤ nblk s → n + 1 ≤ avail s →
  wp (bitmap_alloc start n skip) s (λ r s', step (n + 1) s s' ∧ alloc_post (bl s) (bl s') start n skip r).
Proof.
  intros. unfold bitmap_alloc. eapply wp_mono; [apply bitmap_alloc_from_spec; try done; lia|].
  intros r s' [Hs Hp]. rewrite Z2Nat.id in Hs, Hp by done. by rewrite Z.add_0_l in Hp.
Qed.

(** ** Inode table *)

Lemma inode_block_range ino : 0 ≤ ino < MAX_INODES → INODE_TBL_BLOCK ≤ inode_block ino < DATA_BLOCK_START.
Proof. unfold inode_block, MAX_INODES, INODES_PER_BLK, BLOCK_SIZE, INODE_TBL_BLOCK, DATA_BLOCK_START. change (4096 / 128) with 32. dlia. Qed.

Lemma inode_off_range ino : 0 ≤ ino → 0 ≤ inode_off ino ∧ inode_off ino + 128 ≤ BLOCK_SIZE.
Proof. unfold inode_off, INODES_PER_BLK, BLOCK_SIZE. change (4096 / 128) with 32. dlia. Qed.

Lemma page_poke p off l :
  is_page p → Forall is_byte l → 0 ≤ off → off + len l ≤ BLOCK_SIZE → is_page (poke off l p).
Proof.
  intros [Hl Hb] Hbl H0 Hn. unfold poke. split; [|by apply Forall_splice].
  rewrite length_splice; [done|]. unfold len in Hn. lia.
Qed.

Lemma read_inode_spec s ino : ok s → 0 ≤ ino < MAX_INODES → DATA_BLOCK_START ≤ nblk s → 1 ≤ avail s →
  wp (read_inode ino) s (λ i s', i = inode_at (bl s) ino ∧ dev s' = dev s ∧ step 1 s s').
Proof.
  intros Hok Hi Hn Ha. unfold read_inode. pose proof (inode_block_range ino Hi).
  unfold INODE_TBL_BLOCK in *. wp_step read_block_spec; [done|lia|done|].
  intros p s' (-> & Hd & Hs). apply wp_ret. done.
Qed.

(** The inode table after a write: one inode replaced, every block outside its
    table block unchanged. *)
Definition inode_set_to (v v' : view) (ino : Z) (i : Inode) : Prop :=
  (∀ j, 0 ≤ j < MAX_INODES → inode_at v' j = if bool_decide (j = ino) then i else inode_at v j) ∧
  ∀ b, 0 ≤ b → ¬ (INODE_TBL_BLOCK ≤ b < DATA_BLOCK_START) → v' b = v b.

Lemma inode_slot_disjoint i j :
  0 ≤ i → 0 ≤ j → i ≠ j → inode_block i = inode_block j →
  inode_off i + 128 ≤ inode_off j ∨ inode_off j + 128 ≤ inode_off i.
Proof.
  unfold inode_block, inode_off, INODES_PER_BLK, BLOCK_SIZE. change (4096 / 128) with 32. dlia.
Qed.

Lemma write_inode_spec s ino i :
  ok s → 0 ≤ ino < MAX_INODES → DATA_BLOCK_START ≤ nblk s → 1 ≤ avail s → inode_wf i →
  wp (write_inode ino i) s (λ _ s', step 1 s s' ∧ inode_set_to (bl s) (bl s') ino i).
Proof.
  intros Hok Hi Hn Ha Hwf. unfold write_inode. pose proof (inode_block_range ino Hi) as Hr.
  pose proof (inode_off_range ino ltac:(lia)) as Ho. pose proof (length_inode_bytes i Hwf) as Hl.
  unfold INODE_TBL_BLOCK in *. wp_step read_block_spec; [done|lia|done|].
  intros p s1 (-> & Hd & Hs1). eapply wp_mono; [apply write_block_spec|].
  - by eapply step_ok.
  - rewrite (step_nblk _ _ _ Hs1). lia.
  - apply page_poke; [apply bl_page|by apply inode_bytes_byte|lia|unfold len; lia].
  - intros _ s2 [Hs2 Hv]. assert (bl s1 = bl s) as E by (unfold bl; by rewrite Hd). rewrite E in Hv.
    split; [eapply step_trans; [exact Hs1|exact Hs2|lia]|]. destruct (bl_page s (inode_block ino)) as [Hpl _]. split.
    + intros j Hj. unfold inode_at. pose proof (inode_block_range j Hj) as Hrj. unfold INODE_TBL_BLOCK in *.
      rewrite Hv by lia. case_bool_decide as Eij.
      * subst j. rewrite upd_eq. unfold peek, poke. rewrite <- Hl, sub_splice_eq by (rewrite Hpl; lia).
        by apply inode_of_bytes_bytes.
      * destruct (decide (inode_block j = inode_block ino)) as [Eb|Eb]; [|by rewrite upd_ne].
        rewrite Eb, upd_eq. unfold peek, poke. f_equal. apply sub_splice_ne; [rewrite Hpl; lia|].
        pose proof (inode_off_range j ltac:(lia)). destruct (inode_slot_disjoint j ino); [lia|lia|done|done|left; lia|right; lia].
    + intros b Hb Hne. rewrite Hv by done. apply upd_ne. intros ->. by apply Hne.
Qed.

(** ** Block and inode allocation *)

(** Block [b] was free, is now used and holds zeros; beyond the block bitmap
    nothing else changed. *)
Definition allocated (v v' : view) (b : Z) : Prop :=
  v' b = zero_page ∧
  (∀ b', 0 ≤ b' → ¬ (BLOCK_BM_BLOCK ≤ b' < INODE_TBL_BLOCK) → b' ≠ b → v' b' = v b') ∧
  ∀ j, 0 ≤ j < BM_BITS → used v' j = if bool_decide (j = b) then true else used v j.
Definition fresh (v : view) (c b : Z) : Prop := DATA_BLOCK_START ≤ b < c ∧ used v b = false.

Lemma bm_block b : 0 ≤ b < BM_BITS → BLOCK_BM_BLOCK ≤ BLOCK_BM_BLOCK + b / (BLOCK_SIZE * 8) < INODE_TBL_BLOCK.
Proof. unfold BM_BITS, BLOCK_BM_BLOCK, INODE_TBL_BLOCK, BLOCK_BM_LEN, BLOCK_SIZE. dlia. Qed.

(** Bits of the block bitmap depend on blocks 2-5 only. *)
Lemma used_ext v v' j :
  0 ≤ j < BM_BITS → (∀ b, BLOCK_BM_BLOCK ≤ b < INODE_TBL_BLOCK → v' b = v b) → used v' j = used v j.
Proof. intros Hj Hb. unfold used, bmbit. by rewrite Hb by by apply bm_block. Qed.

Lemma cap_bounds s : cap s ≤ nblk s ∧ cap s ≤ BM_BITS.
Proof. unfold cap. lia. Qed.

Lemma alloc_block_spec s :
  ok s → DATA_BLOCK_START ≤ nblk s → 1 ≤ room (bl s) (cap s) → 7 ≤ avail s →
  wp alloc_block s (λ b s', step 6 s s' ∧ fresh (bl s) (cap s) b ∧
    (∀ j, DATA_BLOCK_START ≤ j < b → used (bl s) j = true) ∧ allocated (bl s) (bl s') b).
Proof.
  intros Hok Hn Hr Ha. unfold alloc_block. destruct (cap_bounds s) as [Hc1 Hc2].
  unfold DATA_BLOCK_START in Hn.
  wp_step bitmap_alloc_spec; [done|done|done|unfold BLOCK_BM_BLOCK, BLOCK_BM_LEN; lia|unfold BLOCK_BM_LEN; lia|].
  intros r s1 [Hs1 Hpost]. unfold BLOCK_BM_LEN in Hs1. change (4 + 1) with 5 in Hs1.
  destruct (room_pos _ _ Hr) as (f & Hf & Hfu).
  change (BLOCK_BM_LEN * BLOCK_SIZE * 8) with BM_BITS in Hpost || idtac.
  destruct r as [b|]; cycle 1.
  { destruct Hpost as [_ Hall]. exfalso. assert (used (bl s) f = true); [|congruence].
    unfold DATA_BLOCK_START in *. apply Hall; unfold BM_BITS in *; lia. }
  destruct Hpost as (Hb & Hb0 & Hbu & Hlow & Hset & Hoth).
  assert (b ≤ f) as Hbf.
  { destruct (decide (b ≤ f)); [done|]. assert (used (bl s) f = true); [|congruence].
    unfold DATA_BLOCK_START in *. apply Hlow; lia. }
  assert (0 ≤ b < BM_BITS) as Hbb by (unfold BM_BITS, DATA_BLOCK_START in *; lia).
  apply wp_bind. unfold wp at 1, lift, unwrap.
  wp_step page_alloc_spec; [by eapply step_ok|pose proof (step_avail _ _ _ Hs1); lia|].
  intros p s2 (-> & Hd2 & Hs2).
  assert (bl s2 = bl s1) as E by (unfold bl; by rewrite Hd2).
  wp_step write_block_spec; [by eapply step_ok| |apply zero_page_page|].
  { rewrite (step_nblk _ _ _ Hs2), (step_nblk _ _ _ Hs1). unfold DATA_BLOCK_START in *. lia. }
  intros _ s3 [Hs3 Hv]. rewrite E in Hv. apply wp_ret.
  assert (u32 b = b) as ->.
  { apply wrap_small. unfold is_u, BM_BITS, BLOCK_BM_LEN, BLOCK_SIZE in *. lia. }
  split; [eapply step_trans; [exact Hs1|eapply step_trans; [exact Hs2|exact Hs3|reflexivity]|lia]|].
  split; [unfold fresh; split; [lia|done]|].
  split; [intros j Hj; apply Hlow; unfold DATA_BLOCK_START in *; lia|].
  pose proof (bm_block b Hbb) as Hbm.
  split; [rewrite Hv by lia; apply upd_eq|]. split.
  - intros b' Hb' Hne1 Hne2. rewrite Hv by done. rewrite upd_ne by done. apply Hoth; [done|]. intros ->. by apply Hne1.
  - intros j Hj. rewrite (used_ext (bl s1)); [apply Hset; lia|done|].
    intros b' Hb'. unfold BLOCK_BM_BLOCK, INODE_TBL_BLOCK, DATA_BLOCK_START in *. rewrite Hv by lia. apply upd_ne. lia.
Qed.

Lemma alloc_inode_spec s f :
  ok s → DATA_BLOCK_START ≤ nblk s → 2 ≤ avail s → 0 ≤ f < MAX_INODES → iused (bl s) f = false →
  wp alloc_inode s (λ ino s', step 2 s s' ∧ 0 ≤ ino ≤ f ∧ iused (bl s) ino = false ∧
    (∀ j, 0 ≤ j < ino → iused (bl s) j = true) ∧ bit_set_to (bl s) (bl s') INODE_BM_BLOCK ino true).
Proof.
  intros Hok Hn Ha Hf Hfu. unfold alloc_inode. unfold DATA_BLOCK_START in Hn.
  wp_step bitmap_alloc_spec; [done|done|done|unfold INODE_BM_BLOCK; lia|lia|].
  intros r s1 [Hs1 Hpost]. unfold MAX_INODES, BLOCK_SIZE in *. destruct r as [i|]; cycle 1.
  { destruct Hpost as [_ Hall]. exfalso. unfold iused in Hfu. rewrite Hall in Hfu; [done|unfold BLOCK_SIZE; lia|lia]. }
  destruct Hpost as (Hi & Hi0 & Hiu & Hlow & Hset). unfold BLOCK_SIZE in Hi.
  assert (i ≤ f).
  { destruct (decide (i ≤ f)); [done|]. unfold iused in Hfu. rewrite Hlow in Hfu; [done|lia|lia]. }
  apply wp_bind. unfold wp at 1, lift, unwrap. rewrite wrap_small by (unfold is_u; lia).
  apply wp_bind, wp_rassert; [apply Z.ltb_lt; unfold MAX_INODES; lia|]. apply wp_ret. split; [done|]. split; [lia|]. split; [done|]. split; [intros; apply Hlow; lia|done].
Qed.
End block.
