(* ===== verification/HepfsRep.v ===== *)
(** HepFS, ownership of blocks: a file's pointer tree as a function from slots
    to block numbers, the representation invariant that ties it to the disk
    (every pointer is where the tree says, owned blocks are in range, marked
    used, and owned once in the whole file system), and the two ways the file
    operations change it: storing a freshly allocated block in an empty slot,
    and overwriting a block that holds no pointers. *)

From stdpp Require Import prelude list numbers strings gmap.
From S2P Require Import Prelude Pmm Hepfs HepfsBlock.

Local Open Scope Z_scope.

(** ** Slots of a pointer tree *)

Inductive slot :=
| SDir (k : Z)        (** [direct[k]] *)
| SInd                (** [indirect] *)
| SIndE (k : Z)       (** entry [k] of the indirect block *)
| SDind               (** [dindirect] *)
| SL1 (k : Z)         (** entry [k] of the double-indirect block *)
| SL2 (j k : Z).      (** entry [k] of level-1 block [j] *)

#[export] Instance slot_eq_dec : EqDecision slot.
Proof. solve_decision. Defined.

Definition slot_ok (t : slot) : Prop :=
  match t with
  | SDir k => 0 ≤ k < DIRECT_PTRS
  | SInd | SDind => True
  | SIndE k | SL1 k => 0 ≤ k < PTRS_PER_INDIRECT
  | SL2 j k => 0 ≤ j < PTRS_PER_INDIRECT ∧ 0 ≤ k < PTRS_PER_INDIRECT
  end.

#[export] Instance slot_ok_dec t : Decision (slot_ok t).
Proof. destruct t; simpl; apply _. Defined.

(** The slot of the table a slot lives in; [None]: the inode itself. *)
Definition parent (t : slot) : option slot :=
  match t with
  | SDir _ | SInd | SDind => None
  | SIndE _ => Some SInd
  | SL1 _ => Some SDind
  | SL2 j _ => Some (SL1 j)
  end.
Definition pos (t : slot) : Z :=
  match t with SDir k | SIndE k | SL1 k | SL2 _ k => k | SInd | SDind => 0 end.
Definition is_table (t : slot) : Prop :=
  match t with SInd | SDind | SL1 _ => True | _ => False end.

(** The slot of a file's logical block [n]. *)
Definition dslot (n : Z) : slot :=
  if n <? DIRECT_PTRS then SDir n
  else if n <? DIRECT_PTRS + PTRS_PER_INDIRECT then SIndE (n - DIRECT_PTRS)
  else let m := n - DIRECT_PTRS - PTRS_PER_INDIRECT in
       SL2 (m / PTRS_PER_INDIRECT) (m mod PTRS_PER_INDIRECT).

Definition MAX_BLOCKS : Z := DIRECT_PTRS + PTRS_PER_INDIRECT + DINDIRECT_MAX_BLOCKS.

Lemma dslot_ok n : 0 ≤ n < MAX_BLOCKS → slot_ok (dslot n).
Proof.
  unfold dslot, MAX_BLOCKS, DINDIRECT_MAX_BLOCKS, PTRS_PER_INDIRECT, DIRECT_PTRS, BLOCK_SIZE.
  change (4096 / 4) with 1024. intros.
  destruct (Z.ltb_spec n 12); [simpl; unfold DIRECT_PTRS; lia|].
  destruct (Z.ltb_spec n (12 + 1024)); simpl; unfold PTRS_PER_INDIRECT, BLOCK_SIZE; change (4096 / 4) with 1024; dlia.
Qed.

Lemma dslot_inj n m : 0 ≤ n → 0 ≤ m → dslot n = dslot m → n = m.
Proof.
  unfold dslot, PTRS_PER_INDIRECT, DIRECT_PTRS, BLOCK_SIZE. change (4096 / 4) with 1024. intros ??.
  destruct (Z.ltb_spec n 12), (Z.ltb_spec m 12), (Z.ltb_spec n (12 + 1024)), (Z.ltb_spec m (12 + 1024));
    intros E; try discriminate E; injection E; dlia.
Qed.

Lemma dslot_data n : ¬ is_table (dslot n).
Proof. unfold dslot. repeat case_match; simpl; auto. Qed.

Lemma parent_table t p : parent t = Some p → is_table p.
Proof. destruct t; intros; simplify_eq/=; done. Qed.
Lemma parent_ok t p : slot_ok t → parent t = Some p → slot_ok p.
Proof. destruct t; intros; simplify_eq/=; simpl; tauto. Qed.
Lemma parent_ne t : parent t ≠ Some t.
Proof. by destruct t. Qed.
Lemma same_cell t t' p : parent t = Some p → parent t' = Some p → pos t = pos t' → t = t'.
Proof. destruct t, t'; intros; simplify_eq/=; done. Qed.
Lemma pos_range t p : slot_ok t → parent t = Some p → 0 ≤ pos t < PTRS_PER_INDIRECT.
Proof. destruct t; intros; simplify_eq/=; simpl in *; tauto. Qed.

(** ** Pointers as stored *)

Abbreviation tree := (Z → slot → Z).

Definition inode_ptr (i : Inode) (t : slot) : Z :=
  match t with
  | SDir k => default 0 (direct i !! Z.to_nat k)
  | SInd => indirect i
  | SDind => dindirect i
  | _ => 0
  end.

Definition ptr (im : Z → Inode) (v : view) (g : tree) (i : Z) (t : slot) : Z :=
  match parent t with
  | None => inode_ptr (im i) t
  | Some p => if g i p =? 0 then 0 else peek_u32 (pos t * 4) (v (g i p))
  end.

Definition gset (g : tree) (ino : Z) (t : slot) (b : Z) : tree :=
  λ i t', if decide (i = ino ∧ t' = t) then b else g i t'.
Definition iupd (im : Z → Inode) (ino : Z) (x : Inode) : Z → Inode :=
  λ i, if decide (i = ino) then x else im i.

Lemma gset_eq g ino t b : gset g ino t b ino t = b.
Proof. unfold gset. by rewrite decide_True. Qed.
Lemma gset_ne g ino t b i t' : (i ≠ ino ∨ t' ≠ t) → gset g ino t b i t' = g i t'.
Proof. intros. unfold gset. rewrite decide_False; [done|]. intros [-> ->]. tauto. Qed.
Lemma iupd_eq im ino x : iupd im ino x ino = x.
Proof. unfold iupd. by rewrite decide_True. Qed.
Lemma iupd_ne im ino x i : i ≠ ino → iupd im ino x i = im i.
Proof. intros. unfold iupd. by rewrite decide_False. Qed.

(** The representation invariant. [c] bounds the data blocks, [im] gives the
    inodes (on disk, or in memory for the one being written), [v] the pages. *)
Record rep (c : Z) (im : Z → Inode) (v : view) (g : tree) : Prop := {
  rep_ptr : ∀ i t, 0 ≤ i < MAX_INODES → slot_ok t → g i t = ptr im v g i t;
  rep_out : ∀ i t, ¬ (0 ≤ i < MAX_INODES ∧ slot_ok t) → g i t = 0;
  rep_own : ∀ i t, g i t ≠ 0 → DATA_BLOCK_START ≤ g i t < c ∧ used v (g i t) = true;
  rep_inj : ∀ i t i' t', g i t ≠ 0 → g i t = g i' t' → i = i' ∧ t = t';
  rep_free : ∀ i, 0 ≤ i < MAX_INODES → iused v i = false → flags (im i) = F_FREE ∧ ∀ t, g i t = 0;
  rep_root : iused v ROOT_INO = true;
  rep_file : ∀ i n, 0 ≤ i < MAX_INODES → flags (im i) = F_FILE →
    0 ≤ n → n * BLOCK_SIZE < size (im i) → g i (dslot n) ≠ 0;
  rep_wf : ∀ i, 0 ≤ i < MAX_INODES → inode_wf (im i);
  rep_page : ∀ b, is_page (v b);
  rep_cap : c ≤ BM_BITS
}.

Lemma rep_table_parent c im v g i t p :
  rep c im v g → parent t = Some p → g i t ≠ 0 → g i p ≠ 0.
Proof.
  intros R Hp Ht Hz. destruct (decide (0 ≤ i < MAX_INODES ∧ slot_ok t)) as [[Hi Hok]|Hn].
  - apply Ht. rewrite (rep_ptr _ _ _ _ R) by done. unfold ptr. by rewrite Hp, Hz.
  - apply Ht. by apply (rep_out _ _ _ _ R).
Qed.

Lemma iused_ext v v' i : 0 ≤ i < MAX_INODES → v' INODE_BM_BLOCK = v INODE_BM_BLOCK → iused v' i = iused v i.
Proof.
  intros Hi Hv. unfold iused, bmbit. replace (INODE_BM_BLOCK + i / (BLOCK_SIZE * 8)) with INODE_BM_BLOCK; [by rewrite Hv|].
  unfold MAX_INODES, BLOCK_SIZE in *. dlia.
Qed.

(** Pages that hold no pointers and no bitmap may be overwritten; inodes may be
    replaced by ones with the same pointers. *)
Lemma rep_frame c im im' v v' g :
  rep c im v g →
  (∀ i, 0 ≤ i < MAX_INODES → im' i = im i) →
  (∀ b, INODE_BM_BLOCK ≤ b < INODE_TBL_BLOCK → v' b = v b) →
  (∀ i t, g i t ≠ 0 → is_table t → v' (g i t) = v (g i t)) →
  (∀ b, is_page (v' b)) → rep c im' v' g.
Proof.
  intros R Him Hbm Htab Hpg. destruct R as [Rp Ro Rw Ri Rf Rr Rfi Rwf Rpg Rc].
  assert (∀ b, 0 ≤ b < BM_BITS → used v' b = used v b) as Hused.
  { intros b Hb. apply used_ext; [done|]. intros b' Hb'. apply Hbm. unfold INODE_BM_BLOCK, BLOCK_BM_BLOCK in *. lia. }
  assert (∀ i, 0 ≤ i < MAX_INODES → iused v' i = iused v i) as Hiused.
  { intros i Hi. apply iused_ext; [done|]. apply Hbm. by unfold INODE_BM_BLOCK, INODE_TBL_BLOCK. }
  split; try done.
  - intros i t Hi Hok. rewrite Rp by done. unfold ptr. destruct (parent t) as [p|] eqn:Ep; [|by rewrite Him].
    destruct (Z.eqb_spec (g i p) 0); [done|]. rewrite Htab; [done|done|]. by eapply parent_table.
  - intros i t Hne. destruct (Rw i t Hne) as [Hr Hu]. split; [done|].
    rewrite Hused; [done|]. unfold DATA_BLOCK_START in *. lia.
  - intros i Hi Hu. rewrite Hiused in Hu by done. rewrite Him by done. by apply Rf.
  - rewrite Hiused; [done|]. by unfold ROOT_INO, MAX_INODES.
  - intros i n Hi. rewrite Him by done. by apply Rfi.
  - intros i Hi. rewrite Him by done. by apply Rwf.
Qed.

Lemma peek_zero_page off : 0 ≤ off → off + 4 ≤ BLOCK_SIZE → peek_u32 off zero_page = 0.
Proof.
  intros. unfold peek_u32, peek, sub, zero_page. rewrite drop_replicate, take_replicate.
  rewrite Nat.min_l by lia. done.
Qed.

Lemma peek_poke_eq off b p :
  0 ≤ off → off + 4 ≤ len p → is_u 32 b → peek_u32 off (poke off (le_bytes 4 b) p) = b.
Proof.
  intros. unfold peek_u32, peek, poke. rewrite <- (length_le_bytes 4 b) at 1.
  rewrite sub_splice_eq by (rewrite length_le_bytes; unfold len in *; lia). by apply le_val_4.
Qed.
Lemma peek_poke_ne off off' b p :
  0 ≤ off → 0 ≤ off' → off' + 4 ≤ len p → (off + 4 ≤ off' ∨ off' + 4 ≤ off) →
  peek_u32 off (poke off' (le_bytes 4 b) p) = peek_u32 off p.
Proof.
  intros. unfold peek_u32, peek, poke. rewrite sub_splice_ne; [done|rewrite length_le_bytes; unfold len in *; lia|].
  rewrite length_le_bytes. lia.
Qed.

(** Storing a fresh, zeroed block [b] in the empty slot [t] of [ino]. *)
Lemma rep_alloc c im im' v v' g ino t b :
  rep c im v g → 0 ≤ ino < MAX_INODES → slot_ok t → g ino t = 0 → fresh v c b → v' b = zero_page →
  (∀ j, 0 ≤ j < BM_BITS → used v' j = if bool_decide (j = b) then true else used v j) →
  v' INODE_BM_BLOCK = v INODE_BM_BLOCK → (∀ b, is_page (v' b)) →
  (∀ i, 0 ≤ i < MAX_INODES → inode_wf (im' i) ∧ flags (im' i) = flags (im i) ∧ size (im' i) = size (im i)) →
  iused v ino = true →
  ptr im' v' g ino t = b →
  (∀ i t', 0 ≤ i < MAX_INODES → slot_ok t' → (i ≠ ino ∨ t' ≠ t) → (i ≠ ino ∨ parent t' ≠ Some t) →
     ptr im' v' g i t' = ptr im v g i t') →
  rep c im' v' (gset g ino t b).
Proof.
  intros R Hino Hok Hz [Hb Hbu] Hzero Hused Hibm Hpg Him Hiu Hptr Hoth.
  assert (b ≠ 0) as Hb0 by (unfold DATA_BLOCK_START in Hb; lia).
  assert (∀ i t', g i t' ≠ 0 → g i t' ≠ b) as Hnb.
  { intros i t' Hne E. destruct (rep_own _ _ _ _ R i t' Hne) as [_ Hu]. congruence. }
  assert (∀ i t', gset g ino t b i t' ≠ 0 → g i t' ≠ 0 ∨ (i = ino ∧ t' = t)) as Hcase.
  { intros i t'. unfold gset. case_decide; [tauto|tauto]. }
  split.
  - intros i t' Hi Hok'. destruct (decide (i = ino ∧ t' = t)) as [[-> ->]|Hne].
    + rewrite gset_eq. unfold ptr in *. destruct (parent t) as [p|] eqn:Ep; [|done].
      rewrite gset_ne; [done|]. right. intros ->. by apply parent_ne in Ep.
    + pose proof Hne as Hne'. apply not_and_l in Hne'.
      rewrite gset_ne by done. destruct (decide (i = ino ∧ parent t' = Some t)) as [[-> Ep]|Hnp].
      * rewrite (rep_ptr _ _ _ _ R) by done. unfold ptr. rewrite Ep, gset_eq, Hz. simpl.
        destruct (Z.eqb_spec b 0); [done|]. rewrite Hzero. symmetry.
        pose proof (pos_range t' t Hok' Ep) as Hpos. unfold PTRS_PER_INDIRECT, BLOCK_SIZE in Hpos.
        change (4096 / 4) with 1024 in Hpos. apply peek_zero_page; unfold BLOCK_SIZE; lia.
      * pose proof Hnp as Hnp'. apply not_and_l in Hnp'.
        rewrite (rep_ptr _ _ _ _ R), <- Hoth by done. unfold ptr.
        destruct (parent t') as [p|] eqn:Ep; [|done]. rewrite gset_ne; [done|].
        destruct Hnp' as [?|Hnp']; [by left|right]. congruence.
  - intros i t' Hn. rewrite gset_ne; [by apply (rep_out _ _ _ _ R)|].
    destruct (decide (i = ino)) as [->|]; [right|by left]. intros ->. tauto.
  - intros i t' Hne. destruct (Hcase i t' Hne) as [Hold|[-> ->]].
    + assert (gset g ino t b i t' = g i t') as ->.
      { apply gset_ne. destruct (decide (i = ino)) as [->|]; [right|by left]. intros ->. done. }
      destruct (rep_own _ _ _ _ R i t' Hold) as [Hr Hu]. split; [done|].
      pose proof (rep_cap _ _ _ _ R). rewrite Hused by (unfold DATA_BLOCK_START in *; lia). by case_bool_decide.
    + rewrite gset_eq. split; [done|]. pose proof (rep_cap _ _ _ _ R).
      rewrite Hused by (unfold DATA_BLOCK_START in *; lia). by rewrite bool_decide_true.
  - intros i t1 i' t2 Hne. unfold gset. do 2 case_decide; [naive_solver| | |].
    + intros E. exfalso. by eapply Hnb; [|symmetry; exact E]; congruence.
    + intros E. exfalso. unfold gset in Hne. rewrite decide_False in Hne by done. by eapply Hnb; [|exact E].
    + intros E. unfold gset in Hne. rewrite decide_False in Hne by done. by apply (rep_inj _ _ _ _ R).
  - intros i Hi Hu. rewrite (iused_ext v) in Hu by done. assert (i ≠ ino) by congruence.
    destruct (rep_free _ _ _ _ R i Hi Hu) as [Hf Hg]. destruct (Him i Hi) as (_ & -> & _). split; [done|].
    intros t'. rewrite gset_ne by (by left). apply Hg.
  - rewrite (iused_ext v); [apply (rep_root _ _ _ _ R)|by unfold ROOT_INO, MAX_INODES|done].
  - intros i n Hi Hf Hn Hs. destruct (Him i Hi) as (_ & Ef & Es). rewrite Ef in Hf. rewrite Es in Hs.
    pose proof (rep_file _ _ _ _ R i n Hi Hf Hn Hs) as Hne. unfold gset. by case_decide.
  - intros i Hi. apply Him, Hi.
  - done.
  - apply (rep_cap _ _ _ _ R).
Qed.

(** Owned blocks are data blocks, distinct from a fresh block. *)
Lemma owned_ne_fresh c im v g b i t : rep c im v g → fresh v c b → g i t ≠ 0 → g i t ≠ b.
Proof. intros R [_ Hu] Hne E. destruct (rep_own _ _ _ _ R i t Hne) as [_ Hu']. congruence. Qed.

Lemma owned_range c im v g i t : rep c im v g → g i t ≠ 0 → DATA_BLOCK_START ≤ g i t < BM_BITS.
Proof.
  intros R Hne. destruct (rep_own _ _ _ _ R i t Hne) as [Hr _]. pose proof (rep_cap _ _ _ _ R). lia.
Qed.

Lemma allocated_owned c im v v' g b i t :
  rep c im v g → fresh v c b → allocated v v' b → g i t ≠ 0 → v' (g i t) = v (g i t).
Proof.
  intros R Hf (_ & Ho & _) Hne. pose proof (owned_range _ _ _ _ _ _ R Hne).
  pose proof (owned_ne_fresh _ _ _ _ _ _ _ R Hf Hne). unfold DATA_BLOCK_START, BLOCK_BM_BLOCK, INODE_TBL_BLOCK in *.
  apply Ho; [lia| |done]. unfold BLOCK_BM_BLOCK, INODE_TBL_BLOCK. lia.
Qed.

Lemma allocated_sys v v' c b b' :
  fresh v c b → allocated v v' b → 0 ≤ b' < DATA_BLOCK_START → ¬ (BLOCK_BM_BLOCK ≤ b' < INODE_TBL_BLOCK) → v' b' = v b'.
Proof. intros [Hb _] (_ & Ho & _) Hb' Hn. apply Ho; [lia|done|lia]. Qed.

Lemma allocated_ibm v v' c b : fresh v c b → allocated v v' b → v' INODE_BM_BLOCK = v INODE_BM_BLOCK.
Proof.
  intros. eapply allocated_sys; [done..|].
  unfold INODE_BM_BLOCK, BLOCK_BM_BLOCK, INODE_TBL_BLOCK. lia.
Qed.

Lemma rep_alloc_top c im v v' g ino t b x' :
  rep c im v g → 0 ≤ ino < MAX_INODES → slot_ok t → parent t = None → g ino t = 0 →
  fresh v c b → allocated v v' b → (∀ b, is_page (v' b)) → iused v ino = true → inode_wf x' →
  flags x' = flags (im ino) → size x' = size (im ino) →
  (∀ t', parent t' = None → slot_ok t' →
     inode_ptr x' t' = if decide (t' = t) then b else inode_ptr (im ino) t') →
  rep c (iupd im ino x') v' (gset g ino t b).
Proof.
  intros R Hino Hok Hp Hz Hf Ha Hpg Hiu Hwf Hfl Hsz Hptr.
  eapply rep_alloc; try done.
  - apply Ha.
  - apply Ha.
  - by eapply allocated_ibm.
  - intros i Hi. unfold iupd. case_decide; [subst; done|]. split; [by apply (rep_wf _ _ _ _ R)|done].
  - unfold ptr. rewrite Hp, iupd_eq, Hptr by done. by rewrite decide_True.
  - intros i t' Hi Hok' Hne _. unfold ptr. destruct (parent t') as [p|] eqn:Ep.
    + destruct (Z.eqb_spec (g i p) 0); [done|]. by erewrite allocated_owned.
    + unfold iupd. case_decide as E; [|done]. subst i. rewrite Hptr by done.
      rewrite decide_False; [done|]. destruct Hne as [?|?]; done.
Qed.

Lemma fresh_u32 v c b : fresh v c b → c ≤ BM_BITS → is_u 32 b.
Proof. intros [Hb _] Hc. unfold is_u, BM_BITS, BLOCK_BM_LEN, BLOCK_SIZE, DATA_BLOCK_START in *. lia. Qed.

Lemma cell_range t p : slot_ok t → parent t = Some p → 0 ≤ pos t * 4 ∧ pos t * 4 + 4 ≤ BLOCK_SIZE.
Proof.
  intros Hok Hp. pose proof (pos_range t p Hok Hp) as H. unfold PTRS_PER_INDIRECT, BLOCK_SIZE in *.
  change (4096 / 4) with 1024 in H. lia.
Qed.

Lemma rep_alloc_table c im v v' v'' g ino t p b :
  rep c im v g → 0 ≤ ino < MAX_INODES → slot_ok t → parent t = Some p → g ino t = 0 → g ino p ≠ 0 →
  fresh v c b → allocated v v' b → (∀ b, is_page (v'' b)) → iused v ino = true →
  v'' (g ino p) = poke (pos t * 4) (le_bytes 4 b) (v (g ino p)) →
  (∀ b', 0 ≤ b' → b' ≠ g ino p → v'' b' = v' b') →
  rep c im v'' (gset g ino t b).
Proof.
  intros R Hino Hok Hp Hz Hnp Hf Ha Hpg Hiu Htab Hoth.
  pose proof (owned_range _ _ _ _ _ _ R Hnp) as Hpr. pose proof (owned_ne_fresh _ _ _ _ _ _ _ R Hf Hnp) as Hpb.
  destruct (cell_range t p Hok Hp) as [Hc1 Hc2]. destruct (rep_page _ _ _ _ R (g ino p)) as [Hlen _].
  assert (len (v (g ino p)) = BLOCK_SIZE) as Hlen' by (unfold len; rewrite Hlen; unfold BLOCK_SIZE; lia).
  pose proof (fresh_u32 _ _ _ Hf (rep_cap _ _ _ _ R)) as Hu32.
  unfold DATA_BLOCK_START in Hpr. destruct Hf as [Hbr Hbu]. unfold DATA_BLOCK_START in Hbr.
  assert (fresh v c b) as Hf by (split; [unfold DATA_BLOCK_START; lia|done]).
  eapply rep_alloc; try done.
  - rewrite Hoth by lia. apply Ha.
  - intros j Hj. rewrite (used_ext v'); [by apply Ha|done|]. unfold BLOCK_BM_BLOCK, INODE_TBL_BLOCK.
    intros b' Hb'. apply Hoth; lia.
  - unfold INODE_BM_BLOCK. rewrite Hoth by lia. by eapply allocated_ibm.
  - intros i Hi. split; [by apply (rep_wf _ _ _ _ R)|done].
  - unfold ptr. rewrite Hp. destruct (Z.eqb_spec (g ino p) 0); [done|]. rewrite Htab.
    apply peek_poke_eq; [lia|lia|done].
  - intros i t' Hi Hok' Hne _. unfold ptr. destruct (parent t') as [q|] eqn:Eq; [|done].
    destruct (Z.eqb_spec (g i q) 0) as [|Hq]; [done|]. destruct (decide (g i q = g ino p)) as [E|E].
    + apply (rep_inj _ _ _ _ R) in E as E'; [|done]. destruct E' as [-> ->]. rewrite Htab.
      destruct (cell_range t' p Hok' Eq). apply peek_poke_ne; [lia|lia|lia|].
      assert (pos t' ≠ pos t); [|lia]. intros Epos. destruct Hne as [?|Hne]; [done|].
      by apply Hne, (same_cell _ _ p).
    + pose proof (owned_range _ _ _ _ _ _ R Hq). unfold DATA_BLOCK_START in *.
      rewrite Hoth by (done || lia). by erewrite allocated_owned.
Qed.

Lemma allocated_upd v v' b T p :
  DATA_BLOCK_START ≤ T → T ≠ b → allocated v v' b → allocated (upd v T p) (upd v' T p) b.
Proof.
  intros HT Hne (Hz & Ho & Hu). split; [by rewrite upd_ne|]. unfold DATA_BLOCK_START in HT. split.
  - intros b' Hb' Hn Hb. unfold upd. case_decide; [done|]. by apply Ho.
  - assert (∀ (w : view) j, 0 ≤ j < BM_BITS → used (upd w T p) j = used w j) as E.
    { intros w j Hj. apply used_ext; [done|]. intros b' Hb'. apply upd_ne.
      unfold INODE_TBL_BLOCK in Hb'. lia. }
    intros j Hj. rewrite !E by done. by apply Hu.
Qed.

(** ** What an operation on [ino] leaves alone *)

Record ext (ino : Z) (v : view) (g : tree) (v' : view) (g' : tree) : Prop := {
  ext_blocks : ∀ b, DATA_BLOCK_START ≤ b < BM_BITS → used v b = true → (∀ t, g ino t ≠ b) →
    v' b = v b ∧ ∀ t, g' ino t ≠ b;
  ext_used : ∀ b, DATA_BLOCK_START ≤ b < BM_BITS → used v b = true → used v' b = true;
  ext_new : ∀ b, DATA_BLOCK_START ≤ b < BM_BITS → used v' b = true → used v b = true ∨ ∃ t, g' ino t = b;
  ext_sys : ∀ b, 0 ≤ b < DATA_BLOCK_START → ¬ (BLOCK_BM_BLOCK ≤ b < INODE_TBL_BLOCK) → v' b = v b;
  ext_others : ∀ i t, i ≠ ino → g' i t = g i t;
  ext_keep : ∀ t, g ino t ≠ 0 → g' ino t = g ino t
}.

Lemma ext_refl ino v g : ext ino v g v g.
Proof. split; auto. Qed.

Lemma ext_trans ino v1 g1 v2 g2 v3 g3 :
  ext ino v1 g1 v2 g2 → ext ino v2 g2 v3 g3 → ext ino v1 g1 v3 g3.
Proof.
  intros E1 E2. split.
  - intros b Hb Hu Hg. destruct (ext_blocks _ _ _ _ _ E1 b Hb Hu Hg) as [<- Hg2].
    apply (ext_blocks _ _ _ _ _ E2); [done|by eapply ext_used|done].
  - intros. eapply ext_used; [done..|]. by eapply ext_used.
  - intros b Hb Hu. destruct (ext_new _ _ _ _ _ E2 b Hb Hu) as [Hu2|?]; [|by right].
    destruct (ext_new _ _ _ _ _ E1 b Hb Hu2) as [?|[t Ht]]; [by left|right]. exists t.
    rewrite (ext_keep _ _ _ _ _ E2); [done|]. unfold DATA_BLOCK_START in Hb. lia.
  - intros b Hb Hn. rewrite (ext_sys _ _ _ _ _ E2) by done. by apply (ext_sys _ _ _ _ _ E1).
  - intros i t Hi. rewrite (ext_others _ _ _ _ _ E2) by done. by apply (ext_others _ _ _ _ _ E1).
  - intros t Ht. pose proof (ext_keep _ _ _ _ _ E1 t Ht) as E. rewrite (ext_keep _ _ _ _ _ E2); congruence.
Qed.

Lemma ext_alloc ino v v' g t b c :
  fresh v c b → c ≤ BM_BITS → allocated v v' b → g ino t = 0 → ext ino v g v' (gset g ino t b).
Proof.
  intros Hf Hc Ha Hz. pose proof Hf as [Hb Hbu]. split.
  - intros b' Hb' Hu Hg. assert (b' ≠ b) by congruence. split.
    + apply Ha; [unfold DATA_BLOCK_START in *; lia| |done].
      unfold DATA_BLOCK_START, BLOCK_BM_BLOCK, INODE_TBL_BLOCK in *. lia.
    + intros t'. unfold gset. case_decide; [done|apply Hg].
  - intros b' Hb' Hu. destruct Ha as (_ & _ & ->); [|unfold DATA_BLOCK_START in *; lia]. by case_bool_decide.
  - intros b' Hb' Hu. destruct Ha as (_ & _ & Ha). rewrite Ha in Hu by (unfold DATA_BLOCK_START in *; lia).
    case_bool_decide as E; [right|by left]. subst b'. exists t. apply gset_eq.
  - intros b' Hb' Hn. by eapply allocated_sys.
  - intros i t' Hi. by apply gset_ne; left.
  - intros t' Ht'. apply gset_ne. right. intros ->. done.
Qed.

Lemma ext_write ino v v' g t p :
  DATA_BLOCK_START ≤ g ino t → (∀ b, 0 ≤ b → v' b = upd v (g ino t) p b) → ext ino v g v' g.
Proof.
  intros Hr Hv. unfold DATA_BLOCK_START in Hr.
  assert (∀ b, 0 ≤ b < BM_BITS → used v' b = used v b) as Hu.
  { intros b Hb. apply used_ext; [done|]. unfold BLOCK_BM_BLOCK, INODE_TBL_BLOCK. intros b' Hb'.
    rewrite Hv by lia. apply upd_ne. lia. }
  split.
  - intros b Hb Hub Hg. split; [|done]. rewrite Hv by (unfold DATA_BLOCK_START in *; lia). apply upd_ne.
    intros ->. by apply (Hg t).
  - intros b Hb Hub. rewrite Hu; [done|unfold DATA_BLOCK_START in *; lia].
  - intros b Hb. rewrite Hu; [by left|unfold DATA_BLOCK_START in *; lia].
  - intros b Hb Hn. unfold DATA_BLOCK_START in *. rewrite Hv by lia. apply upd_ne. lia.
  - done.
  - done.
Qed.
