(* ===== verification/HepfsFile.v ===== *)
(** HepFS, files: [write_file] and [read_file]. The loop invariant [winv] of
    the three phases of [write_file], and the theorem that a write is read
    back while every other file, directory and inode stays as it was. *)

From stdpp Require Import prelude list numbers strings gmap.
From S2P Require Import Prelude Pmm Hepfs HepfsBlock HepfsRep.

Local Open Scope Z_scope.

(** Number of blocks [l] fills, and the page holding its first block. *)
Definition nch (l : list Z) : Z := (len l + BLOCK_SIZE - 1) / BLOCK_SIZE.
Definition page_of (l : list Z) : list Z := splice 0 (take (chunk_of l) l) zero_page.

Lemma chunk_of_le l : (chunk_of l ≤ length zero_page)%nat ∧ (chunk_of l ≤ length l)%nat.
Proof. unfold chunk_of, zero_page. rewrite length_replicate. lia. Qed.

Lemma page_of_page l : Forall is_byte l → is_page (page_of l).
Proof.
  intros Hl. destruct (chunk_of_le l). unfold page_of. destruct zero_page_page as [Hz Hzb]. split.
  - rewrite length_splice; [done|]. rewrite length_take. lia.
  - apply Forall_splice; [|done]. by apply Forall_take.
Qed.

Lemma nch_nonneg l : 0 ≤ nch l.
Proof. unfold nch, len, BLOCK_SIZE. dlia. Qed.
Lemma nch_pos l : l ≠ [] → 1 ≤ nch l.
Proof. destruct l; [done|]. intros _. unfold nch, len, BLOCK_SIZE. simpl length. dlia. Qed.
Lemma nch_drop l : l ≠ [] → nch (drop (chunk_of l) l) = nch l - 1.
Proof.
  intros Hne. assert (length l ≠ 0%nat) by (by destruct l). unfold nch, len, chunk_of.
  rewrite length_drop. unfold BLOCK_SIZE. dlia.
Qed.

(** Storing a pointer in the inode. *)
Definition set_ptr (t : slot) (b : Z) (i : Inode) : Inode :=
  match t with
  | SDir k => set_direct (Z.to_nat k) b i
  | SInd => set_indirect b i
  | SDind => set_dindirect b i
  | _ => i
  end.

Lemma set_ptr_facts t b i :
  inode_wf i → is_u 32 b → parent t = None → slot_ok t →
  let x := inc_nblocks (set_ptr t b i) in
  inode_wf x ∧ flags x = flags i ∧ size x = size i ∧
  ∀ t', parent t' = None → slot_ok t' → inode_ptr x t' = if decide (t' = t) then b else inode_ptr i t'.
Proof.
  intros Hwf Hb Hp Hok x. pose proof Hwf as ((Hf & Hs & Hn & Hc & Hm) & [Hd Hdb] & Hi & Hdi & Hpad).
  assert (is_u 32 (u32 (nblocks i + 1))) by by apply wrap_range.
  split; [|split; [by destruct t|split; [by destruct t|]]].
  - unfold inode_wf. destruct t; simplify_eq/=; (split; [done|]); (split; [|done]); [|done|done].
    split; [by rewrite length_insert|]. by apply Forall_insert.
  - intros t' Hp' Hok'. destruct t, t'; simplify_eq/=; try reflexivity.
    unfold DIRECT_PTRS in *. case_decide as E.
    + injection E as ->. rewrite list_lookup_insert_eq by (rewrite Hd; lia). done.
    + rewrite list_lookup_insert_ne; [done|]. intros Ek. apply E. f_equal. lia.
Qed.

Lemma inc_nblocks_facts i : inode_wf i →
  inode_wf (inc_nblocks i) ∧ flags (inc_nblocks i) = flags i ∧ size (inc_nblocks i) = size i ∧
  ∀ t, inode_ptr (inc_nblocks i) t = inode_ptr i t.
Proof.
  intros ((Hf & Hs & Hn & Hc & Hm) & Hd & Hr). split; [|done]. split; [|done].
  do 2 (split; [done|]). split; [by apply wrap_range|done].
Qed.

Lemma rep_live c im v g i : rep c im v g → 0 ≤ i < MAX_INODES → flags (im i) ≠ F_FREE → iused v i = true.
Proof.
  intros R Hi Hf. destruct (iused v i) eqn:E; [done|]. by destruct (rep_free _ _ _ _ R i Hi E).
Qed.

Section file.
Context {D F : Type} `{!Drive D} `{!FrameSource F}.
Implicit Types (s : fs D F).

Lemma write_chunk_spec s blk l :
  ok s → 0 ≤ blk < nblk s → 1 ≤ avail s → Forall is_byte l →
  wp (write_chunk blk l) s (λ rest s', rest = drop (chunk_of l) l ∧ step 1 s s' ∧
    ∀ b, 0 ≤ b → bl s' b = upd (bl s) blk (page_of l) b).
Proof.
  intros Hok Hb Ha Hl. unfold write_chunk. wp_step page_alloc_spec; [done..|]. intros p s1 (-> & Hd & Hs1).
  wp_step write_block_spec; [by eapply step_ok|by rewrite (step_nblk _ _ _ Hs1)|by apply page_of_page|].
  intros _ s2 [Hs2 Hv]. apply wp_ret. split; [done|]. split; [by eapply step_trans; [exact Hs1|exact Hs2|lia]|].
  intros b Hb'. rewrite Hv by done. unfold bl. by rewrite Hd.
Qed.

(** ** The invariant of the write loops *)

Section write.
Context (s0 : fs D F) (g0 : tree) (ino : Z) (data : list Z).
Hypothesis ino_range : 0 ≤ ino < MAX_INODES.
Hypothesis data_bytes : Forall is_byte data.
Hypothesis disk_big : DATA_BLOCK_START ≤ nblk s0.

(** The data from logical block [k] on. *)
Definition rem (k : Z) : list Z := drop (Z.to_nat (BLOCK_SIZE * k)) data.

(** The pages as the loop sees them: in phase 2 the indirect table is in memory. *)
Definition tview (o : option (list Z)) s (g : tree) : view :=
  match o with None => bl s | Some buf => upd (bl s) (g ino SInd) buf end.

(** After [k] blocks, with [R] free blocks and [A] frames to spare. *)
Record winv (o : option (list Z)) s (g : tree) (i : Inode) (k R A : Z) : Prop := {
  w_ok : ok s;
  w_nblk : nblk s = nblk s0;
  w_gen : GENERATION s = GENERATION s0;
  w_rep : rep (cap s0) (iupd (inode_at (bl s)) ino i) (tview o s g) g;
  w_ext : ext ino (bl s0) g0 (bl s) g;
  w_flags : flags i = F_FILE;
  w_size : size i = size (inode_at (bl s0) ino);
  w_cont : ∀ m, 0 ≤ m < k → g ino (dslot m) ≠ 0 ∧ bl s (g ino (dslot m)) = page_of (rem m);
  w_room : R + 2 * nch (rem k) ≤ room (bl s) (cap s0);
  w_avail : A + 16 * nch (rem k) ≤ avail s;
  w_tbl : match o with None => True | Some _ => g ino SInd ≠ 0 end;
  w_k : 0 ≤ k
}.

Lemma w_cap o s g i k R A : winv o s g i k R A → cap s = cap s0.
Proof. intros W. unfold cap. by rewrite (w_nblk _ _ _ _ _ _ _ W). Qed.

Lemma w_inode_wf o s g i k R A : winv o s g i k R A → inode_wf i.
Proof. intros W. pose proof (rep_wf _ _ _ _ (w_rep _ _ _ _ _ _ _ W) ino ino_range) as Hw. by rewrite iupd_eq in Hw. Qed.

Lemma w_top o s g i k R A t :
  winv o s g i k R A → slot_ok t → parent t = None → inode_ptr i t = g ino t.
Proof.
  intros W Hok Hp. pose proof (rep_ptr _ _ _ _ (w_rep _ _ _ _ _ _ _ W) ino t ino_range Hok) as E.
  unfold ptr in E. by rewrite Hp, iupd_eq in E.
Qed.

Lemma w_iused o s g i k R A : winv o s g i k R A → iused (tview o s g) ino = true.
Proof.
  intros W. eapply rep_live; [apply (w_rep _ _ _ _ _ _ _ W)|done|]. rewrite iupd_eq, (w_flags _ _ _ _ _ _ _ W). done.
Qed.

Lemma w_own o s g i k R A t :
  winv o s g i k R A → g ino t ≠ 0 → DATA_BLOCK_START ≤ g ino t < cap s0 ∧ g ino t < nblk s0 ∧ cap s0 ≤ BM_BITS.
Proof.
  intros W Hne. destruct (rep_own _ _ _ _ (w_rep _ _ _ _ _ _ _ W) ino t Hne) as [Hr _].
  destruct (cap_bounds s0). lia.
Qed.

(** Frames may be spent. *)
Lemma w_spend o s s' g i k R A n :
  winv o s g i k R A → step n s s' → dev s' = dev s → winv o s' g i k R (A - n).
Proof.
  intros W Hs Hd. assert (bl s' = bl s) as E by (unfold bl; by rewrite Hd).
  destruct W as [Wok Wn Wg Wr We Wf Ws Wc Wm Wa Wt Wk]. destruct Hs as (Hok & Hn & Ha & Hg).
  split; rewrite ?E; [exact Hok|congruence|congruence| |exact We|exact Wf|exact Ws|exact Wc|exact Wm|lia|exact Wt|exact Wk].
  destruct o; simpl in *; by rewrite E.
Qed.

Lemma inode_at_ext v v' j :
  0 ≤ j < MAX_INODES → (∀ b, INODE_TBL_BLOCK ≤ b < DATA_BLOCK_START → v' b = v b) → inode_at v' j = inode_at v j.
Proof. intros Hj Hv. unfold inode_at. by rewrite Hv by by apply inode_block_range. Qed.

Lemma rep_im c im im' v g : (∀ i, 0 ≤ i < MAX_INODES → im' i = im i) → rep c im v g → rep c im' v g.
Proof. intros Hi R. eapply rep_frame; [done|done|done|done|]. apply (rep_page _ _ _ _ R). Qed.

(** A freshly allocated block goes into the empty slot [t] of [ino]; [o'] and [i']
    are the table in memory and the inode afterwards. *)
Lemma w_alloc_common o o' s s' g i i' k R A t b n :
  winv o s g i k R A → step n s s' → fresh (bl s) (cap s0) b → allocated (bl s) (bl s') b → g ino t = 0 →
  rep (cap s0) (iupd (inode_at (bl s)) ino i') (tview o' s' (gset g ino t b)) (gset g ino t b) →
  flags i' = flags i → size i' = size i →
  match o' with None => True | Some _ => gset g ino t b ino SInd ≠ 0 end →
  winv o' s' (gset g ino t b) i' k (R - 1) (A - n).
Proof.
  intros W Hs Hf Ha Hz R' Hfl Hsz Ht'. destruct (cap_bounds s0) as [Hc1 Hc2].
  destruct W as [Wok Wn Wg Wr We Wf Ws Wc Wm Wa Wt Wk]. destruct Hs as (Hok & Hn & Hav & Hg).
  split; [exact Hok|congruence|congruence| | |congruence|congruence| | | |exact Ht'|exact Wk].
  - eapply rep_im; [|exact R']. intros j Hj. unfold iupd. case_decide; [done|]. apply inode_at_ext; [done|].
    intros b' Hb'. eapply allocated_sys; [done..| |]; unfold INODE_TBL_BLOCK, BLOCK_BM_BLOCK in *; lia.
  - eapply ext_trans; [done|]. by eapply ext_alloc.
  - intros m Hm. destruct (Wc m Hm) as [Hne Hc]. assert (dslot m ≠ t) by congruence.
    rewrite gset_ne by (by right). split; [done|]. rewrite <- Hc.
    destruct (rep_own _ _ _ _ Wr ino _ Hne) as [Hown Hu].
    destruct Ha as (_ & Ho & _). unfold DATA_BLOCK_START, BLOCK_BM_BLOCK, INODE_TBL_BLOCK in *.
    apply Ho; [lia|unfold BLOCK_BM_BLOCK, INODE_TBL_BLOCK; lia|].
    intros Eb. rewrite Eb in Hu. destruct Hf as [Hbr Hbu]. destruct o as [buf|]; simpl in Hu; [|congruence].
    assert (used (upd (bl s) (g ino SInd) buf) b = used (bl s) b) as E; [|congruence].
    destruct (rep_own _ _ _ _ Wr ino SInd Wt) as [HT _].
    unfold DATA_BLOCK_START in *. apply used_ext; [lia|]. unfold BLOCK_BM_BLOCK, INODE_TBL_BLOCK. intros b' Hb'.
    apply upd_ne. lia.
  - enough (room (bl s) (cap s0) - 1 ≤ room (bl s') (cap s0)) by lia. eapply room_use with (b := b).
    intros j Hj. apply Ha. lia.
  - lia.
Qed.

Lemma w_alloc_top s g i k R A t :
  winv None s g i k R A → 1 ≤ R → 7 ≤ A → slot_ok t → parent t = None → g ino t = 0 →
  wp alloc_block s (λ b s', winv None s' (gset g ino t b) (inc_nblocks (set_ptr t b i)) k (R - 1) (A - 6) ∧
    b ≠ 0).
Proof.
  intros W HR HA Hok Hp Hz. pose proof (nch_nonneg (rem k)).
  pose proof (w_room _ _ _ _ _ _ _ W). pose proof (w_avail _ _ _ _ _ _ _ W).
  pose proof (w_cap _ _ _ _ _ _ _ W) as Hcap. destruct (cap_bounds s0) as [Hc1 Hc2].
  eapply wp_mono; [apply alloc_block_spec|].
  - apply W.
  - by rewrite (w_nblk _ _ _ _ _ _ _ W).
  - rewrite Hcap. lia.
  - lia.
  - intros b s' (Hs & Hf & _ & Ha). rewrite Hcap in Hf.
    destruct (set_ptr_facts t b i (w_inode_wf _ _ _ _ _ _ _ W) (fresh_u32 _ _ _ Hf Hc2) Hp Hok)
      as (Hwf & Hfl & Hsz & Hptr).
    split; [|destruct Hf as [Hbr _]; unfold DATA_BLOCK_START in Hbr; lia].
    eapply w_alloc_common; try done. simpl.
    eapply rep_im; [|eapply rep_alloc_top; [exact (w_rep _ _ _ _ _ _ _ W)|done|exact Hok|done|exact Hz|exact Hf|exact Ha|
      apply bl_page|exact (w_iused _ _ _ _ _ _ _ W)|exact Hwf|..]].
    + intros j _. unfold iupd. by case_decide.
    + by rewrite iupd_eq.
    + by rewrite iupd_eq.
    + by rewrite iupd_eq.
Qed.

Lemma rem_step k : 0 ≤ k → rem k ≠ [] → drop (chunk_of (rem k)) (rem k) = rem (k + 1).
Proof.
  intros Hk Hne. unfold rem, chunk_of. rewrite drop_drop, length_drop.
  destruct (decide (Z.to_nat (BLOCK_SIZE * (k + 1)) ≤ length data)%nat).
  - f_equal. unfold BLOCK_SIZE in *. lia.
  - rewrite !drop_ge; [done|unfold BLOCK_SIZE in *; lia..].
Qed.

Lemma rem_bytes k : Forall is_byte (rem k).
Proof. by apply Forall_drop. Qed.

Lemma tview_upd o s s' g b p :
  (∀ b', 0 ≤ b' → bl s' b' = upd (bl s) b p b') → g ino SInd ≠ b →
  ∀ b', 0 ≤ b' → tview o s' g b' = upd (tview o s g) b p b'.
Proof.
  intros Hv Hne b' Hb'. destruct o as [buf|]; simpl; [|by apply Hv].
  destruct (decide (b' = g ino SInd)) as [->|]; [by rewrite upd_eq, upd_ne, upd_eq|].
  rewrite upd_ne, Hv by done. unfold upd. case_decide; [done|]. by rewrite decide_False.
Qed.

Lemma tview_page o s g : (∀ buf, o = Some buf → is_page buf) → ∀ b, is_page (tview o s g b).
Proof. intros Ho b. destruct o as [buf|]; simpl; [|apply bl_page]. unfold upd. case_decide; [by apply Ho|apply bl_page]. Qed.

Lemma w_buf_page buf s g i k R A : winv (Some buf) s g i k R A → is_page buf.
Proof.
  intros W. pose proof (rep_page _ _ _ _ (w_rep _ _ _ _ _ _ _ W) (g ino SInd)) as Hp. simpl in Hp. by rewrite upd_eq in Hp.
Qed.

Lemma w_chunk o s g i k R A :
  winv o s g i k R A → rem k ≠ [] → g ino (dslot k) ≠ 0 → 0 ≤ A →
  wp (write_chunk (g ino (dslot k)) (rem k)) s (λ rest s', rest = rem (k + 1) ∧
    winv o s' g i (k + 1) (R + 2) (A + 15)).
Proof.
  intros W Hne Hg HA. pose proof (nch_pos _ Hne). destruct (w_own _ _ _ _ _ _ _ _ W Hg) as (Hr & Hrn & Hc).
  pose proof (w_avail _ _ _ _ _ _ _ W). pose proof (w_k _ _ _ _ _ _ _ W) as Hk. unfold DATA_BLOCK_START in Hr.
  eapply wp_mono; [apply write_chunk_spec; [apply W|rewrite (w_nblk _ _ _ _ _ _ _ W); lia|lia|apply rem_bytes]|].
  intros rest s' (-> & Hs & Hv). rewrite <- rem_step by done. split; [done|].
  pose proof (nch_drop _ Hne) as Hnch.
  assert (∀ b, 0 ≤ b → b ≠ g ino (dslot k) → bl s' b = bl s b) as Hsame.
  { intros b Hb Hb'. rewrite Hv by done. by apply upd_ne. }
  destruct W as [Wok Wn Wg Wr We Wf Ws Wc Wm Wa Wt Wk]. destruct Hs as (Hok & Hn & Hav & Hgen).
  split; [exact Hok|congruence|congruence| | |exact Wf|exact Ws| | | |exact Wt|lia].
  - eapply rep_frame; [exact Wr|..].
    + intros j Hj. unfold iupd. case_decide; [done|]. apply inode_at_ext; [done|].
      unfold DATA_BLOCK_START, INODE_TBL_BLOCK. intros b Hb. apply Hsame; lia.
    + unfold INODE_BM_BLOCK, INODE_TBL_BLOCK. intros b Hb.
      destruct (decide (g ino SInd = g ino (dslot k))) as [E|E].
      { exfalso. symmetry in E. apply (rep_inj _ _ _ _ Wr) in E as [_ E]; [|done]. by destruct (dslot_data k); rewrite E. }
      rewrite (tview_upd o s s' g _ _ Hv E) by lia. apply upd_ne. lia.
    + intros j t Hj Ht. assert (g j t ≠ g ino (dslot k)).
      { intros E. apply (rep_inj _ _ _ _ Wr) in E as [-> ->]; [|done]. by apply dslot_data in Ht. }
      pose proof (owned_range _ _ _ _ _ _ Wr Hj) as Hjr. unfold DATA_BLOCK_START in Hjr.
      destruct (decide (g ino SInd = g ino (dslot k))) as [E|E].
      { exfalso. symmetry in E. apply (rep_inj _ _ _ _ Wr) in E as [_ E]; [|done]. by destruct (dslot_data k); rewrite E. }
      rewrite (tview_upd o s s' g _ _ Hv E) by lia. by apply upd_ne.
    + apply tview_page. intros buf ->. pose proof (rep_page _ _ _ _ Wr (g ino SInd)) as Hp. simpl in Hp. by rewrite upd_eq in Hp.
  - eapply ext_trans; [done|]. apply (ext_write ino _ _ g (dslot k) (page_of (rem k))); [unfold DATA_BLOCK_START; lia|exact Hv].
  - intros m Hm. destruct (decide (m = k)) as [->|Hmk].
    + split; [done|]. rewrite Hv by lia. apply upd_eq.
    + destruct (Wc m ltac:(lia)) as [Hgm Hcm]. split; [done|]. rewrite <- Hcm.
      pose proof (owned_range _ _ _ _ _ _ Wr Hgm) as Hgr. unfold DATA_BLOCK_START in Hgr. apply Hsame; [lia|].
      intros E. apply (rep_inj _ _ _ _ Wr) in E as [_ E]; [|done]. apply Hmk. apply dslot_inj in E; lia.
  - rewrite rem_step in Hnch by done. rewrite Hnch.
    rewrite (room_ext (bl s)); [lia|]. intros j Hj. apply used_ext; [lia|].
    unfold BLOCK_BM_BLOCK, INODE_TBL_BLOCK. intros b Hb. apply Hsame; lia.
  - rewrite rem_step in Hnch by done. rewrite Hnch. lia.
Qed.

Lemma w_weaken o s g i k R A R' A' : winv o s g i k R A → R' ≤ R → A' ≤ A → winv o s g i k R' A'.
Proof.
  intros [Wok Wn Wg Wr We Wf Ws Wc Wm Wa Wt Wk] HR HA.
  split; [exact Wok|exact Wn|exact Wg|exact Wr|exact We|exact Wf|exact Ws|exact Wc|lia|lia|exact Wt|exact Wk].
Qed.

Lemma rep_im_ptr c im im' v g :
  rep c im v g →
  (∀ i, 0 ≤ i < MAX_INODES → inode_wf (im' i) ∧ flags (im' i) = flags (im i) ∧ size (im' i) = size (im i) ∧
     ∀ t, inode_ptr (im' i) t = inode_ptr (im i) t) → rep c im' v g.
Proof.
  intros [Rp Ro Rw Ri Rf Rr Rfi Rwf Rpg Rc] Him. split; try done.
  - intros i t Hi Hok. rewrite Rp by done. unfold ptr. destruct (Him i Hi) as (_ & _ & _ & Hptr).
    destruct (parent t); [done|]. by rewrite Hptr.
  - intros i Hi Hu. destruct (Him i Hi) as (_ & -> & _). by apply Rf.
  - intros i n Hi. destruct (Him i Hi) as (_ & -> & -> & _). by apply Rfi.
  - intros i Hi. apply Him, Hi.
Qed.

Lemma rep_inc c im v g i :
  inode_wf i → rep c (iupd im ino i) v g → rep c (iupd im ino (inc_nblocks i)) v g.
Proof.
  intros Hwf R. eapply rep_im_ptr; [exact R|]. intros j Hj. unfold iupd. case_decide; [by apply inc_nblocks_facts|].
  pose proof (rep_wf _ _ _ _ R j Hj) as Hw. rewrite iupd_ne in Hw by done. done.
Qed.

Lemma w_fresh_tview buf s g i k R A b :
  winv (Some buf) s g i k R A → fresh (bl s) (cap s0) b → fresh (tview (Some buf) s g) (cap s0) b.
Proof.
  intros W [Hb Hu]. split; [done|]. simpl. destruct (cap_bounds s0).
  destruct (w_own _ _ _ _ _ _ _ _ W (w_tbl _ _ _ _ _ _ _ W)) as [HT _]. unfold DATA_BLOCK_START in *.
  rewrite <- Hu. apply used_ext; [lia|]. unfold BLOCK_BM_BLOCK, INODE_TBL_BLOCK. intros b' Hb'. apply upd_ne. lia.
Qed.

(** Taking or allocating entry [j] of the indirect table held in memory. *)
Lemma w_ind_slot buf s g i k R A j :
  winv (Some buf) s g i k R A → 1 ≤ R → 7 ≤ A → 0 ≤ j < PTRS_PER_INDIRECT →
  wp (get_or_alloc (j * 4) buf i) s (λ r s', ∃ blk buf' i' new g', r = (blk, buf', i', new) ∧
    winv (Some buf') s' g' i' k (R - 1) (A - 6) ∧ blk = g' ino (SIndE j) ∧ blk ≠ 0 ∧
    g' ino SInd = g ino SInd).
Proof.
  intros W HR HA Hj. pose proof (w_tbl _ _ _ _ _ _ _ W) as HT. pose proof (w_rep _ _ _ _ _ _ _ W) as Rp.
  pose proof (rep_ptr _ _ _ _ Rp ino (SIndE j) ino_range Hj) as Eptr. unfold ptr in Eptr. simpl in Eptr.
  destruct (Z.eqb_spec (g ino SInd) 0) as [|_]; [done|]. rewrite upd_eq in Eptr. unfold get_or_alloc. rewrite <- Eptr.
  destruct (Z.eqb_spec (g ino (SIndE j)) 0) as [Ez|Hnz]; simpl negb; cbv iota.
  2:{ apply wp_ret. do 5 eexists. split; [reflexivity|]. split; [eapply w_weaken; [exact W|lia|lia]|done]. }
  pose proof (nch_nonneg (rem k)). pose proof (w_room _ _ _ _ _ _ _ W). pose proof (w_avail _ _ _ _ _ _ _ W).
  pose proof (w_cap _ _ _ _ _ _ _ W) as Hcap. destruct (cap_bounds s0) as [Hc1 Hc2].
  wp_step alloc_block_spec; [apply W|by rewrite (w_nblk _ _ _ _ _ _ _ W)|rewrite Hcap; lia|lia|].
  intros b s' (Hs & Hf & _ & Ha). rewrite Hcap in Hf. apply wp_ret. do 5 eexists. split; [reflexivity|].
  pose proof (w_fresh_tview _ _ _ _ _ _ _ _ W Hf) as Hf'.
  pose proof (owned_ne_fresh _ _ _ _ _ _ _ Rp Hf' HT) as HTb.
  destruct (w_own _ _ _ _ _ _ _ _ W HT) as [HTr _]. pose proof (w_buf_page _ _ _ _ _ _ _ W) as Hbuf.
  destruct (cell_range (SIndE j) SInd Hj eq_refl) as [Hcell1 Hcell2]. simpl in Hcell1, Hcell2.
  assert (gset g ino (SIndE j) b ino SInd = g ino SInd) as EInd by (by apply gset_ne; right).
  split; [|split; [by rewrite gset_eq|split; [destruct Hf as [Hbr _]; unfold DATA_BLOCK_START in Hbr; lia|exact EInd]]].
  eapply w_alloc_common; [exact W|exact Hs|exact Hf|exact Ha|exact Ez| |done|done|rewrite EInd; exact HT].
  apply rep_inc; [exact (w_inode_wf _ _ _ _ _ _ _ W)|].
  assert (is_page (poke (j * 4) (le_bytes 4 b) buf)) as Hpg.
  { apply page_poke; [done|apply le_bytes_byte|lia|]. unfold len. rewrite length_le_bytes. lia. }
  eapply rep_alloc_table with (p := SInd) (v' := upd (bl s') (g ino SInd) buf);
    [exact Rp|done|exact Hj|done|exact Ez|exact HT|exact Hf'|apply allocated_upd; [apply HTr|done|done]| |
     exact (w_iused _ _ _ _ _ _ _ W)| |].
  - apply tview_page. by intros ? [= <-].
  - simpl. rewrite EInd, !upd_eq. done.
  - intros b' Hb' Hne. simpl. rewrite EInd. by rewrite !upd_ne.
Qed.

(** One level of the double-indirect walk. *)
Lemma w_table_slot s g i k R A t p :
  winv None s g i k R A → 1 ≤ R → 8 ≤ A → slot_ok t → parent t = Some p → g ino p ≠ 0 →
  wp (table_slot (g ino p) (pos t * 4) i) s (λ r s', ∃ i' g', r = (g' ino t, i') ∧
    winv None s' g' i' k (R - 1) (A - 7) ∧ g' ino t ≠ 0 ∧ ∀ t', g ino t' ≠ 0 → g' ino t' = g ino t').
Proof.
  intros W HR HA Hok Hp HT. pose proof (w_rep _ _ _ _ _ _ _ W) as Rp. simpl in Rp.
  pose proof (nch_nonneg (rem k)). pose proof (w_room _ _ _ _ _ _ _ W). pose proof (w_avail _ _ _ _ _ _ _ W).
  destruct (w_own _ _ _ _ _ _ _ _ W HT) as (HTr & HTn & _). unfold DATA_BLOCK_START in HTr.
  unfold table_slot. wp_step read_block_spec; [apply W|rewrite (w_nblk _ _ _ _ _ _ _ W); lia|lia|].
  intros buf s1 (-> & Hd1 & Hs1). pose proof (w_spend _ _ _ _ _ _ _ _ _ W Hs1 Hd1) as W1.
  assert (bl s1 = bl s) as E1 by (unfold bl; by rewrite Hd1).
  pose proof (rep_ptr _ _ _ _ Rp ino t ino_range Hok) as Eptr. unfold ptr in Eptr. rewrite Hp in Eptr.
  destruct (Z.eqb_spec (g ino p) 0) as [|_]; [done|]. unfold get_or_alloc. rewrite <- Eptr.
  destruct (Z.eqb_spec (g ino t) 0) as [Ez|Hnz]; simpl negb; cbv iota.
  2:{ apply wp_bind, wp_ret, wp_bind, wp_ret, wp_ret. exists i, g. split; [done|].
      split; [eapply w_weaken; [exact W1|lia|lia]|done]. }
  pose proof (w_cap _ _ _ _ _ _ _ W1) as Hcap. destruct (cap_bounds s0) as [Hc1 Hc2].
  pose proof (w_room _ _ _ _ _ _ _ W1). pose proof (w_avail _ _ _ _ _ _ _ W1).
  apply wp_bind. wp_step alloc_block_spec; [apply W1|by rewrite (w_nblk _ _ _ _ _ _ _ W1)|rewrite Hcap; lia|lia|].
  intros b s2 (Hs2 & Hf & _ & Ha). rewrite Hcap, E1 in Hf. rewrite E1 in Ha. apply wp_ret.
  destruct (cell_range t p Hok Hp) as [Hcell1 Hcell2].
  assert (nblk s2 = nblk s0) as Hn2 by (rewrite (step_nblk _ _ _ Hs2); apply W1).
  wp_step write_block_spec; [by eapply step_ok|rewrite Hn2; lia| |].
  { apply page_poke; [apply bl_page|apply le_bytes_byte|lia|]. unfold len. rewrite length_le_bytes. lia. }
  intros _ s3 [Hs3 Hv]. apply wp_ret. exists (inc_nblocks i), (gset g ino t b).
  rewrite gset_eq. split; [done|].
  split; [|split; [destruct Hf as [Hbr _]; unfold DATA_BLOCK_START in Hbr; lia|]].
  2:{ intros t' Ht'. apply gset_ne. right. intros ->. done. }
  assert (step 6 s1 s3) as Hs13 by (eapply step_trans; [exact Hs2|exact Hs3|lia]).
  assert (∀ b', 0 ≤ b' → b' ≠ g ino p → bl s3 b' = bl s2 b') as Hoth.
  { intros b' Hb' Hne. rewrite Hv by done. by apply upd_ne. }
  eapply w_weaken with (R := R - 1) (A := A - 1 - 6); [|lia|lia].
  pose proof (owned_ne_fresh _ _ _ _ _ _ _ Rp Hf HT) as HTb.
  pose proof (rep_alloc_table _ _ _ _ (bl s3) _ ino t p b Rp ino_range Hok Hp Ez HT Hf Ha (bl_page s3)
    (w_iused _ _ _ _ _ _ _ W)) as R3.
  assert (rep (cap s0) (iupd (inode_at (bl s)) ino i) (bl s3) (gset g ino t b)) as R3'.
  { apply R3; [rewrite Hv by lia; apply upd_eq|done]. }
  destruct W1 as [Wok Wn Wg Wr We Wf Ws Wc Wm Wa Wt Wk]. destruct Hs13 as (Hok3 & Hn3 & Hav3 & Hg3).
  assert (∀ b', 0 ≤ b' < DATA_BLOCK_START → bl s3 b' = bl s2 b') as Hsys.
  { unfold DATA_BLOCK_START. intros b' Hb'. apply Hoth; lia. }
  split; [exact Hok3|congruence|congruence| | |done|done| | |lia|done|done].
  - apply rep_inc; [exact (w_inode_wf _ _ _ _ _ _ _ W)|]. eapply rep_im; [|exact R3'].
    intros j Hj. unfold iupd. case_decide; [done|]. apply inode_at_ext; [done|].
    intros b' Hb'. rewrite Hsys by (unfold INODE_TBL_BLOCK in Hb'; lia).
    eapply allocated_sys; [done..| |]; unfold INODE_TBL_BLOCK, BLOCK_BM_BLOCK in *; lia.
  - rewrite E1 in We. eapply ext_trans; [exact We|]. eapply ext_trans; [by eapply ext_alloc|].
    assert (gset g ino t b ino p = g ino p) as Egp by (apply gset_ne; right; intros ->; congruence).
    eapply (ext_write ino _ _ _ p); [rewrite Egp; unfold DATA_BLOCK_START; lia|]. rewrite Egp. exact Hv.
  - intros m Hm. destruct (Wc m Hm) as [Hne Hc]. assert (dslot m ≠ t) by congruence.
    rewrite gset_ne by (by right). split; [done|]. rewrite <- Hc, E1.
    pose proof (owned_range _ _ _ _ _ _ Rp Hne) as Hr. unfold DATA_BLOCK_START in Hr.
    rewrite Hoth; [by eapply allocated_owned|lia|]. intros E.
    apply (rep_inj _ _ _ _ Rp) in E as [_ E]; [|done]. apply parent_table in Hp. apply (dslot_data m). by rewrite E.
  - assert (room (bl s) (cap s0) - 1 ≤ room (bl s2) (cap s0)).
    { eapply room_use with (b := b). intros j Hj. apply Ha. lia. }
    rewrite (room_ext (bl s2)); [rewrite E1 in Wm; lia|]. intros j Hj. apply used_ext; [lia|].
    intros b' Hb'. apply Hsys. unfold BLOCK_BM_BLOCK, INODE_TBL_BLOCK, DATA_BLOCK_START in *. lia.
Qed.

(** ** The three phases *)

Lemma direct_lookup o s g i k R A j :
  winv o s g i k R A → 0 ≤ j < DIRECT_PTRS → direct i !! Z.to_nat j = Some (g ino (SDir j)).
Proof.
  intros W Hj. destruct (w_inode_wf _ _ _ _ _ _ _ W) as (_ & [Hd _] & _).
  pose proof (w_top _ _ _ _ _ _ _ (SDir j) W Hj eq_refl) as E. simpl in E. unfold DIRECT_PTRS in Hj.
  destruct (lookup_lt_is_Some_2 (direct i) (Z.to_nat j)) as [x Hx]; [rewrite Hd; lia|].
  rewrite Hx in E |- *. simpl in E. by rewrite E.
Qed.

Lemma dslot_dir k : 0 ≤ k < DIRECT_PTRS → dslot k = SDir k.
Proof. intros. unfold dslot. destruct (Z.ltb_spec k DIRECT_PTRS); [done|lia]. Qed.
Lemma dslot_ind j : 0 ≤ j < PTRS_PER_INDIRECT → dslot (DIRECT_PTRS + j) = SIndE j.
Proof.
  intros. unfold dslot. destruct (Z.ltb_spec (DIRECT_PTRS + j) DIRECT_PTRS); [lia|].
  destruct (Z.ltb_spec (DIRECT_PTRS + j) (DIRECT_PTRS + PTRS_PER_INDIRECT)); [|lia]. f_equal. lia.
Qed.
Lemma dslot_dind j : 0 ≤ j →
  dslot (DIRECT_PTRS + PTRS_PER_INDIRECT + j) = SL2 (j / PTRS_PER_INDIRECT) (j mod PTRS_PER_INDIRECT).
Proof.
  intros. unfold dslot. assert (0 < PTRS_PER_INDIRECT) by done.
  destruct (Z.ltb_spec (DIRECT_PTRS + PTRS_PER_INDIRECT + j) DIRECT_PTRS); [lia|].
  destruct (Z.ltb_spec (DIRECT_PTRS + PTRS_PER_INDIRECT + j) (DIRECT_PTRS + PTRS_PER_INDIRECT)); [lia|].
  f_equal; f_equal; lia.
Qed.

Lemma w_direct n k s g i R A :
  Z.of_nat n + k = DIRECT_PTRS → winv None s g i k R A → 1 ≤ R → 7 ≤ A →
  wp (write_direct n (Z.to_nat k) i (rem k)) s (λ r s', ∃ i' g' k', r = (i', rem k') ∧
    winv None s' g' i' k' R A ∧ (rem k' = [] ∨ k' = DIRECT_PTRS)).
Proof.
  revert k s g i. induction n as [|n IH]; intros k s g i Hnk W HR HA; cbn [write_direct].
  { apply wp_ret. exists i, g, k. split; [done|]. split; [done|]. right. lia. }
  pose proof (w_k _ _ _ _ _ _ _ W) as Hk.
  destruct (decide (rem k = [])) as [Er|Hne].
  { apply wp_ret. exists i, g, k. auto. }
  assert (0 ≤ k < DIRECT_PTRS) as Hkr by lia.
  apply wp_bind. eapply wp_lift; [by erewrite direct_lookup|].
  apply wp_bind. eapply wp_mono with (Q := λ i1 s1, ∃ g1, winv None s1 g1 i1 k (R - 1) (A - 6) ∧ g1 ino (SDir k) ≠ 0).
  - destruct (Z.eqb_spec (g ino (SDir k)) 0) as [Ez|Hnz].
    + wp_step (w_alloc_top s g i k R A (SDir k)); try done. intros b s1 [W1 Hb]. apply wp_ret.
      exists (gset g ino (SDir k) b). split; [exact W1|by rewrite gset_eq].
    + apply wp_ret. exists g. split; [eapply w_weaken; [exact W|lia|lia]|done].
  - intros i1 s1 (g1 & W1 & Hnz). apply wp_bind. eapply wp_lift; [by erewrite direct_lookup|].
    rewrite <- dslot_dir in Hnz |- * by done.
    wp_step w_chunk; [exact W1|done|done|lia|]. intros rest s2 [-> W2].
    replace (S (Z.to_nat k)) with (Z.to_nat (k + 1)) by lia.
    eapply (IH (k + 1)); [lia|eapply w_weaken; [exact W2|lia|lia]|done|done].
Qed.

Lemma w_indirect n j s g i buf R A :
  Z.of_nat n + j = PTRS_PER_INDIRECT → 0 ≤ j → winv (Some buf) s g i (DIRECT_PTRS + j) R A → 1 ≤ R → 7 ≤ A →
  wp (write_indirect n j i buf (rem (DIRECT_PTRS + j))) s (λ r s', ∃ i' buf' g' k', r = (i', buf', rem k') ∧
    winv (Some buf') s' g' i' k' R A ∧ (rem k' = [] ∨ k' = DIRECT_PTRS + PTRS_PER_INDIRECT)).
Proof.
  revert j s g i buf. induction n as [|n IH]; intros j s g i buf Hnj Hj W HR HA; cbn [write_indirect].
  { apply wp_ret. exists i, buf, g, (DIRECT_PTRS + j). split; [done|]. split; [done|]. right. lia. }
  destruct (decide (rem (DIRECT_PTRS + j) = [])) as [Er|Hne].
  { apply wp_ret. exists i, buf, g, (DIRECT_PTRS + j). auto. }
  wp_step w_ind_slot; [exact W|done|done|lia|].
  intros r s1 (blk & buf1 & i1 & new & g1 & -> & W1 & -> & Hnz & _). cbv iota.
  rewrite <- dslot_ind in Hnz |- * by lia.
  wp_step w_chunk; [exact W1|done|done|lia|]. intros rest s2 [-> W2]. rewrite <- Z.add_assoc in W2 |- *.
  eapply (IH (j + 1)); [lia|lia|eapply w_weaken; [exact W2|lia|lia]|done|done].
Qed.

(** Loading the indirect table into memory and flushing it. *)
Lemma w_load s g i k R A :
  winv None s g i k R A → g ino SInd ≠ 0 → winv (Some (bl s (g ino SInd))) s g i k R A.
Proof.
  intros [Wok Wn Wg Wr We Wf Ws Wc Wm Wa Wt Wk] Hne.
  split; [exact Wok|exact Wn|exact Wg| |exact We|exact Wf|exact Ws|exact Wc|exact Wm|exact Wa|exact Hne|exact Wk].
  assert (∀ b, tview (Some (bl s (g ino SInd))) s g b = bl s b) as E.
  { intros b. simpl. unfold upd. case_decide; [by subst|done]. }
  eapply rep_frame; [exact Wr|done|intros; apply E|intros; apply E|]. intros b. rewrite E. apply bl_page.
Qed.

Lemma w_flush buf s g i k R A :
  winv (Some buf) s g i k R A →
  wp (write_block (g ino SInd) buf) s (λ _ s', winv None s' g i k R A).
Proof.
  intros W. pose proof (w_tbl _ _ _ _ _ _ _ W) as HT. destruct (w_own _ _ _ _ _ _ _ _ W HT) as (HTr & HTn & _).
  unfold DATA_BLOCK_START in HTr.
  eapply wp_mono; [apply write_block_spec;
    [apply W|rewrite (w_nblk _ _ _ _ _ _ _ W); lia|exact (w_buf_page _ _ _ _ _ _ _ W)]|].
  intros _ s' [Hs Hv].
  assert (∀ b, 0 ≤ b → b ≠ g ino SInd → bl s' b = bl s b) as Hoth.
  { intros b Hb Hne. rewrite Hv by done. by apply upd_ne. }
  destruct W as [Wok Wn Wg Wr We Wf Ws Wc Wm Wa Wt Wk]. destruct Hs as (Hok & Hn & Hav & Hg). destruct (cap_bounds s0).
  split; [exact Hok|congruence|congruence| | |exact Wf|exact Ws| | |lia|done|exact Wk].
  - eapply rep_frame; [exact Wr|..|apply bl_page].
    + intros j Hj. unfold iupd. case_decide; [done|]. apply inode_at_ext; [done|].
      unfold DATA_BLOCK_START, INODE_TBL_BLOCK. intros b Hb. apply Hoth; lia.
    + unfold INODE_BM_BLOCK, INODE_TBL_BLOCK. intros b Hb. simpl. by rewrite Hv by lia.
    + intros j t Hne _. pose proof (owned_range _ _ _ _ _ _ Wr Hne) as Hr. unfold DATA_BLOCK_START in Hr.
      simpl. by rewrite Hv by lia.
  - eapply ext_trans; [exact We|]. apply (ext_write ino _ _ g SInd buf); [unfold DATA_BLOCK_START; lia|exact Hv].
  - intros m Hm. destruct (Wc m Hm) as [Hne Hc]. split; [done|]. rewrite <- Hc.
    pose proof (owned_range _ _ _ _ _ _ Wr Hne) as Hr. unfold DATA_BLOCK_START in Hr. apply Hoth; [lia|].
    intros E. apply (rep_inj _ _ _ _ Wr) in E as [_ E]; [|done]. apply (dslot_data m). by rewrite E.
  - rewrite (room_ext (bl s)); [done|]. intros j Hj. apply used_ext; [lia|].
    unfold BLOCK_BM_BLOCK, INODE_TBL_BLOCK. intros b Hb. apply Hoth; lia.
Qed.

(** Taking or allocating a pointer of the inode. *)
Lemma w_top_slot s g i k R A t :
  winv None s g i k R A → 1 ≤ R → 7 ≤ A → slot_ok t → parent t = None →
  wp (if inode_ptr i t =? 0 then b ← alloc_block; mret (inc_nblocks (set_ptr t b i)) else mret i) s
    (λ i1 s1, ∃ g1, winv None s1 g1 i1 k (R - 1) (A - 6) ∧ g1 ino t ≠ 0).
Proof.
  intros W HR HA Hok Hp. rewrite (w_top _ _ _ _ _ _ _ t W Hok Hp). destruct (Z.eqb_spec (g ino t) 0) as [Ez|Hnz].
  - wp_step (w_alloc_top s g i k R A t); try done. intros b s1 [W1 Hb]. apply wp_ret.
    exists (gset g ino t b). split; [exact W1|by rewrite gset_eq].
  - apply wp_ret. exists g. split; [eapply w_weaken; [exact W|lia|lia]|done].
Qed.

Lemma w_phase2 s g i k R A :
  winv None s g i k R A → (rem k = [] ∨ k = DIRECT_PTRS) → 2 ≤ R → 14 ≤ A →
  wp (write_phase2 i (rem k)) s (λ r s', ∃ i' g' k', r = (i', rem k') ∧ winv None s' g' i' k' (R - 1) (A - 7) ∧
    (rem k' = [] ∨ k' = DIRECT_PTRS + PTRS_PER_INDIRECT)).
Proof.
  intros W Hk HR HA. unfold write_phase2. destruct (decide (rem k = [])) as [Er|Hne].
  { apply wp_ret. exists i, g, k. split; [done|]. split; [eapply w_weaken; [exact W|lia|lia]|by left]. }
  destruct Hk as [?| ->]; [done|].
  wp_step (w_top_slot s g i DIRECT_PTRS R A SInd W); [lia|lia|done|done|]. intros i1 s1 (g1 & W1 & HT).
  pose proof (w_top _ _ _ _ _ _ _ SInd W1 I eq_refl) as Eind. simpl in Eind. rewrite Eind.
  destruct (w_own _ _ _ _ _ _ _ _ W1 HT) as (HTr & HTn & _). unfold DATA_BLOCK_START in HTr.
  pose proof (nch_nonneg (rem DIRECT_PTRS)). pose proof (w_avail _ _ _ _ _ _ _ W1).
  wp_step read_block_spec; [apply W1|rewrite (w_nblk _ _ _ _ _ _ _ W1); lia|lia|].
  intros buf s2 (-> & Hd & Hs2). pose proof (w_spend _ _ _ _ _ _ _ _ _ W1 Hs2 Hd) as W2.
  assert (bl s1 = bl s2) as E by (unfold bl; by rewrite Hd). rewrite E.
  pose proof (w_load _ _ _ _ _ _ W2 HT) as W3.
  wp_step (w_indirect (Z.to_nat PTRS_PER_INDIRECT) 0); [done|done|exact W3|lia|lia|].
  intros r s3 (i' & buf' & g' & k' & -> & W4 & Hk'). cbv iota.
  pose proof (w_top _ _ _ _ _ _ _ SInd W4 I eq_refl) as Eind'. simpl in Eind'. rewrite Eind'.
  wp_step w_flush; [exact W4|]. intros ? s4 W5. cbv beta in W5. apply wp_ret. exists i', g', k'. split; [done|].
  split; [eapply w_weaken; [exact W5|lia|lia]|done].
Qed.

Lemma w_dindirect fuel j s g i R A :
  (length (rem (DIRECT_PTRS + PTRS_PER_INDIRECT + j)) ≤ fuel)%nat → 0 ≤ j →
  winv None s g i (DIRECT_PTRS + PTRS_PER_INDIRECT + j) R A → g ino SDind ≠ 0 → 2 ≤ R → 15 ≤ A →
  j + nch (rem (DIRECT_PTRS + PTRS_PER_INDIRECT + j)) ≤ BM_BITS →
  wp (write_dindirect fuel j i (rem (DIRECT_PTRS + PTRS_PER_INDIRECT + j))) s (λ i' s', ∃ g' k',
    winv None s' g' i' k' R A ∧ rem k' = []).
Proof.
  revert j s g i. induction fuel as [|fuel IH]; intros j s g i Hfuel Hj W HD HR HA Hmax; cbn [write_dindirect].
  { apply wp_ret. exists g, (DIRECT_PTRS + PTRS_PER_INDIRECT + j). split; [done|]. apply length_zero_iff_nil. lia. }
  set (K := DIRECT_PTRS + PTRS_PER_INDIRECT + j) in *.
  destruct (decide (rem K = [])) as [Er|Hne]; [apply wp_ret; by exists g, K|].
  pose proof (nch_pos _ Hne). assert (j < DINDIRECT_MAX_BLOCKS) as Hjm.
  { unfold BM_BITS, BLOCK_BM_LEN, DINDIRECT_MAX_BLOCKS, PTRS_PER_INDIRECT, BLOCK_SIZE in *. change (4096 / 4) with 1024. lia. }
  assert (0 < PTRS_PER_INDIRECT) as HP by done.
  assert (0 ≤ j mod PTRS_PER_INDIRECT < PTRS_PER_INDIRECT) as Hm by (apply Z.mod_pos_bound; done).
  assert (0 ≤ j / PTRS_PER_INDIRECT < PTRS_PER_INDIRECT) as Hq.
  { split; [apply Z.div_pos; lia|]. apply Z.div_lt_upper_bound; [lia|]. unfold DINDIRECT_MAX_BLOCKS in Hjm. lia. }
  apply wp_bind, wp_rassert; [by apply Z.ltb_lt|].
  pose proof (w_top _ _ _ _ _ _ _ SDind W I eq_refl) as Ed. simpl in Ed. rewrite Ed.
  wp_step (w_table_slot s g i K R A (SL1 (j / PTRS_PER_INDIRECT)) SDind); [exact W|lia|lia|exact Hq|done|exact HD|].
  intros r s1 (i1 & g1 & -> & W1 & HL1 & Hkeep1). cbv iota.
  wp_step (w_table_slot s1 g1 i1 K (R - 1) (A - 7)
    (SL2 (j / PTRS_PER_INDIRECT) (j mod PTRS_PER_INDIRECT)) (SL1 (j / PTRS_PER_INDIRECT)));
    [exact W1|lia|lia|done|done|exact HL1|].
  intros r s2 (i2 & g2 & -> & W2 & HL2 & Hkeep2). cbv iota.
  assert (dslot K = SL2 (j / PTRS_PER_INDIRECT) (j mod PTRS_PER_INDIRECT)) as Eslot by (by apply dslot_dind).
  rewrite <- Eslot in HL2 |- *.
  wp_step w_chunk; [exact W2|exact Hne|exact HL2|lia|]. intros rest s3 [-> W3].
  assert (K + 1 = DIRECT_PTRS + PTRS_PER_INDIRECT + (j + 1)) as EK by (unfold K; lia).
  pose proof (w_k _ _ _ _ _ _ _ W) as HK. pose proof (rem_step K HK Hne) as Hrs.
  assert (length (rem K) ≠ 0%nat) by (intros E0; by apply Hne, length_zero_iff_nil).
  assert (length (rem (K + 1)) < length (rem K))%nat.
  { rewrite <- Hrs, length_drop. unfold chunk_of, BLOCK_SIZE. lia. }
  pose proof (nch_drop _ Hne) as Hnd. rewrite Hrs in Hnd.
  rewrite EK in *. eapply (IH (j + 1) s3 g2); [lia|lia|eapply w_weaken; [exact W3|lia|lia]| |lia|lia|lia].
  rewrite Hkeep2; [by rewrite Hkeep1|]. by rewrite Hkeep1.
Qed.

Lemma w_phase3 s g i k R A :
  winv None s g i k R A → (rem k = [] ∨ k = DIRECT_PTRS + PTRS_PER_INDIRECT) → 3 ≤ R → 21 ≤ A →
  wp (write_phase3 i (rem k)) s (λ i' s', ∃ g' k', winv None s' g' i' k' (R - 1) (A - 6) ∧ rem k' = []).
Proof.
  intros W Hk HR HA. unfold write_phase3. destruct (decide (rem k = [])) as [Er|Hne].
  { apply wp_ret. exists g, k. split; [eapply w_weaken; [exact W|lia|lia]|done]. }
  destruct Hk as [?| ->]; [done|].
  wp_step (w_top_slot s g i (DIRECT_PTRS + PTRS_PER_INDIRECT) R A SDind W); [lia|lia|done|done|].
  intros i1 s1 (g1 & W1 & HT). rewrite <- (Z.add_0_r (DIRECT_PTRS + PTRS_PER_INDIRECT)) in W1 |- *.
  destruct (cap_bounds s0) as [_ Hc2].
  pose proof (w_room _ _ _ _ _ _ _ W1). pose proof (room_le (bl s1) (cap s0) Hc2).
  eapply (w_dindirect _ 0); [done|done|exact W1|exact HT|lia|lia|]. pose proof (nch_nonneg (rem (DIRECT_PTRS + PTRS_PER_INDIRECT + 0))). lia.
Qed.
End write.

(** ** Files as the disk holds them *)

(** File [ino] holds [data]. *)
Definition holds (v : view) (g : tree) (ino : Z) (data : list Z) : Prop :=
  flags (inode_at v ino) = F_FILE ∧ size (inode_at v ino) = len data ∧
  ∀ n, 0 ≤ n → n * BLOCK_SIZE < len data → g ino (dslot n) ≠ 0 ∧
    take (Z.to_nat (Z.min (len data - n * BLOCK_SIZE) BLOCK_SIZE)) (v (g ino (dslot n))) =
    take (Z.to_nat BLOCK_SIZE) (rem data n).

(** Inode [j], its pointers and the blocks it owns are unchanged. *)
Definition same_node (v : view) (g : tree) (v' : view) (g' : tree) (j : Z) : Prop :=
  inode_at v' j = inode_at v j ∧ (∀ t, g' j t = g j t) ∧ ∀ t, g j t ≠ 0 → v' (g j t) = v (g j t).

Lemma same_node_holds v g v' g' j data : same_node v g v' g' j → holds v g j data → holds v' g' j data.
Proof.
  intros (Hi & Hg & Hb) (Hf & Hs & Hc). unfold holds. rewrite Hi. split; [done|]. split; [done|].
  intros n Hn Hlt. destruct (Hc n Hn Hlt) as [Hne Ht]. by rewrite Hg, Hb.
Qed.

(** The file system on disk: a sound state with its ownership tree. *)
Definition fs_rep s (g : tree) : Prop :=
  ok s ∧ DATA_BLOCK_START ≤ nblk s ∧ rep (cap s) (inode_at (bl s)) (bl s) g.

Lemma rem_nil_len data k : 0 ≤ k → rem data k = [] → len data ≤ k * BLOCK_SIZE.
Proof.
  intros Hk E. apply (f_equal length) in E. unfold rem in E. rewrite length_drop in E. simpl in E.
  unfold len, BLOCK_SIZE in *. lia.
Qed.

Lemma page_of_take l n : n = Z.min (len l) BLOCK_SIZE → take (Z.to_nat n) (page_of l) = take (Z.to_nat BLOCK_SIZE) l.
Proof.
  intros ->. unfold page_of, splice. rewrite take_0. simpl app.
  assert (length (take (chunk_of l) l) = chunk_of l) as Hl by (rewrite length_take; unfold chunk_of; lia).
  assert (Z.to_nat (Z.min (len l) BLOCK_SIZE) = chunk_of l) as E by (unfold chunk_of, len; lia).
  rewrite E, take_app_le by lia. rewrite take_take, Nat.min_id. unfold chunk_of.
  destruct (decide (length l ≤ Z.to_nat BLOCK_SIZE)%nat).
  - rewrite Nat.min_l by done. rewrite !take_ge by lia. done.
  - by rewrite Nat.min_r by lia.
Qed.

Lemma len_rem data k : 0 ≤ k → k * BLOCK_SIZE < len data → len (rem data k) = len data - k * BLOCK_SIZE.
Proof. intros. unfold rem, len in *. rewrite length_drop. unfold BLOCK_SIZE in *. lia. Qed.

Lemma set_size_wf z i : inode_wf i → is_u 64 z → inode_wf (set_size z i).
Proof. intros ((Hf & Hs & Hr) & Hd) Hz. by repeat split; try apply Hf; try apply Hz; try apply Hr; try apply Hd. Qed.

(** The last step of a write: the inode goes to disk with its new size. *)
Lemma w_finish s0 g0 ino data s g i k R A :
  0 ≤ ino < MAX_INODES → DATA_BLOCK_START ≤ nblk s0 → is_u 64 (len data) →
  rep (cap s0) (inode_at (bl s0)) (bl s0) g0 →
  winv s0 g0 ino data None s g i k R A → rem data k = [] → 1 ≤ A →
  wp (write_inode ino (set_size (len data) i)) s (λ _ s', ∃ g', fs_rep s' g' ∧ nblk s' = nblk s0 ∧
    A - 1 ≤ avail s' ∧ GENERATION s' = GENERATION s0 ∧ holds (bl s') g' ino data ∧
    (∀ j, 0 ≤ j < MAX_INODES → j ≠ ino → same_node (bl s0) g0 (bl s') g' j) ∧
    (∀ b, DATA_BLOCK_START ≤ b < BM_BITS → used (bl s') b = true → used (bl s0) b = true ∨ ∃ t, g' ino t = b)).
Proof.
  intros Hino Hbig Hlen R0 W Hrem HA. pose proof (w_inode_wf _ _ _ _ Hino _ _ _ _ _ _ _ W) as Hwf.
  pose proof (w_avail _ _ _ _ _ _ _ _ _ _ _ W). pose proof (nch_nonneg (rem data k)).
  pose proof (rem_nil_len data k (w_k _ _ _ _ _ _ _ _ _ _ _ W) Hrem) as Hk.
  assert (inode_wf (set_size (len data) i)) as Hwf' by by apply set_size_wf.
  eapply wp_mono; [apply write_inode_spec; [apply W|done|by rewrite (w_nblk _ _ _ _ _ _ _ _ _ _ _ W)|lia|exact Hwf']|].
  intros _ s' [Hs [Hin Hoth]]. pose proof (w_nblk _ _ _ _ _ _ _ _ _ _ _ W) as Hn.
  destruct W as [Wok Wn Wg Wr We Wf Ws Wc Wm Wa Wt Wk]. simpl in Wr.
  assert (∀ b, 0 ≤ b → DATA_BLOCK_START ≤ b → bl s' b = bl s b) as Hdata.
  { intros b Hb Hd. apply Hoth; [done|lia]. }
  assert (∀ m, 0 ≤ m → m * BLOCK_SIZE < len data → 0 ≤ m < k) as Hm by (unfold BLOCK_SIZE in *; lia).
  exists g. split.
  { split; [by eapply step_ok|]. split; [rewrite (step_nblk _ _ _ Hs); by rewrite Hn|].
    rewrite (step_cap _ _ _ Hs). assert (cap s = cap s0) as -> by (unfold cap; by rewrite Hn).
    assert (rep (cap s0) (iupd (inode_at (bl s)) ino i) (bl s') g) as R1.
    { eapply rep_frame; [exact Wr|done| | |apply bl_page].
      - intros b Hb. unfold INODE_BM_BLOCK, INODE_TBL_BLOCK in Hb. apply Hoth; [lia|]. unfold INODE_TBL_BLOCK. lia.
      - intros j t Hne _. pose proof (owned_range _ _ _ _ _ _ Wr Hne) as Hr. unfold DATA_BLOCK_START in *.
        apply Hdata; unfold DATA_BLOCK_START; lia. }
    destruct R1 as [Rp Ro Rw Ri Rf Rr Rfi Rwf Rpg Rc]. split; try done.
    - intros j t Hj Hok. rewrite Rp by done. unfold ptr. destruct (parent t) as [p|] eqn:Ep; [done|].
      rewrite Hin by done. unfold iupd. case_decide; [subst; rewrite bool_decide_true by done; by destruct t|].
      by rewrite bool_decide_false.
    - intros j Hj Hu. rewrite Hin by done. pose proof (Rf j Hj Hu) as Hfree. unfold iupd in Hfree.
      case_decide; [subst; by rewrite bool_decide_true|by rewrite bool_decide_false].
    - intros j n Hj. rewrite Hin by done. case_bool_decide as Ej.
      + subst j. simpl. intros _ Hn0 Hlt. by apply Wc, Hm.
      + specialize (Rfi j n Hj). by rewrite iupd_ne in Rfi.
    - intros j Hj. rewrite Hin by done. case_bool_decide; [done|]. specialize (Rwf j Hj). by rewrite iupd_ne in Rwf. }
  split; [rewrite (step_nblk _ _ _ Hs); exact Hn|].
  split; [pose proof (step_avail _ _ _ Hs); lia|].
  split; [destruct Hs as (_ & _ & _ & ->); exact Wg|].
  split; [|split].
  - unfold holds. rewrite Hin, bool_decide_true by done. split; [exact Wf|]. split; [done|].
    intros n Hn0 Hlt. destruct (Wc n (Hm n Hn0 Hlt)) as [Hne Hc]. split; [done|].
    pose proof (owned_range _ _ _ _ _ _ Wr Hne) as Hr. unfold DATA_BLOCK_START in *.
    rewrite Hdata by (unfold DATA_BLOCK_START; lia). rewrite Hc. apply page_of_take. by rewrite len_rem.
  - intros j Hj Hne. split; [|split].
    + rewrite Hin, bool_decide_false by done. apply inode_at_ext; [done|]. intros b Hb.
      apply (ext_sys _ _ _ _ _ We); unfold INODE_TBL_BLOCK, BLOCK_BM_BLOCK in *; lia.
    + intros t. by apply (ext_others _ _ _ _ _ We).
    + intros t Ht. pose proof (owned_range _ _ _ _ _ _ R0 Ht) as Hr.
      destruct (rep_own _ _ _ _ R0 j t Ht) as [_ Hu].
      destruct (ext_blocks _ _ _ _ _ We (g0 j t) Hr Hu) as [<- _].
      { intros t' E. symmetry in E. apply (rep_inj _ _ _ _ R0) in E as [? _]; done. }
      apply Hdata; unfold DATA_BLOCK_START in *; lia.
  - intros b Hb Hu. apply (ext_new _ _ _ _ _ We); [done|]. rewrite <- Hu. symmetry.
    unfold DATA_BLOCK_START in Hb. apply used_ext; [lia|]. unfold BLOCK_BM_BLOCK, INODE_TBL_BLOCK. intros b' Hb'.
    apply Hoth; [lia|]. unfold INODE_TBL_BLOCK. lia.
Qed.

Lemma write_file_spec s g ino data :
  fs_rep s g → 0 ≤ ino < MAX_INODES → flags (inode_at (bl s) ino) = F_FILE → Forall is_byte data →
  4 + 2 * nch data ≤ room (bl s) (cap s) → 40 + 16 * nch data ≤ avail s →
  wp (write_file ino data) s (λ _ s', ∃ g', fs_rep s' g' ∧ nblk s' = nblk s ∧ GENERATION s' = GENERATION s ∧
    avail s - 16 * nch data - 15 ≤ avail s' ∧
    holds (bl s') g' ino data ∧
    (∀ j, 0 ≤ j < MAX_INODES → j ≠ ino → same_node (bl s) g (bl s') g' j) ∧
    (∀ b, DATA_BLOCK_START ≤ b < BM_BITS → used (bl s') b = true → used (bl s) b = true ∨ ∃ t, g' ino t = b)).
Proof.
  intros (Hok & Hbig & R) Hino Hfile Hdata Hroom Hav. unfold write_file. pose proof (nch_nonneg data).
  wp_step read_inode_spec; [done|done|done|lia|]. intros i s1 (-> & Hd & Hs1).
  apply wp_bind, wp_rassert; [by rewrite Hfile|].
  assert (rem data 0 = data) as E0 by (unfold rem; by rewrite Z.mul_0_r).
  assert (winv s g ino data None s g (inode_at (bl s) ino) 0 4 (avail s - 16 * nch data)) as W.
  { split; rewrite ?E0; try done; [|apply ext_refl|lia|lia].
    eapply rep_im; [|exact R]. intros j Hj. unfold iupd. case_decide; by subst. }
  pose proof (w_spend _ _ _ _ _ _ _ _ _ _ _ _ _ W Hs1 Hd) as W1.
  pose proof (w_direct s g ino data Hino Hdata Hbig (Z.to_nat DIRECT_PTRS) 0 _ _ _ _ _ eq_refl W1) as P1.
  rewrite E0 in P1. wp_step P1; [lia|lia|]. intros r s2 (i2 & g2 & k2 & -> & W2 & Hk2). cbv iota.
  wp_step w_phase2; [done..|exact W2|exact Hk2|lia|lia|]. intros r s3 (i3 & g3 & k3 & -> & W3 & Hk3). cbv iota.
  wp_step w_phase3; [done..|exact W3|exact Hk3|lia|lia|]. intros i4 s4 (g4 & k4 & W4 & Hk4).
  destruct (cap_bounds s) as [_ Hc]. pose proof (room_le (bl s) (cap s) Hc) as Hrl.
  assert (is_u 64 (len data)) as Hlen.
  { unfold is_u, nch, BM_BITS, BLOCK_BM_LEN, BLOCK_SIZE in *. unfold len in *. dlia. }
  eapply wp_mono; [eapply w_finish; [done|done|done|exact R|exact W4|exact Hk4|lia]|].
  intros _ s' (g' & Hrep & Hn & Ha & Hg & Hh & Hothers & Hnew). exists g'. do 3 (split; [done|]). split; [lia|done].
Qed.
End file.
