(* ===== verification/HepfsRead.v ===== *)
(** HepFS, reading files: [read_file] returns what the file holds, and the
    theorems that follow for the pair [write_file] / [read_file]. *)

From stdpp Require Import prelude list numbers strings gmap.
From S2P Require Import Prelude Pmm Hepfs HepfsBlock HepfsRep HepfsFile.

Local Open Scope Z_scope.

Section read.
Context {D F : Type} `{!Drive D} `{!FrameSource F}.
Implicit Types (s : fs D F).

Section loops.
Context (s0 : fs D F) (g : tree) (ino : Z) (data : list Z).
Hypothesis Hrep : fs_rep s0 g.
Hypothesis ino_range : 0 ≤ ino < MAX_INODES.
Hypothesis Hholds : holds (bl s0) g ino data.

(** The disk is as at the start and [A] frames remain beside two per block still to read. *)
Definition rinv s (k A : Z) : Prop :=
  ok s ∧ dev s = dev s0 ∧ A + 2 * nch (rem data k) ≤ avail s.

Lemma rinv_bl s k A : rinv s k A → bl s = bl s0 ∧ nblk s = nblk s0.
Proof. intros (_ & Hd & _). unfold bl, nblk. by rewrite Hd. Qed.

Lemma rinv_spend s s' k A n : rinv s k A → step n s s' → dev s' = dev s → rinv s' k (A - n).
Proof. intros (Hok & Hd & Ha) (Hok' & _ & Ha' & _) Hd'. split; [done|]. split; [congruence|lia]. Qed.

Lemma rem_more k : 0 ≤ k → rem data k ≠ [] → k * BLOCK_SIZE < len data.
Proof.
  intros Hk Hne. destruct (decide (k * BLOCK_SIZE < len data)); [done|]. exfalso. apply Hne.
  unfold rem. apply drop_ge. unfold len, BLOCK_SIZE in *. lia.
Qed.

Lemma data_slot k : 0 ≤ k → rem data k ≠ [] →
  g ino (dslot k) ≠ 0 ∧ 0 ≤ g ino (dslot k) < nblk s0.
Proof.
  intros Hk Hne. destruct Hholds as (_ & _ & Hc). destruct (Hc k Hk (rem_more k Hk Hne)) as [Hnz _]. split; [done|].
  destruct Hrep as (_ & _ & R). destruct (rep_own _ _ _ _ R ino _ Hnz) as [Hr _].
  destruct (cap_bounds s0). unfold DATA_BLOCK_START in Hr. lia.
Qed.

Lemma rem_split k : 0 ≤ k → take (Z.to_nat BLOCK_SIZE) (rem data k) ++ rem data (k + 1) = rem data k.
Proof.
  intros Hk. assert (rem data (k + 1) = drop (Z.to_nat BLOCK_SIZE) (rem data k)) as ->.
  { unfold rem. rewrite drop_drop. f_equal. unfold BLOCK_SIZE. lia. }
  apply take_drop.
Qed.

Lemma nch_rem_succ k : 0 ≤ k → rem data k ≠ [] → nch (rem data (k + 1)) = nch (rem data k) - 1.
Proof. intros Hk Hne. rewrite <- rem_step by done. by apply nch_drop. Qed.

Lemma rem_len_eqb k : 0 ≤ k → (len (rem data k) =? 0) = bool_decide (rem data k = []).
Proof.
  intros. destruct (rem data k) eqn:E; [done|]. rewrite bool_decide_false by done. apply Z.eqb_neq. unfold len. simpl. lia.
Qed.

Lemma read_chunk_spec s k A :
  rinv s k A → 0 ≤ k → rem data k ≠ [] → 0 ≤ A →
  wp (read_chunk (g ino (dslot k)) (len (rem data k))) s (λ r s',
    r = (take (Z.to_nat BLOCK_SIZE) (rem data k), len (rem data (k + 1))) ∧ rinv s' (k + 1) (A + 1)).
Proof.
  intros Hr Hk Hne HA. destruct (data_slot k Hk Hne) as [Hnz Hrange]. destruct (rinv_bl s k A Hr) as [Eb En].
  pose proof (nch_pos _ Hne). pose proof (nch_rem_succ k Hk Hne). pose proof (rem_more k Hk Hne) as Hlt.
  destruct Hholds as (_ & _ & Hc). destruct (Hc k Hk Hlt) as [_ Ht].
  pose proof (len_rem data k Hk Hlt) as Hl. pose proof Hr as (Hok & Hd & Ha).
  unfold read_chunk. wp_step read_block_spec; [done|by rewrite En|lia|].
  intros p s1 (-> & Hd1 & Hs1). apply wp_ret. split.
  - rewrite Eb, Hl, Ht. f_equal. unfold rem, len in *. rewrite length_drop. unfold BLOCK_SIZE in *. lia.
  - pose proof (rinv_spend _ _ _ _ _ Hr Hs1 Hd1) as (Hok1 & Hd' & Ha1). split; [done|]. split; [done|]. lia.
Qed.

(** The outcome of a reading loop that started at block [k]. *)
Definition read_post (k kend A : Z) (r : list Z * Z) s : Prop :=
  ∃ k', k ≤ k' ∧ r.1 ++ rem data k' = rem data k ∧ r.2 = len (rem data k') ∧
    (rem data k' = [] ∨ k' = kend) ∧ rinv s k' A.

Lemma read_post_here s k kend A :
  rinv s k A → rem data k = [] ∨ k = kend → read_post k kend A ([], len (rem data k)) s.
Proof. intros. exists k. auto with lia. Qed.

Lemma read_post_step s k kend A r :
  0 ≤ k → read_post (k + 1) kend A r s →
  read_post k kend A (take (Z.to_nat BLOCK_SIZE) (rem data k) ++ r.1, r.2) s.
Proof.
  intros Hk (k' & Hle & Happ & Hl & Hend & Hr). exists k'. split; [lia|]. split; [|done].
  simpl. rewrite <- app_assoc, Happ. by apply rem_split.
Qed.

Lemma rinv_weaken s k A A' : rinv s k A → A' ≤ A → rinv s k A'.
Proof. intros (?&?&?) ?. split; [done|]. split; [done|lia]. Qed.

Lemma read_direct_spec n k s A :
  Z.of_nat n + k = DIRECT_PTRS → 0 ≤ k → rinv s k A → 0 ≤ A →
  wp (read_direct (filter (λ b, b ≠ 0) (drop (Z.to_nat k) (direct (inode_at (bl s0) ino)))) (len (rem data k))) s
    (read_post k DIRECT_PTRS A).
Proof.
  destruct Hrep as (_ & _ & R). destruct (rep_wf _ _ _ _ R ino ino_range) as (_ & [Hd _] & _).
  revert k s. induction n as [|n IH]; intros k s Hnk Hk Hr HA.
  { rewrite drop_ge by (rewrite Hd; unfold DIRECT_PTRS in *; lia). apply wp_ret, read_post_here; [done|right; lia]. }
  unfold DIRECT_PTRS in Hnk.
  assert (slot_ok (SDir k)) as Hok by (simpl; unfold DIRECT_PTRS; lia).
  pose proof (rep_ptr _ _ _ _ R ino (SDir k) ino_range Hok) as Eptr. unfold ptr in Eptr. cbn [parent inode_ptr] in Eptr.
  destruct (lookup_lt_is_Some_2 (direct (inode_at (bl s0) ino)) (Z.to_nat k)) as [x Hx]; [rewrite Hd; lia|].
  rewrite Hx in Eptr. change (g ino (SDir k) = x) in Eptr. rewrite (drop_S _ _ _ Hx), filter_cons.
  destruct (decide (rem data k = [])) as [Er|Hne].
  { assert (∀ l, wp (read_direct l (len (rem data k))) s (read_post k DIRECT_PTRS A)) as Hstop; [|apply Hstop].
    intros [|b l]; cbn [read_direct].
    - apply wp_ret, read_post_here; auto.
    - rewrite rem_len_eqb, bool_decide_true by done. apply wp_ret, read_post_here; auto. }
  destruct (data_slot k Hk Hne) as [Hnz _]. rewrite dslot_dir in Hnz by (unfold DIRECT_PTRS; lia).
  rewrite decide_True by congruence. cbn [read_direct].
  rewrite rem_len_eqb, bool_decide_false by done. rewrite <- Eptr, <- dslot_dir by (unfold DIRECT_PTRS; lia).
  wp_step read_chunk_spec; [exact Hr|done|done|done|]. intros r s1 [-> Hr1]. cbv iota.
  replace (S (Z.to_nat k)) with (Z.to_nat (k + 1)) by lia.
  wp_step (IH (k + 1)); [unfold DIRECT_PTRS; lia|lia|eapply rinv_weaken; [exact Hr1|lia]|done|].
  intros [out l] s2 Hp. cbv iota. apply wp_ret. by apply (read_post_step s2 k DIRECT_PTRS A (out, l)).
Qed.

(** A table whose entry [j] is the pointer of logical block [K + j]. *)
Lemma read_table_spec n j K buf s A :
  Z.of_nat n + j = PTRS_PER_INDIRECT → 0 ≤ j → 0 ≤ K → rinv s (K + j) A → 0 ≤ A →
  (∀ m, 0 ≤ m < PTRS_PER_INDIRECT → peek_u32 (m * 4) buf = g ino (dslot (K + m))) →
  wp (read_table n j buf (len (rem data (K + j)))) s (read_post (K + j) (K + PTRS_PER_INDIRECT) A).
Proof.
  intros Hnj Hj HK Hr HA Hbuf. revert j s Hnj Hj Hr. induction n as [|n IH]; intros j s Hnj Hj Hr; cbn [read_table].
  { apply wp_ret, read_post_here; [done|right; lia]. }
  rewrite rem_len_eqb by lia. case_bool_decide as Er; [apply wp_ret, read_post_here; auto|].
  destruct (data_slot (K + j) ltac:(lia) Er) as [Hnz _]. rewrite Hbuf by lia.
  destruct (Z.eqb_spec (g ino (dslot (K + j))) 0) as [|_]; [done|].
  wp_step read_chunk_spec; [exact Hr|lia|done|done|]. intros r s1 [-> Hr1]. cbv iota.
  rewrite <- Z.add_assoc in Hr1 |- *.
  wp_step (IH (j + 1)); [lia|lia|eapply rinv_weaken; [exact Hr1|lia]|].
  intros [out l] s2 Hp. cbv iota. apply wp_ret. rewrite Z.add_assoc in Hp.
  by apply (read_post_step s2 (K + j) _ A (out, l)); [lia|].
Qed.

Lemma table_ptrs t K :
  slot_ok t → g ino t ≠ 0 → 0 ≤ K →
  (∀ m, 0 ≤ m < PTRS_PER_INDIRECT → parent (dslot (K + m)) = Some t ∧ pos (dslot (K + m)) = m) →
  (∀ m, 0 ≤ m < PTRS_PER_INDIRECT → slot_ok (dslot (K + m))) →
  ∀ m, 0 ≤ m < PTRS_PER_INDIRECT → peek_u32 (m * 4) (bl s0 (g ino t)) = g ino (dslot (K + m)).
Proof.
  intros Hok Hnz HK Hpar Hsl m Hm. destruct Hrep as (_ & _ & R). destruct (Hpar m Hm) as [Hp Hpos].
  rewrite (rep_ptr _ _ _ _ R ino (dslot (K + m)) ino_range) by (apply Hsl, Hm).
  unfold ptr. rewrite Hp, Hpos. destruct (Z.eqb_spec (g ino t) 0); [done|done].
Qed.

Lemma owned_block t : g ino t ≠ 0 → 0 ≤ g ino t < nblk s0.
Proof.
  intros Hnz. destruct Hrep as (_ & _ & R). destruct (rep_own _ _ _ _ R ino t Hnz) as [Hr _].
  destruct (cap_bounds s0). unfold DATA_BLOCK_START in Hr. lia.
Qed.

Lemma read_post_trans k k1 k2 A A' out1 r2 s' :
  k ≤ k1 → out1 ++ rem data k1 = rem data k → read_post k1 k2 A' r2 s' → A ≤ A' →
  read_post k k2 A (out1 ++ r2.1, r2.2) s'.
Proof.
  intros Hk Happ (k' & Hle & Happ' & Hl & Hend & Hr) HA. exists k'. split; [lia|].
  split; [simpl; rewrite <- app_assoc, Happ'; exact Happ|]. split; [done|]. split; [done|]. by eapply rinv_weaken.
Qed.

Definition KD : Z := DIRECT_PTRS + PTRS_PER_INDIRECT.

Lemma l1_slots j m :
  0 ≤ j < PTRS_PER_INDIRECT → 0 ≤ m < PTRS_PER_INDIRECT →
  dslot (KD + j * PTRS_PER_INDIRECT + m) = SL2 j m.
Proof.
  intros Hj Hm. unfold KD. assert (0 ≤ j * PTRS_PER_INDIRECT + m) by (apply Z.add_nonneg_nonneg; [apply Z.mul_nonneg_nonneg|]; lia).
  rewrite <- Z.add_assoc, dslot_dind by lia.
  f_equal; unfold PTRS_PER_INDIRECT, BLOCK_SIZE in *; change (4096 / 4) with 1024 in *; dlia.
Qed.

(** One level-1 table: the pointer block costs one of the two frames its first
    data block has in hand. *)
Lemma read_l1_spec j s A :
  0 ≤ j < PTRS_PER_INDIRECT → rinv s (KD + j * PTRS_PER_INDIRECT) (A - 1) → 0 ≤ A →
  rem data (KD + j * PTRS_PER_INDIRECT) ≠ [] → g ino (SL1 j) ≠ 0 →
  wp (read_table (Z.to_nat PTRS_PER_INDIRECT) 0 (bl s0 (g ino (SL1 j)))
       (len (rem data (KD + j * PTRS_PER_INDIRECT)))) s
    (λ r s', ∃ k', KD + j * PTRS_PER_INDIRECT + 1 ≤ k' ∧
       r.1 ++ rem data k' = rem data (KD + j * PTRS_PER_INDIRECT) ∧ r.2 = len (rem data k') ∧
       (rem data k' = [] ∨ k' = KD + j * PTRS_PER_INDIRECT + PTRS_PER_INDIRECT) ∧ rinv s' k' A).
Proof.
  intros Hj Hr1 HA Er Hl1. set (K := KD + j * PTRS_PER_INDIRECT) in *.
  assert (0 ≤ K) as HK by (unfold K, KD; apply Z.add_nonneg_nonneg; [done|apply Z.mul_nonneg_nonneg; [lia|done]]).
  destruct (Z.to_nat PTRS_PER_INDIRECT) as [|n1] eqn:En1; [done|]. cbn [read_table].
  rewrite rem_len_eqb, bool_decide_false by done.
  assert (∀ m, 0 ≤ m < PTRS_PER_INDIRECT → peek_u32 (m * 4) (bl s0 (g ino (SL1 j))) = g ino (dslot (K + m))) as Hptrs.
  { apply table_ptrs; [simpl; lia|done|done| |].
    - intros m Hm. unfold K. rewrite l1_slots by lia. done.
    - intros m Hm. unfold K. rewrite l1_slots by lia. simpl. lia. }
  rewrite Hptrs, Z.add_0_r by (unfold PTRS_PER_INDIRECT in *; lia). destruct (data_slot K HK Er) as [Hnz _].
  destruct (Z.eqb_spec (g ino (dslot K)) 0) as [|_]; [done|]. pose proof (nch_pos _ Er) as Hpos.
  pose proof Hr1 as (Hok1 & Hdv1 & Ha1). unfold read_chunk. apply wp_bind.
  wp_step read_block_spec; [done|rewrite (proj2 (rinv_bl _ _ _ Hr1)); by apply owned_block|lia|].
  intros p s2 (-> & Hd2 & Hs2). apply wp_ret. cbv iota zeta.
  destruct Hholds as (_ & _ & Hc). pose proof (rem_more K HK Er) as Hlt. destruct (Hc K HK Hlt) as [_ Ht].
  pose proof (len_rem data K HK Hlt) as Hl. rewrite (proj1 (rinv_bl _ _ _ Hr1)), Hl, Ht.
  assert (len data - K * BLOCK_SIZE - Z.min (len data - K * BLOCK_SIZE) BLOCK_SIZE = len (rem data (K + 1))) as ->.
  { unfold rem, len in *. rewrite length_drop. unfold BLOCK_SIZE in *. lia. }
  pose proof (nch_rem_succ K HK Er) as Hns.
  assert (rinv s2 (K + 1) A) as Hr2.
  { pose proof (rinv_spend _ _ _ _ _ Hr1 Hs2 Hd2) as (Hok2 & Hdv2 & Ha2). split; [done|]. split; [done|]. lia. }
  wp_step (read_table_spec n1 1 K); [lia|lia|done|exact Hr2|done|exact Hptrs|].
  intros [out l] s3 (k' & Hle & Happ & Hl' & Hend & Hr3). cbv iota. apply wp_ret. exists k'. split; [lia|].
  split; [cbn [fst] in *; rewrite <- app_assoc, Happ; by apply rem_split|]. done.
Qed.

Lemma read_tables_spec n j buf s A :
  Z.of_nat n + j = PTRS_PER_INDIRECT → 0 ≤ j → rinv s (KD + j * PTRS_PER_INDIRECT) A → 0 ≤ A →
  (∀ m, 0 ≤ m < PTRS_PER_INDIRECT → peek_u32 (m * 4) buf = g ino (SL1 m)) →
  wp (read_tables n j buf (len (rem data (KD + j * PTRS_PER_INDIRECT)))) s
    (read_post (KD + j * PTRS_PER_INDIRECT) (KD + DINDIRECT_MAX_BLOCKS) A).
Proof.
  intros Hnj Hj Hr HA Hbuf. assert (0 < PTRS_PER_INDIRECT) as HP by done. assert (0 < KD) as HKD by done.
  revert j s Hnj Hj Hr. induction n as [|n IH]; intros j s Hnj Hj Hr; cbn [read_tables].
  { apply wp_ret, read_post_here; [done|right]. unfold DINDIRECT_MAX_BLOCKS. f_equal. f_equal. lia. }
  set (K := KD + j * PTRS_PER_INDIRECT) in *. assert (0 ≤ K) as HK by (unfold K; lia).
  rewrite rem_len_eqb by lia. case_bool_decide as Er; [apply wp_ret, read_post_here; auto|].
  destruct Hrep as (_ & _ & R).
  assert (g ino (SL1 j) ≠ 0) as Hl1.
  { destruct (data_slot K HK Er) as [Hnz _]. eapply (rep_table_parent _ _ _ _ _ (dslot K)); [exact R| |exact Hnz].
    rewrite <- (Z.add_0_r K). unfold K. rewrite l1_slots by lia. done. }
  rewrite Hbuf by lia. destruct (Z.eqb_spec (g ino (SL1 j)) 0) as [|_]; [done|].
  destruct (rinv_bl _ _ _ Hr) as [Eb En]. pose proof Hr as (Hok & Hd & Ha).
  pose proof (nch_pos _ Er) as Hpos. pose proof (owned_block _ Hl1).
  wp_step read_block_spec; [done|by rewrite En|lia|]. intros p s1 (-> & Hd1 & Hs1). rewrite Eb.
  wp_step (read_l1_spec j s1 A); [lia|by eapply rinv_spend|done|done|exact Hl1|].
  intros [out l] s2 (k' & Hle & Happ & Hl & Hend & Hr2). cbv iota. simpl in Hl, Happ. subst l.
  destruct Hend as [Ez| ->].
  - (* the data ended inside this table *)
    assert (∀ n' j', wp (read_tables n' j' buf (len (rem data k'))) s2 (λ r s', r = ([], len (rem data k')) ∧ s' = s2)) as Hstop.
    { intros [|n'] j'; cbn [read_tables]; [by apply wp_ret|]. rewrite Ez. by apply wp_ret. }
    wp_step Hstop. intros r s3 [-> ->]. cbv iota. apply wp_ret. rewrite app_nil_r. exists k'.
    split; [lia|]. split; [done|]. auto.
  - assert (KD + j * PTRS_PER_INDIRECT + PTRS_PER_INDIRECT = KD + (j + 1) * PTRS_PER_INDIRECT) as EK by lia. rewrite EK in Hr2, Happ |- *.
    wp_step (IH (j + 1)); [lia|lia|exact Hr2|]. intros [out' l'] s3 Hp. cbv iota. apply wp_ret.
    apply (read_post_trans K (KD + (j + 1) * PTRS_PER_INDIRECT) _ A A out (out', l')); [lia|done|done|lia].
Qed.

Lemma table_phase_ptrs : g ino SInd ≠ 0 →
  ∀ m, 0 ≤ m < PTRS_PER_INDIRECT → peek_u32 (m * 4) (bl s0 (g ino SInd)) = g ino (dslot (DIRECT_PTRS + m)).
Proof.
  intros Hnz. apply table_ptrs; [done|done|done| |]; intros m Hm; rewrite dslot_ind by done; done.
Qed.

(** The last two phases: skipped when nothing is left, entered with a live table otherwise. *)
Lemma read_phase2 s k A :
  rinv s k A → 0 ≤ k → rem data k = [] ∨ k = DIRECT_PTRS → 1 ≤ A →
  wp (if (0 <? len (rem data k)) && negb (indirect (inode_at (bl s0) ino) =? 0) then
        ind_buf ← read_block (indirect (inode_at (bl s0) ino));
        read_table (Z.to_nat PTRS_PER_INDIRECT) 0 ind_buf (len (rem data k))
      else mret ([], len (rem data k))) s (read_post k KD (A - 1)).
Proof.
  intros Hr Hk Hend HA. destruct (decide (rem data k = [])) as [E|Hne].
  { assert ((0 <? len (rem data k)) = false) as -> by (by rewrite E). apply wp_ret, read_post_here; [eapply rinv_weaken; [exact Hr|lia]|by left]. }
  destruct Hend as [?| ->]; [done|]. destruct Hrep as (_ & _ & R).
  destruct (data_slot DIRECT_PTRS Hk Hne) as [Hnz _].
  pose proof (dslot_ind 0 ltac:(done)) as E0. rewrite Z.add_0_r in E0. rewrite E0 in Hnz.
  assert (g ino SInd ≠ 0) as HT by (by eapply (rep_table_parent _ _ _ _ _ (SIndE 0))).
  pose proof (rep_ptr _ _ _ _ R ino SInd ino_range I) as Eptr. unfold ptr in Eptr. cbn [parent inode_ptr] in Eptr.
  rewrite <- Eptr. destruct (Z.eqb_spec (g ino SInd) 0) as [|_]; [done|].
  assert ((0 <? len (rem data DIRECT_PTRS)) = true) as ->.
  { apply Z.ltb_lt. destruct (rem data DIRECT_PTRS); [done|]. unfold len. simpl. lia. }
  simpl andb. cbv iota. destruct (rinv_bl _ _ _ Hr) as [Eb En]. pose proof Hr as (Hok & Hd & Ha).
  pose proof (nch_nonneg (rem data DIRECT_PTRS)).
  wp_step read_block_spec; [done|rewrite En; by apply owned_block|lia|]. intros p s1 (-> & Hd1 & Hs1). rewrite Eb.
  pose proof (rinv_spend _ _ _ _ _ Hr Hs1 Hd1) as Hr1.
  rewrite <- (Z.add_0_r DIRECT_PTRS) in Hr1 |- * at 1.
  eapply wp_mono; [apply (read_table_spec (Z.to_nat PTRS_PER_INDIRECT) 0 DIRECT_PTRS);
    [done|done|done|exact Hr1|lia|by apply table_phase_ptrs]|].
  intros r s' Hp. rewrite Z.add_0_r in Hp. exact Hp.
Qed.

Lemma read_phase3 s k A :
  rinv s k A → 0 ≤ k → rem data k = [] ∨ k = KD → 1 ≤ A →
  wp (if (0 <? len (rem data k)) && negb (dindirect (inode_at (bl s0) ino) =? 0) then
        dind_buf ← read_block (dindirect (inode_at (bl s0) ino));
        read_tables (Z.to_nat PTRS_PER_INDIRECT) 0 dind_buf (len (rem data k))
      else mret ([], len (rem data k))) s (read_post k (KD + DINDIRECT_MAX_BLOCKS) (A - 1)).
Proof.
  intros Hr Hk Hend HA. destruct (decide (rem data k = [])) as [E|Hne].
  { assert ((0 <? len (rem data k)) = false) as -> by (by rewrite E). apply wp_ret, read_post_here; [eapply rinv_weaken; [exact Hr|lia]|by left]. }
  destruct Hend as [?| ->]; [done|]. destruct Hrep as (_ & _ & R).
  destruct (data_slot KD Hk Hne) as [Hnz _].
  pose proof (l1_slots 0 0 ltac:(done) ltac:(done)) as E0. rewrite Z.mul_0_l, !Z.add_0_r in E0. rewrite E0 in Hnz.
  assert (g ino (SL1 0) ≠ 0) as HL by (by eapply (rep_table_parent _ _ _ _ _ (SL2 0 0))).
  assert (g ino SDind ≠ 0) as HT by (by eapply (rep_table_parent _ _ _ _ _ (SL1 0))).
  pose proof (rep_ptr _ _ _ _ R ino SDind ino_range I) as Eptr. unfold ptr in Eptr. cbn [parent inode_ptr] in Eptr.
  rewrite <- Eptr. destruct (Z.eqb_spec (g ino SDind) 0) as [|HTz]; [done|].
  assert ((0 <? len (rem data KD)) = true) as ->.
  { apply Z.ltb_lt. destruct (rem data KD); [done|]. unfold len. simpl. lia. }
  simpl andb. cbv iota. destruct (rinv_bl _ _ _ Hr) as [Eb En]. pose proof Hr as (Hok & Hd & Ha).
  pose proof (nch_nonneg (rem data KD)).
  wp_step read_block_spec; [done|rewrite En; by apply owned_block|lia|]. intros p s1 (-> & Hd1 & Hs1). rewrite Eb.
  pose proof (rinv_spend _ _ _ _ _ Hr Hs1 Hd1) as Hr1.
  assert (KD = KD + 0 * PTRS_PER_INDIRECT) as EK by lia.
  rewrite EK in Hr1. rewrite EK at 1.
  eapply wp_mono; [apply (read_tables_spec (Z.to_nat PTRS_PER_INDIRECT) 0); [done|done|exact Hr1|lia|]|].
  - intros m Hm. rewrite (rep_ptr _ _ _ _ R ino (SL1 m) ino_range Hm). unfold ptr. cbn [parent pos].
    destruct (Z.eqb_spec (g ino SDind) 0); [done|done].
  - intros r s' Hp. by rewrite <- EK in Hp.
Qed.

Lemma read_file_spec :
  4 + 2 * nch data ≤ avail s0 →
  wp (read_file ino) s0 (λ out s', out = data ∧ dev s' = dev s0 ∧ ok s').
Proof.
  intros Hav. pose proof Hrep as (Hok & Hbig & R). destruct Hholds as (Hf & Hs & Hc). unfold read_file.
  pose proof (nch_nonneg data). assert (rem data 0 = data) as E0 by (unfold rem; by rewrite Z.mul_0_r).
  assert (rinv s0 0 4) as Hr0 by (split; [done|]; split; [done|]; rewrite E0; lia).
  wp_step read_inode_spec; [done|done|done|lia|]. intros i s1 (-> & Hd1 & Hs1).
  apply wp_bind, wp_rassert; [by rewrite Hf|]. pose proof (rinv_spend _ _ _ _ _ Hr0 Hs1 Hd1) as Hr1.
  rewrite Hs. rewrite <- E0 at 1.
  wp_step (read_direct_spec (Z.to_nat DIRECT_PTRS) 0); [done|done|exact Hr1|lia|].
  intros [out1 l1] s2 (k2 & Hk2 & Happ2 & Hl2 & Hend2 & Hr2). cbv iota. simpl in Hl2, Happ2. subst l1.
  wp_step read_phase2; [exact Hr2|lia|exact Hend2|lia|].
  intros [out2 l2] s3 (k3 & Hk3 & Happ3 & Hl3 & Hend3 & Hr3). cbv iota. simpl in Hl3, Happ3. subst l2.
  wp_step read_phase3; [exact Hr3|lia|exact Hend3|lia|].
  intros [out3 l3] s4 (k4 & Hk4 & Happ4 & Hl4 & Hend4 & Hr4). cbv iota. simpl in Hl4, Happ4. apply wp_ret.
  split; [|split; apply Hr4].
  assert (rem data k4 = []) as E4.
  { destruct Hend4 as [|E]; [done|]. destruct (decide (rem data k4 = [])) as [|Hne]; [done|exfalso].
    destruct (data_slot k4 ltac:(lia) Hne) as [Hnz _]. apply Hnz. apply (rep_out _ _ _ _ R). intros [_ Hsl].
    rewrite E in Hsl. unfold KD in Hsl. rewrite dslot_dind in Hsl by done.
    unfold DINDIRECT_MAX_BLOCKS in Hsl. rewrite Z.div_mul in Hsl by done. simpl in Hsl. lia. }
  rewrite E4, app_nil_r in Happ4. rewrite <- E0, <- Happ2, <- Happ3, <- Happ4. done.
Qed.
End loops.
End read.
