(* ===== verification/HepfsDir.v ===== *)
(** HepFS, directories: a directory as the list of its live entries, and the
    specifications of [find_in_dir], [list_dir], [add_dir_entry],
    [create_file], [create_dir], [rename], [move_entry] and [format] over it. *)

From stdpp Require Import prelude list numbers strings gmap.
From S2P Require Import Prelude Pmm Hepfs HepfsBlock HepfsRep HepfsFile HepfsRead.

Local Open Scope Z_scope.

(** ** Entries of a page *)

Definition entry_wf (e : DirEntry) : Prop :=
  is_u 32 (inode e) ∧ is_byte (name_len e) ∧ length (name e) = 27%nat ∧ Forall is_byte (name e).

Lemma length_entry_bytes e : entry_wf e → length (entry_bytes e) = 32%nat.
Proof. intros (_ & _ & Hn & _). unfold entry_bytes. rewrite !length_app, length_le_bytes, Hn. done. Qed.

Lemma entry_bytes_byte e : entry_wf e → Forall is_byte (entry_bytes e).
Proof.
  intros (_ & Hl & _ & Hn). unfold entry_bytes. rewrite !Forall_app. split; [apply le_bytes_byte|].
  split; [by constructor|done].
Qed.

Lemma slot_range k : 0 ≤ k < ENTRIES_PER_BLK → 0 ≤ k * DIR_ENTRY_SIZE ∧ k * DIR_ENTRY_SIZE + 32 ≤ BLOCK_SIZE.
Proof. unfold ENTRIES_PER_BLK, DIR_ENTRY_SIZE, BLOCK_SIZE. change (4096 / 32) with 128. lia. Qed.

(** The fields of an entry are read from its own 32 bytes. *)
Lemma get_entry_sub p k : 0 ≤ k → get_entry p k =
  let l := peek (k * DIR_ENTRY_SIZE) 32 p in
  mkEntry (peek_u32 0 l) (le_val (peek 4 1 l)) (peek 5 27 l).
Proof.
  intros Hk. unfold get_entry, peek_u32, peek, DIR_ENTRY_SIZE. rewrite !sub_sub by lia.
  f_equal; [do 2 f_equal; lia|do 2 f_equal; lia|f_equal; lia].
Qed.

Lemma put_entry_page p k e : is_page p → 0 ≤ k < ENTRIES_PER_BLK → entry_wf e → is_page (put_entry p k e).
Proof.
  intros Hp Hk He. pose proof (slot_range k Hk). apply page_poke; [done|by apply entry_bytes_byte|lia|].
  unfold len. rewrite length_entry_bytes by done. lia.
Qed.

Lemma get_put_entry p k j e :
  is_page p → 0 ≤ k < ENTRIES_PER_BLK → 0 ≤ j < ENTRIES_PER_BLK → entry_wf e →
  get_entry (put_entry p k e) j = if bool_decide (j = k) then e else get_entry p j.
Proof.
  intros [Hl _] Hk Hj He. pose proof (slot_range k Hk). pose proof (slot_range j Hj).
  pose proof (length_entry_bytes e He) as Hlen.
  rewrite !get_entry_sub by lia. unfold put_entry, poke, peek at 1 3 5. cbv zeta.
  case_bool_decide as E.
  - subst j. rewrite <- Hlen, sub_splice_eq by (rewrite Hl; lia).
    destruct e as [ino nl nm], He as (Hi & Hn & Hnm & _). unfold entry_bytes. cbn [inode name_len name] in *.
    unfold peek_u32. f_equal.
    + rewrite peek_here by field_len. by apply le_val_4.
    + rewrite peek_skip by field_len. rewrite peek_here by (done || field_len). simpl. lia.
    + rewrite peek_skip by field_len. rewrite (peek_skip [nl]) by (rewrite length_le_bytes; simpl length; lia).
      rewrite <- (app_nil_r nm) at 1. apply peek_here; [|done]. rewrite length_le_bytes. done.
  - rewrite sub_splice_ne; [done|rewrite Hl; lia|]. rewrite Hlen. unfold DIR_ENTRY_SIZE in *. lia.
Qed.

Lemma length_entries p : length (entries p) = Z.to_nat ENTRIES_PER_BLK.
Proof. unfold entries. by rewrite length_fmap, length_seqZ. Qed.

Lemma lookup_entries p k : 0 ≤ k < ENTRIES_PER_BLK → entries p !! Z.to_nat k = Some (get_entry p k).
Proof.
  intros Hk. unfold entries. rewrite list_lookup_fmap, lookup_seqZ_lt by lia.
  cbn [fmap option_fmap option_map]. do 2 f_equal. lia.
Qed.

Lemma entries_put p k e :
  is_page p → 0 ≤ k < ENTRIES_PER_BLK → entry_wf e → entries (put_entry p k e) = <[Z.to_nat k := e]> (entries p).
Proof.
  intros Hp Hk He.
  apply list_eq_same_length with (n := Z.to_nat ENTRIES_PER_BLK);
    [by rewrite length_insert, length_entries|by rewrite length_entries|].
  intros i x y Hi. rewrite <- (Nat2Z.id i). rewrite lookup_entries by lia. rewrite get_put_entry by (done || lia).
  case_bool_decide as E.
  - rewrite E, list_lookup_insert_eq by (rewrite length_entries; lia). congruence.
  - rewrite list_lookup_insert_ne by lia. rewrite lookup_entries by lia. congruence.
Qed.

Lemma new_entry_wf ino nm : is_u 32 ino → len nm ≤ 27 → Forall is_byte nm → entry_wf (new_entry ino nm).
Proof.
  intros Hi Hn Hb. unfold new_entry, len in *. split; [done|]. split; [by apply wrap_range|]. simpl. split.
  - rewrite length_app, length_replicate. lia.
  - rewrite Forall_app. split; [done|]. apply Forall_replicate. unfold is_u. lia.
Qed.

Lemma blank_entry_wf : entry_wf blank_entry.
Proof.
  split; [unfold is_u; simpl; lia|]. split; [unfold is_u; simpl; lia|]. split; [done|].
  apply Forall_replicate. unfold is_u. lia.
Qed.

Lemma name_str_new ino nm : len nm ≤ 27 → utf8_valid nm = true → name_str (new_entry ino nm) = nm.
Proof.
  intros Hn Hu. unfold name_str, new_entry. cbn [name_len name].
  rewrite wrap_small by (unfold is_u, len in *; lia). rewrite Z.min_l by done.
  unfold len. rewrite Nat2Z.id, take_app_length. by rewrite Hu.
Qed.

(** ** Scanning *)

Lemma scan_entries_spec p buf n i :
  0 ≤ i →
  match scan_entries p buf n i with
  | Some (k, e) => i ≤ k < i + Z.of_nat n ∧ e = get_entry buf k ∧ p e = true ∧
      ∀ j, i ≤ j < k → p (get_entry buf j) = false
  | None => ∀ j, i ≤ j < i + Z.of_nat n → p (get_entry buf j) = false
  end.
Proof.
  revert i. induction n as [|n IH]; intros i Hi; cbn [scan_entries]; [lia|].
  destruct (p (get_entry buf i)) eqn:E; [split; [lia|]; split; [done|]; split; [done|lia]|].
  specialize (IH (i + 1) ltac:(lia)). destruct (scan_entries p buf n (i + 1)) as [[k e]|].
  - destruct IH as (Hk & He & Hp & Hlow). split; [lia|]. split; [done|]. split; [done|].
    intros j Hj. destruct (decide (j = i)) as [->|]; [done|]. apply Hlow. lia.
  - intros j Hj. destruct (decide (j = i)) as [->|]; [done|]. apply IH. lia.
Qed.

Lemma find_entry_spec p buf :
  match find_entry p buf with
  | Some (k, e) => 0 ≤ k < ENTRIES_PER_BLK ∧ e = get_entry buf k ∧ p e = true ∧
      ∀ x, x ∈ take (Z.to_nat k) (entries buf) → p x = false
  | None => ∀ x, x ∈ entries buf → p x = false
  end.
Proof.
  unfold find_entry. pose proof (scan_entries_spec p buf (Z.to_nat ENTRIES_PER_BLK) 0 ltac:(lia)) as Hs.
  rewrite Z2Nat.id, Z.add_0_l in Hs by done. destruct (scan_entries _ _ _ _) as [[k e]|].
  - destruct Hs as (Hk & He & Hp & Hlow). split; [done|]. split; [done|]. split; [done|].
    intros x Hx. apply list_elem_of_lookup in Hx as [i Hi]. apply lookup_take_Some in Hi as [Hi Hlt].
    rewrite <- (Nat2Z.id i), lookup_entries in Hi by lia. injection Hi as <-. apply Hlow. lia.
  - intros x Hx. apply list_elem_of_lookup in Hx as [i Hi]. apply lookup_lt_Some in Hi as Hlt.
    rewrite length_entries in Hlt. rewrite <- (Nat2Z.id i), lookup_entries in Hi by lia. injection Hi as <-.
    apply Hs. lia.
Qed.

(** ** Directories as lists *)

(** Live entries of a list of blocks; the listing of a directory. *)
Definition lents (v : view) (blks : list Z) : list DirEntry := mjoin ((λ b, live (v b)) <$> blks).
Definition listing (v : view) (d : Z) : list (Z * list Z) :=
  item <$> lents v (dir_blocks (inode_at v d)).

(** Association-list lookup: the first item called [nm]. *)
Definition assoc (l : list (Z * list Z)) (nm : list Z) : option Z :=
  fst <$> List.find (λ x, bool_decide (snd x = nm)) l.

Lemma lents_app v b1 b2 : lents v (b1 ++ b2) = lents v b1 ++ lents v b2.
Proof. unfold lents. rewrite fmap_app. apply join_app. Qed.
Lemma lents_cons v b bs : lents v (b :: bs) = live (v b) ++ lents v bs.
Proof. done. Qed.

Lemma lents_ext v v' bs : (∀ b, b ∈ bs → v' b = v b) → lents v' bs = lents v bs.
Proof.
  intros Hv. unfold lents. f_equal. apply list_fmap_ext. intros i b Hb. rewrite Hv; [done|].
  by eapply list_elem_of_lookup_2.
Qed.

Lemma find_app_none {A} (f : A → bool) l1 l2 :
  (∀ x, x ∈ l1 → f x = false) → List.find f (l1 ++ l2) = List.find f l2.
Proof.
  induction l1 as [|x l1 IH]; intros Hf; [done|]. simpl. rewrite Hf by set_solver. apply IH. set_solver.
Qed.

Lemma assoc_app_none l1 l2 nm : assoc l1 nm = None → assoc (l1 ++ l2) nm = assoc l2 nm.
Proof.
  unfold assoc. induction l1 as [|x l1 IH]; [done|]. simpl. case_bool_decide; simpl; [congruence|exact IH].
Qed.

Lemma assoc_insert l1 l2 x nm :
  assoc (l1 ++ l2) nm = None → assoc (l1 ++ x :: l2) nm = if bool_decide (snd x = nm) then Some (fst x) else None.
Proof.
  unfold assoc. induction l1 as [|y l1 IH]; simpl.
  - intros Hn. case_bool_decide; [done|]. exact Hn.
  - destruct (bool_decide (y.2 = nm)); simpl; [intros Hn; discriminate Hn|exact IH].
Qed.

Lemma assoc_other l1 l2 x nm : snd x ≠ nm → assoc (l1 ++ x :: l2) nm = assoc (l1 ++ l2) nm.
Proof.
  intros Hne. unfold assoc. induction l1 as [|y l1 IH]; simpl; [by rewrite bool_decide_false|].
  destruct (bool_decide (y.2 = nm)); simpl; [done|exact IH].
Qed.

(** Replacing the entry in slot [k] of a page. *)
Lemma live_put p k e :
  is_page p → 0 ≤ k < ENTRIES_PER_BLK → entry_wf e →
  ∃ l1 l2, l1 = filter (λ e, inode e ≠ 0) (take (Z.to_nat k) (entries p)) ∧
    live p = l1 ++ filter (λ e, inode e ≠ 0) [get_entry p k] ++ l2 ∧
    live (put_entry p k e) = l1 ++ filter (λ e, inode e ≠ 0) [e] ++ l2.
Proof.
  intros Hp Hk He. pose proof (lookup_entries p k Hk) as Hl.
  exists (filter (λ e, inode e ≠ 0) (take (Z.to_nat k) (entries p))),
    (filter (λ e, inode e ≠ 0) (drop (S (Z.to_nat k)) (entries p))). split; [done|]. unfold live. split.
  - rewrite <- (take_drop_middle _ _ _ Hl) at 1. rewrite filter_app. f_equal. apply (filter_app _ [_]).
  - rewrite entries_put by done. rewrite insert_take_drop by (rewrite length_entries; lia).
    rewrite filter_app. f_equal. apply (filter_app _ [_]).
Qed.

Section dir.
Context {D F : Type} `{!Drive D} `{!FrameSource F}.
Implicit Types (s : fs D F).

Lemma dir_blocks_own s g d b :
  fs_rep s g → 0 ≤ d < MAX_INODES → b ∈ dir_blocks (inode_at (bl s) d) →
  ∃ k, 0 ≤ k < DIRECT_PTRS ∧ b = g d (SDir k) ∧ b ≠ 0.
Proof.
  intros (_ & _ & R) Hd Hb. unfold dir_blocks in Hb. apply list_elem_of_filter in Hb as [Hne Hb].
  apply list_elem_of_lookup in Hb as [i Hi]. destruct (rep_wf _ _ _ _ R d Hd) as (_ & [Hl _] & _).
  apply lookup_lt_Some in Hi as Hlt. rewrite Hl in Hlt.
  assert (0 ≤ Z.of_nat i < DIRECT_PTRS) as Hk by (unfold DIRECT_PTRS; lia).
  pose proof (rep_ptr _ _ _ _ R d (SDir (Z.of_nat i)) Hd Hk) as E. unfold ptr in E. cbn [parent inode_ptr] in E.
  rewrite Nat2Z.id, Hi in E. exists (Z.of_nat i). split; [done|]. by split.
Qed.

Lemma dir_block_range s g d b :
  fs_rep s g → 0 ≤ d < MAX_INODES → b ∈ dir_blocks (inode_at (bl s) d) → DATA_BLOCK_START ≤ b < nblk s.
Proof.
  intros Hr Hd Hb. destruct (dir_blocks_own s g d b Hr Hd Hb) as (k & _ & -> & Hne). destruct Hr as (_ & _ & R).
  destruct (rep_own _ _ _ _ R d _ Hne) as [Hown _]. destruct (cap_bounds s). lia.
Qed.

Lemma dir_blocks_length s g d : fs_rep s g → 0 ≤ d < MAX_INODES → (length (dir_blocks (inode_at (bl s) d)) ≤ 12)%nat.
Proof.
  intros (_ & _ & R) Hd. destruct (rep_wf _ _ _ _ R d Hd) as (_ & [Hl _] & _). rewrite <- Hl. apply length_filter.
Qed.

Lemma direct_nodup (l : list Z) :
  (∀ i j x, l !! i = Some x → l !! j = Some x → x ≠ 0 → i = j) → NoDup (filter (λ b, b ≠ 0) l).
Proof.
  induction l as [|x l IH]; intros Hinj; [constructor|].
  assert (NoDup (filter (λ b, b ≠ 0) l)) as Hl.
  { apply IH. intros i j y Hi Hj Hy. specialize (Hinj (S i) (S j) y Hi Hj Hy). congruence. }
  rewrite filter_cons. case_decide as Hx; [|done]. constructor; [|done].
  intros Hin. apply list_elem_of_filter in Hin as [_ Hin]. apply list_elem_of_lookup in Hin as [j Hj].
  specialize (Hinj 0%nat (S j) x eq_refl Hj Hx). done.
Qed.

Lemma dir_blocks_nodup s g d : fs_rep s g → 0 ≤ d < MAX_INODES → NoDup (dir_blocks (inode_at (bl s) d)).
Proof.
  intros (_ & _ & R) Hd. destruct (rep_wf _ _ _ _ R d Hd) as (_ & [Hl _] & _). apply direct_nodup.
  assert (∀ i x, direct (inode_at (bl s) d) !! i = Some x → g d (SDir (Z.of_nat i)) = x) as Hg.
  { intros i x Hi. apply lookup_lt_Some in Hi as Hlt. rewrite Hl in Hlt.
    assert (0 ≤ Z.of_nat i < DIRECT_PTRS) as Hk by (unfold DIRECT_PTRS; lia).
    rewrite (rep_ptr _ _ _ _ R d (SDir (Z.of_nat i)) Hd Hk). unfold ptr. cbn [parent inode_ptr].
    by rewrite Nat2Z.id, Hi. }
  intros i j x Hi Hj Hx. pose proof (Hg i x Hi) as Ei. pose proof (Hg j x Hj) as Ej.
  destruct (rep_inj _ _ _ _ R d (SDir (Z.of_nat i)) d (SDir (Z.of_nat j))) as [_ E]; [congruence..|].
  injection E. lia.
Qed.

Lemma search_blocks_spec s p blks :
  ok s → (∀ b, b ∈ blks → 0 ≤ b < nblk s) → len blks ≤ avail s →
  wp (search_blocks p blks) s (λ r s', dev s' = dev s ∧ step (len blks) s s' ∧
    match r with
    | Some (blk, k, e, buf) => ∃ pre post, blks = pre ++ blk :: post ∧ buf = bl s blk ∧
        0 ≤ k < ENTRIES_PER_BLK ∧ e = get_entry buf k ∧ p e = true ∧
        (∀ b x, b ∈ pre → x ∈ entries (bl s b) → p x = false) ∧
        (∀ x, x ∈ take (Z.to_nat k) (entries buf) → p x = false)
    | None => ∀ b x, b ∈ blks → x ∈ entries (bl s b) → p x = false
    end).
Proof.
  intros Hok Hr Ha. revert s Hok Hr Ha. induction blks as [|blk blks IH]; intros s Hok Hr Ha; cbn [search_blocks].
  { apply wp_ret. split; [done|]. split; [by apply step_refl|]. intros b x Hb. by apply elem_of_nil in Hb. }
  unfold len in *. simpl length in *.
  wp_step read_block_spec; [done|apply Hr; left|lia|]. intros buf s1 (-> & Hd & Hs1).
  assert (bl s1 = bl s) as E by (unfold bl; by rewrite Hd).
  pose proof (find_entry_spec p (bl s blk)) as Hf. destruct (find_entry p (bl s blk)) as [[k e]|].
  - destruct Hf as (Hk & He & Hp & Hlow). apply wp_ret. split; [done|].
    split; [eapply step_trans; [exact Hs1|by apply step_refl, (step_ok _ _ _ Hs1)|lia]|].
    exists [], blks. do 5 (split; [done|]). split; [|done]. intros b x Hb. by apply elem_of_nil in Hb.
  - eapply wp_mono; [apply IH|].
    + by eapply step_ok.
    + intros b Hb. rewrite (step_nblk _ _ _ Hs1). apply Hr. by right.
    + pose proof (step_avail _ _ _ Hs1). lia.
    + intros r s2 (Hd2 & Hs2 & Hpost). rewrite E in Hpost. split; [congruence|].
      split; [eapply step_trans; [exact Hs1|exact Hs2|lia]|].
      destruct r as [[[[blk' k] e] buf]|].
      * destruct Hpost as (pre & post & -> & Hb & Hk & He & Hp & Hpre & Hlow). exists (blk :: pre), post.
        do 5 (split; [done|]). split; [|done]. intros b x Hb' Hx. apply elem_of_cons in Hb' as [->|Hb']; eauto.
      * intros b x Hb' Hx. apply elem_of_cons in Hb' as [->|Hb']; eauto.
Qed.

Lemma live_in p e : e ∈ live p → e ∈ entries p ∧ inode e ≠ 0.
Proof. unfold live. intros He. apply list_elem_of_filter in He. tauto. Qed.

Lemma lents_in v blks e : e ∈ lents v blks → ∃ b, b ∈ blks ∧ e ∈ live (v b).
Proof.
  intros He. unfold lents in He. apply list_elem_of_join in He as (l & He & Hl).
  apply list_elem_of_fmap in Hl as (b & -> & Hb). eauto.
Qed.

Lemma assoc_none_names v blks nm :
  (∀ b x, b ∈ blks → x ∈ entries (v b) → names nm x = false) → assoc (item <$> lents v blks) nm = None.
Proof.
  intros Hn. unfold assoc. destruct (List.find _ _) as [x|] eqn:E; [|done]. exfalso.
  apply List.find_some in E as [Hin Hx]. apply list_elem_of_In, list_elem_of_fmap in Hin as (e & -> & He).
  apply lents_in in He as (b & Hb & He). apply live_in in He as [He Hi].
  specialize (Hn b e Hb He). unfold names in Hn. simpl in Hx.
  destruct (Z.eqb_spec (inode e) 0); [done|]. simpl in Hn. congruence.
Qed.

Lemma names_live nm e : names nm e = true → inode e ≠ 0 ∧ name_str e = nm.
Proof.
  unfold names. intros Hn. apply andb_true_iff in Hn as [H1 H2]. apply negb_true_iff, Z.eqb_neq in H1.
  split; [done|]. by apply bool_decide_eq_true in H2.
Qed.

(** The live entries around the entry in slot [k] of block [blk]. *)
Lemma lents_split v pre blk post k :
  is_page (v blk) → 0 ≤ k < ENTRIES_PER_BLK → inode (get_entry (v blk) k) ≠ 0 →
  ∃ l2, lents v (pre ++ blk :: post) =
    lents v pre ++ filter (λ e, inode e ≠ 0) (take (Z.to_nat k) (entries (v blk))) ++ get_entry (v blk) k :: l2.
Proof.
  intros Hp Hk Hi. destruct (live_put (v blk) k blank_entry Hp Hk blank_entry_wf) as (l1 & l2 & -> & Hl & _).
  exists (l2 ++ lents v post). rewrite lents_app, lents_cons, Hl, filter_cons, decide_True by done.
  simpl. by rewrite <- !app_assoc.
Qed.

Lemma find_in_dir_spec s g d nm :
  fs_rep s g → 0 ≤ d < MAX_INODES → 13 ≤ avail s →
  wp (find_in_dir d nm) s (λ r s', r = assoc (listing (bl s) d) nm ∧ dev s' = dev s ∧ step 13 s s').
Proof.
  intros Hr Hd Ha. pose proof Hr as (Hok & Hbig & R). unfold find_in_dir.
  wp_step read_inode_spec; [done|done|done|lia|]. intros i s1 (-> & Hd1 & Hs1).
  pose proof (dir_blocks_length s g d Hr Hd) as Hlen.
  assert (bl s1 = bl s) as E by (unfold bl; by rewrite Hd1).
  wp_step (search_blocks_spec s1 (names nm)); [by eapply step_ok| | |].
  { intros b Hb. rewrite (step_nblk _ _ _ Hs1). pose proof (dir_block_range s g d b Hr Hd Hb).
    unfold DATA_BLOCK_START in *. lia. }
  { unfold len. pose proof (step_avail _ _ _ Hs1). lia. }
  intros r s2 (Hd2 & Hs2 & Hpost). rewrite E in Hpost. apply wp_ret.
  split; [|split; [congruence|eapply step_trans; [exact Hs1|exact Hs2|unfold len; lia]]].
  unfold listing. destruct r as [[[[blk k] e] buf]|].
  - destruct Hpost as (pre & post & -> & -> & Hk & -> & Hp & Hpre & Hlow). apply names_live in Hp as Hp'.
    destruct Hp' as [Hi Hnm]. destruct (lents_split (bl s) pre blk post k (bl_page s blk) Hk Hi) as [l2 ->].
    rewrite app_assoc, fmap_app, fmap_cons.
    rewrite assoc_app_none; [unfold assoc; simpl; by rewrite bool_decide_true|].
    unfold assoc. destruct (List.find _ _) as [x|] eqn:Ef; [|done]. exfalso.
    apply List.find_some in Ef as [Hin Hx]. apply list_elem_of_In, list_elem_of_fmap in Hin as (e & -> & He).
    simpl in Hx. apply bool_decide_eq_true in Hx.
    assert (inode e ≠ 0 ∧ names nm e = false) as [Hie Hne].
    { apply elem_of_app in He as [He|He].
      - apply lents_in in He as (b & Hb & He). apply live_in in He as [He Hie]. eauto.
      - apply list_elem_of_filter in He as [Hie He]. eauto. }
    unfold names in Hne. destruct (Z.eqb_spec (inode e) 0); [done|]. rewrite bool_decide_true in Hne by done. done.
  - symmetry. by apply assoc_none_names.
Qed.

Lemma list_blocks_spec s blks :
  ok s → (∀ b, b ∈ blks → 0 ≤ b < nblk s) → len blks ≤ avail s →
  wp (list_blocks blks) s (λ r s', r = item <$> lents (bl s) blks ∧ dev s' = dev s ∧ step (len blks) s s').
Proof.
  revert s. induction blks as [|blk blks IH]; intros s Hok Hr Ha; cbn [list_blocks].
  { apply wp_ret. split; [done|]. split; [done|]. by apply step_refl. }
  unfold len in *. simpl length in *.
  wp_step read_block_spec; [done|apply Hr; left|lia|]. intros buf s1 (-> & Hd & Hs1).
  assert (bl s1 = bl s) as E by (unfold bl; by rewrite Hd).
  wp_step IH; [by eapply step_ok| | |].
  { intros b Hb. rewrite (step_nblk _ _ _ Hs1). apply Hr. by right. }
  { pose proof (step_avail _ _ _ Hs1). lia. }
  intros out s2 (-> & Hd2 & Hs2). apply wp_ret. rewrite E, lents_cons, fmap_app. split; [reflexivity|].
  split; [congruence|]. eapply step_trans; [exact Hs1|exact Hs2|lia].
Qed.

Lemma list_dir_spec s g d :
  fs_rep s g → 0 ≤ d < MAX_INODES → flags (inode_at (bl s) d) = F_DIR → 13 ≤ avail s →
  wp (list_dir d) s (λ r s', r = listing (bl s) d ∧ dev s' = dev s ∧ step 13 s s').
Proof.
  intros Hr Hd Hf Ha. pose proof Hr as (Hok & Hbig & R). unfold list_dir.
  wp_step read_inode_spec; [done|done|done|lia|]. intros i s1 (-> & Hd1 & Hs1).
  apply wp_bind, wp_rassert; [by rewrite Hf|]. pose proof (dir_blocks_length s g d Hr Hd) as Hlen.
  assert (bl s1 = bl s) as E by (unfold bl; by rewrite Hd1).
  eapply wp_mono; [apply list_blocks_spec; [by eapply step_ok| |]|].
  { intros b Hb. rewrite (step_nblk _ _ _ Hs1). pose proof (dir_block_range s g d b Hr Hd Hb).
    unfold DATA_BLOCK_START in *. lia. }
  { unfold len. pose proof (step_avail _ _ _ Hs1). lia. }
  intros r s2 (-> & Hd2 & Hs2). rewrite E. split; [done|]. split; [congruence|].
  eapply step_trans; [exact Hs1|exact Hs2|unfold len; lia].
Qed.

(** ** Steps that change one directory *)

Lemma rep_commit c v v' d x g :
  0 ≤ d < MAX_INODES → rep c (iupd (inode_at v) d x) v g → inode_set_to v v' d x → (∀ b, is_page (v' b)) →
  rep c (inode_at v') v' g.
Proof.
  intros Hd R [Hin Hoth] Hpg. eapply rep_frame; [exact R| | | |done].
  - intros i Hi. rewrite Hin by done. unfold iupd. case_decide; [by rewrite bool_decide_true|by rewrite bool_decide_false].
  - unfold INODE_BM_BLOCK, INODE_TBL_BLOCK. intros b Hb. apply Hoth; [lia|]. unfold INODE_TBL_BLOCK. lia.
  - intros i t Hne _. pose proof (owned_range _ _ _ _ _ _ R Hne). unfold DATA_BLOCK_START in *. apply Hoth; [lia|].
    unfold DATA_BLOCK_START. lia.
Qed.

Lemma same_node_trans v g v1 g1 v2 g2 j :
  same_node v g v1 g1 j → same_node v1 g1 v2 g2 j → same_node v g v2 g2 j.
Proof.
  intros (Hi & Hg & Hb) (Hi' & Hg' & Hb'). split; [congruence|]. split; [intros t; by rewrite Hg'|].
  intros t Ht. pose proof (Hg t) as Et. rewrite <- Hb by done. rewrite <- Et. apply Hb'. by rewrite Et.
Qed.

(** A step of an operation on directory [d], spending at most [r] blocks and [a] frames. *)
Record dstep (d r a : Z) s (g : tree) s' (g' : tree) : Prop := {
  ds_rep : fs_rep s' g';
  ds_nblk : nblk s' = nblk s;
  ds_gen : GENERATION s' = GENERATION s;
  ds_flags : flags (inode_at (bl s') d) = flags (inode_at (bl s) d);
  ds_others : ∀ j, 0 ≤ j < MAX_INODES → j ≠ d → same_node (bl s) g (bl s') g' j;
  ds_iused : ∀ j, 0 ≤ j < MAX_INODES → iused (bl s') j = iused (bl s) j;
  ds_room : room (bl s) (cap s) - r ≤ room (bl s') (cap s');
  ds_avail : avail s - a ≤ avail s'
}.

Lemma dstep_trans d r1 a1 r2 a2 r a s g s1 g1 s2 g2 :
  dstep d r1 a1 s g s1 g1 → dstep d r2 a2 s1 g1 s2 g2 → r1 + r2 ≤ r → a1 + a2 ≤ a → dstep d r a s g s2 g2.
Proof.
  intros H1 H2 Hr Ha. split.
  - apply H2.
  - rewrite (ds_nblk _ _ _ _ _ _ _ H2). apply H1.
  - rewrite (ds_gen _ _ _ _ _ _ _ H2). apply H1.
  - rewrite (ds_flags _ _ _ _ _ _ _ H2). apply H1.
  - intros j Hj Hne. eapply same_node_trans; [by eapply ds_others|by eapply ds_others].
  - intros j Hj. rewrite (ds_iused _ _ _ _ _ _ _ H2) by done. by eapply ds_iused.
  - pose proof (ds_room _ _ _ _ _ _ _ H1). pose proof (ds_room _ _ _ _ _ _ _ H2). lia.
  - pose proof (ds_avail _ _ _ _ _ _ _ H1). pose proof (ds_avail _ _ _ _ _ _ _ H2). lia.
Qed.

Lemma dstep_read d n s g s' : fs_rep s g → step n s s' → dev s' = dev s → dstep d 0 n s g s' g.
Proof.
  intros (Hok & Hbig & R) Hs Hd. assert (bl s' = bl s) as E by (unfold bl; by rewrite Hd).
  pose proof (step_cap _ _ _ Hs) as Ec. destruct Hs as (Hok' & Hn & Ha & Hg).
  split; rewrite ?E, ?Ec; try done; [|lia].
  split; [done|]. rewrite Hn, E, Ec. done.
Qed.

Lemma dstep_refl d r a s g : fs_rep s g → 0 ≤ r → 0 ≤ a → dstep d r a s g s g.
Proof.
  intros Hr Hr0 Ha. pose proof (dstep_read d 0 s g s Hr (step_refl s (proj1 Hr)) eq_refl) as H0.
  eapply dstep_trans; [exact H0|exact H0|lia|lia].
Qed.

(** [write_inode] of an inode with the same flags and pointers. *)
Lemma dstep_inode s g d x :
  fs_rep s g → 0 ≤ d < MAX_INODES → 1 ≤ avail s → inode_wf x → flags x = F_DIR →
  flags (inode_at (bl s) d) = F_DIR → direct x = direct (inode_at (bl s) d) →
  indirect x = indirect (inode_at (bl s) d) → dindirect x = dindirect (inode_at (bl s) d) →
  wp (write_inode d x) s (λ _ s', dstep d 0 1 s g s' g ∧ listing (bl s') d = listing (bl s) d ∧
    inode_at (bl s') d = x ∧ ∀ b, DATA_BLOCK_START ≤ b → bl s' b = bl s b).
Proof.
  intros Hr Hd Ha Hwf Hfx Hfd Hdir Hind Hdind. pose proof Hr as (Hok & Hbig & R).
  eapply wp_mono; [by apply write_inode_spec|]. intros _ s' [Hs Hset]. pose proof Hset as [Hin Hoth].
  pose proof (step_cap _ _ _ Hs) as Ec.
  assert (∀ b, DATA_BLOCK_START ≤ b → bl s' b = bl s b) as Hdata.
  { intros b Hb. unfold DATA_BLOCK_START in *. apply Hoth; [lia|]. unfold DATA_BLOCK_START. lia. }
  assert (inode_at (bl s') d = x) as Hx by (rewrite Hin by done; by rewrite bool_decide_true).
  assert (∀ b, 0 ≤ b < INODE_TBL_BLOCK → bl s' b = bl s b) as Hlow by (intros b Hb; apply Hoth; lia).
  split; [|split; [|by split]].
  - split.
    + split; [by eapply step_ok|]. rewrite (step_nblk _ _ _ Hs), Ec. split; [done|].
      eapply rep_commit; [exact Hd| |exact Hset|apply bl_page].
      assert (∀ i, 0 ≤ i < MAX_INODES → ∀ t, inode_ptr (iupd (inode_at (bl s)) d x i) t = inode_ptr (inode_at (bl s) i) t) as Hp.
      { intros i Hi t. unfold iupd. case_decide; [subst i|done]. destruct t; cbn [inode_ptr]; congruence. }
      destruct R as [Rp Ro Rw Ri Rf Rr Rfi Rwf Rpg Rc]. split; try done.
      * intros i t Hi Hsl. rewrite Rp by done. unfold ptr. destruct (parent t); [done|]. by rewrite Hp.
      * intros i Hi Hu. destruct (Rf i Hi Hu) as [Hfree ?]. unfold iupd. case_decide; [subst i; by rewrite Hfd in Hfree|done].
      * intros i n Hi. unfold iupd. case_decide; [by rewrite Hfx|]. by apply Rfi.
      * intros i Hi. unfold iupd. case_decide; [done|by apply Rwf].
    + by rewrite (step_nblk _ _ _ Hs).
    + apply Hs.
    + rewrite Hx. congruence.
    + intros j Hj Hne. split; [rewrite Hin by done; by rewrite bool_decide_false|]. split; [done|].
      intros t Ht. apply Hdata. by apply (owned_range _ _ _ _ _ _ R Ht).
    + intros j Hj. apply iused_ext; [done|]. apply Hlow. by unfold INODE_BM_BLOCK, INODE_TBL_BLOCK.
    + rewrite Ec. destruct (cap_bounds s). rewrite (room_ext (bl s) (bl s')); [lia|]. intros j Hj. apply used_ext; [lia|].
      intros b Hb. apply Hlow. unfold BLOCK_BM_BLOCK in Hb. lia.
    + apply Hs.
  - unfold listing. rewrite Hx. unfold dir_blocks at 1. rewrite Hdir. fold (dir_blocks (inode_at (bl s) d)).
    f_equal. apply lents_ext. intros b Hb. apply Hdata. by apply (dir_block_range s g d b Hr Hd Hb).
Qed.

(** Overwriting one entry of a directory block. *)
Lemma dstep_entry s g d pre blk post k e :
  fs_rep s g → 0 ≤ d < MAX_INODES → dir_blocks (inode_at (bl s) d) = pre ++ blk :: post →
  0 ≤ k < ENTRIES_PER_BLK → entry_wf e →
  wp (write_block blk (put_entry (bl s blk) k e)) s (λ _ s', dstep d 0 0 s g s' g ∧
    inode_at (bl s') d = inode_at (bl s) d ∧
    ∃ l2, lents (bl s) (dir_blocks (inode_at (bl s) d)) =
        (lents (bl s) pre ++ filter (λ e, inode e ≠ 0) (take (Z.to_nat k) (entries (bl s blk)))) ++
        filter (λ e, inode e ≠ 0) [get_entry (bl s blk) k] ++ l2 ∧
      lents (bl s') (dir_blocks (inode_at (bl s) d)) =
        (lents (bl s) pre ++ filter (λ e, inode e ≠ 0) (take (Z.to_nat k) (entries (bl s blk)))) ++
        filter (λ e, inode e ≠ 0) [e] ++ l2).
Proof.
  intros Hr Hd Hblks Hk He. pose proof Hr as (Hok & Hbig & R). destruct (cap_bounds s) as [Hc1 Hc2].
  assert (blk ∈ dir_blocks (inode_at (bl s) d)) as Hin by (rewrite Hblks; set_solver).
  destruct (dir_blocks_own s g d blk Hr Hd Hin) as (kk & Hkk & Eblk & Hnz).
  pose proof (dir_block_range s g d blk Hr Hd Hin) as Hrange. unfold DATA_BLOCK_START in Hrange.
  pose proof (dir_blocks_nodup s g d Hr Hd) as Hnd. rewrite Hblks in Hnd.
  apply NoDup_app in Hnd as (_ & Hdisj & Hnd2). apply NoDup_cons in Hnd2 as [Hnp _].
  eapply wp_mono; [apply write_block_spec; [done|lia|by apply put_entry_page; [apply bl_page|..]]|].
  intros _ s' [Hs Hv]. pose proof (step_cap _ _ _ Hs) as Ec.
  assert (∀ b, 0 ≤ b → b ≠ blk → bl s' b = bl s b) as Hoth.
  { intros b Hb Hne. rewrite Hv by done. by apply upd_ne. }
  assert (∀ j, 0 ≤ j < MAX_INODES → inode_at (bl s') j = inode_at (bl s) j) as Hino.
  { intros j Hj. apply inode_at_ext; [done|]. unfold INODE_TBL_BLOCK, DATA_BLOCK_START. intros b Hb. apply Hoth; lia. }
  split; [|split; [by apply Hino|]].
  - split.
    + split; [by eapply step_ok|]. rewrite (step_nblk _ _ _ Hs), Ec. split; [done|].
      eapply rep_frame; [exact R|exact Hino| | |apply bl_page].
      * unfold INODE_BM_BLOCK, INODE_TBL_BLOCK. intros b Hb. apply Hoth; lia.
      * intros i t Ht Htab. pose proof (owned_range _ _ _ _ _ _ R Ht) as Hor. unfold DATA_BLOCK_START in Hor.
        apply Hoth; [lia|]. rewrite Eblk. intros E. apply (rep_inj _ _ _ _ R) in E as [_ ->]; done.
    + by rewrite (step_nblk _ _ _ Hs).
    + apply Hs.
    + by rewrite Hino.
    + intros j Hj Hne. split; [by apply Hino|]. split; [done|]. intros t Ht.
      pose proof (owned_range _ _ _ _ _ _ R Ht) as Hor. unfold DATA_BLOCK_START in Hor.
      apply Hoth; [lia|]. rewrite Eblk. intros E. apply (rep_inj _ _ _ _ R) in E as [-> _]; done.
    + intros j Hj. apply iused_ext; [done|]. unfold INODE_BM_BLOCK. apply Hoth; lia.
    + rewrite Ec, (room_ext (bl s) (bl s')); [lia|]. intros j Hj. apply used_ext; [lia|].
      unfold BLOCK_BM_BLOCK, INODE_TBL_BLOCK. intros b Hb. apply Hoth; lia.
    + apply Hs.
  - destruct (live_put (bl s blk) k e (bl_page s blk) Hk He) as (l1 & l2 & -> & Hl & Hl').
    exists (l2 ++ lents (bl s) post). rewrite Hblks, !lents_app, !lents_cons, Hl.
    rewrite Hv by lia. rewrite upd_eq, Hl'.
    assert (∀ bs, (∀ b, b ∈ bs → b ∈ dir_blocks (inode_at (bl s) d) ∧ b ≠ blk) → lents (bl s') bs = lents (bl s) bs) as Hext.
    { intros bs Hbs. apply lents_ext. intros b Hb. destruct (Hbs b Hb) as [Hb1 Hb2].
      pose proof (dir_block_range s g d b Hr Hd Hb1) as Hbr. unfold DATA_BLOCK_START in Hbr. apply Hoth; [lia|done]. }
    rewrite !Hext; [by rewrite <- !app_assoc|..].
    + intros b Hb. rewrite Hblks. split; [set_solver|]. intros ->. done.
    + intros b Hb. rewrite Hblks. split; [set_solver|]. intros ->. apply (Hdisj blk); [done|]. left.
Qed.

Lemma live_zero : live zero_page = [].
Proof. vm_compute. reflexivity. Qed.
#[local] Opaque live entries zero_page room.

Lemma filter_hole (l : list Z) k b :
  l !! k = Some 0 → b ≠ 0 →
  ∃ l1 l2, filter (λ b, b ≠ 0) l = l1 ++ l2 ∧ filter (λ b, b ≠ 0) (<[k := b]> l) = l1 ++ b :: l2.
Proof.
  intros Hk Hb. apply lookup_lt_Some in Hk as Hlt.
  exists (filter (λ b, b ≠ 0) (take k l)), (filter (λ b, b ≠ 0) (drop (S k) l)). split.
  - rewrite <- (take_drop_middle _ _ _ Hk) at 1. rewrite filter_app, filter_cons.
    by rewrite decide_False by auto.
  - rewrite insert_take_drop by done. rewrite filter_app, filter_cons. by rewrite decide_True.
Qed.

(** The view after [alloc_block]: the inode table and inode bitmap are untouched. *)
Lemma allocated_inodes v v' c b : fresh v c b → allocated v v' b →
  (∀ j, 0 ≤ j < MAX_INODES → inode_at v' j = inode_at v j) ∧
  (∀ j, 0 ≤ j < MAX_INODES → iused v' j = iused v j).
Proof.
  intros Hf Ha. split; intros j Hj.
  - apply inode_at_ext; [done|]. intros b' Hb'. eapply allocated_sys; [done..| |];
      unfold INODE_TBL_BLOCK, BLOCK_BM_BLOCK in *; lia.
  - apply iused_ext; [done|]. by eapply allocated_ibm.
Qed.

(** A directory gets a new, empty block. *)
Lemma dstep_grow s g d k :
  fs_rep s g → 0 ≤ d < MAX_INODES → flags (inode_at (bl s) d) = F_DIR → 0 ≤ k < DIRECT_PTRS →
  g d (SDir k) = 0 → 1 ≤ room (bl s) (cap s) → 8 ≤ avail s →
  wp (new_blk ← alloc_block;
      let i := inc_nblocks (set_direct (Z.to_nat k) new_blk (inode_at (bl s) d)) in
      write_inode d i ≫= λ _, mret i) s
    (λ i s', ∃ b, dstep d 1 7 s g s' (gset g d (SDir k) b) ∧ i = inode_at (bl s') d ∧
       listing (bl s') d = listing (bl s) d ∧ direct i !! Z.to_nat k = Some b ∧ b ≠ 0 ∧ bl s' b = zero_page).
Proof.
  intros Hr Hd Hdir Hk Hz Hroom Hav. pose proof Hr as (Hok & Hbig & R). destruct (cap_bounds s) as [Hc1 Hc2].
  wp_step alloc_block_spec; [done|done|done|lia|]. intros b s1 (Hs1 & Hf & _ & Ha).
  pose proof (fresh_u32 _ _ _ Hf Hc2) as Hu32. pose proof (rep_wf _ _ _ _ R d Hd) as Hwf.
  destruct (set_ptr_facts (SDir k) b _ Hwf Hu32 eq_refl Hk) as (Hwf' & Hfl & Hsz & Hptr). cbn [set_ptr] in Hwf', Hfl, Hsz, Hptr.
  set (x := inc_nblocks (set_direct (Z.to_nat k) b (inode_at (bl s) d))) in *.
  destruct (allocated_inodes _ _ _ _ Hf Ha) as [Hino1 Hiu1].
  assert (iused (bl s) d = true) as Hiu by (eapply rep_live; [exact R|done|by rewrite Hdir]).
  pose proof (rep_alloc_top _ _ _ _ _ d (SDir k) b x R Hd Hk eq_refl Hz Hf Ha (bl_page s1) Hiu Hwf' Hfl Hsz Hptr) as R1.
  wp_step write_inode_spec; [by eapply step_ok|done|by rewrite (step_nblk _ _ _ Hs1)|
    pose proof (step_avail _ _ _ Hs1); lia|exact Hwf'|].
  intros _ s2 [Hs2 Hset]. pose proof Hset as [Hin Hoth]. apply wp_ret. exists b.
  assert (step 7 s s2) as Hs by (eapply step_trans; [exact Hs1|exact Hs2|lia]).
  assert (∀ b', DATA_BLOCK_START ≤ b' → bl s2 b' = bl s1 b') as Hdata.
  { unfold DATA_BLOCK_START. intros b' Hb'. apply Hoth; [lia|]. unfold DATA_BLOCK_START. lia. }
  assert (inode_at (bl s2) d = x) as Hx by (rewrite Hin by done; by rewrite bool_decide_true).
  destruct (rep_wf _ _ _ _ R d Hd) as (_ & [Hdl _] & _).
  assert (direct (inode_at (bl s) d) !! Z.to_nat k = Some 0) as Hk0.
  { pose proof (rep_ptr _ _ _ _ R d (SDir k) Hd Hk) as E. unfold ptr in E. cbn [parent inode_ptr] in E.
    unfold DIRECT_PTRS in Hk. destruct (lookup_lt_is_Some_2 (direct (inode_at (bl s) d)) (Z.to_nat k)) as [y Hy];
      [rewrite Hdl; lia|]. rewrite Hy in E |- *. rewrite Hz in E. by rewrite E. }
  assert (DATA_BLOCK_START ≤ b ∧ b ≠ 0) as [Hb38 Hb0] by (destruct Hf as [Hbr _]; unfold DATA_BLOCK_START in *; lia).
  split; [|split; [done|split; [|split; [|split; [exact Hb0|]]]]].
  - split.
    + split; [by eapply step_ok|]. rewrite (step_nblk _ _ _ Hs), (step_cap _ _ _ Hs). split; [done|].
      eapply rep_commit; [exact Hd| |exact Hset|apply bl_page]. eapply rep_im; [|exact R1].
      intros i Hi. unfold iupd. case_decide; [done|]. by apply Hino1.
    + by rewrite (step_nblk _ _ _ Hs).
    + apply Hs.
    + by rewrite Hx.
    + intros j Hj Hne. split; [rewrite Hin by done; rewrite bool_decide_false by done; by apply Hino1|].
      split; [intros t; by apply gset_ne; left|]. intros t Ht.
      rewrite Hdata by apply (owned_range _ _ _ _ _ _ R Ht). by eapply allocated_owned.
    + intros j Hj. rewrite <- Hiu1 by done. apply iused_ext; [done|]. apply Hoth; [done|].
      unfold INODE_BM_BLOCK, INODE_TBL_BLOCK. lia.
    + rewrite (step_cap _ _ _ Hs). rewrite (room_ext (bl s1) (bl s2)).
      * apply room_use with (b := b). intros j Hj. apply Ha. lia.
      * intros j Hj. apply used_ext; [lia|]. unfold BLOCK_BM_BLOCK, INODE_TBL_BLOCK. intros b' Hb'.
        apply Hoth; [lia|]. unfold INODE_TBL_BLOCK. lia.
    + apply Hs.
  - unfold listing. rewrite Hx. destruct (filter_hole _ _ b Hk0 Hb0) as (l1 & l2 & Hl & Hl').
    unfold dir_blocks at 1. cbn [x inc_nblocks set_nblocks set_direct direct] in Hl' |- *.
    unfold dir_blocks. rewrite Hl. change (direct x) with (<[Z.to_nat k := b]> (direct (inode_at (bl s) d))).
    rewrite Hl', !lents_app, lents_cons. rewrite Hdata by done. destruct Ha as (Hzero & Ho & Hu).
    rewrite Hzero, live_zero, app_nil_l.
    assert (∀ bs, (∀ b', b' ∈ bs → b' ∈ dir_blocks (inode_at (bl s) d)) → lents (bl s2) bs = lents (bl s) bs) as Hext.
    { intros bs Hbs. apply lents_ext. intros b' Hb'.
      destruct (dir_blocks_own s g d b' Hr Hd (Hbs b' Hb')) as (k' & _ & -> & Hne).
      rewrite Hdata by apply (owned_range _ _ _ _ _ _ R Hne). eapply allocated_owned; [exact R|exact Hf|done|done]. }
    rewrite (Hext l1), (Hext l2); [reflexivity|..]; intros b' Hb'; unfold dir_blocks; rewrite Hl; apply elem_of_app; auto.
  - cbn [x inc_nblocks set_nblocks set_direct direct]. apply list_lookup_insert_eq.
    unfold DIRECT_PTRS in Hk. rewrite Hdl. lia.
  - rewrite Hdata by done. apply Ha.
Qed.

(** ** Adding an entry *)

(** Some slot from [lo] on is unallocated or has a blank entry. *)
Definition has_space (v : view) (g : tree) (d lo : Z) : Prop :=
  ∃ k, lo ≤ k < DIRECT_PTRS ∧ (g d (SDir k) = 0 ∨ ∃ x, x ∈ entries (v (g d (SDir k))) ∧ inode x = 0).

Definition name_ok (nm : list Z) : Prop := len nm ≤ 27 ∧ Forall is_byte nm ∧ utf8_valid nm = true.

Lemma zero_has_blank : ∃ x, x ∈ entries zero_page ∧ inode x = 0.
Proof.
  exists (get_entry zero_page 0). split.
  - apply list_elem_of_lookup. exists (Z.to_nat 0). by apply lookup_entries.
  - unfold get_entry. cbn [inode]. apply peek_zero_page; done.
Qed.

Lemma dir_ptr s g d k :
  fs_rep s g → 0 ≤ d < MAX_INODES → 0 ≤ k < DIRECT_PTRS →
  direct (inode_at (bl s) d) !! Z.to_nat k = Some (g d (SDir k)).
Proof.
  intros (_ & _ & R) Hd Hk. destruct (rep_wf _ _ _ _ R d Hd) as (_ & [Hl _] & _).
  pose proof (rep_ptr _ _ _ _ R d (SDir k) Hd Hk) as E. unfold ptr in E. cbn [parent inode_ptr] in E.
  unfold DIRECT_PTRS in Hk. destruct (lookup_lt_is_Some_2 (direct (inode_at (bl s) d)) (Z.to_nat k)) as [y Hy];
    [rewrite Hl; lia|]. rewrite Hy in E |- *. by rewrite E.
Qed.

Lemma dir_block_in s g d k :
  fs_rep s g → 0 ≤ d < MAX_INODES → 0 ≤ k < DIRECT_PTRS → g d (SDir k) ≠ 0 →
  g d (SDir k) ∈ dir_blocks (inode_at (bl s) d).
Proof.
  intros Hr Hd Hk Hne. unfold dir_blocks. apply list_elem_of_filter. split; [done|].
  eapply list_elem_of_lookup_2. by apply dir_ptr.
Qed.

(** Storing the new entry in slot [j] of block [k], then the new size. *)
Lemma add_entry_spec s g d k j nm ino :
  fs_rep s g → 0 ≤ d < MAX_INODES → flags (inode_at (bl s) d) = F_DIR → 0 ≤ k < DIRECT_PTRS →
  g d (SDir k) ≠ 0 → 0 ≤ j < ENTRIES_PER_BLK → inode (get_entry (bl s (g d (SDir k))) j) = 0 →
  is_u 32 ino → ino ≠ 0 → name_ok nm → 1 ≤ avail s →
  wp (write_block (g d (SDir k)) (put_entry (bl s (g d (SDir k))) j (new_entry ino nm)) ≫= λ _,
      write_inode d (set_size (u64 (size (inode_at (bl s) d) + DIR_ENTRY_SIZE)) (inode_at (bl s) d))) s
    (λ _ s', ∃ l1 l2, dstep d 0 1 s g s' g ∧ listing (bl s) d = l1 ++ l2 ∧
       listing (bl s') d = l1 ++ (ino, nm) :: l2).
Proof.
  intros Hr Hd Hf Hk Hne Hj Hblank Hino Hnz (Hlen & Hbytes & Hutf) Ha.
  pose proof (dir_block_in s g d k Hr Hd Hk Hne) as Hin.
  apply list_elem_of_split in Hin as (pre & post & Hblks).
  assert (entry_wf (new_entry ino nm)) as He by by apply new_entry_wf.
  wp_step (dstep_entry s g d pre (g d (SDir k)) post j (new_entry ino nm)); [done..|].
  intros u s1 (Hst & Hi1 & l2 & Hl & Hl'). rewrite <- Hi1.
  pose proof (ds_rep _ _ _ _ _ _ _ Hst) as Hr1. pose proof (ds_flags _ _ _ _ _ _ _ Hst) as Hf1.
  destruct Hr as (_ & _ & R). destruct Hr1 as (Hok1 & Hbig1 & R1).
  eapply wp_mono; [apply (dstep_inode s1 g d)|].
  - split; [done|]. by split.
  - done.
  - pose proof (ds_avail _ _ _ _ _ _ _ Hst). lia.
  - apply set_size_wf; [by apply (rep_wf _ _ _ _ R1)|by apply wrap_range].
  - cbn [set_size flags]. by rewrite Hf1.
  - by rewrite Hf1.
  - done.
  - done.
  - done.
  - intros u' s2 (Hst2 & Hlist & _ & _).
    exists (item <$> (lents (bl s) pre ++ filter (λ e, inode e ≠ 0) (take (Z.to_nat j) (entries (bl s (g d (SDir k))))))),
      (item <$> l2).
    split; [eapply dstep_trans; [exact Hst|exact Hst2|lia|lia]|]. rewrite Hlist. unfold listing. rewrite Hi1, Hl, Hl'.
    rewrite !filter_cons, decide_False by auto. rewrite decide_True by done. rewrite filter_nil, app_nil_l.
    split; [by rewrite !fmap_app|]. rewrite !(fmap_app item), fmap_cons.
    do 2 f_equal. cbn [app]. unfold item at 1. by rewrite name_str_new.
Qed.

Lemma add_dir_loop_spec n k s g d nm ino :
  Z.of_nat n + k = DIRECT_PTRS → 0 ≤ k → fs_rep s g → 0 ≤ d < MAX_INODES → flags (inode_at (bl s) d) = F_DIR →
  has_space (bl s) g d k → 1 ≤ room (bl s) (cap s) → Z.of_nat n + 10 ≤ avail s →
  is_u 32 ino → ino ≠ 0 → name_ok nm →
  wp (add_dir_loop n (Z.to_nat k) d (inode_at (bl s) d) nm ino) s (λ _ s', ∃ g' l1 l2,
    dstep d 1 (Z.of_nat n + 9) s g s' g' ∧ listing (bl s) d = l1 ++ l2 ∧ listing (bl s') d = l1 ++ (ino, nm) :: l2).
Proof.
  revert k s. induction n as [|n IH]; intros k s Hnk Hk Hr Hd Hf Hsp Hroom Hav Hino Hnz Hnm; cbn [add_dir_loop].
  { destruct Hsp as (k' & Hk' & _). lia. }
  assert (0 ≤ k < DIRECT_PTRS) as Hkr by lia.
  apply wp_bind. eapply wp_lift; [by erewrite dir_ptr|].
  apply wp_bind. eapply wp_mono with (Q := λ i1 s1, ∃ g1, dstep d 1 7 s g s1 g1 ∧ i1 = inode_at (bl s1) d ∧
    listing (bl s1) d = listing (bl s) d ∧ g1 d (SDir k) ≠ 0 ∧
    ((s1 = s ∧ g1 = g) ∨ ∃ x, x ∈ entries (bl s1 (g1 d (SDir k))) ∧ inode x = 0)).
  { destruct (Z.eqb_spec (g d (SDir k)) 0) as [Ez|Hne].
    - eapply wp_mono; [apply (dstep_grow s g d k Hr Hd Hf Hkr Ez Hroom); lia|].
      intros i1 s1 (b & Hst & -> & Hlist & _ & Hb & Hzero). exists (gset g d (SDir k) b). rewrite gset_eq.
      do 4 (split; [done|]). right. rewrite Hzero. apply zero_has_blank.
    - apply wp_ret. exists g. split; [by apply dstep_refl|]. do 3 (split; [done|]). by left. }
  intros i1 s1 (g1 & Hst1 & -> & Hlist1 & Hne1 & Hcase).
  pose proof (ds_rep _ _ _ _ _ _ _ Hst1) as Hr1. pose proof Hr1 as (Hok1 & Hbig1 & R1).
  pose proof (ds_flags _ _ _ _ _ _ _ Hst1) as Hf1. rewrite Hf in Hf1.
  pose proof (ds_avail _ _ _ _ _ _ _ Hst1) as Ha1.
  apply wp_bind. eapply wp_lift; [by erewrite dir_ptr|].
  pose proof (dir_block_range s1 g1 d _ Hr1 Hd (dir_block_in s1 g1 d k Hr1 Hd Hkr Hne1)) as Hbr. unfold DATA_BLOCK_START in Hbr.
  wp_step read_block_spec; [done|lia|lia|]. intros buf s2 (-> & Hd2 & Hs2).
  assert (bl s2 = bl s1) as E by (unfold bl; by rewrite Hd2).
  pose proof (dstep_read d 1 s1 g1 s2 Hr1 Hs2 Hd2) as Hst2.
  pose proof (dstep_trans _ _ _ _ _ 1 8 _ _ _ _ _ _ Hst1 Hst2 ltac:(lia) ltac:(lia)) as Hst12.
  pose proof (ds_rep _ _ _ _ _ _ _ Hst2) as Hr2. pose proof (ds_avail _ _ _ _ _ _ _ Hst2) as Ha2.
  pose proof (find_entry_spec (has_ino 0) (bl s1 (g1 d (SDir k)))) as Hfind.
  destruct (find_entry (has_ino 0) (bl s1 (g1 d (SDir k)))) as [[j e]|].
  - destruct Hfind as (Hj & -> & Hp & _). unfold has_ino in Hp. apply Z.eqb_eq in Hp. rewrite <- E in Hp |- *.
    eapply wp_mono; [apply (add_entry_spec s2 g1 d k j nm ino); try done; [by rewrite E|lia]|].
    intros u s3 (l1 & l2 & Hst3 & Hl & Hl'). exists g1, l1, l2.
    split; [eapply dstep_trans; [exact Hst12|exact Hst3|lia|lia]|]. rewrite E, Hlist1 in Hl. done.
  - assert (s1 = s ∧ g1 = g) as [-> ->].
    { destruct Hcase as [?|(x & Hx & Hx0)]; [done|]. specialize (Hfind x Hx). unfold has_ino in Hfind.
      rewrite Hx0 in Hfind. done. }
    replace (S (Z.to_nat k)) with (Z.to_nat (k + 1)) by lia. rewrite <- E.
    eapply wp_mono; [apply (IH (k + 1) s2);
      [lia|lia|exact Hr2|exact Hd|by rewrite E| | | |exact Hino|exact Hnz|exact Hnm]|].
    + rewrite E. destruct Hsp as (k' & Hk' & Hspace). exists k'. split; [|done].
      destruct (decide (k' = k)) as [->|]; [|lia]. destruct Hspace as [|(x & Hx & Hx0)]; [done|].
      specialize (Hfind x Hx). unfold has_ino in Hfind. rewrite Hx0 in Hfind. done.
    + pose proof (ds_room _ _ _ _ _ _ _ Hst2). lia.
    + lia.
    + intros u s3 (g' & l1 & l2 & Hst3 & Hl & Hl'). exists g', l1, l2. rewrite E in Hl.
      split; [eapply dstep_trans; [exact Hst2|exact Hst3|lia|lia]|by rewrite E].
Qed.

Lemma add_dir_entry_spec s g d nm ino :
  fs_rep s g → 0 ≤ d < MAX_INODES → flags (inode_at (bl s) d) = F_DIR →
  has_space (bl s) g d 0 → 1 ≤ room (bl s) (cap s) → 23 ≤ avail s →
  is_u 32 ino → ino ≠ 0 → name_ok nm →
  wp (add_dir_entry d nm ino) s (λ _ s', ∃ g' l1 l2, dstep d 1 22 s g s' g' ∧
    listing (bl s) d = l1 ++ l2 ∧ listing (bl s') d = l1 ++ (ino, nm) :: l2).
Proof.
  intros Hr Hd Hf Hsp Hroom Hav Hino Hnz Hnm. pose proof Hr as (Hok & Hbig & R). unfold add_dir_entry.
  wp_step read_inode_spec; [done|done|done|lia|]. intros i s1 (-> & Hd1 & Hs1).
  apply wp_bind, wp_rassert; [apply Z.leb_le; apply Hnm|].
  assert (bl s1 = bl s) as E by (unfold bl; by rewrite Hd1).
  pose proof (dstep_read d 1 s g s1 Hr Hs1 Hd1) as Hst1. rewrite <- E.
  eapply wp_mono; [apply (add_dir_loop_spec (Z.to_nat DIRECT_PTRS) 0 s1 g d nm ino);
    [done|done|apply Hst1|exact Hd|by rewrite E|by rewrite E| | |exact Hino|exact Hnz|exact Hnm]|].
  - pose proof (ds_room _ _ _ _ _ _ _ Hst1). lia.
  - pose proof (ds_avail _ _ _ _ _ _ _ Hst1). unfold DIRECT_PTRS. lia.
  - intros u s2 (g' & l1 & l2 & Hst2 & Hl & Hl'). exists g', l1, l2. split; [|done].
    eapply dstep_trans; [exact Hst1|exact Hst2|lia|unfold DIRECT_PTRS; lia].
Qed.
End dir.
