(* ===== verification/HepfsOps.v ===== *)
(** HepFS, operations: [create_file], [create_dir], [rename], [move_entry] over
    the listing of a directory and the files of the disk, and [format]. *)

From stdpp Require Import prelude list numbers strings gmap.
From S2P Require Import Prelude Pmm Hepfs HepfsBlock HepfsRep HepfsFile HepfsRead HepfsDir.

Local Open Scope Z_scope.

Section ops.
Context {D F : Type} `{!Drive D} `{!FrameSource F}.
Implicit Types (s : fs D F).

Lemma bump_spec s : wp bump_generation s (λ _ s',
  dev s' = dev s ∧ frames s' = frames s ∧ GENERATION s' = u64 (GENERATION s + 1)).
Proof. done. Qed.

Lemma fs_rep_same s s' g : dev s' = dev s → frames s' = frames s → fs_rep s g → fs_rep s' g.
Proof. intros Hd Hf. unfold fs_rep, ok, nblk, cap, nblk, bl. by rewrite Hd, Hf. Qed.

(** Nothing about a node changes when the blocks it owns and its inode do not. *)
Lemma same_node_blocks v v' g c im j :
  rep c im v g → 0 ≤ j < MAX_INODES → inode_at v' j = inode_at v j →
  (∀ b, DATA_BLOCK_START ≤ b → v' b = v b) → same_node v g v' g j.
Proof.
  intros R Hj Hi Hb. split; [done|]. split; [done|]. intros t Ht. apply Hb. by apply (owned_range _ _ _ _ _ _ R Ht).
Qed.

Lemma same_node_listing s g s' g' d :
  fs_rep s g → 0 ≤ d < MAX_INODES → same_node (bl s) g (bl s') g' d → listing (bl s') d = listing (bl s) d.
Proof.
  intros Hr Hd (Hi & _ & Hb). unfold listing. rewrite Hi. f_equal. apply lents_ext. intros b Hin.
  destruct (dir_blocks_own s g d b Hr Hd Hin) as (k & _ & -> & Hne). by apply Hb.
Qed.

(** ** A fresh inode *)

(** [ino] was free; it now has its bitmap bit and the contents [x]. *)
Record inode_created s (g : tree) (ino : Z) (x : Inode) s' (g' : tree) : Prop := {
  ic_rep : fs_rep s' g';
  ic_range : 0 < ino < MAX_INODES;
  ic_free : iused (bl s) ino = false;
  ic_used : iused (bl s') ino = true;
  ic_at : inode_at (bl s') ino = x;
  ic_nblk : nblk s' = nblk s;
  ic_gen : GENERATION s' = GENERATION s;
  ic_others : ∀ j, 0 ≤ j < MAX_INODES → j ≠ ino → same_node (bl s) g (bl s') g' j;
  ic_iused : ∀ j, 0 ≤ j < MAX_INODES → j ≠ ino → iused (bl s') j = iused (bl s) j
}.

Lemma iused_set v v' i j :
  bit_set_to v v' INODE_BM_BLOCK i true → 0 ≤ j → iused v' j = if bool_decide (j = i) then true else iused v j.
Proof. intros [Hb _] Hj. by apply Hb. Qed.

(** Setting a bit of the inode bitmap. *)
Lemma rep_ibit c v v' g ino :
  0 ≤ ino < MAX_INODES → rep c (inode_at v) v g → bit_set_to v v' INODE_BM_BLOCK ino true →
  (∀ b, is_page (v' b)) →
  rep c (inode_at v') v' g ∧ (∀ b, 0 ≤ b → b ≠ INODE_BM_BLOCK → v' b = v b).
Proof.
  intros Hino R Hset Hpg. pose proof Hset as [Hbit Hoth].
  assert (∀ b, 0 ≤ b → b ≠ INODE_BM_BLOCK → v' b = v b) as Hsame.
  { intros b Hb Hne. apply Hoth; [done|]. intros ->. apply Hne. unfold MAX_INODES, INODE_BM_BLOCK, BLOCK_SIZE in *. dlia. }
  split; [|done].
  assert (∀ b, 0 ≤ b < BM_BITS → used v' b = used v b) as Hu.
  { intros b Hb. apply used_ext; [done|]. unfold BLOCK_BM_BLOCK, INODE_TBL_BLOCK. intros b' Hb'.
    apply Hsame; [lia|]. unfold INODE_BM_BLOCK. lia. }
  assert (∀ j, 0 ≤ j < MAX_INODES → inode_at v' j = inode_at v j) as Hi.
  { intros j Hj. apply inode_at_ext; [done|]. unfold INODE_TBL_BLOCK. intros b' Hb'.
    apply Hsame; [lia|]. unfold INODE_BM_BLOCK. lia. }
  destruct R as [Rp Ro Rw Ri Rf Rr Rfi Rwf Rpg Rc]. split; try done.
  - intros i t Hi' Hok. rewrite Rp by done. unfold ptr. destruct (parent t) as [p|]; [|by rewrite Hi].
    destruct (Z.eqb_spec (g i p) 0) as [|Hne]; [done|]. destruct (Rw i p Hne) as [Hr _].
    unfold DATA_BLOCK_START in Hr. rewrite Hsame; [done|lia|]. unfold INODE_BM_BLOCK. lia.
  - intros i t Hne. destruct (Rw i t Hne) as [Hr Hub]. split; [done|]. rewrite Hu; [done|].
    unfold DATA_BLOCK_START in Hr. lia.
  - intros i Hi' Hfree. rewrite (iused_set v v' ino) in Hfree by (done || lia). rewrite Hi by done.
    case_bool_decide; [done|]. by apply Rf.
  - rewrite (iused_set v v' ino) by (done || lia). by case_bool_decide.
  - intros i n Hi'. rewrite Hi by done. by apply Rfi.
  - intros i Hi'. rewrite Hi by done. by apply Rwf.
Qed.

Lemma alloc_inode_rep s g f :
  fs_rep s g → 0 ≤ f < MAX_INODES → iused (bl s) f = false → 2 ≤ avail s →
  wp alloc_inode s (λ ino s', step 2 s s' ∧ inode_created s g ino (inode_at (bl s) ino) s' g ∧
    (∀ j, 0 ≤ j < ino → iused (bl s) j = true) ∧ flags (inode_at (bl s) ino) = F_FREE ∧ (∀ t, g ino t = 0) ∧
    (∀ b, 0 ≤ b → b ≠ INODE_BM_BLOCK → bl s' b = bl s b)).
Proof.
  intros (Hok & Hbig & R) Hf Hfu Ha. eapply wp_mono; [by apply (alloc_inode_spec s f)|].
  intros ino s' (Hs & Hi & Hiu & Hlow & Hset).
  assert (0 ≤ ino < MAX_INODES) as Hino by lia.
  destruct (rep_ibit _ _ _ _ _ Hino R Hset (bl_page s')) as [R' Hsame].
  destruct (rep_free _ _ _ _ R ino Hino Hiu) as [Hfl Hg].
  assert (∀ j, 0 ≤ j < MAX_INODES → inode_at (bl s') j = inode_at (bl s) j) as Hinode.
  { intros j Hj. apply inode_at_ext; [done|]. unfold INODE_TBL_BLOCK. intros b' Hb'.
    apply Hsame; [lia|]. unfold INODE_BM_BLOCK. lia. }
  split; [done|]. split; [|done]. split.
  - split; [by eapply step_ok|]. rewrite (step_nblk _ _ _ Hs), (step_cap _ _ _ Hs). by split.
  - assert (ino ≠ ROOT_INO); [|unfold ROOT_INO in *; lia]. intros ->. rewrite (rep_root _ _ _ _ R) in Hiu. done.
  - done.
  - rewrite (iused_set (bl s) (bl s') ino) by (done || lia). by rewrite bool_decide_true.
  - by apply Hinode.
  - apply Hs.
  - apply Hs.
  - intros j Hj Hne. eapply same_node_blocks; [exact R|done|by apply Hinode|].
    unfold DATA_BLOCK_START. intros b Hb. apply Hsame; [lia|]. unfold INODE_BM_BLOCK. lia.
  - intros j Hj Hne. rewrite (iused_set (bl s) (bl s') ino) by (done || lia). by rewrite bool_decide_false.
Qed.

(** Writing an inode without pointers over a free one. *)
Lemma rep_plain c v g ino x :
  0 ≤ ino < MAX_INODES → rep c (inode_at v) v g → iused v ino = true → (∀ t, g ino t = 0) → inode_wf x →
  size x = 0 → (∀ t, inode_ptr x t = 0) → rep c (iupd (inode_at v) ino x) v g.
Proof.
  intros Hino [Rp Ro Rw Ri Rf Rr Rfi Rwf Rpg Rc] Hu Hg Hwf Hsz Hptr. split; try done.
  - intros i t Hi Hok. unfold ptr. destruct (decide (i = ino)) as [->|Hne].
    + rewrite Hg. destruct (parent t); [by rewrite Hg|]. by rewrite iupd_eq, Hptr.
    + rewrite Rp by done. unfold ptr. destruct (parent t); [done|]. by rewrite iupd_ne.
  - intros i Hi Hfree. assert (i ≠ ino) by congruence. rewrite iupd_ne by done. by apply Rf.
  - intros i n Hi. destruct (decide (i = ino)) as [->|Hne]; [rewrite iupd_eq, Hsz; unfold BLOCK_SIZE; lia|].
    rewrite iupd_ne by done. by apply Rfi.
  - intros i Hi. unfold iupd. case_decide; [done|by apply Rwf].
Qed.

(** [write_inode] of the new inode, on top of a step that kept the rest. *)
Lemma write_new_inode s0 g0 s g ino x0 x :
  inode_created s0 g0 ino x0 s g → rep (cap s) (iupd (inode_at (bl s)) ino x) (bl s) g → inode_wf x → 1 ≤ avail s →
  wp (write_inode ino x) s (λ _ s', inode_created s0 g0 ino x s' g ∧ step 1 s s' ∧
    room (bl s') (cap s') = room (bl s) (cap s) ∧
    ∀ b, DATA_BLOCK_START ≤ b → bl s' b = bl s b).
Proof.
  intros [(Hok & Hbig & R) Hr Hfree Hused Hat Hnb Hgen Hoth Hiu] R' Hwf Ha.
  assert (0 ≤ ino < MAX_INODES) as Hino by lia. destruct (cap_bounds s).
  eapply wp_mono; [by apply write_inode_spec|]. intros _ s' [Hs Hset]. pose proof Hset as [Hin Hsame].
  assert (∀ b, DATA_BLOCK_START ≤ b → bl s' b = bl s b) as Hdata.
  { unfold DATA_BLOCK_START. intros b Hb. apply Hsame; [lia|]. unfold DATA_BLOCK_START. lia. }
  assert (∀ b, 0 ≤ b < INODE_TBL_BLOCK → bl s' b = bl s b) as Hlow by (intros b Hb; apply Hsame; lia).
  assert (∀ j, 0 ≤ j < MAX_INODES → iused (bl s') j = iused (bl s) j) as Hiu'.
  { intros j Hj. apply iused_ext; [done|]. apply Hlow. by unfold INODE_BM_BLOCK, INODE_TBL_BLOCK. }
  split; [|split; [done|split; [|exact Hdata]]].
  - split.
    + split; [by eapply step_ok|]. rewrite (step_nblk _ _ _ Hs), (step_cap _ _ _ Hs). split; [done|].
      eapply rep_commit; [exact Hino|exact R'|exact Hset|apply bl_page].
    + done.
    + done.
    + by rewrite Hiu'.
    + rewrite Hin by done. by rewrite bool_decide_true.
    + by rewrite (step_nblk _ _ _ Hs).
    + destruct Hs as (_ & _ & _ & ->). exact Hgen.
    + intros j Hj Hne. eapply same_node_trans; [by apply Hoth|]. eapply same_node_blocks; [exact R|done| |exact Hdata].
      rewrite Hin by done. by rewrite bool_decide_false.
    + intros j Hj Hne. rewrite Hiu' by done. by apply Hiu.
  - rewrite (step_cap _ _ _ Hs). apply room_ext. intros j Hj. apply used_ext; [lia|].
    intros b Hb. apply Hlow. unfold BLOCK_BM_BLOCK in Hb. lia.
Qed.

(** ** Creating files *)

(** [ino] is a new node called [nm] in [parent]; everything else is as it was. *)
Record created s (g : tree) (parent ino : Z) (nm : list Z) s' (g' : tree) : Prop := {
  cr_rep : fs_rep s' g';
  cr_fresh : 0 < ino < MAX_INODES ∧ iused (bl s) ino = false ∧ iused (bl s') ino = true;
  cr_gen : GENERATION s' = u64 (GENERATION s + 1);
  cr_list : ∃ l1 l2, listing (bl s) parent = l1 ++ l2 ∧ listing (bl s') parent = l1 ++ (ino, nm) :: l2;
  cr_others : ∀ j, 0 ≤ j < MAX_INODES → j ≠ parent → j ≠ ino → same_node (bl s) g (bl s') g' j;
  cr_parent : flags (inode_at (bl s') parent) = F_DIR;
  cr_nblk : nblk s' = nblk s;
  cr_room : room (bl s) (cap s) - 1 ≤ room (bl s') (cap s');
  cr_avail : avail s - 34 ≤ avail s'
}.

(** What creation needs: a directory with space for an entry, a free inode, frames and blocks. *)
Record can_create s (g : tree) (parent : Z) (nm : list Z) (blocks : Z) : Prop := {
  cc_rep : fs_rep s g;
  cc_parent : 0 ≤ parent < MAX_INODES;
  cc_dir : flags (inode_at (bl s) parent) = F_DIR;
  cc_space : has_space (bl s) g parent 0;
  cc_ino : ∃ f, 0 ≤ f < MAX_INODES ∧ iused (bl s) f = false;
  cc_room : blocks ≤ room (bl s) (cap s);
  cc_avail : 34 ≤ avail s;
  cc_name : name_ok nm
}.

Lemma has_space_same v g v' g' d lo :
  same_node v g v' g' d → has_space v g d lo → has_space v' g' d lo.
Proof.
  intros (_ & Hg & Hb) (k & Hk & Hs). exists k. split; [done|]. rewrite Hg.
  destruct (decide (g d (SDir k) = 0)) as [|Hne]; [by left|]. destruct Hs as [?|Hs]; [done|]. right.
  by rewrite Hb.
Qed.

(** The last part of both operations: the entry in the parent. *)
Lemma link_spec s0 g0 s g parent ino nm x blocks :
  can_create s0 g0 parent nm blocks → inode_created s0 g0 ino x s g → ino ≠ parent →
  1 ≤ room (bl s) (cap s) → 23 ≤ avail s →
  wp (add_dir_entry parent nm ino) s (λ _ s', ∃ g', fs_rep s' g' ∧ GENERATION s' = GENERATION s0 ∧
    iused (bl s') ino = true ∧ flags (inode_at (bl s') parent) = F_DIR ∧
    (∃ l1 l2, listing (bl s0) parent = l1 ++ l2 ∧ listing (bl s') parent = l1 ++ (ino, nm) :: l2) ∧
    same_node (bl s) g (bl s') g' ino ∧ nblk s' = nblk s ∧
    room (bl s) (cap s) - 1 ≤ room (bl s') (cap s') ∧ avail s - 22 ≤ avail s' ∧
    ∀ j, 0 ≤ j < MAX_INODES → j ≠ parent → j ≠ ino → same_node (bl s0) g0 (bl s') g' j).
Proof.
  intros [Crep Cp Cd Cs _ _ _ Cn] [Ir Irg If Iu Ia In Ig Io Ii] Hne Hroom Hav.
  assert (0 ≤ ino < MAX_INODES) as Hino by lia.
  pose proof (Io parent Cp ltac:(done)) as Hsame. pose proof Hsame as (Hpi & _).
  eapply wp_mono; [apply (add_dir_entry_spec s g parent nm ino)|].
  - exact Ir.
  - exact Cp.
  - by rewrite Hpi.
  - by eapply has_space_same.
  - exact Hroom.
  - exact Hav.
  - unfold is_u, MAX_INODES in *. lia.
  - lia.
  - exact Cn.
  - intros u s' (g' & l1 & l2 & Hst & Hl & Hl'). exists g'. split; [apply Hst|].
    split; [rewrite (ds_gen _ _ _ _ _ _ _ Hst); exact Ig|].
    split; [rewrite (ds_iused _ _ _ _ _ _ _ Hst) by done; exact Iu|].
    split; [rewrite (ds_flags _ _ _ _ _ _ _ Hst); by rewrite Hpi|].
    split; [exists l1, l2; split; [|done]; rewrite <- Hl; symmetry; by eapply same_node_listing|].
    split; [by eapply ds_others|]. do 3 (split; [apply Hst|]).
    intros j Hj Hjp Hji. eapply same_node_trans; [by apply Io|by eapply ds_others].
Qed.

Lemma live_parent s g parent nm blocks : can_create s g parent nm blocks → iused (bl s) parent = true.
Proof.
  intros [(_ & _ & R) Cp Cd _ _ _ _ _]. eapply rep_live; [exact R|done|]. by rewrite Cd.
Qed.

Lemma can_create_bump s s' g parent nm blocks :
  dev s' = dev s → frames s' = frames s → can_create s g parent nm blocks → can_create s' g parent nm blocks.
Proof.
  intros Hd Hf [Crep Cp Cd Cs Ci Cr Ca Cn]. assert (bl s' = bl s) as E by (unfold bl; by rewrite Hd).
  assert (cap s' = cap s) as Ec by (unfold cap, nblk; by rewrite Hd).
  assert (avail s' = avail s) as Ea by (unfold avail; by rewrite Hf).
  split; rewrite ?E, ?Ec, ?Ea; [by eapply fs_rep_same|exact Cp|exact Cd|exact Cs|exact Ci|exact Cr|exact Ca|exact Cn].
Qed.

Lemma alloc_inode_room s s' :
  step 2 s s' → (∀ b, 0 ≤ b → b ≠ INODE_BM_BLOCK → bl s' b = bl s b) → room (bl s') (cap s') = room (bl s) (cap s).
Proof.
  intros Hs Hsame. rewrite (step_cap _ _ _ Hs). destruct (cap_bounds s). apply room_ext. intros j Hj. apply used_ext; [lia|].
  unfold BLOCK_BM_BLOCK, INODE_TBL_BLOCK. intros b Hb. apply Hsame; [lia|]. unfold INODE_BM_BLOCK. lia.
Qed.

Lemma create_file_spec s g parent nm :
  can_create s g parent nm 1 →
  wp (create_file parent nm) s (λ ino s', ∃ g', created s g parent ino nm s' g' ∧ holds (bl s') g' ino []).
Proof.
  intros C. unfold create_file. wp_step bump_spec. intros u s0 (Hd0 & Hf0 & Hg0).
  pose proof (can_create_bump _ _ _ _ _ _ Hd0 Hf0 C) as C0.
  assert (bl s0 = bl s) as E0 by (unfold bl; by rewrite Hd0).
  pose proof (live_parent _ _ _ _ _ C0) as Hlive. pose proof C0 as [Crep Cp Cd Cs (f & Hf & Hfu) Cr Ca Cn].
  wp_step (alloc_inode_rep s0 g f); [exact Crep|exact Hf|exact Hfu|lia|].
  intros ino s1 (Hs1 & Hc1 & _ & Hfl & Hg & Hsame1). pose proof Hc1 as [Ir Irg If Iu Ia In Ig Io Ii].
  assert (0 ≤ ino < MAX_INODES) as Hino by lia. assert (ino ≠ parent) as Hne by congruence.
  set (x := set_flags F_FILE inode_default).
  assert (inode_wf x) as Hwf by (split; [split; [done|]; apply inode_default_wf|apply inode_default_wf]).
  assert (∀ t, inode_ptr x t = 0) as Hptr.
  { intros [k| | | | |]; try done. cbn [inode_ptr x set_flags inode_default direct].
    destruct (replicate 12 0 !! Z.to_nat k) as [y|] eqn:Ey; [|done]. by apply lookup_replicate in Ey as [-> _]. }
  wp_step (write_new_inode s0 g s1 g ino (inode_at (bl s0) ino) x); [exact Hc1| |exact Hwf|pose proof (step_avail _ _ _ Hs1); lia|].
  { apply rep_plain; [done|apply Ir|exact Iu|exact Hg|exact Hwf|done|exact Hptr]. }
  intros u' s2 (Hc2 & Hs2 & Hroom2 & _).
  pose proof (alloc_inode_room _ _ Hs1 Hsame1) as Hroom1.
  wp_step link_spec; [exact C0|exact Hc2|exact Hne|lia|
    pose proof (step_avail _ _ _ Hs1); pose proof (step_avail _ _ _ Hs2); lia|].
  intros u3 s3 (g' & Hrep & Hgen & Hu & Hpd & Hlist & Hself & Hn3 & Hr3 & Ha3 & Hoth). apply wp_ret. exists g'.
  assert (cap s0 = cap s) as Ec0 by (unfold cap, nblk; by rewrite Hd0).
  assert (avail s0 = avail s) as Ea0 by (unfold avail; by rewrite Hf0).
  rewrite E0 in Cr, Hroom1, Hlist, Hoth, If. split.
  - split; [exact Hrep|split; [lia|split; [exact If|exact Hu]]|congruence|exact Hlist|exact Hoth|exact Hpd| | |].
    + rewrite Hn3, (step_nblk _ _ _ Hs2), (step_nblk _ _ _ Hs1). unfold nblk. by rewrite Hd0.
    + rewrite Ec0 in Hroom1. lia.
    + pose proof (step_avail _ _ _ Hs1). pose proof (step_avail _ _ _ Hs2). lia.
  - eapply same_node_holds; [exact Hself|]. unfold holds. rewrite (ic_at _ _ _ _ _ _ Hc2).
    split; [done|]. split; [done|]. intros n Hn Hlt. unfold len, BLOCK_SIZE in Hlt. simpl in Hlt. lia.
Qed.

(** ** Renaming *)

Lemma rename_spec s g d old_name new_name :
  fs_rep s g → 0 ≤ d < MAX_INODES → 41 ≤ avail s →
  Forall is_byte new_name → utf8_valid new_name = true →
  wp (rename d old_name new_name) s (λ r s', GENERATION s' = u64 (GENERATION s + 1) ∧ fs_rep s' g ∧
    (∀ j, 0 ≤ j < MAX_INODES → j ≠ d → same_node (bl s) g (bl s') g j) ∧
    inode_at (bl s') d = inode_at (bl s) d ∧
    if (r : bool) then
      assoc (listing (bl s) d) new_name = None ∧ len new_name ≤ 27 ∧
      ∃ l1 l2 ino, listing (bl s) d = l1 ++ (ino, old_name) :: l2 ∧ assoc l1 old_name = None ∧
        listing (bl s') d = l1 ++ (ino, new_name) :: l2
    else bl s' = bl s ∧
      (is_Some (assoc (listing (bl s) d) new_name) ∨ 27 < len new_name ∨
       assoc (listing (bl s) d) old_name = None)).
Proof.
  intros Hr Hd Ha Hbytes Hutf. unfold rename. wp_step bump_spec. intros u s0 (Hd0 & Hf0 & Hg0).
  assert (bl s0 = bl s) as E0 by (unfold bl; by rewrite Hd0).
  assert (avail s0 = avail s) as Ea0 by (unfold avail; by rewrite Hf0).
  pose proof (fs_rep_same s s0 g Hd0 Hf0 Hr) as Hr0. rewrite <- E0, <- Hg0. clear Hg0.
  wp_step (find_in_dir_spec s0 g d new_name); [exact Hr0|exact Hd|lia|]. intros r s1 (-> & Hd1 & Hs1).
  assert (bl s1 = bl s0) as E1 by (unfold bl; by rewrite Hd1).
  pose proof (dstep_read d 13 s0 g s1 Hr0 Hs1 Hd1) as Hst1.
  assert (∀ s', dstep d 0 41 s0 g s' g → bl s' = bl s0 →
    (is_Some (assoc (listing (bl s0) d) new_name) ∨ 27 < len new_name ∨ assoc (listing (bl s0) d) old_name = None) →
    GENERATION s' = GENERATION s0 ∧ fs_rep s' g ∧
    (∀ j, 0 ≤ j < MAX_INODES → j ≠ d → same_node (bl s0) g (bl s') g j) ∧
    inode_at (bl s') d = inode_at (bl s0) d ∧ bl s' = bl s0 ∧
    (is_Some (assoc (listing (bl s0) d) new_name) ∨ 27 < len new_name ∨ assoc (listing (bl s0) d) old_name = None)) as Hfail.
  { intros s' Hst E Hwhy. split; [apply Hst|]. split; [apply Hst|]. split; [apply Hst|]. by rewrite E. }
  pose proof (dstep_trans d 0 13 0 0 0 41 _ _ _ _ _ _ Hst1 (dstep_refl d 0 0 s1 g (ds_rep _ _ _ _ _ _ _ Hst1) ltac:(lia) ltac:(lia)) ltac:(lia) ltac:(lia)) as Hst1'.
  destruct (assoc (listing (bl s0) d) new_name) as [i|] eqn:Etaken.
  { apply wp_ret. apply Hfail; [exact Hst1'|exact E1|left; eauto]. }
  destruct (Z.ltb_spec 27 (len new_name)) as [Hlong|Hlen].
  { apply wp_ret. apply Hfail; [exact Hst1'|exact E1|by right; left]. }
  pose proof (ds_rep _ _ _ _ _ _ _ Hst1) as Hr1. pose proof Hr1 as (Hok1 & Hbig1 & R1).
  pose proof (step_avail _ _ _ Hs1) as Ha1. pose proof (dir_blocks_length s1 g d Hr1 Hd) as Hl12.
  wp_step read_inode_spec; [exact Hok1|exact Hd|exact Hbig1|lia|]. intros i s2 (-> & Hd2 & Hs2).
  assert (bl s2 = bl s1) as E2 by (unfold bl; by rewrite Hd2).
  pose proof (dstep_read d 1 s1 g s2 Hr1 Hs2 Hd2) as Hst2. pose proof (step_avail _ _ _ Hs2) as Ha2.
  wp_step (search_blocks_spec s2 (names old_name)); [by eapply step_ok| |unfold len; lia|].
  { intros b Hb. rewrite (step_nblk _ _ _ Hs2). pose proof (dir_block_range s1 g d b Hr1 Hd Hb) as Hrng.
    unfold DATA_BLOCK_START in Hrng. lia. }
  intros r s3 (Hd3 & Hs3 & Hpost). pose proof (ds_rep _ _ _ _ _ _ _ Hst2) as Hr2.
  assert (step 12 s2 s3) as Hs3' by (eapply step_trans; [exact Hs3|apply step_refl, (step_ok _ _ _ Hs3)|unfold len; lia]).
  pose proof (dstep_read d 12 s2 g s3 Hr2 Hs3' Hd3) as Hst3.
  assert (bl s3 = bl s0) as E3 by (unfold bl in *; rewrite Hd3; congruence).
  assert (dstep d 0 26 s0 g s3 g) as Hst03.
  { eapply dstep_trans; [exact Hst1|eapply dstep_trans; [exact Hst2|exact Hst3|reflexivity|reflexivity]|lia|lia]. }
  rewrite E2, E1 in Hpost. destruct r as [[[[blk k] e] buf]|]; cycle 1.
  { apply wp_ret. apply Hfail; [|exact E3|right; right; by apply assoc_none_names].
    eapply dstep_trans; [exact Hst03|apply (dstep_refl d 0 0); [apply Hst03|lia|lia]|lia|lia]. }
  destruct Hpost as (pre & post & Hblks & -> & Hk & -> & Hp & Hpre & Hlow). apply names_live in Hp as [Hi Hnm].
  assert (entry_wf (new_entry (inode (get_entry (bl s0 blk) k)) new_name)) as Hewf.
  { apply new_entry_wf; [|done|done]. unfold get_entry. cbn [inode]. apply peek_u32_range. apply bl_page. }
  rewrite <- E3. rewrite <- E3 in Hblks.
  wp_step (dstep_entry s3 g d pre blk post k); [apply Hst03|exact Hd|exact Hblks|exact Hk|by rewrite E3|].
  intros u4 s4 (Hst4 & Hi4 & l2 & Hl & Hl'). apply wp_ret. rewrite E3 in *.
  pose proof (dstep_trans d 0 26 0 0 0 26 _ _ _ _ _ _ Hst03 Hst4 ltac:(lia) ltac:(lia)) as Hst.
  split; [apply Hst|]. split; [apply Hst|]. split; [apply Hst|]. split; [exact Hi4|]. split; [done|]. split; [done|].
  set (a := lents (bl s0) pre ++ filter (λ e, inode e ≠ 0) (take (Z.to_nat k) (entries (bl s0 blk)))) in *.
  exists (item <$> a), (item <$> l2), (inode (get_entry (bl s0 blk) k)). unfold listing. rewrite Hi4, Hl, Hl'.
  rewrite !filter_cons, !decide_True by done. rewrite filter_nil. cbn [app]. rewrite !fmap_app, !fmap_cons.
  assert (item (get_entry (bl s0 blk) k) = (inode (get_entry (bl s0 blk) k), old_name)) as -> by (unfold item; by rewrite Hnm).
  assert (item (new_entry (inode (get_entry (bl s0 blk) k)) new_name) = (inode (get_entry (bl s0 blk) k), new_name)) as ->
    by (unfold item; by rewrite name_str_new).
  split; [reflexivity|]. split; [|reflexivity].
  unfold a. rewrite fmap_app, assoc_app_none by by apply assoc_none_names.
  unfold assoc. destruct (List.find _ _) as [x|] eqn:Ef; [|done]. exfalso.
  apply List.find_some in Ef as [Hin Hx]. apply list_elem_of_In, list_elem_of_fmap in Hin as (e & -> & He).
  apply list_elem_of_filter in He as [Hie He]. specialize (Hlow e He). unfold names in Hlow. simpl in Hx.
  destruct (Z.eqb_spec (inode e) 0); [done|]. simpl in Hlow. congruence.
Qed.

(** ** Formatting *)

Lemma for_each_spec {T} (I : Z → T → Prop) n i (body : Z → ST T unit) (st : T) :
  I i st → (∀ j (x : T), i ≤ j < i + Z.of_nat n → I j x → wp (body j) x (λ _ x', I (j + 1) x')) →
  wp (for_each n i body) st (λ _ x', I (i + Z.of_nat n) x').
Proof.
  revert i st. induction n as [|n IH]; intros i st Hi Hb; cbn [for_each].
  - apply wp_ret. by rewrite Z.add_0_r.
  - wp_step Hb; [lia|done|]. intros u s1 Hi1. eapply wp_mono; [apply (IH (i + 1)); [done|]|].
    + intros j s2 Hj. apply Hb. lia.
    + intros u2 s2 H2. by replace (i + Z.of_nat (S n)) with (i + 1 + Z.of_nat n) by lia.
Qed.

Lemma page_poke_le p off n z :
  is_page p → 0 ≤ off → off + Z.of_nat n ≤ BLOCK_SIZE → is_page (poke off (le_bytes n z) p).
Proof. intros. apply page_poke; [done|apply le_bytes_byte|done|]. unfold len. rewrite length_le_bytes. lia. Qed.

Lemma superblock_page t : is_page (superblock t) ∧ peek_u64 0 (superblock t) = MAGIC.
Proof.
  unfold superblock.
  assert (is_page (poke 8 (le_bytes 4 BLOCK_SIZE) (poke 16 (le_bytes 8 t)
    (poke 24 (le_bytes 8 (u64 (t - DATA_BLOCK_START))) (poke 32 (le_bytes 4 MAX_INODES)
      (poke 36 (le_bytes 4 (MAX_INODES - 1)) zero_page)))))) as Hp.
  { repeat (apply page_poke_le; [|lia|unfold BLOCK_SIZE; lia]). apply zero_page_page. }
  split; [by apply page_poke_le|]. destruct Hp as [Hl _].
  unfold peek_u64, peek, poke at 1. rewrite <- (length_le_bytes 8 MAGIC) at 1.
  rewrite sub_splice_eq by (rewrite length_le_bytes, Hl; unfold BLOCK_SIZE; lia). done.
Qed.

Lemma bmbit_zero v start i : v (start + i / (BLOCK_SIZE * 8)) = zero_page → bmbit v start i = false.
Proof.
  intros E. unfold bmbit. rewrite E. unfold zero_page.
  destruct (replicate _ 0 !! _) as [x|] eqn:Ex; simpl; [apply lookup_replicate in Ex as [-> _]|]; apply Z.bits_0.
Qed.

Lemma inode_at_zero v j : 0 ≤ j → v (inode_block j) = zero_page → inode_at v j = inode_default.
Proof.
  intros Hj E. unfold inode_at. rewrite E. pose proof (inode_off_range j Hj).
  assert (peek (inode_off j) 128 zero_page = replicate 128 0) as ->; [|vm_compute; reflexivity].
  unfold peek, sub, zero_page. rewrite drop_replicate, take_replicate. f_equal. lia.
Qed.

(** The inode of a directory whose only block is [b]. *)
Definition dir_inode (b : Z) : Inode := set_direct 0 b (set_nblocks 1 (set_flags F_DIR inode_default)).
Definition root_tree (b : Z) : tree := λ i t, if decide (i = ROOT_INO ∧ t = SDir 0) then b else 0.

Lemma dir_inode_wf b : is_u 32 b → inode_wf (dir_inode b).
Proof.
  intros Hb. destruct inode_default_wf as (_ & [H2 H3] & H4).
  split; [|split; [split; [done|by apply Forall_insert]|exact H4]].
  split; [done|]. split; [done|]. split; [done|]. by split.
Qed.

Lemma inode_ptr_default t : inode_ptr inode_default t = 0.
Proof.
  destruct t as [k| | | | |]; try done. cbn [inode_ptr inode_default direct].
  destruct (replicate 12 0 !! Z.to_nat k) as [y|] eqn:Ey; [|done]. by apply lookup_replicate in Ey as [-> _].
Qed.

Lemma inode_ptr_dir b t : slot_ok t → inode_ptr (dir_inode b) t = if decide (t = SDir 0) then b else 0.
Proof.
  intros Hok. destruct t as [k| | | | |]; try done. cbn [inode_ptr]. simpl in Hok. unfold DIRECT_PTRS in Hok.
  cbn [dir_inode set_direct set_nblocks set_flags direct]. case_decide as E; [by injection E as ->|].
  rewrite list_lookup_insert_ne; [apply (inode_ptr_default (SDir k))|].
  intros Ek. apply E. f_equal. lia.
Qed.

(** ** Creating directories *)

(** [ino] is a new, empty directory called [nm] in [parent]; everything else is as it was. *)
Record dir_created s (g : tree) (parent ino : Z) (nm : list Z) s' (g' : tree) : Prop := {
  dc_rep : fs_rep s' g';
  dc_fresh : 0 < ino < MAX_INODES ∧ iused (bl s) ino = false ∧ iused (bl s') ino = true;
  dc_gen : GENERATION s' = u64 (GENERATION s + 1);
  dc_list : ∃ l1 l2, listing (bl s) parent = l1 ++ l2 ∧ listing (bl s') parent = l1 ++ (ino, nm) :: l2;
  dc_empty : flags (inode_at (bl s') ino) = F_DIR ∧ listing (bl s') ino = [];
  dc_others : ∀ j, 0 ≤ j < MAX_INODES → j ≠ parent → j ≠ ino → same_node (bl s) g (bl s') g' j;
  dc_parent : flags (inode_at (bl s') parent) = F_DIR
}.

(** A new inode with one new, zeroed block: [alloc_block] and [write_inode] after [alloc_inode]. *)
Lemma new_dir_inode s0 s1 g ino x0 :
  inode_created s0 g ino x0 s1 g → (∀ t, g ino t = 0) → 1 ≤ room (bl s1) (cap s1) → 8 ≤ avail s1 →
  wp (blk ← alloc_block; write_inode ino (dir_inode blk)) s1 (λ _ s', ∃ b,
    inode_created s0 g ino (dir_inode b) s' (gset g ino (SDir 0) b) ∧ listing (bl s') ino = [] ∧ step 7 s1 s' ∧
    room (bl s1) (cap s1) - 1 ≤ room (bl s') (cap s')).
Proof.
  intros [(Hok & Hbig & R) Hr Hfree Hused Hat Hnb Hgen Hoth Hiu] Hg Hroom Hav.
  assert (0 ≤ ino < MAX_INODES) as Hino by lia. destruct (cap_bounds s1) as [Hc1 Hc2].
  wp_step alloc_block_spec; [done|done|done|lia|]. intros b s2 (Hs2 & Hf & _ & Ha).
  pose proof (fresh_u32 _ _ _ Hf Hc2) as Hu32. destruct (allocated_inodes _ _ _ _ Hf Ha) as [Hino2 Hiu2].
  set (x1 := set_flags F_DIR inode_default).
  assert (inode_wf x1) as Hwf1 by (split; [split; [done|]; apply inode_default_wf|apply inode_default_wf]).
  assert (∀ t, inode_ptr x1 t = 0) as Hptr1 by (intros t; by destruct t; try done; apply (inode_ptr_default (SDir _))).
  pose proof (rep_plain _ _ g ino x1 Hino R Hused Hg Hwf1 eq_refl Hptr1) as R1.
  assert (rep (cap s1) (iupd (inode_at (bl s2)) ino (dir_inode b)) (bl s2) (gset g ino (SDir 0) b)) as R2.
  { assert (rep (cap s1) (iupd (iupd (inode_at (bl s1)) ino x1) ino (dir_inode b)) (bl s2) (gset g ino (SDir 0) b)) as R2.
    { apply (rep_alloc_top _ _ (bl s1)); [exact R1|exact Hino|by split|done|apply Hg|exact Hf|exact Ha|apply bl_page|exact Hused|by apply dir_inode_wf
      |by rewrite iupd_eq|by rewrite iupd_eq|]. intros t' _ Ht'. rewrite iupd_eq, Hptr1. by apply inode_ptr_dir. }
    eapply rep_im; [|exact R2]. intros i Hi. unfold iupd. case_decide; [done|]. by apply Hino2. }
  pose proof (step_avail _ _ _ Hs2) as Ha2.
  eapply wp_mono; [apply (write_inode_spec s2 ino (dir_inode b)); [by eapply step_ok|done|by rewrite (step_nblk _ _ _ Hs2)|lia|by apply dir_inode_wf]|].
  intros _ s3 [Hs3 Hset]. pose proof Hset as [Hin Hsame]. exists b.
  assert (step 7 s1 s3) as Hs by (eapply step_trans; [exact Hs2|exact Hs3|lia]).
  assert (∀ b', DATA_BLOCK_START ≤ b' → bl s3 b' = bl s2 b') as Hdata.
  { unfold DATA_BLOCK_START. intros b' Hb'. apply Hsame; [lia|]. unfold DATA_BLOCK_START. lia. }
  assert (∀ b', 0 ≤ b' < INODE_TBL_BLOCK → bl s3 b' = bl s2 b') as Hlow by (intros b' Hb'; apply Hsame; lia).
  assert (∀ j, 0 ≤ j < MAX_INODES → iused (bl s3) j = iused (bl s1) j) as Hiu3.
  { intros j Hj. rewrite <- Hiu2 by done. apply iused_ext; [done|]. apply Hlow. by unfold INODE_BM_BLOCK, INODE_TBL_BLOCK. }
  assert (inode_at (bl s3) ino = dir_inode b) as Hx by (rewrite Hin by done; by rewrite bool_decide_true).
  assert (DATA_BLOCK_START ≤ b ∧ b ≠ 0) as [Hb38 Hb0] by (destruct Hf as [Hbr _]; unfold DATA_BLOCK_START in *; lia).
  split; [split|split; [|split; [exact Hs|]]].
  - split; [by eapply step_ok|]. rewrite (step_nblk _ _ _ Hs), (step_cap _ _ _ Hs). split; [done|].
    eapply rep_commit; [exact Hino|exact R2|exact Hset|apply bl_page].
  - done.
  - done.
  - by rewrite Hiu3.
  - exact Hx.
  - by rewrite (step_nblk _ _ _ Hs).
  - destruct Hs as (_ & _ & _ & ->). exact Hgen.
  - intros j Hj Hne. eapply same_node_trans; [by apply Hoth|]. split; [rewrite Hin by done; rewrite bool_decide_false by done; by apply Hino2|].
    split; [intros t; by apply gset_ne; left|]. intros t Ht.
    rewrite Hdata by apply (owned_range _ _ _ _ _ _ R Ht). by eapply allocated_owned.
  - intros j Hj Hne. rewrite Hiu3 by done. by apply Hiu.
  - unfold listing. rewrite Hx. unfold dir_blocks, dir_inode. cbn [set_direct set_nblocks set_flags inode_default direct].
    change (<[0%nat := b]> (replicate 12 0)) with (b :: replicate 11 0). rewrite filter_cons, decide_True by done.
    change (filter (λ b, b ≠ 0) (replicate 11 0)) with (@nil Z). rewrite lents_cons, Hdata by done. destruct Ha as (-> & _). by rewrite live_zero.
  - rewrite (step_cap _ _ _ Hs), (room_ext (bl s2) (bl s3)).
    + apply room_use with (b := b). intros j Hj. apply Ha. lia.
    + intros j Hj. apply used_ext; [lia|]. intros b' Hb'. apply Hlow. unfold BLOCK_BM_BLOCK in Hb'. lia.
Qed.

Lemma create_dir_spec s g parent nm :
  can_create s g parent nm 2 → wp (create_dir parent nm) s (λ ino s', ∃ g', dir_created s g parent ino nm s' g').
Proof.
  intros C. unfold create_dir. wp_step bump_spec. intros u s0 (Hd0 & Hf0 & Hg0).
  pose proof (can_create_bump _ _ _ _ _ _ Hd0 Hf0 C) as C0. assert (bl s0 = bl s) as E0 by (unfold bl; by rewrite Hd0).
  pose proof (live_parent _ _ _ _ _ C0) as Hlive. pose proof C0 as [Crep Cp Cd Cs (f & Hf & Hfu) Cr Ca Cn].
  wp_step (alloc_inode_rep s0 g f); [exact Crep|exact Hf|exact Hfu|lia|].
  intros ino s1 (Hs1 & Hc1 & _ & _ & Hg & Hsame1). pose proof (alloc_inode_room _ _ Hs1 Hsame1) as Hroom1.
  pose proof (step_avail _ _ _ Hs1) as Ha1. pose proof Hc1 as [_ Irg If _ _ _ _ _ _].
  assert (ino ≠ parent) as Hne by congruence.
  pose proof (new_dir_inode s0 s1 g ino _ Hc1 Hg ltac:(lia) ltac:(lia)) as Hnew.
  apply wp_inv in Hnew as (u2 & s2 & E2 & b & Hc2 & Hl2 & Hs2 & Hr2). apply bind_ok_inv in E2 as (blk & s1' & Eb & Ew).
  apply wp_bind. eapply wp_ok; [exact Eb|]. apply wp_bind. eapply wp_ok; [exact Ew|]. pose proof (step_avail _ _ _ Hs2) as Ha2.
  wp_step link_spec; [exact C0|exact Hc2|exact Hne|lia|lia|].
  intros u3 s3 (g' & Hrep & Hgen & Hu & Hpd & Hlist & Hself & _ & _ & _ & Hoth). apply wp_ret. exists g'.
  rewrite E0 in Hlist, Hoth, If. split.
  - exact Hrep.
  - split; [lia|]. by split.
  - congruence.
  - exact Hlist.
  - pose proof Hself as (-> & _). rewrite (ic_at _ _ _ _ _ _ Hc2). split; [done|].
    rewrite (same_node_listing s2 (gset g ino (SDir 0) b) s3 g' ino); [exact Hl2|apply Hc2|lia|exact Hself].
  - exact Hoth.
  - exact Hpd.
Qed.

(** A freshly formatted disk. *)
Record formatted (c : Z) (v : view) (t : Z) : Prop := {
  fm_sb : v SB_BLOCK = superblock t;
  fm_used : ∀ j, 0 ≤ j < BM_BITS → used v j = bool_decide (j ≤ DATA_BLOCK_START);
  fm_iused : ∀ j, 0 ≤ j < MAX_INODES → iused v j = bool_decide (j = ROOT_INO);
  fm_root : inode_at v ROOT_INO = dir_inode DATA_BLOCK_START;
  fm_inodes : ∀ j, 0 < j < MAX_INODES → inode_at v j = inode_default;
  fm_data : v DATA_BLOCK_START = zero_page
}.

Lemma formatted_rep c v t :
  formatted c v t → DATA_BLOCK_START < c ≤ BM_BITS → (∀ b, is_page (v b)) →
  rep c (inode_at v) v (root_tree DATA_BLOCK_START).
Proof.
  intros [Fs Fu Fi Fr Fn Fd] Hc Hpg. unfold ROOT_INO in *.
  assert (∀ i, 0 ≤ i < MAX_INODES → i = 0 ∨ inode_at v i = inode_default) as Hi.
  { intros i Hi. destruct (decide (i = 0)); [by left|right]. apply Fn. lia. }
  assert (∀ i t, root_tree DATA_BLOCK_START i t ≠ 0 → i = 0 ∧ t = SDir 0) as Hroot.
  { intros i t0. unfold root_tree. by case_decide. }
  split; try done.
  - intros i t0 Hir Hok. unfold ptr. destruct (parent t0) as [p|] eqn:Ep.
    + assert (root_tree DATA_BLOCK_START i p = 0) as ->.
      { unfold root_tree. rewrite decide_False; [done|]. intros [_ ->]. by destruct t0. }
      unfold root_tree. rewrite decide_False; [done|]. intros [_ ->]. done.
    + unfold root_tree, ROOT_INO. destruct (Hi i Hir) as [->|Hz].
      * rewrite Fr, inode_ptr_dir by done. repeat case_decide; tauto.
      * rewrite Hz, inode_ptr_default. case_decide as E; [|done]. destruct E as [-> ->].
        rewrite Fr in Hz. discriminate Hz.
  - intros i t0 Hn. unfold root_tree. rewrite decide_False; [done|]. intros [-> ->]. apply Hn. done.
  - intros i t0 Hne. destruct (Hroot i t0 Hne) as [-> ->]. unfold root_tree. rewrite decide_True by done.
    split; [lia|]. rewrite Fu by (unfold DATA_BLOCK_START in *; lia). by apply bool_decide_true.
  - intros i t0 i' t1 Hne E. destruct (Hroot i t0 Hne) as [-> ->].
    destruct (Hroot i' t1) as [-> ->]; [congruence|done].
  - intros i Hir Hu. rewrite Fi in Hu by done. apply bool_decide_eq_false in Hu.
    rewrite Fn by lia. split; [done|]. intros t0. unfold root_tree. rewrite decide_False; [done|]. by intros [-> _].
  - rewrite Fi by done. by apply bool_decide_true.
  - intros i n Hir Hf. destruct (Hi i Hir) as [->|Hz]; [by rewrite Fr in Hf|by rewrite Hz in Hf].
  - intros i Hir. destruct (Hi i Hir) as [->| ->]; [rewrite Fr; by apply dir_inode_wf|apply inode_default_wf].
  - apply Hc.
Qed.

(** Zeroing blocks [from .. from + n). *)
Lemma zero_blocks_spec s n from :
  ok s → 0 ≤ from → from + Z.of_nat n ≤ nblk s →
  wp (for_each n 0 (λ i, write_block (from + i) zero_page)) s (λ _ s', step 0 s s' ∧
    ∀ b, 0 ≤ b → bl s' b = if bool_decide (from ≤ b < from + Z.of_nat n) then zero_page else bl s b).
Proof.
  intros Hok Hf Hn. set (I := λ i s', step 0 s s' ∧
    ∀ b, 0 ≤ b → bl s' b = if bool_decide (from ≤ b < from + i) then zero_page else bl s b).
  change (wp (for_each n 0 (λ i, write_block (from + i) zero_page)) s (λ _ s', I (0 + Z.of_nat n) s')).
  apply for_each_spec.
  - split; [by apply step_refl|]. intros b Hb. by rewrite bool_decide_false by lia.
  - intros j s1 Hj [Hs Hv]. eapply wp_mono; [apply write_block_spec;
      [by eapply step_ok|rewrite (step_nblk _ _ _ Hs); lia|apply zero_page_page]|].
    intros _ s2 [Hs2 Hv2]. split; [by eapply step_trans; [exact Hs|exact Hs2|]|].
    intros b Hb. rewrite Hv2 by done. unfold upd. case_decide as E.
    + by rewrite bool_decide_true by lia.
    + rewrite Hv by done. by rewrite (bool_decide_ext (from ≤ b < from + j) (from ≤ b < from + (j + 1))) by lia.
Qed.

(** Setting the bits [0 .. n) of the block bitmap. *)
Lemma mark_blocks_spec s n :
  ok s → BLOCK_BM_BLOCK + BLOCK_BM_LEN ≤ nblk s → Z.of_nat n ≤ BM_BITS → Z.of_nat n ≤ avail s →
  wp (for_each n 0 (λ b, bitmap_set BLOCK_BM_BLOCK b true)) s (λ _ s', step (Z.of_nat n) s s' ∧
    (∀ j, 0 ≤ j < BM_BITS → used (bl s') j = bool_decide (j < Z.of_nat n) || used (bl s) j) ∧
    ∀ b, 0 ≤ b → ¬ (BLOCK_BM_BLOCK ≤ b < INODE_TBL_BLOCK) → bl s' b = bl s b).
Proof.
  intros Hok Hn Hm Ha. set (I := λ i s', step i s s' ∧
    (∀ j, 0 ≤ j < BM_BITS → used (bl s') j = bool_decide (j < i) || used (bl s) j) ∧
    ∀ b, 0 ≤ b → ¬ (BLOCK_BM_BLOCK ≤ b < INODE_TBL_BLOCK) → bl s' b = bl s b).
  change (wp (for_each n 0 (λ b, bitmap_set BLOCK_BM_BLOCK b true)) s (λ _ s', I (0 + Z.of_nat n) s')).
  apply for_each_spec.
  - split; [by apply step_refl|]. split; [|done]. intros j Hj. by rewrite bool_decide_false by lia.
  - intros j s1 Hj (Hs & Hu & Hv). assert (0 ≤ j < BM_BITS) as Hjb by lia. pose proof (bm_block j Hjb) as Hblk.
    eapply wp_mono; [apply bitmap_set_spec; [by eapply step_ok|done|lia| |]|].
    + rewrite (step_nblk _ _ _ Hs). unfold BLOCK_BM_BLOCK, BLOCK_BM_LEN, INODE_TBL_BLOCK in *. lia.
    + pose proof (step_avail _ _ _ Hs). lia.
    + intros _ s2 (Hs2 & Hbit & Hoth). split; [eapply step_trans; [exact Hs|exact Hs2|lia]|]. split.
      * intros i Hi. unfold used in *. rewrite Hbit by lia. case_bool_decide as E.
        -- subst i. by rewrite bool_decide_true by lia.
        -- rewrite Hu by done. f_equal. apply bool_decide_ext. lia.
      * intros b Hb Hne. rewrite Hoth; [by apply Hv|done|]. intros ->. by apply Hne.
Qed.

Lemma root_range : 0 ≤ ROOT_INO < MAX_INODES.
Proof. done. Qed.

(** What the first half of [format] leaves on disk. *)
Record blank_fs (v : view) (t : Z) : Prop := {
  bf_sb : v SB_BLOCK = superblock t;
  bf_used : ∀ j, 0 ≤ j < BM_BITS → used v j = bool_decide (j < DATA_BLOCK_START);
  bf_iused : ∀ j, 0 ≤ j < MAX_INODES → iused v j = bool_decide (j = ROOT_INO);
  bf_inodes : ∀ b, INODE_TBL_BLOCK ≤ b < DATA_BLOCK_START → v b = zero_page
}.

Lemma format_meta_spec s :
  ok s → DATA_BLOCK_START < cap s → 60 ≤ avail s →
  wp format_meta s (λ p s', p = zero_page ∧ step 41 s s' ∧ ∃ t, blank_fs (bl s') t).
Proof.
  intros Hok Hcap Hav. destruct (cap_bounds s) as [Hc1 Hc2]. unfold DATA_BLOCK_START in Hcap.
  unfold format_meta. apply wp_bind. unfold wp at 1, gets.
  set (t := u64 (dr_lba_count (dev s) * dr_lba_size (dev s)) / BLOCK_SIZE).
  wp_step page_alloc_spec; [done|lia|]. intros p0 s1 (_ & Hd1 & Hs1).
  wp_step write_block_spec; [by eapply step_ok|rewrite (step_nblk _ _ _ Hs1); unfold SB_BLOCK; lia|apply superblock_page|].
  intros u2 s2 [Hs2 Hv2].
  assert (step 1 s s2) as Hs02 by (eapply step_trans; [exact Hs1|exact Hs2|lia]).
  wp_step page_alloc_spec; [by eapply step_ok|pose proof (step_avail _ _ _ Hs02); lia|].
  intros p3 s3 (-> & Hd3 & Hs3).
  assert (step 2 s s3) as Hs03 by (eapply step_trans; [exact Hs02|exact Hs3|lia]).
  assert (bl s3 = bl s2) as E3 by (unfold bl; by rewrite Hd3).
  wp_step (zero_blocks_spec s3 (Z.to_nat (BLOCK_BM_LEN + 1)) INODE_BM_BLOCK);
    [by eapply step_ok|done|rewrite (step_nblk _ _ _ Hs03); unfold BLOCK_BM_LEN, INODE_BM_BLOCK; lia|].
  intros u4 s4 [Hs4 Hv4].
  assert (step 2 s s4) as Hs04 by (eapply step_trans; [exact Hs03|exact Hs4|lia]).
  wp_step (mark_blocks_spec s4 (Z.to_nat DATA_BLOCK_START));
    [by eapply step_ok|rewrite (step_nblk _ _ _ Hs04); unfold BLOCK_BM_LEN, BLOCK_BM_BLOCK; lia|done|
     pose proof (step_avail _ _ _ Hs04); unfold DATA_BLOCK_START; lia|].
  intros u5 s5 (Hs5 & Hu5 & Hv5).
  assert (step 40 s s5) as Hs05 by (eapply step_trans; [exact Hs04|exact Hs5|unfold DATA_BLOCK_START; lia]).
  wp_step (bitmap_set_spec s5 INODE_BM_BLOCK 0 true);
    [by eapply step_ok|done|done|rewrite (step_nblk _ _ _ Hs05); change (0 / (BLOCK_SIZE * 8)) with 0; unfold INODE_BM_BLOCK; lia|
     pose proof (step_avail _ _ _ Hs05); lia|].
  intros u6 s6 (Hs6 & Hbit6 & Hv6). change (0 / (BLOCK_SIZE * 8)) with 0 in Hv6. rewrite Z.add_0_r in Hv6.
  assert (step 41 s s6) as Hs06 by (eapply step_trans; [exact Hs05|exact Hs6|lia]).
  wp_step (zero_blocks_spec s6 (Z.to_nat INODE_TBL_LEN) INODE_TBL_BLOCK);
    [by eapply step_ok|done|rewrite (step_nblk _ _ _ Hs06); unfold INODE_TBL_LEN, INODE_TBL_BLOCK; lia|].
  intros u7 s7 [Hs7 Hv7]. apply wp_ret. split; [done|].
  split; [eapply step_trans; [exact Hs06|exact Hs7|lia]|]. exists t.
  change (Z.of_nat (Z.to_nat INODE_TBL_LEN)) with INODE_TBL_LEN in Hv7.
  change (Z.of_nat (Z.to_nat (BLOCK_BM_LEN + 1))) with (BLOCK_BM_LEN + 1) in Hv4.
  change (Z.of_nat (Z.to_nat DATA_BLOCK_START)) with DATA_BLOCK_START in Hu5.
  unfold INODE_TBL_LEN, INODE_TBL_BLOCK, BLOCK_BM_LEN, INODE_BM_BLOCK, BLOCK_BM_BLOCK in *.
  assert (∀ b, 0 ≤ b < 6 → b ≠ 1 → bl s7 b = bl s5 b) as H75.
  { intros b Hb Hne. rewrite Hv7 by lia. rewrite bool_decide_false by lia. apply Hv6; [lia|done]. }
  split.
  - unfold SB_BLOCK. rewrite H75 by lia. rewrite Hv5 by lia. rewrite Hv4 by lia. rewrite bool_decide_false by lia.
    rewrite E3, Hv2 by lia. apply upd_eq.
  - intros j Hj. rewrite (used_ext (bl s5)); [|done|].
    + rewrite Hu5 by done. unfold used. rewrite bmbit_zero; [by rewrite orb_false_r|].
      pose proof (bm_block j Hj) as Hb. unfold BLOCK_BM_BLOCK, INODE_TBL_BLOCK in *.
      rewrite Hv4 by lia. by rewrite bool_decide_true by lia.
    + unfold BLOCK_BM_BLOCK, INODE_TBL_BLOCK. intros b Hb. apply H75; lia.
  - intros j Hj. rewrite (iused_ext (bl s6)); [|done|].
    + unfold iused. unfold INODE_BM_BLOCK. rewrite Hbit6 by lia. unfold ROOT_INO. case_bool_decide; [done|].
      apply bmbit_zero. replace (1 + j / (BLOCK_SIZE * 8)) with 1 by (unfold MAX_INODES, BLOCK_SIZE in *; dlia).
      rewrite Hv5 by lia. rewrite Hv4 by lia. by rewrite bool_decide_true by lia.
    + unfold INODE_BM_BLOCK. rewrite Hv7 by lia. by rewrite bool_decide_false by lia.
  - unfold INODE_TBL_BLOCK, DATA_BLOCK_START. intros b Hb. rewrite Hv7 by lia. by rewrite bool_decide_true by lia.
Qed.

Lemma blank_room v t c : blank_fs v t → DATA_BLOCK_START < c ≤ BM_BITS → 1 ≤ room v c.
Proof.
  intros [_ Hu _ _] Hc. unfold room. destruct (filter _ _) as [|b l] eqn:Ef; [exfalso|unfold len; simpl; lia].
  assert (DATA_BLOCK_START ∈ filter (λ b, used v b = false) (seqZ DATA_BLOCK_START (c - DATA_BLOCK_START))) as Hin.
  { apply list_elem_of_filter. split; [|apply elem_of_seqZ; unfold DATA_BLOCK_START in *; lia].
    rewrite Hu by (unfold DATA_BLOCK_START in *; lia). by apply bool_decide_false. }
  rewrite Ef in Hin. by apply elem_of_nil in Hin.
Qed.

Lemma format_spec s :
  ok s → DATA_BLOCK_START < cap s → 60 ≤ avail s →
  wp format s (λ _ s', ∃ t, formatted (cap s') (bl s') t ∧ step 60 s s' ∧
    fs_rep s' (root_tree DATA_BLOCK_START)).
Proof.
  intros Hok Hcap Hav. destruct (cap_bounds s) as [Hc1 Hc2]. unfold format.
  wp_step format_meta_spec; [done..|]. intros p s7 (-> & Hs07 & t & Hblank).
  pose proof (blank_room _ _ (cap s) Hblank (conj Hcap Hc2)) as Hroom. destruct Hblank as [Hsb Hu7 Hiu7 Htbl].
  unfold format_root. wp_step alloc_block_spec; [by eapply step_ok|rewrite (step_nblk _ _ _ Hs07); lia|
    by rewrite (step_cap _ _ _ Hs07)|pose proof (step_avail _ _ _ Hs07); lia|].
  intros b s8 (Hs8 & Hf & Hblow & Hall).
  assert (step 47 s s8) as Hs08 by (eapply step_trans; [exact Hs07|exact Hs8|lia]).
  assert (b = DATA_BLOCK_START) as ->.
  { destruct Hf as [Hb _]. destruct (decide (b = DATA_BLOCK_START)); [done|]. specialize (Hblow DATA_BLOCK_START ltac:(lia)).
    rewrite Hu7 in Hblow by (unfold DATA_BLOCK_START in *; lia). by rewrite bool_decide_false in Hblow by lia. }
  destruct (allocated_inodes _ _ _ _ Hf Hall) as [Hin8 Hiu8]. destruct Hall as (Hz8 & Hv8 & Hu8).
  wp_step (write_inode_spec s8 ROOT_INO (dir_inode DATA_BLOCK_START) (step_ok _ _ _ Hs08) root_range);
    [rewrite (step_nblk _ _ _ Hs08); lia|pose proof (step_avail _ _ _ Hs08); lia|by apply dir_inode_wf|].
  intros u9 s9 (Hs9 & Hin9 & Hv9).
  assert (step 48 s s9) as Hs09 by (eapply step_trans; [exact Hs08|exact Hs9|lia]).
  eapply wp_mono; [apply write_block_spec; [by eapply step_ok|
    rewrite (step_nblk _ _ _ Hs09); unfold DATA_BLOCK_START in *; lia|apply zero_page_page]|].
  intros u10 s10 [Hs10 Hv10].
  assert (step 60 s s10) as Hs by (eapply step_trans; [exact Hs09|exact Hs10|lia]).
  assert (∀ b, 0 ≤ b < 38 → bl s10 b = bl s9 b) as H10.
  { intros b Hb. rewrite Hv10 by lia. apply upd_ne. unfold DATA_BLOCK_START. lia. }
  assert (∀ b, 0 ≤ b < 6 → bl s10 b = bl s8 b) as H108.
  { intros b Hb. rewrite H10 by lia. apply Hv9; [lia|]. unfold INODE_TBL_BLOCK. lia. }
  assert (formatted (cap s10) (bl s10) t) as Hfm.
  { split.
    - unfold SB_BLOCK in *. rewrite H108 by lia. rewrite Hv8; [exact Hsb|lia| |done]. unfold BLOCK_BM_BLOCK. lia.
    - intros j Hj. rewrite (used_ext (bl s8)); [|done|].
      + rewrite Hu8, Hu7 by done. case_bool_decide; [by subst; rewrite bool_decide_true|].
        apply bool_decide_ext. lia.
      + unfold BLOCK_BM_BLOCK, INODE_TBL_BLOCK. intros b Hb. apply H108. lia.
    - intros j Hj. rewrite (iused_ext (bl s8)), Hiu8; [by apply Hiu7|exact Hj|exact Hj|]. apply H108. unfold INODE_BM_BLOCK. lia.
    - rewrite (inode_at_ext (bl s9)); [|exact root_range|intros b Hb; apply H10; unfold INODE_TBL_BLOCK, DATA_BLOCK_START in Hb; lia].
      rewrite (Hin9 _ root_range). by rewrite bool_decide_true.
    - intros j Hj. assert (0 ≤ j < MAX_INODES) as Hj' by lia.
      rewrite (inode_at_ext (bl s9)); [|exact Hj'|intros b Hb; apply H10; unfold INODE_TBL_BLOCK, DATA_BLOCK_START in Hb; lia].
      rewrite (Hin9 _ Hj'). rewrite bool_decide_false by (unfold ROOT_INO; lia). rewrite (Hin8 _ Hj').
      apply inode_at_zero; [lia|]. apply Htbl. by apply inode_block_range.
    - rewrite Hv10 by done. apply upd_eq. }
  exists t. split; [exact Hfm|]. split; [exact Hs|]. split; [by eapply step_ok|].
  rewrite (step_nblk _ _ _ Hs). split; [lia|]. eapply formatted_rep; [exact Hfm| |apply bl_page].
  rewrite (step_cap _ _ _ Hs). lia.
Qed.
End ops.
