(* ===== verification/HepfsPath.v ===== *)
(** Paths: what [lookup] resolves a path to is a walk through the listings of the
    directories on it, and the walk survives changes to anything else. *)

From stdpp Require Import prelude list numbers.
From S2P Require Import Prelude Pmm Hepfs HepfsBlock HepfsRep HepfsFile HepfsRead HepfsDir HepfsOps.

Local Open Scope Z_scope.

(** The node a path leads to, name by name. *)
Fixpoint walk (v : view) (d : Z) (parts : list (list Z)) : option Z :=
  match parts with
  | [] => Some d
  | p :: rest => match assoc (listing v d) p with Some i => walk v i rest | None => None end
  end.

(** Every node searched on the way satisfies [P]. *)
Fixpoint on_way (P : Z → Prop) (v : view) (d : Z) (parts : list (list Z)) : Prop :=
  match parts with
  | [] => True
  | p :: rest => P d ∧ match assoc (listing v d) p with Some i => on_way P v i rest | None => True end
  end.

Definition ino_ok (d : Z) : Prop := 0 ≤ d < MAX_INODES.
Definition dir_at (v : view) (d : Z) : Prop := ino_ok d ∧ flags (inode_at v d) = F_DIR.

(** Only directories are searched. *)
Definition dir_path (v : view) (path : list Z) : Prop := on_way (dir_at v) v ROOT_INO (path_parts path).

Definition resolves (v : view) (path : list Z) : option Z := walk v ROOT_INO (path_parts path).

Lemma on_way_mono (P Q : Z → Prop) v d parts : (∀ j, P j → Q j) → on_way P v d parts → on_way Q v d parts.
Proof.
  intros H. revert d. induction parts as [|p rest IH]; intros d; [done|]. intros [Hd Hr]. split; [by apply H|].
  destruct (assoc _ _); [by apply IH|done].
Qed.

(** When the directories on the way still give the same answers, so does the path. *)
Lemma walk_same v v' d parts :
  on_way (dir_at v) v d parts →
  (∀ j p, dir_at v j → p ∈ parts → dir_at v' j ∧ assoc (listing v' j) p = assoc (listing v j) p) →
  walk v' d parts = walk v d parts ∧ on_way (dir_at v') v' d parts.
Proof.
  revert d. induction parts as [|p rest IH]; intros d Hw Hs; [done|]. destruct Hw as [Hd Hr]. cbn [walk on_way].
  destruct (Hs d p Hd ltac:(left)) as [Hd' E]. rewrite E. destruct (assoc (listing v d) p) as [i|]; [|done].
  destruct (IH i Hr) as [-> Hw']; [|done]. intros j q Hj Hq. apply Hs; [done|by right].
Qed.

Section lookup.
Context {D F : Type} `{!Drive D} `{!FrameSource F}.
Implicit Types (s : fs D F) (g : tree).

Lemma fs_rep_read s s' g n : fs_rep s g → dev s' = dev s → step n s s' → fs_rep s' g.
Proof. intros Hr Hd Hs. apply (dstep_read 0 n s g s' Hr Hs Hd). Qed.

Lemma bl_dev s s' : dev s' = dev s → bl s' = bl s.
Proof. intros E. unfold bl. by rewrite E. Qed.

Lemma lookup_from_spec s g d parts :
  fs_rep s g → on_way ino_ok (bl s) d parts → 13 * len parts ≤ avail s →
  wp (lookup_from d parts) s (λ r s', r = walk (bl s) d parts ∧ dev s' = dev s ∧ step (13 * len parts) s s').
Proof.
  revert s d. induction parts as [|p rest IH]; intros s d Hr Hw Ha; cbn [lookup_from walk].
  - apply wp_ret. split; [done|]. split; [done|]. apply step_refl, Hr.
  - destruct Hw as [Hd Hw]. assert (len (p :: rest) = 1 + len rest) as El by (unfold len; cbn [length]; lia). rewrite El in *.
    assert (0 ≤ len rest) by (unfold len; lia).
    wp_step (find_in_dir_spec s g d p Hr Hd ltac:(lia)). intros r s1 (-> & Hd1 & Hs1).
    pose proof (step_avail _ _ _ Hs1) as Ha1. destruct (assoc (listing (bl s) d) p) as [i|].
    + eapply wp_mono; [apply IH; [by eapply fs_rep_read|by rewrite (bl_dev s s1)|lia]|]. intros r s2 (-> & Hd2 & Hs2).
      rewrite (bl_dev s s1) by done. split; [done|]. split; [congruence|]. eapply step_trans; [done..|lia].
    + apply wp_ret. split; [done|]. split; [done|]. destruct Hs1 as (? & ? & ? & ?). split; [done|]. split; [done|]. split; [lia|done].
Qed.

Lemma lookup_spec s g path :
  fs_rep s g → on_way ino_ok (bl s) ROOT_INO (path_parts path) → 13 * len (path_parts path) ≤ avail s →
  wp (lookup path) s (λ r s', r = resolves (bl s) path ∧ dev s' = dev s ∧ step (13 * len (path_parts path)) s s').
Proof. apply lookup_from_spec. Qed.

Lemma dir_path_range v p : dir_path v p → on_way ino_ok v ROOT_INO (path_parts p).
Proof. apply on_way_mono. by intros j [? _]. Qed.

Lemma can_create_read s s' g parent nm k n : can_create s g parent nm k → fs_rep s' g → dev s' = dev s → step n s s' → 34 ≤ avail s' →
  can_create s' g parent nm k.
Proof.
  intros [H1 H2 H3 H4 H5 H6 H7 H8] Hr Hd Hs Ha. pose proof (step_cap _ _ _ Hs) as Ec. pose proof (bl_dev s s' Hd) as Eb.
  split; rewrite ?Eb, ?Ec; done.
Qed.

(** Paths lead where they led when only one node, and no directory, changed. *)
Lemma resolves_others s g s' g' path ino :
  fs_rep s g → dir_path (bl s) path → flags (inode_at (bl s) ino) ≠ F_DIR →
  (∀ j, ino_ok j → j ≠ ino → same_node (bl s) g (bl s') g' j) →
  resolves (bl s') path = resolves (bl s) path ∧ dir_path (bl s') path.
Proof.
  intros Hr Hp Hf Hs. apply walk_same; [done|]. intros j p [Hj Hfj] _. assert (j ≠ ino) as Hne by congruence.
  pose proof (Hs j Hj Hne) as Hsame. pose proof Hsame as (Hi & _). split; [split; [done|by rewrite Hi]|].
  by rewrite (same_node_listing s g s' g' j).
Qed.

(** A new entry in the root changes no path that does not ask for its name. *)
Lemma resolves_created s g ino nm s' g' path :
  fs_rep s g → dir_path (bl s) path → created s g ROOT_INO ino nm s' g' → nm ∉ path_parts path →
  resolves (bl s') path = resolves (bl s) path ∧ dir_path (bl s') path.
Proof.
  intros Hr Hp Hc Hn. apply walk_same; [done|]. intros j p [Hj Hfj] Hin. destruct (decide (j = ROOT_INO)) as [->|Hne].
  - split; [split; [done|apply (cr_parent _ _ _ _ _ _ _ Hc)]|]. destruct (cr_list _ _ _ _ _ _ _ Hc) as (l1 & l2 & -> & ->).
    apply assoc_other. cbn. intros ->. done.
  - destruct (cr_fresh _ _ _ _ _ _ _ Hc) as (_ & Hu & _). assert (j ≠ ino) as Hji.
    { intros ->. destruct Hr as (_ & _ & R). assert (iused (bl s) ino = true); [|congruence]. eapply rep_live; [exact R|done|by rewrite Hfj]. }
    pose proof (cr_others _ _ _ _ _ _ _ Hc j Hj Hne Hji) as Hsame. pose proof Hsame as (Hi & _).
    split; [split; [done|by rewrite Hi]|]. by rewrite (same_node_listing s g s' g' j).
Qed.
End lookup.

(** ** Splitting a path *)

Lemma split_slash_no_slash l acc : 0x2F ∉ acc → Forall (λ p, 0x2F ∉ p) (split_slash l acc).
Proof.
  revert acc. induction l as [|c l IH]; intros acc Ha; cbn [split_slash].
  - apply Forall_singleton. by rewrite elem_of_reverse.
  - destruct (Z.eqb_spec c 0x2F).
    + constructor; [by rewrite elem_of_reverse|]. apply IH. apply not_elem_of_nil.
    + apply IH. rewrite not_elem_of_cons. split; congruence.
Qed.

Lemma path_parts_no_slash path p : p ∈ path_parts path → (0x2F ∉ p) ∧ p ≠ [].
Proof.
  unfold path_parts. intros [Hn Hp]%list_elem_of_filter. split; [|done].
  pose proof (split_slash_no_slash path [] (not_elem_of_nil _)) as H. rewrite List.Forall_forall in H. apply H, list_elem_of_In, Hp.
Qed.

Lemma split_slash_simple l acc : 0x2F ∉ l → split_slash l acc = [reverse acc ++ l].
Proof.
  revert acc. induction l as [|c l IH]; intros acc Hl; cbn [split_slash]; [by rewrite app_nil_r|].
  apply not_elem_of_cons in Hl as [Hc Hl]. rewrite (proj2 (Z.eqb_neq c 0x2F)) by congruence. rewrite IH by done.
  by rewrite reverse_cons, <- app_assoc.
Qed.

(** A plain name behind any number of slashes. *)
Lemma path_parts_simple slashes nm : Forall (eq 0x2F) slashes → 0x2F ∉ nm → nm ≠ [] → path_parts (slashes ++ nm) = [nm].
Proof.
  intros Hs Hn Hne. unfold path_parts. induction Hs as [|c l <- Hl IH]; cbn [app split_slash].
  - rewrite split_slash_simple by done. cbn. by destruct (decide _).
  - rewrite Z.eqb_refl. exact IH.
Qed.
