(* ===== verification/HepfsSpec.v ===== *)
(** HepFS: the properties of the file system, and the states on a concrete
    64-block disk that show their hypotheses can hold. *)

From stdpp Require Import prelude list numbers strings gmap.
From S2P Require Import Prelude Pmm Hepfs HepfsBlock HepfsRep HepfsFile HepfsRead HepfsDir HepfsOps.

Local Open Scope Z_scope.

Section spec.
Context {D F : Type} `{!Drive D} `{!FrameSource F}.
Implicit Types (s : fs D F).

(** C1: what [write_file] stores, [read_file] returns: through the direct, indirect
    and double-indirect blocks alike, for any contents the free blocks can hold, neither call
    panics and the bytes come back exactly. *)
Theorem write_read_roundtrip s g ino data :
  fs_rep s g → 0 ≤ ino < MAX_INODES → flags (inode_at (bl s) ino) = F_FILE → Forall is_byte data →
  4 + 2 * nch data ≤ room (bl s) (cap s) → 40 + 18 * nch data ≤ avail s →
  wp (write_file ino data ≫= λ _, read_file ino) s (λ out s', out = data).
Proof.
  intros Hr Hi Hf Hb Hroom Hav. pose proof (nch_nonneg data).
  wp_step write_file_spec; [done..|lia|]. intros u s1 (g1 & Hr1 & _ & _ & Ha1 & Hh & _).
  eapply wp_mono; [apply (read_file_spec s1 g1 ino data Hr1 Hi Hh); lia|]. by intros out s2 [-> _].
Qed.

(** C2: [write_file] keeps the file system consistent (every pointer in its place, every
    owned block marked used and owned once), leaves every other file and directory with the
    same inode, pointers and block contents, and every block it newly marks used belongs to the
    written file: no leak and no sharing. *)
Theorem write_file_frame s g ino data :
  fs_rep s g → 0 ≤ ino < MAX_INODES → flags (inode_at (bl s) ino) = F_FILE → Forall is_byte data →
  4 + 2 * nch data ≤ room (bl s) (cap s) → 40 + 16 * nch data ≤ avail s →
  wp (write_file ino data) s (λ _ s', ∃ g', fs_rep s' g' ∧ holds (bl s') g' ino data ∧
    (∀ j, 0 ≤ j < MAX_INODES → j ≠ ino → same_node (bl s) g (bl s') g' j) ∧
    (∀ j d, 0 ≤ j < MAX_INODES → j ≠ ino → holds (bl s) g j d → holds (bl s') g' j d) ∧
    (∀ b, DATA_BLOCK_START ≤ b < BM_BITS → used (bl s') b = true →
       used (bl s) b = true ∨ ∃ t, g' ino t = b)).
Proof.
  intros Hr Hi Hf Hb Hroom Hav. eapply wp_mono; [by apply write_file_spec|].
  intros u s1 (g1 & Hr1 & _ & _ & _ & Hh & Hoth & Hnew). exists g1. do 3 (split; [done|]). split; [|done].
  intros j d Hj Hne Hold. eapply same_node_holds; [by apply Hoth|done].
Qed.

(** [bitmap_alloc] returns the lowest clear index at or above [skip] and sets exactly that
    bit; it returns [None], changing nothing, only when no such index exists. *)
Theorem bitmap_alloc_first_fit s start n skip :
  ok s → 0 ≤ start → 0 ≤ n → start + n ≤ nblk s → n + 1 ≤ avail s →
  wp (bitmap_alloc start n skip) s (λ r s',
    match r with
    | Some i => skip ≤ i < n * BLOCK_SIZE * 8 ∧ bmbit (bl s) start i = false ∧
        (∀ j, skip ≤ j < i → 0 ≤ j → bmbit (bl s) start j = true) ∧
        bit_set_to (bl s) (bl s') start i true
    | None => bl s' = bl s ∧ ∀ j, skip ≤ j < n * BLOCK_SIZE * 8 → 0 ≤ j → bmbit (bl s) start j = true
    end).
Proof.
  intros. eapply wp_mono; [by apply bitmap_alloc_spec|]. intros [i|] s' [_ Hp]; [|done].
  destruct Hp as (Hp1 & _ & Hp2). done.
Qed.

(** an inode written with [write_inode] is read back unchanged by [read_inode], and every
    other inode of the table reads as before: the 128-byte slots do not overlap. *)
Theorem inode_roundtrip s ino i j :
  ok s → DATA_BLOCK_START ≤ nblk s → 0 ≤ ino < MAX_INODES → 0 ≤ j < MAX_INODES → 2 ≤ avail s → inode_wf i →
  wp (write_inode ino i ≫= λ _, read_inode j) s
    (λ r _, r = if bool_decide (j = ino) then i else inode_at (bl s) j).
Proof.
  intros Hok Hn Hi Hj Ha Hwf. wp_step write_inode_spec; [done|done|done|lia|done|]. intros u s1 [Hs [Hin _]].
  eapply wp_mono; [apply read_inode_spec; [by eapply step_ok|done|by rewrite (step_nblk _ _ _ Hs)|
    pose proof (step_avail _ _ _ Hs); lia]|].
  intros r s2 (-> & _). by apply Hin.
Qed.

(** on any disk of more than 38 blocks, [format] yields a consistent file system that
    [probe] recognises, whose root directory lists nothing and whose other inodes are all free. *)
Theorem format_empty_root s :
  ok s → DATA_BLOCK_START < cap s → 80 ≤ avail s →
  wp (format ≫= λ _, p ← probe; l ← list_dir ROOT_INO; mret (p, l)) s (λ r s', r = (true, []) ∧
    fs_rep s' (root_tree DATA_BLOCK_START) ∧
    ∀ j, 0 < j < MAX_INODES → iused (bl s') j = false ∧ inode_at (bl s') j = inode_default).
Proof.
  intros Hok Hcap Hav. wp_step format_spec; [done|done|lia|]. intros u s1 (t & Hfm & Hs1 & Hr1).
  pose proof Hr1 as (Hok1 & Hbig1 & R1). pose proof (step_avail _ _ _ Hs1) as Ha1.
  unfold probe. apply wp_bind. wp_step read_block_spec; [done|unfold SB_BLOCK, DATA_BLOCK_START in *; lia|lia|].
  intros p s2 (-> & Hd2 & Hs2). apply wp_ret. rewrite (fm_sb _ _ _ Hfm), (proj2 (superblock_page t)), Z.eqb_refl.
  pose proof (dstep_read 0 1 s1 _ s2 Hr1 Hs2 Hd2) as Hst2. pose proof (ds_avail _ _ _ _ _ _ _ Hst2) as Ha2.
  assert (bl s2 = bl s1) as E by (unfold bl; by rewrite Hd2).
  wp_step (list_dir_spec s2 _ ROOT_INO (ds_rep _ _ _ _ _ _ _ Hst2) root_range);
    [by rewrite E, (fm_root _ _ _ Hfm)|lia|].
  intros l s3 (-> & Hd3 & Hs3). apply wp_ret. assert (bl s3 = bl s1) as E3 by (rewrite <- E; unfold bl; by rewrite Hd3).
  rewrite E, E3. split; [|split].
  - unfold listing. rewrite (fm_root _ _ _ Hfm).
    change (dir_blocks (dir_inode DATA_BLOCK_START)) with [DATA_BLOCK_START].
    unfold lents. cbn [fmap list_fmap]. rewrite (fm_data _ _ _ Hfm), live_zero. done.
  - apply (dstep_read 0 13 s2 _ s3 (ds_rep _ _ _ _ _ _ _ Hst2) Hs3 Hd3).
  - intros j Hj. rewrite (fm_iused _ _ _ Hfm) by lia. split; [|by apply (fm_inodes _ _ _ Hfm)].
    apply bool_decide_false. unfold ROOT_INO. lia.
Qed.

(** C5: after [create_file(parent, name)] for a name not yet in [parent], looking the name up
    yields the new inode, every other name of the directory resolves as before, the new file is
    empty, the other nodes are untouched and [GENERATION] has moved. *)
Theorem create_file_resolves s g parent nm :
  can_create s g parent nm 1 → assoc (listing (bl s) parent) nm = None →
  wp (create_file parent nm) s (λ ino s', ∃ g', fs_rep s' g' ∧ iused (bl s) ino = false ∧
    GENERATION s' = u64 (GENERATION s + 1) ∧ holds (bl s') g' ino [] ∧
    (∀ nm', assoc (listing (bl s') parent) nm' =
       if bool_decide (nm' = nm) then Some ino else assoc (listing (bl s) parent) nm') ∧
    (∀ j, 0 ≤ j < MAX_INODES → j ≠ parent → j ≠ ino → same_node (bl s) g (bl s') g' j)).
Proof.
  intros C Hnone. eapply wp_mono; [by apply (create_file_spec s g)|]. intros ino s' (g' & Hc & Hh).
  exists g'. split; [apply Hc|]. split; [apply Hc|]. split; [apply Hc|]. split; [done|]. split; [|apply Hc].
  destruct (cr_list _ _ _ _ _ _ _ Hc) as (l1 & l2 & Hl & Hl'). rewrite Hl, Hl' in *. intros nm'.
  case_bool_decide as E.
  - subst nm'. rewrite assoc_insert by done. cbn [fst snd]. by rewrite bool_decide_true.
  - apply assoc_other. cbn [snd]. congruence.
Qed.

(** C6: [rename] answers [true] exactly when the new name is free and at most 27 bytes long and
    the old one is there, and then it has replaced, in place, the first entry called [old_name] by
    one with the same inode called [new_name]; otherwise it answers [false] and has written
    nothing. No inode and no other directory changes, the directory keeps its own inode, and
    [GENERATION] moves in either case. *)
Theorem rename_in_place s g d old_name new_name :
  fs_rep s g → 0 ≤ d < MAX_INODES → 41 ≤ avail s → Forall is_byte new_name → utf8_valid new_name = true →
  wp (rename d old_name new_name) s (λ r s', fs_rep s' g ∧ GENERATION s' = u64 (GENERATION s + 1) ∧
    (∀ j, 0 ≤ j < MAX_INODES → j ≠ d → same_node (bl s) g (bl s') g j) ∧ inode_at (bl s') d = inode_at (bl s) d ∧
    (r = true ↔ assoc (listing (bl s) d) new_name = None ∧ len new_name ≤ 27 ∧ is_Some (assoc (listing (bl s) d) old_name)) ∧
    if (r : bool) then ∃ l1 l2 ino, listing (bl s) d = l1 ++ (ino, old_name) :: l2 ∧
        assoc l1 old_name = None ∧ listing (bl s') d = l1 ++ (ino, new_name) :: l2
    else bl s' = bl s).
Proof.
  intros. eapply wp_mono; [by apply (rename_spec s g)|]. intros r s' (Hg & Hr & Ho & Hi & Hp).
  split; [done|]. split; [done|]. split; [done|]. split; [done|]. destruct r.
  - destruct Hp as (Hn & Hl & l1 & l2 & ino & E & Hl1 & E'). split; [|by exists l1, l2, ino]. split; [|done]. intros _. split; [done|]. split; [done|].
    rewrite E. exists ino. rewrite assoc_app_none by done. unfold assoc. cbn. by rewrite bool_decide_true.
  - destruct Hp as (E & Hp). split; [|done]. split; [done|]. intros (Hn & Hl & [i Hi']). destruct Hp as [[? ?]|[?|?]]; [congruence|lia|congruence].
Qed.

(** a name of more than 27 bytes stops the machine: [create_file] does not report an error
    but panics, after having already taken an inode. *)
Theorem create_file_long_name_panics s g parent nm f :
  fs_rep s g → 0 ≤ parent < MAX_INODES → 0 ≤ f < MAX_INODES → iused (bl s) f = false → 5 ≤ avail s →
  27 < len nm → create_file parent nm s = Panic "filename too long (max 27)".
Proof.
  intros Hr Hp Hf Hfu Ha Hlong. set (s0 := mkFs (dev s) (frames s) (u64 (GENERATION s + 1))).
  assert (fs_rep s0 g) as Hr0 by (by apply (fs_rep_same s)).
  destruct (wp_inv _ _ _ (alloc_inode_rep s0 g f Hr0 Hf Hfu ltac:(unfold avail in *; simpl; lia)))
    as (ino & s1 & E1 & Hs1 & Hc1 & _). destruct Hc1 as [(Hok1 & Hbig1 & R1) Hino _ _ _ _ _ _ _].
  pose proof (step_avail _ _ _ Hs1) as Ha1. assert (avail s0 = avail s) as Ea by done.
  assert (inode_wf (set_flags F_FILE inode_default)) as Hwf
    by (split; [split; [done|]; apply inode_default_wf|apply inode_default_wf]).
  destruct (wp_inv _ _ _ (write_inode_spec s1 ino _ Hok1 ltac:(lia) Hbig1 ltac:(lia) Hwf)) as (u2 & s2 & E2 & Hs2 & _).
  pose proof (step_avail _ _ _ Hs2) as Ha2. pose proof (step_nblk _ _ _ Hs2) as Hn2.
  destruct (wp_inv _ _ _ (read_inode_spec s2 parent (step_ok _ _ _ Hs2) Hp ltac:(lia) ltac:(lia)))
    as (i & s3 & E3 & _).
  unfold create_file, bump_generation, mbind, ST_bind, modify. fold s0. rewrite E1, E2.
  unfold add_dir_entry, mbind, ST_bind. rewrite E3. unfold lift, rassert.
  destruct (Z.leb_spec (len nm) 27); [lia|]. done.
Qed.
End spec.

(** ** A concrete disk: formatted, with one file *)

Lemma demo_ok : ok demo_disk.
Proof.
  split; [|exact demo_frames_inv]. split; [done|]. split; [done|]. unfold is_u. simpl. lia.
Qed.
Lemma demo_cap : cap demo_disk = 64.
Proof. vm_compute. reflexivity. Qed.
Lemma demo_nblk : nblk demo_disk = 64.
Proof. vm_compute. reflexivity. Qed.
Lemma demo_avail : avail demo_disk = 16384.
Proof. destruct demo_frames_inv as [_ E]. symmetry. exact E. Qed.

Definition demo_fmt : fs ram_disk pmm :=
  match format demo_disk with Ok (_, s) => s | Panic _ => demo_disk end.

Lemma demo_fmt_spec : ∃ t, formatted (cap demo_fmt) (bl demo_fmt) t ∧ step 60 demo_disk demo_fmt ∧
  fs_rep demo_fmt (root_tree DATA_BLOCK_START).
Proof.
  pose proof (format_spec demo_disk demo_ok) as W. rewrite demo_cap, demo_avail in W.
  destruct (wp_inv _ _ _ (W ltac:(done) ltac:(done))) as (u & s & E & H). unfold demo_fmt. by rewrite E.
Qed.

Lemma demo_room v t : formatted 64 v t → room v 64 = 25.
Proof.
  intros [_ Hu _ _ _ _]. unfold room.
  rewrite (filter_ext_in _ (λ b, bool_decide (b ≤ DATA_BLOCK_START) = false)); [vm_compute; reflexivity|].
  intros b Hb. apply elem_of_seqZ in Hb. unfold DATA_BLOCK_START in Hb. rewrite Hu; [done|].
  unfold BM_BITS, BLOCK_BM_LEN, BLOCK_SIZE. lia.
Qed.

(** The name of the demonstration file: "A". *)
Definition demo_name : list Z := [65].

Lemma demo_name_ok : name_ok demo_name.
Proof. split; [done|]. split; [|done]. repeat constructor; unfold is_u; lia. Qed.

Lemma demo_can_create : can_create demo_fmt (root_tree DATA_BLOCK_START) ROOT_INO demo_name 1.
Proof.
  destruct demo_fmt_spec as (t & Hfm & Hs & Hr). pose proof (step_cap _ _ _ Hs) as Ec. rewrite demo_cap in Ec.
  pose proof (step_avail _ _ _ Hs) as Ha. rewrite demo_avail in Ha. rewrite Ec in Hfm.
  split; [exact Hr|exact root_range| | | | |lia|exact demo_name_ok].
  - by rewrite (fm_root _ _ _ Hfm).
  - exists 1. split; [unfold DIRECT_PTRS; lia|]. by left.
  - exists 1. split; [unfold MAX_INODES; lia|]. rewrite (fm_iused _ _ _ Hfm) by (unfold MAX_INODES; lia). done.
  - rewrite Ec, (demo_room _ _ Hfm). lia.
Qed.

Lemma demo_root_empty : listing (bl demo_fmt) ROOT_INO = [].
Proof.
  destruct demo_fmt_spec as (t & Hfm & _). unfold listing. rewrite (fm_root _ _ _ Hfm).
  change (dir_blocks (dir_inode DATA_BLOCK_START)) with [DATA_BLOCK_START].
  unfold lents. cbn [fmap list_fmap]. by rewrite (fm_data _ _ _ Hfm), live_zero.
Qed.

Definition demo_file : fs ram_disk pmm :=
  match create_file ROOT_INO demo_name demo_fmt with Ok (_, s) => s | Panic _ => demo_fmt end.

Lemma demo_file_spec : ∃ ino g, created demo_fmt (root_tree DATA_BLOCK_START) ROOT_INO ino demo_name demo_file g ∧
  holds (bl demo_file) g ino [] ∧ 24 ≤ room (bl demo_file) (cap demo_file) ∧ 16290 ≤ avail demo_file.
Proof.
  destruct (wp_inv _ _ _ (create_file_spec demo_fmt _ ROOT_INO demo_name demo_can_create)) as (ino & s & E & g & Hc & Hh).
  exists ino, g. assert (demo_file = s) as -> by (unfold demo_file; by rewrite E). split; [done|]. split; [done|].
  destruct demo_fmt_spec as (t & Hfm & Hs & _). pose proof (step_cap _ _ _ Hs) as Ec. rewrite demo_cap in Ec.
  rewrite Ec in Hfm. pose proof (cr_room _ _ _ _ _ _ _ Hc) as Hroom. rewrite Ec, (demo_room _ _ Hfm) in Hroom.
  pose proof (cr_avail _ _ _ _ _ _ _ Hc). pose proof (step_avail _ _ _ Hs) as Ha. rewrite demo_avail in Ha. lia.
Qed.

Definition demo_data : list Z := replicate 10 7.

Lemma demo_data_ok : Forall is_byte demo_data ∧ nch demo_data = 1.
Proof. split; [apply Forall_replicate; unfold is_u; lia|done]. Qed.

Lemma write_read_roundtrip_witness : ∃ ino,
  wp (write_file ino demo_data ≫= λ _, read_file ino) demo_file (λ out s', out = demo_data).
Proof.
  destruct demo_file_spec as (ino & g & Hc & Hh & Hroom & Hav). destruct demo_data_ok as [Hb Hn].
  exists ino. apply (write_read_roundtrip demo_file g ino demo_data).
  - apply Hc.
  - pose proof (proj1 (cr_fresh _ _ _ _ _ _ _ Hc)). lia.
  - apply Hh.
  - exact Hb.
  - rewrite Hn. lia.
  - rewrite Hn. lia.
Defined.

Lemma write_file_frame_witness : ∃ ino g,
  wp (write_file ino demo_data) demo_file (λ _ s', ∃ g', fs_rep s' g' ∧ holds (bl s') g' ino demo_data ∧
    (∀ j, 0 ≤ j < MAX_INODES → j ≠ ino → same_node (bl demo_file) g (bl s') g' j) ∧
    (∀ j d, 0 ≤ j < MAX_INODES → j ≠ ino → holds (bl demo_file) g j d → holds (bl s') g' j d) ∧
    (∀ b, DATA_BLOCK_START ≤ b < BM_BITS → used (bl s') b = true →
       used (bl demo_file) b = true ∨ ∃ t, g' ino t = b)).
Proof.
  destruct demo_file_spec as (ino & g & Hc & Hh & Hroom & Hav). destruct demo_data_ok as [Hb Hn].
  exists ino, g. apply (write_file_frame demo_file g ino demo_data).
  - apply Hc.
  - pose proof (proj1 (cr_fresh _ _ _ _ _ _ _ Hc)). lia.
  - apply Hh.
  - exact Hb.
  - rewrite Hn. lia.
  - rewrite Hn. lia.
Defined.

Lemma bitmap_alloc_first_fit_witness :
  wp (bitmap_alloc 2 4 38) demo_disk (λ r s',
    match r with
    | Some i => 38 ≤ i < 4 * BLOCK_SIZE * 8 ∧ bmbit (bl demo_disk) 2 i = false ∧
        (∀ j, 38 ≤ j < i → 0 ≤ j → bmbit (bl demo_disk) 2 j = true) ∧
        bit_set_to (bl demo_disk) (bl s') 2 i true
    | None => bl s' = bl demo_disk ∧ ∀ j, 38 ≤ j < 4 * BLOCK_SIZE * 8 → 0 ≤ j → bmbit (bl demo_disk) 2 j = true
    end).
Proof.
  apply (bitmap_alloc_first_fit demo_disk 2 4 38 demo_ok); [lia|lia|rewrite demo_nblk; lia|rewrite demo_avail; lia].
Defined.

Lemma inode_roundtrip_witness :
  wp (write_inode 3 inode_default ≫= λ _, read_inode 4) demo_disk
    (λ r _, r = if bool_decide (4 = 3) then inode_default else inode_at (bl demo_disk) 4).
Proof.
  apply (inode_roundtrip demo_disk 3 inode_default 4 demo_ok); [rewrite demo_nblk; unfold DATA_BLOCK_START; lia|
    unfold MAX_INODES; lia|unfold MAX_INODES; lia|rewrite demo_avail; lia|exact inode_default_wf].
Defined.

Lemma format_empty_root_witness :
  wp (format ≫= λ _, p ← probe; l ← list_dir ROOT_INO; mret (p, l)) demo_disk (λ r s', r = (true, []) ∧
    fs_rep s' (root_tree DATA_BLOCK_START) ∧
    ∀ j, 0 < j < MAX_INODES → iused (bl s') j = false ∧ inode_at (bl s') j = inode_default).
Proof.
  apply (format_empty_root demo_disk demo_ok); [rewrite demo_cap; unfold DATA_BLOCK_START; lia|rewrite demo_avail; lia].
Defined.

Lemma create_file_resolves_witness :
  wp (create_file ROOT_INO demo_name) demo_fmt (λ ino s', ∃ g', fs_rep s' g' ∧ iused (bl demo_fmt) ino = false ∧
    GENERATION s' = u64 (GENERATION demo_fmt + 1) ∧ holds (bl s') g' ino [] ∧
    (∀ nm', assoc (listing (bl s') ROOT_INO) nm' =
       if bool_decide (nm' = demo_name) then Some ino else assoc (listing (bl demo_fmt) ROOT_INO) nm') ∧
    (∀ j, 0 ≤ j < MAX_INODES → j ≠ ROOT_INO → j ≠ ino →
       same_node (bl demo_fmt) (root_tree DATA_BLOCK_START) (bl s') g' j)).
Proof.
  apply (create_file_resolves demo_fmt (root_tree DATA_BLOCK_START) ROOT_INO demo_name demo_can_create).
  rewrite demo_root_empty. reflexivity.
Defined.

Lemma rename_in_place_witness : ∃ g,
  wp (rename ROOT_INO demo_name [66]) demo_file (λ r s', fs_rep s' g ∧ GENERATION s' = u64 (GENERATION demo_file + 1) ∧
    (∀ j, 0 ≤ j < MAX_INODES → j ≠ ROOT_INO → same_node (bl demo_file) g (bl s') g j) ∧ inode_at (bl s') ROOT_INO = inode_at (bl demo_file) ROOT_INO ∧
    (r = true ↔ assoc (listing (bl demo_file) ROOT_INO) [66] = None ∧ len [66] ≤ 27 ∧ is_Some (assoc (listing (bl demo_file) ROOT_INO) demo_name)) ∧
    if (r : bool) then ∃ l1 l2 ino, listing (bl demo_file) ROOT_INO = l1 ++ (ino, demo_name) :: l2 ∧
        assoc l1 demo_name = None ∧ listing (bl s') ROOT_INO = l1 ++ (ino, [66]) :: l2
    else bl s' = bl demo_file).
Proof.
  destruct demo_file_spec as (ino & g & Hc & Hh & Hroom & Hav). exists g.
  apply (rename_in_place demo_file g ROOT_INO demo_name [66]).
  - apply Hc.
  - exact root_range.
  - lia.
  - repeat constructor; unfold is_u; lia.
  - reflexivity.
Defined.

Lemma create_file_long_name_panics_witness :
  create_file ROOT_INO (replicate 28 65) demo_fmt = Panic "filename too long (max 27)".
Proof.
  destruct demo_fmt_spec as (t & Hfm & Hs & Hr). pose proof (step_avail _ _ _ Hs) as Ha. rewrite demo_avail in Ha.
  apply (create_file_long_name_panics demo_fmt (root_tree DATA_BLOCK_START) ROOT_INO (replicate 28 65) 1).
  - exact Hr.
  - exact root_range.
  - unfold MAX_INODES; lia.
  - rewrite (fm_iused _ _ _ Hfm) by (unfold MAX_INODES; lia). reflexivity.
  - lia.
  - reflexivity.
Defined.
