(* ===== verification/Input.v ===== *)
(** Input devices: the PS/2 keyboard ([kernel/src/ps2.rs]) and the PS/2 mouse
    ([kernel/src/mouse.rs]).

    The keyboard keeps a ring of decoded keys and four modifier flags; the mouse
    a three-byte packet decoder. The 8042 controller both drivers poll is
    hardware: its output buffer is the list of pending bytes, each tagged as
    keyboard or mouse, which is what its status port reports. *)

From stdpp Require Import prelude list numbers strings.
From S2P Require Import Prelude.

Local Open Scope Z_scope.

(** ** The key ring *)

Definition BUF_SIZE : Z := 64.

Record KeyBuf := mkKeyBuf { buf : list Z; head : Z; tail : Z }.

Definition keybuf_new : KeyBuf := mkKeyBuf (replicate (Z.to_nat BUF_SIZE) 0) 0 0.

(** [self.buf[self.tail] = c] panics out of range; [push_ok] below shows it never is. *)
Definition push (c : Z) : ST KeyBuf unit := λ k,
  let next := (tail k + 1) mod BUF_SIZE in
  if negb (next =? head k) then
    if bool_decide (0 ≤ tail k < len (buf k))
    then Ok (tt, mkKeyBuf (<[Z.to_nat (tail k) := c]> (buf k)) (head k) next)
    else Panic "index out of bounds"
  else Ok (tt, k).

Definition pop : ST KeyBuf (option Z) := λ k,
  if head k =? tail k then Ok (None, k)
  else
    c ← idx (buf k) (head k);
    Ok (Some c, mkKeyBuf (buf k) ((head k + 1) mod BUF_SIZE) (tail k)).

(** ** Scancodes *)

Definition KEY_UP : Z := 0x80.
Definition KEY_DOWN : Z := 0x81.
Definition KEY_LEFT : Z := 0x82.
Definition KEY_RIGHT : Z := 0x83.
Definition KEY_DEL : Z := 0x84.
Definition KEY_HOME : Z := 0x85.
Definition KEY_END : Z := 0x86.
Definition KEY_PGUP : Z := 0x87.
Definition KEY_PGDN : Z := 0x88.
Definition KEY_F2 : Z := 0x92.
Definition KEY_F10 : Z := 0x9A.

Definition SCANCODE_MAP : list Z :=
  [0; 0x1B; 0x31; 0x32; 0x33; 0x34; 0x35; 0x36;
   0x37; 0x38; 0x39; 0x30; 0x2D; 0x3D; 0x08; 0x09;
   0x71; 0x77; 0x65; 0x72; 0x74; 0x79; 0x75; 0x69;
   0x6F; 0x70; 0x5B; 0x5D; 0x0A; 0; 0x61; 0x73;
   0x64; 0x66; 0x67; 0x68; 0x6A; 0x6B; 0x6C; 0x3B;
   0x27; 0x60; 0; 0x5C; 0x7A; 0x78; 0x63; 0x76;
   0x62; 0x6E; 0x6D; 0x2C; 0x2E; 0x2F; 0; 0x2A;
   0; 0x20].

Definition SHIFT_MAP : list Z :=
  [0; 0x1B; 0x21; 0x40; 0x23; 0x24; 0x25; 0x5E;
   0x26; 0x2A; 0x28; 0x29; 0x5F; 0x2B; 0x08; 0x09;
   0x51; 0x57; 0x45; 0x52; 0x54; 0x59; 0x55; 0x49;
   0x4F; 0x50; 0x7B; 0x7D; 0x0A; 0; 0x41; 0x53;
   0x44; 0x46; 0x47; 0x48; 0x4A; 0x4B; 0x4C; 0x3A;
   0x22; 0x7E; 0; 0x7C; 0x5A; 0x58; 0x43; 0x56;
   0x42; 0x4E; 0x4D; 0x3C; 0x3E; 0x3F; 0; 0x2A;
   0; 0x20].

Record kbd := mkKbd { KEYBUF : KeyBuf; EXTENDED : bool; SHIFT : bool; CAPS : bool; CTRL : bool }.

Definition kbd_new : kbd := mkKbd keybuf_new false false false false.

Definition shift_held (k : kbd) : bool := SHIFT k.
Definition ctrl_held (k : kbd) : bool := CTRL k.

Definition set_extended (b : bool) (k : kbd) : kbd := mkKbd (KEYBUF k) b (SHIFT k) (CAPS k) (CTRL k).
Definition set_shift (b : bool) (k : kbd) : kbd := mkKbd (KEYBUF k) (EXTENDED k) b (CAPS k) (CTRL k).
Definition set_caps (b : bool) (k : kbd) : kbd := mkKbd (KEYBUF k) (EXTENDED k) (SHIFT k) b (CTRL k).
Definition set_ctrl (b : bool) (k : kbd) : kbd := mkKbd (KEYBUF k) (EXTENDED k) (SHIFT k) (CAPS k) b.
Definition set_keybuf (b : KeyBuf) (k : kbd) : kbd := mkKbd b (EXTENDED k) (SHIFT k) (CAPS k) (CTRL k).

Definition is_ascii_lowercase (c : Z) : bool := (0x61 <=? c) && (c <=? 0x7A).
Definition is_ascii_uppercase (c : Z) : bool := (0x41 <=? c) && (c <=? 0x5A).

Definition extended_key (base_sc : Z) : Z :=
  if base_sc =? 0x48 then KEY_UP
  else if base_sc =? 0x50 then KEY_DOWN
  else if base_sc =? 0x4B then KEY_LEFT
  else if base_sc =? 0x4D then KEY_RIGHT
  else if base_sc =? 0x53 then KEY_DEL
  else if base_sc =? 0x47 then KEY_HOME
  else if base_sc =? 0x4F then KEY_END
  else if base_sc =? 0x49 then KEY_PGUP
  else if base_sc =? 0x51 then KEY_PGDN
  else 0.

Definition is_fkey (base_sc : Z) : bool := (0x3B <=? base_sc) && (base_sc <=? 0x44).

(** The character of a plain make code under the modifiers. *)
Definition decode_plain (shift caps ctrl : bool) (base_sc : Z) : Z :=
  if is_fkey base_sc then 0x90 + (base_sc - 0x3A)
  else
    let raw := if shift && (base_sc <? len SHIFT_MAP) then default 0 (SHIFT_MAP !! Z.to_nat base_sc)
               else if base_sc <? len SCANCODE_MAP then default 0 (SCANCODE_MAP !! Z.to_nat base_sc)
               else 0 in
    let raw := if caps && is_ascii_lowercase raw then raw - 32
               else if caps && is_ascii_uppercase raw then raw + 32
               else raw in
    if ctrl && is_ascii_lowercase raw then raw - 0x60 else raw.

Definition push_key (ch : Z) : ST kbd unit := λ k,
  '(_, b) ← push ch (KEYBUF k); Ok (tt, set_keybuf b k).

Definition handle_scancode (sc : Z) : ST kbd unit := λ k,
  if sc =? 0xE0 then Ok (tt, set_extended true k)
  else
    let ext := EXTENDED k in
    let k := set_extended false k in
    let release := negb (Z.land sc 0x80 =? 0) in
    let base_sc := Z.land sc 0x7F in
    if (base_sc =? 0x2A) || (base_sc =? 0x36) then Ok (tt, set_shift (negb release) k)
    else if base_sc =? 0x1D then Ok (tt, set_ctrl (negb release) k)
    else if (base_sc =? 0x3A) && negb release then Ok (tt, set_caps (negb (CAPS k)) k)
    else if release then Ok (tt, k)
    else
      let ch := if ext then extended_key base_sc
                else decode_plain (SHIFT k) (CAPS k) (CTRL k) base_sc in
      if negb (ch =? 0) then push_key ch k else Ok (tt, k).

(** [b as char] of a byte is the code point of the same value. *)
Definition read_char : ST kbd (option Z) := λ k,
  '(c, b) ← pop (KEYBUF k); Ok (c, set_keybuf b k).

(** [locked]: another holder has the lock. *)
Definition try_read_char (locked : bool) : ST kbd (option Z) :=
  if locked then mret None else read_char.

(** ** Polling the controller *)

(** Pending bytes of the 8042, oldest first; the flag marks mouse data. *)
Abbreviation outbuf := (list (bool * Z)).

(** The status port: bit 0 = data available, bit 5 = it is mouse data. *)
Definition status (q : outbuf) : Z :=
  match q with [] => 0 | (aux, _) :: _ => if aux then 0x21 else 0x01 end.

(** Reading the data port takes the oldest byte (an empty buffer reads as 0). *)
Definition read_data (q : outbuf) : Z * outbuf :=
  match q with [] => (0, []) | (_, b) :: q => (b, q) end.

Fixpoint kbd_poll (fuel : nat) (q : outbuf) : ST kbd outbuf :=
  match fuel with
  | O => mret q
  | S fuel =>
    let s := status q in
    if Z.land s 0x01 =? 0 then mret q
    else if negb (Z.land s 0x20 =? 0) then mret q
    else let '(b, q) := read_data q in handle_scancode b ≫= λ _, kbd_poll fuel q
  end.

(** ** Mouse *)

Record MouseState := mkMouse { mx : Z; my : Z; buttons : Z; cycle : Z; packet : list Z }.

Definition mouse_new : MouseState := mkMouse 400 300 0 0 [0; 0; 0].

(** [i32::clamp] asserts that the bounds are ordered. *)
Definition clampz (z lo hi : Z) : outcome Z :=
  if hi <? lo then Panic "assertion failed: min <= max"
  else Ok (if z <? lo then lo else if hi <? z then hi else z).

Definition clamp (w h : Z) : ST MouseState unit := λ m,
  x ← clampz (mx m) 0 (i32 (w - 1));
  y ← clampz (my m) 0 (i32 (h - 1));
  Ok (tt, mkMouse x y (buttons m) (cycle m) (packet m)).

Definition accel (delta : Z) : Z :=
  let d := Z.abs delta in
  if 10 <=? d then i32 (delta * 3)
  else if 5 <=? d then i32 (delta * 2)
  else delta.

Definition handle_ps2_byte (b : Z) (m : MouseState) : MouseState :=
  if cycle m =? 0 then
    if Z.land b 0x08 =? 0 then m
    else mkMouse (mx m) (my m) (buttons m) 1 (<[0%nat := b]> (packet m))
  else if cycle m =? 1 then mkMouse (mx m) (my m) (buttons m) 2 (<[1%nat := b]> (packet m))
  else if cycle m =? 2 then
    let p := <[2%nat := b]> (packet m) in
    let flags := default 0 (p !! 0%nat) in
    let dx := default 0 (p !! 1%nat) - (if negb (Z.land flags 0x10 =? 0) then 256 else 0) in
    let dy := default 0 (p !! 2%nat) - (if negb (Z.land flags 0x20 =? 0) then 256 else 0) in
    mkMouse (i32 (mx m + accel dx)) (i32 (my m - accel dy)) (Z.land flags 0x07) 0 p
  else mkMouse (mx m) (my m) (buttons m) 0 (packet m).

Fixpoint mouse_poll (fuel : nat) (q : outbuf) (m : MouseState) : outbuf * MouseState :=
  match fuel with
  | O => (q, m)
  | S fuel =>
    let s := status q in
    if Z.land s 0x01 =? 0 then (q, m)
    else if Z.land s 0x20 =? 0 then (q, m)
    else let '(b, q) := read_data q in mouse_poll fuel q (handle_ps2_byte b m)
  end.

(** ** The ring as a queue *)

Definition kb_wf (k : KeyBuf) : Prop :=
  length (buf k) = Z.to_nat BUF_SIZE ∧ 0 ≤ head k < BUF_SIZE ∧ 0 ≤ tail k < BUF_SIZE.

(** Number of queued keys and the keys, oldest first. *)
Definition count (k : KeyBuf) : Z := (tail k - head k) mod BUF_SIZE.
Definition keys (k : KeyBuf) : list Z :=
  (λ i, default 0 (buf k !! Z.to_nat ((head k + i) mod BUF_SIZE))) <$> seqZ 0 (count k).

Lemma count_range k : 0 ≤ count k < BUF_SIZE.
Proof. unfold count. apply Z.mod_pos_bound. done. Qed.

Lemma length_keys k : length (keys k) = Z.to_nat (count k).
Proof. unfold keys. by rewrite length_fmap, length_seqZ. Qed.

Lemma ring_inj h i j : 0 ≤ i < BUF_SIZE → 0 ≤ j < BUF_SIZE → (h + i) mod BUF_SIZE = (h + j) mod BUF_SIZE → i = j.
Proof. unfold BUF_SIZE. dlia. Qed.

Lemma seqZ_1 m : seqZ m 1 = [m].
Proof. by rewrite seqZ_cons by lia. Qed.

Lemma push_spec k c : kb_wf k →
  wp (push c) k (λ _ k', kb_wf k' ∧ keys k' = if len (keys k) <? BUF_SIZE - 1 then keys k ++ [c] else keys k).
Proof.
  intros (Hl & Hh & Ht). pose proof (count_range k) as Hc. unfold wp, push.
  assert (len (keys k) = count k) as Hlen by (unfold len; rewrite length_keys; lia). rewrite Hlen.
  destruct (Z.eqb_spec ((tail k + 1) mod BUF_SIZE) (head k)) as [E|E]; simpl negb; cbv iota.
  - assert (count k = BUF_SIZE - 1) as -> by (unfold count, BUF_SIZE in *; dlia).
    rewrite Z.ltb_irrefl. split; [by split|done].
  - rewrite bool_decide_true by (unfold len; rewrite Hl; lia).
    assert (count k < BUF_SIZE - 1) as Hlt by (unfold count, BUF_SIZE in *; dlia).
    destruct (Z.ltb_spec (count k) (BUF_SIZE - 1)); [|lia]. split.
    { unfold kb_wf. cbn [buf head tail]. rewrite length_insert. split; [done|]. split; [done|]. by apply Z.mod_pos_bound. }
    assert (count (mkKeyBuf (<[Z.to_nat (tail k):=c]> (buf k)) (head k) ((tail k + 1) mod BUF_SIZE)) = count k + 1) as Hc'.
    { unfold count in *. cbn [head tail]. unfold BUF_SIZE in *. dlia. }
    unfold keys at 1. rewrite Hc', seqZ_app by lia. cbn [buf head]. rewrite fmap_app. f_equal.
    + unfold keys. apply list_fmap_ext. intros i x Hx. apply lookup_seqZ in Hx as [-> Hi].
      rewrite list_lookup_insert_ne; [done|]. intros Eq. apply Z2Nat.inj in Eq; unfold count, BUF_SIZE in *; dlia.
    + rewrite Z.add_0_l. rewrite seqZ_1. cbn [fmap list_fmap]. f_equal.
      replace ((head k + count k) mod BUF_SIZE) with (tail k) by (unfold count, BUF_SIZE in *; dlia).
      rewrite list_lookup_insert_eq; [done|]. rewrite Hl. lia.
Qed.

Lemma pop_spec k : kb_wf k →
  wp pop k (λ r k', kb_wf k' ∧ match keys k with [] => r = None ∧ k' = k | c :: l => r = Some c ∧ keys k' = l end).
Proof.
  intros (Hl & Hh & Ht). unfold wp, pop. destruct (Z.eqb_spec (head k) (tail k)) as [E|E].
  - assert (count k = 0) as Hc by (unfold count; rewrite E; by rewrite Z.sub_diag).
    unfold keys. rewrite Hc. split; [by split|done].
  - assert (0 < count k) as Hpos by (unfold count, BUF_SIZE in *; dlia).
    destruct (idx_ok (buf k) (head k)) as (c & Hi & Hx); [unfold len; rewrite Hl; lia|]. rewrite Hi. cbn [mbind outcome_bind].
    split; [unfold kb_wf; cbn [buf head tail]; split; [done|]; split; [by apply Z.mod_pos_bound|done]|].
    unfold keys at 1. replace (count k) with (1 + (count k - 1)) by lia. rewrite seqZ_app by lia.
    rewrite fmap_app. simpl. split.
    + do 2 f_equal. rewrite Z.add_0_r, Z.mod_small by done. by rewrite Hx.
    + unfold keys. cbn [buf head].
      assert (count (mkKeyBuf (buf k) ((head k + 1) mod BUF_SIZE) (tail k)) = count k - 1) as ->.
      { unfold count. cbn [head tail]. unfold BUF_SIZE in *. dlia. }
      apply list_eq_same_length with (n := Z.to_nat (count k - 1)); [by rewrite length_fmap, length_seqZ..|].
      intros i x y Hi' Hx' Hy'. apply list_lookup_fmap_Some in Hx' as (a & -> & Ha).
      apply list_lookup_fmap_Some in Hy' as (b & -> & Hb). apply lookup_seqZ in Ha as [-> _], Hb as [-> _].
      do 3 f_equal. unfold BUF_SIZE. dlia.
Qed.

Lemma keybuf_new_wf : kb_wf keybuf_new ∧ keys keybuf_new = [].
Proof. split; [|done]. split; [done|]. by split. Qed.

(** ** The abstract key queue

    What the rest of the kernel relies on: a FIFO of at most 63 keys that drops
    what arrives while it is full. *)

Inductive key_op := Push (c : Z) | Pop.

Definition queue_step (o : key_op) (q : list Z) : option Z * list Z :=
  match o, q with
  | Push c, q => (None, if len q <? BUF_SIZE - 1 then q ++ [c] else q)
  | Pop, [] => (None, [])
  | Pop, c :: q => (Some c, q)
  end.

Fixpoint run_queue (os : list key_op) (q : list Z) : list (option Z) * list Z :=
  match os with
  | [] => ([], q)
  | o :: os => let '(r, q) := queue_step o q in let '(rs, q) := run_queue os q in (r :: rs, q)
  end.

Definition ring_step (o : key_op) : ST KeyBuf (option Z) :=
  match o with Push c => push c ≫= λ _, mret None | Pop => pop end.

Fixpoint run_ring (os : list key_op) : ST KeyBuf (list (option Z)) :=
  match os with
  | [] => mret []
  | o :: os => ring_step o ≫= λ r, run_ring os ≫= λ rs, mret (r :: rs)
  end.

Lemma ring_step_spec o k : kb_wf k →
  wp (ring_step o) k (λ r k', kb_wf k' ∧ queue_step o (keys k) = (r, keys k')).
Proof.
  intros Hwf. destruct o as [c|]; simpl.
  - wp_step (push_spec k c Hwf). intros ? k' [Hwf' H]. apply wp_ret. by rewrite H.
  - eapply wp_mono; [apply (pop_spec k Hwf)|]. intros r k' [Hwf' H]. split; [done|].
    destruct (keys k) as [|c l] eqn:E; destruct H as [-> H2]; subst; by rewrite ?E, ?H2.
Qed.

Lemma run_ring_spec os k : kb_wf k →
  wp (run_ring os) k (λ rs k', kb_wf k' ∧ run_queue os (keys k) = (rs, keys k')).
Proof.
  revert k. induction os as [|o os IH]; intros k Hwf; [by split|]. simpl.
  wp_step (ring_step_spec o k Hwf). intros r k1 [Hwf1 ->].
  wp_step (IH k1 Hwf1). intros rs k2 [Hwf2 ->]. apply wp_ret. done.
Qed.

(** From the empty ring, any interleaving of [push] (the poller) and [pop]
    (the readers) never indexes out of range and answers exactly as a FIFO that
    holds at most 63 keys and drops what arrives while it is full; the ring keeps
    its invariant and its contents are the queue's. *)
Theorem keybuf_refines_queue os :
  wp (run_ring os) keybuf_new (λ rs k', kb_wf k' ∧ run_queue os [] = (rs, keys k')).
Proof. destruct keybuf_new_wf as [H <-]. by apply run_ring_spec. Qed.

(** ** Decoding *)

Definition letter_ok (shift caps ctrl : bool) (sc c : Z) : bool :=
  negb (is_ascii_lowercase c)
  || (decode_plain shift caps ctrl sc =?
      (if xorb shift caps then c - 32 else if ctrl then c - 0x60 else c)).

Definition symbol_ok (shift caps ctrl : bool) (sc c : Z) : bool :=
  is_ascii_lowercase c || is_fkey sc
  || (decode_plain shift caps ctrl sc =? default 0 ((if shift then SHIFT_MAP else SCANCODE_MAP) !! Z.to_nat sc)).

Lemma decode_table shift caps ctrl :
  forallb (λ p, letter_ok shift caps ctrl (Z.of_nat p.1) p.2 && symbol_ok shift caps ctrl (Z.of_nat p.1) p.2)
    (zip (seq 0 58) SCANCODE_MAP) = true.
Proof. by destruct shift, caps, ctrl. Qed.

(** What a plain make code decodes to, for every key of the table and every
    modifier state. A letter is upper case exactly when one of Shift and Caps Lock
    is active, otherwise Ctrl turns it into its control code and without Ctrl it is
    itself; Caps Lock and Ctrl do not affect any other key, for which Shift selects
    the table. *)
Theorem decode_plain_correct shift caps ctrl sc c (Hsc : SCANCODE_MAP !! sc = Some c) :
  decode_plain shift caps ctrl (Z.of_nat sc) =
    if is_ascii_lowercase c
    then (if xorb shift caps then c - 32 else if ctrl then c - 0x60 else c)
    else default 0 ((if shift then SHIFT_MAP else SCANCODE_MAP) !! sc).
Proof.
  pose proof (lookup_lt_Some _ _ _ Hsc) as Hlt. change (length SCANCODE_MAP) with 58%nat in Hlt.
  pose proof (decode_table shift caps ctrl) as H. rewrite forallb_forall in H.
  specialize (H (sc, c)). cbn [fst snd] in H. rewrite andb_true_iff in H.
  destruct H as [H1 H2].
  { apply list_elem_of_In, list_elem_of_lookup. exists sc. rewrite lookup_zip_with, lookup_seq_lt, Hsc by done. done. }
  unfold letter_ok, symbol_ok in *. destruct (is_ascii_lowercase c); simpl in *; [lia|].
  rewrite Nat2Z.id in H2. destruct (is_fkey (Z.of_nat sc)) eqn:E; simpl in H2; [|lia].
  unfold is_fkey in E. lia.
Qed.

(** Witness: the key Q (scancode 16). *)
Lemma decode_plain_correct_witness :
  decode_plain true false false 16 = 0x51 ∧ decode_plain false false true 16 = 0x11.
Proof.
  split; [rewrite (decode_plain_correct true false false 16 0x71 eq_refl : decode_plain _ _ _ 16 = _)
         |rewrite (decode_plain_correct false false true 16 0x71 eq_refl : decode_plain _ _ _ 16 = _)]; reflexivity.
Defined.

(** ** Draining the controller *)

Definition kbd_wf (k : kbd) : Prop := kb_wf (KEYBUF k).

(** Caps Lock and Shift as functions of the scancodes seen. *)
Definition caps_after (b : bool) (sc : Z) : bool := if sc =? 0x3A then negb b else b.
Definition shift_after (b : bool) (sc : Z) : bool :=
  if (sc =? 0x2A) || (sc =? 0x36) then true else if (sc =? 0xAA) || (sc =? 0xB6) then false else b.

Definition scan_split_ok (sc : Z) : bool :=
  let release := negb (Z.land sc 0x80 =? 0) in
  let base_sc := Z.land sc 0x7F in
  (Z.eqb sc (base_sc + (if release then 0x80 else 0))) && (base_sc <? 0x80) && (0 <=? base_sc).

Lemma scan_split sc : is_byte sc →
  sc = Z.land sc 0x7F + (if negb (Z.land sc 0x80 =? 0) then 0x80 else 0) ∧ 0 ≤ Z.land sc 0x7F < 0x80.
Proof.
  intros Hsc. assert (forallb (λ n, scan_split_ok (Z.of_nat n)) (seq 0 256) = true) as H by reflexivity.
  rewrite forallb_forall in H. specialize (H (Z.to_nat sc)). unfold is_u in Hsc.
  rewrite Z2Nat.id in H by lia. unfold scan_split_ok in H.
  assert (In (Z.to_nat sc) (seq 0 256)) as Hin by (apply in_seq; lia). specialize (H Hin). lia.
Qed.

Lemma push_key_spec ch k : kbd_wf k →
  wp (push_key ch) k (λ _ k', kbd_wf k' ∧ CAPS k' = CAPS k ∧ SHIFT k' = SHIFT k).
Proof.
  intros Hwf. destruct (wp_inv _ _ _ (push_spec (KEYBUF k) ch Hwf)) as (u & b & E & Hb & _).
  unfold wp, push_key. rewrite E. done.
Qed.

Lemma handle_scancode_spec sc k : is_byte sc → kbd_wf k →
  wp (handle_scancode sc) k (λ _ k', kbd_wf k' ∧ CAPS k' = caps_after (CAPS k) sc ∧ SHIFT k' = shift_after (SHIFT k) sc).
Proof.
  intros Hb Hwf. destruct (scan_split sc Hb) as [Hs Hr]. unfold handle_scancode, caps_after, shift_after.
  destruct (Z.eqb_spec sc 0xE0) as [->|]; [done|]. unfold wp. cbv beta zeta.
  assert (∀ ch, wp (λ k', if negb (ch =? 0) then push_key ch k' else Ok (tt, k')) (set_extended false k)
    (λ _ k', kbd_wf k' ∧ CAPS k' = CAPS k ∧ SHIFT k' = SHIFT k)) as Hpush.
  { intros ch. unfold wp at 1. destruct (ch =? 0); simpl negb; cbv iota; [done|].
    by apply (push_key_spec ch (set_extended false k)). }
  match goal with |- context [push_key ?c] => specialize (Hpush c); generalize dependent c end; intros ch Hpush.
  remember (Z.land sc 0x7F) as base eqn:Hbase. clear Hbase. unfold wp in Hpush.
  destruct (Z.land sc 0x80 =? 0); simpl negb in *; cbv iota in *; subst sc;
    repeat (match goal with |- context [?a =? ?b] => destruct (Z.eqb_spec a b); try lia end; simpl orb; simpl andb; cbv iota);
    try done; try exact Hpush.
Qed.

(** The keyboard bytes before the first mouse byte. *)
Fixpoint kbd_prefix (q : outbuf) : list Z :=
  match q with (false, b) :: q => b :: kbd_prefix q | _ => [] end.
Fixpoint kbd_rest (q : outbuf) : outbuf :=
  match q with (false, _) :: q => kbd_rest q | q => q end.
Fixpoint mouse_prefix (q : outbuf) : list Z :=
  match q with (true, b) :: q => b :: mouse_prefix q | _ => [] end.
Fixpoint mouse_rest (q : outbuf) : outbuf :=
  match q with (true, _) :: q => mouse_rest q | q => q end.

(** Polling the keyboard terminates within one turn per pending byte, never
    panics, consumes exactly the keyboard bytes before the first mouse byte and
    leaves the rest for the mouse; Caps Lock has then been toggled once per press
    of its key, and Shift is what the last Shift event made it. *)
Theorem kbd_poll_correct q k fuel (Hq : Forall (λ p, is_byte p.2) q) (Hk : kbd_wf k)
    (Hf : (length q < fuel)%nat) :
  wp (kbd_poll fuel q) k (λ q' k', q' = kbd_rest q ∧ kbd_wf k' ∧
    CAPS k' = fold_left caps_after (kbd_prefix q) (CAPS k) ∧
    SHIFT k' = fold_left shift_after (kbd_prefix q) (SHIFT k)).
Proof.
  revert q k Hq Hk Hf. induction fuel as [|fuel IH]; intros q k Hq Hk Hf; [lia|].
  destruct q as [|[[] b] q]; [done|done|]. apply Forall_cons_iff in Hq as [Hb Hq]. cbn [snd] in Hb.
  cbn [kbd_poll kbd_rest kbd_prefix fold_left]. change (status ((false, b) :: q)) with 1. simpl.
  wp_step (handle_scancode_spec b k Hb Hk). intros ? k1 (Hk1 & <- & <-). apply IH; [done|done|simpl in Hf; lia].
Qed.

(** Witness: Shift down, Caps pressed and released, then a mouse byte. *)
Lemma kbd_poll_correct_witness :
  wp (kbd_poll 5 [(false, 0x2A); (false, 0x3A); (false, 0xBA); (true, 8)]) kbd_new
    (λ q' k', q' = [(true, 8)] ∧ CAPS k' = true ∧ SHIFT k' = true).
Proof.
  eapply wp_mono; [apply kbd_poll_correct|].
  - repeat constructor; unfold is_u; simpl; lia.
  - exact (proj1 keybuf_new_wf).
  - simpl. lia.
  - intros q' k' (-> & _ & -> & ->). repeat split.
Defined.

(** ** The mouse *)

Definition signed9 (neg : bool) (b : Z) : Z := if neg then b - 256 else b.

Lemma accel_range d : -256 ≤ d ≤ 255 → -768 ≤ accel d ≤ 765 ∧ (accel d = d ∨ accel d = 2 * d ∨ accel d = 3 * d).
Proof. intros. unfold accel, i32. repeat case_match; dlia. Qed.

Definition on_screen (w h : Z) (m : MouseState) : Prop := 0 ≤ mx m < w ∧ 0 ≤ my m < h.
Definition screen_ok (w h : Z) : Prop := 0 < w < 2 ^ 30 ∧ 0 < h < 2 ^ 30.

(** Two's-complement reading of the sign bit [k] of the flags and a data byte. *)
Definition delta (flags k b : Z) : Z := signed9 (Z.testbit flags k) b.

Lemma handle_packet m f b1 b2 :
  cycle m = 0 → length (packet m) = 3%nat → Z.testbit f 3 = true →
  handle_ps2_byte b2 (handle_ps2_byte b1 (handle_ps2_byte f m)) =
    mkMouse (i32 (mx m + accel (delta f 4 b1))) (i32 (my m - accel (delta f 5 b2))) (Z.land f 7) 0 [f; b1; b2].
Proof.
  intros Hc Hp H3. destruct m as [x y bt c p]. cbn [cycle packet mx my] in *. subst c.
  destruct p as [|p0 [|p1 [|p2 []]]]; try done.
  unfold handle_ps2_byte at 3. cbn [cycle]. change 0x08 with (bit 3). rewrite land_bit_eqb, H3 by done. simpl negb. cbv iota.
  cbn. unfold handle_ps2_byte. cbn. change 16 with (bit 4). change 32 with (bit 5). rewrite !land_bit_eqb by done.
  rewrite !negb_involutive. unfold delta, signed9. by destruct (Z.testbit f 4), (Z.testbit f 5); rewrite ?Z.sub_0_r.
Qed.

Lemma handle_resync m b : cycle m = 0 → Z.testbit b 3 = false → handle_ps2_byte b m = m.
Proof.
  intros Hc H3. unfold handle_ps2_byte. rewrite Hc. change 0x08 with (bit 3). by rewrite land_bit_eqb, H3.
Qed.

Lemma mouse_poll_fold fuel q m : (length q < fuel)%nat →
  mouse_poll fuel q m = (mouse_rest q, fold_left (λ m b, handle_ps2_byte b m) (mouse_prefix q) m).
Proof.
  revert q m. induction fuel as [|fuel IH]; intros q m Hf; [lia|].
  destruct q as [|[[] b] q]; [done| |done]. cbn [mouse_poll mouse_rest mouse_prefix fold_left].
  change (status ((true, b) :: q)) with 0x21. simpl. apply IH. simpl in Hf. lia.
Qed.

Lemma resync_prefix js m : cycle m = 0 → Forall (λ b, Z.testbit b 3 = false) js →
  fold_left (λ m b, handle_ps2_byte b m) js m = m.
Proof.
  intros Hc. induction 1 as [|b js Hb Hjs IH]; [done|]. cbn [fold_left]. by rewrite handle_resync.
Qed.

Lemma clampz_ok z lo hi : lo ≤ hi → clampz z lo hi = Ok (Z.max lo (Z.min z hi)).
Proof. intros. unfold clampz. destruct (Z.ltb_spec hi lo); [lia|]. f_equal. repeat case_match; lia. Qed.

Lemma clamp_spec w h m : screen_ok w h →
  clamp w h m = Ok (tt, mkMouse (Z.max 0 (Z.min (mx m) (w - 1))) (Z.max 0 (Z.min (my m) (h - 1)))
                          (buttons m) (cycle m) (packet m)).
Proof.
  intros [Hw Hh]. unfold clamp. rewrite !i32_small, !clampz_ok by lia. done.
Qed.

(** Draining the mouse after garbage: bytes without the sync bit are skipped,
    a following packet moves the pointer by its two 9-bit two's-complement deltas
    (accelerated, y pointing up), sets the three buttons and leaves the decoder in
    sync, and clamping then keeps the pointer on the screen; keyboard bytes behind
    the packet stay queued. *)
Theorem mouse_packet_correct w h m junk f b1 b2 rest (Hwh : screen_ok w h)
    (Hm : on_screen w h m) (Hc : cycle m = 0) (Hp : length (packet m) = 3%nat)
    (Hj : Forall (λ b, Z.testbit b 3 = false) junk) (Hf : Z.testbit f 3 = true)
    (Hb : is_byte b1 ∧ is_byte b2) :
  let q := ((true,.) <$> junk) ++ [(true, f); (true, b1); (true, b2)] ++ ((false,.) <$> rest) in
  let '(q', m') := mouse_poll (S (length q)) q m in
  q' = ((false,.) <$> rest) ∧
  wp (clamp w h) m' (λ _ s, on_screen w h s ∧ cycle s = 0 ∧ buttons s = Z.land f 7 ∧
    mx s = Z.max 0 (Z.min (mx m + accel (delta f 4 b1)) (w - 1)) ∧
    my s = Z.max 0 (Z.min (my m - accel (delta f 5 b2)) (h - 1))).
Proof.
  cbv zeta. rewrite mouse_poll_fold by lia.
  assert (∀ js q, mouse_prefix (((true,.) <$> js) ++ q) = js ++ mouse_prefix q ∧
                  mouse_rest (((true,.) <$> js) ++ q) = mouse_rest q) as Hpre.
  { intros js q. induction js as [|j js [IH1 IH2]]; [done|]. cbn. by rewrite IH1, IH2. }
  destruct (Hpre junk ([(true, f); (true, b1); (true, b2)] ++ ((false,.) <$> rest))) as [-> ->].
  assert (mouse_prefix ((false,.) <$> rest) = [] ∧ mouse_rest ((false,.) <$> rest) = ((false,.) <$> rest)) as [Hr1 Hr2]
    by (by destruct rest). cbn [app mouse_prefix mouse_rest]. rewrite Hr1, Hr2. split; [done|].
  rewrite fold_left_app, (resync_prefix junk m) by done. cbn [fold_left]. rewrite handle_packet by done.
  destruct Hwh as [Hw Hh], Hm as [Hx Hy], Hb as [Hb1 Hb2]. unfold is_u in *.
  assert (∀ k b, 0 ≤ b < 2 ^ 8 → -256 ≤ delta f k b ≤ 255) as Hd by (intros; unfold delta, signed9; case_match; lia).
  destruct (accel_range _ (Hd 4 b1 Hb1)) as [Ha1 _], (accel_range _ (Hd 5 b2 Hb2)) as [Ha2 _].
  rewrite !i32_small by lia. unfold wp. rewrite clamp_spec by done. cbn [mx my buttons cycle].
  unfold on_screen. cbn [mx my]. repeat split; lia.
Qed.

(** Witness: two stray bytes, then a packet moving right and down with the left button. *)
Lemma mouse_packet_correct_witness :
  let '(q', m') := mouse_poll 7 [(true, 1); (true, 2); (true, 0x29); (true, 4); (true, 0xF0); (false, 30)] mouse_new in
  q' = [(false, 30)] ∧ wp (clamp 800 600) m' (λ _ s, buttons s = 1 ∧ mx s = 404 ∧ my s = 348).
Proof.
  pose proof (mouse_packet_correct 800 600 mouse_new [1; 2] 0x29 4 0xF0 [30]) as H.
  cbv zeta in H. destruct (mouse_poll _ _ _) as [q' m'] eqn:E in H. cbn [fmap list_fmap app length] in E. rewrite E.
  destruct H as [-> H].
  - by repeat split.
  - by repeat split.
  - reflexivity.
  - reflexivity.
  - by repeat constructor.
  - reflexivity.
  - by repeat split.
  - split; [reflexivity|]. eapply wp_mono; [exact H|]. intros _ s (_ & _ & -> & -> & ->). by vm_compute.
Defined.
