(* ===== verification/Scheduler.v ===== *)
(** The task scheduler ([kernel/src/scheduler.rs]) with the processor state it
    switches: callee-saved registers and stack words, CR3, the system-call entry
    stack ([syscall.rs]: [PERCPU]) and the interrupt stack ([gdt.rs]: [TSS.rsp0]).

    A context switch returns in another task, at the place where that task gave
    up the processor. That place is recorded per task ([konts]); resuming a task
    runs the code behind its call of [context_switch].

    Here a call is one step; [Preempt] runs the calls statement by statement. *)

From stdpp Require Import prelude list gmap numbers strings.
From S2P Require Import Prelude.

Local Open Scope Z_scope.

Definition STACK_SIZE : Z := 64 * 1024.
Definition KSTACK_SIZE : Z := 4 * 4096.

Inductive TaskState := Running | Ready | Blocked | Dead.

#[global] Instance TaskState_eq_dec : EqDecision TaskState.
Proof. solve_decision. Defined.

Record Task := mkTask {
  id : Z; name : string; state : TaskState; wake_at : Z; waiting_irq : option Z;
  cr3 : Z; rsp : Z; kstack_top : Z }.

Record Scheduler := mkSched { tasks : list Task; current : nat }.

Definition sched_empty : Scheduler := mkSched [] 0.

Definition set_state (st : TaskState) (t : Task) : Task :=
  mkTask (id t) (name t) st (wake_at t) (waiting_irq t) (cr3 t) (rsp t) (kstack_top t).
Definition set_wake (w : Z) (t : Task) : Task :=
  mkTask (id t) (name t) (state t) w (waiting_irq t) (cr3 t) (rsp t) (kstack_top t).
Definition set_irq (v : option Z) (t : Task) : Task :=
  mkTask (id t) (name t) (state t) (wake_at t) v (cr3 t) (rsp t) (kstack_top t).
Definition set_cr3 (c : Z) (t : Task) : Task :=
  mkTask (id t) (name t) (state t) (wake_at t) (waiting_irq t) c (rsp t) (kstack_top t).
Definition set_rsp (r : Z) (t : Task) : Task :=
  mkTask (id t) (name t) (state t) (wake_at t) (waiting_irq t) (cr3 t) r (kstack_top t).

Definition add (t : Task) (s : Scheduler) : Scheduler := mkSched (tasks s ++ [t]) (current s).

(** [self.tasks[i]], panicking out of range. *)
Definition task_at (s : Scheduler) (i : nat) : outcome Task :=
  unwrap "index out of bounds" (tasks s !! i).

Definition upd_task (i : nat) (f : Task → Task) : ST Scheduler unit := λ s,
  t ← task_at s i; Ok (tt, mkSched (<[i := f t]> (tasks s)) (current s)).

(** ** Choosing the next task *)

Definition expired (now : Z) (t : Task) : bool :=
  bool_decide (state t = Blocked) && bool_decide (waiting_irq t = None) && (wake_at t <=? now).

Definition wake_sleepers (now : Z) (ts : list Task) : list Task :=
  (λ t, if expired now t then set_state Ready t else t) <$> ts.

Fixpoint scan (s : Scheduler) (fuel next : nat) : outcome nat :=
  match fuel with
  | O => Ok next
  | S fuel =>
    t ← task_at s next;
    if bool_decide (state t = Ready) then Ok next
    else scan s fuel ((next + 1) mod length (tasks s))
  end.

(** The first component stands for the pointer to the outgoing task's [rsp]. *)
Definition next (now : Z) : ST Scheduler (option (nat * Z * Z * Z)) := λ s,
  let n := length (tasks s) in
  if (n <? 2)%nat then Ok (None, s)
  else
    let s := mkSched (wake_sleepers now (tasks s)) (current s) in
    nx ← scan s n ((current s + 1) mod n);
    t ← task_at s nx;
    if negb (bool_decide (state t = Ready)) then Ok (None, s)
    else if (nx =? current s)%nat then Ok (None, s)
    else
      c ← task_at s (current s);
      '(_, s) ← (if bool_decide (state c = Running) then upd_task (current s) (set_state Ready) s else Ok (tt, s));
      '(_, s) ← upd_task nx (set_state Running) s;
      t ← task_at s nx;
      Ok (Some (current s, rsp t, cr3 t, kstack_top t), mkSched (tasks s) nx).

(** ** The processor *)

Record regs := mkRegs { rbx : Z; rbp : Z; r12 : Z; r13 : Z; r14 : Z; r15 : Z; rsp_r : Z; rip : Z }.

(** 64-bit words of stack memory, by address. *)
Abbreviation stack := (gmap Z Z).
Definition load (m : stack) (a : Z) : Z := default 0 (m !! a).

(** Where a task that is not running resumes. *)
Inductive kont :=
| KFresh                      (* first run: [task_trampoline] *)
| KTick                       (* in [tick], preempted by the timer *)
| KSleep                      (* in [sleep_ms] *)
| KIrq (saved_user_rsp : Z)   (* in [block_on_irq] *)
| KGone.                      (* in [exit_current]: never resumed *)

Record machine := mkMachine {
  SCHEDULER : Scheduler;
  TICK_COUNT : Z;
  NEXT_TASK_ID : Z;
  cpu : regs;
  mem : stack;
  CR3 : Z;
  kernel_stack : Z;      (* PERCPU.kernel_stack *)
  user_rsp : Z;          (* PERCPU.user_rsp *)
  rsp0 : Z;              (* TSS.rsp0 *)
  gs_percpu : bool;      (* GS.base = &PERCPU: between the two swapgs of a system call *)
  konts : list kont;
  (* ghost: for each task, the user RSP its pending system call entered with *)
  in_syscall : list (option Z);
  (* ghost: number of task switches so far *)
  switches : nat }.

Definition with_sched (s : Scheduler) (m : machine) : machine :=
  mkMachine s (TICK_COUNT m) (NEXT_TASK_ID m) (cpu m) (mem m) (CR3 m) (kernel_stack m) (user_rsp m) (rsp0 m)
    (gs_percpu m) (konts m) (in_syscall m) (switches m).

(** Run a scheduler operation under the lock. *)
Definition locked {A} (c : ST Scheduler A) : ST machine A := λ m,
  '(a, s) ← c (SCHEDULER m); Ok (a, with_sched s m).

Definition current_task_index : ST machine nat := gets (λ m, current (SCHEDULER m)).

Definition set_current_cr3 (c : Z) : ST machine unit :=
  cur ← current_task_index; locked (upd_task cur (set_cr3 c)).

Definition use_kstack (top : Z) : ST machine unit := modify (λ m,
  mkMachine (SCHEDULER m) (TICK_COUNT m) (NEXT_TASK_ID m) (cpu m) (mem m) (CR3 m) top (user_rsp m) top
    (gs_percpu m) (konts m) (in_syscall m) (switches m)).

Definition write_cr3 (phys : Z) : ST machine unit := modify (λ m,
  mkMachine (SCHEDULER m) (TICK_COUNT m) (NEXT_TASK_ID m) (cpu m) (mem m) phys (kernel_stack m) (user_rsp m) (rsp0 m)
    (gs_percpu m) (konts m) (in_syscall m) (switches m)).

Definition swapgs : ST machine unit := modify (λ m,
  mkMachine (SCHEDULER m) (TICK_COUNT m) (NEXT_TASK_ID m) (cpu m) (mem m) (CR3 m) (kernel_stack m) (user_rsp m) (rsp0 m)
    (negb (gs_percpu m)) (konts m) (in_syscall m) (switches m)).

Definition set_user_rsp (v : Z) : ST machine unit := modify (λ m,
  mkMachine (SCHEDULER m) (TICK_COUNT m) (NEXT_TASK_ID m) (cpu m) (mem m) (CR3 m) (kernel_stack m) v (rsp0 m)
    (gs_percpu m) (konts m) (in_syscall m) (switches m)).

Definition get_user_rsp : ST machine Z := gets user_rsp.

(** The call pushes the return address [rip]; six pushes; [mov [rdi], rsp] yields
    the saved stack pointer. *)
Definition save_frame (r : regs) (m : stack) : Z * stack :=
  let a := rsp_r r in
  (u64 (a - 56),
   <[u64 (a - 56) := r15 r]> (<[u64 (a - 48) := r14 r]> (<[u64 (a - 40) := r13 r]>
   (<[u64 (a - 32) := r12 r]> (<[u64 (a - 24) := rbp r]> (<[u64 (a - 16) := rbx r]>
   (<[u64 (a - 8) := rip r]> m))))))).

(** [mov rsp, rsi], six pops and [ret]. *)
Definition load_frame (sp : Z) (m : stack) : regs :=
  mkRegs (load m (u64 (sp + 40))) (load m (u64 (sp + 32))) (load m (u64 (sp + 24)))
         (load m (u64 (sp + 16))) (load m (u64 (sp + 8))) (load m sp)
         (u64 (sp + 56)) (load m (u64 (sp + 48))).

(** What the resumed task does behind its own call of [context_switch]; a fresh
    task starts in [task_trampoline] (EOI, [sti], jump to the entry in rbx). *)
Definition resume (k : kont) : ST machine unit :=
  match k with
  | KIrq saved => swapgs ≫= λ _, set_user_rsp saved
  | _ => mret tt
  end.

Definition context_switch (old : nat) (new_rsp : Z) (site : kont) : ST machine unit := λ m,
  let '(sp, mem') := save_frame (cpu m) (mem m) in
  '(_, s) ← upd_task old (set_rsp sp) (SCHEDULER m);
  k ← unwrap "no task" (konts m !! current s);
  resume k (mkMachine s (TICK_COUNT m) (NEXT_TASK_ID m) (load_frame new_rsp mem') mem' (CR3 m) (kernel_stack m)
    (user_rsp m) (rsp0 m) (gs_percpu m) (<[old := site]> (konts m)) (in_syscall m) (S (switches m))).

(** ** Operations *)

(** [Task::new]; [stk] and [kstk] are the addresses of the two fresh buffers,
    [tramp] that of [task_trampoline], [root] the CR3 register. *)
Definition task_new (i : Z) (nm : string) (tramp entry stk kstk root : Z) (m : stack) : Task * stack :=
  let stack_top := stk + STACK_SIZE in
  let sp := Z.ldiff (stack_top - 56) 0xF in
  (mkTask i nm Ready 0 None root sp (kstk + KSTACK_SIZE),
   <[sp + 48 := tramp]> (<[sp + 40 := entry]> (<[sp + 32 := 0]> (<[sp + 24 := 0]>
   (<[sp + 16 := 0]> (<[sp + 8 := 0]> (<[sp := 0]> m))))))).

Fixpoint find_dead (ts : list Task) : option nat :=
  match ts with
  | [] => None
  | t :: ts => if bool_decide (state t = Dead) then Some O else S <$> find_dead ts
  end.

Definition spawn (nm : string) (tramp entry stk kstk : Z) : ST machine Z := λ m,
  let i := NEXT_TASK_ID m in
  let '(t, mem') := task_new i nm tramp entry stk kstk (CR3 m) (mem m) in
  let s := SCHEDULER m in
  let '(ts, ks, gs) :=
    match find_dead (tasks s) with
    | Some slot => (<[slot := t]> (tasks s), <[slot := KFresh]> (konts m), <[slot := None]> (in_syscall m))
    | None => (tasks s ++ [t], konts m ++ [KFresh], in_syscall m ++ [None])
    end in
  Ok (i, mkMachine (mkSched ts (current s)) (TICK_COUNT m) (u64 (i + 1)) (cpu m) mem' (CR3 m) (kernel_stack m)
           (user_rsp m) (rsp0 m) (gs_percpu m) ks gs (switches m)).

(** The three statements every switch site shares. *)
Definition switch_to (sw : nat * Z * Z * Z) (site : kont) : ST machine unit :=
  let '(old, new_rsp, new_cr3, new_kstack_top) := sw in
  use_kstack new_kstack_top ≫= λ _, write_cr3 new_cr3 ≫= λ _, context_switch old new_rsp site.

(** [exit_current]; without another task the processor halts ([Ok] in place). *)
Definition exit_current : ST machine unit :=
  cur ← current_task_index;
  locked (upd_task cur (set_state Dead)) ≫= λ _,
  now ← gets TICK_COUNT;
  sw ← locked (next now);
  match sw with Some sw => switch_to sw KGone | None => mret tt end.

Definition sleep_ms (ms : Z) : ST machine unit :=
  let ticks := Z.max (ms / 10) 1 in
  cur ← current_task_index;
  now ← gets TICK_COUNT;
  locked (upd_task cur (set_wake (u64 (now + ticks)))) ≫= λ _,
  locked (upd_task cur (set_state Blocked)) ≫= λ _,
  sw ← locked (next now);
  match sw with
  | Some sw => switch_to sw KSleep
  | None => cur ← current_task_index; locked (upd_task cur (set_state Running))
  end.

Definition block_on_irq (vector : Z) : ST machine unit :=
  cur ← current_task_index;
  locked (upd_task cur (set_irq (Some vector))) ≫= λ _,
  locked (upd_task cur (set_wake U64_MAX)) ≫= λ _,
  locked (upd_task cur (set_state Blocked)) ≫= λ _,
  now ← gets TICK_COUNT;
  sw ← locked (next now);
  match sw with
  | Some sw =>
    saved ← get_user_rsp;
    swapgs ≫= λ _, switch_to sw (KIrq saved)
  | None =>
    cur ← current_task_index;
    locked (upd_task cur (set_state Running)) ≫= λ _, locked (upd_task cur (set_irq None))
  end.

Definition waits_for (vector : Z) (t : Task) : bool :=
  bool_decide (state t = Blocked) && bool_decide (waiting_irq t = Some vector).

Definition wake_irq_waiters (vector : Z) : ST machine unit :=
  locked (modify (λ s, mkSched
    ((λ t, if waits_for vector t then set_state Ready (set_irq None t) else t) <$> tasks s) (current s))).

(** [apic::timer_vector()] *)
Definition timer_vector : Z := 0x20.

Definition tick : ST machine unit :=
  modify (λ m, mkMachine (SCHEDULER m) (u64 (TICK_COUNT m + 1)) (NEXT_TASK_ID m) (cpu m) (mem m) (CR3 m)
    (kernel_stack m) (user_rsp m) (rsp0 m) (gs_percpu m) (konts m) (in_syscall m) (switches m)) ≫= λ _,
  wake_irq_waiters timer_vector ≫= λ _,
  now ← gets TICK_COUNT;
  sw ← locked (next now);
  match sw with Some sw => switch_to sw KTick | None => mret tt end.

(** ** Choosing the next task: lemmas *)

Definition ready_at (ts : list Task) (i : nat) : Prop := ∃ t, ts !! i = Some t ∧ state t = Ready.

Lemma scan_spec s fuel c d0 : let n := length (tasks s) in (0 < n)%nat →
  ∃ d, scan s fuel ((c + d0) mod n) = Ok ((c + d) mod n)%nat ∧ (d0 ≤ d ≤ d0 + fuel)%nat ∧
    (∀ e, (d0 ≤ e < d)%nat → ¬ ready_at (tasks s) ((c + e) mod n)) ∧
    ((d < d0 + fuel)%nat → ready_at (tasks s) ((c + d) mod n)).
Proof.
  cbv zeta. intros Hn. revert d0. induction fuel as [|fuel IH]; intros d0.
  { exists d0. split_and!; [done|lia|lia|intros; lia|lia]. }
  cbn [scan]. unfold task_at.
  destruct (lookup_lt_is_Some_2 (tasks s) ((c + d0) mod length (tasks s))) as [t Ht]; [apply Nat.mod_upper_bound; lia|].
  rewrite Ht. cbn [unwrap mbind outcome_bind]. case_bool_decide as Hr.
  - exists d0. split_and!; [done|lia|lia|intros; lia|]. intros _. by exists t.
  - rewrite Nat.Div0.add_mod_idemp_l, <- Nat.add_assoc. destruct (IH (d0 + 1)%nat) as (d & E & Hd & Hno & Hyes).
    exists d. split_and!; [done|lia|lia| |intros; apply Hyes; lia].
    intros e He. destruct (decide (e = d0)) as [->|]; [|apply Hno; lia].
    intros (t' & Ht' & Hr'). naive_solver.
Qed.

Lemma cyc_ne c d n : (c < n)%nat → (0 < d < n)%nat → ((c + d) mod n ≠ c)%nat.
Proof.
  intros Hc Hd. destruct (decide (c + d < n)%nat); [rewrite Nat.mod_small; lia|].
  replace (c + d)%nat with (c + d - n + 1 * n)%nat by lia. rewrite Nat.Div0.mod_add, Nat.mod_small; lia.
Qed.

Lemma cyc_reach c i n : (c < n)%nat → (i < n)%nat → i ≠ c → ∃ d, (0 < d < n)%nat ∧ i = ((c + d) mod n)%nat.
Proof.
  intros Hc Hi Hne. destruct (decide (c < i)%nat).
  - exists (i - c)%nat. split; [lia|]. rewrite Nat.mod_small; lia.
  - exists (i + n - c)%nat. split; [lia|]. replace (c + (i + n - c))%nat with (i + 1 * n)%nat by lia.
    rewrite Nat.Div0.mod_add, Nat.mod_small; lia.
Qed.

Lemma length_wake now ts : length (wake_sleepers now ts) = length ts.
Proof. apply length_fmap. Qed.

(** The outgoing and the incoming task after a switch from [c] to [nx]. *)
Definition swap_states (c nx : nat) (ts : list Task) : list Task :=
  alter (set_state Running) nx (alter (λ t, if bool_decide (state t = Running) then set_state Ready t else t) c ts).

(** [nx] is the first Ready task after [c] in cyclic order. *)
Definition first_ready (ts : list Task) (c nx : nat) : Prop :=
  ∃ d, (0 < d < length ts)%nat ∧ nx = ((c + d) mod length ts)%nat ∧ ready_at ts nx ∧
    ∀ e, (0 < e < d)%nat → ¬ ready_at ts ((c + e) mod length ts).

Definition next_post (now : Z) (s : Scheduler) (r : option (nat * Z * Z * Z)) (s' : Scheduler) : Prop :=
  let ts := if (length (tasks s) <? 2)%nat then tasks s else wake_sleepers now (tasks s) in
  match r with
  | None => s' = mkSched ts (current s) ∧ ∀ i, i ≠ current s → ¬ (ready_at ts i ∧ (2 ≤ length ts)%nat)
  | Some (old, nrsp, ncr3, nk) =>
    old = current s ∧ first_ready ts (current s) (current s') ∧ current s' ≠ current s ∧
    tasks s' = swap_states (current s) (current s') ts ∧
    ∃ t, ts !! current s' = Some t ∧ state t = Ready ∧ nrsp = rsp t ∧ ncr3 = cr3 t ∧ nk = kstack_top t
  end.

Lemma alter_cong (f g : Task → Task) (i : nat) (ts : list Task) t : ts !! i = Some t → f t = g t → alter f i ts = alter g i ts.
Proof.
  intros Ht E. apply list_eq. intros j. destruct (decide (i = j)) as [<-|].
  - rewrite !list_lookup_alter_eq, Ht. cbn. by rewrite E.
  - by rewrite !list_lookup_alter_ne.
Qed.

Lemma alter_same (f : Task → Task) (i : nat) (ts : list Task) t : ts !! i = Some t → f t = t → alter f i ts = ts.
Proof.
  intros Ht E. apply list_eq. intros j. destruct (decide (i = j)) as [<-|].
  - rewrite list_lookup_alter_eq, Ht. cbn. by rewrite E.
  - by rewrite list_lookup_alter_ne.
Qed.

Lemma task_at_some s i t : tasks s !! i = Some t → task_at s i = Ok t.
Proof. unfold task_at. by intros ->. Qed.

Lemma upd_task_alter i f s : (i < length (tasks s))%nat →
  upd_task i f s = Ok (tt, mkSched (alter f i (tasks s)) (current s)).
Proof.
  intros Hi. unfold upd_task, task_at. destruct (lookup_lt_is_Some_2 (tasks s) i Hi) as [t Ht].
  rewrite Ht. cbn. do 3 f_equal. symmetry. apply list_eq. intros j. destruct (decide (i = j)) as [->|].
  - by rewrite list_lookup_alter_eq, Ht, list_lookup_insert_eq.
  - by rewrite list_lookup_alter_ne, list_lookup_insert_ne.
Qed.

Lemma next_spec now s : (current s < length (tasks s))%nat → wp (next now) s (next_post now s).
Proof.
  intros Hc. unfold wp, next. set (n := length (tasks s)) in *.
  unfold next_post. fold n. destruct (Nat.ltb_spec n 2) as [Hn|Hn].
  { split; [by destruct s|]. intros i _ [_ ?]. lia. }
  set (s1 := mkSched (wake_sleepers now (tasks s)) (current s)).
  assert (length (tasks s1) = n) as Hl by apply length_wake.
  destruct (scan_spec s1 n (current s) 1) as (d & E & Hd & Hno & Hyes); [lia|]. rewrite Hl in E, Hno, Hyes.
  change (current s1) with (current s). rewrite E. cbn [mbind outcome_bind].
  assert (∀ i, i ≠ current s → (n ≤ d)%nat → ¬ ready_at (tasks s1) i) as Hnone.
  { intros i Hi Hge Hr. assert (i < n)%nat as Hin by (destruct Hr as (t & Ht & _); apply lookup_lt_Some in Ht; lia).
    destruct (cyc_reach (current s) i n) as (e & He & ->); [done..|]. apply (Hno e); [lia|done]. }
  set (nx := ((current s + d) mod n)%nat) in *.
  assert (nx < n)%nat as Hnx by (apply Nat.mod_upper_bound; lia).
  destruct (lookup_lt_is_Some_2 (tasks s1) nx) as [t Ht]; [lia|]. rewrite (task_at_some s1 nx t Ht). cbn [mbind outcome_bind].
  case_bool_decide as Hr; simpl negb; cbv iota.
  2:{ split; [done|]. intros i Hi [Hri _]. apply (Hnone i); [done| |done].
      destruct (decide (d < n)%nat) as [Hlt|]; [|lia]. destruct Hyes as (t' & Ht' & Hr'); [lia|]. naive_solver. }
  destruct (Nat.eqb_spec nx (current s)) as [Heq|Hne].
  { split; [done|]. intros i Hi [Hri _]. apply (Hnone i); [done| |done].
    destruct (decide (d < n)%nat); [|lia]. by destruct (cyc_ne (current s) d n); [|lia|]. }
  assert (d < n)%nat as Hdn.
  { destruct (decide (d < n)%nat); [done|]. destruct (decide (d = n)) as [->|].
    - destruct Hne. unfold nx. replace (current s + n)%nat with (current s + 1 * n)%nat by lia.
      rewrite Nat.Div0.mod_add. by apply Nat.mod_small.
    - destruct (Hno 1%nat); [lia|]. exists t. split; [|done]. unfold nx in Ht. replace d with (1 + 1 * n)%nat in Ht by lia.
      by rewrite Nat.add_assoc, Nat.Div0.mod_add in Ht. }
  destruct (lookup_lt_is_Some_2 (tasks s1) (current s)) as [c Hcs]; [lia|]. rewrite (task_at_some s1 _ c Hcs). cbn [mbind outcome_bind].
  set (g := λ t, if bool_decide (state t = Running) then set_state Ready t else t).
  assert ((if bool_decide (state c = Running) then upd_task (current s) (set_state Ready) s1 else Ok (tt, s1))
          = Ok (tt, mkSched (alter g (current s) (tasks s1)) (current s))) as ->.
  { case_bool_decide as Hcr.
    - rewrite upd_task_alter by lia. rewrite (alter_cong (set_state Ready) g _ _ _ Hcs); [done|]. unfold g. by rewrite bool_decide_true.
    - rewrite (alter_same g _ _ _ Hcs); [done|]. unfold g. by rewrite bool_decide_false. }
  cbn [mbind outcome_bind]. rewrite upd_task_alter by (cbn [tasks]; rewrite length_alter; lia). cbn [mbind outcome_bind tasks current].
  unfold task_at. cbn [tasks]. rewrite list_lookup_alter_eq, list_lookup_alter_ne, Ht by done. cbn.
  split_and!; [done| |done|done|by exists t].
  exists d. change (length (wake_sleepers now (tasks s))) with (length (tasks s1)). rewrite Hl. split_and!; [lia|lia|done|by exists t|].
  intros e He. apply Hno. lia.
Qed.

(** ** Machine invariant *)

Definition cur_task (m : machine) : option Task := tasks (SCHEDULER m) !! current (SCHEDULER m).
Definition cur_syscall (m : machine) : option Z := default None (in_syscall m !! current (SCHEDULER m)).

(** A task's resumption point matches its pending system call. *)
Definition kont_ok (k : kont) (o : option Z) : Prop :=
  match o with Some u => k = KIrq u | None => ∀ u, k ≠ KIrq u end.

Record sched_ok (s : Scheduler) : Prop := {
  so_cur : (current s < length (tasks s))%nat;
  so_run : ∀ i t, tasks s !! i = Some t → state t = Running → i = current s;
  so_irq : ∀ i t, tasks s !! i = Some t → waiting_irq t ≠ None → state t = Blocked }.

Record minv (m : machine) : Prop := {
  mi_sched : sched_ok (SCHEDULER m);
  mi_live : ∀ t, cur_task m = Some t → state t = Running ∨ state t = Dead;
  mi_len : length (konts m) = length (tasks (SCHEDULER m)) ∧ length (in_syscall m) = length (tasks (SCHEDULER m));
  mi_kont : ∀ i k o, i ≠ current (SCHEDULER m) → konts m !! i = Some k → in_syscall m !! i = Some o → kont_ok k o;
  mi_stk : (0 < switches m)%nat → ∀ t, cur_task m = Some t → kernel_stack m = kstack_top t ∧ rsp0 m = kstack_top t;
  mi_cr3 : ∀ t, cur_task m = Some t → CR3 m = cr3 t;
  mi_gs : match cur_syscall m with
          | Some u => gs_percpu m = true ∧ user_rsp m = u
          | None => gs_percpu m = false
          end }.

(** The part that does not depend on the scheduler's task states, and holds
    between an operation's first update and its switch. *)
Record minv_rest (m : machine) : Prop := {
  mr_sched : sched_ok (SCHEDULER m);
  mr_len : length (konts m) = length (tasks (SCHEDULER m)) ∧ length (in_syscall m) = length (tasks (SCHEDULER m));
  mr_kont : ∀ i k o, i ≠ current (SCHEDULER m) → konts m !! i = Some k → in_syscall m !! i = Some o → kont_ok k o }.

Lemma lookup_wake now ts i : wake_sleepers now ts !! i = (λ t, if expired now t then set_state Ready t else t) <$> ts !! i.
Proof. apply list_lookup_fmap. Qed.

Lemma wake_sched_ok now s : sched_ok s → sched_ok (mkSched (wake_sleepers now (tasks s)) (current s)).
Proof.
  intros [H1 H2 H3]. constructor; cbn [tasks current].
  - by rewrite length_wake.
  - intros i t. rewrite lookup_wake, fmap_Some. intros (t0 & Ht & ->). destruct (expired now t0); [done|]. by apply H2.
  - intros i t. rewrite lookup_wake, fmap_Some. intros (t0 & Ht & ->). destruct (expired now t0) eqn:E; [|by eapply H3].
    unfold expired in E. rewrite !andb_true_iff, !bool_decide_eq_true in E. cbn [waiting_irq set_state]. naive_solver.
Qed.

Lemma swap_states_lookup c nx ts i : c ≠ nx →
  swap_states c nx ts !! i =
    if decide (i = nx) then set_state Running <$> ts !! i
    else if decide (i = c) then (λ t, if bool_decide (state t = Running) then set_state Ready t else t) <$> ts !! i
    else ts !! i.
Proof.
  intros Hne. unfold swap_states. destruct (decide (i = nx)) as [->|].
  - by rewrite list_lookup_alter_eq, list_lookup_alter_ne.
  - rewrite list_lookup_alter_ne by done. destruct (decide (i = c)) as [->|].
    + by rewrite list_lookup_alter_eq.
    + by rewrite list_lookup_alter_ne.
Qed.

Lemma length_swap_states c nx ts : length (swap_states c nx ts) = length ts.
Proof. unfold swap_states. by rewrite !length_alter. Qed.

Lemma swap_sched_ok c nx ts : c ≠ nx → sched_ok (mkSched ts c) → ready_at ts nx →
  sched_ok (mkSched (swap_states c nx ts) nx).
Proof.
  intros Hne [H1 H2 H3] (tn & Htn & Hrn). cbn [tasks current] in *. constructor; cbn [tasks current].
  - rewrite length_swap_states. by eapply lookup_lt_Some.
  - intros i t. rewrite swap_states_lookup by done. destruct (decide (i = nx)); [done|].
    destruct (decide (i = c)) as [->|].
    + rewrite fmap_Some. intros (t0 & Ht & ->). by case_bool_decide.
    + intros Ht Hr. by destruct (H2 i t Ht Hr).
  - intros i t. rewrite swap_states_lookup by done. destruct (decide (i = nx)) as [->|].
    + rewrite Htn. cbn. intros [= <-] Hw. cbn in Hw. specialize (H3 _ _ Htn Hw). congruence.
    + destruct (decide (i = c)) as [->|]; [|apply H3]. rewrite fmap_Some. intros (t0 & Ht & ->).
      case_bool_decide as Hr; [|by eapply H3]. cbn. intros Hw. specialize (H3 _ _ Ht Hw). congruence.
Qed.

Lemma next_sched_ok now s r s' : sched_ok s → next_post now s r s' → sched_ok s'.
Proof.
  intros Hs. unfold next_post. set (ts := if (_ <? 2)%nat then _ else _).
  assert (sched_ok (mkSched ts (current s))) as Hts.
  { unfold ts. destruct (_ <? 2)%nat; [by destruct s|by apply wake_sched_ok]. }
  destruct r as [[[[old nrsp] ncr3] nk]|]; [|by intros [-> _]].
  intros (-> & (d & Hd & E & Hr & _) & Hne & Ht & _).
  destruct s' as [ts' c']. cbn [tasks current] in *. clear E. subst ts'. by apply swap_sched_ok.
Qed.

Definition with_gs (o : option Z) (m : machine) : machine :=
  mkMachine (SCHEDULER m) (TICK_COUNT m) (NEXT_TASK_ID m) (cpu m) (mem m) (CR3 m) (kernel_stack m)
    (default (user_rsp m) o) (rsp0 m) (bool_decide (is_Some o)) (konts m) (in_syscall m) (switches m).

Lemma resume_eq k o m : kont_ok k o → gs_percpu m = false → resume k m = Ok (tt, with_gs o m).
Proof.
  intros Hk Hgs. unfold with_gs. destruct o as [u|]; cbn in Hk.
  - subst k. destruct m; cbn in Hgs; by subst.
  - destruct k; try (by destruct m; cbn in Hgs; subst). by destruct (Hk saved_user_rsp).
Qed.

(** ** What a scheduling decision does to the tasks that are not running *)

(** A Ready task stays Ready unless it is the one chosen; a sleeper whose time has
    not come stays asleep, one whose time has come is Ready (or chosen). *)
Definition fate (now : Z) (i : nat) (t t' : Task) (cur' : nat) : Prop :=
  (state t = Ready → state t' = Ready ∨ cur' = i) ∧
  (state t = Blocked → waiting_irq t = None → now < wake_at t →
     state t' = Blocked ∧ waiting_irq t' = None ∧ wake_at t' = wake_at t ∧ cur' ≠ i).

Definition fates (now : Z) (s s' : Scheduler) : Prop :=
  ∀ i t, i ≠ current s → tasks s !! i = Some t →
    ∃ t', tasks s' !! i = Some t' ∧ fate now i t t' (current s').

(** Turns until task [i] when every task in between takes one. *)
Definition dist (s : Scheduler) (i : nat) : nat :=
  (if current s <? i then i - current s else i + length (tasks s) - current s)%nat.

(** A waiting task is chosen, or it is strictly closer to being chosen. *)
Definition closer (s s' : Scheduler) : Prop :=
  ∀ i, ready_at (tasks s) i → i ≠ current s →
    current s' = i ∨ (i ≠ current s' ∧ (dist s' i < dist s i)%nat).

Definition sobs (now : Z) (s s' : Scheduler) : Prop :=
  length (tasks s') = length (tasks s) ∧ fates now s s' ∧ closer s s'.

Lemma dist_cyc s i d : (current s < length (tasks s))%nat → (0 < d < length (tasks s))%nat →
  i = ((current s + d) mod length (tasks s))%nat → dist s i = d.
Proof.
  intros Hc Hd ->. unfold dist. set (n := length (tasks s)) in *.
  destruct (decide (current s + d < n)%nat).
  - rewrite Nat.mod_small by lia. destruct (Nat.ltb_spec (current s) (current s + d)); lia.
  - replace (current s + d)%nat with (current s + d - n + 1 * n)%nat by lia.
    rewrite Nat.Div0.mod_add, Nat.mod_small by lia. destruct (Nat.ltb_spec (current s) (current s + d - n)); lia.
Qed.

Lemma fate_mono now i t t1 t2 cur : fate now i t t1 cur →
  state t2 = state t1 → wake_at t2 = wake_at t1 → waiting_irq t2 = waiting_irq t1 → fate now i t t2 cur.
Proof. intros [H1 H2] E1 E2 E3. split; intros; rewrite ?E1, ?E2, ?E3; auto. Qed.

Lemma wake_fate now i t cur : cur ≠ i → fate now i t (if expired now t then set_state Ready t else t) cur.
Proof.
  intros Hc. split.
  - intros Hr. left. by destruct (expired now t).
  - intros Hb Hw Hlt. unfold expired. rewrite (proj2 (Z.leb_gt _ _)) by done. rewrite !andb_false_r. done.
Qed.

Lemma next_sobs now s sw s' : sched_ok s → next_post now s sw s' →
  sobs now s s' ∧ ((∃ i, ready_at (tasks s) i ∧ i ≠ current s) → is_Some sw).
Proof.
  intros [Hc Hrun Hirq]. unfold next_post. set (ts := if (_ <? 2)%nat then _ else _).
  assert (length ts = length (tasks s)) as Hl by (unfold ts; destruct (_ <? 2)%nat; [done|apply length_wake]).
  assert (∀ i t, tasks s !! i = Some t → ∃ t1, ts !! i = Some t1 ∧ (∀ cur, cur ≠ i → fate now i t t1 cur)
            ∧ (state t = Ready → t1 = t) ∧ (state t = Blocked → waiting_irq t = None → now < wake_at t → t1 = t)) as Hts.
  { intros i t Ht. unfold ts. destruct (_ <? 2)%nat.
    - exists t. split_and!; [done| |done..]. intros cur Hcur. split; [by left|by auto].
    - rewrite lookup_wake, Ht. eexists. split_and!; [done|by intros; apply wake_fate| |].
      + intros Hr. unfold expired. rewrite Hr. by rewrite bool_decide_false by done.
      + intros Hb Hw Hlt. unfold expired. rewrite (proj2 (Z.leb_gt _ _)) by done. by rewrite !andb_false_r. }
  assert (∀ i, ready_at (tasks s) i → ready_at ts i) as Hrdy.
  { intros i (t & Ht & Hr). destruct (Hts i t Ht) as (t1 & Ht1 & _ & E & _). exists t1. rewrite E by done. rewrite E in Ht1 by done. done. }
  destruct sw as [[[[old nrsp] ncr3] nk]|].
  - intros (-> & (d & Hd & Enx & Hrnx & Hfirst) & Hne & Ht' & tn & Htn & Hrn & _).
    split; [|by intros _; eexists]. split_and!.
    + by rewrite Ht', length_swap_states.
    + intros i t Hi Ht. destruct (Hts i t Ht) as (t1 & Ht1 & Hf & Er & Eb). rewrite Ht', swap_states_lookup by done.
      destruct (decide (i = current s')) as [->|Hi'].
      * rewrite Ht1. eexists. split; [done|]. split; [by right|]. intros Hb Hw Hlt. rewrite Eb in Ht1 by done. congruence.
      * rewrite decide_False by done. eexists. split; [done|]. by apply Hf.
    + intros i Hri Hi. destruct (decide (i = current s')) as [->|Hi']; [by left|right]. split; [done|].
      assert (i < length (tasks s))%nat as Hilt by (destruct Hri as (t & Ht & _); by eapply lookup_lt_Some).
      destruct (cyc_reach (current s) i (length ts)) as (di & Hdi & Ei); [lia..|done|].
      assert (d < di)%nat as Hlt.
      { destruct (decide (di < d)%nat); [by destruct (Hfirst di); [lia|rewrite <- Ei; auto]|].
        destruct (decide (di = d)) as [->|]; [|lia]. congruence. }
      rewrite (dist_cyc s i di) by (try lia; by rewrite Hl in Ei).
      assert (length (tasks s') = length ts) as Hl' by (by rewrite Ht', length_swap_states).
      rewrite (dist_cyc s' i (di - d)); [lia| |lia|].
      * rewrite Hl', Enx. apply Nat.mod_upper_bound. lia.
      * rewrite Hl', Enx, Nat.Div0.add_mod_idemp_l. rewrite Ei. f_equal. lia.
  - intros [-> Hno].
    assert (∀ i, ready_at (tasks s) i → i ≠ current s → False) as Hcontra.
    { intros i Hri Hi. apply (Hno i Hi). split; [by apply Hrdy|].
      destruct Hri as (t & Ht & _). apply lookup_lt_Some in Ht. lia. }
    split; [|by intros (i & Hri & Hi); destruct (Hcontra i Hri Hi)]. split_and!; [done| |].
    + intros i t Hi Ht. destruct (Hts i t Ht) as (t1 & Ht1 & Hf & _). exists t1. split; [done|]. by apply Hf.
    + intros i Hri Hi. by destruct (Hcontra i Hri Hi).
Qed.

(** Schedulers that agree on every task but [c]'s entry. *)
Definition like_off (c : nat) (s s' : Scheduler) : Prop :=
  current s' = current s ∧ length (tasks s') = length (tasks s) ∧
  ∀ i t, i ≠ c → tasks s !! i = Some t → ∃ t', tasks s' !! i = Some t' ∧
    state t' = state t ∧ wake_at t' = wake_at t ∧ waiting_irq t' = waiting_irq t.

Lemma sobs_like now s s1 s2 : sobs now s s1 → like_off (current s) s1 s2 → sobs now s s2.
Proof.
  intros (Hl & Hf & Hcl) (Ec & El & Hlike). split_and!.
  - congruence.
  - intros i t Hi Ht. destruct (Hf i t Hi Ht) as (t1 & Ht1 & F). destruct (Hlike i t1 Hi Ht1) as (t2 & Ht2 & E1 & E2 & E3).
    exists t2. split; [done|]. rewrite Ec. by eapply fate_mono.
  - intros i Hri Hi. unfold dist. rewrite Ec, El. by apply Hcl.
Qed.

Lemma like_off_alter c f s : like_off c s (mkSched (alter f c (tasks s)) (current s)).
Proof.
  split_and!; [done|apply length_alter|]. intros i t Hi Ht. exists t. cbn. by rewrite list_lookup_alter_ne.
Qed.

Lemma sobs_pre now s0 s s' : like_off (current s0) s0 s → sobs now s s' → sobs now s0 s'.
Proof.
  intros (Ec & El & Hlike) (Hl & Hf & Hcl). split_and!.
  - congruence.
  - intros i t Hi Ht. destruct (Hlike i t Hi Ht) as (t1 & Ht1 & E1 & E2 & E3).
    destruct (Hf i t1) as (t' & Ht' & F1 & F2); [congruence|done|]. exists t'. split; [done|].
    split; intros; [apply F1; congruence|]. rewrite <- E2. apply F2; congruence.
  - intros i (t & Ht & Hr) Hi. destruct (Hlike i t Hi Ht) as (t1 & Ht1 & E1 & _).
    destruct (Hcl i) as [|[? Hd]]; [exists t1; split; congruence|congruence|by left|right]. split; [done|].
    unfold dist in *. by rewrite <- Ec, <- El.
Qed.

(** Completing a switch: the resumed task finds its own system-call state. *)
Lemma switch_to_spec now m s' sw site :
  minv_rest m → (∀ o, in_syscall m !! current (SCHEDULER m) = Some o → kont_ok site o) → gs_percpu m = false →
  next_post now (SCHEDULER m) (Some sw) s' →
  wp (switch_to sw site) (with_sched s' m) (λ _ m', minv m' ∧ current (SCHEDULER m') = current s' ∧
    TICK_COUNT m' = TICK_COUNT m ∧ ∀ c, like_off c s' (SCHEDULER m')).
Proof.
  intros [Hs [Hl1 Hl2] Hk] Hsite Hgs Hpost. pose proof (next_sched_ok _ _ _ _ Hs Hpost) as Hs'.
  destruct sw as [[[old nrsp] ncr3] nk]. destruct Hpost as (-> & Hfr & Hne & Ht & t & Htt & Hrt & -> & -> & ->).
  set (ts := if (_ <? 2)%nat then _ else _) in *.
  assert (length ts = length (tasks (SCHEDULER m))) as Hlts by (unfold ts; destruct (_ <? 2)%nat; [done|apply length_wake]).
  assert (length (tasks s') = length (tasks (SCHEDULER m))) as Hlen by (rewrite Ht, length_swap_states; done).
  destruct (lookup_lt_is_Some_2 (konts m) (current s')) as [k Hks]; [rewrite Hl1, <- Hlen; apply Hs'|].
  destruct (lookup_lt_is_Some_2 (in_syscall m) (current s')) as [o Ho]; [rewrite Hl2, <- Hlen; apply Hs'|].
  pose proof (Hk _ _ _ Hne Hks Ho) as Hko.
  unfold wp, switch_to, use_kstack, write_cr3, context_switch, modify, mbind, ST_bind.
  cbn [with_sched SCHEDULER konts TICK_COUNT NEXT_TASK_ID cpu mem CR3 kernel_stack user_rsp rsp0 gs_percpu in_syscall switches].
  destruct (save_frame (cpu m) (mem m)) as [sp mem'].
  rewrite upd_task_alter by (rewrite Hlen; apply Hs). cbn [outcome_bind current]. rewrite Hks. cbn [unwrap outcome_bind].
  set (s2 := mkSched _ _).
  assert (tasks s' !! current s' = Some (set_state Running t)) as Hcur.
  { rewrite Ht, swap_states_lookup by done. rewrite decide_True by done. fold ts in Htt. by rewrite Htt. }
  assert (tasks s2 !! current s2 = Some (set_state Running t)) as Hcur2.
  { unfold s2. cbn [tasks current]. by rewrite list_lookup_alter_ne. }
  assert (∀ i t2, tasks s2 !! i = Some t2 → ∃ t1, tasks s' !! i = Some t1 ∧ state t2 = state t1 ∧ waiting_irq t2 = waiting_irq t1) as Hback.
  { intros i t2. unfold s2. cbn [tasks]. destruct (decide (i = current (SCHEDULER m))) as [->|].
    - rewrite list_lookup_alter_eq, fmap_Some. intros (t1 & ? & ->). by exists t1.
    - rewrite list_lookup_alter_ne by done. eauto. }
  assert (∀ i t1, tasks s' !! i = Some t1 → ∃ t2, tasks s2 !! i = Some t2 ∧ state t2 = state t1 ∧ wake_at t2 = wake_at t1 ∧ waiting_irq t2 = waiting_irq t1) as Hfwd.
  { intros i t1 H1. unfold s2. cbn [tasks]. destruct (decide (i = current (SCHEDULER m))) as [->|].
    - rewrite list_lookup_alter_eq, H1. by eexists.
    - rewrite list_lookup_alter_ne by done. eauto. }
  assert (sched_ok s2) as Hs2.
  { destruct Hs' as [A B C]. constructor; [by unfold s2; cbn [tasks current]; rewrite length_alter| |].
    - intros i t2 H2 Hr. destruct (Hback _ _ H2) as (t1 & H1 & E1 & E2). cbn [current s2]. apply (B i t1); congruence.
    - intros i t2 H2 Hr. destruct (Hback _ _ H2) as (t1 & H1 & E1 & E2). rewrite E1. apply (C i t1); congruence. }
  assert (∀ i k' o', i ≠ current s2 → <[current (SCHEDULER m):=site]> (konts m) !! i = Some k' → in_syscall m !! i = Some o' → kont_ok k' o') as Hk'.
  { intros i k' o' Hi Hki Hoi. destruct (decide (i = current (SCHEDULER m))) as [->|].
    - rewrite list_lookup_insert_eq in Hki by (rewrite Hl1; apply Hs). injection Hki as <-. by apply Hsite.
    - rewrite list_lookup_insert_ne in Hki by done. by eapply Hk. }
  assert (length (tasks s2) = length (tasks (SCHEDULER m))) as Hl2' by (unfold s2; cbn [tasks]; by rewrite length_alter).
  assert (current s2 = current s') as Hc2 by done. clearbody s2.
  rewrite (resume_eq k o) by done. unfold with_gs.
  cbn [SCHEDULER konts TICK_COUNT NEXT_TASK_ID cpu mem CR3 kernel_stack user_rsp rsp0 gs_percpu in_syscall switches].
  split_and!; [|done|done|intros c; split_and!; [done|lia|by intros i t1 _; apply Hfwd]].
  constructor; cbn [SCHEDULER konts in_syscall switches kernel_stack rsp0 CR3 gs_percpu user_rsp]; [done| | |done| | |];
    unfold cur_task, cur_syscall; cbn [SCHEDULER in_syscall].
  - rewrite Hcur2. intros ? [= <-]. auto.
  - rewrite length_insert. lia.
  - rewrite Hcur2. by intros _ ? [= <-].
  - rewrite Hcur2. by intros ? [= <-].
  - rewrite Hc2, Ho. by destruct o.
Qed.

(** ** Events: what a running system does to the scheduler *)

Inductive event :=
| Tick
| WakeIrq (vector : Z)
| SleepMs (ms : Z)
| BlockOnIrq (vector : Z)
| ExitCurrent
| Spawn (nm : string) (tramp entry stk kstk : Z)
| LoadCr3 (phys : Z)              (* [run_elf]: write_cr3; set_current_cr3 (two statements in [Preempt]) *)
| SyscallEntry (u : Z)            (* swapgs; mov gs:[8], rsp *)
| SyscallExit                     (* swapgs; sysretq (or [do_exit]) *)
| Compute (r : regs) (m : stack). (* anything else the running code does *)

Definition set_syscall (o : option Z) : ST machine unit := modify (λ m,
  mkMachine (SCHEDULER m) (TICK_COUNT m) (NEXT_TASK_ID m) (cpu m) (mem m) (CR3 m) (kernel_stack m) (user_rsp m)
    (rsp0 m) (gs_percpu m) (konts m) (<[current (SCHEDULER m) := o]> (in_syscall m)) (switches m)).

Definition exec (e : event) : ST machine unit :=
  match e with
  | Tick => tick
  | WakeIrq v => wake_irq_waiters v
  | SleepMs ms => sleep_ms ms
  | BlockOnIrq v => block_on_irq v
  | ExitCurrent => exit_current
  | Spawn nm tramp entry stk kstk => spawn nm tramp entry stk kstk ≫= λ _, mret tt
  | LoadCr3 c => write_cr3 c ≫= λ _, set_current_cr3 c
  | SyscallEntry u => swapgs ≫= λ _, set_user_rsp u ≫= λ _, set_syscall (Some u)
  | SyscallExit => swapgs ≫= λ _, set_syscall None
  | Compute r m' => modify (λ m,
      mkMachine (SCHEDULER m) (TICK_COUNT m) (NEXT_TASK_ID m) r m' (CR3 m) (kernel_stack m) (user_rsp m)
        (rsp0 m) (gs_percpu m) (konts m) (in_syscall m) (switches m))
  end.

Definition cur_running (m : machine) : Prop := ∃ t, cur_task m = Some t ∧ state t = Running.

(** When an event can happen: the current task acts only while it runs (a task
    that exited with nothing else to run has halted the processor); system calls
    do not nest, run with interrupts masked, and are the only place that blocks
    on an interrupt. *)
Definition enabled (e : event) (m : machine) : Prop :=
  match e with
  | Tick | WakeIrq _ => cur_syscall m = None
  | SleepMs _ | ExitCurrent => cur_running m ∧ cur_syscall m = None
  | BlockOnIrq _ => cur_running m ∧ is_Some (cur_syscall m)
  | Spawn _ _ _ _ _ | LoadCr3 _ | Compute _ _ => cur_running m
  | SyscallEntry _ => cur_running m ∧ cur_syscall m = None
  | SyscallExit => cur_running m ∧ is_Some (cur_syscall m)
  end.

Inductive step : machine → machine → Prop :=
| step_exec e m m' : enabled e m → exec e m = Ok (tt, m') → step m m'.

(** ** Preservation *)

Lemma wp_locked {A} (c : ST Scheduler A) m Q :
  wp c (SCHEDULER m) (λ a s', Q a (with_sched s' m)) → wp (locked c) m Q.
Proof. unfold wp, locked. by destruct (c (SCHEDULER m)) as [[a s']|]. Qed.

Lemma wp_upd i f m Q : (i < length (tasks (SCHEDULER m)))%nat →
  Q tt (with_sched (mkSched (alter f i (tasks (SCHEDULER m))) (current (SCHEDULER m))) m) →
  wp (locked (upd_task i f)) m Q.
Proof. intros Hi HQ. apply wp_locked. unfold wp. by rewrite upd_task_alter. Qed.

Lemma wp_gets {S A} (f : S → A) s Q : Q (f s) s → wp (gets f) s Q.
Proof. done. Qed.

Lemma wp_modify {S} (f : S → S) s Q : Q tt (f s) → wp (modify f) s Q.
Proof. done. Qed.

Lemma with_sched_twice s s' m : with_sched s (with_sched s' m) = with_sched s m.
Proof. done. Qed.

(** The current task as updated by the statements before [next()]. *)
Definition with_cur (f : Task → Task) (m : machine) : machine :=
  with_sched (mkSched (alter f (current (SCHEDULER m)) (tasks (SCHEDULER m))) (current (SCHEDULER m))) m.

Lemma with_cur_compose f g m : with_cur f (with_cur g m) = with_cur (f ∘ g) m.
Proof. unfold with_cur, with_sched. cbn. by rewrite list_alter_alter_eq. Qed.

Lemma with_cur_sched_ok f m :
  sched_ok (SCHEDULER m) → (∀ t, cur_task m = Some t → waiting_irq (f t) ≠ None → state (f t) = Blocked) →
  sched_ok (SCHEDULER (with_cur f m)).
Proof.
  intros [H1 H2 H3] Hf. constructor; cbn [with_cur with_sched SCHEDULER tasks current].
  - by rewrite length_alter.
  - intros i t. destruct (decide (i = current (SCHEDULER m))) as [->|]; [done|].
    rewrite list_lookup_alter_ne by done. apply H2.
  - intros i t. destruct (decide (i = current (SCHEDULER m))) as [->|].
    + rewrite list_lookup_alter_eq, fmap_Some. intros (t0 & Ht & ->). by apply Hf.
    + rewrite list_lookup_alter_ne by done. apply H3.
Qed.

Lemma minv_rest_of m : minv m → minv_rest m.
Proof. intros []. by constructor. Qed.

Lemma with_cur_rest f m :
  minv m → (∀ t, cur_task m = Some t → waiting_irq (f t) ≠ None → state (f t) = Blocked) → minv_rest (with_cur f m).
Proof.
  intros Hm Hf. constructor; [by apply with_cur_sched_ok; [apply Hm|]| |].
  - cbn. rewrite length_alter. apply Hm.
  - apply Hm.
Qed.

(** Replacing the scheduler without switching. *)
Lemma minv_with_sched m s t t' :
  minv m → sched_ok s → current s = current (SCHEDULER m) → length (tasks s) = length (tasks (SCHEDULER m)) →
  cur_task m = Some t → tasks s !! current s = Some t' → kstack_top t' = kstack_top t → cr3 t' = cr3 t →
  state t' = Running ∨ state t' = Dead → minv (with_sched s m).
Proof.
  intros [M1 M2 M3 M4 M5 M6 M7] Hs Hc Hl Ht Ht' Hk Hcr Hst.
  constructor; unfold cur_task, cur_syscall in *; cbn [with_sched SCHEDULER konts in_syscall switches kernel_stack rsp0 CR3 gs_percpu user_rsp];
    rewrite ?Ht', ?Hl; [done| |done|by rewrite Hc| | |by rewrite Hc].
  - by intros ? [= <-].
  - intros Hsw ? [= <-]. rewrite Hk. eauto.
  - intros ? [= <-]. rewrite Hcr. eauto.
Qed.

Lemma cur_task_some m : minv m → ∃ t, cur_task m = Some t.
Proof. intros Hm. apply lookup_lt_is_Some_2, Hm. Qed.

(** After [next] found nobody else: what the current task looks like. *)
Lemma next_none now s s' t : sched_ok s → next_post now s None s' → tasks s !! current s = Some t →
  sched_ok s' ∧ current s' = current s ∧ length (tasks s') = length (tasks s) ∧
  ∃ t', tasks s' !! current s' = Some t' ∧ kstack_top t' = kstack_top t ∧ cr3 t' = cr3 t ∧
        waiting_irq t' = waiting_irq t ∧ (state t ≠ Blocked → state t' = state t).
Proof.
  intros Hs Hp Ht. pose proof (next_sched_ok _ _ _ _ Hs Hp) as Hs'. destruct Hp as [-> _].
  destruct (length (tasks s) <? 2)%nat; cbn [tasks current] in *; [split_and!; eauto 10|].
  rewrite length_wake. split_and!; [done..|]. rewrite lookup_wake, Ht. cbn. eexists. split; [done|].
  destruct (expired now t) eqn:E; [|by auto]. cbn. split_and!; [done..|].
  unfold expired in E. rewrite !andb_true_iff, !bool_decide_eq_true in E. naive_solver.
Qed.

(** The common tail of every switching operation: pick a task, then switch to it
    or go on with [k]. *)
Lemma wp_next m (now : Z) (k : option (nat * Z * Z * Z) → ST machine unit) Q :
  sched_ok (SCHEDULER m) →
  (∀ sw s', next_post now (SCHEDULER m) sw s' → wp (k sw) (with_sched s' m) Q) →
  wp (sw ← locked (next now); k sw) m Q.
Proof.
  intros Hs H. apply wp_bind, wp_locked. eapply wp_mono; [apply next_spec, Hs|]. intros sw s' Hp. by apply H.
Qed.

(** What the tasks that are not running see of one operation. *)
Definition mobs (now : Z) (m m' : machine) : Prop :=
  TICK_COUNT m' = now ∧ sobs now (SCHEDULER m) (SCHEDULER m').

(** The running task blocks or exits: [f] is what it did to its own entry. *)
Lemma yield_minv m f site now k :
  minv m → (∀ t, cur_task m = Some t → waiting_irq (f t) ≠ None → state (f t) = Blocked) →
  cur_syscall m = None → kont_ok site None → TICK_COUNT m = now →
  (∀ s', next_post now (SCHEDULER (with_cur f m)) None s' → sobs now (SCHEDULER m) s' →
     wp k (with_sched s' (with_cur f m)) (λ _ m', minv m' ∧ mobs now m m')) →
  wp (sw ← locked (next now); match sw with Some sw => switch_to sw site | None => k end) (with_cur f m)
    (λ _ m', minv m' ∧ mobs now m m').
Proof.
  intros Hm Hf Hsys Hsite Hnow Hk. pose proof (with_cur_rest f m Hm Hf) as Hr.
  apply wp_next; [apply Hr|]. intros sw s' Hp.
  assert (sobs now (SCHEDULER m) s') as Hobs.
  { eapply sobs_pre; [apply like_off_alter|]. exact (proj1 (next_sobs _ _ _ _ (mr_sched _ Hr) Hp)). }
  destruct sw as [sw|]; [|by apply Hk].
  eapply wp_mono; [eapply switch_to_spec; [done| |  |done]|].
  - intros o. change (current (SCHEDULER (with_cur f m))) with (current (SCHEDULER m)).
    change (in_syscall (with_cur f m)) with (in_syscall m). unfold cur_syscall in Hsys. intros Ho. rewrite Ho in Hsys. cbn in Hsys. by subst.
  - pose proof (mi_gs m Hm) as Hgs. by rewrite Hsys in Hgs.
  - intros ? m' (Hm' & Hc & Htk & Hlike). split; [done|]. split; [by rewrite Htk|]. by eapply sobs_like.
Qed.

Lemma upd_cur f m Q : minv m → Q tt (with_cur f m) → wp (locked (upd_task (current (SCHEDULER m)) f)) m Q.
Proof. intros Hm HQ. apply wp_upd; [apply Hm|done]. Qed.

Lemma upd_cur2 f g m Q : minv m → Q tt (with_cur (f ∘ g) m) →
  wp (locked (upd_task (current (SCHEDULER m)) f)) (with_cur g m) Q.
Proof.
  intros Hm HQ. apply wp_upd; [cbn; rewrite length_alter; apply Hm|]. by rewrite <- with_cur_compose in HQ.
Qed.

(** Undoing the block when there is nobody to switch to. *)
Lemma unblock_minv m f g s' now :
  minv m → (∀ t, cur_task m = Some t → waiting_irq (f t) ≠ None → state (f t) = Blocked) →
  (∀ t, kstack_top (f t) = kstack_top t ∧ cr3 (f t) = cr3 t) →
  (∀ t, kstack_top (g t) = kstack_top t ∧ cr3 (g t) = cr3 t ∧ state (g t) = Running) →
  (∀ t t0, waiting_irq t = waiting_irq (f t0) → cur_task m = Some t0 → waiting_irq (g t) = None) →
  next_post now (SCHEDULER (with_cur f m)) None s' → minv (with_cur g (with_sched s' (with_cur f m))).
Proof.
  intros Hm Hf Hf2 Hg Hw Hp. destruct (cur_task_some m Hm) as [t Ht].
  destruct (next_none now _ s' (f t) (mr_sched _ (with_cur_rest f m Hm Hf)) Hp) as (Hs' & Hc & Hl & t' & Ht' & E1 & E2 & E3 & _).
  { cbn. rewrite list_lookup_alter_eq. unfold cur_task in Ht. by rewrite Ht. }
  unfold with_cur at 1. rewrite with_sched_twice.
  change (with_sched ?a (with_cur f m)) with (with_sched a m). eapply (minv_with_sched m _ t (g t')); [done| |done| |done| | | |].
  - apply (with_cur_sched_ok g (with_sched s' m)); [done|]. intros t1 Ht1 Hwi. unfold cur_task in Ht1. cbn in Ht1.
    rewrite Ht' in Ht1. injection Ht1 as <-. by erewrite (Hw t' t) in Hwi by eauto.
  - cbn. rewrite length_alter. rewrite Hl. cbn. by rewrite length_alter.
  - cbn. rewrite list_lookup_alter_eq. by rewrite Ht'.
  - destruct (Hg t') as (-> & _). rewrite E1. apply Hf2.
  - destruct (Hg t') as (_ & -> & _). rewrite E2. apply Hf2.
  - left. apply Hg.
Qed.

Lemma running_no_irq m t : minv m → cur_task m = Some t → state t ≠ Blocked → waiting_irq t = None.
Proof.
  intros Hm Ht Hs. destruct (waiting_irq t) eqn:E; [|done].
  destruct Hs. eapply (so_irq _ (mi_sched m Hm)); [exact Ht|]. by rewrite E.
Qed.

Lemma sleep_minv ms m : minv m → enabled (SleepMs ms) m → wp (sleep_ms ms) m (λ _ m', minv m' ∧ mobs (TICK_COUNT m) m m').
Proof.
  intros Hm [(t & Ht & Hrt) Hsys]. pose proof (running_no_irq m t Hm Ht ltac:(congruence)) as Hirq.
  unfold sleep_ms. apply wp_bind, wp_gets, wp_bind, wp_gets, wp_bind, upd_cur; [done|].
  apply wp_bind, upd_cur2; [done|]. set (f := _ ∘ _).
  apply yield_minv; [done|by intros ? _|done|done|done|]. intros s' Hp Hobs.
  apply wp_bind, wp_gets. apply wp_upd.
  { destruct (next_sched_ok _ _ _ _ (mr_sched _ (with_cur_rest f m Hm ltac:(done))) Hp). done. }
  split; [|split; [done|eapply sobs_like; [done|]]].
  2:{ assert (current s' = current (SCHEDULER m)) as Ec by (by destruct Hp as [-> _]). rewrite <- Ec.
      apply like_off_alter. }
  apply (unblock_minv m f _ s' (TICK_COUNT m)); [done..| |done].
  intros t1 t0 E Ht0. rewrite Ht in Ht0. injection Ht0 as <-. cbn. by rewrite E.
Qed.

Lemma exit_minv m : minv m → enabled ExitCurrent m → wp exit_current m (λ _ m', minv m' ∧ mobs (TICK_COUNT m) m m').
Proof.
  intros Hm [(t & Ht & Hrt) Hsys]. pose proof (running_no_irq m t Hm Ht ltac:(congruence)) as Hirq.
  assert (∀ t, cur_task m = Some t → waiting_irq (set_state Dead t) ≠ None → state (set_state Dead t) = Blocked) as Hf.
  { intros t0 Ht0. rewrite Ht in Ht0. injection Ht0 as <-. by cbn. }
  unfold exit_current. apply wp_bind, wp_gets, wp_bind, upd_cur; [done|]. apply wp_bind, wp_gets.
  apply yield_minv; [done..|]. intros s' Hp Hobs. apply wp_ret. split; [|done].
  destruct (next_none _ _ s' (set_state Dead t) (mr_sched _ (with_cur_rest _ m Hm Hf)) Hp) as (Hs' & Hc & Hl & t' & Ht' & E1 & E2 & E3 & E4).
  { cbn. rewrite list_lookup_alter_eq. unfold cur_task in Ht. by rewrite Ht. }
  change (with_sched s' (with_cur (set_state Dead) m)) with (with_sched s' m).
  apply (minv_with_sched m s' t t'); try done.
  - rewrite Hl. cbn. by rewrite length_alter.
  - right. by rewrite E4.
Qed.

(** Blocking in a system call leaves it pending and the GS register at rest. *)
Lemma block_minv v m : minv m → enabled (BlockOnIrq v) m → wp (block_on_irq v) m (λ _ m', minv m' ∧ mobs (TICK_COUNT m) m m').
Proof.
  intros Hm [(t & Ht & Hrt) [u Hsys]]. pose proof (mi_gs m Hm) as Hgs. rewrite Hsys in Hgs. destruct Hgs as [Hgs Hu].
  unfold block_on_irq. apply wp_bind, wp_gets, wp_bind, upd_cur; [done|]. apply wp_bind, upd_cur2; [done|].
  apply wp_bind. rewrite <- with_cur_compose, with_cur_compose. apply upd_cur2; [done|].
  apply wp_bind, wp_gets. set (f := _ ∘ _).
  assert (∀ t, cur_task m = Some t → waiting_irq (f t) ≠ None → state (f t) = Blocked) as Hf by done.
  apply wp_next; [apply (with_cur_rest f m Hm Hf)|]. intros sw s' Hp.
  assert (sobs (TICK_COUNT m) (SCHEDULER m) s') as Hobs.
  { eapply sobs_pre; [apply (like_off_alter _ f)|]. exact (proj1 (next_sobs _ _ _ _ (mr_sched _ (with_cur_rest f m Hm Hf)) Hp)). }
  destruct sw as [sw|].
  - apply wp_bind, wp_gets, wp_bind, wp_modify. cbn [user_rsp with_sched with_cur].
    set (m1 := mkMachine (SCHEDULER (with_cur f m)) (TICK_COUNT m) (NEXT_TASK_ID m) (cpu m) (mem m) (CR3 m) (kernel_stack m) (user_rsp m)
      (rsp0 m) (negb (gs_percpu m)) (konts m) (in_syscall m) (switches m)).
    eapply wp_mono; [apply (switch_to_spec (TICK_COUNT m) m1 s' sw (KIrq (user_rsp m)))|].
    + destruct (with_cur_rest f m Hm Hf). by constructor.
    + intros o Ho. unfold cur_syscall in Hsys. change (in_syscall m !! current (SCHEDULER m) = Some o) in Ho.
      rewrite Ho in Hsys. cbn in Hsys. subst. done.
    + cbn. by rewrite Hgs.
    + done.
    + intros ? m' (Hm' & Hc & Htk & Hlike). split; [done|]. split; [done|]. by eapply sobs_like.
  - apply wp_bind, wp_gets. apply wp_bind.
    assert (sched_ok s') as Hs' by exact (next_sched_ok _ _ _ _ (mr_sched _ (with_cur_rest f m Hm Hf)) Hp).
    apply wp_upd; [apply Hs'|]. apply wp_upd; [cbn; rewrite length_alter; apply Hs'|].
    assert (minv (with_cur (set_irq None ∘ set_state Running) (with_sched s' (with_cur f m)))) as H.
    { by apply (unblock_minv m f _ s' (TICK_COUNT m)). }
    rewrite <- with_cur_compose in H. split; [exact H|]. split; [done|]. eapply sobs_like; [done|].
    assert (current s' = current (SCHEDULER m)) as Ec by (by destruct Hp as [-> _]). rewrite <- Ec.
    pose proof (like_off_alter (current s') (set_irq None ∘ set_state Running) s') as Hl. by rewrite <- list_alter_alter_eq in Hl.
Qed.

Lemma wake_irq_minv v m : minv m → wp (wake_irq_waiters v) m (λ _ m', minv m' ∧
  ∃ s, m' = with_sched s m ∧ current s = current (SCHEDULER m) ∧ length (tasks s) = length (tasks (SCHEDULER m)) ∧
  ∀ i t, tasks (SCHEDULER m) !! i = Some t →
    tasks s !! i = Some (if waits_for v t then set_state Ready (set_irq None t) else t)).
Proof.
  intros Hm. unfold wake_irq_waiters. apply wp_locked, wp_modify. destruct (cur_task_some m Hm) as [t Ht].
  set (s := mkSched _ _).
  assert (∀ i, tasks s !! i = (λ t, if waits_for v t then set_state Ready (set_irq None t) else t) <$> tasks (SCHEDULER m) !! i) as Hlk
    by (intros; apply list_lookup_fmap).
  assert (length (tasks s) = length (tasks (SCHEDULER m))) as Hl by apply length_fmap.
  destruct (mi_sched m Hm) as [S1 S2 S3]. split; [|exists s; split_and!; [done..|]; intros i t0 Ht0; rewrite Hlk, Ht0; done].
  apply (minv_with_sched m s t t); try done; [| |by apply Hm].
  - constructor.
    + by rewrite Hl.
    + intros i t1. rewrite Hlk, fmap_Some. intros (t0 & Ht0 & ->). destruct (waits_for v t0); [done|]. by apply S2.
    + intros i t1. rewrite Hlk, fmap_Some. intros (t0 & Ht0 & ->). destruct (waits_for v t0); [done|]. by apply (S3 i).
  - rewrite Hlk. change (current s) with (current (SCHEDULER m)). unfold cur_task in Ht. rewrite Ht. cbn.
    destruct (waits_for v t) eqn:E; [|done]. unfold waits_for in E. rewrite andb_true_iff, !bool_decide_eq_true in E.
    destruct (mi_live m Hm t Ht); destruct E; congruence.
Qed.

Lemma sobs_wake_irq v now s s1 s' :
  current s1 = current s → length (tasks s1) = length (tasks s) →
  (∀ i t, tasks s !! i = Some t → tasks s1 !! i = Some (if waits_for v t then set_state Ready (set_irq None t) else t)) →
  sobs now s1 s' → sobs now s s'.
Proof.
  intros Ec El Hlk (Hl & Hf & Hcl). split_and!; [congruence| |].
  - intros i t Hi Ht. destruct (Hf i _ ltac:(congruence) (Hlk i t Ht)) as (t' & Ht' & F1 & F2).
    exists t'. split; [done|]. unfold waits_for in *. split.
    + intros Hr. apply F1. by rewrite Hr, bool_decide_false.
    + intros Hb Hw. rewrite Hw, (bool_decide_false (None = _)), andb_false_r in F2 by done. by apply F2.
  - intros i (t & Ht & Hr) Hi. unfold dist. rewrite <- Ec, <- El. apply Hcl; [|congruence].
    exists t. rewrite (Hlk i t Ht). unfold waits_for. by rewrite Hr, bool_decide_false.
Qed.

Lemma tick_minv m : minv m → enabled Tick m → wp tick m (λ _ m', minv m' ∧ mobs (u64 (TICK_COUNT m + 1)) m m').
Proof.
  intros Hm Hsys. cbn in Hsys. unfold tick. apply wp_bind, wp_modify. set (m0 := mkMachine _ _ _ _ _ _ _ _ _ _ _ _ _).
  assert (minv m0) as Hm0 by (destruct Hm; by constructor).
  wp_step (wake_irq_minv timer_vector m0 Hm0). intros ? m1 (Hm1 & s1 & -> & Hc1 & Hl1 & Hlk1).
  apply wp_bind, wp_gets.
  assert (with_sched s1 m0 = with_cur (λ t, t) (with_sched s1 m0)) as E1.
  { unfold with_cur. rewrite with_sched_twice. cbn. rewrite list_alter_id; [by destruct s1|done]. }
  rewrite E1. eapply wp_mono; [apply yield_minv; [done| |by unfold cur_syscall; cbn; rewrite Hc1|done|done|]|].
  { intros t Ht. by eapply (mi_sched _ Hm1). }
  2:{ intros ? m' [Hm' [Htk Hobs]]. split; [done|]. split; [done|]. eapply (sobs_wake_irq timer_vector); [done..|exact Hobs]. }
  rewrite <- E1. intros s' Hp Hobs. apply wp_ret. split; [|done]. destruct (cur_task_some _ Hm1) as [t Ht].
  destruct (next_none _ _ s' t (mi_sched _ Hm1) Hp Ht) as (Hs' & Hc & Hl & t' & Ht' & E2 & E3 & E4 & E5).
  apply (minv_with_sched _ s' t t'); try done. destruct (mi_live _ Hm1 t Ht) as [H|H]; rewrite E5; rewrite ?H; auto.
Qed.

Lemma find_dead_spec ts : match find_dead ts with
  | Some i => ∃ t, ts !! i = Some t ∧ state t = Dead ∧ ∀ j t', (j < i)%nat → ts !! j = Some t' → state t' ≠ Dead
  | None => ∀ i t, ts !! i = Some t → state t ≠ Dead end.
Proof.
  induction ts as [|t ts IH]; cbn [find_dead]; [done|]. case_bool_decide as Hd.
  - exists t. split_and!; [done..|]. intros. lia.
  - destruct (find_dead ts) as [i|]; cbn.
    + destruct IH as (t' & Ht' & Hd' & Hb). exists t'. split_and!; [done..|].
      intros [|j] t1 Hj H1; [naive_solver|]. eapply (Hb j); [lia|done].
    + intros [|i] t1 H1; [naive_solver|]. by eapply IH.
Qed.

(** Where a spawned task goes: the first [Dead] slot, or a new one at the end. *)
Definition spawn_slot (ts : list Task) : nat := default (length ts) (find_dead ts).

Definition put_at {A} (i : nat) (x : A) (l : list A) : list A := if (i <? length l)%nat then <[i := x]> l else l ++ [x].

Lemma lookup_put_at {A} (l : list A) i x j : (i ≤ length l)%nat →
  put_at i x l !! j = if decide (j = i) then Some x else l !! j.
Proof.
  intros Hi. unfold put_at. destruct (Nat.ltb_spec i (length l)).
  - destruct (decide (j = i)) as [->|]; [by rewrite list_lookup_insert_eq|by rewrite list_lookup_insert_ne].
  - destruct (decide (j = i)) as [->|].
    + rewrite lookup_app_r by lia. by replace (i - length l)%nat with 0%nat by lia.
    + destruct (decide (j < length l)%nat); [by rewrite lookup_app_l|].
      rewrite lookup_app_r, (lookup_ge_None_2 l) by lia. by rewrite lookup_ge_None_2 by (cbn; lia).
Qed.

Lemma length_put_at {A} (l : list A) i x : (i ≤ length l)%nat → length (put_at i x l) = (length l `max` S i)%nat.
Proof. intros. unfold put_at. destruct (Nat.ltb_spec i (length l)); rewrite ?length_insert, ?length_app; cbn; lia. Qed.

Lemma spawn_slot_le ts : (spawn_slot ts ≤ length ts)%nat.
Proof.
  unfold spawn_slot. pose proof (find_dead_spec ts) as H. destruct (find_dead ts) as [i|]; cbn; [|done].
  destruct H as (t & Ht & _). apply lookup_lt_Some in Ht. lia.
Qed.

Lemma spawn_eq nm tramp entry stk kstk m :
  length (konts m) = length (tasks (SCHEDULER m)) → length (in_syscall m) = length (tasks (SCHEDULER m)) →
  let '(t, mem') := task_new (NEXT_TASK_ID m) nm tramp entry stk kstk (CR3 m) (mem m) in
  let i := spawn_slot (tasks (SCHEDULER m)) in
  spawn nm tramp entry stk kstk m = Ok (NEXT_TASK_ID m,
    mkMachine (mkSched (put_at i t (tasks (SCHEDULER m))) (current (SCHEDULER m))) (TICK_COUNT m) (u64 (NEXT_TASK_ID m + 1))
      (cpu m) mem' (CR3 m) (kernel_stack m) (user_rsp m) (rsp0 m) (gs_percpu m) (put_at i KFresh (konts m))
      (put_at i None (in_syscall m)) (switches m)).
Proof.
  intros Hk Hg. cbv zeta. unfold spawn. destruct (task_new _ _ _ _ _ _ _ _) as [t mem'].
  unfold spawn_slot, put_at. rewrite Hk, Hg. pose proof (find_dead_spec (tasks (SCHEDULER m))) as H.
  destruct (find_dead _) as [i|]; cbn [from_option]; unfold Datatypes.id.
  - destruct H as (t0 & Ht0 & _). apply lookup_lt_Some in Ht0. by rewrite (proj2 (Nat.ltb_lt _ _) Ht0).
  - by rewrite Nat.ltb_irrefl.
Qed.

Lemma spawn_slot_not_current m : cur_running m → spawn_slot (tasks (SCHEDULER m)) ≠ current (SCHEDULER m).
Proof.
  intros (t & Ht & Hr) E. unfold cur_task in Ht. unfold spawn_slot in E. pose proof (find_dead_spec (tasks (SCHEDULER m))) as H.
  destruct (find_dead _) as [i|]; cbn in E.
  - subst i. destruct H as (t' & Ht' & Hd & _). congruence.
  - apply lookup_lt_Some in Ht. lia.
Qed.

Lemma spawn_minv nm tramp entry stk kstk m : minv m → cur_running m → wp (spawn nm tramp entry stk kstk) m (λ _, minv).
Proof.
  intros Hm Hr. destruct (mi_len m Hm) as [Hk Hg]. pose proof (spawn_eq nm tramp entry stk kstk m Hk Hg) as E.
  destruct (task_new _ _ _ _ _ _ _ _) as [t mem'] eqn:Et. cbv zeta in E. unfold wp. rewrite E. clear E.
  pose proof (spawn_slot_not_current m Hr) as Hne. pose proof (spawn_slot_le (tasks (SCHEDULER m))) as Hle.
  set (i := spawn_slot _) in *. assert (state t = Ready ∧ waiting_irq t = None) as [Hst Hirq] by (unfold task_new in Et; by simplify_eq).
  destruct Hm as [[S1 S2 S3] M2 _ M4 M5 M6 M7].
  assert (∀ {A} (x : A) l, length l = length (tasks (SCHEDULER m)) → put_at i x l !! current (SCHEDULER m) = l !! current (SCHEDULER m)) as Hcur.
  { intros A x l Hl. rewrite lookup_put_at by lia. by rewrite decide_False by done. }
  constructor; unfold cur_task, cur_syscall in *; cbn [SCHEDULER konts in_syscall switches kernel_stack rsp0 CR3 gs_percpu user_rsp tasks current];
    rewrite ?Hcur by done; try done.
  - constructor; cbn [tasks current].
    + rewrite length_put_at by done. lia.
    + intros j t1. rewrite lookup_put_at by done. case_decide; [by intros [= <-] ?; congruence|]. apply S2.
    + intros j t1. rewrite lookup_put_at by done. case_decide; [by intros [= <-]|]. apply S3.
  - rewrite !length_put_at by lia. lia.
  - intros j k o Hj. rewrite !lookup_put_at by lia. case_decide; [by intros [= <-] [= <-]|]. by apply M4.
Qed.

Lemma set_syscall_minv o m :
  minv m → cur_running m →
  minv (mkMachine (SCHEDULER m) (TICK_COUNT m) (NEXT_TASK_ID m) (cpu m) (mem m) (CR3 m) (kernel_stack m) (default (user_rsp m) o)
    (rsp0 m) (bool_decide (is_Some o)) (konts m) (<[current (SCHEDULER m) := o]> (in_syscall m)) (switches m)).
Proof.
  intros [S1 M2 [M3 M3'] M4 M5 M6 M7] Hr.
  constructor; try done; unfold cur_syscall; cbn [SCHEDULER konts in_syscall gs_percpu user_rsp].
  - by rewrite length_insert.
  - intros i k o' Hi Hk. rewrite list_lookup_insert_ne by done. by apply M4.
  - rewrite list_lookup_insert_eq by (rewrite M3'; apply S1). by destruct o.
Qed.

Lemma exec_minv e m : minv m → enabled e m → wp (exec e) m (λ _, minv).
Proof.
  intros Hm He. destruct e; cbn [exec].
  - eapply wp_mono; [by apply tick_minv|by intros ? ? [? _]].
  - eapply wp_mono; [by apply wake_irq_minv|]. by intros ? ? [? _].
  - eapply wp_mono; [by apply sleep_minv|by intros ? ? [? _]].
  - eapply wp_mono; [by apply block_minv|by intros ? ? [? _]].
  - eapply wp_mono; [by apply exit_minv|by intros ? ? [? _]].
  - eapply wp_bind_mono; [by apply spawn_minv|]. intros ? m' H. by apply wp_ret.
  - apply wp_bind, wp_modify. unfold set_current_cr3. apply wp_bind, wp_gets. apply wp_upd; [apply Hm|].
    destruct He as (t & Ht & Hrt). unfold cur_task in Ht. destruct Hm as [[S1 S2 S3] M2 M3 M4 M5 M6 M7].
    constructor; unfold cur_task, cur_syscall in *; cbn; rewrite ?list_lookup_alter_eq, ?length_alter, ?Ht; cbn; try done.
    + constructor; cbn; [by rewrite length_alter| |].
      * intros i t1. destruct (decide (i = current (SCHEDULER m))) as [->|]; [done|]. rewrite list_lookup_alter_ne by done. apply S2.
      * intros i t1. destruct (decide (i = current (SCHEDULER m))) as [->|]; [|rewrite list_lookup_alter_ne by done; apply S3].
        rewrite list_lookup_alter_eq, Ht. cbn. intros [= <-]. cbn. by eapply S3.
    + intros ? [= <-]. by left.
    + intros H ? [= <-]. by apply (M5 H t).
    + by intros ? [= <-].
  - destruct He as [Hr Hsys]. pose proof (mi_gs m Hm) as Hgs. rewrite Hsys in Hgs.
    apply wp_bind, wp_modify, wp_bind, wp_modify, wp_modify. cbn. rewrite Hgs. by apply (set_syscall_minv (Some u)).
  - destruct He as [Hr [u Hsys]]. pose proof (mi_gs m Hm) as Hgs. rewrite Hsys in Hgs. destruct Hgs as [Hgs _].
    apply wp_bind, wp_modify, wp_modify. cbn. rewrite Hgs. by apply (set_syscall_minv None).
  - apply wp_modify. destruct Hm. by constructor.
Qed.

(** ** Runs *)

Inductive trace : machine → list event → machine → Prop :=
| tr_nil m : trace m [] m
| tr_cons e es m m1 m2 : enabled e m → exec e m = Ok (tt, m1) → trace m1 es m2 → trace m (e :: es) m2.

Lemma trace_minv m es m' : trace m es m' → minv m → minv m'.
Proof.
  induction 1 as [|e es m m1 m2 He Hx Htr IH]; [done|]. intros Hm. apply IH. exact (wp_result _ _ _ _ _ (exec_minv e m Hm He) Hx).
Qed.

Definition is_tick (e : event) : bool := match e with Tick => true | _ => false end.
Definition is_spawn (e : event) : bool := match e with Spawn _ _ _ _ _ => true | _ => false end.
Fixpoint ticks (es : list event) : nat :=
  match es with [] => O | e :: es => ((if is_tick e then 1 else 0) + ticks es)%nat end.

(** Task [i] waits for its turn. *)
Definition waiting (m : machine) (i : nat) : Prop :=
  ready_at (tasks (SCHEDULER m)) i ∧ i ≠ current (SCHEDULER m).

Lemma sobs_waiting now s s' i : sobs now s s' → ready_at (tasks s) i → i ≠ current s →
  current s' = i ∨ (ready_at (tasks s') i ∧ i ≠ current s' ∧ (dist s' i < dist s i)%nat).
Proof.
  intros (_ & Hf & Hcl) Hr Hi. destruct (Hcl i Hr Hi) as [|[Hi' Hd]]; [by left|right].
  destruct Hr as (t & Ht & Hrt). destruct (Hf i t Hi Ht) as (t' & Ht' & [F _]).
  split_and!; [|done|done]. exists t'. split; [done|]. by destruct (F Hrt).
Qed.

Lemma exec_waiting e m i : minv m → enabled e m → is_spawn e = false → waiting m i →
  wp (exec e) m (λ _ m', current (SCHEDULER m') = i ∨
    (waiting m' i ∧ (dist (SCHEDULER m') i + (if is_tick e then 1 else 0) ≤ dist (SCHEDULER m) i)%nat)).
Proof.
  intros Hm He Hns [Hr Hi].
  assert (∀ now m', mobs now m m' → current (SCHEDULER m') = i ∨
     (waiting m' i ∧ (dist (SCHEDULER m') i + 1 ≤ dist (SCHEDULER m) i)%nat)) as Hobs.
  { intros now m' [_ Ho]. destruct (sobs_waiting _ _ _ i Ho Hr Hi) as [|(? & ? & ?)]; [by left|right]. split; [by split|lia]. }
  assert (∀ s', like_off (current (SCHEDULER m)) (SCHEDULER m) s' → (ready_at (tasks s') i ∧ i ≠ current s') ∧ dist s' i = dist (SCHEDULER m) i) as Hlike.
  { intros s' (Ec & El & Hl). destruct Hr as (t & Ht & Hrt). destruct (Hl i t Hi Ht) as (t' & Ht' & E & _).
    unfold dist. rewrite Ec, El. split; [split; [exists t'; split; congruence|done]|done]. }
  destruct e; cbn [exec is_tick]; try discriminate Hns.
  - eapply wp_mono; [by apply tick_minv|]. intros ? m' [_ Ho]. by apply (Hobs _ m' Ho).
  - eapply wp_mono; [by apply wake_irq_minv|]. intros ? m' (_ & s & -> & Ec & El & Hlk). right.
    destruct Hr as (t & Ht & Hrt). split; [split|].
    + exists t. split; [|done]. cbn. rewrite (Hlk i t Ht). unfold waits_for. by rewrite Hrt, bool_decide_false.
    + cbn. by rewrite Ec.
    + unfold dist. cbn. rewrite Ec, El. lia.
  - eapply wp_mono; [by apply sleep_minv|]. intros ? m' [_ Ho]. destruct (Hobs _ m' Ho) as [|[? ?]]; [by left|right; split; [done|lia]].
  - eapply wp_mono; [by apply block_minv|]. intros ? m' [_ Ho]. destruct (Hobs _ m' Ho) as [|[? ?]]; [by left|right; split; [done|lia]].
  - eapply wp_mono; [by apply exit_minv|]. intros ? m' [_ Ho]. destruct (Hobs _ m' Ho) as [|[? ?]]; [by left|right; split; [done|lia]].
  - apply wp_bind, wp_modify. unfold set_current_cr3. apply wp_bind, wp_gets, wp_upd; [apply Hm|]. right.
    destruct (Hlike _ (like_off_alter (current (SCHEDULER m)) (set_cr3 phys) (SCHEDULER m))) as [Hw Hd]. cbn in *. split; [done|].
    unfold dist in *. cbn in *. lia.
  - right. split; [by split|]. unfold dist. cbn. lia.
  - right. split; [by split|]. unfold dist. cbn. lia.
  - right. split; [by split|]. unfold dist. cbn. lia.
Qed.

Lemma dist_pos s i : (current s < length (tasks s))%nat → i ≠ current s → (0 < dist s i)%nat.
Proof. intros. unfold dist. destruct (Nat.ltb_spec (current s) i); lia. Qed.

Lemma dist_lt s i : (current s < length (tasks s))%nat → (i < length (tasks s))%nat → i ≠ current s → (dist s i < length (tasks s))%nat.
Proof. intros. unfold dist. destruct (Nat.ltb_spec (current s) i); lia. Qed.

Lemma fair_run m es m' i : trace m es m' → minv m → waiting m i →
  Forall (λ e, is_spawn e = false) es → (dist (SCHEDULER m) i ≤ ticks es)%nat →
  ∃ es1 es2 m1, es = es1 ++ es2 ∧ trace m es1 m1 ∧ trace m1 es2 m' ∧ current (SCHEDULER m1) = i.
Proof.
  intros Htr. induction Htr as [m|e es m m1 m2 He Hx Htr IH]; intros Hm Hw Hns Ht.
  - cbn in Ht. pose proof (dist_pos _ i (so_cur _ (mi_sched m Hm)) (proj2 Hw)). lia.
  - apply Forall_cons_iff in Hns as [Hns Hns'].
    pose proof (wp_result _ _ _ _ _ (exec_minv e m Hm He) Hx) as Hm1.
    destruct (wp_result _ _ _ _ _ (exec_waiting e m i Hm He Hns Hw) Hx) as [Hc|[Hw1 Hd]].
    { exists [e], es, m1. split_and!; [done|by econstructor; [..|constructor]|done|done]. }
    destruct (IH Hm1 Hw1 Hns') as (es1 & es2 & m3 & -> & T1 & T2 & Hc).
    { cbn [ticks] in Ht. lia. }
    exists (e :: es1), es2, m3. split_and!; [done|by econstructor|done|done].
Qed.

(** ** Sleeping *)

Definition asleep (m : machine) (j : nat) (w : Z) : Prop :=
  j ≠ current (SCHEDULER m) ∧ ∃ t, tasks (SCHEDULER m) !! j = Some t ∧
    state t = Blocked ∧ waiting_irq t = None ∧ wake_at t = w.

Lemma mobs_asleep now m m' j w : mobs now m m' → asleep m j w → now < w → asleep m' j w ∧ TICK_COUNT m' = now.
Proof.
  intros [Htk (_ & Hf & _)] (Hj & t & Ht & Hb & Hw & <-) Hlt. destruct (Hf j t Hj Ht) as (t' & Ht' & [_ F]).
  destruct (F Hb Hw Hlt) as (? & ? & ? & ?). split; [|done]. split; [done|]. by exists t'.
Qed.

Lemma exec_asleep e m j w : minv m → enabled e m → asleep m j w →
  0 ≤ TICK_COUNT m < 2 ^ 64 - 1 → TICK_COUNT m + (if is_tick e then 1 else 0) < w →
  wp (exec e) m (λ _ m', asleep m' j w ∧ TICK_COUNT m' = TICK_COUNT m + (if is_tick e then 1 else 0)).
Proof.
  intros Hm He Ha Hr Hlt. destruct e; cbn [exec is_tick] in *; rewrite ?Z.add_0_r in *.
  - eapply wp_mono; [by apply tick_minv|]. intros ? m' [_ Ho]. rewrite wrap_small in Ho by (unfold is_u; lia).
    by apply (mobs_asleep _ m).
  - eapply wp_mono; [by apply wake_irq_minv|]. intros ? m' (_ & s & -> & Ec & El & Hlk). split; [|done].
    destruct Ha as (Hj & t & Ht & Hb & Hw & <-). split; [cbn; by rewrite Ec|]. exists t. split; [|done].
    cbn. rewrite (Hlk j t Ht). unfold waits_for. rewrite Hw, (bool_decide_false (None = _)), andb_false_r by done. done.
  - eapply wp_mono; [by apply sleep_minv|]. intros ? m' [_ Ho]. by apply (mobs_asleep _ m).
  - eapply wp_mono; [by apply block_minv|]. intros ? m' [_ Ho]. by apply (mobs_asleep _ m).
  - eapply wp_mono; [by apply exit_minv|]. intros ? m' [_ Ho]. by apply (mobs_asleep _ m).
  - destruct (mi_len m Hm) as [Hk Hg]. pose proof (spawn_eq nm tramp entry stk kstk m Hk Hg) as E.
    destruct (task_new _ _ _ _ _ _ _ _) as [tn mem']. cbv zeta in E. unfold wp, mbind, ST_bind. rewrite E. cbn.
    split; [|done]. destruct Ha as (Hj & t & Ht & Hb & Hw & <-). split; [done|]. exists t. split; [|done]. cbn.
    rewrite lookup_put_at by apply spawn_slot_le. rewrite decide_False; [done|]. intros ->.
    unfold spawn_slot in Ht. pose proof (find_dead_spec (tasks (SCHEDULER m))) as H. destruct (find_dead _) as [i|]; cbn in Ht.
    + destruct H as (t' & Ht' & Hd & _). congruence.
    + apply lookup_lt_Some in Ht. lia.
  - apply wp_bind, wp_modify. unfold set_current_cr3. apply wp_bind, wp_gets, wp_upd; [apply Hm|]. split; [|done].
    destruct Ha as (Hj & t & Ht & Hrest). split; [done|]. exists t. split; [|done]. cbn. by rewrite list_lookup_alter_ne.
  - done.
  - done.
  - done.
Qed.

Lemma trace_asleep m es m' j w : trace m es m' → minv m → asleep m j w → w < 2 ^ 64 → 0 ≤ TICK_COUNT m →
  TICK_COUNT m + Z.of_nat (ticks es) < w → asleep m' j w.
Proof.
  intros Htr. induction Htr as [m|e es m m1 m2 He Hx Htr IH]; intros Hm Ha Hw H0 Hlt; [done|].
  cbn [ticks] in Hlt.
  destruct (wp_result _ _ _ _ _ (exec_asleep e m j w Hm He Ha ltac:(destruct (is_tick e); lia) ltac:(destruct (is_tick e); lia)) Hx) as [Ha1 Ht1].
  apply IH; [exact (wp_result _ _ _ _ _ (exec_minv e m Hm He) Hx)|done|done| |]; rewrite Ht1; destruct (is_tick e); lia.
Qed.

(** [sleep_ms] with another task Ready really gives up the processor. *)
Lemma sleep_asleep ms m i : minv m → enabled (SleepMs ms) m → waiting m i →
  let w := TICK_COUNT m + Z.max (ms / 10) 1 in 0 ≤ TICK_COUNT m → w < 2 ^ 64 →
  wp (sleep_ms ms) m (λ _ m', asleep m' (current (SCHEDULER m)) w ∧ TICK_COUNT m' = TICK_COUNT m).
Proof.
  cbv zeta. intros Hm [(t & Ht & Hrt) Hsys] [Hr Hi] H0 Hw.
  pose proof (running_no_irq m t Hm Ht ltac:(congruence)) as Hirq.
  unfold sleep_ms. apply wp_bind, wp_gets, wp_bind, wp_gets, wp_bind, upd_cur; [done|].
  apply wp_bind, upd_cur2; [done|]. rewrite wrap_small by (unfold is_u; lia). set (f := _ ∘ _).
  pose proof (with_cur_rest f m Hm ltac:(done)) as Hrest. apply wp_next; [apply Hrest|]. intros sw s' Hp.
  destruct (next_sobs _ _ _ _ (mr_sched _ Hrest) Hp) as [_ Hsome].
  destruct Hsome as [sw' ->].
  { exists i. split; [|done]. destruct Hr as (ti & Hti & Hri). exists ti. cbn. by rewrite list_lookup_alter_ne. }
  eapply wp_mono; [eapply switch_to_spec; [done| | |done]|].
  - intros o Ho. unfold cur_syscall in Hsys. cbn in Ho. rewrite Ho in Hsys. cbn in Hsys. by subst.
  - pose proof (mi_gs m Hm) as Hgs. by rewrite Hsys in Hgs.
  - intros ? m' (Hm' & Hc & Htk & Hlike). split; [|done].
    destruct sw' as [[[old nrsp] ncr3] nk]. destruct Hp as (-> & _ & Hne & Hts & _).
    set (s := SCHEDULER (with_cur f m)) in *. change (current s) with (current (SCHEDULER m)) in *.
    assert (tasks s !! current (SCHEDULER m) = Some (f t)) as Hft.
    { unfold s. cbn. rewrite list_lookup_alter_eq. unfold cur_task in Ht. by rewrite Ht. }
    assert (wake_at (f t) = TICK_COUNT m + Z.max (ms / 10) 1 ∧ state (f t) = Blocked ∧ waiting_irq (f t) = None) as (Hfw & Hfs & Hfi) by done.
    clearbody f.
    assert (tasks s' !! current (SCHEDULER m) = Some (f t)) as Hs't.
    { rewrite Hts, swap_states_lookup by done. rewrite decide_False by done. rewrite decide_True by done.
      assert ((if bool_decide (state (f t) = Running) then set_state Ready (f t) else f t) = f t) as Hno
        by (rewrite Hfs; by rewrite bool_decide_false).
      destruct (_ <? 2)%nat; [rewrite Hft; cbn; by rewrite Hno|]. rewrite lookup_wake, Hft. cbn. unfold expired.
      rewrite Hfw, (proj2 (Z.leb_gt _ _)) by lia. rewrite !andb_false_r. by rewrite Hno. }
    destruct (Hlike (length (tasks s'))) as (_ & _ & Hl). destruct (Hl _ _ (Nat.lt_neq _ _ (lookup_lt_Some _ _ _ Hs't)) Hs't) as (t' & Ht' & E1 & E2 & E3).
    split; [congruence|]. exists t'. split; [done|]. rewrite E1, E2, E3. done.
Qed.

(** ** Stack frames *)

(** The seven words [context_switch] leaves on a stack. *)
Definition frame_at (m : stack) (sp : Z) (r : regs) : Prop :=
  load m sp = r15 r ∧ load m (u64 (sp + 8)) = r14 r ∧ load m (u64 (sp + 16)) = r13 r ∧ load m (u64 (sp + 24)) = r12 r ∧
  load m (u64 (sp + 32)) = rbp r ∧ load m (u64 (sp + 40)) = rbx r ∧ load m (u64 (sp + 48)) = rip r.

Lemma save_frame_at r m : let '(sp, m') := save_frame r m in frame_at m' sp r.
Proof.
  unfold save_frame, frame_at, load.
  assert (∀ a d e, u64 (u64 (a - d) + e) = u64 (a - d + e)) as Hu by (intros; unfold wrap; apply Zplus_mod_idemp_l).
  rewrite !Hu. set (a := rsp_r r).
  replace (a - 56 + 8) with (a - 48) by lia. replace (a - 56 + 16) with (a - 40) by lia. replace (a - 56 + 24) with (a - 32) by lia.
  replace (a - 56 + 32) with (a - 24) by lia. replace (a - 56 + 40) with (a - 16) by lia. replace (a - 56 + 48) with (a - 8) by lia.
  assert (∀ d e, 0 < d ≤ 56 → 0 < e ≤ 56 → d ≠ e → u64 (a - d) ≠ u64 (a - e)) as Hne by (intros d e ???; unfold wrap; dlia).
  split_and!; repeat (rewrite lookup_insert_eq || rewrite lookup_insert_ne by (apply Hne; lia)); done.
Qed.

Lemma load_frame_at m sp r : frame_at m sp r →
  load_frame sp m = mkRegs (rbx r) (rbp r) (r12 r) (r13 r) (r14 r) (r15 r) (u64 (sp + 56)) (rip r).
Proof. intros (H1 & H2 & H3 & H4 & H5 & H6 & H7). unfold load_frame. by rewrite H1, H2, H3, H4, H5, H6, H7. Qed.

Lemma task_new_frame i nm tramp entry stk kstk root m :
  0 ≤ stk → stk + STACK_SIZE < 2 ^ 64 →
  let '(t, m') := task_new i nm tramp entry stk kstk root m in
  frame_at m' (rsp t) (mkRegs entry 0 0 0 0 0 0 tramp) ∧ rsp t mod 16 = 0 ∧ stk ≤ rsp t ∧ rsp t + 56 ≤ stk + STACK_SIZE.
Proof.
  intros H0 H1. unfold task_new. set (sp := Z.ldiff _ 0xF). cbn [rsp].
  assert (sp = (stk + STACK_SIZE - 56) - (stk + STACK_SIZE - 56) mod 16) as Hsp.
  { unfold sp. change 0xF with (Z.ones 4). rewrite Z.ldiff_ones_r by lia. rewrite Z.shiftr_div_pow2, Z.shiftl_mul_pow2 by lia. change (2 ^ 4) with 16. dlia. }
  clearbody sp. unfold STACK_SIZE in *. assert (stk ≤ sp ∧ sp + 56 ≤ stk + 64 * 1024 ∧ sp mod 16 = 0) as (Ha & Hb & Hc) by dlia.
  split_and!; [|done..]. unfold frame_at, load. rewrite !(wrap_small 64) by (unfold is_u; lia).
  assert (∀ d e, d ≠ e → sp + d ≠ sp + e) as Hne by (intros; lia).
  assert (∀ d, d ≠ 0 → sp + d ≠ sp) as Hne0 by (intros; lia).
  split_and!; repeat (rewrite lookup_insert_eq || rewrite lookup_insert_ne by (first [apply Hne; lia|apply Hne0; lia])); done.
Qed.

(** ** Boot *)

(** [kmain]: the three boot tasks, the first of which becomes [kmain]'s own
    context. Each task comes with its entry point and its two stack buffers. *)
Definition boot_sched (tramp root : Z) (e0 s0 k0 e1 s1 k1 e2 s2 k2 : Z) (m : stack) : Scheduler * stack :=
  let '(t0, m) := task_new 0 "idle" tramp e0 s0 k0 root m in
  let '(t1, m) := task_new 1 "blink" tramp e1 s1 k1 root m in
  let '(t2, m) := task_new 2 "svcworker" tramp e2 s2 k2 root m in
  let s := add t2 (add t1 (add t0 sched_empty)) in
  (mkSched (alter (set_state Running) O (tasks s)) (current s), m).

(** The machine when [kmain] enables interrupts. *)
Definition boot (tramp root : Z) (e0 s0 k0 e1 s1 k1 e2 s2 k2 : Z) (r : regs) (m : stack) (kst u : Z) : machine :=
  let '(s, m') := boot_sched tramp root e0 s0 k0 e1 s1 k1 e2 s2 k2 m in
  mkMachine s 0 2 r m' root kst u kst false [KTick; KFresh; KFresh] [None; None; None] 0.

Lemma boot_minv tramp root e0 s0 k0 e1 s1 k1 e2 s2 k2 r m kst u :
  minv (boot tramp root e0 s0 k0 e1 s1 k1 e2 s2 k2 r m kst u).
Proof.
  unfold boot, boot_sched, task_new. cbn. constructor; unfold cur_task, cur_syscall; cbn.
  - constructor; cbn; [lia| |].
    + intros [|[|[|i]]] t; cbn; intros [= <-] Hs; try done.
    + intros [|[|[|i]]] t; cbn; by intros [= <-].
  - intros t [= <-]. by left.
  - done.
  - intros [|[|[|i]]] k o; cbn; by intros ? [= <-] [= <-].
  - lia.
  - by intros t [= <-].
  - done.
Qed.

(** ** Claims *)

(** [next] is round-robin. It chooses the first Ready task behind the current
    one in cyclic order (after waking the sleepers whose time has come), makes it
    Running and the outgoing task Ready if it was still Running, and changes no
    other entry; it returns nothing exactly when no other task is Ready. *)
Theorem next_round_robin now s (Hc : (current s < length (tasks s))%nat) (Hn : (2 ≤ length (tasks s))%nat) :
  wp (next now) s (λ sw s',
    let ts := wake_sleepers now (tasks s) in
    match sw with
    | None => tasks s' = ts ∧ current s' = current s ∧ ∀ i, i ≠ current s → ¬ ready_at ts i
    | Some (old, _, c, k) =>
      old = current s ∧ first_ready ts (current s) (current s') ∧
      (∃ t, ts !! current s' = Some t ∧ c = cr3 t ∧ k = kstack_top t ∧ tasks s' !! current s' = Some (set_state Running t)) ∧
      (∀ t, ts !! current s = Some t → tasks s' !! current s =
         Some (if bool_decide (state t = Running) then set_state Ready t else t)) ∧
      (∀ i, i ≠ current s → i ≠ current s' → tasks s' !! i = ts !! i)
    end).
Proof.
  eapply wp_mono; [by apply next_spec|]. intros sw s'. unfold next_post.
  destruct (Nat.ltb_spec (length (tasks s)) 2); [lia|]. destruct sw as [[[[old nrsp] c] k]|].
  - intros (-> & Hf & Hne & Hts & t & Ht & Hr & -> & -> & ->). split_and!; [done|done| | |].
    + exists t. split_and!; [done..|]. rewrite Hts, swap_states_lookup, decide_True by done. by rewrite Ht.
    + intros t0 Ht0. rewrite Hts, swap_states_lookup, decide_False, decide_True by done. by rewrite Ht0.
    + intros i Hi Hi'. rewrite Hts, swap_states_lookup by done. by rewrite !decide_False by done.
  - intros [-> Hno]. split_and!; [done..|]. intros i Hi Hr. apply (Hno i Hi). split; [done|]. by rewrite length_wake.
Qed.

(** C8: No starvation. In any run of a system with [n] tasks that spawns no
    further one, a task that is Ready gets the processor before [n] timer ticks
    have passed, whatever the other tasks do meanwhile. *)
Theorem ready_task_runs m es m' i (Hm : minv m) (Hi : ready_at (tasks (SCHEDULER m)) i)
    (Htr : trace m es m') (Hns : Forall (λ e, is_spawn e = false) es)
    (Hticks : (length (tasks (SCHEDULER m)) ≤ S (ticks es))%nat) :
  ∃ es1 es2 m1, es = es1 ++ es2 ∧ trace m es1 m1 ∧ trace m1 es2 m' ∧ current (SCHEDULER m1) = i.
Proof.
  destruct (decide (i = current (SCHEDULER m))) as [->|Hne].
  { exists [], es, m. by split_and!; [|constructor| |]. }
  apply fair_run; [done|done|by split|done|].
  assert (i < length (tasks (SCHEDULER m)))%nat by (destruct Hi as (t & Ht & _); by eapply lookup_lt_Some).
  pose proof (dist_lt _ i (so_cur _ (mi_sched m Hm)) ltac:(done) Hne). lia.
Qed.

(** A task that calls [sleep_ms] while another task is Ready is not run again
    before [max(ms / 10, 1)] timer ticks have passed, whatever happens meanwhile. *)
Theorem sleep_not_early ms m m1 es m2 i (Hm : minv m) (He : enabled (SleepMs ms) m)
    (Hi : waiting m i) (H0 : 0 ≤ TICK_COUNT m) (Hov : TICK_COUNT m + Z.max (ms / 10) 1 < 2 ^ 64)
    (Hs : sleep_ms ms m = Ok (tt, m1)) (Htr : trace m1 es m2)
    (Ht : Z.of_nat (ticks es) < Z.max (ms / 10) 1) :
  current (SCHEDULER m2) ≠ current (SCHEDULER m) ∧
  ∃ t, tasks (SCHEDULER m2) !! current (SCHEDULER m) = Some t ∧ state t = Blocked.
Proof.
  destruct (wp_result _ _ _ _ _ (sleep_asleep ms m i Hm He Hi H0 Hov) Hs) as [Ha Htk].
  destruct (trace_asleep m1 es m2 (current (SCHEDULER m)) (TICK_COUNT m + Z.max (ms / 10) 1)) as (Hne & t & Hlk & Hb & _);
    [done|exact (proj1 (wp_result _ _ _ _ _ (sleep_minv ms m Hm He) Hs))|done|done|lia|lia|].
  split; [done|]. by exists t.
Qed.

(** A context switch loses nothing. The frame [context_switch] pushes for the
    outgoing task restores exactly its callee-saved registers, stack pointer and
    return address when the task is switched back to with its seven stack words
    untouched; and the frame [Task::new] builds starts a new task in the
    trampoline with its entry point in rbx and the stack aligned as the ABI asks. *)
Theorem context_switch_roundtrip r m0 :
  (let '(sp, m1) := save_frame r m0 in
   ∀ m2, (∀ k, 0 ≤ k < 7 → load m2 (u64 (sp + 8 * k)) = load m1 (u64 (sp + 8 * k))) → is_u 64 (rsp_r r) → load_frame sp m2 = r) ∧
  (∀ i nm tramp entry stk kstk root, 0 ≤ stk → stk + STACK_SIZE < 2 ^ 64 →
     let '(t, m1) := task_new i nm tramp entry stk kstk root m0 in
     let r' := load_frame (rsp t) m1 in
     rip r' = tramp ∧ rbx r' = entry ∧ rsp_r r' mod 16 = 8 ∧ stk ≤ rsp t ∧ rsp_r r' ≤ stk + STACK_SIZE).
Proof.
  split.
  - pose proof (save_frame_at r m0) as H. destruct (save_frame r m0) as [sp m1] eqn:E. intros m2 Hm2 Hu.
    assert (sp = u64 (rsp_r r - 56)) as Hsp by (unfold save_frame in E; congruence).
    assert (frame_at m2 sp r) as Hf.
    { destruct H as (H1 & H2 & H3 & H4 & H5 & H6 & H7). unfold frame_at.
      rewrite (Hm2 1 ltac:(lia) : load m2 (u64 (sp + 8)) = _), (Hm2 2 ltac:(lia) : load m2 (u64 (sp + 16)) = _),
        (Hm2 3 ltac:(lia) : load m2 (u64 (sp + 24)) = _), (Hm2 4 ltac:(lia) : load m2 (u64 (sp + 32)) = _),
        (Hm2 5 ltac:(lia) : load m2 (u64 (sp + 40)) = _), (Hm2 6 ltac:(lia) : load m2 (u64 (sp + 48)) = _).
      split_and!; try done. specialize (Hm2 0 ltac:(lia)). rewrite Z.add_0_r, (wrap_small 64 sp) in Hm2; [congruence|].
      rewrite Hsp. by apply wrap_range. }
    rewrite (load_frame_at _ _ _ Hf), Hsp. destruct r; cbn. f_equal. cbn in Hu. unfold wrap, is_u in *. dlia.
  - intros i nm tramp entry stk kstk root H0 H1. pose proof (task_new_frame i nm tramp entry stk kstk root m0 H0 H1) as H.
    destruct (task_new _ _ _ _ _ _ _ _) as [t m1]. destruct H as (Hf & Hmod & Hlo & Hhi). cbv zeta.
    rewrite (load_frame_at _ _ _ Hf). cbn. split_and!; [done|done| |done|]; rewrite wrap_small by (unfold is_u; lia); dlia.
Qed.

(** Task ids are not unique: [kmain] registers its three tasks with ids 0, 1
    and 2 while the id counter starts at 2, so the first task spawned gets the id
    of the service worker. The new task takes its own slot and changes no other. *)
Theorem first_spawn_reuses_id tramp root e0 s0 k0 e1 s1 k1 e2 s2 k2 r st kst u nm entry stk kstk :
  let m := boot tramp root e0 s0 k0 e1 s1 k1 e2 s2 k2 r st kst u in
  wp (spawn nm tramp entry stk kstk) m (λ i m', i = 2 ∧
    (∀ j, (j < 3)%nat → tasks (SCHEDULER m') !! j = tasks (SCHEDULER m) !! j) ∧
    ∃ t2 t3, tasks (SCHEDULER m') !! 2%nat = Some t2 ∧ tasks (SCHEDULER m') !! 3%nat = Some t3 ∧
      name t2 = "svcworker" ∧ name t3 = nm ∧ id t2 = id t3).
Proof.
  cbv zeta. unfold boot, boot_sched, task_new, spawn, wp. cbn. split; [done|]. split.
  - intros [|[|[|j]]] Hj; cbn; [done..|lia].
  - by do 2 eexists.
Qed.

(** ** Witnesses *)

Definition demo : machine :=
  boot 0x1000 0x2000 1 0x100000 0x120000 2 0x200000 0x220000 3 0x300000 0x320000
    (mkRegs 1 2 3 4 5 6 0x90000 0x5000) ∅ 0x80000 0.

Lemma demo_minv : minv demo.
Proof. apply boot_minv. Qed.

Definition step_fun (e : event) (m : machine) : machine :=
  match exec e m with Ok (_, m') => m' | Panic _ => m end.

(** Two timer ticks: idle, blink, then the service worker, which sleeps. *)
Definition demo2 : machine := step_fun Tick (step_fun Tick demo).

Lemma exec_step_fun e m : minv m → enabled e m → exec e m = Ok (tt, step_fun e m) ∧ minv (step_fun e m).
Proof.
  intros Hm He. unfold step_fun. destruct (wp_inv _ _ _ (exec_minv e m Hm He)) as ([] & m' & -> & Hm'). done.
Qed.

Lemma trace_snoc m es m1 e : trace m es m1 → minv m1 → enabled e m1 → trace m (es ++ [e]) (step_fun e m1).
Proof.
  intros Htr Hm He. induction Htr as [m|e0 es m m1 m2 He0 Hx Htr IH].
  - econstructor; [done|apply (exec_step_fun e m Hm He)|constructor].
  - econstructor; [done|done|]. by apply IH.
Qed.

Lemma demo_trace : trace demo [Tick; Tick] demo2.
Proof.
  assert (enabled Tick demo) as H1 by (vm_compute; reflexivity). destruct (exec_step_fun Tick demo demo_minv H1) as [E1 Hm1].
  apply (trace_snoc demo [Tick] (step_fun Tick demo) Tick); [|exact Hm1|vm_compute; reflexivity].
  apply (trace_snoc demo [] demo Tick); [constructor|exact demo_minv|exact H1].
Qed.

Lemma next_round_robin_witness : wp (next 5) (SCHEDULER demo) (λ sw s', is_Some sw ∧ current s' = 1%nat).
Proof.
  eapply wp_mono; [apply next_round_robin; cbn; lia|]. intros sw s' H.
  destruct sw as [[[[old nrsp] c] k]|].
  - destruct H as (_ & (d & Hd & E & _ & Hno) & _). split; [by eexists|]. cbn in Hd.
    destruct d as [|[|[|d]]]; [lia|exact E| |lia]. destruct (Hno 1%nat); [lia|]. eexists. split; reflexivity.
  - destruct H as (_ & _ & Hno). destruct (Hno 1%nat); [done|]. eexists. split; reflexivity.
Defined.

Lemma ready_task_runs_witness : ready_at (tasks (SCHEDULER demo)) 2 ∧
  ∃ es1 m1, trace demo es1 m1 ∧ current (SCHEDULER m1) = 2%nat.
Proof.
  assert (ready_at (tasks (SCHEDULER demo)) 2) as Hr by (eexists; split; reflexivity). split; [done|].
  destruct (ready_task_runs demo [Tick; Tick] demo2 2 demo_minv Hr demo_trace) as (es1 & es2 & m1 & _ & T1 & _ & Hc).
  - by repeat constructor.
  - cbn. lia.
  - by exists es1, m1.
Defined.

Definition demo3 : machine := step_fun (SleepMs 50) demo2.
Definition demo4 : machine := step_fun Tick (step_fun Tick demo3).

Lemma exec_sleep ms m : sleep_ms ms m = exec (SleepMs ms) m.
Proof. reflexivity. Qed.

Lemma sleep_not_early_witness : current (SCHEDULER demo2) = 2%nat ∧ current (SCHEDULER demo4) ≠ 2%nat.
Proof.
  split; [vm_compute; reflexivity|].
  assert (minv demo2) as Hm by exact (trace_minv _ _ _ demo_trace demo_minv).
  assert (enabled (SleepMs 50) demo2) as He by (split; [eexists; split; vm_compute; reflexivity|vm_compute; reflexivity]).
  assert (exec (SleepMs 50) demo2 = Ok (tt, demo3) ∧ minv demo3) as [E3 Hm3] by exact (exec_step_fun (SleepMs 50) demo2 Hm He).
  assert (enabled Tick demo3) as He3 by (vm_compute; reflexivity).
  destruct (sleep_not_early 50 demo2 demo3 [Tick; Tick] demo4 0 Hm) as [H _].
  - exact He.
  - split; [eexists; split; vm_compute; reflexivity|vm_compute; discriminate].
  - vm_compute; discriminate.
  - vm_compute; reflexivity.
  - exact (eq_trans (exec_sleep 50 demo2) E3).
  - apply (trace_snoc demo3 [Tick] (step_fun Tick demo3) Tick); [|exact (proj2 (exec_step_fun Tick demo3 Hm3 He3))|vm_compute; reflexivity].
    apply (trace_snoc demo3 [] demo3 Tick); [constructor|exact Hm3|exact He3].
  - reflexivity.
  - exact H.
Defined.
