(* ===== verification/Preempt.v ===== *)
(** The scheduler's calls statement by statement ([kernel/src/scheduler.rs]),
    with interrupts between the statements.

    [Scheduler] runs each call in one step. Here a call is a list of statements
    ([stmts]): the section of [sleep_ms], [exit_current] and [spawn] under the
    lock, the three statements of a switch ([use_kstack], [write_cr3],
    [context_switch]), and the two of [run_elf] that load a page table
    (process.rs). System-call code runs with interrupts masked (SFMASK), and so
    do the interrupt handlers: their calls stay one statement ([SAtom]). A
    processor that switches away in the middle of a call parks the rest of it
    under the slot its stack pointer was saved in. *)

From stdpp Require Import prelude list gmap numbers strings relations.
From S2P Require Import Prelude Scheduler.

Local Open Scope Z_scope.

(** ** Statements *)

Inductive stmt :=
| SAtom (e : event)                      (* a call made with interrupts masked *)
| SSleep (ms : Z)                        (* [sleep_ms]'s section under the lock *)
| SExit                                  (* [exit_current]'s section under the lock *)
| SUndo                                  (* [sleep_ms], nothing else to run *)
| SKstack (top : Z)
| SWriteCr3 (phys : Z)
| SSwitch (old : nat) (new_rsp : Z) (site : kont)
| SSetCr3 (phys : Z)
| SNewTask (nm : string) (tramp entry stk kstk : Z) (* fetch_add; [Task::new] *)
| SAddTask (t : Task).                   (* [spawn]'s section under the lock *)

(** What a call of [e] runs. *)
Definition stmts (e : event) : list stmt :=
  match e with
  | SleepMs ms => [SSleep ms]
  | ExitCurrent => [SExit]
  | LoadCr3 c => [SWriteCr3 c; SSetCr3 c]
  | Spawn nm tramp entry stk kstk => [SNewTask nm tramp entry stk kstk]
  | e => [SAtom e]
  end.

Definition switch_stmts (sw : nat * Z * Z * Z) (site : kont) : list stmt :=
  let '(old, new_rsp, new_cr3, new_kstack_top) := sw in
  [SKstack new_kstack_top; SWriteCr3 new_cr3; SSwitch old new_rsp site].

Definition new_task (nm : string) (tramp entry stk kstk : Z) : ST machine Task := λ m,
  let '(t, mem') := task_new (NEXT_TASK_ID m) nm tramp entry stk kstk (CR3 m) (mem m) in
  Ok (t, mkMachine (SCHEDULER m) (TICK_COUNT m) (u64 (NEXT_TASK_ID m + 1)) (cpu m) mem' (CR3 m) (kernel_stack m)
           (user_rsp m) (rsp0 m) (gs_percpu m) (konts m) (in_syscall m) (switches m)).

Definition add_task (t : Task) : ST machine unit := λ m,
  let s := SCHEDULER m in
  let '(ts, ks, gs) :=
    match find_dead (tasks s) with
    | Some slot => (<[slot := t]> (tasks s), <[slot := KFresh]> (konts m), <[slot := None]> (in_syscall m))
    | None => (tasks s ++ [t], konts m ++ [KFresh], in_syscall m ++ [None])
    end in
  Ok (tt, mkMachine (mkSched ts (current s)) (TICK_COUNT m) (NEXT_TASK_ID m) (cpu m) (mem m) (CR3 m) (kernel_stack m)
           (user_rsp m) (rsp0 m) (gs_percpu m) ks gs (switches m)).

(** One statement; the result is what the call runs next, before the rest. *)
Definition run (st : stmt) : ST machine (list stmt) :=
  match st with
  | SAtom e => exec e ≫= λ _, mret []
  | SSleep ms =>
    let ticks := Z.max (ms / 10) 1 in
    cur ← current_task_index;
    now ← gets TICK_COUNT;
    locked (upd_task cur (set_wake (u64 (now + ticks)))) ≫= λ _,
    locked (upd_task cur (set_state Blocked)) ≫= λ _,
    sw ← locked (next now);
    mret (match sw with Some sw => switch_stmts sw KSleep | None => [SUndo] end)
  | SExit =>
    cur ← current_task_index;
    locked (upd_task cur (set_state Dead)) ≫= λ _,
    now ← gets TICK_COUNT;
    sw ← locked (next now);
    mret (match sw with Some sw => switch_stmts sw KGone | None => [] end)
  | SUndo => cur ← current_task_index; locked (upd_task cur (set_state Running)) ≫= λ _, mret []
  | SKstack top => use_kstack top ≫= λ _, mret []
  | SWriteCr3 c => write_cr3 c ≫= λ _, mret []
  | SSwitch old new_rsp site => context_switch old new_rsp site ≫= λ _, mret []
  | SSetCr3 c => set_current_cr3 c ≫= λ _, mret []
  | SNewTask nm tramp entry stk kstk => t ← new_task nm tramp entry stk kstk; mret [SAddTask t]
  | SAddTask t => add_task t ≫= λ _, mret []
  end.

(** A call run without interruption, in at most [n] statements. *)
Fixpoint sem (n : nat) (c : list stmt) : ST machine unit :=
  match c, n with
  | [], _ => mret tt
  | _, O => panic "fuel"
  | st :: c, S n => ps ← run st; sem n (ps ++ c)
  end.

(** ** The system *)

(** [code] is what is left of the call the processor is in. *)
Record sys := mkSys { mach : machine; code : list stmt; parked : gmap nat (list stmt) }.

Definition start (m : machine) : sys := mkSys m [] ∅.

Definition rest_of (p : gmap nat (list stmt)) (i : nat) : list stmt := default [] (p !! i).

(** Behind a switch away from [slot] the processor continues the code parked
    under the new current task; the rest of the old code is parked. *)
Definition land (m m' : machine) (slot : nat) (c : list stmt) (p : gmap nat (list stmt)) : sys :=
  if (switches m' =? switches m)%nat then mkSys m' c p
  else let i := current (SCHEDULER m') in mkSys m' (rest_of (<[slot := c]> p) i) (delete i (<[slot := c]> p)).

Definition slot_of (st : stmt) (m : machine) : nat :=
  match st with SSwitch old _ _ => old | _ => current (SCHEDULER m) end.

Definition is_intr (e : event) : bool := match e with Tick | WakeIrq _ => true | _ => false end.

(** The processor runs one statement of the call it is in. *)
Inductive proceed : sys → sys → Prop :=
| proceed_stmt st c ps m' s : code s = st :: c → run st (mach s) = Ok (ps, m') →
    proceed s (land (mach s) m' (slot_of st (mach s)) (ps ++ c) (parked s)).

(** A calm system takes no interrupt inside one of the calls. *)
Inductive sstep (calm : bool) : sys → sys → Prop :=
| begin_call e s : code s = [] → is_intr e = false → enabled e (mach s) →
    sstep calm s (mkSys (mach s) (stmts e) (parked s))
| next_stmt s s' : proceed s s' → sstep calm s s'
| interrupt e m' s : is_intr e = true → enabled e (mach s) → (calm = true → code s = []) →
    exec e (mach s) = Ok (tt, m') →
    sstep calm s (land (mach s) m' (current (SCHEDULER (mach s))) (code s) (parked s)).

(** ** A call without interrupts is [Scheduler]'s operation *)

Lemma st_assoc {S A B C} (c : ST S A) (k : A → ST S B) (l : B → ST S C) s :
  ((c ≫= k) ≫= l) s = (c ≫= λ a, k a ≫= l) s.
Proof. unfold mbind, ST_bind. by destruct (c s) as [[]|]. Qed.

Lemma st_ext {S A B} (c : ST S A) (k l : A → ST S B) s : (∀ a s', k a s' = l a s') → (c ≫= k) s = (c ≫= l) s.
Proof. unfold mbind, ST_bind. intros H. by destruct (c s) as [[]|]. Qed.

Lemma st_tt {S} (c : ST S unit) s : (c ≫= λ _, mret tt) s = c s.
Proof. unfold mbind, ST_bind. by destruct (c s) as [[[] ?]|]. Qed.

Lemma st_ret {S A B} (a : A) (k : A → ST S B) s : (mret a ≫= k) s = k a s.
Proof. done. Qed.

(** Align the first commands of the two sides. *)
Ltac seq := repeat (rewrite st_assoc || (rewrite st_ret; cbn [app run sem])); apply st_ext; intros ? ?.

Lemma sem_switch n sw site m : sem (3 + n) (switch_stmts sw site) m = switch_to sw site m.
Proof.
  destruct sw as [[[old nrsp] c] k]. cbn [switch_stmts sem Nat.add run switch_to app].
  seq. seq. rewrite st_ret. cbn [app run]. rewrite st_assoc. by destruct n; apply st_tt.
Qed.

Lemma spawn_split nm tramp entry stk kstk m :
  (t ← new_task nm tramp entry stk kstk; add_task t) m = (spawn nm tramp entry stk kstk ≫= λ _, mret tt) m.
Proof.
  unfold new_task, add_task, spawn, mbind, ST_bind, mret, ST_ret. cbn. by destruct (find_dead _).
Qed.

Lemma sem_stmts e m : sem 5 (stmts e) m = exec e m.
Proof.
  destruct e; cbn [stmts sem run exec app]; try (rewrite st_assoc; apply st_tt).
  - unfold sleep_ms. seq. seq. seq. seq. seq. destruct a3 as [sw|].
    + rewrite st_ret, app_nil_r. apply (sem_switch 1).
    + rewrite st_ret. cbn [sem app run]. seq. rewrite st_assoc. apply st_tt.
  - unfold exit_current. seq. seq. seq. seq. destruct a2 as [sw|]; [|done].
    rewrite st_ret, app_nil_r. apply (sem_switch 1).
  - rewrite <- spawn_split. seq. rewrite st_ret. cbn [sem app run]. rewrite st_assoc. apply st_tt.
  - seq. rewrite st_ret. cbn [sem app run]. rewrite st_assoc. apply st_tt.
Qed.

(** ** Calm runs *)

(** The statements in front of a last one switch nothing away. *)
Fixpoint tail_ok (c : list stmt) : bool :=
  match c with
  | [] => true
  | SKstack _ :: c | SWriteCr3 _ :: c | SSetCr3 _ :: c => tail_ok c
  | _ :: c => bool_decide (c = [])
  end.

(** The call under way ends in [n] statements, in a machine that is well-formed;
    nothing is parked. *)
Record quiet (n : nat) (s : sys) : Prop := {
  q_sem : wp (sem n (code s)) (mach s) (λ _, minv);
  q_tail : tail_ok (code s) = true;
  q_parked : ∀ i, rest_of (parked s) i = [] }.

Lemma quiet_minv n s : quiet n s → code s = [] → minv (mach s).
Proof. intros [H _ _] E. rewrite E in H. by destruct n. Qed.

Lemma sem_more n c m Q : wp (sem n c) m Q → wp (sem (S n) c) m Q.
Proof.
  revert c m. induction n as [|n IH]; intros [|st c] m H; [done..|]. cbn [sem] in *.
  destruct (wp_inv _ _ _ H) as ([] & m2 & E & HQ). apply bind_ok_inv in E as (ps & m1 & Er & Es).
  apply wp_bind. eapply wp_ok; [done|]. apply IH. by eapply wp_ok.
Qed.

Lemma quiet_more n k s : (n ≤ k)%nat → quiet n s → quiet k s.
Proof. induction 1 as [|k _ IH]; [done|]. intros H. destruct (IH H) as [Hs Ht Hp]. split; [by apply sem_more|done..]. Qed.

(** Commands that switch nothing. *)
Definition stays {A} (c : ST machine A) : Prop := ∀ m a m', c m = Ok (a, m') → switches m' = switches m.

Lemma stays_bind {A B} (c : ST machine A) (k : A → ST machine B) : stays c → (∀ a, stays (k a)) → stays (c ≫= k).
Proof. intros Hc Hk m b m' E. apply bind_ok_inv in E as (a & m1 & E1 & E2). by rewrite (Hk _ _ _ _ E2), (Hc _ _ _ E1). Qed.
Lemma stays_ret {A} (a : A) : stays (mret a).
Proof. by intros m ? ? [= _ <-]. Qed.
Lemma stays_gets {A} (f : machine → A) : stays (gets f).
Proof. by intros m ? ? [= _ <-]. Qed.
Lemma stays_modify f : (∀ m, switches (f m) = switches m) → stays (modify f).
Proof. intros H m ? ? [= _ <-]. apply H. Qed.
Lemma stays_locked {A} (c : ST Scheduler.Scheduler A) : stays (locked c).
Proof. intros m a m'. unfold locked. by destruct (c (SCHEDULER m)) as [[? ?]|]; [intros [= _ <-]|]. Qed.
Lemma stays_new_task nm tramp entry stk kstk : stays (new_task nm tramp entry stk kstk).
Proof. by intros m ? ? [= _ <-]. Qed.
Lemma stays_add_task t : stays (add_task t).
Proof. intros m ? ?. unfold add_task. by destruct (find_dead _); intros [= _ <-]. Qed.

Ltac stays :=
  repeat first [apply stays_bind; [|intros ?] | apply stays_ret | apply stays_gets | apply stays_locked
    | by apply stays_modify | apply stays_new_task | apply stays_add_task].

Definition switches_away (st : stmt) : bool := match st with SAtom _ | SSwitch _ _ _ => true | _ => false end.

Lemma run_stays st : switches_away st = false → stays (run st).
Proof. destruct st; [done|..]; intros H; [..|done| | |]; cbn [run]; unfold current_task_index, set_current_cr3; stays. Qed.

Lemma run_tail st c m ps m' : tail_ok (st :: c) = true → run st m = Ok (ps, m') →
  tail_ok (ps ++ c) = true ∧ (switches m' ≠ switches m → ps ++ c = []).
Proof.
  intros Ht E. destruct (switches_away st) eqn:Hs.
  - assert (ps = []) as ->.
    { destruct st; try done; apply bind_ok_inv in E as (? & ? & _ & E); by injection E as <- _. }
    assert (c = []) as -> by (destruct st; try done; by apply bool_decide_eq_true in Ht). done.
  - split; [|intros Hne; by destruct (Hne (run_stays st Hs _ _ _ E))].
    destruct st; try done; cbn [tail_ok] in Ht; cbn [run] in E; try (apply bool_decide_eq_true in Ht as ->);
      rewrite ?app_nil_r; repeat (apply bind_ok_inv in E as (? & ? & _ & E)); injection E as <- _; try done;
      repeat case_match; try done.
    all: match goal with p : nat * Z * Z * Z |- _ => by destruct p as [[[? ?] ?] ?] end.
Qed.

Lemma rest_of_clear p i j : (∀ k, rest_of p k = []) → rest_of (<[i := []]> p) j = [].
Proof.
  intros H. unfold rest_of. destruct (decide (i = j)) as [<-|]; [by rewrite lookup_insert_eq|].
  rewrite lookup_insert_ne by done. apply H.
Qed.

Lemma land_quiet n m m' slot c p : wp (sem n c) m' (λ _, minv) → tail_ok c = true →
  (switches m' ≠ switches m → c = []) → (∀ i, rest_of p i = []) → quiet n (land m m' slot c p).
Proof.
  intros Hs Ht Hc Hp. unfold land. destruct (Nat.eqb_spec (switches m') (switches m)) as [|Hne]; [by split|].
  rewrite (Hc Hne) in *. split; cbn [code mach parked].
  - rewrite rest_of_clear by done. by destruct n.
  - by rewrite rest_of_clear.
  - intros i. unfold rest_of. destruct (decide (current (SCHEDULER m') = i)) as [->|].
    + by rewrite lookup_delete_eq.
    + rewrite lookup_delete_ne by done. by apply rest_of_clear.
Qed.

Lemma proceed_quiet n s s' : quiet (S n) s → proceed s s' → quiet n s'.
Proof.
  intros Hq Hst. destruct Hst as [st c ps m' s Hc Er], Hq as [Hs Ht Hp]. rewrite Hc in Hs, Ht. destruct (run_tail _ _ _ _ _ Ht Er) as [Ht' Hsw].
  apply land_quiet; [|done..]. cbn [sem] in Hs. destruct (wp_inv _ _ _ Hs) as ([] & m2 & E & HQ).
  apply bind_ok_inv in E as (ps' & m1 & Er' & Es). rewrite Er in Er'. injection Er' as <- <-. by eapply wp_ok.
Qed.

Lemma quiet_runs n s st c : quiet n s → code s = st :: c → ∃ ps m', run st (mach s) = Ok (ps, m').
Proof.
  intros [Hs _ _] Hc. rewrite Hc in Hs. destruct n as [|n]; [done|]. destruct (wp_inv _ _ _ Hs) as (? & ? & E & _).
  apply bind_ok_inv in E as (ps & m1 & E & _). eauto.
Qed.

Lemma quiet_ends n s : quiet n s → ∃ s', rtc proceed s s' ∧ code s' = [].
Proof.
  revert s. induction n as [|n IH]; intros s H; destruct (code s) as [|st c] eqn:Hc; try by exists s.
  - destruct H as [Hs _ _]. by rewrite Hc in Hs.
  - destruct (quiet_runs _ _ _ _ H Hc) as (ps & m' & E). pose proof (proceed_stmt _ _ _ _ _ Hc E) as Hp.
    destruct (IH _ (proceed_quiet _ _ _ H Hp)) as (s' & Hr & Hc'). exists s'. split; [|done]. by eapply rtc_l.
Qed.

Lemma calm_quiet s s' : sstep true s s' → quiet 5 s → quiet 5 s'.
Proof.
  intros Hst Hq. destruct Hst as [e s Hc Hi He|s s' Hp|e m' s Hi He Hc Hx].
  - pose proof (quiet_minv _ _ Hq Hc) as Hm. split; cbn [code mach parked]; [|by destruct e|apply Hq].
    unfold wp. rewrite sem_stmts. exact (exec_minv e _ Hm He).
  - apply (quiet_more 4); [lia|]. by eapply proceed_quiet.
  - specialize (Hc eq_refl). pose proof (quiet_minv _ _ Hq Hc) as Hm. rewrite Hc.
    apply land_quiet; [|done|done|apply Hq]. exact (wp_result _ _ _ _ _ (exec_minv e _ Hm He) Hx).
Qed.

Lemma calm_run_quiet m s : minv m → rtc (sstep true) (start m) s → quiet 5 s.
Proof.
  intros Hm. apply (rtc_ind_r (λ s, quiet 5 s)).
  - by split.
  - intros s1 s2 _ Hst. by apply calm_quiet.
Qed.

(** ** Claims *)

(** C7: In every state the system reaches from boot by timer ticks, interrupts,
    system calls, sleeping, blocking, spawning, exiting and address-space changes,
    each call run statement by statement, as long as no interrupt falls inside
    one of the calls that run with interrupts on (what happens then is
    [tick_between_cr3_writes] and [tick_inside_sleep] below): no statement
    panics and the call under way comes to its end; and between two calls only
    the current task is Running, the loaded page table is its own, and once a
    switch has happened so are the system-call and interrupt stacks (before that
    they are the boot stacks); a task inside a system call finds its own user
    stack pointer in [gs:[8]] with GS selecting the per-CPU block, whatever other
    tasks did while it was blocked. *)
Theorem scheduler_safe tramp root e0 s0 k0 e1 s1 k1 e2 s2 k2 r st kst u s
    (Hr : rtc (sstep true) (start (boot tramp root e0 s0 k0 e1 s1 k1 e2 s2 k2 r st kst u)) s) :
  let m := mach s in
  (∀ x c, code s = x :: c → ∃ ps m', run x m = Ok (ps, m')) ∧
  (∃ s', rtc proceed s s' ∧ code s' = []) ∧
  (code s = [] →
   (∀ i t, tasks (SCHEDULER m) !! i = Some t → state t = Running → i = current (SCHEDULER m)) ∧
   (∃ t, cur_task m = Some t ∧ (state t = Running ∨ state t = Dead) ∧ CR3 m = cr3 t ∧
      ((0 < switches m)%nat → kernel_stack m = kstack_top t ∧ rsp0 m = kstack_top t)) ∧
   (∀ v, cur_syscall m = Some v → gs_percpu m = true ∧ user_rsp m = v) ∧
   (cur_syscall m = None → gs_percpu m = false) ∧
   (∀ e, enabled e m → ∃ m', exec e m = Ok (tt, m'))).
Proof.
  cbv zeta. pose proof (calm_run_quiet _ s (boot_minv _ _ _ _ _ _ _ _ _ _ _ _ _ _ _) Hr) as Hq.
  split; [|split]; [intros x c; by apply (quiet_runs 5)|by apply (quiet_ends 5)|].
  intros Hc. pose proof (quiet_minv _ _ Hq Hc) as Hm.
  destruct (cur_task_some _ Hm) as [t Ht]. pose proof (mi_gs _ Hm) as Hgs. split_and!.
  - apply Hm.
  - exists t. split_and!; [done|by apply Hm|by apply Hm|]. intros Hs. by apply Hm.
  - intros v Hv. by rewrite Hv in Hgs.
  - intros Hv. by rewrite Hv in Hgs.
  - intros e He. destruct (wp_inv _ _ _ (exec_minv e _ Hm He)) as ([] & m' & E & _). eauto.
Qed.

(** ** Interrupts inside a call *)

Definition next_fun (s : sys) : sys :=
  match code s with
  | st :: c => match run st (mach s) with
               | Ok (ps, m') => land (mach s) m' (slot_of st (mach s)) (ps ++ c) (parked s)
               | Panic _ => s
               end
  | [] => s
  end.

Definition intr_fun (e : event) (s : sys) : sys :=
  match exec e (mach s) with
  | Ok (_, m') => land (mach s) m' (current (SCHEDULER (mach s))) (code s) (parked s)
  | Panic _ => s
  end.

Definition begin_fun (e : event) (s : sys) : sys := mkSys (mach s) (stmts e) (parked s).

Definition is_ok {A} (x : outcome A) : bool := match x with Ok _ => true | Panic _ => false end.

Lemma run_begin b e s0 s : rtc (sstep b) s0 s → code s = [] → is_intr e = false → enabled e (mach s) →
  rtc (sstep b) s0 (begin_fun e s).
Proof. intros. eapply rtc_r; [done|]. by constructor. Qed.

Lemma run_next b s0 s : rtc (sstep b) s0 s →
  match code s with st :: _ => is_ok (run st (mach s)) | [] => false end = true → rtc (sstep b) s0 (next_fun s).
Proof.
  intros Hr Hok. eapply rtc_r; [done|]. apply next_stmt. unfold next_fun.
  destruct (code s) as [|st c] eqn:Hc; [done|]. destruct (run st (mach s)) as [[ps m']|] eqn:E; [|done].
  by apply proceed_stmt.
Qed.

Lemma run_intr b e s0 s : rtc (sstep b) s0 s → is_intr e = true → (b = true → code s = []) → enabled e (mach s) →
  is_ok (exec e (mach s)) = true → rtc (sstep b) s0 (intr_fun e s).
Proof.
  intros Hr Hi Hc He Hok. eapply rtc_r; [done|]. unfold intr_fun.
  destruct (exec e (mach s)) as [[[] m']|] eqn:E; [|done]. by eapply interrupt.
Qed.

Definition load_begun : sys := next_fun (begin_fun (LoadCr3 0x7000) (start demo)).
Definition ticked_thrice (s : sys) : sys := intr_fun Tick (intr_fun Tick (intr_fun Tick s)).

(** [run_elf] loads its page table and records it in two statements. When ticks
    take the task away in between and back, it continues on its old page table
    with the new one recorded. *)
Lemma tick_between_cr3_writes : ∃ s, rtc (sstep false) (start demo) s ∧ code s = [] ∧
  CR3 (mach s) = 0x2000 ∧ cr3 <$> cur_task (mach s) = Some 0x7000 ∧ state <$> cur_task (mach s) = Some Running.
Proof.
  exists (next_fun (ticked_thrice load_begun)). split; [|by vm_compute].
  unfold ticked_thrice, load_begun. apply run_next; [|by vm_compute].
  repeat (apply run_intr; [|done|done|by vm_compute|by vm_compute]).
  apply run_next; [|by vm_compute]. apply run_begin; [apply rtc_refl|done|done|].
  eexists. split; [reflexivity|done].
Qed.

(** A tick between [sleep_ms]'s choice of the next task and its switch saves the
    sleeper's context as that of the task chosen, whose own is lost: task 1, which
    never ran, is left with the sleeper's stack pointer. *)
Lemma tick_inside_sleep : ∃ s, rtc (sstep false) (start demo) s ∧
  rsp <$> tasks (SCHEDULER demo) !! 1%nat = Some (0x200000 + STACK_SIZE - 64) ∧
  rsp <$> tasks (SCHEDULER (mach s)) !! 1%nat = Some (rsp_r (cpu demo) - 56) ∧ rsp_r (cpu demo) = 0x90000.
Proof.
  exists (intr_fun Tick (next_fun (begin_fun (SleepMs 10) (start demo)))). split; [|by vm_compute].
  apply run_intr; [|done|done|by vm_compute|by vm_compute].
  apply run_next; [|by vm_compute]. apply run_begin; [apply rtc_refl|done|done|].
  split; [eexists; split; reflexivity|reflexivity].
Qed.

(** ** Witnesses *)

(** A process is entered and left, and the timer switches to the next task. *)
Definition demo_sys : sys := intr_fun Tick (next_fun (next_fun (begin_fun (LoadCr3 0x7000) (start demo)))).

Lemma demo_sys_run : rtc (sstep true) (start demo) demo_sys.
Proof.
  apply run_intr; [|done|by vm_compute|by vm_compute|by vm_compute].
  do 2 (apply run_next; [|by vm_compute]). apply run_begin; [apply rtc_refl|done|done|].
  eexists. split; reflexivity.
Qed.

Lemma scheduler_safe_witness : gs_percpu (mach demo_sys) = false ∧
  ∃ t, cur_task (mach demo_sys) = Some t ∧ CR3 (mach demo_sys) = cr3 t ∧ kernel_stack (mach demo_sys) = kstack_top t.
Proof.
  destruct (scheduler_safe _ _ _ _ _ _ _ _ _ _ _ _ _ _ _ _ demo_sys_run) as (_ & _ & H).
  destruct H as (_ & (t & Ht & _ & Hc & Hk) & _ & Hgs & _); [by vm_compute|].
  split; [apply Hgs; by vm_compute|]. exists t. split_and!; [exact Ht|exact Hc|].
  apply Hk. by apply Nat.ltb_lt; vm_compute.
Defined.
