(* ===== verification/Editor.v ===== *)
(** The text editor ([kernel/src/editor.rs]) and the clipboard
    ([kernel/src/clipboard.rs]): the buffer, cursor, selection, find mode, keyboard
    and mouse handling, saving and the syntax highlighter. Drawing ([render]) is
    not modelled. Rows and columns are [nat]; an out-of-range index panics. *)

From stdpp Require Import prelude list numbers strings.
From S2P Require Import Prelude Input Text.

Local Open Scope Z_scope.

Abbreviation pos := (nat * nat)%type.

Record Editor := mkEditor {
  path : list Z;
  elines : list (list Z);
  cursor_row : nat; cursor_col : nat;
  scroll_row : nat;
  modified : bool;
  status_msg : list Z;
  status_ok : bool;
  opened : bool;
  visible_rows_hint : nat;
  highlight : bool;
  select_anchor : option pos;
  find_mode : bool;
  find_query : list Z;
  find_matches : list pos;
  find_idx : nat }.

(** Field updates. *)
Definition set_lines (ls : list (list Z)) (e : Editor) : Editor :=
  mkEditor (path e) ls (cursor_row e) (cursor_col e) (scroll_row e) (modified e) (status_msg e) (status_ok e) (opened e)
    (visible_rows_hint e) (highlight e) (select_anchor e) (find_mode e) (find_query e) (find_matches e) (find_idx e).
Definition set_cursor (r c : nat) (e : Editor) : Editor :=
  mkEditor (path e) (elines e) r c (scroll_row e) (modified e) (status_msg e) (status_ok e) (opened e)
    (visible_rows_hint e) (highlight e) (select_anchor e) (find_mode e) (find_query e) (find_matches e) (find_idx e).
Definition set_scroll (r : nat) (e : Editor) : Editor :=
  mkEditor (path e) (elines e) (cursor_row e) (cursor_col e) r (modified e) (status_msg e) (status_ok e) (opened e)
    (visible_rows_hint e) (highlight e) (select_anchor e) (find_mode e) (find_query e) (find_matches e) (find_idx e).
Definition set_modified (b : bool) (e : Editor) : Editor :=
  mkEditor (path e) (elines e) (cursor_row e) (cursor_col e) (scroll_row e) b (status_msg e) (status_ok e) (opened e)
    (visible_rows_hint e) (highlight e) (select_anchor e) (find_mode e) (find_query e) (find_matches e) (find_idx e).
Definition set_status (m : list Z) (ok : bool) (e : Editor) : Editor :=
  mkEditor (path e) (elines e) (cursor_row e) (cursor_col e) (scroll_row e) (modified e) m ok (opened e)
    (visible_rows_hint e) (highlight e) (select_anchor e) (find_mode e) (find_query e) (find_matches e) (find_idx e).
Definition set_opened (b : bool) (e : Editor) : Editor :=
  mkEditor (path e) (elines e) (cursor_row e) (cursor_col e) (scroll_row e) (modified e) (status_msg e) (status_ok e) b
    (visible_rows_hint e) (highlight e) (select_anchor e) (find_mode e) (find_query e) (find_matches e) (find_idx e).
Definition set_anchor (a : option pos) (e : Editor) : Editor :=
  mkEditor (path e) (elines e) (cursor_row e) (cursor_col e) (scroll_row e) (modified e) (status_msg e) (status_ok e) (opened e)
    (visible_rows_hint e) (highlight e) a (find_mode e) (find_query e) (find_matches e) (find_idx e).
Definition set_find (mode : bool) (q : list Z) (ms : list pos) (i : nat) (e : Editor) : Editor :=
  mkEditor (path e) (elines e) (cursor_row e) (cursor_col e) (scroll_row e) (modified e) (status_msg e) (status_ok e) (opened e)
    (visible_rows_hint e) (highlight e) (select_anchor e) mode q ms i.

(** ** Syntax highlighting *)

Definition KEYWORDS : list (list Z) := txt <$>
  ["fn"; "let"; "mut"; "pub"; "struct"; "enum"; "impl"; "trait"; "use"; "mod"; "crate";
   "self"; "Self"; "if"; "else"; "match"; "for"; "while"; "loop"; "break"; "continue";
   "return"; "true"; "false"; "const"; "static"; "unsafe"; "async"; "await"; "move";
   "ref"; "in"; "as"; "dyn"; "where"; "type"; "extern"; "super"; "box"; "yield";
   "int"; "char"; "float"; "double"; "void"; "long"; "short"; "unsigned"; "signed";
   "typedef"; "sizeof"; "goto"; "switch"; "case"; "default"; "do"; "union"; "volatile";
   "register"; "auto"; "include"; "define"; "ifdef"; "ifndef"; "endif"; "class";
   "public"; "private"; "protected"; "namespace"; "template"; "new"; "delete";
   "virtual"; "override"; "nullptr"; "NULL"].

Definition supports_highlighting (p : list Z) : bool :=
  let lower := to_lower <$> p in
  existsb (λ ext, ends_with ext lower) (txt <$> [".rs"; ".c"; ".h"; ".cpp"; ".hpp"; ".cc"; ".cxx"]).

Definition is_ident_start (b : Z) : bool := (b =? 0x5F) || is_alpha b.
Definition is_ident_cont (b : Z) : bool := (b =? 0x5F) || is_alnum b.

(** The four token colours and the line's own. *)
Inductive Color := Default | Keyword | Str | Num | Comment.

#[global] Instance Color_eq_dec : EqDecision Color.
Proof. solve_decision. Defined.

(** [for c in &mut colors[a..b] { *c = col }] *)
Definition paint (a b : nat) (col : Color) (cs : list Color) : outcome (list Color) :=
  if (a <=? b)%nat && (b <=? length cs)%nat then Ok (take a cs ++ replicate (b - a) col ++ drop b cs)
  else Panic "slice index out of range".

(** The scanning loop of a string or character literal: the index of the closing
    quote, or of the end of the line (one past it after a final escape). *)
Fixpoint skip_quoted (fuel : nat) (q : Z) (line : list Z) (i : nat) : nat :=
  match fuel with
  | O => i
  | S fuel =>
    match line !! i with
    | Some b => if b =? q then i
                else skip_quoted fuel q line (if (b =? 0x5C) && (i + 1 <? length line)%nat then i + 2 else i + 1)
    | None => i
    end
  end.

Fixpoint skip_while (p : Z → bool) (line : list Z) (i fuel : nat) : nat :=
  match fuel with
  | O => i
  | S fuel => match line !! i with Some b => if p b then skip_while p line (i + 1) fuel else i | None => i end
  end.

Fixpoint highlight_from (fuel : nat) (line : list Z) (keywords : list (list Z)) (i : nat) (colors : list Color)
    : outcome (list Color) :=
  match fuel with
  | O => Ok colors
  | S fuel =>
    match line !! i with
    | None => Ok colors
    | Some b =>
      if (b =? 0x2F) && (i + 1 <? length line)%nat && bool_decide (line !! (i + 1)%nat = Some 0x2F) then
        Ok (take i colors ++ replicate (length colors - i) Comment)
      else if (b =? 0x22) || (b =? 0x27) then
        let e := Nat.min (skip_quoted (length line) b line (i + 1) + 1) (length line) in
        cs ← paint i e Str colors; highlight_from fuel line keywords e cs
      else if is_digit b then
        let e := skip_while (λ c, is_alnum c || (c =? 0x2E) || (c =? 0x5F)) line i (length line) in
        cs ← paint i e Num colors; highlight_from fuel line keywords e cs
      else if is_ident_start b then
        let e := skip_while is_ident_cont line i (length line) in
        word ← v_slice i e line;
        if bool_decide (word ∈ keywords)
        then cs ← paint i e Keyword colors; highlight_from fuel line keywords e cs
        else highlight_from fuel line keywords e colors
      else highlight_from fuel line keywords (i + 1) colors
    end
  end.

(** One turn of the outer loop consumes at least one byte: [length line] turns suffice. *)
Definition highlight_line_kw (line : list Z) (keywords : list (list Z)) : outcome (list Color) :=
  highlight_from (length line) line keywords 0 (replicate (length line) Default).

Definition highlight_line (line : list Z) : outcome (list Color) := highlight_line_kw line KEYWORDS.

(** ** Opening and saving *)

Definition NL : Z := 0x0A.
Definition HINT : list Z := txt "F2/Ctrl+S=save  F10=close  Ctrl+F=find".

(** [split] yields at least one line, so the source's "if empty push" never runs. *)
Definition editor_new (p content : list Z) : Editor :=
  let ls := split_on NL content in
  let ls := match ls with [] => [[]] | _ => ls end in
  mkEditor p ls 0 0 0 false HINT true true 20 (supports_highlighting p) None false [] [] 0.

(** The loop of [save] that collects the file's bytes. *)
Definition save_data (e : Editor) : list Z := join_with NL (elines e).

(** ** Cursor *)

Definition line_at (r : nat) : ST Editor (list Z) := λ e, l ← v_get (elines e) r; Ok (l, e).

Definition set_line (r : nat) (l : list Z) : ST Editor unit := λ e,
  ls ← v_set r l (elines e); Ok (tt, set_lines ls e).

Definition clamp_col : ST Editor unit :=
  r ← gets cursor_row; l ← line_at r;
  modify (λ e, if (length l <? cursor_col e)%nat then set_cursor (cursor_row e) (length l) e else e).

Definition ensure_visible : ST Editor unit :=
  modify (λ e, if (cursor_row e <? scroll_row e)%nat then set_scroll (cursor_row e) e else e).

(** ** Find *)

Fixpoint line_matches (fuel : nat) (q line : list Z) (r c : nat) : list pos :=
  match fuel with
  | O => []
  | S fuel =>
    if (c + length q <=? length line)%nat then
      (if beq (take (length q) (drop c line)) q then [(r, c)] else []) ++ line_matches fuel q line r (c + 1)
    else []
  end.

Definition all_matches (q : list Z) (ls : list (list Z)) : list pos :=
  concat (imap (λ r line, line_matches (S (length line)) q line r 0) ls).

Definition find_all : ST Editor unit := modify (λ e,
  set_find (find_mode e) (find_query e)
    (match find_query e with [] => [] | q => all_matches q (elines e) end) (find_idx e) e).

Definition goto_match : ST Editor unit :=
  e ← get; m ← lift (v_get (find_matches e) (find_idx e));
  modify (set_cursor m.1 m.2) ≫= λ _, ensure_visible.

Fixpoint position {A} (p : A → bool) (l : list A) : option nat :=
  match l with [] => None | x :: l => if p x then Some O else S <$> position p l end.

Definition find_jump_nearest : ST Editor unit :=
  e ← get;
  match find_matches e with
  | [] => mret tt
  | ms =>
    let at_or_after '((r, c) : pos) :=
      (cursor_row e <? r)%nat || ((r =? cursor_row e)%nat && (cursor_col e <=? c)%nat) in
    modify (λ e, set_find (find_mode e) (find_query e) ms (default O (position at_or_after ms)) e) ≫= λ _, goto_match
  end.

Definition find_next : ST Editor unit :=
  e ← get;
  match find_matches e with
  | [] => mret tt
  | ms => modify (λ e, set_find (find_mode e) (find_query e) ms ((find_idx e + 1) mod length ms) e) ≫= λ _, goto_match
  end.

(** ** Selection *)

Definition pos_le (a b : pos) : bool := (a.1 <? b.1)%nat || ((a.1 =? b.1)%nat && (a.2 <=? b.2)%nat).

Definition selection_range (e : Editor) : option (pos * pos) :=
  match select_anchor e with
  | None => None
  | Some anchor =>
    let cursor := (cursor_row e, cursor_col e) in
    if bool_decide (anchor = cursor) then None
    else Some (if pos_le anchor cursor then (anchor, cursor) else (cursor, anchor))
  end.

Definition selection_cols_for_line (e : Editor) (line_idx line_len : nat) : option pos :=
  match selection_range e with
  | None => None
  | Some (s, t) =>
    if (line_idx <? s.1)%nat || (t.1 <? line_idx)%nat then None
    else
      let start := if (line_idx =? s.1)%nat then s.2 else O in
      let stop := if (line_idx =? t.1)%nat then t.2 else line_len in
      if (stop <=? start)%nat then None else Some (start, stop)
  end.

Definition delete_selection_if_any : ST Editor bool :=
  e ← get;
  match selection_range e with
  | None => mret false
  | Some (s, t) =>
    (if (s.1 =? t.1)%nat then
       line ← line_at s.1;
       let stop := Nat.min t.2 (length line) in
       line' ← lift (v_drain (Nat.min s.2 stop) stop line);
       set_line s.1 line'
     else
       let e_row := Nat.min t.1 (length (elines e) - 1) in
       last ← line_at e_row;
       let e_col := Nat.min t.2 (length last) in
       first ← line_at s.1;
       let s_col := Nat.min s.2 (length first) in
       '(keep, tail) ← lift (v_split_off e_col last);
       set_line e_row keep ≫= λ _,
       first ← line_at s.1;
       set_line s.1 (take s_col first ++ tail) ≫= λ _,
       ls ← gets elines;
       ls' ← lift (v_drain (s.1 + 1) (e_row + 1) ls);
       modify (set_lines ls')) ≫= λ _,
    modify (set_cursor s.1 s.2) ≫= λ _,
    modify (set_anchor None) ≫= λ _,
    modify (set_modified true) ≫= λ _,
    mret true
  end.

Definition update_selection_anchor (shift_held : bool) : ST Editor unit := modify (λ e,
  if shift_held then
    match select_anchor e with None => set_anchor (Some (cursor_row e, cursor_col e)) e | _ => e end
  else set_anchor None e).

Definition move_to (row col : nat) : ST Editor unit :=
  e ← get;
  let r := Nat.min row (length (elines e) - 1) in
  l ← line_at r;
  modify (set_cursor r (Nat.min col (length l))).

Definition mouse_down (row col : nat) : ST Editor unit :=
  move_to row col ≫= λ _,
  modify (λ e, set_anchor (Some (cursor_row e, cursor_col e)) e) ≫= λ _, ensure_visible.

Definition mouse_drag (row col : nat) : ST Editor unit := move_to row col ≫= λ _, ensure_visible.

Definition select_line (row : nat) : ST Editor unit :=
  e ← get;
  let r := Nat.min row (length (elines e) - 1) in
  l ← line_at r;
  modify (set_cursor r (length l)) ≫= λ _, modify (set_anchor (Some (r, O))) ≫= λ _, ensure_visible.

Definition CHAR_W : Z := 9.
Definition CHAR_H : Z := 12.

Definition sat_sub (a b : Z) : Z := Z.max 0 (a - b).

Definition hit_test (wx wy ww wh mx my : Z) : ST Editor (option pos) := λ e,
  let status_h := CHAR_H + 4 in
  let content_y := u64 (wy + status_h) in
  let content_h := sat_sub wh status_h in
  let text_x := u64 (wx + 4 * CHAR_W) in
  let bottom_bar_y := u64 (wy + sat_sub wh (CHAR_H + 2)) in
  if (mx <? i32 wx) || (i32 (u64 (wx + ww)) <=? mx) then Ok (None, e)
  else if (my <? i32 content_y) || (i32 bottom_bar_y <=? my) then Ok (None, e)
  else
    let visible_rows := Z.max (content_h / CHAR_H) 1 in
    let r := Z.min (u64 (i32 (my - i32 content_y)) / CHAR_H) (sat_sub visible_rows 1) in
    let line_idx := Nat.min (scroll_row e + Z.to_nat r) (length (elines e) - 1) in
    let rel_x := i32 (mx - i32 (i32 text_x + 2)) in
    if rel_x <? 0 then Ok (Some (line_idx, O), e)
    else
      l ← v_get (elines e) line_idx;
      Ok (Some (line_idx, Nat.min (Z.to_nat (rel_x / CHAR_W)) (length l)), e).

(** ** Clipboard text *)

(** The bytes [copy_selection] hands to the clipboard. *)
Definition selected_text (e : Editor) : outcome (option (list Z)) :=
  match selection_range e with
  | None => Ok None
  | Some (s, t) =>
    if (s.1 =? t.1)%nat then
      l ← v_get (elines e) s.1; b ← v_slice s.2 t.2 l; Ok (Some b)
    else
      l0 ← v_get (elines e) s.1;
      b0 ← v_slice s.2 (length l0) l0;
      rows ← v_slice (s.1 + 1) t.1 (elines e);
      l1 ← v_get (elines e) t.1;
      b1 ← v_slice O t.2 l1;
      Ok (Some (b0 ++ concat ((λ row, NL :: row) <$> rows) ++ NL :: b1))
  end.

Definition split_line : ST Editor unit :=
  e ← get;
  l ← line_at (cursor_row e);
  '(keep, rest) ← lift (v_split_off (cursor_col e) l);
  set_line (cursor_row e) keep ≫= λ _,
  ls ← gets elines;
  ls' ← lift (v_insert (cursor_row e + 1) rest ls);
  modify (set_lines ls') ≫= λ _, modify (set_cursor (cursor_row e + 1) O).

Definition insert_char (b : Z) : ST Editor unit :=
  e ← get;
  l ← line_at (cursor_row e);
  l' ← lift (v_insert (cursor_col e) b l);
  set_line (cursor_row e) l' ≫= λ _, modify (set_cursor (cursor_row e) (cursor_col e + 1)).

Definition printable (b : Z) : bool := (32 <=? b) && (b <? 128).

Fixpoint insert_bytes (text : list Z) : ST Editor unit :=
  match text with
  | [] => mret tt
  | b :: text =>
    (if b =? NL then split_line else if printable b then insert_char b else mret tt) ≫= λ _, insert_bytes text
  end.

Definition insert_text (text : list Z) : ST Editor unit :=
  insert_bytes text ≫= λ _, ensure_visible ≫= λ _, modify (set_modified true).

(** ** Files: what the editor needs of the file system *)

Class FileStore (St : Type) := {
  fst_lookup : list Z → ST St (option Z);
  fst_create : list Z → ST St Z;
  fst_write : Z → list Z → ST St unit;
  fst_read : Z → ST St (list Z);
  (** The file can take this content. *)
  fst_writable : St → Z → list Z → Prop;
  fst_write_read : ∀ s ino data, fst_writable s ino data →
    wp (fst_write ino data ≫= λ _, fst_read ino) s (λ out _, out = data) }.

Section world.
Context {St : Type} `{!FileStore St}.

Record world := mkWorld { ed : Editor; CLIPBOARD : list Z; CONTROLLER : option St }.

Definition in_ed {A} (c : ST Editor A) : ST world A := λ w,
  '(a, e) ← c (ed w); Ok (a, mkWorld e (CLIPBOARD w) (CONTROLLER w)).

Definition clip_set (data : list Z) : ST world unit := modify (λ w, mkWorld (ed w) data (CONTROLLER w)).
Definition clip_get : ST world (list Z) := gets CLIPBOARD.

Definition copy_selection : ST world unit :=
  w ← get; t ← lift (selected_text (ed w));
  match t with None => mret tt | Some buf => clip_set buf end.

Definition paste_clipboard : ST world unit :=
  in_ed delete_selection_if_any ≫= λ _, text ← clip_get; in_ed (insert_text text).

Definition clipboard_action (is_paste : bool) : ST world unit :=
  if is_paste then paste_clipboard else copy_selection.

(** What [save] does with the file system. *)
Definition save_file (p data : list Z) : ST St Z :=
  found ← fst_lookup p;
  ino ← match found with Some ino => mret ino | None => fst_create (trim_start 0x2F p) end;
  fst_write ino data ≫= λ _, mret ino.

Definition save : ST world unit := λ w,
  let e := ed w in
  let data := save_data e in
  match CONTROLLER w with
  | Some s =>
    '(_, s) ← save_file (path e) data s;
    let msg := txt "Saved " ++ path e ++ txt " (" ++ show_dec (len data) ++ txt " bytes)" in
    Ok (tt, mkWorld (set_status msg true (set_modified false e)) (CLIPBOARD w) (Some s))
  | None => Ok (tt, mkWorld (set_status (txt "ERROR: no NVMe controller") false e) (CLIPBOARD w) None)
  end.

(** [read_content]: an absent file or controller reads as empty. *)
Definition read_content (p : list Z) : ST St (list Z) :=
  found ← fst_lookup p; match found with Some ino => fst_read ino | None => mret [] end.

Definition open_main (p : list Z) (ctrl : option St) : outcome (Editor * option St) :=
  match ctrl with
  | Some s => '(content, s) ← read_content p s; Ok (editor_new p content, Some s)
  | None => Ok (editor_new p [], None)
  end.

(** ** The keyboard *)

Definition find_key (b : Z) : ST Editor unit :=
  if b =? 0x1B then
    modify (λ e, set_status HINT true (set_find false [] [] (find_idx e) e))
  else if (b =? NL) || (b =? 0x07) then find_next
  else if b =? 0x08 then
    modify (λ e, set_find (find_mode e) (take (length (find_query e) - 1) (find_query e)) (find_matches e) (find_idx e) e) ≫= λ _,
    find_all ≫= λ _, find_jump_nearest
  else if printable b then
    modify (λ e, set_find (find_mode e) (find_query e ++ [b]) (find_matches e) (find_idx e) e) ≫= λ _,
    find_all ≫= λ _, find_jump_nearest
  else mret tt.

Definition key_up (shift : bool) : ST Editor unit :=
  update_selection_anchor shift ≫= λ _,
  e ← get;
  if (0 <? cursor_row e)%nat then
    modify (set_cursor (cursor_row e - 1) (cursor_col e)) ≫= λ _, clamp_col ≫= λ _, ensure_visible
  else mret tt.

Definition key_down (shift : bool) : ST Editor unit :=
  update_selection_anchor shift ≫= λ _,
  e ← get;
  if (cursor_row e + 1 <? length (elines e))%nat then
    modify (set_cursor (cursor_row e + 1) (cursor_col e)) ≫= λ _, clamp_col ≫= λ _, ensure_visible
  else mret tt.

Definition key_left (shift : bool) : ST Editor unit :=
  update_selection_anchor shift ≫= λ _,
  e ← get;
  if (0 <? cursor_col e)%nat then modify (set_cursor (cursor_row e) (cursor_col e - 1))
  else if (0 <? cursor_row e)%nat then
    l ← line_at (cursor_row e - 1);
    modify (set_cursor (cursor_row e - 1) (length l)) ≫= λ _, ensure_visible
  else mret tt.

Definition key_right (shift : bool) : ST Editor unit :=
  update_selection_anchor shift ≫= λ _,
  e ← get;
  l ← line_at (cursor_row e);
  if (cursor_col e <? length l)%nat then modify (set_cursor (cursor_row e) (cursor_col e + 1))
  else if (cursor_row e + 1 <? length (elines e))%nat then
    modify (set_cursor (cursor_row e + 1) O) ≫= λ _, ensure_visible
  else mret tt.

Definition key_home (shift ctrl : bool) : ST Editor unit :=
  update_selection_anchor shift ≫= λ _,
  if ctrl then modify (λ e, set_scroll O (set_cursor O O e))
  else modify (λ e, set_cursor (cursor_row e) O e).

Definition key_end (shift ctrl : bool) : ST Editor unit :=
  update_selection_anchor shift ≫= λ _,
  e ← get;
  if ctrl then
    let r := (length (elines e) - 1)%nat in
    l ← line_at r; modify (set_cursor r (length l)) ≫= λ _, ensure_visible
  else l ← line_at (cursor_row e); modify (set_cursor (cursor_row e) (length l)).

Definition key_pgup (shift : bool) : ST Editor unit :=
  update_selection_anchor shift ≫= λ _,
  modify (λ e, set_cursor (cursor_row e - Nat.max (visible_rows_hint e) 1) (cursor_col e) e) ≫= λ _,
  clamp_col ≫= λ _, ensure_visible.

Definition key_pgdn (shift : bool) : ST Editor unit :=
  update_selection_anchor shift ≫= λ _,
  modify (λ e, set_cursor (Nat.min (cursor_row e + Nat.max (visible_rows_hint e) 1) (length (elines e) - 1)) (cursor_col e) e) ≫= λ _,
  clamp_col ≫= λ _, ensure_visible.

Definition key_enter : ST Editor unit :=
  delete_selection_if_any ≫= λ _, split_line ≫= λ _, ensure_visible ≫= λ _, modify (set_modified true).

Definition key_backspace : ST Editor unit :=
  deleted ← delete_selection_if_any;
  if (deleted : bool) then ensure_visible
  else
    e ← get;
    if (0 <? cursor_col e)%nat then
      modify (set_cursor (cursor_row e) (cursor_col e - 1)) ≫= λ _,
      l ← line_at (cursor_row e);
      '(_, l') ← lift (v_remove (cursor_col e - 1) l);
      set_line (cursor_row e) l' ≫= λ _, modify (set_modified true)
    else if (0 <? cursor_row e)%nat then
      '(cur, ls) ← lift (v_remove (cursor_row e) (elines e));
      modify (set_lines ls) ≫= λ _,
      l ← line_at (cursor_row e - 1);
      modify (set_cursor (cursor_row e - 1) (length l)) ≫= λ _,
      set_line (cursor_row e - 1) (l ++ cur) ≫= λ _, ensure_visible ≫= λ _, modify (set_modified true)
    else mret tt.

Definition key_delete : ST Editor unit :=
  deleted ← delete_selection_if_any;
  if (deleted : bool) then ensure_visible
  else
    e ← get;
    l ← line_at (cursor_row e);
    if (cursor_col e <? length l)%nat then
      '(_, l') ← lift (v_remove (cursor_col e) l);
      set_line (cursor_row e) l' ≫= λ _, modify (set_modified true)
    else if (cursor_row e + 1 <? length (elines e))%nat then
      '(next, ls) ← lift (v_remove (cursor_row e + 1) (elines e));
      modify (set_lines ls) ≫= λ _,
      l ← line_at (cursor_row e);
      set_line (cursor_row e) (l ++ next) ≫= λ _, modify (set_modified true)
    else mret tt.

Definition key_tab : ST Editor unit :=
  delete_selection_if_any ≫= λ _,
  insert_char 0x20 ≫= λ _, insert_char 0x20 ≫= λ _, insert_char 0x20 ≫= λ _, insert_char 0x20 ≫= λ _,
  modify (set_modified true).

Definition key_char (b : Z) : ST Editor unit :=
  delete_selection_if_any ≫= λ _, insert_char b ≫= λ _, modify (set_modified true).

Definition key_close : ST Editor unit := modify (λ e,
  if modified e then set_modified false (set_status (txt "Unsaved! Press again to force close") false e)
  else set_opened false e).

(** [on_key]; [shift] and [ctrl] are the keyboard's modifier flags. *)
Definition on_key (shift ctrl : bool) (c : Z) : ST world unit :=
  let b := u8 c in
  w ← get;
  if b =? 0x06 then
    if negb (find_mode (ed w)) then in_ed (modify (set_find true [] [] O)) else in_ed find_next
  else if find_mode (ed w) then in_ed (find_key b)
  else if (b =? 0x13) || (b =? KEY_F2) then save
  else if (b =? 0x03) || ((b =? 0x43) && ctrl) then copy_selection
  else if (b =? 0x16) || ((b =? 0x56) && ctrl) then paste_clipboard
  else if (b =? 0x11) || (b =? 0x1B) then in_ed key_close
  else if b =? KEY_F10 then in_ed (modify (set_opened false))
  else if b =? KEY_UP then in_ed (key_up shift)
  else if b =? KEY_DOWN then in_ed (key_down shift)
  else if b =? KEY_LEFT then in_ed (key_left shift)
  else if b =? KEY_RIGHT then in_ed (key_right shift)
  else if b =? KEY_HOME then in_ed (key_home shift ctrl)
  else if b =? KEY_END then in_ed (key_end shift ctrl)
  else if b =? KEY_PGUP then in_ed (key_pgup shift)
  else if b =? KEY_PGDN then in_ed (key_pgdn shift)
  else if b =? NL then in_ed key_enter
  else if b =? 0x08 then in_ed key_backspace
  else if b =? KEY_DEL then in_ed key_delete
  else if b =? 0x09 then in_ed key_tab
  else if printable b then in_ed (key_char b)
  else mret tt.
End world.
