(* ===== verification/EditorSpec.v ===== *)
(** The editor: invariant, refinement to a gap buffer, saving, highlighting. *)

From stdpp Require Import prelude list numbers strings.
From S2P Require Import Prelude Input Text Editor.

Local Open Scope Z_scope.

(** ** Splitting the buffer at a row *)

Section middle.
Context {A : Type}.
Implicit Types (l : list A).

Lemma mid_lookup l x l' : (l ++ x :: l') !! length l = Some x.
Proof. by rewrite list_lookup_middle. Qed.

Lemma mid_insert l x y l' : <[length l := y]> (l ++ x :: l') = l ++ y :: l'.
Proof. rewrite insert_app_r_alt by done. by rewrite Nat.sub_diag. Qed.

Lemma mid_drop l x l' : drop (S (length l)) (l ++ x :: l') = l'.
Proof. rewrite drop_app_ge by lia. by replace (S (length l) - length l)%nat with 1%nat by lia. Qed.

Lemma mid_take l x l' : take (length l) (l ++ x :: l') = l.
Proof. by rewrite take_app_length. Qed.

Lemma mid_delete l x l' : delete (length l) (l ++ x :: l') = l ++ l'.
Proof. by rewrite delete_middle. Qed.

Lemma mid_split l i x : l !! i = Some x → ∃ l1 l2, l = l1 ++ x :: l2 ∧ i = length l1.
Proof.
  intros H. exists (take i l), (drop (S i) l). rewrite take_drop_middle by done. split; [done|].
  rewrite length_take. apply lookup_lt_Some in H. lia.
Qed.
End middle.

(** ** Invariant *)

Definition valid (ls : list (list Z)) (p : pos) : Prop := ∃ l, ls !! p.1 = Some l ∧ (p.2 ≤ length l)%nat.

Record einv (e : Editor) : Prop := {
  ei_clean : Forall (λ l, NL ∉ l) (elines e);
  ei_cur : valid (elines e) (cursor_row e, cursor_col e);
  ei_anchor : ∀ a, select_anchor e = Some a → valid (elines e) a;
  ei_find : find_mode e = true → Forall (valid (elines e)) (find_matches e) }.

(** The buffer around the cursor's row. *)
Definition around (e : Editor) (A : list (list Z)) (l : list Z) (B : list (list Z)) : Prop :=
  elines e = A ++ l :: B ∧ cursor_row e = length A ∧ (cursor_col e ≤ length l)%nat.

Lemma einv_around e : einv e → ∃ A l B, around e A l B.
Proof.
  intros [_ (l & Hl & Hc) _ _]. destruct (mid_split _ _ _ Hl) as (A & B & E & Hr). by exists A, l, B.
Qed.

Lemma einv_nonempty e : einv e → elines e ≠ [].
Proof. intros [_ (l & Hl & _) _ _] E. by rewrite E in Hl. Qed.

(** ** Primitives in closed form *)

Lemma line_at_ok e r l : elines e !! r = Some l → line_at r e = Ok (l, e).
Proof. unfold line_at, v_get. by intros ->. Qed.

Lemma set_line_ok e r l : (r < length (elines e))%nat → set_line r l e = Ok (tt, set_lines (<[r := l]> (elines e)) e).
Proof. intros. unfold set_line. by rewrite v_set_ok. Qed.

Lemma insert_char_eq e A l B b : around e A l B →
  insert_char b e = Ok (tt, set_cursor (length A) (cursor_col e + 1)
    (set_lines (A ++ (take (cursor_col e) l ++ b :: drop (cursor_col e) l) :: B) e)).
Proof.
  intros (El & Er & Hc). unfold insert_char, get, lift, modify, mbind, ST_bind. rewrite Er.
  rewrite (line_at_ok e _ l) by (rewrite El; apply mid_lookup). rewrite v_insert_ok by done.
  rewrite set_line_ok by (rewrite El, length_app; cbn; lia). by rewrite El, mid_insert.
Qed.

Lemma split_line_eq e A l B : around e A l B →
  split_line e = Ok (tt, set_cursor (length A + 1) 0
    (set_lines (A ++ take (cursor_col e) l :: drop (cursor_col e) l :: B) e)).
Proof.
  intros (El & Er & Hc). unfold split_line, get, gets, lift, modify, mbind, ST_bind. rewrite Er.
  rewrite (line_at_ok e _ l) by (rewrite El; apply mid_lookup). rewrite v_split_ok by done.
  rewrite set_line_ok by (rewrite El, length_app; cbn; lia). cbn [elines set_lines].
  rewrite El, mid_insert. rewrite v_insert_ok by (rewrite length_app; cbn; lia).
  replace (length A + 1)%nat with (length (A ++ [take (cursor_col e) l])) at 2 3 by (rewrite length_app; done).
  change (A ++ take (cursor_col e) l :: B) with (A ++ [take (cursor_col e) l] ++ B). rewrite !app_assoc.
  rewrite take_app_length, drop_app_length. by rewrite <- !app_assoc.
Qed.

Lemma ensure_visible_eq e : ∃ r, ensure_visible e = Ok (tt, set_scroll r e).
Proof.
  unfold ensure_visible, modify. destruct (_ <? _)%nat; eexists; [done|]. instantiate (1 := scroll_row e). by destruct e.
Qed.

(** Updates that concern neither text, cursor, selection nor matches. *)
Lemma einv_scroll r e : einv e → einv (set_scroll r e).
Proof. by intros []. Qed.
Lemma einv_modified b e : einv e → einv (set_modified b e).
Proof. by intros []. Qed.
Lemma einv_status m b e : einv e → einv (set_status m b e).
Proof. by intros []. Qed.
Lemma einv_opened b e : einv e → einv (set_opened b e).
Proof. by intros []. Qed.
Lemma einv_no_anchor e : einv e → einv (set_anchor None e).
Proof. by intros []. Qed.
Lemma einv_cursor r c e : einv e → valid (elines e) (r, c) → einv (set_cursor r c e).
Proof. by intros []. Qed.
Lemma einv_set_anchor a e : einv e → valid (elines e) a → einv (set_anchor (Some a) e).
Proof. intros [] ?. constructor; try done. by intros ? [= <-]. Qed.

#[export] Hint Resolve einv_scroll einv_modified einv_status einv_opened einv_no_anchor einv_cursor einv_set_anchor : hepos.

Lemma wp_ensure e Q : (∀ r, Q tt (set_scroll r e)) → wp ensure_visible e Q.
Proof. intros H. destruct (ensure_visible_eq e) as [r E]. unfold wp. by rewrite E. Qed.

Lemma wp_modified b e (Q : unit → Editor → Prop) : Q tt (set_modified b e) → wp (modify (set_modified b)) e Q.
Proof. done. Qed.

Lemma wp_line_at e r l Q : elines e !! r = Some l → Q l e → wp (line_at r) e Q.
Proof. intros H HQ. unfold wp. by rewrite (line_at_ok _ _ _ H). Qed.

Lemma wp_get {S} (s : S) Q : Q s s → wp get s Q.
Proof. done. Qed.

Lemma wp_mod {S} (f : S → S) s (Q : unit → S → Prop) : Q tt (f s) → wp (modify f) s Q.
Proof. done. Qed.

(** ** Selection *)

Lemma pos_le_spec a b : pos_le a b = true ↔ (a.1 < b.1 ∨ (a.1 = b.1 ∧ a.2 ≤ b.2))%nat.
Proof.
  unfold pos_le. rewrite orb_true_iff, andb_true_iff, Nat.ltb_lt, Nat.eqb_eq, Nat.leb_le. done.
Qed.

Lemma selection_range_spec e : einv e → match selection_range e with
  | None => select_anchor e = None ∨ select_anchor e = Some (cursor_row e, cursor_col e)
  | Some (s, t) => valid (elines e) s ∧ valid (elines e) t ∧ (s.1 < t.1 ∨ (s.1 = t.1 ∧ s.2 < t.2))%nat end.
Proof.
  intros [_ Hcur Hanc _]. unfold selection_range. destruct (select_anchor e) as [[ar ac]|]; [|by left].
  specialize (Hanc _ eq_refl). case_bool_decide as E; [right; by rewrite E|].
  destruct (pos_le (ar, ac) _) eqn:Hle; [apply pos_le_spec in Hle|apply not_true_iff_false in Hle; rewrite pos_le_spec in Hle];
    cbn in *; (split_and!; [done..|]); cbn.
  - destruct Hle as [|[-> ?]]; [lia|right]. split; [done|]. destruct (decide (ac = cursor_col e)); [congruence|lia].
  - destruct (decide (cursor_row e = ar)) as [Er|]; [right|left]; lia.
Qed.

(** The lines after removing the text between two positions. *)
Definition cut (ls : list (list Z)) (s t : pos) : list (list Z) :=
  let first := default [] (ls !! s.1) in
  let last := default [] (ls !! t.1) in
  take s.1 ls ++ (take s.2 first ++ drop t.2 last) :: drop (S t.1) ls.

Lemma valid_lt ls p : valid ls p → (p.1 < length ls)%nat.
Proof. intros (l & Hl & _). by eapply lookup_lt_Some. Qed.

Lemma delete_selection_eq e s t : einv e → selection_range e = Some (s, t) →
  delete_selection_if_any e =
    Ok (true, set_modified true (set_anchor None (set_cursor s.1 s.2 (set_lines (cut (elines e) s t) e)))).
Proof.
  intros He Hs. pose proof (selection_range_spec e He) as H. rewrite Hs in H. destruct H as ((l1 & H1 & C1) & (l2 & H2 & C2) & Hlt).
  pose proof (lookup_lt_Some _ _ _ H1) as L1. pose proof (lookup_lt_Some _ _ _ H2) as L2.
  unfold delete_selection_if_any, get, gets, lift, modify, mbind, ST_bind, cut. rewrite Hs, H1, H2. cbn [default from_option].
  unfold Datatypes.id. destruct (Nat.eqb_spec s.1 t.1) as [Eq|Hne].
  - rewrite (line_at_ok e _ _ H1). rewrite Eq in H1. assert (l1 = l2) as <- by congruence.
    rewrite v_drain_ok by lia. rewrite set_line_ok by done.
    replace (t.2 `min` length l1)%nat with t.2 by lia. replace (s.2 `min` t.2)%nat with s.2 by lia.
    rewrite insert_take_drop by done. rewrite Eq. done.
  - replace (t.1 `min` (length (elines e) - 1))%nat with t.1 by lia.
    rewrite (line_at_ok e _ _ H2), (line_at_ok e _ _ H1). replace (t.2 `min` length l2)%nat with t.2 by lia.
    replace (s.2 `min` length l1)%nat with s.2 by lia. rewrite v_split_ok by done.
    rewrite set_line_ok by done. rewrite (line_at_ok _ _ l1) by (cbn; rewrite list_lookup_insert_ne; done).
    rewrite set_line_ok by (cbn; rewrite length_insert; done). cbn [elines set_lines].
    rewrite v_drain_ok by (rewrite ?length_insert; lia).
    set (X := <[s.1 := _]> _).
    assert (take (s.1 + 1) X ++ drop (t.1 + 1) X =
            take s.1 (elines e) ++ (take s.2 l1 ++ drop t.2 l2) :: drop (S t.1) (elines e)) as ->; [|done].
    unfold X. rewrite !drop_insert_lt by lia. rewrite !Nat.add_1_r.
    rewrite (take_S_r _ _ (take s.2 l1 ++ drop t.2 l2)) by (rewrite list_lookup_insert_eq; [done|rewrite length_insert; lia]).
    rewrite !take_insert_ge by lia. by rewrite <- app_assoc.
Qed.

Definition edit_ok (e : Editor) : Prop := einv e ∧ find_mode e = false.

(** Nothing is selected: no anchor, or one on the cursor. *)
Definition unselected (e : Editor) : Prop :=
  select_anchor e = None ∨ select_anchor e = Some (cursor_row e, cursor_col e).

(** The anchor does not lie behind the cursor. *)
Definition anchor_le (e : Editor) : Prop :=
  ∀ a, select_anchor e = Some a → (a.1 < cursor_row e ∨ (a.1 = cursor_row e ∧ a.2 ≤ cursor_col e))%nat.

Lemma unselected_le e : unselected e → anchor_le e.
Proof. intros [E|E] a Ha; rewrite E in Ha; [done|]. injection Ha as <-. cbn. lia. Qed.

(** Replacing the cursor's line: everything above and below stays where it is. *)
Lemma edit_ok_replace e A l B C row col :
  edit_ok e → around e A l B → anchor_le e → C ≠ [] → Forall (λ l, NL ∉ l) C →
  (∃ l0 C', C = l0 :: C' ∧ (cursor_col e ≤ length l0)%nat) → valid (A ++ C ++ B) (row, col) →
  edit_ok (set_cursor row col (set_lines (A ++ C ++ B) e)).
Proof.
  intros [[Hcl Hcur Hanc _] Hfm] (El & Er & Hc) Hle HC HCc (l0 & C' & -> & Hl0) Hv. split; [|done].
  rewrite El, Forall_app, Forall_cons_iff in Hcl. destruct Hcl as (HA & _ & HB).
  constructor; cbn; [by apply Forall_app; split; [|apply (Forall_app _ (l0 :: C') B)]|done| |by rewrite Hfm].
  intros a Ha. specialize (Hanc a Ha). destruct (Hle a Ha) as [Hlt|[Ea Hca]].
  - destruct Hanc as (la & Hla & Hlc). exists la. split; [|done]. rewrite El in Hla. rewrite Er in Hlt.
    rewrite lookup_app_l in Hla |- * by done. done.
  - exists l0. rewrite Ea, Er. split; [apply mid_lookup|]. lia.
Qed.

Lemma notin_take (l : list Z) n : NL ∉ l → NL ∉ take n l.
Proof. intros H Hin. apply H. apply list_elem_of_lookup in Hin as [i Hi]. apply lookup_take_Some in Hi as [Hi _]. by eapply list_elem_of_lookup_2. Qed.
Lemma notin_drop (l : list Z) n : NL ∉ l → NL ∉ drop n l.
Proof. intros H Hin. apply H. apply list_elem_of_lookup in Hin as [i Hi]. rewrite lookup_drop in Hi. by eapply list_elem_of_lookup_2. Qed.

Lemma line_clean e A l B : einv e → around e A l B → NL ∉ l.
Proof. intros [Hcl _ _ _] (El & _ & _). rewrite El, Forall_app, Forall_cons_iff in Hcl. naive_solver. Qed.

#[export] Hint Resolve notin_take notin_drop : hepos.

(** ** The gap-buffer view: the text before and behind the cursor *)

Definition lin (ls : list (list Z)) : list Z := concat ((λ l, l ++ [NL]) <$> ls).
Definition tl (ls : list (list Z)) : list Z := concat ((λ l, NL :: l) <$> ls).

Definition before (e : Editor) : list Z :=
  lin (take (cursor_row e) (elines e)) ++ take (cursor_col e) (default [] (elines e !! cursor_row e)).
Definition behind (e : Editor) : list Z :=
  drop (cursor_col e) (default [] (elines e !! cursor_row e)) ++ tl (drop (S (cursor_row e)) (elines e)).
Definition gap (e : Editor) : list Z * list Z := (before e, behind e).

Lemma gap_around e A l B : around e A l B →
  gap e = (lin A ++ take (cursor_col e) l, drop (cursor_col e) l ++ tl B).
Proof. intros (El & Er & _). unfold gap, before, behind. rewrite El, Er, mid_take, mid_drop, mid_lookup. done. Qed.

Lemma lin_app A B : lin (A ++ B) = lin A ++ lin B.
Proof. unfold lin. by rewrite fmap_app, concat_app. Qed.

Lemma lin_snoc A b : lin (A ++ [b]) = lin A ++ b ++ [NL].
Proof. rewrite lin_app. unfold lin at 2. cbn. by rewrite app_nil_r. Qed.

Lemma join_tl l ls : join_with NL (l :: ls) = l ++ tl ls.
Proof.
  revert l. induction ls as [|l' ls IH]; intros l; [by rewrite app_nil_r|].
  change (join_with NL (l :: l' :: ls)) with (l ++ NL :: join_with NL (l' :: ls)). by rewrite IH.
Qed.

Lemma join_middle A l B : join_with NL (A ++ l :: B) = lin A ++ l ++ tl B.
Proof.
  induction A as [|a A IH]; [apply join_tl|]. cbn [app]. destruct A as [|a' A].
  - change (join_with NL (a :: l :: B)) with (a ++ NL :: join_with NL (l :: B)). rewrite join_tl. unfold lin. cbn.
    by rewrite app_nil_r, <- app_assoc.
  - change (join_with NL (a :: (a' :: A) ++ l :: B)) with (a ++ NL :: join_with NL ((a' :: A) ++ l :: B)). rewrite IH.
    unfold lin. cbn. by rewrite <- !app_assoc.
Qed.

(** The file's bytes are the text before the cursor followed by the text behind it. *)
Lemma gap_data e : einv e → save_data e = before e ++ behind e.
Proof.
  intros He. destruct (einv_around e He) as (A & l & B & Ha). pose proof (gap_around e A l B Ha) as Hg.
  unfold gap in Hg. injection Hg as -> ->. destruct Ha as (El & _). unfold save_data. rewrite El, join_middle.
  rewrite <- app_assoc. f_equal. by rewrite app_assoc, take_drop.
Qed.

(** ** Editing primitives *)

Lemma insert_char_spec b e : edit_ok e → anchor_le e → b ≠ NL →
  wp (insert_char b) e (λ _ e', edit_ok e' ∧ anchor_le e' ∧ select_anchor e' = select_anchor e ∧ gap e' = (before e ++ [b], behind e)).
Proof.
  intros Hok Hle Hb. destruct (einv_around e (proj1 Hok)) as (A & l & B & Ha). pose proof (gap_around e A l B Ha) as Hg.
  unfold gap in Hg. injection Hg as Hpre Hpost. pose proof (line_clean e A l B (proj1 Hok) Ha) as Hl.
  unfold wp. rewrite (insert_char_eq e A l B b Ha). pose proof Ha as (El & Er & Hc).
  set (l' := take (cursor_col e) l ++ b :: drop (cursor_col e) l).
  assert (length l' = S (length l)) as Hl' by (unfold l'; rewrite length_app, length_take; cbn; rewrite length_drop; lia).
  split_and!.
  - apply (edit_ok_replace e A l B [l']); try done.
    + constructor; [|done]. unfold l'. rewrite not_elem_of_app, not_elem_of_cons. auto with hepos.
    + exists l', []. split; [done|lia].
    + exists l'. cbn. rewrite mid_lookup. split; [done|lia].
  - intros a Ha'. specialize (Hle a Ha'). cbn. lia.
  - done.
  - rewrite (gap_around _ A l' B) by (split_and!; cbn; [done..|lia]). cbn [cursor_col set_cursor].
    rewrite Hpre, Hpost. unfold l'. rewrite Nat.add_1_r. f_equal.
    + rewrite <- app_assoc. f_equal. rewrite take_app_ge by (rewrite length_take; lia).
      rewrite length_take. replace (S (cursor_col e) - _)%nat with 1%nat by lia. done.
    + f_equal. rewrite drop_app_ge by (rewrite length_take; lia). rewrite length_take.
      by replace (S (cursor_col e) - _)%nat with 1%nat by lia.
Qed.

Lemma split_line_spec e : edit_ok e → anchor_le e →
  wp split_line e (λ _ e', edit_ok e' ∧ anchor_le e' ∧ select_anchor e' = select_anchor e ∧ gap e' = (before e ++ [NL], behind e)).
Proof.
  intros Hok Hle. destruct (einv_around e (proj1 Hok)) as (A & l & B & Ha). pose proof (gap_around e A l B Ha) as Hg.
  unfold gap in Hg. injection Hg as Hpre Hpost. pose proof (line_clean e A l B (proj1 Hok) Ha) as Hl.
  unfold wp. rewrite (split_line_eq e A l B Ha). pose proof Ha as (El & Er & Hc). split_and!.
  - apply (edit_ok_replace e A l B [take (cursor_col e) l; drop (cursor_col e) l]); try done.
    + repeat constructor; auto with hepos.
    + do 2 eexists. split; [done|]. rewrite length_take. lia.
    + exists (drop (cursor_col e) l). cbn. split; [|lia]. rewrite lookup_app_r by lia. by replace (length A + 1 - length A)%nat with 1%nat by lia.
  - intros a Ha'. specialize (Hle a Ha'). cbn. lia.
  - done.
  - rewrite (gap_around _ (A ++ [take (cursor_col e) l]) (drop (cursor_col e) l) B).
    2:{ split_and!; cbn; [by rewrite <- app_assoc|rewrite length_app; cbn; lia|lia]. }
    cbn [cursor_col set_cursor]. rewrite Hpre, Hpost. rewrite lin_app. f_equal. unfold lin at 2. cbn.
    by rewrite !app_nil_r, <- !app_assoc.
Qed.

Lemma einv_same e e' : einv e → elines e' = elines e → cursor_row e' = cursor_row e → cursor_col e' = cursor_col e →
  select_anchor e' = select_anchor e → find_mode e' = find_mode e → find_matches e' = find_matches e → einv e'.
Proof. intros [] E1 E2 E3 E4 E5 E6. constructor; rewrite ?E1, ?E2, ?E3, ?E4, ?E5, ?E6; done. Qed.

(** The bytes a paste keeps. *)
Definition pasted (text : list Z) : list Z := filter (λ b, (b =? NL) || printable b = true) text.

Lemma insert_bytes_spec text e : edit_ok e → anchor_le e →
  wp (insert_bytes text) e (λ _ e', edit_ok e' ∧ anchor_le e' ∧ gap e' = (before e ++ pasted text, behind e)).
Proof.
  revert e. induction text as [|b text IH]; intros e Hok Hle; cbn [insert_bytes].
  { apply wp_ret. split_and!; [done..|]. unfold pasted. by rewrite app_nil_r. }
  assert (∀ e1, edit_ok e1 ∧ anchor_le e1 ∧ gap e1 = (before e ++ pasted [b], behind e) →
    wp (insert_bytes text) e1 (λ _ e', edit_ok e' ∧ anchor_le e' ∧ gap e' = (before e ++ pasted (b :: text), behind e))) as Hnext.
  { intros e1 (Hok1 & Hle1 & Hg1). eapply wp_mono; [by apply IH|]. intros ? e' (? & ? & ->). split_and!; [done..|].
    unfold gap in Hg1. injection Hg1 as -> ->. change (b :: text) with ([b] ++ text). unfold pasted. by rewrite filter_app, app_assoc. }
  assert (∀ x : list Z, pasted [b] = (if (b =? NL) || printable b then [b] else [])) as Hp.
  { intros _. unfold pasted. rewrite filter_cons. destruct ((b =? NL) || printable b); [by rewrite decide_True|by rewrite decide_False]. }
  specialize (Hp []). destruct (Z.eqb_spec b NL) as [->|Hb].
  - wp_step (split_line_spec e Hok Hle). intros ? e1 (? & ? & _ & ?). apply Hnext. by rewrite Hp.
  - destruct (printable b) eqn:Ep; cbn [orb] in Hp.
    + wp_step (insert_char_spec b e Hok Hle Hb). intros ? e1 (? & ? & _ & ?). apply Hnext. by rewrite Hp.
    + apply wp_bind, wp_ret, Hnext. rewrite Hp, app_nil_r. done.
Qed.

Lemma cut_valid ls s t : valid ls s → valid ls t → (s.1 ≤ t.1)%nat → Forall (λ l, NL ∉ l) ls →
  Forall (λ l, NL ∉ l) (cut ls s t) ∧ valid (cut ls s t) s.
Proof.
  intros (l1 & H1 & C1) (l2 & H2 & C2) Hle Hcl. unfold cut. rewrite H1, H2. cbn.
  pose proof (Forall_lookup_1 _ _ _ _ Hcl H1) as N1. pose proof (Forall_lookup_1 _ _ _ _ Hcl H2) as N2. split.
  - rewrite Forall_app, Forall_cons_iff. split_and!; [by apply Forall_take| |by apply Forall_drop].
    rewrite not_elem_of_app. auto with hepos.
  - exists (take s.2 l1 ++ drop t.2 l2). split; [|rewrite length_app, length_take; lia].
    apply lookup_lt_Some in H1. rewrite lookup_app_r; rewrite length_take; [|lia].
    by replace (s.1 - s.1 `min` length ls)%nat with 0%nat by lia.
Qed.

Lemma delete_spec e : edit_ok e → wp delete_selection_if_any e (λ b e', edit_ok e' ∧ unselected e' ∧
  if (b : bool) then select_anchor e' = None ∧ ¬ unselected e else e' = e ∧ unselected e).
Proof.
  intros [He Hf]. pose proof (selection_range_spec e He) as H. destruct (selection_range e) as [[s t]|] eqn:Es.
  - unfold wp. rewrite (delete_selection_eq e s t He Es). destruct H as (Hs & Ht & Hlt).
    destruct (cut_valid (elines e) s t Hs Ht ltac:(lia) (ei_clean e He)) as [Hc Hv]. destruct s as [s1 s2]. split_and!.
    + split; [|done]. constructor; cbn; [done|done|done|by rewrite Hf].
    + by left.
    + done.
    + intros Hu. unfold selection_range in Es. destruct Hu as [E|E]; rewrite E in Es; [done|]. by rewrite bool_decide_true in Es.
  - unfold delete_selection_if_any. apply wp_bind, wp_get. rewrite Es. apply wp_ret. done.
Qed.

(** ** Keys that edit *)

Lemma paste_spec text e : edit_ok e →
  wp (delete_selection_if_any ≫= λ _, insert_text text) e (λ _ e', edit_ok e' ∧
    (unselected e → gap e' = (before e ++ pasted text, behind e))).
Proof.
  intros Hok. wp_step (delete_spec e Hok). intros b e1 (Hok1 & Hu1 & Hb).
  unfold insert_text. wp_step (insert_bytes_spec text e1 Hok1 (unselected_le _ Hu1)). intros ? e2 ([He2 Hf2] & _ & Hg2).
  apply wp_bind, wp_ensure. intros r. apply wp_modified. split; [split; [auto with hepos|done]|].
  intros Hu. destruct b; destruct Hb as [Hb1 Hb2]; [done|]. subst. exact Hg2.
Qed.

Lemma key_char_spec b e : edit_ok e → printable b = true →
  wp (key_char b) e (λ _ e', edit_ok e' ∧ (select_anchor e = None → select_anchor e' = None ∧ gap e' = (before e ++ [b], behind e))).
Proof.
  intros Hok Hp. assert (b ≠ NL) as Hb by (intros ->; done). unfold key_char.
  wp_step (delete_spec e Hok). intros d e1 (Hok1 & Hu1 & Hd).
  wp_step (insert_char_spec b e1 Hok1 (unselected_le _ Hu1) Hb). intros ? e2 ([He2 Hf2] & _ & Ha2 & Hg2).
  apply wp_modified. split; [split; [auto with hepos|done]|]. intros Hn.
  destruct d; destruct Hd as [Hd1 Hd2]; [by destruct Hd2; left|]. subst. split; [cbn; congruence|exact Hg2].
Qed.

Lemma key_enter_spec e : edit_ok e →
  wp key_enter e (λ _ e', edit_ok e' ∧ (select_anchor e = None → select_anchor e' = None ∧ gap e' = (before e ++ [NL], behind e))).
Proof.
  intros Hok. unfold key_enter. wp_step (delete_spec e Hok). intros d e1 (Hok1 & Hu1 & Hd).
  wp_step (split_line_spec e1 Hok1 (unselected_le _ Hu1)). intros ? e2 ([He2 Hf2] & _ & Ha2 & Hg2).
  apply wp_bind, wp_ensure. intros r. apply wp_modified. split; [split; [auto with hepos|done]|]. intros Hn.
  destruct d; destruct Hd as [Hd1 Hd2]; [by destruct Hd2; left|]. subst. split; [cbn; congruence|exact Hg2].
Qed.

Lemma key_tab_spec e : edit_ok e →
  wp key_tab e (λ _ e', edit_ok e' ∧ (select_anchor e = None → select_anchor e' = None ∧
    gap e' = (before e ++ replicate 4 0x20, behind e))).
Proof.
  intros Hok. unfold key_tab. wp_step (delete_spec e Hok). intros d e1 (Hok1 & Hu1 & Hd).
  wp_step (insert_char_spec 0x20 e1 Hok1 (unselected_le _ Hu1) ltac:(done)). intros ? e2 (Hok2 & Hle2 & Ha2 & Hg2).
  wp_step (insert_char_spec 0x20 e2 Hok2 Hle2 ltac:(done)). intros ? e3 (Hok3 & Hle3 & Ha3 & Hg3).
  wp_step (insert_char_spec 0x20 e3 Hok3 Hle3 ltac:(done)). intros ? e4 (Hok4 & Hle4 & Ha4 & Hg4).
  wp_step (insert_char_spec 0x20 e4 Hok4 Hle4 ltac:(done)). intros ? e5 ([He5 Hf5] & _ & Ha5 & Hg5).
  apply wp_modified. split; [split; [auto with hepos|done]|]. intros Hn.
  destruct d; destruct Hd as [Hd1 Hd2]; [by destruct Hd2; left|]. subst. split; [cbn; congruence|].
  unfold gap in *. injection Hg2 as E1 E2. injection Hg3 as E3 E4. injection Hg4 as E5 E6. injection Hg5 as E7 E8.
  change (before (set_modified true e5)) with (before e5). change (behind (set_modified true e5)) with (behind e5).
  rewrite E7, E8, E5, E6, E3, E4, E1, E2. by rewrite <- !app_assoc.
Qed.

(** Replacing lines when no anchor is set. *)
Lemma edit_ok_noanchor e ls row col : edit_ok e → select_anchor e = None → Forall (λ l, NL ∉ l) ls → valid ls (row, col) →
  edit_ok (set_cursor row col (set_lines ls e)).
Proof.
  intros [He Hf] Ha Hcl Hv. split; [|done]. constructor; cbn; [done|done|by rewrite Ha|by rewrite Hf].
Qed.

Lemma set_cursor_id e : set_cursor (cursor_row e) (cursor_col e) e = e.
Proof. by destruct e. Qed.

Lemma key_backspace_spec e : edit_ok e → select_anchor e ≠ Some (cursor_row e, cursor_col e) →
  wp key_backspace e (λ _ e', edit_ok e' ∧ (select_anchor e = None → select_anchor e' = None ∧
    gap e' = (take (length (before e) - 1) (before e), behind e))).
Proof.
  intros Hok Hns. unfold key_backspace. wp_step (delete_spec e Hok). intros d e1 ([He1 Hf1] & Hu1 & Hd).
  destruct d; destruct Hd as [Hd1 Hd2].
  { apply wp_ensure. intros r. split; [split; [auto with hepos|done]|]. intros Hn. by destruct Hd2; left. }
  subst e1. destruct Hd2 as [Hn|]; [|done]. destruct (einv_around e He1) as (A & l & B & Ha).
  pose proof (gap_around e A l B Ha) as Hg. unfold gap in Hg. injection Hg as Hpre Hpost.
  pose proof (line_clean e A l B He1 Ha) as Hl. pose proof Ha as (El & Er & Hc).
  pose proof (ei_clean e He1) as Hcl. rewrite El, Forall_app, Forall_cons_iff in Hcl. destruct Hcl as (HA & _ & HB).
  apply wp_bind, wp_get. destruct (Nat.ltb_spec 0 (cursor_col e)) as [Hpos|Hz].
  - destruct (lookup_lt_is_Some_2 l (cursor_col e - 1)) as [x Hx]; [lia|].
    apply wp_bind, wp_mod. apply wp_bind. apply (wp_line_at _ _ l); [cbn; rewrite El, Er; apply mid_lookup|].
    apply wp_bind. eapply wp_lift; [by apply v_remove_ok|]. apply wp_bind. unfold wp at 1.
    rewrite set_line_ok by (cbn; rewrite El, Er, length_app; cbn; lia). apply wp_modified. cbn [elines set_cursor].
    rewrite El, Er, mid_insert. set (l' := delete _ l).
    assert (take (cursor_col e - 1) l ++ x :: drop (cursor_col e) l = l) as Hxl.
    { rewrite <- (take_drop_middle l (cursor_col e - 1) x Hx) at 3. by replace (S (cursor_col e - 1)) with (cursor_col e) by lia. }
    assert (l' = take (cursor_col e - 1) l ++ drop (cursor_col e) l) as El'.
    { unfold l'. rewrite delete_take_drop. by replace (S (cursor_col e - 1)) with (cursor_col e) by lia. }
    assert (NL ∉ l') as Hl'. { rewrite El', not_elem_of_app. auto with hepos. }
    split.
    + destruct (edit_ok_noanchor e (A ++ l' :: B) (length A) (cursor_col e - 1) Hok Hn) as [Hx1 Hx2].
      * rewrite Forall_app, Forall_cons_iff. done.
      * exists l'. cbn. rewrite mid_lookup. split; [done|]. rewrite El', length_app, length_take. lia.
      * split; [|done]. by apply (einv_modified true).
    + intros _. split; [done|].
      rewrite (gap_around _ A l' B) by (split_and!; cbn; [done..|rewrite El', length_app, length_take; lia]).
      cbn [cursor_col set_modified set_lines set_cursor]. rewrite Hpre, Hpost, El'. f_equal.
      * rewrite length_app, length_take. replace (length (lin A) + cursor_col e `min` length l - 1)%nat with (length (lin A) + (cursor_col e - 1))%nat by lia.
        rewrite take_app_add, take_take. rewrite take_app_le by (rewrite length_take; lia). rewrite take_take. do 2 f_equal. lia.
      * f_equal. rewrite drop_app_ge by (rewrite length_take; lia). rewrite length_take.
        by replace (cursor_col e - 1 - _)%nat with 0%nat by lia.
  - assert (cursor_col e = 0%nat) as Hc0 by lia. destruct (Nat.ltb_spec 0 (cursor_row e)) as [Hpos|Hrz].
    + destruct A as [|a A' _] using rev_ind; [cbn in Er; lia|]. rewrite length_app in Er. cbn in Er.
      apply Forall_app in HA as [HA Ha0]. apply Forall_cons_iff in Ha0 as [Ha0 _].
      apply wp_bind. eapply wp_lift.
      { apply v_remove_ok. rewrite El, Er. replace (length A' + 1)%nat with (length (A' ++ [a])) by (rewrite length_app; done). apply mid_lookup. }
      rewrite El, Er. replace (length A' + 1)%nat with (length (A' ++ [a])) by (rewrite length_app; done). rewrite mid_delete.
      replace (length (A' ++ [a]) - 1)%nat with (length A') by (rewrite length_app; cbn; lia). rewrite <- app_assoc. cbn [app].
      apply wp_bind, wp_mod, wp_bind. apply (wp_line_at _ _ a); [apply mid_lookup|]. apply wp_bind, wp_mod, wp_bind.
      unfold wp at 1. rewrite set_line_ok by (cbn; rewrite length_app; cbn; lia). cbn [elines set_cursor set_lines]. rewrite mid_insert.
      apply wp_bind, wp_ensure. intros r. apply wp_modified.
      assert (edit_ok (set_cursor (length A') (length a) (set_lines (A' ++ (a ++ l) :: B) e))) as [Hx1 Hx2].
      { apply edit_ok_noanchor; [done..| |].
        - apply Forall_app. split; [done|]. constructor; [|done]. apply not_elem_of_app. split; [exact Ha0|exact Hl].
        - exists (a ++ l). cbn. rewrite mid_lookup, length_app. split; [done|lia]. }
      split; [split; [|done]; by apply (einv_modified true), (einv_scroll r)|]. intros _. split; [done|].
      rewrite (gap_around _ A' (a ++ l) B) by (split_and!; cbn; [done..|rewrite length_app; lia]).
      cbn [cursor_col set_modified set_lines set_cursor set_scroll]. rewrite take_app_length, drop_app_length, Hpre, Hpost, Hc0.
      rewrite take_0, app_nil_r, lin_app. f_equal. unfold lin at 3 4. cbn. rewrite app_nil_r, !length_app. cbn.
      replace (length (lin A') + (length a + 1) - 1)%nat with (length (lin A') + length a)%nat by lia.
      by rewrite take_app_add, take_app_length.
    + apply wp_ret. split; [done|]. intros _. split; [done|]. unfold gap. f_equal. rewrite Hpre, Hc0, take_0, app_nil_r.
      assert (A = []) as -> by (destruct A; cbn in Er; [done|lia]). done.
Qed.

Lemma key_delete_spec e : edit_ok e →
  wp key_delete e (λ _ e', edit_ok e' ∧ (select_anchor e = None → select_anchor e' = None ∧ gap e' = (before e, drop 1 (behind e)))).
Proof.
  intros Hok. unfold key_delete. wp_step (delete_spec e Hok). intros d e1 ([He1 Hf1] & Hu1 & Hd).
  destruct d; destruct Hd as [Hd1 Hd2].
  { apply wp_ensure. intros r. split; [split; [auto with hepos|done]|]. intros Hn. by destruct Hd2; left. }
  subst e1. destruct (einv_around e He1) as (A & l & B & Ha).
  pose proof (gap_around e A l B Ha) as Hg. unfold gap in Hg. injection Hg as Hpre Hpost.
  pose proof (line_clean e A l B He1 Ha) as Hl. pose proof Ha as (El & Er & Hc). pose proof (unselected_le _ Hd2) as Hle.
  pose proof (ei_clean e He1) as Hcl. rewrite El, Forall_app, Forall_cons_iff in Hcl. destruct Hcl as (HA & _ & HB).
  apply wp_bind, wp_get, wp_bind. apply (wp_line_at _ _ l); [rewrite El, Er; apply mid_lookup|].
  destruct (Nat.ltb_spec (cursor_col e) (length l)) as [Hlt|Hge].
  - destruct (lookup_lt_is_Some_2 l (cursor_col e)) as [x Hx]; [done|].
    apply wp_bind. eapply wp_lift; [by apply v_remove_ok|]. apply wp_bind. unfold wp at 1.
    rewrite set_line_ok by (rewrite El, Er, length_app; cbn; lia). rewrite El, Er, mid_insert. apply wp_modified.
    set (l' := delete _ l). assert (l' = take (cursor_col e) l ++ drop (S (cursor_col e)) l) as El' by apply delete_take_drop.
    assert (set_lines (A ++ l' :: B) e = set_cursor (cursor_row e) (cursor_col e) (set_lines (A ++ l' :: B) e)) as Eid by (by destruct e).
    split.
    + rewrite Eid. destruct (edit_ok_replace e A l B [l'] (cursor_row e) (cursor_col e) Hok Ha Hle) as [Hx1 Hx2]; [done| | | |].
      * constructor; [|done]. rewrite El', not_elem_of_app. auto with hepos.
      * exists l', []. split; [done|]. rewrite El', length_app, length_take. lia.
      * exists l'. cbn. rewrite Er, mid_lookup. split; [done|]. rewrite El', length_app, length_take. lia.
      * split; [|done]. by apply (einv_modified true).
    + intros Hn. split; [done|]. rewrite (gap_around _ A l' B) by (split_and!; cbn; [done..|rewrite El', length_app, length_take; lia]).
      cbn [cursor_col set_modified set_lines]. rewrite Hpre, Hpost, El'. f_equal.
      * f_equal. rewrite take_app_le by (rewrite length_take; lia). rewrite take_take. f_equal. lia.
      * rewrite drop_app_ge by (rewrite length_take; lia). rewrite length_take.
        replace (cursor_col e - _)%nat with 0%nat by lia. rewrite drop_0.
        rewrite drop_app_le by (rewrite length_drop; lia). rewrite drop_drop. do 2 f_equal. lia.
  - assert (cursor_col e = length l) as Hcl by lia.
    destruct (Nat.ltb_spec (cursor_row e + 1) (length (elines e))) as [Hlt|Hlast].
    + rewrite El, Er, length_app in Hlt. destruct B as [|b B]; [cbn in Hlt; lia|]. apply Forall_cons_iff in HB as [Hb HB].
      apply wp_bind. eapply wp_lift.
      { apply v_remove_ok. rewrite El, Er. replace (length A + 1)%nat with (length (A ++ [l])) by (rewrite length_app; done).
        change (A ++ l :: b :: B) with (A ++ [l] ++ b :: B). rewrite app_assoc. apply mid_lookup. }
      rewrite El, Er. replace (length A + 1)%nat with (length (A ++ [l])) by (rewrite length_app; done).
      change (A ++ l :: b :: B) with (A ++ [l] ++ b :: B). rewrite app_assoc, mid_delete, <- app_assoc. cbn [app].
      apply wp_bind, wp_mod, wp_bind. apply (wp_line_at _ _ l); [apply mid_lookup|]. apply wp_bind.
      unfold wp at 1. rewrite set_line_ok by (cbn; rewrite length_app; cbn; lia). cbn [elines set_lines]. rewrite mid_insert.
      apply wp_modified.
      assert (∀ ls X, set_lines ls (set_lines X e) = set_cursor (cursor_row e) (cursor_col e) (set_lines ls e)) as Eid by (by destruct e).
      rewrite Eid. split.
      * assert (edit_ok (set_cursor (cursor_row e) (cursor_col e) (set_lines (A ++ [l ++ b] ++ B) e))) as [Hx1 Hx2].
        { assert (∀ a, select_anchor e = Some a → a = (cursor_row e, cursor_col e)) as Hanc by (intros a Ha'; destruct Hd2; congruence).
          split; [|done]. constructor; cbn.
          - apply Forall_app. split; [done|]. constructor; [|done]. apply not_elem_of_app. split; [exact Hl|exact Hb].
          - exists (l ++ b). cbn. rewrite Er, mid_lookup, length_app. split; [done|lia].
          - intros a Ha'. rewrite (Hanc a Ha'). exists (l ++ b). cbn. rewrite Er, mid_lookup, length_app. split; [done|lia].
          - by rewrite Hf1. }
        split; [|done]. by apply (einv_modified true).
      * intros Hn. split; [done|]. rewrite (gap_around _ A (l ++ b) B) by (split_and!; cbn; [done..|rewrite length_app; lia]).
        cbn [cursor_col set_modified set_lines set_cursor]. rewrite Hpre, Hpost, Hcl, take_app_length, drop_app_length, drop_all, firstn_all. done.
    + apply wp_ret. split; [done|]. intros Hn. split; [done|]. unfold gap. f_equal.
      rewrite El, Er, length_app in Hlast. destruct B; cbn in Hlast; [|lia]. rewrite Hpost, Hcl, drop_all. done.
Qed.

(** ** Keys that move *)

Lemma wp_anchor shift e Q : edit_ok e →
  (∀ a, edit_ok (set_anchor a e) → (shift = false → a = None) → Q tt (set_anchor a e)) → wp (update_selection_anchor shift) e Q.
Proof.
  intros [He Hf] HQ. unfold update_selection_anchor. apply wp_mod. destruct shift.
  - destruct (select_anchor e) as [a|] eqn:Ea.
    + assert (e = set_anchor (Some a) e) as Ee by (destruct e; cbn in Ea; by subst).
      assert (Q tt (set_anchor (Some a) e)) as HQa by (apply HQ; [by rewrite <- Ee|done]). by rewrite <- Ee in HQa.
    + apply HQ; [|done]. split; [|done]. apply einv_set_anchor; [done|apply He].
  - apply HQ; [|done]. split; [by apply einv_no_anchor|done].
Qed.

Lemma edit_ok_cursor r c e : edit_ok e → valid (elines e) (r, c) → edit_ok (set_cursor r c e).
Proof. intros [] ?. split; [by apply einv_cursor|done]. Qed.

Lemma edit_ok_scroll r e : edit_ok e → edit_ok (set_scroll r e).
Proof. intros []. split; [by apply einv_scroll|done]. Qed.

#[export] Hint Resolve edit_ok_cursor edit_ok_scroll : hepos.

Lemma row_line e r : einv e → (r < length (elines e))%nat → ∃ l, elines e !! r = Some l.
Proof. intros _ H. apply lookup_lt_is_Some_2. done. Qed.

Lemma wp_clamp_col e r c Q : edit_ok e → (r < length (elines e))%nat →
  (∀ c', edit_ok (set_cursor r c' e) → Q tt (set_cursor r c' e)) → wp clamp_col (set_cursor r c e) Q.
Proof.
  intros He Hr HQ. destruct (row_line e r (proj1 He) Hr) as [l Hl]. unfold clamp_col.
  apply wp_bind. unfold wp at 1, gets. cbn [cursor_row set_cursor].
  apply wp_bind. apply (wp_line_at _ _ l); [done|]. apply wp_mod. cbn [cursor_col cursor_row set_cursor].
  destruct (Nat.ltb_spec (length l) c).
  - change (set_cursor r (length l) (set_cursor r c e)) with (set_cursor r (length l) e).
    apply HQ, edit_ok_cursor; [done|]. by exists l.
  - apply HQ, edit_ok_cursor; [done|]. by exists l.
Qed.

Lemma einv_rows e : einv e → (cursor_row e < length (elines e))%nat.
Proof. intros [_ Hv _ _]. exact (valid_lt _ _ Hv). Qed.

Lemma move_rows_spec shift e (f : Editor → nat) :
  edit_ok e → (∀ a, f (set_anchor a e) = f e) → (f e < length (elines e))%nat →
  wp (update_selection_anchor shift ≫= λ _, modify (λ e, set_cursor (f e) (cursor_col e) e) ≫= λ _, clamp_col ≫= λ _, ensure_visible) e
     (λ _ e', edit_ok e').
Proof.
  intros He Hf Hlt. apply wp_bind, wp_anchor; [done|]. intros a He1 _. apply wp_bind, wp_mod. rewrite Hf.
  apply wp_bind. apply wp_clamp_col; [done|done|]. intros c' He2. apply wp_ensure. auto with hepos.
Qed.

Lemma key_up_spec shift e : edit_ok e → wp (key_up shift) e (λ _ e', edit_ok e').
Proof.
  intros He. unfold key_up. apply wp_bind, wp_anchor; [done|]. intros a He1 _. apply wp_bind, wp_get.
  pose proof (einv_rows _ (proj1 He1)). destruct (0 <? _)%nat; [|by apply wp_ret].
  apply wp_bind, wp_mod, wp_bind, wp_clamp_col; [done|lia|]. intros c' He2. apply wp_ensure. auto with hepos.
Qed.

Lemma key_down_spec shift e : edit_ok e → wp (key_down shift) e (λ _ e', edit_ok e').
Proof.
  intros He. unfold key_down. apply wp_bind, wp_anchor; [done|]. intros a He1 _. apply wp_bind, wp_get.
  destruct (Nat.ltb_spec (cursor_row (set_anchor a e) + 1) (length (elines (set_anchor a e)))); [|by apply wp_ret].
  apply wp_bind, wp_mod, wp_bind, wp_clamp_col; [done|lia|]. intros c' He2. apply wp_ensure. auto with hepos.
Qed.

Lemma key_left_spec shift e : edit_ok e → wp (key_left shift) e (λ _ e', edit_ok e' ∧
  (shift = false → select_anchor e' = None ∧
     gap e' = (take (length (before e) - 1) (before e), drop (length (before e) - 1) (before e) ++ behind e))).
Proof.
  intros He. unfold key_left. apply wp_bind, wp_anchor; [done|]. intros a He1 Ha. apply wp_bind, wp_get.
  destruct (einv_around _ (proj1 He1)) as (A & l & B & Har). pose proof (gap_around _ A l B Har) as Hg.
  change (gap (set_anchor a e)) with (gap e) in Hg. unfold gap in Hg. cbn [cursor_col set_anchor] in Hg. injection Hg as Hpre Hpost.
  destruct Har as (El & Er & Hc). cbn [elines cursor_row cursor_col set_anchor] in *.
  destruct (Nat.ltb_spec 0 (cursor_col e)) as [Hpos|Hz].
  - apply wp_mod. split; [apply edit_ok_cursor; [done|]; exists l; cbn; rewrite El, Er, mid_lookup; split; [done|lia]|].
    intros Hs. split; [by cbn; auto|]. rewrite (gap_around _ A l B) by (split_and!; cbn; [done..|lia]). cbn [cursor_col set_cursor].
    rewrite Hpre, Hpost, length_app, length_take.
    replace (length (lin A) + cursor_col e `min` length l - 1)%nat with (length (lin A) + (cursor_col e - 1))%nat by lia.
    rewrite take_app_add, drop_app_add, take_take. f_equal; [do 2 f_equal; lia|]. rewrite app_assoc. f_equal.
    rewrite <- (take_drop (cursor_col e) l) at 1. rewrite drop_app_le by (rewrite length_take; lia). done.
  - assert (cursor_col e = 0%nat) as Hc0 by lia. rewrite Hc0, take_0, app_nil_r in Hpre. rewrite Hc0, drop_0 in Hpost.
    destruct (Nat.ltb_spec 0 (cursor_row e)) as [Hpos|Hrz].
    + destruct A as [|b A' _] using rev_ind; [cbn in Er; lia|]. rewrite length_app in Er. cbn in Er.
      rewrite <- app_assoc in El. cbn in El. apply wp_bind. apply (wp_line_at _ _ b).
      { cbn. rewrite El, Er. replace (length A' + 1 - 1)%nat with (length A') by lia. apply mid_lookup. }
      replace (cursor_row e - 1)%nat with (length A') by lia. apply wp_bind, wp_mod, wp_ensure. intros r.
      split; [apply edit_ok_scroll, edit_ok_cursor; [done|]; exists b; cbn; rewrite El, mid_lookup; done|].
      intros Hs. split; [by cbn; auto|]. rewrite (gap_around _ A' b (l :: B)) by (split_and!; cbn; done). cbn [cursor_col set_cursor set_scroll].
      rewrite firstn_all, drop_all. rewrite Hpre, Hpost, !lin_snoc, !length_app. cbn [length].
      replace (length (lin A') + (length b + 1) - 1)%nat with (length (lin A') + length b)%nat by lia.
      rewrite take_app_add, drop_app_add, take_app_length, drop_app_length. done.
    + apply wp_ret. split; [done|]. intros Hs. split; [by cbn; auto|]. change (gap (set_anchor a e)) with (before e, behind e).
      rewrite Hpre. assert (A = []) as -> by (destruct A; cbn in Er; [done|lia]). done.
Qed.

Lemma key_right_spec shift e : edit_ok e → wp (key_right shift) e (λ _ e', edit_ok e' ∧
  (shift = false → select_anchor e' = None ∧ gap e' = (before e ++ take 1 (behind e), drop 1 (behind e)))).
Proof.
  intros He. unfold key_right. apply wp_bind, wp_anchor; [done|]. intros a He1 Ha. apply wp_bind, wp_get.
  destruct (einv_around _ (proj1 He1)) as (A & l & B & Har). pose proof (gap_around _ A l B Har) as Hg.
  change (gap (set_anchor a e)) with (gap e) in Hg. unfold gap in Hg. cbn [cursor_col set_anchor] in Hg. injection Hg as Hpre Hpost.
  destruct Har as (El & Er & Hc). cbn [elines cursor_row cursor_col set_anchor] in *.
  apply wp_bind. apply (wp_line_at _ _ l); [cbn; rewrite El, Er; apply mid_lookup|].
  destruct (Nat.ltb_spec (cursor_col e) (length l)) as [Hlt|Hge].
  - destruct (lookup_lt_is_Some_2 l (cursor_col e)) as [x Hx]; [done|].
    apply wp_mod. split; [apply edit_ok_cursor; [done|]; exists l; cbn; rewrite El, Er, mid_lookup; split; [done|lia]|].
    intros Hs. split; [by cbn; auto|]. rewrite (gap_around _ A l B) by (split_and!; cbn; [done..|lia]). cbn [cursor_col set_cursor].
    rewrite Hpre, Hpost, Nat.add_1_r, (take_S_r _ _ _ Hx), (drop_S _ _ _ Hx). cbn. by rewrite take_0, <- app_assoc.
  - assert (cursor_col e = length l) as Hcl by lia. rewrite Hcl, drop_all in Hpost. rewrite Hcl, firstn_all in Hpre.
    destruct (Nat.ltb_spec (cursor_row e + 1) (length (elines e))) as [Hlt|Hlast].
    + rewrite El, Er, length_app in Hlt. destruct B as [|b B]; [cbn in Hlt; lia|].
      assert (elines e = (A ++ [l]) ++ b :: B) as El' by (rewrite El, <- app_assoc; done).
      assert (cursor_row e + 1 = length (A ++ [l]))%nat as Er' by (rewrite length_app; cbn; lia).
      apply wp_bind, wp_mod, wp_ensure. intros r.
      split; [apply edit_ok_scroll, edit_ok_cursor; [done|]; exists b; cbn; rewrite El', Er', mid_lookup; split; [done|lia]|].
      intros Hs. split; [by cbn; auto|]. rewrite (gap_around _ (A ++ [l]) b B) by (split_and!; cbn; [done..|lia]).
      cbn [cursor_col set_cursor set_scroll]. rewrite Hpre, Hpost, lin_app. cbn. unfold lin at 2. cbn. rewrite !app_nil_r, <- !app_assoc.
      by rewrite take_0.
    + apply wp_ret. split; [done|]. intros Hs. split; [by cbn; auto|]. change (gap (set_anchor a e)) with (before e, behind e).
      rewrite El, Er, length_app in Hlast. destruct B; cbn in Hlast; [|lia]. rewrite Hpost. cbn. by rewrite app_nil_r.
Qed.

Lemma key_home_spec shift ctrl e : edit_ok e → wp (key_home shift ctrl) e (λ _ e', edit_ok e').
Proof.
  intros He. unfold key_home. apply wp_bind, wp_anchor; [done|]. intros a He1 _. destruct (ei_cur _ (proj1 He1)) as (l & Hl & Hc).
  destruct ctrl; apply wp_mod.
  - apply edit_ok_scroll, edit_ok_cursor; [done|]. destruct (row_line _ 0 (proj1 He1)) as [l0 Hl0].
    { pose proof (einv_rows _ (proj1 He1)). lia. }
    exists l0. split; [done|cbn; lia].
  - apply edit_ok_cursor; [done|]. exists l. split; [done|cbn; lia].
Qed.

Lemma key_end_spec shift ctrl e : edit_ok e → wp (key_end shift ctrl) e (λ _ e', edit_ok e').
Proof.
  intros He. unfold key_end. apply wp_bind, wp_anchor; [done|]. intros a He1 _. apply wp_bind, wp_get.
  pose proof (einv_rows _ (proj1 He1)) as Hr. destruct ctrl.
  - destruct (row_line _ (length (elines (set_anchor a e)) - 1) (proj1 He1)) as [l Hl]; [lia|].
    apply wp_bind. apply (wp_line_at _ _ l); [done|]. apply wp_bind, wp_mod, wp_ensure. intros r.
    apply edit_ok_scroll, edit_ok_cursor; [done|]. by exists l.
  - destruct (ei_cur _ (proj1 He1)) as (l & Hl & Hc). apply wp_bind. apply (wp_line_at _ _ l); [done|].
    apply wp_mod, edit_ok_cursor; [done|]. by exists l.
Qed.

Lemma key_pgup_spec shift e : edit_ok e → wp (key_pgup shift) e (λ _ e', edit_ok e').
Proof. intros He. apply move_rows_spec; [done..|]. pose proof (einv_rows _ (proj1 He)). lia. Qed.

Lemma key_pgdn_spec shift e : edit_ok e → wp (key_pgdn shift) e (λ _ e', edit_ok e').
Proof. intros He. apply move_rows_spec; [done..|]. pose proof (einv_rows _ (proj1 He)). lia. Qed.

(** ** Finding *)

Lemma line_matches_valid fuel q line r c p : p ∈ line_matches fuel q line r c →
  p.1 = r ∧ (p.2 + length q ≤ length line)%nat ∧ take (length q) (drop p.2 line) = q.
Proof.
  revert c. induction fuel as [|fuel IH]; intros c; cbn [line_matches]; [by rewrite elem_of_nil|].
  destruct (Nat.leb_spec (c + length q) (length line)); [|by rewrite elem_of_nil].
  rewrite elem_of_app. intros [Hp|Hp]; [|by eapply IH]. unfold beq in Hp. case_bool_decide; [|by apply elem_of_nil in Hp].
  apply list_elem_of_singleton in Hp as ->. done.
Qed.

Lemma all_matches_valid q ls : Forall (valid ls) (all_matches q ls).
Proof.
  apply Forall_forall. intros p Hp. unfold all_matches in Hp. apply list_elem_of_In, in_concat in Hp as (ms & Hms & Hp).
  apply list_elem_of_In in Hms. apply list_elem_of_In in Hp.
  apply elem_of_lookup_imap in Hms as (r & line & -> & Hl). destruct (line_matches_valid _ _ _ _ _ _ Hp) as (E & Hlen & _).
  exists line. rewrite E. split; [done|lia].
Qed.

Definition find_ok (e : Editor) : Prop := einv e ∧ find_mode e = true.

Lemma goto_spec e : find_ok e → (find_idx e < length (find_matches e))%nat → wp goto_match e (λ _ e', find_ok e').
Proof.
  intros [He Hf] Hi. unfold goto_match. apply wp_bind, wp_get.
  destruct (lookup_lt_is_Some_2 _ _ Hi) as [[r c] Hm]. apply wp_bind. eapply wp_lift; [by apply v_get_ok|].
  apply wp_bind, wp_mod, wp_ensure. intros k. split; [|done]. apply einv_scroll, einv_cursor; [done|].
  apply (Forall_lookup_1 _ _ _ _ (ei_find e He Hf) Hm).
Qed.

Lemma find_ok_idx e q i : find_ok e → find_ok (set_find (find_mode e) q (find_matches e) i e).
Proof. intros [[? ? ? H] Hf]. split; [|done]. constructor; cbn; [done..|]. exact H. Qed.

Lemma find_next_spec e : find_ok e → wp find_next e (λ _ e', find_ok e').
Proof.
  intros Hok. unfold find_next. apply wp_bind, wp_get. destruct (find_matches e) as [|m ms] eqn:Em; [by apply wp_ret|].
  apply wp_bind, wp_mod. rewrite <- Em. apply goto_spec; [by apply find_ok_idx|]. cbn [find_idx find_matches set_find].
  apply Nat.mod_upper_bound. by rewrite Em.
Qed.

Lemma position_lt {A} (p : A → bool) l : l ≠ [] → (default O (position p l) < length l)%nat.
Proof.
  intros Hl. assert (∀ i, position p l = Some i → (i < length l)%nat) as H.
  { clear Hl. induction l as [|x l IH]; cbn [position]; [done|]. intros i. destruct (p x); [intros [= <-]; cbn; lia|].
    destruct (position p l); cbn; [intros [= <-]; specialize (IH _ eq_refl); lia|done]. }
  destruct (position p l); cbn; [by apply H|]. destruct l; [done|cbn; lia].
Qed.

Lemma find_jump_spec e : find_ok e → wp find_jump_nearest e (λ _ e', find_ok e').
Proof.
  intros Hok. unfold find_jump_nearest. apply wp_bind, wp_get. destruct (find_matches e) as [|m ms] eqn:Em; [by apply wp_ret|].
  apply wp_bind, wp_mod. rewrite <- Em. apply goto_spec; [by apply find_ok_idx|]. cbn [find_idx find_matches set_find].
  apply position_lt. by rewrite Em.
Qed.

Lemma find_all_spec e : find_ok e → wp find_all e (λ _ e', find_ok e').
Proof.
  intros [[? ? ? H] Hf]. unfold find_all. apply wp_mod. split; [|done]. constructor; cbn; [done..|]. intros _.
  destruct (find_query e) eqn:Eq; [constructor|]. apply all_matches_valid.
Qed.

Lemma find_key_spec b e : find_ok e → wp (find_key b) e (λ _ e', einv e').
Proof.
  intros Hok. unfold find_key. destruct (b =? 0x1B).
  { apply wp_mod. destruct Hok as [[? ? ? H] Hf]. by constructor. }
  destruct (_ || _). { eapply wp_mono; [by apply find_next_spec|]. by intros ? ? []. }
  assert (∀ q, wp (modify (λ e, set_find (find_mode e) (q e) (find_matches e) (find_idx e) e) ≫= λ _, find_all ≫= λ _, find_jump_nearest) e
    (λ _ e', einv e')) as Hre.
  { intros q. apply wp_bind, wp_mod. wp_step (find_all_spec (set_find (find_mode e) (q e) (find_matches e) (find_idx e) e) (find_ok_idx _ _ _ Hok)).
    intros ? e1 Hok1. eapply wp_mono; [by apply find_jump_spec|]. by intros ? ? []. }
  destruct (b =? 0x08); [apply Hre|]. destruct (printable b); [apply (Hre (λ e, find_query e ++ [b]))|]. apply wp_ret, Hok.
Qed.

(** ** Copying *)

Lemma selected_text_ok e : einv e → ∃ t, selected_text e = Ok t.
Proof.
  intros He. unfold selected_text. pose proof (selection_range_spec e He) as H.
  destruct (selection_range e) as [[s t]|]; [|eauto]. destruct H as ((l1 & H1 & C1) & (l2 & H2 & C2) & Hlt).
  rewrite (v_get_ok _ _ _ H1). cbn [mbind outcome_bind]. destruct (Nat.eqb_spec s.1 t.1) as [E|Hne].
  - rewrite E in H1. assert (l1 = l2) as <- by congruence. rewrite v_slice_ok by lia. by eexists.
  - pose proof (lookup_lt_Some _ _ _ H2) as L2. rewrite v_slice_ok by lia. cbn [mbind outcome_bind].
    rewrite v_slice_ok by lia. cbn [mbind outcome_bind]. rewrite (v_get_ok _ _ _ H2). cbn [mbind outcome_bind].
    rewrite v_slice_ok by lia. by eexists.
Qed.

Section keys.
Context {St : Type} `{!FileStore St}.
Implicit Types (w : world (St := St)).

Lemma wp_bind_inv {S A B} (c : ST S A) (k : A → ST S B) s Q : wp (c ≫= k) s Q → wp c s (λ a s', wp (k a) s' Q).
Proof. unfold wp, mbind, ST_bind. by destruct (c s) as [[a s']|]. Qed.

Lemma wp_get' {S A} (f : S → A) s Q : Q (f s) s → wp (gets f) s Q.
Proof. done. Qed.

Lemma wp_in_ed {A} (c : ST Editor A) w Q :
  wp c (ed w) (λ a e', Q a (mkWorld e' (CLIPBOARD w) (CONTROLLER w))) → wp (in_ed c) w Q.
Proof. unfold wp, in_ed. by destruct (c (ed w)) as [[a e']|]. Qed.

Lemma copy_spec w : einv (ed w) → wp copy_selection w (λ _ w', einv (ed w')).
Proof.
  intros He. destruct (selected_text_ok (ed w) He) as [t Ht]. unfold copy_selection. apply wp_bind, wp_get, wp_bind.
  eapply wp_lift; [done|]. by destruct t.
Qed.

Lemma paste_clip_spec w : edit_ok (ed w) → wp paste_clipboard w (λ _ w', edit_ok (ed w') ∧
  (unselected (ed w) → gap (ed w') = (before (ed w) ++ pasted (CLIPBOARD w), behind (ed w)))).
Proof.
  intros He. unfold paste_clipboard. pose proof (paste_spec (CLIPBOARD w) (ed w) He) as H.
  apply wp_bind, wp_in_ed. eapply wp_mono; [exact (wp_bind_inv _ _ _ _ H)|]. intros b e1 H1. apply wp_bind, wp_get', wp_in_ed. exact H1.
Qed.

(** The store panics when it is asked to save the text. *)
Definition save_panics (w : world (St := St)) : Prop :=
  ∃ s e, CONTROLLER w = Some s ∧ save_file (path (ed w)) (save_data (ed w)) s = Panic e.

(** Saving succeeds and keeps the editor consistent, or panics with the store. *)
Lemma save_spec w : einv (ed w) →
  match save w with Ok (_, w') => einv (ed w') ∧ ¬ save_panics w | Panic _ => save_panics w end.
Proof.
  intros He. unfold save, save_panics. destruct (CONTROLLER w) as [s|] eqn:Ec.
  - cbv zeta. destruct (save_file (path (ed w)) (save_data (ed w)) s) as [[ino s']|m] eqn:E; cbn [mbind outcome_bind].
    + split; [by apply einv_status, einv_modified|]. intros (s1 & m & [= <-] & E1). congruence.
    + by exists s, m.
  - split; [by apply einv_status|]. by intros (s1 & m & [=] & _).
Qed.

Lemma key_close_spec e : einv e → wp key_close e (λ _ e', einv e').
Proof. intros He. unfold key_close. apply wp_mod. destruct (modified e); auto with hepos. Qed.

Lemma delete_unselected e : unselected e → delete_selection_if_any e = Ok (false, e).
Proof.
  intros Hu. unfold delete_selection_if_any, get, mbind, ST_bind, selection_range.
  destruct Hu as [E|E]; rewrite E; [done|]. by rewrite bool_decide_true.
Qed.

(** Backspace does not panic when the anchor is on the cursor, whatever it leaves. *)
Lemma key_backspace_stale e : edit_ok e → select_anchor e = Some (cursor_row e, cursor_col e) → is_ok (key_backspace e) = true.
Proof.
  intros [He Hf] Ha. assert (edit_ok (set_anchor None e)) as Hok by (split; [destruct He; by constructor|done]).
  pose proof (key_backspace_spec (set_anchor None e) Hok ltac:(done)) as H. apply wp_inv in H as (u & e' & H & _).
  unfold key_backspace, mbind, ST_bind in *. rewrite delete_unselected in H by (by left). rewrite delete_unselected by (by right).
  unfold get, modify, lift, set_line, line_at, ensure_visible, mbind, ST_bind, modify, get in *. cbn in *.
  repeat (unfold outcome_bind, is_ok in *; cbn in *; case_match; simplify_eq; try done).
  all: cbn in *; congruence.
Qed.

(** Backspace with the selection anchor on the cursor, the state a mouse click leaves. *)
Definition stale_backspace (w : world (St := St)) (c : Z) : Prop :=
  u8 c = 0x08 ∧ find_mode (ed w) = false ∧ select_anchor (ed w) = Some (cursor_row (ed w), cursor_col (ed w)).

(** The key that saves, outside find mode. *)
Definition save_key (w : world (St := St)) (c : Z) : bool := negb (find_mode (ed w)) && ((u8 c =? 0x13) || (u8 c =? KEY_F2)).

Lemma on_key_save w shift ctrl c : save_key w c = true → on_key shift ctrl c w = save w.
Proof.
  unfold save_key. intros [Hf%negb_true_iff Hk]%andb_prop. unfold on_key, mbind, ST_bind, get. rewrite Hf, Hk.
  destruct (Z.eqb_spec (u8 c) 0x06) as [E|]; [|done]. by rewrite E in Hk.
Qed.

Lemma on_key_backspace w shift ctrl c : u8 c = 0x08 → find_mode (ed w) = false → on_key shift ctrl c w = in_ed key_backspace w.
Proof. intros Hc Hf. unfold on_key, mbind, ST_bind, get. rewrite Hc, Hf. done. Qed.

(** Every other key is handled and keeps the editor consistent. *)
Lemma on_key_other w shift ctrl c : einv (ed w) → save_key w c = false → ¬ stale_backspace w c →
  wp (on_key shift ctrl c) w (λ _ w', einv (ed w')).
Proof.
  intros He Hsk Hsb. assert (u8 c = 0x08 → find_mode (ed w) = false → select_anchor (ed w) ≠ Some (cursor_row (ed w), cursor_col (ed w))) as Hb
    by (intros ???; by apply Hsb).
  assert (find_mode (ed w) = false → (u8 c =? 0x13) || (u8 c =? KEY_F2) = false) as Hsv0 by (intros Hf; unfold save_key in Hsk; by rewrite Hf in Hsk).
  unfold on_key. apply wp_bind, wp_get. destruct (u8 c =? 0x06).
  { destruct (find_mode (ed w)) eqn:Ef; cbn [negb].
    - apply wp_in_ed. eapply wp_mono; [by apply find_next_spec|]. by intros ? ? [].
    - apply wp_in_ed, wp_mod. destruct He. constructor; cbn; [done..|]. constructor. }
  destruct (find_mode (ed w)) eqn:Ef. { apply wp_in_ed. by apply find_key_spec. }
  pose proof (Hsv0 eq_refl) as Hsv.
  assert (edit_ok (ed w)) as Hok by done.
  assert (∀ (k : ST Editor unit) (P : Editor → Prop), wp k (ed w) (λ _ e', edit_ok e' ∧ P e') → wp (in_ed k) w (λ _ w', einv (ed w'))) as Hin.
  { intros k P Hk. apply wp_in_ed. eapply wp_mono; [exact Hk|]. by intros ? ? [[? ?] ?]. }
  assert (∀ (k : ST Editor unit), wp k (ed w) (λ _ e', edit_ok e') → wp (in_ed k) w (λ _ w', einv (ed w'))) as Hin0.
  { intros k Hk. apply wp_in_ed. eapply wp_mono; [exact Hk|]. by intros ? ? [? ?]. }
  destruct (_ || _); [done|]. destruct (_ || _); [by apply copy_spec|].
  destruct (_ || _); [eapply wp_mono; [by apply paste_clip_spec|]; by intros ? ? [[? ?] ?]|].
  destruct (_ || _); [by apply wp_in_ed, key_close_spec|].
  destruct (u8 c =? KEY_F10); [by apply wp_in_ed, wp_mod, einv_opened|].
  destruct (u8 c =? KEY_UP); [by apply Hin0, key_up_spec|]. destruct (u8 c =? KEY_DOWN); [by apply Hin0, key_down_spec|].
  destruct (u8 c =? KEY_LEFT); [by eapply Hin, key_left_spec|]. destruct (u8 c =? KEY_RIGHT); [by eapply Hin, key_right_spec|].
  destruct (u8 c =? KEY_HOME); [by apply Hin0, key_home_spec|]. destruct (u8 c =? KEY_END); [by apply Hin0, key_end_spec|].
  destruct (u8 c =? KEY_PGUP); [by apply Hin0, key_pgup_spec|]. destruct (u8 c =? KEY_PGDN); [by apply Hin0, key_pgdn_spec|].
  destruct (u8 c =? NL); [by eapply Hin, key_enter_spec|].
  destruct (Z.eqb_spec (u8 c) 0x08); [eapply Hin, key_backspace_spec; auto|].
  destruct (u8 c =? KEY_DEL); [by eapply Hin, key_delete_spec|]. destruct (u8 c =? 0x09); [by eapply Hin, key_tab_spec|].
  destruct (printable (u8 c)) eqn:Ep; [by eapply Hin, key_char_spec|]. by apply wp_ret.
Qed.

(** C19: What any key does to a consistent editor, in which the cursor and the
    selection anchor are inside the text, no line contains a line break, and in find mode
    every match lies in the text. A key panics exactly when it saves and the file store
    panics while the text is written to it (a full disk, inode table or directory, too
    long a name, a path that leads to a directory); otherwise it leaves the editor
    consistent, but for Backspace with the anchor on the cursor, the state a mouse click
    leaves, after which the anchor may lie outside the text. *)
Theorem on_key_safe w shift ctrl c (He : einv (ed w)) :
  match on_key shift ctrl c w with
  | Ok (_, w') => ¬ (save_key w c = true ∧ save_panics w) ∧ (einv (ed w') ∨ stale_backspace w c)
  | Panic _ => save_key w c = true ∧ save_panics w
  end.
Proof.
  destruct (save_key w c) eqn:Esk.
  - rewrite on_key_save by done. pose proof (save_spec w He) as H. destruct (save w) as [[u w']|]; [|done].
    destruct H as [H1 H2]. split; [by intros [_ ?]|by left].
  - destruct (decide (u8 c = 0x08 ∧ find_mode (ed w) = false ∧ select_anchor (ed w) = Some (cursor_row (ed w), cursor_col (ed w)))) as [Hb|Hb].
    + destruct Hb as (Hc & Hf & Ha). rewrite on_key_backspace by done.
      pose proof (key_backspace_stale (ed w) ltac:(done) Ha) as Hok. unfold in_ed.
      destruct (key_backspace (ed w)) as [[u e']|]; [|done]. cbn [mbind outcome_bind]. split; [by intros [? _]|by right].
    + pose proof (on_key_other w shift ctrl c He Esk Hb) as H. apply wp_inv in H as (u & w' & -> & Hi). split; [by intros [? _]|by left].
Qed.
End keys.

(** ** The gap buffer an editing session refines *)

Inductive gap_key := GChar (b : Z) | GEnter | GTab | GBackspace | GDelete | GLeft | GRight.

Definition key_code (k : gap_key) : Z :=
  match k with
  | GChar b => b | GEnter => NL | GTab => 0x09 | GBackspace => 0x08 | GDelete => KEY_DEL | GLeft => KEY_LEFT | GRight => KEY_RIGHT
  end.

Definition gap_key_ok (k : gap_key) : Prop := match k with GChar b => printable b = true | _ => True end.

(** Text before and behind the cursor, with no notion of lines. *)
Definition gap_step (k : gap_key) (g : list Z * list Z) : list Z * list Z :=
  let '(pre, post) := g in
  match k with
  | GChar b => (pre ++ [b], post)
  | GEnter => (pre ++ [NL], post)
  | GTab => (pre ++ replicate 4 0x20, post)
  | GBackspace => (take (length pre - 1) pre, post)
  | GDelete => (pre, drop 1 post)
  | GLeft => (take (length pre - 1) pre, drop (length pre - 1) pre ++ post)
  | GRight => (pre ++ take 1 post, drop 1 post)
  end.

Lemma editor_new_lines p content : elines (editor_new p content) = split_on NL content.
Proof. unfold editor_new. cbn. pose proof (split_on_nonempty NL content). by destruct (split_on NL content). Qed.

Section sessions.
Context {St : Type} `{!FileStore St}.
Implicit Types (w : world (St := St)).

(** An editing session: keys typed without modifiers. *)
Fixpoint type_keys (ks : list gap_key) : ST (world (St := St)) unit :=
  match ks with [] => mret tt | k :: ks => on_key false false (key_code k) ≫= λ _, type_keys ks end.

Definition plain (w : world (St := St)) : Prop := edit_ok (ed w) ∧ select_anchor (ed w) = None.

Lemma on_key_gap w k : plain w → gap_key_ok k →
  wp (on_key false false (key_code k)) w (λ _ w', plain w' ∧ gap (ed w') = gap_step k (gap (ed w))).
Proof.
  intros [Hok Hn] Hk. unfold on_key. apply wp_bind, wp_get. pose proof Hok as [He Hf]. rewrite Hf.
  assert (∀ (c : ST Editor unit) (P : Prop), wp c (ed w) (λ _ e', edit_ok e' ∧ (P → select_anchor e' = None ∧ gap e' = gap_step k (gap (ed w)))) →
    P → wp (in_ed c) w (λ _ w', plain w' ∧ gap (ed w') = gap_step k (gap (ed w)))) as Hin.
  { intros c P Hc HP. apply wp_in_ed. eapply wp_mono; [exact Hc|]. intros ? e' [Hok' H]. destruct (H HP) as [H1 H2]. by split. }
  destruct k as [b| | | | | |]; cbn [key_code].
  - cbn in Hk. unfold printable in Hk. assert (u8 b = b) as -> by (apply wrap_small; unfold is_u; lia).
    assert (32 ≤ b < 128) as Hb by lia. unfold KEY_F2, KEY_F10, KEY_UP, KEY_DOWN, KEY_LEFT, KEY_RIGHT, KEY_HOME, KEY_END, KEY_PGUP, KEY_PGDN, KEY_DEL, NL.
    rewrite !andb_false_r, !orb_false_r.
    repeat match goal with |- context [b =? ?x] => rewrite (proj2 (Z.eqb_neq b x)) by lia end. cbn [orb andb].
    assert (printable b = true) as Hp by (unfold printable; lia). rewrite Hp. by eapply Hin; [apply key_char_spec|].
  - eapply (Hin key_enter); [by apply key_enter_spec|done].
  - eapply (Hin key_tab); [by apply key_tab_spec|done].
  - eapply (Hin key_backspace); [apply key_backspace_spec; [done|by rewrite Hn]|done].
  - eapply (Hin key_delete); [by apply key_delete_spec|done].
  - eapply (Hin (key_left false)); [by apply key_left_spec|done].
  - eapply (Hin (key_right false)); [by apply key_right_spec|done].
Qed.

Lemma type_keys_spec ks w : plain w → Forall gap_key_ok ks →
  wp (type_keys ks) w (λ _ w', plain w' ∧ gap (ed w') = fold_left (λ g k, gap_step k g) ks (gap (ed w))).
Proof.
  revert w. induction ks as [|k ks IH]; intros w Hw Hks; [by apply wp_ret|]. apply Forall_cons_iff in Hks as [Hk Hks].
  cbn [type_keys]. wp_step (on_key_gap w k Hw Hk). intros ? w1 [Hw1 Hg1]. eapply wp_mono; [by apply IH|].
  intros ? w2 [Hw2 Hg2]. split; [done|]. by rewrite Hg2, Hg1.
Qed.

(** C17: Line-based editing is text editing. Whatever sequence of printable keys,
    Enter, Tab, Backspace, Delete and horizontal arrows is typed into a freshly
    opened file, the editor never panics, and the bytes it would save are those of
    a plain gap buffer over the file's bytes driven by the same keys: joining and
    splitting lines, and moving between them, are invisible. *)
Theorem editor_refines_gap_buffer p content ks clip ctrl (Hks : Forall gap_key_ok ks) :
  wp (type_keys ks) (mkWorld (editor_new p content) clip ctrl) (λ _ w',
    let '(pre, post) := fold_left (λ g k, gap_step k g) ks ([], content) in
    before (ed w') = pre ∧ behind (ed w') = post ∧ save_data (ed w') = pre ++ post).
Proof.
  assert (editor_new p content = mkEditor p (split_on NL content) 0 0 0 false HINT true true 20 (supports_highlighting p) None false [] [] 0) as Hnew.
  { unfold editor_new. pose proof (split_on_nonempty NL content). by destruct (split_on NL content). }
  assert (plain (mkWorld (editor_new p content) clip ctrl) ∧ gap (editor_new p content) = ([], content)) as [Hpl Hg].
  { rewrite Hnew. pose proof (split_on_nonempty NL content) as Hne. pose proof (join_split NL content) as Hj.
    pose proof (split_on_notin NL content) as Hcl. destruct (split_on NL content) as [|l ls]; [done|]. split.
    - split; [|done]. split; [|done]. constructor; cbn; try done. exists l. split; [done|cbn; lia].
    - rewrite (gap_around _ [] l ls) by (split_and!; cbn; [done..|lia]). cbn. rewrite drop_0. by rewrite <- join_tl, Hj. }
  eapply wp_mono; [by apply type_keys_spec|]. intros ? w' [Hpl' Hg']. cbn [ed] in Hg'. rewrite Hg in Hg'.
  destruct (fold_left _ ks _) as [pre post]. unfold gap in Hg'. injection Hg' as <- <-. split_and!; [done..|].
  apply gap_data. apply Hpl'.
Qed.

(** Opening any content and saving it writes the same bytes. *)
Lemma open_save_bytes p content : save_data (editor_new p content) = content.
Proof. unfold save_data. rewrite editor_new_lines. apply join_split. Qed.

(** What a consistent editor saves opens as its lines. *)
Lemma save_open_lines e p : einv e → elines (editor_new p (save_data e)) = elines e.
Proof. intros He. rewrite editor_new_lines. unfold save_data. apply split_join; [by apply einv_nonempty|apply He]. Qed.
End sessions.

(** ** The stale anchor of a click *)

Lemma mouse_down_spec r c e : edit_ok e → wp (mouse_down r c) e (λ _ e', edit_ok e' ∧
  select_anchor e' = Some (cursor_row e', cursor_col e') ∧ elines e' = elines e ∧
  cursor_row e' = Nat.min r (length (elines e) - 1)).
Proof.
  intros [He Hf]. unfold mouse_down, move_to. apply wp_bind, wp_bind, wp_get. pose proof (einv_rows e He).
  destruct (row_line e (Nat.min r (length (elines e) - 1)) He) as [l Hl]; [lia|].
  apply wp_bind. apply (wp_line_at _ _ l); [done|]. apply wp_mod. apply wp_bind, wp_mod, wp_ensure. intros k. split_and!; [|done..].
  assert (valid (elines e) (Nat.min r (length (elines e) - 1), Nat.min c (length l))) as Hv by (exists l; split; [done|cbn; lia]).
  apply edit_ok_scroll. split; [|done]. apply einv_set_anchor; [by apply einv_cursor|done].
Qed.

(** A click leaves the selection anchor on the cursor, and typing does not
    clear it. So the first character typed after a click counts as selected and
    the second one replaces it; and after clicking at the end of a line, Backspace
    leaves the anchor behind the end of the line, and copying panics. *)
Theorem click_leaves_stale_anchor :
  (∀ e r c a b, edit_ok e → printable a = true → printable b = true →
     wp (mouse_down r c) e (λ _ e1,
       wp (key_char a ≫= λ _, key_char b) e1 (λ _ e2, gap e2 = (before e1 ++ [b], behind e1)))) ∧
  (∀ p l x, NL ∉ l ++ [x] →
     wp (mouse_down 0 (length (l ++ [x])) ≫= λ _, key_backspace) (editor_new p (l ++ [x])) (λ _ e,
       save_data e = l ∧ is_ok (selected_text e) = false)).
Proof.
  split.
  - intros e r c a b Hok Ha Hb. assert (a ≠ NL ∧ b ≠ NL) as [Na Nb] by (split; intros ->; done).
    eapply wp_mono; [by apply mouse_down_spec|]. intros ? e1 (Hok1 & Hanc & _). unfold key_char at 1. apply wp_bind.
    assert (unselected e1) as Hu1 by (by right). apply wp_bind. unfold wp at 1. rewrite (delete_unselected e1 Hu1). apply wp_bind.
    destruct (einv_around e1 (proj1 Hok1)) as (A & l & B & Har). pose proof (gap_around e1 A l B Har) as Hg1.
    pose proof (wp_result _ _ _ _ _ (insert_char_spec a e1 Hok1 (unselected_le _ Hu1) Na) (insert_char_eq e1 A l B a Har)) as (Hok2 & _).
    unfold wp at 1. rewrite (insert_char_eq e1 A l B a Har). apply wp_modified. pose proof Har as (El & Er & Hc).
    set (l' := take (cursor_col e1) l ++ a :: drop (cursor_col e1) l) in *. set (e3 := set_modified true _).
    assert (edit_ok e3) as Hok3 by (split; [apply einv_modified, Hok2|apply Hok2]).
    assert (selection_range e3 = Some ((length A, cursor_col e1), (length A, (cursor_col e1 + 1)%nat))) as Hsel.
    { unfold selection_range. cbn. rewrite Hanc, Er. rewrite bool_decide_false by (intros [=]; lia).
      unfold pos_le. cbn. rewrite Nat.eqb_refl, (proj2 (Nat.leb_le _ _)) by lia. by rewrite orb_true_r. }
    unfold key_char. apply wp_bind. unfold wp at 1. rewrite (delete_selection_eq e3 _ _ (proj1 Hok3) Hsel). cbn [fst snd].
    assert (cut (elines e3) (length A, cursor_col e1) (length A, (cursor_col e1 + 1)%nat) = A ++ l :: B) as ->.
    { unfold cut. cbn. rewrite mid_lookup, mid_take, mid_drop. cbn. unfold l'.
      rewrite take_app_le, take_take, Nat.min_id by (rewrite length_take; lia).
      rewrite drop_app_ge by (rewrite length_take; lia). rewrite length_take.
      replace (cursor_col e1 + 1 - _)%nat with 1%nat by lia. cbn. by rewrite drop_0, take_drop. }
    apply wp_bind. unfold wp at 1. erewrite (insert_char_eq _ A l B b) by (split_and!; cbn; done). apply wp_modified.
    erewrite (gap_around _ A _ B) by (split_and!; cbn; [done..|rewrite length_app, length_take; cbn; rewrite length_drop; lia]).
    cbn [cursor_col set_cursor set_lines set_modified set_anchor]. unfold gap in Hg1. injection Hg1 as -> ->. f_equal.
    + rewrite <- app_assoc. f_equal. rewrite take_app_ge by (rewrite length_take; lia). rewrite length_take.
      by replace (cursor_col e1 + 1 - _)%nat with 1%nat by lia.
    + f_equal. rewrite drop_app_ge by (rewrite length_take; lia). rewrite length_take.
      by replace (cursor_col e1 + 1 - _)%nat with 1%nat by lia.
  - intros p l x Hx. unfold editor_new. rewrite (split_on_none NL (l ++ [x]) Hx).
    generalize HINT, (supports_highlighting p). intros hint hl.
    unfold wp, mouse_down, move_to, key_backspace, mbind, ST_bind, get, modify, lift, line_at. cbn. rewrite Nat.min_id.
    rewrite delete_unselected by (by right). cbn. rewrite length_app. cbn. rewrite Nat.add_1_r. cbn. rewrite Nat.sub_0_r.
    rewrite (v_remove_ok (length l) x) by apply mid_lookup. cbn. rewrite mid_delete, app_nil_r. split; [done|].
    assert (pos_le (0%nat, S (length l)) (0%nat, length l) = false) as Hple by (apply not_true_iff_false; rewrite pos_le_spec; cbn; lia).
    assert (v_slice (length l) (S (length l)) l = Panic "slice index out of range") as Hsl.
    { unfold v_slice. destruct (Nat.leb_spec (S (length l)) (length l)); [lia|]. by rewrite andb_false_r. }
    unfold selected_text, selection_range. cbn -[v_slice pos_le]. rewrite bool_decide_false by (intros [=]; lia).
    rewrite Hple. cbn -[v_slice]. by rewrite Hsl.
Qed.

(** ** The highlighter *)

Lemma skip_quoted_range fuel q line i : (i ≤ length line)%nat → (i ≤ skip_quoted fuel q line i ≤ length line)%nat.
Proof.
  revert i. induction fuel as [|fuel IH]; intros i Hi; cbn [skip_quoted]; [lia|].
  destruct (line !! i) as [b|] eqn:Hb; [|lia]. apply lookup_lt_Some in Hb. destruct (b =? q); [lia|].
  destruct (_ && _) eqn:E.
  - apply andb_prop in E as [_ E]. apply Nat.ltb_lt in E. specialize (IH (i + 2)%nat ltac:(lia)). lia.
  - specialize (IH (i + 1)%nat ltac:(lia)). lia.
Qed.

Lemma skip_while_range p line i fuel : (i ≤ length line)%nat → (i ≤ skip_while p line i fuel ≤ length line)%nat.
Proof.
  revert i. induction fuel as [|fuel IH]; intros i Hi; cbn [skip_while]; [lia|].
  destruct (line !! i) as [b|] eqn:Hb; [|lia]. apply lookup_lt_Some in Hb. destruct (p b); [|lia].
  specialize (IH (i + 1)%nat ltac:(lia)). lia.
Qed.

Lemma skip_while_progress p line i b : line !! i = Some b → p b = true → (i < skip_while p line i (length line))%nat.
Proof.
  intros Hb Hp. pose proof (lookup_lt_Some _ _ _ Hb). destruct (length line) as [|n] eqn:En; [lia|]. cbn [skip_while]. rewrite Hb, Hp.
  pose proof (skip_while_range p line (i + 1) n ltac:(lia)). lia.
Qed.

Lemma paint_ok a b col cs : (a ≤ b ≤ length cs)%nat → ∃ cs', paint a b col cs = Ok cs' ∧ length cs' = length cs.
Proof.
  intros H. unfold paint. rewrite (proj2 (Nat.leb_le a b)), (proj2 (Nat.leb_le b (length cs))) by lia. eexists. split; [done|].
  rewrite !length_app, length_take, length_replicate, length_drop. lia.
Qed.

Lemma highlight_from_ok line kws fuel i cs : length cs = length line → (i ≤ length line)%nat → (length line ≤ i + fuel)%nat →
  ∃ cs', length cs' = length line ∧ ∀ extra, highlight_from (fuel + extra) line kws i cs = Ok cs'.
Proof.
  revert i cs. induction fuel as [|fuel IH]; intros i cs Hcs Hi Hf.
  { exists cs. split; [done|]. intros extra. destruct extra; cbn; [done|]. by rewrite lookup_ge_None_2 by lia. }
  cbn [Nat.add highlight_from]. destruct (line !! i) as [b|] eqn:Hb; [|by exists cs].
  pose proof (lookup_lt_Some _ _ _ Hb) as Hlt.
  destruct (_ && _). { eexists. split; [|done]. rewrite length_app, length_take, length_replicate. lia. }
  assert (∀ e col, (i < e ≤ length line)%nat → ∃ cs', length cs' = length line ∧
    ∀ extra, (cs1 ← paint i e col cs; highlight_from (fuel + extra) line kws e cs1) = Ok cs') as Hpaint.
  { intros e col He. destruct (paint_ok i e col cs) as (cs1 & -> & Hl1); [lia|]. cbn. apply IH; lia. }
  destruct (_ || _).
  { apply Hpaint. pose proof (skip_quoted_range (length line) b line (i + 1) ltac:(lia)). lia. }
  destruct (is_digit b) eqn:Ed.
  { set (P := λ c, is_alnum c || (c =? 0x2E) || (c =? 0x5F)).
    assert (P b = true) as HPb by (unfold P, is_alnum; by rewrite Ed, orb_true_r).
    apply Hpaint. pose proof (skip_while_range P line i (length line) Hi). pose proof (skip_while_progress P line i b Hb HPb). lia. }
  destruct (is_ident_start b) eqn:Es; [|apply IH; lia].
  pose proof (skip_while_range is_ident_cont line i (length line) Hi) as Hr.
  pose proof (skip_while_progress is_ident_cont line i b Hb) as Hp.
  assert (is_ident_cont b = true) as Hcont.
  { unfold is_ident_start, is_ident_cont, is_alnum in *. destruct (b =? 0x5F); [done|]. cbn in *. by rewrite Es. }
  specialize (Hp Hcont). rewrite v_slice_ok by lia. cbn [mbind outcome_bind].
  destruct (bool_decide _); [apply Hpaint; lia|]. apply IH; lia.
Qed.

(** C38: The highlighter always finishes, without an out-of-range slice, within
    one turn per byte: it yields one colour per byte, and more turns would not
    change the result. A byte in a line comment is coloured as comment. *)
Theorem highlight_total line kws :
  ∃ cs, highlight_line_kw line kws = Ok cs ∧ length cs = length line ∧
    (∀ extra, highlight_from (length line + extra) line kws 0 (replicate (length line) Default) = Ok cs) ∧
    (starts_with (txt "//") line = true → cs = replicate (length line) Comment).
Proof.
  destruct (highlight_from_ok line kws (length line) 0 (replicate (length line) Default)) as (cs & Hl & Hx);
    [by rewrite length_replicate|lia|lia|].
  assert (highlight_line_kw line kws = Ok cs) as E by (unfold highlight_line_kw; rewrite <- (Nat.add_0_r (length line)) at 1; apply Hx).
  exists cs. split_and!; [done..|]. intros Hs. unfold starts_with, beq in Hs. rewrite bool_decide_eq_true in Hs.
  destruct line as [|a [|b line]]; try done. cbn in Hs. injection Hs as -> ->. unfold highlight_line_kw in E. cbn in E. injection E as <-. cbn. by rewrite length_replicate.
Qed.

(** ** Witnesses *)

(** A store that holds one file. *)
#[export] Instance one_file : FileStore (list Z).
Proof.
  refine {| fst_lookup := λ _, mret (Some 0); fst_create := λ _, mret 0; fst_write := λ _ data _, Ok (tt, data);
            fst_read := λ _, get; fst_writable := λ _ _ _, True |}.
  done.
Defined.

Definition demo_ed : Editor := editor_new (txt "/a.rs") (txt "let x").

Lemma demo_ed_ok : edit_ok demo_ed.
Proof.
  split; [|reflexivity]. constructor; cbn; try done.
  - constructor; [|constructor]. apply (bool_decide_unpack _). reflexivity.
  - eexists. split; [reflexivity|]. cbn. lia.
Qed.

(** Saving on a store that takes the text. *)
Lemma on_key_safe_witness : ∃ w', on_key false false KEY_F2 (mkWorld demo_ed [] (Some [] : option (list Z))) = Ok (tt, w') ∧ einv (ed w') ∧
  CONTROLLER w' = Some (txt "let x").
Proof.
  pose proof (on_key_safe (mkWorld demo_ed [] (Some [] : option (list Z))) false false KEY_F2 (proj1 demo_ed_ok)) as H.
  destruct (on_key false false KEY_F2 (mkWorld demo_ed [] (Some [] : option (list Z)))) as [[[] w']|] eqn:E; [|vm_compute in E; discriminate].
  exists w'. split; [reflexivity|]. destruct H as [_ [H|(_ & _ & H)]]; [|discriminate H]. split; [exact H|].
  vm_compute in E. injection E as <-. reflexivity.
Defined.

Lemma editor_refines_gap_buffer_witness :
  wp (type_keys [GRight; GBackspace; GChar 0x6D; GEnter; GLeft]) (mkWorld demo_ed [] (None : option (list Z)))
    (λ _ w', save_data (ed w') = txt "m" ++ [NL] ++ txt "et x").
Proof.
  eapply wp_mono; [apply (editor_refines_gap_buffer (txt "/a.rs") (txt "let x"))|].
  - by repeat constructor.
  - intros ? w' (_ & _ & ->). reflexivity.
Defined.

Lemma click_leaves_stale_anchor_witness :
  wp (mouse_down 0 2) demo_ed (λ _ e1, wp (key_char 0x61 ≫= λ _, key_char 0x62) e1 (λ _ e2, gap e2 = (before e1 ++ [0x62], behind e1))).
Proof. apply (proj1 click_leaves_stale_anchor); [apply demo_ed_ok|reflexivity|reflexivity]. Defined.
