(* ===== verification/EditorFs.v ===== *)
(** The editor on HepFS: the file system discharges what the editor asks of a
    file store, and what is saved under a path is what opening the path shows, unless
    the path names a new file outside the root. *)

From stdpp Require Import prelude list numbers strings.
From S2P Require Import Prelude Pmm Memory Hepfs HepfsBlock HepfsRep HepfsFile HepfsRead HepfsDir HepfsOps HepfsPath HepfsSpec Input Text Editor EditorSpec.

Local Open Scope Z_scope.

Section store.
Context {D F : Type} `{!Drive D} `{!FrameSource F}.
Implicit Types (s : fs D F).

(** An existing file, enough free blocks and enough I/O frames. *)
Definition hepfs_writable (s : fs D F) (ino : Z) (data : list Z) : Prop :=
  ∃ g, fs_rep s g ∧ 0 ≤ ino < MAX_INODES ∧ flags (inode_at (bl s) ino) = F_FILE ∧ Forall is_byte data ∧
    4 + 2 * nch data ≤ room (bl s) (cap s) ∧ 40 + 18 * nch data ≤ avail s.

Lemma hepfs_write_read s ino data : hepfs_writable s ino data →
  wp (write_file ino data ≫= λ _, read_file ino) s (λ out _, out = data).
Proof.
  intros (g & Hr & Hi & Hf & Hb & Hroom & Hav). pose proof (nch_nonneg data).
  wp_step write_file_spec; [done..|lia|]. intros u s1 (g1 & Hr1 & _ & _ & Ha1 & Hh & _).
  eapply wp_mono; [apply (read_file_spec s1 g1 ino data Hr1 Hi Hh); lia|]. by intros out s2 [-> _].
Qed.

#[export] Instance hepfs_store : FileStore (fs D F) := {|
  fst_lookup := Hepfs.lookup;
  fst_create := create_file ROOT_INO;
  fst_write := write_file;
  fst_read := read_file;
  fst_writable := hepfs_writable;
  fst_write_read := hepfs_write_read |}.

(** ** Saving, and opening again by path *)

(** The name a new file is created under, in the root. *)
Definition saved_name (p : list Z) : list Z := trim_start 0x2F p.

Lemma trim_start_split c p : ∃ l, Forall (eq c) l ∧ p = l ++ trim_start c p.
Proof.
  induction p as [|b p (l & Hl & E)]; [by exists []|]. cbn [trim_start]. destruct (Z.eqb_spec b c) as [->|]; [|by exists []].
  exists (c :: l). split; [by constructor|]. cbn. by rewrite <- E.
Qed.

Lemma path_parts_slashes l : Forall (eq 0x2F) l → path_parts l = [].
Proof.
  unfold path_parts. induction 1 as [|c l <- _ IH]; cbn [split_slash]; [done|]. rewrite Z.eqb_refl. exact IH.
Qed.

(** A path that resolves to nothing names a plain file in the root, or has a slash inside. *)
Lemma saved_name_parts v p : resolves v p = None →
  if decide (0x2F ∈ saved_name p) then saved_name p ∉ path_parts p else path_parts p = [saved_name p].
Proof.
  intros Hr. destruct (decide (0x2F ∈ saved_name p)) as [Hin|Hn].
  - intros Hp. by apply path_parts_no_slash in Hp as [? _].
  - destruct (trim_start_split 0x2F p) as (l & Hl & E). fold (saved_name p) in E. rewrite E at 1. apply path_parts_simple; [done|done|].
    intros Hnil. rewrite Hnil, app_nil_r in E. subst p. unfold resolves in Hr. by rewrite path_parts_slashes in Hr.
Qed.

(** What saving [data] under [p] needs: paths that lead through directories, a file the path
    leads to or a name that can be created in the root, free blocks and frames. *)
Record can_save (s : fs D F) (g : tree) (p data : list Z) : Prop := {
  cs_rep : fs_rep s g;
  cs_path : dir_path (bl s) p;
  cs_bytes : Forall is_byte data;
  cs_room : 5 + 2 * nch data ≤ room (bl s) (cap s);
  cs_avail : 100 + 18 * nch data + 26 * len (path_parts p) ≤ avail s;
  cs_file : match resolves (bl s) p with
            | Some ino => ino_ok ino ∧ flags (inode_at (bl s) ino) = F_FILE
            | None => can_create s g ROOT_INO (saved_name p) 1
            end
}.

(** The file a path now leads to; [None]: it still leads nowhere, the text is in the root. *)
Definition saved_at (s : fs D F) (p data : list Z) (ino : Z) (s' : fs D F) (g' : tree) : Prop :=
  fs_rep s' g' ∧ dir_path (bl s') p ∧ holds (bl s') g' ino data ∧ ino_ok ino ∧
  4 + 2 * nch data + 13 * len (path_parts p) ≤ avail s' ∧
  match resolves (bl s) p with
  | Some i => i = ino ∧ resolves (bl s') p = Some ino
  | None =>
    if decide (0x2F ∈ saved_name p) then resolves (bl s') p = None ∧ (ino, saved_name p) ∈ listing (bl s') ROOT_INO
    else resolves (bl s') p = Some ino
  end.

(** Writing a file leaves the paths alone. *)
Lemma write_saved s g p data ino :
  fs_rep s g → dir_path (bl s) p → Forall is_byte data → ino_ok ino → flags (inode_at (bl s) ino) = F_FILE →
  4 + 2 * nch data ≤ room (bl s) (cap s) → 60 + 18 * nch data + 13 * len (path_parts p) ≤ avail s →
  wp (write_file ino data) s (λ _ s', ∃ g', fs_rep s' g' ∧ dir_path (bl s') p ∧ holds (bl s') g' ino data ∧
    4 + 2 * nch data + 13 * len (path_parts p) ≤ avail s' ∧ resolves (bl s') p = resolves (bl s) p ∧
    (ino ≠ ROOT_INO → listing (bl s') ROOT_INO = listing (bl s) ROOT_INO)).
Proof.
  intros Hr Hp Hb Hi Hf Hroom Hav. pose proof (nch_nonneg data). assert (0 ≤ len (path_parts p)) by (unfold len; lia).
  eapply wp_mono; [apply (write_file_spec s g); [done..|lia]|]. intros u s' (g' & Hr' & _ & _ & Ha' & Hh & Hs & _). exists g'.
  destruct (resolves_others s g s' g' p ino Hr Hp ltac:(by rewrite Hf) Hs) as [E Hp'].
  split; [done|]. split; [done|]. split; [done|]. split; [lia|]. split; [done|].
  intros Hne. apply (same_node_listing s g s' g'); [done|apply root_range|]. apply Hs; [apply root_range|done].
Qed.

(** A new file in the root: its path leads to it if it is a plain name, else nowhere. *)
Lemma created_path s g p ino s' g' : fs_rep s g → dir_path (bl s) p → resolves (bl s) p = None →
  created s g ROOT_INO ino (saved_name p) s' g' →
  dir_path (bl s') p ∧ (ino, saved_name p) ∈ listing (bl s') ROOT_INO ∧
  resolves (bl s') p = if decide (0x2F ∈ saved_name p) then None else Some ino.
Proof.
  intros Hr Hp Er Hc. pose proof (saved_name_parts _ _ Er) as Hsn. pose proof (cr_list _ _ _ _ _ _ _ Hc) as (l1 & l2 & El & El').
  assert ((ino, saved_name p) ∈ listing (bl s') ROOT_INO) as Hin by (rewrite El'; apply elem_of_app; right; left).
  destruct (decide _) as [Hs|Hs].
  - destruct (resolves_created s g ino (saved_name p) s' g' p Hr Hp Hc Hsn) as [E Hp']. by rewrite E, Er.
  - unfold dir_path, resolves in *. rewrite Hsn in *. cbn [walk on_way] in *. split; [|split; [done|]].
    + split; [split; [apply root_range|apply (cr_parent _ _ _ _ _ _ _ Hc)]|]. destruct (assoc (listing (bl s') ROOT_INO) (saved_name p)); exact I.
    + destruct (assoc (listing (bl s) ROOT_INO) (saved_name p)) eqn:Ea; [done|]. rewrite El in Ea. rewrite El', assoc_insert by done. by rewrite bool_decide_true.
Qed.

Lemma save_file_spec s g p data : can_save s g p data →
  wp (save_file p data) s (λ ino s', ∃ g', saved_at s p data ino s' g').
Proof.
  intros [Hr Hp Hb Hroom Hav Hf]. unfold save_file. cbn [fst_lookup fst_create fst_write hepfs_store].
  pose proof (nch_nonneg data). assert (0 ≤ len (path_parts p)) by (unfold len; lia).
  wp_step (lookup_spec s g p Hr (dir_path_range _ _ Hp) ltac:(lia)). intros r s1 (-> & Hd1 & Hs1).
  pose proof (fs_rep_read _ _ _ _ Hr Hd1 Hs1) as Hr1. pose proof (bl_dev _ _ Hd1) as Eb. pose proof (step_avail _ _ _ Hs1) as Ha1.
  pose proof (step_cap _ _ _ Hs1) as Ec1. unfold saved_at. destruct (resolves (bl s) p) as [ino|] eqn:Er.
  - destruct Hf as [Hi Hf]. apply wp_bind, wp_ret.
    wp_step (write_saved s1 g p data ino Hr1 ltac:(by rewrite Eb) Hb Hi ltac:(by rewrite Eb) ltac:(rewrite Eb, Ec1; lia) ltac:(lia)).
    intros u s2 (g2 & Hr2 & Hp2 & Hh2 & Ha2 & E2 & _). apply wp_ret. exists g2. rewrite E2, Eb, Er. done.
  - pose proof (can_create_read _ _ _ _ _ _ _ Hf Hr1 Hd1 Hs1 ltac:(lia)) as Hcc. rewrite <- Eb in Hp, Er.
    fold (saved_name p). wp_step (create_file_spec s1 g ROOT_INO (saved_name p) Hcc). intros ino s2 (g2 & Hc2 & Hh2).
    pose proof (cr_rep _ _ _ _ _ _ _ Hc2) as Hr2. pose proof (cr_room _ _ _ _ _ _ _ Hc2) as Hm2. pose proof (cr_avail _ _ _ _ _ _ _ Hc2).
    pose proof (proj1 (cr_fresh _ _ _ _ _ _ _ Hc2)) as Hino. pose proof (cr_parent _ _ _ _ _ _ _ Hc2) as Hpf. rewrite Eb, Ec1 in Hm2.
    assert (ino ≠ ROOT_INO) as Hne. { intros ->. destruct Hh2 as (Hf2 & _). by rewrite Hf2 in Hpf. }
    destruct (created_path s1 g p ino s2 g2 Hr1 Hp Er Hc2) as (Hp2 & Hin2 & E2).
    wp_step (write_saved s2 g2 p data ino Hr2 Hp2 Hb ltac:(unfold ino_ok; lia) (proj1 Hh2) ltac:(lia) ltac:(lia)).
    intros u s3 (g3 & Hr3 & Hp3 & Hh3 & Ha3 & E3 & Hl3). apply wp_ret. exists g3. rewrite E3, E2, Hl3 by done.
    do 3 (split; [done|]). split; [unfold ino_ok; lia|]. split; [lia|]. by destruct (decide _).
Qed.

(** Opening a path: what the file it leads to holds, and nothing if it leads nowhere. *)
Lemma read_content_spec s g p : fs_rep s g → dir_path (bl s) p →
  match resolves (bl s) p with
  | Some ino => ∀ data, ino_ok ino → holds (bl s) g ino data → 4 + 2 * nch data + 13 * len (path_parts p) ≤ avail s →
      wp (read_content p) s (λ out _, out = data)
  | None => 13 * len (path_parts p) ≤ avail s → wp (read_content p) s (λ out _, out = [])
  end.
Proof.
  intros Hr Hp. unfold read_content. cbn [fst_lookup fst_read hepfs_store]. destruct (resolves (bl s) p) as [ino|] eqn:Er.
  - intros data Hi Hh Hav. pose proof (nch_nonneg data). assert (0 ≤ len (path_parts p)) by (unfold len; lia).
    wp_step (lookup_spec s g p Hr (dir_path_range _ _ Hp) ltac:(lia)). intros r s1 (-> & Hd1 & Hs1). rewrite Er.
    pose proof (step_avail _ _ _ Hs1) as Ha1.
    eapply wp_mono; [apply (read_file_spec s1 g ino data); [by eapply fs_rep_read|done|by rewrite (bl_dev s s1)|lia]|]. by intros out s2 [-> _].
  - intros Hav. wp_step (lookup_spec s g p Hr (dir_path_range _ _ Hp) ltac:(lia)). intros r s1 (-> & _). rewrite Er. by apply wp_ret.
Qed.

(** C18: Saving and opening are inverse, with HepFS below. Opening any content and saving it
    writes the same bytes. On a disk with the blocks and frames the text needs, an editor
    whose path leads through directories to a file, or else to nothing and whose path
    without leading slashes can be created in the root, saves without a panic, and then
    opening the path again gives an editor with the same lines, with one exception: a new
    file whose name keeps a slash is created under that very name in the root directory,
    where no path leads, so the path opens as an empty text. *)
Theorem save_open_roundtrip :
  (∀ p content, save_data (editor_new p content) = content) ∧
  ∀ s g e clip, einv e → can_save s g (path e) (save_data e) →
    wp save (mkWorld e clip (Some s)) (λ _ w', elines (ed w') = elines e ∧ modified (ed w') = false ∧ status_ok (ed w') = true ∧
      match open_main (path e) (CONTROLLER w') with
      | Ok (e', _) =>
        if decide (resolves (bl s) (path e) = None ∧ 0x2F ∈ saved_name (path e))
        then elines e' = [[]] ∧ ∃ s' ino g', CONTROLLER w' = Some s' ∧ fs_rep s' g' ∧ resolves (bl s') (path e) = None ∧
               (ino, saved_name (path e)) ∈ listing (bl s') ROOT_INO ∧ holds (bl s') g' ino (save_data e)
        else elines e' = elines e
      | Panic _ => False
      end).
Proof.
  split; [intros; apply open_save_bytes|]. intros s g e clip He Hcs. pose proof (save_file_spec s g (path e) (save_data e) Hcs) as H.
  apply wp_inv in H as (ino & s' & E & g' & Hr & Hp & Hh & Hi & Ha & Hres). unfold save, wp at 1. cbn [ed CONTROLLER]. rewrite E.
  cbn [mbind outcome_bind ed CONTROLLER set_status set_modified elines modified status_ok]. split; [done|]. split; [done|]. split; [done|].
  pose proof (nch_nonneg (save_data e)). pose proof (read_content_spec s' g' (path e) Hr Hp) as Hrc. unfold open_main.
  assert (∀ out, wp (read_content (path e)) s' (λ o _, o = out) → ∃ s2, read_content (path e) s' = Ok (out, s2)) as Hwp.
  { intros out H1. apply wp_inv in H1 as (o & s2 & E2 & ->). by exists s2. }
  destruct (resolves (bl s) (path e)) as [i|] eqn:Er.
  - destruct Hres as [-> Eres]. rewrite Eres in Hrc. destruct (Hwp (save_data e)) as [s2 ->]; [by apply Hrc|]. cbn [mbind outcome_bind].
    rewrite decide_False by (by intros [? _]). by apply save_open_lines.
  - destruct (decide (0x2F ∈ saved_name (path e))) as [Hsl|Hsl].
    + destruct Hres as [Eres Hin]. rewrite Eres in Hrc. destruct (Hwp []) as [s2 ->]; [apply Hrc; lia|]. cbn [mbind outcome_bind].
      rewrite decide_True by done. split; [done|]. by exists s', ino, g'.
    + rewrite Hres in Hrc. destruct (Hwp (save_data e)) as [s2 ->]; [by apply Hrc|]. cbn [mbind outcome_bind].
      rewrite decide_False by (by intros [_ ?]). by apply save_open_lines.
Qed.
End store.

(** A new file [/A] on a freshly formatted disk. *)
Definition demo_editor : Editor := editor_new (0x2F :: demo_name) (txt "let x").

Lemma demo_editor_ok : einv demo_editor.
Proof.
  constructor; cbn; try done.
  - constructor; [|constructor]. apply (bool_decide_unpack _). reflexivity.
  - eexists. split; [reflexivity|]. cbn. lia.
Qed.

Lemma demo_can_save : can_save demo_fmt (root_tree DATA_BLOCK_START) (path demo_editor) (save_data demo_editor).
Proof.
  pose proof demo_can_create as Hc. destruct demo_fmt_spec as (t & Hf & Hs & _).
  pose proof (step_cap _ _ _ Hs) as Ec. rewrite demo_cap in Ec. rewrite Ec in Hf.
  assert (path_parts (path demo_editor) = [demo_name]) as Ep by reflexivity.
  assert (nch (save_data demo_editor) = 1) as En by reflexivity.
  assert (resolves (bl demo_fmt) (path demo_editor) = None) as Er.
  { unfold resolves. rewrite Ep. cbn [walk]. by rewrite demo_root_empty. }
  split.
  - exact (cc_rep _ _ _ _ _ Hc).
  - unfold dir_path. rewrite Ep. cbn [on_way]. split; [split; [exact root_range|exact (cc_dir _ _ _ _ _ Hc)]|]. rewrite demo_root_empty. exact I.
  - repeat constructor; unfold is_u; lia.
  - rewrite En, Ec, (demo_room _ _ Hf). lia.
  - rewrite En, Ep. pose proof (step_avail _ _ _ Hs) as Ha. rewrite demo_avail in Ha. change (len [demo_name]) with 1. lia.
  - rewrite Er. exact Hc.
Qed.

Lemma save_open_roundtrip_witness : ∃ w' e' d, save (mkWorld demo_editor [] (Some demo_fmt)) = Ok (tt, w') ∧
  open_main (path demo_editor) (CONTROLLER w') = Ok (e', d) ∧ elines e' = [txt "let x"].
Proof.
  pose proof (proj2 save_open_roundtrip demo_fmt (root_tree DATA_BLOCK_START) demo_editor [] demo_editor_ok demo_can_save) as H.
  apply wp_inv in H as (u & w' & E & _ & _ & _ & H). destruct u. exists w'.
  destruct (open_main (path demo_editor) (CONTROLLER w')) as [[e' d]|]; [|destruct H]. exists e', d. split; [exact E|]. split; [reflexivity|].
  destruct (decide _) as [[_ Hd]|_]; [|exact H]. exfalso. revert Hd. apply (bool_decide_unpack _). reflexivity.
Defined.
