(* ===== verification/Net.v ===== *)
(** The network stack ([kernel/src/net.rs]): Ethernet, ARP, IPv4, ICMP, UDP, TCP
    and the job state machine behind the ping, wget and udp commands.

    A network card is its MAC address, the frames handed to it and the frames in its
    receive ring; the drivers are separate components. The ring is live: [wire n] are
    the frames that reach it before the n-th time it is asked for one, so frames go on
    arriving while a loop drains it. [rdtsc] yields the next
    value of a clock the state carries. Addresses are byte lists. *)

From stdpp Require Import prelude list numbers strings.
From S2P Require Import Prelude Text.

Local Open Scope Z_scope.

Record Nic := mkNic { mac : list Z; tx : list (list Z); rx : list (list Z) }.

(** What to do once a hostname resolves. *)
Inductive NextAction :=
| NextTcp (port : Z) (req : list Z)
| NextUdp (port : Z) (msg : list Z).

Inductive NetJob :=
| Ping (target : list Z) (seq deadline : Z)
| Resolve (hostname dns_ip : list Z) (src_port txid deadline : Z) (next : NextAction)
| Tcp (ip : list Z) (port src_port seq ack state : Z) (rxbuf req : list Z) (deadline : Z)
| Udp (src_port deadline : Z).

Record net := mkNet {
  RTL8139 : option Nic;
  E1000 : option Nic;
  PING_SEQ : Z;
  PING_REPLY : option Z;
  NEXT_SRC_PORT : Z;
  NET_JOB : option (nat * NetJob);
  TSC_PER_MS : Z;
  clock : nat → Z;
  reads : nat;
  wire : nat → list (list Z);
  recvs : nat }.

Definition MY_IP : list Z := [10; 0; 2; 15].
Definition GW_IP : list Z := [10; 0; 2; 2].
Definition GW_MAC : list Z := [0x52; 0x55; 0x0A; 0x00; 0x02; 0x02].

Definition set_nics (r e : option Nic) (s : net) : net :=
  mkNet r e (PING_SEQ s) (PING_REPLY s) (NEXT_SRC_PORT s) (NET_JOB s) (TSC_PER_MS s) (clock s) (reads s) (wire s) (recvs s).
Definition set_ping_seq (z : Z) (s : net) : net :=
  mkNet (RTL8139 s) (E1000 s) z (PING_REPLY s) (NEXT_SRC_PORT s) (NET_JOB s) (TSC_PER_MS s) (clock s) (reads s) (wire s) (recvs s).
Definition set_ping_reply (r : option Z) (s : net) : net :=
  mkNet (RTL8139 s) (E1000 s) (PING_SEQ s) r (NEXT_SRC_PORT s) (NET_JOB s) (TSC_PER_MS s) (clock s) (reads s) (wire s) (recvs s).
Definition set_src_port (z : Z) (s : net) : net :=
  mkNet (RTL8139 s) (E1000 s) (PING_SEQ s) (PING_REPLY s) z (NET_JOB s) (TSC_PER_MS s) (clock s) (reads s) (wire s) (recvs s).
Definition set_job (j : option (nat * NetJob)) (s : net) : net :=
  mkNet (RTL8139 s) (E1000 s) (PING_SEQ s) (PING_REPLY s) (NEXT_SRC_PORT s) j (TSC_PER_MS s) (clock s) (reads s) (wire s) (recvs s).

Definition rdtsc : ST net Z := λ s,
  Ok (u64 (clock s (reads s)),
      mkNet (RTL8139 s) (E1000 s) (PING_SEQ s) (PING_REPLY s) (NEXT_SRC_PORT s) (NET_JOB s) (TSC_PER_MS s) (clock s) (S (reads s)) (wire s) (recvs s)).

(** ** The cards *)

(** [with_nic(|n| n.send(f))]: the RTL8139 if there is one, else the E1000. *)
Definition nic_send (f : list Z) : ST net unit := modify (λ s,
  match RTL8139 s, E1000 s with
  | Some n, e => set_nics (Some (mkNic (mac n) (tx n ++ [f]) (rx n))) e s
  | None, Some n => set_nics None (Some (mkNic (mac n) (tx n ++ [f]) (rx n))) s
  | None, None => s
  end).

(** The card, asked for a frame after [w] more have arrived. *)
Definition pop_rx (w : list (list Z)) (n : Nic) : option (list Z) * Nic :=
  match rx n ++ w with [] => (None, mkNic (mac n) (tx n) []) | f :: fs => (Some f, mkNic (mac n) (tx n) fs) end.

Definition count_recv (s : net) : net :=
  mkNet (RTL8139 s) (E1000 s) (PING_SEQ s) (PING_REPLY s) (NEXT_SRC_PORT s) (NET_JOB s) (TSC_PER_MS s) (clock s) (reads s) (wire s) (S (recvs s)).

Definition nic_recv : ST net (option (list Z)) := λ s,
  let w := wire s (recvs s) in
  match RTL8139 s, E1000 s with
  | Some n, e => let '(f, n) := pop_rx w n in Ok (f, count_recv (set_nics (Some n) e s))
  | None, Some n => let '(f, n) := pop_rx w n in Ok (f, count_recv (set_nics None (Some n) s))
  | None, None => Ok (None, count_recv s)
  end.

Definition my_mac : ST net (list Z) := gets (λ s,
  match RTL8139 s, E1000 s with
  | Some n, _ => mac n
  | None, Some n => mac n
  | None, None => [0x52; 0x54; 0; 0x12; 0x34; 0x56]
  end).

(** ** Ethernet and ARP *)

Definition eth_send (dst_mac : list Z) (etype : Z) (payload : list Z) : ST net unit :=
  m ← my_mac;
  nic_send (dst_mac ++ m ++ [u8 (Z.shiftr etype 8); u8 etype] ++ payload).

Definition arp_packet (op : Z) (sha spa tha tpa : list Z) : list Z :=
  [0; 1] ++ [8; 0] ++ [6; 4] ++ [0; op] ++ sha ++ spa ++ tha ++ tpa.

Definition arp_announce : ST net unit :=
  m ← my_mac; eth_send (replicate 6 0xFF) 0x0806 (arp_packet 1 m MY_IP (replicate 6 0xFF) MY_IP).

Definition arp_request (ip : list Z) : ST net unit :=
  m ← my_mac; eth_send (replicate 6 0xFF) 0x0806 (arp_packet 1 m MY_IP (replicate 6 0) ip).

(** [u16::from_be_bytes], [u32::from_be_bytes] of bytes at an index. *)
Definition be16_at (l : list Z) (i : Z) : outcome Z :=
  a ← idx l i; b ← idx l (i + 1); Ok (a * 256 + b).
Definition be32_at (l : list Z) (i : Z) : outcome Z :=
  a ← idx l i; b ← idx l (i + 1); c ← idx l (i + 2); d ← idx l (i + 3);
  Ok (((a * 256 + b) * 256 + c) * 256 + d).

Definition handle_arp (data : list Z) : ST net unit :=
  if len data <? 28 then mret tt
  else
    op ← lift (be16_at data 6);
    target_ip ← lift (slice data 24 28);
    if (op =? 1) && beq target_ip MY_IP then
      m ← my_mac;
      sha ← lift (slice data 8 14);
      spa ← lift (slice data 14 18);
      eth_send sha 0x0806 (arp_packet 2 m MY_IP sha spa)
    else mret tt.

(** ** IPv4 *)

(** The summing loop: big-endian words, a trailing odd byte in the high half. *)
Fixpoint word_sum (data : list Z) (sum : Z) : Z :=
  match data with
  | a :: b :: data => word_sum data (u32 (sum + (a * 256 + b)))
  | [a] => u32 (sum + Z.shiftl a 8)
  | [] => sum
  end.

(** Folding the carries; 32-bit sums need at most two turns. *)
Fixpoint fold_carry (fuel : nat) (sum : Z) : Z :=
  match fuel with
  | O => sum
  | S fuel => if Z.shiftr sum 16 =? 0 then sum else fold_carry fuel (Z.land sum 0xFFFF + Z.shiftr sum 16)
  end.

Definition ip_checksum (data : list Z) : Z := 0xFFFF - u16 (fold_carry 4 (word_sum data 0)).

Definition ip_header (total proto : Z) (dst_ip : list Z) : list Z :=
  [0x45; 0] ++ be_bytes 2 (u16 total) ++ [0; 1] ++ [0x40; 0] ++ [64; proto] ++ [0; 0] ++ MY_IP ++ dst_ip.

Definition ip_packet (dst_ip : list Z) (proto : Z) (payload : list Z) : list Z :=
  let hdr := ip_header (20 + len payload) proto dst_ip in
  splice 10 (be_bytes 2 (ip_checksum hdr)) hdr ++ payload.

Definition ip_send (dst_ip dst_mac : list Z) (proto : Z) (payload : list Z) : ST net unit :=
  eth_send dst_mac 0x0800 (ip_packet dst_ip proto payload).

(** ** ICMP *)

Definition icmp_echo (seq : Z) : list Z :=
  let icmp := [8; 0] ++ [0; 0] ++ [0; 1] ++ be_bytes 2 seq ++ txt "HepOS!  " in
  splice 2 (be_bytes 2 (ip_checksum icmp)) icmp.

Definition ping_send (dst_ip dst_mac : list Z) : ST net Z :=
  seq ← gets PING_SEQ;
  modify (set_ping_seq (u16 (seq + 1))) ≫= λ _,
  ip_send dst_ip dst_mac 1 (icmp_echo seq) ≫= λ _, mret seq.

(** [v[i] = b] *)
Definition put_at (i : nat) (b : Z) (l : list Z) : outcome (list Z) := v_set i b l.

Definition handle_icmp (src_ip src_mac data : list Z) : ST net unit :=
  match data with
  | [] => mret tt
  | ty :: _ =>
    if ty =? 8 then
      rep ← lift (put_at 0 0 data);
      rep ← lift (put_at 2 0 rep);
      rep ← lift (put_at 3 0 rep);
      ip_send src_ip src_mac 1 (splice 2 (be_bytes 2 (ip_checksum rep)) rep)
    else if ty =? 0 then
      if 8 <=? len data then
        seq ← lift (be16_at data 6); modify (set_ping_reply (Some seq))
      else mret tt
    else mret tt
  end.

Definition handle_udp (data : list Z) : ST net unit := mret tt.

Definition handle_ip (eth_src data : list Z) : ST net unit :=
  if len data <? 20 then mret tt
  else
    dst_ip ← lift (slice data 16 20);
    if negb (beq dst_ip MY_IP) then mret tt
    else
      src_ip ← lift (slice data 12 16);
      proto ← lift (idx data 9);
      b0 ← lift (idx data 0);
      let ihl := Z.land b0 0x0F * 4 in
      if len data <? ihl then mret tt
      else
        body ← lift (slice data ihl (len data));
        if proto =? 1 then handle_icmp src_ip eth_src body
        else if proto =? 17 then handle_udp body
        else mret tt.

Definition handle_frame (frame : list Z) : ST net unit :=
  if len frame <? 14 then mret tt
  else
    etype ← lift (be16_at frame 12);
    src_mac ← lift (slice frame 6 12);
    body ← lift (slice frame 14 (len frame));
    if etype =? 0x0806 then handle_arp body
    else if etype =? 0x0800 then handle_ip src_mac body
    else mret tt.

(** ** UDP *)

(** [seg[8..].copy_from_slice(data)] panics when the lengths differ, which they
    do once the 16-bit length has wrapped. *)
Definition udp_send (dst_ip dst_mac : list Z) (src_port dst_port : Z) (data : list Z) : ST net unit :=
  let l := u16 (8 + len data) in
  if (l <? 8) || negb (l - 8 =? len data) then panic "copy_from_slice: source slice length does not match"
  else ip_send dst_ip dst_mac 17 (be_bytes 2 src_port ++ be_bytes 2 dst_port ++ be_bytes 2 l ++ [0; 0] ++ data).

(** ** TCP *)

Definition TCP_FIN : Z := 0x01.
Definition TCP_SYN : Z := 0x02.
Definition TCP_RST : Z := 0x04.
Definition TCP_PSH : Z := 0x08.
Definition TCP_ACK : Z := 0x10.

Definition tcp_checksum (src_ip dst_ip tcp_seg : list Z) : Z :=
  ip_checksum (src_ip ++ dst_ip ++ [0; 6] ++ be_bytes 2 (u16 (len tcp_seg)) ++ tcp_seg).

Definition tcp_segment (src_ip dst_ip : list Z) (src_port dst_port seq ack flags : Z) (data : list Z) : list Z :=
  let seg := be_bytes 2 src_port ++ be_bytes 2 dst_port ++ be_bytes 4 seq ++ be_bytes 4 ack ++
             [0x50; flags] ++ be_bytes 2 65535 ++ [0; 0] ++ [0; 0] ++ data in
  splice 16 (be_bytes 2 (tcp_checksum src_ip dst_ip seg)) seg.

Definition tcp_send_seg (dst_ip dst_mac : list Z) (src_port dst_port seq ack flags : Z) (data : list Z) : ST net unit :=
  ip_send dst_ip dst_mac 6 (tcp_segment MY_IP dst_ip src_port dst_port seq ack flags data).

Definition tcp_parse (data : list Z) : outcome (option (Z * Z * Z * Z * list Z)) :=
  if len data <? 20 then Ok None
  else
    src_port ← be16_at data 0;
    dst_port ← be16_at data 2;
    seq ← be32_at data 4;
    flags ← idx data 13;
    off ← idx data 12;
    let doff := Z.shiftr off 4 * 4 in
    if len data <? doff then Ok None
    else payload ← slice data doff (len data); Ok (Some (src_port, dst_port, seq, flags, payload)).

(** ** Addresses and DNS *)

Definition parse_ip (s : list Z) : option (list Z) :=
  match split_on 0x2E s with
  | [a; b; c; d] =>
    a ← parse_u8 a; b ← parse_u8 b; c ← parse_u8 c; d ← parse_u8 d; Some [a; b; c; d]
  | _ => None
  end.

(** Skipping the question name: [None] when the message ends first. *)
Fixpoint skip_qname (fuel : nat) (dns : list Z) (pos : Z) : outcome (option Z) :=
  match fuel with
  | O => Ok None
  | S fuel =>
    if len dns <=? pos then Ok None
    else
      l ← idx dns pos;
      if l =? 0 then Ok (Some (pos + 1))
      else if Z.land l 0xC0 =? 0xC0 then Ok (Some (pos + 2))
      else skip_qname fuel dns (pos + 1 + l)
  end.

(** [while pos < dns.len() && dns[pos] != 0 { pos += 1 + dns[pos] as usize }] *)
Fixpoint skip_labels (fuel : nat) (dns : list Z) (pos : Z) : outcome Z :=
  match fuel with
  | O => Ok pos
  | S fuel =>
    if len dns <=? pos then Ok pos
    else l ← idx dns pos; if l =? 0 then Ok pos else skip_labels fuel dns (pos + 1 + l)
  end.

Fixpoint walk_answers (n : nat) (dns : list Z) (pos : Z) : outcome (option (list Z)) :=
  match n with
  | O => Ok None
  | S n =>
    if len dns <? pos + 10 then Ok None
    else
      b ← idx dns pos;
      pos ← (if Z.land b 0xC0 =? 0xC0 then Ok (pos + 2)
             else p ← skip_labels (length dns) dns pos; Ok (p + 1));
      if len dns <? pos + 10 then Ok None
      else
        rtype ← be16_at dns pos;
        rdlen ← be16_at dns (pos + 8);
        let pos := pos + 10 in
        if (rtype =? 1) && (rdlen =? 4) && (pos + 4 <=? len dns) then
          a ← idx dns pos; b ← idx dns (pos + 1); c ← idx dns (pos + 2); d ← idx dns (pos + 3);
          Ok (Some [a; b; c; d])
        else walk_answers n dns (pos + rdlen)
  end.

Definition parse_dns_answer (dns : list Z) : outcome (option (list Z)) :=
  if len dns <? 12 then Ok None
  else
    ancount ← be16_at dns 6;
    if ancount =? 0 then Ok None
    else
      p ← skip_qname (length dns) dns 12;
      match p with
      | None => Ok None
      | Some pos => walk_answers (Z.to_nat ancount) dns (pos + 4)
      end.

Definition next_src_port : ST net Z := λ s,
  let p := NEXT_SRC_PORT s in
  let s := set_src_port (u16 (p + 1)) s in
  if p =? 0 then Ok (49152, set_src_port 49153 s) else Ok (p, s).

(** ** Deadlines *)

(** [rdtsc().wrapping_add(tsc_per_ms.saturating_mul(ms))] *)
Definition tsc_deadline (ms : Z) : ST net Z :=
  per_ms ← gets TSC_PER_MS; now ← rdtsc; mret (u64 (now + Z.min (per_ms * ms) U64_MAX)).

Definition tsc_expired (deadline : Z) : ST net bool :=
  now ← rdtsc; mret (u64 (now - deadline) <? U64_MAX / 2).

(** ** Jobs *)

Definition job_in_progress : ST net bool := gets (λ s, match NET_JOB s with Some _ => true | None => false end).

(** The labels of a question name: each with its length byte, empty ones skipped. *)
Definition encode_labels (hostname : list Z) : list Z :=
  concat ((λ l, u8 (len l) :: l) <$> filter (λ l, l ≠ []) (split_on 0x2E hostname)).

Definition dns_query (txid : Z) (hostname : list Z) : list Z :=
  be_bytes 2 txid ++ [0x01; 0x00] ++ [0x00; 0x01] ++ [0; 0] ++ [0; 0] ++ [0; 0] ++
  encode_labels hostname ++ [0] ++ [0x00; 0x01] ++ [0x00; 0x01].

Definition DNS_IP : list Z := [10; 0; 2; 3].

Definition build_resolve_job (hostname : list Z) (next : NextAction) : ST net NetJob :=
  t ← rdtsc;
  let txid := Z.land t 0xFFFF in
  udp_send DNS_IP GW_MAC 53000 53 (dns_query txid hostname) ≫= λ _,
  deadline ← tsc_deadline 2000;
  mret (Resolve hostname DNS_IP 53000 txid deadline next).

Definition build_tcp_job (ip : list Z) (port : Z) (req : list Z) : ST net NetJob :=
  src_port ← next_src_port;
  t ← rdtsc;
  let isn := Z.lor (u32 t) 1 in
  tcp_send_seg ip GW_MAC src_port port isn 0 TCP_SYN [] ≫= λ _,
  deadline ← tsc_deadline 3000;
  mret (Tcp ip port src_port isn 0 0 [] req deadline).

Definition build_udp_job (ip : list Z) (port : Z) (msg : list Z) : ST net NetJob :=
  t ← rdtsc;
  let src_port := u16 (51000 + u16 t mod 1000) in
  udp_send ip GW_MAC src_port port msg ≫= λ _,
  deadline ← tsc_deadline 3000;
  mret (Udp src_port deadline).

Definition BUSY : list Z := txt "a network operation is already in progress".

(** The starters return an error message, or nothing. *)
Definition start_ping (issuer : nat) (target : list Z) : ST net (option (list Z)) :=
  busy ← job_in_progress;
  if (busy : bool) then mret (Some BUSY)
  else
    s ← get;
    match RTL8139 s, E1000 s with
    | None, None => mret (Some (txt "no NIC found"))
    | _, _ =>
      modify (set_ping_reply None) ≫= λ _,
      seq ← ping_send target GW_MAC;
      deadline ← tsc_deadline 250;
      modify (set_job (Some (issuer, Ping target seq deadline))) ≫= λ _, mret None
    end.

Definition CRLF : list Z := [0x0D; 0x0A].

Definition http_request (path host : list Z) : list Z :=
  txt "GET " ++ path ++ txt " HTTP/1.0" ++ CRLF ++ txt "Host: " ++ host ++ CRLF ++
  txt "Connection: close" ++ CRLF ++ CRLF.

Definition start_job (issuer : nat) (job : ST net NetJob) : ST net (option (list Z)) :=
  busy ← job_in_progress;
  if (busy : bool) then mret (Some BUSY)
  else j ← job; modify (set_job (Some (issuer, j))) ≫= λ _, mret None.

Definition start_wget (issuer : nat) (host_str : list Z) (port : Z) (path : list Z) : ST net (option (list Z)) :=
  let req := http_request path host_str in
  start_job issuer
    (match parse_ip host_str with
     | Some ip => build_tcp_job ip port req
     | None => build_resolve_job host_str (NextTcp port req)
     end).

Definition start_udp_cmd (issuer : nat) (host_str : list Z) (port : Z) (msg : list Z) : ST net (option (list Z)) :=
  start_job issuer
    (match parse_ip host_str with
     | Some ip => build_udp_job ip port msg
     | None => build_resolve_job host_str (NextUdp port msg)
     end).

Inductive JobOutcome := Pending | Done (msg : list Z) | Replace (job : NetJob).

(** The ellipsis of the truncation note is U+2026. *)
Definition format_wget_result (body : list Z) : list Z :=
  let limit := Nat.min (length body) 4096 in
  let s := utf8_or (txt "(non-UTF-8 response)") (take limit body) in
  if (limit <? length body)%nat then
    s ++ [0x0A] ++ txt "[" ++ [0xE2; 0x80; 0xA6] ++ txt " " ++ show_dec (Z.of_nat (length body - limit)) ++ txt " bytes truncated]" ++ [0x0A]
  else s ++ [0x0A].

Definition show_ip (ip : list Z) : list Z := join_with 0x2E (show_dec <$> ip).

(** IHL in bytes. *)
Definition ihl_of (ip_hdr : list Z) : outcome Z := b0 ← idx ip_hdr 0; Ok (Z.land b0 0x0F * 4).

Definition frame_resolve (ip_hdr dns_ip : list Z) (src_port txid : Z) (next : NextAction) : ST net JobOutcome :=
  proto ← lift (idx ip_hdr 9);
  if negb (proto =? 17) then mret Pending
  else
    src_ip ← lift (slice ip_hdr 12 16);
    if negb (beq src_ip dns_ip) then mret Pending
    else
      ihl ← lift (ihl_of ip_hdr);
      if len ip_hdr <? ihl + 8 then mret Pending
      else
        udp ← lift (slice ip_hdr ihl (len ip_hdr));
        sp ← lift (be16_at udp 0);
        if negb (sp =? 53) then mret Pending
        else
          dp ← lift (be16_at udp 2);
          if negb (dp =? src_port) then mret Pending
          else
            dns ← lift (slice udp 8 (len udp));
            if len dns <? 12 then mret Pending
            else
              tid ← lift (be16_at dns 0);
              if negb (tid =? txid) then mret Pending
              else
                fl ← lift (idx dns 2);
                if Z.land fl 0x80 =? 0 then mret Pending
                else
                  answer ← lift (parse_dns_answer dns);
                  match answer with
                  | None => mret (Done (txt "could not resolve host"))
                  | Some ip =>
                    j ← match next with
                        | NextTcp port req => build_tcp_job ip port req
                        | NextUdp port msg => build_udp_job ip port msg
                        end;
                    mret (Replace j)
                  end.

(** A segment that belongs to the connection; the state changes are returned. *)
Definition tcp_step (ip : list Z) (port src_port seq ack state : Z) (rxbuf req : list Z) (deadline : Z)
    (seg_seq flags : Z) (payload : list Z) : ST net (JobOutcome * NetJob) :=
  if state =? 0 then
    if Z.land flags (Z.lor TCP_SYN TCP_ACK) =? Z.lor TCP_SYN TCP_ACK then
      let seq := u32 (seq + 1) in
      let ack := u32 (seg_seq + 1) in
      tcp_send_seg ip GW_MAC src_port port seq ack TCP_ACK [] ≫= λ _,
      tcp_send_seg ip GW_MAC src_port port seq ack (Z.lor TCP_PSH TCP_ACK) req ≫= λ _,
      mret (Pending, Tcp ip port src_port (u32 (seq + u32 (len req))) ack 1 rxbuf req deadline)
    else mret (Pending, Tcp ip port src_port seq ack state rxbuf req deadline)
  else if state =? 1 then
    '(rxbuf, ack) ←
      (match payload with
       | [] => mret (rxbuf, ack)
       | _ =>
         let ack := u32 (seg_seq + u32 (len payload)) in
         tcp_send_seg ip GW_MAC src_port port seq ack TCP_ACK [] ≫= λ _, mret (rxbuf ++ payload, ack)
       end);
    if negb (Z.land flags TCP_FIN =? 0) then
      let ack := u32 (ack + 1) in
      tcp_send_seg ip GW_MAC src_port port seq ack (Z.lor TCP_FIN TCP_ACK) [] ≫= λ _,
      mret (Done (format_wget_result rxbuf), Tcp ip port src_port seq ack state rxbuf req deadline)
    else mret (Pending, Tcp ip port src_port seq ack state rxbuf req deadline)
  else mret (Pending, Tcp ip port src_port seq ack state rxbuf req deadline).

Definition frame_tcp (ip_hdr ip : list Z) (port src_port seq ack state : Z) (rxbuf req : list Z) (deadline : Z)
    : ST net (JobOutcome * NetJob) :=
  let stay := Tcp ip port src_port seq ack state rxbuf req deadline in
  proto ← lift (idx ip_hdr 9);
  ihl ← lift (ihl_of ip_hdr);
  if proto =? 1 then
    if ihl <? len ip_hdr then
      ty ← lift (idx ip_hdr ihl);
      if ty =? 3 then mret (Done (txt "wget: unreachable"), stay) else mret (Pending, stay)
    else mret (Pending, stay)
  else if negb (proto =? 6) then mret (Pending, stay)
  else
    src_ip ← lift (slice ip_hdr 12 16);
    dst_ip ← lift (slice ip_hdr 16 20);
    if negb (beq src_ip ip) || negb (beq dst_ip MY_IP) then mret (Pending, stay)
    else
      ip_total_len ← lift (be16_at ip_hdr 2);
      ip_body ← lift (slice ip_hdr 0 (Z.min ip_total_len (len ip_hdr)));
      if len ip_body <? ihl then mret (Pending, stay)
      else
        seg ← lift (slice ip_body ihl (len ip_body));
        parsed ← lift (tcp_parse seg);
        match parsed with
        | None => mret (Pending, stay)
        | Some (sp, dp, seg_seq, flags, payload) =>
          if negb (sp =? port) || negb (dp =? src_port) then mret (Pending, stay)
          else if negb (Z.land flags TCP_RST =? 0) then mret (Done (txt "wget: connection refused"), stay)
          else tcp_step ip port src_port seq ack state rxbuf req deadline seg_seq flags payload
        end.

Definition frame_udp (ip_hdr : list Z) (src_port : Z) : outcome JobOutcome :=
  proto ← idx ip_hdr 9;
  if negb (proto =? 17) then Ok Pending
  else
    ihl ← ihl_of ip_hdr;
    if len ip_hdr <? ihl + 8 then Ok Pending
    else
      udp ← slice ip_hdr ihl (len ip_hdr);
      dp ← be16_at udp 2;
      if negb (dp =? src_port) then Ok Pending
      else
        ulen ← be16_at udp 4;
        if (ulen <? 8) || (len udp <? ulen) then Ok Pending
        else
          sp ← be16_at udp 0;
          src_ip ← slice ip_hdr 12 16;
          payload ← slice udp 8 ulen;
          Ok (Done (txt "Reply from " ++ show_ip src_ip ++ txt ":" ++ show_dec sp ++ txt " (" ++
                    show_dec (len payload) ++ txt " bytes):" ++ [0x0A] ++ utf8_or (txt "(non-UTF-8)") payload ++ [0x0A])).

(** [process_frame]: the outcome and the job as updated in place. *)
Definition process_frame (job : NetJob) (frame : list Z) : ST net (JobOutcome * NetJob) :=
  if len frame <? 14 then mret (Pending, job)
  else
    etype ← lift (be16_at frame 12);
    if negb (etype =? 0x0800) then mret (Pending, job)
    else
      ip_hdr ← lift (slice frame 14 (len frame));
      if len ip_hdr <? 20 then mret (Pending, job)
      else
        match job with
        | Ping target seq _ =>
          handle_frame frame ≫= λ _,
          got ← gets PING_REPLY;
          if bool_decide (got = Some seq)
          then mret (Done (txt "reply from " ++ show_ip target ++ txt ": seq=" ++ show_dec seq), job)
          else mret (Pending, job)
        | Resolve hostname dns_ip src_port txid deadline next =>
          o ← frame_resolve ip_hdr dns_ip src_port txid next; mret (o, job)
        | Tcp ip port src_port seq ack state rxbuf req deadline =>
          frame_tcp ip_hdr ip port src_port seq ack state rxbuf req deadline
        | Udp src_port _ => o ← lift (frame_udp ip_hdr src_port); mret (o, job)
        end.

Definition job_deadline (job : NetJob) : Z :=
  match job with
  | Ping _ _ d => d | Resolve _ _ _ _ d _ => d | Tcp _ _ _ _ _ _ _ _ d => d | Udp _ d => d
  end.

(** The dash of the wget message is U+2014. *)
Definition job_timeout_message (job : NetJob) : list Z :=
  match job with
  | Ping target _ _ => txt "ping: timeout (" ++ show_ip target ++ txt ")"
  | Resolve hostname _ _ _ _ _ => txt "could not resolve host: " ++ hostname
  | Tcp _ _ _ _ _ _ _ _ _ => txt "wget: timeout " ++ [0xE2; 0x80; 0x94] ++ txt " no response"
  | Udp _ _ => txt "udp: no reply within timeout (datagram sent either way)"
  end.

(** How the draining loop ends: the ring was empty, or [poll] returns. *)
Inductive drain_end := Empty | Return (r : option (nat * list Z)).

(** The loop, for at most [fuel] turns; [None]: it has not ended yet. *)
Fixpoint drain (fuel : nat) : ST net (option drain_end) :=
  match fuel with
  | O => mret None
  | S fuel =>
    s ← get;
    match NET_JOB s with
    | None => mret (Some (Return None))
    | Some (issuer, job) =>
      frame ← nic_recv;
      match frame with
      | None => mret (Some Empty)
      | Some f =>
        '(o, job) ← process_frame job f;
        match o with
        | Pending => modify (set_job (Some (issuer, job))) ≫= λ _, drain fuel
        | Done msg => modify (set_job None) ≫= λ _, mret (Some (Return (Some (issuer, msg))))
        | Replace newjob => modify (set_job (Some (issuer, newjob))) ≫= λ _, drain fuel
        end
      end
    end
  end.

(** The deadline check behind the loop. *)
Definition poll_deadline : ST net (option (nat * list Z)) :=
  s ← get;
  match NET_JOB s with
  | Some (issuer, job) =>
    e ← tsc_expired (job_deadline job);
    if (e : bool) then modify (set_job None) ≫= λ _, mret (Some (issuer, job_timeout_message job)) else mret None
  | None => mret None
  end.

(** [poll], its loop given [fuel] turns; [None]: still draining after them. *)
Definition poll (fuel : nat) : ST net (option (option (nat * list Z))) :=
  r ← drain fuel;
  match r with
  | None => mret None
  | Some (Return r) => mret (Some r)
  | Some Empty => r ← poll_deadline; mret (Some r)
  end.
