(* ===== verification/NetSpec.v ===== *)
(** The network stack: checksums, frame handling, DNS, ports and the job loop. *)

From stdpp Require Import prelude list numbers strings.
From S2P Require Import Prelude Text Net.

Local Open Scope Z_scope.

(** ** The Internet checksum *)

Fixpoint wsum (l : list Z) : Z :=
  match l with a :: b :: l => a * 256 + b + wsum l | [a] => a * 256 | [] => 0 end.

Lemma pair_ind {A} (P : list A → Prop) : P [] → (∀ a, P [a]) → (∀ a b l, P l → P (a :: b :: l)) → ∀ l, P l.
Proof.
  intros H0 H1 H2 l. enough (P l ∧ ∀ a, P (a :: l)) by tauto. induction l as [|b l [IH1 IH2]]; [by split|].
  split; [apply IH2|]. intros a. by apply H2.
Qed.

Lemma wsum_range l : Forall is_byte l → 0 ≤ wsum l ≤ 65535 * len l.
Proof.
  induction l as [|a|a b l IH] using pair_ind; rewrite ?Forall_cons_iff; cbn [wsum]; unfold len, is_u in *; cbn [length]; [lia|lia|].
  intros (Ha & Hb & Hl). specialize (IH Hl). lia.
Qed.

Lemma wsum_app l l' : Nat.Even (length l) → wsum (l ++ l') = wsum l + wsum l'.
Proof.
  induction l as [|a|a b l IH] using pair_ind; intros [k Hk]; cbn [app wsum length] in *; [lia|lia|].
  rewrite IH; [lia|]. exists (k - 1)%nat. lia.
Qed.

Lemma word_sum_eq l s : Forall is_byte l → 0 ≤ s → s + wsum l < 2 ^ 32 → word_sum l s = s + wsum l.
Proof.
  revert s. induction l as [|a|a b l IH] using pair_ind; intros s; rewrite ?Forall_cons_iff; cbn [word_sum wsum]; [lia| |].
  - unfold is_u. intros [Ha _] Hs Hlt. rewrite Z.shiftl_mul_pow2 by lia. change (2 ^ 8) with 256. rewrite wrap_small; unfold is_u; lia.
  - intros (Ha & Hb & Hl) Hs Hlt. pose proof (wsum_range l Hl). unfold is_u in Ha, Hb.
    rewrite (wrap_small 32) by (unfold is_u; lia). rewrite IH by (done || lia). lia.
Qed.

Lemma fold_step s : 0 ≤ s → Z.land s 0xFFFF + Z.shiftr s 16 = s mod 65536 + s / 65536.
Proof.
  intros. change 0xFFFF with (Z.ones 16). rewrite Z.land_ones by lia. rewrite Z.shiftr_div_pow2 by lia. done.
Qed.

Lemma fold_done n s : 0 ≤ s ≤ 65535 → fold_carry n s = s.
Proof.
  intros Hs. destruct n; [done|]. cbn. rewrite Z.shiftr_div_pow2 by lia. change (2 ^ 16) with 65536. by rewrite Z.div_small by lia.
Qed.

Lemma fold_more n s : 65536 ≤ s → fold_carry (S n) s = fold_carry n (s mod 65536 + s / 65536).
Proof.
  intros Hs. cbn [fold_carry]. rewrite fold_step by lia. rewrite Z.shiftr_div_pow2 by lia. change (2 ^ 16) with 65536.
  destruct (Z.eqb_spec (s / 65536) 0); [exfalso; dlia|done].
Qed.

(** [r] is the one's-complement value of [s]. *)
Definition folded (s r : Z) : Prop := 0 ≤ r ≤ 65535 ∧ r mod 65535 = s mod 65535 ∧ (0 < s ↔ 0 < r).

Lemma folded_self s : 0 ≤ s ≤ 65535 → folded s s.
Proof. unfold folded. lia. Qed.

Lemma folded_step s r : 65536 ≤ s → folded (s mod 65536 + s / 65536) r → folded s r.
Proof. intros Hs (H1 & H2 & H3). split_and!; [lia|lia|rewrite H2; dlia|]. rewrite <- H3. split; dlia. Qed.

(** Two turns of the loop fold any 32-bit sum. *)
Lemma fold_carry_spec s : 0 ≤ s < 2 ^ 32 → folded s (fold_carry 4 s).
Proof.
  intros Hs. destruct (decide (s ≤ 65535)); [rewrite fold_done by lia; apply folded_self; lia|].
  rewrite fold_more by lia. apply folded_step; [lia|]. set (t := s mod 65536 + s / 65536).
  assert (0 ≤ t ≤ 131070) as Ht by (unfold t; dlia). clearbody t.
  destruct (decide (t ≤ 65535)); [rewrite fold_done by lia; apply folded_self; lia|].
  rewrite fold_more by lia. apply folded_step; [lia|]. rewrite fold_done by dlia. apply folded_self. dlia.
Qed.

Lemma checksum_eq l : Forall is_byte l → len l ≤ 65536 →
  ∃ r, ip_checksum l = 65535 - r ∧ folded (wsum l) r.
Proof.
  intros Hl Hlen. pose proof (wsum_range l Hl). unfold ip_checksum. rewrite word_sum_eq by (done || lia). rewrite Z.add_0_l.
  pose proof (fold_carry_spec (wsum l) ltac:(lia)) as Hf. exists (fold_carry 4 (wsum l)). split; [|done].
  destruct Hf as [Hr _]. rewrite (wrap_small 16) by (unfold is_u; lia). done.
Qed.

Lemma checksum_u16 l : Forall is_byte l → len l ≤ 65536 → is_u 16 (ip_checksum l).
Proof. intros Hl Hlen. destruct (checksum_eq l Hl Hlen) as (r & -> & Hr & _). unfold is_u. lia. Qed.

Lemma be_bytes_2 z : 0 ≤ z → be_bytes 2 z = [z / 256 mod 256; z mod 256].
Proof. intros. reflexivity. Qed.

(** A checksum stored in its own zeroed, evenly placed field makes the whole sum
    to all ones: the receiver's check succeeds. *)
Lemma checksum_verifies l1 l2 : Nat.Even (length l1) → Forall is_byte (l1 ++ [0; 0] ++ l2) → len (l1 ++ [0; 0] ++ l2) ≤ 65536 →
  ip_checksum (l1 ++ be_bytes 2 (ip_checksum (l1 ++ [0; 0] ++ l2)) ++ l2) = 0.
Proof.
  intros He Hb Hlen. assert (Forall is_byte l1 ∧ Forall is_byte l2) as [B1 B2] by (rewrite !Forall_app in Hb; naive_solver).
  pose proof (wsum_range l1 B1) as W1. pose proof (wsum_range l2 B2) as W2.
  destruct (checksum_eq _ Hb Hlen) as (r & E & Hr & Hmod & Hpos). rewrite E.
  assert (Forall is_byte (l1 ++ be_bytes 2 (65535 - r) ++ l2)) as Hb'.
  { rewrite !Forall_app. split_and!; [done|apply be_bytes_byte|done]. }
  destruct (checksum_eq _ Hb') as (r' & -> & Hr' & Hmod' & Hpos').
  { unfold len in *. rewrite !length_app in *. rewrite length_be_bytes. cbn [length] in *. lia. }
  rewrite be_bytes_2 in * by lia. rewrite wsum_app in * by done. cbn [app wsum] in *.
  assert ((65535 - r) / 256 mod 256 * 256 + (65535 - r) mod 256 = 65535 - r) as Ew by dlia. rewrite Ew in *.
  assert (0 < wsum l1 + (65535 - r + wsum l2)) as Hp.
  { destruct (decide (r = 0)) as [->|]; [lia|]. destruct (decide (wsum l1 + wsum l2 = 0)); lia. }
  apply Hpos' in Hp. assert ((wsum l1 + (65535 - r + wsum l2)) mod 65535 = 0) as E0 by dlia. rewrite E0 in Hmod'. dlia.
Qed.

(** ** Building and parsing packets *)

Lemma splice_field {A} (l1 l' l0 l2 : list A) : length l' = length l0 → splice (length l1) l' (l1 ++ l0 ++ l2) = l1 ++ l' ++ l2.
Proof.
  intros Hl. unfold splice. rewrite take_app_length. do 2 f_equal. rewrite Hl, app_assoc.
  rewrite <- length_app. by rewrite drop_app_length.
Qed.

Lemma be16_some l i a b : 0 ≤ i → l !! Z.to_nat i = Some a → l !! Z.to_nat (i + 1) = Some b → be16_at l i = Ok (a * 256 + b).
Proof. intros. unfold be16_at. by rewrite (idx_some l i a), (idx_some l (i + 1) b) by (done || lia). Qed.

Lemma be32_some l i a b c d : 0 ≤ i → l !! Z.to_nat i = Some a → l !! Z.to_nat (i + 1) = Some b →
  l !! Z.to_nat (i + 2) = Some c → l !! Z.to_nat (i + 3) = Some d → be32_at l i = Ok (((a * 256 + b) * 256 + c) * 256 + d).
Proof.
  intros. unfold be32_at. by rewrite (idx_some l i a), (idx_some l (i + 1) b), (idx_some l (i + 2) c), (idx_some l (i + 3) d) by (done || lia).
Qed.

Lemma slice_tail {A} (l : list A) i : 0 ≤ i ≤ len l → slice l i (len l) = Ok (drop (Z.to_nat i) l).
Proof.
  intros Hi. unfold slice. rewrite bool_decide_true by (unfold len in *; lia). f_equal. apply take_ge. rewrite length_drop. unfold len in *. lia.
Qed.

Lemma be_bytes_4 z : be_bytes 4 z = [z / 256 / 256 / 256 mod 256; z / 256 / 256 mod 256; z / 256 mod 256; z mod 256].
Proof. reflexivity. Qed.

Definition ip4 (a : list Z) : Prop := length a = 4%nat ∧ Forall is_byte a.

Lemma my_ip_ok : ip4 MY_IP.
Proof. split; [done|]. repeat constructor; unfold is_u; lia. Qed.

(** The ten header bytes before the checksum. *)
Definition ip_start (proto : Z) (n : Z) : list Z :=
  [0x45; 0] ++ be_bytes 2 (u16 (20 + n)) ++ [0; 1] ++ [0x40; 0] ++ [64; proto].

Lemma ip_packet_eq dst proto payload :
  ip_packet dst proto payload =
    ip_start proto (len payload) ++ be_bytes 2 (ip_checksum (ip_start proto (len payload) ++ [0; 0] ++ MY_IP ++ dst)) ++
    (MY_IP ++ dst) ++ payload.
Proof.
  unfold ip_packet. assert (ip_header (20 + len payload) proto dst = ip_start proto (len payload) ++ [0; 0] ++ MY_IP ++ dst) as -> by done.
  change 10%nat with (length (ip_start proto (len payload))). rewrite splice_field by (by rewrite length_be_bytes).
  by rewrite <- !app_assoc.
Qed.

Lemma ip_start_ok proto n : is_byte proto → length (ip_start proto n) = 10%nat ∧ Forall is_byte (ip_start proto n).
Proof.
  intros Hp. split; [done|]. unfold ip_start. rewrite !Forall_app. split_and!; [|apply be_bytes_byte|..]; repeat constructor; unfold is_u in *; lia.
Qed.

(** The header a packet carries passes the receiver's checksum test, and the
    payload follows it. *)
Lemma ip_packet_valid dst proto payload : ip4 dst → is_byte proto →
  let pkt := ip_packet dst proto payload in
  ip_checksum (take 20 pkt) = 0 ∧ drop 20 pkt = payload ∧ sub 12 4 pkt = MY_IP ∧ sub 16 4 pkt = dst ∧
  pkt !! 9%nat = Some proto ∧ pkt !! 0%nat = Some 0x45 ∧ (20 + len payload < 65536 → be16_at pkt 2 = Ok (20 + len payload)).
Proof.
  cbv zeta. intros [Hd Hdb] Hp. rewrite ip_packet_eq. destruct (ip_start_ok proto (len payload) Hp) as [HA HAb].
  destruct dst as [|d0 [|d1 [|d2 [|d3 []]]]]; try done.
  assert (∀ ck, length ck = 2%nat → take 20 (ip_start proto (len payload) ++ ck ++ (MY_IP ++ [d0; d1; d2; d3]) ++ payload)
    = ip_start proto (len payload) ++ ck ++ MY_IP ++ [d0; d1; d2; d3]) as Htake by (by intros [|c0 [|c1 []]]).
  split_and!; try done.
  - rewrite Htake by apply length_be_bytes. clear Htake.
    set (A := ip_start proto (len payload)) in *. clearbody A. apply checksum_verifies.
    + rewrite HA. by exists 5%nat.
    + rewrite !Forall_app. split_and!; [done|repeat constructor; unfold is_u; lia|apply my_ip_ok|done].
    + unfold len. rewrite !length_app, HA. cbn. lia.
  - intros Hlen. erewrite be16_some; [|lia|reflexivity|reflexivity]. f_equal. unfold len in *. unfold wrap. dlia.
Qed.

(** ** TCP segments *)

Definition tcp_start (src_port dst_port seq ack flags : Z) : list Z :=
  be_bytes 2 src_port ++ be_bytes 2 dst_port ++ be_bytes 4 seq ++ be_bytes 4 ack ++ [0x50; flags] ++ be_bytes 2 65535.

Lemma tcp_segment_eq src dst sp dp seq ack flags data :
  let A := tcp_start sp dp seq ack flags in
  tcp_segment src dst sp dp seq ack flags data = A ++ be_bytes 2 (tcp_checksum src dst (A ++ [0; 0] ++ [0; 0] ++ data)) ++ [0; 0] ++ data.
Proof.
  cbv zeta. unfold tcp_segment.
  assert (be_bytes 2 sp ++ be_bytes 2 dp ++ be_bytes 4 seq ++ be_bytes 4 ack ++ [0x50; flags] ++ be_bytes 2 65535 ++ [0; 0] ++ [0; 0] ++ data
    = tcp_start sp dp seq ack flags ++ [0; 0] ++ [0; 0] ++ data) as -> by done.
  change 16%nat with (length (tcp_start sp dp seq ack flags)). by rewrite splice_field by (by rewrite length_be_bytes).
Qed.

Lemma tcp_segment_valid src dst sp dp seq ack flags data : ip4 src → ip4 dst → is_u 16 sp → is_u 16 dp → is_u 32 seq →
  is_byte flags → Forall is_byte data → len data ≤ 65000 →
  let seg := tcp_segment src dst sp dp seq ack flags data in
  tcp_checksum src dst seg = 0 ∧ tcp_parse seg = Ok (Some (sp, dp, seq, flags, data)).
Proof.
  cbv zeta. intros [Hs Hsb] [Hd Hdb] Hsp Hdp Hseq Hfl Hb Hlen. rewrite tcp_segment_eq. set (A := tcp_start sp dp seq ack flags).
  assert (length A = 16%nat) as HA by done.
  assert (Forall is_byte A) as HAb.
  { unfold A, tcp_start. rewrite !Forall_app. split_and!; try apply be_bytes_byte. repeat constructor; unfold is_u in *; lia. }
  split.
  - unfold tcp_checksum at 1. set (seg0 := A ++ [0; 0] ++ [0; 0] ++ data).
    assert (len (A ++ be_bytes 2 (tcp_checksum src dst seg0) ++ [0; 0] ++ data) = len seg0) as Hl.
    { unfold len, seg0. rewrite !length_app, length_be_bytes. done. }
    rewrite Hl. set (P := src ++ dst ++ [0; 6] ++ be_bytes 2 (u16 (len seg0))).
    assert (Forall is_byte P) as HP.
    { unfold P. rewrite !Forall_app. split_and!; [done|done|repeat constructor; unfold is_u; lia|apply be_bytes_byte]. }
    assert (length P = 12%nat) as HPl by (unfold P; rewrite !length_app, length_be_bytes, Hs, Hd; done).
    assert (tcp_checksum src dst seg0 = ip_checksum ((P ++ A) ++ [0; 0] ++ ([0; 0] ++ data))) as ->.
    { unfold tcp_checksum, P, seg0. by rewrite <- !app_assoc. }
    assert (∀ X : list Z, src ++ dst ++ [0; 6] ++ be_bytes 2 (u16 (len seg0)) ++ A ++ X = (P ++ A) ++ X) as HX
      by (intros; unfold P; by rewrite <- !app_assoc).
    rewrite HX. apply checksum_verifies.
    + rewrite length_app, HPl, HA. by exists 14%nat.
    + rewrite !Forall_app. split_and!; try done; repeat constructor; unfold is_u; lia.
    + unfold len in *. rewrite !length_app, HPl, HA. cbn. lia.
  - set (ck := be_bytes 2 _). assert (length ck = 2%nat) as Hck by apply length_be_bytes. clearbody ck.
    destruct ck as [|c0 [|c1 []]]; try done. unfold tcp_parse.
    set (seg := A ++ [c0; c1] ++ [0; 0] ++ data).
    assert (len seg = 20 + len data) as Hl by (unfold len, seg; rewrite !length_app, HA; cbn; lia).
    pose proof (Zle_0_nat (length data)). fold (len data) in *. rewrite (proj2 (Z.ltb_ge (len seg) 20)) by lia.
    unfold is_u in *. cbn [mbind outcome_bind].
    erewrite (be16_some seg 0) by (reflexivity || lia). cbn [mbind outcome_bind].
    erewrite (be16_some seg 2) by (reflexivity || lia). cbn [mbind outcome_bind].
    erewrite (be32_some seg 4) by (reflexivity || lia). cbn [mbind outcome_bind].
    erewrite (idx_some seg 13) by (reflexivity || lia). cbn [mbind outcome_bind].
    erewrite (idx_some seg 12) by (reflexivity || lia). cbn [mbind outcome_bind].
    change (Z.shiftr 80 4 * 4) with 20. rewrite (proj2 (Z.ltb_ge (len seg) 20)) by lia.
    rewrite slice_tail by lia. cbn [mbind outcome_bind]. change (drop (Z.to_nat 20) seg) with data.
    do 3 f_equal. repeat f_equal; dlia.
Qed.

(** The acknowledgement number, which the code's own parser skips. *)
Lemma tcp_segment_ack src dst sp dp seq ack flags data : is_u 32 ack →
  be32_at (tcp_segment src dst sp dp seq ack flags data) 8 = Ok ack.
Proof.
  intros Ha. rewrite tcp_segment_eq. unfold is_u in Ha.
  erewrite (be32_some _ 8) by (reflexivity || lia). f_equal. dlia.
Qed.

(** ** Sending *)

Definition card (s : net) : option Nic := match RTL8139 s with Some n => Some n | None => E1000 s end.
Definition sent (s : net) : list (list Z) := match card s with Some n => tx n | None => [] end.
Definition card_mac (s : net) : list Z := match card s with Some n => mac n | None => [0x52; 0x54; 0; 0x12; 0x34; 0x56] end.

(** What sending leaves alone. *)
Definition same_but_tx (s s' : net) : Prop :=
  PING_REPLY s' = PING_REPLY s ∧ NET_JOB s' = NET_JOB s ∧ card_mac s' = card_mac s ∧
  rx <$> card s' = rx <$> card s.

Lemma eth_send_spec dst_mac etype payload s : 0 ≤ etype < 65536 →
  wp (eth_send dst_mac etype payload) s (λ _ s', same_but_tx s s' ∧
    (is_Some (card s) → sent s' = sent s ++ [dst_mac ++ card_mac s ++ [etype / 256; etype mod 256] ++ payload])).
Proof.
  intros He. unfold eth_send, my_mac, nic_send, wp, gets, modify, mbind, ST_bind.
  assert (u8 (Z.shiftr etype 8) = etype / 256) as -> by (rewrite Z.shiftr_div_pow2 by lia; unfold wrap; dlia).
  unfold same_but_tx, sent, card_mac, card, set_nics. destruct (RTL8139 s) as [n|] eqn:E1; [|destruct (E1000 s) as [n|] eqn:E2]; cbn.
  - done.
  - done.
  - rewrite E1, E2. split; [done|]. by intros [? ?].
Qed.

Lemma eth_send_ok dst_mac etype payload s : is_ok (eth_send dst_mac etype payload s) = true.
Proof. reflexivity. Qed.

(** C20: A TCP segment the stack sends is the one its peer reads. The frame goes from
    the card's hardware address to the given one, with the IPv4 type; the IPv4 header
    is version 4 without options, its checksum verifies, its length covers the packet,
    its protocol is TCP and its addresses are ours and the peer's; the TCP checksum
    verifies, and the segment yields back ports, sequence and acknowledgement number,
    flags, the window 65535 and the data. *)
Theorem tcp_send_roundtrip dst_ip dst_mac sp dp seq ack flags data s
    (Hip : ip4 dst_ip) (Hmac : length dst_mac = 6%nat) (Hcard : is_Some (card s)) (Hmy : length (card_mac s) = 6%nat)
    (Hsp : is_u 16 sp) (Hdp : is_u 16 dp) (Hseq : is_u 32 seq) (Hack : is_u 32 ack) (Hfl : is_byte flags)
    (Hdata : Forall is_byte data) (Hlen : len data ≤ 65000) :
  wp (tcp_send_seg dst_ip dst_mac sp dp seq ack flags data) s (λ _ s', ∃ f, sent s' = sent s ++ [f] ∧
    take 6 f = dst_mac ∧ sub 6 6 f = card_mac s ∧ sub 12 2 f = [0x08; 0x00] ∧
    let pkt := drop 14 f in
    let seg := drop 20 pkt in
    ip_checksum (take 20 pkt) = 0 ∧ be16_at pkt 2 = Ok (len pkt) ∧ pkt !! 0%nat = Some 0x45 ∧ pkt !! 9%nat = Some 6 ∧
    sub 12 4 pkt = MY_IP ∧ sub 16 4 pkt = dst_ip ∧
    tcp_checksum MY_IP dst_ip seg = 0 ∧ be32_at seg 8 = Ok ack ∧ be16_at seg 14 = Ok 65535 ∧
    tcp_parse seg = Ok (Some (sp, dp, seq, flags, data))).
Proof.
  unfold tcp_send_seg, ip_send. eapply wp_mono; [by apply eth_send_spec|]. intros ? s' [_ Hs]. eexists. split; [by apply Hs|].
  set (seg := tcp_segment MY_IP dst_ip sp dp seq ack flags data).
  destruct (ip_packet_valid dst_ip 6 seg Hip ltac:(unfold is_u; lia)) as (H1 & H2 & H3 & H4 & H5 & H6 & H7).
  destruct (tcp_segment_valid MY_IP dst_ip sp dp seq ack flags data my_ip_ok Hip Hsp Hdp Hseq Hfl Hdata Hlen) as [H8 H9].
  fold seg in H8, H9. set (pkt := ip_packet dst_ip 6 seg) in *.
  assert (len seg = 20 + len data) as Hls.
  { unfold seg. rewrite tcp_segment_eq. unfold len. rewrite !length_app, length_be_bytes. cbn. lia. }
  assert (len pkt = 20 + len seg) as Hlp.
  { unfold pkt. rewrite ip_packet_eq. destruct Hip as [Hd _]. unfold len. rewrite !length_app, length_be_bytes, Hd. cbn. lia. }
  assert (drop 14 (dst_mac ++ card_mac s ++ [2048 / 256; 2048 mod 256] ++ pkt) = pkt) as Hdrop.
  { rewrite !app_assoc. rewrite drop_app_length'; [done|]. rewrite !length_app, Hmac, Hmy. done. }
  cbv zeta. rewrite Hdrop, H2. split_and!; try done.
  - rewrite take_app_length'; done.
  - unfold sub. rewrite drop_app_length' by done. by rewrite take_app_length'.
  - unfold sub. rewrite app_assoc, drop_app_length' by (rewrite length_app, Hmac, Hmy; done). done.
  - rewrite H7, Hlp by lia. done.
  - by apply tcp_segment_ack.
  - unfold seg. rewrite tcp_segment_eq. by erewrite (be16_some _ 14) by (reflexivity || lia).
Qed.

(** ** Handling frames *)

(** The one kind of frame the handler cannot take: an ICMP echo request to us with
    fewer than four bytes behind the IP header. *)
Definition short_echo (frame : list Z) : bool :=
  let ip := drop 14 frame in
  let ihl := (Z.land (default 0 (ip !! 0%nat)) 0x0F) * 4 in
  let body := drop (Z.to_nat ihl) ip in
  (34 <=? len frame) && bool_decide (frame !! 12%nat = Some 0x08) && bool_decide (frame !! 13%nat = Some 0x00) &&
  beq (sub 16 4 ip) MY_IP && bool_decide (ip !! 9%nat = Some 1) && (ihl <=? len ip) &&
  bool_decide (body !! 0%nat = Some 8) && (len body <? 4).

Lemma handle_icmp_ok src_ip src_mac data s :
  is_ok (handle_icmp src_ip src_mac data s) = negb (bool_decide (data !! 0%nat = Some 8) && (len data <? 4)).
Proof.
  destruct data as [|ty data]; [done|]. unfold handle_icmp. destruct (Z.eqb_spec ty 8) as [->|Hne].
  - cbn [lookup list_lookup]. rewrite bool_decide_true by done. cbn [andb]. unfold lift, mbind, ST_bind, put_at.
    rewrite v_set_ok by (cbn; lia). cbn [list_insert insert].
    destruct data as [|b [|c [|d data]]]; try done. cbn. assert (4 ≤ len (8 :: b :: c :: d :: data)) by (unfold len; cbn; lia).
    by rewrite (proj2 (Z.ltb_ge _ _)) by lia.
  - rewrite bool_decide_false by (cbn; congruence). cbn [andb negb]. destruct (ty =? 0); [|done].
    destruct (Z.leb_spec 8 (len (ty :: data))) as [Hl|]; [|done]. unfold lift, mbind, ST_bind, be16_at.
    destruct (idx_ok (ty :: data) 6) as (a & -> & _); [lia|]. cbn [outcome_bind mbind].
    by destruct (idx_ok (ty :: data) (6 + 1)) as (b & -> & _); [lia|].
Qed.

Lemma handle_arp_ok data s : is_ok (handle_arp data s) = true.
Proof.
  unfold handle_arp. destruct (Z.ltb_spec (len data) 28); [done|]. unfold lift, mbind, ST_bind, be16_at.
  destruct (idx_ok data 6) as (a & -> & _); [lia|]. destruct (idx_ok data (6 + 1)) as (b & -> & _); [lia|]. cbn [mbind outcome_bind].
  rewrite !slice_ok by lia. by destruct (_ && _).
Qed.

Lemma handle_ip_ok eth_src data s : is_ok (handle_ip eth_src data s) =
  let ihl := Z.land (default 0 (data !! 0%nat)) 0x0F * 4 in
  negb ((20 <=? len data) && beq (sub 16 4 data) MY_IP && bool_decide (data !! 9%nat = Some 1) && (ihl <=? len data) &&
    bool_decide (drop (Z.to_nat ihl) data !! 0%nat = Some 8) && (len (drop (Z.to_nat ihl) data) <? 4)).
Proof.
  cbv zeta. unfold handle_ip. destruct (Z.ltb_spec (len data) 20); destruct (Z.leb_spec 20 (len data)); try lia; [done|].
  unfold lift, mbind, ST_bind. rewrite !slice_ok by lia. change (Z.to_nat 16) with 16%nat. change (Z.to_nat (20 - 16)) with 4%nat.
  destruct (beq (sub 16 4 data) MY_IP); cbn [negb andb]; [|done].
  destruct (idx_ok data 9) as (proto & -> & Hp); [lia|]. destruct (idx_ok data 0) as (b0 & -> & Hb0); [lia|].
  change (Z.to_nat 9) with 9%nat in Hp. change (Z.to_nat 0) with 0%nat in Hb0. rewrite Hp, Hb0. cbn [default from_option]. unfold Datatypes.id.
  assert (0 ≤ Z.land b0 0x0F) as Hn by (apply Z.land_nonneg; lia).
  destruct (Z.ltb_spec (len data) (Z.land b0 0x0F * 4)); destruct (Z.leb_spec (Z.land b0 0x0F * 4) (len data)); try lia.
  { by rewrite andb_false_r. }
  rewrite slice_tail by lia. destruct (Z.eqb_spec proto 1) as [->|].
  - rewrite handle_icmp_ok. rewrite (bool_decide_true (Some 1 = Some 1)) by done. done.
  - rewrite (bool_decide_false (Some proto = Some 1)) by congruence. cbn [andb negb]. by destruct (proto =? 17).
Qed.

Lemma handle_frame_ok frame s (Hb : Forall is_byte frame) :
  is_ok (handle_frame frame s) = negb (short_echo frame).
Proof.
  unfold handle_frame, short_echo. destruct (Z.ltb_spec (len frame) 14).
  { rewrite (proj2 (Z.leb_gt 34 (len frame))) by lia. done. }
  unfold lift, mbind, ST_bind, be16_at. destruct (idx_ok frame 12) as (a & -> & Ha); [lia|].
  destruct (idx_ok frame (12 + 1)) as (b & -> & Hb'); [lia|]. cbn [mbind outcome_bind].
  change (Z.to_nat 12) with 12%nat in Ha. change (Z.to_nat (12 + 1)) with 13%nat in Hb'. rewrite Ha, Hb'.
  pose proof (Forall_lookup_1 _ _ _ _ Hb Ha) as Ra. pose proof (Forall_lookup_1 _ _ _ _ Hb Hb') as Rb. unfold is_u in Ra, Rb.
  rewrite slice_ok by lia. rewrite slice_tail by lia. change (Z.to_nat 14) with 14%nat.
  assert (len (drop 14 frame) = len frame - 14) as Hl by (unfold len in *; rewrite length_drop; lia).
  destruct (Z.eqb_spec (a * 256 + b) 0x0806).
  { rewrite handle_arp_ok. rewrite (bool_decide_false (Some b = _)) by (intros [=]; lia). by rewrite !andb_false_r. }
  destruct (Z.eqb_spec (a * 256 + b) 0x0800).
  - rewrite handle_ip_ok. cbv zeta. rewrite (bool_decide_true (Some a = _)), (bool_decide_true (Some b = _)) by (f_equal; lia).
    rewrite !andb_true_r. do 6 f_equal. rewrite Hl. destruct (Z.leb_spec 20 (len frame - 14)), (Z.leb_spec 34 (len frame)); lia.
  - cbn [is_ok mret ST_ret]. destruct (34 <=? _); [|done]. cbn [andb].
    destruct (bool_decide_reflect (Some a = Some 8)) as [[=]|]; [|done].
    destruct (bool_decide_reflect (Some b = Some 0)) as [[=]|]; [lia|done].
Qed.

(** C24: Handling any received frame, however malformed, panics exactly when it is
    an ICMP echo request addressed to us that carries fewer than four bytes behind
    its IP header; then it does. *)
Theorem handle_frame_panics_iff frame s (Hb : Forall is_byte frame) :
  is_ok (handle_frame frame s) = negb (short_echo frame).
Proof. by apply handle_frame_ok. Qed.

(** ** DNS answers *)

Lemma be16_ok l i : 0 ≤ i → i + 1 < len l → Forall is_byte l → ∃ z, be16_at l i = Ok z ∧ 0 ≤ z < 65536.
Proof.
  intros Hi Hl Hb. unfold be16_at. destruct (idx_ok l i) as (a & -> & Ha); [lia|]. destruct (idx_ok l (i + 1)) as (b & -> & Hb'); [lia|].
  pose proof (Forall_lookup_1 _ _ _ _ Hb Ha). pose proof (Forall_lookup_1 _ _ _ _ Hb Hb'). unfold is_u in *.
  eexists. split; [done|]. lia.
Qed.

Lemma idx_app {A} (l l' : list A) i : 0 ≤ i < len l → idx (l ++ l') i = idx l i.
Proof.
  intros Hi. unfold idx. rewrite !bool_decide_true by (unfold len in *; rewrite ?length_app; lia).
  by rewrite lookup_app_l by (unfold len in *; lia).
Qed.

Lemma be16_app l l' i : 0 ≤ i → i + 1 < len l → be16_at (l ++ l') i = be16_at l i.
Proof. intros. unfold be16_at. by rewrite !idx_app by lia. Qed.

Lemma idx_byte l i : 0 ≤ i < len l → Forall is_byte l → ∃ z, idx l i = Ok z ∧ is_byte z.
Proof. intros Hi Hb. destruct (idx_ok l i Hi) as (a & -> & Ha). exists a. split; [done|]. exact (Forall_lookup_1 _ _ _ _ Hb Ha). Qed.

Lemma skip_qname_ok fuel dns pos : 0 ≤ pos → Forall is_byte dns →
  ∃ r, skip_qname fuel dns pos = Ok r ∧ ∀ p, r = Some p → pos ≤ p.
Proof.
  revert pos. induction fuel as [|fuel IH]; intros pos Hp Hb; cbn [skip_qname]; [by eexists|].
  destruct (Z.leb_spec (len dns) pos); [by eexists|].
  destruct (idx_byte dns pos) as (l & -> & Hl); [lia|done|]. cbn [mbind outcome_bind]. unfold is_u in Hl.
  destruct (l =? 0). { eexists. split; [done|]. intros ? [= <-]. lia. }
  destruct (_ =? 0xC0). { eexists. split; [done|]. intros ? [= <-]. lia. }
  destruct (IH (pos + 1 + l)) as (r & -> & Hr); [lia|done|]. eexists. split; [done|]. intros p ->. specialize (Hr p eq_refl). lia.
Qed.

Lemma skip_labels_ok fuel dns pos : 0 ≤ pos → Forall is_byte dns → ∃ p, skip_labels fuel dns pos = Ok p ∧ pos ≤ p.
Proof.
  revert pos. induction fuel as [|fuel IH]; intros pos Hp Hb; cbn [skip_labels]; [by eexists|].
  destruct (Z.leb_spec (len dns) pos); [by eexists|].
  destruct (idx_byte dns pos) as (l & -> & Hl); [lia|done|]. cbn [mbind outcome_bind]. unfold is_u in Hl.
  destruct (l =? 0); [by eexists|]. destruct (IH (pos + 1 + l)) as (p & -> & ?); [lia|done|]. eexists. split; [done|lia].
Qed.

Lemma walk_answers_ok n dns pos : 0 ≤ pos → Forall is_byte dns → is_ok (walk_answers n dns pos) = true.
Proof.
  revert pos. induction n as [|n IH]; intros pos Hp Hb; cbn [walk_answers]; [done|].
  destruct (Z.ltb_spec (len dns) (pos + 10)); [done|].
  destruct (idx_byte dns pos) as (b & -> & _); [lia|done|]. cbn [mbind outcome_bind].
  assert (∃ p, (if Z.land b 0xC0 =? 0xC0 then Ok (pos + 2) else p ← skip_labels (length dns) dns pos; Ok (p + 1)) = Ok p ∧ pos ≤ p)
    as (p & -> & Hpp).
  { destruct (_ =? 0xC0); [eexists; split; [done|lia]|].
    destruct (skip_labels_ok (length dns) dns pos) as (p & -> & ?); [done|done|]. eexists. split; [done|lia]. }
  cbn [mbind outcome_bind]. destruct (Z.ltb_spec (len dns) (p + 10)); [done|].
  destruct (be16_ok dns p) as (ty & -> & _); [lia|lia|done|]. cbn [mbind outcome_bind].
  destruct (be16_ok dns (p + 8)) as (rd & -> & ?); [lia|lia|done|]. cbn [mbind outcome_bind].
  destruct ((ty =? 1) && (rd =? 4) && (p + 10 + 4 <=? len dns)) eqn:E; [|apply IH; [lia|done]].
  apply andb_prop in E as [_ E%Z.leb_le].
  unfold lift. destruct (idx_byte dns (p + 10)) as (? & -> & _); [lia|done|]. cbn [mbind outcome_bind].
  destruct (idx_byte dns (p + 10 + 1)) as (? & -> & _); [lia|done|]. cbn [mbind outcome_bind].
  destruct (idx_byte dns (p + 10 + 2)) as (? & -> & _); [lia|done|]. cbn [mbind outcome_bind].
  by destruct (idx_byte dns (p + 10 + 3)) as (? & -> & _); [lia|done|].
Qed.

Lemma parse_dns_ok dns : Forall is_byte dns → is_ok (parse_dns_answer dns) = true.
Proof.
  intros Hb. unfold parse_dns_answer. destruct (Z.ltb_spec (len dns) 12); [done|].
  destruct (be16_ok dns 6) as (n & -> & ?); [lia|lia|done|]. cbn [mbind outcome_bind]. destruct (n =? 0); [done|].
  destruct (skip_qname_ok (length dns) dns 12) as ([p|] & -> & Hp); [lia|done| |done]. cbn [mbind outcome_bind].
  specialize (Hp p eq_refl). apply walk_answers_ok; [lia|done].
Qed.

(** Name labels as a query carries them. *)
Definition label_ok (l : list Z) : Prop := (0 < length l < 64)%nat.

Definition labels (ls : list (list Z)) : list Z := concat ((λ l, u8 (len l) :: l) <$> ls).

Lemma small_not_pointer n : 0 ≤ n < 64 → (Z.land n 0xC0 =? 0xC0) = false.
Proof.
  intros Hn. apply Z.eqb_neq. intros E. apply (f_equal (λ z, Z.testbit z 7)) in E. rewrite Z.land_spec in E.
  rewrite (testbit_is_u 6 n 7) in E by (unfold is_u; lia). done.
Qed.

Lemma skip_qname_labels ls pre rest fuel : Forall label_ok ls → (length ls < fuel)%nat →
  skip_qname fuel (pre ++ labels ls ++ [0] ++ rest) (len pre) = Ok (Some (len pre + len (labels ls) + 1)).
Proof.
  revert pre fuel. induction ls as [|l ls IH]; intros pre [|fuel] Hls Hf; cbn [length] in *; try lia; cbn [skip_qname].
  - set (d := pre ++ labels [] ++ [0] ++ rest). assert (d !! Z.to_nat (len pre) = Some 0) as H0.
    { unfold d, len. rewrite Nat2Z.id. by rewrite lookup_app_r, Nat.sub_diag by lia. }
    rewrite (proj2 (Z.leb_gt (len d) (len pre))) by (unfold d, len; rewrite !length_app; cbn; lia).
    rewrite (idx_some d _ 0) by (unfold len; done || lia). cbn [mbind outcome_bind]. cbn. f_equal. f_equal. unfold len. cbn. lia.
  - apply Forall_cons_iff in Hls as [Hl Hls]. unfold label_ok in Hl.
    assert (u8 (len l) = len l) as Hu by (apply wrap_small; unfold is_u, len; lia).
    assert (pre ++ labels (l :: ls) ++ [0] ++ rest = (pre ++ len l :: l) ++ labels ls ++ [0] ++ rest) as ->.
    { unfold labels. cbn [fmap list_fmap concat]. rewrite Hu. by rewrite <- !app_assoc. }
    set (d := (pre ++ len l :: l) ++ labels ls ++ [0] ++ rest). assert (d !! Z.to_nat (len pre) = Some (len l)) as H0.
    { unfold d. rewrite <- app_assoc. unfold len. rewrite Nat2Z.id. by rewrite lookup_app_r, Nat.sub_diag by lia. }
    rewrite (proj2 (Z.leb_gt (len d) (len pre))) by (unfold d, len; rewrite !length_app; cbn; lia).
    rewrite (idx_some d _ (len l)) by (unfold len; done || lia). cbn [mbind outcome_bind].
    rewrite (proj2 (Z.eqb_neq (len l) 0)) by (unfold len; lia). rewrite small_not_pointer by (unfold len; lia).
    assert (len pre + 1 + len l = len (pre ++ len l :: l)) as -> by (unfold len; rewrite length_app; cbn; lia).
    unfold d. rewrite IH by (done || lia). f_equal. f_equal. unfold labels. cbn [fmap list_fmap concat]. unfold len.
    rewrite !length_app. cbn. lia.
Qed.

Lemma labels_length ls : (length ls ≤ length (labels ls))%nat.
Proof. induction ls as [|l ls IH]; [done|]. unfold labels in *. cbn. rewrite length_app. lia. Qed.

(** C22: DNS answers: parsing never panics, whatever bytes a server sends; and a
    response that repeats the question of a query for a name of well-formed labels
    and answers with an A record (name given by a compression pointer) yields the
    four address bytes, whatever follows. *)
Theorem dns_answer_roundtrip hdr hostname ty ttl ip rest
    (Hhdr : length hdr = 12%nat) (Hn : be16_at hdr 6 ≠ Ok 0) (Hb : Forall is_byte (hdr ++ hostname ++ ty ++ ttl ++ ip ++ rest))
    (Hls : Forall label_ok (filter (λ l, l ≠ []) (split_on 0x2E hostname)))
    (Hty : length ty = 4%nat) (Httl : length ttl = 4%nat) (Hip : length ip = 4%nat) :
  (∀ dns, Forall is_byte dns → is_ok (parse_dns_answer dns) = true) ∧
  parse_dns_answer (hdr ++ encode_labels hostname ++ [0] ++ ty ++ [0xC0; 0x0C; 0; 1; 0; 1] ++ ttl ++ [0; 4] ++ ip ++ rest) = Ok (Some ip).
Proof.
  split; [apply parse_dns_ok|]. unfold encode_labels. set (ls := filter _ _) in *. fold (labels ls).
  set (ans := [0xC0; 0x0C; 0; 1; 0; 1] ++ ttl ++ [0; 4] ++ ip ++ rest).
  set (dns := hdr ++ labels ls ++ [0] ++ ty ++ ans). unfold parse_dns_answer.
  assert (len dns = 12 + len (labels ls) + 1 + 4 + (16 + len rest)) as Hlen.
  { unfold dns, ans, len. rewrite !length_app, Hhdr, Hty, Httl, Hip. cbn. lia. }
  pose proof (Zle_0_nat (length rest)). pose proof (Zle_0_nat (length (labels ls))). unfold len in Hlen at 2 3.
  rewrite (proj2 (Z.ltb_ge (len dns) 12)) by lia.
  destruct (be16_ok hdr 6) as (n & En & Hnr); [lia|unfold len; lia|by apply Forall_app in Hb as [? _]|].
  assert (be16_at dns 6 = Ok n) as ->.
  { rewrite <- En. unfold dns. apply be16_app; unfold len; lia. }
  cbn [mbind outcome_bind]. rewrite (proj2 (Z.eqb_neq n 0)) by (intros ->; done).
  assert (skip_qname (length dns) dns 12 = Ok (Some (len hdr + len (labels ls) + 1))) as ->.
  { assert (12 = len hdr) as -> by (unfold len; lia). apply skip_qname_labels; [done|].
    pose proof (labels_length ls). unfold dns. rewrite !length_app. cbn. lia. }
  cbn [mbind outcome_bind]. destruct (Z.to_nat n) as [|k] eqn:Ek; [exfalso; apply Hn; rewrite En; f_equal; lia|].
  set (pos := len hdr + len (labels ls) + 1 + 4).
  assert (∀ i, dns !! (Z.to_nat pos + i)%nat = ans !! i) as Hans.
  { intros i. unfold dns. rewrite !app_assoc. rewrite lookup_app_r; [f_equal|]; unfold pos, len; rewrite !length_app; cbn; lia. }
  assert (∀ i x, 0 ≤ i → ans !! Z.to_nat i = Some x → idx dns (pos + i) = Ok x) as Hidx.
  { intros i x Hi Hx. apply idx_some; [unfold pos, len; lia|]. rewrite <- Hx, <- Hans. f_equal. unfold pos, len. lia. }
  assert (∀ x, ans !! 0%nat = Some x → idx dns pos = Ok x) as Hidx0.
  { intros x Hx. rewrite <- (Z.add_0_r pos). by apply Hidx. }
  clear Hans Hn En. destruct ttl as [|t0 [|t1 [|t2 [|t3 []]]]]; try done. destruct ip as [|i0 [|i1 [|i2 [|i3 []]]]]; try done.
  cbn [walk_answers].
  assert (len dns = pos + 16 + len rest) as Hlp by (unfold pos, len in *; lia). unfold len in Hlp at 2. clearbody pos dns.
  rewrite (proj2 (Z.ltb_ge (len dns) (pos + 10))) by lia.
  rewrite (Hidx0 0xC0) by done. cbn [mbind outcome_bind]. change (Z.land 192 192 =? 192) with true. cbv iota. cbn [mbind outcome_bind].
  rewrite (proj2 (Z.ltb_ge (len dns) (pos + 2 + 10))) by lia.
  assert (∀ i a b, 0 ≤ i → ans !! Z.to_nat i = Some a → ans !! Z.to_nat (i + 1) = Some b → be16_at dns (pos + i) = Ok (a * 256 + b)) as Hbe.
  { intros i a b Hi Ha Hb'. unfold be16_at. rewrite (Hidx i a) by done. rewrite <- Z.add_assoc. by rewrite (Hidx (i + 1) b) by (lia || done). }
  rewrite (Hbe 2 0 1) by done. cbn [mbind outcome_bind]. assert (pos + 2 + 8 = pos + 10) as -> by lia.
  rewrite (Hbe 10 0 4) by done. cbn [mbind outcome_bind]. assert (pos + 2 + 10 = pos + 12) as -> by lia.
  change ((0 * 256 + 1 =? 1) && (0 * 256 + 4 =? 4)) with true. cbn [andb]. rewrite (proj2 (Z.leb_le _ (len dns))) by lia.
  rewrite <- !Z.add_assoc. change (12 + 1) with 13. change (12 + 2) with 14. change (12 + 3) with 15.
  rewrite (Hidx 12 i0), (Hidx 13 i1), (Hidx 14 i2), (Hidx 15 i3) by done. done.
Qed.

(** ** Source ports *)

(** The ports of [n] consecutive connections, from a counter. *)
Fixpoint draw_ports (n : nat) : ST net (list Z) :=
  match n with O => mret [] | S n => p ← next_src_port; ps ← draw_ports n; mret (p :: ps) end.

(** Where the counter stands when [k] ports of the 16384 have been used. *)
Definition counter_at (k c : Z) : Prop := 0 ≤ k < 16384 ∧ (c = 49152 + k ∨ (k = 0 ∧ c = 0)).

Lemma next_src_port_step k s : counter_at k (NEXT_SRC_PORT s) →
  wp next_src_port s (λ p s', p = 49152 + k ∧ counter_at ((k + 1) mod 16384) (NEXT_SRC_PORT s')).
Proof.
  intros [Hk Hc]. unfold next_src_port, wp. destruct (Z.eqb_spec (NEXT_SRC_PORT s) 0) as [E|E].
  - split; [lia|]. cbn. unfold counter_at. split; [dlia|]. left. dlia.
  - destruct Hc as [Hc|]; [|lia]. split; [done|]. cbn. rewrite Hc. unfold wrap, counter_at. change (2 ^ 16) with 65536. split; [dlia|].
    destruct (decide (k = 16383)) as [->|]; [right; done|left; dlia].
Qed.

(** Source ports stay in the ephemeral range [49152, 65535] for ever: the counter
    wraps through zero without ever handing out a port outside it, and a port
    recurs only after all 16384 have been used. *)
Theorem ports_cycle n s (H0 : NEXT_SRC_PORT s = 49152) :
  wp (draw_ports n) s (λ ps _, ps = (λ i, 49152 + Z.of_nat i mod 16384) <$> seq 0 n).
Proof.
  assert (∀ m i s, counter_at (Z.of_nat i mod 16384) (NEXT_SRC_PORT s) →
    wp (draw_ports m) s (λ ps _, ps = (λ i, 49152 + Z.of_nat i mod 16384) <$> seq i m)) as H.
  { clear. induction m as [|m IH]; intros i s Hc; [done|]. cbn [draw_ports]. wp_step (next_src_port_step _ s Hc).
    intros p s1 [-> Hc1]. cbv beta. apply wp_bind. eapply wp_mono; [apply (IH (S i))|].
    - assert (Z.of_nat (S i) mod 16384 = (Z.of_nat i mod 16384 + 1) mod 16384) as -> by dlia. done.
    - intros ps s2 ->. apply wp_ret. done. }
  apply (H n 0%nat). rewrite H0. split; [done|]. by left.
Qed.

(** ** The poll loop *)

(** Datagrams a job may still have to send fit the 16-bit length of UDP. *)
Definition job_ok (j : NetJob) : Prop :=
  match j with Resolve _ _ _ _ _ (NextUdp _ msg) => len msg ≤ 65527 | _ => True end.

(** Frames the handler can take. *)
Definition ring (s : net) : list (list Z) := match card s with Some n => rx n | None => [] end.

(** What a receive consumes: the ring, the frames still to come and the turn. *)
Definition inbox (s : net) : option (list (list Z)) * (nat → list (list Z)) * nat := (rx <$> card s, wire s, recvs s).

Definition is_ping (job : NetJob) : bool := match job with Ping _ _ _ => true | _ => false end.

(** Sending and parsing leave the receive ring and the job slot alone. *)
Definition keeps {A} (c : ST net A) (s : net) (Q : A → Prop) : Prop :=
  wp c s (λ a s', Q a ∧ inbox s' = inbox s ∧ NET_JOB s' = NET_JOB s).

Lemma keeps_ret {A} (a : A) s (Q : A → Prop) : Q a → keeps (mret a) s Q.
Proof. done. Qed.

Lemma keeps_bind {A B} (c : ST net A) (k : A → ST net B) s P Q :
  keeps c s P → (∀ a s', P a → keeps (k a) s' Q) → keeps (c ≫= k) s Q.
Proof.
  unfold keeps. intros Hc Hk. wp_step Hc. intros a s' (HP & E1 & E2). eapply wp_mono; [by apply Hk|].
  intros b s2 (HQ & -> & ->). done.
Qed.

Lemma keeps_mono {A} (c : ST net A) s (P Q : A → Prop) : keeps c s P → (∀ a, P a → Q a) → keeps c s Q.
Proof. unfold keeps. intros Hc H. eapply wp_mono; [exact Hc|]. intros a s' [? ?]. auto. Qed.

Lemma keeps_lift {A} (c : outcome A) s (Q : A → Prop) : (∃ a, c = Ok a ∧ Q a) → keeps (lift c) s Q.
Proof. intros (a & -> & ?). done. Qed.

Lemma keeps_lift_then {A B} (c : outcome A) (k : A → ST net B) s Q a : c = Ok a → keeps (k a) s Q → keeps (lift c ≫= k) s Q.
Proof. intros -> H. exact H. Qed.

Lemma keeps_send dst_mac etype payload s : keeps (eth_send dst_mac etype payload) s (λ _, True).
Proof.
  unfold keeps, eth_send, my_mac, nic_send, wp, gets, modify, mbind, ST_bind, inbox, card, set_nics.
  destruct (RTL8139 s) as [n|] eqn:E1; [done|]. destruct (E1000 s) as [n|] eqn:E2; cbn; by rewrite ?E1, ?E2.
Qed.

Lemma keeps_gets {A} (f : net → A) s : keeps (gets f) s (λ _, True).
Proof. done. Qed.

Lemma keeps_rdtsc s : keeps rdtsc s (λ _, True).
Proof. done. Qed.

Lemma keeps_deadline ms s : keeps (tsc_deadline ms) s (λ _, True).
Proof. done. Qed.

Lemma keeps_tcp_send ip m sp dp seq ack fl data s : keeps (tcp_send_seg ip m sp dp seq ack fl data) s (λ _, True).
Proof. apply keeps_send. Qed.

Lemma keeps_udp_send ip m sp dp data s : len data ≤ 65527 → keeps (udp_send ip m sp dp data) s (λ _, True).
Proof.
  intros Hd. unfold udp_send. rewrite (wrap_small 16) by (unfold is_u, len in *; lia).
  rewrite (proj2 (Z.ltb_ge _ _)) by (unfold len; lia). rewrite (proj2 (Z.eqb_eq _ _)) by lia. apply keeps_send.
Qed.

Lemma keeps_tcp_job ip port req s : keeps (build_tcp_job ip port req) s (λ j, job_ok j ∧ is_ping j = false).
Proof.
  unfold build_tcp_job. eapply (keeps_bind _ _ _ (λ _, True)).
  { unfold next_src_port, keeps, wp. by destruct (_ =? 0). }
  intros p s1 _. eapply keeps_bind; [apply keeps_rdtsc|]. intros t s2 _. eapply keeps_bind; [apply keeps_tcp_send|].
  intros ? s3 _. eapply keeps_bind; [apply keeps_deadline|]. done.
Qed.

Lemma keeps_udp_job ip port msg s : len msg ≤ 65527 → keeps (build_udp_job ip port msg) s (λ j, job_ok j ∧ is_ping j = false).
Proof.
  intros Hm. unfold build_udp_job. eapply keeps_bind; [apply keeps_rdtsc|]. intros t s2 _. eapply keeps_bind; [by apply keeps_udp_send|].
  intros ? s3 _. eapply keeps_bind; [apply keeps_deadline|]. done.
Qed.

(** If [c] returns, it has kept the ring and the job slot. *)
Definition steady {A} (c : ST net A) : Prop := ∀ s a s', c s = Ok (a, s') → inbox s' = inbox s ∧ NET_JOB s' = NET_JOB s.

Lemma steady_ret {A} (a : A) : steady (mret a).
Proof. by intros s b s' [= <- <-]. Qed.

Lemma steady_lift {A} (c : outcome A) : steady (lift c).
Proof. intros s a s'. unfold lift. destruct c; [|done]. by intros [= <- <-]. Qed.

Lemma steady_bind {A B} (c : ST net A) (k : A → ST net B) : steady c → (∀ a, steady (k a)) → steady (c ≫= k).
Proof.
  intros Hc Hk s b s' E. apply bind_ok_inv in E as (a & s1 & E1 & E2).
  apply Hc in E1 as [R1 J1]. apply Hk in E2 as [R2 J2]. split; congruence.
Qed.

Lemma steady_send dst_mac etype payload : steady (eth_send dst_mac etype payload).
Proof. intros s a s' E. pose proof (keeps_send dst_mac etype payload s) as H. unfold keeps, wp in H. rewrite E in H. by destruct H. Qed.

Lemma steady_gets {A} (f : net → A) : steady (gets f).
Proof. by intros s a s' [= <- <-]. Qed.

Lemma steady_reply r : steady (modify (set_ping_reply r)).
Proof. by intros s a s' [= <- <-]. Qed.

Ltac steady_tac := repeat first [progress cbv zeta | apply steady_ret | apply steady_lift | apply steady_send | apply steady_gets
  | apply steady_bind; [|intros ?] | case_match].

Lemma steady_frame f : steady (handle_frame f).
Proof.
  unfold handle_frame, handle_arp, handle_ip, handle_icmp, handle_udp, ip_send, my_mac. steady_tac. apply steady_reply.
Qed.

Lemma keeps_frame f s : Forall is_byte f → short_echo f = false → keeps (handle_frame f) s (λ _, True).
Proof.
  intros Hb Hs. pose proof (handle_frame_ok f s Hb) as Hok. rewrite Hs in Hok.
  unfold keeps, wp. destruct (handle_frame f s) as [[a s']|] eqn:E; [|done]. split; [done|]. by apply (steady_frame f s a).
Qed.

Lemma ihl_ok ip : 20 ≤ len ip → Forall is_byte ip → ∃ n, ihl_of ip = Ok n ∧ 0 ≤ n.
Proof.
  intros Hl Hb. unfold ihl_of. destruct (idx_byte ip 0) as (b & -> & Hb0); [lia|done|]. cbn. eexists. split; [done|].
  unfold is_u in Hb0. enough (0 ≤ Z.land b 15) by lia. apply Z.land_nonneg. lia.
Qed.

Lemma frame_udp_ok ip sp : 20 ≤ len ip → Forall is_byte ip → ∃ o, frame_udp ip sp = Ok o ∧ ∀ j, o ≠ Replace j.
Proof.
  intros Hl Hb. unfold frame_udp. destruct (idx_byte ip 9) as (p & -> & _); [lia|done|]. cbn [mbind outcome_bind].
  destruct (negb _); [by eexists|]. destruct (ihl_ok ip Hl Hb) as (ihl & -> & Hi). cbn [mbind outcome_bind].
  destruct (Z.ltb_spec (len ip) (ihl + 8)); [by eexists|]. rewrite slice_tail by lia. cbn [mbind outcome_bind].
  set (udp := drop (Z.to_nat ihl) ip). assert (len udp = len ip - ihl) as Hu by (unfold udp, len in *; rewrite length_drop; lia).
  assert (Forall is_byte udp) as Hub by (by apply Forall_drop). clearbody udp.
  destruct (be16_ok udp 2) as (dp & -> & _); [lia|lia|done|]. cbn [mbind outcome_bind]. destruct (negb _); [by eexists|].
  destruct (be16_ok udp 4) as (ul & -> & Hul); [lia|lia|done|]. cbn [mbind outcome_bind].
  destruct (Z.ltb_spec ul 8); [by eexists|]. destruct (Z.ltb_spec (len udp) ul); [by eexists|]. cbn [orb].
  destruct (be16_ok udp 0) as (s & -> & _); [lia|lia|done|]. cbn [mbind outcome_bind].
  rewrite !slice_ok by lia. cbn [mbind outcome_bind]. by eexists.
Qed.

Definition outcome_ok (o : JobOutcome) : Prop := match o with Replace j => job_ok j ∧ is_ping j = false | _ => True end.

Lemma keeps_resolve ip dns_ip sp txid next s : 20 ≤ len ip → Forall is_byte ip →
  match next with NextUdp _ msg => len msg ≤ 65527 | _ => True end →
  keeps (frame_resolve ip dns_ip sp txid next) s outcome_ok.
Proof.
  intros Hl Hb Hn. unfold frame_resolve.
  destruct (idx_byte ip 9) as (p & E & _); [lia|done|]. apply (keeps_lift_then _ _ _ _ _ E).
  destruct (negb _); [by apply keeps_ret|].
  eapply keeps_lift_then; [apply slice_ok; lia|]. destruct (negb _); [by apply keeps_ret|].
  destruct (ihl_ok ip Hl Hb) as (ihl & Ei & Hi).
  apply (keeps_lift_then _ _ _ _ _ Ei).
  destruct (Z.ltb_spec (len ip) (ihl + 8)); [by apply keeps_ret|].
  eapply keeps_lift_then; [apply slice_tail; lia|].
  set (udp := drop (Z.to_nat ihl) ip). assert (len udp = len ip - ihl) as Hu by (unfold udp, len in *; rewrite length_drop; lia).
  assert (Forall is_byte udp) as Hub by (by apply Forall_drop). clearbody udp.
  destruct (be16_ok udp 0) as (x & Ex & _); [lia|lia|done|]. apply (keeps_lift_then _ _ _ _ _ Ex).
  destruct (negb _); [by apply keeps_ret|].
  destruct (be16_ok udp 2) as (y & Ey & _); [lia|lia|done|]. apply (keeps_lift_then _ _ _ _ _ Ey).
  destruct (negb _); [by apply keeps_ret|].
  eapply keeps_lift_then; [apply slice_tail; lia|].
  assert (Forall is_byte (drop (Z.to_nat 8) udp)) as Hdb by (by apply Forall_drop).
  set (dns := drop (Z.to_nat 8) udp) in *. clearbody dns.
  destruct (Z.ltb_spec (len dns) 12); [by apply keeps_ret|].
  destruct (be16_ok dns 0) as (z & Ez & _); [lia|lia|done|]. apply (keeps_lift_then _ _ _ _ _ Ez).
  destruct (negb _); [by apply keeps_ret|].
  destruct (idx_byte dns 2) as (w & Ew & _); [lia|done|]. apply (keeps_lift_then _ _ _ _ _ Ew).
  destruct (_ =? 0); [by apply keeps_ret|].
  pose proof (parse_dns_ok dns Hdb) as Hp. destruct (parse_dns_answer dns) as [a|] eqn:Ea; [|done].
  eapply keeps_lift_then; [done|]. destruct a as [ipa|]; [|by apply keeps_ret].
  destruct next as [port req|port msg].
  - eapply keeps_bind; [apply keeps_tcp_job|]. intros j s11 Hj. by apply keeps_ret.
  - eapply keeps_bind; [by apply keeps_udp_job|]. intros j s11 Hj. by apply keeps_ret.
Qed.

Lemma tcp_parse_ok seg : Forall is_byte seg → is_ok (tcp_parse seg) = true.
Proof.
  intros Hb. unfold tcp_parse. destruct (Z.ltb_spec (len seg) 20); [done|].
  destruct (be16_ok seg 0) as (? & -> & _); [lia|lia|done|]. destruct (be16_ok seg 2) as (? & -> & _); [lia|lia|done|].
  assert (∃ z, be32_at seg 4 = Ok z) as [z ->].
  { unfold be32_at. destruct (idx_byte seg 4) as (? & -> & _); [lia|done|]. destruct (idx_byte seg (4 + 1)) as (? & -> & _); [lia|done|].
    destruct (idx_byte seg (4 + 2)) as (? & -> & _); [lia|done|]. destruct (idx_byte seg (4 + 3)) as (? & -> & _); [lia|done|]. by eexists. }
  destruct (idx_byte seg 13) as (? & -> & _); [lia|done|]. destruct (idx_byte seg 12) as (off & -> & Ho); [lia|done|].
  cbn [mbind outcome_bind]. assert (0 ≤ Z.shiftr off 4) by (apply Z.shiftr_nonneg; unfold is_u in Ho; lia).
  destruct (Z.ltb_spec (len seg) (Z.shiftr off 4 * 4)); [done|]. by rewrite slice_tail by lia.
Qed.

(** A turn never makes another job a ping, nor a ping another job. *)
Definition stepped (ping : bool) (oj : JobOutcome * NetJob) : Prop :=
  outcome_ok oj.1 ∧ job_ok oj.2 ∧ is_ping oj.2 = ping ∧ (ping = true → ∀ j, oj.1 ≠ Replace j).

Lemma keeps_tcp_step ip port sp seq ack st rxbuf req d sseq fl payload s :
  keeps (tcp_step ip port sp seq ack st rxbuf req d sseq fl payload) s (stepped false).
Proof.
  unfold tcp_step. destruct (st =? 0).
  { destruct (_ =? _); [|by apply keeps_ret]. cbv zeta. eapply keeps_bind; [apply keeps_tcp_send|]. intros ? s1 _.
    eapply keeps_bind; [apply keeps_tcp_send|]. intros ? s2 _. by apply keeps_ret. }
  destruct (st =? 1); [|by apply keeps_ret]. eapply (keeps_bind _ _ _ (λ _, True)).
  { destruct payload; [by apply keeps_ret|]. eapply keeps_bind; [apply keeps_tcp_send|]. intros ? s1 _. by apply keeps_ret. }
  intros [rx' ack'] s1 _. destruct (negb _); [|by apply keeps_ret]. cbv zeta.
  eapply keeps_bind; [apply keeps_tcp_send|]. intros ? s2 _. by apply keeps_ret.
Qed.

Lemma keeps_tcp ip_hdr ip port sp seq ack st rxbuf req d s : 20 ≤ len ip_hdr → Forall is_byte ip_hdr →
  keeps (frame_tcp ip_hdr ip port sp seq ack st rxbuf req d) s (stepped false).
Proof.
  intros Hl Hb. unfold frame_tcp. cbv zeta.
  destruct (idx_byte ip_hdr 9) as (p & E & _); [lia|done|]. apply (keeps_lift_then _ _ _ _ _ E).
  destruct (ihl_ok ip_hdr Hl Hb) as (ihl & Ei & Hi). apply (keeps_lift_then _ _ _ _ _ Ei).
  destruct (p =? 1).
  { destruct (Z.ltb_spec ihl (len ip_hdr)); [|by apply keeps_ret].
    destruct (idx_byte ip_hdr ihl) as (t & Et & _); [lia|done|]. apply (keeps_lift_then _ _ _ _ _ Et). destruct (t =? 3); by apply keeps_ret. }
  destruct (negb _); [by apply keeps_ret|]. do 2 (eapply keeps_lift_then; [apply slice_ok; lia|]).
  destruct (_ || _); [by apply keeps_ret|].
  destruct (be16_ok ip_hdr 2) as (tot & Et & Ht); [lia|lia|done|]. apply (keeps_lift_then _ _ _ _ _ Et).
  eapply keeps_lift_then; [apply slice_ok; lia|]. set (body := sub _ _ ip_hdr). assert (Forall is_byte body) as Hbb by (by apply Forall_sub).
  clearbody body. destruct (Z.ltb_spec (len body) ihl); [by apply keeps_ret|]. eapply keeps_lift_then; [apply slice_tail; lia|].
  pose proof (tcp_parse_ok (drop (Z.to_nat ihl) body) ltac:(by apply Forall_drop)) as Hp.
  destruct (tcp_parse _) as [r|]; [|done]. eapply keeps_lift_then; [done|]. destruct r as [[[[[a b] c] e] g]|]; [|by apply keeps_ret].
  destruct (_ || _); [by apply keeps_ret|]. destruct (negb _); [by apply keeps_ret|]. apply keeps_tcp_step.
Qed.

Lemma keeps_process job f s : job_ok job → Forall is_byte f → (is_ping job = true → short_echo f = false) →
  keeps (process_frame job f) s (stepped (is_ping job)).
Proof.
  intros Hj Hb Hs. unfold process_frame. destruct (Z.ltb_spec (len f) 14); [by apply keeps_ret|].
  destruct (be16_ok f 12) as (ty & Et & _); [lia|lia|done|]. apply (keeps_lift_then _ _ _ _ _ Et).
  destruct (negb _); [by apply keeps_ret|]. eapply keeps_lift_then; [apply slice_tail; lia|].
  assert (Forall is_byte (drop (Z.to_nat 14) f)) as Hib by (by apply Forall_drop). set (ip := drop (Z.to_nat 14) f) in *. clearbody ip.
  destruct (Z.ltb_spec (len ip) 20); [by apply keeps_ret|]. destruct job as [t sq d|hn di sp tx d nx|ip' po sp sq ak st rb rq d|sp d].
  - eapply keeps_bind; [by apply keeps_frame, Hs|]. intros ? s1 _. eapply keeps_bind; [apply keeps_gets|]. intros got s2 _.
    case_bool_decide; by apply keeps_ret.
  - eapply keeps_bind; [apply keeps_resolve; [lia|done|exact Hj]|]. intros o s1 Ho. by apply keeps_ret.
  - by apply keeps_tcp; [lia|].
  - destruct (frame_udp_ok ip sp) as (o & Eo & Ho); [lia|done|]. apply (keeps_lift_then _ _ _ _ _ Eo). apply keeps_ret. split; [|done].
    destruct o as [| |j]; try done; by destruct (Ho j).
Qed.

(** A short echo request stops the kernel while a ping waits. *)
Lemma process_short job f s : is_ping job = true → Forall is_byte f → short_echo f = true → is_ok (process_frame job f s) = false.
Proof.
  intros Hp Hb Hs. pose proof (handle_frame_ok f s Hb) as Hok. rewrite Hs in Hok. cbn [negb] in Hok.
  destruct job as [t sq d| | |]; try done. unfold short_echo in Hs. cbv zeta in Hs.
  destruct (Z.leb_spec 34 (len f)) as [Hl|]; [|done]. cbn [andb] in Hs.
  destruct (bool_decide_reflect (f !! 12%nat = Some 8)) as [H12|]; [|done]. destruct (bool_decide_reflect (f !! 13%nat = Some 0)) as [H13|]; [|done].
  clear Hs. unfold process_frame. rewrite (proj2 (Z.ltb_ge (len f) 14)) by lia.
  unfold mbind, ST_bind at 1, lift at 1. erewrite (be16_some f 12) by (lia || done). change (8 * 256 + 0 =? 0x0800) with true. cbn [negb].
  unfold ST_bind at 1, lift at 1. rewrite slice_tail by lia.
  rewrite (proj2 (Z.ltb_ge (len (drop (Z.to_nat 14) f)) 20)) by (unfold len in *; rewrite length_drop; lia).
  unfold ST_bind at 1. by destruct (handle_frame f s).
Qed.

(** ** Polling a live ring *)

(** The frames the card has by its [n]-th turn to be asked, in order. *)
Definition supply (s : net) (n : nat) : list (list Z) :=
  match card s with Some c => rx c ++ concat (wire s <$> seq (recvs s) n) | None => [] end.

Definition slot_ok (s : net) : Prop := match NET_JOB s with Some (_, j) => job_ok j | None => True end.

(** Every frame, waiting or still to come, is a list of bytes. *)
Definition bytes_only (s : net) : Prop := Forall (Forall is_byte) (ring s) ∧ ∀ n, Forall (Forall is_byte) (wire s n).

(** A ping waits for its reply. *)
Definition ping_waits (s : net) : Prop := match NET_JOB s with Some (_, j) => is_ping j = true | None => False end.

Definition unharmful (l : list (list Z)) : Prop := Forall (λ f, short_echo f = false) l.

(** The same issuer's job, or no job, as before. *)
Definition same_issuer (s s' : net) : Prop :=
  match NET_JOB s, NET_JOB s' with
  | Some (i, _), Some (i', j) => i' = i ∧ job_ok j
  | None, None => True
  | _, _ => False
  end.

Lemma supply_0 s : supply s 0 = ring s.
Proof. unfold supply, ring. destruct (card s); [|done]. cbn. by rewrite app_nil_r. Qed.

Lemma supply_S s n : supply s (S n) = match card s with Some c => rx c ++ wire s (recvs s) ++ concat (wire s <$> seq (S (recvs s)) n) | None => [] end.
Proof. done. Qed.

Lemma supply_inbox s s' n : inbox s' = inbox s → supply s' n = supply s n.
Proof.
  unfold inbox, supply. intros [= E -> ->]. destruct (card s), (card s'); try done. cbn in E. injection E as ->. done.
Qed.

Lemma ring_inbox s s' : inbox s' = inbox s → ring s' = ring s.
Proof. intros E. by rewrite <- !supply_0, (supply_inbox _ _ _ E). Qed.

(** Asking for a frame takes the next one of the supply. *)
Lemma recv_spec s : wp nic_recv s (λ r s', NET_JOB s' = NET_JOB s ∧ wire s' = wire s ∧ recvs s' = S (recvs s) ∧
  match r with
  | None => supply s 1 = [] ∧ ring s' = []
  | Some f => (∀ n, supply s (S n) = f :: supply s' n) ∧ supply s 1 = f :: ring s'
  end).
Proof.
  unfold nic_recv, wp, ring, supply, card, pop_rx, set_nics. destruct (RTL8139 s) as [c|] eqn:E1.
  - destruct (rx c ++ wire s (recvs s)) as [|f l] eqn:E; cbn; (split_and!; try done).
    + by rewrite app_nil_r.
    + intros n. by rewrite app_assoc, E.
    + by rewrite app_nil_r.
  - destruct (E1000 s) as [c|] eqn:E2; [|by cbn; rewrite E1, E2].
    destruct (rx c ++ wire s (recvs s)) as [|f l] eqn:E; cbn; (split_and!; try done).
    + by rewrite app_nil_r.
    + intros n. by rewrite app_assoc, E.
    + by rewrite app_nil_r.
Qed.

Lemma bytes_recv s s' f : bytes_only s → wire s' = wire s → supply s 1 = f :: ring s' → Forall is_byte f ∧ bytes_only s'.
Proof.
  intros [Hr Hw] E1 E2. unfold ring, supply in *. destruct (card s) as [c|]; [|done]. cbn in E2. rewrite app_nil_r in E2.
  assert (Forall (Forall is_byte) (f :: match card s' with Some n => rx n | None => [] end)) as [? ?]%Forall_cons_iff.
  { rewrite <- E2. apply Forall_app. by split. }
  split; [done|]. split; [done|]. by rewrite E1.
Qed.

Lemma bytes_inbox s s' : inbox s' = inbox s → bytes_only s → bytes_only s'.
Proof. intros E [Hr Hw]. split; [by rewrite (ring_inbox _ _ E)|]. unfold inbox in E. injection E as _ -> _. done. Qed.

(** What the loop has done when it stops after some turns, or has used them all. *)
Definition drained (fuel : nat) (s : net) (res : outcome (option drain_end * net)) : Prop :=
  match res with
  | Panic _ => ping_waits s ∧ ∃ taken f rest, (length taken < fuel)%nat ∧
      supply s (S (length taken)) = taken ++ f :: rest ∧ unharmful taken ∧ short_echo f = true
  | Ok (r, s') => (recvs s ≤ recvs s' ≤ recvs s + fuel)%nat ∧ ∃ taken, (ping_waits s → unharmful taken) ∧
      supply s (recvs s' - recvs s) = taken ++ ring s' ∧
      match r with
      | None => length taken = fuel ∧ same_issuer s s' ∧ ∀ n, (n ≤ fuel)%nat → (n ≤ length (supply s n))%nat
      | Some Empty => ring s' = [] ∧ same_issuer s s' ∧ is_Some (NET_JOB s)
      | Some (Return None) => NET_JOB s = None ∧ s' = s
      | Some (Return (Some (i, _))) => fst <$> NET_JOB s = Some i ∧ NET_JOB s' = None
      end
  end.

(** One turn that took a frame, put in front of what the rest of the loop does. *)
Lemma drained_turn fuel s s1 s2 issuer job job' f res :
  NET_JOB s = Some (issuer, job) → (∀ n, supply s (S n) = f :: supply s1 n) → inbox s2 = inbox s1 → recvs s1 = S (recvs s) →
  NET_JOB s2 = Some (issuer, job') → is_ping job' = is_ping job → (is_ping job = true → short_echo f = false) →
  drained fuel s2 res → drained (S fuel) s res.
Proof.
  intros Ej Hsup Ein Er Ej2 Ep Hs Hd. assert (recvs s2 = S (recvs s)) as Er2 by (unfold inbox in Ein; injection Ein as _ _ ->; done).
  assert (∀ n, supply s (S n) = f :: supply s2 n) as Hsup2 by (intros n; by rewrite Hsup, (supply_inbox _ _ _ Ein)).
  unfold drained, ping_waits, same_issuer in *. rewrite Ej, Ej2 in *. rewrite Ep in Hd. destruct res as [[r s']|].
  - destruct Hd as (Hrc & taken & Ht & Hsp & Hr). split; [lia|]. exists (f :: taken).
    split; [intros Hp; constructor; [by apply Hs|by apply Ht]|].
    replace (recvs s' - recvs s)%nat with (S (recvs s' - recvs s2))%nat by lia. split; [by rewrite Hsup2, Hsp|].
    destruct r as [[|[[i m]|]]|].
    + destruct Hr as (? & ? & ?). split; [done|]. split; [done|by eexists].
    + done.
    + destruct Hr as [? _]. done.
    + destruct Hr as (Hl & Hi & Hn). split; [cbn; lia|]. split; [done|]. intros [|n] Hle; [cbn; lia|]. rewrite Hsup2. cbn [length].
      specialize (Hn n ltac:(lia)). lia.
  - destruct Hd as (Hp & taken & g & rest & Hl & Hsp & Hu & Hg). split; [done|]. exists (f :: taken), g, rest. cbn [length].
    split; [lia|]. rewrite Hsup2, Hsp. split; [done|]. split; [|done]. constructor; [by apply Hs|done].
Qed.

Lemma drain_turn_none fuel s : NET_JOB s = None → drained (S fuel) s (drain (S fuel) s).
Proof.
  intros Ej. cbn [drain]. unfold mbind, ST_bind, get. rewrite Ej. cbn. split; [lia|]. exists [].
  rewrite Nat.sub_diag, supply_0. split_and!; try done. intros _. by apply Forall_nil.
Qed.

Lemma drain_spec fuel s : bytes_only s → slot_ok s → drained fuel s (drain fuel s).
Proof.
  revert s. induction fuel as [|fuel IH]; intros s Hb Hj.
  { cbn. split; [lia|]. exists []. rewrite Nat.sub_diag, supply_0. split_and!; try done; [intros _; by apply Forall_nil| |].
    - unfold same_issuer, slot_ok in *. by destruct (NET_JOB s) as [[i j]|].
    - intros n. lia. }
  destruct (NET_JOB s) as [[issuer job]|] eqn:Ej; [|by apply drain_turn_none].
  cbn [drain]. unfold mbind, ST_bind at 1, get at 1. rewrite Ej. unfold slot_ok in Hj. rewrite Ej in Hj.
  pose proof (recv_spec s) as Hrv. apply wp_inv in Hrv as (fr & s1 & Erv & J1 & W1 & R1 & Hrv). unfold ST_bind at 1. rewrite Erv.
  destruct fr as [f|].
  2:{ destruct Hrv as [Hsp Hr]. cbn. split; [lia|]. exists []. replace (recvs s1 - recvs s)%nat with 1%nat by lia. rewrite Hsp, Hr.
      split; [intros _; by apply Forall_nil|]. split; [done|]. split; [done|]. split; [|by rewrite Ej].
      unfold same_issuer. by rewrite J1, Ej. }
  destruct Hrv as [Hsup Hsp]. destruct (bytes_recv s s1 f Hb W1 Hsp) as [Hfb Hb1].
  destruct (is_ping job && short_echo f) eqn:Eps.
  { apply andb_prop in Eps as [Hp Hsf]. pose proof (process_short job f s1 Hp Hfb Hsf) as Hpan. unfold ST_bind at 1.
    destruct (process_frame job f s1); [done|]. split; [unfold ping_waits; by rewrite Ej|].
    exists [], f, (ring s1). cbn [length]. split_and!; try done; [lia|by apply Forall_nil]. }
  assert (is_ping job = true → short_echo f = false) as Hs by (intros Hp; by rewrite Hp in Eps).
  pose proof (keeps_process job f s1 Hj Hfb Hs) as Hpr. apply wp_inv in Hpr as ([o job'] & s2 & Epr & (Ho & Hj' & Hp' & Hrep) & I2 & J2).
  cbn [fst snd] in *. unfold ST_bind at 1. rewrite Epr. destruct o as [|msg|newjob]; unfold ST_bind, modify.
  - eapply (drained_turn fuel s s1 (set_job (Some (issuer, job')) s2) issuer job job' f); try done. apply IH; [by apply (bytes_inbox s1)|done].
  - split; [cbn; unfold inbox in I2; injection I2 as _ _ ->; lia|]. exists [f]. cbn [recvs set_job].
    assert (recvs s2 = recvs s1) as -> by (unfold inbox in I2; by injection I2). replace (recvs s1 - recvs s)%nat with 1%nat by lia.
    split; [intros Hp; repeat constructor; apply Hs; unfold ping_waits in Hp; by rewrite Ej in Hp|].
    split; [rewrite Hsp; unfold ring, card, set_job; cbn; f_equal; symmetry; exact (ring_inbox _ _ I2)|]. by rewrite Ej.
  - destruct Ho as [Hnj Hnp]. assert (is_ping job = false) as Hnot by (destruct (is_ping job); [by destruct (Hrep eq_refl newjob)|done]).
    eapply (drained_turn fuel s s1 (set_job (Some (issuer, newjob)) s2) issuer job newjob f); try done; [by rewrite Hnp|].
    apply IH; [by apply (bytes_inbox s1)|done].
Qed.

Lemma poll_deadline_spec s issuer job : NET_JOB s = Some (issuer, job) → wp poll_deadline s (λ r s', ring s' = ring s ∧ recvs s' = recvs s ∧
  match r with
  | Some (i, _) => i = issuer ∧ NET_JOB s' = None
  | None => NET_JOB s' = Some (issuer, job) ∧ U64_MAX / 2 ≤ u64 (u64 (clock s' (Nat.pred (reads s'))) - job_deadline job)
  end).
Proof.
  intros Ej. unfold poll_deadline. apply wp_bind. unfold get at 1, wp at 1. rewrite Ej.
  apply wp_bind. unfold tsc_expired. apply wp_bind. unfold rdtsc at 1, wp at 1. cbv beta iota. apply wp_ret. cbv beta.
  destruct (Z.ltb_spec (u64 (u64 (clock s (reads s)) - job_deadline job)) (U64_MAX / 2)) as [Hlt|Hge].
  - apply wp_bind. unfold modify, wp at 1. by apply wp_ret.
  - apply wp_ret. cbn [NET_JOB reads clock Nat.pred]. done.
Qed.

(** C21: Polling while frames go on arriving. In any number of turns the loop takes
    frames in the order they reached the card, and either it has ended, or every turn
    so far found a frame: it runs on exactly as long as the network keeps up with it.
    When [poll] returns a message, that message is for the issuer of the job and the
    job is gone; when it returns none while a job waits, the ring is empty and the
    same issuer's job is still there, its deadline not passed; without a job it
    touches nothing. It panics exactly when it takes an echo request of fewer than
    four bytes while a ping waits. A queued UDP message is assumed to fit a datagram. *)
Theorem poll_delivers_once fuel s (Hbytes : bytes_only s) (Hjob : slot_ok s) :
  match poll fuel s with
  | Panic _ => ping_waits s ∧ ∃ taken f rest, (length taken < fuel)%nat ∧
      supply s (S (length taken)) = taken ++ f :: rest ∧ unharmful taken ∧ short_echo f = true
  | Ok (r, s') => (recvs s ≤ recvs s' ≤ recvs s + fuel)%nat ∧ ∃ taken, (ping_waits s → unharmful taken) ∧
      supply s (recvs s' - recvs s) = taken ++ ring s' ∧
      match r with
      | None => length taken = fuel ∧ same_issuer s s' ∧ ∀ n, (n ≤ fuel)%nat → (n ≤ length (supply s n))%nat
      | Some r =>
        match NET_JOB s, r with
        | None, _ => r = None ∧ s' = s
        | Some (issuer, _), Some (i, _) => i = issuer ∧ NET_JOB s' = None
        | Some (issuer, _), None => ring s' = [] ∧ ∃ job, NET_JOB s' = Some (issuer, job) ∧ job_ok job ∧
            U64_MAX / 2 ≤ u64 (u64 (clock s' (Nat.pred (reads s'))) - job_deadline job)
        end
      end
  end.
Proof.
  pose proof (drain_spec fuel s Hbytes Hjob) as Hd. unfold poll, mbind, ST_bind at 1. unfold drained in Hd.
  destruct (drain fuel s) as [[r s1]|]; [|done]. destruct Hd as (Hrc & taken & Ht & Hsp & Hr). destruct r as [[|r]|].
  - destruct Hr as (Hrg & Hsi & [[issuer job] Ej]). unfold same_issuer in Hsi. rewrite Ej in Hsi.
    destruct (NET_JOB s1) as [[i1 j1]|] eqn:Ej1; [|done]. destruct Hsi as [-> Hj1].
    pose proof (poll_deadline_spec s1 issuer j1 Ej1) as Hp. apply wp_inv in Hp as (r & s2 & E2 & R2 & C2 & Hr).
    unfold ST_bind. rewrite E2. cbn [mret ST_ret]. rewrite C2, R2. split; [done|]. exists taken. split; [done|]. split; [done|].
    rewrite Ej. destruct r as [[i m]|]; [done|]. destruct Hr as [? ?]. split; [done|]. exists j1. done.
  - cbn [mret ST_ret]. split; [done|]. exists taken. split; [done|]. split; [done|]. destruct r as [[i m]|].
    + destruct Hr as [Hi Hn]. destruct (NET_JOB s) as [[i' j]|]; [|done]. by injection Hi as ->.
    + destruct Hr as [-> ->]. done.
  - cbn [mret ST_ret]. split; [done|]. exists taken. done.
Qed.

(** A network that delivers an unrelated frame before every turn keeps the loop, and
    with it the whole desktop, going for ever. *)
Lemma poll_livelock fuel mc : is_ok (poll fuel (mkNet (Some (mkNic mc [] [])) None 0 None 49152 (Some (1%nat, Udp 51000 5)) 1 (λ _, 0) 0 (λ _, [[]]) 0)) = true ∧
  ∀ r s', poll fuel (mkNet (Some (mkNic mc [] [])) None 0 None 49152 (Some (1%nat, Udp 51000 5)) 1 (λ _, 0) 0 (λ _, [[]]) 0) = Ok (r, s') → r = None.
Proof.
  assert (∀ n k, ∃ s', drain n (mkNet (Some (mkNic mc [] [])) None 0 None 49152 (Some (1%nat, Udp 51000 5)) 1 (λ _, 0) 0 (λ _, [[]]) k) = Ok (None, s')) as H.
  { induction n as [|n IH]; intros k; [by eexists|]. exact (IH (S k)). }
  unfold poll, mbind, ST_bind. destruct (H fuel 0%nat) as [s' ->]. split; [done|]. by intros r s1 [= <- _].
Qed.

(** ** The theorems at concrete inputs *)

Definition net0 (frames : list (list Z)) (job : option (nat * NetJob)) : net :=
  mkNet (Some (mkNic [0x52; 0x54; 0; 1; 2; 3] [] frames)) None 0 None 49152 job 1000000 (λ n, 1000 * Z.of_nat n) 0 (λ _, []) 0.

Lemma tcp_send_roundtrip_witness :
  ∃ f, tcp_parse (drop 34 f) = Ok (Some (49152, 80, 7, TCP_ACK, [1; 2; 3])) ∧ be32_at (drop 34 f) 8 = Ok 9.
Proof.
  pose proof (tcp_send_roundtrip [93; 184; 216; 34] GW_MAC 49152 80 7 9 TCP_ACK [1; 2; 3] (net0 [] None)
    ltac:(split; [done|repeat constructor; unfold is_u; lia]) eq_refl ltac:(by eexists) eq_refl
    ltac:(unfold is_u; lia) ltac:(unfold is_u; lia) ltac:(unfold is_u; lia) ltac:(unfold is_u; lia) ltac:(unfold is_u, TCP_ACK; lia)
    ltac:(repeat constructor; unfold is_u; lia) ltac:(unfold len; cbn; lia)) as H.
  apply wp_inv in H as (u & s' & _ & f & _ & _ & _ & _ & H). exists f. cbv zeta in H.
  rewrite drop_drop in H. destruct H as (_ & _ & _ & _ & _ & _ & _ & Ha & _ & Hp). exact (conj Hp Ha).
Defined.

(** An echo request of two bytes, addressed to us. *)
Definition short_ping : list Z :=
  replicate 12 0 ++ [0x08; 0x00] ++ [0x45; 0; 0; 22; 0; 0; 0; 0; 64; 1; 0; 0; 10; 0; 2; 2] ++ MY_IP ++ [8; 0].

Lemma handle_frame_panics_iff_witness : is_ok (handle_frame short_ping (net0 [] None)) = false.
Proof.
  exact (handle_frame_panics_iff short_ping (net0 [] None) ltac:(repeat constructor; unfold is_u; lia)).
Defined.

Lemma dns_answer_roundtrip_witness :
  parse_dns_answer ([1; 2; 0x81; 0x80; 0; 1; 0; 1; 0; 0; 0; 0] ++ encode_labels (txt "hep.os") ++ [0] ++ [0; 1; 0; 1] ++
    [0xC0; 0x0C; 0; 1; 0; 1] ++ [0; 0; 1; 0] ++ [0; 4] ++ [10; 0; 2; 9] ++ []) = Ok (Some [10; 0; 2; 9]).
Proof.
  refine (proj2 (dns_answer_roundtrip [1; 2; 0x81; 0x80; 0; 1; 0; 1; 0; 0; 0; 0] (txt "hep.os") [0; 1; 0; 1] [0; 0; 1; 0]
    [10; 0; 2; 9] [] eq_refl ltac:(vm_compute; discriminate) _ _ eq_refl eq_refl eq_refl)).
  - cbn. repeat constructor; unfold is_u; lia.
  - replace (filter (λ l, l ≠ []) (split_on 0x2E (txt "hep.os"))) with [txt "hep"; txt "os"] by (vm_compute; reflexivity).
    repeat constructor; cbn; lia.
Defined.

Lemma ports_cycle_witness : wp (draw_ports 3) (net0 [] None) (λ ps _, ps = [49152; 49153; 49154]).
Proof. exact (ports_cycle 3 (net0 [] None) eq_refl). Defined.

(** One frame waiting, none to come: two turns end the poll. *)
Lemma poll_delivers_once_witness :
  ∃ s', poll 2 (net0 [replicate 60 0] (Some (1%nat, Udp 51000 5))) = Ok (Some None, s') ∧ ring s' = [] ∧ NET_JOB s' = Some (1%nat, Udp 51000 5).
Proof.
  pose proof (poll_delivers_once 2 (net0 [replicate 60 0] (Some (1%nat, Udp 51000 5)))
    ltac:(split; [apply Forall_singleton, Forall_replicate; unfold is_u; lia|intros n; apply Forall_nil; exact I]) I) as H.
  destruct (poll 2 (net0 [replicate 60 0] (Some (1%nat, Udp 51000 5)))) as [[r s']|] eqn:E; [|vm_compute in E; discriminate].
  exists s'. assert (r = Some None) as -> by (vm_compute in E; injection E; congruence).
  destruct H as (_ & taken & _ & _ & Hr & job & Hj & _ & _). split; [reflexivity|]. split; [exact Hr|].
  vm_compute in E. injection E as <-. reflexivity.
Defined.
