(* ===== verification/Syscall.v ===== *)
(** System calls ([kernel/src/syscall.rs]): the dispatcher, the hardware grants,
    the user pointers, and the file-system and service jobs.

    [gate] holds the module's statics with what the handlers reach: the processes
    and the machine, the disk controller, the keyboard ring and the mouse. The
    spin locks are held or free; [try_lock] fails on a held one, which is how a
    handler (interrupts off) meets a task that was preempted inside its critical
    section. Where a handler waits for a lock, the model runs from the moment it
    has it. [None] from a handler: it did not return to its caller.

    The entry stub is in [Runtime], with the calls that reach it; the MSRs and the
    port instructions are hardware. Parameters: what an input port answers, whether
    CR0.WP is set (no source sets it), what happens until a waited-for interrupt, and the drivers' start and stop. *)

From stdpp Require Import prelude list numbers strings.
From S2P Require Import Prelude Text Pmm Hepfs Input Memory Paging Elf Process.

Local Open Scope Z_scope.

Definition SYS_WRITE : Z := 1.
Definition SYS_EXIT : Z := 60.
Definition SYS_GETPID : Z := 39.
Definition SYS_MMAP_MMIO : Z := 500.
Definition SYS_PORT_IN : Z := 501.
Definition SYS_PORT_OUT : Z := 502.
Definition SYS_WAIT_IRQ : Z := 503.
Definition SYS_MMAP_ANON : Z := 504.
Definition SYS_INPUT_STATE : Z := 505.
Definition SYS_FS_LIST_DIR : Z := 506.
Definition SYS_FS_READ_FILE : Z := 507.
Definition SYS_FS_WRITE_FILE : Z := 508.
Definition SYS_FS_CREATE : Z := 509.
Definition SYS_FS_POLL : Z := 510.
Definition SYS_SERVICE_CTL : Z := 511.
Definition SYS_SERVICE_POLL : Z := 512.
Definition SYS_SPAWN_BYTES : Z := 513.

Definition ENOSYS : Z := -38.
Definition EBADF : Z := -9.
Definition EPERM : Z := -1.
Definition EAGAIN : Z := -11.
Definition EBUSY : Z := -16.
Definition ENOENT : Z := -2.
Definition ENOTDIR : Z := -20.
Definition EISDIR : Z := -21.

Definition ALLOWED_PORTS : list (Z * Z) := [(0x70, 0x71)].
Definition ALLOWED_MMIO : list (Z * Z) := [(0xFEE00000, 0xFEE01000)].

(** ** Data *)

Inductive FsOp := ListDir | ReadFile | WriteFile (data : list Z) | Create (is_dir : bool).

Record FsJob := mkFsJob { op : FsOp; path : list Z; done : bool; result : Z; out_data : list Z }.
Record SvcJob := mkSvcJob { svc_name : string; start : bool; svc_done : bool; svc_result : Z }.

Inductive lock := FsLock | SvcLock | MouseLock | KeyLock | CtrlLock.
#[global] Instance lock_eq_dec : EqDecision lock.
Proof. solve_decision. Defined.

Inductive SvcAction := Status | Start | Stop | Enable | Disable.

Definition service_name (id : Z) : option string :=
  if id =? 0 then Some "rtl8139d"%string else if id =? 1 then Some "hdad"%string
  else if id =? 2 then Some "ahcid"%string else if id =? 3 then Some "xhcid"%string else None.

Definition parse_svc_action (a : Z) : option SvcAction :=
  if a =? 0 then Some Status else if a =? 1 then Some Start else if a =? 2 then Some Stop
  else if a =? 3 then Some Enable else if a =? 4 then Some Disable else None.

Definition in_ranges (l : list (Z * Z)) (lo_ hi_ : Z) : bool := existsb (λ '(lo, hi), (lo <=? lo_) && (hi_ <=? hi)) l.

(** [rfind]: the last position of a byte. *)
Fixpoint rfind (c : Z) (l : list Z) : option nat :=
  match l with
  | [] => None
  | x :: l => match rfind c l with Some i => Some (S i) | None => if x =? c then Some O else None end
  end.

Definition split_path (p : list Z) : list Z * list Z :=
  match rfind 0x2F p with Some i => (take i p, drop (S i) p) | None => ([], p) end.

(** [#[repr(C)] InputStateOut] and [DirEntryOut] as bytes. *)
Definition input_state_out (valid x y btn count : Z) (ks : list Z) : list Z :=
  le_bytes 4 valid ++ le_bytes 4 (u32 x) ++ le_bytes 4 (u32 y) ++ le_bytes 4 btn ++ le_bytes 4 count ++
  ks ++ replicate (16 - length ks) 0.

Definition dir_entry_out (e : Z * list Z) : list Z :=
  let '(ino, nm) := e in
  let n := Nat.min (length nm) 60 in
  le_bytes 4 ino ++ le_bytes 4 (Z.of_nat n) ++ take n nm ++ replicate (60 - n) 0.

(** ** Pointers from user space

    The kernel follows them in the caller's address space with supervisor rights:
    4 KiB pages as [walk] does, and the large pages the loader may have mapped. *)

Fixpoint resolve_from (m : memory) (a : Z) (path : list (Z * Z)) (va : Z) (w : bool) : option (Z * bool) :=
  match path with
  | [] => Some (a + va mod 4096, w)
  | (i, sh) :: path =>
    let e := read64 m (a + 8 * i) in
    let w := w && negb (Z.land e WRITE =? 0) in
    if negb (present e) then None
    else if (12 <? sh) && negb (Z.land e PS =? 0) then
      if sh =? 39 then None else Some (entry_addr e - entry_addr e mod 2 ^ sh + va mod 2 ^ sh, w)
    else resolve_from m (entry_addr e) path va w
  end.

Definition canonical (va : Z) : bool := (va <? 2 ^ 47) || (2 ^ 64 - 2 ^ 47 <=? va).

Definition resolve (m : memory) (root va : Z) : option (Z * bool) :=
  if canonical va then resolve_from m root [(i4 va, 39); (i3 va, 30); (i2 va, 21); (i1 va, 12)] va true else None.

Section gate.
Context {D : Type} `{!Drive D}.

Record gate := mkGate {
  procs_of : procs;
  DYNAMIC_PORTS : list (Z * Z);
  DYNAMIC_MMIO : list (Z * Z);
  FS_JOB : option FsJob;
  SVC_JOB : option SvcJob;
  ENABLED : string → bool;
  CONTROLLER : option D;
  HEPFS_GENERATION : Z;
  MOUSE : MouseState;
  KEYS : kbd;
  held : lock → bool;
  serial : list Z;
  port_writes : list (Z * Z * Z) }.

Definition set_procs (p : procs) (s : gate) : gate :=
  mkGate p (DYNAMIC_PORTS s) (DYNAMIC_MMIO s) (FS_JOB s) (SVC_JOB s) (ENABLED s) (CONTROLLER s) (HEPFS_GENERATION s) (MOUSE s) (KEYS s) (held s) (serial s) (port_writes s).
Definition set_grants (p m : list (Z * Z)) (s : gate) : gate :=
  mkGate (procs_of s) p m (FS_JOB s) (SVC_JOB s) (ENABLED s) (CONTROLLER s) (HEPFS_GENERATION s) (MOUSE s) (KEYS s) (held s) (serial s) (port_writes s).
Definition set_fs_job (j : option FsJob) (s : gate) : gate :=
  mkGate (procs_of s) (DYNAMIC_PORTS s) (DYNAMIC_MMIO s) j (SVC_JOB s) (ENABLED s) (CONTROLLER s) (HEPFS_GENERATION s) (MOUSE s) (KEYS s) (held s) (serial s) (port_writes s).
Definition set_svc_job (j : option SvcJob) (s : gate) : gate :=
  mkGate (procs_of s) (DYNAMIC_PORTS s) (DYNAMIC_MMIO s) (FS_JOB s) j (ENABLED s) (CONTROLLER s) (HEPFS_GENERATION s) (MOUSE s) (KEYS s) (held s) (serial s) (port_writes s).
Definition set_enabled (e : string → bool) (s : gate) : gate :=
  mkGate (procs_of s) (DYNAMIC_PORTS s) (DYNAMIC_MMIO s) (FS_JOB s) (SVC_JOB s) e (CONTROLLER s) (HEPFS_GENERATION s) (MOUSE s) (KEYS s) (held s) (serial s) (port_writes s).
Definition set_disk (c : option D) (g : Z) (s : gate) : gate :=
  mkGate (procs_of s) (DYNAMIC_PORTS s) (DYNAMIC_MMIO s) (FS_JOB s) (SVC_JOB s) (ENABLED s) c g (MOUSE s) (KEYS s) (held s) (serial s) (port_writes s).
Definition set_keys (k : kbd) (s : gate) : gate :=
  mkGate (procs_of s) (DYNAMIC_PORTS s) (DYNAMIC_MMIO s) (FS_JOB s) (SVC_JOB s) (ENABLED s) (CONTROLLER s) (HEPFS_GENERATION s) (MOUSE s) k (held s) (serial s) (port_writes s).
Definition set_io (o : list Z) (w : list (Z * Z * Z)) (s : gate) : gate :=
  mkGate (procs_of s) (DYNAMIC_PORTS s) (DYNAMIC_MMIO s) (FS_JOB s) (SVC_JOB s) (ENABLED s) (CONTROLLER s) (HEPFS_GENERATION s) (MOUSE s) (KEYS s) (held s) o w.

(** Operations of the processes, the machine, the keyboard and the file system
    inside the gate. HepFS takes its frames from the one allocator. *)
Definition on_procs {A} (c : ST procs A) : ST gate A := λ s,
  '(a, p) ← c (procs_of s); Ok (a, set_procs p s).
Definition on_mach {A} (c : ST (mach pmm) A) : ST gate A := on_procs (on_machine c).
Definition on_keys {A} (c : ST kbd A) : ST gate A := λ s, '(a, k) ← c (KEYS s); Ok (a, set_keys k s).

Definition disk_fs (d : D) (s : gate) : fs D pmm := mkFs d (frames (mach_of (procs_of s))) (HEPFS_GENERATION s).
Definition on_disk {A} (d : D) (c : ST (fs D pmm) A) : ST gate A := λ s,
  '(a, f) ← c (disk_fs d s);
  Ok (a, set_disk (Some (Hepfs.dev f)) (Hepfs.GENERATION f)
           (set_procs (set_mach (set_frames (Hepfs.frames f) (mach_of (procs_of s))) (procs_of s)) s)).

Section calls.
Context (cr0_wp : bool) (port_in : Z → Z → ST gate Z) (block_on_irq : Z → ST gate unit)
        (drive_service : string → bool → ST gate bool).

(** A pointer that does not resolve faults in the kernel, and an exception there
    stops the machine ([idt.rs]). *)
Fixpoint user_load (va : Z) (n : nat) : ST (mach pmm) (list Z) :=
  match n with
  | O => mret []
  | S n =>
    m ← get;
    match resolve (ram m) (cr3 m) va with
    | None => panic "KERNEL EXCEPTION: Page Fault"
    | Some (pa, _) => l ← user_load (u64 (va + 1)) n; mret (ram m pa :: l)
    end
  end.

Fixpoint user_store (va : Z) (l : list Z) : ST (mach pmm) unit :=
  match l with
  | [] => mret tt
  | b :: l =>
    m ← get;
    match resolve (ram m) (cr3 m) va with
    | Some (pa, w) =>
      if cr0_wp && negb w then panic "KERNEL EXCEPTION: Page Fault"
      else put (set_ram (Memory.poke (ram m) pa [b]) m) ≫= λ _, user_store (u64 (va + 1)) l
    | None => panic "KERNEL EXCEPTION: Page Fault"
    end
  end.

(** ** Grants *)

Definition grant_port_range (lo hi : Z) : ST gate unit := modify (λ s, set_grants (DYNAMIC_PORTS s ++ [(lo, hi)]) (DYNAMIC_MMIO s) s).
Definition grant_mmio_range (phys n : Z) : ST gate unit :=
  modify (λ s, set_grants (DYNAMIC_PORTS s) (DYNAMIC_MMIO s ++ [(phys, u64 (phys + n))]) s).

Definition port_allowed (port : Z) (s : gate) : bool := in_ranges ALLOWED_PORTS port port || in_ranges (DYNAMIC_PORTS s) port port.

(** [checked_add], then containment in one range. *)
Definition mmio_allowed (phys n : Z) (s : gate) : bool :=
  if 2 ^ 64 <=? phys + n then false
  else in_ranges ALLOWED_MMIO phys (phys + n) || in_ranges (DYNAMIC_MMIO s) phys (phys + n).

(** ** The handlers *)

Definition sys_write (fd buf n : Z) : ST gate Z :=
  if negb (fd =? 1) && negb (fd =? 2) then mret (u64 EBADF)
  else
    let count := Z.min n 4096 in
    if count =? 0 then mret 0
    else
      bytes ← on_mach (user_load buf (Z.to_nat count));
      modify (λ s, set_io (serial s ++ bytes) (port_writes s) s) ≫= λ _,
      on_procs (proc_write bytes) ≫= λ _, mret count.

Definition sys_exit (code : Z) : ST gate (option Z) :=
  running ← on_procs is_user_running;
  if (running : bool) then on_procs (do_exit code) ≫= λ _, mret None
  else modify (λ s, set_io (serial s ++ txt "sys_exit: no process running" ++ [0x0A]) (port_writes s) s) ≫= λ _, mret (Some (u64 ENOSYS)).

Definition sys_mmap_mmio (phys n : Z) : ST gate Z :=
  s ← get;
  if negb (mmio_allowed phys n s) then mret 0 else on_procs (map_mmio_for_user phys n).

Definition sys_port_in (port width : Z) : ST gate Z :=
  s ← get;
  let port := u16 port in
  if negb (port_allowed port s) then mret (u64 EPERM)
  else if width =? 1 then v ← port_in port 1; mret (u8 v)
  else if width =? 2 then v ← port_in port 2; mret (u16 v)
  else if width =? 4 then v ← port_in port 4; mret (u32 v)
  else mret (u64 ENOSYS).

Definition port_out (port width v : Z) : ST gate unit := modify (λ s, set_io (serial s) (port_writes s ++ [(port, width, v)]) s).

Definition sys_port_out (port width val : Z) : ST gate Z :=
  s ← get;
  let port := u16 port in
  if negb (port_allowed port s) then mret (u64 EPERM)
  else if width =? 1 then port_out port 1 (u8 val) ≫= λ _, mret 0
  else if width =? 2 then port_out port 2 (u16 val) ≫= λ _, mret 0
  else if width =? 4 then port_out port 4 (u32 val) ≫= λ _, mret 0
  else mret (u64 ENOSYS).

Definition sys_wait_irq (vector : Z) : ST gate Z := block_on_irq (u8 vector) ≫= λ _, mret 0.

(** [while key_count < 16]: keys until the ring is empty or its lock is held. *)
Fixpoint drain_keys (n : nat) (busy : bool) : ST kbd (list Z) :=
  match n with
  | O => mret []
  | S n => o ← try_read_char busy; match o with Some c => l ← drain_keys n busy; mret (u8 c :: l) | None => mret [] end
  end.

Definition sys_input_state (buf : Z) : ST gate Z :=
  if buf =? 0 then mret 0
  else
    s ← get;
    let '(valid, x, y, btn) := if held s MouseLock then (0, 0, 0, 0) else (1, mx (MOUSE s), my (MOUSE s), buttons (MOUSE s)) in
    ks ← on_keys (drain_keys 16 (held s KeyLock));
    on_mach (user_store buf (input_state_out valid x y btn (len ks) ks)) ≫= λ _, mret (len ks).

(** ** File-system jobs *)

Definition read_user_path (ptr n : Z) : ST gate (option (list Z)) :=
  if (ptr =? 0) || (n =? 0) || (256 <? n) then mret None
  else bytes ← on_mach (user_load ptr (Z.to_nat n)); mret (if Text.utf8_valid bytes then Some bytes else None).

(** [None]: queued; otherwise the error. *)
Definition submit_fs_job (o : FsOp) (p : list Z) : ST gate (option Z) :=
  s ← get;
  if held s FsLock then mret (Some EAGAIN)
  else match FS_JOB s with
  | Some _ => mret (Some EBUSY)
  | None => put (set_fs_job (Some (mkFsJob o p false 0 [])) s) ≫= λ _, mret None
  end.

Definition status_of (e : option Z) : Z := match e with None => 0 | Some e => u64 e end.

Definition sys_fs_list_dir (path_ptr path_len : Z) : ST gate Z :=
  p ← read_user_path path_ptr path_len;
  match p with None => mret (u64 EAGAIN) | Some p => e ← submit_fs_job ListDir p; mret (status_of e) end.

Definition sys_fs_read_file (path_ptr path_len : Z) : ST gate Z :=
  p ← read_user_path path_ptr path_len;
  match p with None => mret (u64 EAGAIN) | Some p => e ← submit_fs_job ReadFile p; mret (status_of e) end.

Definition sys_fs_write_file (path_ptr path_len data_ptr data_len : Z) : ST gate Z :=
  p ← read_user_path path_ptr path_len;
  match p with
  | None => mret (u64 EAGAIN)
  | Some p =>
    if (data_ptr =? 0) && negb (data_len =? 0) then mret (u64 EAGAIN)
    else data ← on_mach (user_load data_ptr (Z.to_nat data_len)); e ← submit_fs_job (WriteFile data) p; mret (status_of e)
  end.

Definition sys_fs_create (path_ptr path_len is_dir : Z) : ST gate Z :=
  p ← read_user_path path_ptr path_len;
  match p with None => mret (u64 EAGAIN) | Some p => e ← submit_fs_job (Create (negb (is_dir =? 0))) p; mret (status_of e) end.

Definition sys_fs_poll (out_ptr out_cap : Z) : ST gate Z :=
  s ← get;
  if held s FsLock then mret (u64 EAGAIN)
  else match FS_JOB s with
  | None => mret (u64 ENOENT)
  | Some job =>
    if negb (done job) then mret (u64 EBUSY)
    else
      (if negb (out_ptr =? 0) && negb (out_cap =? 0)
       then on_mach (user_store out_ptr (take (Z.to_nat (Z.min (len (out_data job)) out_cap)) (out_data job)))
       else mret tt) ≫= λ _,
      modify (set_fs_job None) ≫= λ _, mret (u64 (result job))
  end.

Definition has_pending_job (s : gate) : bool :=
  match FS_JOB s with Some j => negb (done j) | None => false end ||
  match SVC_JOB s with Some j => negb (svc_done j) | None => false end.

(** The work of a job on the disk: the result and the output bytes it leaves. *)
Definition run_list_dir (p : list Z) : ST (fs D pmm) (Z * list Z) :=
  o ← Hepfs.lookup p;
  match o with
  | None => mret (ENOENT, [])
  | Some dir_ino =>
    '(is_dir, _) ← stat dir_ino;
    if negb is_dir then mret (ENOTDIR, [])
    else es ← list_dir dir_ino; mret (len es, concat (dir_entry_out <$> es))
  end.

Definition run_read_file (p : list Z) : ST (fs D pmm) (Z * list Z) :=
  o ← Hepfs.lookup p;
  match o with
  | None => mret (ENOENT, [])
  | Some ino =>
    '(is_dir, _) ← stat ino;
    if (is_dir : bool) then mret (EISDIR, []) else data ← read_file ino; mret (len data, data)
  end.

Definition run_write_file (data p : list Z) : ST (fs D pmm) (Z * list Z) :=
  o ← Hepfs.lookup p;
  match o with
  | Some ino =>
    '(is_dir, _) ← stat ino;
    if (is_dir : bool) then mret (EISDIR, []) else write_file ino data ≫= λ _, mret (len data, [])
  | None =>
    let '(parent, nm) := split_path p in
    po ← Hepfs.lookup parent;
    match po with
    | None => mret (ENOENT, [])
    | Some parent_ino => ino ← create_file parent_ino nm; write_file ino data ≫= λ _, mret (len data, [])
    end
  end.

Definition run_create (is_dir : bool) (p : list Z) : ST (fs D pmm) (Z * list Z) :=
  let '(parent, nm) := split_path p in
  po ← Hepfs.lookup parent;
  match po with
  | None => mret (ENOENT, [])
  | Some parent_ino => (if is_dir then create_dir parent_ino nm else create_file parent_ino nm) ≫= λ _, mret (0, [])
  end.

Definition run_op (o : FsOp) (p : list Z) : ST (fs D pmm) (Z * list Z) :=
  match o with
  | ListDir => run_list_dir p
  | ReadFile => run_read_file p
  | WriteFile data => run_write_file data p
  | Create is_dir => run_create is_dir p
  end.

Definition finished (r : Z * list Z) (j : FsJob) : FsJob := mkFsJob (op j) (path j) true (fst r) (snd r).

Definition fs_service : ST gate unit :=
  s ← get;
  match FS_JOB s with
  | None => mret tt
  | Some job =>
    if done job then mret tt
    else if held s CtrlLock then mret tt
    else match CONTROLLER s with
    | None => put (set_fs_job (Some (finished (ENOENT, []) job)) s)
    | Some ctrl => r ← on_disk ctrl (run_op (op job) (path job)); modify (set_fs_job (Some (finished r job)))
    end
  end.

(** ** Services and spawning *)

Definition service_is_running (nm : string) (s : gate) : bool := is_process_running (txt ("<" ++ nm ++ ">")) (procs_of s).

Definition sys_service_ctl (service_id action : Z) : ST gate Z :=
  match service_name service_id with
  | None => mret (u64 ENOENT)
  | Some nm =>
    match parse_svc_action action with
    | None => mret (u64 ENOSYS)
    | Some a =>
      s ← get;
      let submit (start : bool) :=
        if held s SvcLock then mret (u64 EAGAIN)
        else match SVC_JOB s with
        | Some _ => mret (u64 EBUSY)
        | None => put (set_svc_job (Some (mkSvcJob nm start false 0)) s) ≫= λ _, mret 0
        end in
      match a with
      | Status => mret (Z.lor (Z.shiftl (Z.b2z (ENABLED s nm)) 1) (Z.b2z (service_is_running nm s)))
      | Enable => put (set_enabled (λ n, bool_decide (n = nm) || ENABLED s n) s) ≫= λ _, mret 0
      | Disable => put (set_enabled (λ n, negb (bool_decide (n = nm)) && ENABLED s n) s) ≫= λ _, mret 0
      | Start => submit true
      | Stop => submit false
      end
    end
  end.

Definition sys_service_poll : ST gate Z :=
  s ← get;
  if held s SvcLock then mret (u64 EAGAIN)
  else match SVC_JOB s with
  | None => mret (u64 ENOENT)
  | Some job => if negb (svc_done job) then mret (u64 EBUSY) else put (set_svc_job None s) ≫= λ _, mret (u64 (svc_result job))
  end.

Definition svc_service : ST gate unit :=
  s ← get;
  match SVC_JOB s with
  | None => mret tt
  | Some job =>
    if svc_done job then mret tt
    else ok ← drive_service (svc_name job) (start job);
         modify (set_svc_job (Some (mkSvcJob (svc_name job) (start job) true (if (ok : bool) then 0 else -1))))
  end.

Definition sys_spawn_bytes (data_ptr data_len arg : Z) : ST gate Z :=
  if (data_ptr =? 0) || (data_len =? 0) then mret (u64 EAGAIN)
  else
    data ← on_mach (user_load data_ptr (Z.to_nat data_len));
    e ← on_procs (exec_async_with_arg U64_MAX (txt "userspawn") data arg);
    mret (match e with None => 0 | Some _ => u64 ENOSYS end).

(** ** The dispatcher *)

Definition returns (c : ST gate Z) : ST gate (option Z) := r ← c; mret (Some r).

Definition syscall_dispatch (num a1 a2 a3 a4 : Z) : ST gate (option Z) :=
  if num =? SYS_WRITE then returns (sys_write a1 a2 a3)
  else if num =? SYS_EXIT then sys_exit a1
  else if num =? SYS_GETPID then returns (on_procs current_pid)
  else if num =? SYS_MMAP_MMIO then returns (sys_mmap_mmio a1 a2)
  else if num =? SYS_PORT_IN then returns (sys_port_in a1 a2)
  else if num =? SYS_PORT_OUT then returns (sys_port_out a1 a2 a3)
  else if num =? SYS_WAIT_IRQ then returns (sys_wait_irq a1)
  else if num =? SYS_MMAP_ANON then returns (on_procs (map_anon_for_user a1))
  else if num =? SYS_INPUT_STATE then returns (sys_input_state a1)
  else if num =? SYS_FS_LIST_DIR then returns (sys_fs_list_dir a1 a2)
  else if num =? SYS_FS_READ_FILE then returns (sys_fs_read_file a1 a2)
  else if num =? SYS_FS_WRITE_FILE then returns (sys_fs_write_file a1 a2 a3 a4)
  else if num =? SYS_FS_CREATE then returns (sys_fs_create a1 a2 a3)
  else if num =? SYS_FS_POLL then returns (sys_fs_poll a1 a2)
  else if num =? SYS_SERVICE_CTL then returns (sys_service_ctl a1 a2)
  else if num =? SYS_SERVICE_POLL then returns sys_service_poll
  else if num =? SYS_SPAWN_BYTES then returns (sys_spawn_bytes a1 a2 a3)
  else mret (Some (u64 ENOSYS)).
End calls.
End gate.
Arguments gate : clear implicits.
