(* ===== verification/SyscallFs.v ===== *)
(** What a file-system job promises, in terms of the directory tree and the files'
    contents: what the path leads to ([HepfsPath]), what a listing or a file holds,
    and what has changed on the disk afterwards; and that the job bodies of
    [fs_service] ([kernel/src/syscall.rs]) keep it. *)

From stdpp Require Import prelude list numbers strings.
From S2P Require Import Prelude Pmm Hepfs HepfsBlock HepfsRep HepfsFile HepfsRead HepfsDir HepfsOps HepfsPath HepfsSpec Syscall.

Local Open Scope Z_scope.

(** ** Splitting a path at its last slash *)

Definition splits (p par nm : list Z) : Prop :=
  (p = par ++ (0x2F :: nm) ∧ (0x2F ∉ nm)) ∨ ((0x2F ∉ p) ∧ par = [] ∧ nm = p).

Lemma rfind_spec c l : match rfind c l with
  | Some i => l !! i = Some c ∧ c ∉ drop (S i) l
  | None => c ∉ l
  end.
Proof.
  induction l as [|x l IH]; cbn [rfind]; [apply not_elem_of_nil|].
  destruct (rfind c l) as [i|]; [exact IH|]. destruct (Z.eqb_spec x c) as [->|]; [done|].
  rewrite not_elem_of_cons. split; [congruence|done].
Qed.

Lemma split_path_spec p par nm : splits p par nm → split_path p = (par, nm).
Proof.
  intros H. unfold split_path. pose proof (rfind_spec 0x2F p) as Hr. destruct (rfind 0x2F p) as [i|].
  - destruct Hr as [Hi Hn]. destruct H as [[-> Hnm]|(Hp & _)]; [|by apply list_elem_of_lookup_2 in Hi].
    assert (i = length par) as ->.
    { destruct (Nat.lt_trichotomy i (length par)) as [Hlt|[E|Hgt]]; [|done|].
      - destruct Hn. rewrite drop_app_le by lia. apply elem_of_app. right. left.
      - rewrite lookup_app_r in Hi by lia. destruct (i - length par)%nat as [|k] eqn:Ek; [lia|]. cbn in Hi.
        by apply list_elem_of_lookup_2 in Hi. }
    rewrite take_app_length. rewrite drop_app_ge by lia. by replace (S (length par) - length par)%nat with 1%nat by lia.
  - destruct H as [[-> _]|(_ & -> & ->)]; [|done]. destruct Hr. apply elem_of_app. right. left.
Qed.

(** ** A listing as the caller gets it: 68-byte records *)

Definition entry_record (e : Z * list Z) : list Z :=
  le_bytes 4 (fst e) ++ le_bytes 4 (len (snd e)) ++ snd e ++ replicate (60 - length (snd e)) 0.

Lemma listing_name v d e : e ∈ listing v d → (length (snd e) ≤ 27)%nat.
Proof.
  unfold listing. intros (x & -> & _)%list_elem_of_fmap. cbn [item snd]. unfold name_str.
  destruct (utf8_valid _); [|cbn; lia]. rewrite length_take. lia.
Qed.

Lemma entry_record_out v d : concat (dir_entry_out <$> listing v d) = concat (entry_record <$> listing v d).
Proof.
  f_equal. apply list_fmap_ext. intros k e He. apply list_elem_of_lookup_2, listing_name in He. destruct e as [ino nm]. cbn [snd fst] in *.
  unfold dir_entry_out, entry_record. cbn [fst snd]. rewrite Nat.min_l by lia. by rewrite take_ge by lia.
Qed.

Section promise.
Context {D : Type} `{!Drive D}.
Implicit Types (f : fs D pmm) (g : tree).

(** ** What is promised *)

(** A new node in directory [d] under the name [nm]; nothing else is touched. *)
Definition new_node f g (d ino : Z) (nm : list Z) f' (g' : tree) : Prop :=
  fs_rep f' g' ∧ 0 < ino < MAX_INODES ∧ iused (bl f) ino = false ∧
  (∃ l1 l2, listing (bl f) d = l1 ++ l2 ∧ listing (bl f') d = l1 ++ (ino, nm) :: l2) ∧
  ∀ j, ino_ok j → j ≠ d → j ≠ ino → same_node (bl f) g (bl f') g' j.

Definition is_dir (v : view) (i : Z) : Prop := flags (inode_at v i) = F_DIR.
Definition is_file (v : view) (i : Z) : Prop := flags (inode_at v i) = F_FILE.

(** The answer (status and bytes) and the disk after the job, from the disk before. *)
Definition promised (o : FsOp) (p : list Z) f g (ans : Z * list Z) f' : Prop :=
  match o with
  | ListDir => dev f' = dev f ∧
    match resolves (bl f) p with
    | None => ans = (ENOENT, [])
    | Some i => (is_dir (bl f) i → ans = (len (listing (bl f) i), concat (entry_record <$> listing (bl f) i))) ∧
                (is_file (bl f) i → ans = (ENOTDIR, []))
    end
  | ReadFile => dev f' = dev f ∧
    match resolves (bl f) p with
    | None => ans = (ENOENT, [])
    | Some i => (is_dir (bl f) i → ans = (EISDIR, [])) ∧ ∀ c, holds (bl f) g i c → ans = (len c, c)
    end
  | WriteFile data =>
    match resolves (bl f) p with
    | Some i => (is_dir (bl f) i → ans = (EISDIR, []) ∧ dev f' = dev f) ∧
      (is_file (bl f) i → ans = (len data, []) ∧ ∃ g', fs_rep f' g' ∧ holds (bl f') g' i data ∧
         ∀ j, ino_ok j → j ≠ i → same_node (bl f) g (bl f') g' j)
    | None => ∀ par nm, splits p par nm →
      match resolves (bl f) par with
      | None => ans = (ENOENT, []) ∧ dev f' = dev f
      | Some d => ans = (len data, []) ∧ ∃ ino g', new_node f g d ino nm f' g' ∧ holds (bl f') g' ino data
      end
    end
  | Create dir => ∀ par nm, splits p par nm →
    match resolves (bl f) par with
    | None => ans = (ENOENT, []) ∧ dev f' = dev f
    | Some d => ans = (0, []) ∧ ∃ ino g', new_node f g d ino nm f' g' ∧
        if (dir : bool) then is_dir (bl f') ino ∧ listing (bl f') ino = [] else holds (bl f') g' ino []
    end
  end.

(** ** What a job needs: a consistent disk, directories on the way, blocks and frames *)

(** The directory a new entry goes to. *)
Definition can_link f g (p : list Z) (blocks : Z) : Prop :=
  ∀ par nm, splits p par nm → dir_path (bl f) par ∧ 100 + 13 * len (path_parts par) ≤ avail f - 13 * len (path_parts p) ∧
    match resolves (bl f) par with Some d => can_create f g d nm blocks | None => True end.

Definition can_run (o : FsOp) (p : list Z) f g : Prop :=
  fs_rep f g ∧ dir_path (bl f) p ∧ 20 + 13 * len (path_parts p) ≤ avail f ∧
  match o with
  | ListDir => ∀ i, resolves (bl f) p = Some i → ino_ok i
  | ReadFile => ∀ i, resolves (bl f) p = Some i → ino_ok i ∧
      (is_dir (bl f) i ∨ ∃ c, holds (bl f) g i c ∧ 20 + 2 * nch c + 13 * len (path_parts p) ≤ avail f)
  | WriteFile data => Forall is_byte data ∧ 5 + 2 * nch data ≤ room (bl f) (cap f) ∧
      match resolves (bl f) p with
      | Some i => ino_ok i ∧ (is_dir (bl f) i ∨ is_file (bl f) i) ∧ 60 + 16 * nch data + 13 * len (path_parts p) ≤ avail f
      | None => can_link f g p 1 ∧ ∀ par nm, splits p par nm →
          100 + 16 * nch data + 13 * len (path_parts par) + 13 * len (path_parts p) ≤ avail f
      end
  | Create dir => can_link f g p (if (dir : bool) then 2 else 1)
  end.

(** ** The job bodies keep the promise *)

Lemma stat_spec f g i : fs_rep f g → ino_ok i → 1 ≤ avail f →
  wp (stat i) f (λ r f', r.1 = (flags (inode_at (bl f) i) =? F_DIR) ∧ dev f' = dev f ∧ step 1 f f').
Proof.
  intros (Hok & Hbig & _) Hi Ha. unfold stat. wp_step (read_inode_spec f i Hok Hi Hbig Ha). intros x f1 (-> & Hd & Hs). by apply wp_ret.
Qed.

(** Looking a path up moves nothing but frames. *)
Lemma lookup_job f g p Q (k : option Z → ST (fs D pmm) (Z * list Z)) : fs_rep f g → dir_path (bl f) p → 13 * len (path_parts p) ≤ avail f →
  (∀ f1, fs_rep f1 g → bl f1 = bl f → dev f1 = dev f → step (13 * len (path_parts p)) f f1 → wp (k (resolves (bl f) p)) f1 Q) →
  wp (o ← Hepfs.lookup p; k o) f Q.
Proof.
  intros Hr Hp Ha Hk. wp_step (lookup_spec f g p Hr (dir_path_range _ _ Hp) Ha). intros r f1 (-> & Hd & Hs).
  apply Hk; [by eapply fs_rep_read|by apply bl_dev|done|done].
Qed.

Lemma list_dir_job f g p : can_run ListDir p f g → wp (run_list_dir p) f (λ ans f', promised ListDir p f g ans f').
Proof.
  intros (Hr & Hp & Ha & Hi). unfold run_list_dir. apply (lookup_job f g); [done|done|lia|]. intros f1 Hr1 Eb Hd Hs.
  pose proof (step_avail _ _ _ Hs) as Ha1. unfold promised. destruct (resolves (bl f) p) as [i|]; [|by apply wp_ret].
  wp_step (stat_spec f1 g i Hr1 (Hi i eq_refl) ltac:(lia)). intros [b n] f2 (E & Hd2 & Hs2). cbn [fst] in E. subst b. rewrite Eb.
  unfold is_dir, is_file. destruct (Z.eqb_spec (flags (inode_at (bl f) i)) F_DIR) as [Hf|Hf]; cbn [negb].
  - pose proof (step_avail _ _ _ Hs2). pose proof (bl_dev _ _ Hd2) as Eb2. rewrite Eb in Eb2.
    wp_step (list_dir_spec f2 g i); [by eapply fs_rep_read|by apply Hi|by rewrite Eb2|lia|]. intros es f3 (-> & Hd3 & _).
    apply wp_ret. split; [congruence|]. rewrite Eb2, entry_record_out. split; [done|]. rewrite Hf. done.
  - apply wp_ret. split; [congruence|]. done.
Qed.

Lemma holds_file v g i c : holds v g i c → is_file v i.
Proof. by intros [H _]. Qed.

(** A file holds one content. *)
Lemma read_file_unique f g i c : fs_rep f g → ino_ok i → holds (bl f) g i c → 4 + 2 * nch c ≤ avail f →
  wp (read_file i) f (λ out f', (∀ c', holds (bl f) g i c' → out = c') ∧ dev f' = dev f).
Proof.
  intros Hr Hi Hc Ha. pose proof (read_file_spec f g i c Hr Hi Hc Ha) as H. apply wp_inv in H as (out & f1 & E & -> & Hd & _).
  eapply wp_ok; [exact E|]. split; [|done]. intros c' Hc'.
  assert (nch c' = nch c) as En. { unfold nch. destruct Hc as (_ & Hs & _), Hc' as (_ & Hs' & _). by rewrite <- Hs, Hs'. }
  pose proof (wp_result _ _ _ _ _ (read_file_spec f g i c' Hr Hi Hc' ltac:(lia)) E) as (-> & _). done.
Qed.

Lemma read_file_job f g p : can_run ReadFile p f g → wp (run_read_file p) f (λ ans f', promised ReadFile p f g ans f').
Proof.
  intros (Hr & Hp & Ha & Hi). unfold run_read_file. apply (lookup_job f g); [done|done|lia|]. intros f1 Hr1 Eb Hd Hs.
  pose proof (step_avail _ _ _ Hs) as Ha1. unfold promised. destruct (resolves (bl f) p) as [i|]; [|by apply wp_ret].
  destruct (Hi i eq_refl) as [Hio Hk]. wp_step (stat_spec f1 g i Hr1 Hio ltac:(lia)). intros [b n] f2 (E & Hd2 & Hs2). cbn [fst] in E. subst b.
  rewrite Eb. unfold is_dir in *. destruct (Z.eqb_spec (flags (inode_at (bl f) i)) F_DIR) as [Hf|Hf].
  - apply wp_ret. split; [congruence|]. split; [done|]. intros c Hc%holds_file. unfold is_file in Hc. by rewrite Hc in Hf.
  - destruct Hk as [?|(c & Hc & Hav)]; [done|]. pose proof (step_avail _ _ _ Hs2). pose proof (bl_dev _ _ Hd2) as Eb2. rewrite Eb in Eb2.
    wp_step (read_file_unique f2 g i c); [by eapply fs_rep_read|done|by rewrite Eb2|lia|]. intros out f3 (Hout & Hd3).
    apply wp_ret. rewrite Eb2 in Hout. split; [congruence|]. split; [done|]. intros c' Hc'. by rewrite (Hout c' Hc').
Qed.

Lemma splits_exists p : ∃ par nm, splits p par nm.
Proof.
  pose proof (rfind_spec 0x2F p) as H. destruct (rfind 0x2F p) as [i|].
  - destruct H as [Hi Hn]. exists (take i p), (drop (S i) p). left. split; [|done]. symmetry. by apply take_drop_middle.
  - exists [], p. by right.
Qed.

Lemma splits_unique p par nm par' nm' : splits p par nm → splits p par' nm' → par' = par ∧ nm' = nm.
Proof. intros H%split_path_spec H'%split_path_spec. rewrite H in H'. by injection H'. Qed.

(** The entry goes to the directory the front of the path leads to; [Some d]: it can be created there. *)
Lemma link_job f g p par nm blocks f1 n Q (k : option Z → ST (fs D pmm) (Z * list Z)) :
  can_link f g p blocks → splits p par nm → fs_rep f1 g → bl f1 = bl f → step n f f1 → n ≤ 13 * len (path_parts p) →
  (∀ f2, fs_rep f2 g → bl f2 = bl f → dev f2 = dev f1 → avail f - 13 * len (path_parts p) - 13 * len (path_parts par) ≤ avail f2 → cap f2 = cap f →
    match resolves (bl f) par with Some d => can_create f2 g d nm blocks | None => True end → wp (k (resolves (bl f) par)) f2 Q) →
  wp (po ← Hepfs.lookup par; k po) f1 Q.
Proof.
  intros Hc Hsp Hr1 Eb Hs Hn Hk. destruct (Hc par nm Hsp) as (Hp & Ha & Hcc). pose proof (step_avail _ _ _ Hs).
  assert (0 ≤ len (path_parts par)) by (unfold len; lia).
  apply (lookup_job f1 g); [done|by rewrite Eb|lia|]. intros f2 Hr2 Eb2 Hd2 Hs2. pose proof (step_avail _ _ _ Hs2).
  pose proof (step_cap _ _ _ Hs). pose proof (step_cap _ _ _ Hs2). rewrite Eb. apply Hk; [done|congruence|done|lia|congruence|].
  destruct (resolves (bl f) par) as [d|]; [|done]. destruct Hcc as [C1 C2 C3 C4 C5 C6 C7 C8].
  split; rewrite ?Eb2, ?Eb; try done; [|lia]. congruence.
Qed.

Lemma created_new f g d ino nm f' g' : created f g d ino nm f' g' → new_node f g d ino nm f' g'.
Proof. intros [H1 H2 H3 H4 H5 H6 H7 H8 H9]. split; [done|]. split; [lia|]. split; [tauto|]. by split. Qed.

Lemma dir_created_new f g d ino nm f' g' : dir_created f g d ino nm f' g' → new_node f g d ino nm f' g'.
Proof. intros [H1 H2 H3 H4 H5 H6 H7]. split; [done|]. split; [lia|]. split; [tauto|]. by split. Qed.

Lemma new_node_ext f0 f g d ino nm f' g' : bl f = bl f0 → new_node f g d ino nm f' g' → new_node f0 g d ino nm f' g'.
Proof. unfold new_node. by intros ->. Qed.

Lemma create_job dir f g p : can_run (Create dir) p f g → wp (run_create dir p) f (λ ans f', promised (Create dir) p f g ans f').
Proof.
  intros (Hr & Hp & Ha & Hl). unfold run_create. destruct (splits_exists p) as (par & nm & Hsp). rewrite (split_path_spec _ _ _ Hsp).
  assert (0 ≤ len (path_parts p)) by (unfold len; lia).
  apply (link_job f g p par nm _ f 0 _ _ Hl Hsp Hr eq_refl (step_refl f (proj1 Hr)) ltac:(lia)). intros f2 Hr2 Eb Hd _ _ Hcc.
  unfold promised. destruct (resolves (bl f) par) as [d|] eqn:Er.
  2: { apply wp_ret. intros par' nm' Hsp'. destruct (splits_unique _ _ _ _ _ Hsp Hsp') as [-> ->]. by rewrite Er. }
  destruct dir.
  - wp_step (create_dir_spec f2 g d nm Hcc). intros ino f3 (g' & Hdc). apply wp_ret. intros par' nm' Hsp'.
    destruct (splits_unique _ _ _ _ _ Hsp Hsp') as [-> ->]. rewrite Er. split; [done|]. exists ino, g'.
    split; [by eapply new_node_ext, dir_created_new|apply Hdc].
  - wp_step (create_file_spec f2 g d nm Hcc). intros ino f3 (g' & Hdc & Hh). apply wp_ret. intros par' nm' Hsp'.
    destruct (splits_unique _ _ _ _ _ Hsp Hsp') as [-> ->]. rewrite Er. split; [done|]. exists ino, g'.
    split; [by eapply new_node_ext, created_new|exact Hh].
Qed.

(** Writing a file just created. *)
Lemma write_new f g d ino nm f2 g2 f0 data : ino_ok d → created f2 g d ino nm f0 g2 → holds (bl f0) g2 ino [] → bl f2 = bl f → Forall is_byte data →
  5 + 2 * nch data ≤ room (bl f2) (cap f2) → 80 + 16 * nch data ≤ avail f2 →
  wp (write_file ino data) f0 (λ _ f', ∃ g', new_node f g d ino nm f' g' ∧ holds (bl f') g' ino data).
Proof.
  intros Hd Hc Hh Eb Hb Hroom Hav. pose proof (created_new _ _ _ _ _ _ _ Hc) as (Hrep & Hino & Hfree & (l1 & l2 & Hl & Hl') & Hoth).
  pose proof (cr_room _ _ _ _ _ _ _ Hc). pose proof (cr_avail _ _ _ _ _ _ _ Hc). pose proof (cr_parent _ _ _ _ _ _ _ Hc) as Hpd.
  assert (ino ≠ d) as Hne. { intros ->. destruct Hh as [Hf _]. by rewrite Hf in Hpd. }
  eapply wp_mono; [apply (write_file_spec f0 g2 ino data Hrep ltac:(lia) (proj1 Hh) Hb); lia|].
  intros u f3 (g3 & Hrep3 & _ & _ & _ & Hh3 & Hs3 & _). exists g3. split; [|done]. split; [done|]. split; [done|]. rewrite <- Eb. split; [done|]. split.
  - exists l1, l2. split; [done|]. rewrite <- Hl'. apply (same_node_listing f0 g2 f3 g3); [done|done|by apply Hs3].
  - intros j Hj Hjd Hji. eapply same_node_trans; [by apply Hoth|by apply Hs3].
Qed.

Lemma write_file_job data f g p : can_run (WriteFile data) p f g →
  wp (run_write_file data p) f (λ ans f', promised (WriteFile data) p f g ans f').
Proof.
  intros (Hr & Hp & Ha & Hb & Hroom & Hk). pose proof (nch_nonneg data). unfold run_write_file.
  apply (lookup_job f g); [done|done|lia|]. intros f1 Hr1 Eb Hd Hs. pose proof (step_avail _ _ _ Hs) as Ha1. pose proof (step_cap _ _ _ Hs) as Ec.
  unfold promised. destruct (resolves (bl f) p) as [i|].
  - destruct Hk as (Hi & Hkind & Hav). wp_step (stat_spec f1 g i Hr1 Hi ltac:(lia)). intros [b n] f2 (E & Hd2 & Hs2). cbn [fst] in E. subst b.
    rewrite Eb. unfold is_dir, is_file in *. destruct (Z.eqb_spec (flags (inode_at (bl f) i)) F_DIR) as [Hf|Hf].
    + apply wp_ret. rewrite Hf. split; [|done]. intros _. split; [done|congruence].
    + destruct Hkind as [?|Hff]; [done|]. pose proof (step_avail _ _ _ Hs2). pose proof (bl_dev _ _ Hd2) as Eb2. rewrite Eb in Eb2.
      pose proof (step_cap _ _ _ Hs2). assert (cap f2 = cap f) as Ec2 by congruence.
      wp_step (write_file_spec f2 g i data); [by eapply fs_rep_read|exact Hi|by rewrite Eb2|exact Hb|rewrite Eb2, Ec2; lia|lia|].
      intros u f3 (g3 & Hr3 & _ & _ & _ & Hh3 & Hs3 & _). apply wp_ret. split; [done|]. intros _. split; [done|]. exists g3.
      rewrite Eb2 in Hs3. done.
  - destruct Hk as [Hl Hav]. destruct (splits_exists p) as (par & nm & Hsp). rewrite (split_path_spec _ _ _ Hsp).
    apply (link_job f g p par nm _ f1 _ _ _ Hl Hsp Hr1 Eb Hs ltac:(lia)). intros f2 Hr2 Eb2 Hd2 Ha2 Ec2 Hcc.
    specialize (Hav par nm Hsp). destruct (resolves (bl f) par) as [d|] eqn:Er.
    2: { apply wp_ret. intros par' nm' Hsp'. destruct (splits_unique _ _ _ _ _ Hsp Hsp') as [-> ->]. rewrite Er. split; [done|congruence]. }
    wp_step (create_file_spec f2 g d nm Hcc). intros ino f3 (g3 & Hc3 & Hh3).
    wp_step (write_new f g d ino nm f2 g3 f3 data (cc_parent _ _ _ _ _ Hcc) Hc3 Hh3 Eb2 Hb); [rewrite Eb2, Ec2; lia|lia|].
    intros u f4 (g4 & Hn & Hh). apply wp_ret. intros par' nm' Hsp'. destruct (splits_unique _ _ _ _ _ Hsp Hsp') as [-> ->]. rewrite Er.
    split; [done|]. by exists ino, g4.
Qed.

Lemma run_op_promised o p f g : can_run o p f g → wp (run_op o p) f (λ ans f', promised o p f g ans f').
Proof. destruct o; [apply list_dir_job|apply read_file_job|apply write_file_job|apply create_job]. Qed.
End promise.

(** Listing the root of a freshly formatted disk is such a job. *)
Lemma demo_can_run : can_run ListDir [0x2F] demo_fmt (root_tree DATA_BLOCK_START).
Proof.
  pose proof demo_can_create as Hc. destruct demo_fmt_spec as (t & _ & Hs & _). pose proof (step_avail _ _ _ Hs) as Ha. rewrite demo_avail in Ha.
  split; [exact (cc_rep _ _ _ _ _ Hc)|]. split; [exact I|]. change (len (path_parts [0x2F])) with 0. split; [lia|].
  intros i Hi. injection Hi as <-. exact root_range.
Qed.
