(* ===== verification/SyscallSpec.v ===== *)
(** System calls: hardware mappings stay inside what was granted, and the
    asynchronous file-system calls are HepFS run one job after another. *)

From stdpp Require Import prelude list numbers strings.
From S2P Require Import Prelude Text Pmm Hepfs Input Memory Paging Elf ElfSpec Process ProcessSpec Syscall SyscallFs.

Local Open Scope Z_scope.

(** ** Mapping device pages *)

Definition MMIO_FLAGS : Z := Z.lor (Z.lor (Z.lor WRITE NOCACHE) (bit 0)) (bit 2).

Record mmio_inv (root base phys i : Z) (s0 s : mach pmm) : Prop := {
  mi_space : space low_half (frames s) (ram s) root;
  mi_regs : same_regs s0 s;
  mi_leaf : ∀ v, 0 ≤ v < 2 ^ 47 → leaf (ram s) root v =
    if decide (base ≤ v < base + i * 4096) then Z.lor (phys + (page_of v - base)) MMIO_FLAGS else leaf (ram s0) root v;
  mi_avail : fs_avail (frames s0) - 3 * i ≤ fs_avail (frames s) }.

Lemma map_mmio_loop_spec root base phys n i s0 s :
  mmio_inv root base phys i s0 (mach_of s) → cr3 s0 = root → page_of base = base → 0 ≤ base → 0 ≤ i →
  base + (i + Z.of_nat n) * 4096 ≤ 2 ^ 47 → phys mod 4096 = 0 → 0 ≤ phys → phys + (i + Z.of_nat n) * 4096 ≤ 2 ^ 52 →
  3 * (i + Z.of_nat n) ≤ fs_avail (frames s0) →
  wp (map_mmio_loop n i base phys) s (λ _ s', ∃ m', s' = set_mach m' s ∧ mmio_inv root base phys (i + Z.of_nat n) s0 m').
Proof.
  intros Hi Hcr Hb Hb0. revert i s Hi. induction n as [|n IH]; intros i s Hi Hi0 Hend Hpm Hp0 Hpe Hav; cbn [map_mmio_loop].
  - apply wp_ret. exists (mach_of s). split; [by destruct s|]. by replace (i + Z.of_nat 0) with i by lia.
  - pose proof (mi_avail _ _ _ _ _ _ Hi) as Ha. destruct (mi_regs _ _ _ _ _ _ Hi) as [Hc Hh].
    rewrite (wrap_small 64 (base + i * 4096)), (wrap_small 64 (phys + i * 4096)) by (unfold is_u; lia).
    set (virt := base + i * 4096). set (pa := phys + i * 4096). assert (0 ≤ virt < 2 ^ 47) as Hv by (unfold virt; lia).
    apply wp_bind, on_machine_wp. eapply wp_mono.
    { apply (map_current_spec low_half); [rewrite Hc, Hcr; apply Hi|by apply low_half_small| |split; vm_compute; [discriminate|reflexivity]|lia].
      split; [unfold pa; lia|]. unfold pa, PAGE_SIZE. dlia. }
    intros ? m' Hm. cbv beta in Hm. rewrite Hc, Hcr in Hm. fold MMIO_FLAGS in Hm.
    eapply wp_mono; [apply (IH (i + 1)); try done; try lia|].
    + destruct (mp_regs _ _ _ _ _ _ Hm) as [Hc' Hh']. split; [by apply Hm|split; cbn [set_mach mach_of]; congruence| |].
      * intros v Hr. cbn [set_mach mach_of]. rewrite (mp_leaf _ _ _ _ _ _ Hm) by (by apply low_half_small).
        destruct (decide (indices v = indices virt)) as [E|E]; rewrite indices_page in E by lia.
        -- assert (page_of v = virt) as Ev by (unfold page_of, virt in *; dlia).
           rewrite decide_True by (unfold page_of in *; dlia). f_equal. unfold pa, virt in *. lia.
        -- rewrite (mi_leaf _ _ _ _ _ _ Hi) by done. destruct (decide (base ≤ v < base + i * 4096)).
           ++ by rewrite decide_True by lia.
           ++ rewrite decide_False; [done|]. intros ?. apply E. unfold virt, page_of in *. dlia.
      * pose proof (mp_avail _ _ _ _ _ _ Hm). cbn [set_mach mach_of]. lia.
    + intros ? s' (m2 & -> & H2). exists m2. split; [done|]. by replace (i + Z.of_nat (S n)) with (i + 1 + Z.of_nat n) by lia.
Qed.

Lemma mmio_inv_init root base phys s : space low_half (frames s) (ram s) root → mmio_inv root base phys 0 s s.
Proof.
  intros Hsp. split; [done|done| |lia]. intros v Hv. by rewrite decide_False by lia.
Qed.

(** What the processor sees of device pages and of everything else. *)
Lemma mmio_translate root base phys i s0 s v : mmio_inv root base phys i s0 s → space low_half (frames s0) (ram s0) root →
  page_of base = base → 0 ≤ v < 2 ^ 47 → phys mod 4096 = 0 → 0 ≤ phys → phys + i * 4096 ≤ 2 ^ 52 →
  translate (ram s) root v = if decide (base ≤ v < base + i * 4096) then Some (phys + (v - base), true, true) else translate (ram s0) root v.
Proof.
  intros Hi Hs0 Hb Hv Hpm Hp0 Hpe. rewrite (translate_leaf low_half (frames s)), (mi_leaf _ _ _ _ _ _ Hi) by (done || apply Hi || by apply low_half_small).
  case_decide.
  - assert (phys_page (phys + (page_of v - base))) as Hp.
    { unfold phys_page, PAGE_SIZE, page_of in *. split; dlia. }
    rewrite present_bit, !(entry_flag _ MMIO_FLAGS) by (done || lia). rewrite entry_addr_lor by (done || (vm_compute; by split)).
    change (Z.testbit MMIO_FLAGS 0) with true. change (Z.testbit MMIO_FLAGS 1) with true. change (Z.testbit MMIO_FLAGS 2) with true. cbv iota.
    do 3 f_equal. unfold page_of. dlia.
  - by rewrite (translate_leaf low_half (frames s0)) by (done || by apply low_half_small).
Qed.

Lemma in_ranges_spec l a b : in_ranges l a b = true ↔ ∃ lo hi, (lo, hi) ∈ l ∧ lo ≤ a ∧ b ≤ hi.
Proof.
  unfold in_ranges. rewrite existsb_exists. split.
  - intros ([lo hi] & Hin%list_elem_of_In & H). exists lo, hi. split; [done|]. lia.
  - intros (lo & hi & Hin & H). exists (lo, hi). split; [by apply list_elem_of_In|]. lia.
Qed.

(** [map_mmio_for_user] on a running process. *)
Lemma map_mmio_refused ps p phys n : PROC_SLOTS ps !! slot_index ps = Some p → user_running p = true → n = 0 ∨ 16 * 1024 * 1024 < n →
  map_mmio_for_user phys n ps = Ok (0, ps).
Proof.
  intros Hs Hr Hn. unfold map_mmio_for_user, slot, get_slot, mbind, ST_bind, get, lift, unwrap. rewrite Hs, Hr. cbn [negb].
  assert ((n =? 0) || (16 * 1024 * 1024 <? n) = true) as -> by lia. done.
Qed.

Lemma map_mmio_for_user_spec ps p phys n : PROC_SLOTS ps !! slot_index ps = Some p → user_running p = true →
  0 < n ≤ 16 * 1024 * 1024 → 0 ≤ phys → phys + n ≤ 2 ^ 52 →
  space low_half (frames (mach_of ps)) (ram (mach_of ps)) (cr3 (mach_of ps)) →
  page_of (mmio_next_va p) = mmio_next_va p → 0 < mmio_next_va p ≤ 2 ^ 46 → 3 * 4097 ≤ fs_avail (frames (mach_of ps)) →
  wp (map_mmio_for_user phys n) ps (λ r ps', r = mmio_next_va p + phys mod 4096 ∧ cr3 (mach_of ps') = cr3 (mach_of ps) ∧
    ∀ v, 0 ≤ v < 2 ^ 47 → translate (ram (mach_of ps')) (cr3 (mach_of ps)) v =
      if decide (mmio_next_va p ≤ v < mmio_next_va p + (phys mod 4096 + n + 4095) / 4096 * 4096)
      then Some (page_of phys + (v - mmio_next_va p), true, true) else translate (ram (mach_of ps)) (cr3 (mach_of ps)) v).
Proof.
  intros Hs Hr Hn Hp0 Hpe Hsp Hva Hlow Hav. set (base := mmio_next_va p) in *. set (np := (phys mod 4096 + n + 4095) / 4096).
  assert (0 < np ≤ 4097) as Hnp by (unfold np; dlia).
  assert (page_of phys + np * 4096 ≤ 2 ^ 52) as Hend by (unfold np, page_of; dlia).
  unfold map_mmio_for_user. apply wp_bind. unfold get at 1, wp at 1. unfold slot. apply wp_bind, wp_bind. unfold get at 1, wp at 1.
  unfold get_slot. apply wp_bind. unfold get at 1, wp at 1. rewrite Hs. apply (wp_lift _ _ p); [done|]. rewrite Hr. cbn [negb].
  assert ((n =? 0) || (16 * 1024 * 1024 <? n) = false) as -> by lia. fold base.
  assert (Z.land phys 0xFFF = phys mod 4096) as -> by (change 0xFFF with (Z.ones 12); by rewrite Z.land_ones by lia).
  change (phys mod 4096 + n + 0xFFF) with (phys mod 4096 + n + 4095).
  rewrite (wrap_small 64 (phys mod 4096 + n + 4095)) by (unfold is_u; dlia). fold np. rewrite page_floor_eq by lia. fold (page_of phys).
  rewrite (wrap_small 64 (base + np * 4096)) by (unfold is_u; lia). apply wp_bind. unfold put_slot, modify, wp at 1.
  set (s1 := set_slots _ ps). assert (mmio_inv (cr3 (mach_of ps)) base (page_of phys) 0 (mach_of ps) (mach_of s1)) as Hi by (by apply mmio_inv_init).
  wp_step (map_mmio_loop_spec _ base (page_of phys) (Z.to_nat np) 0 (mach_of ps) s1 Hi eq_refl Hva ltac:(lia) ltac:(lia)
    ltac:(rewrite Z2Nat.id by lia; lia) ltac:(unfold page_of; dlia) ltac:(unfold page_of; dlia) ltac:(rewrite Z2Nat.id by lia; lia)
    ltac:(rewrite Z2Nat.id by lia; lia)).
  intros ? s' (m' & -> & Hm). rewrite Z.add_0_l, Z2Nat.id in Hm by lia. apply wp_ret.
  rewrite (wrap_small 64) by (unfold is_u; dlia). split; [done|]. cbn [set_mach mach_of]. split; [apply Hm|]. intros v Hv.
  rewrite (mmio_translate _ base (page_of phys) np (mach_of ps) m' v Hm) by (done || (unfold page_of; dlia)). done.
Qed.

Section claims.
Context {D : Type} `{!Drive D}.

Definition granted (s : gate D) : list (Z * Z) := ALLOWED_MMIO ++ DYNAMIC_MMIO s.
Definition view_of (s : gate D) (va : Z) : option (Z * bool * bool) := translate (ram (mach_of (procs_of s))) (cr3 (mach_of (procs_of s))) va.

Lemma on_procs_wp {A} (c : ST procs A) (s : gate D) Q : wp c (procs_of s) (λ a p, Q a (set_procs p s)) → wp (on_procs c) s Q.
Proof. unfold wp, on_procs. by destruct (c (procs_of s)) as [[a p]|]. Qed.

Lemma mmio_allowed_spec (s : gate D) phys n : mmio_allowed phys n s = true ↔
  phys + n < 2 ^ 64 ∧ ∃ lo hi, (lo, hi) ∈ granted s ∧ lo ≤ phys ∧ phys + n ≤ hi.
Proof.
  unfold mmio_allowed, granted. destruct (Z.leb_spec (2 ^ 64) (phys + n)).
  - split; [done|]. intros [? _]. lia.
  - rewrite orb_true_iff, !in_ranges_spec. split.
    + intros [(lo & hi & ? & ?)|(lo & hi & ? & ?)]; (split; [done|]); exists lo, hi; rewrite elem_of_app; auto.
    + intros (_ & lo & hi & [?|?]%elem_of_app & ?); [left|right]; by exists lo, hi.
Qed.

(** C14: [SYS_MMAP_MMIO]: a request outside every granted range, empty or over 16 MiB
    is answered 0 and changes nothing. Any other one is inside one granted range, its
    bytes appear in order at the returned address, readable and writable from ring 3,
    and no address of the process's half comes to reach memory outside that range
    rounded out to whole pages. *)
Theorem mmap_mmio_confined (s : gate D) p phys n
    (Hslot : PROC_SLOTS (procs_of s) !! slot_index (procs_of s) = Some p) (Hrun : user_running p = true)
    (Hphys : is_u 64 phys) (Hn : is_u 64 n)
    (Hspace : space low_half (frames (mach_of (procs_of s))) (ram (mach_of (procs_of s))) (cr3 (mach_of (procs_of s))))
    (Hva : page_of (mmio_next_va p) = mmio_next_va p) (Hlow : 0 < mmio_next_va p ≤ 2 ^ 46)
    (Hranges : Forall (λ r, r.2 ≤ 2 ^ 52) (granted s))
    (Hframes : 3 * 4097 ≤ fs_avail (frames (mach_of (procs_of s)))) :
  wp (sys_mmap_mmio phys n) s (λ r s',
    (r = 0 ∧ s' = s ∧ (n = 0 ∨ 16 * 1024 * 1024 < n ∨ ∀ lo hi, (lo, hi) ∈ granted s → ¬ (lo ≤ phys ∧ phys + n ≤ hi))) ∨
    (r ≠ 0 ∧ 0 < n ≤ 16 * 1024 * 1024 ∧ ∃ lo hi, (lo, hi) ∈ granted s ∧ lo ≤ phys ∧ phys + n ≤ hi ∧
      (∀ k, 0 ≤ k < n → view_of s' (r + k) = Some (phys + k, true, true)) ∧
      (∀ va, 0 ≤ va < 2 ^ 47 → view_of s' va = view_of s va ∨
        ∃ pa, view_of s' va = Some (pa, true, true) ∧ page_of lo ≤ pa < page_of (hi + 4095)))).
Proof.
  unfold is_u in *. unfold sys_mmap_mmio. apply wp_bind. unfold get at 1, wp at 1. destruct (mmio_allowed phys n s) eqn:Eal; cbn [negb].
  2: { apply wp_ret. left. do 2 (split; [done|]). destruct (decide (16 * 1024 * 1024 < n)); [auto|]. right. right. intros lo hi Hin [H1 H2].
       pose proof (proj1 (Forall_forall _ _) Hranges _ Hin) as Hr. cbn in Hr. assert (mmio_allowed phys n s = true); [|congruence].
       apply mmio_allowed_spec. split; [lia|]. by exists lo, hi. }
  apply mmio_allowed_spec in Eal as (_ & lo & hi & Hin & Hlo & Hhi). pose proof (proj1 (Forall_forall _ _) Hranges _ Hin) as Hr. cbn in Hr.
  apply on_procs_wp. destruct (decide (n = 0 ∨ 16 * 1024 * 1024 < n)) as [Hbad|Hok].
  { eapply wp_ok; [by apply (map_mmio_refused _ p phys n)|]. left. split; [done|]. split; [by destruct s|tauto]. }
  eapply wp_mono; [apply (map_mmio_for_user_spec _ p phys n); done || lia|]. intros r ps' (-> & Hcr & Hv). right. pose proof (Z.mod_pos_bound phys 4096 ltac:(lia)).
  split; [lia|]. split; [lia|]. exists lo, hi. do 3 (split; [done|]). unfold view_of. cbn [set_procs procs_of]. rewrite Hcr.
  set (base := mmio_next_va p) in *. assert ((phys mod 4096 + n + 4095) / 4096 * 4096 ≤ 2 ^ 25) by dlia. split.
  - intros k Hk. rewrite Hv by dlia. rewrite decide_True by dlia. do 3 f_equal. unfold page_of. lia.
  - intros va Hva'. rewrite Hv by done. case_decide; [right|by left]. eexists. split; [done|]. unfold page_of in *. dlia.
Qed.

(** ** Bytes stored in a user buffer *)

(** [va] is a writable buffer whose bytes are at the distinct physical addresses [pas],
    none of them in the page tables that map it. *)
Definition plain_buffer (m : mach pmm) (va : Z) (pas : list Z) : Prop :=
  is_u 64 va ∧ NoDup pas ∧
  ∀ r, (∀ a, a ∉ pas → r a = ram m a) → ∀ i pa, pas !! i = Some pa → resolve r (cr3 m) (u64 (va + Z.of_nat i)) = Some (pa, true).

(** [data] is in the buffer, and nothing else has changed. *)
Definition stored (m m' : mach pmm) (va : Z) (pas data : list Z) : Prop :=
  m' = set_ram (ram m') m ∧ (∀ a, a ∉ pas → ram m' a = ram m a) ∧ (∀ i pa, pas !! i = Some pa → data !! i = Some (ram m' pa)) ∧
  user_load va (length data) m' = Ok (data, m').

Lemma stored_nothing m va : stored m m va [] [].
Proof. split_and!; [by destruct m|done|done|done]. Qed.

Lemma u64_step va (k : nat) : u64 (u64 (va + Z.of_nat k) + 1) = u64 (va + Z.of_nat (S k)).
Proof. unfold u64, wrap. rewrite Zplus_mod_idemp_l. f_equal. lia. Qed.

Lemma load_buffer m va pas : plain_buffer m va pas → ∀ k l m', m' = set_ram (ram m') m → (∀ a, a ∉ pas → ram m' a = ram m a) →
  (length l + k ≤ length pas)%nat → (∀ i pa, pas !! (k + i)%nat = Some pa → (i < length l)%nat → l !! i = Some (ram m' pa)) →
  user_load (u64 (va + Z.of_nat k)) (length l) m' = Ok (l, m').
Proof.
  intros (_ & _ & Hb) k l. revert k. induction l as [|b l IH]; intros k m' Em Ho Hl Hv; cbn [user_load length]; [done|].
  unfold mbind, ST_bind, get. destruct (lookup_lt_is_Some_2 pas k) as [pa Hpa]; [cbn in Hl; lia|].
  assert (cr3 m' = cr3 m) as -> by by rewrite Em. rewrite (Hb (ram m') Ho k pa Hpa). rewrite u64_step.
  rewrite (IH (S k)); [|done|done|cbn in Hl; lia|].
  - specialize (Hv O pa). rewrite Nat.add_0_r in Hv. specialize (Hv Hpa ltac:(cbn; lia)). injection Hv as ->. done.
  - intros i pa' Hp Hi. apply (Hv (S i) pa'); [by replace (k + S i)%nat with (S k + i)%nat by lia|cbn; lia].
Qed.

Section store.
Context (cr0_wp : bool).

Lemma store_buffer m va pas : plain_buffer m va pas → ∀ l k m1, m1 = set_ram (ram m1) m → (∀ a, a ∉ pas → ram m1 a = ram m a) →
  (length l + k = length pas)%nat →
  wp (user_store cr0_wp (u64 (va + Z.of_nat k)) l) m1 (λ _ m', m' = set_ram (ram m') m ∧ (∀ a, a ∉ pas → ram m' a = ram m a) ∧
    (∀ i pa, pas !! i = Some pa → (i < k)%nat → ram m' pa = ram m1 pa) ∧
    ∀ i pa, pas !! (k + i)%nat = Some pa → l !! i = Some (ram m' pa)).
Proof.
  intros Hpb. pose proof Hpb as (_ & Hnd & Hb). induction l as [|b l IH]; intros k m1 Em Ho Hl; cbn [user_store].
  - apply wp_ret. split_and!; [done..|]. intros i pa Hp%lookup_lt_Some. cbn in Hl. lia.
  - apply wp_bind. unfold get at 1, wp at 1. destruct (lookup_lt_is_Some_2 pas k) as [pa Hpa]; [cbn in Hl; lia|].
    assert (cr3 m1 = cr3 m) as -> by by rewrite Em. rewrite (Hb (ram m1) Ho k pa Hpa). rewrite andb_false_r. apply wp_bind.
    unfold put at 1, wp at 1. rewrite u64_step. set (r := Memory.poke (ram m1) pa [b]).
    assert (r pa = b ∧ ∀ a, a ≠ pa → r a = ram m1 a) as [Hr1 Hr2].
    { unfold r, Memory.poke. change (len [b]) with 1. split.
      - rewrite (proj2 (Z.leb_le _ _)), (proj2 (Z.ltb_lt _ _)) by lia. cbn. by rewrite Z.sub_diag.
      - intros a Ha. destruct (Z.leb_spec pa a), (Z.ltb_spec a (pa + 1)); cbn [andb]; try done. lia. }
    eapply wp_mono; [apply (IH (S k)); [by rewrite Em| |cbn in Hl; lia]|].
    + intros a Ha. cbn [ram set_ram]. rewrite Hr2; [by apply Ho|]. intros ->. by apply list_elem_of_lookup_2 in Hpa.
    + intros ? m' (E' & Ho' & Hlow & Hhi). cbn [ram set_ram] in Hlow. split_and!; [done|done| |].
      * intros i pa' Hp Hi. rewrite (Hlow i pa' Hp ltac:(lia)). apply Hr2. intros ->. pose proof (NoDup_lookup _ _ _ _ Hnd Hp Hpa). lia.
      * intros [|i] pa' Hp.
        -- rewrite Nat.add_0_r, Hpa in Hp. injection Hp as <-. cbn. by rewrite (Hlow k pa Hpa ltac:(lia)), Hr1.
        -- cbn. apply Hhi. by replace (S k + i)%nat with (k + S i)%nat by lia.
Qed.

Lemma user_store_plain m va pas l : plain_buffer m va pas → length pas = length l →
  wp (user_store cr0_wp va l) m (λ _ m', stored m m' va pas l).
Proof.
  intros Hpb El. pose proof Hpb as (Hva & _). assert (u64 (va + Z.of_nat 0) = va) as Eva by (rewrite Z.add_0_r; by apply wrap_small).
  pose proof (store_buffer m va pas Hpb l 0 m ltac:(by destruct m) ltac:(done) ltac:(lia)) as H. rewrite Eva in H.
  eapply wp_mono; [exact H|]. intros ? m' (E & Ho & _ & Hv). split_and!; [done|done|exact Hv|].
  rewrite <- Eva. apply (load_buffer m va pas); [done|done|done|lia|]. intros i pa Hp _. by apply Hv.
Qed.
End store.

(** ** File-system jobs *)

(** Partial correctness: if it returns, the job slot is as it was. *)
Definition keeps_job {A} (c : ST (gate D) A) : Prop := ∀ s a s', c s = Ok (a, s') → FS_JOB s' = FS_JOB s.

Lemma keeps_job_ret {A} (a : A) : keeps_job (mret a).
Proof. intros s b s' [= <- <-]. done. Qed.

Lemma keeps_bind_job {A B} (c : ST (gate D) A) (k : A → ST (gate D) B) : keeps_job c → (∀ a, keeps_job (k a)) → keeps_job (c ≫= k).
Proof. intros Hc Hk s b s' E. apply bind_ok_inv in E as (a & s1 & E1 & E2). apply Hk in E2. apply Hc in E1. congruence. Qed.

Lemma keeps_get : keeps_job get.
Proof. intros s b s' [= <- <-]. done. Qed.

(** A continuation that may use the state it was given. *)
Lemma keeps_get_bind {A} (k : gate D → ST (gate D) A) :
  (∀ s a s', k s s = Ok (a, s') → FS_JOB s' = FS_JOB s) → keeps_job (s ← get; k s).
Proof. intros Hk s a s' E. by apply (Hk s a s'). Qed.

Lemma keeps_modify (f : gate D → gate D) : (∀ s, FS_JOB (f s) = FS_JOB s) → keeps_job (modify f).
Proof. intros Hf s b s' [= <- <-]. apply Hf. Qed.

Lemma keeps_on_procs {A} (c : ST procs A) : keeps_job (on_procs c).
Proof. intros s a s' E. unfold on_procs in E. destruct (c (procs_of s)) as [[b p]|]; [|done]. by injection E as _ <-. Qed.

Lemma keeps_on_keys {A} (c : ST kbd A) : keeps_job (on_keys c).
Proof. intros s a s' E. unfold on_keys in E. destruct (c (KEYS s)) as [[b k]|]; [|done]. by injection E as _ <-. Qed.

Lemma keeps_on_disk {A} d (c : ST (fs D pmm) A) : keeps_job (on_disk d c).
Proof. intros s a s' E. unfold on_disk in E. destruct (c (disk_fs d s)) as [[b f]|]; [|done]. by injection E as _ <-. Qed.

Section jobs.
Context (cr0_wp : bool) (port_in : Z → Z → ST (gate D) Z) (block_on_irq : Z → ST (gate D) unit)
        (drive_service : string → bool → ST (gate D) bool).

(** What the parameters may not do: touch the job slot. Other tasks do that, in
    their own steps. *)
Hypothesis port_in_keeps : ∀ p w, keeps_job (port_in p w).
Hypothesis block_keeps : ∀ v, keeps_job (block_on_irq v).
Hypothesis drive_keeps : ∀ n b, keeps_job (drive_service n b).

Lemma user_load_same va n m l m' : user_load va n m = Ok (l, m') → m' = m.
Proof.
  revert va l m'. induction n as [|n IH]; intros va l m'; cbn [user_load]; [by intros [= <- <-]|].
  intros E. apply bind_ok_inv in E as (m0 & m1 & [= <- <-] & E). destruct (resolve _ _ _) as [[pa w]|]; [|done].
  apply bind_ok_inv in E as (l0 & m1 & E1 & [= <- <-]). by apply IH in E1.
Qed.

Lemma on_load_same va n (s : gate D) l s' : on_mach (user_load va n) s = Ok (l, s') → s' = s ∧ user_load va n (mach_of (procs_of s)) = Ok (l, mach_of (procs_of s)).
Proof.
  unfold on_mach, on_procs, on_machine. destruct (user_load va n _) as [[b m]|] eqn:E; [|done].
  pose proof (user_load_same _ _ _ _ _ E) as ->. intros [= <- <-]. split; [by destruct s as [[] ]|done].
Qed.

Lemma read_path_same ptr n (s : gate D) o s' : read_user_path ptr n s = Ok (o, s') → s' = s.
Proof.
  unfold read_user_path. destruct (_ || _); [by intros [= <- <-]|]. intros E. apply bind_ok_inv in E as (l & s1 & E1 & [= <- <-]).
  by apply on_load_same in E1 as [-> _].
Qed.

Lemma submit_spec o p (s : gate D) e s' : submit_fs_job o p s = Ok (e, s') →
  (e = None ∧ FS_JOB s = None ∧ FS_JOB s' = Some (mkFsJob o p false 0 []) ∧ CONTROLLER s' = CONTROLLER s) ∨
  ((e = Some EAGAIN ∨ e = Some EBUSY) ∧ s' = s).
Proof.
  unfold submit_fs_job. intros E. apply bind_ok_inv in E as (s0 & s1 & [= <- <-] & E).
  destruct (held s FsLock); [injection E as <- <-; auto|]. destruct (FS_JOB s) eqn:Ej; injection E as <- <-; [auto|].
  by left.
Qed.

(** ** The calls, seen from the job slot *)

Definition is_submit (num : Z) : bool := existsb (Z.eqb num) [SYS_FS_LIST_DIR; SYS_FS_READ_FILE; SYS_FS_WRITE_FILE; SYS_FS_CREATE].

(** The job a submission's arguments name, read from the caller's memory. *)
Definition requested (num a1 a2 a3 a4 : Z) (s : gate D) : option (FsOp * list Z) :=
  match read_user_path a1 a2 s with
  | Ok (Some p, _) =>
    if num =? SYS_FS_LIST_DIR then Some (ListDir, p)
    else if num =? SYS_FS_READ_FILE then Some (ReadFile, p)
    else if num =? SYS_FS_WRITE_FILE then
      match user_load a3 (Z.to_nat a4) (mach_of (procs_of s)) with Ok (data, _) => Some (WriteFile data, p) | Panic _ => None end
    else Some (Create (negb (a3 =? 0)), p)
  | _ => None
  end.

Definition accepted (num : Z) (r : option Z) : bool := is_submit num && bool_decide (r = Some 0).

(** The finished job a poll takes away. *)
Definition collects (num : Z) (s : gate D) : option FsJob :=
  if (num =? SYS_FS_POLL) && negb (held s FsLock) then
    match FS_JOB s with Some j => if done j then Some j else None | None => None end
  else None.

(** A poll that takes an answer: its result, the buffer it was given, and the machine
    before and after it. *)
Record polled := mkPolled { p_result : Z; p_ptr : Z; p_cap : Z; p_from : mach pmm; p_to : mach pmm }.

(** How many of the answer's bytes fit. *)
Definition fitting (q : polled) (data : list Z) : list Z :=
  if (p_ptr q =? 0) || (p_cap q =? 0) then [] else take (Z.to_nat (p_cap q)) data.

(** The caller has been given the answer [v]: its status, and its first bytes in the buffer. *)
Definition delivered (v : Z * list Z) (q : polled) : Prop :=
  p_result q = v.1 ∧
  ∀ pas, plain_buffer (p_from q) (p_ptr q) pas → length pas = length (fitting q v.2) →
    stored (p_from q) (p_to q) (p_ptr q) pas (fitting q v.2).

Definition call_post (num a1 a2 a3 a4 : Z) (s : gate D) (r : option Z) (s' : gate D) : Prop :=
  match collects num s with
  | Some j => delivered (u64 (result j), out_data j) (mkPolled (default 0 r) a1 a2 (mach_of (procs_of s)) (mach_of (procs_of s'))) ∧
      FS_JOB s' = None ∧ accepted num r = false
  | None => if accepted num r
            then FS_JOB s = None ∧ ∃ o p, requested num a1 a2 a3 a4 s = Some (o, p) ∧ FS_JOB s' = Some (mkFsJob o p false 0 [])
            else FS_JOB s' = FS_JOB s
  end.

Lemma other_post num a1 a2 a3 a4 s r s' : is_submit num = false → num ≠ SYS_FS_POLL → FS_JOB s' = FS_JOB s →
  call_post num a1 a2 a3 a4 s r s'.
Proof. intros Hs Hp Hj. unfold call_post, collects, accepted. rewrite Hs, (proj2 (Z.eqb_neq _ _) Hp). done. Qed.

Lemma submit_post num a1 a2 a3 a4 s o p e s' : is_submit num = true → num ≠ SYS_FS_POLL → requested num a1 a2 a3 a4 s = Some (o, p) →
  submit_fs_job o p s = Ok (e, s') → call_post num a1 a2 a3 a4 s (Some (status_of e)) s'.
Proof.
  intros Hs Hp Hr E. unfold call_post, collects, accepted. rewrite Hs, (proj2 (Z.eqb_neq _ _) Hp). cbn [andb].
  destruct (submit_spec _ _ _ _ _ E) as [(-> & Hn & Hj & _)|[[-> | ->] ->]]; cbn [status_of].
  - rewrite bool_decide_true by done. split; [done|]. by exists o, p.
  - by rewrite bool_decide_false by (vm_compute; congruence).
  - by rewrite bool_decide_false by (vm_compute; congruence).
Qed.

Lemma refused_post num a1 a2 a3 a4 s e : is_submit num = true → num ≠ SYS_FS_POLL → e ≠ 0 → call_post num a1 a2 a3 a4 s (Some e) s.
Proof.
  intros Hs Hp He. unfold call_post, collects, accepted. rewrite Hs, (proj2 (Z.eqb_neq _ _) Hp). cbn [andb]. by rewrite bool_decide_false by congruence.
Qed.

Ltac keeps :=
  repeat first [ apply keeps_job_ret | apply keeps_on_procs | apply keeps_on_keys | apply keeps_get | apply port_in_keeps | apply block_keeps
               | (apply keeps_modify; reflexivity) | (apply keeps_bind_job; [|intros ?]) | case_match | progress cbv zeta ].

Lemma plain_calls_keep a1 a2 a3 :
  keeps_job (sys_write a1 a2 a3) ∧ keeps_job (sys_exit a1) ∧ keeps_job (sys_mmap_mmio a1 a2) ∧ keeps_job (sys_port_in port_in a1 a2) ∧
  keeps_job (sys_port_out a1 a2 a3) ∧ keeps_job (sys_wait_irq block_on_irq a1) ∧ keeps_job (sys_input_state cr0_wp a1) ∧
  keeps_job (sys_spawn_bytes a1 a2 a3).
Proof.
  repeat match goal with |- _ ∧ _ => split end.
  - unfold sys_write, on_mach. keeps.
  - unfold sys_exit. keeps.
  - unfold sys_mmap_mmio. keeps.
  - unfold sys_port_in. keeps.
  - unfold sys_port_out, port_out. keeps.
  - unfold sys_wait_irq. keeps.
  - unfold sys_input_state, on_mach. keeps.
  - unfold sys_spawn_bytes, on_mach. keeps.
Qed.

Lemma service_calls_keep a1 a2 : keeps_job (sys_service_ctl a1 a2) ∧ keeps_job sys_service_poll.
Proof.
  split.
  - unfold sys_service_ctl. destruct (service_name a1) as [nm|]; [|apply keeps_job_ret]. destruct (parse_svc_action a2) as [a|]; [|apply keeps_job_ret].
    apply keeps_get_bind. intros s b s' E. destruct a; repeat case_match; by injection E as _ <-.
  - unfold sys_service_poll. apply keeps_get_bind. intros s b s' E. repeat case_match; by injection E as _ <-.
Qed.

Lemma returns_inv (c : ST (gate D) Z) s r s' : returns c s = Ok (r, s') → ∃ v, r = Some v ∧ c s = Ok (v, s').
Proof. intros E. apply bind_ok_inv in E as (v & s1 & E & [= <- <-]). by exists v. Qed.

Lemma path_call_post num a1 a2 a3 a4 (f : list Z → FsOp) s v s' : is_submit num = true → num ≠ SYS_FS_POLL →
  (∀ p, read_user_path a1 a2 s = Ok (Some p, s) → requested num a1 a2 a3 a4 s = Some (f p, p)) →
  (p ← read_user_path a1 a2;
   match p with None => mret (u64 EAGAIN) | Some p => e ← submit_fs_job (f p) p; mret (status_of e) end) s = Ok (v, s') →
  call_post num a1 a2 a3 a4 s (Some v) s'.
Proof.
  intros Hs Hp Hf E. apply bind_ok_inv in E as (o & s1 & E1 & E). pose proof (read_path_same _ _ _ _ _ E1) as ->.
  destruct o as [p|]; [|injection E as <- <-; by apply refused_post].
  apply bind_ok_inv in E as (e & s2 & E2 & [= <- <-]). by eapply submit_post; [..|apply Hf|].
Qed.

Lemma poll_post a1 a2 a3 a4 s v s' : sys_fs_poll cr0_wp a1 a2 s = Ok (v, s') → call_post SYS_FS_POLL a1 a2 a3 a4 s (Some v) s'.
Proof.
  intros E. apply bind_ok_inv in E as (s0 & s1 & [= <- <-] & E). unfold call_post, collects. change (SYS_FS_POLL =? SYS_FS_POLL) with true.
  change (accepted SYS_FS_POLL (Some v)) with false. cbn [andb]. destruct (held s FsLock); cbn [negb]; [by injection E as _ <-|].
  destruct (FS_JOB s) as [j|] eqn:Ej; [|injection E as _ <-; exact Ej]. destruct (done j) eqn:Ed; cbn [negb] in E; [|injection E as _ <-; exact Ej].
  apply bind_ok_inv in E as (u & s1 & E1 & E). apply bind_ok_inv in E as (u' & s2 & E2 & E). assert (s2 = set_fs_job None s1) as -> by (unfold modify in E2; congruence).
  injection E as <- <-. split; [|done]. split; [done|]. cbn [p_from p_to p_ptr p_cap fst snd]. intros pas Hpb Hlen.
  change (mach_of (procs_of (set_fs_job None s1))) with (mach_of (procs_of s1)). unfold fitting in *. cbn [p_ptr p_cap] in *.
  destruct (Z.eqb_spec a1 0) as [->|H1]; cbn [negb andb orb] in E1, Hlen |- *.
  { injection E1 as _ <-. destruct pas; [|done]. apply stored_nothing. }
  destruct (Z.eqb_spec a2 0) as [->|H2]; cbn [negb andb orb] in E1, Hlen |- *.
  { injection E1 as _ <-. destruct pas; [|done]. apply stored_nothing. }
  replace (take (Z.to_nat (Z.min (len (out_data j)) a2)) (out_data j)) with (take (Z.to_nat a2) (out_data j)) in E1.
  2: { destruct (Z.min_spec (len (out_data j)) a2) as [[Hm ->]|[_ ->]]; [|done]. unfold len in *. rewrite !take_ge by lia. done. }
  pose proof (user_store_plain cr0_wp _ a1 pas _ Hpb Hlen) as Hst. apply wp_inv in Hst as ([] & m' & Em & Hst).
  unfold on_mach, on_procs, on_machine in E1. rewrite Em in E1. injection E1 as _ <-. exact Hst.
Qed.

Lemma dispatch_post num a1 a2 a3 a4 s r s' :
  syscall_dispatch cr0_wp port_in block_on_irq num a1 a2 a3 a4 s = Ok (r, s') → call_post num a1 a2 a3 a4 s r s'.
Proof.
  destruct (plain_calls_keep a1 a2 a3) as (K1 & K2 & K3 & K4 & K5 & K6 & K7 & K8). destruct (service_calls_keep a1 a2) as [K9 K10].
  assert (∀ c : ST (gate D) Z, keeps_job c → keeps_job (returns c)) as Kr.
  { intros c Hc. apply keeps_bind_job; [done|]. intros ?. apply keeps_job_ret. }
  unfold syscall_dispatch. intros E.
  destruct (Z.eqb_spec num SYS_FS_LIST_DIR) as [->|N1].
  { apply returns_inv in E as (v & -> & E). eapply (path_call_post _ _ _ _ _ (λ _, ListDir)); [done|done| |exact E].
    intros p Ep. unfold requested. by rewrite Ep. }
  destruct (Z.eqb_spec num SYS_FS_READ_FILE) as [->|N2].
  { apply returns_inv in E as (v & -> & E). eapply (path_call_post _ _ _ _ _ (λ _, ReadFile)); [done|done| |exact E].
    intros p Ep. unfold requested. by rewrite Ep. }
  destruct (Z.eqb_spec num SYS_FS_CREATE) as [->|N3].
  { apply returns_inv in E as (v & -> & E). eapply (path_call_post _ _ _ _ _ (λ _, Create (negb (a3 =? 0)))); [done|done| |exact E].
    intros p Ep. unfold requested. by rewrite Ep. }
  destruct (Z.eqb_spec num SYS_FS_WRITE_FILE) as [->|N4].
  { apply returns_inv in E as (v & -> & E). unfold sys_fs_write_file in E. apply bind_ok_inv in E as (o & s1 & E1 & E).
    pose proof (read_path_same _ _ _ _ _ E1) as ->. destruct o as [p|]; [|injection E as <- <-; by apply refused_post].
    destruct (_ && _); [injection E as <- <-; by apply refused_post|]. apply bind_ok_inv in E as (data & s1 & E2 & E).
    apply on_load_same in E2 as [-> E2]. apply bind_ok_inv in E as (e & s2 & E3 & [= <- <-]).
    eapply submit_post; [done|done| |exact E3]. unfold requested. rewrite E1. cbn [Z.eqb]. by rewrite E2. }
  destruct (Z.eqb_spec num SYS_FS_POLL) as [->|N5].
  { apply returns_inv in E as (v & -> & E). by apply poll_post. }
  assert (is_submit num = false) as Hs.
  { unfold is_submit. cbn [existsb]. by rewrite !(proj2 (Z.eqb_neq _ _)). }
  apply other_post; [done|done|]. revert E. repeat (case_match; [intros E; first [eapply (Kr _ K1), E | eapply K2, E | eapply (Kr _ (keeps_on_procs _)), E | eapply (Kr _ K3), E | eapply (Kr _ K4), E |
    eapply (Kr _ K5), E | eapply (Kr _ K6), E | eapply (Kr _ K7), E | eapply (Kr _ K8), E | eapply (Kr _ K9), E | eapply (Kr _ K10), E]|]). by intros [= _ <-].
Qed.

(** ** Histories *)

(** One job as HepFS ran it: what was asked, the disk before (none: no controller),
    the answer and the disk after. *)
Record run := mkRun { asked : FsOp * list Z; before : option (fs D pmm); answer : Z * list Z; after : option (fs D pmm) }.

(** The synchronous meaning of a job: HepFS's operations in one go, and, on a consistent disk
    with the blocks and frames the job needs, what [promised] says of the tree and the files. *)
Definition synchronous (r : run) : Prop :=
  match before r with
  | None => answer r = (ENOENT, []) ∧ after r = None
  | Some f => ∃ f', after r = Some f' ∧ run_op (asked r).1 (asked r).2 f = Ok (answer r, f') ∧
      ∀ g, can_run (asked r).1 (asked r).2 f g → promised (asked r).1 (asked r).2 f g (answer r) f'
  end.

(** Jobs accepted, jobs run, and the polls that took an answer. *)
Record history := mkHistory { submitted : list (FsOp * list Z); served : list run; collected : list polled }.

Definition disk_of (s : gate D) : option (fs D pmm) := (λ d, disk_fs d s) <$> CONTROLLER s.

Definition note_call (num a1 a2 a3 a4 : Z) (s : gate D) (r : option Z) (s' : gate D) (h : history) : history :=
  mkHistory (submitted h ++ (if accepted num r then option_list (requested num a1 a2 a3 a4 s) else []))
            (served h)
            (collected h ++ match collects num s with
               | Some _ => [mkPolled (default 0 r) a1 a2 (mach_of (procs_of s)) (mach_of (procs_of s'))]
               | None => [] end).

Definition note_service (s s' : gate D) (h : history) : history :=
  match FS_JOB s, FS_JOB s' with
  | Some j, Some j' => if negb (done j) && done j'
      then mkHistory (submitted h) (served h ++ [mkRun (op j, path j) (disk_of s) (result j', out_data j') (disk_of s')]) (collected h) else h
  | _, _ => h
  end.

(** Any process makes any system call; the worker task, once it has the lock, runs
    [fs_service]; and everything else - other tasks, other memory, other locks, even
    the disk - moves freely but for the job slot. *)
Inductive job_event : gate D * history → gate D * history → Prop :=
| ev_call s h num a1 a2 a3 a4 r s' : syscall_dispatch cr0_wp port_in block_on_irq num a1 a2 a3 a4 s = Ok (r, s') →
    job_event (s, h) (s', note_call num a1 a2 a3 a4 s r s' h)
| ev_service s h s' : held s FsLock = false → fs_service s = Ok (tt, s') → job_event (s, h) (s', note_service s s' h)
| ev_svc s h s' : svc_service drive_service s = Ok (tt, s') → job_event (s, h) (s', h)
| ev_other s h s' : FS_JOB s' = FS_JOB s → job_event (s, h) (s', h).

Definition queued (s : gate D) : list (FsOp * list Z) :=
  match FS_JOB s with Some j => if done j then [] else [(op j, path j)] | None => [] end.
Definition ready (s : gate D) : list (Z * list Z) :=
  match FS_JOB s with Some j => if done j then [(u64 (result j), out_data j)] else [] | None => [] end.
Definition reply (r : run) : Z * list Z := (u64 (answer r).1, (answer r).2).

Record history_ok (s : gate D) (h : history) : Prop := {
  ho_sync : Forall synchronous (served h);
  ho_submitted : submitted h = (asked <$> served h) ++ queued s;
  ho_collected : ∃ answers, Forall2 delivered answers (collected h) ∧ reply <$> served h = answers ++ ready s }.

Lemma history_ok_same s s' h : FS_JOB s' = FS_JOB s → history_ok s h → history_ok s' h.
Proof. intros E [H1 H2 H3]. split; [done| |]; by unfold queued, ready; rewrite E. Qed.

Lemma fs_service_post s s' : fs_service s = Ok (tt, s') →
  FS_JOB s' = FS_JOB s ∨
  ∃ j x, FS_JOB s = Some j ∧ done j = false ∧ FS_JOB s' = Some (finished x j) ∧ synchronous (mkRun (op j, path j) (disk_of s) x (disk_of s')).
Proof.
  intros E. apply bind_ok_inv in E as (s0 & s1 & [= <- <-] & E). destruct (FS_JOB s) as [j|] eqn:Ej; [|injection E as <-; by left].
  destruct (done j) eqn:Ed; [injection E as <-; by left|]. destruct (held s CtrlLock); [injection E as <-; by left|].
  right. exists j. unfold disk_of, synchronous. destruct (CONTROLLER s) as [d|] eqn:Ec; cbn [before answer after asked fmap option_fmap option_map fst snd].
  - apply bind_ok_inv in E as (x & s1 & E1 & E2). exists x. do 2 (split; [done|]).
    assert (s' = set_fs_job (Some (finished x j)) s1) as -> by (unfold modify in E2; congruence). split; [done|].
    unfold on_disk in E1. destruct (run_op _ _ _) as [[y f']|] eqn:Er; [|done]. exists f'.
    injection E1 as <- <-. split; [cbn; by destruct f'|]. split; [done|]. intros g Hg.
    exact (wp_result _ _ _ _ _ (run_op_promised _ _ _ _ Hg) Er).
  - exists (ENOENT, []). do 2 (split; [done|]). assert (s' = set_fs_job (Some (finished (ENOENT, []) j)) s) as -> by (unfold put in E; congruence).
    split; [done|]. cbn [set_fs_job CONTROLLER]. by rewrite Ec.
Qed.

Lemma job_event_ok s h s' h' : job_event (s, h) (s', h') → history_ok s h → history_ok s' h'.
Proof.
  intros He [H1 H2 (ans & H3 & H4)]. remember (s, h) as x eqn:Ex. remember (s', h') as y eqn:Ey. destruct He as [? ? num a1 a2 a3 a4 r ? E|? ? ? _ E|? ? ? E|? ? ? E]; simplify_eq.
  - pose proof (dispatch_post _ _ _ _ _ _ _ _ E) as Hp. unfold call_post in Hp. unfold note_call. destruct (collects num s) as [j|] eqn:Ec.
    + destruct Hp as (Hdel & Hj & ->). unfold collects in Ec. destruct (_ && _); [|done]. destruct (FS_JOB s) as [j0|] eqn:Ej; [|done].
      destruct (done j0) eqn:Ed; [|done]. injection Ec as <-. split; cbn [served submitted collected]; [done| |]; unfold queued, ready in *; rewrite Hj, Ej, Ed in *.
      * by rewrite !app_nil_r in *.
      * exists (ans ++ [(u64 (result j0), out_data j0)]). rewrite app_nil_r. split; [|exact H4]. apply Forall2_app; [done|]. by constructor.
    + destruct (accepted num r).
      * destruct Hp as (Hn & o & p & -> & Hj). split; cbn [served submitted collected]; [done| |]; unfold queued, ready in *; rewrite Hj, Hn in *; cbn.
        -- by rewrite H2, app_nil_r.
        -- rewrite app_nil_r. by exists ans.
      * rewrite !app_nil_r. apply (history_ok_same s); [done|]. split; [done|done|by exists ans].
  - unfold note_service. destruct (fs_service_post _ _ E) as [Hj|(j & x & Hj & Hd & Hj' & Hsync)].
    + rewrite Hj. assert (history_ok s' h) as Hh by (apply (history_ok_same s); [done|]; split; [done|done|by exists ans]).
      destruct (FS_JOB s) as [j|]; [|exact Hh]. by destruct (done j).
    + rewrite Hj, Hj', Hd. cbn [negb andb finished done result out_data]. destruct x as [v l]. cbn [fst snd].
      split; cbn [served submitted collected]; [apply Forall_app; split; [done|by constructor]|..]; try exists ans; rewrite fmap_app; unfold queued, ready in *; rewrite Hj, Hd in *; rewrite Hj'; cbn.
      * by rewrite app_nil_r.
      * split; [done|]. by rewrite H4, app_nil_r.
  - apply (history_ok_same s); [|split; [done|done|by exists ans]]. unfold svc_service in E. apply bind_ok_inv in E as (s0 & s1 & [= <- <-] & E).
    destruct (SVC_JOB s) as [j|]; [|by injection E as <-]. destruct (svc_done j); [by injection E as <-|].
    apply bind_ok_inv in E as (b & s1 & E1 & E2). apply drive_keeps in E1. rewrite <- E1. by injection E2 as <-.
  - apply (history_ok_same s); [done|]. split; [done|done|by exists ans].
Qed.

(** C13: The asynchronous file-system calls are HepFS, one job after another: for any
    calls by any processes and any scheduling of the worker, the accepted jobs are run
    in the order they were accepted, each exactly once. On a consistent disk with the blocks
    and frames it needs, a job has the answer and the effect its path, the listings and the
    file contents call for ([promised]): a file's bytes, a directory's records, the new
    content, the new entry, or the error. The polls that do not report a wait give those
    answers in the same order, each exactly once: the status as the call's result and the
    answer's first bytes, as many as fit, in the caller's buffer, with no other byte of
    memory changed. At most one accepted job has not been collected. *)
Theorem fs_jobs_refine_sync (s0 s : gate D) (h : history)
    (Hempty : FS_JOB s0 = None) (Hreach : rtc job_event (s0, mkHistory [] [] []) (s, h)) :
  Forall synchronous (served h) ∧ submitted h = (asked <$> served h) ++ queued s ∧
  (∃ answers, Forall2 delivered answers (collected h) ∧ reply <$> served h = answers ++ ready s) ∧
  (length (submitted h) ≤ S (length (collected h)))%nat.
Proof.
  assert (history_ok s h) as [H1 H2 H3].
  { assert (history_ok s0 (mkHistory [] [] [])) as H0.
    { split; [done|by unfold queued; rewrite Hempty|]. exists []. split; [constructor|]. unfold ready. by rewrite Hempty. }
    remember (s0, mkHistory [] [] []) as x eqn:Ex. remember (s, h) as y eqn:Ey.
    assert (history_ok x.1 x.2) as Hx by (by rewrite Ex). clear Ex. enough (history_ok y.1 y.2) by (by rewrite Ey in *).
    clear Ey. induction Hreach as [|[] [] z Hs _ IH]; [done|]. by eapply IH, job_event_ok. }
  do 3 (split; [done|]). destruct H3 as (ans & Hf & H3). apply Forall2_length in Hf. apply (f_equal length) in H2, H3.
  rewrite length_app, length_fmap in H2. rewrite length_app, length_fmap in H3.
  unfold queued, ready in *. destruct (FS_JOB s) as [j|]; [destruct (done j)|]; cbn in *; lia.
Qed.
End jobs.
End claims.

(** ** A process with one page and its calls, before the disk is up *)

Definition demo_ram : memory :=
  Memory.poke (write64 (write64 (write64 (write64 (λ _, 0) demo_root 0x4001007) 0x4001000 0x4002007) 0x4002010 0x4003007) 0x4003000 0x4004007)
    0x4004000 [0x2F].

Definition demo_gate (m : mach pmm) : gate ram_disk :=
  mkGate (set_mach m (demo_procs (mkSlot 0 0 true USER_MMIO_BASE 1))) [] [] None None (λ _, true) None 0
    mouse_new kbd_new (λ _, false) [] [].

Lemma mmap_mmio_confined_witness :
  wp (sys_mmap_mmio 0xFEE00020 4) (demo_gate demo_mach) (λ r s', r ≠ 0 → view_of s' r = Some (0xFEE00020, true, true)).
Proof.
  eapply wp_mono.
  - apply (mmap_mmio_confined (demo_gate demo_mach) (mkSlot 0 0 true USER_MMIO_BASE 1) 0xFEE00020 4).
    + reflexivity.
    + reflexivity.
    + unfold is_u. lia.
    + unfold is_u. lia.
    + exact demo_space.
    + reflexivity.
    + split; [reflexivity|unfold USER_MMIO_BASE; cbn [mmio_next_va]; lia].
    + repeat constructor. cbn [snd]. lia.
    + change (frames (mach_of (procs_of (demo_gate demo_mach)))) with (frames demo_mach). rewrite demo_avail_frames. discriminate.
  - intros r s' [(-> & _)|(Hr & _ & lo & hi & _ & _ & _ & H & _)] Hne; [done|]. rewrite <- (Z.add_0_r r). apply H. lia.
Defined.

Definition no_port {D} : Z → Z → ST (gate D) Z := λ _ _, mret 0.
Definition no_block {D} : Z → ST (gate D) unit := λ _, mret tt.
Definition no_drive {D} : string → bool → ST (gate D) bool := λ _ _, mret true.

(** The state a computation ends in. *)
Definition end_of {S A} (c : ST S A) (s : S) : S := match c s with Ok (_, s') => s' | Panic _ => s end.
Lemma end_of_ok {S} (c : ST S unit) (s : S) : is_ok (c s) = true → c s = Ok (tt, end_of c s).
Proof. unfold end_of, is_ok. by destruct (c s) as [[[] s']|]. Qed.
Lemma end_of_val {S A} (c : ST S A) (s : S) a : (λ x, fst <$> x) (c s) = Ok a → c s = Ok (a, end_of c s).
Proof. unfold end_of. destruct (c s) as [[b s']|]; [|done]. by intros [= ->]. Qed.

Definition demo_call (num a1 a2 a3 a4 : Z) : ST (gate ram_disk) (option Z) := syscall_dispatch true no_port no_block num a1 a2 a3 a4.
Definition demo_g0 : gate ram_disk := demo_gate (set_ram demo_ram demo_mach).
Definition demo_g1 : gate ram_disk := end_of (demo_call SYS_FS_LIST_DIR 0x400000 1 0 0) demo_g0.
Definition demo_g2 : gate ram_disk := end_of fs_service demo_g1.
Definition demo_g3 : gate ram_disk := end_of (demo_call SYS_FS_POLL 0x400000 1 0 0) demo_g2.

(** The process's own page is a buffer for an answer. *)
Lemma demo_buffer : plain_buffer (set_ram demo_ram demo_mach) 0x400000 [0x4004000].
Proof.
  split; [unfold is_u; lia|]. split; [apply NoDup_singleton|]. intros r Hr i pa Hi.
  assert (i = O ∧ pa = 0x4004000) as [-> ->] by (destruct i as [|i]; [by injection Hi|destruct i; discriminate Hi]).
  assert (∀ a, a + 8 ≤ 0x4004000 → read64 r a = read64 demo_ram a) as E.
  { intros a Ha. unfold read64, Memory.peek. f_equal. apply list_fmap_ext. intros k x Hx. apply lookup_seq in Hx as [-> Hx]. apply Hr.
    rewrite elem_of_cons. intros [Hk|Hk%elem_of_nil]; [lia|done]. }
  change (cr3 (set_ram demo_ram demo_mach)) with demo_root. change (u64 (0x400000 + Z.of_nat 0)) with 0x400000.
  unfold resolve. change (canonical 0x400000) with true. cbn [resolve_from].
  rewrite !E by (vm_compute; discriminate). vm_compute. reflexivity.
Qed.

Lemma fs_jobs_refine_sync_witness : ∃ h : history, submitted h = [(ListDir, [0x2F])] ∧ p_result <$> collected h = [u64 ENOENT] ∧
  Forall synchronous (served h) ∧ length (served h) = 1%nat.
Proof.
  set (h1 := note_call SYS_FS_LIST_DIR 0x400000 1 0 0 demo_g0 (Some 0) demo_g1 (mkHistory [] [] [])).
  set (h2 := note_service demo_g1 demo_g2 h1).
  set (h3 := note_call SYS_FS_POLL 0x400000 1 0 0 demo_g2 (Some (u64 ENOENT)) demo_g3 h2).
  exists h3.
  destruct (fs_jobs_refine_sync true no_port no_block no_drive (λ p w, keeps_job_ret 0) (λ v, keeps_job_ret tt) (λ n b, keeps_job_ret true) demo_g0 demo_g3 h3)
    as (H1 & H2 & H3 & _).
  - reflexivity.
  - apply (rtc_l _ _ (demo_g1, h1)); [apply ev_call, end_of_val; lazy; reflexivity|].
    apply (rtc_l _ _ (demo_g2, h2)); [apply ev_service; [lazy; reflexivity|apply end_of_ok; lazy; reflexivity]|].
    apply (rtc_l _ _ (demo_g3, h3)); [apply ev_call, end_of_val; lazy; reflexivity|]. apply rtc_refl.
  - split; [lazy; reflexivity|]. split; [lazy; reflexivity|]. split; [exact H1|lazy; reflexivity].
Defined.
