(* ===== verification/Display.v ===== *)
(** The display ([kernel/src/framebuffer.rs]): back buffer, drawing, and the flush to
    the screen, directly or through the [gopd] process.

    Buffers are byte memories addressed through their pointers, [None] where the
    pointer is null; a 32-bit pixel is the four bytes at its index. [addr] is the
    screen itself. [usize] arithmetic wraps. *)

From stdpp Require Import prelude list numbers strings.
From S2P Require Import Prelude Text Pmm Hepfs Memory Paging Elf Process Syscall.

Local Open Scope Z_scope.

(** ** Pixels of a buffer *)

Definition px_get (m : memory) (k : Z) : Z := le_val (Memory.peek m (4 * k) 4).
Definition px_set (m : memory) (k v : Z) : memory := Memory.poke m (4 * k) (le_bytes 4 v).

(** [copy_nonoverlapping(src.add(si), dst.add(di), n)] and [slice::fill]. *)
Definition copy_px (src : memory) (si : Z) (dst : memory) (di n : Z) : memory :=
  Memory.poke dst (4 * di) (Memory.peek src (4 * si) (Z.to_nat (4 * n))).
Definition fill_px (dst : memory) (di n v : Z) : memory := Memory.poke dst (4 * di) (concat (replicate (Z.to_nat n) (le_bytes 4 v))).

Record Color := mkColor { col_r : Z; col_g : Z; col_b : Z }.

Definition from_hex (hex : Z) : Color :=
  mkColor (Z.land (Z.shiftr hex 16) 0xFF) (Z.land (Z.shiftr hex 8) 0xFF) (Z.land hex 0xFF).

(** The mailbox page shared with [gopd]; its fixed geometry fields are the
    display's own. *)
Record GopMailbox := mkMailbox {
  dirty_y : Z; dirty_count : Z; req : Z; ack : Z; mb_cursor_x : Z; mb_cursor_y : Z; mb_cursor_kind : Z; stop : Z }.

Record Display := mkDisplay {
  addr : memory; width : Z; height : Z; pitch : Z; bpp : Z; r_shift : Z; g_shift : Z; b_shift : Z;
  backbuf : option memory; scene_buf : option memory; backbuf_len : Z; backbuf_phys : Z; fb_phys : Z;
  mailbox_virt : option GopMailbox; mailbox_phys : Z; publish_buf : option memory; publish_phys : Z;
  cursor_x : Z; cursor_y : Z; cursor_kind : Z }.

Record BootInfo := mkBoot {
  bi_hhdm : Z; bi_fb_addr : Z; bi_fb_width : Z; bi_fb_height : Z; bi_fb_pitch : Z; bi_fb_bpp : Z;
  bi_fb_red_shift : Z; bi_fb_green_shift : Z; bi_fb_blue_shift : Z }.

(** [screen]: what is behind the framebuffer's address. *)
Definition display_new (screen : memory) (bi : BootInfo) : Display :=
  mkDisplay screen (bi_fb_width bi) (bi_fb_height bi) (bi_fb_pitch bi) (bi_fb_bpp bi / 8) (bi_fb_red_shift bi) (bi_fb_green_shift bi)
    (bi_fb_blue_shift bi) None None 0 0 (u64 (bi_fb_addr bi - bi_hhdm bi)) None 0 None 0 0 0 0.

Definition set_addr (m : memory) (d : Display) : Display :=
  mkDisplay m (width d) (height d) (pitch d) (bpp d) (r_shift d) (g_shift d) (b_shift d) (backbuf d) (scene_buf d) (backbuf_len d) (backbuf_phys d)
    (fb_phys d) (mailbox_virt d) (mailbox_phys d) (publish_buf d) (publish_phys d) (cursor_x d) (cursor_y d) (cursor_kind d).
Definition set_bufs (b s : option memory) (n p : Z) (d : Display) : Display :=
  mkDisplay (addr d) (width d) (height d) (pitch d) (bpp d) (r_shift d) (g_shift d) (b_shift d) b s n p
    (fb_phys d) (mailbox_virt d) (mailbox_phys d) (publish_buf d) (publish_phys d) (cursor_x d) (cursor_y d) (cursor_kind d).
Definition set_backbuf (b : memory) (d : Display) : Display := set_bufs (Some b) (scene_buf d) (backbuf_len d) (backbuf_phys d) d.
Definition set_mailbox (mb : option GopMailbox) (d : Display) : Display :=
  mkDisplay (addr d) (width d) (height d) (pitch d) (bpp d) (r_shift d) (g_shift d) (b_shift d) (backbuf d) (scene_buf d) (backbuf_len d) (backbuf_phys d)
    (fb_phys d) mb (mailbox_phys d) (publish_buf d) (publish_phys d) (cursor_x d) (cursor_y d) (cursor_kind d).
Definition set_publish (mp : Z) (pb : option memory) (pp : Z) (d : Display) : Display :=
  mkDisplay (addr d) (width d) (height d) (pitch d) (bpp d) (r_shift d) (g_shift d) (b_shift d) (backbuf d) (scene_buf d) (backbuf_len d) (backbuf_phys d)
    (fb_phys d) (mailbox_virt d) mp pb pp (cursor_x d) (cursor_y d) (cursor_kind d).

Definition set_gop_cursor (x y kind : Z) (d : Display) : Display :=
  mkDisplay (addr d) (width d) (height d) (pitch d) (bpp d) (r_shift d) (g_shift d) (b_shift d) (backbuf d) (scene_buf d) (backbuf_len d) (backbuf_phys d)
    (fb_phys d) (mailbox_virt d) (mailbox_phys d) (publish_buf d) (publish_phys d) x y kind.

(** ** Buffers *)

(** A buffer freshly taken from the frame allocator and zeroed over its length; what
    lies behind it is unknown. *)
Definition zeroed (old : memory) (bytes : Z) : memory := Memory.poke old 0 (replicate (Z.to_nat bytes) 0).

Definition init_backbuf (old1 old2 : memory) (d : Display) : ST pmm Display := λ f,
  if negb (bpp d =? 4) then Ok (d, f)
  else
    let pixels := u64 (width d * height d) in
    let bytes := u64 (pixels * 4) in
    let npages := u64 (bytes + 4095) / 4096 in
    match alloc_contiguous npages f with
    | Panic e => Panic e
    | Ok (None, f) => Ok (d, f)
    | Ok (Some p1, f) =>
      match alloc_contiguous npages f with
      | Panic e => Panic e
      | Ok (None, f) => Ok (d, f)
      | Ok (Some p2, f) => Ok (set_bufs (Some (zeroed old1 bytes)) (Some (zeroed old2 bytes)) pixels p1 d, f)
      end
    end.

Definition backbuf_info (d : Display) : option (Z * Z * Z * bool) :=
  if backbuf_phys d =? 0 then None
  else Some (backbuf_phys d, width d, height d, (r_shift d =? 16) && (g_shift d =? 8) && (b_shift d =? 0) && (bpp d =? 4)).

Definition save_scene (d : Display) : Display :=
  match backbuf d, scene_buf d with
  | Some b, Some s => set_bufs (Some b) (Some (copy_px b 0 s 0 (backbuf_len d))) (backbuf_len d) (backbuf_phys d) d
  | _, _ => d
  end.

Definition clip_rows (y count : Z) (d : Display) : Z * Z := (Z.min y (height d), Z.min (u64 (y + count)) (height d)).

(** [(y1 - y0) * width] wraps, and so would the copy, when [y + count] does. *)
Definition restore_rows (y count : Z) (d : Display) : Display :=
  match backbuf d, scene_buf d with
  | Some b, Some s =>
    let '(y0, y1) := clip_rows y count d in
    let n := u64 (u64 (y1 - y0) * width d) in
    if n =? 0 then d else set_backbuf (copy_px s (y0 * width d) b (y0 * width d) n) d
  | _, _ => d
  end.

(** ** Flushing *)

Fixpoint copy_rows (n : nat) (row w stride : Z) (src dst : memory) : memory :=
  match n with
  | O => dst
  | S n => copy_rows n (row + 1) w stride src (copy_px src (row * w) dst (row * stride) w)
  end.

Definition request_flush (y count : Z) (d : Display) : Display :=
  match backbuf d with
  | None => d
  | Some b =>
    if negb (bpp d =? 4) then d
    else
      let '(y0, y1) := clip_rows y count d in
      match mailbox_virt d, publish_buf d with
      | Some mb, Some pb =>
        if y1 <=? y0 then d
        else if negb (ack mb =? req mb) then d
        else
          let pb := copy_px b (y0 * width d) pb (y0 * width d) ((y1 - y0) * width d) in
          set_mailbox (Some (mkMailbox (u32 y0) (u32 (y1 - y0)) (u32 (req mb + 1)) (ack mb) (cursor_x d) (cursor_y d) (cursor_kind d) (stop mb)))
            (set_publish (mailbox_phys d) (Some pb) (publish_phys d) d)
      | _, _ => set_addr (copy_rows (Z.to_nat (y1 - y0)) y0 (width d) (pitch d / 4) b (addr d)) d
      end
  end.

Definition flush (d : Display) : Display := request_flush 0 (height d) d.
Definition flush_rows (y count : Z) (d : Display) : Display := request_flush y count d.
Definition gopd_active (d : Display) : bool := bool_decide (is_Some (mailbox_virt d)).

(** ** Drawing *)

(** A shift by 32 or more takes its count modulo 32. *)
Definition pack_color (c : Color) (d : Display) : Z :=
  Z.lor (Z.lor (u32 (Z.shiftl (col_r c) (r_shift d mod 32))) (u32 (Z.shiftl (col_g c) (g_shift d mod 32)))) (u32 (Z.shiftl (col_b c) (b_shift d mod 32))).

Definition put_pixel (x y : Z) (c : Color) (d : Display) : Display :=
  if (width d <=? x) || (height d <=? y) then d
  else match backbuf d with
  | Some b => set_backbuf (px_set b (y * width d + x) (pack_color c d)) d
  | None => set_addr (Memory.poke (addr d) (y * pitch d + x * bpp d) (le_bytes 4 (pack_color c d))) d
  end.

Fixpoint pixels_of_row (n : nat) (x y : Z) (c : Color) (d : Display) : Display :=
  match n with O => d | S n => pixels_of_row n (x + 1) y c (put_pixel x y c d) end.

Fixpoint pixel_rows (n : nat) (x y : Z) (w : nat) (c : Color) (d : Display) : Display :=
  match n with O => d | S n => pixel_rows n x (y + 1) w c (pixels_of_row w x y c d) end.

Definition clear (c : Color) (d : Display) : Display :=
  match backbuf d with
  | Some b => set_backbuf (fill_px b 0 (backbuf_len d) (pack_color c d)) d
  | None => pixel_rows (Z.to_nat (height d)) 0 0 (Z.to_nat (width d)) c d
  end.

Fixpoint fill_rows (n : nat) (row x w stride v : Z) (b : memory) : memory :=
  match n with O => b | S n => fill_rows n (row + 1) x w stride v (fill_px b (row * stride + x) w v) end.

Definition fill_rect (x y w h : Z) (c : Color) (d : Display) : Display :=
  let x_end := Z.min (u64 (x + w)) (width d) in
  let y_end := Z.min (u64 (y + h)) (height d) in
  if x_end <=? x then d
  else match backbuf d with
  | Some b => set_backbuf (fill_rows (Z.to_nat (y_end - y)) y x (x_end - x) (width d) (pack_color c d) b) d
  | None => pixel_rows (Z.to_nat (y_end - y)) x y (Z.to_nat (x_end - x)) c d
  end.

(** 8x8 glyphs of the characters from the space on; the others are blank. *)
Definition blank_glyph : list Z := replicate 8 0.
Definition FONT : list (list Z) := replicate 32 blank_glyph ++ [
  [0x00; 0x00; 0x00; 0x00; 0x00; 0x00; 0x00; 0x00];
  [0x18; 0x18; 0x18; 0x18; 0x18; 0x00; 0x18; 0x00];
  [0x66; 0x66; 0x66; 0x00; 0x00; 0x00; 0x00; 0x00];
  [0x36; 0x36; 0x7f; 0x36; 0x7f; 0x36; 0x36; 0x00];
  [0x0c; 0x3e; 0x03; 0x1e; 0x30; 0x1f; 0x0c; 0x00];
  [0x00; 0x63; 0x33; 0x18; 0x0c; 0x66; 0x63; 0x00];
  [0x1c; 0x36; 0x1c; 0x6e; 0x3b; 0x33; 0x6e; 0x00];
  [0x06; 0x06; 0x03; 0x00; 0x00; 0x00; 0x00; 0x00];
  [0x18; 0x0c; 0x06; 0x06; 0x06; 0x0c; 0x18; 0x00];
  [0x06; 0x0c; 0x18; 0x18; 0x18; 0x0c; 0x06; 0x00];
  [0x00; 0x66; 0x3c; 0xff; 0x3c; 0x66; 0x00; 0x00];
  [0x00; 0x0c; 0x0c; 0x3f; 0x0c; 0x0c; 0x00; 0x00];
  [0x00; 0x00; 0x00; 0x00; 0x00; 0x0c; 0x0c; 0x06];
  [0x00; 0x00; 0x00; 0x3f; 0x00; 0x00; 0x00; 0x00];
  [0x00; 0x00; 0x00; 0x00; 0x00; 0x0c; 0x0c; 0x00];
  [0x60; 0x30; 0x18; 0x0c; 0x06; 0x03; 0x01; 0x00];
  [0x3e; 0x63; 0x73; 0x7b; 0x6f; 0x67; 0x3e; 0x00];
  [0x0c; 0x0e; 0x0c; 0x0c; 0x0c; 0x0c; 0x3f; 0x00];
  [0x1e; 0x33; 0x30; 0x1c; 0x06; 0x33; 0x3f; 0x00];
  [0x1e; 0x33; 0x30; 0x1c; 0x30; 0x33; 0x1e; 0x00];
  [0x38; 0x3c; 0x36; 0x33; 0x7f; 0x30; 0x78; 0x00];
  [0x3f; 0x03; 0x1f; 0x30; 0x30; 0x33; 0x1e; 0x00];
  [0x1c; 0x06; 0x03; 0x1f; 0x33; 0x33; 0x1e; 0x00];
  [0x3f; 0x33; 0x30; 0x18; 0x0c; 0x0c; 0x0c; 0x00];
  [0x1e; 0x33; 0x33; 0x1e; 0x33; 0x33; 0x1e; 0x00];
  [0x1e; 0x33; 0x33; 0x3e; 0x30; 0x18; 0x0e; 0x00];
  [0x00; 0x0c; 0x0c; 0x00; 0x00; 0x0c; 0x0c; 0x00];
  [0x00; 0x0c; 0x0c; 0x00; 0x00; 0x0c; 0x0c; 0x06];
  [0x18; 0x0c; 0x06; 0x03; 0x06; 0x0c; 0x18; 0x00];
  [0x00; 0x00; 0x3f; 0x00; 0x00; 0x3f; 0x00; 0x00];
  [0x06; 0x0c; 0x18; 0x30; 0x18; 0x0c; 0x06; 0x00];
  [0x1e; 0x33; 0x30; 0x18; 0x0c; 0x00; 0x0c; 0x00];
  [0x3e; 0x63; 0x7b; 0x7b; 0x7b; 0x03; 0x1e; 0x00];
  [0x0c; 0x1e; 0x33; 0x33; 0x3f; 0x33; 0x33; 0x00];
  [0x3f; 0x66; 0x66; 0x3e; 0x66; 0x66; 0x3f; 0x00];
  [0x3c; 0x66; 0x03; 0x03; 0x03; 0x66; 0x3c; 0x00];
  [0x1f; 0x36; 0x66; 0x66; 0x66; 0x36; 0x1f; 0x00];
  [0x7f; 0x46; 0x16; 0x1e; 0x16; 0x46; 0x7f; 0x00];
  [0x7f; 0x46; 0x16; 0x1e; 0x16; 0x06; 0x0f; 0x00];
  [0x3c; 0x66; 0x03; 0x03; 0x73; 0x66; 0x7c; 0x00];
  [0x33; 0x33; 0x33; 0x3f; 0x33; 0x33; 0x33; 0x00];
  [0x1e; 0x0c; 0x0c; 0x0c; 0x0c; 0x0c; 0x1e; 0x00];
  [0x78; 0x30; 0x30; 0x30; 0x33; 0x33; 0x1e; 0x00];
  [0x67; 0x66; 0x36; 0x1e; 0x36; 0x66; 0x67; 0x00];
  [0x0f; 0x06; 0x06; 0x06; 0x46; 0x66; 0x7f; 0x00];
  [0x63; 0x77; 0x7f; 0x7f; 0x6b; 0x63; 0x63; 0x00];
  [0x63; 0x67; 0x6f; 0x7b; 0x73; 0x63; 0x63; 0x00];
  [0x1c; 0x36; 0x63; 0x63; 0x63; 0x36; 0x1c; 0x00];
  [0x3f; 0x66; 0x66; 0x3e; 0x06; 0x06; 0x0f; 0x00];
  [0x1e; 0x33; 0x33; 0x33; 0x3b; 0x1e; 0x38; 0x00];
  [0x3f; 0x66; 0x66; 0x3e; 0x36; 0x66; 0x67; 0x00];
  [0x1e; 0x33; 0x07; 0x0e; 0x38; 0x33; 0x1e; 0x00];
  [0x3f; 0x2d; 0x0c; 0x0c; 0x0c; 0x0c; 0x1e; 0x00];
  [0x33; 0x33; 0x33; 0x33; 0x33; 0x33; 0x3f; 0x00];
  [0x33; 0x33; 0x33; 0x33; 0x33; 0x1e; 0x0c; 0x00];
  [0x63; 0x63; 0x63; 0x6b; 0x7f; 0x77; 0x63; 0x00];
  [0x63; 0x63; 0x36; 0x1c; 0x1c; 0x36; 0x63; 0x00];
  [0x33; 0x33; 0x33; 0x1e; 0x0c; 0x0c; 0x1e; 0x00];
  [0x7f; 0x63; 0x31; 0x18; 0x4c; 0x66; 0x7f; 0x00];
  [0x1e; 0x06; 0x06; 0x06; 0x06; 0x06; 0x1e; 0x00];
  [0x03; 0x06; 0x0c; 0x18; 0x30; 0x60; 0x40; 0x00];
  [0x1e; 0x18; 0x18; 0x18; 0x18; 0x18; 0x1e; 0x00];
  [0x08; 0x1c; 0x36; 0x63; 0x00; 0x00; 0x00; 0x00];
  [0x00; 0x00; 0x00; 0x00; 0x00; 0x00; 0x00; 0xff];
  [0x0c; 0x0c; 0x18; 0x00; 0x00; 0x00; 0x00; 0x00];
  [0x00; 0x00; 0x1e; 0x30; 0x3e; 0x33; 0x6e; 0x00];
  [0x07; 0x06; 0x06; 0x3e; 0x66; 0x66; 0x3b; 0x00];
  [0x00; 0x00; 0x1e; 0x33; 0x03; 0x33; 0x1e; 0x00];
  [0x38; 0x30; 0x30; 0x3e; 0x33; 0x33; 0x6e; 0x00];
  [0x00; 0x00; 0x1e; 0x33; 0x3f; 0x03; 0x1e; 0x00];
  [0x1c; 0x36; 0x06; 0x0f; 0x06; 0x06; 0x0f; 0x00];
  [0x00; 0x00; 0x6e; 0x33; 0x33; 0x3e; 0x30; 0x1f];
  [0x07; 0x06; 0x36; 0x6e; 0x66; 0x66; 0x67; 0x00];
  [0x0c; 0x00; 0x0e; 0x0c; 0x0c; 0x0c; 0x1e; 0x00];
  [0x30; 0x00; 0x30; 0x30; 0x30; 0x33; 0x33; 0x1e];
  [0x07; 0x06; 0x66; 0x36; 0x1e; 0x36; 0x67; 0x00];
  [0x0e; 0x0c; 0x0c; 0x0c; 0x0c; 0x0c; 0x1e; 0x00];
  [0x00; 0x00; 0x33; 0x7f; 0x7f; 0x6b; 0x63; 0x00];
  [0x00; 0x00; 0x1f; 0x33; 0x33; 0x33; 0x33; 0x00];
  [0x00; 0x00; 0x1e; 0x33; 0x33; 0x33; 0x1e; 0x00];
  [0x00; 0x00; 0x3b; 0x66; 0x66; 0x3e; 0x06; 0x0f];
  [0x00; 0x00; 0x6e; 0x33; 0x33; 0x3e; 0x30; 0x78];
  [0x00; 0x00; 0x3b; 0x6e; 0x66; 0x06; 0x0f; 0x00];
  [0x00; 0x00; 0x3e; 0x03; 0x1e; 0x30; 0x1f; 0x00];
  [0x08; 0x0c; 0x3e; 0x0c; 0x0c; 0x2c; 0x18; 0x00];
  [0x00; 0x00; 0x33; 0x33; 0x33; 0x33; 0x6e; 0x00];
  [0x00; 0x00; 0x33; 0x33; 0x33; 0x1e; 0x0c; 0x00];
  [0x00; 0x00; 0x63; 0x6b; 0x7f; 0x7f; 0x36; 0x00];
  [0x00; 0x00; 0x63; 0x36; 0x1c; 0x36; 0x63; 0x00];
  [0x00; 0x00; 0x33; 0x33; 0x33; 0x3e; 0x30; 0x1f];
  [0x00; 0x00; 0x3f; 0x19; 0x0c; 0x26; 0x3f; 0x00]] ++ replicate 5 blank_glyph.

Definition glyph_of (ch : Z) : list Z := default (default [] (FONT !! 0x3F%nat)) (FONT !! Z.to_nat ch).

Fixpoint draw_bits (n : nat) (col bits cx y scale : Z) (c : Color) (d : Display) : Display :=
  match n with
  | O => d
  | S n =>
    draw_bits n (col + 1) bits cx y scale c
      (if negb (Z.land bits (Z.shiftl 1 col) =? 0) then fill_rect (u64 (cx + col * scale)) y scale scale c d else d)
  end.

Fixpoint draw_glyph (rows : list Z) (row cx y scale : Z) (c : Color) (d : Display) : Display :=
  match rows with
  | [] => d
  | bits :: rows => draw_glyph rows (row + 1) cx y scale c (draw_bits 8 0 bits cx (u64 (y + row * scale)) scale c d)
  end.

(** [text]: the code points of the string. *)
Fixpoint draw_text (text : list Z) (cx y : Z) (c : Color) (scale : Z) (d : Display) : Display :=
  match text with
  | [] => d
  | ch :: text => draw_text text (u64 (cx + 9 * scale)) y c scale (draw_glyph (glyph_of ch) 0 cx y scale c d)
  end.

(** ** Launching [gopd] and its service *)

Section service.
Context {D : Type} `{!Drive D}.

Definition frames_of (s : gate D) : pmm := frames (mach_of (procs_of s)).
Definition with_frames (f : pmm) (s : gate D) : gate D := set_procs (set_mach (set_frames f (mach_of (procs_of s))) (procs_of s)) s.

Record desk := mkDesk { DISPLAY : option Display; gate_of : gate D; GOP_ENABLED : bool; STARTING : bool }.

Definition on_gate {A} (c : ST (gate D) A) : ST (Display * gate D) A := λ '(d, s), '(a, s) ← c s; Ok (a, (d, s)).
Definition on_display (f : Display → Display) : ST (Display * gate D) unit := modify (λ '(d, s), (f d, s)).

(** The publish buffer and the mailbox page, once; [false]: out of memory. *)
Definition gop_buffers (old : memory) : ST (Display * gate D) bool := λ '(d, s),
  let bytes := u64 (backbuf_len d * 4) in
  match alloc_contiguous (u64 (bytes + 4095) / 4096) (frames_of s) with
  | Panic e => Panic e
  | Ok (None, f) => Ok (false, (d, with_frames f s))
  | Ok (Some publish, f) =>
    let d := set_publish (mailbox_phys d) (Some (zeroed old bytes)) publish d in
    match alloc_page f with
    | (None, f) => Ok (false, (d, with_frames f s))
    | (Some mailbox, f) =>
      let d := set_publish mailbox (publish_buf d) publish d in
      (on_gate (grant_mmio_range (fb_phys d) (u64 (height d * pitch d))) ≫= λ _,
       on_gate (grant_mmio_range publish bytes) ≫= λ _,
       on_gate (grant_mmio_range mailbox 4096) ≫= λ _, mret true) (d, with_frames f s)
    end
  end.

Definition fresh_mailbox : GopMailbox := mkMailbox 0 0 0 0 0 0 0 0.

Definition SERVICE_NAME : list Z := txt "<gopd>".

Definition spawn_gopd (old : memory) (elf : list Z) : ST (Display * gate D) unit :=
  '(d, s) ← get;
  if gopd_active d || bool_decide (backbuf d = None) then mret tt
  else
    ok ← (if mailbox_phys d =? 0 then gop_buffers old else mret true);
    if negb ok then mret tt
    else
      '(d, _) ← get;
      e ← on_gate (on_procs (exec_async_with_arg U64_MAX SERVICE_NAME elf (mailbox_phys d)));
      match e with None => on_display (set_mailbox (Some fresh_mailbox)) | Some _ => mret tt end.

Definition gop_is_running (s : desk) : bool := is_process_running SERVICE_NAME (procs_of (gate_of s)).
Definition STOP_WAIT_SPINS : nat := Z.to_nat 500000000.

(** [others]: what the rest of the system does between two looks of a waiting loop. *)
Context (others : ST desk unit).

Definition set_desk_display (d : option Display) (s : desk) : desk := mkDesk d (gate_of s) (GOP_ENABLED s) (STARTING s).
Definition set_starting (b : bool) (s : desk) : desk := mkDesk (DISPLAY s) (gate_of s) (GOP_ENABLED s) b.

(** Wait until the process is ([up]) or is not running; [false]: gave up. *)
Fixpoint wait_running (n : nat) (up : bool) : ST desk bool :=
  match n with
  | O => mret false
  | S n => s ← get; if Bool.eqb (gop_is_running s) up then mret true else others ≫= λ _, wait_running n up
  end.

Definition stop_service : ST desk (option string) :=
  s ← get;
  if negb (gop_is_running s) then mret (Some "not running"%string)
  else match DISPLAY s with
  | None => mret (Some "driver not initialized"%string)
  | Some d =>
    match mailbox_virt d with
    | None => mret (Some "driver not initialized"%string)
    | Some mb =>
      put (set_desk_display (Some (set_mailbox (Some (mkMailbox (dirty_y mb) (dirty_count mb) (req mb) (ack mb) (mb_cursor_x mb) (mb_cursor_y mb) (mb_cursor_kind mb) 1)) d)) s) ≫= λ _,
      gone ← wait_running STOP_WAIT_SPINS false;
      if (gone : bool)
      then modify (λ s, set_desk_display (set_mailbox None <$> DISPLAY s) s) ≫= λ _, mret None
      else mret (Some "timeout waiting for driver to stop"%string)
    end
  end.

Definition launch (old : memory) (elf : list Z) : ST desk (option string) :=
  match elf with
  | [] => mret (Some "gopd ELF not built"%string)
  | _ =>
    s ← get;
    match DISPLAY s with
    | None => mret (Some "display not initialized"%string)
    | Some d =>
      if gopd_active d then mret (Some "already running"%string)
      else match spawn_gopd old elf (d, gate_of s) with
      | Panic e => panic e
      | Ok (_, (d, g)) =>
        put (mkDesk (Some d) g (GOP_ENABLED s) (STARTING s)) ≫= λ _,
        if negb (gopd_active d) then mret (Some "launch failed"%string)
        else up ← wait_running STOP_WAIT_SPINS true; mret (if (up : bool) then None else Some "timeout waiting for driver to start"%string)
      end
    end
  end.

Definition start_service (old : memory) (elf : list Z) : ST desk (option string) :=
  s ← get;
  if negb (GOP_ENABLED s) then mret (Some "disabled"%string)
  else if gop_is_running s then mret (Some "already running"%string)
  else if STARTING s then mret (Some "start already in progress"%string)
  else put (set_starting true s) ≫= λ _, r ← launch old elf; modify (set_starting false) ≫= λ _, mret r.
End service.
Arguments desk : clear implicits.

(** ** The [gopd] process ([userspace/gopd/src/main.rs])

    Its view of the screen: cells of a pitch of [pitch / 4], signed coordinates. *)

Definition gpixel (pitch width height x y color : Z) (fb : memory) : memory :=
  if (0 <=? x) && (0 <=? y) && (x <? width) && (y <? height) then px_set fb (y * pitch + x) color else fb.

Fixpoint grect_row (n : nat) (pitch width height x y color : Z) (fb : memory) : memory :=
  match n with O => fb | S n => grect_row n pitch width height (i32 (x + 1)) y color (gpixel pitch width height x y color fb) end.

Fixpoint grect (h : nat) (pitch width height x y : Z) (w : nat) (color : Z) (fb : memory) : memory :=
  match h with O => fb | S h => grect h pitch width height x (i32 (y + 1)) w color (grect_row w pitch width height x y color fb) end.

Definition WHITE : Z := 0x00FFFFFF.
Definition BLACK : Z := 0x00111111.

(** The two strokes of a diagonal, [i] from -4 to 4; [s] is the sign of the slope. *)
Fixpoint diagonal (n : nat) (i s pitch width height cx cy : Z) (fb : memory) : memory :=
  match n with
  | O => fb
  | S n =>
    diagonal n (i + 1) s pitch width height cx cy
      (gpixel pitch width height (i32 (cx + i)) (i32 (cy + s * i)) WHITE
        (gpixel pitch width height (i32 (cx + i + 1)) (i32 (cy + s * i + 1)) BLACK fb))
  end.

(** Rectangles in drawing order: offsets from the cursor, size, colour. *)
Definition cursor_rects (kind : Z) : list (Z * Z * Z * Z * Z) :=
  if kind =? 1 then [(-7, 0, 15, 1, BLACK); (-7, -3, 1, 7, BLACK); (7, -3, 1, 7, BLACK); (-6, 0, 13, 1, WHITE); (-6, -2, 1, 5, WHITE); (6, -2, 1, 5, WHITE)]
  else if kind =? 2 then [(0, -7, 1, 15, BLACK); (-3, -7, 7, 1, BLACK); (-3, 7, 7, 1, BLACK); (0, -6, 1, 13, WHITE); (-2, -6, 5, 1, WHITE); (-2, 6, 5, 1, WHITE)]
  else if kind =? 3 then [(-3, -4, 5, 1, BLACK); (-4, -3, 1, 4, BLACK); (1, 5, 5, 1, BLACK); (5, 1, 1, 4, BLACK);
                          (-3, -5, 5, 1, WHITE); (-5, -3, 1, 4, WHITE); (1, 5, 4, 1, WHITE); (5, 1, 1, 4, WHITE)]
  else if kind =? 4 then [(-3, 4, 5, 1, BLACK); (-4, -3, 1, 4, BLACK); (1, -4, 5, 1, BLACK); (5, -3, 1, 4, BLACK);
                          (-3, 4, 4, 1, WHITE); (-5, -3, 1, 4, WHITE); (1, -5, 5, 1, WHITE); (5, -3, 1, 4, WHITE)]
  else [(-6, 0, 13, 1, WHITE); (0, -6, 1, 13, WHITE)].

Fixpoint draw_rects (l : list (Z * Z * Z * Z * Z)) (pitch width height cx cy : Z) (fb : memory) : memory :=
  match l with
  | [] => fb
  | (dx, dy, w, h, color) :: l =>
    draw_rects l pitch width height cx cy (grect (Z.to_nat h) pitch width height (i32 (cx + dx)) (i32 (cy + dy)) (Z.to_nat w) color fb)
  end.

Definition draw_cursor (pitch width height cx cy kind : Z) (fb : memory) : memory :=
  let fb := if kind =? 3 then diagonal 9 (-4) 1 pitch width height cx cy fb
            else if kind =? 4 then diagonal 9 (-4) (-1) pitch width height cx cy fb else fb in
  draw_rects (cursor_rects kind) pitch width height cx cy fb.
