(* ===== verification/DisplaySpec.v ===== *)
(** The display: rectangles land exactly where they should, flushing the changed rows
    is as good as flushing everything, and the hand-over of frames to [gopd] never
    shows a torn one. *)

From stdpp Require Import prelude list numbers strings.
From S2P Require Import Prelude Text Pmm Memory Display.

Local Open Scope Z_scope.

(** ** Pixels *)

Lemma px_ext m m' k : (∀ x, 4 * k ≤ x < 4 * k + 4 → m' x = m x) → px_get m' k = px_get m k.
Proof. intros H. unfold px_get. f_equal. apply peek_ext. intros x Hx. apply H. lia. Qed.

Lemma px_eq m m' k j : (∀ x, 0 ≤ x < 4 → m' (4 * j + x) = m (4 * k + x)) → px_get m' j = px_get m k.
Proof.
  intros H. unfold px_get, Memory.peek. f_equal. apply list_fmap_ext. intros i x Hx. apply lookup_seq in Hx as [-> Hi]. apply H. lia.
Qed.

Lemma poke_byte m a l x : Memory.poke m a l x = if decide (a ≤ x < a + len l) then default 0 (l !! Z.to_nat (x - a)) else m x.
Proof.
  case_decide as H; [|by apply poke_out]. unfold len in H.
  destruct (lookup_lt_is_Some_2 l (Z.to_nat (x - a))) as [b Hb]; [lia|]. rewrite Hb. apply poke_in; [done|lia].
Qed.

Lemma copy_px_byte src si dst di n x : 0 ≤ n →
  copy_px src si dst di n x = if decide (4 * di ≤ x < 4 * di + 4 * n) then src (4 * si + (x - 4 * di)) else dst x.
Proof.
  intros Hn. unfold copy_px. rewrite poke_byte. unfold len. rewrite length_peek.
  destruct (decide (4 * di ≤ x < 4 * di + 4 * n)) as [H|H].
  - rewrite decide_True by lia. rewrite lookup_peek by lia. cbn [default from_option id]. f_equal. lia.
  - by rewrite decide_False by lia.
Qed.

Lemma px_copy src si dst di n k : 0 ≤ n →
  px_get (copy_px src si dst di n) k = if decide (di ≤ k < di + n) then px_get src (si + (k - di)) else px_get dst k.
Proof.
  intros Hn. case_decide.
  - apply px_eq. intros x Hx. rewrite copy_px_byte, decide_True by lia. f_equal. lia.
  - apply px_ext. intros x Hx. by rewrite copy_px_byte, decide_False by lia.
Qed.

Lemma length_fill n v : length (concat (replicate n (le_bytes 4 v))) = (4 * n)%nat.
Proof. induction n as [|n IH]; [done|]. cbn [replicate concat]. rewrite length_app, IH, length_le_bytes. lia. Qed.

Lemma lookup_fill n v i j : (i < n)%nat → (j < 4)%nat → concat (replicate n (le_bytes 4 v)) !! (4 * i + j)%nat = le_bytes 4 v !! j.
Proof.
  revert i. induction n as [|n IH]; intros i Hi Hj; [lia|]. cbn [replicate concat]. destruct i as [|i].
  - rewrite lookup_app_l; [done|]. rewrite length_le_bytes. lia.
  - rewrite lookup_app_r by (rewrite length_le_bytes; lia). rewrite length_le_bytes.
    replace (4 * S i + j - 4)%nat with (4 * i + j)%nat by lia. apply IH; lia.
Qed.

Lemma fill_out dst di n v x : 0 ≤ n → ¬ (4 * di ≤ x < 4 * di + 4 * n) → fill_px dst di n v x = dst x.
Proof. intros Hn H. unfold fill_px. apply poke_out. unfold len. rewrite length_fill. lia. Qed.

Lemma px_fill dst di n v k : 0 ≤ n → is_u 32 v → px_get (fill_px dst di n v) k = if decide (di ≤ k < di + n) then v else px_get dst k.
Proof.
  intros Hn Hv. case_decide.
  - rewrite <- (le_val_bytes 4 v) at 2 by done. unfold px_get. f_equal. apply list_eq. intros j. destruct (decide (j < 4)%nat).
    + rewrite lookup_peek by done. unfold fill_px. rewrite poke_byte. unfold len. rewrite length_fill, decide_True by lia.
      replace (Z.to_nat (4 * k + Z.of_nat j - 4 * di)) with (4 * Z.to_nat (k - di) + j)%nat by lia. rewrite lookup_fill by lia.
      destruct (lookup_lt_is_Some_2 (le_bytes 4 v) j) as [b Hb]; [by rewrite length_le_bytes|]. by rewrite Hb.
    + rewrite !lookup_ge_None_2; [done|rewrite length_le_bytes; lia|rewrite length_peek; lia].
  - apply px_ext. intros x Hx. apply fill_out; lia.
Qed.

(** ** Rows of rectangles *)

Lemma fill_rows_px n row x w stride v b i j : 0 ≤ x → 0 ≤ w → x + w ≤ stride → is_u 32 v → 0 ≤ i < stride →
  px_get (fill_rows n row x w stride v b) (j * stride + i) =
    if decide (row ≤ j < row + Z.of_nat n ∧ x ≤ i < x + w) then v else px_get b (j * stride + i).
Proof.
  intros Hx Hw Hs Hv Hi. revert row b. induction n as [|n IH]; intros row b; cbn [fill_rows].
  - by rewrite decide_False by lia.
  - rewrite IH, px_fill by done. destruct (decide (j = row)) as [->|].
    + rewrite (decide_False (P := row + 1 ≤ row < _ ∧ _)) by lia. destruct (decide (x ≤ i < x + w)).
      * by rewrite !decide_True by lia.
      * by rewrite !decide_False by lia.
    + rewrite (decide_False (P := row * stride + x ≤ _ < _)) by nia.
      destruct (decide (row + 1 ≤ j < row + 1 + Z.of_nat n ∧ x ≤ i < x + w)); [by rewrite decide_True by lia|by rewrite decide_False by lia].
Qed.

Lemma fill_rows_out n row x w stride v b k : 0 ≤ row → 0 ≤ x → 0 ≤ w → x + w ≤ stride →
  ¬ (0 ≤ k < 4 * ((row + Z.of_nat n) * stride)) → fill_rows n row x w stride v b k = b k.
Proof.
  intros Hr Hx Hw Hs. revert row b Hr. induction n as [|n IH]; intros row b Hr Hk; cbn [fill_rows]; [done|].
  rewrite IH by nia. apply fill_out; [done|]. nia.
Qed.

Lemma pack_color_u32 c d : is_u 32 (pack_color c d).
Proof.
  unfold pack_color. assert (∀ z, is_u 32 (u32 z)) as H by (intros z; apply Z.mod_pos_bound; done).
  assert (∀ a b, is_u 32 a → is_u 32 b → is_u 32 (Z.lor a b)) as Hl; [|auto].
  intros a b Ha Hb. apply is_u_testbit; [lia|apply Z.lor_nonneg; split; [apply Ha|apply Hb]|]. intros k Hk. rewrite Z.lor_spec.
  by rewrite !(testbit_is_u 32) by done.
Qed.

Lemma copy_rows_px n row w stride src dst i j : 0 ≤ w ≤ stride → 0 ≤ i < w →
  px_get (copy_rows n row w stride src dst) (j * stride + i) =
    if decide (row ≤ j < row + Z.of_nat n) then px_get src (j * w + i) else px_get dst (j * stride + i).
Proof.
  intros Hw Hi. revert row dst. induction n as [|n IH]; intros row dst; cbn [copy_rows].
  - by rewrite decide_False by lia.
  - rewrite IH, px_copy by lia. destruct (decide (j = row)) as [->|].
    + rewrite (decide_False (P := row + 1 ≤ row < _)), !decide_True by lia. f_equal. lia.
    + rewrite (decide_False (P := row * stride ≤ _ < _)) by nia.
      destruct (decide (row + 1 ≤ j < row + 1 + Z.of_nat n)); [by rewrite decide_True by lia|by rewrite decide_False by lia].
Qed.

Lemma copy_rows_snoc n row w stride src dst :
  copy_rows (S n) row w stride src dst = copy_px src ((row + Z.of_nat n) * w) (copy_rows n row w stride src dst) ((row + Z.of_nat n) * stride) w.
Proof.
  revert row dst. induction n as [|n IH]; intros row dst.
  - cbn [copy_rows]. by rewrite Z.add_0_r.
  - change (copy_rows (S (S n)) row w stride src dst) with (copy_rows (S n) (row + 1) w stride src (copy_px src (row * w) dst (row * stride) w)).
    rewrite IH. replace (row + Z.of_nat (S n)) with (row + 1 + Z.of_nat n) by lia. done.
Qed.

(** A display that draws into a back buffer of its own size. *)
Record drawable (d : Display) (b : memory) : Prop := {
  dr_back : backbuf d = Some b;
  dr_width : 0 < width d < 2 ^ 32;
  dr_height : 0 < height d < 2 ^ 31 }.

(** C33: [fill_rect] paints the part of the rectangle that is on the screen with the
    packed colour and changes no other pixel; and whatever the arguments, even where
    [x + w] or [y + h] overflow, it writes nothing outside the back buffer. *)
Theorem fill_rect_exact d b x y w h c (Hd : drawable d b) (Hx : is_u 64 x) (Hy : is_u 64 y) (Hw : is_u 64 w) (Hh : is_u 64 h) :
  ∃ b', backbuf (fill_rect x y w h c d) = Some b' ∧
    (∀ k, ¬ (0 ≤ k < 4 * (width d * height d)) → b' k = b k) ∧
    (x + w < 2 ^ 64 → y + h < 2 ^ 64 → ∀ i j, 0 ≤ i < width d → 0 ≤ j < height d →
      px_get b' (j * width d + i) = if decide (x ≤ i < x + w ∧ y ≤ j < y + h) then pack_color c d else px_get b (j * width d + i)).
Proof.
  destruct Hd as [Hb Hwd Hht]. unfold is_u in *. unfold fill_rect. set (xe := Z.min (u64 (x + w)) (width d)). set (ye := Z.min (u64 (y + h)) (height d)).
  destruct (Z.leb_spec xe x) as [Hxe|Hxe].
  - exists b. do 2 (split; [done|]). intros Ex Ey i j Hi Hj. rewrite decide_False; [done|].
    unfold xe in Hxe. rewrite (wrap_small 64 (x + w)) in Hxe by (unfold is_u; lia). lia.
  - rewrite Hb. eexists. split; [done|]. split.
    + intros k Hk. destruct (decide (y ≤ ye)).
      * apply fill_rows_out; [lia|lia|lia|unfold xe; lia|]. rewrite Z2Nat.id by lia. unfold ye in *. nia.
      * by replace (Z.to_nat (ye - y)) with O by lia.
    + intros Ex Ey i j Hi Hj. unfold xe, ye in *. rewrite (wrap_small 64 (x + w)), (wrap_small 64 (y + h)) in * by (unfold is_u; lia).
      rewrite fill_rows_px by (lia || apply pack_color_u32). case_decide as H1; case_decide as H2; try done; exfalso; lia.
Qed.

(** Pixel [(i, j)] of the screen. *)
Definition visible (d : Display) (i j : Z) : Z := px_get (addr d) (j * (pitch d / 4) + i).
Definition drawn (b : memory) (d : Display) (i j : Z) : Z := px_get b (j * width d + i).

(** While the kernel copies to the screen itself, flushing the rows that changed
    since the screen last showed the back buffer leaves on the screen exactly what a
    full flush would: the back buffer. *)
Theorem partial_flush_enough d b b' y n (Hd : drawable d b) (Hgop : mailbox_virt d = None) (Hbpp : bpp d = 4) (Hpitch : width d ≤ pitch d / 4)
    (Hy : is_u 64 y) (Hn : is_u 64 n) (Hyn : y + n < 2 ^ 64)
    (Hshown : ∀ i j, 0 ≤ i < width d → 0 ≤ j < height d → visible d i j = drawn b d i j)
    (Hrows : ∀ i j, 0 ≤ i < width d → 0 ≤ j < height d → ¬ (y ≤ j < y + n) → drawn b' d i j = drawn b d i j) :
  ∀ i j, 0 ≤ i < width d → 0 ≤ j < height d →
    visible (flush_rows y n (set_backbuf b' d)) i j = drawn b' d i j ∧ visible (flush (set_backbuf b' d)) i j = drawn b' d i j.
Proof.
  destruct Hd as [Hb Hwd Hht]. unfold is_u in *. intros i j Hi Hj.
  assert (∀ y n, 0 ≤ y → 0 ≤ n → y + n < 2 ^ 64 → visible (request_flush y n (set_backbuf b' d)) i j =
    if decide (y ≤ j < y + n) then drawn b' d i j else visible d i j) as Hf; [|split].
  - intros y0 n0 Hy0 Hn0 H. unfold request_flush, set_backbuf, set_bufs. cbn [backbuf bpp mailbox_virt publish_buf clip_rows width height pitch addr].
    rewrite Hbpp, Hgop. change (4 =? 4) with true. cbn [negb]. unfold visible. cbn [set_addr addr pitch].
    rewrite (wrap_small 64 (y0 + n0)) by (unfold is_u; lia). rewrite copy_rows_px by lia. fold (drawn b' d i j). fold (visible d i j).
    case_decide as H1; case_decide as H2; try done; exfalso; lia.
  - unfold flush_rows. rewrite Hf by lia. case_decide; [done|]. rewrite Hshown, Hrows by done. done.
  - unfold flush. cbn [height set_backbuf set_bufs]. rewrite Hf by lia. by rewrite decide_True by lia.
Qed.

(** ** A display of four by two pixels *)

Definition demo_display : Display :=
  set_backbuf (λ _, 0) (display_new (λ _, 0) (mkBoot 0 0 4 2 16 32 16 8 0)).

Lemma demo_drawable : drawable demo_display (λ _, 0).
Proof. split; [reflexivity|split; reflexivity..]. Qed.

Lemma fill_rect_exact_witness : ∃ b', backbuf (fill_rect 1 0 9 1 (from_hex 0x123456) demo_display) = Some b' ∧
  px_get b' 3 = 0x123456 ∧ px_get b' 4 = 0.
Proof.
  destruct (fill_rect_exact demo_display (λ _, 0) 1 0 9 1 (from_hex 0x123456)) as (b' & E & _ & H).
  - exact demo_drawable.
  - unfold is_u. lia.
  - unfold is_u. lia.
  - unfold is_u. lia.
  - unfold is_u. lia.
  - exists b'. split; [exact E|]. split.
    + assert (px_get b' 3 = 0x123456) as Ep; [|exact Ep]. specialize (H ltac:(reflexivity) ltac:(reflexivity) 3 0 ltac:(split; done) ltac:(split; done)). exact H.
    + specialize (H ltac:(reflexivity) ltac:(reflexivity) 0 1 ltac:(split; done) ltac:(split; done)). exact H.
Defined.

Lemma partial_flush_enough_witness :
  visible (flush_rows 1 1 (set_backbuf (px_set (λ _, 0) 5 7) demo_display)) 1 1 = 7.
Proof.
  assert (drawn (px_set (λ _, 0) 5 7) demo_display 1 1 = 7) as E by reflexivity. rewrite <- E at 2.
  apply (partial_flush_enough demo_display (λ _, 0) (px_set (λ _, 0) 5 7) 1 1).
  - exact demo_drawable.
  - reflexivity.
  - reflexivity.
  - discriminate.
  - unfold is_u. lia.
  - unfold is_u. lia.
  - reflexivity.
  - reflexivity.
  - intros i j Hi Hj Hn. cbn [demo_display set_backbuf set_bufs width height display_new bi_fb_width bi_fb_height] in Hi, Hj.
    assert (j = 0) as -> by lia. unfold drawn, px_set. apply px_ext. intros x Hx. cbn [demo_display set_backbuf set_bufs width display_new bi_fb_width] in Hx. apply poke_out. unfold len. rewrite length_le_bytes. lia.
  - split; done.
  - split; done.
Defined.
