(* ===== verification/Gopd.v ===== *)
(** Presenting frames: the kernel's [request_flush] and the [gopd] process
    ([userspace/gopd/src/main.rs]) as two tasks that may be switched at any point.

    Each task is a program counter over the shared mailbox, publish buffer and screen.
    The kernel copies byte by byte, [gopd] row by row; the mailbox fields a task reads
    or writes together are one step, [ack] and [req] are steps of their own. Between
    two flushes the kernel's task draws and moves the cursor as it likes. What it has drawn
    when it calls [request_flush] is recorded, and each call that is not dropped is logged. *)

From stdpp Require Import prelude list numbers strings.
From S2P Require Import Prelude Text Pmm Memory Display DisplaySpec.

Local Open Scope Z_scope.

(** ** The two tasks *)

(** Where the kernel's task is in [request_flush]: outside; [ack] read; copying rows
    [y0, y1), at byte [k]; copied; fields written. *)
Inductive kernel_pc := KRun | KAck (y0 y1 a : Z) | KCopy (y0 y1 k : Z) | KFields (y0 y1 : Z) | KBump (y0 y1 : Z).

(** Where [gopd] is in its loop: waiting for a request; [req] read; copying; drawn. *)
Inductive gopd_pc := GPoll | GSeen (r : Z) | GRows (r row y1 : Z) | GDrawn (r : Z).

(** What a call of [request_flush] asks to be shown: the back buffer as drawn so far, its rows
    from [f_y0] up to [f_y1], and the cursor. *)
Record frame_of := mkFrame { f_img : memory; f_y0 : Z; f_y1 : Z; f_cursor : Z * Z * Z }.

(** [called]: the call in progress; [given]: the calls [gopd] was to serve, in order. Neither is
    read by the program. *)
Record sys := mkSys {
  back : memory; publish : memory; fb : memory; mb : GopMailbox; cursor : Z * Z * Z; kpc : kernel_pc; gpc : gopd_pc; last_req : Z;
  called : option frame_of; given : list frame_of }.

Definition call (f : frame_of) (s : sys) : sys :=
  mkSys (back s) (publish s) (fb s) (mb s) (cursor s) (kpc s) (gpc s) (last_req s) (Some f) (given s).
Definition give (s : sys) : sys :=
  mkSys (back s) (publish s) (fb s) (mb s) (cursor s) (kpc s) (gpc s) (last_req s) (called s)
    (given s ++ match called s with Some f => [f] | None => [] end).

Definition set_req (r : Z) (m : GopMailbox) : GopMailbox :=
  mkMailbox (dirty_y m) (dirty_count m) r (ack m) (mb_cursor_x m) (mb_cursor_y m) (mb_cursor_kind m) (stop m).
Definition set_ack (a : Z) (m : GopMailbox) : GopMailbox :=
  mkMailbox (dirty_y m) (dirty_count m) (req m) a (mb_cursor_x m) (mb_cursor_y m) (mb_cursor_kind m) (stop m).
Definition set_fields (y0 y1 : Z) (c : Z * Z * Z) (m : GopMailbox) : GopMailbox :=
  let '(x, y, kind) := c in mkMailbox (u32 y0) (u32 (y1 - y0)) (req m) (ack m) x y kind (stop m).

Section protocol.
(** The geometry both sides were given. *)
Context (w h stride : Z).

Definition kernel (s : sys) (b p : memory) (m : GopMailbox) (c : Z * Z * Z) (k : kernel_pc) : sys := mkSys b p (fb s) m c k (gpc s) (last_req s) (called s) (given s).

Inductive kernel_step (s : sys) : sys → Prop :=
| k_draw b c : kpc s = KRun → kernel_step s (kernel s b (publish s) (mb s) c KRun)
| k_start y count y0 y1 : kpc s = KRun → y0 = Z.min y h → y1 = Z.min (u64 (y + count)) h → is_u 64 y → y0 < y1 →
    kernel_step s (call (mkFrame (back s) y0 y1 (cursor s)) (kernel s (back s) (publish s) (mb s) (cursor s) (KAck y0 y1 (ack (mb s)))))
| k_drop y0 y1 a : kpc s = KAck y0 y1 a → a ≠ req (mb s) → kernel_step s (kernel s (back s) (publish s) (mb s) (cursor s) KRun)
| k_accept y0 y1 a : kpc s = KAck y0 y1 a → a = req (mb s) →
    kernel_step s (give (kernel s (back s) (publish s) (mb s) (cursor s) (KCopy y0 y1 (4 * (y0 * w)))))
| k_byte y0 y1 k : kpc s = KCopy y0 y1 k → k < 4 * (y1 * w) →
    kernel_step s (kernel s (back s) (Memory.poke (publish s) k [back s k]) (mb s) (cursor s) (KCopy y0 y1 (k + 1)))
| k_copied y0 y1 k : kpc s = KCopy y0 y1 k → 4 * (y1 * w) ≤ k → kernel_step s (kernel s (back s) (publish s) (mb s) (cursor s) (KFields y0 y1))
| k_fields y0 y1 : kpc s = KFields y0 y1 →
    kernel_step s (kernel s (back s) (publish s) (set_fields y0 y1 (cursor s) (mb s)) (cursor s) (KBump y0 y1))
| k_bump y0 y1 : kpc s = KBump y0 y1 → kernel_step s (kernel s (back s) (publish s) (set_req (u32 (req (mb s) + 1)) (mb s)) (cursor s) KRun).

Definition gopd (s : sys) (f : memory) (m : GopMailbox) (g : gopd_pc) (l : Z) : sys := mkSys (back s) (publish s) f m (cursor s) (kpc s) g l (called s) (given s).

Inductive gopd_step (s : sys) : sys → Prop :=
| g_req r : gpc s = GPoll → r = req (mb s) → r ≠ last_req s → gopd_step s (gopd s (fb s) (mb s) (GSeen r) r)
| g_dirty r y y1 : gpc s = GSeen r → y = Z.min (dirty_y (mb s)) h → y1 = Z.min (u64 (y + dirty_count (mb s))) h →
    gopd_step s (gopd s (fb s) (mb s) (GRows r y y1) (last_req s))
| g_row r row y1 : gpc s = GRows r row y1 → row < y1 →
    gopd_step s (gopd s (copy_px (publish s) (row * w) (fb s) (row * stride) w) (mb s) (GRows r (row + 1) y1) (last_req s))
| g_cursor r row y1 : gpc s = GRows r row y1 → y1 ≤ row →
    gopd_step s (gopd s (draw_cursor stride w h (mb_cursor_x (mb s)) (mb_cursor_y (mb s)) (mb_cursor_kind (mb s)) (fb s)) (mb s) (GDrawn r) (last_req s))
| g_ack r : gpc s = GDrawn r → gopd_step s (gopd s (fb s) (set_ack r (mb s)) GPoll (last_req s)).

Definition sys_step (s s' : sys) : Prop := kernel_step s s' ∨ gopd_step s s'.

(** ** The contract: frames are presented whole *)

(** The rows of a frame, the first [n] of them, and its cursor, over what was on the screen. *)
Definition show_rows (f : frame_of) (n : nat) (scr : memory) : memory := copy_rows n (f_y0 f) w stride (f_img f) scr.
Definition show_cursor (c : Z * Z * Z) (scr : memory) : memory := let '(x, y, kind) := c in draw_cursor stride w h x y kind scr.
Definition show_frame (f : frame_of) (scr : memory) : memory := show_cursor (f_cursor f) (show_rows f (Z.to_nat (f_y1 f - f_y0 f)) scr).
Definition show_all (l : list frame_of) (scr : memory) : memory := foldl (λ scr f, show_frame f scr) scr l.

(** Whole frames: the screen after the last one presented, and the one [gopd] has yet to finish. *)
Record stage := mkStage { s_screen : memory; s_pending : option frame_of }.

(** ** Simulation *)

Definition copied (b p : memory) (lo hi : Z) : Prop := ∀ x, lo ≤ x < hi → p x = b x.

(** Nobody else is at the publish buffer while the kernel is. *)
Record idle (s : sys) (t : stage) : Prop := {
  id_ack : ack (mb s) = req (mb s) ∧ last_req s = req (mb s) ∧ gpc s = GPoll;
  id_screen : fb s = s_screen t;
  id_kpc : match kpc s with
    | KRun => True
    | KAck y0 y1 a => 0 ≤ y0 < y1 ∧ y1 ≤ h
    | KCopy y0 y1 k => 0 ≤ y0 < y1 ∧ y1 ≤ h ∧ 4 * (y0 * w) ≤ k ≤ 4 * (y1 * w) ∧ copied (back s) (publish s) (4 * (y0 * w)) k
    | KFields y0 y1 => 0 ≤ y0 < y1 ∧ y1 ≤ h ∧ copied (back s) (publish s) (4 * (y0 * w)) (4 * (y1 * w))
    | KBump y0 y1 => 0 ≤ y0 < y1 ∧ y1 ≤ h ∧ copied (back s) (publish s) (4 * (y0 * w)) (4 * (y1 * w)) ∧
        dirty_y (mb s) = y0 ∧ dirty_count (mb s) = y1 - y0 ∧ (mb_cursor_x (mb s), mb_cursor_y (mb s), mb_cursor_kind (mb s)) = cursor s
    end }.

Record presenting (s : sys) (t : stage) (f : frame_of) : Prop := {
  pr_ack : req (mb s) = u32 (ack (mb s) + 1) ∧ is_u 32 (ack (mb s));
  pr_kpc : kpc s = KRun ∨ ∃ y0 y1 a, kpc s = KAck y0 y1 a ∧ a ≠ req (mb s) ∧ 0 ≤ y0 < y1 ∧ y1 ≤ h;
  pr_rows : 0 ≤ f_y0 f < f_y1 f ∧ f_y1 f ≤ h;
  pr_copied : copied (f_img f) (publish s) (4 * (f_y0 f * w)) (4 * (f_y1 f * w));
  pr_mb : dirty_y (mb s) = f_y0 f ∧ dirty_count (mb s) = f_y1 f - f_y0 f ∧
    (mb_cursor_x (mb s), mb_cursor_y (mb s), mb_cursor_kind (mb s)) = f_cursor f;
  pr_gpc : match gpc s with
    | GPoll => last_req s = ack (mb s) ∧ fb s = s_screen t
    | GSeen r => r = req (mb s) ∧ last_req s = r ∧ fb s = s_screen t
    | GRows r row y1 => r = req (mb s) ∧ last_req s = r ∧ y1 = f_y1 f ∧ f_y0 f ≤ row ≤ y1 ∧ fb s = show_rows f (Z.to_nat (row - f_y0 f)) (s_screen t)
    | GDrawn r => r = req (mb s) ∧ last_req s = r ∧ fb s = show_frame f (s_screen t)
    end }.

Record sim (s : sys) (t : stage) : Prop := {
  si_u : is_u 32 (req (mb s));
  si_phase : match s_pending t with None => idle s t | Some f => presenting s t f end }.

Lemma u32_succ_ne a : is_u 32 a → u32 (a + 1) ≠ a.
Proof. unfold is_u, wrap. dlia. Qed.

Hypothesis geometry : 0 < w < 2 ^ 32 ∧ 0 < h < 2 ^ 32.

Lemma copied_byte b p lo k : lo ≤ k → copied b p lo k → copied b (Memory.poke p k [b k]) lo (k + 1).
Proof.
  intros Hk H x Hx. rewrite poke_byte. cbn [len length]. unfold len. cbn [length]. destruct (decide (k ≤ x < k + Z.of_nat 1)).
  - assert (x = k) as -> by lia. by rewrite Z.sub_diag.
  - apply H. lia.
Qed.

Lemma show_row f n scr p : copied (f_img f) p (4 * (f_y0 f * w)) (4 * (f_y1 f * w)) → f_y0 f + Z.of_nat n < f_y1 f →
  copy_px p ((f_y0 f + Z.of_nat n) * w) (show_rows f n scr) ((f_y0 f + Z.of_nat n) * stride) w = show_rows f (S n) scr.
Proof.
  intros Hc Hn. unfold show_rows. rewrite copy_rows_snoc. unfold copy_px. f_equal. apply peek_ext. intros x Hx. apply Hc. nia.
Qed.

(** Undisturbed, the steps of the kernel's task are [request_flush]. *)
Lemma copy_steps n s y0 y1 k : kpc s = KCopy y0 y1 k → k + Z.of_nat n = 4 * (y1 * w) →
  ∃ p, rtc kernel_step s (kernel s (back s) p (mb s) (cursor s) (KCopy y0 y1 (4 * (y1 * w)))) ∧
    ∀ x, p x = if decide (k ≤ x < 4 * (y1 * w)) then back s x else publish s x.
Proof.
  revert s k. induction n as [|n IH]; intros s k Hk Hn.
  - exists (publish s). assert (4 * (y1 * w) = k) as -> by lia. split; [|intros x; by rewrite decide_False by lia].
    destruct s. cbn in *. by subst.
  - destruct (IH (kernel s (back s) (Memory.poke (publish s) k [back s k]) (mb s) (cursor s) (KCopy y0 y1 (k + 1))) (k + 1)) as (p & Hr & Hp); [done|lia|].
    exists p. split; [eapply rtc_l; [by apply (k_byte s y0 y1 k); [|lia]|exact Hr]|]. intros x. rewrite Hp. cbn [kernel back publish]. rewrite poke_byte.
    unfold len. cbn [length]. destruct (decide (x = k)) as [->|].
    + rewrite decide_False, !decide_True by lia. by rewrite Z.sub_diag.
    + destruct (decide (k + 1 ≤ x < 4 * (y1 * w))); [by rewrite decide_True by lia|]. by rewrite !decide_False by lia.
Qed.

Lemma flush_steps (d : Display) b p m f g l y n : backbuf d = Some b → publish_buf d = Some p → mailbox_virt d = Some m → bpp d = 4 → width d = w → height d = h →
  is_u 64 y → Z.min y h < Z.min (u64 (y + n)) h → ack m = req m →
  ∃ s' p', rtc kernel_step (mkSys b p f m (cursor_x d, cursor_y d, cursor_kind d) KRun g l None []) s' ∧ kpc s' = KRun ∧ fb s' = f ∧ Some (mb s') = mailbox_virt (request_flush y n d) ∧
    publish_buf (request_flush y n d) = Some p' ∧ ∀ x, publish s' x = p' x.
Proof.
  intros Hb Hp Hm Hbpp Hw Hh Hy Hlt Hack. unfold request_flush. rewrite Hb, Hbpp. change (4 =? 4) with true. cbn [negb]. unfold clip_rows. rewrite Hm, Hp, Hw, Hh.
  set (y0 := Z.min y h) in *. set (y1 := Z.min (u64 (y + n)) h) in *. rewrite (proj2 (Z.leb_gt y1 y0)) by done. rewrite (proj2 (Z.eqb_eq _ _)) by done. cbn [negb].
  unfold is_u in Hy. assert (0 ≤ y0 * w ∧ y0 * w ≤ y1 * w) as Hmul by nia.
  set (c := (cursor_x d, cursor_y d, cursor_kind d)). set (s := mkSys b p f m c KRun g l None []).
  set (s1 := call (mkFrame b y0 y1 c) (kernel s b p m c (KAck y0 y1 (ack m)))). set (s2 := give (kernel s1 b p m c (KCopy y0 y1 (4 * (y0 * w))))).
  destruct (copy_steps (Z.to_nat (4 * (y1 * w) - 4 * (y0 * w))) s2 y0 y1 (4 * (y0 * w)) eq_refl ltac:(lia)) as (q & Hr & Hq).
  set (s3 := kernel s2 _ q _ _ _) in Hr. set (s4 := kernel s3 b q m c (KFields y0 y1)). set (s5 := kernel s4 b q (set_fields y0 y1 c m) c (KBump y0 y1)).
  eexists (kernel s5 b q (set_req (u32 (req (mb s5) + 1)) (mb s5)) c KRun), _. split.
  { eapply rtc_l; [by apply (k_start s y n y0 y1)|]. eapply rtc_l; [by apply (k_accept s1 y0 y1 (ack m))|]. etransitivity; [exact Hr|].
    eapply rtc_l; [by apply (k_copied s3 y0 y1 (4 * (y1 * w)))|]. eapply rtc_l; [by apply (k_fields s4 y0 y1)|]. apply rtc_once. by apply (k_bump s5 y0 y1). }
  split; [done|]. split; [done|]. split; [done|]. split; [done|]. intros x. cbn [kernel publish]. rewrite Hq. cbn [s2 s1 s kernel call give back publish].
  rewrite copy_px_byte by nia. replace (4 * (y0 * w) + 4 * ((y1 - y0) * w)) with (4 * (y1 * w)) by lia.
  destruct (decide _); [f_equal; lia|done].
Qed.

(** The frame the kernel's task is about to hand over. *)
Definition in_hand (s : sys) : list frame_of :=
  match kpc s with KCopy y0 y1 _ | KFields y0 y1 | KBump y0 y1 => [mkFrame (back s) y0 y1 (cursor s)] | _ => [] end.

(** What was given is what was shown and what waits. *)
Definition waiting (s : sys) (t : stage) : list frame_of := match s_pending t with Some f => [f] | None => in_hand s end.

Definition call_ok (s : sys) : Prop :=
  match kpc s with KAck y0 y1 _ => called s = Some (mkFrame (back s) y0 y1 (cursor s)) | _ => True end.

Definition logged (s : sys) (t : stage) (shown : list frame_of) : Prop := given s = shown ++ waiting s t ∧ call_ok s.

Lemma kernel_sim s t shown s' : sim s t → logged s t shown → kernel_step s s' →
  ∃ t', sim s' t' ∧ s_screen t' = s_screen t ∧ logged s' t' shown.
Proof.
  intros [Hu Hp] [Hg Hca] Hs. unfold logged, waiting, in_hand, call_ok in *.
  destruct Hs as [b c Ek|y n y0 y1 Ek E0 E1 Hy Hlt|y0 y1 a Ek Ha|y0 y1 a Ek Ha|y0 y1 k Ek Hk|y0 y1 k Ek Hk|y0 y1 Ek|y0 y1 Ek]; rewrite Ek in Hg, Hca.
  - exists t. split; [split; [done|]|split; [done|by split]].
    destruct (s_pending t) as [f|]; [|by destruct Hp; split]. destruct Hp. split; try done. by left.
  - exists t. split; [split; [done|]|split; [done|by split]]. destruct (s_pending t) as [f|]; destruct Hp; split; try done.
    + right. exists y0, y1, (ack (mb s)). split; [done|]. destruct pr_ack0 as [E Ha]. cbn [call kernel mb]. rewrite E. pose proof (u32_succ_ne _ Ha).
      unfold is_u in Hy. split; [congruence|lia].
    + cbn [call kernel kpc]. unfold is_u in Hy. lia.
  - exists t. split; [split; [done|]|split; [done|by split]]. destruct (s_pending t) as [f|]; destruct Hp as []; split; try done. by left.
  - destruct (s_pending t) as [f|] eqn:Ep; destruct Hp as [].
    + exfalso. destruct pr_kpc0 as [E|(? & ? & ? & E & ? & _)]; congruence.
    + rewrite Ek in id_kpc0. exists t. split; [split; [done|]|split; [done|]].
      * rewrite Ep. split; try done. cbn [give kernel kpc back publish]. split_and!; [nia..|]. intros x Hx. lia.
      * rewrite Ep. cbn [give kernel kpc back cursor given called]. split; [|done]. by rewrite Hg, Hca, app_nil_r.
  - destruct (s_pending t) as [f|] eqn:Ep; destruct Hp as [].
    + exfalso. destruct pr_kpc0 as [E|(? & ? & ? & E & ? & _)]; congruence.
    + rewrite Ek in id_kpc0. destruct id_kpc0 as (H1 & H2 & H3 & H4). exists t. split; [split; [done|]|split; [done|by rewrite Ep]].
      rewrite Ep. split; try done. cbn [kernel kpc back publish].
      do 2 (split; [done|]). split; [lia|]. apply copied_byte; [lia|done].
  - destruct (s_pending t) as [f|] eqn:Ep; destruct Hp as [].
    + exfalso. destruct pr_kpc0 as [E|(? & ? & ? & E & ? & _)]; congruence.
    + rewrite Ek in id_kpc0. destruct id_kpc0 as (H1 & H2 & H3 & H4). exists t. split; [split; [done|]|split; [done|by rewrite Ep]].
      rewrite Ep. split; try done. cbn [kernel kpc back publish]. do 2 (split; [done|]). by replace (4 * (y1 * w)) with k by lia.
  - destruct (s_pending t) as [f|] eqn:Ep; destruct Hp as [].
    + exfalso. destruct pr_kpc0 as [E|(? & ? & ? & E & ? & _)]; congruence.
    + rewrite Ek in id_kpc0. destruct id_kpc0 as (H1 & H2 & H3). exists t. rewrite Ep. split; [|split; [done|split; [|done]]].
      * unfold set_fields. destruct (cursor s) as [[x yy] kind] eqn:Ecu. split; [done|]. rewrite Ep. split; try done. cbn.
        do 3 (split; [done|]). rewrite !wrap_small by (unfold is_u; lia). done.
      * cbn [kernel given kpc back cursor]. exact Hg.
  - destruct (s_pending t) as [f|] eqn:Ep; destruct Hp as [].
    + exfalso. destruct pr_kpc0 as [E|(? & ? & ? & E & ? & _)]; congruence.
    + rewrite Ek in id_kpc0. destruct id_kpc0 as (H1 & H2 & H3 & H4 & H5 & H6). destruct id_ack0 as (A1 & A2 & A3).
      exists (mkStage (s_screen t) (Some (mkFrame (back s) y0 y1 (cursor s)))). split; [|split; [done|by split]].
      split; [by apply Z.mod_pos_bound|]. cbn [s_pending]. split; cbn; try done.
      * rewrite A1. done.
      * by left.
      * rewrite A3. split; [congruence|done].
Qed.

Lemma gopd_sim s t shown s' : sim s t → logged s t shown → gopd_step s s' →
  ∃ t' new, sim s' t' ∧ s_screen t' = show_all new (s_screen t) ∧ logged s' t' (shown ++ new).
Proof.
  intros [Hu Hp] [Hg Hca] Hs. unfold logged, waiting in *.
  destruct Hs as [r Eg Er Hr|r y y1 Eg Ey Ey1|r row y1 Eg Hlt|r row y1 Eg Hge|r Eg].
  - exists t, []. rewrite app_nil_r. split; [split; [done|]|split; [done|by split]]. destruct (s_pending t) as [f|]; destruct Hp as [].
    + rewrite Eg in pr_gpc0. split; try done. cbn. destruct pr_gpc0 as [_ ?]. by rewrite Er.
    + exfalso. destruct id_ack0 as (_ & ? & _). congruence.
  - exists t, []. rewrite app_nil_r. split; [split; [done|]|split; [done|by split]]. destruct (s_pending t) as [f|]; destruct Hp as [].
    + rewrite Eg in pr_gpc0. destruct pr_gpc0 as (-> & H2 & H3). destruct pr_mb0 as (M1 & M2 & M3). split; try done. cbn.
      rewrite M1, M2 in *. rewrite (wrap_small 64) in Ey1 by (unfold is_u; lia). rewrite Z.min_l in Ey by lia. subst y.
      replace (f_y0 f + (f_y1 f - f_y0 f)) with (f_y1 f) in Ey1 by lia. rewrite Z.min_l in Ey1 by lia. subst y1.
      do 3 (split; [done|]). split; [lia|]. by rewrite Z.sub_diag.
    + exfalso. destruct id_ack0 as (_ & _ & ?). congruence.
  - exists t, []. rewrite app_nil_r. split; [split; [done|]|split; [done|by split]]. destruct (s_pending t) as [f|]; destruct Hp as [].
    + rewrite Eg in pr_gpc0. destruct pr_gpc0 as (-> & H2 & -> & H4 & H5). split; try done. cbn. do 3 (split; [done|]). split; [lia|].
      rewrite H5. replace (Z.to_nat (row + 1 - f_y0 f)) with (S (Z.to_nat (row - f_y0 f))) by lia.
      rewrite <- (show_row f _ _ (publish s)) by (done || lia). by replace (f_y0 f + Z.of_nat (Z.to_nat (row - f_y0 f))) with row by lia.
    + exfalso. destruct id_ack0 as (_ & _ & ?). congruence.
  - exists t, []. rewrite app_nil_r. split; [split; [done|]|split; [done|by split]]. destruct (s_pending t) as [f|]; destruct Hp as [].
    + rewrite Eg in pr_gpc0. destruct pr_gpc0 as (-> & H2 & -> & H4 & H5). destruct pr_mb0 as (M1 & M2 & M3). split; try done. cbn. do 2 (split; [done|]).
      unfold show_frame, show_cursor. rewrite <- M3, H5. by replace row with (f_y1 f) by lia.
    + exfalso. destruct id_ack0 as (_ & _ & ?). congruence.
  - destruct (s_pending t) as [f|] eqn:Ep; destruct Hp as [].
    + rewrite Eg in pr_gpc0. destruct pr_gpc0 as (-> & H2 & H3). exists (mkStage (show_frame f (s_screen t)) None), [f].
      assert (∃ k, kpc s = k ∧ (k = KRun ∨ ∃ y0 y1 a, k = KAck y0 y1 a ∧ 0 ≤ y0 < y1 ∧ y1 ≤ h)) as (k & Ek & Hk).
      { destruct pr_kpc0 as [->|(y0 & y1 & a & -> & _ & ?)]; eexists; (split; [done|]); [by left|right; by exists y0, y1, a]. }
      split; [|split; [done|]].
      * split; [done|]. cbn [s_pending]. split; [done|done|]. cbn. rewrite Ek. by destruct Hk as [->|(y0 & y1 & a & -> & ?)].
      * cbn [s_pending]. split; [|exact Hca]. unfold in_hand. cbn [gopd kpc given]. rewrite Ek, Hg.
        by destruct Hk as [->|(y0 & y1 & a & -> & ?)]; rewrite app_nil_r.
    + exfalso. destruct id_ack0 as (_ & _ & ?). congruence.
Qed.

(** Both tasks at their start over a zeroed mailbox. *)
Definition started (s : sys) : Prop :=
  kpc s = KRun ∧ gpc s = GPoll ∧ last_req s = 0 ∧ mb s = fresh_mailbox ∧ given s = [].

Lemma show_all_app l1 l2 scr : show_all (l1 ++ l2) scr = show_all l2 (show_all l1 scr).
Proof. apply foldl_app. Qed.

Lemma sys_sim s0 s : started s0 → rtc sys_step s0 s →
  ∃ t shown, sim s t ∧ logged s t shown ∧ s_screen t = show_all shown (fb s0).
Proof.
  intros (Hk & Hg & Hl & Hm & Hgv) Hr.
  assert (sim s0 (mkStage (fb s0) None)) as H0.
  { split; [rewrite Hm; split; done|]. cbn. split; [rewrite Hm; by rewrite Hl, Hg|done|by rewrite Hk]. }
  assert (logged s0 (mkStage (fb s0) None) []) as L0.
  { unfold logged, waiting, in_hand, call_ok. cbn [s_pending]. by rewrite Hk. }
  enough (∀ t shown, sim s0 t → logged s0 t shown → ∃ t' new, sim s t' ∧ logged s t' (shown ++ new) ∧ s_screen t' = show_all new (s_screen t)) as H.
  { destruct (H _ _ H0 L0) as (t & new & ? & ? & ?). by exists t, new. }
  clear H0 L0 Hk Hg Hl Hm Hgv. induction Hr as [s|s s1 s2 Hs _ IH]; intros t shown Ht Hlg; [exists t, []; by rewrite app_nil_r|].
  assert (∃ t1 new, sim s1 t1 ∧ logged s1 t1 (shown ++ new) ∧ s_screen t1 = show_all new (s_screen t)) as (t1 & new1 & H1 & L1 & E1).
  { destruct Hs as [Hs|Hs].
    - destruct (kernel_sim _ _ shown _ Ht Hlg Hs) as (t1 & ? & ? & ?). exists t1, []. by rewrite app_nil_r.
    - destruct (gopd_sim _ _ shown _ Ht Hlg Hs) as (t1 & new & ? & ? & ?). by exists t1, new. }
  destruct (IH t1 _ H1 L1) as (t2 & new2 & H2 & L2 & E2). exists t2, (new1 ++ new2). rewrite app_assoc, show_all_app, <- E1. done.
Qed.

(** C15: Wherever the scheduler switches between the drawing task and [gopd], the screen
    shows the frames handed over, whole and in order. Each of them is the back buffer and the
    cursor as they were when [request_flush] was called and found the last frame
    acknowledged. While [gopd] waits, the screen is exactly the one it started with under all
    of them but the one, if any, that it has not begun; at row [row] of its copying it is
    that under exactly the rows of the next frame up to [row], and then under all of it. A
    frame's rows are the pixels of the image at the same places, and nothing else. While
    [gopd] works the kernel does not write to the publish buffer. *)
Theorem gopd_presents_snapshots (s0 s : sys) (Hstart : started s0) (Hreach : rtc sys_step s0 s) :
  ∃ shown rest, given s = shown ++ rest ∧ (length rest ≤ 1)%nat ∧
    match gpc s with
    | GPoll | GSeen _ => fb s = show_all shown (fb s0)
    | GRows r row y1 => ∃ f, rest = [f] ∧ y1 = f_y1 f ∧ f_y0 f ≤ row ≤ y1 ∧ fb s = show_rows f (Z.to_nat (row - f_y0 f)) (show_all shown (fb s0))
    | GDrawn r => ∃ f, rest = [f] ∧ fb s = show_all (shown ++ [f]) (fb s0)
    end ∧
    (gpc s ≠ GPoll → rest ≠ [] ∧ (kpc s = KRun ∨ ∃ y0 y1 a, kpc s = KAck y0 y1 a ∧ a ≠ req (mb s))) ∧
    (w ≤ stride → ∀ f n scr i j, 0 ≤ i < w → px_get (show_rows f n scr) (j * stride + i) =
       if decide (f_y0 f ≤ j < f_y0 f + Z.of_nat n) then px_get (f_img f) (j * w + i) else px_get scr (j * stride + i)).
Proof.
  destruct (sys_sim s0 s Hstart Hreach) as (t & shown & [Hu Hp] & [Hg _] & Es). exists shown, (waiting s t). split; [done|].
  split. { unfold waiting, in_hand. destruct (s_pending t), (kpc s); cbn; lia. }
  split; [|split; [|intros Hw f n scr i j Hi; unfold show_rows; apply copy_rows_px; lia]].
  - unfold waiting. rewrite <- Es. destruct (s_pending t) as [f|]; destruct Hp as [].
    + destruct (gpc s) as [|r|r row y1|r]; [apply pr_gpc0|apply pr_gpc0|exists f; split; [done|]|exists f; split; [done|]].
      * destruct pr_gpc0 as (_ & _ & -> & ? & ?). done.
      * rewrite show_all_app, <- Es. apply pr_gpc0.
    + destruct id_ack0 as (_ & _ & ->). done.
  - intros Hne. unfold waiting. destruct (s_pending t) as [f|]; destruct Hp as [].
    + split; [done|]. destruct pr_kpc0 as [?|(y0 & y1 & a & ? & ? & _)]; [by left|right; eauto].
    + by destruct id_ack0 as (_ & _ & ?).
Qed.
End protocol.

Definition demo_sys : sys := mkSys (λ _, 7) (λ _, 0) (λ _, 0) fresh_mailbox (0, 0, 0) KRun GPoll 0 None [].

(** A screen of one pixel: the frame is drawn, handed over and seen by [gopd]. *)
Lemma gopd_presents_snapshots_witness : ∃ s f, gpc s = GSeen 1 ∧ kpc s = KRun ∧ given s = [f] ∧ f_img f 0 = 7 ∧ fb s = λ _, 0.
Proof.
  set (c := (0, 0, 0) : Z * Z * Z). set (b := (λ _, 7) : memory). set (f := mkFrame b 0 1 c).
  set (s1 := call f (kernel demo_sys b (λ _, 0) fresh_mailbox c (KAck 0 1 0))).
  set (s2 := give (kernel s1 b (λ _, 0) fresh_mailbox c (KCopy 0 1 0))).
  set (p1 := Memory.poke (λ _, 0) 0 [7]). set (p2 := Memory.poke p1 1 [7]). set (p3 := Memory.poke p2 2 [7]). set (p4 := Memory.poke p3 3 [7]).
  set (at_ p k := kernel s2 b p fresh_mailbox c (KCopy 0 1 k)).
  set (s3 := kernel s2 b p4 fresh_mailbox c (KFields 0 1)).
  set (m := set_fields 0 1 c fresh_mailbox). set (s4 := kernel s3 b p4 m c (KBump 0 1)).
  set (m' := set_req 1 m). set (s5 := kernel s4 b p4 m' c KRun). set (s6 := gopd s5 (λ _, 0) m' (GSeen 1) 1).
  exists s6, f. split; [reflexivity|]. split; [reflexivity|].
  destruct (gopd_presents_snapshots 1 1 1 ltac:(by split) demo_sys s6) as (shown & rest & Hg & Hl & Hf & Hr & _).
  - repeat split.
  - apply (rtc_l _ _ s1); [left; apply (k_start 1 1 demo_sys 0 1); [done..|unfold is_u; lia|done]|].
    apply (rtc_l _ _ s2); [left; by apply (k_accept 1 1 s1 0 1 0)|].
    apply (rtc_l _ _ (at_ p1 1)); [left; by apply (k_byte 1 1 s2 0 1 0)|].
    apply (rtc_l _ _ (at_ p2 2)); [left; by apply (k_byte 1 1 (at_ p1 1) 0 1 1)|].
    apply (rtc_l _ _ (at_ p3 3)); [left; by apply (k_byte 1 1 (at_ p2 2) 0 1 2)|].
    apply (rtc_l _ _ (at_ p4 4)); [left; by apply (k_byte 1 1 (at_ p3 3) 0 1 3)|].
    apply (rtc_l _ _ s3); [left; by apply (k_copied 1 1 (at_ p4 4) 0 1 4)|].
    apply (rtc_l _ _ s4); [left; by apply (k_fields 1 1 s3 0 1)|].
    apply (rtc_l _ _ s5); [left; by apply (k_bump 1 1 s4 0 1)|].
    apply (rtc_l _ _ s6); [right; by apply (g_req 1 1 1 s5 1)|]. apply rtc_refl.
  - destruct (Hr ltac:(discriminate)) as [Hne _]. destruct rest as [|g [|]]; [done| |cbn in Hl; lia].
    change (given s6) with ([] ++ [f]) in Hg. apply app_inj_tail in Hg as [<- <-]. split; [reflexivity|]. split; [reflexivity|exact Hf].
Defined.
