(* ===== verification/Media.v ===== *)
(** Media files ([kernel/src/image.rs], [kernel/src/audio.rs], the playing half of
    [kernel/src/hda.rs], and the demo files of [kernel/src/main.rs]): BMP and WAV decoding,
    the viewer's and the player's drawing, and the buffer samples are handed to [hdad] in.

    Reading goes through HepFS. [play_pcm]'s bounded wait for [hdad] to clear
    [play_request] goes on to the same writes whether it ends early or not; what [hdad]
    does to the buffer and the mailbox meanwhile is [Hdad]. *)

From stdpp Require Import prelude list numbers strings.
From S2P Require Import Prelude Text Pmm Memory Hepfs Elf Display.

Local Open Scope Z_scope.

(** ** Images *)

Record ImageViewer := mkViewer {
  iv_path : list Z; iv_open : bool; iv_width : Z; iv_height : Z; iv_pixels : list Color; iv_error : option (list Z) }.

Definition black : Color := mkColor 0 0 0.

Fixpoint bmp_cols (n : nat) (col row width px0 bytes_per_px : Z) (data : list Z) (pixels : list Color) : outcome (list Color) :=
  match n with
  | O => Ok pixels
  | S n =>
    let px := px0 + col * bytes_per_px in
    b ← idx data px; g ← idx data (px + 1); r ← idx data (px + 2);
    pixels ← v_set (Z.to_nat (row * width + col)) (mkColor r g b) pixels;
    bmp_cols n (col + 1) row width px0 bytes_per_px data pixels
  end.

(** [None]: a row lies outside the file. *)
Fixpoint bmp_rows (n : nat) (row width height bytes_per_px row_stride pixel_offset : Z) (top_down : bool) (data : list Z) (pixels : list Color) :
    outcome (option (list Color)) :=
  match n with
  | O => Ok (Some pixels)
  | S n =>
    let src_row := if top_down then row else height - 1 - row in
    let row_start := pixel_offset + src_row * row_stride in
    if len data <? row_start + width * bytes_per_px then Ok None
    else
      pixels ← bmp_cols (Z.to_nat width) 0 row width row_start bytes_per_px data pixels;
      bmp_rows n (row + 1) width height bytes_per_px row_stride pixel_offset top_down data pixels
  end.

Definition decode_bmp (data : list Z) : outcome (option (Z * Z * list Color)) :=
  if len data <? 54 then Ok None
  else
    m0 ← idx data 0; m1 ← idx data 1;
    if negb (m0 =? 0x42) || negb (m1 =? 0x4D) then Ok None
    else
      pixel_offset ← le_at data 10 4; dib_size ← le_at data 14 4;
      if dib_size <? 40 then Ok None
      else
        w ← le_at data 18 4; h ← le_at data 22 4; bpp ← le_at data 28 2; compression ← le_at data 30 4;
        if negb (compression =? 0) then Ok None
        else if negb (bpp =? 24) && negb (bpp =? 32) then Ok None
        else
          let width := Z.abs (i32 w) in
          let top_down := i32 h <? 0 in
          let height := Z.abs (i32 h) in
          if (width =? 0) || (height =? 0) || (4096 <? width) || (4096 <? height) then Ok None
          else
            let bytes_per_px := bpp / 8 in
            let row_stride := (width * bytes_per_px + 3) / 4 * 4 in
            r ← bmp_rows (Z.to_nat height) 0 width height bytes_per_px row_stride pixel_offset top_down data
                  (replicate (Z.to_nat (width * height)) black);
            Ok match r with Some px => Some (width, height, px) | None => None end.

Definition from_bytes (path data : list Z) : outcome ImageViewer :=
  r ← decode_bmp data;
  Ok match r with
     | Some (w, h, px) => mkViewer path true w h px None
     | None => mkViewer path true 0 0 [] (Some (txt "Unsupported format " ++ [0x2014] ++ txt " only uncompressed 24/32-bit BMP"))
     end.

Definition BG : Color := from_hex 0x0A0A14.
Definition DIM : Color := from_hex 0x888888.
Definition ERR : Color := from_hex 0xFF6B6B.

Fixpoint put_row (n : nat) (x wx y : Z) (pxs : list Color) (d : Display) : outcome Display :=
  match n with
  | O => Ok d
  | S n =>
    match pxs with
    | [] => Panic "index out of bounds"
    | c :: pxs => put_row n (x + 1) wx y pxs (put_pixel (u64 (wx + x)) y c d)
    end
  end.

Fixpoint put_rows (n : nat) (y wx wy width : Z) (draw_w : nat) (pixels : list Color) (d : Display) : outcome Display :=
  match n with
  | O => Ok d
  | S n => d ← put_row draw_w 0 wx (u64 (wy + y)) (drop (Z.to_nat (y * width)) pixels) d; put_rows n (y + 1) wx wy width draw_w pixels d
  end.

Definition render_image (v : ImageViewer) (wx wy ww wh : Z) (d : Display) : outcome Display :=
  let d := fill_rect wx wy ww wh BG d in
  match iv_error v with
  | Some err => Ok (draw_text err (u64 (wx + 8)) (u64 (wy + 8)) ERR 1 d)
  | None =>
    if (iv_width v =? 0) || (iv_height v =? 0) then Ok (draw_text (txt "(empty image)") (u64 (wx + 8)) (u64 (wy + 8)) DIM 1 d)
    else
      let draw_w := Z.min (iv_width v) ww in
      let draw_h := Z.min (iv_height v) wh in
      d ← put_rows (Z.to_nat draw_h) 0 wx wy (iv_width v) (Z.to_nat draw_w) (iv_pixels v) d;
      Ok (if draw_h + 12 <=? wh
          then draw_text (show_dec (iv_width v) ++ txt "x" ++ show_dec (iv_height v) ++ txt " BMP") (u64 (wx + 4)) (u64 (wy + draw_h + 2)) DIM 1 d
          else d)
  end.

(** ** Sound *)

Record wav_state := mkWav { w_fmt : option (Z * Z * Z); w_pcm : option (list Z) }.

(** One chunk: [None] rejects the file. *)
Definition wav_chunk (id body : list Z) (st : wav_state) : outcome (option wav_state) :=
  if beq id (txt "fmt ") then
    if len body <? 16 then Ok None
    else
      audio_format ← le_at body 0 2;
      if negb (audio_format =? 1) then Ok None
      else
        channels ← le_at body 2 2; sample_rate ← le_at body 4 4; bits ← le_at body 14 2;
        Ok (Some (mkWav (Some (sample_rate, channels, bits)) (w_pcm st)))
  else if beq id (txt "data") then Ok (Some (mkWav (w_fmt st) (Some body)))
  else Ok (Some st).

(** [while pos + 8 <= data.len()]; the fuel is never used up (see [MediaSpec]). *)
Fixpoint wav_loop (fuel : nat) (pos : Z) (data : list Z) (st : wav_state) : outcome (option wav_state) :=
  match fuel with
  | O => Panic "out of fuel"
  | S fuel =>
    if len data <? pos + 8 then Ok (Some st)
    else
      id ← slice data pos (pos + 4);
      chunk_size ← le_at data (pos + 4) 4;
      let body_start := pos + 8 in
      if len data <? body_start + chunk_size then Ok (Some st)
      else
        body ← slice data body_start (body_start + chunk_size);
        r ← wav_chunk id body st;
        match r with
        | None => Ok None
        | Some st => wav_loop fuel (body_start + chunk_size + Z.land chunk_size 1) data st
        end
  end.

Definition decode_wav (data : list Z) : outcome (option (Z * Z * Z * list Z)) :=
  if len data <? 12 then Ok None
  else
    riff ← slice data 0 4; wave ← slice data 8 12;
    if negb (beq riff (txt "RIFF")) || negb (beq wave (txt "WAVE")) then Ok None
    else
      r ← wav_loop (S (length data)) 12 data (mkWav None None);
      Ok match r with
         | Some (mkWav (Some (sample_rate, channels, bits)) (Some pcm)) => Some (sample_rate, channels, bits, pcm)
         | _ => None
         end.

(** [chunks_exact(2)] as signed samples; a byte left over is dropped. *)
Fixpoint samples (l : list Z) : list Z :=
  match l with
  | a :: b :: l => ((le_val [a; b] + 2 ^ 15) mod 2 ^ 16 - 2 ^ 15) :: samples l
  | _ => []
  end.

Definition upmix (channels : Z) (s : list Z) : list Z := if channels =? 2 then s else concat ((λ x, [x; x]) <$> s).

Record PlayResult := mkPlay { pl_error : option (list Z); pl_duration_ms : Z; pl_truncated : bool }.
Record NowPlaying := mkNow {
  np_path : list Z; np_sample_rate : Z; np_channels : Z; np_duration_ms : Z; np_truncated : bool; np_error : option (list Z) }.

Definition failed (msg : string) : PlayResult := mkPlay (Some (txt msg)) 0 false.

(** ** The buffer shared with [hdad] *)

(** [hda_buf]: the words of the shared PCM buffer; the other fields are the mailbox's. *)
Record Hda := mkHda { hda_buf : list Z; play_request : Z; volume : Z; is_playing : Z; elapsed_ms : Z; total_ms : Z; hda_stop : Z }.

Definition PCM_MAX_BYTES : Z := Z.shiftl 1 20.
Definition VOLUME0 : Z := 100.

(** The state of the driver's kernel half: [VOLUME] and, once found, [HDA]. *)
Record sound := mkSound { snd_volume : Z; snd_hda : option Hda }.

Definition set_volume (vol : Z) (s : sound) : sound :=
  let vol := Z.min vol 100 in
  mkSound vol (match snd_hda s with
               | Some h => Some (mkHda (hda_buf h) (play_request h) vol (is_playing h) (elapsed_ms h) (total_ms h) (hda_stop h))
               | None => None
               end).

Definition play_pcm (l : list Z) (o : option Hda) : (Z * bool) * option Hda :=
  match o with
  | None => ((0, false), None)
  | Some h =>
    let n := Z.land (Z.min (len l) (PCM_MAX_BYTES / 2)) (-2) in
    let truncated := n <? len l in
    if n =? 0 then ((0, truncated), Some h)
    else ((n, truncated), Some (mkHda (take (Z.to_nat n) l ++ drop (Z.to_nat n) (hda_buf h)) (u32 n) (volume h) (is_playing h) (elapsed_ms h) (total_ms h) (hda_stop h)))
  end.

Definition beep_sample (period_samp i : Z) : list Z :=
  if 0 <? period_samp then let v := if u32 i mod period_samp <? period_samp / 2 then 0x7FFF else - 0x7FFF in [v; v] else [0; 0].

Definition beep_samples (freq_hz duration_ms : Z) : list Z :=
  let sample_rate := 48000 in
  let total_samples := u32 (sample_rate * duration_ms) / 1000 in
  let n := Z.min total_samples (PCM_MAX_BYTES / 4) in
  let period_samp := if 0 <? freq_hz then sample_rate / freq_hz else 0 in
  concat (beep_sample period_samp <$> seqZ 0 n).

Definition beep (freq_hz duration_ms : Z) (o : option Hda) : option Hda := (play_pcm (beep_samples freq_hz duration_ms) o).2.

(** ** Reading files and playing them *)

Section files.
Context {D F : Type} `{!Drive D} `{!FrameSource F}.

Definition read_content (path : list Z) : ST (option (fs D F)) (list Z) := λ o,
  match o with
  | None => Ok ([], None)
  | Some s =>
    match (r ← Hepfs.lookup path; match r with Some ino => read_file ino | None => mret [] end) s with
    | Ok (l, s) => Ok (l, Some s) | Panic e => Panic e
    end
  end.

Definition open_image (path : list Z) : ST (option (fs D F)) ImageViewer :=
  content ← read_content path; lift (from_bytes path content).

(** The decoded file, or why it cannot be played. *)
Definition wav_of (content : list Z) : outcome (PlayResult + Z * list Z) :=
  r ← decode_wav content;
  match r with
  | None => Ok (inl (failed "not a PCM WAV file"))
  | Some (sample_rate, channels, bits, pcm) =>
    if negb (bits =? 16) then Ok (inl (failed "only 16-bit PCM WAV supported"))
    else if negb (sample_rate =? 48000) then Ok (inl (failed "only 48kHz WAV supported (no resampler yet)"))
    else if negb (channels =? 1) && negb (channels =? 2) then Ok (inl (failed "only mono or stereo WAV supported"))
    else Ok (inr (channels, pcm))
  end.

Definition play_samples (channels : Z) (pcm : list Z) (h : option Hda) : PlayResult * option Hda :=
  let '((played, truncated), h) := play_pcm (upmix channels (samples pcm)) h in
  (mkPlay None (u64 (played / 2 * 1000) / 48000) truncated, h).

Definition play_inner (path : list Z) : ST (option (fs D F) * option Hda) PlayResult := λ '(o, h),
  match o with
  | None => Ok (failed "no storage controller", (None, h))
  | Some s =>
    match (r ← Hepfs.lookup path; match r with Some ino => l ← read_file ino; mret (Some l) | None => mret None end) s with
    | Panic e => Panic e
    | Ok (None, s) => Ok (failed "file not found", (Some s, h))
    | Ok (Some content, s) =>
      r ← wav_of content;
      Ok match r with
         | inl e => (e, (Some s, h))
         | inr (channels, pcm) => let '(p, h) := play_samples channels pcm h in (p, (Some s, h))
         end
    end
  end.

(** [play], with [NOW_PLAYING] last in the state. *)
Definition play (path : list Z) : ST (option (fs D F) * option Hda * option NowPlaying) PlayResult := λ '(o, h, _),
  '(r, st) ← play_inner path (o, h);
  Ok (r, (st, Some (mkNow path 48000 2 (pl_duration_ms r) (pl_truncated r) (pl_error r)))).
End files.

(** [hda::progress_ms] *)
Definition progress_ms (o : option Hda) : option (Z * Z) :=
  match o with
  | None => None
  | Some h => if is_playing h =? 0 then None else Some (elapsed_ms h, total_ms h)
  end.

(** [audio::render] *)
Definition ACC : Color := from_hex 0x6C8EFF.
Definition TEXT : Color := from_hex 0xE8E8E8.
Definition OK_GREEN : Color := from_hex 0x6BFF8E.

Definition show_tenths (ms : Z) : list Z := show_dec (ms / 1000) ++ txt "." ++ show_dec (ms mod 1000 / 100) ++ txt "s".

Definition bar_fill (bar_w elapsed total : Z) : Z := if 0 <? total then Z.min (u64 (bar_w * elapsed) / total) bar_w else 0.

Definition render_status (np : NowPlaying) (h : option Hda) (text_x y wx ww : Z) (d : Display) : Display :=
  let d := draw_text (np_path np) text_x y TEXT 1 d in
  let y := u64 (y + 16) in
  match np_error np with
  | Some e => draw_text e text_x (u64 (y + 14)) ERR 1 (draw_text (txt "Error:") text_x y ERR 1 d)
  | None =>
    let d := draw_text (show_dec (np_sample_rate np) ++ txt " Hz, " ++ (if np_channels np =? 1 then txt "1" else txt "2") ++ txt "-ch PCM16") text_x y DIM 1 d in
    let y := u64 (y + 14) in
    match progress_ms h with
    | Some (elapsed, total) =>
      let d := draw_text (txt "Playing... " ++ show_tenths elapsed ++ txt " / " ++ show_tenths total) text_x y ACC 1 d in
      let y := u64 (y + 14) in
      let bar_w := Z.max (Z.max (ww - u64 (u64 (text_x - wx) + 8)) 0) 20 in
      fill_rect text_x y (bar_fill bar_w elapsed total) 6 ACC (fill_rect text_x y bar_w 6 (from_hex 0x222244) d)
    | None => draw_text (txt "Played " ++ show_dec (np_duration_ms np) ++ txt " ms" ++ (if np_truncated np then txt " (truncated)" else [])) text_x y OK_GREEN 1 d
    end
  end.

Definition render_player (now : option NowPlaying) (h : option Hda) (wx wy ww wh : Z) (d : Display) : Display :=
  let d := fill_rect wx wy ww wh BG d in
  let icon_x := u64 (wx + 16) in
  let icon_y := u64 (wy + 16) in
  let d := fill_rect (u64 (icon_x + 10)) icon_y 14 32 ACC (fill_rect icon_x (u64 (icon_y + 8)) 10 16 ACC d) in
  let text_x := u64 (icon_x + 40) in
  let y := u64 (wy + 16) in
  let d := match now with
           | None => draw_text (txt "Try: play /demo.wav") (u64 (wx + 8)) (u64 (u64 (y + 16) + 4)) DIM 1 (draw_text (txt "No audio played yet") text_x y DIM 1 d)
           | Some np => render_status np h text_x y wx ww d
           end in
  if 60 <? wh then draw_text (txt "play <file.wav> in the terminal to load another track") (u64 (wx + 8)) (u64 (wy + Z.max (wh - 16) 0)) DIM 1 d else d.

(** ** The demo files *)

Definition W : Z := 64.
Definition H : Z := 64.
Definition SQ : Z := 8.

Definition bmp_header (file_size pixel_offset width height bpp : Z) : list Z :=
  txt "BM" ++ le_bytes 4 file_size ++ le_bytes 4 0 ++ le_bytes 4 pixel_offset ++ le_bytes 4 40 ++ le_bytes 4 (u32 width) ++ le_bytes 4 (u32 height) ++
  le_bytes 2 1 ++ le_bytes 2 bpp ++ replicate 24 0.

Definition checker (row col : Z) : Color :=
  if (row / SQ + col / SQ) mod 2 =? 0 then mkColor 0x6C 0x8E 0xFF else mkColor 0x14 0x14 0x1E.

Definition bgr (c : Color) : list Z := [col_b c; col_g c; col_r c].

Definition make_demo_bmp : list Z :=
  bmp_header (54 + W * 3 * H) 54 W H 24 ++ concat ((λ row, concat ((λ col, bgr (checker row col)) <$> seqZ 0 W)) <$> seqZ 0 H).

Definition SAMPLE_RATE : Z := 48000.
Definition FREQ_HZ : Z := 440.
Definition DURATION_MS : Z := 500.

Definition demo_sample (i : Z) : list Z :=
  let period := SAMPLE_RATE / FREQ_HZ in
  let val := if i mod period <? period / 2 then 0x4000 else u16 (- 0x4000) in
  le_bytes 2 val ++ le_bytes 2 val.

Definition make_demo_wav : list Z :=
  let total_samples := SAMPLE_RATE * DURATION_MS / 1000 in
  let data_bytes := total_samples * 2 * 2 in
  txt "RIFF" ++ le_bytes 4 (36 + data_bytes) ++ txt "WAVE" ++ txt "fmt " ++ le_bytes 4 16 ++ le_bytes 2 1 ++ le_bytes 2 2 ++
  le_bytes 4 SAMPLE_RATE ++ le_bytes 4 (SAMPLE_RATE * 4) ++ le_bytes 2 4 ++ le_bytes 2 16 ++ txt "data" ++ le_bytes 4 data_bytes ++
  concat (demo_sample <$> seqZ 0 total_samples).
