(* ===== verification/MediaSpec.v ===== *)
(** What the media decoders of [Media] compute: [decode_bmp] against a reference image
    given pixel by pixel, [decode_wav] against a fold over the chunks of the file, and
    the player's hand-over of the samples. *)

From stdpp Require Import prelude list numbers strings.
From S2P Require Import Prelude Text Pmm Memory Hepfs Elf Display Media.

Local Open Scope Z_scope.

(** ** The reference BMP image *)

(** The little-endian field of [n] bytes at [off]. *)
Definition field (data : list Z) (off n : nat) : Z := le_val (sub off n data).

Definition bmp_width (data : list Z) : Z := Z.abs (i32 (field data 18 4)).
Definition bmp_height (data : list Z) : Z := Z.abs (i32 (field data 22 4)).
Definition bmp_top_down (data : list Z) : bool := i32 (field data 22 4) <? 0.
Definition bmp_bytes_per_px (data : list Z) : Z := field data 28 2 / 8.
Definition bmp_stride (data : list Z) : Z := (bmp_width data * bmp_bytes_per_px data + 3) / 4 * 4.

(** A BITMAPINFOHEADER file, uncompressed, 24 or 32 bits, at most 4096 pixels a side. *)
Definition bmp_supported (data : list Z) : Prop :=
  54 ≤ len data ∧ sub 0 2 data = txt "BM" ∧ 40 ≤ field data 14 4 ∧ field data 30 4 = 0 ∧
  (field data 28 2 = 24 ∨ field data 28 2 = 32) ∧ 0 < bmp_width data ≤ 4096 ∧ 0 < bmp_height data ≤ 4096.

(** Where row [row] of the picture starts in the file. *)
Definition bmp_row_start (data : list Z) (row : Z) : Z :=
  field data 10 4 + (if bmp_top_down data then row else bmp_height data - 1 - row) * bmp_stride data.

Definition bmp_complete (data : list Z) : Prop :=
  field data 10 4 + (bmp_height data - 1) * bmp_stride data + bmp_width data * bmp_bytes_per_px data ≤ len data.

Definition byte_at (data : list Z) (i : Z) : Z := default 0 (data !! Z.to_nat i).

Definition bgr_at (data : list Z) (px : Z) : Color := mkColor (byte_at data (px + 2)) (byte_at data (px + 1)) (byte_at data px).

Definition bmp_row (data : list Z) (row_start width bytes_per_px : Z) : list Color :=
  (λ col, bgr_at data (row_start + col * bytes_per_px)) <$> seqZ 0 width.

Definition bmp_image (data : list Z) : list Color :=
  concat ((λ row, bmp_row data (bmp_row_start data row) (bmp_width data) (bmp_bytes_per_px data)) <$> seqZ 0 (bmp_height data)).

#[global] Instance bmp_supported_dec data : Decision (bmp_supported data).
Proof. unfold bmp_supported. apply _. Defined.
#[global] Instance bmp_complete_dec data : Decision (bmp_complete data).
Proof. unfold bmp_complete. apply _. Defined.

(** ** [decode_bmp] *)

Lemma idx_byte_at data i : 0 ≤ i < len data → idx data i = Ok (byte_at data i).
Proof. intros H. destruct (idx_ok data i H) as (x & -> & Hx). unfold byte_at. by rewrite Hx. Qed.

Lemma le_at_field data (off n : nat) : Z.of_nat off + Z.of_nat n ≤ len data → le_at data (Z.of_nat off) (Z.of_nat n) = Ok (field data off n).
Proof.
  intros H. unfold le_at. rewrite slice_ok by lia. unfold field. cbn [mbind outcome_bind].
  replace (Z.to_nat (Z.of_nat off + Z.of_nat n - Z.of_nat off)) with n by lia. by rewrite Nat2Z.id.
Qed.

Lemma field_nonneg data off n : Forall is_byte data → 0 ≤ field data off n.
Proof. intros. unfold field. apply le_val_range. by apply Forall_sub. Qed.

Lemma v_set_mid {A} (a b : list A) x y n : n = length a → v_set n y (a ++ x :: b) = Ok (a ++ y :: b).
Proof.
  intros ->. unfold v_set. rewrite (proj2 (Nat.ltb_lt _ _)) by (rewrite length_app; simpl; lia). by rewrite insert_app_r_alt, Nat.sub_diag by lia.
Qed.

Lemma seqZ_S k n : seqZ k (Z.of_nat (S n)) = k :: seqZ (k + 1) (Z.of_nat n).
Proof. rewrite seqZ_cons by lia. f_equal. f_equal; lia. Qed.

(** One row: the [n] pixels from [col] on replace those of the array. *)
Lemma bmp_cols_spec data row width px0 bpp n : ∀ col a b c,
  3 ≤ bpp → 0 ≤ px0 → 0 ≤ col → px0 + (col + Z.of_nat n) * bpp ≤ len data → len a = row * width + col → length b = n →
  bmp_cols n col row width px0 bpp data (a ++ b ++ c) =
    Ok (a ++ ((λ k, bgr_at data (px0 + k * bpp)) <$> seqZ col (Z.of_nat n)) ++ c).
Proof.
  induction n as [|n IH]; intros col a b c Hbpp Hpx Hcol Hin Ha Hb.
  - by destruct b.
  - destruct b as [|x b]; [done|]. injection Hb as Hb. cbn [bmp_cols]. 
    rewrite !idx_byte_at by nia. cbn [mbind outcome_bind].
    cbn [app]. rewrite v_set_mid by (unfold len in Ha; lia). cbn [mbind outcome_bind].
    rewrite (cons_middle _ a), (assoc_L (++)). rewrite IH; [|lia|lia|lia|nia| |done].
    + rewrite seqZ_S. cbn [fmap list_fmap]. by rewrite <- (assoc_L (++)).
    + unfold len in *. rewrite length_app. simpl. lia.
Qed.

Definition src_row (top_down : bool) (height row : Z) : Z := if top_down then row else height - 1 - row.

Section rows.
Context (data : list Z) (width height bpp stride off : Z) (td : bool).
Context (Hbpp : 3 ≤ bpp) (Hstride : 0 ≤ stride) (Hoff : 0 ≤ off) (Hw : 0 ≤ width).

Definition row_at (row : Z) : Z := off + src_row td height row * stride.

Lemma row_at_nonneg row : 0 ≤ row < height → 0 ≤ row_at row.
Proof. intros. unfold row_at, src_row. destruct td; nia. Qed.

Lemma bmp_rows_spec n : ∀ row a b,
  0 ≤ row → row + Z.of_nat n = height → len a = row * width → len b = Z.of_nat n * width →
  (∀ k, row ≤ k < height → row_at k + width * bpp ≤ len data) →
  bmp_rows n row width height bpp stride off td data (a ++ b) =
    Ok (Some (a ++ concat ((λ k, bmp_row data (row_at k) width bpp) <$> seqZ row (Z.of_nat n)))).
Proof.
  induction n as [|n IH]; intros row a b Hrow Hn Ha Hb Hin.
  - destruct b; [done|]. unfold len in Hb. simpl in Hb. lia.
  - cbn [bmp_rows]. fold (src_row td height row) (row_at row).
    pose proof (Hin row ltac:(lia)) as H0. pose proof (row_at_nonneg row ltac:(lia)).
    destruct (Z.ltb_spec (len data) (row_at row + width * bpp)); [lia|].
    rewrite <- (take_drop (Z.to_nat width) b). rewrite (bmp_cols_spec _ _ _ _ _ _ 0); [|lia|done|lia| | |].
    + cbn [mbind outcome_bind]. rewrite (assoc_L (++)), Z2Nat.id by lia. rewrite IH.
      * rewrite seqZ_S. cbn [fmap list_fmap concat]. unfold bmp_row at 1. by rewrite <- (assoc_L (++)).
      * lia.
      * lia.
      * unfold len in *. rewrite length_app, length_fmap, length_seqZ. lia.
      * unfold len in *. rewrite length_drop. nia.
      * intros k Hk. apply Hin. lia.
    + rewrite Z2Nat.id by lia. lia.
    + unfold len in *. lia.
    + unfold len in *. rewrite length_take. nia.
Qed.

Lemma bmp_rows_short n : ∀ row a b,
  0 ≤ row → row + Z.of_nat n = height → len a = row * width → len b = Z.of_nat n * width →
  (∃ k, row ≤ k < height ∧ len data < row_at k + width * bpp) →
  bmp_rows n row width height bpp stride off td data (a ++ b) = Ok None.
Proof.
  induction n as [|n IH]; intros row a b Hrow Hn Ha Hb (k & Hk & Hlt); [lia|].
  cbn [bmp_rows]. fold (src_row td height row) (row_at row). pose proof (row_at_nonneg row ltac:(lia)).
  destruct (Z.ltb_spec (len data) (row_at row + width * bpp)); [done|].
  rewrite <- (take_drop (Z.to_nat width) b). rewrite (bmp_cols_spec _ _ _ _ _ _ 0); [|lia|done|lia| | |].
  - cbn [mbind outcome_bind]. rewrite (assoc_L (++)), Z2Nat.id by lia. apply IH.
    + lia.
    + lia.
    + unfold len in *. rewrite length_app, length_fmap, length_seqZ. lia.
    + unfold len in *. rewrite length_drop. nia.
    + exists k. split; [|done]. destruct (decide (k = row)) as [->|]; lia.
  - rewrite Z2Nat.id by lia. lia.
  - unfold len in *. lia.
  - unfold len in *. rewrite length_take. nia.
Qed.
End rows.

Lemma magic_spec data : 54 ≤ len data → negb (byte_at data 0 =? 0x42) || negb (byte_at data 1 =? 0x4D) = negb (bool_decide (sub 0 2 data = txt "BM")).
Proof.
  intros H. destruct data as [|a [|b data]]; [unfold len in H; simpl in H; lia..|]. change (byte_at (a :: b :: data) 0) with a. change (byte_at (a :: b :: data) 1) with b.
  change (sub 0 2 (a :: b :: data)) with [a; b]. change (txt "BM") with [0x42; 0x4D].
  case_bool_decide as E; [injection E as -> ->; done|]. destruct (Z.eqb_spec a 0x42) as [->|]; [|done]. destruct (Z.eqb_spec b 0x4D) as [->|]; [|done]. done.
Qed.

Lemma bmp_fields data : 54 ≤ len data →
  le_at data 10 4 = Ok (field data 10 4) ∧ le_at data 14 4 = Ok (field data 14 4) ∧ le_at data 18 4 = Ok (field data 18 4) ∧
  le_at data 22 4 = Ok (field data 22 4) ∧ le_at data 28 2 = Ok (field data 28 2) ∧ le_at data 30 4 = Ok (field data 30 4).
Proof.
  intros. split_and!; [apply (le_at_field data 10 4)|apply (le_at_field data 14 4)|apply (le_at_field data 18 4)|
    apply (le_at_field data 22 4)|apply (le_at_field data 28 2)|apply (le_at_field data 30 4)]; lia.
Qed.

(** The closed form of the size check is the check of every row. *)
Lemma complete_rows data row : 0 ≤ bmp_stride data → bmp_complete data → 0 ≤ row < bmp_height data →
  bmp_row_start data row + bmp_width data * bmp_bytes_per_px data ≤ len data.
Proof. unfold bmp_complete, bmp_row_start. intros. destruct (bmp_top_down data); nia. Qed.

Lemma incomplete_row data : 0 < bmp_height data → ¬ bmp_complete data →
  ∃ row, 0 ≤ row < bmp_height data ∧ len data < bmp_row_start data row + bmp_width data * bmp_bytes_per_px data.
Proof.
  unfold bmp_complete, bmp_row_start. intros Hh Hc. exists (if bmp_top_down data then bmp_height data - 1 else 0).
  destruct (bmp_top_down data); (split; [lia|]); [lia|]. rewrite Z.sub_0_r. lia.
Qed.

Lemma decode_rows data : Forall is_byte data → bmp_supported data →
  bmp_rows (Z.to_nat (bmp_height data)) 0 (bmp_width data) (bmp_height data) (bmp_bytes_per_px data) (bmp_stride data) (field data 10 4) (bmp_top_down data) data
    (replicate (Z.to_nat (bmp_width data * bmp_height data)) black) = Ok (if decide (bmp_complete data) then Some (bmp_image data) else None).
Proof.
  intros Hb (_ & _ & _ & _ & Hbpp & Hw & Hh).
  assert (3 ≤ bmp_bytes_per_px data) by (unfold bmp_bytes_per_px; destruct Hbpp as [-> | ->]; vm_compute; congruence).
  assert (0 ≤ bmp_stride data) by (unfold bmp_stride; apply Z.mul_nonneg_nonneg; [apply Z.div_pos; nia|lia]).
  pose proof (field_nonneg data 10 4 Hb).
  change (replicate (Z.to_nat (bmp_width data * bmp_height data)) black) with ([] ++ replicate (Z.to_nat (bmp_width data * bmp_height data)) black).
  assert (len (replicate (Z.to_nat (bmp_width data * bmp_height data)) black) = Z.of_nat (Z.to_nat (bmp_height data)) * bmp_width data)
    by (unfold len; rewrite length_replicate; nia).
  destruct (decide (bmp_complete data)) as [Hc|Hc].
  - rewrite bmp_rows_spec; [|try lia..|].
    + rewrite Z2Nat.id by lia. done.
    + unfold len. simpl. lia.
    + intros k Hk. apply (complete_rows data k); auto.
  - apply bmp_rows_short; [lia..| | |]; [unfold len; simpl; lia|done|]. by apply incomplete_row; [lia|].
Qed.

(** C34: [decode_bmp] never panics on a file of bytes, whatever its header says: it rejects
    exactly the files that are not complete, supported BMPs, and of the others it returns
    the reference image, pixel for pixel: blue-green-red triples of the file's rows, bottom
    row first unless the height is negative. *)
Theorem decode_bmp_reference data : Forall is_byte data →
  decode_bmp data = Ok (if decide (bmp_supported data ∧ bmp_complete data) then Some (bmp_width data, bmp_height data, bmp_image data) else None).
Proof.
  intros Hb. unfold decode_bmp. destruct (Z.ltb_spec (len data) 54) as [|Hlen].
  { rewrite decide_False; [done|]. intros [[? _] _]. lia. }
  rewrite !idx_byte_at by lia. cbn [mbind outcome_bind]. rewrite magic_spec by done.
  case_bool_decide as Hm; cbn [negb]; [|rewrite decide_False; [done|]; intros [(_ & ? & _) _]; done].
  destruct (bmp_fields data Hlen) as (-> & -> & -> & -> & -> & ->).
  cbn [mbind outcome_bind].
  destruct (Z.ltb_spec (field data 14 4) 40) as [|Hd]; [rewrite decide_False; [done|]; intros [(_ & _ & ? & _) _]; lia|].
  destruct (Z.eqb_spec (field data 30 4) 0) as [Hc|Hc]; cbn [negb]; [|rewrite decide_False; [done|]; intros [(_ & _ & _ & ? & _) _]; lia].
  destruct (negb (field data 28 2 =? 24) && negb (field data 28 2 =? 32)) eqn:Hbpp;
    [rewrite decide_False; [done|]; intros [(_ & _ & _ & _ & ? & _) _]; lia|].
  fold (bmp_width data) (bmp_height data) (bmp_top_down data) (bmp_bytes_per_px data).
  destruct ((bmp_width data =? 0) || (bmp_height data =? 0) || (4096 <? bmp_width data) || (4096 <? bmp_height data)) eqn:Hdim;
    [rewrite decide_False; [done|]; intros [(_ & _ & _ & _ & _ & ? & ?) _]; lia|].
  fold (bmp_stride data).
  assert (bmp_supported data) as Hs by (unfold bmp_supported; unfold bmp_width, bmp_height in *; split_and!; try done; lia).
  rewrite (decode_rows data Hb Hs). cbn [mbind outcome_bind].
  destruct (decide (bmp_complete data)); [by rewrite decide_True|rewrite decide_False; [done|]; by intros [_ ?]].
Qed.

(** A 24-bit picture, one pixel wide and two high. *)
Definition tiny_bmp : list Z := bmp_header 62 54 1 2 24 ++ [1; 2; 3; 0; 4; 5; 6; 0].

Lemma decode_bmp_reference_witness : Forall is_byte tiny_bmp ∧ decode_bmp tiny_bmp = Ok (Some (1, 2, [mkColor 6 5 4; mkColor 3 2 1])).
Proof.
  assert (Forall is_byte tiny_bmp) as Hb by (vm_compute; repeat constructor; done).
  split; [done|]. rewrite (decode_bmp_reference tiny_bmp Hb). vm_compute. reflexivity.
Defined.

(** ** WAV files *)

(** A chunk of a RIFF file: its id, its length, its body, padded to an even length. *)
Record chunk := mkChunk { ck_id : list Z; ck_body : list Z }.

Definition pad (body : list Z) : list Z := if Z.odd (len body) then [0] else [].
Definition chunk_bytes (c : chunk) : list Z := ck_id c ++ le_bytes 4 (len (ck_body c)) ++ ck_body c ++ pad (ck_body c).
Definition wav_file (size : list Z) (cs : list chunk) : list Z := txt "RIFF" ++ size ++ txt "WAVE" ++ concat (chunk_bytes <$> cs).
Definition chunk_ok (c : chunk) : Prop := length (ck_id c) = 4%nat ∧ len (ck_body c) < 2 ^ 32.

(** What a [fmt] chunk says, when it is one the player supports. *)
Definition fmt_of (body : list Z) : option (Z * Z * Z) :=
  if (16 <=? len body) && (field body 0 2 =? 1) then Some (field body 4 4, field body 2 2, field body 14 2) else None.

Definition bodies (id : string) (cs : list chunk) : list (list Z) := ck_body <$> filter (λ c, ck_id c = txt id) cs.

(** Every [fmt] chunk must be valid; the last one counts, and so does the last [data] chunk. *)
Definition wav_reference (cs : list chunk) : option (Z * Z * Z * list Z) :=
  fmts ← mapM fmt_of (bodies "fmt " cs);
  '(sample_rate, channels, bits) ← last fmts;
  pcm ← last (bodies "data" cs);
  Some (sample_rate, channels, bits, pcm).

Lemma slice_mid {A} (a b c : list A) i j : i = len a → j = len a + len b → slice (a ++ b ++ c) i j = Ok b.
Proof.
  intros -> ->. rewrite slice_ok; [|unfold len; rewrite ?length_app; lia..]. unfold sub. f_equal.
  rewrite drop_app_length' by (unfold len; lia). apply take_app_length'. unfold len. lia.
Qed.

Lemma le_at_mid (a b c : list Z) i n v : i = len a → n = len b → le_val b = v → le_at (a ++ b ++ c) i n = Ok v.
Proof. intros -> -> <-. unfold le_at. by rewrite (slice_mid a b c). Qed.

Lemma land_1 n : Z.land n 1 = if Z.odd n then 1 else 0.
Proof. change 1 with (Z.ones 1) at 1. rewrite Z.land_ones by lia. change (2 ^ 1) with 2. apply Zmod_odd. Qed.

Lemma len_app {A} (a b : list A) : len (a ++ b) = len a + len b.
Proof. unfold len. rewrite length_app. lia. Qed.

Lemma len_chunk c : chunk_ok c → len (chunk_bytes c) = 8 + len (ck_body c) + Z.land (len (ck_body c)) 1.
Proof.
  intros [Hid _]. unfold chunk_bytes. rewrite !len_app, land_1. unfold pad, len at 1 2. rewrite Hid, length_le_bytes.
  destruct (Z.odd _); unfold len; simpl; lia.
Qed.

(** A turn of the loop at the start of a chunk reads that chunk. *)
Lemma wav_loop_chunk fuel pre c rest st : chunk_ok c →
  wav_loop (S fuel) (len pre) (pre ++ chunk_bytes c ++ rest) st =
    (r ← wav_chunk (ck_id c) (ck_body c) st;
     match r with None => Ok None | Some st => wav_loop fuel (len (pre ++ chunk_bytes c)) ((pre ++ chunk_bytes c) ++ rest) st end).
Proof.
  intros Hc. pose proof (len_chunk c Hc) as Hl. destruct Hc as [Hid Hlen].
  assert (0 ≤ len rest) by (unfold len; lia). assert (0 ≤ len (ck_body c)) by (unfold len; lia).
  assert (len (ck_id c) = 4) as H4 by (unfold len; rewrite Hid; done).
  assert (∀ n, len (le_bytes 4 n) = 4) as H8 by (intros; unfold len; by rewrite length_le_bytes).
  rewrite <- (assoc_L (++)). cbn [wav_loop]. rewrite land_1 in Hl.
  rewrite (proj2 (Z.ltb_ge _ _)) by (rewrite !len_app; destruct (Z.odd _); lia).
  replace (slice (pre ++ chunk_bytes c ++ rest) (len pre) (len pre + 4)) with (Ok (ck_id c)).
  2:{ unfold chunk_bytes. rewrite <- !(assoc_L (++)). symmetry. apply slice_mid; lia. }
  cbn [mbind outcome_bind].
  replace (le_at (pre ++ chunk_bytes c ++ rest) (len pre + 4) 4) with (Ok (len (ck_body c))).
  2:{ unfold chunk_bytes. rewrite <- !(assoc_L (++)). rewrite (assoc_L (++) pre). symmetry. apply le_at_mid; [rewrite len_app; lia|by rewrite H8|].
      apply le_val_bytes. lia. }
  cbn [mbind outcome_bind]. rewrite (proj2 (Z.ltb_ge _ _)) by (rewrite !len_app; destruct (Z.odd _); lia).
  replace (slice _ (len pre + 8) (len pre + 8 + len (ck_body c))) with (Ok (ck_body c)).
  2:{ unfold chunk_bytes. rewrite <- !(assoc_L (++)). rewrite (assoc_L (++) pre), (assoc_L (++) (pre ++ _)). symmetry. apply slice_mid; rewrite !len_app, H8; lia. }
  cbn [mbind outcome_bind]. rewrite len_app, Hl, land_1. destruct (wav_chunk _ _ st) as [[st'|]|]; cbn [mbind outcome_bind]; [|done..].
  f_equal. lia.
Qed.

Lemma wav_chunk_spec id body st :
  wav_chunk id body st = Ok (if decide (id = txt "fmt ") then f ← fmt_of body; Some (mkWav (Some f) (w_pcm st))
                             else if decide (id = txt "data") then Some (mkWav (w_fmt st) (Some body)) else Some st).
Proof.
  unfold wav_chunk, beq, fmt_of. case_decide as E1; [rewrite (bool_decide_true _ E1)|rewrite (bool_decide_false _ E1)].
  - destruct (Z.ltb_spec (len body) 16) as [|H]; [by rewrite (proj2 (Z.leb_gt _ _))|]. rewrite (proj2 (Z.leb_le _ _)) by done.
    assert (le_at body 0 2 = Ok (field body 0 2) ∧ le_at body 2 2 = Ok (field body 2 2) ∧ le_at body 4 4 = Ok (field body 4 4) ∧
      le_at body 14 2 = Ok (field body 14 2)) as (-> & -> & -> & ->)
      by (split_and!; [apply (le_at_field body 0 2)|apply (le_at_field body 2 2)|apply (le_at_field body 4 4)|apply (le_at_field body 14 2)]; lia).
    cbn [mbind outcome_bind]. by destruct (field body 0 2 =? 1).
  - case_decide as E2; [by rewrite (bool_decide_true _ E2)|by rewrite (bool_decide_false _ E2)].
Qed.

Lemma bodies_cons id c cs : bodies id (c :: cs) = (if decide (ck_id c = txt id) then [ck_body c] else []) ++ bodies id cs.
Proof. unfold bodies. rewrite filter_cons. by case_decide. Qed.

Lemma last_cons_union {A} (x : A) l (o : option A) : last (x :: l) ∪ o = last l ∪ Some x.
Proof. rewrite last_cons. by destruct (last l), o. Qed.

Lemma wav_loop_chunks cs : ∀ fuel pre st, Forall chunk_ok cs → (length cs < fuel)%nat →
  wav_loop fuel (len pre) (pre ++ concat (chunk_bytes <$> cs)) st =
    Ok (fmts ← mapM fmt_of (bodies "fmt " cs); Some (mkWav (last fmts ∪ w_fmt st) (last (bodies "data" cs) ∪ w_pcm st))).
Proof.
  induction cs as [|c cs IH]; intros fuel pre st Hcs Hf; (destruct fuel as [|fuel]; [simpl in Hf; lia|]).
  - cbn [wav_loop fmap list_fmap concat]. rewrite app_nil_r. rewrite (proj2 (Z.ltb_lt _ _)) by lia.
    cbn. by destruct st as [[|] [|]].
  - apply Forall_cons in Hcs as [Hc Hcs]. cbn [fmap list_fmap concat]. rewrite wav_loop_chunk by done.
    rewrite wav_chunk_spec. cbn [mbind outcome_bind]. rewrite !bodies_cons. simpl in Hf.
    case_decide as E1; [rewrite (decide_False (P := ck_id c = txt "data")) by (rewrite E1; discriminate)|case_decide as E2]; cbn [app].
    + cbn [mapM]. destruct (fmt_of (ck_body c)) as [f|]; cbn [mbind option_bind]; [|done].
      rewrite IH by (done || lia). cbn [w_fmt w_pcm]. destruct (mapM _ _) as [fmts|]; cbn [mbind option_bind mret option_ret]; [|done].
      by rewrite last_cons_union.
    + rewrite IH by (done || lia). cbn [w_fmt w_pcm]. by rewrite last_cons_union.
    + by rewrite IH by (done || lia).
Qed.

Lemma chunks_fuel cs : Forall chunk_ok cs → (length cs ≤ length (concat (chunk_bytes <$> cs)))%nat.
Proof.
  induction 1 as [|c cs Hc Hcs IH]; [simpl; lia|]. cbn [fmap list_fmap concat]. rewrite length_app. pose proof (len_chunk c Hc) as H.
  pose proof (Z.land_nonneg (len (ck_body c)) 1). unfold len in H at 1. assert (0 ≤ len (ck_body c)) by (unfold len; lia). simpl. lia.
Qed.

(** reading the chunks of a RIFF WAVE file back: whatever the chunks and their order,
    padding and unknown kinds included, [decode_wav] ends without a panic, skips each
    chunk exactly, and answers with the format of the last [fmt] chunk and the samples of
    the last [data] chunk, or rejects the file when a [fmt] chunk is not PCM or one of
    the two kinds is missing. *)
Theorem decode_wav_chunks size cs : length size = 4%nat → Forall chunk_ok cs → decode_wav (wav_file size cs) = Ok (wav_reference cs).
Proof.
  intros Hs Hcs. unfold decode_wav, wav_file.
  assert (len size = 4) by (unfold len; by rewrite Hs).
  assert (0 ≤ len (concat (chunk_bytes <$> cs))) by (unfold len; lia).
  change (len (txt "RIFF")) with 4. rewrite (proj2 (Z.ltb_ge _ _)) by (rewrite !len_app; change (len (txt "RIFF")) with 4; change (len (txt "WAVE")) with 4; lia).
  assert (∀ rest, slice (txt "RIFF" ++ rest) 0 4 = Ok (txt "RIFF")) as -> by (intros; by apply (slice_mid [] (txt "RIFF"))). cbn [mbind outcome_bind].
  rewrite (assoc_L (++) (txt "RIFF")). rewrite (slice_mid (txt "RIFF" ++ size) (txt "WAVE")) by (rewrite ?len_app; change (len (txt "RIFF")) with 4; change (len (txt "WAVE")) with 4; lia).
  cbn [mbind outcome_bind]. unfold beq. rewrite !bool_decide_true by done. cbn [negb orb].
  rewrite (assoc_L (++) (txt "RIFF" ++ size)).
  replace 12 with (len ((txt "RIFF" ++ size) ++ txt "WAVE")) by (rewrite !len_app; change (len (txt "RIFF")) with 4; change (len (txt "WAVE")) with 4; lia).
  rewrite wav_loop_chunks; [|done|rewrite length_app; pose proof (chunks_fuel cs Hcs); lia]. cbn [mbind outcome_bind w_fmt w_pcm]. f_equal.
  unfold wav_reference. destruct (mapM _ _) as [fmts|]; cbn [mbind option_bind]; [|done].
  destruct (last fmts) as [[[r c] b]|]; [|by destruct (last (bodies "data" cs))]. by destruct (last (bodies "data" cs)).
Qed.

(** A file with an unknown odd chunk, then the format, then two samples. *)
Definition some_chunks : list chunk :=
  [mkChunk (txt "LIST") [7; 7; 7]; mkChunk (txt "fmt ") (le_bytes 2 1 ++ le_bytes 2 1 ++ le_bytes 4 48000 ++ le_bytes 4 96000 ++ le_bytes 2 2 ++ le_bytes 2 16);
   mkChunk (txt "data") [1; 2; 255; 255]].

Lemma decode_wav_chunks_witness : Forall chunk_ok some_chunks ∧
  decode_wav (wav_file [0; 0; 0; 0] some_chunks) = Ok (Some (48000, 1, 16, [1; 2; 255; 255])).
Proof.
  assert (Forall chunk_ok some_chunks) as Hc by (repeat constructor).
  split; [done|]. rewrite (decode_wav_chunks [0; 0; 0; 0] some_chunks eq_refl Hc). vm_compute. reflexivity.
Defined.
