(* ===== verification/Hdad.v ===== *)
(** The audio driver process ([userspace/hdad/src/main.rs]): one turn of its loop on the
    mailbox and buffer it shares with the kernel, and what it makes of a request.

    A turn is one step: the kernel's [play_pcm] runs between turns. The registers it
    writes are recorded in order. The time stamp counter and whether the codec answers a
    verb in time are parameters, since they are the hardware's. *)

From stdpp Require Import prelude list numbers strings.
From S2P Require Import Prelude Text Pmm Memory Hepfs Elf Display Media.

Local Open Scope Z_scope.

Definition IC : Z := 0x60.
Definition IRS : Z := 0x68.
Definition SD_CTL : Z := 0x00.
Definition SD_CBL : Z := 0x08.
Definition SD_LVI : Z := 0x0C.
Definition SD_FMT : Z := 0x10.
Definition SD_BDPL : Z := 0x18.
Definition SD_BDPU : Z := 0x1C.
Definition SD_CTL_SRST : Z := Z.shiftl 1 0.
Definition SD_CTL_RUN : Z := Z.shiftl 1 1.
Definition SD_CTL_IOCE : Z := Z.shiftl 1 2.

(** What the driver does to the device: register writes and its descriptor list. *)
Inductive dev_op := W32 (off v : Z) | W16 (off v : Z) | Bdl (addr length ioc : Z).

(** The values read from the mailbox once, at start-up. *)
Record hdad_cfg := mkCfg { sd_off : Z; tsc_per_ms : Z; buf_phys : Z; bdl_phys : Z }.

(** [hd]: the shared memory; [ops]: the device writes so far; [reads]: the readings of
    the time stamp counter so far; the other fields are the loop's local variables. *)
Record hdad_st := mkHdad {
  hd : Hda; ops : list dev_op; reads : nat;
  last_volume : Z; ctl_base : Z; buf_bytes : Z; start_at : Z; stop_at : Z; drain_at : option Z }.

Definition tsc_past (now mark : Z) : bool := u64 (now - mark) <? U64_MAX / 2.
Definition sat_mul (a b : Z) : Z := Z.min (a * b) U64_MAX.

Section hdad.
Context (cfg : hdad_cfg) (clock : nat → Z) (answered : Z → bool).

Abbreviation M := (ST hdad_st).

Definition dev (l : list dev_op) : M unit := modify (λ s,
  mkHdad (hd s) (ops s ++ l) (reads s) (last_volume s) (ctl_base s) (buf_bytes s) (start_at s) (stop_at s) (drain_at s)).

Definition rdtsc : M Z := λ s,
  Ok (clock (reads s), mkHdad (hd s) (ops s) (S (reads s)) (last_volume s) (ctl_base s) (buf_bytes s) (start_at s) (stop_at s) (drain_at s)).

Definition set_hd (f : Hda → Hda) : M unit := modify (λ s,
  mkHdad (f (hd s)) (ops s) (reads s) (last_volume s) (ctl_base s) (buf_bytes s) (start_at s) (stop_at s) (drain_at s)).

Definition send_verb (cad nid verb : Z) : M unit :=
  let cmd := Z.lor (Z.lor (u32 (Z.shiftl cad 28)) (Z.shiftl nid 20)) (Z.land verb 0x000FFFFF) in
  dev ([W32 IC cmd; W16 IRS 0x01] ++ if answered cmd then [W16 IRS 0x02] else []).

Definition verb4 (nid opcode data : Z) : M unit := send_verb 0 nid (Z.lor (Z.shiftl opcode 16) (Z.land data 0xFFFF)).
Definition verb12 (nid opcode data : Z) : M unit := send_verb 0 nid (Z.lor (Z.shiftl opcode 8) (Z.land data 0xFF)).

Definition send_amp_gain_mute_verb (vol : Z) : M unit := verb4 2 0x3 (Z.lor 0xD000 (vol * 127 / 100)).

Definition configure_codec (stream_id fmt vol : Z) : M unit :=
  verb12 1 0x705 0x00 ≫= λ _, verb12 2 0x705 0x00 ≫= λ _, verb4 2 0x2 fmt ≫= λ _, verb12 2 0x706 (Z.shiftl stream_id 4) ≫= λ _,
  send_amp_gain_mute_verb vol ≫= λ _, verb12 4 0x707 0x40.

(** The three writes that halt and reset the stream. *)
Definition stop_stream : M unit := λ s,
  dev [W32 (sd_off cfg + SD_CTL) (ctl_base s); W32 (sd_off cfg + SD_CTL) (Z.lor (ctl_base s) SD_CTL_SRST); W32 (sd_off cfg + SD_CTL) (ctl_base s)] s.

Definition set_playing (v : Z) (h : Hda) : Hda := mkHda (hda_buf h) (play_request h) (volume h) v (elapsed_ms h) (total_ms h) (hda_stop h).
Definition set_elapsed (v : Z) (h : Hda) : Hda := mkHda (hda_buf h) (play_request h) (volume h) (is_playing h) v (total_ms h) (hda_stop h).

(** [write_bytes(buf_va, 0, buf_bytes)]; [buf_bytes] is even. *)
Definition zero_words (n : Z) (h : Hda) : Hda :=
  mkHda (replicate (Z.to_nat n) 0 ++ drop (Z.to_nat n) (hda_buf h)) (play_request h) (volume h) (is_playing h) (elapsed_ms h) (total_ms h) (hda_stop h).
Definition zero_buffer : M unit := λ s, set_hd (zero_words (buf_bytes s / 2)) s.

Fixpoint wait_until (fuel : nat) (until : Z) : M unit :=
  match fuel with
  | O => λ _, Panic "out of fuel"
  | S fuel => now ← rdtsc; if tsc_past now until then mret tt else wait_until fuel until
  end.

Definition apply_volume : M Z := λ s,
  let vol := volume (hd s) in
  (if vol =? last_volume s then mret vol
   else send_amp_gain_mute_verb (u8 vol) ≫= λ _,
        modify (λ s, mkHdad (hd s) (ops s) (reads s) vol (ctl_base s) (buf_bytes s) (start_at s) (stop_at s) (drain_at s)) ≫= λ _, mret vol) s.

Definition ctl_playing : Z := Z.lor (Z.shiftl 1 20) SD_CTL_IOCE.
Definition clip_ms (n : Z) : Z := Z.max (n / 2 * 1000 / 48000) 1.

Definition program_stream (bytes : Z) : list dev_op :=
  [W32 (sd_off cfg + SD_CTL) SD_CTL_SRST; W32 (sd_off cfg + SD_CTL) 0; W32 (sd_off cfg + SD_BDPL) (u32 (bdl_phys cfg));
   W32 (sd_off cfg + SD_BDPU) (Z.shiftr (bdl_phys cfg) 32); W32 (sd_off cfg + SD_CBL) (u32 bytes); W16 (sd_off cfg + SD_LVI) 0;
   W16 (sd_off cfg + SD_FMT) 0x0011; W32 (sd_off cfg + SD_CTL) (Z.lor ctl_playing SD_CTL_RUN)].

(** Stop what is playing: silence, 200 ms for it to reach the speakers, reset. *)
Definition interrupt (fuel : nat) : M unit :=
  zero_buffer ≫= λ _, t ← rdtsc; wait_until fuel (u64 (t + sat_mul (tsc_per_ms cfg) 200)) ≫= λ _, stop_stream.

Definition start_clip (req vol : Z) : M unit :=
  dev [Bdl (buf_phys cfg) (u32 (req * 2)) 1] ≫= λ _,
  configure_codec 1 0x0011 (u8 vol) ≫= λ _,
  dev (program_stream (req * 2)) ≫= λ _,
  t ← rdtsc;
  modify (λ s, mkHdad (mkHda (hda_buf (hd s)) 0 (volume (hd s)) 1 0 (u32 (clip_ms req)) (hda_stop (hd s)))
                 (ops s) (reads s) (last_volume s) ctl_playing (req * 2) t (u64 (t + sat_mul (tsc_per_ms cfg) (clip_ms req))) None).

Definition serve_request (fuel : nat) (vol : Z) : M unit := λ s,
  let req := play_request (hd s) in
  (if req =? 0 then mret tt
   else (if negb (is_playing (hd s) =? 0) then interrupt fuel else mret tt) ≫= λ _, start_clip req vol) s.

Definition set_drain (d : option Z) : M unit := modify (λ s,
  mkHdad (hd s) (ops s) (reads s) (last_volume s) (ctl_base s) (buf_bytes s) (start_at s) (stop_at s) d).

Definition advance : M unit := λ s,
  (if is_playing (hd s) =? 0 then mret tt
   else
     now ← rdtsc;
     match drain_at s with
     | None =>
       if tsc_past now (stop_at s) then zero_buffer ≫= λ _, set_drain (Some (u64 (now + sat_mul (tsc_per_ms cfg) 200)))
       else set_hd (set_elapsed (u32 (u64 (now - start_at s) / tsc_per_ms cfg)))
     | Some d => if tsc_past now d then stop_stream ≫= λ _, set_hd (set_playing 0) ≫= λ _, set_drain None else mret tt
     end) s.

(** One turn of the loop; [true]: the process exits. *)
Definition turn (fuel : nat) : M bool := λ s,
  (if negb (hda_stop (hd s) =? 0) then
     (if negb (is_playing (hd s) =? 0) then stop_stream ≫= λ _, set_hd (set_playing 0) else mret tt) ≫= λ _, mret true
   else
     vol ← apply_volume; serve_request fuel vol ≫= λ _, advance ≫= λ _, mret false) s.

(** [n] turns, or fewer when the process exits. *)
Fixpoint turns (n fuel : nat) : M bool :=
  match n with
  | O => mret false
  | S n => e ← turn fuel; if (e : bool) then mret true else turns n fuel
  end.
End hdad.
