(* ===== verification/HdadSpec.v ===== *)
(** What the audio driver does with a request: the stream it programs and the buffer it
    plays, and that a clip, once started, ends. *)

From stdpp Require Import prelude list numbers strings.
From S2P Require Import Prelude Text Pmm Memory Hepfs Elf Display Media Hdad.

Local Open Scope Z_scope.

Section spec.
Context (cfg : hdad_cfg) (clock : nat → Z) (answered : Z → bool).

(** Whether the stream runs after the register writes [l]. *)
Definition ctl_write (run : bool) (o : dev_op) : bool :=
  match o with
  | W32 off v => if off =? sd_off cfg + SD_CTL then Z.testbit v 1 else run
  | _ => run
  end.
Definition running (l : list dev_op) : bool := fold_left ctl_write l false.

(** [s'] is [s] after verbs to the codec, and at most the volume remembered. *)
Definition quiet (s s' : hdad_st) : Prop :=
  hd s' = hd s ∧ reads s' = reads s ∧ ctl_base s' = ctl_base s ∧ buf_bytes s' = buf_bytes s ∧ start_at s' = start_at s ∧
  stop_at s' = stop_at s ∧ drain_at s' = drain_at s ∧ running (ops s') = running (ops s).

Lemma quiet_refl s : quiet s s.
Proof. by unfold quiet. Qed.

Lemma quiet_trans s1 s2 s3 : quiet s1 s2 → quiet s2 s3 → quiet s1 s3.
Proof. unfold quiet. intros (-> & -> & -> & -> & -> & -> & -> & ->). done. Qed.

Lemma running_app l l' : running (l ++ l') = fold_left ctl_write l' (running l).
Proof. apply fold_left_app. Qed.

Hypothesis Hsd : 0x80 ≤ sd_off cfg.

Lemma verb_quiet cad nid verb s (Q : unit → hdad_st → Prop) :
  (∀ s', quiet s s' → Q tt s') → wp (send_verb answered cad nid verb) s Q.
Proof.
  intros H. apply H. unfold quiet. split_and!; try done. cbn [ops]. rewrite running_app.
  assert ((IC =? sd_off cfg + SD_CTL) = false) as E by (apply Z.eqb_neq; unfold IC, SD_CTL; lia).
  destruct (answered _); cbn [app fold_left ctl_write]; by rewrite E.
Qed.

Lemma volume_quiet s (Q : Z → hdad_st → Prop) :
  (∀ s', quiet s s' → Q (volume (hd s)) s') → wp (apply_volume answered) s Q.
Proof.
  intros H. unfold wp, apply_volume. destruct (volume (hd s) =? last_volume s); [apply (H s), quiet_refl|].
  change (wp (send_amp_gain_mute_verb answered (u8 (volume (hd s))) ≫= λ _,
    modify (λ s0, mkHdad (hd s0) (ops s0) (reads s0) (volume (hd s)) (ctl_base s0) (buf_bytes s0) (start_at s0) (stop_at s0) (drain_at s0)) ≫= λ _,
    mret (volume (hd s))) s Q).
  apply wp_bind. apply verb_quiet. intros s' Hs'. apply H. eapply quiet_trans; [exact Hs'|]. by unfold quiet.
Qed.

Lemma configure_quiet stream_id fmt vol s (Q : unit → hdad_st → Prop) :
  (∀ s', quiet s s' → Q tt s') → wp (configure_codec answered stream_id fmt vol) s Q.
Proof.
  intros H. unfold configure_codec, send_amp_gain_mute_verb, verb4, verb12.
  do 5 (apply wp_bind, verb_quiet; intros ? ?). apply verb_quiet; intros ? ?. apply H. eauto 10 using quiet_trans.
Qed.

(** ** A request *)

(** The state a started clip is in. *)
Definition clip_state (n start : Z) (s : hdad_st) : Prop :=
  is_playing (hd s) = 1 ∧ play_request (hd s) = 0 ∧ elapsed_ms (hd s) = 0 ∧ total_ms (hd s) = u32 (clip_ms n) ∧
  ctl_base s = ctl_playing ∧ buf_bytes s = n * 2 ∧ start_at s = start ∧ stop_at s = u64 (start + sat_mul (tsc_per_ms cfg) (clip_ms n)) ∧
  drain_at s = None ∧ running (ops s) = true ∧ ∃ before, ops s = before ++ program_stream cfg (n * 2).

Lemma start_clip_spec n vol s (Q : unit → hdad_st → Prop) :
  (∀ s', hda_buf (hd s') = hda_buf (hd s) → hda_stop (hd s') = hda_stop (hd s) → volume (hd s') = volume (hd s) → reads s' = S (reads s) →
     clip_state n (clock (reads s)) s' → Q tt s') →
  wp (start_clip cfg clock answered n vol) s Q.
Proof.
  intros H. unfold start_clip. apply wp_bind. unfold dev at 1, modify. unfold wp at 1.
  apply wp_bind, configure_quiet. intros s' (E1 & E2 & _). cbn [hd reads] in E1, E2.
  unfold dev, rdtsc. unfold modify, wp, mbind, ST_bind. apply H; cbn [hd hda_buf hda_stop volume reads]; rewrite ?E1, ?E2; try done.
  unfold clip_state; cbn [hd ops is_playing play_request elapsed_ms total_ms ctl_base buf_bytes start_at stop_at drain_at]. rewrite ?E2.
  split_and!; try done; [|by eexists]. rewrite running_app. cbn [program_stream fold_left ctl_write]. rewrite Z.eqb_refl. reflexivity.
Qed.

Definition fuel_enough (fuel k : nat) (s : hdad_st) : Prop :=
  (k < fuel)%nat ∧ tsc_past (clock (S (reads s) + k)) (u64 (clock (reads s) + sat_mul (tsc_per_ms cfg) 200)) = true.

Lemma wait_until_spec until k : ∀ fuel s (Q : unit → hdad_st → Prop),
  (k < fuel)%nat → tsc_past (clock (reads s + k)) until = true →
  (∀ s', hd s' = hd s → ops s' = ops s → ctl_base s' = ctl_base s → Q tt s') → wp (wait_until clock fuel until) s Q.
Proof.
  induction k as [|k IH]; intros [|fuel] s Q Hf Hp H; [lia| |lia|]; cbn [wait_until]; unfold wp, mbind, ST_bind, rdtsc;
    destruct (tsc_past (clock (reads s)) until) eqn:E; try (apply H; done).
  - rewrite Nat.add_0_r in Hp. congruence.
  - eapply IH; [lia| |].
    + cbn [reads]. by rewrite Nat.add_succ_comm.
    + intros s' E1 E2 E3. by apply H.
Qed.

(** a play request starts the stream on the shared buffer with the requested length,
    clears the request and reports the clip's duration. What the stream then plays is
    the buffer the kernel filled when nothing was playing; when a clip was still playing,
    the start of the new clip, as long as the old one, has been overwritten with silence. *)
Theorem request_served fuel vol k s n :
  play_request (hd s) = n → n ≠ 0 → is_playing (hd s) = 0 ∨ fuel_enough fuel k s →
  wp (serve_request cfg clock answered fuel vol) s (λ _ s', ∃ start, clip_state n start s' ∧
    hda_buf (hd s') = if is_playing (hd s) =? 0 then hda_buf (hd s)
                      else replicate (Z.to_nat (buf_bytes s / 2)) 0 ++ drop (Z.to_nat (buf_bytes s / 2)) (hda_buf (hd s))).
Proof.
  intros Hn Hnz Hf. unfold wp, serve_request. rewrite Hn, (proj2 (Z.eqb_neq _ _) Hnz).
  match goal with |- match ?c s with _ => _ end => change (wp c s (λ _ s', ∃ start, clip_state n start s' ∧
    hda_buf (hd s') = if is_playing (hd s) =? 0 then hda_buf (hd s)
                      else replicate (Z.to_nat (buf_bytes s / 2)) 0 ++ drop (Z.to_nat (buf_bytes s / 2)) (hda_buf (hd s)))) end.
  apply wp_bind. destruct (Z.eqb_spec (is_playing (hd s)) 0) as [E|E]; cbn [negb].
  - unfold wp at 1, mret, ST_ret. apply start_clip_spec. intros s' Hb _ _ _ Hc. eauto.
  - destruct Hf as [|[Hk Hp]]; [done|]. unfold interrupt. apply wp_bind. unfold wp at 1, zero_buffer, set_hd, modify.
    apply wp_bind. unfold wp at 1, rdtsc. cbn [reads]. apply wp_bind. eapply wait_until_spec; [exact Hk|exact Hp|].
    intros s' E1 _ _. unfold wp at 1, stop_stream, dev, modify. apply start_clip_spec. cbn [hd]. intros s'' Hb _ _ _ Hc.
    eexists. split; [exact Hc|]. rewrite Hb, E1. done.
Qed.

(** ** A clip ends *)

Lemma tsc_past_small a b : 0 ≤ a < 2 ^ 62 → 0 ≤ b < 2 ^ 63 → tsc_past a b = (b <=? a).
Proof.
  intros Ha Hb. unfold tsc_past. change (U64_MAX / 2) with (2 ^ 63 - 1).
  destruct (Z.leb_spec b a) as [H|H]; [apply Z.ltb_lt; rewrite wrap_small; unfold is_u; lia|]. apply Z.ltb_ge.
  unfold wrap. rewrite <- (Z.mod_unique_pos (a - b) (2 ^ 64) (-1) (a - b + 2 ^ 64)); lia.
Qed.

Section clip.
(** [r]: the readings before the clip; [m]: how many turns are looked at. *)
Context (r m : nat) (n : Z).
Hypothesis steady : ∀ i j, (i ≤ j ≤ r + m)%nat → 0 ≤ clock i ≤ clock j ∧ clock j < 2 ^ 62.
Hypothesis Htsc : 0 < tsc_per_ms cfg < 2 ^ 32.
Hypothesis Hn : 0 < n ≤ 2 ^ 19.

Definition clip_end : Z := clock r + tsc_per_ms cfg * clip_ms n.
Definition drain (t : nat) : Z := clock (r + t) + tsc_per_ms cfg * 200.
Definition silent (s : hdad_st) : Prop := take (Z.to_nat n) (hda_buf (hd s)) = replicate (Z.to_nat n) 0.

(** After [t] turns: no further request, and the clip is playing, being drained, or over. *)
Definition clip_inv (t : nat) (s : hdad_st) : Prop :=
  hda_stop (hd s) = 0 ∧ play_request (hd s) = 0 ∧ elapsed_ms (hd s) ≤ total_ms (hd s) ∧ total_ms (hd s) = clip_ms n ∧
  ((is_playing (hd s) = 0 ∧ running (ops s) = false ∧ silent s) ∨
   (is_playing (hd s) = 1 ∧ ctl_base s = ctl_playing ∧ buf_bytes s = n * 2 ∧ reads s = (r + S t)%nat ∧ start_at s = clock r ∧ stop_at s = clip_end ∧
    ((drain_at s = None ∧ ∀ i, (1 ≤ i ≤ t)%nat → clock (r + i) < clip_end) ∨
     (∃ t0, (1 ≤ t0 ≤ t)%nat ∧ drain_at s = Some (drain t0) ∧ silent s ∧ (∀ i, (1 ≤ i < t0)%nat → clock (r + i) < clip_end) ∧
        ∀ j, (t0 < j ≤ t)%nat → clock (r + j) < drain t0)))).

Lemma clip_ms_range : 1 ≤ clip_ms n ≤ 2 ^ 13.
Proof. unfold clip_ms. dlia. Qed.

Lemma quiet_inv t s s' : quiet s s' → clip_inv t s → clip_inv t s'.
Proof. unfold quiet, clip_inv, silent. by intros (-> & -> & -> & -> & -> & -> & -> & ->). Qed.

Lemma running_stop l : running (l ++ [W32 (sd_off cfg + SD_CTL) ctl_playing; W32 (sd_off cfg + SD_CTL) (Z.lor ctl_playing SD_CTL_SRST); W32 (sd_off cfg + SD_CTL) ctl_playing]) = false.
Proof. rewrite running_app. cbn [fold_left ctl_write]. rewrite Z.eqb_refl. reflexivity. Qed.

Lemma silent_zero h : take (Z.to_nat n) (hda_buf (zero_words (n * 2 / 2) h)) = replicate (Z.to_nat n) 0.
Proof. cbn [zero_words hda_buf]. rewrite Z.div_mul by lia. apply take_app_length'. by rewrite length_replicate. Qed.

Lemma advance_inv t s : (S t ≤ m)%nat → clip_inv t s → wp (advance cfg clock) s (λ _ s', clip_inv (S t) s').
Proof.
  intros Ht (Hs & Hq & He & Htot & Hp). pose proof clip_ms_range as Hms.
  destruct (steady r (r + S t) ltac:(lia)) as [[Hc0 Hc1] Hc2].
  unfold wp, advance. destruct Hp as [(Hip & Hr & Hsil)|(Hip & Hcb & Hbb & Hreads & Hst & Hend & Hp)].
  - rewrite Hip. change (0 =? 0) with true. cbn iota. unfold mret, ST_ret, clip_inv. split_and!; try done. left. by split_and!.
  - rewrite Hip. change (1 =? 0) with false. cbn iota. unfold mbind, ST_bind, rdtsc. rewrite Hreads.
    destruct Hp as [[Hd Hlt]|(t0 & Ht0 & Hd & Hsil & Hlt & Hdr)].
    + rewrite Hd, Hend. rewrite tsc_past_small by (unfold clip_end; nia). destruct (Z.leb_spec clip_end (clock (r + S t))) as [H|H].
      * unfold zero_buffer, set_drain, set_hd, modify. unfold clip_inv. cbn [hd]. cbn [hda_stop play_request elapsed_ms total_ms zero_words is_playing].
        split_and!; try done. right. cbn [ctl_base buf_bytes reads start_at stop_at drain_at]. split_and!; try done; try lia. right. exists (S t).
        split_and!; [lia|lia| | |intros; apply Hlt; lia|intros; lia].
        -- f_equal. unfold drain, sat_mul. rewrite Z.min_l by (unfold U64_MAX; lia). apply wrap_small. unfold is_u. lia.
        -- unfold silent. cbn [hd buf_bytes]. rewrite Hbb. apply silent_zero.
      * unfold set_hd, modify, clip_inv. cbn [hd set_elapsed hda_stop play_request elapsed_ms total_ms is_playing]. split_and!; try done.
        -- rewrite Hst, Htot. unfold clip_end in H.
           assert (0 ≤ (clock (r + S t) - clock r) / tsc_per_ms cfg < clip_ms n) by (split; [apply Z.div_pos; lia|apply Z.div_lt_upper_bound; lia]).
           rewrite (wrap_small 64) by (unfold is_u; lia). rewrite (wrap_small 32) by (unfold is_u; lia). lia.
        -- right. cbn [ctl_base buf_bytes reads start_at stop_at drain_at]. split_and!; try done; try lia. left. split; [done|].
           intros i Hi. destruct (decide (i = S t)) as [->|]; [done|]. apply Hlt. lia.
    + rewrite Hd. rewrite tsc_past_small; [|lia|]. 2:{ destruct (steady (r + t0) (r + S t)) as [? ?]; [lia|]. unfold drain. lia. }
      destruct (Z.leb_spec (drain t0) (clock (r + S t))) as [H|H].
      * unfold stop_stream, dev, set_hd, set_drain, modify. cbn [hd ctl_base ops]. rewrite Hcb. unfold clip_inv. cbn [hd ops]. cbn [set_playing hda_stop play_request elapsed_ms total_ms is_playing].
        split_and!; try done. left. split_and!; [done|apply running_stop|]. unfold silent in *. done.
      * unfold mret, ST_ret, clip_inv. cbn [hd]. split_and!; try done. right. cbn [ctl_base buf_bytes reads start_at stop_at drain_at]. split_and!; try done; try lia.
        right. exists t0. split_and!; try done; try lia. intros j Hj. destruct (decide (j = S t)) as [->|]; [done|]. apply Hdr. lia.
Qed.

Lemma turn_running fuel s (Q : bool → hdad_st → Prop) : hda_stop (hd s) = 0 →
  wp (vol ← apply_volume answered; serve_request cfg clock answered fuel vol ≫= λ _, advance cfg clock ≫= λ _, mret false) s Q →
  wp (turn cfg clock answered fuel) s Q.
Proof. intros E H. unfold wp, turn. rewrite E. exact H. Qed.

Lemma turn_inv fuel t s : (S t ≤ m)%nat → clip_inv t s → wp (turn cfg clock answered fuel) s (λ e s', e = false ∧ clip_inv (S t) s').
Proof.
  intros Ht Hi. pose proof Hi as (Hs & Hq & _). apply turn_running; [done|].
  apply wp_bind, volume_quiet. intros s1 Hs1. pose proof (quiet_inv t s s1 Hs1 Hi) as H1. apply wp_bind.
  unfold wp at 1, serve_request. rewrite (proj1 Hs1), Hq. change (0 =? 0) with true. cbn iota. unfold mret, ST_ret.
  apply wp_bind. eapply wp_mono; [by apply advance_inv|]. intros ? s' H. by split.
Qed.

Lemma turns_inv fuel k : ∀ t s, (t + k ≤ m)%nat → clip_inv t s → wp (turns cfg clock answered k fuel) s (λ e s', e = false ∧ clip_inv (t + k) s').
Proof.
  induction k as [|k IH]; intros t s Hk Hi; cbn [turns].
  - rewrite Nat.add_0_r. by split.
  - apply wp_bind. eapply wp_mono; [apply (turn_inv fuel t); [lia|done]|]. intros e s' H. cbv beta in H. destruct H as [-> H]. rewrite Nat.add_succ_r. apply (IH (S t)); [lia|done].
Qed.

Lemma clip_over i j s : (1 ≤ i < j)%nat → (j ≤ m)%nat → clip_end ≤ clock (r + i) → clock (r + i) + tsc_per_ms cfg * 200 ≤ clock (r + j) →
  clip_inv m s → is_playing (hd s) = 0 ∧ running (ops s) = false ∧ silent s ∧ elapsed_ms (hd s) ≤ total_ms (hd s).
Proof.
  intros Hij Hj Hi Hd (_ & _ & He & _ & [(? & ? & ?)|(_ & _ & _ & _ & _ & _ & [[_ Hlt]|(t0 & Ht0 & _ & _ & Hlt & Hdr)])]); [done| |].
  - specialize (Hlt i ltac:(lia)). lia.
  - assert (t0 ≤ i)%nat by (destruct (decide (t0 ≤ i)%nat); [done|]; specialize (Hlt i ltac:(lia)); lia).
    specialize (Hdr j ltac:(lia)). unfold drain in Hdr. destruct (steady (r + t0) (r + i)) as [[? ?] ?]; lia.
Qed.
End clip.

Lemma serve_idle fuel vol s (Q : unit → hdad_st → Prop) : play_request (hd s) ≠ 0 → is_playing (hd s) = 0 →
  wp (start_clip cfg clock answered (play_request (hd s)) vol) s Q → wp (serve_request cfg clock answered fuel vol) s Q.
Proof.
  intros Hr Hp. unfold wp, serve_request. cbv zeta. rewrite (proj2 (Z.eqb_neq _ _) Hr), Hp.
  generalize (start_clip cfg clock answered (play_request (hd s)) vol) as c. intros c H. exact H.
Qed.

(** An idle driver's clip, once started, is in the first state of [clip_inv]. *)
Lemma serve_clip m n r fuel vol s :
  (∀ a b, (a ≤ b ≤ r + m)%nat → 0 ≤ clock a ≤ clock b ∧ clock b < 2 ^ 62) → 0 < tsc_per_ms cfg < 2 ^ 32 → 0 < n ≤ 2 ^ 19 →
  is_playing (hd s) = 0 → play_request (hd s) = n → hda_stop (hd s) = 0 → reads s = r →
  wp (serve_request cfg clock answered fuel vol) s (λ _ s', clip_inv r n 0 s').
Proof.
  intros Hsteady Htsc Hn E1 E2 E3 E4. apply serve_idle; [lia|done|]. rewrite E2.
  apply start_clip_spec. rewrite E4. intros s'' _ Es _ Er (Hp & Hq & He & Ht & Hc & Hb & Hst & Hsp & Hdr & _ & _).
  pose proof (clip_ms_range n Hn) as Hms. destruct (Hsteady r r ltac:(lia)) as [? ?].
  rewrite wrap_small in Ht by (unfold is_u; lia). unfold sat_mul in Hsp. rewrite Z.min_l, wrap_small in Hsp by (unfold is_u, U64_MAX; nia).
  unfold clip_inv. rewrite Es, Er, Hp, Hq, He, Ht. split_and!; try done; [lia|]. right. split_and!; try done; [lia|]. left. split; [done|]. intros; lia.
Qed.

(** every clip ends by itself. From an idle driver and a request of [n] words, once
    some turn has read a time past the clip's end and a later one a time 200 ms after
    that, the stream is stopped, the buffer it played is silent and the driver is idle
    again; the position it reported never exceeded the duration. *)
Theorem clip_ends m fuel s n i j :
  (∀ a b, (a ≤ b ≤ reads s + m)%nat → 0 ≤ clock a ≤ clock b ∧ clock b < 2 ^ 62) → 0 < tsc_per_ms cfg < 2 ^ 32 → 0 < n ≤ 2 ^ 19 →
  hda_stop (hd s) = 0 → is_playing (hd s) = 0 → play_request (hd s) = n → (1 ≤ i < j)%nat → (j ≤ m)%nat →
  clock (reads s) + tsc_per_ms cfg * clip_ms n ≤ clock (reads s + i) → clock (reads s + i) + tsc_per_ms cfg * 200 ≤ clock (reads s + j) →
  wp (turns cfg clock answered m fuel) s (λ e s', e = false ∧ is_playing (hd s') = 0 ∧ running (ops s') = false ∧ silent n s' ∧ elapsed_ms (hd s') ≤ total_ms (hd s')).
Proof.
  intros Hsteady Htsc Hn Hstop Hplay Hreq Hij Hj Hi Hd. destruct m as [|m]; [lia|]. cbn [turns].
  apply wp_bind, turn_running; [done|]. apply wp_bind, volume_quiet. intros s1 (E1 & E2 & _).
  apply wp_bind. eapply wp_mono; [apply (serve_clip (S m) n (reads s)); by rewrite ?E1|]. intros ? s2 H. cbv beta in H.
  apply wp_bind. eapply wp_mono; [apply (advance_inv (reads s) (S m) n Hsteady Htsc Hn 0); [lia|done]|]. intros ? s3 H3. cbv beta in H3.
  unfold wp at 1, mret, ST_ret. eapply wp_mono; [apply (turns_inv (reads s) (S m) n Hsteady Htsc Hn fuel m 1); [lia|done]|].
  intros e s4 [-> H4]. split; [done|]. by apply (clip_over (reads s) (S m) n Hsteady i j).
Qed.
End spec.

(** ** Witnesses *)

Definition demo_cfg : hdad_cfg := mkCfg 0x100 1 0x200000 0x300000.
Definition demo_clock (i : nat) : Z := 300 * Z.of_nat i.
Definition no_answer (_ : Z) : bool := false.

(** A request of four words while a clip of two plays: the first two are lost. *)
Definition busy : hdad_st := mkHdad (mkHda [5; 6; 7; 8] 4 50 1 0 1 0) [] 1 50 ctl_playing 4 0 1 None.

Lemma request_served_witness :
  ∃ s', serve_request demo_cfg demo_clock no_answer 1 50 busy = Ok (tt, s') ∧ hda_buf (hd s') = [0; 0; 7; 8].
Proof.
  assert (fuel_enough demo_cfg demo_clock 1 0 busy) as Hf by (split; [lia|reflexivity]).
  destruct (wp_inv _ _ _ (request_served demo_cfg demo_clock no_answer ltac:(simpl; lia) 1 50 0 busy 4 eq_refl ltac:(lia) (or_intror Hf)))
    as ([] & s' & E & _ & _ & Hb).
  exists s'. split; [exact E|]. rewrite Hb. reflexivity.
Defined.

Definition asked : hdad_st := mkHdad (mkHda [5; 6; 7; 8] 2 50 0 0 0 0) [] 0 50 0 0 0 0 None.

Lemma clip_ends_witness :
  ∃ s', turns demo_cfg demo_clock no_answer 2 1 asked = Ok (false, s') ∧ is_playing (hd s') = 0 ∧ silent 2 s'.
Proof.
  destruct (wp_inv _ _ _ (clip_ends demo_cfg demo_clock no_answer ltac:(simpl; lia) 2 1 asked 2 1 2
    ltac:(unfold demo_clock; simpl; lia) ltac:(simpl; lia) ltac:(lia) eq_refl eq_refl eq_refl ltac:(lia) ltac:(lia)
    ltac:(vm_compute; discriminate) ltac:(vm_compute; discriminate))) as (e & s' & E & -> & Hp & _ & Hs & _).
  exists s'. done.
Defined.
