(* ===== verification/Desktop.v ===== *)
(** The desktop's state ([kernel/src/desktop.rs]): windows, icons, menus, prompts and
    pins, and every operation on them but [update_mouse] (see [Mouse]) and the drawing.

    Coordinates are plain integers: screen sizes and window sizes stay far below the
    bounds of [i32] and [usize], and the casts of negative values are written out.
    Readings of the time stamp counter and of the tick count are arguments. [f32] is the
    standard library's executable binary float at 24 bits of precision. *)

From Stdlib Require Import Floats.SpecFloat.
From stdpp Require Import prelude list numbers strings.
From S2P Require Import Prelude Text Pmm Memory Hepfs Elf Display Media.

Local Open Scope Z_scope.

(** ** Single-precision arithmetic *)

Abbreviation f32 := spec_float.
Definition f32_of (z : Z) : f32 := binary_normalize 24 128 z 0 false.
Definition f32_add : f32 → f32 → f32 := SFadd 24 128.
Definition f32_sub : f32 → f32 → f32 := SFsub 24 128.
Definition f32_mul : f32 → f32 → f32 := SFmul 24 128.
Definition f32_div : f32 → f32 → f32 := SFdiv 24 128.
Definition f32_le : f32 → f32 → bool := SFleb.
Definition f32_lt : f32 → f32 → bool := SFltb.
Definition f32_min (a b : f32) : f32 := if f32_lt b a then b else a.
Definition f32_max (a b : f32) : f32 := if f32_lt a b then b else a.
Definition f32_clamp01 (a : f32) : f32 := if f32_lt a (f32_of 0) then f32_of 0 else if f32_lt (f32_of 1) a then f32_of 1 else a.

(** [as i32] and [as usize] of a finite value: truncation. *)
Definition f32_trunc (a : f32) : Z :=
  match a with
  | S754_finite s m e =>
    let v := if 0 <=? e then Z.pos m * 2 ^ e else Z.shiftr (Z.pos m) (- e) in
    if s then - v else v
  | _ => 0
  end.

(** ** Constants *)

Definition TITLE_H : Z := 22.
Definition TASKBAR_H : Z := 32.
Definition BORDER_W : Z := 1.
Definition DOCK_W : Z := 56.
Definition DOCK_ITEM_SIZE : Z := 40.
Definition DOCK_ITEM_STRIDE : Z := 56.
Definition DOCK_ITEM_X : Z := 8.
Definition DOCK_ITEM_Y0 : Z := 16.
Definition ICON_SIZE : Z := 48.
Definition ICON_STRIDE : Z := 80.
Definition ICON_X : Z := DOCK_W + 16.
Definition ICON_COL_W : Z := 90.
Definition ICON_ROW_H : Z := ICON_STRIDE.
Definition ICON_GRID_ORIGIN_X : Z := ICON_X.
Definition ICON_GRID_ORIGIN_Y : Z := 16.
Definition ICON_DBLCLICK_TICKS : Z := 60.
Definition ICON_RENAME_TICKS : Z := 300.
Definition START_W : Z := 68.
Definition TASK_BTN_W : Z := 120.
Definition MENU_ENTRY_H : Z := 26.
Definition MENU_W : Z := 160.
Definition MENU_BTN_SIZE : Z := 14.
Definition MENU_BTN_Y : Z := 2.
Definition MENU_SHUTDOWN_X : Z := MENU_W - MENU_BTN_SIZE - 4.
Definition MENU_RESTART_X : Z := MENU_SHUTDOWN_X - MENU_BTN_SIZE - 4.
Definition VOL_ICON_W : Z := 24.
Definition VOL_RESERVED_W : Z := 110.
Definition VOL_POPUP_W : Z := 140.
Definition VOL_POPUP_H : Z := 50.
Definition VOL_POPUP_PAD : Z := 12.
Definition VOL_POPUP_SLIDER_Y : Z := 28.
Definition VOL_POPUP_SLIDER_W : Z := VOL_POPUP_W - VOL_POPUP_PAD * 2.
Definition VOL_POPUP_SLIDER_H : Z := 8.
Definition ANIM_MS : Z := 180.
Definition MENU_ANIM_MS : Z := 150.

Definition ssub (a b : Z) : Z := Z.max (a - b) 0.
Definition clamp (lo hi z : Z) : Z := Z.min (Z.max z lo) hi.

(** [mx >= x && mx < x + w && my >= y && my < y + h] *)
Definition in_rect (x y w h mx my : Z) : bool := (x <=? mx) && (mx <? x + w) && (y <=? my) && (my <? y + h).

Definition vol_icon_rect (fb_w ty : Z) : Z * Z * Z * Z := (ssub fb_w VOL_RESERVED_W, ty + 4, VOL_ICON_W, TASKBAR_H - 8).

Definition vol_popup_rect (fb_w ty : Z) : Z * Z * Z * Z :=
  let '(ix, _, iw, _) := vol_icon_rect fb_w ty in
  (Z.min (ssub (ix + iw / 2) (VOL_POPUP_W / 2)) (ssub fb_w VOL_POPUP_W), ssub ty VOL_POPUP_H, VOL_POPUP_W, VOL_POPUP_H).

Definition menu_btn_hit (bx rel_x rel_y : Z) : bool := in_rect bx MENU_BTN_Y MENU_BTN_SIZE MENU_BTN_SIZE rel_x rel_y.

(** ** Data *)

Inductive AppKind := Welcome | Files | Terminal | EditorApp | Sysmon | Settings | ImageViewerApp | AudioPlayer.
#[global] Instance app_kind_eq : EqDecision AppKind.
Proof. solve_decision. Defined.

Definition app_label (kind : AppKind) : list Z :=
  txt match kind with
      | Welcome => "Welcome" | Files => "Files" | Terminal => "Terminal" | EditorApp => "Editor"
      | Sysmon => "Sysmon" | Settings => "Settings" | ImageViewerApp => "Image Viewer" | AudioPlayer => "Audio Player"
      end.

Definition program_win_id (kind : AppKind) : option Z :=
  match kind with
  | Welcome => Some 0 | Files => Some 1 | Terminal => Some 2 | EditorApp => Some 3 | Sysmon => Some 4 | Settings => Some 5
  | ImageViewerApp | AudioPlayer => None
  end.

Inductive IconKind := Program (k : AppKind) (win_id : Z) | FsEntry (ino : Z) (is_dir : bool).
Record DesktopIcon := mkIcon { ic_kind : IconKind; ic_label : list Z; ic_x : Z; ic_y : Z }.

Inductive PromptKind := NewFile | NewFolder | RenameIcon (idx : nat) | RenameFsPane.
Record TextPrompt := mkPrompt { tp_kind : PromptKind; tp_buf : list Z }.

Inductive PromptOutcome :=
  | CreateFile (name : list Z)
  | CreateFolder (name : list Z)
  | Rename (old_name new_name : list Z)
  | RenameInPane (win_id parent_ino : Z) (old_name new_name : list Z).

Inductive SnapZone := SnapLeft | SnapRight | SnapTop.
Inductive CursorType := Normal | ResizeEW | ResizeNS | ResizeNWSE | ResizeNESW.

Definition rect : Type := Z * Z * Z * Z.
Inductive AnimKind := Opening | Closing | Transition (from : rect).
Record WindowAnim := mkAnim { an_kind : AnimKind; an_start : Z }.

Record Window := mkWindow {
  win_id : Z; app_kind : AppKind; title : list Z; wx : Z; wy : Z; ww : Z; wh : Z;
  minimized : bool; maximized : bool; is_terminal : bool; saved : rect;
  drag_off : Z * Z; dragging : bool; resizing : bool; resize_edge_flags : Z; resize_orig : rect; resize_orig_m : Z * Z;
  anim : option WindowAnim; ever_shown : bool }.

Inductive ContextMenuKind :=
  | CmBackground
  | CmApp (k : AppKind)
  | CmEditText (win : Z)
  | CmIcon (idx : nat)
  | CmFsRow (win parent_ino : Z) (parent_path : list Z) (ino : Z) (name : list Z) (is_dir is_pinned : bool) (extra : list (Z * list Z * bool))
  | CmFsPane (win parent_ino : Z) (parent_path : list Z).

(** The fields of [Desktop], in the source's order. *)
Record Desktop := mkDesktop {
  windows : list Window; focused : option Z; next_id : Z; fb_w : Z; fb_h : Z; prev_btn : Z; dirty : bool; mouse_dirty : bool;
  prev_cx : Z; prev_cy : Z; start_menu_open : bool; start_menu_anim : option (bool * Z);
  dbl_click_pending : option Z; snap_zone : option SnapZone; context_menu : option (Z * Z); context_menu_kind : ContextMenuKind;
  open_settings_requested : bool; new_window_requested : option AppKind; taskbar_jumplist : option (AppKind * Z);
  clipboard_action_requested : option (Z * bool); volume_popup_open : bool; volume_drag : bool;
  icons : list DesktopIcon; icon_dragging : option nat; icon_drag_off : Z * Z; icon_drag_start_pos : Z * Z; icon_drag_moved : bool;
  icon_selected : list nat; icon_last_clicked : option nat; icon_selected_at : Z; marquee_start : option (Z * Z);
  icon_message : option (list Z * Z); text_prompt : option TextPrompt; prompt_result : option PromptOutcome;
  fs_rename_ctx : option (Z * Z * list Z); open_fs_entry_requested : option (Z * bool * list Z * list Z);
  fs_context_menu_pending : option (Z * Z * Z); taskbar_dragging : option AppKind; taskbar_drag_start_x : Z;
  taskbar_drag_moved : bool; taskbar_click_pending : option (AppKind * nat * option AppKind) }.

(** ** Field updates *)

Definition eta_window (r : Window) : Window := mkWindow (win_id r) (app_kind r) (title r) (wx r) (wy r) (ww r) (wh r) (minimized r) (maximized r) (is_terminal r) (saved r) (drag_off r) (dragging r) (resizing r) (resize_edge_flags r) (resize_orig r) (resize_orig_m r) (anim r) (ever_shown r).
Definition eta_desktop (r : Desktop) : Desktop := mkDesktop (windows r) (focused r) (next_id r) (fb_w r) (fb_h r) (prev_btn r) (dirty r) (mouse_dirty r) (prev_cx r) (prev_cy r) (start_menu_open r) (start_menu_anim r) (dbl_click_pending r) (snap_zone r) (context_menu r) (context_menu_kind r) (open_settings_requested r) (new_window_requested r) (taskbar_jumplist r) (clipboard_action_requested r) (volume_popup_open r) (volume_drag r) (icons r) (icon_dragging r) (icon_drag_off r) (icon_drag_start_pos r) (icon_drag_moved r) (icon_selected r) (icon_last_clicked r) (icon_selected_at r) (marquee_start r) (icon_message r) (text_prompt r) (prompt_result r) (fs_rename_ctx r) (open_fs_entry_requested r) (fs_context_menu_pending r) (taskbar_dragging r) (taskbar_drag_start_x r) (taskbar_drag_moved r) (taskbar_click_pending r).

Definition set_wx (v : Z) (r : Window) : Window := ltac:(upd eta_window wx r v).
Definition set_wy (v : Z) (r : Window) : Window := ltac:(upd eta_window wy r v).
Definition set_ww (v : Z) (r : Window) : Window := ltac:(upd eta_window ww r v).
Definition set_wh (v : Z) (r : Window) : Window := ltac:(upd eta_window wh r v).
Definition set_minimized (v : bool) (r : Window) : Window := ltac:(upd eta_window minimized r v).
Definition set_maximized (v : bool) (r : Window) : Window := ltac:(upd eta_window maximized r v).
Definition set_is_terminal (v : bool) (r : Window) : Window := ltac:(upd eta_window is_terminal r v).
Definition set_saved (v : rect) (r : Window) : Window := ltac:(upd eta_window saved r v).
Definition set_drag_off (v : Z * Z) (r : Window) : Window := ltac:(upd eta_window drag_off r v).
Definition set_dragging (v : bool) (r : Window) : Window := ltac:(upd eta_window dragging r v).
Definition set_resizing (v : bool) (r : Window) : Window := ltac:(upd eta_window resizing r v).
Definition set_resize_edge_flags (v : Z) (r : Window) : Window := ltac:(upd eta_window resize_edge_flags r v).
Definition set_resize_orig (v : rect) (r : Window) : Window := ltac:(upd eta_window resize_orig r v).
Definition set_resize_orig_m (v : Z * Z) (r : Window) : Window := ltac:(upd eta_window resize_orig_m r v).
Definition set_anim (v : option WindowAnim) (r : Window) : Window := ltac:(upd eta_window anim r v).
Definition set_ever_shown (v : bool) (r : Window) : Window := ltac:(upd eta_window ever_shown r v).
Definition set_windows (v : list Window) (r : Desktop) : Desktop := ltac:(upd eta_desktop windows r v).
Definition set_focused (v : option Z) (r : Desktop) : Desktop := ltac:(upd eta_desktop focused r v).
Definition set_next_id (v : Z) (r : Desktop) : Desktop := ltac:(upd eta_desktop next_id r v).
Definition set_prev_btn (v : Z) (r : Desktop) : Desktop := ltac:(upd eta_desktop prev_btn r v).
Definition set_dirty (v : bool) (r : Desktop) : Desktop := ltac:(upd eta_desktop dirty r v).
Definition set_mouse_dirty (v : bool) (r : Desktop) : Desktop := ltac:(upd eta_desktop mouse_dirty r v).
Definition set_prev_cx (v : Z) (r : Desktop) : Desktop := ltac:(upd eta_desktop prev_cx r v).
Definition set_prev_cy (v : Z) (r : Desktop) : Desktop := ltac:(upd eta_desktop prev_cy r v).
Definition set_start_menu_open (v : bool) (r : Desktop) : Desktop := ltac:(upd eta_desktop start_menu_open r v).
Definition set_start_menu_anim (v : option (bool * Z)) (r : Desktop) : Desktop := ltac:(upd eta_desktop start_menu_anim r v).
Definition set_dbl_click_pending (v : option Z) (r : Desktop) : Desktop := ltac:(upd eta_desktop dbl_click_pending r v).
Definition set_snap_zone (v : option SnapZone) (r : Desktop) : Desktop := ltac:(upd eta_desktop snap_zone r v).
Definition set_context_menu (v : option (Z * Z)) (r : Desktop) : Desktop := ltac:(upd eta_desktop context_menu r v).
Definition set_context_menu_kind (v : ContextMenuKind) (r : Desktop) : Desktop := ltac:(upd eta_desktop context_menu_kind r v).
Definition set_open_settings_requested (v : bool) (r : Desktop) : Desktop := ltac:(upd eta_desktop open_settings_requested r v).
Definition set_new_window_requested (v : option AppKind) (r : Desktop) : Desktop := ltac:(upd eta_desktop new_window_requested r v).
Definition set_taskbar_jumplist (v : option (AppKind * Z)) (r : Desktop) : Desktop := ltac:(upd eta_desktop taskbar_jumplist r v).
Definition set_clipboard_action_requested (v : option (Z * bool)) (r : Desktop) : Desktop := ltac:(upd eta_desktop clipboard_action_requested r v).
Definition set_volume_popup_open (v : bool) (r : Desktop) : Desktop := ltac:(upd eta_desktop volume_popup_open r v).
Definition set_volume_drag (v : bool) (r : Desktop) : Desktop := ltac:(upd eta_desktop volume_drag r v).
Definition set_icons (v : list DesktopIcon) (r : Desktop) : Desktop := ltac:(upd eta_desktop icons r v).
Definition set_icon_dragging (v : option nat) (r : Desktop) : Desktop := ltac:(upd eta_desktop icon_dragging r v).
Definition set_icon_drag_off (v : Z * Z) (r : Desktop) : Desktop := ltac:(upd eta_desktop icon_drag_off r v).
Definition set_icon_drag_start_pos (v : Z * Z) (r : Desktop) : Desktop := ltac:(upd eta_desktop icon_drag_start_pos r v).
Definition set_icon_drag_moved (v : bool) (r : Desktop) : Desktop := ltac:(upd eta_desktop icon_drag_moved r v).
Definition set_icon_selected (v : list nat) (r : Desktop) : Desktop := ltac:(upd eta_desktop icon_selected r v).
Definition set_icon_last_clicked (v : option nat) (r : Desktop) : Desktop := ltac:(upd eta_desktop icon_last_clicked r v).
Definition set_icon_selected_at (v : Z) (r : Desktop) : Desktop := ltac:(upd eta_desktop icon_selected_at r v).
Definition set_marquee_start (v : option (Z * Z)) (r : Desktop) : Desktop := ltac:(upd eta_desktop marquee_start r v).
Definition set_icon_message (v : option (list Z * Z)) (r : Desktop) : Desktop := ltac:(upd eta_desktop icon_message r v).
Definition set_text_prompt (v : option TextPrompt) (r : Desktop) : Desktop := ltac:(upd eta_desktop text_prompt r v).
Definition set_prompt_result (v : option PromptOutcome) (r : Desktop) : Desktop := ltac:(upd eta_desktop prompt_result r v).
Definition set_fs_rename_ctx (v : option (Z * Z * list Z)) (r : Desktop) : Desktop := ltac:(upd eta_desktop fs_rename_ctx r v).
Definition set_open_fs_entry_requested (v : option (Z * bool * list Z * list Z)) (r : Desktop) : Desktop := ltac:(upd eta_desktop open_fs_entry_requested r v).
Definition set_fs_context_menu_pending (v : option (Z * Z * Z)) (r : Desktop) : Desktop := ltac:(upd eta_desktop fs_context_menu_pending r v).
Definition set_taskbar_dragging (v : option AppKind) (r : Desktop) : Desktop := ltac:(upd eta_desktop taskbar_dragging r v).
Definition set_taskbar_drag_start_x (v : Z) (r : Desktop) : Desktop := ltac:(upd eta_desktop taskbar_drag_start_x r v).
Definition set_taskbar_drag_moved (v : bool) (r : Desktop) : Desktop := ltac:(upd eta_desktop taskbar_drag_moved r v).
Definition set_taskbar_click_pending (v : option (AppKind * nat * option AppKind)) (r : Desktop) : Desktop := ltac:(upd eta_desktop taskbar_click_pending r v).

(** ** Windows *)

Definition win_rect (w : Window) : rect := (wx w, wy w, ww w, wh w).

Definition place (r : rect) (w : Window) : Window := let '(x, y, a, b) := r in set_wh b (set_ww a (set_wy y (set_wx x w))).

Definition window_new (tsc id : Z) (kind : AppKind) (title : list Z) (x y w h : Z) : Window :=
  mkWindow id kind title x y w h false false false (x, y, w, h) (0, 0) false false 0 (x, y, w, h) (0, 0) (Some (mkAnim Opening tsc)) true.

Definition show (tsc : Z) (w : Window) : Window :=
  let w := set_ever_shown true w in
  if minimized w then set_anim (Some (mkAnim Opening tsc)) (set_minimized false w) else w.

Definition hide (tsc : Z) (w : Window) : Window := if minimized w then w else set_anim (Some (mkAnim Closing tsc)) w.
Definition close (tsc : Z) (w : Window) : Window := set_ever_shown false (hide tsc w).
Definition hide_instant (w : Window) : Window := set_ever_shown false (set_anim None (set_minimized true w)).
Definition is_closing (w : Window) : bool := match anim w with Some (mkAnim Closing _) => true | _ => false end.

(** [progress() >= 1.0] needs only this quotient; [tpm] is [TSC_PER_MS]. *)
Definition progress (tsc tpm ms start : Z) : f32 :=
  let elapsed_ms := u64 (tsc - start) / Z.max tpm 1 in f32_min (f32_div (f32_of elapsed_ms) (f32_of ms)) (f32_of 1).

Definition ease (t : f32) : f32 :=
  let one := f32_of 1 in let u := f32_sub one t in f32_sub one (f32_mul (f32_mul u u) u).

Definition lerp (eased a b : f32) : f32 := f32_add a (f32_mul (f32_sub b a) eased).

(** The literals [0.1] and [0.9]. *)
Definition tenth (n : Z) : f32 := f32_div (f32_of n) (f32_of 10).

Definition scaled_rect (w : Window) (scale slide_frac : f32) : rect :=
  let cx := wx w + Z.quot (ww w) 2 in
  let cy := wy w + Z.quot (wh w) 2 + f32_trunc (f32_mul (f32_of (wh w)) slide_frac) in
  let nw := f32_trunc (f32_max (f32_mul (f32_of (ww w)) scale) (f32_of 1)) in
  let nh := f32_trunc (f32_max (f32_mul (f32_of (wh w)) scale) (f32_of 1)) in
  (cx - Z.quot nw 2, cy - Z.quot nh 2, nw, nh).

Definition eased_rect (tsc tpm : Z) (w : Window) : rect :=
  match anim w with
  | None => win_rect w
  | Some a =>
    let eased := ease (progress tsc tpm ANIM_MS (an_start a)) in
    match an_kind a with
    | Opening => scaled_rect w (f32_add (tenth 1) (f32_mul (tenth 9) eased)) (f32_sub (f32_of 1) eased)
    | Closing => scaled_rect w (f32_sub (f32_of 1) (f32_mul (tenth 9) eased)) eased
    | Transition (fx, fy, fw, fh) =>
      (f32_trunc (lerp eased (f32_of fx) (f32_of (wx w))), f32_trunc (lerp eased (f32_of fy) (f32_of (wy w))),
       f32_trunc (f32_max (lerp eased (f32_of fw) (f32_of (ww w))) (f32_of 0)), f32_trunc (f32_max (lerp eased (f32_of fh) (f32_of (wh w))) (f32_of 0)))
    end
  end.

Definition start_transition (tsc : Z) (from : rect) (w : Window) : Window := set_anim (Some (mkAnim (Transition from) tsc)) w.

Definition toggle_maximize (tsc sw sh : Z) (w : Window) : Window :=
  let from := win_rect w in
  let w := if maximized w then set_maximized false (place (saved w) w)
           else set_maximized true (place (BORDER_W, TITLE_H + BORDER_W, ssub sw (BORDER_W * 2), ssub sh (TITLE_H + TASKBAR_H + BORDER_W * 2)) (set_saved from w)) in
  start_transition tsc from w.

Definition outer_x (w : Window) : Z := wx w - BORDER_W.
Definition outer_y (w : Window) : Z := wy w - TITLE_H - BORDER_W.
Definition outer_w (w : Window) : Z := ww w + BORDER_W * 2.
Definition outer_h (w : Window) : Z := wh w + TITLE_H + BORDER_W * 2.

Definition button_hit (off : Z) (w : Window) (mx my : Z) : bool :=
  in_rect (Z.max (wx w) 0 + ww w - off) (outer_y w + BORDER_W + 4) 14 14 mx my.
Definition maximize_hit : Window → Z → Z → bool := button_hit 34.
Definition minimize_hit : Window → Z → Z → bool := button_hit 50.
Definition title_hit (w : Window) (mx my : Z) : bool :=
  (outer_x w <=? mx) && (mx <? outer_x w + outer_w w) && (outer_y w <=? my) && (my <? wy w).
Definition close_hit (w : Window) (mx my : Z) : bool := in_rect (outer_x w + outer_w w - 18) (outer_y w + 4) 14 14 mx my.
Definition content_hit (w : Window) (mx my : Z) : bool := in_rect (wx w) (wy w) (ww w) (wh w) mx my.

Definition resize_edges_at (w : Window) (mx my : Z) : Z :=
  let m := 6 in
  if maximized w then 0
  else
    let cx1 := wx w + ww w in let cy0 := wy w in let cy1 := wy w + wh w in
    let ox := outer_x w in let ow := outer_w w in
    if (mx <? ox - m) || (ox + ow + m <=? mx) then 0
    else if (my <? cy0) || (cy1 + m <=? my) then 0
    else
      let f := if (cx1 - m <=? mx) && (mx <? cx1 + m) && (cy0 <=? my) then 1 else 0 in
      let f := if (cy1 - m <=? my) && (my <? cy1 + m) then Z.lor f 2 else f in
      if (ox - m <=? mx) && (mx <? ox + m) && (cy0 <=? my) then Z.lor f 4 else f.

Definition resize_hit (w : Window) (mx my : Z) : bool := negb (resize_edges_at w mx my =? 0).

Definition newterm_hit (w : Window) (mx my : Z) : bool :=
  is_terminal w &&
  (let tx := Z.max (wx w) 0 in let ty := outer_y w + BORDER_W in
   (tx + 4 <=? mx) && (mx <? tx + 18) && (ty + 4 <=? my) && (my <? ty + 18)).

(** The hit test of [update_mouse], shared by [main.rs]'s [topmost_window_id_at]. *)
Definition chrome_hit (w : Window) (mx my : Z) : bool :=
  close_hit w mx my || maximize_hit w mx my || minimize_hit w mx my || newterm_hit w mx my || title_hit w mx my || resize_hit w mx my || content_hit w mx my.

Definition find_win (id : Z) (l : list Window) : option Window := snd <$> list_find (λ w, win_id w = id) l.

(** [iter_mut().find(|w| w.id == id)]: the update applies to the first such window. *)
Fixpoint update_win (id : Z) (f : Window → Window) (l : list Window) : list Window :=
  match l with
  | [] => []
  | w :: l => if win_id w =? id then f w :: l else w :: update_win id f l
  end.

Definition find_top (p : Window → bool) (l : list Window) : option Window := snd <$> list_find p (reverse l).

Definition topmost_window_id_at (d : Desktop) (mx my : Z) : option Z :=
  win_id <$> find_top (λ w, negb (minimized w) && chrome_hit w mx my) (windows d).

(** ** Pins *)

(** [PINNED_FILES] (inode, parent path, name, is_dir), [PINNED_TASKBAR], [FS_CLIPBOARD]. *)
Definition pinned_file : Type := Z * list Z * list Z * bool.
Definition clip_entry : Type := Z * Z * list Z * bool.
Record pins := mkPins { pinned_files : list pinned_file; pinned_taskbar : list AppKind; fs_clipboard : list clip_entry }.

Definition pf_ino (e : pinned_file) : Z := let '(i, _, _, _) := e in i.

Definition is_pinned_file (ino : Z) (p : pins) : bool := existsb (λ e, pf_ino e =? ino) (pinned_files p).

(** [position] of the first element satisfying [f]. *)
Definition position {A} (f : A → bool) (l : list A) : option nat := fst <$> list_find f l.

Definition remove_nth {A} (i : nat) (l : list A) : list A := take i l ++ drop (S i) l.

Definition toggle_pinned_file (ino : Z) (parent name : list Z) (is_dir : bool) (p : pins) : pins :=
  mkPins (match position (λ e, pf_ino e =? ino) (pinned_files p) with
          | Some pos => remove_nth pos (pinned_files p)
          | None => pinned_files p ++ [(ino, parent, name, is_dir)]
          end) (pinned_taskbar p) (fs_clipboard p).

Definition pin_file (ino : Z) (parent name : list Z) (is_dir : bool) (p : pins) : pins :=
  if is_pinned_file ino p then p else mkPins (pinned_files p ++ [(ino, parent, name, is_dir)]) (pinned_taskbar p) (fs_clipboard p).

Definition kind_eqb (a b : AppKind) : bool := bool_decide (a = b).
Definition is_pinned_taskbar (k : AppKind) (p : pins) : bool := existsb (kind_eqb k) (pinned_taskbar p).

Definition toggle_pinned_taskbar (k : AppKind) (p : pins) : pins :=
  mkPins (pinned_files p)
    (match position (λ x, kind_eqb x k) (pinned_taskbar p) with Some pos => remove_nth pos (pinned_taskbar p) | None => pinned_taskbar p ++ [k] end)
    (fs_clipboard p).

Definition in_pin_dock (mx my fb_h : Z) : bool := (0 <=? mx) && (mx <? DOCK_W) && (0 <=? my) && (my <? ssub fb_h TASKBAR_H).
Definition dock_item_rect (slot : Z) : rect := (DOCK_ITEM_X, DOCK_ITEM_Y0 + slot * DOCK_ITEM_STRIDE, DOCK_ITEM_SIZE, DOCK_ITEM_SIZE).

(** ** Icons *)

Definition icon_grid_pos (slot : nat) : Z * Z := (ICON_X, 16 + Z.of_nat slot * ICON_STRIDE).

Definition icon_snap (x y : Z) : Z * Z :=
  let dx := Z.max (x - ICON_GRID_ORIGIN_X) 0 in
  let dy := Z.max (y - ICON_GRID_ORIGIN_Y) 0 in
  (ICON_GRID_ORIGIN_X + (dx + ICON_COL_W / 2) / ICON_COL_W * ICON_COL_W, ICON_GRID_ORIGIN_Y + (dy + ICON_ROW_H / 2) / ICON_ROW_H * ICON_ROW_H).

Definition program_icon (slot : nat) (k : AppKind) (id : Z) : DesktopIcon :=
  let '(x, y) := icon_grid_pos slot in mkIcon (Program k id) (app_label k) x y.

Definition program_defs : list (AppKind * Z) := [(Welcome, 0); (Files, 1); (Terminal, 2); (EditorApp, 3); (Sysmon, 4); (Settings, 5)].

Definition desktop_new (fb_w fb_h : Z) : Desktop :=
  mkDesktop [] None 0 fb_w fb_h 0 true false 0 0 false None None None None CmBackground false None None None false false
    (imap (λ slot '(k, id), program_icon slot k id) program_defs) None (0, 0) (0, 0) false [] None 0 None None None None None None None None 0 false None.

Definition is_entry (ino : Z) (ic : DesktopIcon) : bool := match ic_kind ic with FsEntry i _ => i =? ino | Program _ _ => false end.

Definition set_label (name : list Z) (ic : DesktopIcon) : DesktopIcon := mkIcon (ic_kind ic) name (ic_x ic) (ic_y ic).
Definition set_pos (x y : Z) (ic : DesktopIcon) : DesktopIcon := mkIcon (ic_kind ic) (ic_label ic) x y.

(** One entry of the listing: the first icon of that inode is relabelled, or a new icon appended. *)
Definition sync_entry (l : list DesktopIcon) (e : Z * list Z * bool) : list DesktopIcon :=
  let '(ino, name, is_dir) := e in
  match position (is_entry ino) l with
  | Some i => alter (set_label name) i l
  | None => let '(x, y) := icon_grid_pos (length l) in l ++ [mkIcon (FsEntry ino is_dir) name x y]
  end.

Definition still_there (entries : list (Z * list Z * bool)) (ic : DesktopIcon) : bool :=
  match ic_kind ic with FsEntry ino _ => existsb (λ '(i, _, _), i =? ino) entries | Program _ _ => true end.

Definition sync_fs_icons (entries : list (Z * list Z * bool)) (d : Desktop) : Desktop :=
  set_dirty true (set_icons (fold_left sync_entry entries (List.filter (still_there entries) (icons d))) d).

Definition icon_at (d : Desktop) (mx my : Z) : option nat :=
  position (λ ic, in_rect (ic_x ic) (ic_y ic) ICON_SIZE (ICON_SIZE + 12) mx my) (icons d).

Definition is_program (k : AppKind) (ic : DesktopIcon) : bool := match ic_kind ic with Program k' _ => kind_eqb k' k | FsEntry _ _ => false end.
Definition is_pinned_desktop (k : AppKind) (d : Desktop) : bool := existsb (is_program k) (icons d).

Definition toggle_pinned_desktop (k : AppKind) (d : Desktop) : Desktop :=
  set_dirty true
    match position (is_program k) (icons d) with
    | Some pos => set_icons (remove_nth pos (icons d)) d
    | None => match program_win_id k with
              | Some id => set_icons (icons d ++ [program_icon (length (icons d)) k id]) d
              | None => d
              end
    end.

(** ** Windows of the desktop *)

Definition on_win (id : Z) (f : Window → Window) (d : Desktop) : Desktop := set_windows (update_win id f (windows d)) d.

Definition add_window (tsc : Z) (kind : AppKind) (title : list Z) (x y w h : Z) (d : Desktop) : Desktop * Z :=
  let id := next_id d in
  (set_focused (Some id) (set_windows (windows d ++ [window_new tsc id kind title x y w h]) (set_next_id (id + 1) d)), id).

Definition set_terminal_window (id : Z) : Desktop → Desktop := on_win id (set_is_terminal true).

Definition bring_to_front (id : Z) (d : Desktop) : Desktop :=
  match list_find (λ w, win_id w = id) (windows d) with
  | Some (pos, win) => set_focused (Some id) (set_windows (remove_nth pos (windows d) ++ [win]) d)
  | None => d
  end.

Definition cursor_for_flags (f : Z) : CursorType :=
  if (f =? 1) || (f =? 4) then ResizeEW else if f =? 2 then ResizeNS else if f =? 3 then ResizeNWSE else if f =? 6 then ResizeNESW else ResizeNS.

Definition cursor_type_at (d : Desktop) (mx my : Z) : CursorType :=
  match snd <$> list_find (λ w, resizing w) (windows d) with
  | Some w => cursor_for_flags (resize_edge_flags w)
  | None =>
    match find_top (λ w, negb (minimized w) && negb (maximized w) && negb (resize_edges_at w mx my =? 0)) (windows d) with
    | Some w => cursor_for_flags (resize_edges_at w mx my)
    | None => Normal
    end
  end.

(** *** Grouping by program *)

Definition group : Type := AppKind * list Z.

Fixpoint add_to_group (w : Window) (gs : list group) : list group :=
  match gs with
  | [] => [(app_kind w, [win_id w])]
  | (k, ids) :: gs => if kind_eqb k (app_kind w) then (k, ids ++ [win_id w]) :: gs else (k, ids) :: add_to_group w gs
  end.

Definition group_by_kind (l : list Window) : list group := fold_left (λ gs w, add_to_group w gs) l [].
Definition grouped_taskbar_entries (d : Desktop) : list group := group_by_kind (List.filter ever_shown (windows d)).
Definition grouped_all_entries (d : Desktop) : list group := group_by_kind (windows d).

(** The open group replaces the pinned launcher of its kind, or comes last. *)
Fixpoint merge_group (g : group) (es : list group) : list group :=
  match es with
  | [] => [g]
  | e :: es => if kind_eqb e.1 g.1 then (e.1, g.2) :: es else e :: merge_group g es
  end.

Definition taskbar_entries (d : Desktop) (p : pins) : list group :=
  fold_left (λ es g, merge_group g es) (grouped_taskbar_entries d) ((λ k, (k, [])) <$> pinned_taskbar p).

Definition instance_label (d : Desktop) (kind : AppKind) (ids : list Z) (id : Z) : list Z :=
  match find_win id (windows d) with
  | None => []
  | Some w =>
    if beq (title w) (app_label kind) then app_label kind ++ txt " " ++ show_dec (Z.of_nat (default 0%nat (position (λ i, i =? id) ids)) + 1) else title w
  end.

(** *** Animations *)

Definition any_animating (d : Desktop) : bool := existsb (λ w, bool_decide (is_Some (anim w))) (windows d).

(** [start_menu_anim]: whether it is the closing one, and its start. *)
Definition start_menu_progress (tsc tpm : Z) (d : Desktop) : f32 :=
  match start_menu_anim d with Some (_, start) => progress tsc tpm MENU_ANIM_MS start | None => f32_of 1 end.
Definition start_menu_animating (tsc tpm : Z) (d : Desktop) : bool := f32_lt (start_menu_progress tsc tpm d) (f32_of 1).
Definition start_menu_closing (d : Desktop) : bool := match start_menu_anim d with Some (true, _) => true | _ => false end.

Definition open_start_menu (tsc : Z) (d : Desktop) : Desktop := set_start_menu_anim (Some (false, tsc)) (set_start_menu_open true d).
Definition close_start_menu (tsc : Z) (d : Desktop) : Desktop :=
  set_start_menu_open false (if start_menu_open d then set_start_menu_anim (Some (true, tsc)) d else d).

Definition anim_done (tsc tpm ms start : Z) : bool := f32_le (f32_of 1) (progress tsc tpm ms start).

Definition tick_win (tsc tpm : Z) (w : Window) : Window * bool :=
  match anim w with
  | Some a =>
    if anim_done tsc tpm ANIM_MS (an_start a)
    then (set_anim None (match an_kind a with Closing => set_minimized true w | _ => w end), true) else (w, false)
  | None => (w, false)
  end.

Definition tick_anims (tsc tpm : Z) (d : Desktop) : Desktop * bool :=
  let ws := tick_win tsc tpm <$> windows d in
  let d' := set_windows (ws.*1) d in
  match start_menu_anim d with
  | Some (_, start) => if anim_done tsc tpm MENU_ANIM_MS start then (set_start_menu_anim None d', true) else (d', existsb id (ws.*2))
  | None => (d', existsb id (ws.*2))
  end.

(** *** Messages and prompts *)

Definition show_message (now : Z) (msg : list Z) (d : Desktop) : Desktop := set_dirty true (set_icon_message (Some (msg, now + 150)) d).

Definition tick_icon_message (now : Z) (d : Desktop) : Desktop :=
  match icon_message d with
  | Some (_, expire) => if expire <=? now then set_dirty true (set_icon_message None d) else d
  | None => d
  end.

Definition begin_new_entry (is_dir : bool) (d : Desktop) : Desktop :=
  set_dirty true (set_text_prompt (Some (mkPrompt (if is_dir then NewFolder else NewFile) [])) d).

Definition begin_rename_fs_pane (win parent_ino : Z) (old_name : list Z) (d : Desktop) : Desktop :=
  set_dirty true (set_fs_rename_ctx (Some (win, parent_ino, old_name)) (set_text_prompt (Some (mkPrompt RenameFsPane old_name)) d)).

Definition begin_rename (now : Z) (idx : nat) (d : Desktop) : Desktop :=
  match icons d !! idx with
  | None => d
  | Some ic =>
    set_dirty true match ic_kind ic with
                   | Program _ _ => show_message now (txt "Programs can't be renamed") d
                   | FsEntry _ _ => set_text_prompt (Some (mkPrompt (RenameIcon idx) (ic_label ic))) d
                   end
  end.

(** Enter: the request the prompt resolves to, or no request. *)
Definition confirm_prompt (p : TextPrompt) (d : Desktop) : option Desktop :=
  let buf := tp_buf p in
  match tp_kind p with
  | NewFile => Some (set_prompt_result (Some (CreateFile buf)) d)
  | NewFolder => Some (set_prompt_result (Some (CreateFolder buf)) d)
  | RenameIcon idx =>
    match icons d !! idx with
    | Some (mkIcon (FsEntry _ _) label _ _) => Some (set_prompt_result (Some (Rename label buf)) d)
    | _ => None
    end
  | RenameFsPane =>
    match fs_rename_ctx d with
    | Some (win, parent_ino, old_name) => Some (set_prompt_result (Some (RenameInPane win parent_ino old_name buf)) (set_fs_rename_ctx None d))
    | None => None
    end
  end.

Definition prompt_on_key (c : Z) (d : Desktop) : Desktop :=
  match text_prompt d with
  | None => d
  | Some p =>
    if c =? 0x1B then set_dirty true (set_fs_rename_ctx None (set_text_prompt None d))
    else if c =? 0x08 then set_dirty true (set_text_prompt (Some (mkPrompt (tp_kind p) (removelast (tp_buf p)))) d)
    else if (c =? 0x0A) || (c =? 0x0D) then
      match tp_buf p with
      | [] => set_dirty true (set_text_prompt None d)
      | _ => match confirm_prompt p d with
             | Some d => set_dirty true (set_text_prompt None d)
             | None => set_text_prompt None d
             end
      end
    else if (32 <=? c) && (c <? 128) then set_dirty true (set_text_prompt (Some (mkPrompt (tp_kind p) (tp_buf p ++ [c]))) d)
    else set_dirty true d
  end.

Definition take_prompt_result (d : Desktop) : option PromptOutcome * Desktop := (prompt_result d, set_prompt_result None d).

Definition prompt_rect (d : Desktop) : option rect :=
  p ← text_prompt d;
  match tp_kind p with
  | RenameIcon idx =>
    ic ← icons d !! idx;
    let bw := Z.min (Z.max (len (tp_buf p)) 4 * 8 + 6) 140 in
    Some (ic_x ic - Z.quot (Z.max (bw - ICON_SIZE) 0) 2, ic_y ic + ICON_SIZE + 4, bw, 12)
  | _ => Some (Z.quot (fb_w d - 240) 2, Z.quot (fb_h d - 60) 2, 240, 60)
  end.

Definition open_icon (tsc : Z) (idx : nat) (d : Desktop) : Desktop :=
  match icons d !! idx with
  | None => d
  | Some ic =>
    let d := match ic_kind ic with
             | Program _ id => bring_to_front id (on_win id (show tsc) d)
             | FsEntry ino is_dir => set_open_fs_entry_requested (Some (ino, is_dir, ic_label ic, txt "/home/desktop")) d
             end in
    set_dirty true (set_icon_last_clicked None (set_icon_selected [] d))
  end.

Definition snap_preview_rect (d : Desktop) : option rect :=
  zone ← snap_zone d;
  let hw := fb_w d / 2 in
  let by_ := TITLE_H + BORDER_W in
  let fh := ssub (fb_h d) (TITLE_H + TASKBAR_H + BORDER_W * 2) in
  Some match zone with
       | SnapLeft => (BORDER_W, by_, ssub hw (BORDER_W * 2), fh)
       | SnapRight => (BORDER_W + hw, by_, ssub hw (BORDER_W * 2), fh)
       | SnapTop => (BORDER_W, by_, ssub (fb_w d) (BORDER_W * 2), fh)
       end.

(** *** Hit tests of the menus *)

Definition jumplist_item_at (d : Desktop) (btn_x : Z) (ids : list Z) (mx my : Z) : option Z :=
  let jl_h := len ids * MENU_ENTRY_H + 8 in
  let x := Z.min btn_x (ssub (fb_w d) 180) in
  let y := ssub (fb_h d - TASKBAR_H) jl_h in
  if (mx <? x) || (x + 180 <=? mx) || (my <? y + 4) || (y + jl_h - 4 <=? my) then None
  else ids !! Z.to_nat ((my - y - 4) / MENU_ENTRY_H).

Definition context_menu_labels (d : Desktop) (p : pins) : list string :=
  match context_menu_kind d with
  | CmBackground => ["Change background"; "New File"; "New Folder"]
  | CmApp k =>
    match is_pinned_taskbar k p, program_win_id k, is_pinned_desktop k d with
    | false, Some _, false => ["New Window"; "Pin to Taskbar"; "Pin to Desktop"]
    | false, Some _, true => ["New Window"; "Pin to Taskbar"; "Unpin from Desktop"]
    | true, Some _, false => ["New Window"; "Unpin from Taskbar"; "Pin to Desktop"]
    | true, Some _, true => ["New Window"; "Unpin from Taskbar"; "Unpin from Desktop"]
    | false, None, _ => ["New Window"; "Pin to Taskbar"]
    | true, None, _ => ["New Window"; "Unpin from Taskbar"]
    end
  | CmEditText _ => ["Copy"; "Paste"]
  | CmIcon idx =>
    match ic_kind <$> icons d !! idx with
    | Some (Program k _) => if is_pinned_taskbar k p then ["Open"; "Unpin from Taskbar"; "Unpin from Desktop"] else ["Open"; "Pin to Taskbar"; "Unpin from Desktop"]
    | Some (FsEntry ino _) => if is_pinned_file ino p then ["Open"; "Unpin"; "Copy"] else ["Open"; "Pin"; "Copy"]
    | None => ["Open"]
    end
  | CmFsRow _ _ _ _ _ _ is_pinned _ => if is_pinned then ["Open"; "Unpin"; "Copy"] else ["Open"; "Pin"; "Copy"]
  | CmFsPane _ _ _ => ["Paste"]
  end.

Definition context_menu_item_at (d : Desktop) (p : pins) (mx my : Z) : option nat :=
  '(cx, cy) ← context_menu d;
  let cm_h := len (context_menu_labels d p) * 26 + 8 in
  let x := Z.min (u64 cx) (ssub (fb_w d) 168) in
  let y := Z.min (u64 cy) (ssub (fb_h d) (cm_h + TASKBAR_H)) in
  if (x <=? mx) && (mx <? x + 168) && (y + 4 <=? my) && (my <? y + 4 + cm_h - 8) then Some (Z.to_nat (Z.quot (my - (y + 4)) 26)) else None.
