(* ===== verification/Mouse.v ===== *)
(** [Desktop::update_mouse]: one mouse report applied to the desktop, in the stages the
    source goes through, each with its early returns.

    The caller holds the [DESKTOP] lock and has clamped the position to the screen. The
    tick count, the time stamp counter and the shift key are read-only inputs. *)

From stdpp Require Import prelude list numbers strings.
From S2P Require Import Prelude Text Pmm Memory Hepfs Elf Display Media Desktop.

Local Open Scope Z_scope.

(** How the call ends. [Deadlocked]: it waits for the lock its caller holds. *)
Inductive mouse_end := Returned (spawn_terminal : bool) | PoweredOff | Rebooted | Deadlocked.

(** ** Windows under the button *)

Definition resize_drag (mx my : Z) (w : Window) : Window :=
  let '(ox, _, ow, oh) := resize_orig w in
  let dmx := mx - (resize_orig_m w).1 in
  let dmy := my - (resize_orig_m w).2 in
  let w := if Z.testbit (resize_edge_flags w) 0 then set_ww (Z.max (ow + dmx) 120) w else w in
  let w := if Z.testbit (resize_edge_flags w) 1 then set_wh (Z.max (oh + dmy) 60) w else w in
  if Z.testbit (resize_edge_flags w) 2 then let new_w := Z.max (ow - dmx) 120 in set_ww new_w (set_wx (ox + (ow - new_w)) w) else w.

Definition move_drag (fb_w fb_h mx my : Z) (w : Window) : Window :=
  set_wy (Z.min (Z.max (my - (drag_off w).2) TITLE_H) (fb_h - TASKBAR_H - 1)) (set_wx (Z.min (Z.max (mx - (drag_off w).1) 0) (fb_w - ww w)) w).

Definition snap_zone_at (fb_w mx my : Z) : option SnapZone :=
  if mx <=? 4 then Some SnapLeft else if fb_w - 4 <=? mx then Some SnapRight else if my <=? 4 then Some SnapTop else None.

(** [Some]: the report was used up. *)
Definition drag_window (mx my : Z) (d : Desktop) : option Desktop :=
  fid ← focused d; w ← find_win fid (windows d);
  if resizing w then Some (set_dirty true (on_win fid (resize_drag mx my) d))
  else if dragging w && negb (maximized w) then
    Some (set_dirty true (set_snap_zone (snap_zone_at (fb_w d) mx my) (on_win fid (move_drag (fb_w d) (fb_h d) mx my) d)))
  else None.

Definition drag_taskbar (mx : Z) (d : Desktop) : Desktop :=
  match taskbar_dragging d with
  | None => d
  | Some _ =>
    let d := if 12 <? Z.abs (mx - taskbar_drag_start_x d) then set_taskbar_drag_moved true d else d in
    if taskbar_drag_moved d then set_dirty true d else d
  end.

(** ** Icons under the button *)

Definition icon_max_x (d : Desktop) : Z := Z.max (fb_w d - ICON_SIZE) 0.
Definition icon_max_y (d : Desktop) : Z := Z.max (fb_h d - TASKBAR_H - ICON_SIZE - 12) 0.

Definition nat_mem (i : nat) (l : list nat) : bool := bool_decide (i ∈ l).

Definition alter_all (f : DesktopIcon → DesktopIcon) (is_ : list nat) (l : list DesktopIcon) : list DesktopIcon :=
  fold_left (λ l i, alter f i l) is_ l.

(** The icons a drag of [idx] moves: the whole selection when it is part of one. *)
Definition drag_group (d : Desktop) (idx : nat) : option (list nat) :=
  if (1 <? length (icon_selected d))%nat && nat_mem idx (icon_selected d) then Some (icon_selected d) else None.

Definition drag_icon (mx my : Z) (d : Desktop) : option Desktop :=
  idx ← icon_dragging d; ic ← icons d !! idx;
  let new_x := clamp 0 (icon_max_x d) (mx - (icon_drag_off d).1) in
  let new_y := clamp 0 (icon_max_y d) (my - (icon_drag_off d).2) in
  let dx := new_x - ic_x ic in
  let dy := new_y - ic_y ic in
  let d := if (3 <? Z.abs (new_x - (icon_drag_start_pos d).1)) || (3 <? Z.abs (new_y - (icon_drag_start_pos d).2)) then set_icon_drag_moved true d else d in
  Some (set_dirty true (set_icons
    match drag_group d idx with
    | Some targets => alter_all (λ i, set_pos (clamp 0 (icon_max_x d) (ic_x i + dx)) (clamp 0 (icon_max_y d) (ic_y i + dy)) i) targets (icons d)
    | None => alter (set_pos new_x new_y) idx (icons d)
    end d)).

Definition in_marquee (sx sy mx my : Z) (ic : DesktopIcon) : bool :=
  (ic_x ic <? Z.max sx mx) && (Z.min sx mx <? ic_x ic + ICON_SIZE) && (ic_y ic <? Z.max sy my) && (Z.min sy my <? ic_y ic + ICON_SIZE).

Definition indices {A} (f : A → bool) (l : list A) : list nat := concat (imap (λ i x, if f x then [i] else []) l).

Definition drag_marquee (mx my : Z) (d : Desktop) : option Desktop :=
  '(sx, sy) ← marquee_start d;
  Some (set_dirty true (set_icon_last_clicked None (set_icon_selected (indices (in_marquee sx sy mx my) (icons d)) d))).

(** The slider's volume at [mx]. *)
Definition slider_volume (mx sx : Z) : Z :=
  f32_trunc (f32_mul (f32_clamp01 (f32_div (f32_of (mx - sx)) (f32_of VOL_POPUP_SLIDER_W))) (f32_of 100)).

Definition popup_slider_x (d : Desktop) : Z := let '(px, _, _, _) := vol_popup_rect (fb_w d) (fb_h d - TASKBAR_H) in px + VOL_POPUP_PAD.

(** ** Releasing the button *)

Definition retain {A} (f : A → bool) (l : list A) : list A := List.filter f l.
Definition insert_at {A} (i : nat) (x : A) (l : list A) : list A := take i l ++ x :: drop i l.

(** Dropping a dragged taskbar button pins its program at the slot it was dropped on. *)
Definition reorder_pins (slot : Z) (k : AppKind) (p : pins) : pins :=
  let l := retain (λ x, negb (kind_eqb x k)) (pinned_taskbar p) in
  mkPins (pinned_files p) (insert_at (Nat.min (Z.to_nat slot) (length l)) k l) (fs_clipboard p).

Definition taskbar_button_click (tsc : Z) (kind : AppKind) (slot : nat) (just_closed : option AppKind) (p : pins) (d : Desktop) : Desktop :=
  match taskbar_entries d p !! slot with
  | Some (k, ids) =>
    if kind_eqb k kind then
      set_dirty true
        match ids with
        | [] => set_new_window_requested (Some kind) d
        | [id] =>
          if match find_win id (windows d) with Some w => minimized w | None => false end then bring_to_front id (on_win id (show tsc) d)
          else if bool_decide (focused d = Some id) then set_focused None (on_win id (hide tsc) d)
          else bring_to_front id d
        | _ =>
          if bool_decide (just_closed = Some kind) then d
          else set_taskbar_jumplist (Some (kind, START_W + Z.of_nat slot * TASK_BTN_W)) d
        end
    else d
  | None => d
  end.

Definition release_taskbar (tsc mx : Z) (d : Desktop) (p : pins) : Desktop * pins :=
  let pending := taskbar_click_pending d in
  let d := set_taskbar_click_pending None d in
  match taskbar_dragging d with
  | None => (d, p)
  | Some kind =>
    let d := set_taskbar_dragging None d in
    if taskbar_drag_moved d then (set_dirty true d, reorder_pins (ssub (u64 mx) START_W / TASK_BTN_W) kind p)
    else match pending with
         | Some (pend_kind, slot, guard) => (if kind_eqb pend_kind kind then taskbar_button_click tsc pend_kind slot guard p d else d, p)
         | None => (d, p)
         end
  end.

Definition snap_icon (ic : DesktopIcon) : DesktopIcon := let '(x, y) := icon_snap (ic_x ic) (ic_y ic) in set_pos x y ic.

(** The second click on an icon: quick opens it, slow renames it. *)
Definition click_icon (tsc now : Z) (idx : nat) (d : Desktop) : Desktop :=
  set_dirty true
    (if bool_decide (icon_last_clicked d = Some idx) then
       let elapsed := ssub now (icon_selected_at d) in
       set_icon_selected_at now (if elapsed <=? ICON_DBLCLICK_TICKS then open_icon tsc idx d else if elapsed <=? ICON_RENAME_TICKS then begin_rename now idx d else d)
     else set_icon_selected_at now (set_icon_last_clicked (Some idx) d)).

Definition release_icon (tsc now : Z) (d : Desktop) : Desktop :=
  match icon_dragging d with
  | None => d
  | Some idx =>
    let d := set_icon_dragging None d in
    if icon_drag_moved d then set_dirty true (set_icons (alter_all snap_icon (default [idx] (drag_group d idx)) (icons d)) d)
    else click_icon tsc now idx d
  end.

Definition snap_window (tsc : Z) (fb_w fb_h : Z) (zone : SnapZone) (w : Window) : Window :=
  let hw := fb_w / 2 in
  let fh := ssub fb_h (TITLE_H + TASKBAR_H + BORDER_W * 2) in
  let from := win_rect w in
  match zone with
  | SnapLeft => start_transition tsc from (place (BORDER_W, TITLE_H + BORDER_W, ssub hw (BORDER_W * 2), fh) w)
  | SnapRight => start_transition tsc from (place (BORDER_W + hw, TITLE_H + BORDER_W, ssub hw (BORDER_W * 2), fh) w)
  | SnapTop => toggle_maximize tsc fb_w fb_h w
  end.

Definition release_snap (tsc : Z) (d : Desktop) : Desktop :=
  match snap_zone d with
  | None => d
  | Some zone =>
    let d := set_snap_zone None d in
    match focused d with
    | None => d
    | Some fid =>
      match find_win fid (windows d) with
      | Some w => if dragging w then set_dirty true (on_win fid (snap_window tsc (fb_w d) (fb_h d) zone) d) else d
      | None => d
      end
    end
  end.

Definition release (tsc now mx : Z) (d : Desktop) (p : pins) : Desktop * pins :=
  let '(d, p) := release_taskbar tsc mx d p in
  let d := release_icon tsc now (set_marquee_start None d) in
  let d := release_snap tsc (set_volume_drag false d) in
  (set_windows ((λ w, set_resizing false (set_dragging false w)) <$> windows d) d, p).

(** ** Right button *)

Definition menu_top (d : Desktop) : Z := ssub (fb_h d - TASKBAR_H) (len (grouped_all_entries d) * MENU_ENTRY_H + 8).

Definition in_start_menu (mx my : Z) (d : Desktop) : bool :=
  start_menu_open d && (0 <=? mx) && (u64 mx <? MENU_W) && (menu_top d <=? my) && (my <? fb_h d - TASKBAR_H).

Definition in_taskbar (my : Z) (d : Desktop) : bool := fb_h d - TASKBAR_H <=? my.

(** The program whose taskbar button or start-menu row is at the position. *)
Definition program_at (mx my : Z) (p : pins) (d : Desktop) : option AppKind :=
  let taskbar_kind := if in_taskbar my d && (START_W <=? u64 mx) then fst <$> taskbar_entries d p !! Z.to_nat ((u64 mx - START_W) / TASK_BTN_W) else None in
  match taskbar_kind with
  | Some k => Some k
  | None => if in_start_menu mx my d then fst <$> grouped_all_entries d !! Z.to_nat ((u64 my - menu_top d) / MENU_ENTRY_H) else None
  end.

Definition text_window (w : Window) : bool := kind_eqb (app_kind w) EditorApp || kind_eqb (app_kind w) Terminal.

Definition open_context_menu (mx my : Z) (k : ContextMenuKind) (d : Desktop) : Desktop :=
  set_dirty true (set_taskbar_jumplist None (set_context_menu_kind k (set_context_menu (Some (mx, my)) d))).

Definition right_click (tsc mx my : Z) (p : pins) (d : Desktop) : Desktop :=
  match program_at mx my p d with
  | Some k => open_context_menu mx my (CmApp k) d
  | None =>
    if in_taskbar my d then d
    else
      match find_top (λ w, negb (minimized w) && content_hit w mx my && text_window w) (windows d) with
      | Some w => open_context_menu mx my (CmEditText (win_id w)) d
      | None =>
        match find_top (λ w, negb (minimized w) && content_hit w mx my && kind_eqb (app_kind w) Files) (windows d) with
        | Some w => set_dirty true (set_taskbar_jumplist None (set_fs_context_menu_pending (Some (win_id w, mx, my)) d))
        | None =>
          match topmost_window_id_at d mx my with
          | Some _ => d
          | None =>
            let k := match icon_at d mx my with Some idx => CmIcon idx | None => CmBackground end in
            set_dirty true (set_taskbar_jumplist None (close_start_menu tsc (set_context_menu_kind k (set_context_menu (Some (mx, my)) d))))
          end
        end
      end
  end.

(** ** Left button *)

(** A click outside the open prompt dismisses it. *)
Definition dismiss_prompt (mx my : Z) (d : Desktop) : option Desktop :=
  '(px, py, pw, ph) ← (_ ← text_prompt d; prompt_rect d);
  if in_rect px py pw ph mx my then None else Some (set_dirty true (set_text_prompt None d)).

Definition raise_window (tsc id : Z) (d : Desktop) : Desktop := bring_to_front id (on_win id (show tsc) d).

(** *** The editor's windows *)

Definition set_title (v : list Z) (r : Window) : Window := ltac:(upd eta_window title r v).

(** [trim_start_matches] of a slash. *)
Fixpoint trim_slashes (s : list Z) : list Z :=
  match s with c :: s' => if c =? 0x2F then trim_slashes s' else s | [] => [] end.

(** [spawn_editor]'s window; [count]: how many editors there are besides the main one. *)
Definition spawn_editor (tsc : Z) (path : list Z) (count : Z) (d : Desktop) : Desktop * Z :=
  let off := (count + 1) * 24 in
  let '(d, id) := add_window tsc EditorApp (txt "Editor: " ++ trim_slashes path) (140 + off) (60 + off) 580 380 d in
  (set_dirty true d, id).

(** The main editor window may be reused: it is minimized, or gone. *)
Definition main_free (d : Desktop) : bool := default true (minimized <$> find_win 3 (windows d)).

Definition open_smart (tsc : Z) (path : list Z) (count : Z) (d : Desktop) : Desktop * Z :=
  let '(d, win_id) := if main_free d then (d, 3) else spawn_editor tsc path count d in
  (set_dirty true (raise_window tsc win_id d), win_id).

(** The terminal's [edit arg], of the file [full]. *)
Definition edit_command (tsc : Z) (arg full : list Z) (count : Z) (d : Desktop) : Desktop :=
  let '(d, win_id) := open_smart tsc full count d in
  if win_id =? 3 then on_win 3 (set_title (txt "Editor: " ++ arg)) d else d.

(** An entry picked from the jump list; the list closes either way. *)
Definition jumplist_click (tsc mx my : Z) (d : Desktop) : bool * option AppKind * Desktop :=
  match taskbar_jumplist d with
  | None => (false, None, d)
  | Some (jl_kind, jl_x) =>
    let ids := default [] (snd <$> (snd <$> list_find (λ g, g.1 = jl_kind) (grouped_all_entries d))) in
    let hit := jumplist_item_at d jl_x ids mx my in
    let d := set_dirty true (set_taskbar_jumplist None d) in
    match hit with
    | Some id => (true, None, raise_window tsc id d)
    | None => (false, Some jl_kind, d)
    end
  end.

(** The volume popup: whether the click was inside it, and the volume it sets. *)
Definition popup_click (mx my : Z) (d : Desktop) : bool * option Z * Desktop :=
  if volume_popup_open d then
    let ty := fb_h d - TASKBAR_H in
    let '(px, py, pw, ph) := vol_popup_rect (fb_w d) ty in
    if in_rect px py pw ph mx my then
      let sy := py + VOL_POPUP_SLIDER_Y in
      if (sy - 4 <=? my) && (my <? sy + VOL_POPUP_SLIDER_H + 4)
      then (true, Some (slider_volume mx (px + VOL_POPUP_PAD)), set_dirty true (set_volume_drag true d))
      else (true, None, d)
    else
      let '(vix, viy, viw, vih) := vol_icon_rect (fb_w d) ty in
      (false, None, if in_rect vix viy viw vih mx my then d else set_dirty true (set_volume_popup_open false d))
  else (false, None, d).

Definition start_menu_click (tsc my : Z) (d : Desktop) : Desktop :=
  match grouped_all_entries d !! Z.to_nat ((u64 my - menu_top d) / MENU_ENTRY_H) with
  | None => d
  | Some (kind, ids) =>
    let d := close_start_menu tsc d in
    set_dirty true match ids with
                   | [id] => raise_window tsc id d
                   | _ => set_taskbar_jumplist (Some (kind, 0)) d
                   end
  end.

Definition taskbar_click (tsc mx my : Z) (just_closed : option AppKind) (p : pins) (d : Desktop) : Desktop :=
  let '(vix, viy, viw, vih) := vol_icon_rect (fb_w d) (fb_h d - TASKBAR_H) in
  if u64 mx <? START_W then set_dirty true (if start_menu_open d then close_start_menu tsc d else open_start_menu tsc d)
  else if in_rect vix viy viw vih mx my then
    let d := close_start_menu tsc d in set_dirty true (set_volume_popup_open (negb (volume_popup_open d)) d)
  else
    let d := close_start_menu tsc d in
    let slot := Z.to_nat ((u64 mx - START_W) / TASK_BTN_W) in
    match taskbar_entries d p !! slot with
    | Some (kind, _) =>
      set_dirty true (set_taskbar_click_pending (Some (kind, slot, just_closed)) (set_taskbar_drag_moved false
        (set_taskbar_drag_start_x mx (set_taskbar_dragging (Some kind) d))))
    | None => d
    end.

Definition dock_click (mx my : Z) (p : pins) (d : Desktop) : option Desktop :=
  if (u64 mx <? DOCK_W) && (0 <=? my) then
    let slot := ssub (u64 my) DOCK_ITEM_Y0 / DOCK_ITEM_STRIDE in
    '(ino, parent_path, name, is_dir) ← pinned_files p !! Z.to_nat slot;
    let '(_, y, _, h) := dock_item_rect slot in
    if (y <=? my) && (my <? y + h + 12) then Some (set_dirty true (set_open_fs_entry_requested (Some (ino, is_dir, name, parent_path)) d)) else None
  else None.

(** A click on the bare desktop: on an icon, or the start of a rubber band. *)
Definition desktop_click (shift : bool) (mx my : Z) (d : Desktop) : Desktop :=
  match icon_at d mx my with
  | Some idx =>
    if shift then
      let sel := match position (Nat.eqb idx) (icon_selected d) with
                 | Some pos => remove_nth pos (icon_selected d)
                 | None => icon_selected d ++ [idx]
                 end in
      set_dirty true (set_icon_last_clicked None (set_icon_selected sel d))
    else
      let d := if nat_mem idx (icon_selected d) then d else set_icon_selected [idx] d in
      match icons d !! idx with
      | Some ic => set_dirty true (set_icon_drag_start_pos (ic_x ic, ic_y ic) (set_icon_drag_moved false
                     (set_icon_drag_off (mx - ic_x ic, my - ic_y ic) (set_icon_dragging (Some idx) d))))
      | None => d
      end
  | None => if shift then d else set_dirty true (set_marquee_start (Some (mx, my)) (set_icon_last_clicked None (set_icon_selected [] d)))
  end.

(** Where a grabbed maximized window goes: under the cursor, at the same fraction. *)
Definition grab_maximized (tsc fb_w fb_h mx my : Z) (w : Window) : Window :=
  let frac := f32_clamp01 (f32_div (f32_of (mx - outer_x w)) (f32_of (Z.max (outer_w w) 1))) in
  let w := toggle_maximize tsc fb_w fb_h w in
  let w := set_wy (my - Z.quot TITLE_H 2) (set_wx (mx - f32_trunc (f32_mul frac (f32_of (ww w)))) w) in
  set_drag_off (mx - wx w, my - wy w) (set_dragging true w).

Definition start_resize (edges mx my : Z) (w : Window) : Window :=
  set_resize_orig_m (mx, my) (set_resize_orig (win_rect w) (set_resize_edge_flags edges (set_resizing true w))).

Definition start_drag (mx my : Z) (w : Window) : Window := set_drag_off (mx - wx w, my - wy w) (set_dragging true w).

(** A click on window [id], already in front; the result says whether to open a terminal. *)
Definition window_click (tsc mx my id : Z) (prev_dbl : option Z) (d : Desktop) : bool * Desktop :=
  match find_win id (windows d) with
  | None => (false, d)
  | Some w =>
    if close_hit w mx my then (false, set_focused None (on_win id (close tsc) d))
    else if minimize_hit w mx my then (false, set_focused None (on_win id (hide tsc) d))
    else if newterm_hit w mx my then (true, d)
    else if maximize_hit w mx my then (false, on_win id (toggle_maximize tsc (fb_w d) (fb_h d)) d)
    else if maximized w then (false, if title_hit w mx my then on_win id (grab_maximized tsc (fb_w d) (fb_h d) mx my) d else d)
    else
      let edges := resize_edges_at w mx my in
      if negb (edges =? 0) then (false, on_win id (start_resize edges mx my) d)
      else if title_hit w mx my then
        (false, if bool_decide (prev_dbl = Some id) then on_win id (toggle_maximize tsc (fb_w d) (fb_h d)) d
                else on_win id (start_drag mx my) (set_dbl_click_pending (Some id) d))
      else (false, d)
  end.

(** A click outside menus and taskbar. *)
Definition ground_click (tsc mx my : Z) (shift : bool) (prev_dbl : option Z) (p : pins) (d : Desktop) : bool * Desktop :=
  let d := close_start_menu tsc d in
  match topmost_window_id_at d mx my with
  | Some id => window_click tsc mx my id prev_dbl (set_dirty true (bring_to_front id d))
  | None => (false, match dock_click mx my p d with Some d => d | None => desktop_click shift mx my d end)
  end.

(** ** The whole report *)

Section mouse.
Context {D F : Type} `{!Drive D} `{!FrameSource F}.
(** [fuel] bounds the depth of a copied directory tree (see [Hepfs.copy_entry]). *)
Context (tsc now : Z) (shift : bool) (fuel : nat).

(** Everything a report can change: the desktop, the pins, the volume and the disk. *)
Record ui := mkUi { desk : Desktop; u_pins : pins; u_snd : sound; u_disk : option (fs D F) }.

Definition on_desk (f : Desktop → Desktop) (u : ui) : ui := mkUi (f (desk u)) (u_pins u) (u_snd u) (u_disk u).
Definition on_pins (f : pins → pins) (u : ui) : ui := mkUi (desk u) (f (u_pins u)) (u_snd u) (u_disk u).
Definition set_vol (v : option Z) (u : ui) : ui :=
  match v with Some v => mkUi (desk u) (u_pins u) (set_volume v (u_snd u)) (u_disk u) | None => u end.

(** Runs an operation on the disk, if there is one. *)
Definition with_disk {A} (c : ST (fs D F) A) (u : ui) : outcome (option A * ui) :=
  match u_disk u with
  | None => Ok (None, u)
  | Some s => '(a, s) ← c s; Ok (Some a, mkUi (desk u) (u_pins u) (u_snd u) (Some s))
  end.

Definition home_desktop : list Z := txt "/home/desktop".

(** [main.rs]'s [refresh_desktop_icons]: the listing it would hand to [sync_fs_icons]. *)
Fixpoint list_entries (l : list (Z * list Z)) : ST (fs D F) (list (Z * list Z * bool)) :=
  match l with
  | [] => mret []
  | (ino, nm) :: l => st ← stat ino; rest ← list_entries l; mret ((ino, nm, fst st) :: rest)
  end.

Definition home_entries : ST (fs D F) (option (list (Z * list Z * bool))) :=
  r ← Hepfs.lookup home_desktop;
  match r with
  | None => mret None
  | Some dir_ino => l ← list_dir dir_ino; es ← list_entries l; mret (Some es)
  end.

(** Called without the lock. *)
Definition refresh_desktop_icons (u : ui) : outcome ui :=
  '(r, u) ← with_disk home_entries u;
  Ok match r with Some (Some es) => on_desk (sync_fs_icons es) u | _ => u end.

Definition set_clipboard (l : list clip_entry) : ui → ui := on_pins (λ p, mkPins (pinned_files p) (pinned_taskbar p) l).

Fixpoint paste_all (l : list clip_entry) (to_parent : Z) : ST (fs D F) unit :=
  match l with
  | [] => mret tt
  | (from_parent, _, nm, _) :: l => copy_entry_unique fuel from_parent to_parent nm ≫= λ _, paste_all l to_parent
  end.

(** Pasting into a Files window ends in [refresh_desktop_icons], which takes the
    [DESKTOP] lock that the caller of [update_mouse] holds. *)
Definition paste_into (parent_ino : Z) (u : ui) : outcome (mouse_end * ui) :=
  match fs_clipboard (u_pins u) with
  | [] => Ok (Returned false, u)
  | clip =>
    '(_, u) ← with_disk (paste_all clip parent_ino) u;
    '(r, u) ← with_disk home_entries u;
    Ok match r with
       | Some (Some _) => (Deadlocked, u)
       | _ => (Returned false, on_desk (set_dirty true) u)
       end
  end.

Definition copy_icon (ino : Z) (name : list Z) (is_dir : bool) (u : ui) : outcome ui :=
  '(r, u) ← with_disk (Hepfs.lookup home_desktop) u;
  Ok match r with Some (Some parent_ino) => set_clipboard [(parent_ino, ino, name, is_dir)] u | _ => u end.

(** The chosen item of the menu of [kind]; [d]: the desktop with the menu still open. *)
Definition context_item (d : Desktop) (kind : ContextMenuKind) (item : option nat) (u : ui) : outcome (mouse_end * ui) :=
  let done u := Ok (Returned false, u) in
  match kind, item with
  | CmBackground, Some 0%nat => done (on_desk (set_open_settings_requested true) u)
  | CmBackground, Some 1%nat => done (on_desk (begin_new_entry false) u)
  | CmBackground, Some 2%nat => done (on_desk (begin_new_entry true) u)
  | CmApp k, Some 0%nat => done (on_desk (set_new_window_requested (Some k)) u)
  | CmApp k, Some 1%nat => done (on_pins (toggle_pinned_taskbar k) u)
  | CmApp k, Some 2%nat => done (on_desk (toggle_pinned_desktop k) u)
  | CmEditText id, Some 0%nat => done (on_desk (set_clipboard_action_requested (Some (id, false))) u)
  | CmEditText id, Some 1%nat => done (on_desk (set_clipboard_action_requested (Some (id, true))) u)
  | CmIcon idx, Some 0%nat => done (on_desk (open_icon tsc idx) u)
  | CmIcon idx, Some 1%nat =>
    match icons d !! idx with
    | Some (mkIcon (Program k _) _ _ _) => done (on_pins (toggle_pinned_taskbar k) u)
    | Some (mkIcon (FsEntry ino is_dir) name _ _) => done (on_pins (toggle_pinned_file ino home_desktop name is_dir) u)
    | None => done u
    end
  | CmIcon idx, Some 2%nat =>
    match icons d !! idx with
    | Some (mkIcon (Program k _) _ _ _) => done (on_desk (toggle_pinned_desktop k) u)
    | Some (mkIcon (FsEntry ino is_dir) name _ _) => u ← copy_icon ino name is_dir u; done u
    | None => done u
    end
  | CmFsRow _ _ parent_path ino name is_dir _ _, Some 0%nat => done (on_desk (set_open_fs_entry_requested (Some (ino, is_dir, name, parent_path))) u)
  | CmFsRow _ _ parent_path ino name is_dir _ _, Some 1%nat => done (on_pins (toggle_pinned_file ino parent_path name is_dir) u)
  | CmFsRow _ parent_ino _ ino name is_dir _ extra, Some 2%nat =>
    done (set_clipboard ((parent_ino, ino, name, is_dir) :: ((λ '(eino, ename, eis_dir), (parent_ino, eino, ename, eis_dir)) <$> extra)) u)
  | CmFsPane _ parent_ino _, Some 0%nat => paste_into parent_ino u
  | _, _ => done u
  end.

(** A click while a context menu is open: the menu is closed, then the item acts. *)
Definition context_click (mx my : Z) (u : ui) : outcome (mouse_end * ui) :=
  let d := desk u in
  context_item d (context_menu_kind d) (context_menu_item_at d (u_pins u) mx my) (on_desk (λ d, set_dirty true (set_context_menu None d)) u).

(** The left click once every popup has had its chance. *)
Definition plain_click (mx my : Z) (just_closed : option AppKind) (u : ui) : mouse_end * ui :=
  let prev_dbl := dbl_click_pending (desk u) in
  let u := on_desk (set_dbl_click_pending None) u in
  let d := desk u in
  let in_menu := in_start_menu mx my d in
  let rel_x := u64 mx in
  let rel_y := u64 (my - menu_top d) in
  if in_menu && menu_btn_hit MENU_SHUTDOWN_X rel_x rel_y then (PoweredOff, u)
  else if in_menu && menu_btn_hit MENU_RESTART_X rel_x rel_y then (Rebooted, u)
  else if in_menu then (Returned false, on_desk (start_menu_click tsc my) u)
  else if in_taskbar my d then (Returned false, on_desk (taskbar_click tsc mx my just_closed (u_pins u)) u)
  else let '(spawn, d) := ground_click tsc mx my shift prev_dbl (u_pins u) d in (Returned spawn, on_desk (λ _, d) u).

(** The left click once no context menu is open. *)
Definition left_click (mx my : Z) (u : ui) : mouse_end * ui :=
  let '(picked, just_closed, d) := jumplist_click tsc mx my (desk u) in
  let u := on_desk (λ _, d) u in
  if picked then (Returned false, u)
  else
    let '(used, vol, d) := popup_click mx my (desk u) in
    let u := set_vol vol (on_desk (λ _, d) u) in
    if used then (Returned false, u) else plain_click mx my just_closed u.

(** The stages of a held button, in order; [Some]: the report was used up. *)
Definition held_stages (mx my : Z) (u : ui) : option ui * ui :=
  match drag_window mx my (desk u) with
  | Some d => (Some (on_desk (λ _, d) u), u)
  | None =>
    let u := on_desk (drag_taskbar mx) u in
    match drag_icon mx my (desk u) with
    | Some d => (Some (on_desk (λ _, d) u), u)
    | None =>
      match drag_marquee mx my (desk u) with
      | Some d => (Some (on_desk (λ _, d) u), u)
      | None =>
        if volume_drag (desk u) then (Some (on_desk (set_dirty true) (set_vol (Some (slider_volume mx (popup_slider_x (desk u)))) u)), u)
        else (None, u)
      end
    end
  end.

Definition note_position (mx my : Z) (d : Desktop) : Desktop :=
  if bool_decide (mx = prev_cx d ∧ my = prev_cy d) then d else set_prev_cy my (set_prev_cx mx (set_mouse_dirty true d)).

Definition after_held (mx my : Z) (clicked released right_clicked : bool) (u : ui) : outcome (mouse_end * ui) :=
  let u := if released : bool then let '(d, p) := release tsc now mx (desk u) (u_pins u) in mkUi d p (u_snd u) (u_disk u) else u in
  let u := if right_clicked : bool then on_desk (right_click tsc mx my (u_pins u)) u else u in
  if clicked : bool then
    match context_menu (desk u) with
    | Some _ => context_click mx my u
    | None => Ok (left_click mx my u)
    end
  else Ok (Returned false, u).

Definition update_mouse (mx my buttons : Z) (u : ui) : outcome (mouse_end * ui) :=
  let u := on_desk (note_position mx my) u in
  let prev := prev_btn (desk u) in
  let right_clicked := Z.testbit buttons 1 && negb (Z.testbit prev 1) in
  let clicked := Z.testbit buttons 0 && negb (Z.testbit prev 0) in
  let released := negb (Z.testbit buttons 0) && Z.testbit prev 0 in
  let held := Z.testbit buttons 0 in
  let u := on_desk (set_prev_btn buttons) u in
  match (if clicked || right_clicked then dismiss_prompt mx my (desk u) else None) with
  | Some d => Ok (Returned false, on_desk (λ _, d) u)
  | None =>
    let '(used, u) := if held then held_stages mx my u else (None, u) in
    match used with
    | Some u => Ok (Returned false, u)
    | None => after_held mx my clicked released right_clicked u
    end
  end.
End mouse.
Arguments ui D F : clear implicits.
