(* ===== verification/MouseSpec.v ===== *)
(** What a session at the desktop preserves: windows are neither lost nor duplicated, the
    focus is on a window that exists, and pins are unique, whatever the user does. *)

From stdpp Require Import prelude list numbers strings.
From S2P Require Import Prelude Text Pmm Memory Hepfs Elf Display Media Desktop Mouse.

Local Open Scope Z_scope.

(** What never changes about a window. *)
Definition ident (w : Window) : Z * AppKind * list Z := (win_id w, app_kind w, title w).
Definition idents (d : Desktop) : list (Z * AppKind * list Z) := ident <$> windows d.
Definition ids (d : Desktop) : list Z := win_id <$> windows d.
Definition focus_ok (d : Desktop) : Prop := ∀ id, focused d = Some id → id ∈ ids d.

(** [d'] has the windows of [d], perhaps in another order, and no dangling focus. *)
Definition keeps (d d' : Desktop) : Prop := idents d' ≡ₚ idents d ∧ next_id d' = next_id d ∧ (focus_ok d → focus_ok d').

Lemma ids_idents d : ids d = (fst ∘ fst) <$> idents d.
Proof. unfold ids, idents. by rewrite <- list_fmap_compose. Qed.

Lemma keeps_ids d d' : keeps d d' → ids d' ≡ₚ ids d.
Proof. intros (H & _). rewrite !ids_idents. by apply fmap_Permutation. Qed.

#[export] Instance keeps_preorder : PreOrder keeps.
Proof.
  split; [by intros d|]. intros d1 d2 d3 (P1 & N1 & F1) (P2 & N2 & F2). split_and!; [by etrans|congruence|auto].
Qed.

Lemma keeps_then d d1 d2 : keeps d d1 → windows d2 = windows d1 → focused d2 = focused d1 → next_id d2 = next_id d1 → keeps d d2.
Proof. unfold keeps, idents, focus_ok, ids. intros (H1 & H2 & H3) -> -> ->. done. Qed.

Lemma keeps_unfocus d d1 : keeps d d1 → keeps d (set_focused None d1).
Proof. intros (H1 & H2 & H3). split_and!; [done..|]. intros _ id [=]. Qed.

Lemma update_win_ident id f l : (∀ w, ident (f w) = ident w) → ident <$> update_win id f l = ident <$> l.
Proof. intros Hf. induction l as [|w l IH]; [done|]. simpl. destruct (_ =? _); csimpl; congruence. Qed.

Lemma keeps_windows d d1 l : keeps d d1 → ident <$> l ≡ₚ idents d1 → keeps d (set_windows l d1).
Proof.
  intros H Hl. trans d1; [done|]. split_and!; [done..|]. intros Hf id Hid. specialize (Hf id Hid).
  rewrite ids_idents. unfold idents in *. cbn [windows set_windows]. rewrite Hl. fold (idents d1). by rewrite <- ids_idents.
Qed.

Lemma keeps_on_win d d1 id f : (∀ w, ident (f w) = ident w) → keeps d d1 → keeps d (on_win id f d1).
Proof. intros Hf H. apply keeps_windows; [done|]. by rewrite update_win_ident. Qed.

Lemma keeps_map d d1 f : (∀ w, ident (f w) = ident w) → keeps d d1 → keeps d (set_windows (f <$> windows d1) d1).
Proof.
  intros Hf H. apply keeps_windows; [done|]. unfold idents. rewrite <- list_fmap_compose.
  rewrite (list_fmap_ext (ident ∘ f) ident) by (intros; apply Hf). done.
Qed.

Lemma list_find_remove {A} (P : A → Prop) `{∀ x, Decision (P x)} l i x : list_find P l = Some (i, x) → remove_nth i l ++ [x] ≡ₚ l.
Proof.
  intros (Hi & _)%list_find_Some. unfold remove_nth. rewrite <- (take_drop_middle l i x Hi) at 3. rewrite <- (assoc_L (++)).
  apply Permutation_app_head. by rewrite Permutation_app_comm.
Qed.

Lemma keeps_front d d1 id : keeps d d1 → keeps d (bring_to_front id d1).
Proof.
  intros H. unfold bring_to_front. destruct (list_find _ _) as [[pos w]|] eqn:E; [|done]. pose proof (list_find_remove _ _ _ _ E) as Hp.
  assert (ident <$> remove_nth pos (windows d1) ++ [w] ≡ₚ idents d1) as Hi by (unfold idents; by rewrite Hp).
  destruct (keeps_windows d d1 _ H Hi) as (H1 & H2 & H3).
  split_and!; [done..|]. intros _ i [= <-]. unfold ids. cbn [windows set_focused set_windows]. apply list_find_Some in E as (_ & <- & _).
  rewrite fmap_app, elem_of_app. right. by apply list_elem_of_singleton.
Qed.

(** Solves [keeps d e] for [e] built from [d] by updates that leave the windows alone. *)
Ltac keep_step :=
  match goal with
  | |- keeps ?d ?d => reflexivity
  | |- keeps _ (bring_to_front _ _) => apply keeps_front
  | |- keeps _ (on_win _ _ _) => apply keeps_on_win; [auto with idents|]
  | |- keeps _ (set_focused None _) => apply keeps_unfocus
  | |- keeps ?d (?f _ ?d1) => apply (keeps_then d d1); [|generalize d1; intros []; reflexivity..]
  | |- keeps ?d match ?x with _ => _ end => destruct x
  | |- keeps ?d (if ?x then _ else _) => destruct x
  | _ => assumption
  end.
Ltac keep := repeat keep_step.

Create HintDb idents.

Lemma place_ident r w : ident (place r w) = ident w.
Proof. by destruct r as [[[x y] a] b]. Qed.
Lemma show_ident tsc w : ident (show tsc w) = ident w.
Proof. unfold show. by destruct (minimized (set_ever_shown true w)). Qed.
Lemma hide_ident tsc w : ident (hide tsc w) = ident w.
Proof. unfold hide. by destruct (minimized w). Qed.
Lemma close_ident tsc w : ident (close tsc w) = ident w.
Proof. unfold close. apply (hide_ident tsc w). Qed.
Lemma toggle_maximize_ident tsc sw sh w : ident (toggle_maximize tsc sw sh w) = ident w.
Proof. unfold toggle_maximize. destruct (maximized w); [by destruct (saved w) as [[[x y] a] b]|done]. Qed.
Lemma resize_drag_ident mx my w : ident (resize_drag mx my w) = ident w.
Proof. unfold resize_drag. destruct (resize_orig w) as [[[x y] a] b]. by repeat destruct (Z.testbit _ _). Qed.
Lemma grab_maximized_ident tsc fw fh mx my w : ident (grab_maximized tsc fw fh mx my w) = ident w.
Proof. unfold grab_maximized. cbv zeta. apply (toggle_maximize_ident tsc fw fh w). Qed.
Lemma snap_window_ident tsc fw fh z w : ident (snap_window tsc fw fh z w) = ident w.
Proof. unfold snap_window. destruct z; [done..|apply toggle_maximize_ident]. Qed.
#[export] Hint Resolve show_ident hide_ident close_ident toggle_maximize_ident resize_drag_ident grab_maximized_ident snap_window_ident : idents.
#[export] Hint Extern 1 (ident _ = ident _) => reflexivity : idents.

(** ** The operations of the desktop *)

Lemma open_icon_keeps tsc idx d : keeps d (open_icon tsc idx d).
Proof. unfold open_icon. keep. Qed.
Lemma begin_rename_keeps now idx d : keeps d (begin_rename now idx d).
Proof. unfold begin_rename, show_message. keep. Qed.
Lemma confirm_prompt_keeps p d d' : confirm_prompt p d = Some d' → keeps d d'.
Proof.
  unfold confirm_prompt. destruct (tp_kind p) as [| |idx|]; try (intros [= <-]; keep).
  - destruct (icons d !! idx) as [[[] label x y]|]; intros [= <-]; keep.
  - destruct (fs_rename_ctx d) as [[[win ino] old]|]; intros [= <-]; keep.
Qed.
Lemma prompt_on_key_keeps c d : keeps d (prompt_on_key c d).
Proof.
  unfold prompt_on_key. destruct (text_prompt d) as [p|]; [|done].
  destruct (confirm_prompt p d) as [d'|] eqn:E; [apply confirm_prompt_keeps in E|]; keep.
Qed.
Lemma sync_fs_icons_keeps es d : keeps d (sync_fs_icons es d).
Proof. unfold sync_fs_icons. keep. Qed.
Lemma toggle_pinned_desktop_keeps k d : keeps d (toggle_pinned_desktop k d).
Proof. unfold toggle_pinned_desktop. keep. Qed.
Lemma tick_icon_message_keeps now d : keeps d (tick_icon_message now d).
Proof. unfold tick_icon_message. keep. Qed.
Lemma close_start_menu_keeps tsc d : keeps d (close_start_menu tsc d).
Proof. unfold close_start_menu. keep. Qed.
Lemma raise_window_keeps tsc id d : keeps d (raise_window tsc id d).
Proof. unfold raise_window. keep. Qed.

Lemma tick_win_ident tsc tpm w : ident (tick_win tsc tpm w).1 = ident w.
Proof. unfold tick_win. destruct (anim w) as [a|]; [|done]. destruct (anim_done _ _ _ _); [|done]. by destruct (an_kind a). Qed.

Lemma tick_anims_keeps tsc tpm d : keeps d (tick_anims tsc tpm d).1.
Proof.
  unfold tick_anims. cbv zeta. rewrite <- list_fmap_compose.
  assert (keeps d (set_windows ((fst ∘ tick_win tsc tpm) <$> windows d) d)) as H by (apply keeps_map; [intros; apply tick_win_ident|done]).
  destruct (start_menu_anim d) as [[b start]|]; [|done]. destruct (anim_done _ _ _ _); [|done]. cbn [fst]. by apply (keeps_then d _ _ H).
Qed.

(** ** The stages of a report *)

Lemma drag_window_keeps mx my d d' : drag_window mx my d = Some d' → keeps d d'.
Proof.
  unfold drag_window. destruct (focused d) as [fid|]; [|done]. cbn [mbind option_bind]. destruct (find_win fid _) as [w|]; [|done]. cbn [mbind option_bind].
  destruct (resizing w); [intros [= <-]; keep|]. destruct (dragging w && negb (maximized w)); [|done]. intros [= <-]. keep.
Qed.

Lemma drag_taskbar_keeps mx d : keeps d (drag_taskbar mx d).
Proof. unfold drag_taskbar. keep. Qed.

Lemma drag_icon_keeps mx my d d' : drag_icon mx my d = Some d' → keeps d d'.
Proof.
  unfold drag_icon. destruct (icon_dragging d) as [i|]; [|done]. cbn [mbind option_bind]. destruct (icons d !! i) as [ic|]; [|done].
  cbn [mbind option_bind]. intros [= <-]. keep.
Qed.

Lemma drag_marquee_keeps mx my d d' : drag_marquee mx my d = Some d' → keeps d d'.
Proof. unfold drag_marquee. destruct (marquee_start d) as [[sx sy]|]; [|done]. intros [= <-]. keep. Qed.

Lemma taskbar_button_click_keeps tsc k slot jc p d : keeps d (taskbar_button_click tsc k slot jc p d).
Proof. unfold taskbar_button_click. destruct (taskbar_entries d p !! slot) as [[k' [|id [|id' l]]]|]; keep. Qed.

Lemma release_taskbar_keeps tsc mx d p : keeps d (release_taskbar tsc mx d p).1.
Proof.
  unfold release_taskbar. cbv zeta. destruct (taskbar_dragging _) as [k|]; [|cbn [fst]; keep].
  destruct (taskbar_drag_moved _); [cbn [fst]; keep|]. destruct (taskbar_click_pending d) as [[[pk slot] g]|]; cbn [fst]; [|keep].
  destruct (kind_eqb pk k); [|keep]. etrans; [|apply taskbar_button_click_keeps]. keep.
Qed.

Lemma click_icon_keeps tsc now idx d : keeps d (click_icon tsc now idx d).
Proof.
  unfold click_icon. cbv zeta. pose proof (open_icon_keeps tsc idx d). pose proof (begin_rename_keeps now idx d).
  destruct (bool_decide _); [|keep]. destruct (_ <=? ICON_DBLCLICK_TICKS); [|destruct (_ <=? ICON_RENAME_TICKS)]; keep.
Qed.

Lemma release_icon_keeps tsc now d : keeps d (release_icon tsc now d).
Proof.
  unfold release_icon. destruct (icon_dragging d); [|done]. cbv zeta. destruct (icon_drag_moved _); [keep|].
  etrans; [|apply click_icon_keeps]. keep.
Qed.

Lemma release_snap_keeps tsc d : keeps d (release_snap tsc d).
Proof. unfold release_snap. destruct (snap_zone d); [|done]. cbv zeta. destruct (focused _); [|keep]. destruct (find_win _ _) as [w|]; [|keep]. destruct (dragging w); keep. Qed.

Lemma release_keeps tsc now mx d p : keeps d (release tsc now mx d p).1.
Proof.
  unfold release. pose proof (release_taskbar_keeps tsc mx d p) as H. destruct (release_taskbar tsc mx d p) as [d1 p1]. cbn [fst] in *.
  apply keeps_map; [done|]. etrans; [|apply release_snap_keeps]. apply (keeps_then _ (release_icon tsc now (set_marquee_start None d1))); [|done..].
  etrans; [|apply release_icon_keeps]. by apply (keeps_then d d1).
Qed.

Lemma right_click_keeps tsc mx my p d : keeps d (right_click tsc mx my p d).
Proof.
  unfold right_click, open_context_menu, close_start_menu. destruct (program_at mx my p d); [keep|]. destruct (in_taskbar my d); [done|].
  destruct (find_top _ _); [keep|]. destruct (find_top _ _); [keep|]. destruct (topmost_window_id_at d mx my); [done|]. keep.
Qed.

Lemma dismiss_prompt_keeps mx my d d' : dismiss_prompt mx my d = Some d' → keeps d d'.
Proof.
  unfold dismiss_prompt. destruct (text_prompt d); [|done]. cbn [mbind option_bind]. destruct (prompt_rect d) as [[[[px py] pw] ph]|]; [|done].
  cbn [mbind option_bind]. destruct (in_rect _ _ _ _ _ _); [done|]. intros [= <-]. keep.
Qed.

Lemma jumplist_click_keeps tsc mx my d : keeps d (jumplist_click tsc mx my d).2.
Proof.
  unfold jumplist_click. destruct (taskbar_jumplist d) as [[k x]|]; [|done]. cbv zeta. destruct (jumplist_item_at _ _ _ _ _) as [id|]; cbn [snd]; [|keep].
  etrans; [|apply raise_window_keeps]. keep.
Qed.

Lemma popup_click_keeps mx my d : keeps d (popup_click mx my d).2.
Proof.
  unfold popup_click. destruct (volume_popup_open d); [|done]. cbv zeta. destruct (vol_popup_rect _ _) as [[[px py] pw] ph].
  destruct (in_rect px py pw ph mx my); [destruct (_ && _); cbn [snd]; keep|].
  destruct (vol_icon_rect _ _) as [[[ix iy] iw] ih]. cbn [snd]. keep.
Qed.

Lemma start_menu_click_keeps tsc my d : keeps d (start_menu_click tsc my d).
Proof.
  unfold start_menu_click. destruct (grouped_all_entries d !! _) as [[k l]|]; [|done]. cbv zeta. unfold raise_window, close_start_menu.
  destruct l as [|id [|id' l]]; keep.
Qed.

Lemma taskbar_click_keeps tsc mx my jc p d : keeps d (taskbar_click tsc mx my jc p d).
Proof.
  unfold taskbar_click, open_start_menu. destruct (vol_icon_rect _ _) as [[[ix iy] iw] ih]. cbv zeta. pose proof (close_start_menu_keeps tsc d).
  destruct (u64 mx <? START_W); [keep|]. destruct (in_rect _ _ _ _ _ _); [keep|].
  generalize (Z.to_nat ((u64 mx - START_W) / TASK_BTN_W)) as slot. intros slot. destruct (taskbar_entries (close_start_menu tsc d) p !! slot) as [[k l]|]; keep.
Qed.

Lemma dock_click_keeps mx my p d d' : dock_click mx my p d = Some d' → keeps d d'.
Proof.
  unfold dock_click. destruct (_ && _); [|done]. cbv zeta. destruct (pinned_files p !! _) as [[[[ino pp] nm] dir]|]; [|done]. cbn [mbind option_bind].
  destruct (dock_item_rect _) as [[[a y] b] h]. destruct (_ && _); [|done]. intros [= <-]. keep.
Qed.

Lemma desktop_click_keeps shift mx my d : keeps d (desktop_click shift mx my d).
Proof.
  unfold desktop_click. destruct (icon_at d mx my) as [i|]; [|keep]. destruct shift; [keep|]. cbv zeta.
  destruct (icons (if nat_mem i (icon_selected d) then d else set_icon_selected [i] d) !! i); keep.
Qed.

Lemma window_click_keeps tsc mx my id pd d : keeps d (window_click tsc mx my id pd d).2.
Proof.
  unfold window_click. destruct (find_win id (windows d)) as [w|]; [|done].
  destruct (close_hit w mx my); [cbn [snd]; keep|]. destruct (minimize_hit w mx my); [cbn [snd]; keep|]. destruct (newterm_hit w mx my); [done|].
  destruct (maximize_hit w mx my); [cbn [snd]; keep|]. destruct (maximized w); [cbn [snd]; keep|]. cbv zeta.
  destruct (negb _); [cbn [snd]; keep|]. destruct (title_hit w mx my); [cbn [snd]; keep|done].
Qed.

Lemma ground_click_keeps tsc mx my shift pd p d : keeps d (ground_click tsc mx my shift pd p d).2.
Proof.
  unfold ground_click. cbv zeta. pose proof (close_start_menu_keeps tsc d) as H. destruct (topmost_window_id_at _ mx my) as [id|].
  - etrans; [|apply window_click_keeps]. keep.
  - cbn [snd]. destruct (dock_click _ _ _ _) as [d'|] eqn:E; [by etrans; [|eapply dock_click_keeps]|]. etrans; [done|apply desktop_click_keeps].
Qed.

(** ** Pins *)

Definition pins_ok (p : pins) : Prop := NoDup (pinned_taskbar p) ∧ NoDup (pf_ino <$> pinned_files p).

Lemma position_none {A} (f : A → bool) l : position f l = None → Forall (λ x, f x = false) l.
Proof.
  unfold position. intros H. destruct (list_find f l) as [[i x]|] eqn:E; [done|]. apply list_find_None in E.
  eapply Forall_impl; [exact E|]. intros x Hx. cbv beta in Hx. destruct (f x); [by destruct Hx|done].
Qed.

Lemma NoDup_remove_nth {A B} (g : A → B) i l : NoDup (g <$> l) → NoDup (g <$> remove_nth i l).
Proof.
  intros H. destruct (l !! i) as [x|] eqn:E.
  - rewrite <- (take_drop_middle l i x E), fmap_app, fmap_cons in H. unfold remove_nth. rewrite fmap_app.
    apply NoDup_app in H as (H1 & H2 & H3). apply NoDup_cons in H3 as [H3 H4]. apply NoDup_app. split_and!; [done| |done].
    intros y Hy Hy'. apply (H2 y Hy). by right.
  - unfold remove_nth. apply lookup_ge_None in E. rewrite take_ge, drop_ge, app_nil_r by lia. done.
Qed.

Lemma NoDup_remove_nth_id {A} i (l : list A) : NoDup l → NoDup (remove_nth i l).
Proof. intros H. pose proof (NoDup_remove_nth id i l) as H'. rewrite !list_fmap_id in H'. auto. Qed.

Lemma NoDup_snoc {A} (l : list A) x : NoDup l → x ∉ l → NoDup (l ++ [x]).
Proof. intros. apply NoDup_app. split_and!; [done| |apply NoDup_singleton]. intros y Hy ->%list_elem_of_singleton. done. Qed.

Lemma toggle_pinned_taskbar_ok k p : pins_ok p → pins_ok (toggle_pinned_taskbar k p).
Proof.
  intros [H1 H2]. split; [|done]. cbn [toggle_pinned_taskbar pinned_taskbar]. destruct (position _ _) as [i|] eqn:E.
  - by apply NoDup_remove_nth_id.
  - apply NoDup_snoc; [done|]. intros Hk. apply position_none in E. rewrite Forall_forall in E. specialize (E k Hk). unfold kind_eqb in E.
    by rewrite bool_decide_true in E.
Qed.

Lemma toggle_pinned_file_ok ino pp nm dir p : pins_ok p → pins_ok (toggle_pinned_file ino pp nm dir p).
Proof.
  intros [H1 H2]. split; [done|]. cbn [toggle_pinned_file pinned_files]. destruct (position _ _) as [i|] eqn:E; [by apply NoDup_remove_nth|].
  rewrite fmap_app. apply NoDup_snoc; [done|]. cbn [pf_ino]. intros (e & He & Hin)%list_elem_of_fmap. apply position_none in E. rewrite Forall_forall in E.
  specialize (E e Hin). lia.
Qed.

Lemma pin_file_ok ino pp nm dir p : pins_ok p → pins_ok (pin_file ino pp nm dir p).
Proof.
  intros [H1 H2]. unfold pin_file, is_pinned_file. destruct (existsb _ _) eqn:E; [done|]. split; [done|]. cbn [pinned_files].
  rewrite fmap_app. apply NoDup_snoc; [done|]. cbn [pf_ino]. intros (e & He & Hin)%list_elem_of_fmap.
  assert (existsb (λ e, pf_ino e =? ino) (pinned_files p) = true) as Hx; [|congruence].
  apply existsb_exists. exists e. split; [by apply list_elem_of_In|]. lia.
Qed.

Lemma reorder_pins_ok slot k p : pins_ok p → pins_ok (reorder_pins slot k p).
Proof.
  intros [H1 H2]. split; [|done]. cbn [reorder_pins pinned_taskbar]. set (l := retain _ _).
  assert (NoDup l ∧ k ∉ l) as [Hl Hk].
  { split; [apply NoDup_ListNoDup, List.NoDup_filter, NoDup_ListNoDup; done|]. unfold l, retain. intros [_ H]%list_elem_of_In%filter_In.
    unfold kind_eqb in H. by rewrite bool_decide_true in H. }
  unfold insert_at. set (i := Nat.min _ _). rewrite <- (take_drop i l) in Hl, Hk. rewrite <- (Permutation_middle (take i l) (drop i l) k).
  constructor; done.
Qed.

Lemma release_pins_ok tsc now mx d p : pins_ok p → pins_ok (release tsc now mx d p).2.
Proof.
  intros H. unfold release. assert (pins_ok (release_taskbar tsc mx d p).2) as H'.
  { unfold release_taskbar. cbv zeta. destruct (taskbar_dragging _); [|done]. destruct (taskbar_drag_moved _); [by apply reorder_pins_ok|].
    by destruct (taskbar_click_pending d) as [[[? ?] ?]|]. }
  by destruct (release_taskbar tsc mx d p).
Qed.

(** ** A report *)

Section session.
Context {D F : Type} `{!Drive D} `{!FrameSource F} (fuel : nat).
Implicit Types (u : ui D F).

(** [u'] comes from [u] by an operation that keeps windows and pins in order. *)
Definition ui_keeps u u' : Prop := keeps (desk u) (desk u') ∧ (pins_ok (u_pins u) → pins_ok (u_pins u')).

#[export] Instance ui_keeps_preorder : PreOrder ui_keeps.
Proof. split; [by intros u|]. intros u1 u2 u3 [H1 P1] [H2 P2]. split; [by etrans|auto]. Qed.

Lemma on_desk_keeps f u : keeps (desk u) (f (desk u)) → ui_keeps u (on_desk f u).
Proof. done. Qed.

Lemma on_pins_keeps f u : (pins_ok (u_pins u) → pins_ok (f (u_pins u))) → ui_keeps u (on_pins f u).
Proof. done. Qed.

Lemma set_clipboard_keeps l u : ui_keeps u (set_clipboard l u).
Proof. done. Qed.

Lemma with_disk_keeps {A} (c : ST (fs D F) A) u r u' : with_disk c u = Ok (r, u') → ui_keeps u u'.
Proof.
  unfold with_disk. destruct (u_disk u) as [s|]; [|by intros [= <- <-]]. destruct (c s) as [[a s']|]; [|done]. cbn [mbind outcome_bind]. by intros [= <- <-].
Qed.

Lemma refresh_keeps u u' : refresh_desktop_icons u = Ok u' → ui_keeps u u'.
Proof.
  unfold refresh_desktop_icons. destruct (with_disk _ u) as [[r u1]|] eqn:E; [|done]. cbn [mbind outcome_bind]. apply with_disk_keeps in E.
  intros [= <-]. etrans; [done|]. destruct r as [[es|]|]; [|done..]. apply on_desk_keeps, sync_fs_icons_keeps.
Qed.

Lemma paste_into_keeps ino u e u' : paste_into fuel ino u = Ok (e, u') → ui_keeps u u'.
Proof.
  unfold paste_into. destruct (fs_clipboard _) as [|c l]; [by intros [= <- <-]|].
  destruct (with_disk _ u) as [[r1 u1]|] eqn:E1; [|done]. cbn [mbind outcome_bind]. apply with_disk_keeps in E1.
  destruct (with_disk _ u1) as [[r2 u2]|] eqn:E2; [|done]. cbn [mbind outcome_bind]. apply with_disk_keeps in E2.
  intros [= H]. etrans; [done|]. etrans; [done|]. destruct r2 as [[es|]|]; injection H as <- <-; [done| |]; apply on_desk_keeps; keep.
Qed.

Lemma copy_icon_keeps ino nm dir u u' : copy_icon ino nm dir u = Ok u' → ui_keeps u u'.
Proof.
  unfold copy_icon. destruct (with_disk _ u) as [[r u1]|] eqn:E; [|done]. cbn [mbind outcome_bind]. apply with_disk_keeps in E.
  intros [= <-]. etrans; [done|]. by destruct r as [[pino|]|].
Qed.

Ltac click_done := intros [= <- <-]; first [solve [apply on_desk_keeps; keep] | solve [apply on_pins_keeps; eauto using toggle_pinned_taskbar_ok, toggle_pinned_file_ok] | done].

Lemma context_item_keeps tsc d kind item u e u' :
  context_item tsc fuel d kind item u = Ok (e, u') → ui_keeps u u'.
Proof.
  unfold context_item. cbv zeta. destruct kind as [|k|id|idx|win pino pp ino nm dir pin ex|win pino pp]; destruct item as [[|[|[|n]]]|]; try click_done.
  - intros [= <- <-]. apply on_desk_keeps, toggle_pinned_desktop_keeps.
  - intros [= <- <-]. apply on_desk_keeps, open_icon_keeps.
  - destruct (icons d !! idx) as [[[] nm x y]|]; click_done.
  - destruct (icons d !! idx) as [[[k id|ino dir] nm x y]|]; [|  |click_done].
    + intros [= <- <-]. apply on_desk_keeps, toggle_pinned_desktop_keeps.
    + destruct (copy_icon ino nm dir u) as [u1|] eqn:E; [|done]. cbn [mbind outcome_bind]. intros [= <- <-]. by eapply copy_icon_keeps.
  - apply paste_into_keeps.
Qed.

Lemma plain_click_keeps tsc shift mx my jc u : ui_keeps u (plain_click tsc shift mx my jc u).2.
Proof.
  unfold plain_click. cbv zeta. set (u1 := on_desk (set_dbl_click_pending None) u).
  assert (ui_keeps u u1) as H by (apply on_desk_keeps; keep). clearbody u1.
  destruct (_ && _); [done|]. destruct (_ && _); [done|].
  destruct (in_start_menu mx my (desk u1)); [etrans; [exact H|apply on_desk_keeps, start_menu_click_keeps]|].
  destruct (in_taskbar my (desk u1)); [etrans; [exact H|apply on_desk_keeps, taskbar_click_keeps]|].
  pose proof (ground_click_keeps tsc mx my shift (dbl_click_pending (desk u)) (u_pins u1) (desk u1)) as Hg.
  destruct (ground_click _ _ _ _ _ _ _) as [spawn d]. etrans; [exact H|]. by apply on_desk_keeps.
Qed.

Lemma left_click_keeps tsc shift mx my u : ui_keeps u (left_click tsc shift mx my u).2.
Proof.
  unfold left_click. pose proof (jumplist_click_keeps tsc mx my (desk u)) as H1. destruct (jumplist_click tsc mx my (desk u)) as [[picked jc] d1]. cbn [snd] in H1.
  destruct picked; [by apply on_desk_keeps|]. change (desk (on_desk (λ _, d1) u)) with d1.
  pose proof (popup_click_keeps mx my d1) as H2. destruct (popup_click mx my d1) as [[used vol] d2]. cbn [snd] in H2.
  assert (ui_keeps u (set_vol vol (on_desk (λ _, d2) (on_desk (λ _, d1) u)))) as H by (destruct vol; split; try done; by etrans).
  destruct used; [done|]. cbv zeta. etrans; [exact H|]. apply plain_click_keeps.
Qed.

Lemma held_stages_keeps mx my u : ui_keeps u (default (held_stages mx my u).2 (held_stages mx my u).1).
Proof.
  unfold held_stages. destruct (drag_window mx my (desk u)) as [d|] eqn:E; [apply on_desk_keeps; by eapply drag_window_keeps|]. clear E. cbv zeta.
  set (u1 := on_desk (drag_taskbar mx) u). assert (ui_keeps u u1) as H by (apply on_desk_keeps, drag_taskbar_keeps). clearbody u1.
  destruct (drag_icon mx my (desk u1)) as [d|] eqn:E; [etrans; [exact H|]; apply on_desk_keeps; by eapply drag_icon_keeps|]. clear E.
  destruct (drag_marquee mx my (desk u1)) as [d|] eqn:E; [etrans; [exact H|]; apply on_desk_keeps; by eapply drag_marquee_keeps|].
  destruct (volume_drag (desk u1)); [|done]. etrans; [exact H|]. split; [|done]. change (keeps (desk u1) (set_dirty true (desk u1))). keep.
Qed.

Lemma after_held_keeps tsc now shift mx my c r rc u e u' : after_held tsc now shift fuel mx my c r rc u = Ok (e, u') → ui_keeps u u'.
Proof.
  unfold after_held. cbv zeta. set (u1 := if r then _ else u). assert (ui_keeps u u1) as H1.
  { unfold u1. destruct r; [|done]. pose proof (release_keeps tsc now mx (desk u) (u_pins u)) as Hk. pose proof (release_pins_ok tsc now mx (desk u) (u_pins u)) as Hp.
    by destruct (release tsc now mx (desk u) (u_pins u)) as [d p]. }
  clearbody u1. set (u2 := if rc then _ else u1). assert (ui_keeps u u2) as H2.
  { etrans; [exact H1|]. unfold u2. destruct rc; [|done]. apply on_desk_keeps, right_click_keeps. }
  clearbody u2. intros H. etrans; [exact H2|]. destruct c; [|by injection H as <- <-].
  destruct (context_menu (desk u2)).
  - unfold context_click in H. apply context_item_keeps in H. etrans; [|exact H]. apply on_desk_keeps. keep.
  - pose proof (left_click_keeps tsc shift mx my u2) as Hl. injection H as H. by rewrite H in Hl.
Qed.

(** Whatever the position and the buttons, a report keeps every window. *)
Lemma update_mouse_keeps tsc now shift mx my buttons u e u' : update_mouse tsc now shift fuel mx my buttons u = Ok (e, u') → ui_keeps u u'.
Proof.
  unfold update_mouse. cbv zeta. set (u1 := on_desk (set_prev_btn buttons) _). assert (ui_keeps u u1) as H1.
  { unfold u1. apply (on_desk_keeps (λ d, set_prev_btn buttons (note_position mx my d))). unfold note_position. keep. }
  clearbody u1. intros H. etrans; [exact H1|]. clear H1.
  destruct (if _ || _ then _ else None) as [d|] eqn:Ed.
  - injection H as <- <-. apply on_desk_keeps. destruct (_ || _); [|done]. by eapply dismiss_prompt_keeps.
  - clear Ed. assert (ui_keeps u1 (default (if Z.testbit buttons 0 then held_stages mx my u1 else (None, u1)).2 (if Z.testbit buttons 0 then held_stages mx my u1 else (None, u1)).1)) as Hh
      by (destruct (Z.testbit buttons 0); [apply held_stages_keeps|done]).
    destruct (if Z.testbit buttons 0 then _ else _) as [[u2|] u3]; cbn [fst snd default] in Hh.
    + by injection H as <- <-.
    + etrans; [exact Hh|]. by eapply after_held_keeps.
Qed.

(** ** Sessions *)

(** What happens to the desktop: mouse reports, and the calls [main.rs] and the drivers of
    windows make between them. *)
Inductive event :=
  | Report (tsc now : Z) (shift : bool) (mx my buttons : Z)
  | NewWindow (tsc : Z) (kind : AppKind) (title : list Z) (x y w h : Z)
  | TerminalWindow (id : Z)
  | PromptKey (c : Z)
  | RenamePrompt (win parent_ino : Z) (old_name : list Z)
  | RefreshIcons
  | TickAnims (tsc tpm : Z)
  | TickMessages (now : Z)
  | RaiseWindow (tsc id : Z)
  | ShowWindow (tsc id : Z)
  | CloseWindow (tsc id : Z)
  | EditCommand (tsc : Z) (arg full : list Z) (count : Z)
  | DropOnDock (ino : Z) (parent name : list Z) (is_dir : bool).

Definition plain (u : ui D F) : outcome (mouse_end * ui D F) := Ok (Returned false, u).

Definition apply_event (ev : event) (u : ui D F) : outcome (mouse_end * ui D F) :=
  match ev with
  | Report tsc now shift mx my buttons => update_mouse tsc now shift fuel mx my buttons u
  | NewWindow tsc kind title x y w h => plain (on_desk (λ d, (add_window tsc kind title x y w h d).1) u)
  | TerminalWindow id => plain (on_desk (set_terminal_window id) u)
  | PromptKey c => plain (on_desk (prompt_on_key c) u)
  | RenamePrompt win ino old => plain (on_desk (begin_rename_fs_pane win ino old) u)
  | RefreshIcons => u ← refresh_desktop_icons u; plain u
  | TickAnims tsc tpm => plain (on_desk (λ d, (tick_anims tsc tpm d).1) u)
  | TickMessages now => plain (on_desk (tick_icon_message now) u)
  | RaiseWindow tsc id => plain (on_desk (raise_window tsc id) u)
  | ShowWindow tsc id => plain (on_desk (on_win id (show tsc)) u)
  | CloseWindow tsc id => plain (on_desk (on_win id (close tsc)) u)
  | EditCommand tsc arg full count => plain (on_desk (edit_command tsc arg full count) u)
  | DropOnDock ino parent name is_dir => plain (on_pins (pin_file ino parent name is_dir) u)
  end.

Definition retitle (t : list Z) (w : Z * AppKind * list Z) : Z * AppKind * list Z :=
  if fst (fst w) =? 3 then (fst w, t) else w.

(** What an event does to the windows there are: [NewWindow] adds one, the [edit] command
    renames the main editor's window or adds one of its own. *)
Definition happen (ev : event) (u : ui D F) (l : list (Z * AppKind * list Z)) : list (Z * AppKind * list Z) :=
  match ev with
  | NewWindow _ kind title _ _ _ _ => l ++ [(next_id (desk u), kind, title)]
  | EditCommand _ arg full _ =>
    if main_free (desk u) then retitle (txt "Editor: " ++ arg) <$> l
    else l ++ [(next_id (desk u), EditorApp, txt "Editor: " ++ trim_slashes full)]
  | _ => l
  end.

(** What the rest of the program changes between events, the disk, the volume, the clipboard
    and the requests it takes, is not a window, the focus or a pin. *)
Definition elsewhere (u u' : ui D F) : Prop :=
  windows (desk u') = windows (desk u) ∧ focused (desk u') = focused (desk u) ∧ next_id (desk u') = next_id (desk u) ∧
  pinned_files (u_pins u') = pinned_files (u_pins u) ∧ pinned_taskbar (u_pins u') = pinned_taskbar (u_pins u).

(** [session u0 l u]: from [u0] to [u], where the windows are to be those of [l]. *)
Inductive session (u0 : ui D F) : list (Z * AppKind * list Z) → ui D F → Prop :=
  | session_start : session u0 [] u0
  | session_step l u ev b u' : session u0 l u → apply_event ev u = Ok (Returned b, u') → session u0 (happen ev u l) u'
  | session_elsewhere l u u' : session u0 l u → elsewhere u u' → session u0 l u'.

Definition is_edit (ev : event) : bool := match ev with EditCommand _ _ _ _ => true | _ => false end.

Lemma other_event_keeps ev u e u' : apply_event ev u = Ok (e, u') → (∀ tsc k t x y w h, ev ≠ NewWindow tsc k t x y w h) →
  is_edit ev = false → ui_keeps u u'.
Proof.
  destruct ev; cbn [apply_event]; intros H Hn He; try done; try (injection H as <- <-).
  - by eapply update_mouse_keeps.
  - exfalso. by eapply Hn.
  - apply on_desk_keeps. unfold set_terminal_window. keep.
  - apply on_desk_keeps, prompt_on_key_keeps.
  - apply on_desk_keeps. unfold begin_rename_fs_pane. keep.
  - destruct (refresh_desktop_icons u) as [u1|] eqn:E; [|done]. cbn [mbind outcome_bind] in H. injection H as <- <-. by apply refresh_keeps.
  - apply (on_desk_keeps (λ d, (tick_anims tsc tpm d).1)), tick_anims_keeps.
  - apply on_desk_keeps, tick_icon_message_keeps.
  - apply on_desk_keeps, raise_window_keeps.
  - apply on_desk_keeps. keep.
  - apply on_desk_keeps. keep.
  - apply on_pins_keeps, pin_file_ok.
Qed.

Definition booted (fb_w fb_h : Z) (snd : sound) (disk : option (fs D F)) : ui D F := mkUi (desktop_new fb_w fb_h) (mkPins [] [] []) snd disk.

(** The windows of [d] are those of [l]; ids are the numbers from 0. *)
Definition desk_ok (d : Desktop) (l : list (Z * AppKind * list Z)) : Prop :=
  idents d ≡ₚ l ∧ ids d ≡ₚ seqZ 0 (len l) ∧ next_id d = len l ∧ focus_ok d.

Lemma desk_ok_keeps d d' l : keeps d d' → desk_ok d l → desk_ok d' l.
Proof.
  intros Hk (Hl & Hi & Hn & Hf). pose proof (keeps_ids _ _ Hk) as Hids. destruct Hk as (H1 & H2 & H3).
  split_and!; [by rewrite H1|by rewrite Hids|congruence|auto].
Qed.

Lemma desk_ok_add tsc kind ttl x y w h d l : desk_ok d l → desk_ok (add_window tsc kind ttl x y w h d).1 (l ++ [(len l, kind, ttl)]).
Proof.
  intros (Hl & Hi & Hn & Hf). unfold desk_ok, idents, ids in *.
  cbn [add_window fst windows set_focused set_windows set_next_id focused next_id]. rewrite !fmap_app, Hl, Hi, Hn.
  assert (len (l ++ [(len l, kind, ttl)]) = len l + 1) as -> by (unfold len; rewrite length_app; simpl; lia). split_and!; [done| |done|].
  - cbn [fmap list_fmap win_id window_new]. rewrite (seqZ_app 0 (len l) 1) by (unfold len; lia). done.
  - intros id [= <-]. unfold ids. cbn [windows set_focused set_windows]. rewrite fmap_app, elem_of_app. right. by apply list_elem_of_singleton.
Qed.

Lemma retitle_absent t (l : list Window) : 3 ∉ win_id <$> l → retitle t <$> (ident <$> l) = ident <$> l.
Proof.
  induction l as [|w l IH]; [done|]. rewrite fmap_cons, not_elem_of_cons. intros [Hw Hl]. rewrite !fmap_cons, IH by done. f_equal.
  unfold retitle, ident. cbn. by rewrite (proj2 (Z.eqb_neq _ _)) by done.
Qed.

Lemma update_win_retitle t (l : list Window) : NoDup (win_id <$> l) → ident <$> update_win 3 (set_title t) l = retitle t <$> (ident <$> l).
Proof.
  induction l as [|w l IH]; [done|]. rewrite fmap_cons, NoDup_cons. intros [Hw Hl]. cbn [update_win]. destruct (Z.eqb_spec (win_id w) 3) as [E|E].
  - rewrite !fmap_cons, retitle_absent by (by rewrite <- E). f_equal. unfold retitle, ident. cbn. by rewrite E.
  - rewrite !fmap_cons, IH by done. f_equal. unfold retitle, ident. cbn. by rewrite (proj2 (Z.eqb_neq _ _)) by done.
Qed.

Lemma desk_ok_retitle t d l : desk_ok d l → desk_ok (on_win 3 (set_title t) d) (retitle t <$> l).
Proof.
  intros (Hl & Hi & Hn & Hf). assert (NoDup (win_id <$> windows d)) as Hnd by (fold (ids d); rewrite Hi; apply NoDup_seqZ).
  pose proof (update_win_retitle t (windows d) Hnd) as Hu.
  assert (ids (on_win 3 (set_title t) d) = ids d) as Hids.
  { rewrite !ids_idents. unfold idents, on_win. cbn [windows set_windows]. rewrite Hu, <- list_fmap_compose. apply list_fmap_ext.
    intros _ [[a b] c] _. unfold retitle. cbn. by destruct (a =? 3). }
  assert (len (retitle t <$> l) = len l) as El by (unfold len; by rewrite length_fmap).
  unfold desk_ok. rewrite El, Hids. split_and!; [|done|done|].
  - unfold idents, on_win. cbn [windows set_windows]. rewrite Hu. by apply fmap_Permutation.
  - intros id Hid. rewrite Hids. by apply Hf.
Qed.

(** The [edit] command: the main window renamed, or a new one. *)
Lemma desk_ok_edit tsc arg full count d l : desk_ok d l → desk_ok (edit_command tsc arg full count d)
  (if main_free d then retitle (txt "Editor: " ++ arg) <$> l else l ++ [(next_id d, EditorApp, txt "Editor: " ++ trim_slashes full)]).
Proof.
  intros Hd. unfold edit_command, open_smart. destruct (main_free d) eqn:Ef.
  - cbn [Z.eqb Pos.eqb]. apply desk_ok_retitle. apply (desk_ok_keeps (raise_window tsc 3 d)); [by apply (keeps_then _ (raise_window tsc 3 d))|].
    by apply (desk_ok_keeps d); [apply raise_window_keeps|].
  - assert (next_id d ≠ 3) as Hne.
    { intros E. unfold main_free in Ef. destruct (find_win 3 (windows d)) as [w|] eqn:Ew; [|done]. unfold find_win in Ew.
      destruct (list_find _ _) as [[k v]|] eqn:El; [|done]. apply list_find_Some in El as (Hk & Hv & _).
      destruct Hd as (_ & Hi & Hn & _). assert (3 ∈ ids d) as Hin.
      { unfold ids. apply list_elem_of_fmap. exists v. split; [done|]. by apply list_elem_of_lookup_2 in Hk. }
      rewrite Hi, elem_of_seqZ in Hin. lia. }
    unfold spawn_editor. cbn [add_window]. rewrite (proj2 (Z.eqb_neq _ _) Hne).
    apply (desk_ok_keeps (add_window tsc EditorApp (txt "Editor: " ++ trim_slashes full) (140 + (count + 1) * 24) (60 + (count + 1) * 24) 580 380 d).1).
    + eapply keeps_then; [|done..]. etrans; [|apply raise_window_keeps]. by eapply keeps_then.
    + pose proof (desk_ok_add tsc EditorApp (txt "Editor: " ++ trim_slashes full) (140 + (count + 1) * 24) (60 + (count + 1) * 24) 580 380 d l Hd) as Ha.
      rewrite <- (proj1 (proj2 (proj2 Hd))) in Ha. exact Ha.
Qed.

(** C16: over any session, of mouse reports at any position and any button, keys,
    animations, icon refreshes, windows opened, raised and closed by the programs, the
    terminal's [edit] command, and any change to the disk, the clipboard or a request
    taken in between: the windows are exactly those created, in some order, with their
    ids and programs, and with the titles they were created with, or, for the main
    editor's window, that [edit] last gave it; ids are never reused; the focus is never
    on a window that does not exist; and nothing is pinned twice. *)
Theorem session_invariant fb_w fb_h snd disk l u : session (booted fb_w fb_h snd disk) l u →
  idents (desk u) ≡ₚ l ∧ ids (desk u) ≡ₚ seqZ 0 (len l) ∧ next_id (desk u) = len l ∧ focus_ok (desk u) ∧ pins_ok (u_pins u).
Proof.
  intros Hs. enough (desk_ok (desk u) l ∧ pins_ok (u_pins u)) as [(? & ? & ? & ?) ?] by done.
  induction Hs as [|l u ev b u' Hs [Hd Hp] He|l u u' Hs [Hd Hp] (E1 & E2 & E3 & E4 & E5)].
  - split; [split_and!; try done; by intros ?|split; constructor].
  - destruct ev as [|tsc kind ttl x y w h| | | | | | | | | |tsc arg full count|];
      try (match goal with H : apply_event ?e u = Ok _ |- _ => idtac end; cbn [happen];
           destruct (other_event_keeps _ _ _ _ He ltac:(done) eq_refl) as [Hk Hk2]; split; [by eapply desk_ok_keeps|by apply Hk2]).
    + cbn [apply_event happen] in *. injection He as <- <-. cbn [desk on_desk u_pins]. split; [|done].
      pose proof (desk_ok_add tsc kind ttl x y w h _ _ Hd) as Ha. rewrite <- (proj1 (proj2 (proj2 Hd))) in Ha. exact Ha.
    + cbn [apply_event happen] in *. injection He as <- <-. cbn [desk on_desk u_pins]. split; [by apply desk_ok_edit|done].
  - split.
    + unfold desk_ok, idents, ids, focus_ok in *. unfold ids in *. by rewrite E1, E2, E3.
    + unfold pins_ok in *. by rewrite E4, E5.
Qed.

(** A session run to its end, if nothing stops it. *)
Fixpoint run (evs : list event) (l : list (Z * AppKind * list Z)) (u : ui D F) : option (list (Z * AppKind * list Z) * ui D F) :=
  match evs with
  | [] => Some (l, u)
  | ev :: evs => match apply_event ev u with Ok (Returned _, u') => run evs (happen ev u l) u' | _ => None end
  end.

Lemma run_session u0 evs : ∀ l u l' u', session u0 l u → run evs l u = Some (l', u') → session u0 l' u'.
Proof.
  induction evs as [|ev evs IH]; intros l u l' u' Hs; cbn [run]; [by intros [= <- <-]|].
  destruct (apply_event ev u) as [[[b| | |] u1]|] eqn:E; try done. apply IH. by eapply session_step.
Qed.
End session.

(** Four windows, two of them overlapping; a click on the lower one raises it; then the main
    editor's window is closed and taken for another file. *)
Definition four_windows : list event :=
  [NewWindow 0 Terminal (txt "Terminal") 600 400 100 100; NewWindow 0 Files (txt "Files") 100 100 400 300;
   NewWindow 0 Sysmon (txt "Sysmon") 200 150 300 200; NewWindow 0 EditorApp (txt "Editor") 700 500 100 100;
   Report 7 0 false 120 200 1; CloseWindow 8 3; TickAnims 100000 1; EditCommand 9 (txt "a.c") (txt "/a.c") 0; EditCommand 9 (txt "b.c") (txt "/b.c") 0].

Definition demo_start : ui ram_disk pmm := booted 1280 720 (mkSound 100 None) None.

Lemma session_invariant_witness : ∃ l u,
  session 0 demo_start l u ∧ ids (desk u) = [0; 2; 1; 3; 4] ∧
  idents (desk u) ≡ₚ [(0, Terminal, txt "Terminal"); (1, Files, txt "Files"); (2, Sysmon, txt "Sysmon"); (3, EditorApp, txt "Editor: a.c");
                       (4, EditorApp, txt "Editor: b.c")].
Proof.
  destruct (run 0 four_windows [] demo_start) as [[l u]|] eqn:E; [|vm_compute in E; discriminate].
  assert (session 0 demo_start l u) as Hs by (eapply run_session; [constructor|exact E]).
  exists l, u. destruct (session_invariant 0 1280 720 (mkSound 100 None) None l u Hs) as (Hl & _).
  vm_compute in E. injection E as <- <-. split; [exact Hs|]. split; [reflexivity|exact Hl].
Defined.
