(* ===== verification/DesktopSpec.v ===== *)
(** What the desktop's operations do: which window a click reaches, how the taskbar
    groups windows, where dragged windows and icons end up, and what the indices kept by
    prompts and selections come to mean after the icons change. *)

From stdpp Require Import prelude list numbers strings.
From S2P Require Import Prelude Text Pmm Memory Hepfs Elf Display Media Desktop Mouse MouseSpec.

Local Open Scope Z_scope.

(** ** The window under a click *)

Definition hit (w : Window) (mx my : Z) : bool := negb (minimized w) && chrome_hit w mx my.

Lemma find_top_some p l w : find_top p l = Some w → ∃ pre post, l = pre ++ w :: post ∧ p w = true ∧ Forall (λ v, p v = false) post.
Proof.
  unfold find_top. destruct (list_find p (reverse l)) as [[i x]|] eqn:E; [|done]. intros [= ->]. apply list_find_Some in E as (Hi & Hp & Hlt).
  exists (reverse (drop (S i) (reverse l))), (reverse (take i (reverse l))). split_and!.
  - rewrite <- (reverse_involutive l) at 1. rewrite <- (take_drop_middle _ _ _ Hi) at 1. rewrite reverse_app, reverse_cons. by rewrite <- (assoc_L (++)).
  - by destruct (p w).
  - apply Forall_reverse, Forall_forall. intros v Hv. apply list_elem_of_lookup in Hv as [j Hj]. apply lookup_take_Some in Hj as [Hj Hji].
    specialize (Hlt j v Hj Hji). by destruct (p v).
Qed.

Lemma find_top_none p l : find_top p l = None → Forall (λ v, p v = false) l.
Proof.
  unfold find_top. intros E. destruct (list_find p (reverse l)) as [[i x]|] eqn:E'; [done|]. apply list_find_None in E'.
  rewrite <- (reverse_involutive l). apply Forall_reverse. eapply Forall_impl; [exact E'|]. intros v Hv. cbv beta in Hv. destruct (p v); [by destruct Hv|done].
Qed.

(** Updating and finding in a list whose other ids differ. *)
Lemma update_win_notin id f l : id ∉ (win_id <$> l) → update_win id f l = l.
Proof.
  induction l as [|w l IH]; intros H; [done|]. cbn [fmap list_fmap] in H. apply not_elem_of_cons in H as [H1 H2]. cbn [update_win].
  rewrite (proj2 (Z.eqb_neq _ _)) by done. by rewrite IH.
Qed.

Lemma update_win_last f l w : win_id w ∉ (win_id <$> l) → update_win (win_id w) f (l ++ [w]) = l ++ [f w].
Proof.
  induction l as [|v l IH]; intros H; cbn [app update_win]; [by rewrite Z.eqb_refl|]. cbn [fmap list_fmap] in H. apply not_elem_of_cons in H as [H1 H2].
  rewrite (proj2 (Z.eqb_neq _ _)) by done. by rewrite IH.
Qed.

Lemma list_find_id pre w post : win_id w ∉ (win_id <$> pre) → list_find (λ v, win_id v = win_id w) (pre ++ w :: post) = Some (length pre, w).
Proof.
  intros H. apply list_find_Some. split_and!; [by apply list_lookup_middle|done|]. intros j v Hj Hlt. rewrite lookup_app_l in Hj by done.
  intros E. apply H. rewrite <- E. apply list_elem_of_fmap_2. by eapply list_elem_of_lookup_2.
Qed.

Lemma find_win_last l w : win_id w ∉ (win_id <$> l) → find_win (win_id w) (l ++ [w]) = Some w.
Proof. intros H. unfold find_win. by rewrite list_find_id. Qed.

Lemma bring_to_front_at d pre w post : windows d = pre ++ w :: post → win_id w ∉ (win_id <$> pre) →
  windows (bring_to_front (win_id w) d) = (pre ++ post) ++ [w] ∧ focused (bring_to_front (win_id w) d) = Some (win_id w).
Proof.
  intros E H. unfold bring_to_front. rewrite E, list_find_id by done. split; [|done]. cbn [windows set_focused set_windows]. f_equal.
  unfold remove_nth. rewrite take_app_length, drop_app_ge by lia. by replace (S (length pre) - length pre)%nat with 1%nat by lia.
Qed.

(** A click on the front window changes that window at most, and keeps the focus there
    unless the click closed or minimized it. *)
Lemma window_click_front tsc mx my pd d l w : windows d = l ++ [w] → win_id w ∉ (win_id <$> l) → focused d = Some (win_id w) →
  ∃ w', windows (window_click tsc mx my (win_id w) pd d).2 = l ++ [w'] ∧ ident w' = ident w ∧
    (focused (window_click tsc mx my (win_id w) pd d).2 = Some (win_id w) ∨
     focused (window_click tsc mx my (win_id w) pd d).2 = None ∧ (close_hit w mx my || minimize_hit w mx my = true)).
Proof.
  intros E H Hf. unfold window_click. rewrite E, find_win_last by done.
  assert (∀ f d1, windows d1 = windows d → (∀ v, ident (f v) = ident v) → windows (on_win (win_id w) f d1) = l ++ [f w] ∧ ident (f w) = ident w) as Hon.
  { intros f d1 Ew Hi. split; [|done]. cbn [on_win windows set_windows]. by rewrite Ew, E, update_win_last. }
  destruct (close_hit w mx my); [|destruct (minimize_hit w mx my); [|destruct (newterm_hit w mx my); [by exists w; auto|]]].
  - exists (close tsc w). destruct (Hon (close tsc) d eq_refl) as [H1 H2]; [auto with idents|]. cbn [snd windows focused set_focused]. auto.
  - exists (hide tsc w). destruct (Hon (hide tsc) d eq_refl) as [H1 H2]; [auto with idents|]. cbn [snd windows focused set_focused]. auto.
  - destruct (maximize_hit w mx my); [|destruct (maximized w); [destruct (title_hit w mx my)|cbv zeta; destruct (negb _); [|destruct (title_hit w mx my); [destruct (bool_decide _)|]]]];
      cbn [snd]; try (exists w; by auto);
      match goal with |- context[on_win _ ?f ?d1] => exists (f w); destruct (Hon f d1 eq_refl) as [H1 H2]; [auto with idents|]; split_and!; [exact H1|exact H2|by left] end.
Qed.

Lemma dock_click_windows mx my p d d' : dock_click mx my p d = Some d' → windows d' = windows d ∧ focused d' = focused d.
Proof.
  unfold dock_click. destruct (_ && _); [|done]. cbv zeta. destruct (pinned_files p !! _) as [[[[ino pp] nm] dir]|]; [|done]. cbn [mbind option_bind].
  destruct (dock_item_rect _) as [[[a y] b] h]. destruct (_ && _); [|done]. intros [= <-]. by destruct d.
Qed.

Lemma desktop_click_windows shift mx my d : windows (desktop_click shift mx my d) = windows d ∧ focused (desktop_click shift mx my d) = focused d.
Proof.
  unfold desktop_click. destruct (icon_at d mx my) as [i|]; [|by destruct shift, d]. destruct shift; [by destruct d|]. cbv zeta.
  destruct (nat_mem i (icon_selected d)); [by destruct (icons d !! i), d|]. by destruct (icons (set_icon_selected [i] d) !! i), d.
Qed.

(** a left click that no menu, popup or taskbar takes goes to the topmost window on
    screen at that point, title bar and resize border included: that window, and no
    other, is changed and comes to the front with the focus (or loses it, when its close
    or minimize button was hit), the rest keep their order. Where there is no window,
    neither the windows nor the focus change. *)
Theorem click_reaches_topmost tsc mx my shift pd p d : NoDup (ids d) →
  (∃ pre w post w', windows d = pre ++ w :: post ∧ hit w mx my = true ∧ Forall (λ v, hit v mx my = false) post ∧
     windows (ground_click tsc mx my shift pd p d).2 = pre ++ post ++ [w'] ∧ ident w' = ident w ∧
     (focused (ground_click tsc mx my shift pd p d).2 = Some (win_id w) ∨
      focused (ground_click tsc mx my shift pd p d).2 = None ∧ close_hit w mx my || minimize_hit w mx my = true)) ∨
  (Forall (λ v, hit v mx my = false) (windows d) ∧ windows (ground_click tsc mx my shift pd p d).2 = windows d ∧
   focused (ground_click tsc mx my shift pd p d).2 = focused d).
Proof.
  intros Hnd. assert (windows (close_start_menu tsc d) = windows d ∧ focused (close_start_menu tsc d) = focused d) as [Ew Ef]
    by (unfold close_start_menu; by destruct (start_menu_open d)).
  unfold ground_click. cbv zeta. unfold topmost_window_id_at. rewrite Ew. destruct (find_top _ (windows d)) as [w|] eqn:E; cbn [fmap option_fmap option_map].
  - left. apply find_top_some in E as (pre & post & E & Hh & Hpost).
    assert (win_id w ∉ (win_id <$> pre ++ post)) as Hw.
    { unfold ids in Hnd. rewrite E, fmap_app, fmap_cons, <- Permutation_middle in Hnd. apply NoDup_cons in Hnd as [Hnd _]. by rewrite fmap_app. }
    assert (win_id w ∉ (win_id <$> pre)) as Hw' by (rewrite fmap_app in Hw; set_solver).
    destruct (bring_to_front_at (close_start_menu tsc d) pre w post) as [H1 H2]; [by rewrite Ew|done|].
    destruct (window_click_front tsc mx my pd (set_dirty true (bring_to_front (win_id w) (close_start_menu tsc d))) (pre ++ post) w H1 Hw H2) as (w' & H3 & H4 & H5).
    exists pre, w, post, w'. split_and!; try done. by rewrite H3, <- (assoc_L (++)).
  - right. split; [by apply find_top_none|]. cbn [snd]. 
    destruct (dock_click mx my p (close_start_menu tsc d)) as [d'|] eqn:Ed.
    + apply dock_click_windows in Ed as [-> ->]. done.
    + destruct (desktop_click_windows shift mx my (close_start_menu tsc d)) as [-> ->]. done.
Qed.

Definition two_open : Desktop :=
  let d := (add_window 0 EditorApp (txt "Editor") 100 100 400 300 (desktop_new 1280 720)).1 in
  (add_window 0 Files (txt "Files") 200 150 300 200 d).1.

Lemma click_reaches_topmost_witness : NoDup (ids two_open) ∧ ∃ pre w post w', windows two_open = pre ++ w :: post ∧ hit w 120 200 = true ∧
  windows (ground_click 7 120 200 false None (mkPins [] [] []) two_open).2 = pre ++ post ++ [w'] ∧ ident w' = ident w.
Proof.
  assert (NoDup (ids two_open)) as Hnd by (vm_compute; repeat constructor; set_solver).
  split; [done|]. destruct (click_reaches_topmost 7 120 200 false None (mkPins [] [] []) two_open Hnd) as [(pre & w & post & w' & H1 & H2 & _ & H3 & H4 & _)|[H _]].
  - exists pre, w, post, w'. done.
  - exfalso. apply Forall_cons in H as [H _]. vm_compute in H. discriminate.
Defined.

(** ** The taskbar *)

(** The kinds of [l], each once, in order of first appearance. *)
Definition first_kinds (l : list Window) : list AppKind :=
  fold_left (λ ks w, if decide (app_kind w ∈ ks) then ks else ks ++ [app_kind w]) l [].

Definition ids_of (k : AppKind) (l : list Window) : list Z := win_id <$> filter (λ w, app_kind w = k) l.

Lemma kind_eqb_spec a b : kind_eqb a b = bool_decide (a = b).
Proof. done. Qed.

Lemma first_kinds_snoc l w : first_kinds (l ++ [w]) = if decide (app_kind w ∈ first_kinds l) then first_kinds l else first_kinds l ++ [app_kind w].
Proof. unfold first_kinds. by rewrite fold_left_app. Qed.

Lemma first_kinds_NoDup l : NoDup (first_kinds l).
Proof.
  induction l as [|w l IH] using rev_ind; [constructor|]. rewrite first_kinds_snoc. case_decide; [done|]. by apply NoDup_snoc.
Qed.

Lemma elem_of_first_kinds k l : k ∈ first_kinds l ↔ ∃ w, w ∈ l ∧ app_kind w = k.
Proof.
  induction l as [|w l IH] using rev_ind; [split; [by intros ?%elem_of_nil|intros (w & ?%elem_of_nil & _); done]|].
  rewrite first_kinds_snoc. case_decide as H.
  - rewrite IH. split; [intros (v & Hv & <-); exists v; set_solver|]. intros (v & [Hv|Hv%list_elem_of_singleton]%elem_of_app & E); [by exists v|].
    subst v. by apply IH; rewrite <- E.
  - rewrite elem_of_app, IH, list_elem_of_singleton. split.
    + intros [(v & Hv & <-)| ->]; [exists v|exists w]; set_solver.
    + intros (v & [Hv|Hv%list_elem_of_singleton]%elem_of_app & E); [left; by exists v|right; congruence].
Qed.

(** An association list that maps the keys [ks] by [f]. *)
Definition table {V} (f : AppKind → V) (ks : list AppKind) : list (AppKind * V) := (λ k, (k, f k)) <$> ks.

Lemma table_cons {V} (f : AppKind → V) k ks : table f (k :: ks) = (k, f k) :: table f ks.
Proof. done. Qed.

Lemma table_ext {V} (f g : AppKind → V) ks : (∀ k, k ∈ ks → f k = g k) → table f ks = table g ks.
Proof. intros H. apply list_fmap_ext. intros i k Hk. f_equal. apply H. by eapply list_elem_of_lookup_2. Qed.

Lemma add_to_group_table w f ks : NoDup ks →
  add_to_group w (table f ks) =
    if decide (app_kind w ∈ ks) then table (λ k, if decide (k = app_kind w) then f k ++ [win_id w] else f k) ks
    else table f ks ++ [(app_kind w, [win_id w])].
Proof.
  induction 1 as [|k ks Hk Hks IH]; [done|]. rewrite table_cons. cbn [add_to_group]. rewrite kind_eqb_spec.
  destruct (decide (k = app_kind w)) as [->|Hne]; [rewrite bool_decide_true by done|rewrite bool_decide_false by done].
  - rewrite decide_True by by left. rewrite table_cons, decide_True by done. f_equal. apply table_ext. intros k' Hk'. rewrite decide_False; [done|]. by intros ->.
  - rewrite IH. destruct (decide (app_kind w ∈ ks)) as [Hin|Hin].
    + rewrite decide_True by by right. rewrite table_cons. by rewrite (decide_False (P := k = app_kind w)).
    + rewrite decide_False; [done|]. by intros [?|?]%elem_of_cons.
Qed.

Lemma group_by_kind_table l : group_by_kind l = table (λ k, ids_of k l) (first_kinds l).
Proof.
  induction l as [|w l IH] using rev_ind; [done|]. unfold group_by_kind in *. rewrite fold_left_app, IH. cbn [fold_left].
  rewrite add_to_group_table, first_kinds_snoc by apply first_kinds_NoDup. unfold ids_of. case_decide as Hin.
  - apply table_ext. intros k Hk. rewrite filter_app, filter_cons, filter_nil. case_decide as E.
    + rewrite decide_True by done. by rewrite fmap_app.
    + rewrite decide_False by congruence. by rewrite app_nil_r.
  - unfold table at 2. rewrite fmap_app. f_equal.
    + apply table_ext. intros k Hk. rewrite filter_app, filter_cons, filter_nil, decide_False by congruence. by rewrite app_nil_r.
    + cbn [fmap list_fmap]. rewrite filter_app, filter_cons, filter_nil, decide_True by done. rewrite fmap_app. cbn [fmap list_fmap].
      assert (filter (λ v, app_kind v = app_kind w) l = []) as ->; [|done].
      destruct (filter _ l) as [|v r] eqn:Ef; [done|]. exfalso. assert (v ∈ filter (λ v, app_kind v = app_kind w) l) as Hv by (rewrite Ef; by left).
      apply list_elem_of_filter in Hv as [E Hv]. apply Hin, elem_of_first_kinds. by exists v.
Qed.

Lemma merge_group_table g f ks : NoDup ks →
  merge_group g (table f ks) =
    if decide (g.1 ∈ ks) then table (λ k, if decide (k = g.1) then g.2 else f k) ks else table f ks ++ [g].
Proof.
  induction 1 as [|k ks Hk Hks IH]; [done|]. rewrite table_cons. cbn [merge_group fst]. rewrite kind_eqb_spec.
  destruct (decide (k = g.1)) as [->|Hne]; [rewrite bool_decide_true by done|rewrite bool_decide_false by done].
  - rewrite decide_True by by left. rewrite table_cons, decide_True by done. f_equal. apply table_ext. intros k' Hk'. rewrite decide_False; [done|]. by intros ->.
  - rewrite IH. destruct (decide (g.1 ∈ ks)) as [Hin|Hin].
    + rewrite decide_True by by right. rewrite table_cons. by rewrite (decide_False (P := k = g.1)).
    + rewrite decide_False; [done|]. by intros [?|?]%elem_of_cons.
Qed.

(** The windows that have a taskbar button. *)
Definition shown (d : Desktop) : list Window := List.filter ever_shown (windows d).

(** The pinned programs in their order, then the others as they first appear. *)
Definition taskbar_kinds (d : Desktop) (p : pins) : list AppKind :=
  pinned_taskbar p ++ filter (λ k, k ∉ pinned_taskbar p) (first_kinds (shown d)).

Lemma merge_table h gs : ∀ f ks, NoDup ks → NoDup gs →
  fold_left (λ es g, merge_group g es) (table h gs) (table f ks) =
    table (λ k, if decide (k ∈ gs) then h k else f k) (ks ++ filter (λ k, k ∉ ks) gs).
Proof.
  induction gs as [|g gs IH]; intros f ks Hks Hgs.
  - cbn [table fmap list_fmap fold_left]. rewrite app_nil_r. apply table_ext. intros k _. by rewrite decide_False by apply not_elem_of_nil.
  - apply NoDup_cons in Hgs as [Hg Hgs]. rewrite table_cons. cbn [fold_left]. rewrite merge_group_table by done. cbn [fst snd].
    rewrite filter_cons. destruct (decide (g ∈ ks)) as [Hin|Hin].
    + rewrite decide_False by (intros H; by apply H). rewrite IH by done. apply table_ext. intros k Hk.
      destruct (decide (k ∈ gs)) as [H|H]; [by rewrite decide_True by by right|]. destruct (decide (k = g)) as [->|Hne].
      * by rewrite decide_True by by left.
      * rewrite decide_False; [done|]. by intros [?|?]%elem_of_cons.
    + rewrite decide_True by done.
      match goal with |- fold_left _ _ ?x = _ => assert (x = table (λ k, if decide (k = g) then h g else f k) (ks ++ [g])) as -> end.
      { unfold table at 2. rewrite fmap_app. cbn [fmap list_fmap]. rewrite decide_True by done. f_equal. apply table_ext. intros k Hk. rewrite decide_False; [done|]. by intros ->. }
      rewrite IH; [|by apply NoDup_snoc|done]. rewrite <- (assoc_L (++)). cbn [app].
      assert (filter (λ k, k ∉ ks ++ [g]) gs = filter (λ k, k ∉ ks) gs) as ->.
      { revert Hg. clear. induction gs as [|k gs IH]; intros Hg; [done|]. apply not_elem_of_cons in Hg as [Hk Hg]. rewrite !filter_cons, (IH Hg).
        destruct (decide (k ∉ ks)) as [H|H]; [rewrite decide_True; [done|]|rewrite decide_False; [done|]].
        - intros [?|?%list_elem_of_singleton]%elem_of_app; [done|congruence].
        - intros H'. apply H'. apply elem_of_app. left. destruct (decide (k ∈ ks)); [done|]. by destruct H. }
      apply table_ext. intros k Hk. destruct (decide (k ∈ gs)) as [H|H]; [by rewrite decide_True by by right|]. destruct (decide (k = g)) as [->|Hne].
      * by rewrite decide_True by by left.
      * rewrite decide_False; [done|]. by intros [?|?]%elem_of_cons.
Qed.

Lemma ids_of_none k l : k ∉ first_kinds l → ids_of k l = [].
Proof.
  intros H. unfold ids_of. destruct (filter _ l) as [|v r] eqn:E; [done|]. exfalso. assert (v ∈ filter (λ w, app_kind w = k) l) as Hv by (rewrite E; by left).
  apply list_elem_of_filter in Hv as [Ek Hv]. apply H, elem_of_first_kinds. by exists v.
Qed.

(** the taskbar is the reference list: the pinned programs in their order, then every
    other program with a window that has been shown, by first appearance; each once, and
    each with all of its shown windows, minimized or not, in stacking order. *)
Theorem taskbar_entries_reference d p : NoDup (pinned_taskbar p) →
  taskbar_entries d p = table (λ k, ids_of k (shown d)) (taskbar_kinds d p) ∧ NoDup (taskbar_kinds d p).
Proof.
  intros Hp. split.
  - unfold taskbar_entries, grouped_taskbar_entries. fold (shown d). rewrite group_by_kind_table.
    change ((λ k, (k, [])) <$> pinned_taskbar p) with (table (λ _, [] : list Z) (pinned_taskbar p)).
    rewrite merge_table by (done || apply first_kinds_NoDup). apply table_ext. intros k _. case_decide; [done|]. by rewrite ids_of_none.
  - unfold taskbar_kinds. apply NoDup_app. split_and!; [done| |apply NoDup_filter, first_kinds_NoDup].
    by intros k Hk [Hk' _]%list_elem_of_filter.
Qed.

Definition demo_pins : pins := mkPins [] [Terminal; Files] [].

Lemma taskbar_entries_reference_witness : NoDup (pinned_taskbar demo_pins) ∧ taskbar_entries two_open demo_pins = [(Terminal, []); (Files, [1]); (EditorApp, [0])].
Proof.
  assert (NoDup (pinned_taskbar demo_pins)) as Hp by (vm_compute; repeat constructor; set_solver).
  split; [done|]. rewrite (proj1 (taskbar_entries_reference two_open demo_pins Hp)). vm_compute. reflexivity.
Defined.

(** ** Where things end up *)

(** Maximizing and restoring gives the window its old rectangle back. *)
Lemma maximize_restores t1 t2 sw sh w : maximized w = false → win_rect (toggle_maximize t2 sw sh (toggle_maximize t1 sw sh w)) = win_rect w.
Proof. intros H. unfold toggle_maximize at 2. rewrite H. by destruct w. Qed.

(** A dragged window's title bar stays between the top of the screen and the taskbar. *)
Lemma move_drag_reachable fb_w fb_h mx my w : TITLE_H + TASKBAR_H < fb_h →
  TITLE_H ≤ wy (move_drag fb_w fb_h mx my w) < fb_h - TASKBAR_H ∧ wx (move_drag fb_w fb_h mx my w) ≤ fb_w - ww w ∧
  (ww w ≤ fb_w → 0 ≤ wx (move_drag fb_w fb_h mx my w)).
Proof. unfold move_drag. cbn [set_wy set_wx wy wx]. lia. Qed.

(** A resized window is never smaller than 120 by 60, if it was not before; the edge
    opposite to a dragged left edge does not move. *)
Lemma resize_drag_bounds mx my w : 120 ≤ ww w → 60 ≤ wh w → 120 ≤ ww (resize_drag mx my w) ∧ 60 ≤ wh (resize_drag mx my w).
Proof.
  intros H1 H2. unfold resize_drag. destruct (resize_orig w) as [[[ox oy] ow] oh].
  repeat destruct (Z.testbit _ _); cbn [set_ww set_wh set_wx ww wh]; lia.
Qed.

(** Icons snap to the grid, at most half a cell away, and snapping again does nothing. *)
Lemma icon_snap_grid x y : ICON_X ≤ x → 16 ≤ y → let '(x', y') := icon_snap x y in
  (∃ col row, x' = ICON_X + col * ICON_COL_W ∧ y' = 16 + row * ICON_ROW_H) ∧ Z.abs (x' - x) ≤ 45 ∧ Z.abs (y' - y) ≤ 40 ∧ icon_snap x' y' = (x', y').
Proof.
  unfold icon_snap, ICON_GRID_ORIGIN_X, ICON_GRID_ORIGIN_Y, ICON_ROW_H, ICON_STRIDE, ICON_COL_W, ICON_X, DOCK_W. intros Hx Hy.
  split_and!; [by eexists _, _|dlia|dlia|]. f_equal; dlia.
Qed.

(** ** Indices that outlive the icons *)

(** Two files on the desktop; the first is being renamed when it is deleted elsewhere. *)
Definition two_files : Desktop := sync_fs_icons [(10, txt "a", false); (11, txt "b", false)] (desktop_new 1280 720).
Definition renaming_a : Desktop := begin_rename 0 6 two_files.
Definition a_deleted : Desktop := sync_fs_icons [(11, txt "b", false)] renaming_a.

(** the prompt of a rename remembers the icon's index, not the file. When the icons
    change while it is open (here the file being renamed is deleted), Enter asks for
    another file to be renamed: a prompt opened on [a] renames [b]. *)
Theorem rename_hits_wrong_icon :
  text_prompt renaming_a = Some (mkPrompt (RenameIcon 6) (txt "a")) ∧ ic_kind <$> icons renaming_a !! 6%nat = Some (FsEntry 10 false) ∧
  prompt_result (prompt_on_key 0x0A (prompt_on_key (Z.of_nat 50) a_deleted)) = Some (Rename (txt "b") (txt "a2")).
Proof. split_and!; vm_compute; reflexivity. Qed.

(** Raising a window whose closing animation runs does not stop it from closing: it has
    the focus and then disappears. *)
Lemma raised_while_closing t1 t2 w : minimized w = false → is_closing (show t2 (hide t1 w)) = true.
Proof. intros H. unfold hide. rewrite H. unfold show, is_closing. cbn. by rewrite H. Qed.
