(* ===== verification/Terminal.v ===== *)
(** The terminal ([kernel/src/terminal.rs]): the screen of cells, the input line with its
    cursor, history, completion, selection, and the commands on files.

    Strings are their UTF-8 bytes; [usize] subtractions wrap, as in the release build.
    The commands of other subsystems (network, processes, devices, sound, windows) are
    recognised but not carried out here: they are a parameter of [execute]. *)

From stdpp Require Import prelude list numbers strings.
From S2P Require Import Prelude Text Pmm Memory Hepfs Elf Editor Display.

Local Open Scope Z_scope.

Definition SCALE : Z := 2.
Definition MAX_COLS : Z := 120.
Definition DEFAULT_COLS : Z := 30.
Definition SCROLLBACK : Z := 200.
Definition CHAR_W : Z := 9 * SCALE + 1.
Definition CHAR_H : Z := 8 * SCALE + 2.

Definition TEXT : Color := from_hex 0xE8E8E8.
Definition DIM : Color := from_hex 0x888888.
Definition TERM_BG : Color := from_hex 0x0C0C0C.
Definition CURSOR : Color := from_hex 0x6C8EFF.
Definition ERR : Color := from_hex 0xFF6B6B.
Definition OK : Color := from_hex 0x6BFF8E.
Definition SELECTION : Color := from_hex 0x264F78.

Definition KEY_UP : Z := 0x80.
Definition KEY_DOWN : Z := 0x81.
Definition KEY_LEFT : Z := 0x82.
Definition KEY_RIGHT : Z := 0x83.

Definition COMMAND_NAMES : list (list Z) :=
  txt <$> ["help"; "clear"; "pwd"; "ls"; "cd"; "cat"; "mkdir"; "touch"; "rm"; "cp"; "mv"; "write"; "edit"; "uname"; "mem"; "date";
   "history"; "lspci"; "netdiag"; "netstart"; "netpoll"; "ifconfig"; "ping"; "wget"; "udp"; "view"; "play"; "shutdown"; "reboot"; "echo";
   "sysinfo"; "syscallinfo"; "runtest"; "runhello"; "runhwtest"; "runmemtest"; "runinputtest"; "runfstest"; "runsvctest"; "exec"; "ps";
   "newterm"; "beep"; "volume"; "sata"; "service"; "kill"].

(** The colours of [editor::highlight_line_kw]'s tokens. *)
Definition tok_color (c : Editor.Color) : Color :=
  match c with
  | Default => TEXT | Keyword => from_hex 0xC792EA | Str => from_hex 0xC3E88D | Num => from_hex 0xF78C6C | Comment => from_hex 0x546E7A
  end.

(** ** Characters of a string *)

(** The code point at the head of a well-formed string, and its width. *)
Definition head_char (s : list Z) : Z * nat :=
  match utf8_width s, s with
  | Some 2%nat, b0 :: b1 :: _ => (Z.lor (Z.shiftl (Z.land b0 0x1F) 6) (Z.land b1 0x3F), 2%nat)
  | Some 3%nat, b0 :: b1 :: b2 :: _ => (Z.lor (Z.lor (Z.shiftl (Z.land b0 0xF) 12) (Z.shiftl (Z.land b1 0x3F) 6)) (Z.land b2 0x3F), 3%nat)
  | Some 4%nat, b0 :: b1 :: b2 :: b3 :: _ =>
    (Z.lor (Z.lor (Z.lor (Z.shiftl (Z.land b0 7) 18) (Z.shiftl (Z.land b1 0x3F) 12)) (Z.shiftl (Z.land b2 0x3F) 6)) (Z.land b3 0x3F), 4%nat)
  | _, b0 :: _ => (b0, 1%nat)
  | _, [] => (0, 1%nat)
  end.

Fixpoint chars_fuel (fuel : nat) (s : list Z) : list Z :=
  match fuel, s with
  | _, [] => []
  | O, _ => []
  | S fuel, s => let '(c, n) := head_char s in c :: chars_fuel fuel (drop n s)
  end.
Definition chars (s : list Z) : list Z := chars_fuel (length s) s.

(** [b as char] encoded: one byte below 0x80, two above. *)
Definition char_bytes (b : Z) : list Z := if b <? 0x80 then [b] else [Z.lor 0xC0 (Z.shiftr b 6); Z.lor 0x80 (Z.land b 0x3F)].

Definition is_boundary (s : list Z) (i : Z) : bool :=
  (i =? 0) || (i =? len s) || match s !! Z.to_nat i with Some b => (0 <=? i) && (i <? len s) && negb (is_cont b) | None => false end.

(** [String::insert] and [String::remove] *)
Definition str_insert (s : list Z) (i b : Z) : outcome (list Z) :=
  if is_boundary s i then Ok (take (Z.to_nat i) s ++ char_bytes b ++ drop (Z.to_nat i) s) else Panic "not a char boundary".
Definition str_remove (s : list Z) (i : Z) : outcome (list Z) :=
  if (i <? len s) && is_boundary s i
  then let w := default 1%nat (utf8_width (drop (Z.to_nat i) s)) in Ok (take (Z.to_nat i) s ++ drop (Z.to_nat i + w) s)
  else Panic "not a char boundary".

(** The width of the white space character a string begins with. *)
Definition ws_head (s : list Z) : option nat :=
  match s with
  | b :: _ =>
    if in_range 9 13 b || (b =? 32) then Some 1%nat
    else match s with b :: c :: _ => if (b =? 0xC2) && ((c =? 0x85) || (c =? 0xA0)) then Some 2%nat else None | _ => None end
  | [] => None
  end.
Fixpoint trim_start_fuel (fuel : nat) (s : list Z) : list Z :=
  match fuel with O => s | S fuel => match ws_head s with Some n => trim_start_fuel fuel (drop n s) | None => s end end.

(** White space at the end of the reversed string: the two bytes come in the other order. *)
Definition ws_last (r : list Z) : option nat :=
  match r with
  | b :: _ =>
    if in_range 9 13 b || (b =? 32) then Some 1%nat
    else match r with c :: b :: _ => if (b =? 0xC2) && ((c =? 0x85) || (c =? 0xA0)) then Some 2%nat else None | _ => None end
  | [] => None
  end.
Fixpoint trim_end_fuel (fuel : nat) (r : list Z) : list Z :=
  match fuel with O => r | S fuel => match ws_last r with Some n => trim_end_fuel fuel (drop n r) | None => r end end.

(** [str::trim], for strings of characters below U+0100. *)
Definition trim (s : list Z) : list Z := reverse (trim_end_fuel (length s) (reverse (trim_start_fuel (length s) s))).

(** [splitn(3, ' ')] *)
Fixpoint split_sp (n : nat) (s : list Z) : list (list Z) :=
  match n with
  | O => [s]
  | S n => match list_find (λ b, b = 32) s with Some (i, _) => take i s :: split_sp n (drop (S i) s) | None => [s] end
  end.

Fixpoint rfind (b : Z) (s : list Z) : option nat :=
  match s with
  | [] => None
  | c :: s => match rfind b s with Some i => Some (S i) | None => if c =? b then Some 0%nat else None end
  end.
Definition trim_slash_end (s : list Z) : list Z := reverse (trim_start 0x2F (reverse s)).

(** ** State *)

Record Cell := mkCell { ch : Z; color : Color }.
Definition blank : Cell := mkCell 0x20 TEXT.
Definition blank_line : list Cell := replicate (Z.to_nat MAX_COLS) blank.

Record Terminal := mkTerminal {
  lines : list (list Cell); cols : Z; col : Z; row : Z; term_dirty : bool; cmd_buf : list Z; cmd_cursor : Z; prompt_row : Z; prompt_col : Z;
  cwd_ino : Z; cwd_path : list Z; history : list (list Z); history_idx : option nat;
  select_anchor : option (Z * Z); select_head : option (Z * Z); render_start : Z; render_rows : Z; win_id : Z }.

Definition eta_terminal (r : Terminal) : Terminal := mkTerminal (lines r) (cols r) (col r) (row r) (term_dirty r) (cmd_buf r) (cmd_cursor r) (prompt_row r) (prompt_col r) (cwd_ino r) (cwd_path r) (history r) (history_idx r) (select_anchor r) (select_head r) (render_start r) (render_rows r) (win_id r).
Definition set_lines (v : list (list Cell)) (r : Terminal) : Terminal := ltac:(upd eta_terminal lines r v).
Definition set_cols (v : Z) (r : Terminal) : Terminal := ltac:(upd eta_terminal cols r v).
Definition set_col (v : Z) (r : Terminal) : Terminal := ltac:(upd eta_terminal col r v).
Definition set_row (v : Z) (r : Terminal) : Terminal := ltac:(upd eta_terminal row r v).
Definition set_term_dirty (v : bool) (r : Terminal) : Terminal := ltac:(upd eta_terminal term_dirty r v).
Definition set_cmd_buf (v : list Z) (r : Terminal) : Terminal := ltac:(upd eta_terminal cmd_buf r v).
Definition set_cmd_cursor (v : Z) (r : Terminal) : Terminal := ltac:(upd eta_terminal cmd_cursor r v).
Definition set_prompt_row (v : Z) (r : Terminal) : Terminal := ltac:(upd eta_terminal prompt_row r v).
Definition set_prompt_col (v : Z) (r : Terminal) : Terminal := ltac:(upd eta_terminal prompt_col r v).
Definition set_cwd_ino (v : Z) (r : Terminal) : Terminal := ltac:(upd eta_terminal cwd_ino r v).
Definition set_cwd_path (v : list Z) (r : Terminal) : Terminal := ltac:(upd eta_terminal cwd_path r v).
Definition set_history (v : list (list Z)) (r : Terminal) : Terminal := ltac:(upd eta_terminal history r v).
Definition set_history_idx (v : option nat) (r : Terminal) : Terminal := ltac:(upd eta_terminal history_idx r v).
Definition set_select_anchor (v : option (Z * Z)) (r : Terminal) : Terminal := ltac:(upd eta_terminal select_anchor r v).
Definition set_select_head (v : option (Z * Z)) (r : Terminal) : Terminal := ltac:(upd eta_terminal select_head r v).
Definition set_render_start (v : Z) (r : Terminal) : Terminal := ltac:(upd eta_terminal render_start r v).
Definition set_render_rows (v : Z) (r : Terminal) : Terminal := ltac:(upd eta_terminal render_rows r v).

(** ** The screen *)

Definition cell_get (r c : Z) (t : Terminal) : outcome Cell := l ← idx (lines t) r; idx l c.
Definition cell_set (r c : Z) (x : Cell) (t : Terminal) : outcome Terminal :=
  l ← idx (lines t) r;
  if bool_decide (0 ≤ c < len l) then Ok (set_lines (<[Z.to_nat r := <[Z.to_nat c := x]> l]> (lines t)) t) else Panic "index out of bounds".

Definition advance_row (t : Terminal) : Terminal :=
  let t := set_row (row t + 1) t in
  if SCROLLBACK <=? row t then set_row (SCROLLBACK - 1) (set_lines (drop 1 (lines t) ++ [blank_line]) t) else t.

Definition put_char (c : Z) (color : Color) (t : Terminal) : outcome Terminal :=
  if c =? 0x0A then Ok (advance_row (set_col 0 t))
  else if c =? 0x0D then Ok (set_col 0 t)
  else if 32 <=? c then
    t ← (if row t <? len (lines t) then cell_set (row t) (col t) (mkCell c color) t else Ok t);
    let t := set_col (u64 (col t + 1)) t in
    Ok (if cols t <=? col t then advance_row (set_col 0 t) else t)
  else Ok t.

Fixpoint put_chars (l : list Z) (color : Color) (t : Terminal) : outcome Terminal :=
  match l with [] => Ok t | c :: l => t ← put_char c color t; put_chars l color t end.

(** [for ch in s.chars() { self.put_char(ch as u8, color) }] *)
Definition print_colored (s : list Z) (color : Color) (t : Terminal) : outcome Terminal :=
  t ← put_chars (u8 <$> chars s) color t; Ok (set_term_dirty true t).
Definition print (s : list Z) : Terminal → outcome Terminal := print_colored s TEXT.

Definition show_prompt (t : Terminal) : outcome Terminal :=
  t ← print_colored (cwd_path t ++ txt " $ ") CURSOR t;
  Ok (set_cmd_cursor 0 (set_prompt_col (col t) (set_prompt_row (row t) t))).

(** [for c in from..to { lines[row][c] = blank }] *)
Fixpoint blank_cells (n : nat) (r c : Z) (t : Terminal) : outcome Terminal :=
  match n with O => Ok t | S n => t ← cell_set r c blank t; blank_cells n r (c + 1) t end.

(** [for i in c..cols - 1 { lines[row][i] = lines[row][i + 1] }] *)
Fixpoint shift_left (n : nat) (r i : Z) (t : Terminal) : outcome Terminal :=
  match n with O => Ok t | S n => x ← cell_get r (i + 1) t; t ← cell_set r i x t; shift_left n r (i + 1) t end.

(** [for i in (c..cols - 1).rev() { lines[row][i + 1] = lines[row][i] }] *)
Fixpoint shift_right (n : nat) (r c : Z) (t : Terminal) : outcome Terminal :=
  match n with
  | O => Ok t
  | S n => x ← cell_get r (c + Z.of_nat n) t; t ← cell_set r (c + Z.of_nat n + 1) x t; shift_right n r c t
  end.

Definition push_typed (b : Z) (t : Terminal) : outcome Terminal :=
  put_char b TEXT (set_cmd_buf (cmd_buf t ++ char_bytes b) t).

Fixpoint push_all (l : list Z) (t : Terminal) : outcome Terminal :=
  match l with [] => Ok t | b :: l => t ← push_typed b t; push_all l (set_cmd_cursor (cmd_cursor t + 1) t) end.

Fixpoint recolor (r c : Z) (l : list Editor.Color) (t : Terminal) : outcome Terminal :=
  match l with
  | [] => Ok t
  | k :: l =>
    if (cols t <=? c) || (len (lines t) <=? r) then Ok t
    else x ← cell_get r c t; t ← cell_set r c (mkCell (ch x) (tok_color k)) t; recolor r (c + 1) l t
  end.

Definition recolor_input (t : Terminal) : outcome Terminal :=
  l ← highlight_line_kw (cmd_buf t) COMMAND_NAMES; recolor (prompt_row t) (prompt_col t) l t.

Definition print_async (msg : list Z) (t : Terminal) : outcome Terminal :=
  let saved := cmd_buf t in
  let saved_cursor := cmd_cursor t in
  t ← blank_cells (Z.to_nat (cols t - prompt_col t)) (prompt_row t) (prompt_col t) t;
  let t := set_col (prompt_col t) t in
  t ← print msg t;
  t ← (if bool_decide (last msg = Some 0x0A) then Ok t else put_char 0x0A TEXT t);
  t ← show_prompt t;
  t ← foldl (λ r b, t ← r; push_typed b t) (Ok t) saved;
  let t := set_cmd_cursor (len saved) t in
  let t := if saved_cursor <? len (cmd_buf t) then set_col (u64 (prompt_col t + saved_cursor)) (set_cmd_cursor saved_cursor t) else t in
  t ← recolor_input t;
  Ok (set_term_dirty true t).

Definition clear_screen (t : Terminal) : Terminal := set_row 0 (set_col 0 (set_lines ((λ _, blank_line) <$> lines t) t)).

Definition terminal_new (id : Z) : outcome Terminal :=
  let t := mkTerminal (replicate (Z.to_nat SCROLLBACK) blank_line) DEFAULT_COLS 0 0 true [] 0 0 0 ROOT_INO (txt "/") [] None None None 0 1 id in
  t ← print_colored (txt "HepOS Terminal v0.1" ++ [0x0A]) OK t;
  t ← print_colored (txt "Type 'help' for commands" ++ [0x0A; 0x0A]) DIM t;
  show_prompt t.

(** ** Selection *)

Definition pos_le (a b : Z * Z) : bool := (a.1 <? b.1) || ((a.1 =? b.1) && (a.2 <=? b.2)).

Definition selection_range (t : Terminal) : option ((Z * Z) * (Z * Z)) :=
  a ← select_anchor t; h ← select_head t;
  if bool_decide (a = h) then None else Some (if pos_le a h then (a, h) else (h, a)).

Definition selection_cols_for_line (line_idx : Z) (t : Terminal) : option (Z * Z) :=
  '(s, e) ← selection_range t;
  if (line_idx <? s.1) || (e.1 <? line_idx) then None
  else
    let start := if line_idx =? s.1 then s.2 else 0 in
    let end_ := if line_idx =? e.1 then e.2 else cols t in
    if end_ <=? start then None else Some (start, end_).

Definition update_selection_anchor (shift : bool) (t : Terminal) : Terminal :=
  if shift then match select_anchor t with None => set_select_anchor (Some (row t, col t)) t | Some _ => t end
  else set_select_head None (set_select_anchor None t).

Definition sync_selection_head (t : Terminal) : Terminal :=
  match select_anchor t with Some _ => set_select_head (Some (row t, col t)) t | None => t end.

Definition clamp_pos (r c : Z) (t : Terminal) : Z * Z := (Z.min r (Z.max (len (lines t) - 1) 0), Z.min c (Z.max (cols t - 1) 0)).

Definition mouse_down (r c : Z) (t : Terminal) : Terminal :=
  set_select_head (Some (clamp_pos r c t)) (set_select_anchor (Some (clamp_pos r c t)) t).

Definition mouse_drag (r c : Z) (t : Terminal) : Terminal :=
  match select_anchor t with Some _ => set_select_head (Some (clamp_pos r c t)) t | None => t end.

Definition hit_test (wx wy ww wh mx my : Z) (t : Terminal) : option (Z * Z) :=
  if (mx <? wx) || (wx + ww <=? mx) || (my <? wy) || (wy + wh <=? my) then None
  else
    let visible_rows := Z.max (render_rows t) 1 in
    let r := Z.min (Z.max (my - wy - 4) 0 / CHAR_H) (visible_rows - 1) in
    Some (Z.min (render_start t + r) (Z.max (len (lines t) - 1) 0), Z.min (Z.max (mx - wx - 4) 0 / CHAR_W) (Z.max (cols t - 1) 0)).

(** [while end > 0 && lines[row][end - 1].ch == ' ' { end -= 1 }] *)
Fixpoint trim_cells (n : nat) (r : Z) (t : Terminal) : outcome Z :=
  match n with
  | O => Ok 0
  | S n' => x ← cell_get r (Z.of_nat n') t; if ch x =? 0x20 then trim_cells n' r t else Ok (Z.of_nat n)
  end.

Definition select_line (r : Z) (t : Terminal) : outcome Terminal :=
  let r := Z.min r (Z.max (len (lines t) - 1) 0) in
  e ← trim_cells (Z.to_nat (cols t)) r t;
  Ok (set_select_head (Some (r, e)) (set_select_anchor (Some (r, 0)) t)).

Fixpoint cells_text (n : nat) (c : Z) (line : list Cell) : outcome (list Z) :=
  match n with O => Ok [] | S n => x ← idx line c; l ← cells_text n (c + 1) line; Ok (ch x :: l) end.

Fixpoint drop_spaces (r : list Z) : list Z := match r with 0x20 :: r => drop_spaces r | _ => r end.
(** [while buf.last() == Some(&b' ') { buf.pop(); }]: also spaces of earlier lines. *)
Definition trim_spaces (buf : list Z) : list Z := reverse (drop_spaces (reverse buf)).

Fixpoint copy_lines (n : nat) (i : Z) (s e : Z * Z) (t : Terminal) (buf : list Z) : outcome (list Z) :=
  match n with
  | O => Ok buf
  | S n =>
    if len (lines t) <=? i then Ok buf
    else
      let cs := if i =? s.1 then s.2 else 0 in
      let ce := if i =? e.1 then e.2 else cols t in
      line ← idx (lines t) i;
      l ← cells_text (Z.to_nat (Z.min ce (cols t) - cs)) cs line;
      let buf := trim_spaces (buf ++ l) in
      copy_lines n (i + 1) s e t (if i =? e.1 then buf else buf ++ [0x0A])
  end.

(** What [copy_selection] puts on the clipboard, if anything. *)
Definition copy_selection (t : Terminal) : outcome (option (list Z)) :=
  match selection_range t with
  | None => Ok None
  | Some (s, e) => l ← copy_lines (Z.to_nat (e.1 - s.1 + 1)) s.1 s e t []; Ok (Some l)
  end.

(** ** Typing *)

(** A printable key or a pasted byte at the cursor, when there is room. *)
Definition insert_key (b : Z) (t : Terminal) : outcome Terminal :=
  if len (cmd_buf t) <? Z.max (cols t - 2) 0 then
    if cmd_cursor t =? len (cmd_buf t) then t ← push_typed b t; Ok (set_cmd_cursor (cmd_cursor t + 1) t)
    else
      buf ← str_insert (cmd_buf t) (cmd_cursor t) b;
      let t := set_cmd_buf buf t in
      t ← shift_right (Z.to_nat (cols t - 1 - col t)) (row t) (col t) t;
      t ← cell_set (row t) (col t) (mkCell b TEXT) t;
      Ok (set_cmd_cursor (cmd_cursor t + 1) (set_col (u64 (col t + 1)) t))
  else Ok t.

Definition backspace (t : Terminal) : outcome Terminal :=
  if 0 <? cmd_cursor t then
    buf ← str_remove (cmd_buf t) (cmd_cursor t - 1);
    let t := set_cmd_cursor (cmd_cursor t - 1) (set_cmd_buf buf t) in
    let t := if 0 <? col t then set_col (col t - 1) t else t in
    t ← shift_left (Z.to_nat (cols t - 1 - col t)) (row t) (col t) t;
    cell_set (row t) (cols t - 1) blank t
  else Ok t.

Definition replace_input (new : list Z) (t : Terminal) : outcome Terminal :=
  let end_ := prompt_col t + len (cmd_buf t) in
  t ← blank_cells (Z.to_nat (Z.min end_ (cols t) - prompt_col t)) (prompt_row t) (prompt_col t) t;
  push_all new (set_cmd_cursor 0 (set_cmd_buf [] (set_col (prompt_col t) t))).

Definition history_prev (t : Terminal) : outcome Terminal :=
  match history t with
  | [] => Ok t
  | _ =>
    let i := match history_idx t with None => (length (history t) - 1)%nat | Some O => O | Some (S i) => i end in
    entry ← v_get (history t) i;
    replace_input entry (set_history_idx (Some i) t)
  end.

Definition history_next (t : Terminal) : outcome Terminal :=
  match history_idx t with
  | None => Ok t
  | Some i =>
    if (length (history t) <=? i + 1)%nat then replace_input [] (set_history_idx None t)
    else entry ← v_get (history t) (i + 1); replace_input entry (set_history_idx (Some (i + 1)%nat) t)
  end.

Definition cursor_left (shift : bool) (t : Terminal) : Terminal :=
  let t := update_selection_anchor shift t in
  sync_selection_head (if 0 <? cmd_cursor t then set_col (u64 (col t - 1)) (set_cmd_cursor (cmd_cursor t - 1) t) else t).

Definition cursor_right (shift : bool) (t : Terminal) : Terminal :=
  let t := update_selection_anchor shift t in
  sync_selection_head (if cmd_cursor t <? len (cmd_buf t) then set_col (u64 (col t + 1)) (set_cmd_cursor (cmd_cursor t + 1) t) else t).

(** ** The shell: a terminal, the clipboard and the mounted disk *)

Section shell.
Context {D F : Type} `{Drive D} `{FrameSource F}.

Record shell := mkShell { term : Terminal; clip : list Z; disk : option (fs D F) }.

Definition set_term (t : Terminal) (s : shell) : shell := mkShell t (clip s) (disk s).
Definition set_clip (l : list Z) (s : shell) : shell := mkShell (term s) l (disk s).
Definition set_disk (d : option (fs D F)) (s : shell) : shell := mkShell (term s) (clip s) d.

Definition on_term (f : Terminal → outcome Terminal) : ST shell unit := λ s, t ← f (term s); Ok (tt, set_term t s).
Definition upd_term (f : Terminal → Terminal) : ST shell unit := on_term (λ t, Ok (f t)).
Definition say (l : list Z) (c : Color) : ST shell unit := on_term (print_colored l c).

Definition with_ctrl {A} (c : ST (fs D F) A) : ST shell A := λ s,
  match disk s with
  | None => Panic "no NVMe controller"
  | Some d => '(a, d) ← c d; Ok (a, set_disk (Some d) s)
  end.

Fixpoint paste_bytes (l : list Z) (t : Terminal) : outcome Terminal :=
  match l with
  | [] => Ok t
  | b :: l => t ← (if (32 <=? b) && (b <? 128) then insert_key b t else Ok t); paste_bytes l t
  end.

Definition paste_clipboard : ST shell unit := λ s,
  t ← paste_bytes (clip s) (term s); t ← recolor_input t; Ok (tt, set_term (set_term_dirty true t) s).

Definition copy_to_clipboard : ST shell unit := λ s,
  o ← copy_selection (term s); Ok (tt, match o with Some l => set_clip l s | None => s end).

(** ** Completion *)

(** The input up to its last space, and the word after it. *)
Definition split_word (partial : list Z) : list Z * list Z :=
  match rfind 0x20 partial with None => ([], partial) | Some pos => (take (S pos) partial, drop (S pos) partial) end.

Definition completions (prefix word : list Z) : ST shell (list (list Z)) :=
  match prefix with
  | [] => mret (filter (λ c, starts_with word c) COMMAND_NAMES)
  | _ =>
    s ← get;
    with_ctrl (l ← list_dir (cwd_ino (term s)); mret (filter (λ n, starts_with word n) (l.*2)))
  end.

Fixpoint say_matches (l : list (list Z)) : ST shell unit :=
  match l with [] => mret tt | m :: l => say m OK ;; say (txt "  ") DIM ;; say_matches l end.

Definition tab_complete : ST shell unit :=
  s ← get;
  let partial := cmd_buf (term s) in
  let '(prefix, word) := split_word partial in
  matches ← completions prefix word;
  match matches with
  | [] => mret tt
  | [m] => on_term (replace_input (prefix ++ m ++ [0x20]))
  | _ =>
    say [0x0A] DIM ;; say_matches matches ;; say [0x0A] DIM ;;
    upd_term (λ t, set_cmd_cursor 0 (set_cmd_buf [] t)) ;;
    on_term show_prompt ;;
    on_term (push_all partial)
  end.

(** ** Commands *)

(** A name relative to the working directory, or an absolute path. *)
Definition resolve (name : list Z) : ST shell (option Z) :=
  if starts_with [0x2F] name then with_ctrl (Hepfs.lookup name)
  else
    s ← get;
    with_ctrl (l ← list_dir (cwd_ino (term s)); mret ((λ r, r.2.1) <$> list_find (λ e, e.2 = name) l)).

(** [if flag { c } ; return]: the guards that print a usage line. *)
Definition usage (l : list Z) : ST shell unit := say (txt "usage: " ++ l ++ [0x0A]) ERR.
Definition nl : list Z := [0x0A].

Fixpoint help_lines (l : list (string * string)) : ST shell unit :=
  match l with
  | [] => mret tt
  | (name, desc) :: l =>
    say (txt "  ") DIM ;; say (txt name) TEXT ;; say (txt " - ") DIM ;; say (txt desc) TEXT ;; say nl TEXT ;; help_lines l
  end.

Definition HELP : list (string * string) := [
  ("help", "this message");
  ("clear", "clear screen");
  ("pwd", "print working directory");
  ("ls [path]", "list directory");
  ("cd <dir>", "change directory");
  ("cat <file>", "print file contents");
  ("mkdir <name>", "create directory");
  ("touch <name>", "create empty file");
  ("rm <name>", "remove file or empty dir");
  ("cp <src> <dst>", "copy file");
  ("mv <src> <dst>", "move/rename file");
  ("write <f> <txt>", "write text to file");
  ("uname", "system info");
  ("mem", "memory usage");
  ("shutdown", "power off (ACPI)");
  ("reboot", "reboot");
  ("echo <text>", "print text");
  ("beep [hz] [ms]", "play tone via HDA audio");
  ("wget <host>[:<port>] [path]", "HTTP GET, resolves DNS (default port 80)");
  ("udp <host>:<port> <msg>", "send a UDP datagram, print any reply (3s timeout)");
  ("view <file.bmp>", "open an uncompressed BMP in the image viewer");
  ("play <file.wav>", "play a 16-bit PCM WAV (48kHz, mono/stereo) via HDA");
  ("ps", "list processes");
  ("service <list|status|start|stop|enable|disable> [name]", "manage driver services (rtl8139d/hdad/ahcid/xhcid)");
  ("kill <pid>", "stop a running driver service by pid")].

Definition cmd_help : ST shell unit := say (txt "Commands:" ++ nl) OK ;; help_lines HELP.
Definition cmd_clear : ST shell unit := upd_term clear_screen.
Definition cmd_pwd : ST shell unit := s ← get; say (cwd_path (term s)) OK ;; say nl TEXT.

Fixpoint ls_entries (l : list (Z * list Z)) : ST shell unit :=
  match l with
  | [] => mret tt
  | (child_ino, name) :: l =>
    '(is_dir, sz) ← with_ctrl (stat child_ino);
    (if (is_dir : bool) then say (name ++ txt "/" ++ nl) CURSOR
     else say name TEXT ;; say (txt "  (" ++ show_dec sz ++ txt " B)" ++ nl) DIM) ;;
    ls_entries l
  end.

Definition cmd_ls (arg1 : list Z) : ST shell unit :=
  s ← get;
  target ← (match arg1 with [] => mret (Some (cwd_ino (term s))) | _ => resolve arg1 end);
  match target with
  | None => say (txt "ls: not found" ++ nl) ERR
  | Some ino =>
    entries ← with_ctrl (list_dir ino);
    (match entries with [] => say (txt "(empty)" ++ nl) DIM | _ => mret tt end) ;;
    ls_entries entries
  end.

(** The path above [p]. *)
Definition parent_path (p : list Z) : list Z :=
  let p := trim_slash_end p in
  match rfind 0x2F p with Some (S i) => take (S i) p | _ => [0x2F] end.

Definition join_path (cwd arg : list Z) : list Z := if beq cwd [0x2F] then [0x2F] ++ arg else cwd ++ [0x2F] ++ arg.

Definition set_cwd (ino : Z) (path : list Z) : ST shell unit := upd_term (λ t, set_cwd_path path (set_cwd_ino ino t)).

Definition cmd_cd (arg1 : list Z) : ST shell unit :=
  s ← get;
  let path := cwd_path (term s) in
  if beq arg1 [0x2F] then set_cwd ROOT_INO [0x2F]
  else if beq arg1 (txt "..") then
    o ← with_ctrl (Hepfs.lookup (parent_path path));
    set_cwd (default ROOT_INO o) (parent_path path)
  else
    r ← resolve arg1;
    match r with
    | None => say (txt "cd: not found" ++ nl) ERR
    | Some ino =>
      '(is_dir, _) ← with_ctrl (stat ino);
      if (is_dir : bool) then set_cwd ino (join_path path arg1) else say (txt "cd: not a directory" ++ nl) ERR
    end.

Definition cmd_cat (arg1 : list Z) : ST shell unit :=
  match arg1 with
  | [] => usage (txt "cat <file>")
  | _ =>
    r ← resolve arg1;
    match r with
    | None => say (txt "cat: not found" ++ nl) ERR
    | Some ino =>
      data ← with_ctrl (read_file ino);
      say (utf8_lossy data) TEXT ;;
      if bool_decide (last (utf8_lossy data) = Some 0x0A) then mret tt else say nl TEXT
    end
  end.

Definition cmd_mkdir (arg1 : list Z) : ST shell unit :=
  match arg1 with
  | [] => usage (txt "mkdir <name>")
  | _ => s ← get; with_ctrl (create_dir (cwd_ino (term s)) arg1) ;; say (txt "created" ++ nl) OK
  end.

Definition cmd_touch (arg1 : list Z) : ST shell unit :=
  match arg1 with
  | [] => usage (txt "touch <name>")
  | _ => s ← get; with_ctrl (create_file (cwd_ino (term s)) arg1) ;; say (txt "created" ++ nl) OK
  end.

Definition cmd_rm (arg1 : list Z) : ST shell unit :=
  match arg1 with
  | [] => usage (txt "rm <name>")
  | _ =>
    s ← get;
    ok ← with_ctrl (remove (cwd_ino (term s)) arg1);
    if (ok : bool) then say (txt "removed" ++ nl) OK else say (txt "rm: failed (not found or dir not empty)" ++ nl) ERR
  end.

(** Writes [bytes] to what [dst] named, or to a new file of the working directory. *)
Definition store_at (dst_ino : option Z) (cwd : Z) (dst bytes : list Z) : ST shell unit :=
  with_ctrl (di ← (match dst_ino with Some i => mret i | None => create_file cwd (trim_start 0x2F dst) end); write_file di bytes).

Definition cmd_cp (arg1 arg2 : list Z) : ST shell unit :=
  if beq arg1 [] || beq arg2 [] then usage (txt "cp <src> <dst>")
  else
    src ← resolve arg1;
    match src with
    | None => say (txt "cp: source not found" ++ nl) ERR
    | Some ino =>
      bytes ← with_ctrl (read_file ino);
      dst_ino ← resolve arg2;
      s ← get;
      store_at dst_ino (cwd_ino (term s)) arg2 bytes ;;
      say (txt "copied" ++ nl) OK
    end.

Definition cmd_mv (arg1 arg2 : list Z) : ST shell unit :=
  if beq arg1 [] || beq arg2 [] then usage (txt "mv <src> <dst>")
  else
    src ← resolve arg1;
    match src with
    | None => say (txt "mv: source not found" ++ nl) ERR
    | Some ino =>
      bytes ← with_ctrl (read_file ino);
      s ← get;
      removed ← with_ctrl (remove (cwd_ino (term s)) (trim_start 0x2F arg1));
      if (removed : bool) then
        dst_ino ← resolve arg2;
        store_at dst_ino (cwd_ino (term s)) arg2 bytes ;;
        say (txt "moved" ++ nl) OK
      else say (txt "mv: remove failed" ++ nl) ERR
    end.

Definition cmd_write (arg1 arg2 : list Z) : ST shell unit :=
  if beq arg1 [] || beq arg2 [] then usage (txt "write <file> <content>")
  else
    s ← get;
    r ← resolve arg1;
    ino ← (match r with Some i => mret i | None => with_ctrl (create_file (cwd_ino (term s)) arg1) end);
    with_ctrl (write_file ino arg2) ;;
    say (txt "written" ++ nl) OK.

(** [{:3}] *)
Definition pad3 (l : list Z) : list Z := replicate (3 - length l) 0x20 ++ l.

Fixpoint history_lines (i : Z) (l : list (list Z)) : ST shell unit :=
  match l with
  | [] => mret tt
  | h :: l => say (pad3 (show_dec (i + 1)) ++ txt "  ") DIM ;; say h TEXT ;; say nl TEXT ;; history_lines (i + 1) l
  end.
Definition cmd_history : ST shell unit := s ← get; history_lines 0 (history (term s)).

Definition cmd_uname : ST shell unit := say (txt "HepOS") CURSOR ;; say (txt " v0.1  x86_64 exokernel  HepFS" ++ nl) TEXT.

(** [&cmd[5..]] *)
Definition from5 (cmd : list Z) : outcome (list Z) := if is_boundary cmd 5 then Ok (drop 5 cmd) else Panic "byte index 5".

Definition cmd_echo (cmd arg1 : list Z) : ST shell unit :=
  l ← (match arg1 with [] => mret nl | _ => lift (from5 cmd) end); say l TEXT ;; say nl TEXT.

Definition cmd_unknown (verb : list Z) : ST shell unit := say verb ERR ;; say (txt ": command not found  (try 'help')" ++ nl) DIM.

(** The commands carried out by other subsystems. *)
Definition OTHER_COMMANDS : list (list Z) :=
  txt <$> ["date"; "sysinfo"; "mem"; "netpoll"; "netstart"; "netdiag"; "runtest"; "runhello"; "runhwtest"; "runmemtest"; "runinputtest";
   "runfstest"; "runsvctest"; "beep"; "sata"; "volume"; "exec"; "ps"; "service"; "kill"; "newterm"; "syscallinfo"; "lspci"; "ifconfig";
   "ping"; "wget"; "udp"; "edit"; "view"; "play"; "shutdown"; "reboot"].

(** They are a parameter of the shell. *)
Variable other_command : list Z → list Z → list Z → ST shell unit.

Definition execute (cmd : list Z) : ST shell unit :=
  let parts := split_sp 2 cmd in
  let verb := default [] (parts !! 0%nat) in
  let arg1 := default [] (parts !! 1%nat) in
  let arg2 := default [] (parts !! 2%nat) in
  if beq verb [] then mret tt
  else if beq verb (txt "help") then cmd_help
  else if beq verb (txt "clear") then cmd_clear
  else if beq verb (txt "pwd") then cmd_pwd
  else if beq verb (txt "ls") then cmd_ls arg1
  else if beq verb (txt "cd") then cmd_cd arg1
  else if beq verb (txt "cat") then cmd_cat arg1
  else if beq verb (txt "mkdir") then cmd_mkdir arg1
  else if beq verb (txt "touch") then cmd_touch arg1
  else if beq verb (txt "rm") then cmd_rm arg1
  else if beq verb (txt "cp") then cmd_cp arg1 arg2
  else if beq verb (txt "mv") then cmd_mv arg1 arg2
  else if beq verb (txt "write") then cmd_write arg1 arg2
  else if beq verb (txt "history") then cmd_history
  else if beq verb (txt "uname") then cmd_uname
  else if bool_decide (verb ∈ OTHER_COMMANDS) then other_command verb arg1 arg2
  else if starts_with (txt "echo") verb then cmd_echo cmd arg1
  else cmd_unknown verb.

(** ** Keys *)

Definition remember (cmd : list Z) (t : Terminal) : Terminal :=
  match cmd with
  | [] => t
  | _ => set_history (let h := history t ++ [cmd] in if (50 <? length h)%nat then drop 1 h else h) t
  end.

Definition enter : ST shell unit :=
  on_term (put_char 0x0A TEXT) ;;
  s ← get;
  let cmd := trim (cmd_buf (term s)) in
  upd_term (λ t, remember cmd (set_history_idx None (set_cmd_cursor 0 (set_cmd_buf [] t)))) ;;
  execute cmd ;;
  on_term show_prompt.

Definition key_clears_selection (c : Z) (ctrl : bool) : bool :=
  negb (u8 c =? KEY_LEFT) && negb (u8 c =? KEY_RIGHT) && negb ((c =? 0x43) && ctrl).

Definition cancel_input : ST shell unit :=
  upd_term (set_cmd_buf []) ;; say (txt "^C" ++ nl) ERR ;; on_term show_prompt.

Definition key_action (k : Z) (shift ctrl : bool) : ST shell unit :=
  if k =? 0x0A then enter
  else if k =? 0x08 then on_term backspace
  else if k =? 0x01 then upd_term (λ t, set_cmd_cursor 0 (set_col (prompt_col t) t))
  else if k =? 0x05 then upd_term (λ t, set_col (prompt_col t + len (cmd_buf t)) (set_cmd_cursor (len (cmd_buf t)) t))
  else if k =? 0x03 then cancel_input
  else if (k =? 0x43) && ctrl then copy_to_clipboard
  else if ((k =? 0x56) && ctrl) || (k =? 0x16) then paste_clipboard
  else if (k =? 0x0C) || (k =? 0x0B) then upd_term clear_screen ;; on_term show_prompt
  else if k =? 0x09 then tab_complete
  else if (k =? KEY_UP) || (k =? 0x10) then on_term history_prev
  else if (k =? KEY_DOWN) || (k =? 0x0E) then on_term history_next
  else if k =? KEY_LEFT then upd_term (cursor_left shift)
  else if k =? KEY_RIGHT then upd_term (cursor_right shift)
  else if 32 <=? k then on_term (insert_key k)
  else mret tt.

Definition on_key (c : Z) (shift ctrl : bool) : ST shell unit :=
  (if key_clears_selection c ctrl then upd_term (λ t, set_select_head None (set_select_anchor None t)) else mret tt) ;;
  s ← get;
  let k := u8 c in
  if ((k =? KEY_UP) || (k =? 0x10)) && bool_decide (history (term s) = []) then upd_term (set_term_dirty true)
  else
    key_action k shift ctrl ;;
    on_term recolor_input ;;
    upd_term (set_term_dirty true).
End shell.

(** ** Drawing *)

(** [render] first fits the column count to the window. *)
Definition fit_cols (ww : Z) (t : Terminal) : Terminal :=
  let new_cols := Z.min (Z.max (Z.max (ww - 8) 0 / CHAR_W) 10) MAX_COLS in
  if new_cols =? cols t then t
  else
    let t := set_cols new_cols t in
    let t := if cols t <=? col t then set_col (cols t - 1) t else t in
    if cols t <=? prompt_col t then set_prompt_col 0 t else t.

Definition layout (ww wh : Z) (t : Terminal) : Terminal :=
  let t := fit_cols ww t in
  let visible_rows := Z.max (wh - 6) 0 / CHAR_H in
  set_render_rows (Z.max visible_rows 1) (set_render_start (Z.max (row t + 1 - visible_rows) 0) t).

Fixpoint draw_cells (n : nat) (l : list Cell) (ci wx ww py : Z) (d : Display) : Display :=
  match n, l with
  | S n, cell :: l =>
    let px := wx + 4 + ci * CHAR_W in
    if wx + ww <? px + CHAR_W then d
    else
      let d := if 0x20 <? ch cell then draw_text (if ch cell <? 0x80 then [ch cell] else txt "?") px py (color cell) SCALE d else d in
      draw_cells n l (ci + 1) wx ww py d
  | _, _ => d
  end.

Definition draw_selection (line_idx wx ww py : Z) (t : Terminal) (d : Display) : Display :=
  match selection_cols_for_line line_idx t with
  | Some (s, e) =>
    let sel_x := wx + 4 + s * CHAR_W in
    if sel_x <? wx + ww then fill_rect sel_x py (Z.min ((e - s) * CHAR_W) (wx + ww - sel_x)) CHAR_H SELECTION d else d
  | None => d
  end.

Fixpoint draw_rows (n : nat) (r wx wy ww wh : Z) (t : Terminal) (d : Display) : Display :=
  match n with
  | O => d
  | S n =>
    let py := wy + 4 + r * CHAR_H in
    match lines t !! Z.to_nat (render_start t + r) with
    | Some line =>
      if wy + wh <? py + CHAR_H then d
      else draw_rows n (r + 1) wx wy ww wh t
             (draw_cells (Z.to_nat (cols t)) line 0 wx ww py (draw_selection (render_start t + r) wx ww py t d))
    | None => d
    end
  end.

Definition render (wx wy ww wh : Z) (t : Terminal) (d : Display) : Terminal * Display :=
  let t := layout ww wh t in
  let d := fill_rect wx wy ww 2 CURSOR (fill_rect wx wy ww wh TERM_BG d) in
  let visible_rows := Z.max (wh - 6) 0 / CHAR_H in
  let d := draw_rows (Z.to_nat visible_rows) 0 wx wy ww wh t d in
  let vis_row := Z.min (Z.max (row t - render_start t) 0) (Z.max (visible_rows - 1) 0) in
  let cx := wx + 4 + col t * CHAR_W in
  let cy := wy + 4 + vis_row * CHAR_H + CHAR_H - 2 in
  (t, if (cx + 16 <=? wx + ww) && (cy + 2 <=? wy + wh) then fill_rect cx cy 16 2 CURSOR d else d).
