(* ===== verification/TerminalSpec.v ===== *)
(** The terminal: the keys of a line within one row edit a string at a cursor, and the
    two ways in which that fails, a line that wraps and output that arrives while typing. *)

From Stdlib Require Import ZifyBool.
From stdpp Require Import prelude list numbers strings.
From S2P Require Import Prelude Text Pmm Memory Hepfs Elf Editor EditorSpec Display Terminal.

Local Open Scope Z_scope.

(** ** Cells of one row *)

(** The terminal with [line] as its row [r]. *)
Definition with_row (r : Z) (line : list Cell) (t : Terminal) : Terminal := set_lines (<[Z.to_nat r := line]> (lines t)) t.

Lemma with_row_at r line line' t : lines t !! Z.to_nat r = Some line → lines (with_row r line' t) !! Z.to_nat r = Some line'.
Proof. intros E. apply list_lookup_insert_eq. by eapply lookup_lt_Some. Qed.

Lemma with_row_twice r l1 l2 t : with_row r l2 (with_row r l1 t) = with_row r l2 t.
Proof. destruct t. unfold with_row, set_lines. cbn. by rewrite list_insert_insert_eq. Qed.

Lemma with_row_same r line t : lines t !! Z.to_nat r = Some line → with_row r line t = t.
Proof. destruct t. intros E. unfold with_row, set_lines. cbn in *. by rewrite list_insert_id. Qed.

Lemma cell_get_ok r c t line x : 0 ≤ r → 0 ≤ c → lines t !! Z.to_nat r = Some line → line !! Z.to_nat c = Some x → cell_get r c t = Ok x.
Proof. intros Hr Hc El Ex. unfold cell_get. rewrite (idx_some _ _ line) by done. cbn. by apply idx_some. Qed.

Lemma cell_set_ok r c x t line : 0 ≤ r → lines t !! Z.to_nat r = Some line → 0 ≤ c < len line →
  cell_set r c x t = Ok (with_row r (<[Z.to_nat c := x]> line) t).
Proof. intros Hr El Hc. unfold cell_set. rewrite (idx_some _ _ line) by done. cbn. by rewrite bool_decide_true. Qed.

(** [t'] is [t] with its row [r] redrawn, the cell at [i] now being the old cell at [f i]. *)
Definition moved (r : Z) (f : Z → Z) (t t' : Terminal) (line : list Cell) : Prop :=
  ∃ line', t' = with_row r line' t ∧ length line' = length line ∧ ∀ i, 0 ≤ i → line' !! Z.to_nat i = line !! Z.to_nat (f i).

Lemma insert_at (line : list Cell) c x i : 0 ≤ c < len line → 0 ≤ i →
  <[Z.to_nat c := x]> line !! Z.to_nat i = if i =? c then Some x else line !! Z.to_nat i.
Proof.
  intros Hc Hi. unfold len in Hc. destruct (Z.eqb_spec i c) as [->|Hne]; [apply list_lookup_insert_eq; lia|].
  apply list_lookup_insert_ne. lia.
Qed.

Lemma shift_left_ok n r i t line : 0 ≤ r → lines t !! Z.to_nat r = Some line → 0 ≤ i → i + Z.of_nat n < len line →
  ∃ t', shift_left n r i t = Ok t' ∧ moved r (λ k, if (i <=? k) && (k <? i + Z.of_nat n) then k + 1 else k) t t' line.
Proof.
  revert i t line. induction n as [|n IH]; intros i t line Hr El Hi Hn.
  - exists t. split; [done|]. exists line. split_and!; [by rewrite with_row_same|done|]. intros k Hk.
    replace ((i <=? k) && (k <? i + Z.of_nat 0)) with false by lia. done.
  - cbn [shift_left]. destruct (lookup_lt_is_Some_2 line (Z.to_nat (i + 1))) as [x Ex]; [unfold len in Hn; lia|].
    rewrite (cell_get_ok _ _ _ line x) by (done || lia). cbn. rewrite (cell_set_ok _ _ _ _ line) by (done || lia). cbn.
    destruct (IH (i + 1) (with_row r (<[Z.to_nat i:=x]> line) t) (<[Z.to_nat i:=x]> line)) as (t' & -> & line' & -> & Hl & Hk);
      [done|by eapply with_row_at|lia|unfold len in *; rewrite length_insert; lia|].
    rewrite with_row_twice. eexists. split; [done|]. exists line'. rewrite Hl, length_insert. split_and!; [done..|].
    intros k H0. rewrite Hk, insert_at by (done || lia || case_match; lia).
    repeat case_match; try lia; try (f_equal; lia); subst. rewrite <- Ex. f_equal. lia.
Qed.

Lemma shift_right_ok n r c t line : 0 ≤ r → lines t !! Z.to_nat r = Some line → 0 ≤ c → c + Z.of_nat n < len line →
  ∃ t', shift_right n r c t = Ok t' ∧ moved r (λ k, if (c <? k) && (k <=? c + Z.of_nat n) then k - 1 else k) t t' line.
Proof.
  revert t line. induction n as [|n IH]; intros t line Hr El Hi Hn.
  - exists t. split; [done|]. exists line. split_and!; [by rewrite with_row_same|done|]. intros k Hk.
    replace ((c <? k) && (k <=? c + Z.of_nat 0)) with false by lia. done.
  - cbn [shift_right]. destruct (lookup_lt_is_Some_2 line (Z.to_nat (c + Z.of_nat n))) as [x Ex]; [unfold len in Hn; lia|].
    rewrite (cell_get_ok _ _ _ line x) by (done || lia). cbn. rewrite (cell_set_ok _ _ _ _ line) by (done || lia). cbn.
    destruct (IH (with_row r (<[Z.to_nat (c + Z.of_nat n + 1):=x]> line) t) (<[Z.to_nat (c + Z.of_nat n + 1):=x]> line)) as (t' & -> & line' & -> & Hl & Hk);
      [done|by eapply with_row_at|lia|unfold len in *; rewrite length_insert; lia|].
    rewrite with_row_twice. eexists. split; [done|]. exists line'. rewrite Hl, length_insert. split_and!; [done..|].
    intros k H0. rewrite Hk, insert_at by (done || lia || case_match; lia).
    repeat case_match; try lia; try (f_equal; lia); subst. rewrite <- Ex. f_equal. lia.
Qed.

(** Recolouring keeps the characters, and every cell left of [c]. *)
Lemma recolor_ok cs r c t line : 0 ≤ r → lines t !! Z.to_nat r = Some line → 0 ≤ c → cols t ≤ len line →
  ∃ line', recolor r c cs t = Ok (with_row r line' t) ∧ length line' = length line ∧
    (∀ i, 0 ≤ i → ch <$> line' !! Z.to_nat i = ch <$> line !! Z.to_nat i) ∧ (∀ i, 0 ≤ i < c → line' !! Z.to_nat i = line !! Z.to_nat i).
Proof.
  revert c t line. induction cs as [|k cs IH]; intros c t line Hr El Hc Hw.
  - exists line. by rewrite with_row_same.
  - cbn [recolor]. case_match eqn:E; [exists line; by rewrite with_row_same|].
    assert (c < cols t) by lia. destruct (lookup_lt_is_Some_2 line (Z.to_nat c)) as [x Ex]; [unfold len in *; lia|].
    rewrite (cell_get_ok _ _ _ line x) by (done || lia). cbn. rewrite (cell_set_ok _ _ _ _ line) by (done || lia). cbn.
    destruct (IH (c + 1) (with_row r (<[Z.to_nat c:=mkCell (ch x) (tok_color k)]> line) t) (<[Z.to_nat c:=mkCell (ch x) (tok_color k)]> line))
      as (line' & -> & Hl & Hch & Hleft); [done|by eapply with_row_at|lia|unfold len in *; rewrite length_insert; exact Hw|].
    rewrite with_row_twice, length_insert in *. exists line'. split_and!; [done..| |].
    + intros i Hi. rewrite Hch, insert_at by lia. case_match; [|done]. replace i with c by lia. by rewrite Ex.
    + intros i Hi. rewrite Hleft, insert_at by lia. case_match; [lia|done].
Qed.

(** ** The line being typed *)

(** The specification: a string and a position in it. *)
Record line := mkLine { text : list Z; cursor : Z }.

Inductive lkey := KType (b : Z) | KBack | KLeft | KRight | KStart | KEnd.

Definition key_char (k : lkey) : Z :=
  match k with KType b => b | KBack => 0x08 | KLeft => KEY_LEFT | KRight => KEY_RIGHT | KStart => 0x01 | KEnd => 0x05 end.

Definition edit (k : lkey) (l : line) : line :=
  let n := Z.to_nat (cursor l) in
  match k with
  | KType b => mkLine (take n (text l) ++ [b] ++ drop n (text l)) (cursor l + 1)
  | KBack => if cursor l =? 0 then l else mkLine (take (n - 1) (text l) ++ drop n (text l)) (cursor l - 1)
  | KLeft => mkLine (text l) (Z.max (cursor l - 1) 0)
  | KRight => mkLine (text l) (Z.min (cursor l + 1) (len (text l)))
  | KStart => mkLine (text l) 0
  | KEnd => mkLine (text l) (len (text l))
  end.

Definition printable (b : Z) : Prop := 0x20 ≤ b < 0x80.
Definition key_ok (k : lkey) : Prop := match k with KType b => printable b | _ => True end.
Fixpoint typed (ks : list lkey) : Z := match ks with [] => 0 | KType _ :: ks => 1 + typed ks | _ :: ks => typed ks end.

(** What typing never changes. *)
Definition rest (t : Terminal) :=
  (cols t, prompt_row t, prompt_col t, cwd_ino t, cwd_path t, history t, history_idx t, render_start t, render_rows t, win_id t).

(** [t0] shows a prompt with room for input on its row. *)
Record prompt_ok (t0 : Terminal) : Prop := {
  po_row : 0 ≤ prompt_row t0;
  po_col : 0 < prompt_col t0;
  po_cols : 10 ≤ cols t0 ≤ MAX_COLS }.

(** [t] is [t0] with [l] typed after its prompt: on the screen, in the buffer and under the cursor. *)
Record line_rep (t0 t : Terminal) (l : line) : Prop := {
  lr_buf : cmd_buf t = text l;
  lr_cur : cmd_cursor t = cursor l;
  lr_col : col t = prompt_col t0 + cursor l;
  lr_row : row t = prompt_row t0;
  lr_rest : rest t = rest t0;
  lr_others : ∀ r, r ≠ Z.to_nat (prompt_row t0) → lines t !! r = lines t0 !! r;
  lr_shown : ∃ c0 c, lines t0 !! Z.to_nat (prompt_row t0) = Some c0 ∧ lines t !! Z.to_nat (prompt_row t0) = Some c ∧ len c = MAX_COLS ∧
    (∀ i, 0 ≤ i < prompt_col t0 → c !! Z.to_nat i = c0 !! Z.to_nat i) ∧
    (∀ j, 0 ≤ j < cols t0 - prompt_col t0 → ch <$> c !! Z.to_nat (prompt_col t0 + j) = Some (default 0x20 (text l !! Z.to_nat j)));
  lr_cursor : 0 ≤ cursor l ≤ len (text l);
  lr_text : Forall printable (text l);
  lr_fits : prompt_col t0 + len (text l) < cols t0 }.

Lemma rest_fields t t0 : rest t = rest t0 → cols t = cols t0 ∧ prompt_row t = prompt_row t0 ∧ prompt_col t = prompt_col t0.
Proof. unfold rest. intros [= ??????????]. done. Qed.

(** Redrawing the row in a way that shows the new text. *)
Lemma line_rep_step t0 t t' l l' (c' : list Cell) :
  line_rep t0 t l → lines t' = <[Z.to_nat (prompt_row t0) := c']> (lines t) → len c' = MAX_COLS →
  cmd_buf t' = text l' → cmd_cursor t' = cursor l' → col t' = prompt_col t0 + cursor l' → row t' = row t → rest t' = rest t →
  (∀ c, lines t !! Z.to_nat (prompt_row t0) = Some c → ∀ i, 0 ≤ i < prompt_col t0 → c' !! Z.to_nat i = c !! Z.to_nat i) →
  (∀ j, 0 ≤ j < cols t0 - prompt_col t0 → ch <$> c' !! Z.to_nat (prompt_col t0 + j) = Some (default 0x20 (text l' !! Z.to_nat j))) →
  0 ≤ cursor l' ≤ len (text l') → Forall printable (text l') → prompt_col t0 + len (text l') < cols t0 → line_rep t0 t' l'.
Proof.
  intros [Hb Hc Hco Hr Hre Ho (c0 & c & E0 & E & Hl & Hleft & Hsh) Hcu Ht Hf] El Hl' Eb Ec Eco Er Ere Hk Hs Hcu' Ht' Hf'.
  split; try done; try congruence.
  - intros r Hne. rewrite El, list_lookup_insert_ne by done. by apply Ho.
  - exists c0, c'. split_and!; try done.
    + rewrite El. apply list_lookup_insert_eq. by eapply lookup_lt_Some.
    + intros i Hi. rewrite (Hk c) by done. by apply Hleft.
Qed.

Lemma highlight_kw_ok s kws : ∃ cs, highlight_line_kw s kws = Ok cs.
Proof.
  destruct (highlight_from_ok s kws (length s) 0 (replicate (length s) Default)) as (cs & _ & Hh); [by rewrite length_replicate|lia|lia|].
  exists cs. unfold highlight_line_kw. rewrite <- (Nat.add_0_r (length s)) at 1. apply Hh.
Qed.

(** Recolouring the input shows the same line. *)
Lemma recolor_rep t0 t l : prompt_ok t0 → line_rep t0 t l → ∃ t', recolor_input t = Ok t' ∧ line_rep t0 t' l.
Proof.
  intros [Hpr Hpc Hco] H. pose proof H as [Hb Hc Hcol Hr Hre Ho (c0 & c & E0 & E & Hl & Hleft & Hsh) Hcu Ht Hf].
  destruct (rest_fields _ _ Hre) as (Ecols & Epr & Epc). unfold recolor_input.
  destruct (highlight_kw_ok (cmd_buf t) COMMAND_NAMES) as [cs ->]. cbn.
  rewrite Epr, Epc. destruct (recolor_ok cs (prompt_row t0) (prompt_col t0) t c) as (c' & -> & Hlen & Hch & Hle); [lia|done|lia|lia|].
  eexists. split; [done|]. eapply (line_rep_step t0 t _ l l c'); try done.
  - unfold len in *. by rewrite Hlen.
  - intros c1 Ec1 i Hi. rewrite E in Ec1. injection Ec1 as <-. by apply Hle.
  - intros j Hj. rewrite Hch by lia. by apply Hsh.
Qed.

(** ** The keys *)

Lemma char_bytes_printable b : printable b → char_bytes b = [b].
Proof. intros []. unfold char_bytes. by replace (b <? 0x80) with true by lia. Qed.

Lemma is_boundary_printable s i : Forall printable s → 0 ≤ i ≤ len s → is_boundary s i = true.
Proof.
  intros Hs Hi. unfold is_boundary. destruct (decide (i = len s)) as [->|]; [by rewrite Z.eqb_refl, orb_true_r|].
  destruct (lookup_lt_is_Some_2 s (Z.to_nat i)) as [b Eb]; [unfold len in *; lia|]. rewrite Eb.
  pose proof (Forall_lookup_1 _ _ _ _ Hs Eb) as []. unfold is_cont, in_range. lia.
Qed.

Lemma utf8_width_printable b s : printable b → utf8_width (b :: s) = Some 1%nat.
Proof. intros []. cbn. by replace (b <? 0x80) with true by lia. Qed.

Lemma str_insert_printable s i b : Forall printable s → printable b → 0 ≤ i ≤ len s →
  str_insert s i b = Ok (take (Z.to_nat i) s ++ [b] ++ drop (Z.to_nat i) s).
Proof. intros. unfold str_insert. by rewrite is_boundary_printable, char_bytes_printable. Qed.

Lemma str_remove_printable s i : Forall printable s → 0 ≤ i < len s →
  str_remove s i = Ok (take (Z.to_nat i) s ++ drop (Z.to_nat i + 1) s).
Proof.
  intros Hs Hi. unfold str_remove. rewrite is_boundary_printable by (done || lia). replace (i <? len s) with true by lia. cbn.
  destruct (lookup_lt_is_Some_2 s (Z.to_nat i)) as [b Eb]; [unfold len in *; lia|].
  rewrite (drop_S s b (Z.to_nat i)) by done. rewrite utf8_width_printable; [done|]. by eapply Forall_lookup_1.
Qed.

Lemma lookup_inserted (s : list Z) n b j : (n ≤ length s)%nat →
  (take n s ++ b :: drop n s) !! j = if decide (j < n)%nat then s !! j else if decide (j = n) then Some b else s !! (j - 1)%nat.
Proof.
  intros Hn. destruct (decide (j < n)%nat).
  - rewrite lookup_app_l by (rewrite length_take; lia). by apply lookup_take_lt.
  - rewrite lookup_app_r by (rewrite length_take; lia). rewrite length_take, Nat.min_l by lia. case_decide.
    + subst. by rewrite Nat.sub_diag.
    + destruct (j - n)%nat as [|m] eqn:E; [lia|]. change ((b :: drop n s) !! S m) with (drop n s !! m). rewrite lookup_drop. f_equal. lia.
Qed.

Lemma lookup_removed (s : list Z) n m j : (n < length s)%nat → m = (n + 1)%nat →
  (take n s ++ drop m s) !! j = if decide (j < n)%nat then s !! j else s !! (j + 1)%nat.
Proof.
  intros Hn ->. destruct (decide (j < n)%nat).
  - rewrite lookup_app_l by (rewrite length_take; lia). by apply lookup_take_lt.
  - rewrite lookup_app_r by (rewrite length_take; lia). rewrite length_take, Nat.min_l, lookup_drop by lia. f_equal. lia.
Qed.

Lemma len_inserted (s : list Z) n b : len (take n s ++ b :: drop n s) = len s + 1.
Proof. unfold len. rewrite length_app. cbn. rewrite length_take, length_drop. lia. Qed.

Lemma Forall_inserted (P : Z → Prop) s n b : Forall P s → P b → Forall P (take n s ++ b :: drop n s).
Proof. intros. apply Forall_app. split; [by apply Forall_take|]. constructor; [done|by apply Forall_drop]. Qed.

Lemma len_removed (s : list Z) c : 0 < c ≤ len s → len (take (Z.to_nat c - 1) s ++ drop (Z.to_nat c) s) = len s - 1.
Proof. intros. unfold len in *. rewrite length_app, length_take, length_drop. lia. Qed.

Section keys.
Context (t0 t : Terminal) (l : line) (Hp : prompt_ok t0) (Hrep : line_rep t0 t l).

(** The row being edited. *)
Lemma typed_row : ∃ c, lines t !! Z.to_nat (prompt_row t0) = Some c ∧ len c = MAX_COLS ∧
  ∀ j, 0 ≤ j < cols t0 - prompt_col t0 → ch <$> c !! Z.to_nat (prompt_col t0 + j) = Some (default 0x20 (text l !! Z.to_nat j)).
Proof. destruct (lr_shown _ _ _ Hrep) as (c0 & c & _ & E & Hl & _ & Hs). by exists c. Qed.

Lemma append_rep b : printable b → cursor l = len (text l) → prompt_col t0 + len (text l) + 1 < cols t0 →
  ∃ t', (t ← push_typed b t; Ok (set_cmd_cursor (cmd_cursor t + 1) t)) = Ok t' ∧ line_rep t0 t' (edit (KType b) l).
Proof.
  intros Hb Hend Hfit. destruct Hp as [Hpr Hpc Hco]. destruct Hrep as [Eb Ec Ecol Er Hre _ _ Hcu Ht _].
  destruct (rest_fields _ _ Hre) as (Ecols & _ & _). destruct typed_row as (c & E & Hl & Hs). pose proof (lookup_lt_Some _ _ _ E).
  unfold push_typed, put_char. destruct Hb as [Hb1 Hb2].
  replace (b =? 0x0A) with false by lia. replace (b =? 0x0D) with false by lia. replace (32 <=? b) with true by lia.
  cbn [row set_cmd_buf lines col]. rewrite Er, Ecol. replace (prompt_row t0 <? len (lines t)) with true by (unfold len; lia).
  rewrite (cell_set_ok _ _ _ _ c) by (try done; unfold MAX_COLS in *; lia). cbn [mbind outcome_bind].
  cbn [col cols cmd_cursor set_cmd_buf set_col with_row set_lines]. rewrite Ecol, Ecols.
  rewrite (wrap_small 64) by (unfold is_u, MAX_COLS in *; lia). replace (cols t0 <=? prompt_col t0 + cursor l + 1) with false by lia.
  eexists. split; [done|]. eapply (line_rep_step t0 t _ l); try done; cbn.
  - unfold len in *. by rewrite length_insert.
  - rewrite Eb, char_bytes_printable by done. rewrite Hend. unfold len. rewrite Nat2Z.id, firstn_all, drop_all. done.
  - by rewrite Ec.
  - lia.
  - intros c1 Ec1 i Hi. rewrite E in Ec1. injection Ec1 as <-. rewrite insert_at by (unfold MAX_COLS in *; lia). case_match; [lia|done].
  - intros j Hj. rewrite insert_at by (unfold MAX_COLS in *; lia). rewrite lookup_inserted by (unfold len in *; lia).
    case_match; repeat case_decide; try (unfold len in *; lia); try done.
    + by rewrite Hs.
    + rewrite Hs by done. rewrite !lookup_ge_None_2 by (unfold len in *; lia). done.
  - unfold len in *. rewrite length_app. cbn. rewrite length_take, length_drop. lia.
  - rewrite Hend. unfold len. rewrite Nat2Z.id, firstn_all, drop_all. apply Forall_app. split; [done|]. by repeat constructor.
  - unfold len in *. rewrite length_app. cbn. rewrite length_take, length_drop. lia.
Qed.

Lemma insert_rep b : printable b → prompt_col t0 + len (text l) + 1 < cols t0 →
  ∃ t', insert_key b t = Ok t' ∧ line_rep t0 t' (edit (KType b) l).
Proof.
  intros Hb Hfit. destruct Hp as [Hpr Hpc Hco]. destruct (Hrep) as [Eb Ec Ecol Er Hre _ _ Hcu Ht _].
  destruct (rest_fields _ _ Hre) as (Ecols & _ & _). destruct typed_row as (c & E & Hl & Hs). pose proof (lookup_lt_Some _ _ _ E).
  unfold insert_key. rewrite Eb, Ecols, Ec. replace (len (text l) <? Z.max (cols t0 - 2) 0) with true by lia.
  destruct (Z.eqb_spec (cursor l) (len (text l))) as [Hend|Hmid].
  { destruct (append_rep b Hb Hend Hfit) as (t' & Ea & Hr'). by exists t'. }
  rewrite str_insert_printable by done. cbn [mbind outcome_bind].
  set (t1 := set_cmd_buf _ t). assert (cols t1 = cols t0) as Ecols1 by done. assert (col t1 = prompt_col t0 + cursor l) as Ecol1 by done.
  assert (row t1 = prompt_row t0) as Er1 by done. rewrite Ecols1, Ecol1, Er1.
  set (n := Z.to_nat (cols t0 - 1 - (prompt_col t0 + cursor l))).
  destruct (shift_right_ok n (prompt_row t0) (prompt_col t0 + cursor l) t1 c) as (t2 & -> & c2 & -> & Hl2 & H2);
    [lia|done|lia|unfold MAX_COLS in *; lia|].
  cbn [mbind outcome_bind]. cbn [row col with_row set_lines]. rewrite Ecol1, Er1.
  rewrite (cell_set_ok _ _ _ _ c2) by (try (eapply with_row_at; exact E); unfold len, MAX_COLS in *; rewrite ?Hl2; lia). cbn [mbind outcome_bind].
  rewrite with_row_twice. cbn [col with_row set_lines set_col cmd_cursor].
  eexists. split; [done|]. eapply (line_rep_step t0 t _ l); try done; cbn.
  - unfold len in *. by rewrite length_insert, Hl2.
  - by rewrite Ec.
  - rewrite Ecol, (wrap_small 64) by (unfold is_u, MAX_COLS in *; lia). lia.
  - intros c1 Ec1 i Hi. rewrite E in Ec1. injection Ec1 as <-.
    rewrite insert_at by (unfold len, MAX_COLS in *; rewrite ?Hl2; lia). case_match; [lia|]. rewrite H2 by lia. case_match; [lia|done].
  - intros j Hj. rewrite insert_at by (unfold len, MAX_COLS in *; rewrite ?Hl2; lia). rewrite lookup_inserted by (unfold len in *; lia).
    case_match; [|rewrite H2 by lia]; repeat case_decide; try lia; try done; case_match; try lia; [by rewrite Hs|].
    replace (prompt_col t0 + j - 1) with (prompt_col t0 + (j - 1)) by lia. rewrite Hs by lia. do 3 f_equal. lia.
  - rewrite len_inserted. unfold len in *. lia.
  - by apply Forall_inserted.
  - rewrite len_inserted. lia.
Qed.

Lemma back_rep : ∃ t', backspace t = Ok t' ∧ line_rep t0 t' (edit KBack l).
Proof.
  destruct Hp as [Hpr Hpc Hco]. destruct (Hrep) as [Eb Ec Ecol Er Hre _ _ Hcu Ht Hf].
  destruct (rest_fields _ _ Hre) as (Ecols & _ & _). destruct typed_row as (c & E & Hl & Hs). pose proof (lookup_lt_Some _ _ _ E).
  unfold backspace. rewrite Ec. cbn [edit]. destruct (Z.eqb_spec (cursor l) 0) as [Hz|Hz].
  { replace (0 <? cursor l) with false by lia. by exists t. }
  replace (0 <? cursor l) with true by lia. rewrite Eb, str_remove_printable by (done || lia). cbn [mbind outcome_bind].
  cbn [col set_cmd_cursor set_cmd_buf]. rewrite Ecol. replace (0 <? prompt_col t0 + cursor l) with true by lia.
  set (t1 := set_col _ _). assert (cols t1 = cols t0) as Ecols1 by done. assert (col t1 = prompt_col t0 + cursor l - 1) as Ecol1 by done.
  assert (row t1 = prompt_row t0) as Er1 by done. rewrite Ecols1, Ecol1, Er1.
  set (n := Z.to_nat (cols t0 - 1 - (prompt_col t0 + cursor l - 1))).
  destruct (shift_left_ok n (prompt_row t0) (prompt_col t0 + cursor l - 1) t1 c) as (t2 & -> & c2 & -> & Hl2 & H2);
    [lia|done|lia|unfold MAX_COLS in *; lia|].
  cbn [mbind outcome_bind]. cbn [row cols with_row set_lines]. rewrite Ecols1, Er1.
  rewrite (cell_set_ok _ _ _ _ c2) by (try (eapply with_row_at; exact E); unfold len, MAX_COLS in *; rewrite ?Hl2; lia).
  rewrite with_row_twice.
  eexists. split; [done|]. eapply (line_rep_step t0 t _ l); try done; cbn.
  - unfold len in *. by rewrite length_insert, Hl2.
  - f_equal; f_equal; lia.
  - lia.
  - intros c1 Ec1 i Hi. rewrite E in Ec1. injection Ec1 as <-.
    rewrite insert_at by (unfold len, MAX_COLS in *; rewrite ?Hl2; lia). case_match; [lia|]. rewrite H2 by lia. case_match; [lia|done].
  - intros j Hj. rewrite insert_at by (unfold len, MAX_COLS in *; rewrite ?Hl2; lia).
    rewrite lookup_removed by (unfold len in *; lia).
    case_match; [|rewrite H2 by lia].
    + case_decide; [lia|]. rewrite lookup_ge_None_2 by (unfold len in *; lia). done.
    + case_decide; case_match; try lia; [by rewrite Hs|]. replace (prompt_col t0 + j + 1) with (prompt_col t0 + (j + 1)) by lia.
      rewrite Hs by lia. do 3 f_equal. lia.
  - rewrite len_removed by lia. lia.
  - by apply Forall_app; split; [apply Forall_take|apply Forall_drop].
  - rewrite len_removed by lia. lia.
Qed.

(** A key that only moves the cursor. *)
Lemma move_rep t' c : lines t' = lines t → cmd_buf t' = cmd_buf t → cmd_cursor t' = c → col t' = prompt_col t0 + c → row t' = row t →
  rest t' = rest t → 0 ≤ c ≤ len (text l) → line_rep t0 t' (mkLine (text l) c).
Proof.
  intros El Eb Ec Eco Er Ere Hc. destruct (Hrep) as [? ? ? ? ? Ho Hsh ? ? ?]. split; try done; cbn; try congruence.
  - intros r Hne. rewrite El. by apply Ho.
  - rewrite El. done.
Qed.
End keys.

(** The selection and the dirty flag do not matter. *)
Lemma same_line t0 t t' l : line_rep t0 t l → lines t' = lines t → cmd_buf t' = cmd_buf t → cmd_cursor t' = cmd_cursor t →
  col t' = col t → row t' = row t → rest t' = rest t → line_rep t0 t' l.
Proof.
  intros H El Eb Ec Eco Er Ere. destruct (H) as [? Hcu Hcol ? ? ? ? ? ? ?]. destruct l as [s c]. cbn in *.
  by apply (move_rep t0 t (mkLine s c) H); try congruence.
Qed.

Lemma clear_selection_rep t0 t l : line_rep t0 t l → line_rep t0 (set_select_head None (set_select_anchor None t)) l.
Proof. intros H. by apply (same_line t0 t). Qed.

Lemma anchor_rep t0 t shift l : line_rep t0 t l → line_rep t0 (update_selection_anchor shift t) l.
Proof. intros H. unfold update_selection_anchor. repeat case_match; try done; by apply (same_line t0 t). Qed.

Lemma sync_rep t0 t l : line_rep t0 t l → line_rep t0 (sync_selection_head t) l.
Proof. intros H. unfold sync_selection_head. case_match; [|done]. by apply (same_line t0 t). Qed.

Lemma left_rep t0 t shift l : prompt_ok t0 → line_rep t0 t l → line_rep t0 (cursor_left shift t) (edit KLeft l).
Proof.
  intros [? ? Hco] H. unfold cursor_left. apply sync_rep. pose proof (anchor_rep t0 t shift l H) as H1.
  set (t1 := update_selection_anchor shift t) in *. clearbody t1. pose proof H1 as [Eb Ec Ecol Er ? ? ? Hcu ? ?]. cbn [edit].
  rewrite Ec. case_match.
  - apply (move_rep t0 t1 l); try done; cbn; [lia| |lia]. rewrite Ecol, (wrap_small 64) by (unfold is_u, MAX_COLS in *; lia). lia.
  - apply (move_rep t0 t1 l); try done; cbn; [rewrite Ec; lia|lia|lia].
Qed.

Lemma right_rep t0 t shift l : prompt_ok t0 → line_rep t0 t l → line_rep t0 (cursor_right shift t) (edit KRight l).
Proof.
  intros [? ? Hco] H. unfold cursor_right. apply sync_rep. pose proof (anchor_rep t0 t shift l H) as H1.
  set (t1 := update_selection_anchor shift t) in *. clearbody t1. pose proof H1 as [Eb Ec Ecol Er ? ? ? Hcu ? ?]. cbn [edit].
  rewrite Ec, Eb. case_match.
  - apply (move_rep t0 t1 l); try done; cbn; [lia| |lia]. rewrite Ecol, (wrap_small 64) by (unfold is_u, MAX_COLS in *; lia). lia.
  - apply (move_rep t0 t1 l); try done; cbn; [rewrite Ec; lia|lia|lia].
Qed.

Section sessions.
Context {D F : Type} `{!Drive D} `{!FrameSource F}.
Variable other : list Z → list Z → list Z → ST (@shell D F) unit.

(** The key's own work on the terminal. *)
Definition line_action (k : lkey) (shift : bool) (t : Terminal) : outcome Terminal :=
  match k with
  | KType b => insert_key b t
  | KBack => backspace t
  | KLeft => Ok (cursor_left shift t)
  | KRight => Ok (cursor_right shift t)
  | KStart => Ok (set_cmd_cursor 0 (set_col (prompt_col t) t))
  | KEnd => Ok (set_col (prompt_col t + len (cmd_buf t)) (set_cmd_cursor (len (cmd_buf t)) t))
  end.

Lemma key_action_line k shift (s : @shell D F) : key_ok k →
  key_action other (key_char k) shift false s = on_term (line_action k shift) s.
Proof.
  intros Hk. destruct k as [b| | | | |]; try done. destruct Hk as [H1 H2]. unfold key_action. cbn [key_char].
  rewrite !andb_false_r. cbn [orb].
  repeat match goal with |- context [?a =? ?n] => first [replace (a =? n) with false by (unfold KEY_UP, KEY_DOWN, KEY_LEFT, KEY_RIGHT; lia)] end.
  cbn [orb]. by replace (32 <=? b) with true by lia.
Qed.

Lemma line_action_rep t0 t l k shift : prompt_ok t0 → key_ok k → line_rep t0 t l → prompt_col t0 + len (text (edit k l)) < cols t0 →
  ∃ t', line_action k shift t = Ok t' ∧ line_rep t0 t' (edit k l).
Proof.
  intros Hp Hk H Hf. destruct (rest_fields _ _ (lr_rest _ _ _ H)) as (_ & _ & Epc). pose proof H as [Eb ? ? ? ? ? ? ? ? ?].
  destruct k as [b| | | | |]; cbn [line_action].
  - apply insert_rep; try done. cbn [edit text] in Hf. change ([b] ++ ?x) with (b :: x) in Hf. rewrite len_inserted in Hf. lia.
  - by apply back_rep.
  - eexists. split; [done|]. by apply left_rep.
  - eexists. split; [done|]. by apply right_rep.
  - eexists. split; [done|]. cbn [edit]. apply (move_rep t0 t l); try done; cbn; lia.
  - eexists. split; [done|]. cbn [edit]. apply (move_rep t0 t l); try done; cbn; [by rewrite Eb|by rewrite Epc, Eb|unfold len; lia].
Qed.

(** The terminal a key works on. *)
Definition unselected (k : lkey) (t : Terminal) : Terminal :=
  if key_clears_selection (key_char k) false then set_select_head None (set_select_anchor None t) else t.

Lemma on_key_steps k shift (s : @shell D F) : key_ok k →
  on_key other (key_char k) shift false s =
    (t ← line_action k shift (unselected k (term s)); t ← recolor_input t; Ok (tt, set_term (set_term_dirty true t) s)).
Proof.
  intros Hk. unfold on_key.
  assert (u8 (key_char k) = key_char k) as Eu by (destruct k; try done; apply (wrap_small 8); destruct Hk; unfold is_u; cbn; lia). rewrite Eu.
  assert ((if key_clears_selection (key_char k) false then upd_term (λ t, set_select_head None (set_select_anchor None t)) else mret tt) s
    = Ok (tt, set_term (unselected k (term s)) s)) as E1 by (unfold unselected; case_match; [done|by destruct s]).
  unfold mbind, ST_bind at 1. rewrite E1. unfold ST_bind at 1, get.
  replace ((key_char k =? KEY_UP) || (key_char k =? 0x10)) with false by (destruct k; try done; destruct Hk; unfold KEY_UP; cbn; lia).
  cbn [andb]. unfold ST_bind at 1. rewrite key_action_line by done. unfold on_term at 1. cbn [term set_term].
  destruct (line_action k shift (unselected k (term s))) as [t2|]; [|done]. unfold mbind, outcome_bind, ST_bind. unfold on_term at 1. cbn [term set_term].
  by destruct (recolor_input t2) as [t3|].
Qed.

Lemma on_key_line t0 l k shift (s : @shell D F) : prompt_ok t0 → key_ok k → line_rep t0 (term s) l →
  prompt_col t0 + len (text (edit k l)) < cols t0 →
  ∃ t', on_key other (key_char k) shift false s = Ok (tt, set_term t' s) ∧ line_rep t0 t' (edit k l).
Proof.
  intros Hp Hk H Hf. rewrite on_key_steps by done.
  assert (line_rep t0 (unselected k (term s)) l) as H1 by (unfold unselected; case_match; [by apply clear_selection_rep|done]).
  destruct (line_action_rep t0 _ l k shift Hp Hk H1 Hf) as (t2 & -> & H2). cbn [mbind outcome_bind].
  destruct (recolor_rep t0 t2 (edit k l) Hp H2) as (t3 & -> & H3). cbn. eexists. split; [done|]. by apply (same_line t0 t3).
Qed.

(** Keys in sequence, each with the state of Shift. *)
Fixpoint on_keys (ks : list (lkey * bool)) : ST (@shell D F) unit :=
  match ks with [] => mret tt | (k, shift) :: ks => on_key other (key_char k) shift false ;; on_keys ks end.

Definition edits (ks : list lkey) (l : line) : line := foldl (λ l k, edit k l) l ks.

Lemma edit_len k l : 0 ≤ cursor l ≤ len (text l) → len (text (edit k l)) ≤ len (text l) + typed [k].
Proof.
  intros Hc. destruct k; cbn [edit typed]; try (cbn; lia).
  - cbn [text]. change ([b] ++ ?x) with (b :: x). rewrite len_inserted. lia.
  - case_match; cbn [text]; [lia|]. rewrite len_removed by lia. lia.
Qed.

(** Enter takes the line, forgets it and runs it. *)
Lemma enter_rep t0 t l shift (s : @shell D F) : line_rep t0 t l →
  ∃ t', cmd_buf t' = [] ∧ cmd_cursor t' = 0 ∧ on_key other 0x0A shift false (set_term t s) =
    (execute other (trim (text l)) ;; on_term show_prompt ;; on_term recolor_input ;; upd_term (set_term_dirty true)) (set_term t' s).
Proof.
  intros [Eb _ _ _ _ _ _ _ _ _]. unfold on_key. cbn [key_clears_selection]. rewrite <- Eb.
  exists (remember (trim (cmd_buf t)) (set_history_idx None (set_cmd_cursor 0 (set_cmd_buf [] (advance_row (set_col 0 (set_select_head None (set_select_anchor None t)))))))).
  split_and!; [by unfold remember; case_match|by unfold remember; case_match|].
  change (key_clears_selection 0x0A false) with true. change (u8 0x0A) with 0x0A. change (key_action other 0x0A shift false) with (enter other).
  cbn [Z.eqb orb andb KEY_UP]. unfold enter, upd_term, on_term, get, mbind, ST_bind.
  cbn -[execute trim show_prompt recolor_input remember advance_row].
  assert (cmd_buf (advance_row (set_col 0 (set_select_head None (set_select_anchor None t)))) = cmd_buf t) as -> by (unfold advance_row; by case_match).
  by destruct (execute other _ _) as [[[] s1]|].
Qed.

Lemma on_keys_rep ks t0 l (s : @shell D F) : prompt_ok t0 → Forall key_ok ks.*1 → line_rep t0 (term s) l →
  prompt_col t0 + len (text l) + typed ks.*1 < cols t0 → ∃ t', on_keys ks s = Ok (tt, set_term t' s) ∧ line_rep t0 t' (edits ks.*1 l).
Proof.
  assert (∀ ks, 0 ≤ typed ks) as Hpos by (clear; induction ks as [|[] ks IH]; cbn; lia).
  intros Hp Hks. revert l s. induction ks as [|[k sh] ks IH]; intros l s Hl Hfit; [exists (term s); by destruct s|].
  cbn [fmap list_fmap] in *. apply Forall_cons in Hks as [Hk Hks]. cbn [fst] in *.
  pose proof (edit_len k l (lr_cursor _ _ _ Hl)) as Hlen. assert (typed (k :: ks.*1) = typed [k] + typed ks.*1) as Et by (destruct k; cbn; lia).
  specialize (Hpos ks.*1). destruct (on_key_line t0 l k sh s Hp Hk Hl) as (t1 & E1 & H1); [lia|].
  cbn [on_keys]. unfold mbind, ST_bind. rewrite E1.
  destruct (IH Hks (edit k l) (set_term t1 s)) as (t2 & E2 & H2); [done|lia|]. exists t2. by destruct s.
Qed.

(** C23: As long as the input fits in the prompt's row, the keys of the terminal edit a
    string at a cursor: printable keys insert, Backspace deletes, the arrows, Ctrl+A and
    Ctrl+E move. Nothing panics; the row shows the prompt and exactly the string, every
    other row and the rest of the terminal are untouched; and Enter then runs that string,
    trimmed. *)
Theorem typing_refines_line ks t0 l (s : @shell D F) shift (Hp : prompt_ok t0) (Hks : Forall key_ok ks.*1)
  (Hl : line_rep t0 (term s) l) (Hfit : prompt_col t0 + len (text l) + typed ks.*1 < cols t0) :
  ∃ t', on_keys ks s = Ok (tt, set_term t' s) ∧ line_rep t0 t' (edits ks.*1 l) ∧
    ∃ t'', cmd_buf t'' = [] ∧ cmd_cursor t'' = 0 ∧ on_key other 0x0A shift false (set_term t' s) =
      (execute other (trim (text (edits ks.*1 l))) ;; on_term show_prompt ;; on_term recolor_input ;; upd_term (set_term_dirty true)) (set_term t'' s).
Proof.
  destruct (on_keys_rep ks t0 l s Hp Hks Hl Hfit) as (t' & E & H'). exists t'. split_and!; [done..|]. by apply (enter_rep t0).
Qed.
End sessions.

(** ** Printing never fails *)

(** The screen has its size, and the place to write at is on it. *)
Record screen_ok (t : Terminal) : Prop := {
  so_lines : len (lines t) = SCROLLBACK;
  so_width : Forall (λ r, len r = MAX_COLS) (lines t);
  so_col : 0 ≤ col t < cols t;
  so_row : 0 ≤ row t < SCROLLBACK;
  so_cols : 10 ≤ cols t ≤ MAX_COLS;
  so_prow : 0 ≤ prompt_row t < SCROLLBACK;
  so_pcol : 0 ≤ prompt_col t < cols t }.

Lemma screen_row t r : screen_ok t → 0 ≤ r < SCROLLBACK → ∃ l, lines t !! Z.to_nat r = Some l ∧ len l = MAX_COLS.
Proof.
  intros [Hl Hw _ _ _ _ _] Hr. destruct (lookup_lt_is_Some_2 (lines t) (Z.to_nat r)) as [l E]; [unfold len, SCROLLBACK in *; lia|].
  exists l. split; [done|]. by eapply (Forall_lookup_1 _ _ _ _ Hw).
Qed.

Lemma with_row_screen t r l : screen_ok t → len l = MAX_COLS → screen_ok (with_row r l t).
Proof.
  intros [] Hl. split; cbn; try done; [unfold len in *; by rewrite length_insert|]. by apply Forall_insert.
Qed.

Lemma advance_screen t : screen_ok t → screen_ok (advance_row t).
Proof.
  intros [Hl Hw ? Hr ? ? ?]. unfold advance_row. cbn [row set_row]. case_match; split; cbn; try done; try lia.
  - unfold len in *. rewrite length_app, length_drop. cbn. unfold SCROLLBACK in *. lia.
  - apply Forall_app. split; [by apply Forall_drop|]. constructor; [done|constructor].
Qed.

Lemma col_screen c t : screen_ok t → 0 ≤ c < cols t → screen_ok (set_col c t).
Proof. by intros [] ?. Qed.

(** Only the screen and the place to write at change. *)
Definition drawn (t t' : Terminal) : Prop := screen_ok t' ∧ rest t' = rest t ∧ cmd_buf t' = cmd_buf t ∧ cmd_cursor t' = cmd_cursor t.

Lemma drawn_trans t1 t2 t3 : drawn t1 t2 → drawn t2 t3 → drawn t1 t3.
Proof. intros (? & ? & ? & ?) (? & ? & ? & ?). split_and!; congruence. Qed.

Lemma advance_drawn t : screen_ok t → drawn t (advance_row t).
Proof. intros H. split; [by apply advance_screen|]. unfold advance_row. by case_match. Qed.

Lemma put_char_drawn b c t : screen_ok t → ∃ t', put_char b c t = Ok t' ∧ drawn t t'.
Proof.
  intros H. pose proof H as [Hl Hw Hc Hr Hco ? ?]. unfold put_char. case_match.
  { eexists. split; [done|]. apply (advance_drawn (set_col 0 t)). apply col_screen; [done|lia]. }
  case_match. { eexists. split; [done|]. split; [apply col_screen; [done|lia]|done]. }
  case_match; [|by exists t]. replace (row t <? len (lines t)) with true by lia.
  destruct (screen_row t (row t) H Hr) as (l & El & Hll). rewrite (cell_set_ok _ _ _ _ l) by (done || lia). cbn [mbind outcome_bind].
  rewrite (wrap_small 64) by (unfold is_u, MAX_COLS in *; cbn; lia). eexists. split; [done|].
  set (t1 := with_row _ _ t). assert (drawn t t1) as Hd by (split; [apply with_row_screen; [done|unfold len in *; by rewrite length_insert]|done]).
  eapply drawn_trans; [exact Hd|]. destruct Hd as [Hd _]. change (cols (set_col (col t1 + 1) t1)) with (cols t). cbn [col set_col].
  change (col t1) with (col t). case_match; [|split; [apply col_screen; [done|cbn; lia]|done]].
  apply (advance_drawn (set_col 0 (set_col (col t + 1) t1))). apply (col_screen 0 t1); [done|cbn; lia].
Qed.

Lemma put_chars_drawn l c t : screen_ok t → ∃ t', put_chars l c t = Ok t' ∧ drawn t t'.
Proof.
  revert t. induction l as [|b l IH]; intros t H; [by exists t|]. cbn [put_chars].
  destruct (put_char_drawn b c t H) as (t1 & -> & H1). cbn. destruct (IH t1) as (t2 & -> & H2); [apply H1|].
  exists t2. split; [done|]. by eapply drawn_trans.
Qed.

Lemma print_drawn s c t : screen_ok t → ∃ t', print_colored s c t = Ok t' ∧ drawn t t'.
Proof.
  intros H. unfold print_colored. destruct (put_chars_drawn (u8 <$> chars s) c t H) as (t' & -> & H1 & H2). cbn.
  eexists. split; [done|]. split; [by destruct H1|done].
Qed.

Lemma show_prompt_screen t : screen_ok t → ∃ t', show_prompt t = Ok t' ∧ screen_ok t' ∧ cmd_buf t' = cmd_buf t.
Proof.
  intros H. unfold show_prompt. destruct (print_drawn (cwd_path t ++ txt " $ ") CURSOR t H) as (t' & -> & H1 & _ & H2 & _). cbn.
  eexists. split; [done|]. split; [by destruct H1|done].
Qed.

(** Wherever the column is. *)
Lemma recolor_total t : screen_ok (set_col 0 t) → ∃ l, recolor_input t = Ok (with_row (prompt_row t) l t) ∧ len l = MAX_COLS.
Proof.
  intros H. pose proof H as [? ? ? ? Hco Hpr Hpc]. cbn in *. unfold recolor_input. destruct (highlight_kw_ok (cmd_buf t) COMMAND_NAMES) as [cs ->]. cbn.
  destruct (screen_row _ (prompt_row t) H Hpr) as (l & El & Hl). cbn in El.
  destruct (recolor_ok cs (prompt_row t) (prompt_col t) t l) as (l' & -> & Hl' & _); [lia|done|lia|lia|].
  exists l'. split; [done|]. unfold len in *. by rewrite Hl'.
Qed.

Lemma blank_cells_screen n r c t : screen_ok t → 0 ≤ r < SCROLLBACK → 0 ≤ c → c + Z.of_nat n ≤ MAX_COLS →
  ∃ t', blank_cells n r c t = Ok t' ∧ drawn t t'.
Proof.
  revert c t. induction n as [|n IH]; intros c t H Hr Hc Hn; [by exists t|]. cbn [blank_cells].
  destruct (screen_row t r H Hr) as (l & El & Hl). rewrite (cell_set_ok _ _ _ _ l) by (done || lia). cbn [mbind outcome_bind].
  destruct (IH (c + 1) (with_row r (<[Z.to_nat c:=blank]> l) t)) as (t' & -> & H'); [|done|lia|lia|].
  - apply with_row_screen; [done|unfold len in *; by rewrite length_insert].
  - exists t'. split; [done|]. eapply drawn_trans; [|exact H']. split; [|done]. apply with_row_screen; [done|unfold len in *; by rewrite length_insert].
Qed.

Lemma push_saved_screen saved t : screen_ok t → Forall printable saved →
  ∃ t', foldl (λ r b, t ← r; push_typed b t) (Ok t) saved = Ok t' ∧ screen_ok t' ∧ cmd_buf t' = cmd_buf t ++ saved.
Proof.
  intros H Hs. revert t H. induction Hs as [|b saved Hb Hs IH]; intros t H; [exists t; by rewrite app_nil_r|].
  cbn [foldl mbind outcome_bind]. unfold push_typed at 2. rewrite char_bytes_printable by done.
  destruct (put_char_drawn b TEXT (set_cmd_buf (cmd_buf t ++ [b]) t)) as (t1 & -> & H1 & _ & E1 & _); [by destruct H|].
  destruct (IH t1 H1) as (t2 & -> & H2 & E2). exists t2. split_and!; [done..|]. rewrite E2, E1. cbn. by rewrite <- app_assoc.
Qed.

(** Output that arrives while a command is being typed doubles the command:
    [print_async] prints its message without a panic whatever it is, and re-types the
    saved input after the input it never cleared. *)
Theorem async_output_doubles_input t msg (Hs : screen_ok t) (Hb : Forall printable (cmd_buf t)) :
  ∃ t', print_async msg t = Ok t' ∧ cmd_buf t' = cmd_buf t ++ cmd_buf t ∧
    (cmd_buf t ≠ [] → 0 ≤ cmd_cursor t ≤ len (cmd_buf t) → cmd_cursor t' = cmd_cursor t).
Proof.
  pose proof Hs as [_ _ _ _ Hco Hpr Hpc]. unfold print_async.
  destruct (blank_cells_screen (Z.to_nat (cols t - prompt_col t)) (prompt_row t) (prompt_col t) t) as (t1 & -> & H1 & R1 & B1 & _); [done|done|lia|lia|].
  cbn [mbind outcome_bind]. destruct (rest_fields _ _ R1) as (Eco1 & _ & Epc1).
  destruct (print_drawn msg TEXT (set_col (prompt_col t1) t1)) as (t2 & E2 & H2 & _ & B2 & _); [apply col_screen; [done|by destruct H1]|].
  unfold print. rewrite E2. cbn [mbind outcome_bind].
  assert (∃ t3, (if bool_decide (last msg = Some 0x0A) then Ok t2 else put_char 0x0A TEXT t2) = Ok t3 ∧ screen_ok t3 ∧ cmd_buf t3 = cmd_buf t2)
    as (t3 & -> & H3 & B3).
  { case_match; [by exists t2|]. destruct (put_char_drawn 0x0A TEXT t2 H2) as (t3 & -> & H3 & _ & B3 & _). by exists t3. }
  cbn [mbind outcome_bind]. destruct (show_prompt_screen t3 H3) as (t4 & -> & H4 & B4). cbn [mbind outcome_bind].
  destruct (push_saved_screen (cmd_buf t) t4 H4 Hb) as (t5 & -> & H5 & B5). cbn [mbind outcome_bind].
  set (t6 := if _ : bool then _ else _).
  assert (screen_ok (set_col 0 t6)) as H6. { unfold t6. destruct H5. case_match; split; cbn; try done; lia. }
  assert (cmd_buf t6 = cmd_buf t ++ cmd_buf t) as B6. { transitivity (cmd_buf t5); [unfold t6; by case_match|]. by rewrite B5, B4, B3, B2, <- B1. }
  assert (cmd_buf t ≠ [] → 0 ≤ cmd_cursor t ≤ len (cmd_buf t) → cmd_cursor t6 = cmd_cursor t) as C6.
  { intros Hne Hc. unfold t6. cbn [cmd_buf set_cmd_cursor]. rewrite B5. case_match; [done|]. unfold len in *. rewrite length_app in *.
    destruct (cmd_buf t); [done|]. cbn in *. lia. }
  clearbody t6. destruct (recolor_total t6 H6) as (l & -> & _). cbn [mbind outcome_bind]. by eexists.
Qed.

(** ** A line that wraps *)

Section wrap.
Context {D F : Type} `{!Drive D} `{!FrameSource F}.
Variable other : list Z → list Z → list Z → ST (@shell D F) unit.

Lemma unselected_screen k t : screen_ok t → screen_ok (unselected k t).
Proof. intros H. unfold unselected. case_match; [|done]. by destruct H. Qed.

(** The key that fills the row moves to column 0 of the next one. *)
Lemma fill_row t b : screen_ok t → printable b → Forall printable (cmd_buf t) → cmd_cursor t = len (cmd_buf t) → 2 < prompt_col t →
  col t = cols t - 1 → prompt_col t + len (cmd_buf t) = cols t - 1 →
  ∃ t', insert_key b t = Ok t' ∧ screen_ok t' ∧ col t' = 0 ∧ cols t' = cols t ∧ cmd_buf t' = cmd_buf t ++ [b] ∧ cmd_cursor t' = cmd_cursor t + 1.
Proof.
  intros H Hb Ht Hcur Hpc Hcol Hfull. pose proof H as [Hl ? ? Hr Hco ? ?]. unfold insert_key. rewrite Hcur, Z.eqb_refl.
  replace (len (cmd_buf t) <? Z.max (cols t - 2) 0) with true by lia. unfold push_typed. rewrite char_bytes_printable by done.
  destruct Hb as [Hb1 Hb2]. unfold put_char. replace (b =? 0x0A) with false by lia. replace (b =? 0x0D) with false by lia. replace (32 <=? b) with true by lia.
  cbn [row col lines set_cmd_buf]. replace (row t <? len (lines t)) with true by lia.
  destruct (screen_row t (row t) H Hr) as (l & El & Hll). rewrite (cell_set_ok _ _ _ _ l) by (done || lia). cbn [mbind outcome_bind].
  rewrite (wrap_small 64) by (unfold is_u, MAX_COLS in *; cbn; lia). set (l' := <[_ := _]> l).
  assert (len l' = MAX_COLS) as Hl' by (unfold l', len in *; by rewrite length_insert). clearbody l'. cbn [col cols with_row set_lines set_cmd_buf set_col].
  replace (cols t <=? col t + 1) with true by lia. eexists. split; [done|].
  set (t1 := set_col 0 _). assert (screen_ok t1) as H1.
  { apply (col_screen 0 (with_row (row t) l' (set_cmd_buf (cmd_buf t ++ [b]) t))); [|cbn; lia]. by apply with_row_screen; [destruct H|]. }
  pose proof (advance_screen t1 H1) as H2. assert (col (advance_row t1) = 0) as Ec by (unfold advance_row; by case_match).
  destruct (advance_drawn t1 H1) as (_ & Er & Eb & Ecu). destruct (rest_fields _ _ Er) as (Eco & _).
  split_and!; [by destruct H2|done|done|exact Eb|]. cbn [cmd_cursor set_cmd_cursor]. rewrite Ecu. change (cmd_cursor t1) with (cmd_cursor t). by rewrite Hcur.
Qed.

(** Left from column 0 wraps the column around. *)
Lemma left_from_zero t sh : screen_ok t → col t = 0 → 0 < cmd_cursor t →
  ∃ t', cursor_left sh t = t' ∧ screen_ok (set_col 0 t') ∧ col t' = 2 ^ 64 - 1 ∧ cols t' = cols t ∧ cmd_buf t' = cmd_buf t ∧ cmd_cursor t' = cmd_cursor t - 1.
Proof.
  intros [] Hc Hk. eexists. split; [done|]. unfold cursor_left, update_selection_anchor, sync_selection_head.
  destruct sh; [destruct (select_anchor t)|]; cbn; replace (0 <? cmd_cursor t) with true by lia; cbn; rewrite ?Hc;
    try (destruct (select_anchor t)); cbn; (split; [split; cbn; try done; lia|done]).
Qed.

Lemma type_off_screen t b : screen_ok (set_col 0 t) → col t = 2 ^ 64 - 1 → printable b → Forall printable (cmd_buf t) →
  0 ≤ cmd_cursor t < len (cmd_buf t) → len (cmd_buf t) < cols t - 2 → insert_key b t = Panic "index out of bounds".
Proof.
  intros H Hc Hb Ht Hcur Hlen. pose proof H as [? ? ? Hr Hco ? ?]. cbn in *. unfold insert_key.
  replace (len (cmd_buf t) <? Z.max (cols t - 2) 0) with true by lia. replace (cmd_cursor t =? len (cmd_buf t)) with false by lia.
  rewrite str_insert_printable by (done || lia). cbn [mbind outcome_bind cols col row set_cmd_buf].
  replace (Z.to_nat (cols t - 1 - col t)) with 0%nat by (unfold MAX_COLS in *; lia). cbn [shift_right mbind outcome_bind].
  destruct (screen_row _ (row t) H Hr) as (l & El & Hl). cbn [row col set_cmd_buf]. unfold cell_set.
  rewrite (idx_some _ _ l) by (done || lia). cbn [mbind outcome_bind]. rewrite bool_decide_false; [done|]. unfold MAX_COLS in *. lia.
Qed.

(** Typing past the end of the prompt's row is fatal: when the typed character fills
    the row, the cursor goes to column 0 of the next one; Left then takes the column below
    zero, and the next printable key indexes the screen there and stops the kernel. *)
Theorem left_past_wrap_panics t0 l (s : @shell D F) b b' sh1 sh2 sh3 (Hs : screen_ok (term s)) (Hl : line_rep t0 (term s) l)
  (Hend : cursor l = len (text l)) (Hfull : prompt_col t0 + len (text l) = cols t0 - 1) (Hpc : 2 < prompt_col t0) (Hb : printable b) (Hb' : printable b') :
  on_keys other [(KType b, sh1); (KLeft, sh2); (KType b', sh3)] s = Panic "index out of bounds".
Proof.
  pose proof Hl as [Eb Ec Ecol _ Hre _ _ _ Ht _]. destruct (rest_fields _ _ Hre) as (Ecols & _ & Epc).
  cbn [on_keys]. unfold mbind, ST_bind at 1. rewrite on_key_steps by done. cbn [line_action].
  set (t1 := unselected (KType b) (term s)). assert (screen_ok t1) as H1 by (by apply unselected_screen).
  assert (cmd_buf t1 = text l ∧ cmd_cursor t1 = cursor l ∧ col t1 = prompt_col t0 + cursor l ∧ cols t1 = cols t0 ∧ prompt_col t1 = prompt_col t0)
    as (Eb1 & Ec1 & Eco1 & Ecols1 & Epc1) by (unfold t1, unselected; by case_match).
  clearbody t1. destruct (fill_row t1 b) as (t2 & -> & H2 & C2 & W2 & B2 & K2); [done|done|by rewrite Eb1|by rewrite Ec1, Eb1|lia|lia|rewrite Eb1; lia|].
  cbn [mbind outcome_bind]. assert (screen_ok (set_col 0 t2)) as H2' by (apply col_screen; [done|destruct H2; lia]).
  destruct (recolor_total t2 H2') as (r2 & -> & L2). cbn [mbind outcome_bind].
  unfold ST_bind at 1. rewrite on_key_steps by done. cbn [line_action term set_term mbind outcome_bind].
  set (t3 := unselected _ _). assert (screen_ok t3) as H3 by (apply unselected_screen; destruct (with_row_screen t2 (prompt_row t2) r2 H2 L2); done).
  assert (col t3 = 0 ∧ cols t3 = cols t0 ∧ cmd_buf t3 = text l ++ [b] ∧ cmd_cursor t3 = cursor l + 1) as (C3 & W3 & B3 & K3).
  { unfold t3, unselected. case_match; cbn; split_and!; congruence. }
  clearbody t3. destruct (lr_cursor _ _ _ Hl) as [Hc0 _]. destruct (left_from_zero t3 sh2) as (t4 & -> & H4 & C4 & W4 & B4 & K4); [done|done|lia|].
  destruct (recolor_total t4 H4) as (r4 & -> & L4). cbn [mbind outcome_bind]. unfold ST_bind at 1. rewrite on_key_steps by done.
  cbn [line_action term set_term]. set (t5 := unselected _ _).
  assert (screen_ok (set_col 0 t5) ∧ col t5 = col t4 ∧ cols t5 = cols t4 ∧ cmd_buf t5 = cmd_buf t4 ∧ cmd_cursor t5 = cmd_cursor t4) as (H5 & C5 & W5 & B5 & K5).
  { unfold t5, unselected. destruct (with_row_screen (set_col 0 t4) (prompt_row t4) r4 H4 L4).
    case_match; cbn in *; split_and!; try done; by split. }
  clearbody t5. rewrite (type_off_screen t5 b'); [done|done|congruence|done|..]; rewrite B5, B4, B3; [|rewrite K5, K4, K3|rewrite W5, W4, W3].
  - apply Forall_app. split; [done|]. by apply Forall_singleton.
  - unfold len in *. rewrite length_app. cbn. lia.
  - unfold len in *. rewrite length_app. cbn. lia.
Qed.
End wrap.
(** ** Witnesses *)

Definition demo_term : Terminal := match terminal_new 2 with Ok t => t | Panic _ => mkTerminal [] 0 0 0 false [] 0 0 0 0 [] [] None None None 0 0 0 end.
Definition demo_shell (t : Terminal) : @shell ram_disk pmm := mkShell t [] None.
Definition no_commands : list Z → list Z → list Z → ST (@shell ram_disk pmm) unit := λ _ _ _, mret tt.

(** The main terminal just after it was opened. *)
Lemma demo_term_eq : terminal_new 2 = Ok demo_term.
Proof. vm_compute. reflexivity. Qed.

Lemma prompt_is_row t c : lines t !! Z.to_nat (prompt_row t) = Some c → len c = MAX_COLS → cmd_buf t = [] → cmd_cursor t = 0 →
  col t = prompt_col t → row t = prompt_row t → 0 ≤ prompt_col t < cols t → cols t ≤ MAX_COLS →
  forallb (λ x, ch x =? 0x20) (drop (Z.to_nat (prompt_col t)) c) = true → line_rep t t (mkLine [] 0).
Proof.
  intros E Hl Eb Ec Eco Er Hpc Hco Hf. split; cbn; try done; try (unfold len; cbn; lia).
  - exists c, c. split_and!; try done. intros j Hj.
    destruct (lookup_lt_is_Some_2 c (Z.to_nat (prompt_col t + j))) as [x Ex]; [unfold len, MAX_COLS in *; lia|]. rewrite Ex. cbn. f_equal.
    rewrite forallb_forall in Hf. apply Z.eqb_eq, Hf, list_elem_of_In.
    apply (list_elem_of_lookup_2 _ (Z.to_nat j)). rewrite lookup_drop. rewrite <- Ex. f_equal. lia.
Qed.

Lemma demo_prompt_ok : prompt_ok demo_term.
Proof. split; vm_compute; try (split; congruence); congruence || reflexivity. Qed.

Lemma demo_line : line_rep demo_term demo_term (mkLine [] 0).
Proof.
  destruct (lines demo_term !! Z.to_nat (prompt_row demo_term)) as [c|] eqn:E; [|vm_compute in E; discriminate].
  apply (prompt_is_row demo_term c E); vm_compute in E; injection E as <-; vm_compute; try reflexivity; try (split; congruence); try congruence.
Qed.

Definition screen_okb (t : Terminal) : bool :=
  (len (lines t) =? SCROLLBACK) && forallb (λ r, len r =? MAX_COLS) (lines t) && (0 <=? col t) && (col t <? cols t) && (0 <=? row t) && (row t <? SCROLLBACK)
  && (10 <=? cols t) && (cols t <=? MAX_COLS) && (0 <=? prompt_row t) && (prompt_row t <? SCROLLBACK) && (0 <=? prompt_col t) && (prompt_col t <? cols t).

Lemma screen_okb_ok t : screen_okb t = true → screen_ok t.
Proof.
  unfold screen_okb. rewrite !andb_true_iff. intros [[[[[[[[[[[Hl Hf] ?] ?] ?] ?] ?] ?] ?] ?] ?] ?]. split; try lia.
  apply Forall_forall. intros r Hr. rewrite forallb_forall in Hf. by apply Z.eqb_eq, Hf, list_elem_of_In.
Qed.

(** "ls" typed as "s", Ctrl+A, "l". *)
Lemma typing_refines_line_witness :
  ∃ t', on_keys no_commands [(KType 0x73, false); (KStart, true); (KType 0x6C, true)] (demo_shell demo_term) = Ok (tt, demo_shell t') ∧
    cmd_buf t' = txt "ls" ∧ cmd_cursor t' = 1.
Proof.
  destruct (typing_refines_line no_commands [(KType 0x73, false); (KStart, true); (KType 0x6C, true)] demo_term (mkLine [] 0) (demo_shell demo_term) false)
    as (t' & E & Hl & _); [exact demo_prompt_ok| |exact demo_line|vm_compute; reflexivity|].
  - repeat constructor; vm_compute; congruence || reflexivity.
  - exists t'. split; [exact E|]. split; [exact (lr_buf _ _ _ Hl)|exact (lr_cur _ _ _ Hl)].
Defined.

(** "ls" is being typed when a reply arrives: the next Enter runs "lsls". *)
Definition typed_ls : Terminal := match on_keys no_commands [(KType 0x6C, false); (KType 0x73, false)] (demo_shell demo_term) with Ok (_, s) => term s | Panic _ => demo_term end.

Lemma async_output_doubles_input_witness : ∃ t', print_async (txt "64 bytes from 10.0.2.2") typed_ls = Ok t' ∧ cmd_buf t' = txt "lsls".
Proof.
  destruct (async_output_doubles_input typed_ls (txt "64 bytes from 10.0.2.2")) as (t' & E & Eb & _).
  - apply screen_okb_ok. vm_compute. reflexivity.
  - vm_compute. repeat constructor; congruence || reflexivity.
  - exists t'. split; [exact E|]. rewrite Eb. vm_compute. reflexivity.
Defined.

(** 26 characters fill the row of the 30-column terminal after "/ $ ". *)
Definition full_line : list (lkey * bool) := replicate 25 (KType 0x61, false).
Definition almost_full : Terminal := match on_keys no_commands full_line (demo_shell demo_term) with Ok (_, s) => term s | Panic _ => demo_term end.

Lemma left_past_wrap_panics_witness :
  on_keys no_commands [(KType 0x61, false); (KLeft, false); (KType 0x62, false)] (demo_shell almost_full) = Panic "index out of bounds".
Proof.
  apply (left_past_wrap_panics no_commands demo_term (mkLine (replicate 25 0x61) 25)).
  - apply screen_okb_ok. vm_compute. reflexivity.
  - destruct (on_keys_rep no_commands full_line demo_term (mkLine [] 0) (demo_shell demo_term)) as (t' & E & H).
    + exact demo_prompt_ok.
    + repeat constructor; vm_compute; congruence || reflexivity.
    + exact demo_line.
    + vm_compute. reflexivity.
    + assert (demo_shell almost_full = set_term t' (demo_shell demo_term)) as -> by (unfold almost_full; rewrite E; reflexivity). exact H.
  - reflexivity.
  - reflexivity.
  - reflexivity.
  - split; vm_compute; congruence || reflexivity.
  - split; vm_compute; congruence || reflexivity.
Defined.

(** Home (0x85) is pushed as the two bytes of U+0085 while the cursor moves by one: the next key is inserted inside it. *)
Lemma home_key_panics : (on_key no_commands 0x85 false false ;; on_key no_commands 0x61 false false) (demo_shell demo_term) = Panic "not a char boundary".
Proof. vm_compute. reflexivity. Qed.
