(* ===== verification/Nvme.v ===== *)
(** The NVMe disk ([kernel/src/nvme.rs]) and its driver process ([userspace/nvmed/src/main.rs]):
    queue pairs, commands, the in-kernel path, the mailbox path, and the hand-over between them.

    The controller is outside the sources: it is the class [NvmeDevice], whose laws are what the
    NVM Express specification says of a queue pair and of the Read and Write commands, page
    crossing included. A queue page is the list of its entries; doorbells are identified by
    queue. Data buffers are physical memory. Where the two sides of the mailbox meet, every
    access to a field they share is a step of its own.

    Not modelled: register set-up and the reset handshake of [init], logging, and how a
    service is launched (as for [gopd] in [Display]). *)

From stdpp Require Import prelude list numbers strings.
From S2P Require Import Prelude Pmm Memory.

Local Open Scope Z_scope.

Definition QD : Z := 64.
Definition PAGE : Z := 4096.

(** ** Queue entries *)

Record SqEntry := mkSqe {
  cdw0 : Z; nsid : Z; cdw2 : Z; cdw3 : Z; mptr : Z; prp1 : Z; prp2 : Z; cdw10 : Z; cdw11 : Z; cdw12 : Z; cdw13 : Z; cdw14 : Z; cdw15 : Z }.
Definition sqe_default : SqEntry := mkSqe 0 0 0 0 0 0 0 0 0 0 0 0 0.

Record CqEntry := mkCqe { cq_cdw0 : Z; sq_head : Z; sq_id : Z; cqe_cid : Z; status : Z }.
Definition cqe_default : CqEntry := mkCqe 0 0 0 0 0.

Record Queue := mkQueue { sq : list SqEntry; cq : list CqEntry; sq_phys : Z; cq_phys : Z; sq_tail : Z; cq_head : Z; phase : bool }.

(** ** What a command asks for *)

Definition opcode (e : SqEntry) : Z := Z.land (cdw0 e) 0xFF.
Definition sqe_cid (e : SqEntry) : Z := Z.shiftr (cdw0 e) 16.
Definition sqe_lba (e : SqEntry) : Z := cdw10 e + Z.shiftl (cdw11 e) 32.
Definition sqe_blocks (e : SqEntry) : Z := Z.land (cdw12 e) 0xFFFF + 1.

(** Byte [i] of the transfer: from [prp1] to the end of its page, then from [prp2]. *)
Definition dma_addr (e : SqEntry) (i : Z) : Z :=
  if prp1 e mod PAGE + i <? PAGE then prp1 e + i else prp2 e + (prp1 e mod PAGE + i - PAGE).
Definition dma_out (m : memory) (e : SqEntry) (n : Z) : list Z := (λ i, m (dma_addr e i)) <$> seqZ 0 n.
Definition dma_in (m : memory) (e : SqEntry) (l : list Z) : memory :=
  let k := Z.to_nat (PAGE - prp1 e mod PAGE) in poke (poke m (prp1 e) (take k l)) (prp2 e) (drop k l).

(** The controller's place in a queue pair: submission head, completion tail, its phase. *)
Definition next_pos (p : Z * Z * bool) : Z * Z * bool :=
  let '(h, t, ph) := p in ((h + 1) mod QD, (t + 1) mod QD, if (t + 1) mod QD =? 0 then negb ph else ph).

(** The completion of [e] with status code [st], as seen under phase [ph]. *)
Definition posted (e : SqEntry) (st : Z) (ph : bool) (c : CqEntry) : Prop :=
  cqe_cid c = sqe_cid e ∧ status c = 2 * st + Z.b2z ph.

(** A read or write of the namespace that the specification lets the controller carry out
    within two pages. *)
Record rw_ok (op : Z) (e : SqEntry) (lba n size count : Z) : Prop := {
  rw_op : opcode e = op;
  rw_ns : nsid e = 1;
  rw_lba : sqe_lba e = lba;
  rw_range : 0 ≤ lba ∧ lba + sqe_blocks e ≤ count;
  rw_len : n = sqe_blocks e * size ∧ n ≤ PAGE;
  rw_align : prp1 e mod 4 = 0 ∧ prp2 e mod PAGE = 0 }.

(** ** The controller *)

Class NvmeDevice (D : Type) := {
  nv_byte : D → Z → Z;
  nv_size : D → Z;
  nv_count : D → Z;
  nv_pos : D → Z → Z * Z * bool;
  (** The write of a doorbell of queue pair [qid]: what its completion page, memory and the
      controller come to be. *)
  nv_ring : D → Z → list SqEntry → list CqEntry → Z → memory → list CqEntry * memory * D;
  (** How many polls of the completion page it takes until that shows. *)
  nv_latency : D → nat;
  nv_read_law : ∀ d sqs cqs m h t ph e lba n, nv_pos d 1 = (h, t, ph) → sqs !! Z.to_nat h = Some e → rw_ok 2 e lba n (nv_size d) (nv_count d) →
    ∃ d' c, nv_ring d 1 sqs cqs ((h + 1) mod QD) m = (<[Z.to_nat t := c]> cqs, dma_in m e (nv_byte d <$> seqZ (lba * nv_size d) n), d') ∧
      posted e 0 ph c ∧ nv_pos d' 1 = next_pos (h, t, ph) ∧ nv_size d' = nv_size d ∧ nv_count d' = nv_count d ∧ ∀ o, nv_byte d' o = nv_byte d o;
  nv_write_law : ∀ d sqs cqs m h t ph e lba n, nv_pos d 1 = (h, t, ph) → sqs !! Z.to_nat h = Some e → rw_ok 1 e lba n (nv_size d) (nv_count d) →
    ∃ d' c, nv_ring d 1 sqs cqs ((h + 1) mod QD) m = (<[Z.to_nat t := c]> cqs, m, d') ∧
      posted e 0 ph c ∧ nv_pos d' 1 = next_pos (h, t, ph) ∧ nv_size d' = nv_size d ∧ nv_count d' = nv_count d ∧
      ∀ o, 0 ≤ o → nv_byte d' o = if bool_decide (lba * nv_size d ≤ o < lba * nv_size d + n) then m (dma_addr e (o - lba * nv_size d)) else nv_byte d o
}.

Section nvme.
Context {D : Type} `{!NvmeDevice D}.

(** ** Queues *)

(** A completion page as a poller sees it at its [i]-th look. *)
Definition view : Type := nat → list CqEntry.

Definition with_cid (cid : Z) (e : SqEntry) : SqEntry :=
  mkSqe (Z.lor (Z.land (cdw0 e) 0xFFFF) (Z.shiftl cid 16)) (nsid e) (cdw2 e) (cdw3 e) (mptr e) (prp1 e) (prp2 e) (cdw10 e) (cdw11 e) (cdw12 e) (cdw13 e) (cdw14 e) (cdw15 e).

Definition q_submit (qid : Z) (q : Queue) (cid : Z) (cmd : SqEntry) (m : memory) (d : D) : Queue * view * memory * D :=
  let sqs := <[Z.to_nat (sq_tail q) := with_cid cid cmd]> (sq q) in
  let tail := (sq_tail q + 1) mod QD in
  let '(cqs, m', d') := nv_ring d qid sqs (cq q) tail m in
  (mkQueue sqs cqs (sq_phys q) (cq_phys q) tail (cq_head q) (phase q), λ i, if (i <? nv_latency d)%nat then cq q else cqs, m', d').

Fixpoint q_poll (fuel i : nat) (v : view) (head : Z) (ph : bool) (cid : Z) : option CqEntry :=
  match fuel with
  | O => None
  | S fuel =>
    match v i !! Z.to_nat head with
    | Some e => if (Z.land (status e) 1 =? Z.b2z ph) && (cqe_cid e =? cid) then Some e else q_poll fuel (S i) v head ph cid
    | None => None
    end
  end.

(** [q_wait] with its bound on polls; [None] when it gives up. *)
Definition q_wait (budget : nat) (q : Queue) (v : view) (cid : Z) : option Z * Queue :=
  match q_poll budget 0 v (cq_head q) (phase q) cid with
  | Some e =>
    let head := (cq_head q + 1) mod QD in
    (Some (Z.land (Z.shiftr (status e) 1) 0x7FF), mkQueue (sq q) (cq q) (sq_phys q) (cq_phys q) (sq_tail q) head (if head =? 0 then negb (phase q) else phase q))
  | None => (None, q)
  end.

(** The kernel's bound and, below it, [nvmed]'s. *)
Definition KERNEL_SPINS : nat := Z.to_nat 200000001.
Definition NVMED_SPINS : nat := Z.to_nat 200000000.

Definition make_queue (sq_phys cq_phys : Z) : Queue :=
  mkQueue (replicate (Z.to_nat QD) sqe_default) (replicate (Z.to_nat QD) cqe_default) sq_phys cq_phys 0 0 true.

(** ** The mailbox *)

Record Mailbox := mkMailbox {
  mb_sq_phys : Z; mb_cq_phys : Z; mb_qd : Z; mb_tail : Z; mb_head : Z; mb_phase : Z; mb_op : Z; mb_status : Z; mb_lba : Z; mb_count : Z; mb_stop : Z }.
Definition eta_mailbox (b : Mailbox) : Mailbox :=
  mkMailbox (mb_sq_phys b) (mb_cq_phys b) (mb_qd b) (mb_tail b) (mb_head b) (mb_phase b) (mb_op b) (mb_status b) (mb_lba b) (mb_count b) (mb_stop b).
Definition set_op (v : Z) (b : Mailbox) : Mailbox := ltac:(upd eta_mailbox mb_op b v).
Definition set_status (v : Z) (b : Mailbox) : Mailbox := ltac:(upd eta_mailbox mb_status b v).
Definition set_lba (v : Z) (b : Mailbox) : Mailbox := ltac:(upd eta_mailbox mb_lba b v).
Definition set_count (v : Z) (b : Mailbox) : Mailbox := ltac:(upd eta_mailbox mb_count b v).
Definition set_stop (v : Z) (b : Mailbox) : Mailbox := ltac:(upd eta_mailbox mb_stop b v).
Definition set_position (t h : Z) (ph : bool) (b : Mailbox) : Mailbox :=
  mkMailbox (mb_sq_phys b) (mb_cq_phys b) (mb_qd b) t h (Z.b2z ph) (mb_op b) (mb_status b) (mb_lba b) (mb_count b) (mb_stop b).

(** [offset_of!(Mailbox, data)]: three 8-byte and seven 4-byte fields, padding to 8, [lba],
    [count] and [_pad0] come before it. *)
Definition DATA_OFF : Z := 72.

Record NvmeController := mkCtrl { admin : Queue; io : Queue; cid : Z; lba_size : Z; lba_count : Z; mailbox : bool; mailbox_page_phys : option Z }.

Definition set_io (q : Queue) (c : NvmeController) : NvmeController := mkCtrl (admin c) q (cid c) (lba_size c) (lba_count c) (mailbox c) (mailbox_page_phys c).
Definition set_mailbox (b : bool) (c : NvmeController) : NvmeController := mkCtrl (admin c) (io c) (cid c) (lba_size c) (lba_count c) b (mailbox_page_phys c).

(** ** The in-kernel path *)

Record host := mkHost { ctrl : NvmeController; ram : memory; disk : D }.

(** [next_cid] *)
Definition next_cid (c : NvmeController) : NvmeController := mkCtrl (admin c) (io c) (u16 (cid c + 1)) (lba_size c) (lba_count c) (mailbox c) (mailbox_page_phys c).

Definition rw_cmd (op lba count buf : Z) : SqEntry :=
  mkSqe op 1 0 0 0 buf 0 (u32 lba) (u32 (Z.shiftr lba 32)) (u16 (count - 1)) 0 0 0.

Definition io_cmd (op lba count buf : Z) : ST host (option Z) := λ s,
  let c := next_cid (ctrl s) in
  let '(q, v, m, d) := q_submit 1 (io c) (cid c) (rw_cmd op lba count buf) (ram s) (disk s) in
  let '(r, q) := q_wait KERNEL_SPINS q v (cid c) in
  Ok (r, mkHost (set_io q c) m d).

Definition read_blocks_direct (lba count buf : Z) : ST host unit :=
  r ← io_cmd 2 lba count buf; lift (rassert (bool_decide (r = Some 0)) "NVMe read failed").
Definition write_blocks_direct (lba count buf : Z) : ST host unit :=
  r ← io_cmd 1 lba count buf; lift (rassert (bool_decide (r = Some 0)) "NVMe write failed").

(** ** Bring-up: the commands on the admin queue *)

Definition set_admin (q : Queue) (c : NvmeController) : NvmeController := mkCtrl q (io c) (cid c) (lba_size c) (lba_count c) (mailbox c) (mailbox_page_phys c).
Definition set_geometry (size count : Z) (c : NvmeController) : NvmeController := mkCtrl (admin c) (io c) (cid c) size count (mailbox c) (mailbox_page_phys c).

(** The status word; 0xFFF when the wait gave up. *)
Definition admin_cmd (cmd : SqEntry) : ST host Z := λ s,
  let c := next_cid (ctrl s) in
  let '(q, v, m, d) := q_submit 0 (admin c) (cid c) cmd (ram s) (disk s) in
  let '(r, q) := q_wait KERNEL_SPINS q v (cid c) in
  Ok (default 0xFFF r, mkHost (set_admin q c) m d).

Definition identify (cns ns buf_phys : Z) : ST host unit :=
  s ← admin_cmd (mkSqe 0x06 ns 0 0 0 buf_phys 0 cns 0 0 0 0 0); lift (rassert (s =? 0) "NVMe Identify failed").
Definition create_io_cq (qid phys size : Z) : ST host unit :=
  s ← admin_cmd (mkSqe 0x05 0 0 0 0 phys 0 (Z.lor (Z.shiftl (size - 1) 16) qid) 1 0 0 0 0); lift (rassert (s =? 0) "NVMe Create I/O CQ failed").
Definition create_io_sq (qid phys size cqid : Z) : ST host unit :=
  s ← admin_cmd (mkSqe 0x01 0 0 0 0 phys 0 (Z.lor (Z.shiftl (size - 1) 16) qid) (Z.lor (Z.shiftl cqid 16) 1) 0 0 0 0);
  lift (rassert (s =? 0) "NVMe Create I/O SQ failed").

(** The block size and count an Identify Namespace page at [a] gives. *)
Definition ns_geometry (m : memory) (a : Z) : Z * Z :=
  let lbaf_idx := Z.land (m (a + 26)) 0x0F in
  let lbads := Z.land (Z.shiftr (le_val (peek m (a + 128 + 4 * lbaf_idx) 4)) 16) 0xFF in
  (u32 (Z.shiftl 1 (lbads mod 32)), read64 m a).

(** [init] once the controller is enabled; the arguments are the pages it allocated. *)
Definition bring_up (id_phys ns_phys : Z) : ST host unit :=
  modify (λ s, mkHost (ctrl s) (zero_page (ram s) id_phys) (disk s)) ;;
  identify 1 0 id_phys ;;
  modify (λ s, mkHost (ctrl s) (zero_page (ram s) ns_phys) (disk s)) ;;
  identify 0 1 ns_phys ;;
  modify (λ s, let '(size, count) := ns_geometry (ram s) ns_phys in mkHost (set_geometry size count (ctrl s)) (ram s) (disk s)) ;;
  s ← get;
  create_io_cq 1 (cq_phys (io (ctrl s))) QD ;;
  create_io_sq 1 (sq_phys (io (ctrl s))) QD 1.

Definition ctrl_new (asq acq isq icq : Z) : NvmeController := mkCtrl (make_queue asq acq) (make_queue isq icq) 0 512 0 false None.

(** ** Handing the queue over *)

(** [nvmed]'s side of the I/O queue. *)
Record Nvmed := mkNvmed { nq : Queue; ncid : Z }.

(** The mailbox [handoff_to_nvmed] prepares. *)
Definition handoff_mailbox (c : NvmeController) : Mailbox :=
  mkMailbox (sq_phys (io c)) (cq_phys (io c)) QD (sq_tail (io c)) (cq_head (io c)) (Z.b2z (phase (io c))) 0 0 0 0 0.

(** [nvmed] starting on it: the queue pages are shared. *)
Definition nvmed_start (b : Mailbox) (pages : Queue) : Nvmed :=
  mkNvmed (mkQueue (sq pages) (cq pages) (mb_sq_phys b) (mb_cq_phys b) (mb_tail b) (mb_head b) (negb (mb_phase b =? 0))) 0.

(** [handoff_from_nvmed], once it has exited. *)
Definition handoff_from_nvmed (b : Mailbox) (pages : Queue) (c : NvmeController) : NvmeController :=
  if mailbox c then
    set_mailbox false (set_io (mkQueue (sq pages) (cq pages) (sq_phys (io c)) (cq_phys (io c)) (mb_tail b) (mb_head b) (negb (mb_phase b =? 0))) c)
  else c.

(** ** The mailbox path *)

Record request := mkReq { r_write : bool; r_lba : Z; r_count : Z; r_buf : Z }.
Definition op_code (r : request) : Z := if r_write r then 2 else 1.

(** Where the kernel is in [read_blocks] or [write_blocks]. *)
Inductive kpc := KIdle | KLba (r : request) | KCount (r : request) | KStatus (r : request) | KOp (r : request)
  | KPoll (r : request) (n : nat) | KTake (r : request) (ok : bool) | KAck (r : request) (ok : bool) | KPanic.

(** Where [nvmed] is in its loop. *)
Inductive npc := NTop | NOp | NLba (op : Z) | NCount (op lba : Z) | NIssue (op lba count : Z) | NStatus (st : Z) | NClear | NPersist | NWait | NGone.

(** What an observer sees of a transfer: direction, place and the bytes that went over. *)
Record transfer := mkTr { t_write : bool; t_lba : Z; t_count : Z; t_data : list Z }.

Record box := mkBox { bram : memory; bdisk : D; mb : Mailbox; daemon : Nvmed; kat : kpc; nat_ : npc;
  issued : list transfer;  (** every entry submitted to the controller, with what the medium then holds at its place *)
  answered : list (transfer * bool)  (** every request the kernel got an answer to, with what its own buffer then holds *) }.

Definition set_k (k : kpc) (s : box) : box := mkBox (bram s) (bdisk s) (mb s) (daemon s) k (nat_ s) (issued s) (answered s).
Definition set_n (n : npc) (s : box) : box := mkBox (bram s) (bdisk s) (mb s) (daemon s) (kat s) n (issued s) (answered s).
Definition set_mb (b : Mailbox) (s : box) : box := mkBox (bram s) (bdisk s) b (daemon s) (kat s) (nat_ s) (issued s) (answered s).
Definition set_bram (m : memory) (s : box) : box := mkBox m (bdisk s) (mb s) (daemon s) (kat s) (nat_ s) (issued s) (answered s).
Definition MAILBOX_WAIT_SPINS : nat := Z.to_nat 500000000.

(** The two fixed properties of the set-up: the mailbox's address and the block size. *)
Variables (mailbox_phys bsize : Z).
Definition data_phys : Z := mailbox_phys + DATA_OFF.

Definition bytes_of (count : Z) : nat := Z.to_nat (u32 (count * bsize)).
Definition answer (r : request) (ok : bool) (s : box) : box :=
  mkBox (bram s) (bdisk s) (mb s) (daemon s) (kat s) (nat_ s) (issued s)
    (answered s ++ [(mkTr (r_write r) (r_lba r) (r_count r) (peek (bram s) (r_buf r) (bytes_of (r_count r))), ok)]).

(** The kernel's next step; idle, it starts [r]. *)
Definition kernel_start (r : request) (s : box) : box :=
  if u32 (r_count r * bsize) <=? PAGE then
    set_k (KLba r) (if r_write r then set_bram (poke (bram s) data_phys (peek (bram s) (r_buf r) (bytes_of (r_count r)))) s else s)
  else set_k KPanic s.

Definition kernel_step (s : box) : box :=
  match kat s with
  | KIdle | KPanic => s
  | KLba r => set_k (KCount r) (set_mb (set_lba (r_lba r) (mb s)) s)
  | KCount r => set_k (KStatus r) (set_mb (set_count (r_count r) (mb s)) s)
  | KStatus r => set_k (KOp r) (set_mb (set_status 0 (mb s)) s)
  | KOp r => set_k (KPoll r MAILBOX_WAIT_SPINS) (set_mb (set_op (op_code r) (mb s)) s)
  | KPoll r O => set_k (KTake r false) s
  | KPoll r (S n) => if mb_status (mb s) =? 0 then set_k (KPoll r n) s else set_k (KTake r (mb_status (mb s) =? 1)) s
  | KTake r ok =>
    let s := if ok && negb (r_write r)
             then set_bram (poke (bram s) (r_buf r) (peek (bram s) data_phys (bytes_of (r_count r)))) s else s in
    set_k (KAck r ok) s
  | KAck r ok => answer r ok (set_k (if ok then KIdle else KPanic) (set_mb (set_status 0 (mb s)) s))
  end.

(** [nvmed]'s command for what it read from the mailbox. *)
Definition nvmed_cmd (op lba count : Z) : SqEntry :=
  mkSqe (if op =? 2 then 1 else 2) 1 0 0 0 data_phys 0 (u32 lba) (u32 (Z.shiftr lba 32)) (Z.max (count - 1) 0) 0 0 0.

(** A submitted entry as the controller reads it, and what the medium holds there once it is done. *)
Definition told (e : SqEntry) (d : D) : transfer :=
  mkTr (opcode e =? 1) (sqe_lba e) (sqe_blocks e) (nv_byte d <$> seqZ (sqe_lba e * bsize) (sqe_blocks e * bsize)).

Definition nvmed_issue (op lba count : Z) (s : box) : box :=
  let c := u16 (ncid (daemon s) + 1) in
  let '(q, v, m, d) := q_submit 1 (nq (daemon s)) c (nvmed_cmd op lba count) (bram s) (bdisk s) in
  let e := default sqe_default (sq q !! Z.to_nat (sq_tail (nq (daemon s)))) in
  let '(r, q) := q_wait NVMED_SPINS q v c in
  let st := if bool_decide (r = Some 0) then 1 else 2 in
  mkBox m d (mb s) (mkNvmed q c) (kat s) (NStatus st) (issued s ++ [told e d]) (answered s).

Definition nvmed_step (s : box) : box :=
  match nat_ s with
  | NTop => set_n (if mb_stop (mb s) =? 0 then NOp else NGone) s
  | NOp => set_n (if mb_op (mb s) =? 0 then NPersist else NLba (mb_op (mb s))) s
  | NLba op => set_n (NCount op (mb_lba (mb s))) s
  | NCount op lba => set_n (NIssue op lba (mb_count (mb s))) s
  | NIssue op lba count => nvmed_issue op lba count s
  | NStatus st => set_n NClear (set_mb (set_status st (mb s)) s)
  | NClear => set_n NPersist (set_mb (set_op 0 (mb s)) s)
  | NPersist => set_n NWait (set_mb (set_position (sq_tail (nq (daemon s))) (cq_head (nq (daemon s))) (phase (nq (daemon s))) (mb s)) s)
  | NWait => set_n NTop s
  | NGone => s
  end.

(** The kernel's task, [nvmed] and the request to stop in any order, one access at a time.
    Requests are for blocks of the disk, into buffers away from the mailbox. *)
Variable valid : request → Prop.

Inductive box_step (s : box) : box → Prop :=
| step_start r : kat s = KIdle → valid r → box_step s (kernel_start r s)
| step_kernel : box_step s (kernel_step s)
| step_nvmed : box_step s (nvmed_step s)
| step_stop : box_step s (set_mb (set_stop 1 (mb s)) s).
End nvme.

Arguments mkHost {D}. Arguments mkBox {D}.
