(* ===== verification/NvmeSpec.v ===== *)
(** The NVMe disk: the queue protocol never confuses completions, the in-kernel path is a plain
    block device, the mailbox answers each request with its own command, and what the mailbox
    path gets wrong. *)

From Stdlib Require Import ZifyBool.
From stdpp Require Import prelude list numbers strings.
From S2P Require Import Prelude Pmm Memory Nvme.

Local Open Scope Z_scope.

Lemma spins_pos : MAILBOX_WAIT_SPINS ≠ 0%nat.
Proof. unfold MAILBOX_WAIT_SPINS. lia. Qed.

Lemma spins_three : (3 < KERNEL_SPINS)%nat ∧ (3 < NVMED_SPINS)%nat.
Proof. unfold KERNEL_SPINS, NVMED_SPINS. lia. Qed.

(** Bounds on polls: only their being positive matters. *)
#[local] Opaque KERNEL_SPINS NVMED_SPINS MAILBOX_WAIT_SPINS.

(** ** Commands *)

Lemma with_cid_cid c e : 0 ≤ c → sqe_cid (with_cid c e) = c.
Proof.
  intros Hc. unfold sqe_cid. cbn. rewrite Z.shiftr_lor, Z.shiftr_shiftl_l by lia. rewrite Z.sub_diag, Z.shiftl_0_r.
  replace (Z.shiftr (Z.land (cdw0 e) 0xFFFF) 16) with 0; [done|]. change 0xFFFF with (Z.ones 16). rewrite Z.land_ones, Z.shiftr_div_pow2 by lia.
  symmetry. apply Z.div_small. apply Z.mod_pos_bound. lia.
Qed.

Lemma with_cid_op c e : opcode (with_cid c e) = opcode e.
Proof.
  unfold opcode. cbn. change 0xFF with (Z.ones 8). change 0xFFFF with (Z.ones 16). apply Z.bits_inj'. intros i Hi.
  rewrite !Z.land_spec, Z.lor_spec, Z.land_spec, Z.testbit_ones_nonneg, Z.testbit_ones_nonneg by lia.
  destruct (Z.ltb_spec i 8); [|by rewrite !andb_false_r]. rewrite Z.shiftl_spec_low by lia. replace (i <? 16) with true by lia.
  by rewrite orb_false_r, !andb_true_r.
Qed.

Lemma with_cid_ok c e op lba n size count : rw_ok op e lba n size count → rw_ok op (with_cid c e) lba n size count.
Proof. intros [Ho ? ? ? ? ?]. split; try done. by rewrite with_cid_op. Qed.

Lemma status_bits st (ph : bool) : 0 ≤ st < 2 ^ 11 → Z.land (2 * st + Z.b2z ph) 1 = Z.b2z ph ∧ Z.land (Z.shiftr (2 * st + Z.b2z ph) 1) 0x7FF = st.
Proof.
  intros Hs. change 0x7FF with (Z.ones 11). rewrite (Z.land_ones _ 11), Z.shiftr_div_pow2 by lia.
  assert (∀ x, Z.land x 1 = x mod 2) as -> by (intros x; apply (Z.land_ones x 1); lia). destruct ph; cbn [Z.b2z]; dlia.
Qed.

Section nvme.
Context {D : Type} `{!NvmeDevice D}.

(** ** Queue pairs *)

(** Driver and controller are at the same place, and no entry from the head on carries the
    phase the driver waits for. *)
Record synced (q : Queue) (d : D) : Prop := {
  sy_pos : nv_pos d 1 = (sq_tail q, cq_head q, phase q);
  sy_sq : len (sq q) = QD;
  sy_cq : len (cq q) = QD;
  sy_tail : 0 ≤ sq_tail q < QD;
  sy_head : 0 ≤ cq_head q < QD;
  sy_stale : ∀ i e, cq q !! i = Some e → Z.land (status e) 1 = Z.b2z (if Z.of_nat i <? cq_head q then phase q else negb (phase q)) }.

Lemma q_poll_finds (v : view) head ph cid (L : nat) c : 
  (∀ i, (i < L)%nat → ∃ old, v i !! Z.to_nat head = Some old ∧ Z.land (status old) 1 ≠ Z.b2z ph) →
  (∀ i, (L ≤ i)%nat → v i !! Z.to_nat head = Some c) → Z.land (status c) 1 = Z.b2z ph → cqe_cid c = cid →
  ∀ fuel i, (i ≤ L < i + fuel)%nat → q_poll fuel i v head ph cid = Some c.
Proof.
  intros Hold Hnew Hs Hc. induction fuel as [|fuel IH]; intros i Hi.
  - lia.
  - cbn. destruct (decide (i < L)%nat) as [Hl|Hl].
    + destruct (Hold i Hl) as (old & -> & Hne). replace (Z.land (status old) 1 =? Z.b2z ph) with false by lia. cbn. apply IH. lia.
    + rewrite Hnew by lia. by rewrite Hs, Hc, !Z.eqb_refl.
Qed.

Lemma before_next (q : Queue) i : 0 ≤ cq_head q < QD →
  (Z.of_nat i <? (cq_head q + 1) mod QD) = (if (cq_head q + 1) mod QD =? 0 then false else Z.of_nat i <? cq_head q + 1).
Proof. intros H. unfold QD in *. destruct (Z.eqb_spec ((cq_head q + 1) mod 64) 0) as [->|]; [lia|]. f_equal. dlia. Qed.

(** A read or write submitted on a synced queue completes, is recognised, and leaves it synced. *)
Lemma io_completes budget q d cmd cid m op lba n : synced q d → (nv_latency d < budget)%nat → is_u 16 cid →
  op = 1 ∨ op = 2 → rw_ok op cmd lba n (nv_size d) (nv_count d) →
  ∃ q1 v m' d' q2, q_submit 1 q cid cmd m d = (q1, v, m', d') ∧ q_wait budget q1 v cid = (Some 0, q2) ∧ sq q1 !! Z.to_nat (sq_tail q) = Some (with_cid cid cmd) ∧ synced q2 d' ∧
    sq_phys q2 = sq_phys q ∧ cq_phys q2 = cq_phys q ∧ nv_size d' = nv_size d ∧ nv_count d' = nv_count d ∧
    (op = 2 → m' = dma_in m (with_cid cid cmd) (nv_byte d <$> seqZ (lba * nv_size d) n) ∧ ∀ o, nv_byte d' o = nv_byte d o) ∧
    (op = 1 → m' = m ∧ ∀ o, 0 ≤ o → nv_byte d' o =
       if bool_decide (lba * nv_size d ≤ o < lba * nv_size d + n) then m (dma_addr (with_cid cid cmd) (o - lba * nv_size d)) else nv_byte d o).
Proof.
  intros [Hpos Hsq Hcq Ht Hh Hst] Hlat Hcid Hop Hrw. set (e := with_cid cid cmd). set (sqs := <[Z.to_nat (sq_tail q) := e]> (sq q)).
  assert (sqs !! Z.to_nat (sq_tail q) = Some e) as He by (apply list_lookup_insert_eq; unfold len, QD in *; lia).
  pose proof (with_cid_ok cid _ _ _ _ _ _ Hrw) as Hrw'. fold e in Hrw'.
  assert (∃ m' d' c, nv_ring d 1 sqs (cq q) ((sq_tail q + 1) mod QD) m = (<[Z.to_nat (cq_head q) := c]> (cq q), m', d') ∧
    posted e 0 (phase q) c ∧ nv_pos d' 1 = next_pos (sq_tail q, cq_head q, phase q) ∧ nv_size d' = nv_size d ∧ nv_count d' = nv_count d ∧
    (op = 2 → m' = dma_in m e (nv_byte d <$> seqZ (lba * nv_size d) n) ∧ ∀ o, nv_byte d' o = nv_byte d o) ∧
    (op = 1 → m' = m ∧ ∀ o, 0 ≤ o → nv_byte d' o = if bool_decide (lba * nv_size d ≤ o < lba * nv_size d + n) then m (dma_addr e (o - lba * nv_size d)) else nv_byte d o))
    as (m' & d' & c & Hring & [Hc1 Hc2] & Hpos' & Hsz & Hct & H2 & H1).
  { destruct Hop as [-> | ->].
    - destruct (nv_write_law d sqs (cq q) m _ _ _ e lba n Hpos He Hrw') as (d' & c & ? & ? & ? & ? & ? & ?). exists m, d', c. by split_and!.
    - destruct (nv_read_law d sqs (cq q) m _ _ _ e lba n Hpos He Hrw') as (d' & c & ? & ? & ? & ? & ? & ?). eexists _, d', c. by split_and!. }
  unfold e in Hc1. rewrite with_cid_cid in Hc1 by apply Hcid. destruct (status_bits 0 (phase q)) as [Hb1 Hb2]; [lia|]. rewrite <- Hc2 in Hb1, Hb2.
  destruct (lookup_lt_is_Some_2 (cq q) (Z.to_nat (cq_head q))) as [old Eold]; [unfold len, QD in *; lia|].
  eexists _, _, m', d', _. split; [unfold q_submit; fold e; fold sqs; by rewrite Hring|].
  unfold q_wait. cbn [cq_head phase]. rewrite (q_poll_finds _ (cq_head q) (phase q) cid (nv_latency d) c); [| | |done|done|lia].
  - rewrite Hb2. split; [done|]. cbn [sq cq sq_phys cq_phys sq_tail phase]. split; [done|]. split_and!; try done.
    split; cbn; try done.
    + unfold sqs, len in *. by rewrite length_insert.
    + unfold len in *. by rewrite length_insert.
    + unfold QD. dlia.
    + unfold QD. dlia.
    + intros i x Hx. rewrite before_next by done. assert (i < 64)%nat as Hi.
      { apply lookup_lt_Some in Hx. rewrite length_insert in Hx. unfold len, QD in *. lia. }
      destruct (decide (i = Z.to_nat (cq_head q))) as [->|Hne].
      * rewrite list_lookup_insert_eq in Hx by (unfold len, QD in *; lia). injection Hx as <-. rewrite Hb1.
        destruct (Z.eqb_spec ((cq_head q + 1) mod QD) 0); [by destruct (phase q)|]. by replace (Z.of_nat (Z.to_nat (cq_head q)) <? cq_head q + 1) with true by lia.
      * rewrite list_lookup_insert_ne in Hx by done. rewrite (Hst _ _ Hx). destruct (Z.eqb_spec ((cq_head q + 1) mod QD) 0).
        -- assert (cq_head q = 63) by (unfold QD in *; dlia). replace (Z.of_nat i <? cq_head q) with true by lia. by rewrite negb_involutive.
        -- replace (Z.of_nat i <? cq_head q + 1) with (Z.of_nat i <? cq_head q) by lia. done.
  - intros i Hi. replace (i <? nv_latency d)%nat with true by lia. exists old. split; [done|]. rewrite (Hst _ _ Eold).
    replace (Z.of_nat (Z.to_nat (cq_head q)) <? cq_head q) with false by lia. by destruct (phase q).
  - intros i Hi. replace (i <? nv_latency d)%nat with false by lia. apply list_lookup_insert_eq. unfold len, QD in *. lia.
Qed.
(** ** The in-kernel path *)

(** What HepFS asks of the disk, and the queue going to [nvmed] and back. *)
Inductive dio := DRead (lba count buf : Z) | DWrite (lba count buf : Z) | DHandOver.

Definition run_dio (o : dio) : ST (@host D) unit :=
  match o with
  | DRead lba count buf => read_blocks_direct lba count buf
  | DWrite lba count buf => write_blocks_direct lba count buf
  | DHandOver => modify (λ s, let c := ctrl s in
      mkHost (handoff_from_nvmed (handoff_mailbox c) (nq (nvmed_start (handoff_mailbox c) (io c))) (set_mailbox true c)) (ram s) (disk s))
  end.
Fixpoint run_dios (l : list dio) : ST (@host D) unit := match l with [] => mret tt | o :: l => run_dio o ;; run_dios l end.

(** A plain block device: memory and the bytes of the medium. *)
Definition dio_spec (size : Z) (mm : memory * (Z → Z)) (o : dio) : memory * (Z → Z) :=
  match o with
  | DRead lba count buf => (poke mm.1 buf (mm.2 <$> seqZ (lba * size) (count * size)), mm.2)
  | DWrite lba count buf =>
    (mm.1, λ o, if bool_decide (lba * size ≤ o < lba * size + count * size) then mm.1 (buf + (o - lba * size)) else mm.2 o)
  | DHandOver => mm
  end.

(** Within the disk, at most a page, into a whole page. *)
Definition place_ok (size blocks lba count : Z) : Prop :=
  0 ≤ lba ∧ 0 < count < 2 ^ 16 ∧ lba + count ≤ blocks ∧ lba < 2 ^ 64 ∧ 0 < size ∧ count * size ≤ PAGE.
Definition dio_ok (size blocks : Z) (o : dio) : Prop :=
  match o with DRead lba count buf | DWrite lba count buf => place_ok size blocks lba count ∧ buf mod PAGE = 0 | DHandOver => True end.

Definition shows (d : D) (med : Z → Z) : Prop := ∀ o, 0 ≤ o → nv_byte d o = med o.

(** The command either path builds for a place. *)
Lemma cmd_rw_ok op lba count buf size blocks (c12 : Z) : op = 1 ∨ op = 2 → place_ok size blocks lba count → buf mod 4 = 0 → Z.land c12 0xFFFF = count - 1 →
  rw_ok op (mkSqe op 1 0 0 0 buf 0 (u32 lba) (u32 (Z.shiftr lba 32)) c12 0 0 0) lba (count * size) size blocks.
Proof.
  intros Hop (H0 & Hc & Hb & H64 & Hs & Hn) Ha H12. split; cbn; try done.
  - unfold opcode. cbn. by destruct Hop as [-> | ->].
  - unfold sqe_lba. cbn. rewrite Z.shiftl_mul_pow2, Z.shiftr_div_pow2 by lia. rewrite (wrap_small 32 (lba / 2 ^ 32)) by (unfold is_u; dlia). unfold wrap. dlia.
  - unfold sqe_blocks. cbn. rewrite H12. lia.
  - unfold sqe_blocks. cbn. rewrite H12. split; [f_equal; lia|lia].
Qed.

Lemma u16_count count : 0 < count < 2 ^ 16 → Z.land (u16 (count - 1)) 0xFFFF = count - 1.
Proof. intros H. rewrite wrap_small by (unfold is_u; lia). change 0xFFFF with (Z.ones 16). rewrite Z.land_ones by lia. apply Z.mod_small. lia. Qed.

Lemma mod_page_4 a : a mod PAGE = 0 → a mod 4 = 0.
Proof. unfold PAGE. intros H. dlia. Qed.

(** A transfer within one page. *)
Lemma dma_in_page m e l a : prp1 e mod PAGE + len l ≤ PAGE → dma_in m e l a = poke m (prp1 e) l a.
Proof.
  intros H. unfold dma_in. rewrite take_ge, drop_ge by (unfold len in *; lia). apply poke_out. unfold len. cbn. lia.
Qed.
Lemma dma_addr_page e i : prp1 e mod PAGE + i < PAGE → dma_addr e i = prp1 e + i.
Proof. intros H. unfold dma_addr. by replace (prp1 e mod PAGE + i <? PAGE) with true by lia. Qed.

(** One command of the in-kernel path. *)
Lemma io_cmd_ok op lba count buf s : synced (io (ctrl s)) (disk s) → (nv_latency (disk s) < KERNEL_SPINS)%nat → op = 1 ∨ op = 2 →
  place_ok (nv_size (disk s)) (nv_count (disk s)) lba count → buf mod PAGE = 0 →
  ∃ s', io_cmd op lba count buf s = Ok (Some 0, s') ∧ synced (io (ctrl s')) (disk s') ∧
    nv_size (disk s') = nv_size (disk s) ∧ nv_count (disk s') = nv_count (disk s) ∧
    let n := count * nv_size (disk s) in let o := lba * nv_size (disk s) in
    (op = 2 → (∀ a, ram s' a = poke (ram s) buf (nv_byte (disk s) <$> seqZ o n) a) ∧ ∀ x, nv_byte (disk s') x = nv_byte (disk s) x) ∧
    (op = 1 → ram s' = ram s ∧ ∀ x, 0 ≤ x → nv_byte (disk s') x = if bool_decide (o ≤ x < o + n) then ram s (buf + (x - o)) else nv_byte (disk s) x).
Proof.
  intros Hs Hlat Hop Hp Hb. pose proof Hp as (H0 & Hc & _ & _ & Hsz & Hn). unfold io_cmd. cbn [cid io next_cid].
  set (c := u16 (cid (ctrl s) + 1)). assert (is_u 16 c) as Hcu by (by apply wrap_range).
  assert (rw_ok op (rw_cmd op lba count buf) lba (count * nv_size (disk s)) (nv_size (disk s)) (nv_count (disk s))) as Hrw
    by (apply cmd_rw_ok; [done|done|by apply mod_page_4|by apply u16_count]).
  destruct (io_completes KERNEL_SPINS (io (ctrl s)) (disk s) (rw_cmd op lba count buf) c (ram s) op lba _ Hs Hlat Hcu Hop Hrw)
    as (q1 & v & m' & d' & q2 & -> & -> & _ & Hs' & _ & _ & Hsz' & Hct' & H2 & H1).
  eexists. split; [done|]. cbn. split_and!; [done..| |].
  - intros E. destruct (H2 E) as [-> Hby]. split; [|done]. intros a. rewrite dma_in_page; [done|]. cbn. rewrite Hb.
    unfold len. rewrite length_fmap, length_seqZ. lia.
  - intros E. destruct (H1 E) as [-> Hby]. split; [done|]. intros x Hx. rewrite Hby by done. case_bool_decide; [|done].
    f_equal. apply (dma_addr_page (with_cid c (rw_cmd op lba count buf))). cbn. rewrite Hb. lia.
Qed.

(** The queue is as synced after going to [nvmed] and back. *)
Lemma hand_over_io c b pages : mailbox c = true → mb_tail b = sq_tail pages → mb_head b = cq_head pages → mb_phase b = Z.b2z (phase pages) →
  ∀ d, synced pages d → synced (io (handoff_from_nvmed b pages c)) d.
Proof.
  intros Hm Et Eh Ep d [Hp ? ? ? ? Hst]. unfold handoff_from_nvmed. rewrite Hm. cbn. assert (negb (mb_phase b =? 0) = phase pages) as Eph by (rewrite Ep; by destruct (phase pages)).
  split; cbn; rewrite ?Et, ?Eh, ?Eph; done.
Qed.

Lemma nvmed_start_io c : ∀ d, synced (io c) d → synced (nq (nvmed_start (handoff_mailbox c) (io c))) d.
Proof.
  intros d [Hp ? ? ? ? Hst]. assert (negb (Z.b2z (phase (io c)) =? 0) = phase (io c)) as Eph by (by destruct (phase (io c))).
  split; cbn; rewrite ?Eph; done.
Qed.

(** C9: The in-kernel path is a block device: any sequence of reads, writes and hand-overs
    of the queue to [nvmed] and back runs without a panic; every completion is recognised
    although completion entries, command identifiers and the phase bit are reused without
    end, and memory and medium change exactly as for a plain array of bytes. *)
Theorem direct_path_is_block_device l s med (Hsync : synced (io (ctrl s)) (disk s)) (Hmed : shows (disk s) med)
  (Hok : Forall (dio_ok (nv_size (disk s)) (nv_count (disk s))) l) (Hlat : ∀ d : D, (nv_latency d < KERNEL_SPINS)%nat) :
  ∃ s', run_dios l s = Ok (tt, s') ∧ synced (io (ctrl s')) (disk s') ∧
    (∀ a, ram s' a = (foldl (dio_spec (nv_size (disk s))) (ram s, med) l).1 a) ∧
    shows (disk s') (foldl (dio_spec (nv_size (disk s))) (ram s, med) l).2.
Proof.
  assert (∀ m, (∀ a, ram s a = m a) → ∃ s', run_dios l s = Ok (tt, s') ∧ synced (io (ctrl s')) (disk s') ∧
    (∀ a, ram s' a = (foldl (dio_spec (nv_size (disk s))) (m, med) l).1 a) ∧
    shows (disk s') (foldl (dio_spec (nv_size (disk s))) (m, med) l).2) as H; [|by apply H].
  revert s med Hsync Hmed Hok. induction l as [|o l IH]; intros s med Hsync Hmed Hok m Hm; [by exists s|].
  apply Forall_cons in Hok as [Ho Hok]. cbn [run_dios foldl].
  assert (∃ s1, run_dio o s = Ok (tt, s1) ∧ synced (io (ctrl s1)) (disk s1) ∧ nv_size (disk s1) = nv_size (disk s) ∧ nv_count (disk s1) = nv_count (disk s) ∧
    (∀ a, ram s1 a = (dio_spec (nv_size (disk s)) (m, med) o).1 a) ∧ shows (disk s1) (dio_spec (nv_size (disk s)) (m, med) o).2)
    as (s1 & E1 & Hs1 & Hsz & Hct & Hm1 & Hd1).
  { destruct o as [lba count buf|lba count buf|]; cbn [run_dio dio_spec fst snd].
    - destruct Ho as [Hp Hb]. destruct (io_cmd_ok 2 lba count buf s) as (s1 & E & ? & ? & ? & H2 & _); [done|done|by right|done|done|].
      exists s1. unfold read_blocks_direct, mbind, ST_bind. rewrite E. split_and!; try done.
      + intros a. destruct H2 as [-> _]; [done|]. destruct Hp as (Hl0 & ? & _ & _ & ? & ?).
        assert ((nv_byte (disk s) <$> seqZ (lba * nv_size (disk s)) (count * nv_size (disk s))) = (med <$> seqZ (lba * nv_size (disk s)) (count * nv_size (disk s)))) as ->.
        { apply list_fmap_ext. intros i x Hx. apply lookup_seqZ in Hx as [-> _]. apply Hmed. nia. }
        unfold poke. by rewrite Hm.
      + intros x Hx. destruct H2 as [_ ->]; [done|]. by apply Hmed.
    - destruct Ho as [Hp Hb]. destruct (io_cmd_ok 1 lba count buf s) as (s1 & E & ? & ? & ? & _ & H1); [done|done|by left|done|done|].
      exists s1. unfold write_blocks_direct, mbind, ST_bind. rewrite E. destruct H1 as [Er Hby]; [done|]. split_and!; try done.
      + intros a. by rewrite Er.
      + intros x Hx. rewrite Hby by done. rewrite Hm, Hmed by done. done.
    - eexists. split; [done|]. cbn [ctrl ram disk]. split_and!; try done.
      apply hand_over_io; [done..| |by apply nvmed_start_io]. cbn. by destruct (phase (io (ctrl s))). }
  unfold mbind, ST_bind. rewrite E1. rewrite <- Hsz, <- Hct in Hok. destruct (dio_spec (nv_size (disk s)) (m, med) o) as [m1 med1] eqn:Eo.
  rewrite <- Hsz. by apply IH.
Qed.
(** ** The mailbox path *)

Section box.
Context (mailbox_phys : Z) (Hmb : mailbox_phys mod PAGE = 0) (Hpos : PAGE ≤ mailbox_phys).

Lemma data_mod : data_phys mailbox_phys mod PAGE = 72.
Proof using Hmb. unfold data_phys, DATA_OFF, PAGE in *. dlia. Qed.

(** [nvmed] carrying out one request it read from the mailbox. *)
Lemma issue_ok bsize op lba count (s : @box D) : synced (nq (daemon s)) (bdisk s) → (nv_latency (bdisk s) < NVMED_SPINS)%nat → op = 1 ∨ op = 2 →
  place_ok (nv_size (bdisk s)) (nv_count (bdisk s)) lba count →
  ∃ q c m d, nvmed_issue mailbox_phys bsize op lba count s =
      mkBox m d (mb s) (mkNvmed q c) (kat s) (NStatus 1)
        (issued s ++ [mkTr (op =? 2) lba count (nv_byte d <$> seqZ (lba * bsize) (count * bsize))]) (answered s) ∧
    synced q d ∧ nv_size d = nv_size (bdisk s) ∧ nv_count d = nv_count (bdisk s) ∧
    let e := nvmed_cmd mailbox_phys op lba count in let o := lba * nv_size (bdisk s) in let n := count * nv_size (bdisk s) in
    (op = 1 → m = dma_in (bram s) e (nv_byte (bdisk s) <$> seqZ o n) ∧ ∀ x, nv_byte d x = nv_byte (bdisk s) x) ∧
    (op = 2 → m = bram s ∧ ∀ x, 0 ≤ x → nv_byte d x = if bool_decide (o ≤ x < o + n) then bram s (dma_addr e (x - o)) else nv_byte (bdisk s) x).
Proof using Hmb.
  intros Hs Hlat Hop Hp. pose proof Hp as (? & Hc & _). unfold nvmed_issue. set (c := u16 _). assert (is_u 16 c) as Hcu by (by apply wrap_range).
  set (k := if op =? 2 then 1 else 2).
  assert (rw_ok k (nvmed_cmd mailbox_phys op lba count) lba (count * nv_size (bdisk s)) (nv_size (bdisk s)) (nv_count (bdisk s))) as Hrw.
  { unfold nvmed_cmd. fold k. apply cmd_rw_ok; [unfold k; destruct Hop as [-> | ->]; auto|done| |].
    - pose proof data_mod. unfold PAGE in *. dlia.
    - change 0xFFFF with (Z.ones 16). rewrite Z.land_ones, Z.max_l by lia. apply Z.mod_small. lia. }
  destruct (io_completes NVMED_SPINS (nq (daemon s)) (bdisk s) (nvmed_cmd mailbox_phys op lba count) c (bram s) k lba _ Hs Hlat Hcu ltac:(unfold k; destruct Hop as [-> | ->]; auto) Hrw)
    as (q1 & v & m' & d' & q2 & -> & -> & Hsub & Hs' & _ & _ & Hsz' & Hct' & H2 & H1).
  exists q2, c, m', d'. rewrite Hsub. cbn [default option_bind from_option]. split.
  { do 3 f_equal. destruct (with_cid_ok c _ _ _ _ _ _ Hrw) as [Eo _ El _ [En _] _]. unfold told.
    unfold id. rewrite Eo, El.
    assert (sqe_blocks (with_cid c (nvmed_cmd mailbox_phys op lba count)) = count) as -> by (destruct Hp as (_ & _ & _ & _ & ? & _); nia).
    f_equal. unfold k. by destruct Hop as [-> | ->]. }
  split_and!; [done..| |].
  - intros ->. by destruct (H2 eq_refl).
  - intros ->. by destruct (H1 eq_refl).
Qed.

(** *** The protocol *)

Section protocol.
Context (bsize blocks : Z) (Hlat : ∀ d : D, (nv_latency d < NVMED_SPINS)%nat).

(** Requests as HepFS makes them: a place on the disk, a buffer apart from the mailbox. *)
Definition request_ok (r : request) : Prop :=
  place_ok bsize blocks (r_lba r) (r_count r) ∧ (r_buf r + PAGE ≤ mailbox_phys ∨ mailbox_phys + 2 * PAGE ≤ r_buf r).

Implicit Types (s : @box D).

Definition size_of (r : request) : nat := bytes_of bsize (r_count r).
Definition in_box (r : request) s : list Z := peek (bram s) (data_phys mailbox_phys) (size_of r).
Definition in_buf (r : request) s : list Z := peek (bram s) (r_buf r) (size_of r).
Definition xfer (r : request) (data : list Z) : transfer := mkTr (r_write r) (r_lba r) (r_count r) data.

(** The requests answered with success. *)
Definition oks s : list transfer := (filter (λ a, a.2 = true) (answered s)).*1.

(** A command is the request's own: same direction, same place, and the same bytes on the medium
    as in memory, as far as the mailbox's page goes. *)
Definition carried (given req : transfer) : Prop :=
  t_write given = t_write req ∧ t_lba given = t_lba req ∧ t_count given = t_count req ∧ length (t_data given) = length (t_data req) ∧
  take (Z.to_nat (PAGE - DATA_OFF)) (t_data given) = take (Z.to_nat (PAGE - DATA_OFF)) (t_data req).

(** The commands are those of the requests answered with success, and of [l]. *)
Definition gave s (l : list transfer) : Prop := Forall2 carried (issued s) (oks s ++ l).

(** [nvmed] between two requests, and with nothing to find in the mailbox. *)
Definition resting (n : npc) : Prop := match n with NTop | NOp | NPersist | NWait | NGone => True | _ => False end.
Definition nowork s : Prop := nat_ s = NClear ∨ (mb_op (mb s) = 0 ∧ resting (nat_ s)).

(** A posted request the controller has not been given, or will never be. *)
Definition fresh (r : request) s : Prop :=
  mb_lba (mb s) = r_lba r ∧ mb_count (mb s) = r_count r ∧ (mb_op (mb s) = op_code r ∨ mb_op (mb s) = 0) ∧
  match nat_ s with
  | NLba op => op = op_code r
  | NCount op lba => op = op_code r ∧ lba = r_lba r
  | NIssue op lba c => op = op_code r ∧ lba = r_lba r ∧ c = r_count r
  | NStatus _ => False
  | _ => True
  end.

(** A write's bytes are in the mailbox. *)
Definition loaded (r : request) s : Prop := r_write r = true → in_box r s = in_buf r s.

Definition dead s : Prop :=
  (∃ r, request_ok r ∧ gave s [] ∧ fresh r s) ∨ (gave s [] ∧ nowork s) ∨ (∃ x, gave s [x] ∧ (nat_ s = NStatus 1 ∨ nowork s)).

Definition asking (r : request) s : Prop := request_ok r ∧ loaded r s ∧ gave s [] ∧ nowork s.

Definition kernel_inv s : Prop :=
  match kat s with
  | KIdle => gave s [] ∧ nowork s
  | KLba r => asking r s
  | KCount r => asking r s ∧ mb_lba (mb s) = r_lba r
  | KStatus r => asking r s ∧ mb_lba (mb s) = r_lba r ∧ mb_count (mb s) = r_count r
  | KOp r => asking r s ∧ mb_lba (mb s) = r_lba r ∧ mb_count (mb s) = r_count r ∧ mb_status (mb s) = 0
  | KPoll r _ => request_ok r ∧ loaded r s ∧
      ((gave s [] ∧ fresh r s ∧ mb_status (mb s) = 0) ∨
       (gave s [xfer r (in_box r s)] ∧ ((nat_ s = NStatus 1 ∧ mb_status (mb s) = 0) ∨ (nowork s ∧ mb_status (mb s) = 1))))
  | KTake r true => request_ok r ∧ loaded r s ∧ gave s [xfer r (in_box r s)] ∧ nowork s
  | KAck r true => request_ok r ∧ gave s [xfer r (in_buf r s)] ∧ nowork s
  | KTake _ false | KAck _ false | KPanic => dead s
  end.

(** [nvmed]'s queue and the position it leaves in the mailbox. *)
Definition queue_inv s : Prop :=
  synced (nq (daemon s)) (bdisk s) ∧ nv_size (bdisk s) = bsize ∧ nv_count (bdisk s) = blocks ∧
  match nat_ s with
  | NStatus _ | NClear | NPersist => True
  | _ => mb_tail (mb s) = sq_tail (nq (daemon s)) ∧ mb_head (mb s) = cq_head (nq (daemon s)) ∧ mb_phase (mb s) = Z.b2z (phase (nq (daemon s)))
  end.

Lemma size_small r : request_ok r → Z.of_nat (size_of r) = r_count r * bsize ∧ r_count r * bsize ≤ PAGE.
Proof. intros [(? & ? & _ & _ & ? & ?) _]. unfold size_of, bytes_of. rewrite wrap_small by (unfold is_u, PAGE in *; nia). nia. Qed.

Lemma gave_ext s s' l : issued s' = issued s → oks s' = oks s → gave s l → gave s' l.
Proof. unfold gave. by intros -> ->. Qed.
Lemma gave_more s s' x y : issued s' = issued s ++ [x] → oks s' = oks s → carried x y → gave s [] → gave s' [y].
Proof. unfold gave. intros -> -> Hc Hg. rewrite app_nil_r in Hg. apply Forall2_app; [done|]. by constructor. Qed.

(** The bytes that went over are on the medium and in the mailbox. *)
Lemma carried_issue r (d d' : D) m m' : request_ok r → nv_size d = bsize →
  (op_code r = 1 → m' = dma_in m (nvmed_cmd mailbox_phys (op_code r) (r_lba r) (r_count r)) (nv_byte d <$> seqZ (r_lba r * bsize) (r_count r * bsize)) ∧ ∀ x, nv_byte d' x = nv_byte d x) →
  (op_code r = 2 → m' = m ∧ ∀ x, 0 ≤ x → nv_byte d' x = if bool_decide (r_lba r * bsize ≤ x < r_lba r * bsize + r_count r * bsize)
     then m (dma_addr (nvmed_cmd mailbox_phys (op_code r) (r_lba r) (r_count r)) (x - r_lba r * bsize)) else nv_byte d x) →
  carried (mkTr (op_code r =? 2) (r_lba r) (r_count r) (nv_byte d' <$> seqZ (r_lba r * bsize) (r_count r * bsize))) (xfer r (peek m' (data_phys mailbox_phys) (size_of r))).
Proof using Hmb Hpos.
  intros Hr Hz H1 H2. destruct (size_small r Hr) as [En Hn]. destruct Hr as [(Hl & Hc & _ & _ & Hb & _) _]. pose proof data_mod as Hdm.
  assert (prp1 (nvmed_cmd mailbox_phys (op_code r) (r_lba r) (r_count r)) = data_phys mailbox_phys ∧ prp2 (nvmed_cmd mailbox_phys (op_code r) (r_lba r) (r_count r)) = 0) as [Ep1 Ep2] by done.
  set (e := nvmed_cmd _ _ _ _) in *. set (n := r_count r * bsize) in *. split_and!; cbn; try done.
  { unfold op_code. by destruct (r_write r). }
  { rewrite length_fmap, length_seqZ, length_peek. lia. }
  apply list_eq. intros i. destruct (decide (i < Z.to_nat (PAGE - DATA_OFF))%nat) as [Hi|Hi]; [|by rewrite !lookup_take_ge by lia].
  rewrite !lookup_take_lt by done. destruct (decide (Z.of_nat i < n)) as [Hin|Hin].
  2:{ rewrite !lookup_ge_None_2; [done|rewrite length_peek; lia|rewrite length_fmap, length_seqZ; lia]. }
  rewrite list_lookup_fmap, lookup_seqZ_lt, lookup_peek by lia. cbn. f_equal. unfold PAGE, DATA_OFF in *. assert (op_code r = 1 ∨ op_code r = 2) as [E|E] by (unfold op_code; destruct (r_write r); auto).
  - destruct (H1 E) as [-> Hby]. rewrite Hby. unfold dma_in, PAGE. rewrite Ep1, Ep2, Hdm. set (l := nv_byte d <$> _).
    assert (length l = Z.to_nat n) as Hlen by (unfold l; rewrite length_fmap, length_seqZ; lia). symmetry. rewrite poke_out.
    + apply poke_in; [|lia]. rewrite lookup_take_lt by lia. unfold l. replace (Z.to_nat (data_phys mailbox_phys + Z.of_nat i - data_phys mailbox_phys)) with i by lia. rewrite list_lookup_fmap, lookup_seqZ_lt by lia. done.
    + unfold len. rewrite length_drop, Hlen. unfold data_phys, DATA_OFF in *. lia.
  - destruct (H2 E) as [-> Hby]. rewrite Hby by nia. rewrite bool_decide_true by lia. f_equal. unfold dma_addr, PAGE. rewrite Ep1, Hdm.
    replace (72 + (r_lba r * bsize + Z.of_nat i - r_lba r * bsize) <? 4096) with true by lia. lia.
Qed.

(** What a step of [nvmed] that gives the controller nothing leaves alone. *)
Definition same s s' : Prop :=
  bram s' = bram s ∧ kat s' = kat s ∧ issued s' = issued s ∧ answered s' = answered s ∧
  mb_status (mb s') = mb_status (mb s) ∧ mb_lba (mb s') = mb_lba (mb s) ∧ mb_count (mb s') = mb_count (mb s).

Lemma nowork_step s : queue_inv s → nowork s → nowork (nvmed_step mailbox_phys bsize s) ∧ same s (nvmed_step mailbox_phys bsize s) ∧ queue_inv (nvmed_step mailbox_phys bsize s).
Proof.
  unfold queue_inv, nowork, nvmed_step. intros (Hs & Hz & Hc & Hq) Hn. destruct (nat_ s) eqn:En; destruct Hn as [Hn|[Ho Hr]]; try done; cbn.
  - split_and!; try done; [right; split; [done|by case_match]|by case_match].
  - rewrite Ho. cbn. by split_and!; auto.
  - split_and!; try done. by right.
  - split_and!; try done. by right.
  - destruct Hq as (? & ? & ?). split_and!; try done. by right.
  - rewrite En. destruct Hq as (? & ? & ?). split_and!; try done. by right.
Qed.

Ltac box_done :=
  repeat match goal with H : _ ∧ _ |- _ => destruct H end; subst;
  (split; [by split_and!|]); left; (split; [split_and!; try done; tauto || congruence|by split_and!]).

Lemma fresh_step r s : queue_inv s → request_ok r → fresh r s → let s' := nvmed_step mailbox_phys bsize s in queue_inv s' ∧
  ((fresh r s' ∧ same s s') ∨
   (nat_ s' = NStatus 1 ∧ kat s' = kat s ∧ answered s' = answered s ∧ mb s' = mb s ∧ (∃ x, issued s' = issued s ++ [x] ∧ carried x (xfer r (in_box r s'))) ∧
    (r_write r = true → bram s' = bram s))).
Proof using Hmb Hpos Hlat.
  unfold queue_inv, fresh. intros (Hs & Hz & Hc & Hq) Hrq (Hl & Hct & Ho & Hn). pose proof Hrq as [Hp _]. unfold nvmed_step. destruct (nat_ s) eqn:En; cbn.
  - destruct (mb_stop (mb s) =? 0); cbn; box_done.
  - destruct (Z.eqb_spec (mb_op (mb s)) 0); cbn; box_done.
  - box_done.
  - box_done.
  - destruct Hn as (-> & -> & ->). rewrite <- Hz, <- Hc in Hp. assert (op_code r = 1 ∨ op_code r = 2) as Hop by (unfold op_code; destruct (r_write r); auto).
    destruct (issue_ok bsize (op_code r) (r_lba r) (r_count r) s Hs (Hlat _) Hop Hp) as (q & c & m & d & -> & Hq' & Hz' & Hc' & H1 & H2).
    cbn. split; [split_and!; [done|congruence|congruence|done]|]. right. split_and!; try done.
    + eexists. split; [done|]. rewrite Hz in H1, H2. by apply (carried_issue r (bdisk s) d (bram s) m).
    + intros Hw. apply H2. unfold op_code. by rewrite Hw.
  - done.
  - box_done.
  - box_done.
  - box_done.
  - rewrite En. box_done.
Qed.

Lemma nvmed_kat s : kat (nvmed_step mailbox_phys bsize s) = kat s.
Proof.
  unfold nvmed_step. destruct (nat_ s); try done. unfold nvmed_issue. by destruct (q_submit _ _ _ _ _ _) as [[[q v] m] d]; destruct (q_wait _ _ _ _).
Qed.

Lemma busy_step s : queue_inv s → nat_ s = NStatus 1 → let s' := nvmed_step mailbox_phys bsize s in
  queue_inv s' ∧ nat_ s' = NClear ∧ mb_status (mb s') = 1 ∧ bram s' = bram s ∧ kat s' = kat s ∧ issued s' = issued s ∧ answered s' = answered s.
Proof. unfold queue_inv. intros (? & ? & ? & ?) E. unfold nvmed_step. rewrite E. cbn. by split_and!. Qed.

Lemma same_oks s s' : answered s' = answered s → oks s' = oks s.
Proof. unfold oks. by intros ->. Qed.

Lemma same_loaded r s s' : bram s' = bram s → loaded r s → loaded r s'.
Proof. unfold loaded, in_box, in_buf. by intros ->. Qed.

Lemma asking_step r s : queue_inv s → asking r s → asking r (nvmed_step mailbox_phys bsize s) ∧ same s (nvmed_step mailbox_phys bsize s) ∧ queue_inv (nvmed_step mailbox_phys bsize s).
Proof.
  intros Hq (Hr & Hl & Hi & Hn). destruct (nowork_step s Hq Hn) as (Hn' & Hs & Hq'). split; [|done]. pose proof Hs as (Em & _ & Ei & Ea & _).
  split_and!; [done|by apply (same_loaded r s)| |done]. by apply (gave_ext s); [|apply same_oks|].
Qed.

Lemma dead_step s : queue_inv s → dead s → dead (nvmed_step mailbox_phys bsize s) ∧ queue_inv (nvmed_step mailbox_phys bsize s).
Proof using Hmb Hpos Hlat.
  intros Hq [(r & Hr & Hi & Hf)|[[Hi Hn]|(x & Hi & [Hb|Hn])]].
  - destruct (fresh_step r s Hq Hr Hf) as [Hq' [[Hf' (_ & _ & Ei & Ea & _)]|(En & _ & Ea & _ & Ei & _)]]; (split; [|done]).
    + left. exists r. split; [done|]. split; [|done]. by apply (gave_ext s); [|apply same_oks|].
    + destruct Ei as (x & Ei & Hx). right. right. eexists. split; [|by left]. eapply gave_more; [done|by apply same_oks|done|done].
  - destruct (nowork_step s Hq Hn) as (Hn' & (_ & _ & Ei & Ea & _) & Hq'). split; [|done]. right. left. split; [|done]. by apply (gave_ext s); [|apply same_oks|].
  - destruct (busy_step s Hq Hb) as (Hq' & En & _ & _ & _ & Ei & Ea). split; [|done]. right. right. exists x. split; [by apply (gave_ext s); [|apply same_oks|]|right; by left].
  - destruct (nowork_step s Hq Hn) as (Hn' & (_ & _ & Ei & Ea & _) & Hq'). split; [|done]. right. right. exists x. split; [by apply (gave_ext s); [|apply same_oks|]|by right].
Qed.

Lemma poll_step r n s : queue_inv s → kat s = KPoll r n → kernel_inv s →
  kernel_inv (nvmed_step mailbox_phys bsize s) ∧ queue_inv (nvmed_step mailbox_phys bsize s).
Proof using Hmb Hpos Hlat.
  intros Hq Ek. unfold kernel_inv at 1. rewrite Ek. intros (Hr & Hl & [(Hi & Hf & H0)|(Hi & [[Hb H0]|[Hn H1]])]).
  - destruct (fresh_step r s Hq Hr Hf) as [Hq' [[Hf' (Em & Eka & Ei & Ea & Est & _)]|(En & Eka & Ea & Emb & Ei & Hw)]]; (split; [|done]); unfold kernel_inv; rewrite Eka, Ek.
    + split_and!; [done|by apply (same_loaded r s)|]. left. rewrite Est. split_and!; [by apply (gave_ext s); [|apply same_oks|]|done|done].
    + split_and!; [done|intros Hw'; specialize (Hl Hw'); unfold in_box, in_buf in *; by rewrite (Hw Hw')|]. right.
      destruct Ei as (x & Ei & Hx). rewrite Emb. split; [|by left]. eapply gave_more; [done|by apply same_oks|done|done].
  - destruct (busy_step s Hq Hb) as (Hq' & En & Est & Em & Eka & Ei & Ea). split; [|done]. unfold kernel_inv. rewrite Eka, Ek.
    split_and!; [done|by apply (same_loaded r s)|]. right. unfold in_box. rewrite Em. split; [by apply (gave_ext s); [|apply same_oks|]|]. right. split; [by left|done].
  - destruct (nowork_step s Hq Hn) as (Hn' & (Em & Eka & Ei & Ea & Est & _) & Hq'). split; [|done]. unfold kernel_inv. rewrite Eka, Ek.
    split_and!; [done|by apply (same_loaded r s)|]. right. unfold in_box. rewrite Em. split; [by apply (gave_ext s); [|apply same_oks|]|]. right. by rewrite Est.
Qed.

Lemma nvmed_keeps s : queue_inv s → kernel_inv s → kernel_inv (nvmed_step mailbox_phys bsize s) ∧ queue_inv (nvmed_step mailbox_phys bsize s).
Proof using Hmb Hpos Hlat.
  intros Hq Hk. destruct (kat s) as [|r|r|r|r|r n|r ok|r ok|] eqn:Ek; [| | | | |by eapply poll_step| | |];
    unfold kernel_inv in Hk; rewrite Ek in Hk.
  - destruct Hk as [Hi Hn]. destruct (nowork_step s Hq Hn) as (Hn' & (_ & Eka & Ei & Ea & _) & Hq'). split; [|done].
    unfold kernel_inv. rewrite Eka, Ek. split; [|done]. by apply (gave_ext s); [|apply same_oks|].
  - destruct (asking_step r s Hq Hk) as (Hk' & (_ & Eka & _) & Hq'). split; [|done]. unfold kernel_inv. by rewrite Eka, Ek.
  - destruct Hk as [Hk H1]. destruct (asking_step r s Hq Hk) as (Hk' & (_ & Eka & _ & _ & _ & El & _) & Hq'). split; [|done]. unfold kernel_inv. by rewrite Eka, Ek, El.
  - destruct Hk as (Hk & H1 & H2). destruct (asking_step r s Hq Hk) as (Hk' & (_ & Eka & _ & _ & _ & El & Ec) & Hq'). split; [|done]. unfold kernel_inv. by rewrite Eka, Ek, El, Ec.
  - destruct Hk as (Hk & H1 & H2 & H3). destruct (asking_step r s Hq Hk) as (Hk' & (_ & Eka & _ & _ & Es & El & Ec) & Hq'). split; [|done].
    unfold kernel_inv. by rewrite Eka, Ek, El, Ec, Es.
  - destruct ok.
    + destruct Hk as (Hr & Hl & Hi & Hn). destruct (nowork_step s Hq Hn) as (Hn' & (Em & Eka & Ei & Ea & _) & Hq'). split; [|done].
      unfold kernel_inv. rewrite Eka, Ek. split_and!; [done|by apply (same_loaded r s)| |done]. unfold in_box. rewrite Em. by apply (gave_ext s); [|apply same_oks|].
    + destruct (dead_step s Hq Hk) as [Hd Hq']. split; [|done]. unfold kernel_inv.
      assert (kat (nvmed_step mailbox_phys bsize s) = kat s) as -> by apply nvmed_kat. by rewrite Ek.
  - destruct ok.
    + destruct Hk as (Hr & Hi & Hn). destruct (nowork_step s Hq Hn) as (Hn' & (Em & Eka & Ei & Ea & _) & Hq'). split; [|done].
      unfold kernel_inv. rewrite Eka, Ek. split_and!; [done| |done]. unfold in_buf. rewrite Em. by apply (gave_ext s); [|apply same_oks|].
    + destruct (dead_step s Hq Hk) as [Hd Hq']. split; [|done]. unfold kernel_inv. by rewrite nvmed_kat, Ek.
  - destruct (dead_step s Hq Hk) as [Hd Hq']. split; [|done]. unfold kernel_inv. by rewrite nvmed_kat, Ek.
Qed.

Lemma queue_ext s s' : bdisk s' = bdisk s → daemon s' = daemon s → nat_ s' = nat_ s → mb_tail (mb s') = mb_tail (mb s) →
  mb_head (mb s') = mb_head (mb s) → mb_phase (mb s') = mb_phase (mb s) → queue_inv s → queue_inv s'.
Proof. unfold queue_inv. by intros -> -> -> -> -> ->. Qed.

Lemma dead_ext s s' : issued s' = issued s → oks s' = oks s → nat_ s' = nat_ s → mb_op (mb s') = mb_op (mb s) →
  mb_lba (mb s') = mb_lba (mb s) → mb_count (mb s') = mb_count (mb s) → dead s → dead s'.
Proof. unfold dead, gave, fresh, nowork. by intros -> -> -> -> -> ->. Qed.

Lemma poll_dead r n s : kat s = KPoll r n → kernel_inv s → dead s.
Proof.
  unfold kernel_inv, dead. intros ->. intros (Hr & _ & [(Hi & Hf & _)|(Hi & [[Hb _]|[Hn _]])]).
  - left. by exists r.
  - right. right. eexists. split; [done|by left].
  - right. right. eexists. split; [done|by right].
Qed.

Lemma oks_answer r ok s : oks (answer bsize r ok s) = oks s ++ if ok then [xfer r (in_buf r s)] else [].
Proof. unfold oks, answer. cbn. rewrite filter_app, fmap_app. by destruct ok. Qed.


(** Copying between the buffer and the mailbox. *)
Lemma copy_to_box r s : request_ok r → peek (poke (bram s) (data_phys mailbox_phys) (in_buf r s)) (r_buf r) (size_of r) = in_buf r s.
Proof.
  intros Hr. destruct (size_small r Hr). destruct Hr as [_ Hd]. apply peek_poke_out. unfold len, in_buf. rewrite length_peek.
  unfold data_phys, DATA_OFF, PAGE in *. lia.
Qed.

Lemma start_keeps r s : kat s = KIdle → request_ok r → queue_inv s → kernel_inv s →
  kernel_inv (kernel_start mailbox_phys bsize r s) ∧ queue_inv (kernel_start mailbox_phys bsize r s).
Proof.
  intros Ek Hr Hq. unfold kernel_inv at 1. rewrite Ek. intros [Hi Hn]. destruct (size_small r Hr) as [E1 E2].
  unfold kernel_start. assert ((u32 (r_count r * bsize) <=? PAGE) = true) as ->.
  { destruct Hr as [(? & ? & _ & _ & ? & ?) _]. rewrite wrap_small by (unfold is_u, PAGE in *; nia). lia. }
  destruct (r_write r) eqn:Ew; (split; [|by apply (queue_ext s)]); unfold kernel_inv; cbn; (split_and!; [done| |done|done]).
  - intros _. unfold in_box, in_buf. cbn. fold (in_buf r s). rewrite peek_poke_len by (unfold in_buf; by rewrite length_peek). symmetry. by apply copy_to_box.
  - unfold loaded. by rewrite Ew.
Qed.

Lemma kernel_keeps s : queue_inv s → kernel_inv s → kernel_inv (kernel_step mailbox_phys bsize s) ∧ queue_inv (kernel_step mailbox_phys bsize s).
Proof.
  intros Hq Hk. unfold kernel_step. destruct (kat s) as [|r|r|r|r|r n|r ok|r ok|] eqn:Ek; try done.
  - unfold kernel_inv in Hk. rewrite Ek in Hk. destruct Hk as (? & ? & ? & ?). by split; [|apply (queue_ext s)].
  - unfold kernel_inv in Hk. rewrite Ek in Hk. destruct Hk as ((? & ? & ? & ?) & ?). by split; [|apply (queue_ext s)].
  - unfold kernel_inv in Hk. rewrite Ek in Hk. destruct Hk as ((? & ? & ? & ?) & ? & ?). by split; [|apply (queue_ext s)].
  - unfold kernel_inv in Hk. rewrite Ek in Hk. destruct Hk as ((? & ? & ? & Hn) & ? & ? & ?). split; [|by apply (queue_ext s)].
    unfold kernel_inv. cbn. split_and!; [done..|]. left. split_and!; [done| |done]. unfold fresh. cbn. split_and!; [done|done|by left|].
    destruct Hn as [->|[_ Hn]]; [done|]. by destruct (nat_ s).
  - destruct n as [|n].
    + split; [|by apply (queue_ext s)]. by apply (dead_ext s), (poll_dead r 0).
    + destruct (Z.eqb_spec (mb_status (mb s)) 0) as [E|E]; (split; [|by apply (queue_ext s)]); unfold kernel_inv in Hk; rewrite Ek in Hk; [done|].
      destruct Hk as (Hr & Hl & [(_ & _ & ?)|(Hi & [[_ ?]|[Hn ->]])]); [done..|]. by split_and!.
  - destruct ok; cbn [andb].
    + unfold kernel_inv in Hk. rewrite Ek in Hk. destruct Hk as (Hr & Hl & Hi & Hn). destruct (r_write r) eqn:Ew; cbn; (split; [|by apply (queue_ext s)]); unfold kernel_inv; cbn.
      * split_and!; [done| |done]. unfold in_buf. cbn. rewrite (Hl Ew) in Hi. exact Hi.
      * split_and!; [done| |done]. unfold in_buf, xfer in *. cbn. fold (size_of r). fold (in_box r s). rewrite peek_poke_len by (unfold in_box; by rewrite length_peek). done.
    + split; [|by apply (queue_ext s)]. unfold kernel_inv in Hk. rewrite Ek in Hk. by apply (dead_ext s).
  - unfold kernel_inv in Hk. rewrite Ek in Hk. destruct ok; (split; [|by apply (queue_ext s)]); unfold kernel_inv; cbn [kat answer set_k set_mb].
    + destruct Hk as (Hr & Hi & Hn). split; [|done]. unfold gave in *. rewrite oks_answer, app_nil_r. exact Hi.
    + apply (dead_ext s); try done. rewrite oks_answer. by rewrite app_nil_r.
Qed.

(** The two tasks from the moment [nvmed] starts on the mailbox of a controller. *)
Definition box_start (m : memory) (d : D) (c : NvmeController) : box :=
  mkBox m d (handoff_mailbox c) (nvmed_start (handoff_mailbox c) (io c)) KIdle NTop [] [].
Abbreviation step := (box_step mailbox_phys bsize request_ok).

Lemma start_inv m d c : synced (io c) d → nv_size d = bsize → nv_count d = blocks → kernel_inv (box_start m d c) ∧ queue_inv (box_start m d c).
Proof.
  intros Hs Hz Hc. split; [split; [by constructor|by right]|]. split_and!; [by apply nvmed_start_io|done..|]. cbn. by destruct (phase (io c)).
Qed.

Lemma step_keeps s s' : step s s' → kernel_inv s ∧ queue_inv s → kernel_inv s' ∧ queue_inv s'.
Proof using Hmb Hpos Hlat.
  intros [r Ek Hr| | |] [Hk Hq]; [by apply start_keeps|by apply kernel_keeps|by apply nvmed_keeps|]. split; [exact Hk|by apply (queue_ext s)].
Qed.

Lemma reach_inv s0 s : rtc step s0 s → kernel_inv s0 ∧ queue_inv s0 → kernel_inv s ∧ queue_inv s.
Proof using Hmb Hpos Hlat. induction 1 as [|s1 s2 s3 H12 _ IH]; [done|]. intros H. apply IH. by eapply step_keeps. Qed.

Lemma inv_pending s : kernel_inv s → ∃ given pending, issued s = given ++ pending ∧ Forall2 carried given (oks s) ∧ (length pending ≤ 1)%nat ∧ (kat s = KIdle → pending = []).
Proof.
  assert (∀ l, (length l ≤ 1)%nat → (kat s = KIdle → l = []) → gave s l →
    ∃ given pending, issued s = given ++ pending ∧ Forall2 carried given (oks s) ∧ (length pending ≤ 1)%nat ∧ (kat s = KIdle → pending = [])) as H.
  { intros l Hl Hk Hg. apply Forall2_app_inv_r in Hg as (g & p & Hg & Hp & E). exists g, p. rewrite (Forall2_length _ _ _ Hp). split_and!; [done..|].
    intros Ek. rewrite (Hk Ek) in Hp. by apply Forall2_nil_inv_r in Hp. }
  assert (∀ x, gave s [x] → kat s ≠ KIdle → ∃ given pending, issued s = given ++ pending ∧ Forall2 carried given (oks s) ∧ (length pending ≤ 1)%nat ∧ (kat s = KIdle → pending = [])) as H1
    by (intros x Hx Hk; by apply (H [x])).
  assert (gave s [] → ∃ given pending, issued s = given ++ pending ∧ Forall2 carried given (oks s) ∧ (length pending ≤ 1)%nat ∧ (kat s = KIdle → pending = [])) as H0
    by (intros Hx; apply (H []); [cbn; lia|done|done]).
  assert (dead s → kat s ≠ KIdle → ∃ given pending, issued s = given ++ pending ∧ Forall2 carried given (oks s) ∧ (length pending ≤ 1)%nat ∧ (kat s = KIdle → pending = [])) as Hd
    by (intros [(r & _ & ? & _)|[[? _]|(x & ? & _)]] Hk; eauto).
  clear H. unfold kernel_inv, asking. destruct (kat s) as [|r|r|r|r|r n|r [|]|r [|]|] eqn:Ek; naive_solver.
Qed.

(** *** The medium *)

(** What a command makes of the medium, and when its bytes are those it should have found. *)
Definition told_apply (med : Z → Z) (t : transfer) : Z → Z := λ o,
  if t_write t then default (med o) (if o <? t_lba t * bsize then None else t_data t !! Z.to_nat (o - t_lba t * bsize)) else med o.
Definition told_sound (med : Z → Z) (t : transfer) : Prop :=
  t_data t = told_apply med t <$> seqZ (t_lba t * bsize) (t_count t * bsize).
Fixpoint commands_sound (med : Z → Z) (l : list transfer) : Prop :=
  match l with [] => True | t :: l => told_sound med t ∧ commands_sound (told_apply med t) l end.

Lemma commands_snoc med l t : commands_sound med (l ++ [t]) ↔ commands_sound med l ∧ told_sound (foldl told_apply med l) t.
Proof. revert med. induction l as [|t' l IH]; intros med; cbn; [tauto|]. rewrite IH. tauto. Qed.

(** The medium is what the commands made of it. *)
Definition medium_inv (med : Z → Z) s : Prop :=
  commands_sound med (issued s) ∧ ∀ o, 0 ≤ o → nv_byte (bdisk s) o = foldl told_apply med (issued s) o.

(** [nvmed] only ever submits a request that was posted. *)
Lemma issue_posted s op lba count : kernel_inv s → nat_ s = NIssue op lba count → ∃ r, request_ok r ∧ op = op_code r ∧ lba = r_lba r ∧ count = r_count r.
Proof.
  intros Hk En. assert (nowork s → False) as Hno by (unfold nowork; rewrite En; by intros [?|[_ ?]]).
  assert (∀ r, request_ok r → fresh r s → ∃ r, request_ok r ∧ op = op_code r ∧ lba = r_lba r ∧ count = r_count r) as Hf
    by (intros r Hr (_ & _ & _ & H); rewrite En in H; by exists r).
  assert (dead s → ∃ r, request_ok r ∧ op = op_code r ∧ lba = r_lba r ∧ count = r_count r) as Hd.
  { intros [(r & ? & _ & ?)|[[_ ?]|(x & _ & [?|?])]]; [by apply (Hf r)|done|congruence|done]. }
  unfold kernel_inv, asking in Hk. destruct (kat s) as [|r|r|r|r|r n|r [|]|r [|]|]; try (exfalso; apply Hno; tauto); try by apply Hd.
  destruct Hk as (Hr & _ & [(_ & ? & _)|(_ & [[? _]|[? _]])]); [by apply (Hf r)|congruence|done].
Qed.

Lemma nvmed_medium med s : queue_inv s → kernel_inv s → medium_inv med s → medium_inv med (nvmed_step mailbox_phys bsize s).
Proof using Hmb Hpos Hlat.
  intros Hq Hk Hm. assert (medium_inv med s → ∀ n b, medium_inv med (set_n n (set_mb b s))) as Hkeep by done.
  unfold nvmed_step. destruct (nat_ s) as [| |op|op lba|op lba count|st| | | |] eqn:En; try exact (Hkeep Hm _ _).
  2:{ exact Hm. }
  destruct (issue_posted s op lba count Hk En) as (r & Hr & -> & -> & ->). destruct Hq as (Hs & Hz & Hc & _). destruct Hr as [Hp _]. pose proof Hp as (H0 & Hct & _ & _ & Hbs & _). rewrite <- Hz, <- Hc in Hp.
  assert (op_code r = 1 ∨ op_code r = 2) as Hop by (unfold op_code; destruct (r_write r); auto).
  destruct (issue_ok bsize (op_code r) (r_lba r) (r_count r) s Hs (Hlat _) Hop Hp) as (q & c & m & d & -> & _ & _ & _ & H1 & H2). rewrite Hz in H1, H2.
  destruct Hm as [Hl Hmed]. unfold medium_inv. cbn [issued bdisk]. set (n := r_count r * bsize) in *. set (x := mkTr _ _ _ _).
  assert (∀ o, 0 ≤ o → nv_byte d o = told_apply (foldl told_apply med (issued s)) x o) as Hx.
  { intros o Ho. unfold told_apply at 1. cbn. destruct Hop as [E|E]; rewrite E; cbn; [rewrite (proj2 (H1 E)); by apply Hmed|].
    rewrite (proj2 (H2 E)) by done. case_bool_decide as Hin.
    - replace (o <? r_lba r * bsize) with false by lia. rewrite list_lookup_fmap, lookup_seqZ_lt by lia. cbn. rewrite (proj2 (H2 E)) by lia.
      rewrite bool_decide_true by lia. do 2 f_equal. lia.
    - rewrite <- Hmed by done. destruct (Z.ltb_spec o (r_lba r * bsize)); [done|]. rewrite lookup_ge_None_2; [done|]. rewrite length_fmap, length_seqZ. lia. }
  rewrite commands_snoc, foldl_app. split; [split; [done|]|exact Hx]. unfold told_sound. cbn [t_data t_lba t_count]. apply list_fmap_ext. intros i y Hy.
  apply lookup_seqZ in Hy as [-> Hi]. apply Hx. unfold x. cbn. nia.
Qed.

Lemma step_medium med s s' : step s s' → queue_inv s → kernel_inv s → medium_inv med s → medium_inv med s'.
Proof using Hmb Hpos Hlat.
  intros [r Ek Hr| | |] Hq Hk Hm; [| |by apply nvmed_medium|done].
  - unfold kernel_start. by destruct (_ <=? _); [destruct (r_write r)|].
  - unfold kernel_step. destruct (kat s) as [|r|r|r|r|r [|n]|r ok|r ok|]; try done; [by destruct (_ =? 0)|by destruct (ok && _)].
Qed.

(** C10: However the kernel's task and [nvmed] are interleaved, one access to the mailbox at a
    time, and whenever a stop is asked for: the requests the kernel sees answered with success
    are exactly the entries submitted to the controller, in order, up to one still under way.
    Each entry has the request's opcode, block address and block count, and what the medium
    then holds there is what the kernel's buffer held when the answer came, as far as the
    mailbox's page reaches (4024 bytes). The medium is what the submitted writes made
    of it. No command is repeated or answered twice, and when [nvmed] has gone the position it
    left lets the kernel take the queue over in step with the controller. *)
Theorem mailbox_answers_own_request m d c s (Hs : synced (io c) d) (Hz : nv_size d = bsize) (Hc : nv_count d = blocks) (Hr : rtc step (box_start m d c) s) :
  ∃ given pending, issued s = given ++ pending ∧ Forall2 carried given (oks s) ∧ (length pending ≤ 1)%nat ∧ (kat s = KIdle → pending = []) ∧
    commands_sound (nv_byte d) (issued s) ∧ (∀ o, 0 ≤ o → nv_byte (bdisk s) o = foldl told_apply (nv_byte d) (issued s) o) ∧
    (nat_ s = NGone → ∀ c', mailbox c' = true → synced (io (handoff_from_nvmed (mb s) (nq (daemon s)) c')) (bdisk s)).
Proof using Hmb Hpos Hlat.
  assert (kernel_inv s ∧ queue_inv s ∧ medium_inv (nv_byte d) s) as (Hk & Hq & Hm1 & Hm2).
  { revert s Hr. apply (rtc_ind_r (λ s, kernel_inv s ∧ queue_inv s ∧ medium_inv (nv_byte d) s)).
    - destruct (start_inv m d c Hs Hz Hc). by split_and!.
    - intros s s' _ Hst (Hk & Hq & Hm). destruct (step_keeps s s' Hst (conj Hk Hq)). split_and!; [done..|]. by eapply step_medium. }
  destruct (inv_pending s Hk) as (g & l & Hi & Hg & Hl & Hk0).
  exists g, l. split_and!; [done..|]. intros En c' Hm. destruct Hq as (Hsy & _ & _ & Hpos'). rewrite En in Hpos'. destruct Hpos' as (? & ? & ?). by apply hand_over_io.
Qed.

(** *** A request that is lost *)

Lemma kernel_rtc s s' : rtc step (kernel_step mailbox_phys bsize s) s' → rtc step s s'.
Proof. intros H. eapply rtc_l; [apply step_kernel|exact H]. Qed.
Lemma nvmed_rtc s s' : rtc step (nvmed_step mailbox_phys bsize s) s' → rtc step s s'.
Proof. intros H. eapply rtc_l; [apply step_nvmed|exact H]. Qed.

(** Posting a request takes the kernel to its wait. *)
Lemma post_request r s : kat s = KIdle → request_ok r → ∃ s', rtc step s s' ∧ kat s' = KPoll r MAILBOX_WAIT_SPINS ∧ nat_ s' = nat_ s ∧
  daemon s' = daemon s ∧ bdisk s' = bdisk s ∧ mb s' = set_op (op_code r) (set_status 0 (set_count (r_count r) (set_lba (r_lba r) (mb s)))).
Proof.
  intros Ek Hr. destruct (size_small r Hr) as [_ Hn].
  assert (∃ m, kernel_start mailbox_phys bsize r s = set_k (KLba r) (set_bram m s)) as [m E].
  { unfold kernel_start. replace (u32 (r_count r * bsize) <=? PAGE) with true.
    - destruct (r_write r); [by eexists|]. exists (bram s). by destruct s.
    - destruct Hr as [(? & ? & _ & _ & ? & ?) _]. rewrite wrap_small by (unfold is_u, PAGE in *; nia). lia. }
  eexists. split; [eapply rtc_l; [by apply step_start|]; rewrite E; do 4 apply kernel_rtc; apply rtc_refl|]. by split_and!.
Qed.

(** [nvmed] serves it and reports, up to clearing [op]. *)
Lemma serve_request r s : queue_inv s → request_ok r → fresh r s → nat_ s = NTop → mb_stop (mb s) = 0 → mb_op (mb s) = op_code r →
  ∃ s', rtc step s s' ∧ kat s' = kat s ∧ nat_ s' = NClear ∧ mb s' = set_status 1 (mb s).
Proof using Hmb Hpos Hlat.
  intros Hq [Hp _] (El & Ec & _) En Est Eop. assert (op_code r ≠ 0) as Hop by (unfold op_code; by destruct (r_write r)).
  assert (nvmed_step mailbox_phys bsize (nvmed_step mailbox_phys bsize (nvmed_step mailbox_phys bsize (nvmed_step mailbox_phys bsize s)))
    = set_n (NIssue (op_code r) (r_lba r) (r_count r)) s) as E4.
  { assert (nvmed_step mailbox_phys bsize s = set_n NOp s) as -> by (unfold nvmed_step; by rewrite En, Est).
    cbn. rewrite Eop. replace (op_code r =? 0) with false by lia. cbn. by rewrite El, Ec. }
  destruct Hq as (Hs & Hz & Hc & _). rewrite <- Hz, <- Hc in Hp.
  destruct (issue_ok bsize (op_code r) (r_lba r) (r_count r) (set_n (NIssue (op_code r) (r_lba r) (r_count r)) s) Hs (Hlat _)) as (q & cc & m & d & E & _);
    [unfold op_code; destruct (r_write r); auto|done|].
  eexists. split; [do 4 apply nvmed_rtc; rewrite E4; apply nvmed_rtc|].
  { change (nvmed_step mailbox_phys bsize (set_n (NIssue ?o ?a ?n) s)) with (nvmed_issue mailbox_phys bsize o a n (set_n (NIssue o a n) s)).
    rewrite E. apply nvmed_rtc, rtc_refl. }
  done.
Qed.

(** The kernel takes the answer, although [nvmed] has not cleared [op] yet. *)
Lemma take_answer r n s : kat s = KPoll r (S n) → mb_status (mb s) = 1 → ∃ s', rtc step s s' ∧ kat s' = KIdle ∧ nat_ s' = nat_ s ∧ mb s' = set_status 0 (mb s).
Proof.
  intros Ek Es. assert (kernel_step mailbox_phys bsize s = set_k (KTake r true) s) as E1 by (unfold kernel_step; by rewrite Ek, Es).
  eexists. split; [apply kernel_rtc; rewrite E1; do 2 apply kernel_rtc; apply rtc_refl|]. cbn. by destruct (r_write r).
Qed.

(** The mailbox is empty and the kernel waits. *)
Definition stuck (r : request) s : Prop :=
  mb_op (mb s) = 0 ∧ resting (nat_ s) ∧
  match kat s with KPoll r' _ => r' = r ∧ mb_status (mb s) = 0 | KTake r' ok | KAck r' ok => r' = r ∧ ok = false | KPanic => True | _ => False end.

Lemma stuck_step r s s' : step s s' → stuck r s → stuck r s'.
Proof.
  intros [r' Ek Hr| | |] (Ho & Hn & Hk).
  - by rewrite Ek in Hk.
  - unfold kernel_step. destruct (kat s) as [| | | | |r' [|n]|r' ok|r' ok|] eqn:Ek; try done.
    + destruct Hk as [-> _]. by split_and!.
    + destruct Hk as [-> E]. rewrite E. cbn. by split_and!.
    + destruct Hk as [-> ->]. by split_and!.
    + destruct Hk as [-> ->]. by split_and!.
    + split_and!; try done. by rewrite Ek.
  - unfold nvmed_step. destruct (nat_ s) eqn:En; try done; unfold stuck; cbn; rewrite ?Ho, ?En; [destruct (mb_stop (mb s) =? 0)|..]; by split_and!.
  - split_and!; done.
Qed.

Lemma stuck_halts r n s : stuck r s → kat s = KPoll r n → kat (Nat.iter (n + 3) (kernel_step mailbox_phys bsize) s) = KPanic.
Proof.
  revert s. induction n as [|n IH]; intros s H Ek.
  - cbn. unfold kernel_step at 3. by rewrite Ek.
  - replace (S n + 3)%nat with (S (n + 3)) by lia. rewrite Nat.iter_succ_r. apply IH; [eapply stuck_step; [apply step_kernel|done]|].
    unfold kernel_step. rewrite Ek. destruct H as (_ & _ & Hk). rewrite Ek in Hk. destruct Hk as [_ ->]. done.
Qed.

(** The mailbox can lose a request. [nvmed] reports a request's status before it clears
    [op]; when it is preempted in between and the kernel posts the next request, the
    clearing wipes that one out. The kernel then waits in vain whatever happens, and its
    assertion stops the machine although the disk never failed. *)
Theorem mailbox_loses_request m d c r1 r2 (Hs : synced (io c) d) (Hz : nv_size d = bsize) (Hc : nv_count d = blocks) (H1 : request_ok r1) (H2 : request_ok r2) :
  ∃ s, rtc step (box_start m d c) s ∧ kat s = KPoll r2 MAILBOX_WAIT_SPINS ∧ (∀ s', rtc step s s' → kat s' ≠ KIdle) ∧
    kat (Nat.iter (MAILBOX_WAIT_SPINS + 3) (kernel_step mailbox_phys bsize) s) = KPanic.
Proof using Hmb Hpos Hlat.
  destruct (post_request r1 (box_start m d c) eq_refl H1) as (s1 & R1 & K1 & N1 & D1 & B1 & M1).
  destruct (reach_inv _ _ R1 (start_inv m d c Hs Hz Hc)) as [_ Q1].
  destruct (serve_request r1 s1) as (s2 & R2 & K2 & N2 & M2); [done|done| |done|by rewrite M1|by rewrite M1|].
  { unfold fresh. rewrite N1, M1. cbn. by split_and!; auto. }
  destruct MAILBOX_WAIT_SPINS as [|n] eqn:Espin; [by apply spins_pos in Espin|]. rewrite <- Espin in *.
  destruct (take_answer r1 n s2) as (s3 & R3 & K3 & N3 & M3); [by rewrite K2, K1, Espin|by rewrite M2|].
  destruct (post_request r2 s3 K3 H2) as (s4 & R4 & K4 & N4 & _ & _ & M4).
  assert (nvmed_step mailbox_phys bsize s4 = set_n NPersist (set_mb (set_op 0 (mb s4)) s4)) as E5 by (unfold nvmed_step; by rewrite N4, N3, N2).
  assert (stuck r2 (nvmed_step mailbox_phys bsize s4)) as Hst by (rewrite E5; split_and!; [done..|]; cbn; rewrite K4, M4; done).
  exists (nvmed_step mailbox_phys bsize s4). split_and!.
  - etrans; [exact R1|]. etrans; [exact R2|]. etrans; [exact R3|]. etrans; [exact R4|]. apply nvmed_rtc, rtc_refl.
  - by rewrite E5.
  - intros s' Hr'. assert (stuck r2 s') as (_ & _ & Hk); [|by intros E; rewrite E in Hk].
    clear -Hr' Hst. induction Hr'; [done|]. eauto using stuck_step.
  - apply (stuck_halts r2); [done|]. by rewrite E5.
Qed.
End protocol.

(** C36: The mailbox's buffer starts 72 bytes into its page and the command names no second
    page: of a 4096-byte block the controller moves the last 72 bytes to or from physical
    address 0. [nvmed] reports success; a write stores foreign bytes at the block's end, and a
    read leaves the buffer's old bytes there. *)
Theorem mailbox_block_tail_lost op lba count (s : @box D) (Hs : synced (nq (daemon s)) (bdisk s)) (Hlat : (nv_latency (bdisk s) < NVMED_SPINS)%nat)
  (Hop : op = 1 ∨ op = 2) (Hp : place_ok (nv_size (bdisk s)) (nv_count (bdisk s)) lba count) (Hfull : count * nv_size (bdisk s) = 4096) :
  let s' := nvmed_issue mailbox_phys (nv_size (bdisk s)) op lba count s in let o := lba * nv_size (bdisk s) in let data := data_phys mailbox_phys in
  nat_ s' = NStatus 1 ∧
  (op = 2 → ∀ i, 0 ≤ i < 4096 → nv_byte (bdisk s') (o + i) = if i <? 4024 then bram s (data + i) else bram s (i - 4024)) ∧
  (op = 1 → ∀ i, 4024 ≤ i < 4096 → bram s' (data + i) = bram s (data + i) ∧ bram s' (i - 4024) = nv_byte (bdisk s) (o + i)).
Proof using Hmb Hpos.
  destruct (issue_ok (nv_size (bdisk s)) op lba count s Hs Hlat Hop Hp) as (q & c & m & d & -> & _ & _ & _ & H1 & H2).
  cbn [nat_ bdisk bram]. pose proof Hp as (Hl0 & _ & _ & _ & Hsz & _). pose proof data_mod as Hdm. split_and!; [done| |].
  - intros E i Hi. destruct (H2 E) as [_ ->]; [|nia]. rewrite bool_decide_true by nia. unfold dma_addr. cbn [prp1 prp2 nvmed_cmd]. rewrite Hdm.
    rewrite Z.add_simpl_l. unfold PAGE. destruct (Z.ltb_spec i 4024); [by replace (72 + i <? 4096) with true by lia|].
    replace (72 + i <? 4096) with false by lia. f_equal. lia.
  - intros E i Hi. destruct (H1 E) as [-> _]. unfold dma_in. cbn [prp1 prp2 nvmed_cmd]. rewrite Hdm. set (l := nv_byte (bdisk s) <$> _).
    assert (length l = Z.to_nat 4096) as Hl by (unfold l; rewrite length_fmap, length_seqZ; lia).
    change (PAGE - 72) with 4024. split.
    + rewrite poke_out; [rewrite poke_out; [done|]|]; unfold len; rewrite ?length_take, ?length_drop, Hl; unfold data_phys, DATA_OFF, PAGE in *; lia.
    + apply poke_in; [|lia]. rewrite lookup_drop. unfold l. rewrite list_lookup_fmap, lookup_seqZ_lt by lia. cbn. f_equal. f_equal. lia.
Qed.
End box.
End nvme.

(** ** Witnesses *)

(** A controller with 64 blocks of 512 bytes that carries out reads and writes and answers
    after three polls. *)
Record toy := mkToy { toy_bytes : Z → Z; toy_pos : Z * Z * bool }.

Definition toy_ring (d : toy) (qid : Z) (sqs : list SqEntry) (cqs : list CqEntry) (tail : Z) (m : memory) : list CqEntry * memory * toy :=
  let '(h, t, ph) := toy_pos d in
  match sqs !! Z.to_nat h with
  | None => (cqs, m, d)
  | Some e =>
    let o := sqe_lba e * 512 in let n := sqe_blocks e * 512 in
    (<[Z.to_nat t := mkCqe 0 tail qid (sqe_cid e) (Z.b2z ph)]> cqs,
     if opcode e =? 2 then dma_in m e (toy_bytes d <$> seqZ o n) else m,
     mkToy (if opcode e =? 1 then λ x, if bool_decide (o ≤ x < o + n) then m (dma_addr e (x - o)) else toy_bytes d x else toy_bytes d) (next_pos (h, t, ph)))
  end.

#[export] Instance toy_device : NvmeDevice toy.
Proof.
  refine {| nv_byte := toy_bytes; nv_size := λ _, 512; nv_count := λ _, 64; nv_pos := λ d _, toy_pos d; nv_ring := toy_ring; nv_latency := λ _, 3%nat |}.
  - intros d sqs cqs m h t ph e lba n Hp He [Ho Hn Hl ? [-> ?] ?]. unfold toy_ring. rewrite Hp, He, Ho, Hl. cbn. eexists _, _. by split_and!.
  - intros d sqs cqs m h t ph e lba n Hp He [Ho Hn Hl ? [-> ?] ?]. unfold toy_ring. rewrite Hp, He, Ho, Hl. cbn. eexists _, _. by split_and!.
Defined.

Definition toy_disk : toy := mkToy (λ o, o mod 251) (0, 0, true).
Definition toy_ctrl : NvmeController := ctrl_new 0x4000 0x5000 0x6000 0x7000.
Definition toy_ram : memory := λ a, a mod 256.

Lemma toy_synced : synced (io toy_ctrl) toy_disk.
Proof.
  split; try done. intros i e He. cbn in He. apply lookup_replicate in He as [-> _]. cbn. by replace (Z.of_nat i <? 0) with false by lia.
Qed.

Lemma toy_lat : ∀ d : toy, (nv_latency d < NVMED_SPINS)%nat.
Proof. intros d. exact (proj2 spins_three). Qed.

Lemma toy_place : place_ok 512 64 8 8.
Proof. split_and!; vm_compute; congruence || reflexivity. Qed.

(** Block 1 written from page 2, the queue handed over and back, block 1 read into page 3. *)
Lemma direct_path_is_block_device_witness : ∃ s', run_dios [DWrite 8 8 0x2000; DHandOver; DRead 8 8 0x3000] (mkHost toy_ctrl toy_ram toy_disk) = Ok (tt, s') ∧
  ram s' 0x3005 = 5 ∧ nv_byte (disk s') 4097 = 1.
Proof.
  destruct (direct_path_is_block_device [DWrite 8 8 0x2000; DHandOver; DRead 8 8 0x3000] (mkHost toy_ctrl toy_ram toy_disk) (toy_bytes toy_disk)) as (s' & E & _ & Hm & Hd).
  - exact toy_synced.
  - intros o Ho. reflexivity.
  - apply Forall_cons; split; [split; [exact toy_place|reflexivity]|]. apply Forall_cons; split; [exact I|].
    apply Forall_cons; split; [split; [exact toy_place|reflexivity]|apply Forall_nil; exact I].
  - intros d. exact (proj1 spins_three).
  - exists s'. split; [exact E|]. split; [rewrite Hm; vm_compute; reflexivity|]. rewrite Hd; [vm_compute; reflexivity|lia].
Defined.

Definition toy_box : box := box_start toy_ram toy_disk toy_ctrl.

(** The mailbox at 0x10000: the last byte of the block comes from physical address 71. *)
Lemma mailbox_block_tail_lost_witness : nv_byte (bdisk (nvmed_issue 0x10000 512 2 8 8 toy_box)) (8 * 512 + 4095) = toy_ram 71.
Proof.
  destruct (mailbox_block_tail_lost 0x10000) with (op := 2) (lba := 8) (count := 8) (s := toy_box) as (_ & H & _).
  - reflexivity.
  - unfold PAGE. lia.
  - apply nvmed_start_io. exact toy_synced.
  - exact (proj2 spins_three).
  - right. reflexivity.
  - exact toy_place.
  - reflexivity.
  - exact (H eq_refl 4095 ltac:(lia)).
Defined.

Definition toy_read : request := mkReq false 8 8 0x3000.
Definition toy_write : request := mkReq true 8 8 0x2000.

(** The kernel posts a write of block 8 and [nvmed] serves it up to its report. *)
Definition toy_served : @box toy := Nat.iter 5 (nvmed_step 0x10000 512) (Nat.iter 4 (kernel_step 0x10000 512) (kernel_start 0x10000 512 toy_write toy_box)).

Lemma toy_run : rtc (box_step 0x10000 512 (request_ok 0x10000 512 64)) toy_box toy_served.
Proof.
  eapply rtc_l; [apply (step_start _ _ _ toy_box toy_write); [reflexivity|]|].
  - split; [exact toy_place|]. left. cbn. unfold PAGE. lia.
  - unfold toy_served. generalize (kernel_start 0x10000 512 toy_write toy_box). intros s. cbn [Nat.iter nat_rect].
    do 4 apply kernel_rtc. do 5 apply nvmed_rtc. apply rtc_refl.
Qed.

Lemma mailbox_answers_own_request_witness : ∃ given pending, issued toy_served = given ++ pending ∧ Forall2 (carried) given (oks toy_served) ∧ (length pending ≤ 1)%nat ∧
  ∀ o, 0 ≤ o → nv_byte (bdisk toy_served) o = foldl (told_apply 512) (toy_bytes toy_disk) (issued toy_served) o.
Proof.
  destruct (mailbox_answers_own_request (D:=toy) 0x10000 eq_refl ltac:(unfold PAGE; lia) 512 64 toy_lat toy_ram toy_disk toy_ctrl toy_served)
    as (g & l & Hi & Hg & Hl & _ & _ & Hm & _).
  - exact toy_synced.
  - reflexivity.
  - reflexivity.
  - exact toy_run.
  - exists g, l. split; [exact Hi|]. split; [exact Hg|]. split; [exact Hl|exact Hm].
Defined.

Lemma mailbox_loses_request_witness : ∃ s, rtc (box_step 0x10000 512 (request_ok 0x10000 512 64)) toy_box s ∧ kat s = KPoll toy_read MAILBOX_WAIT_SPINS ∧
  kat (Nat.iter (MAILBOX_WAIT_SPINS + 3) (kernel_step 0x10000 512) s) = KPanic.
Proof.
  destruct (mailbox_loses_request (D:=toy) 0x10000 eq_refl ltac:(unfold PAGE; lia) 512 64 toy_lat toy_ram toy_disk toy_ctrl toy_write toy_read) as (s & Hr & Hk & _ & Hh).
  - exact toy_synced.
  - reflexivity.
  - reflexivity.
  - split; [exact toy_place|]. left. cbn. unfold PAGE. lia.
  - split; [exact toy_place|]. left. cbn. unfold PAGE. lia.
  - exists s. split; [exact Hr|]. split; [exact Hk|exact Hh].
Defined.
