(* ===== verification/Firmware.v ===== *)
(** Firmware: the ACPI tables ([kernel/src/acpi.rs]), PCI configuration space
    ([kernel/src/pci.rs]) and the real-time clock ([kernel/src/rtc.rs]).

    Physical memory, what a configuration read answers and what a CMOS register holds are the
    machine's: they are parameters. Port writes are listed in order. *)

From Stdlib Require Import ZifyBool.
From stdpp Require Import prelude list numbers strings.
From S2P Require Import Prelude Text Pmm Memory.

Local Open Scope Z_scope.

(** ** ACPI: finding the power-off register *)

Record S5Shutdown := mkS5 { pm1a_cnt : Z; pm1b_cnt : Z; slp_typa : Z; slp_typb : Z }.

Definition checksum_ok (bytes : list Z) : bool := foldl (λ acc b, u8 (acc + b)) 0 bytes =? 0.

Section acpi.
Variable mem : memory.

Definition read_bytes (phys n : Z) : list Z := peek mem phys (Z.to_nat n).

(** [u32::from_le_bytes(l[a..b].try_into().ok()?)] and the like *)
Definition le_at (l : list Z) (a b : Z) : outcome Z := x ← slice l a b; Ok (le_val x).

Fixpoint find_entry (n : nat) (i size : Z) (entries : list Z) (sig : list Z) : outcome (option Z) :=
  match n with
  | O => Ok None
  | S n =>
    entry_phys ← le_at entries (i * size) (i * size + size);
    if entry_phys =? 0 then find_entry n (i + 1) size entries sig
    else if beq (read_bytes entry_phys 4) sig then Ok (Some entry_phys)
    else find_entry n (i + 1) size entries sig
  end.

Definition find_table (sdt_phys : Z) (is_xsdt : bool) (sig : list Z) : outcome (option Z) :=
  length ← le_at (read_bytes sdt_phys 36) 4 8;
  if (length <? 36) || (Z.shiftl 1 20 <? length) then Ok None
  else
    let full := read_bytes sdt_phys length in
    if negb (checksum_ok full) then Ok None
    else
      let size := if is_xsdt then 8 else 4 in
      entries ← slice full 36 (len full);
      find_entry (Z.to_nat (len entries / size)) 0 size entries sig.

(** [PkgLength]: its value and width. *)
Fixpoint pkg_bytes (n : nat) (i : Z) (data : list Z) (v : Z) : outcome Z :=
  match n with O => Ok v | S n => b ← idx data (1 + i); pkg_bytes n (i + 1) data (Z.lor v (u32 (Z.shiftl b (4 + 8 * i)))) end.

Definition parse_pkg_length (data : list Z) : outcome (option (Z * Z)) :=
  match data with
  | [] => Ok None
  | lead :: _ =>
    let follow_count := Z.shiftr lead 6 in
    if follow_count =? 0 then Ok (Some (Z.land lead 0x3F, 1))
    else if len data <? 1 + follow_count then Ok None
    else v ← pkg_bytes (Z.to_nat follow_count) 0 data (Z.land lead 0x0F); Ok (Some (v, 1 + follow_count))
  end.

(** A small integer at [i]: its value and where it ends. *)
Definition read_small_int (data : list Z) (i : Z) : option (Z * Z) :=
  match data !! Z.to_nat i with
  | None => None
  | Some b =>
    if b =? 0x0A then match data !! Z.to_nat (i + 1) with Some v => Some (v, i + 2) | None => None end
    else if b <? 0x40 then Some (b, i + 1) else None
  end.

(** [aml.windows(4).position(|w| w == needle)] *)
Fixpoint find_needle (needle aml : list Z) (pos : Z) : option Z :=
  match aml with
  | [] => None
  | _ :: rest => if (length needle <=? length aml)%nat && beq (take (length needle) aml) needle then Some pos else find_needle needle rest (pos + 1)
  end.

Definition S5_NAME : list Z := txt "_S5_".

Definition find_s5_slp_types (aml : list Z) : outcome (option (Z * Z)) :=
  match find_needle S5_NAME aml 0 with
  | None => Ok None
  | Some pos =>
    let i := pos + 4 in
    if len aml <=? i then Ok None
    else
      b ← idx aml i;
      if negb (b =? 0x12) then Ok None
      else
        (* [aml.get(i..)?]: an empty rest is [Some] *)
        p ← parse_pkg_length (drop (Z.to_nat (i + 1)) aml);
        match p with
        | None => Ok None
        | Some (_, consumed) =>
          let i := i + 1 + consumed in
          if len aml <=? i then Ok None
          else
            match read_small_int aml (i + 1) with
            | None => Ok None
            | Some (a, i) => match read_small_int aml i with None => Ok None | Some (b, _) => Ok (Some (a, b)) end
            end
        end
  end.

(** The root table an RSDP names, with its kind. *)
Definition root_table (rsdp_phys : Z) : outcome (option (Z * bool)) :=
  let rsdp := read_bytes rsdp_phys 20 in
  sig ← slice rsdp 0 8;
  if negb (beq sig (txt "RSD PTR ")) then Ok None
  else
    revision ← idx rsdp 15;
    if 2 <=? revision then
      let full := read_bytes rsdp_phys 36 in
      if negb (checksum_ok full) then Ok None else xsdt ← le_at full 24 32; Ok (Some (xsdt, true))
    else if negb (checksum_ok rsdp) then Ok None
    else rsdt ← le_at rsdp 16 20; Ok (Some (rsdt, false)).

(** A table whose length lies in the given bounds and whose checksum is right. *)
Definition sound_table (phys lo hi : Z) : outcome (option (list Z)) :=
  n ← le_at (read_bytes phys 36) 4 8;
  if (n <? lo) || (hi <? n) then Ok None
  else if negb (checksum_ok (read_bytes phys n)) then Ok None else Ok (Some (read_bytes phys n)).

Definition dsdt_address (fadt : list Z) : outcome Z :=
  if 148 <=? len fadt then
    x ← le_at fadt 140 148;
    if x =? 0 then le_at fadt 40 44 else Ok x
  else le_at fadt 40 44.

Definition find_s5 (rsdp_phys : Z) : outcome (option S5Shutdown) :=
  if rsdp_phys =? 0 then Ok None
  else
    root ← root_table rsdp_phys;
    match root with
    | None => Ok None
    | Some (sdt_phys, is_xsdt) =>
      if sdt_phys =? 0 then Ok None
      else
        o ← find_table sdt_phys is_xsdt (txt "FACP");
        match o with
        | None => Ok None
        | Some fadt_phys =>
          f ← sound_table fadt_phys 76 4096;
          match f with
          | None => Ok None
          | Some fadt =>
            pm1a ← le_at fadt 64 68;
            pm1b ← le_at fadt 68 72;
            dsdt_phys ← dsdt_address fadt;
            if dsdt_phys =? 0 then Ok None
            else
              t ← sound_table dsdt_phys 36 (Z.shiftl 1 20);
              match t with
              | None => Ok None
              | Some dsdt =>
                aml ← slice dsdt 36 (len dsdt);
                r ← find_s5_slp_types aml;
                Ok (match r with Some (a, b) => Some (mkS5 (u16 pm1a) (u16 pm1b) a b) | None => None end)
              end
          end
        end
    end.

Definition SLP_EN : Z := Z.shiftl 1 13.

(** The port writes of [shutdown] before it halts, in order. *)
Definition shutdown (rsdp : Z) : outcome (list (Z * Z)) :=
  s5 ← find_s5 rsdp;
  Ok (match s5 with
      | Some s =>
        (pm1a_cnt s, Z.lor (slp_typa s) SLP_EN) ::
        (if pm1b_cnt s =? 0 then [] else [(pm1b_cnt s, Z.lor (slp_typb s) SLP_EN)])
      | None => []
      end ++ [(0x604, 0x2000); (0xB004, 0x2000); (0x4004, 0x3400)]).
End acpi.

(** [reboot] on the status bytes the keyboard controller gives: it waits while bit 1 is set
    and then pulses the reset line. [None]: it still waits. *)
Fixpoint reboot (status : list Z) : option (list (Z * Z)) :=
  match status with
  | [] => None
  | good :: status => if Z.land good 2 =? 0 then Some [(0x64, 0xFE)] else reboot status
  end.

(** ** PCI *)

Section pci.
(** A configuration read: the machine's answer to an address. *)
Variable config : Z → Z.

Definition config_addr (bus dev func offset : Z) : Z :=
  Z.lor (Z.lor (Z.lor (Z.lor (Z.shiftl 1 31) (Z.shiftl bus 16)) (Z.shiftl dev 11)) (Z.shiftl func 8)) (Z.land offset 0xFC).
Definition config_read32 (bus dev func offset : Z) : Z := config (config_addr bus dev func offset).
Definition config_read16 (bus dev func offset : Z) : Z :=
  u16 (Z.shiftr (config_read32 bus dev func (Z.land offset 0xFC)) (Z.land offset 2 * 8)).
Definition config_read8 (bus dev func offset : Z) : Z :=
  u8 (Z.shiftr (config_read32 bus dev func (Z.land offset 0xFC)) (Z.land offset 3 * 8)).

(** The two port writes of a configuration write. *)
Definition config_write32 (bus dev func offset val : Z) : list (Z * Z) := [(0xCF8, config_addr bus dev func offset); (0xCFC, val)].

Record PciDevice := mkPci { bus : Z; dev : Z; func : Z; vendor_id : Z; device_id : Z; class : Z; subclass : Z; prog_if : Z; header : Z }.

Definition bar (d : PciDevice) (n : Z) : Z := config_read32 (bus d) (dev d) (func d) (u8 (0x10 + n * 4)).

Definition probe_func (bus dev header func : Z) : list PciDevice :=
  let fid := config_read32 bus dev func 0 in
  if fid =? 0xFFFFFFFF then []
  else
    let fc := config_read32 bus dev func 8 in
    [mkPci bus dev func (u16 fid) (u16 (Z.shiftr fid 16)) (u8 (Z.shiftr fc 24)) (u8 (Z.shiftr fc 16)) (u8 (Z.shiftr fc 8)) header].

Definition probe_dev (bus dev : Z) : list PciDevice :=
  if config_read32 bus dev 0 0 =? 0xFFFFFFFF then []
  else
    let header := u8 (Z.shiftr (config_read32 bus dev 0 0x0C) 16) in
    seqZ 0 (if Z.land header 0x80 =? 0 then 1 else 8) ≫= probe_func bus dev header.

Definition enumerate : list PciDevice := seqZ 0 256 ≫= λ bus, seqZ 0 32 ≫= probe_dev bus.
End pci.

Definition class_name (class sub : Z) : string :=
  match class, sub with
  | 1, 1 => "IDE" | 1, 6 => "SATA/AHCI" | 1, 8 => "NVMe" | 2, 0 => "Ethernet" | 3, 0 => "VGA" | 3, 2 => "Display (3D)"
  | 6, 0 => "Host Bridge" | 6, 1 => "ISA Bridge" | 6, 4 => "PCI-PCI Bridge" | 0x0C, 3 => "USB" | _, _ => "Unknown"
  end.

(** ** The clock *)

Section rtc.
Variable cmos : Z → Z.

Definition bcd (v : Z) : Z := u8 (Z.land v 0x0F + Z.shiftr v 4 * 10).

Record DateTime := mkDate { hour : Z; min : Z; sec : Z; day : Z; month : Z; year : Z }.

(** Once no update is in progress. *)
Definition now : DateTime := mkDate (bcd (cmos 4)) (bcd (cmos 2)) (bcd (cmos 0)) (bcd (cmos 7)) (bcd (cmos 8)) (2000 + bcd (cmos 9)).

Definition digit (v : Z) : Z := u8 (0x30 + v).

Definition fmt_time : list Z :=
  let t := now in utf8_or (txt "??:??") [digit (hour t / 10); digit (hour t mod 10); 0x3A; digit (min t / 10); digit (min t mod 10)].

Definition fmt_date : list Z :=
  let t := now in let y := year t in
  utf8_or (txt "????-??-??")
    [digit (y / 1000); digit ((y / 100) mod 10); digit ((y / 10) mod 10); digit (y mod 10); 0x2D; digit (month t / 10); digit (month t mod 10);
     0x2D; digit (day t / 10); digit (day t mod 10)].
End rtc.
