(* ===== verification/FirmwareSpec.v ===== *)
(** What the firmware tables are taken to say: the search for the power-off register never
    panics and finds exactly the value a well-formed chain of tables holds; the PCI scan and
    the clock's digits. *)

From Stdlib Require Import ZifyBool.
From stdpp Require Import prelude list numbers strings.
From S2P Require Import Prelude Text Pmm Memory Firmware.

Local Open Scope Z_scope.

(** ** The [_S5_] package *)

(** An integer of the package: [BytePrefix] and a byte, or one small byte. *)
Inductive aml_int : list Z → Z → Prop :=
| int_byte v : aml_int [0x0A; v] v
| int_small b : b ≠ 0x0A → b < 0x40 → aml_int [b] b.

(** A [PkgLength]: its first byte says how many follow. *)
Definition pkg_len (l : list Z) : Prop := ∃ lead rest, l = lead :: rest ∧ len rest = Z.shiftr lead 6.

(** The first [_S5_] of [aml] names a package that begins with the integers [a] and [b]. *)
Definition s5_package (aml : list Z) (a b : Z) : Prop :=
  ∃ pre pkg num ea eb post, aml = pre ++ S5_NAME ++ [0x12] ++ pkg ++ [num] ++ ea ++ eb ++ post ∧
    (∀ k, (k < length pre)%nat → take 4 (drop k aml) ≠ S5_NAME) ∧ pkg_len pkg ∧ aml_int ea a ∧ aml_int eb b.

Lemma find_needle_some aml p r : find_needle S5_NAME aml p = Some r ↔
  ∃ pre post, aml = pre ++ S5_NAME ++ post ∧ r = p + len pre ∧ ∀ k, (k < length pre)%nat → take 4 (drop k aml) ≠ S5_NAME.
Proof.
  revert p. induction aml as [|x aml IH]; intros p; cbn [find_needle].
  - split; [done|]. intros (pre & post & E & _). by destruct pre.
  - change (length S5_NAME) with 4%nat. assert ((4 <=? length (x :: aml))%nat && beq (take 4 (x :: aml)) S5_NAME = bool_decide (take 4 (x :: aml) = S5_NAME)) as ->.
    { unfold beq. case_bool_decide as E; [|by rewrite andb_false_r]. assert (length (take 4 (x :: aml)) = 4%nat) as Hl by by rewrite E.
      rewrite length_take in Hl. rewrite andb_true_r. apply Nat.leb_le. lia. }
    case_bool_decide as E.
    + split.
      * intros [= <-]. exists [], (drop 4 (x :: aml)). split_and!; [|unfold len; cbn; lia|cbn; lia]. cbn [app]. rewrite <- E. by rewrite take_drop.
      * intros (pre & post & E' & -> & Hk). destruct pre as [|y pre]; [by rewrite Z.add_0_r|]. exfalso. apply (Hk 0%nat); [cbn; lia|]. done.
    + rewrite IH. split.
      * intros (pre & post & -> & -> & Hk). exists (x :: pre), post. split_and!; [done|unfold len; cbn; lia|].
        intros [|k] Hk'; [done|]. apply Hk. cbn in Hk'. lia.
      * intros (pre & post & E' & -> & Hk). destruct pre as [|y pre]; [by rewrite E' in E|]. injection E' as -> E'. exists pre, post.
        split_and!; [done|unfold len; cbn; lia|]. intros k Hk'. apply (Hk (S k)). cbn. lia.
Qed.

Lemma pkg_bytes_ok n i data v : 0 ≤ i → i + Z.of_nat n < len data → ∃ r, pkg_bytes n i data v = Ok r.
Proof.
  revert i v. induction n as [|n IH]; intros i v Hi Hl; [by eexists|]. cbn. destruct (idx_ok data (1 + i)) as (x & -> & _); [lia|]. cbn. apply IH; lia.
Qed.

(** [parse_pkg_length] answers the width of the [PkgLength] at the head. *)
Lemma parse_pkg_ok data : Forall is_byte data →
  ∃ r, parse_pkg_length data = Ok r ∧ ∀ n, (∃ v, r = Some (v, n)) ↔ ∃ l rest, data = l ++ rest ∧ pkg_len l ∧ n = len l.
Proof.
  intros Hb. destruct data as [|lead data]; [exists None; split; [done|]; intros n; split; [by intros [? ?]|]; intros (l & rest & E & (? & ? & -> & _) & _); done|].
  apply Forall_cons in Hb as [[H0 H1] _]. cbn [parse_pkg_length]. assert (0 ≤ Z.shiftr lead 6 ≤ 3) as Hs by (rewrite Z.shiftr_div_pow2 by lia; dlia).
  assert (∀ n, (∃ l rest, lead :: data = l ++ rest ∧ pkg_len l ∧ n = len l) ↔ Z.shiftr lead 6 ≤ len data ∧ n = 1 + Z.shiftr lead 6) as Hspec.
  { intros n. split.
    - intros (l & rest & E & (x & l' & -> & Hl) & ->). injection E as -> ->. unfold len in *. rewrite length_app. cbn. lia.
    - intros [Hl ->]. exists (lead :: take (Z.to_nat (Z.shiftr lead 6)) data), (drop (Z.to_nat (Z.shiftr lead 6)) data).
      split; [cbn; by rewrite take_drop|]. assert (length (take (Z.to_nat (Z.shiftr lead 6)) data) = Z.to_nat (Z.shiftr lead 6)) as El by (rewrite length_take; unfold len in *; lia).
      split; [by eexists _, _; split; [done|]; unfold len; rewrite El; lia|]. unfold len. cbn. rewrite El. lia. }
  destruct (Z.eqb_spec (Z.shiftr lead 6) 0) as [E|E].
  - eexists. split; [done|]. intros n. rewrite Hspec. split; [intros (v & [= _ <-]); unfold len; lia|intros [_ ->]; eexists; rewrite E; done].
  - destruct (Z.ltb_spec (len (lead :: data)) (1 + Z.shiftr lead 6)) as [Hl|Hl].
    + eexists. split; [done|]. intros n. rewrite Hspec. split; [by intros (? & ?)|]. intros [Hl' _]. unfold len in *. cbn in Hl. lia.
    + destruct (pkg_bytes_ok (Z.to_nat (Z.shiftr lead 6)) 0 (lead :: data) (Z.land lead 0x0F)) as (v & ->); [lia|unfold len in *; lia|]. cbn.
      eexists. split; [done|]. intros n. rewrite Hspec. split; [intros (? & [= _ <-]); unfold len in *; cbn in Hl; lia|intros [_ ->]; by eexists].
Qed.

Lemma read_small_int_some data i v j : 0 ≤ i →
  read_small_int data i = Some (v, j) ↔ ∃ e post, drop (Z.to_nat i) data = e ++ post ∧ aml_int e v ∧ j = i + len e.
Proof.
  intros Hi. unfold read_small_int. destruct (data !! Z.to_nat i) as [b|] eqn:Eb.
  - rewrite (drop_S data b (Z.to_nat i)) by done. destruct (Z.eqb_spec b 0x0A) as [->|Hne].
    + replace (Z.to_nat (i + 1)) with (S (Z.to_nat i)) by lia. destruct (data !! S (Z.to_nat i)) as [x|] eqn:Ex.
      * rewrite (drop_S data x (S (Z.to_nat i))) by done. split.
        -- intros [= <- <-]. exists [0x0A; x], (drop (S (S (Z.to_nat i))) data). split_and!; [done|constructor|unfold len; cbn; lia].
        -- intros (e & post & E & He & ->). destruct He as [y|y Hy _]; [injection E as Ey _; subst; unfold len; cbn; do 2 f_equal; lia|]. injection E as Ey _. lia.
      * split; [done|]. intros (e & post & E & He & ->). apply lookup_ge_None_1 in Ex. rewrite (drop_ge data) in E by lia. destruct He as [y|y Hy _]; [done|]. injection E as Ey _. lia.
    + destruct (Z.ltb_spec b 0x40).
      * split; [intros [= <- <-]; exists [b], (drop (S (Z.to_nat i)) data); split_and!; [done|by constructor|unfold len; cbn; lia]|].
        intros (e & post & E & He & ->). destruct He as [y|y Hy _]; injection E as Ey _; [lia|]. subst. done.
      * split; [done|]. intros (e & post & E & He & _). destruct He as [y|y Hy Hlt]; injection E as Ey _; lia.
  - split; [done|]. intros (e & post & E & He & _). apply lookup_ge_None_1 in Eb. rewrite drop_ge in E by lia. by destruct He.
Qed.

Lemma lookup_drop_head {A} (l : list A) n x : l !! n = Some x ↔ ∃ r, drop n l = x :: r.
Proof.
  split; [intros E; eexists; by apply drop_S|]. intros [r E]. replace n with (n + 0)%nat by lia. rewrite <- lookup_drop, E. done.
Qed.

(** The two integers from [i] on. *)
Lemma two_ints aml i : 0 ≤ i →
  ∃ r, match read_small_int aml i with
       | None => Ok None
       | Some (a, i) => match read_small_int aml i with None => Ok None | Some (b, _) => Ok (Some (a, b)) end
       end = Ok r ∧
    ∀ a b, r = Some (a, b) ↔ ∃ ea eb post, drop (Z.to_nat i) aml = ea ++ eb ++ post ∧ aml_int ea a ∧ aml_int eb b.
Proof.
  intros Hi. assert (∀ e : list Z, drop (Z.to_nat (i + len e)) aml = drop (length e) (drop (Z.to_nat i) aml)) as Hd.
  { intros e. rewrite drop_drop. f_equal. unfold len. lia. }
  assert (∀ a b ea eb post, drop (Z.to_nat i) aml = ea ++ eb ++ post → aml_int ea a → aml_int eb b →
    read_small_int aml i = Some (a, i + len ea) ∧ read_small_int aml (i + len ea) = Some (b, i + len ea + len eb)) as Hback.
  { intros a b ea eb post E Ha Hb. split; apply read_small_int_some; [done|by exists ea, (eb ++ post)|unfold len; lia|].
    exists eb, post. by rewrite Hd, E, drop_app_length. }
  destruct (read_small_int aml i) as [[a j]|] eqn:E1.
  - apply read_small_int_some in E1 as (ea & r1 & Er & Ha & ->); [|done]. destruct (read_small_int aml (i + len ea)) as [[b j]|] eqn:E2.
    + exists (Some (a, b)). split; [done|]. intros a' b'. split.
      * intros [= <- <-]. apply read_small_int_some in E2 as (eb & post & E2 & Hb & _); [|unfold len; lia]. rewrite Hd, Er, drop_app_length in E2. subst r1. eauto 7.
      * intros (ea' & eb' & post' & E & Ha' & Hb'). destruct (Hback _ _ _ _ _ E Ha' Hb') as [[= <- El] E3].
        replace (i + len ea') with (i + len ea) in E3 by lia. rewrite E2 in E3. by injection E3 as ->.
    + exists None. split; [done|]. intros a' b'. split; [done|]. intros (ea' & eb' & post' & E & Ha' & Hb').
      destruct (Hback _ _ _ _ _ E Ha' Hb') as [[= _ El] E3]. replace (i + len ea') with (i + len ea) in E3 by lia. congruence.
  - exists None. split; [done|]. intros a' b'. split; [done|]. intros (ea' & eb' & post' & E & Ha' & Hb'). by destruct (Hback _ _ _ _ _ E Ha' Hb').
Qed.

(** The package from its [PackageOp] at [i] on. *)
Definition package_at (rest : list Z) (a b : Z) : Prop :=
  ∃ pkg num ea eb post, rest = pkg ++ [num] ++ ea ++ eb ++ post ∧ pkg_len pkg ∧ aml_int ea a ∧ aml_int eb b.

Lemma package_ok aml i : Forall is_byte aml → 0 ≤ i ≤ len aml →
  ∃ r, (p ← parse_pkg_length (drop (Z.to_nat i) aml);
        match p with
        | None => Ok None
        | Some (_, consumed) =>
          if len aml <=? i + consumed then Ok None
          else match read_small_int aml (i + consumed + 1) with
               | None => Ok None
               | Some (a, i) => match read_small_int aml i with None => Ok None | Some (b, _) => Ok (Some (a, b)) end
               end
        end) = Ok r ∧ ∀ a b, r = Some (a, b) ↔ package_at (drop (Z.to_nat i) aml) a b.
Proof.
  intros Hb Hi. destruct (parse_pkg_ok (drop (Z.to_nat i) aml)) as (r & -> & Hr); [by apply Forall_drop|]. cbn [mbind outcome_bind].
  destruct r as [[v n]|]; cycle 1.
  { exists None. split; [done|]. intros a b. split; [done|]. intros (pkg & num & ea & eb & post & E & Hp & _).
    destruct (proj2 (Hr (len pkg))) as [? ?]; [by exists pkg; eexists|done]. }
  destruct (proj1 (Hr n)) as (pkg & rest & E & Hp & ->); [by eexists|].
  assert (∀ a b, package_at (drop (Z.to_nat i) aml) a b ↔ ∃ num ea eb post, rest = num :: ea ++ eb ++ post ∧ aml_int ea a ∧ aml_int eb b) as Hs.
  { intros a b. split.
    - intros (pkg' & num & ea & eb & post & E' & Hp' & Ha & Hb'). exists num, ea, eb, post. split_and!; try done.
      assert (∃ v', Some (v, len pkg) = Some (v', len pkg')) as [v' Ev] by (apply Hr; exists pkg'; eexists; split_and!; [exact E'|done|done]).
      injection Ev as _ El. rewrite E in E'. by apply app_inj_1 in E' as [_ E']; [|unfold len in El; lia].
    - intros (num & ea & eb & post & -> & Ha & Hb'). by exists pkg, num, ea, eb, post. }
  assert (len aml = i + len pkg + len rest) as Hlen.
  { assert (length (drop (Z.to_nat i) aml) = length (pkg ++ rest)) as El by by rewrite E. rewrite length_drop, length_app in El. unfold len in *. lia. }
  destruct rest as [|num rest].
  { exists None. replace (len aml <=? i + len pkg) with true by (unfold len in *; cbn in *; lia). split; [done|]. intros a b. rewrite Hs. split; [done|]. by intros (? & ? & ? & ? & ? & _). }
  replace (len aml <=? i + len pkg) with false by (unfold len in *; cbn in *; lia).
  destruct (two_ints aml (i + len pkg + 1)) as (r & -> & H2); [unfold len; lia|]. exists r. split; [done|]. intros a b. rewrite H2, Hs.
  replace (Z.to_nat (i + len pkg + 1)) with (Z.to_nat i + (length pkg + 1))%nat by (unfold len; lia).
  rewrite <- drop_drop, E, <- drop_drop, drop_app_length. cbn [drop]. rewrite drop_0. split.
  - intros (ea & eb & post & -> & ? & ?). by exists num, ea, eb, post.
  - intros (num' & ea & eb & post & [= _ ->] & ? & ?). by exists ea, eb, post.
Qed.

(** The scan is right about every byte string, and never indexes outside it. *)
Lemma find_s5_slp_types_ok aml : Forall is_byte aml →
  ∃ r, find_s5_slp_types aml = Ok r ∧ ∀ a b, r = Some (a, b) ↔ s5_package aml a b.
Proof.
  intros Hb. unfold find_s5_slp_types.
  assert (∀ a b, s5_package aml a b ↔ ∃ pos, find_needle S5_NAME aml 0 = Some pos ∧ ∃ rest, drop (Z.to_nat (pos + 4)) aml = 0x12 :: rest ∧ package_at rest a b) as Hs.
  { intros a b. split.
    - intros (pre & pkg & num & ea & eb & post & E & Hk & Hp & Ha & Hb'). exists (0 + len pre). split; [apply find_needle_some; exists pre; eexists; split_and!; [exact E|done|exact Hk]|].
      exists (pkg ++ [num] ++ ea ++ eb ++ post). split; [|by exists pkg, num, ea, eb, post]. rewrite E, app_assoc. apply drop_app_length'. rewrite length_app. unfold len. cbn. lia.
    - intros (pos & En & rest & Ed & (pkg & num & ea & eb & post & -> & Hp & Ha & Hb')). apply find_needle_some in En as (pre & tl & E & -> & Hk).
      exists pre, pkg, num, ea, eb, post. split_and!; try done. rewrite E in Ed |- *. rewrite app_assoc, drop_app_length' in Ed by (rewrite length_app; unfold len; cbn; lia). by rewrite Ed. }
  destruct (find_needle S5_NAME aml 0) as [pos|] eqn:En; [|exists None; split; [done|]; intros a b; rewrite Hs; split; [done|by intros (? & ? & _)]].
  assert (0 ≤ pos) as Hpos by (apply find_needle_some in En as (? & ? & _ & -> & _); unfold len; lia).
  destruct (Z.leb_spec (len aml) (pos + 4)) as [Hl|Hl].
  { exists None. split; [done|]. intros a b. rewrite Hs. split; [done|]. intros (? & [= <-] & rest & Ed & _). rewrite drop_ge in Ed by (unfold len in Hl; lia). done. }
  destruct (lookup_lt_is_Some_2 aml (Z.to_nat (pos + 4))) as [x Hx]; [unfold len in Hl; lia|].
  rewrite (idx_some aml _ x) by (done || lia). cbn [mbind outcome_bind]. pose proof (drop_S _ _ _ Hx) as Ed.
  destruct (Z.eqb_spec x 0x12) as [->|Hne]; cbn [negb]; cycle 1.
  { exists None. split; [done|]. intros a b. rewrite Hs. split; [done|]. intros (? & [= <-] & rest & Ed' & _). rewrite Ed in Ed'. by injection Ed'. }
  destruct (package_ok aml (pos + 4 + 1)) as (r & Er & Hr); [done|lia|]. exists r. split; [exact Er|]. intros a b. rewrite Hr, Hs.
  replace (Z.to_nat (pos + 4 + 1)) with (S (Z.to_nat (pos + 4))) by lia. split.
  - intros Hp. exists pos. split; [done|]. eauto.
  - intros (? & [= <-] & rest & Ed' & Hp). rewrite Ed in Ed'. by injection Ed' as ->.
Qed.

(** ** Partial answers

    [answers c S]: [c] does not panic and yields exactly the [x] with [S x], if any. *)
Definition answers {A} (c : outcome (option A)) (S : A → Prop) : Prop := ∃ r, c = Ok r ∧ ∀ x, r = Some x ↔ S x.

Lemma answers_bind {A B} (c : outcome (option A)) (k : A → outcome (option B)) S T :
  answers c S → (∀ x, S x → answers (k x) (T x)) →
  answers (o ← c; match o with None => Ok None | Some x => k x end) (λ v, ∃ x, S x ∧ T x v).
Proof.
  intros (r & -> & Hr) Hk. cbn. destruct r as [x|].
  - destruct (Hk x) as (r' & -> & Hr'); [by apply Hr|]. exists r'. split; [done|]. intros v. rewrite Hr'. split; [intros H; exists x; split; [by apply Hr|done]|].
    intros (y & Hy & Ht). apply Hr in Hy as [= ->]. done.
  - exists None. split; [done|]. intros v. split; [done|]. intros (y & Hy & _). by apply Hr in Hy.
Qed.

Lemma answers_guard {A} (b : bool) (c : outcome (option A)) S : (b = false → answers c S) → answers (if b then Ok None else c) (λ v, b = false ∧ S v).
Proof.
  intros H. destruct b; [exists None; split; [done|]; by intros ?; split; [|intros [? _]]|]. destruct H as (r & -> & Hr); [done|]. exists r. split; [done|].
  intros x. rewrite Hr. tauto.
Qed.

Lemma answers_ret {A} (x : A) : answers (Ok (Some x)) (λ v, v = x).
Proof. eexists. split; [done|]. intros v. split; [by intros [= ->]|by intros ->]. Qed.

Lemma answers_iff {A} (c : outcome (option A)) S T : (∀ x, S x ↔ T x) → answers c S → answers c T.
Proof. intros H (r & -> & Hr). exists r. split; [done|]. intros x. by rewrite Hr. Qed.

(** ** The chain of tables *)

Section acpi.
Context (mem : memory) (Hmem : ∀ a, is_byte (mem a)).

Definition word (a n : Z) : Z := le_val (peek mem a (Z.to_nat n)).
Definition sum (l : list Z) : Z := foldr Z.add 0 l.

(** A table at [a]: its length is in bounds and its bytes add up to zero. *)
Definition table_ok (lo hi a : Z) : Prop :=
  lo ≤ word (a + 4) 4 ≤ hi ∧ sum (peek mem a (Z.to_nat (word (a + 4) 4))) mod 256 = 0.

(** The root table at [sdt] has [size]-byte entries, of which [x] is the first to name a table
    called [sig]. *)
Definition lists_first (sdt size : Z) (sig : list Z) (x : Z) : Prop :=
  ∃ k, 0 ≤ k < (word (sdt + 4) 4 - 36) / size ∧ word (sdt + 36 + k * size) size = x ∧ x ≠ 0 ∧ peek mem x 4 = sig ∧
    ∀ j, 0 ≤ j < k → word (sdt + 36 + j * size) size = 0 ∨ peek mem (word (sdt + 36 + j * size) size) 4 ≠ sig.

Definition root_ok (rsdp sdt : Z) (is_xsdt : bool) : Prop :=
  peek mem rsdp 8 = txt "RSD PTR " ∧
  if is_xsdt then 2 ≤ mem (rsdp + 15) ∧ sum (peek mem rsdp 36) mod 256 = 0 ∧ sdt = word (rsdp + 24) 8
  else mem (rsdp + 15) < 2 ∧ sum (peek mem rsdp 20) mod 256 = 0 ∧ sdt = word (rsdp + 16) 4.

Definition dsdt_of (fadt : Z) : Z :=
  if bool_decide (148 ≤ word (fadt + 4) 4 ∧ word (fadt + 140) 8 ≠ 0) then word (fadt + 140) 8 else word (fadt + 40) 4.

(** What the tables say of the power-off registers. *)
Definition s5_tables (rsdp : Z) (v : S5Shutdown) : Prop :=
  ∃ sdt is_xsdt fadt a b, rsdp ≠ 0 ∧ root_ok rsdp sdt is_xsdt ∧ sdt ≠ 0 ∧ table_ok 36 (2 ^ 20) sdt ∧
    lists_first sdt (if is_xsdt then 8 else 4) (txt "FACP") fadt ∧ table_ok 76 4096 fadt ∧
    dsdt_of fadt ≠ 0 ∧ table_ok 36 (2 ^ 20) (dsdt_of fadt) ∧
    s5_package (peek mem (dsdt_of fadt + 36) (Z.to_nat (word (dsdt_of fadt + 4) 4 - 36))) a b ∧
    v = mkS5 (u16 (word (fadt + 64) 4)) (u16 (word (fadt + 68) 4)) a b.

Lemma checksum_sum l : checksum_ok l = bool_decide (sum l mod 256 = 0).
Proof.
  unfold checksum_ok. assert (∀ acc, foldl (λ acc b, u8 (acc + b)) acc l = match l with [] => acc | _ => u8 (acc + sum l) end) as H.
  { induction l as [|x l IH]; intros acc; [done|]. cbn [foldl sum foldr]. rewrite IH. destruct l; cbn [sum foldr]; [by rewrite Z.add_0_r|].
    unfold wrap. rewrite Zplus_mod_idemp_l. f_equal. unfold sum. cbn. lia. }
  rewrite H. destruct l; [done|]. rewrite Z.add_0_l. unfold wrap. change (2 ^ 8) with 256. apply eq_iff_eq_true. rewrite Z.eqb_eq. by rewrite bool_decide_eq_true.
Qed.

Lemma slice_peek a n i j : 0 ≤ i ≤ j → j ≤ n → slice (peek mem a (Z.to_nat n)) i j = Ok (peek mem (a + i) (Z.to_nat (j - i))).
Proof.
  intros Hi Hj. rewrite slice_ok by (unfold len; rewrite ?length_peek; lia). f_equal. apply list_eq. intros k. destruct (decide (k < Z.to_nat (j - i))%nat).
  - rewrite lookup_sub by done. rewrite !lookup_peek by lia. do 2 f_equal. lia.
  - rewrite !lookup_ge_None_2; [done|rewrite length_peek; lia|rewrite length_sub; [lia|rewrite length_peek; lia]].
Qed.

Lemma le_at_peek a n i j : 0 ≤ i ≤ j → j ≤ n → le_at (read_bytes mem a n) i j = Ok (word (a + i) (j - i)).
Proof. intros Hi Hj. unfold le_at, read_bytes. by rewrite slice_peek. Qed.

Lemma idx_peek a n i : 0 ≤ i < n → idx (read_bytes mem a n) i = Ok (mem (a + i)).
Proof. intros Hi. apply idx_some; [lia|]. unfold read_bytes. rewrite lookup_peek by lia. do 2 f_equal. lia. Qed.

Lemma word_nonneg a n : 0 ≤ word a n.
Proof using Hmem.
  unfold word, peek. induction (seq 0 (Z.to_nat n)) as [|i l IH]; cbn; [lia|]. pose proof (Hmem (a + Z.of_nat i)) as []. lia.
Qed.

Lemma find_entry_ok sig sdt size L n i : 0 < size → 0 ≤ i → (i + Z.of_nat n) * size ≤ L →
  let e k := word (sdt + 36 + k * size) size in
  answers (find_entry mem n i size (peek mem (sdt + 36) (Z.to_nat L)) sig)
    (λ x, ∃ k, i ≤ k < i + Z.of_nat n ∧ e k = x ∧ x ≠ 0 ∧ peek mem x 4 = sig ∧ ∀ j, i ≤ j < k → e j = 0 ∨ peek mem (e j) 4 ≠ sig).
Proof.
  intros Hs. revert i. induction n as [|n IH]; intros i Hi HL e.
  - exists None. split; [done|]. intros x. split; [done|]. intros (k & ? & _). lia.
  - cbn [find_entry]. change (peek mem (sdt + 36) (Z.to_nat L)) with (read_bytes mem (sdt + 36) L). rewrite le_at_peek by nia.
    replace (i * size + size - i * size) with size by lia. fold (e i). cbn [mbind outcome_bind].
    assert (∀ skip : e i = 0 ∨ peek mem (e i) 4 ≠ sig, answers (find_entry mem n (i + 1) size (read_bytes mem (sdt + 36) L) sig)
      (λ x, ∃ k, i ≤ k < i + Z.of_nat (S n) ∧ e k = x ∧ x ≠ 0 ∧ peek mem x 4 = sig ∧ ∀ j, i ≤ j < k → e j = 0 ∨ peek mem (e j) 4 ≠ sig)) as Hskip.
    { intros skip. eapply answers_iff; [|apply (IH (i + 1)); nia]. intros x. split; intros (k & Hk & E & Hx & Hp & Hj).
      - exists k. split_and!; [lia|lia|done..|]. intros j Hj'. destruct (decide (j = i)) as [->|]; [done|]. apply Hj. lia.
      - exists k. assert (k ≠ i) by (intros ->; rewrite E in skip; tauto). split_and!; [lia|lia|done..|]. intros j Hj'. apply Hj. lia. }
    destruct (Z.eqb_spec (e i) 0) as [E0|E0]; [by apply Hskip; left|]. change (read_bytes mem (e i) 4) with (peek mem (e i) 4).
    unfold beq. case_bool_decide as Es; [|by apply Hskip; right].
    eapply answers_iff; [|apply answers_ret]. intros x. split.
    + intros ->. exists i. split_and!; [lia|lia|done..|]. intros j Hj. lia.
    + intros (k & Hk & <- & Hx & Hp & Hj). destruct (decide (k = i)) as [->|]; [done|]. destruct (Hj i); [lia|done|done].
Qed.

(** The length and checksum tests every table passes. *)
Lemma table_guard lo hi a : (word (a + 4) 4 <? lo) || (hi <? word (a + 4) 4) = false ∧
  negb (checksum_ok (read_bytes mem a (word (a + 4) 4))) = false ↔ table_ok lo hi a.
Proof. unfold table_ok, read_bytes. rewrite checksum_sum, negb_false_iff, bool_decide_eq_true. lia. Qed.

Lemma sound_table_ok phys lo hi : 8 ≤ lo →
  answers (sound_table mem phys lo hi) (λ t, table_ok lo hi phys ∧ t = read_bytes mem phys (word (phys + 4) 4)).
Proof.
  intros Hlo. unfold sound_table. rewrite le_at_peek by lia. cbn [mbind outcome_bind]. change (8 - 4) with 4.
  eapply answers_iff; [|do 2 (apply answers_guard; intros _); apply answers_ret]. intros t. cbn beta. rewrite <- table_guard. tauto.
Qed.

Lemma find_table_ok sdt (is_xsdt : bool) sig :
  answers (find_table mem sdt is_xsdt sig) (λ x, table_ok 36 (2 ^ 20) sdt ∧ lists_first sdt (if is_xsdt then 8 else 4) sig x).
Proof using Hmem.
  unfold find_table. rewrite le_at_peek by lia. cbn [mbind outcome_bind]. change (8 - 4) with 4. change (Z.shiftl 1 20) with (2 ^ 20).
  set (L := word (sdt + 4) 4). set (size := if is_xsdt then 8 else 4). assert (0 < size) as Hsz by (unfold size; by destruct is_xsdt).
  assert (len (read_bytes mem sdt L) = L) as Hlen by (unfold len, read_bytes; rewrite length_peek; pose proof (word_nonneg (sdt + 4) 4); lia). rewrite Hlen.
  eapply answers_iff; [|apply answers_guard; intros HL; apply answers_guard; intros _].
  2: { unfold read_bytes at 1. rewrite slice_peek by lia. cbn [mbind outcome_bind]. unfold len at 1. rewrite length_peek, Z2Nat.id by lia.
       pose proof (Z.mul_div_le (L - 36) size Hsz). assert (0 ≤ (L - 36) / size) by (apply Z.div_pos; lia). apply find_entry_ok; [done|lia|]. rewrite Z.add_0_l, Z2Nat.id; lia. }
  intros x. cbn beta. rewrite <- table_guard. fold L. unfold lists_first. fold L.
  split; [intros (H1 & H2 & k & Hk & H3)|intros ((H1 & H2) & k & Hk & H3)]; (split_and!; [done|done|]; exists k; split; [|exact H3]); apply orb_false_iff in H1 as [H1 _]; assert (0 ≤ (L - 36) / size) by (apply Z.div_pos; lia); lia.
Qed.

Lemma root_table_ok rsdp : answers (root_table mem rsdp) (λ r, root_ok rsdp r.1 r.2).
Proof.
  unfold root_table. assert (slice (read_bytes mem rsdp 20) 0 8 = Ok (peek mem rsdp 8)) as -> by (unfold read_bytes; rewrite slice_peek by lia; by rewrite Z.add_0_r). cbn [mbind outcome_bind].
  rewrite idx_peek by lia. rewrite !le_at_peek by lia. cbn [mbind outcome_bind].
  unfold root_ok, beq, read_bytes. rewrite !checksum_sum.
  destruct (Z.leb_spec 2 (mem (rsdp + 15))).
  - eapply answers_iff; [|do 2 (apply answers_guard; intros _); apply answers_ret]. intros [sdt x]. rewrite !negb_false_iff, !bool_decide_eq_true. cbn.
    split; [intros (? & ? & [= -> ->]); done|]. destruct x; [|lia]. intros (? & ? & ? & ->). done.
  - eapply answers_iff; [|do 2 (apply answers_guard; intros _); apply answers_ret]. intros [sdt x]. rewrite !negb_false_iff, !bool_decide_eq_true. cbn.
    split; [intros (? & ? & [= -> ->]); split_and!; (done || lia)|]. destruct x; [lia|]. intros (? & ? & ? & ->). done.
Qed.

Lemma dsdt_address_ok fadt : 76 ≤ word (fadt + 4) 4 → dsdt_address (read_bytes mem fadt (word (fadt + 4) 4)) = Ok (dsdt_of fadt).
Proof.
  intros HL. unfold dsdt_address, dsdt_of. unfold len, read_bytes. rewrite length_peek, Z2Nat.id by lia. fold (read_bytes mem fadt (word (fadt + 4) 4)).
  destruct (Z.leb_spec 148 (word (fadt + 4) 4)).
  - rewrite !le_at_peek by lia. cbn [mbind outcome_bind]. change (148 - 140) with 8. change (44 - 40) with 4.
    destruct (Z.eqb_spec (word (fadt + 140) 8) 0); case_bool_decide; try done; exfalso; tauto.
  - rewrite le_at_peek by lia. rewrite bool_decide_eq_false_2 by lia. done.
Qed.

(** What the DSDT at [d] says, beside the registers [pa] and [pb]. *)
Definition dsdt_says (d pa pb : Z) (v : S5Shutdown) : Prop :=
  ∃ a b, s5_package (peek mem (d + 36) (Z.to_nat (word (d + 4) 4 - 36))) a b ∧ v = mkS5 pa pb a b.

Lemma peek_bytes a n : Forall is_byte (peek mem a n).
Proof using Hmem. apply Forall_lookup_2. intros i x Hx. assert (i < n)%nat by (apply lookup_lt_Some in Hx; by rewrite length_peek in Hx). rewrite lookup_peek in Hx by done. by injection Hx as <-. Qed.

Lemma dsdt_scan_ok d pa pb : 36 ≤ word (d + 4) 4 → let dsdt := read_bytes mem d (word (d + 4) 4) in
  answers (aml ← slice dsdt 36 (len dsdt); r ← find_s5_slp_types aml;
           Ok (match r with Some (a, b) => Some (mkS5 pa pb a b) | None => None end)) (dsdt_says d pa pb).
Proof using Hmem.
  intros HL dsdt. assert (len dsdt = word (d + 4) 4) as -> by (unfold len, dsdt, read_bytes; rewrite length_peek; lia).
  unfold dsdt, read_bytes. rewrite slice_peek by lia. cbn [mbind outcome_bind].
  destruct (find_s5_slp_types_ok _ (peek_bytes (d + 36) (Z.to_nat (word (d + 4) 4 - 36)))) as (r & -> & Hr). cbn.
  eexists. split; [done|]. intros v. unfold dsdt_says. setoid_rewrite <- Hr. destruct r as [[a b]|].
  - split; [intros [= <-]; eauto|]. by intros (? & ? & [= <- <-] & ->).
  - split; [done|]. by intros (? & ? & ? & _).
Qed.

(** What the FADT at [fadt] leads to. *)
Definition fadt_says (fadt : Z) (v : S5Shutdown) : Prop :=
  dsdt_of fadt ≠ 0 ∧ table_ok 36 (2 ^ 20) (dsdt_of fadt) ∧
  dsdt_says (dsdt_of fadt) (u16 (word (fadt + 64) 4)) (u16 (word (fadt + 68) 4)) v.

Lemma fadt_ok fadt : 76 ≤ word (fadt + 4) 4 → let t := read_bytes mem fadt (word (fadt + 4) 4) in
  answers (pm1a ← le_at t 64 68; pm1b ← le_at t 68 72; dsdt_phys ← dsdt_address t;
           if dsdt_phys =? 0 then Ok None
           else
             o ← sound_table mem dsdt_phys 36 (Z.shiftl 1 20);
             match o with
             | None => Ok None
             | Some dsdt =>
               aml ← slice dsdt 36 (len dsdt); r ← find_s5_slp_types aml;
               Ok (match r with Some (a, b) => Some (mkS5 (u16 pm1a) (u16 pm1b) a b) | None => None end)
             end) (fadt_says fadt).
Proof using Hmem.
  intros HL t. unfold t. rewrite !le_at_peek by lia. rewrite dsdt_address_ok by done. cbn [mbind outcome_bind].
  change (68 - 64) with 4. change (72 - 68) with 4. change (Z.shiftl 1 20) with (2 ^ 20).
  eapply answers_iff; [|apply answers_guard; intros _; eapply (answers_bind _ _ _ (λ _, dsdt_says (dsdt_of fadt) (u16 (word (fadt + 64) 4)) (u16 (word (fadt + 68) 4)))); [by apply sound_table_ok|]].
  2: { intros dsdt (Hok & ->). apply dsdt_scan_ok. apply Hok. }
  intros v. unfold fadt_says. rewrite Z.eqb_neq. split; [intros (H1 & dsdt & (H2 & ->) & H3)|intros (H1 & H2 & H3)]; eauto 6.
Qed.
End acpi.

(** The search never panics and answers exactly what the tables say. *)
Lemma find_s5_answers (mem : memory) (rsdp : Z) : (∀ a, is_byte (mem a)) → answers (find_s5 mem rsdp) (s5_tables mem rsdp).
Proof.
  intros Hmem. unfold find_s5. eapply answers_iff; [|apply answers_guard; intros _; eapply (answers_bind _ _ _ (λ r v, r.1 ≠ 0 ∧ ∃ fadt,
    (table_ok mem 36 (2 ^ 20) r.1 ∧ lists_first mem r.1 (if r.2 : bool then 8 else 4) (txt "FACP") fadt) ∧ table_ok mem 76 4096 fadt ∧ fadt_says mem fadt v)); [apply root_table_ok|]].
  - intros v. cbn beta. rewrite Z.eqb_neq. split.
    + intros (H1 & [sdt x] & H2 & H3 & fadt & (H4 & H5) & H6 & H7 & H8 & a & b & H9 & ->). by exists sdt, x, fadt, a, b.
    + intros (sdt & x & fadt & a & b & H1 & H2 & H3 & H4 & H5 & H6 & H7 & H8 & H9 & ->). split; [done|]. exists (sdt, x). split; [done|]. split; [done|].
      exists fadt. split; [done|]. split; [done|]. split; [done|]. split; [done|]. by exists a, b.
  - intros [sdt x] _. eapply answers_iff; [|apply answers_guard; intros _; eapply (answers_bind _ _ _ (λ fadt v, table_ok mem 76 4096 fadt ∧ fadt_says mem fadt v)); [by apply find_table_ok|]].
    + intros v. cbn. by rewrite Z.eqb_neq.
    + intros fadt _. eapply answers_iff; [|eapply (answers_bind _ _ _ (λ _, fadt_says mem fadt)); [by apply sound_table_ok|]].
      * intros v. split; [intros (? & (? & ?) & ?)|intros (? & ?)]; eauto.
      * intros t (Hok & ->). apply fadt_ok; [done|]. apply Hok.
Qed.

(** ** Power-off *)

(** The fixed ports of the emulators. *)
Definition FALLBACK : list (Z * Z) := [(0x604, 0x2000); (0xB004, 0x2000); (0x4004, 0x3400)].

(** What goes to the registers [v] names: the second one may be absent. *)
Definition registers (v : S5Shutdown) : list (Z * Z) :=
  (pm1a_cnt v, slp_typa v + 2 ^ 13) :: if decide (pm1b_cnt v = 0) then [] else [(pm1b_cnt v, slp_typb v + 2 ^ 13)].

Lemma lor_slp_en v : 0 ≤ v < 2 ^ 13 → Z.lor v SLP_EN = v + 2 ^ 13.
Proof.
  intros Hv. change SLP_EN with (2 ^ 13). assert (Z.land v (2 ^ 13) = 0) as Hl.
  { apply Z.bits_inj'. intros n Hn. rewrite Z.land_spec, Z.pow2_bits_eqb, Z.bits_0 by lia. destruct (Z.eqb_spec 13 n) as [<-|]; [|apply andb_false_r].
    rewrite andb_true_r. apply Z.testbit_false; [lia|]. by rewrite Z.div_small by lia. }
  rewrite <- Z.lxor_lor by done. symmetry. by apply Z.add_nocarry_lxor.
Qed.

Lemma s5_package_bytes aml a b : Forall is_byte aml → s5_package aml a b → is_byte a ∧ is_byte b.
Proof.
  intros Hf (pre & pkg & num & ea & eb & post & -> & _ & _ & Ha & Hb). rewrite !Forall_app in Hf. destruct Hf as (_ & _ & _ & _ & _ & Ha' & Hb' & _).
  split; [destruct Ha|destruct Hb]; rewrite ?Forall_cons in *; tauto.
Qed.

Lemma s5_tables_bytes mem rsdp v : (∀ a, is_byte (mem a)) → s5_tables mem rsdp v → is_byte (slp_typa v) ∧ is_byte (slp_typb v).
Proof.
  intros Hmem (sdt & x & fadt & a & b & _ & _ & _ & _ & _ & _ & _ & _ & Hp & ->). eapply s5_package_bytes; [|done]. by apply peek_bytes.
Qed.

(** on any bytes of memory power-off never panics, and what it writes is what the tables
    say: when a signed and summed RSDP names a summed root table of sane length, whose first
    entry for a FADT names a summed one, which names a summed DSDT whose first [_S5_] names a
    package of two integers, then the registers of the FADT get those integers and the enable
    bit; when any link is broken they get nothing. The ports of the emulators follow always. *)
Theorem shutdown_fails_soft (mem : memory) (rsdp : Z) (Hmem : ∀ a, is_byte (mem a)) :
  (∃ v, s5_tables mem rsdp v ∧ shutdown mem rsdp = Ok (registers v ++ FALLBACK)) ∨
  ((∀ v, ¬ s5_tables mem rsdp v) ∧ shutdown mem rsdp = Ok FALLBACK).
Proof.
  destruct (find_s5_answers mem rsdp Hmem) as (r & Er & Hr). unfold shutdown. rewrite Er. cbn. destruct r as [v|].
  - left. exists v. pose proof (proj1 (Hr v) eq_refl) as Hv. split; [done|]. pose proof (s5_tables_bytes _ _ _ Hmem Hv) as [[? ?] [? ?]].
    rewrite !lor_slp_en by lia. unfold registers. destruct (Z.eqb_spec (pm1b_cnt v) 0); case_decide; done.
  - right. split; [|done]. intros v Hv. by apply Hr in Hv.
Qed.

(** The sleep type belongs in bits 10 to 12 of the register. It is written unshifted, so those
    bits are always zero. *)
Lemma sleep_type_lost mem rsdp s : (∀ a, is_byte (mem a)) → find_s5 mem rsdp = Ok (Some s) →
  Forall (λ w, (w.2 / 2 ^ 10) mod 8 = 0) (registers s).
Proof.
  intros Hmem E. destruct (find_s5_answers mem rsdp Hmem) as (r & Er & Hr). rewrite E in Er. injection Er as <-.
  destruct (s5_tables_bytes _ _ _ Hmem (proj1 (Hr s) eq_refl)) as [[? ?] [? ?]].
  assert (∀ v, 0 ≤ v < 256 → ((v + 2 ^ 13) / 2 ^ 10) mod 8 = 0) as Hz.
  { intros v Hv. change (2 ^ 13) with (8 * 2 ^ 10). rewrite Z.div_add, Z.div_small by lia. done. }
  unfold registers. case_decide; rewrite ?Forall_cons; split_and?; try constructor; cbn; by apply Hz.
Qed.

(** A chain of four tables, 256 bytes apart. *)
Module TestTables.
(** [l] with the byte at [at_] set so that all add up to zero *)
Definition summed (at_ : nat) (l : list Z) : list Z := <[at_ := (- sum l) mod 256]> l.
Definition pad (n : nat) (l : list Z) : list Z := l ++ replicate (n - length l) 0.
Definition rsdp : list Z := summed 8 (txt "RSD PTR " ++ [0] ++ txt "HEPOS " ++ [0] ++ [0; 2; 0; 0]).
Definition rsdt : list Z := summed 9 (txt "RSDT" ++ [44; 0; 0; 0] ++ replicate 28 0 ++ [0; 0; 0; 0] ++ [0; 3; 0; 0]).
Definition fadt : list Z := summed 9 (pad 76 (pad 64 (pad 40 (txt "FACP" ++ [76; 0; 0; 0]) ++ [0; 4; 0; 0]) ++ [4; 6; 0; 0])).
Definition dsdt : list Z := summed 9 (pad 36 (txt "DSDT" ++ [48; 0; 0; 0]) ++ [8] ++ S5_NAME ++ [0x12; 6; 4; 0x0A; 5; 1; 0]).
Definition bytes : list Z := pad 256 rsdp ++ pad 256 rsdt ++ pad 256 fadt ++ pad 256 dsdt.
(** loaded at 256 *)
Definition mem : memory := λ a, if a <? 256 then 0 else bytes !!! Z.to_nat (a - 256).

Lemma mem_bytes a : is_byte (mem a).
Proof.
  unfold mem. case_match; [done|]. rewrite list_lookup_total_alt. destruct (bytes !! Z.to_nat (a - 256)) as [x|] eqn:E; [|done]. cbn.
  assert (Forall is_byte bytes) as Hf by (apply (bool_decide_unpack _); vm_compute; exact I). by eapply Forall_lookup_1 in Hf.
Qed.
End TestTables.

Lemma shutdown_fails_soft_witness :
  shutdown TestTables.mem 256 = Ok [(0x604, 0x2005); (0x604, 0x2000); (0xB004, 0x2000); (0x4004, 0x3400)] ∧ ∃ v, s5_tables TestTables.mem 256 v.
Proof.
  assert (shutdown TestTables.mem 256 = Ok [(0x604, 0x2005); (0x604, 0x2000); (0xB004, 0x2000); (0x4004, 0x3400)]) as E by (vm_compute; reflexivity).
  split; [exact E|]. destruct (shutdown_fails_soft TestTables.mem 256 TestTables.mem_bytes) as [(v & Hv & _)|[_ E']]; [by exists v|].
  rewrite E in E'. discriminate.
Defined.
