(* ===== verification/Runtime.v ===== *)
(** The ring-3 runtime ([userspace/hepos-rt], [userspace/hepos-std]) and the door it knocks at:
    the bump allocator, the system-call wrappers with the registers each declares, and the
    entry stub of [kernel/src/syscall.rs], instruction by instruction, down to
    [Syscall.syscall_dispatch].

    A slice argument is a pointer and a length in the caller's address space. The compiled
    dispatcher obeys the C calling convention: it keeps the callee-saved registers and the
    stack above its frame, and leaves anything in the others ([junk], [junk_stack]). *)

From stdpp Require Import prelude list numbers strings.
From S2P Require Import Prelude Text Pmm Hepfs Memory Paging Process Syscall.

Local Open Scope Z_scope.

(** ** The bump allocator *)

Definition HEAP_SIZE : Z := 262144.

(** [(off + align - 1) & !(align - 1)] *)
Definition align_up (off align : Z) : Z := Z.land (off + align - 1) (Z.lnot (align - 1)).

Record Layout := mkLayout { size : Z; align : Z }.

(** Where a call of [alloc] is: about to exchange after having read [off], or back with the
    offset of its block ([None]: the null pointer). *)
Inductive alloc_pc := Loop (off : Z) | Done (r : option Z).

(** [let mut off = HEAP_OFF.load(..)] *)
Definition alloc_start (HEAP_OFF : Z) : alloc_pc := Loop HEAP_OFF.

(** One round of the loop: the sums, then the exchange with the value of [HEAP_OFF] at that
    moment. *)
Definition alloc_step (l : Layout) (HEAP_OFF : Z) (pc : alloc_pc) : alloc_pc * Z :=
  match pc with
  | Loop off =>
    let aligned := align_up off (align l) in
    let end_ := aligned + size l in
    if HEAP_SIZE <? end_ then (Done None, HEAP_OFF)
    else if HEAP_OFF =? off then (Done (Some aligned), end_)
    else (Loop HEAP_OFF, HEAP_OFF)
  | Done r => (Done r, HEAP_OFF)
  end.

(** ** Registers and instructions *)

Inductive reg := rax | rbx | rcx | rdx | rsi | rdi | rbp | rsp | r8 | r9 | r10 | r11 | r12 | r13 | r14 | r15.

#[global] Instance reg_eq_dec : EqDecision reg.
Proof. solve_decision. Defined.

Record cpu := mkCpu {
  regs : reg → Z;
  rip : Z;
  rflags : Z;
  gs_kernel : bool;     (** which GS base is in place *)
  kernel_stack : Z;     (** [PERCPU], at gs:[0] and gs:[8] *)
  user_rsp : Z;
  stack : Z → Z }.      (** words of the kernel stack *)

Definition set_reg (r : reg) (v : Z) (c : cpu) : cpu :=
  mkCpu (λ r', if decide (r' = r) then v else regs c r') (rip c) (rflags c) (gs_kernel c) (kernel_stack c) (user_rsp c) (stack c).

(** The instructions of the stub. *)
Inductive instr := swapgs | mov_gs8_rsp | mov_rsp_gs (off : Z) | mov (d s : reg) | push (r : reg) | pop (r : reg) | call_dispatch | sysretq.

(** [syscall] itself: RCX and R11 take the return address and the flags, the flags lose IF
    and TF ([SFMASK]); control goes to [syscall_entry]. *)
Definition syscall_insn (c : cpu) : cpu :=
  set_reg r11 (rflags c) (set_reg rcx (rip c)
    (mkCpu (regs c) (rip c) (Z.land (rflags c) (Z.lnot 0x300)) (gs_kernel c) (kernel_stack c) (user_rsp c) (stack c))).

Definition exec1 (i : instr) (c : cpu) : outcome cpu :=
  match i with
  | swapgs => Ok (mkCpu (regs c) (rip c) (rflags c) (negb (gs_kernel c)) (kernel_stack c) (user_rsp c) (stack c))
  | mov_gs8_rsp =>
    if gs_kernel c then Ok (mkCpu (regs c) (rip c) (rflags c) true (kernel_stack c) (regs c rsp) (stack c))
    else Panic "gs: not the per-CPU data"
  | mov_rsp_gs off =>
    if gs_kernel c then Ok (set_reg rsp (if off =? 0 then kernel_stack c else user_rsp c) c) else Panic "gs: not the per-CPU data"
  | mov d s => Ok (set_reg d (regs c s) c)
  | push r =>
    let a := u64 (regs c rsp - 8) in
    Ok (set_reg rsp a (mkCpu (regs c) (rip c) (rflags c) (gs_kernel c) (kernel_stack c) (user_rsp c)
                         (λ b, if b =? a then regs c r else stack c b)))
  | pop r => Ok (set_reg rsp (u64 (regs c rsp + 8)) (set_reg r (stack c (regs c rsp)) c))
  | call_dispatch => Ok c
  | sysretq => Ok (mkCpu (regs c) (regs c rcx) (regs c r11) (gs_kernel c) (kernel_stack c) (user_rsp c) (stack c))
  end.

Definition syscall_entry : list instr :=
  [swapgs; mov_gs8_rsp; mov_rsp_gs 0; push rcx; push r11; push rbp; push rbx; push r12; push r13; push r14; push r15;
   mov r9 r8; mov r8 r10; mov rcx rdx; mov rdx rsi; mov rsi rdi; mov rdi rax;
   call_dispatch;
   pop r15; pop r14; pop r13; pop r12; pop rbx; pop rbp; pop r11; pop rcx; mov_rsp_gs 8; swapgs; sysretq].

Definition callee_saved (r : reg) : bool := bool_decide (r ∈ [rbx; rbp; rsp; r12; r13; r14; r15]).

(** ** The assembly blocks of the wrappers *)

(** [inout(r) v => _], [in(r) v] and [out(r) _] *)
Inductive operand := Inout (r : reg) (v : Z) | In (r : reg) (v : Z) | Out (r : reg).

Definition load_operand (o : operand) (c : cpu) : cpu :=
  match o with Inout r v | In r v => set_reg r v c | Out _ => c end.

(** The registers a block says it changes. *)
Definition clobbers (ops : list operand) : list reg := ops ≫= λ o, match o with Inout r _ | Out r => [r] | In _ _ => [] end.

Record slice_arg := mkSlice { as_ptr : Z; slice_len : Z }.

(** [as i64] *)
Definition i64 (z : Z) : Z := (z + 2 ^ 63) mod 2 ^ 64 - 2 ^ 63.

Section calls.
Context {D : Type} `{!Drive D} (cr0_wp : bool) (port_in : Z → Z → ST (gate D) Z) (block_on_irq : Z → ST (gate D) unit)
        (junk : reg → Z) (junk_stack : Z → Z).

Abbreviation ring0 := (syscall_dispatch cr0_wp port_in block_on_irq).

(** Back from the dispatcher, with [v] in RAX. *)
Definition returned (v : Z) (c : cpu) : cpu :=
  mkCpu (λ r, if decide (r = rax) then v else if callee_saved r then regs c r else junk r)
    (rip c) (rflags c) (gs_kernel c) (kernel_stack c) (user_rsp c)
    (λ a, if regs c rsp <=? a then stack c a else junk_stack a).

(** [None]: the dispatcher did not return (the process is gone). *)
Fixpoint exec (l : list instr) (c : cpu) : ST (gate D) (option cpu) := λ g,
  match l with
  | [] => Ok (Some c, g)
  | call_dispatch :: l =>
    '(o, g) ← ring0 (regs c rdi) (regs c rsi) (regs c rdx) (regs c rcx) (regs c r8) g;
    match o with None => Ok (None, g) | Some v => exec l (returned v c) g end
  | i :: l => c ← exec1 i c; exec l c g
  end.

(** An [asm!] block around [syscall]: the operands, the call, RAX and the state after it. *)
Definition asm_syscall (ops : list operand) (c : cpu) : ST (gate D) (option (Z * cpu)) :=
  o ← exec syscall_entry (syscall_insn (foldl (λ c o, load_operand o c) c ops));
  mret ((λ c', (regs c' rax, c')) <$> o).

(** What the wrapper makes of RAX. *)
Definition wrapped {A} (f : Z → A) (c : ST (gate D) (option (Z * cpu))) : ST (gate D) (option (A * cpu)) :=
  o ← c; mret ((λ '(v, c'), (f v, c')) <$> o).

Definition sys_write_ops (fd : Z) (buf : slice_arg) : list operand :=
  [Inout rax 1; Inout rdi fd; Inout rsi (as_ptr buf); Inout rdx (slice_len buf); Out r8; Out r9; Out r10; Out rcx; Out r11].
Definition sys_exit_ops (code : Z) : list operand := [In rax 60; In rdi code].
Definition sys_getpid_ops : list operand := [Inout rax 39; Out rdi; Out rsi; Out rdx; Out r8; Out r9; Out r10; Out rcx; Out r11].
Definition sys_mmap_mmio_ops (phys_addr len : Z) : list operand :=
  [Inout rax 500; Inout rdi phys_addr; Inout rsi len; Out rdx; Out r8; Out r9; Out r10; Out rcx; Out r11].
Definition sys_port_in_ops (port width : Z) : list operand :=
  [Inout rax 501; Inout rdi port; Inout rsi width; Out rdx; Out r8; Out r9; Out r10; Out rcx; Out r11].
Definition sys_port_out_ops (port width value : Z) : list operand :=
  [Inout rax 502; Inout rdi port; Inout rsi width; Inout rdx value; Out r8; Out r9; Out r10; Out rcx; Out r11].
Definition sys_wait_irq_ops (vector : Z) : list operand :=
  [Inout rax 503; Inout rdi vector; Out rsi; Out rdx; Out r8; Out r9; Out r10; Out rcx; Out r11].
Definition sys_mmap_anon_ops (len : Z) : list operand :=
  [Inout rax 504; Inout rdi len; Out rsi; Out rdx; Out r8; Out r9; Out r10; Out rcx; Out r11].
Definition sys_input_state_ops (out : Z) : list operand :=
  [Inout rax 505; Inout rdi out; Out rsi; Out rdx; Out r8; Out r9; Out r10; Out rcx; Out r11].
Definition sys_fs_list_dir_ops (path : slice_arg) : list operand :=
  [Inout rax 506; Inout rdi (as_ptr path); Inout rsi (slice_len path); Out rdx; Out r10; Out r8; Out r9; Out rcx; Out r11].
Definition sys_fs_read_file_ops (path : slice_arg) : list operand :=
  [Inout rax 507; Inout rdi (as_ptr path); Inout rsi (slice_len path); Out rdx; Out r10; Out r8; Out r9; Out rcx; Out r11].
Definition sys_fs_write_file_ops (path data : slice_arg) : list operand :=
  [Inout rax 508; Inout rdi (as_ptr path); Inout rsi (slice_len path); Inout rdx (as_ptr data); Inout r10 (slice_len data); Out r8; Out r9; Out rcx; Out r11].
Definition sys_fs_create_ops (path : slice_arg) (is_dir : bool) : list operand :=
  [Inout rax 509; Inout rdi (as_ptr path); Inout rsi (slice_len path); Inout rdx (Z.b2z is_dir); Out r8; Out r9; Out r10; Out rcx; Out r11].
Definition sys_fs_poll_ops (out : slice_arg) : list operand :=
  [Inout rax 510; Inout rdi (as_ptr out); Inout rsi (slice_len out); Out rdx; Out r10; Out r8; Out r9; Out rcx; Out r11].
Definition sys_service_ctl_ops (service_id action : Z) : list operand :=
  [Inout rax 511; Inout rdi service_id; Inout rsi action; Out rdx; Out r10; Out r8; Out r9; Out rcx; Out r11].
Definition sys_service_poll_ops : list operand := [Inout rax 512; Out rdi; Out rsi; Out rdx; Out r10; Out r8; Out r9; Out rcx; Out r11].
Definition sys_spawn_bytes_ops (data : slice_arg) (arg : Z) : list operand :=
  [Inout rax 513; Inout rdi (as_ptr data); Inout rsi (slice_len data); Inout rdx arg; Out r10; Out r8; Out r9; Out rcx; Out r11].

(** The calls a program can make of the runtime. *)
Inductive rt_call :=
| rt_write (fd : Z) (buf : slice_arg) | rt_exit (code : Z) | rt_getpid | rt_mmap_mmio (phys_addr len : Z)
| rt_port_in (port width : Z) | rt_port_out (port width value : Z) | rt_wait_irq (vector : Z) | rt_mmap_anon (len : Z)
| rt_input_state (out : Z) | rt_fs_list_dir (path : slice_arg) | rt_fs_read_file (path : slice_arg)
| rt_fs_write_file (path data : slice_arg) | rt_fs_create (path : slice_arg) (is_dir : bool) | rt_fs_poll (out : slice_arg)
| rt_service_ctl (service_id action : Z) | rt_service_poll | rt_spawn_bytes (data : slice_arg) (arg : Z).

(** The block of each call. *)
Definition block_of (k : rt_call) : list operand :=
  match k with
  | rt_write fd buf => sys_write_ops fd buf | rt_exit code => sys_exit_ops code | rt_getpid => sys_getpid_ops
  | rt_mmap_mmio p n => sys_mmap_mmio_ops p n | rt_port_in p w => sys_port_in_ops p w | rt_port_out p w v => sys_port_out_ops p w v
  | rt_wait_irq v => sys_wait_irq_ops v | rt_mmap_anon n => sys_mmap_anon_ops n | rt_input_state out => sys_input_state_ops out
  | rt_fs_list_dir p => sys_fs_list_dir_ops p | rt_fs_read_file p => sys_fs_read_file_ops p | rt_fs_write_file p d => sys_fs_write_file_ops p d
  | rt_fs_create p b => sys_fs_create_ops p b | rt_fs_poll out => sys_fs_poll_ops out | rt_service_ctl i a => sys_service_ctl_ops i a
  | rt_service_poll => sys_service_poll_ops | rt_spawn_bytes d a => sys_spawn_bytes_ops d a
  end.

(** [pid as u32], [val as u32], [ret as i64]; the calls without a result give 0. *)
Definition result_of (k : rt_call) (v : Z) : Z :=
  match k with
  | rt_write _ _ | rt_exit _ | rt_port_out _ _ _ | rt_wait_irq _ => 0
  | rt_getpid | rt_port_in _ _ => u32 v
  | rt_mmap_mmio _ _ | rt_mmap_anon _ | rt_input_state _ => v
  | _ => i64 v
  end.

Definition rt (k : rt_call) (c : cpu) : ST (gate D) (option (Z * cpu)) := wrapped (result_of k) (asm_syscall (block_of k) c).

(** ** [hepos_std] *)

(** [io::write_bytes], [process::exit], [process::id]; [print!] formats into one slice,
    [println!] adds a newline of its own. *)
Definition write_bytes (buf : slice_arg) : rt_call := rt_write 1 buf.
Definition process_exit (code : Z) : rt_call := rt_exit (u64 code).
Definition process_id : rt_call := rt_getpid.
Definition println (text newline : slice_arg) : list rt_call := [write_bytes text; write_bytes newline].
End calls.

(** The runtime's copies of the structures the kernel fills in. *)
Record InputState := mkInput { mouse_valid : Z; mouse_x : Z; mouse_y : Z; mouse_buttons : Z; key_count : Z; keys : list Z }.
Record DirEntryOut := mkDirEntry { ino : Z; name_len : Z; name : list Z }.

(** Their fields in [repr(C)] layout. *)
Definition as_input_state (b : list Z) : InputState :=
  mkInput (le_val (sub 0 4 b)) (i32 (le_val (sub 4 4 b))) (i32 (le_val (sub 8 4 b))) (le_val (sub 12 4 b)) (le_val (sub 16 4 b)) (sub 20 16 b).
Definition as_dir_entry (b : list Z) : DirEntryOut := mkDirEntry (le_val (sub 0 4 b)) (le_val (sub 4 4 b)) (sub 8 60 b).
