(* ===== verification/RuntimeSpec.v ===== *)
(** The runtime keeps its promises: blocks of the bump allocator never overlap, and a wrapper
    call runs the kernel handler of its name with its own arguments and changes no register
    that it does not declare. *)

From stdpp Require Import prelude list numbers strings.
From S2P Require Import Prelude Text Pmm Hepfs Memory Paging Process Syscall SyscallSpec Runtime.

Local Open Scope Z_scope.

(** ** The entry stub *)

Section stub.
Context {D : Type} `{!Drive D} (cr0_wp : bool) (port_in : Z → Z → ST (gate D) Z) (block_on_irq : Z → ST (gate D) unit)
        (junk : reg → Z) (junk_stack : Z → Z).

Abbreviation ring0 := (syscall_dispatch cr0_wp port_in block_on_irq).
Abbreviation exec := (exec cr0_wp port_in block_on_irq junk junk_stack).

(** The registers a system call gives back, RSP and the return address and flags among them. *)
Definition kept_regs : list reg := [rbx; rbp; rsp; r12; r13; r14; r15].

(** [c'] continues the caller of [c] with [v] in RAX. *)
Definition resumes (c c' : cpu) (v : Z) : Prop :=
  regs c' rax = v ∧ (∀ r, r ∈ kept_regs → regs c' r = regs c r) ∧ rip c' = regs c rcx ∧ rflags c' = regs c r11 ∧
  gs_kernel c' = gs_kernel c ∧ kernel_stack c' = kernel_stack c.

(** Straight-line code without the call. *)
Fixpoint run (l : list instr) (c : cpu) : outcome cpu :=
  match l with [] => Ok c | i :: l => c ← exec1 i c; run l c end.

Lemma run_app l l' c : run (l ++ l') c = (c ← run l c; run l' c).
Proof. revert c. induction l as [|i l IH]; intros c; [done|]. cbn. destruct (exec1 i c); [apply IH|done]. Qed.

Definition straight (i : instr) : bool := match i with call_dispatch => false | _ => true end.

Lemma exec_run l l' c g : forallb straight l = true → exec (l ++ l') c g = match run l c with Ok c' => exec l' c' g | Panic e => Panic e end.
Proof.
  revert c. induction l as [|i l IH]; intros c Hn; [done|]. cbn in Hn. apply andb_prop in Hn as [Hi Hn]. cbn [app run].
  destruct i; try done; cbn [Runtime.exec]; destruct (exec1 _ c) as [c'|e]; cbn [mbind outcome_bind]; try done; by apply IH.
Qed.

Lemma exec_call l c g : exec (call_dispatch :: l) c g =
  match ring0 (regs c rdi) (regs c rsi) (regs c rdx) (regs c rcx) (regs c r8) g with
  | Ok (Some v, g') => exec l (returned junk junk_stack v c) g'
  | Ok (None, g') => Ok (None, g')
  | Panic e => Panic e
  end.
Proof. cbn [Runtime.exec mbind outcome_bind]. by destruct (ring0 _ _ _ _ _ g) as [[[v|] g']|]. Qed.

(** Everything but the registers and the stack. *)
Definition same_rest (c c' : cpu) : Prop :=
  rip c' = rip c ∧ rflags c' = rflags c ∧ gs_kernel c' = gs_kernel c ∧ kernel_stack c' = kernel_stack c ∧ user_rsp c' = user_rsp c.

Lemma set_reg_ne r r' v c : r' ≠ r → regs (set_reg r v c) r' = regs c r'.
Proof. intros. cbn. by rewrite decide_False. Qed.
Lemma set_reg_eq r v c : regs (set_reg r v c) r = v.
Proof. cbn. by rewrite decide_True. Qed.

Ltac set_regs := repeat first [rewrite set_reg_eq | rewrite set_reg_ne by done].

Lemma pushes_ok rs c : rsp ∉ rs → 8 * len rs ≤ regs c rsp < 2 ^ 64 →
  ∃ c', run (push <$> rs) c = Ok c' ∧ regs c' rsp = regs c rsp - 8 * len rs ∧ (∀ r, r ≠ rsp → regs c' r = regs c r) ∧
    (∀ i r, rs !! i = Some r → stack c' (regs c rsp - 8 * (Z.of_nat i + 1)) = regs c r) ∧
    (∀ a, regs c rsp ≤ a → stack c' a = stack c a) ∧ same_rest c c'.
Proof.
  revert c. induction rs as [|r rs IH]; intros c Hn Hl.
  { exists c. split_and!; try done. unfold len. cbn. lia. }
  apply not_elem_of_cons in Hn as [Hr Hn]. unfold len in *. cbn [length fmap list_fmap] in *.
  assert (u64 (regs c rsp - 8) = regs c rsp - 8) as Ha by (apply wrap_small; unfold is_u; lia).
  cbn [run exec1]. rewrite Ha. cbn [mbind outcome_bind].
  match goal with |- context [run _ ?x] => set (c1 := x) end.
  assert (regs c1 rsp = regs c rsp - 8) as E1 by apply set_reg_eq.
  assert (∀ r', r' ≠ rsp → regs c1 r' = regs c r') as E2 by (intros r' ?; unfold c1; by rewrite set_reg_ne).
  destruct (IH c1) as (c' & -> & Hsp & Hreg & Hst & Hab & Hsame); [done|rewrite E1; lia|]. rewrite E1 in *. exists c'. split; [done|].
  split_and!; [lia|intros; rewrite Hreg, E2 by done; done| | |done].
  - intros [|i] r' Hi; cbn in Hi.
    + injection Hi as <-. rewrite Hab by lia. unfold c1. cbn. by rewrite (proj2 (Z.eqb_eq _ _)) by lia.
    + rewrite <- (E2 r'), <- (Hst i r'); [f_equal; lia|done|]. intros ->. apply Hn. by eapply list_elem_of_lookup_2.
  - intros a Hab'. rewrite Hab by lia. unfold c1. cbn. by destruct (Z.eqb_spec a (regs c rsp - 8)); [lia|].
Qed.

Lemma pops_ok rs c : rsp ∉ rs → NoDup rs → 0 ≤ regs c rsp → regs c rsp + 8 * len rs < 2 ^ 64 →
  ∃ c', run (pop <$> rs) c = Ok c' ∧ (∀ r, r ≠ rsp → r ∉ rs → regs c' r = regs c r) ∧
    (∀ i r, rs !! i = Some r → regs c' r = stack c (regs c rsp + 8 * Z.of_nat i)) ∧ same_rest c c'.
Proof.
  revert c. induction rs as [|r rs IH]; intros c Hn Hd H0 Hl.
  { exists c. by split_and!. }
  apply not_elem_of_cons in Hn as [Hr Hn]. apply NoDup_cons in Hd as [Hrs Hd]. unfold len in *. cbn [length fmap list_fmap] in *.
  assert (u64 (regs c rsp + 8) = regs c rsp + 8) as Ha by (apply wrap_small; unfold is_u; lia).
  cbn [run exec1]. rewrite Ha. cbn [mbind outcome_bind].
  match goal with |- context [run _ ?x] => set (c1 := x) end.
  assert (regs c1 rsp = regs c rsp + 8) as E1 by apply set_reg_eq.
  assert (regs c1 r = stack c (regs c rsp)) as E2 by (unfold c1; rewrite set_reg_ne by done; apply set_reg_eq).
  assert (∀ r', r' ≠ rsp → r' ≠ r → regs c1 r' = regs c r') as E3 by (intros r' ? ?; unfold c1; by rewrite !set_reg_ne).
  destruct (IH c1) as (c' & -> & Hreg & Hst & Hsame); [done|done|lia|lia|]. rewrite E1 in *. exists c'. split; [done|]. split_and!; [| |done].
  - intros r' H1 H2. apply not_elem_of_cons in H2 as [H2 H3]. by rewrite Hreg, E3.
  - intros [|i] r' Hi; cbn in Hi.
    + injection Hi as <-. rewrite Hreg by done. rewrite E2. f_equal. lia.
    + rewrite (Hst i r') by done. change (stack c1) with (stack c). f_equal. lia.
Qed.

Definition saved : list reg := [rcx; r11; rbp; rbx; r12; r13; r14; r15].
Definition moves : list instr := [mov r9 r8; mov r8 r10; mov rcx rdx; mov rdx rsi; mov rsi rdi; mov rdi rax].

Lemma entry_parts : syscall_entry =
  ([swapgs; mov_gs8_rsp; mov_rsp_gs 0] ++ (push <$> saved) ++ moves) ++ [call_dispatch] ++ (pop <$> reverse saved) ++ [mov_rsp_gs 8; swapgs; sysretq].
Proof. reflexivity. Qed.

(** Up to the call: the arguments are in place, the rest is on the stack. *)
Lemma prologue_ok c : 64 ≤ kernel_stack c < 2 ^ 64 → gs_kernel c = false →
  ∃ c1, run ([swapgs; mov_gs8_rsp; mov_rsp_gs 0] ++ (push <$> saved) ++ moves) c = Ok c1 ∧
    [regs c1 rdi; regs c1 rsi; regs c1 rdx; regs c1 rcx; regs c1 r8] = [regs c rax; regs c rdi; regs c rsi; regs c rdx; regs c r10] ∧
    regs c1 rsp = kernel_stack c - 64 ∧ user_rsp c1 = regs c rsp ∧ kernel_stack c1 = kernel_stack c ∧ gs_kernel c1 = true ∧
    ∀ i r, saved !! i = Some r → stack c1 (kernel_stack c - 8 * (Z.of_nat i + 1)) = regs c r.
Proof.
  intros Hk Hg. rewrite run_app. cbn [run exec1]. rewrite Hg. cbn [negb mbind outcome_bind gs_kernel]. 
  match goal with |- context [run _ ?x] => set (c0 := x) end.
  assert (regs c0 rsp = kernel_stack c) as E0 by apply set_reg_eq. assert (∀ r, r ≠ rsp → regs c0 r = regs c r) as E0' by (intros; unfold c0; by rewrite set_reg_ne).
  rewrite run_app. destruct (pushes_ok saved c0) as (c1 & -> & Hsp & Hr & Hst & _ & H1 & H2 & H3 & H4 & H5); [set_solver|rewrite E0; change (len saved) with 8; lia|].
  unfold moves. cbn [run exec1 mbind outcome_bind]. eexists. split; [reflexivity|]. set_regs. rewrite !Hr, !E0' by done. rewrite E0 in *. split_and!; [done|rewrite Hsp; change (len saved) with 8; lia|done|done|done|].
  intros i r Hi. cbn [stack set_reg]. rewrite (Hst i r) by done. apply E0'. intros ->. apply list_elem_of_lookup_2 in Hi. set_solver.
Qed.

Lemma epilogue_ok c : 0 ≤ regs c rsp → regs c rsp + 64 < 2 ^ 64 → gs_kernel c = true →
  ∃ c1, run ((pop <$> reverse saved) ++ [mov_rsp_gs 8; swapgs; sysretq]) c = Ok c1 ∧
    (∀ i r, reverse saved !! i = Some r → regs c1 r = stack c (regs c rsp + 8 * Z.of_nat i)) ∧ regs c1 rax = regs c rax ∧
    regs c1 rsp = user_rsp c ∧ rip c1 = stack c (regs c rsp + 56) ∧ rflags c1 = stack c (regs c rsp + 48) ∧
    kernel_stack c1 = kernel_stack c ∧ gs_kernel c1 = false.
Proof.
  intros H0 Hl Hg. rewrite run_app.
  destruct (pops_ok (reverse saved) c) as (c1 & -> & Hr & Hst & H1 & H2 & H3 & H4 & H5); [set_solver|apply (bool_decide_unpack _); reflexivity|done|change (len (reverse saved)) with 8; lia|].
  cbn [mbind outcome_bind run exec1]. rewrite H3, Hg. cbn [mbind outcome_bind]. eexists. split; [reflexivity|]. cbn [regs rip rflags kernel_stack gs_kernel]. set_regs. split_and!; try done.
  - intros i r Hi. rewrite set_reg_ne; [by apply Hst|]. intros ->. apply list_elem_of_lookup_2 in Hi. set_solver.
  - apply Hr; [done|set_solver].
  - by apply (Hst 7%nat).
  - by apply (Hst 6%nat).
  - cbn. by rewrite H3, Hg.
Qed.

Lemma entry_run c g : 64 ≤ kernel_stack c < 2 ^ 64 → gs_kernel c = false →
  ∃ fin : Z → cpu, exec syscall_entry c g =
    match ring0 (regs c rax) (regs c rdi) (regs c rsi) (regs c rdx) (regs c r10) g with
    | Ok (o, g') => Ok (fin <$> o, g')
    | Panic e => Panic e
    end ∧ ∀ v, resumes c (fin v) v.
Proof.
  intros Hk Hg. destruct (prologue_ok c Hk Hg) as (c1 & E1 & Ha & Hsp & Hu & HK & Hgs & Hst).
  assert (∀ v, ∃ c2, run ((pop <$> reverse saved) ++ [mov_rsp_gs 8; swapgs; sysretq]) (returned junk junk_stack v c1) = Ok c2 ∧ resumes c c2 v) as Hep.
  { intros v. assert (regs (returned junk junk_stack v c1) rsp = kernel_stack c - 64) as Ersp by done.
    destruct (epilogue_ok (returned junk junk_stack v c1)) as (c2 & -> & Hr & Hax & Hrsp & Hip & Hfl & HK2 & Hg2); [rewrite Ersp; lia|rewrite Ersp; lia|done|].
    exists c2. split; [done|]. rewrite Ersp in *.
    assert (∀ i, 0 ≤ i < 8 → stack (returned junk junk_stack v c1) (kernel_stack c - 64 + 8 * i) = stack c1 (kernel_stack c - 8 * (7 - i + 1))) as Hs.
    { intros i Hi. unfold returned. cbn. rewrite Hsp, (proj2 (Z.leb_le _ _)) by lia. f_equal. lia. }
    assert (∀ i r, (i < 8)%nat → saved !! (7 - i)%nat = Some r → stack (returned junk junk_stack v c1) (kernel_stack c - 64 + 8 * Z.of_nat i) = regs c r) as Hv.
    { intros i r Hi Hr'. rewrite Hs by lia. rewrite <- (Hst _ _ Hr'). do 2 f_equal. lia. }
    split_and!; [done| |rewrite Hip; by apply (Hv 7%nat); [lia|]|rewrite Hfl; by apply (Hv 6%nat); [lia|]|by rewrite Hg2|by rewrite HK2].
    apply (Forall_forall (λ r, regs c2 r = regs c r)). repeat apply Forall_cons_2; [| |by rewrite Hrsp|..|constructor].
    all: (rewrite (Hr 4%nat) by done; by apply (Hv 4%nat); [lia|]) || (rewrite (Hr 5%nat) by done; by apply (Hv 5%nat); [lia|]) || (rewrite (Hr 3%nat) by done; by apply (Hv 3%nat); [lia|])
      || (rewrite (Hr 2%nat) by done; by apply (Hv 2%nat); [lia|]) || (rewrite (Hr 1%nat) by done; by apply (Hv 1%nat); [lia|]) || (rewrite (Hr 0%nat) by done; by apply (Hv 0%nat); [lia|]). }
  set (epi := (pop <$> reverse saved) ++ [mov_rsp_gs 8; swapgs; sysretq]) in *.
  exists (λ v, match run epi (returned junk junk_stack v c1) with Ok c2 => c2 | Panic _ => c end). split.
  - assert (forallb straight epi = true) as Hepi by reflexivity. rewrite entry_parts. fold epi. clearbody epi. rewrite exec_run by reflexivity.
    rewrite E1. change ([call_dispatch] ++ epi) with (call_dispatch :: epi). rewrite exec_call. injection Ha as -> -> -> -> ->.
    destruct (ring0 _ _ _ _ _ g) as [[[v|] g']|]; [|done|done]. cbn [fmap option_fmap option_map].
    rewrite <- (app_nil_r epi) at 1. rewrite exec_run by done. destruct (Hep v) as (c2 & E2 & _). by rewrite E2.
  - intros v. by destruct (Hep v) as (c2 & -> & ?).
Qed.

(** ** The wrappers *)

(** The kernel's side of each call. *)
Definition handler (k : rt_call) : ST (gate D) (option Z) :=
  match k with
  | rt_write fd buf => returns (Syscall.sys_write fd (as_ptr buf) (slice_len buf))
  | rt_exit code => Syscall.sys_exit code
  | rt_getpid => returns (on_procs current_pid)
  | rt_mmap_mmio p n => returns (Syscall.sys_mmap_mmio p n)
  | rt_port_in p w => returns (Syscall.sys_port_in port_in p w)
  | rt_port_out p w v => returns (Syscall.sys_port_out p w v)
  | rt_wait_irq v => returns (Syscall.sys_wait_irq block_on_irq v)
  | rt_mmap_anon n => returns (on_procs (map_anon_for_user n))
  | rt_input_state out => returns (Syscall.sys_input_state cr0_wp out)
  | rt_fs_list_dir p => returns (Syscall.sys_fs_list_dir (as_ptr p) (slice_len p))
  | rt_fs_read_file p => returns (Syscall.sys_fs_read_file (as_ptr p) (slice_len p))
  | rt_fs_write_file p d => returns (Syscall.sys_fs_write_file (as_ptr p) (slice_len p) (as_ptr d) (slice_len d))
  | rt_fs_create p b => returns (Syscall.sys_fs_create (as_ptr p) (slice_len p) (Z.b2z b))
  | rt_fs_poll o => returns (Syscall.sys_fs_poll cr0_wp (as_ptr o) (slice_len o))
  | rt_service_ctl i a => returns (Syscall.sys_service_ctl i a)
  | rt_service_poll => returns Syscall.sys_service_poll
  | rt_spawn_bytes d a => returns (Syscall.sys_spawn_bytes (as_ptr d) (slice_len d) a)
  end.

(** The processor as it enters the stub. *)
Definition entering (k : rt_call) (c : cpu) : cpu := syscall_insn (foldl (λ c o, load_operand o c) c (block_of k)).

Lemma ring0_handler k c : let c1 := entering k c in ring0 (regs c1 rax) (regs c1 rdi) (regs c1 rsi) (regs c1 rdx) (regs c1 r10) = handler k.
Proof. destruct k; reflexivity. Qed.

Lemma entering_keeps k c r : r ∈ kept_regs → regs (entering k c) r = regs c r.
Proof. apply (Forall_forall (λ r, regs (entering k c) r = regs c r)). destruct k; repeat constructor. Qed.

Lemma entering_rest k c : let c1 := entering k c in
  regs c1 rcx = rip c ∧ regs c1 r11 = rflags c ∧ gs_kernel c1 = gs_kernel c ∧ kernel_stack c1 = kernel_stack c.
Proof. destruct k; done. Qed.

(** Every register is either kept by the stub or declared by the block. *)
Lemma blocks_declare k r : (∀ code, k ≠ rt_exit code) → r ∉ clobbers (block_of k) → r ∈ kept_regs.
Proof.
  intros Hne Hr. destruct (decide (r ∈ kept_regs)) as [|Hn]; [done|]. exfalso. destruct k; try by apply (Hne code).
  all: apply Hr; clear Hr; revert Hn; apply (bool_decide_unpack _); destruct r; reflexivity.
Qed.

(** What a program sees of a call: its result, and a processor that went on where it was. *)
Definition went_on (k : rt_call) (c c' : cpu) : Prop :=
  rip c' = rip c ∧ rflags c' = rflags c ∧ gs_kernel c' = false ∧ kernel_stack c' = kernel_stack c ∧
  ((∀ code, k ≠ rt_exit code) → ∀ r, r ∉ clobbers (block_of k) → regs c' r = regs c r).

(** C11: a call of the runtime runs the kernel handler of its name on its own arguments: through
    the [syscall] instruction, the stub's pushes and moves, the dispatcher and the way back.
    The program gets the handler's answer at the wrapper's type, with the handler's effect on
    the kernel and nothing else; a panic of the handler is the only one; and it goes on at the
    next instruction, with its flags, stack pointer and GS, and every register that the block
    does not declare as changed unchanged, whatever the kernel left in the scratch registers
    and on its own stack. *)
Theorem wrappers_reach_handlers (k : rt_call) (c : cpu) (g : gate D)
    (Hstack : 64 ≤ kernel_stack c < 2 ^ 64) (Hring3 : gs_kernel c = false) :
  match handler k g, rt cr0_wp port_in block_on_irq junk junk_stack k c g with
  | Ok (Some v, g1), Ok (Some (w, c'), g2) => w = result_of k v ∧ g2 = g1 ∧ went_on k c c'
  | Ok (None, g1), Ok (None, g2) => g2 = g1
  | Panic e1, Panic e2 => e1 = e2
  | _, _ => False
  end.
Proof.
  destruct (entering_rest k c) as (Ecx & E11 & Egs & EK).
  destruct (entry_run (entering k c) g) as (fin & E & Hfin); [by rewrite EK|by rewrite Egs|]. rewrite ring0_handler in E.
  unfold rt, wrapped, asm_syscall. fold (entering k c). unfold mbind, ST_bind. rewrite E.
  destruct (handler k g) as [[[v|] g1]|]; cbn; try done. destruct (Hfin v) as (Hax & Hkept & Hip & Hfl & Hgs & HK).
  split_and!; [by rewrite Hax|done|]. split_and!; [congruence..|]. intros Hne r Hr. rewrite Hkept, entering_keeps by (by eapply blocks_declare). done.
Qed.
End stub.

(** A system call from ring 3: a task asks for its process id. *)
Definition demo_cpu : cpu := mkCpu (λ r, if decide (r = rsp) then 0x7FF0 else 7) 0x401000 0x202 false 0x10000 0 (λ _, 0).

Lemma wrappers_reach_handlers_witness : ∃ c' g', rt true no_port no_block (λ _, 13) (λ _, 17) (rt_port_in 0x71 1) demo_cpu demo_g0 = Ok (Some (0, c'), g') ∧
  regs c' rbx = 7 ∧ regs c' rsp = 0x7FF0 ∧ rip c' = 0x401000.
Proof.
  generalize demo_g0 as g. intros g. assert (handler true no_port no_block (rt_port_in 0x71 1) g = Ok (Some 0, g)) as E by reflexivity.
  pose proof (wrappers_reach_handlers true no_port no_block (λ _, 13) (λ _, 17) (rt_port_in 0x71 1) demo_cpu g) as H.
  rewrite E in H. destruct (rt _ _ _ _ _ _ _ _) as [[[[w c']|] g']|]; [|destruct H; (reflexivity || (split; [discriminate|reflexivity]))..].
  destruct H as (-> & -> & Hip & _ & _ & _ & Hr); [split; [discriminate|reflexivity]|reflexivity|].
  exists c', g. split; [reflexivity|]. rewrite !Hr by (discriminate || (apply (bool_decide_unpack _); reflexivity)). done.
Defined.

(** ** The bump allocator *)

Lemma align_up_spec off k : 0 ≤ k → off ≤ align_up off (2 ^ k) < off + 2 ^ k ∧ align_up off (2 ^ k) mod 2 ^ k = 0.
Proof.
  intros Hk. unfold align_up. assert (0 < 2 ^ k) as Hp by lia. replace (2 ^ k - 1) with (Z.ones k) by (rewrite Z.ones_equiv; lia).
  rewrite <- Z.ldiff_land, Z.ldiff_ones_r, Z.shiftl_mul_pow2, Z.shiftr_div_pow2 by done. split; [|apply Z.mod_mul; lia].
  pose proof (Z.div_mod (off + 2 ^ k - 1) (2 ^ k)). pose proof (Z.mod_pos_bound (off + 2 ^ k - 1) (2 ^ k)). lia.
Qed.

(** Calls of [alloc] under way and over, in any number, on one [HEAP_OFF]. *)
Definition heap := (Z * list (Layout * alloc_pc))%type.

(** What [Layout] guarantees. *)
Definition layout_ok (l : Layout) : Prop := 0 ≤ size l ∧ ∃ k, 0 ≤ k ∧ align l = 2 ^ k.

Inductive heap_step : heap → heap → Prop :=
| hs_call off ts l : layout_ok l → heap_step (off, ts) (off, ts ++ [(l, alloc_start off)])
| hs_round off ts i l pc pc' off' : ts !! i = Some (l, pc) → alloc_step l off pc = (pc', off') → heap_step (off, ts) (off', <[i := (l, pc')]> ts).

(** The blocks handed out: offset and layout. *)
Definition block_at (ts : list (Layout * alloc_pc)) (i : nat) (a : Z) (l : Layout) : Prop := ts !! i = Some (l, Done (Some a)).

Record heap_inv (h : heap) : Prop := mkHeapInv {
  inv_off : 0 ≤ h.1 ≤ HEAP_SIZE;
  inv_layout i l pc : h.2 !! i = Some (l, pc) → layout_ok l;
  inv_seen i l off : h.2 !! i = Some (l, Loop off) → 0 ≤ off ≤ h.1;
  inv_block i a l : block_at h.2 i a l → 0 ≤ a ∧ a + size l ≤ h.1 ∧ a mod align l = 0;
  inv_disjoint i j a b l m : block_at h.2 i a l → block_at h.2 j b m → i ≠ j → a + size l ≤ b ∨ b + size m ≤ a }.

Lemma heap_inv_call off ts l : layout_ok l → heap_inv (off, ts) → heap_inv (off, ts ++ [(l, alloc_start off)]).
Proof.
  intros Hl [H1 H2 H3 H4 H5]. cbn in *.
  assert (∀ i x, (ts ++ [(l, alloc_start off)]) !! i = Some x → ts !! i = Some x ∨ x = (l, Loop off)) as Hc.
  { intros i x Hi. apply lookup_app_Some in Hi as [|[_ Hi]]; [by left|]. right. apply list_lookup_singleton_Some in Hi as [_ <-]. done. }
  split; cbn; [done|..].
  - intros i l' pc [Hi|[= -> ->]]%Hc; eauto.
  - intros i l' o [Hi|[= -> ->]]%Hc; [eauto|lia].
  - intros i a l' [Hi|?]%Hc; [by eapply H4|done].
  - intros i j a b l' m [Hi|?]%Hc [Hj|?]%Hc; [by eapply H5|done..].
Qed.

Lemma heap_inv_round off ts i l pc pc' off' : ts !! i = Some (l, pc) → alloc_step l off pc = (pc', off') →
  heap_inv (off, ts) → heap_inv (off', <[i := (l, pc')]> ts).
Proof.
  intros Hi Hs [H1 H2 H3 H4 H5]. cbn in *. pose proof (H2 _ _ _ Hi) as Hl. pose proof Hl as (Hsz & k & Hk & Ea).
  assert (off ≤ off' ≤ HEAP_SIZE ∧ match pc' with
    | Loop o => 0 ≤ o ≤ off'
    | Done None => True
    | Done (Some a) => pc = Done (Some a) ∨ off ≤ a ∧ a + size l ≤ off' ∧ a mod align l = 0 end) as [Ho Hpc].
  { destruct pc as [o|r]; cbn in Hs; [|injection Hs as <- <-; split; [lia|]; by destruct r as [a|]; [left|]].
    destruct (Z.ltb_spec HEAP_SIZE (align_up o (align l) + size l)); [injection Hs as <- <-; by split; [lia|]|].
    destruct (Z.eqb_spec off o) as [->|]; injection Hs as <- <-; [|split; lia].
    rewrite Ea in *. destruct (align_up_spec o k Hk) as [? ?]. split; [lia|]. right. split_and!; [lia|lia|done]. }
  clear Hs. assert (∀ j x, <[i := (l, pc')]> ts !! j = Some x → j = i ∧ x = (l, pc') ∨ j ≠ i ∧ ts !! j = Some x) as Hc.
  { intros j x Hj. destruct (decide (j = i)) as [->|]; [left|right; by rewrite list_lookup_insert_ne in Hj]. rewrite list_lookup_insert_eq in Hj by (by eapply lookup_lt_Some). split; [done|congruence]. }
  assert (∀ a, pc' = Done (Some a) → ∀ j b m, j ≠ i → block_at ts j b m → a + size l ≤ b ∨ b + size m ≤ a) as Hnew.
  { intros a -> j b m Hj Hb. destruct Hpc as [->|(Ha & _ & _)]; [eapply (H5 i j a b l m); done|]. right. apply H4 in Hb as (_ & ? & _). lia. }
  split; cbn; [lia|..].
  - intros j l' pc1 [[-> [= -> ->]]|[_ Hj]]%Hc; eauto.
  - intros j l' o [[-> [= -> <-]]|[_ Hj]]%Hc; [lia|]. apply H3 in Hj. lia.
  - intros j a l' [[-> [= -> <-]]|[_ Hj]]%Hc; [|apply H4 in Hj as (? & ? & ?); split_and!; (done || lia)].
    destruct Hpc as [->|(? & ? & ?)]; [apply H4 in Hi as (? & ? & ?)|]; split_and!; (done || lia).
  - intros j j' a b l' m [[-> [= -> E]]|[Hn Hj]]%Hc [[-> [= -> E']]|[Hn' Hj']]%Hc Hne; [done|eapply Hnew; eauto|destruct (Hnew b (eq_sym E') j a l'); [done|done|by right|by left]|eapply (H5 j j'); eauto].
Qed.

(** C28: however many calls of [alloc] run at once, interleaved at the exchange of [HEAP_OFF],
    every block handed out lies in the arena, is aligned relative to its start, and shares no
    byte with another. *)
Theorem bump_blocks_disjoint (h : heap) (Hrun : rtc heap_step (0, []) h) :
  0 ≤ h.1 ≤ HEAP_SIZE ∧
  (∀ i a l, block_at h.2 i a l → 0 ≤ a ∧ a + size l ≤ HEAP_SIZE ∧ a mod align l = 0) ∧
  (∀ i j a b l m, block_at h.2 i a l → block_at h.2 j b m → i ≠ j → a + size l ≤ b ∨ b + size m ≤ a).
Proof.
  assert (heap_inv h) as [H1 _ _ H4 H5].
  { revert h Hrun. apply (rtc_ind_r heap_inv); [split; cbn; [unfold HEAP_SIZE; lia|done..]|].
    intros x y _ Hs Hx. destruct Hs; [by apply heap_inv_call|by eapply heap_inv_round]. }
  split_and!; [lia|lia| |done]. intros i a l Hb. apply H4 in Hb as (? & ? & ?). split_and!; (done || lia).
Qed.

(** Two calls that read the same offset: the second loses the exchange and tries again. *)
Lemma bump_blocks_disjoint_witness : ∃ ts, rtc heap_step (0, []) (16, ts) ∧ block_at ts 0 0 (mkLayout 3 1) ∧ block_at ts 1 8 (mkLayout 8 8) ∧
  (0 + 3 ≤ 8 ∨ 8 + 8 ≤ 0).
Proof.
  exists [(mkLayout 3 1, Done (Some 0)); (mkLayout 8 8, Done (Some 8))].
  assert (rtc heap_step (0, []) (16, [(mkLayout 3 1, Done (Some 0)); (mkLayout 8 8, Done (Some 8))])) as H.
  { eapply rtc_l; [apply (hs_call 0 [] (mkLayout 3 1)); split; [cbn; lia|exists 0; done]|].
    eapply rtc_l; [apply (hs_call 0 _ (mkLayout 8 8)); split; [cbn; lia|exists 3; done]|].
    eapply rtc_l; [by apply (hs_round _ _ 0 (mkLayout 3 1) (Loop 0) (Done (Some 0)) 3)|].
    eapply rtc_l; [by apply (hs_round _ _ 1 (mkLayout 8 8) (Loop 0) (Loop 3) 3)|].
    eapply rtc_l; [by apply (hs_round _ _ 1 (mkLayout 8 8) (Loop 3) (Done (Some 8)) 16)|]. apply rtc_refl. }
  split; [exact H|]. split; [done|]. split; [done|].
  destruct (bump_blocks_disjoint _ H) as (_ & _ & Hd). by apply (Hd 0%nat 1%nat 0 8 (mkLayout 3 1) (mkLayout 8 8)).
Defined.

(** ** The structures the kernel fills in

    The runtime reads back every field the kernel wrote, at its own offset and sign. *)
Lemma sub_mid {A} (pre mid post : list A) off n : length pre = off → length mid = n → sub off n (pre ++ mid ++ post) = mid.
Proof. intros <- <-. unfold sub. by rewrite drop_app_length, take_app_length. Qed.

Lemma i32_u32 z : - 2 ^ 31 ≤ z < 2 ^ 31 → i32 (u32 z) = z.
Proof. intros Hz. unfold i32, wrap. rewrite Zplus_mod_idemp_l, Z.mod_small; lia. Qed.

Lemma input_state_agrees valid x y btn count ks :
  is_u 32 valid → - 2 ^ 31 ≤ x < 2 ^ 31 → - 2 ^ 31 ≤ y < 2 ^ 31 → is_u 32 btn → is_u 32 count → (length ks ≤ 16)%nat →
  as_input_state (input_state_out valid x y btn count ks) = mkInput valid x y btn count (ks ++ replicate (16 - length ks) 0).
Proof.
  intros Hv Hx Hy Hb Hc Hk. unfold as_input_state, input_state_out. set (b1 := le_bytes 4 valid). set (b2 := le_bytes 4 (u32 x)).
  set (b3 := le_bytes 4 (u32 y)). set (b4 := le_bytes 4 btn). set (b5 := le_bytes 4 count). set (b6 := ks ++ replicate (16 - length ks) 0).
  assert (length b6 = 16%nat) as H6 by (unfold b6; rewrite length_app, length_replicate; lia).
  rewrite (sub_mid [] b1 (b2 ++ b3 ++ b4 ++ b5 ++ b6)), (sub_mid b1 b2 (b3 ++ b4 ++ b5 ++ b6)) by done.
  rewrite (app_assoc b1 b2), (sub_mid (b1 ++ b2) b3 (b4 ++ b5 ++ b6)), (app_assoc _ b3), (sub_mid _ b4 (b5 ++ b6)), (app_assoc _ b4), (sub_mid _ b5 b6) by done.
  rewrite (app_assoc _ b5), <- (app_nil_r b6), (sub_mid _ b6 []), app_nil_r by done. unfold b1, b2, b3, b4, b5.
  rewrite !le_val_bytes by (done || apply wrap_range; lia). by rewrite !i32_u32.
Qed.

Lemma dir_entry_agrees i nm : is_u 32 i → as_dir_entry (dir_entry_out (i, nm)) = mkDirEntry i (Z.of_nat (Nat.min (length nm) 60)) (take 60 (nm ++ replicate 60 0)).
Proof.
  intros Hi. unfold as_dir_entry, dir_entry_out. set (n := Nat.min (length nm) 60). set (b1 := le_bytes 4 i). set (b2 := le_bytes 4 (Z.of_nat n)).
  set (b3 := take n nm ++ replicate (60 - n) 0). assert (length b3 = 60%nat) as H3 by (unfold b3; rewrite length_app, length_take, length_replicate; lia).
  rewrite (sub_mid [] b1 (b2 ++ b3)), (sub_mid b1 b2 b3), (app_assoc b1), <- (app_nil_r b3), (sub_mid _ b3 []) by done. unfold b1, b2.
  rewrite !le_val_bytes by (done || (unfold n; split; lia)). f_equal. unfold b3, n. destruct (decide (length nm ≤ 60)%nat).
  - rewrite Nat.min_l by done. rewrite firstn_all, take_app_ge, take_replicate by done. do 2 f_equal. lia.
  - rewrite Nat.min_r, take_app_le by lia. by rewrite Nat.sub_diag, app_nil_r.
Qed.

(** C39: the runtime's copies of the structures that the kernel fills in have the kernel's
    layout: from the bytes of [InputStateOut] it reads every field at its value, the mouse
    position with its sign and the sixteen keys, and from those of [DirEntryOut] the inode, the
    length of the name and its bytes, cut at 60. *)
Theorem layouts_agree valid x y btn count ks i nm
    (Hvalid : is_u 32 valid) (Hx : - 2 ^ 31 ≤ x < 2 ^ 31) (Hy : - 2 ^ 31 ≤ y < 2 ^ 31) (Hbtn : is_u 32 btn) (Hcount : is_u 32 count)
    (Hkeys : (length ks ≤ 16)%nat) (Hino : is_u 32 i) :
  as_input_state (input_state_out valid x y btn count ks) = mkInput valid x y btn count (ks ++ replicate (16 - length ks) 0) ∧
  as_dir_entry (dir_entry_out (i, nm)) = mkDirEntry i (Z.of_nat (Nat.min (length nm) 60)) (take 60 (nm ++ replicate 60 0)).
Proof. split; [by apply input_state_agrees|by apply dir_entry_agrees]. Qed.

Lemma layouts_agree_witness :
  as_input_state (input_state_out 1 (-3) 700 2 1 [0x61]) = mkInput 1 (-3) 700 2 1 ([0x61] ++ replicate 15 0) ∧
  as_dir_entry (dir_entry_out (5, [0x61; 0x62])) = mkDirEntry 5 2 ([0x61; 0x62] ++ replicate 58 0).
Proof. apply (layouts_agree 1 (-3) 700 2 1 [0x61] 5 [0x61; 0x62]); first [lia | (split; lia) | (cbn; lia)]. Defined.
