(* ===== verification/Rtl8139.v ===== *)
(** The RTL8139 network card: the kernel's half ([kernel/src/rtl8139.rs]) and the driver process
    ([userspace/rtl8139d]) on the two sides of a shared mailbox page.

    The two run interleaved, and so does the card; each step below is one access to what they
    share. A copy of a whole buffer is one step: the invariant of [Rtl8139Spec] shows that
    nobody else touches a buffer meanwhile. The card is a parameter, the class [RtlCard], with
    what its data sheet says of the registers and of the receive ring. *)

From stdpp Require Import prelude list numbers strings.
From S2P Require Import Prelude Text Memory.

Local Open Scope Z_scope.

Definition RING : Z := 65536.
Definition TX_SLOTS : Z := 4.
Definition SEND_SPINS : nat := Z.to_nat 1000000.
Definition OWN_SPINS : nat := Z.to_nat 1000000.

(** ** The card *)

(** A received packet in the ring: a status word with ROK (bit 0), the length with the four
    bytes of CRC, the frame, the CRC, padding to a multiple of four. *)
Definition need (f : list Z) : Z := (4 + len f + 4 + 3) / 4 * 4.

Class RtlCard (C : Type) := {
  capr : C → Z;
  cbr : C → Z;
  ring_byte : C → Z → Z;       (** the receive buffer, by offset below [RING] *)
  own : C → Z → bool;          (** bit 13 of TXSTAT: the slot is free *)
  cur_tx : C → Z;              (** the slot the card sends next *)
  on_wire : C → list (list Z);
  set_capr : Z → C → C;
  set_txstat : Z → Z → C → C;  (** slot, length: starts the slot *)
  receive : list Z → C → C;
  transmit : (Z → list Z) → C → C;   (** with what the slots' pages hold *)
  accepts : list Z → C → bool;

  rx_range c : 0 ≤ capr c < RING ∧ 0 ≤ cbr c < RING ∧ (cbr c) mod 4 = 0;
  set_capr_rx v c : capr (set_capr v c) = u16 v ∧ cbr (set_capr v c) = cbr c ∧ (∀ i, ring_byte (set_capr v c) i = ring_byte c i);
  set_capr_tx v c : (∀ i, own (set_capr v c) i = own c i) ∧ cur_tx (set_capr v c) = cur_tx c ∧ on_wire (set_capr v c) = on_wire c;
  txstat_rx i n c : capr (set_txstat i n c) = capr c ∧ cbr (set_txstat i n c) = cbr c ∧ (∀ j, ring_byte (set_txstat i n c) j = ring_byte c j);
  txstat_tx i n c : own (set_txstat i n c) i = false ∧ (∀ j, j ≠ i → own (set_txstat i n c) j = own c j) ∧
    cur_tx (set_txstat i n c) = cur_tx c ∧ on_wire (set_txstat i n c) = on_wire c;
  (** a frame is stored when the packet leaves the ring with a free byte, or is lost *)
  accepts_room f c : accepts f c = true →
    14 ≤ len f ≤ 1514 ∧ (cbr c - (capr c + 16)) mod RING + need f < RING;
  receive_drop f c : accepts f c = false → receive f c = c;
  receive_regs f c : accepts f c = true → capr (receive f c) = capr c ∧ cbr (receive f c) = (cbr c + need f) mod RING;
  receive_bytes f c : accepts f c = true →
    (ring_byte (receive f c) (cbr c)) mod 2 = 1 ∧
    ring_byte (receive f c) ((cbr c + 2) mod RING) + 256 * ring_byte (receive f c) ((cbr c + 3) mod RING) = len f + 4 ∧
    (∀ i x, f !! i = Some x → ring_byte (receive f c) ((cbr c + 4 + Z.of_nat i) mod RING) = x);
  receive_rest f c o : accepts f c = true → 0 ≤ o < RING → need f ≤ (o - cbr c) mod RING → ring_byte (receive f c) o = ring_byte c o;
  receive_tx f c : (∀ i, own (receive f c) i = own c i) ∧ cur_tx (receive f c) = cur_tx c ∧ on_wire (receive f c) = on_wire c;
  (** the slots are sent in turn; one that was not started is waited for *)
  transmit_rx p c : capr (transmit p c) = capr c ∧ cbr (transmit p c) = cbr c ∧ (∀ j, ring_byte (transmit p c) j = ring_byte c j);
  transmit_wait p c : own c (cur_tx c) = true → transmit p c = c;
  transmit_send p c : own c (cur_tx c) = false → own (transmit p c) (cur_tx c) = true ∧ (∀ i, i ≠ cur_tx c → own (transmit p c) i = own c i) ∧
    cur_tx (transmit p c) = (cur_tx c + 1) mod TX_SLOTS ∧ ∃ n, on_wire (transmit p c) = on_wire c ++ [take n (p (cur_tx c))] }.

(** ** The mailbox and the two programs *)

Record Mailbox := mkMailbox { tx_len : Z; tx_buf : list Z; rx_ready : Z; rx_len : Z; rx_buf : list Z; stop : Z }.

(** Where [send] and [recv] are. *)
Inductive kpc :=
| KIdle
| KSpin (f : list Z) (n : nat)     (** waiting for the slot of the mailbox *)
| KFill (f : list Z)               (** about to copy the frame *)
| KPost (f : list Z)               (** about to write [tx_len] *)
| KTake                            (** [rx_ready] was set: about to copy out *)
| KClear (p : list Z).             (** about to clear [rx_ready] *)

(** Where the loop of [rtl8139d] is. *)
Inductive dpc :=
| DTop | DExit
| DTx | DOwn (n : Z) (k : nat) | DCopy (n : Z) | DTsd (n : Z) | DAck
| DRx | DRegs | DHdr | DSkip (pkt_len : Z) | DBytes (pkt_len : Z) | DLen (pkt_len : Z) | DCapr (pkt_len : Z) | DReady
| DWait.

(** The system with what has gone in and out of it. *)
Record sys {C : Type} := mkSys {
  mb : Mailbox; card : C; pages : Z → list Z;    (** the transmit pages, one per slot *)
  kp : kpc; dp : dpc; tx_slot : Z; rx_off : Z;
  queued : list (list Z); accepted : list (list Z); delivered : list (list Z) }.
Arguments sys : clear implicits.

Section driver.
Context {C : Type} `{!RtlCard C}.
Implicit Types (s : sys C) (m : Mailbox).

Definition set_tx_len v m := mkMailbox v (tx_buf m) (rx_ready m) (rx_len m) (rx_buf m) (stop m).
Definition set_tx_buf v m := mkMailbox (tx_len m) v (rx_ready m) (rx_len m) (rx_buf m) (stop m).
Definition set_rx_ready v m := mkMailbox (tx_len m) (tx_buf m) v (rx_len m) (rx_buf m) (stop m).
Definition set_rx_len v m := mkMailbox (tx_len m) (tx_buf m) (rx_ready m) v (rx_buf m) (stop m).
Definition set_rx_buf v m := mkMailbox (tx_len m) (tx_buf m) (rx_ready m) (rx_len m) v (stop m).
Definition set_stop v m := mkMailbox (tx_len m) (tx_buf m) (rx_ready m) (rx_len m) (rx_buf m) v.

Definition set_mb v s : sys C := mkSys C v (card s) (pages s) (kp s) (dp s) (tx_slot s) (rx_off s) (queued s) (accepted s) (delivered s).
Definition set_card v s : sys C := mkSys C (mb s) v (pages s) (kp s) (dp s) (tx_slot s) (rx_off s) (queued s) (accepted s) (delivered s).
Definition set_pages v s : sys C := mkSys C (mb s) (card s) v (kp s) (dp s) (tx_slot s) (rx_off s) (queued s) (accepted s) (delivered s).
Definition set_k v s : sys C := mkSys C (mb s) (card s) (pages s) v (dp s) (tx_slot s) (rx_off s) (queued s) (accepted s) (delivered s).
Definition set_d v s : sys C := mkSys C (mb s) (card s) (pages s) (kp s) v (tx_slot s) (rx_off s) (queued s) (accepted s) (delivered s).
Definition set_pos t o s : sys C := mkSys C (mb s) (card s) (pages s) (kp s) (dp s) t o (queued s) (accepted s) (delivered s).
Definition set_log q a d s : sys C := mkSys C (mb s) (card s) (pages s) (kp s) (dp s) (tx_slot s) (rx_off s) q a d.

(** ** The kernel: [Rtl8139::send] and [recv] *)

Definition send (data : list Z) s : sys C :=
  if (1792 <? len data) || (len data =? 0) then s else set_k (KSpin data SEND_SPINS) s.

(** [None] of [recv] is the state unchanged. *)
Definition recv s : sys C := if rx_ready (mb s) =? 0 then s else set_k KTake s.

Definition kernel_step s : sys C :=
  match kp s with
  | KIdle => s
  | KSpin f n => if tx_len (mb s) =? 0 then set_k (KFill f) s else match n with S n => set_k (KSpin f n) s | O => set_k (KFill f) s end
  | KFill f => set_k (KPost f) (set_mb (set_tx_buf (splice 0 f (tx_buf (mb s))) (mb s)) s)
  | KPost f => set_k KIdle (set_log (queued s ++ [f]) (accepted s) (delivered s) (set_mb (set_tx_len (len f) (mb s)) s))
  | KTake => set_k (KClear (take (Z.to_nat (Z.min (rx_len (mb s)) 1600)) (rx_buf (mb s)))) s
  | KClear p => set_k KIdle (set_log (queued s) (accepted s) (delivered s ++ [p]) (set_mb (set_rx_ready 0 (mb s)) s))
  end.

(** ** The loop of [rtl8139d] *)

(** [rx_off] after a packet: [(off + 4 + pkt_len + 3) & !3]. *)
Definition after_packet (off pkt_len : Z) : Z := u64 (Z.land (off + 4 + pkt_len + 3) (Z.lnot 3)).

(** The port write that frees the ring up to [off]: [off.wrapping_sub(16) as u32], two bytes
    of which the port takes. *)
Definition capr_of (off : Z) : Z := u16 (u32 (u64 (off - 16))).

Definition ring_at s (i : Z) : Z := ring_byte (card s) ((rx_off s + i) mod RING).

Definition driver_step s : sys C :=
  let slot := tx_slot s mod TX_SLOTS in
  match dp s with
  | DExit => s
  | DTop => if stop (mb s) =? 0 then set_d DTx s else set_d DExit s
  | DTx => let n := tx_len (mb s) in if n =? 0 then set_d DRx s else set_d (DOwn n OWN_SPINS) s
  | DOwn n k => if own (card s) slot then set_d (DCopy n) s else match k with S k => set_d (DOwn n k) s | O => set_d (DCopy n) s end
  | DCopy n =>
    set_d (DTsd n) (set_pages (λ i, if i =? slot then splice 0 (take (Z.to_nat n) (tx_buf (mb s))) (pages s slot) else pages s i) s)
  | DTsd n => set_d DAck (set_pos (u64 (tx_slot s + 1)) (rx_off s) (set_card (set_txstat slot (Z.land n 0x1FFF) (card s)) s))
  | DAck => set_d DRx (set_mb (set_tx_len 0 (mb s)) s)
  | DRx => if rx_ready (mb s) =? 0 then set_d DRegs s else set_d DWait s
  | DRegs => if (capr (card s) + 16) mod RING =? cbr (card s) mod RING then set_d DWait s else set_d DHdr s
  | DHdr =>
    let hdr_status := ring_at s 0 + 256 * ring_at s 1 in
    let pkt_len := ring_at s 2 + 256 * ring_at s 3 in
    if (Z.land hdr_status 1 =? 0) || (pkt_len <? 14) || (1518 <? pkt_len) then set_d (DSkip pkt_len) s else set_d (DBytes pkt_len) s
  | DSkip pkt_len =>
    let off := after_packet (rx_off s) pkt_len in
    set_d DWait (set_pos (tx_slot s) off (set_card (set_capr (capr_of off) (card s)) s))
  | DBytes pkt_len =>
    let frame_len := Z.min (Z.max (pkt_len - 4) 0) 1600 in
    set_d (DLen pkt_len) (set_mb (set_rx_buf (splice 0 ((λ i, ring_at s (4 + i)) <$> seqZ 0 frame_len) (rx_buf (mb s))) (mb s)) s)
  | DLen pkt_len => set_d (DCapr pkt_len) (set_mb (set_rx_len (Z.min (Z.max (pkt_len - 4) 0) 1600) (mb s)) s)
  | DCapr pkt_len =>
    let off := after_packet (rx_off s) pkt_len in
    set_d DReady (set_pos (tx_slot s) off (set_card (set_capr (capr_of off) (card s)) s))
  | DReady => set_d DWait (set_mb (set_rx_ready 1 (mb s)) s)
  | DWait => set_d DTop s
  end.

(** [stop_service], and [start_service] up to the new process's loop: its transmit slot is 0,
    its ring position is what CAPR says. *)
Definition stop_service s : sys C := set_mb (set_stop 1 (mb s)) s.
Definition start_service s : sys C :=
  set_d DTop (set_pos 0 ((capr (card s) + 16) mod RING) (set_mb (set_stop 0 (mb s)) s)).

(** ** Runs *)

Inductive step : sys C → sys C → Prop :=
| s_send s f : kp s = KIdle → step s (send f s)
| s_recv s : kp s = KIdle → step s (recv s)
| s_kernel s : step s (kernel_step s)
| s_driver s : step s (driver_step s)
| s_stop s : step s (stop_service s)
| s_start s : dp s = DExit → step s (start_service s)
| s_receive s f : step s (set_log (queued s) (accepted s ++ (if accepts f (card s) then [f] else [])) (delivered s) (set_card (receive f (card s)) s))
| s_transmit s : step s (set_card (transmit (pages s) (card s)) s).

(** What [init] leaves: an empty mailbox, CAPR at its start value, an empty ring; the first
    driver process begins as one started by [start_service] does. *)
Definition init (c : C) (p : Z → list Z) : sys C :=
  mkSys C (mkMailbox 0 (replicate (Z.to_nat 1792) 0) 0 0 (replicate (Z.to_nat 1600) 0) 0) c p KIdle DTop 0 ((capr c + 16) mod RING) [] [] [].
End driver.
