(* ===== verification/Rtl8139Spec.v ===== *)
(** The card's driver delivers: what [recv] returns is what the card accepted, frame by frame
    and in order, through ring, driver process and mailbox, over restarts of the process; and
    what a restart does to sending. *)

From Stdlib Require Import ZifyBool.
From stdpp Require Import prelude list numbers strings.
From S2P Require Import Prelude Text Memory Rtl8139.

Local Open Scope Z_scope.
#[local] Opaque SEND_SPINS OWN_SPINS.

Lemma need_bounds f : 14 ≤ len f ≤ 1514 → 24 ≤ need f ≤ 1528 ∧ len f + 8 ≤ need f ∧ need f mod 4 = 0.
Proof. unfold need. intros. dlia. Qed.

Section rx.
Context {C : Type} `{!RtlCard C}.
Implicit Types (s : sys C) (c : C).

(** ** The ring *)

(** The packet of [f] at offset [o]. *)
Definition packet_at c (o : Z) (f : list Z) : Prop :=
  14 ≤ len f ≤ 1514 ∧ ring_byte c (o mod RING) mod 2 = 1 ∧
  ring_byte c ((o + 2) mod RING) + 256 * ring_byte c ((o + 3) mod RING) = len f + 4 ∧
  ∀ i x, f !! i = Some x → ring_byte c ((o + 4 + Z.of_nat i) mod RING) = x.

(** From [o] to CBR the ring holds the packets of [P]. *)
Fixpoint holds c (o : Z) (P : list (list Z)) : Prop :=
  match P with [] => cbr c = o mod RING | f :: P => packet_at c o f ∧ holds c (o + need f) P end.

Fixpoint total (P : list (list Z)) : Z := match P with [] => 0 | f :: P => need f + total P end.

Lemma holds_cbr c o P : holds c o P → cbr c = (o + total P) mod RING.
Proof.
  revert o. induction P as [|f P IH]; intros o; cbn; [by rewrite Z.add_0_r|]. intros [_ H]. rewrite (IH _ H). f_equal. lia.
Qed.

Lemma total_nonneg c o P : holds c o P → 0 ≤ total P.
Proof.
  revert o. induction P as [|f P IH]; intros o; cbn; [done|]. intros [(Hf & _) H]. apply IH in H. pose proof (need_bounds f Hf). lia.
Qed.

(** The bytes from [o] on, for [n] of them, are the same in [c] and [c']. *)
Definition same_bytes c c' (o n : Z) : Prop := ∀ j, 0 ≤ j < n → ring_byte c' ((o + j) mod RING) = ring_byte c ((o + j) mod RING).

Lemma packet_same c c' o f : same_bytes c c' o (need f) → packet_at c o f → packet_at c' o f.
Proof.
  intros Hs (Hl & H1 & H2 & H3). pose proof (need_bounds f Hl) as (? & ? & _). unfold packet_at.
  pose proof (Hs 0) as E0. rewrite Z.add_0_r in E0. rewrite E0, (Hs 2), (Hs 3) by lia. split_and!; [lia|lia|done|done|].
  intros i x Hi. rewrite <- (H3 i x Hi). rewrite <- Z.add_assoc. apply Hs. apply lookup_lt_Some in Hi. unfold len in *. lia.
Qed.

Lemma holds_same c c' o P : same_bytes c c' o (total P) → cbr c' = cbr c → holds c o P → holds c' o P.
Proof.
  revert o. induction P as [|f P IH]; intros o Hs Hc; cbn; [by rewrite Hc|]. intros [Hf HP]. pose proof (total_nonneg _ _ _ HP).
  pose proof (need_bounds f (proj1 Hf)) as (? & _). cbn in Hs. split.
  - apply (packet_same c); [|done]. intros j Hj. apply Hs. lia.
  - apply IH; [|done|done]. intros j Hj. rewrite <- Z.add_assoc. apply Hs. lia.
Qed.

(** Only the offset modulo the ring counts. *)
Lemma holds_cong c o o' P : o mod RING = o' mod RING → holds c o P → holds c o' P.
Proof.
  assert (∀ a b k, a mod RING = b mod RING → (a + k) mod RING = (b + k) mod RING) as Hm.
  { intros a b k E. by rewrite <- Zplus_mod_idemp_l, E, Zplus_mod_idemp_l. }
  revert o o'. induction P as [|f P IH]; intros o o' E; cbn; [by rewrite E|]. intros [(Hl & H1 & H2 & H3) HP]. split; [|eapply IH; [by apply Hm|done]].
  split; [done|]. rewrite <- E, <- !(Hm o o') by done. split_and!; [done|done|]. intros i x Hi. rewrite <- Z.add_assoc, <- (Hm o o'), Z.add_assoc by done. by apply H3.
Qed.

(** Storing a packet behind the ones that are there. *)
Lemma holds_snoc c c' o P f : cbr c' = (o + total P + need f) mod RING → packet_at c' (o + total P) f → same_bytes c c' o (total P) →
  holds c o P → holds c' o (P ++ [f]).
Proof.
  intros Hc Hf. revert o Hc Hf. induction P as [|g P IH]; intros o Hc Hf Hs; cbn in *.
  - intros _. rewrite Z.add_0_r in *. by split.
  - intros [Hg HP]. pose proof (total_nonneg _ _ _ HP). pose proof (need_bounds g (proj1 Hg)) as (? & _). split.
    + apply (packet_same c); [|done]. intros j Hj. apply Hs. lia.
    + apply IH; [rewrite Hc; f_equal; lia|by replace (o + need g + total P) with (o + (need g + total P)) by lia| |done].
      intros j Hj. rewrite <- Z.add_assoc. apply Hs. lia.
Qed.

Lemma receive_holds c P f : accepts f c = true → let o := (capr c + 16) mod RING in
  holds c o P → total P < RING → holds (receive f c) o (P ++ [f]) ∧ total (P ++ [f]) < RING.
Proof.
  intros Ha o HP Ht. destruct (accepts_room f c Ha) as [Hl Hroom]. pose proof (need_bounds f Hl) as (Hn & _). pose proof (total_nonneg _ _ _ HP) as H0.
  destruct (receive_regs f c Ha) as [_ Hcbr]. destruct (receive_bytes f c Ha) as (B1 & B2 & B3). pose proof (holds_cbr _ _ _ HP) as Ec.
  assert ((cbr c - (capr c + 16)) mod RING = total P) as Eu.
  { rewrite Ec. unfold o. rewrite Zplus_mod_idemp_l, Zminus_mod_idemp_l. replace (capr c + 16 + total P - (capr c + 16)) with (total P) by lia. apply Z.mod_small. lia. }
  rewrite Eu in Hroom. assert (total (P ++ [f]) = total P + need f) as Et.
  { clear. induction P as [|g P IH]; cbn in *; lia. }
  rewrite Et. split; [|done]. apply (holds_snoc c); [rewrite Hcbr, Ec, Zplus_mod_idemp_l; done| | |done].
  - assert (∀ k, (cbr c + k) mod RING = (o + total P + k) mod RING) as Ek by (intros k; by rewrite Ec, Zplus_mod_idemp_l).
    split; [done|]. rewrite !Ek in B2. rewrite <- Ec. split_and!; [done|done|]. intros i x Hi. rewrite <- (B3 i x Hi).
    rewrite <- !Z.add_assoc. by rewrite !Ek, <- !Z.add_assoc.
  - intros j Hj. apply receive_rest; [done|apply Z.mod_pos_bound; done|]. rewrite Ec, Zminus_mod_idemp_r, Zminus_mod_idemp_l.
    replace (o + j - (o + total P)) with (RING - (total P - j) + (-1) * RING) by lia. rewrite Z.mod_add by done. rewrite Z.mod_small; lia.
Qed.

(** ** The invariant *)

Definition mail (m : Mailbox) : list Z := take (Z.to_nat (Z.min (rx_len m) 1600)) (rx_buf m).

(** The frame between the ring and the kernel. *)
Definition hand s : list (list Z) :=
  match dp s with DReady => [mail (mb s)] | _ => if rx_ready (mb s) =? 0 then [] else [mail (mb s)] end.

(** The driver is at work on the first packet of [P]. *)
Definition copying s (P : list (list Z)) (n : Z) (Q : list Z → Prop) : Prop :=
  rx_ready (mb s) = 0 ∧ ∃ f P', P = f :: P' ∧ n = len f + 4 ∧ Q f.

Definition driver_inv s (P : list (list Z)) : Prop :=
  match dp s with
  | DRegs | DReady => rx_ready (mb s) = 0
  | DHdr => rx_ready (mb s) = 0 ∧ P ≠ []
  | DSkip _ => False
  | DBytes n => copying s P n (λ _, True)
  | DLen n => copying s P n (λ f, take (length f) (rx_buf (mb s)) = f)
  | DCapr n => copying s P n (λ f, mail (mb s) = f)
  | _ => True
  end.

Definition kernel_inv s : Prop :=
  match kp s with KTake => rx_ready (mb s) ≠ 0 | KClear p => rx_ready (mb s) ≠ 0 ∧ p = mail (mb s) | _ => True end.

Definition position s : Z := (capr (card s) + 16) mod RING.

Record inv s (P : list (list Z)) : Prop := mkInv {
  i_ring : holds (card s) (position s) P;
  i_total : total P < RING;
  i_align : position s mod 4 = 0;
  i_off : dp s ≠ DExit → rx_off s mod 4 = 0 ∧ rx_off s mod RING = position s;
  i_log : accepted s = delivered s ++ hand s ++ P;
  i_driver : driver_inv s P;
  i_kernel : kernel_inv s }.

(** What the ring says at the driver's position. *)
Lemma ring_at_pos s i : rx_off s mod RING = position s → ring_at s i = ring_byte (card s) ((position s + i) mod RING).
Proof. intros E. unfold ring_at. by rewrite <- E, Zplus_mod_idemp_l. Qed.

Lemma after_packet_pos s f : rx_off s mod 4 = 0 → rx_off s mod RING = position s →
  let off := after_packet (rx_off s) (len f + 4) in
  off mod 4 = 0 ∧ off mod RING = (position s + need f) mod RING ∧ (capr_of off + 16) mod RING = off mod RING.
Proof.
  intros H4 HR off. assert (off = u64 (rx_off s + need f)) as Eo.
  { unfold off, after_packet, need. f_equal. change 3 with (Z.ones 2) at 2. rewrite <- Z.ldiff_land, Z.ldiff_ones_r, Z.shiftl_mul_pow2, Z.shiftr_div_pow2 by done. dlia. }
  assert (need f mod 4 = 0) as Hn by (unfold need; dlia).
  rewrite Eo. unfold wrap, capr_of, RING in *. unfold wrap. change (2 ^ 64) with 18446744073709551616. change (2 ^ 32) with 4294967296. change (2 ^ 16) with 65536.
  split_and!; [dlia| |dlia]. rewrite <- HR. dlia.
Qed.

(** The driver reads the header and the bytes of the packet that is there. *)
Lemma hdr_ok s f : rx_off s mod RING = position s → packet_at (card s) (position s) f →
  let pkt_len := ring_at s 2 + 256 * ring_at s 3 in
  (Z.land (ring_at s 0 + 256 * ring_at s 1) 1 =? 0) || (pkt_len <? 14) || (1518 <? pkt_len) = false ∧ pkt_len = len f + 4.
Proof.
  intros Ho (Hl & B1 & B2 & _) pkt_len. unfold pkt_len. rewrite !(ring_at_pos s) by done. rewrite Z.add_0_r.
  assert (Z.land (ring_byte (card s) (position s mod RING) + 256 * ring_byte (card s) ((position s + 1) mod RING)) 1 = 1) as ->.
  { change 1 with (Z.ones 1) at 2. rewrite Z.land_ones by done. dlia. }
  rewrite B2. lia.
Qed.

Lemma bytes_ok s f : rx_off s mod RING = position s → packet_at (card s) (position s) f →
  (λ i, ring_at s (4 + i)) <$> seqZ 0 (Z.min (Z.max (len f + 4 - 4) 0) 1600) = f.
Proof.
  intros Ho (Hl & _ & _ & B3). replace (Z.min (Z.max (len f + 4 - 4) 0) 1600) with (len f) by lia. apply list_eq. intros i. rewrite list_lookup_fmap. destruct (f !! i) as [x|] eqn:Ex.
  - rewrite lookup_seqZ_lt by (apply lookup_lt_Some in Ex; unfold len; lia). cbn. rewrite ring_at_pos by done. rewrite <- (B3 i x Ex). do 3 f_equal. lia.
  - rewrite lookup_seqZ_ge; [done|]. apply lookup_ge_None_1 in Ex. unfold len. lia.
Qed.

(** A step that leaves the receive side alone. *)
Lemma inv_frame s s' P : capr (card s') = capr (card s) → cbr (card s') = cbr (card s) → (∀ i, ring_byte (card s') i = ring_byte (card s) i) →
  rx_off s' = rx_off s → (dp s = DExit → dp s' = DExit) → accepted s' = accepted s → delivered s' ++ hand s' = delivered s ++ hand s →
  driver_inv s' P → kernel_inv s' → inv s P → inv s' P.
Proof.
  intros E1 E2 E3 E4 E5 E6 E7 Hd Hk [H1 H2 H3 H4 H5 _ _]. assert (position s' = position s) as Ep by (unfold position; by rewrite E1). split; rewrite ?Ep; try done.
  - apply (holds_same (card s)); [intros j _; apply E3|done|done].
  - rewrite E4. intros Hx. apply H4. intros Hy. apply Hx. auto.
  - rewrite E6, H5, !app_assoc. by rewrite E7.
Qed.

Ltac frame H := apply (inv_frame _ _ _) with (10 := H); try done; try (intros; congruence); try exact (i_driver _ _ H); try exact (i_kernel _ _ H).

Lemma kernel_inv_step s P : inv s P → inv (kernel_step s) P.
Proof.
  intros H. pose proof (i_kernel _ _ H) as Hk. pose proof (i_driver _ _ H) as Hd. unfold kernel_inv in Hk. unfold kernel_step. destruct (kp s) as [|f n|f|f| |p] eqn:Ek; [done|..].
  - destruct (tx_len (mb s) =? 0); [|destruct n]; frame H.
  - frame H.
  - frame H.
  - frame H.
  - destruct Hk as [Hr ->]. assert (dp s ≠ DReady) as Hn by (intros E; unfold driver_inv in Hd; by rewrite E in Hd). frame H.
    + unfold hand. cbn. replace (rx_ready (mb s) =? 0) with false by lia. destruct (dp s); try done; cbn; by rewrite ?app_nil_r.
    + unfold driver_inv, copying in *. cbn. destruct (dp s); try done; try (by destruct Hd).
Qed.

Lemma hand_empty s : rx_ready (mb s) = 0 → dp s ≠ DReady → hand s = [].
Proof. intros E Hn. unfold hand. rewrite E. by destruct (dp s). Qed.

Lemma driver_inv_step s P : inv s P → ∃ P', inv (driver_step s) P'.
Proof.
  intros H. pose proof (i_kernel _ _ H) as Hk. pose proof (i_driver _ _ H) as Hd. unfold driver_inv in Hd. unfold driver_step. destruct (dp s) eqn:Ed.
  - exists P. destruct (stop (mb s) =? 0); frame H; unfold hand; by rewrite Ed.
  - by exists P.
  - exists P. destruct (tx_len (mb s) =? 0); frame H; unfold hand; by rewrite Ed.
  - exists P. destruct (own _ _); [|destruct k]; frame H; unfold hand; by rewrite Ed.
  - exists P. frame H; unfold hand; by rewrite Ed.
  - exists P. destruct (txstat_rx (tx_slot s mod TX_SLOTS) (Z.land n 0x1FFF) (card s)) as (E1 & E2 & E3). frame H; unfold hand; by rewrite Ed.
  - exists P. frame H; unfold hand; by rewrite Ed.
  - exists P. destruct (Z.eqb_spec (rx_ready (mb s)) 0) as [E|E]; frame H; unfold hand; by rewrite Ed.
  - exists P. destruct (Z.eqb_spec ((capr (card s) + 16) mod RING) (cbr (card s) mod RING)) as [E|E]; frame H; try (unfold hand; by rewrite Ed).
    unfold driver_inv. cbn. split; [done|]. intros ->. apply E. pose proof (i_ring _ _ H) as Hc. cbn in Hc. unfold position in Hc. rewrite Hc. by rewrite !Zmod_mod.
  - destruct Hd as [Hr HP]. destruct P as [|f P]; [done|]. exists (f :: P). destruct (i_off _ _ H) as [_ Ho]; [by rewrite Ed|].
    destruct (hdr_ok s f Ho (proj1 (i_ring _ _ H))) as [-> ->]. frame H.
    + unfold hand; by rewrite Ed.
    + unfold driver_inv, copying. cbn. eauto 6.
  - done.
  - destruct Hd as (Hr & f & P' & -> & -> & _). exists (f :: P'). destruct (i_off _ _ H) as [_ Ho]; [by rewrite Ed|].
    rewrite (bytes_ok s f Ho (proj1 (i_ring _ _ H))). frame H.
    + unfold hand. cbn. by rewrite Ed, Hr.
    + unfold driver_inv, copying. cbn. split; [done|]. exists f, P'. split_and!; [done|done|]. unfold splice. rewrite take_0. cbn [app]. by rewrite take_app_length.
    + unfold kernel_inv in *. cbn. destruct (kp s); try done. by destruct Hk.
  - destruct Hd as (Hr & f & P' & -> & -> & Hf). exists (f :: P'). pose proof (i_ring _ _ H) as [(Hl & _) _]. frame H.
    + unfold hand. cbn. by rewrite Ed, Hr.
    + unfold driver_inv, copying. cbn. split; [done|]. exists f, P'. split_and!; [done|done|]. unfold mail. cbn.
      replace (Z.to_nat (Z.min (Z.min (Z.max (len f + 4 - 4) 0) 1600) 1600)) with (length f) by (unfold len in *; lia). done.
    + unfold kernel_inv in *. cbn. destruct (kp s); try done. by destruct Hk.
  - destruct Hd as (Hr & f & P' & -> & -> & Hf). exists P'. destruct (i_off _ _ H) as [H4 Ho]; [by rewrite Ed|].
    destruct (after_packet_pos s f H4 Ho) as (A1 & A2 & A3). set (off := after_packet (rx_off s) (len f + 4)) in *.
    destruct (set_capr_rx (capr_of off) (card s)) as (E1 & E2 & E3). pose proof (i_ring _ _ H) as [(Hl & _) HP]. pose proof (need_bounds f Hl) as (Hn & _).
    match goal with |- inv ?x _ => set (s' := x) end.
    assert (position s' = off mod RING) as Ep.
    { unfold position, s'. cbn. rewrite E1. rewrite <- A3. unfold capr_of, wrap. by rewrite Zmod_mod. }
    split.
    + rewrite Ep, A2. apply (holds_same (card s)); [intros j _; apply E3|apply E2|]. apply (holds_cong _ (position s + need f)); [by rewrite Zmod_mod|done].
    + pose proof (i_total _ _ H) as Ht. cbn in Ht. lia.
    + rewrite Ep. unfold RING. clear -A1. dlia.
    + intros _. by split.
    + unfold s'. cbn. rewrite (i_log _ _ H), (hand_empty s) by (done || by rewrite Ed). unfold hand. cbn. by rewrite Hf.
    + done.
    + unfold kernel_inv in *. cbn. done.
  - exists P. frame H.
    + unfold hand. cbn. by rewrite Ed.
    + unfold kernel_inv in *. cbn. destruct (kp s); try done. by destruct Hk.
  - exists P. frame H; unfold hand; by rewrite Ed.
Qed.

Lemma step_inv s s' P : step s s' → inv s P → ∃ P', inv s' P'.
Proof.
  intros Hs H. destruct Hs as [s f Ek|s Ek|s|s|s|s Ed|s f|s].
  - exists P. unfold send. case_match; [done|]. frame H.
  - exists P. unfold recv. destruct (Z.eqb_spec (rx_ready (mb s)) 0) as [|Hr]; [done|]. frame H.
  - exists P. by apply kernel_inv_step.
  - by eapply driver_inv_step.
  - exists P. frame H.
  - exists P. pose proof H as [H1 H2 H3 _ H5 _ H7]. split; try done.
    + intros _. split; [exact H3|]. unfold position. cbn. apply Zmod_mod.
    + cbn. rewrite H5. unfold hand. cbn. by rewrite Ed.
  - pose proof H as [H1 H2 H3 H4 H5 H6 H7]. destruct (accepts f (card s)) eqn:Ea; [|exists P; rewrite receive_drop, app_nil_r by done; by destruct s].
    destruct (receive_holds (card s) P f Ea H1 H2) as [R1 R2]. destruct (receive_regs f (card s) Ea) as [E1 _]. exists (P ++ [f]).
    match goal with |- inv ?x _ => assert (position x = position s) as Ep by (unfold position; cbn; by rewrite E1) end. split; rewrite ?Ep; try done.
    + cbn. rewrite H5. by rewrite <- !app_assoc.
    + unfold driver_inv, copying in *. cbn. destruct (dp s); try done; [by split; [|intros [_ ?]%app_nil]; destruct H6|..];
        destruct H6 as (? & g & P' & -> & ? & ?); (split; [done|]); by exists g, (P' ++ [f]).
  - exists P. destruct (transmit_rx (pages s) (card s)) as (E1 & E2 & E3). frame H.
Qed.

Lemma init_inv c p : capr c = 0xFFF0 → cbr c = 0 → inv (init c p) [].
Proof.
  intros E1 E2. split; cbn; unfold position; cbn; rewrite ?E1; done.
Qed.

(** One round of the loop with an empty mailbox and a packet in the ring. *)
Lemma round_delivers s f P : inv s (f :: P) → dp s = DTop → stop (mb s) = 0 → rx_ready (mb s) = 0 → tx_len (mb s) = 0 →
  let s' := Nat.iter 9 driver_step s in rx_ready (mb s') = 1 ∧ mail (mb s') = f ∧ delivered s' = delivered s.
Proof.
  intros H Ed Es Er Et s'. destruct (i_off _ _ H) as [H4 Ho]; [by rewrite Ed|]. pose proof (i_ring _ _ H) as [Hf HP]. pose proof Hf as (Hl & _). pose proof (i_total _ _ H) as Ht.
  assert (((capr (card s) + 16) mod RING =? cbr (card s) mod RING) = false) as Ene.
  { apply Z.eqb_neq. fold (position s). rewrite (holds_cbr _ _ _ (i_ring _ _ H)), Zmod_mod. cbn. pose proof (total_nonneg _ _ _ HP). pose proof (need_bounds f Hl) as (? & _). cbn in Ht.
    intros E. unfold position, RING in *. dlia. }
  assert (driver_step s = set_d DTx s) as E1 by (unfold driver_step; by rewrite Ed, Es).
  assert (driver_step (set_d DTx s) = set_d DRx s) as E2 by (unfold driver_step; cbn; by rewrite Et).
  assert (driver_step (set_d DRx s) = set_d DRegs s) as E3 by (unfold driver_step; cbn; by rewrite Er).
  assert (driver_step (set_d DRegs s) = set_d DHdr s) as E4 by (unfold driver_step; cbn; by rewrite Ene).
  assert (driver_step (set_d DHdr s) = set_d (DBytes (len f + 4)) s) as E5.
  { unfold driver_step. cbn [dp set_d]. change (ring_at (set_d DHdr s)) with (ring_at s). destruct (hdr_ok s f Ho Hf) as [-> ->]. done. }
  set (n := len f + 4) in *. set (m1 := set_rx_buf (splice 0 f (rx_buf (mb s))) (mb s)). set (m2 := set_rx_len (Z.min (Z.max (n - 4) 0) 1600) m1).
  set (off := after_packet (rx_off s) n).
  assert (driver_step (set_d (DBytes n) s) = set_d (DLen n) (set_mb m1 s)) as E6.
  { unfold driver_step. cbn [dp set_d]. change (ring_at (set_d (DBytes n) s)) with (ring_at s). unfold n at 2. by rewrite (bytes_ok s f Ho Hf). }
  assert (driver_step (set_d (DLen n) (set_mb m1 s)) = set_d (DCapr n) (set_mb m2 s)) as E7 by reflexivity.
  assert (driver_step (set_d (DCapr n) (set_mb m2 s)) = set_d DReady (set_pos (tx_slot s) off (set_card (set_capr (capr_of off) (card s)) (set_mb m2 s)))) as E8 by reflexivity.
  unfold s'. cbn [Nat.iter nat_rect]. rewrite E1, E2, E3, E4, E5, E6, E7, E8. clear -Hl.
  split_and!; [reflexivity| |reflexivity]. change (mail (mb (driver_step _))) with (mail m2). unfold mail, m2, m1, n. cbn [rx_len rx_buf set_rx_len set_rx_buf].
  replace (Z.to_nat (Z.min (Z.min (Z.max (len f + 4 - 4) 0) 1600) 1600)) with (length f) by (unfold len in *; lia). unfold splice. rewrite take_0. cbn [app]. by rewrite take_app_length.
Qed.
End rx.

(** C31: in every run of kernel, driver process and card, with frames arriving at any moment and
    the process stopped and started again at will, the frames that [recv] has returned are the
    first ones the card accepted: each once, byte for byte and in order. No accepted frame is
    lost: the others wait in the mailbox or the ring, and when the mailbox is empty and the
    process runs, one round of its loop puts the next of them into the mailbox. *)
Theorem recv_returns_accepted {C : Type} `{!RtlCard C} (c : C) (p : Z → list Z) (s : sys C)
    (Hcapr : capr c = 0xFFF0) (Hcbr : cbr c = 0) (Hrun : rtc step (init c p) s) :
  ∃ rest, accepted s = delivered s ++ rest ∧
    (rx_ready (mb s) ≠ 0 → ∃ f fs, rest = f :: fs ∧ mail (mb s) = f) ∧
    (dp s = DTop → stop (mb s) = 0 → tx_len (mb s) = 0 → rx_ready (mb s) = 0 → ∀ f fs, rest = f :: fs →
      let s' := Nat.iter 9 driver_step s in rx_ready (mb s') = 1 ∧ mail (mb s') = f).
Proof.
  assert (∃ P, inv s P) as [P H].
  { revert s Hrun. apply (rtc_ind_r (λ s, ∃ P, inv s P)); [exists []; by apply init_inv|]. intros s s' _ Hs [P H]. by eapply step_inv. }
  exists (hand s ++ P). split_and!; [apply H| |].
  - intros Hr. unfold hand. replace (rx_ready (mb s) =? 0) with false by lia. destruct (dp s); by eexists _, P.
  - intros Ed Es Et Er f fs E. rewrite hand_empty in E by (done || by rewrite Ed). cbn in E. subst P. destruct (round_delivers s f fs) as (? & ? & _); done.
Qed.

(** ** A restart and the transmit slots *)

Section tx.
Context {C : Type} `{!RtlCard C}.
Implicit Types (s : sys C) (c : C).

(** Everything but a new frame to send and a stop or start of the process. *)
Inductive quiet : sys C → sys C → Prop :=
| q_recv s : kp s = KIdle → quiet s (recv s)
| q_kernel s : quiet s (kernel_step s)
| q_driver s : quiet s (driver_step s)
| q_receive s f : quiet s (set_log (queued s) (accepted s ++ (if accepts f (card s) then [f] else [])) (delivered s) (set_card (receive f (card s)) s))
| q_transmit s : quiet s (set_card (transmit (pages s) (card s)) s).

Definition kernel_sends s : bool := match kp s with KSpin _ _ | KFill _ | KPost _ => true | _ => false end.
Definition driver_sends s : bool := match dp s with DOwn _ _ | DCopy _ | DTsd _ => true | _ => false end.

(** Before the frame is posted, while it waits for the card, and after. *)
Definition phase s : Prop :=
  (tx_slot s = 0 ∧ tx_len (mb s) = 0 ∧ driver_sends s = false ∧ dp s ≠ DAck) ∨
  (tx_slot s = 0 ∧ tx_len (mb s) ≠ 0 ∧ kernel_sends s = false ∧ dp s ≠ DAck) ∨
  (tx_slot s = 1 ∧ kernel_sends s = false ∧ driver_sends s = false ∧ (dp s = DAck ∨ tx_len (mb s) = 0)).

(** The card waits for slot [k], which is not the one the process uses first. *)
Record muted (k : Z) (w : list (list Z)) s : Prop := mkMuted {
  m_slot : 1 ≤ k < 4;
  m_cur : cur_tx (card s) = k;
  m_wire : on_wire (card s) = w;
  m_own j : 1 ≤ j < 4 → own (card s) j = true;
  m_phase : phase s }.

Lemma phase_kernel s : phase s → phase (kernel_step s).
Proof.
  unfold phase, kernel_step, kernel_sends, driver_sends. destruct (kp s) as [|f n|f|f| |q] eqn:Ek; rewrite ?Ek; [done|..].
  - intros [(H1 & H2 & H3)|[(_ & _ & ? & _)|(_ & ? & _)]]; [|done..]. left. rewrite H2. done.
  - intros [(H1 & H2 & H3)|[(_ & _ & ? & _)|(_ & ? & _)]]; [|done..]. by left.
  - intros [(H1 & H2 & H3 & H4)|[(_ & _ & ? & _)|(_ & ? & _)]]; [|done..]. destruct (decide (len f = 0)); [left|right; left]; done.
  - done.
  - done.
Qed.

Definition neutral (d : dpc) : bool := match d with DOwn _ _ | DCopy _ | DTsd _ | DAck => false | _ => true end.

Lemma phase_neutral s s' : tx_slot s' = tx_slot s → tx_len (mb s') = tx_len (mb s) → kp s' = kp s →
  neutral (dp s) = true → neutral (dp s') = true → phase s → phase s'.
Proof.
  intros E1 E2 E3 Hn Hn'. unfold phase, kernel_sends. rewrite E1, E2, E3. assert (driver_sends s' = false ∧ dp s' ≠ DAck) as [-> ?] by (unfold driver_sends; by destruct (dp s')).
  intros [(?&?&?&?)|[(?&?&?&?)|(?&?&?&[Ed|?])]]; [left|right; left|by rewrite Ed in Hn|right; right]; split_and!; auto.
Qed.

(** While the process sends, the frame is in the mailbox. *)
Lemma phase_sending s : phase s → driver_sends s = true → tx_slot s = 0 ∧ tx_len (mb s) ≠ 0 ∧ kernel_sends s = false.
Proof. intros [(?&?&?&?)|[(?&?&?&?)|(?&?&?&_)]] Hd; [congruence|done|congruence]. Qed.

Lemma phase_sends s d : phase s → driver_sends s = true → d ≠ DAck → phase (set_d d s).
Proof. intros H Hd Hn. destruct (phase_sending s H Hd) as (?&?&?). right. left. done. Qed.

Lemma phase_driver s : phase s → phase (driver_step s).
Proof.
  intros H. unfold driver_step. destruct (dp s) eqn:Ed.
  all: try (repeat case_match; (done || (apply (phase_neutral s); [done|done|done|by rewrite Ed|done|done]))).
  - destruct (Z.eqb_spec (tx_len (mb s)) 0) as [E|E]; [apply (phase_neutral s); [done|done|done|by rewrite Ed|done|done]|].
    right. left. destruct H as [(?&?&_)|[(?&?&?&?)|(?&?&?&[?|?])]]; try done; congruence.
  - assert (driver_sends s = true) as Hs by (unfold driver_sends; by rewrite Ed). destruct (own _ _); [|destruct k]; by apply phase_sends.
  - assert (driver_sends s = true) as Hs by (unfold driver_sends; by rewrite Ed). destruct (phase_sending s H Hs) as (?&?&?). right. left. done.
  - assert (driver_sends s = true) as Hs by (unfold driver_sends; by rewrite Ed). destruct (phase_sending s H Hs) as (E&?&?). right. right.
    split_and!; [cbn; by rewrite E|done|done|by left].
  - destruct H as [(?&?&?&?)|[(?&?&?&?)|(?&?&?&_)]]; try congruence. right. right. split_and!; [done|done|done|by right].
Qed.

Lemma muted_quiet k w s s' : quiet s s' → muted k w s → muted k w s'.
Proof.
  intros Hq [H1 H2 H3 H4 H5]. destruct Hq as [s Ek|s|s|s f|s].
  - unfold recv. case_match; split; try done. unfold phase, kernel_sends in *. cbn. by rewrite Ek in H5.
  - assert (card (kernel_step s) = card s) as Ec by (unfold kernel_step; repeat case_match; done). split; rewrite ?Ec; try done. by apply phase_kernel.
  - assert (cur_tx (card (driver_step s)) = cur_tx (card s) ∧ on_wire (card (driver_step s)) = on_wire (card s) ∧
      ∀ j, 1 ≤ j < 4 → own (card (driver_step s)) j = own (card s) j) as (E1 & E2 & E3).
    { unfold driver_step. destruct (dp s) eqn:Ed; try (repeat case_match; done); cbn.
      - assert (tx_slot s = 0) as -> by (apply (phase_sending s H5); unfold driver_sends; by rewrite Ed).
        destruct (txstat_tx (0 mod TX_SLOTS) (Z.land n 0x1FFF) (card s)) as (_ & E & -> & ->). split_and!; [done|done|]. intros j Hj. apply E. change (0 mod TX_SLOTS) with 0. lia.
      - destruct (set_capr_tx (capr_of (after_packet (rx_off s) pkt_len)) (card s)) as (? & -> & ->). done.
      - destruct (set_capr_tx (capr_of (after_packet (rx_off s) pkt_len)) (card s)) as (? & -> & ->). done. }
    split; [done|congruence|congruence|intros j Hj; rewrite E3; auto|by apply phase_driver].
  - destruct (receive_tx f (card s)) as (E1 & E2 & E3). split; cbn; [done|congruence|congruence|intros j Hj; rewrite E1; auto|done].
  - rewrite (transmit_wait (pages s) (card s)) by (rewrite H2; auto). by destruct s.
Qed.
End tx.

(** a restarted driver process begins with transmit slot 0 whatever slot the card sends
    next. When that is another one, a frame given to [send] never leaves, however long kernel,
    process and card run, until further frames are sent. *)
Theorem restart_mutes_frame {C : Type} `{!RtlCard C} (s s' : sys C) (f : list Z)
    (Hidle : kp s = KIdle) (Hempty : tx_len (mb s) = 0) (Hfree : ∀ j, 0 ≤ j < 4 → own (card s) j = true) (Hcur : 1 ≤ cur_tx (card s) < 4)
    (Hrun : rtc quiet (send f (start_service s)) s') : on_wire (card s') = on_wire (card s).
Proof.
  assert (muted (cur_tx (card s)) (on_wire (card s)) s') as Hm; [|apply Hm].
  revert s' Hrun. apply rtc_ind_r; [|intros x y _ Hq Hx; by eapply muted_quiet].
  assert (muted (cur_tx (card s)) (on_wire (card s)) (start_service s)) as Hm.
  { split; try done; [intros j Hj; apply Hfree; lia|]. by left. }
  unfold send. case_match; [done|]. destruct Hm as [? ? ? ? _]. split; try done. by left.
Qed.

(** ** A card *)

Module TestCard.
Record t := mk { raw_capr : Z; raw_cbr : Z; bytes : Z → Z; free : Z → bool; lens : Z → Z; cur : Z; wire : list (list Z) }.

Definition cbr_ (c : t) : Z := 4 * (raw_cbr c mod 16384).
Definition packet (f : list Z) : list Z := [1; 0; (len f + 4) mod 256; (len f + 4) / 256] ++ f.
Definition accepts_ (f : list Z) (c : t) : bool :=
  (14 <=? len f) && (len f <=? 1514) && ((cbr_ c - (raw_capr c mod RING + 16)) mod RING + need f <? RING).
Definition receive_ (f : list Z) (c : t) : t :=
  if accepts_ f c then
    mk (raw_capr c) (raw_cbr c + need f / 4)
      (λ o, let j := (o - cbr_ c) mod RING in if j <? need f then nth (Z.to_nat j) (packet f) 0 else bytes c o) (free c) (lens c) (cur c) (wire c)
  else c.
Definition transmit_ (p : Z → list Z) (c : t) : t :=
  if free c (cur c) then c
  else mk (raw_capr c) (raw_cbr c) (bytes c) (λ i, (i =? cur c) || free c i) (lens c) ((cur c + 1) mod TX_SLOTS)
         (wire c ++ [take (Z.to_nat (lens c (cur c))) (p (cur c))]).

Lemma packet_byte f c j : accepts_ f c = true → 0 ≤ j < 4 + len f → bytes (receive_ f c) ((cbr_ c + j) mod RING) = nth (Z.to_nat j) (packet f) 0.
Proof.
  intros Ha Hj. unfold receive_. rewrite Ha. cbn -[nth packet]. rewrite Zminus_mod_idemp_l. replace (cbr_ c + j - cbr_ c) with j by lia.
  unfold accepts_ in Ha. assert (14 ≤ len f ≤ 1514) as Hl by lia. pose proof (need_bounds f Hl). unfold RING. rewrite Z.mod_small by lia. by replace (j <? need f) with true by lia.
Qed.

#[global] Program Instance test_card : RtlCard t := {|
  capr c := raw_capr c mod RING; cbr := cbr_; ring_byte := bytes; own := free; cur_tx := cur; on_wire := wire;
  set_capr v c := mk (u16 v) (raw_cbr c) (bytes c) (free c) (lens c) (cur c) (wire c);
  set_txstat i n c := mk (raw_capr c) (raw_cbr c) (bytes c) (λ j, negb (j =? i) && free c j) (λ j, if j =? i then n else lens c j) (cur c) (wire c);
  receive := receive_; transmit := transmit_; accepts := accepts_ |}.
Next Obligation. intros c. cbn beta. unfold RING, cbr_. pose proof (Z.mod_pos_bound (raw_capr c) 65536). pose proof (Z.mod_pos_bound (raw_cbr c) 16384). split_and!; [lia..|]. rewrite Z.mul_comm. by apply Z.mod_mul. Qed.
Next Obligation. intros v c. cbn. split_and!; [|done|done]. unfold wrap. by rewrite Zmod_mod. Qed.
Next Obligation. done. Qed.
Next Obligation. done. Qed.
Next Obligation. intros i n c. cbn. rewrite Z.eqb_refl. split_and!; [done| |done|done]. intros j Hj. by replace (j =? i) with false by lia. Qed.
Next Obligation. intros f c Ha. unfold accepts_ in Ha. lia. Qed.
Next Obligation. intros f c Ha. unfold receive_. by rewrite Ha. Qed.
Next Obligation. intros f c Ha. unfold receive_. rewrite Ha. split; [done|]. unfold cbr_, need, RING. cbn. dlia. Qed.
Next Obligation.
  intros f c Ha. pose proof (packet_byte f c 0 Ha) as B0. rewrite Z.add_0_r, (Z.mod_small (cbr_ c)) in B0 by (unfold cbr_, RING; dlia).
  unfold accepts_ in Ha. assert (14 ≤ len f ≤ 1514) as Hl by lia. split_and!.
  - rewrite B0 by lia. done.
  - rewrite !packet_byte by (unfold accepts_; lia). change (nth (Z.to_nat 2) (packet f) 0) with ((len f + 4) mod 256).
    change (nth (Z.to_nat 3) (packet f) 0) with ((len f + 4) / 256). dlia.
  - intros i x Hi. rewrite <- Z.add_assoc, packet_byte; [|unfold accepts_; lia|apply lookup_lt_Some in Hi; unfold len in *; lia].
    replace (Z.to_nat (4 + Z.of_nat i)) with (4 + i)%nat by lia. cbn [packet app nth Nat.add]. by apply nth_lookup_Some.
Qed.
Next Obligation. intros f c o Ha Ho Hn. unfold receive_. rewrite Ha. cbn -[nth]. by replace ((o - cbr_ c) mod RING <? need f) with false by lia. Qed.
Next Obligation. intros f c. unfold receive_. by destruct (accepts_ f c). Qed.
Next Obligation. intros p c. unfold transmit_. by destruct (free c (cur c)). Qed.
Next Obligation. intros p c H. unfold transmit_. cbn in H. by rewrite H. Qed.
Next Obligation.
  intros p c H. unfold transmit_. cbn in H. rewrite H. cbn. rewrite Z.eqb_refl. split_and!; [done| |done|by eexists]. intros i Hi. by replace (i =? cur c) with false by lia.
Qed.

Definition fresh (k : Z) : t := mk 0xFFF0 0 (λ _, 0) (λ _, true) (λ _, 0) k [].
End TestCard.

Lemma rtc_driver {C : Type} `{!RtlCard C} n (s : sys C) : rtc step s (Nat.iter n driver_step s).
Proof. induction n as [|n IH]; [apply rtc_refl|]. eapply rtc_r; [exact IH|]. apply s_driver. Qed.

Definition demo_frame : list Z := seqZ 1 20.
Definition demo_rx : sys TestCard.t :=
  let s := init (TestCard.fresh 0) (λ _, []) in
  Nat.iter 9 driver_step (set_log (queued s) (accepted s ++ (if accepts demo_frame (card s) then [demo_frame] else [])) (delivered s) (set_card (receive demo_frame (card s)) s)).
Definition demo_end : sys TestCard.t := kernel_step (kernel_step (recv demo_rx)).

Lemma recv_returns_accepted_witness : ∃ rest, [demo_frame] = [demo_frame] ++ rest ∧ delivered demo_end = [demo_frame] ∧ accepted demo_end = [demo_frame].
Proof.
  assert (delivered demo_end = [demo_frame]) as Ed by (vm_compute; reflexivity). assert (accepted demo_end = [demo_frame]) as Ea by (vm_compute; reflexivity).
  destruct (recv_returns_accepted (TestCard.fresh 0) (λ _, []) demo_end) as (rest & E & _); [reflexivity|reflexivity| |].
  - transitivity demo_rx; [eapply rtc_l; [apply (s_receive _ demo_frame)|apply rtc_driver]|].
    eapply rtc_l; [apply s_recv; vm_compute; reflexivity|]. eapply rtc_l; [apply s_kernel|]. eapply rtc_l; [apply s_kernel|]. apply rtc_refl.
  - exists rest. rewrite Ed, Ea in E. split; [exact E|]. split; [exact Ed|exact Ea].
Defined.

(** One frame was sent before the restart: the card is at slot 1. *)
Lemma restart_mutes_frame_witness : ∃ s' : sys TestCard.t,
  rtc quiet (send demo_frame (start_service (set_d DExit (init (TestCard.fresh 1) (λ _, []))))) s' ∧ on_wire (card s') = [].
Proof.
  eexists. assert (rtc quiet (send demo_frame (start_service (set_d DExit (init (TestCard.fresh 1) (λ _, [])))))
    (kernel_step (send demo_frame (start_service (set_d DExit (init (TestCard.fresh 1) (λ _, []))))))) as Hr.
  { apply rtc_once, q_kernel. }
  split; [exact Hr|]. apply (restart_mutes_frame (set_d DExit (init (TestCard.fresh 1) (λ _, []))) _ demo_frame) in Hr; [exact Hr|reflexivity|reflexivity|intros; reflexivity|cbn; lia].
Defined.
