(* ===== verification/E1000.v ===== *)
(** The Intel 82540EM network card ([kernel/src/e1000.rs]): its descriptor rings, [send] and
    [recv], and the values [init] and [force_init] read and program.

    The card is a parameter, the class [E1000Card]: what the manual says it does with a frame
    that arrives. Waiting loops and logging are left out. *)

From stdpp Require Import prelude list numbers strings.
From S2P Require Import Prelude Text Memory Firmware.

Local Open Scope Z_scope.

Definition RING : Z := 8.
Definition RX_DD : Z := 1.
Definition TX_DD : Z := 1.
Definition TX_CMD : Z := Z.lor (Z.lor 1 2) 8.   (** EOP, IFCS, RS *)

Record RxDesc := mkRx { rx_addr : Z; rx_len : Z; rx_status : Z }.
Record TxDesc := mkTx { tx_addr : Z; tx_len : Z; tx_cmd : Z; tx_status : Z }.

(** [E1000] with the memory its descriptors and buffers are in and the ring registers. *)
Record E1000 := mkE1000 {
  mac : list Z; ram : memory;
  rx_desc : list RxDesc; rx_bufs : list Z; rx_tail : Z; RDH : Z; RDT : Z;
  tx_desc : list TxDesc; tx_tail : Z; TDT : Z }.

Definition set_rx (d : list RxDesc) (tail rdt : Z) (s : E1000) : E1000 :=
  mkE1000 (mac s) (ram s) d (rx_bufs s) tail (RDH s) rdt (tx_desc s) (tx_tail s) (TDT s).
Definition set_tx (d : list TxDesc) (tail tdt : Z) (s : E1000) : E1000 :=
  mkE1000 (mac s) (ram s) (rx_desc s) (rx_bufs s) (rx_tail s) (RDH s) (RDT s) d tail tdt.

(** ** Sending *)

(** [data_phys]: the slice's address less the direct map's offset. *)
Definition send (data_phys n : Z) (s : E1000) : E1000 :=
  if 4096 <? n then s
  else
    let idx := tx_tail s mod RING in
    let tail := (tx_tail s + 1) mod RING in
    set_tx (<[Z.to_nat idx := mkTx data_phys (u16 n) TX_CMD 0]> (tx_desc s)) tail tail s.

(** ** Receiving *)

(** The first descriptor from [rx_tail] on that is done. *)
Fixpoint find_done (n : nat) (i : Z) (s : E1000) : option Z :=
  match n with
  | O => None
  | S n =>
    let idx := (rx_tail s + i) mod RING in
    match rx_desc s !! Z.to_nat idx with
    | Some d => if Z.land (rx_status d) RX_DD =? 0 then find_done n (i + 1) s else Some idx
    | None => None
    end
  end.

(** Re-arm: the status cleared, the tail moved on and told to the card. *)
Definition rearm (idx : Z) (d : RxDesc) (s : E1000) : E1000 :=
  let tail := (idx + 1) mod RING in
  set_rx (<[Z.to_nat idx := mkRx (rx_addr d) (rx_len d) 0]> (rx_desc s)) tail tail s.

Definition recv (s : E1000) : option (list Z) * E1000 :=
  match find_done (Z.to_nat RING) 0 s with
  | None => (None, s)
  | Some idx =>
    match rx_desc s !! Z.to_nat idx, rx_bufs s !! Z.to_nat idx with
    | Some d, Some buf =>
      if rx_len d <? 14 then (None, rearm idx d s) else (Some (peek (ram s) buf (Z.to_nat (rx_len d))), rearm idx d s)
    | _, _ => (None, s)
    end
  end.

(** ** Bring-up *)

(** The variants [init] takes. *)
Definition DEVICE_IDS : list Z := [0x100E; 0x100F; 0x1010; 0x1011; 0x1026; 0x1027; 0x1028; 0x1075; 0x1076; 0x1077; 0x1078; 0x1079; 0x107A; 0x107B].
Definition is_e1000 (d : PciDevice) : bool := (vendor_id d =? 0x8086) && bool_decide (device_id d ∈ DEVICE_IDS).

(** Where the registers are: a 64-bit BAR takes two. *)
Definition bar_phys (bar0 bar1 : Z) : Z :=
  if Z.land bar0 0x6 =? 0x4 then Z.lor (u64 (Z.shiftl bar1 32)) (Z.land bar0 (Z.lnot 0xF)) else Z.land bar0 (Z.lnot 0xF).

Definition mac_of (ral rah : Z) : list Z :=
  [u8 (Z.land ral 0xFF); u8 (Z.land (Z.shiftr ral 8) 0xFF); u8 (Z.land (Z.shiftr ral 16) 0xFF); u8 (Z.shiftr ral 24); u8 (Z.land rah 0xFF); u8 (Z.land (Z.shiftr rah 8) 0xFF)].

(** The rings as [init] leaves them, with the pages [bufs] for the payloads. *)
Definition init_rings (m : memory) (ral rah : Z) (bufs : list Z) : E1000 :=
  mkE1000 (mac_of ral rah) m ((λ a, mkRx a 0 0) <$> bufs) bufs 0 0 (RING - 1) (replicate (Z.to_nat RING) (mkTx 0 0 0 TX_DD)) 0 0.

(** ** The card *)

(** A frame put into the descriptor at the head. *)
Definition stored (f : list Z) (s : E1000) : E1000 :=
  match rx_desc s !! Z.to_nat (RDH s) with
  | Some d =>
    mkE1000 (mac s) (poke (ram s) (rx_addr d) f) (<[Z.to_nat (RDH s) := mkRx (rx_addr d) (len f) RX_DD]> (rx_desc s)) (rx_bufs s) (rx_tail s)
      ((RDH s + 1) mod RING) (RDT s) (tx_desc s) (tx_tail s) (TDT s)
  | None => s
  end.

(** The card owns the descriptors from the head up to, not including, the tail. With none it
    drops the frame, else a frame that fits one buffer goes into the first. *)
Class E1000Card := {
  arrive : list Z → E1000 → E1000;
  arrive_full f s : RDH s = RDT s → arrive f s = s;
  arrive_stores f s : RDH s ≠ RDT s → len f ≤ 2048 → arrive f s = stored f s }.
