(* ===== verification/E1000Spec.v ===== *)
(** What the e1000 driver receives: the frames the card stored, in order, and nothing more
    once it has caught up with the card. *)

From Stdlib Require Import ZifyBool.
From stdpp Require Import prelude list numbers strings.
From S2P Require Import Prelude Text Memory Firmware E1000.

Local Open Scope Z_scope.

Section rx.
Context `{!E1000Card}.
Implicit Types (s : E1000) (P : list (list Z)).

(** The [i]-th descriptor from the driver's position. *)
Definition slot s (i : Z) : nat := Z.to_nat ((rx_tail s + i) mod RING).

(** Eight descriptors, each with a page of its own. *)
Record rings_ok s : Prop := mkRingsOk {
  ok_tail : 0 ≤ rx_tail s < RING;
  ok_desc : length (rx_desc s) = 8%nat;
  ok_bufs : length (rx_bufs s) = 8%nat;
  ok_addr k d : rx_desc s !! k = Some d → rx_bufs s !! k = Some (rx_addr d);
  ok_apart j k a b : rx_bufs s !! j = Some a → rx_bufs s !! k = Some b → j ≠ k → a + 2048 ≤ b ∨ b + 2048 ≤ a }.

(** The descriptor in slot [k] holds the frame [f]. *)
Definition filled s (k : nat) (f : list Z) : Prop :=
  len f ≤ 2048 ∧ ∃ a, rx_desc s !! k = Some (mkRx a (len f) RX_DD) ∧ peek (ram s) a (length f) = f.
Definition vacant s (k : nat) : Prop := ∃ a n, rx_desc s !! k = Some (mkRx a n 0).

(** [P] waits to be received; [fresh]: nothing was taken yet. *)
Record pending s P (fresh : bool) : Prop := mkPending {
  p_ok : rings_ok s;
  p_filled i f : P !! i = Some f → filled s (slot s (Z.of_nat i)) f;
  p_vacant i : len P ≤ i < RING → vacant s (slot s i);
  p_head : RDH s = (rx_tail s + len P) mod RING;
  p_tail : if fresh then rx_tail s = 0 ∧ RDT s = 7 ∧ len P ≤ 7 else RDT s = rx_tail s ∧ len P ≤ 8 }.

Lemma slot_inj s i j : 0 ≤ rx_tail s → 0 ≤ i < RING → 0 ≤ j < RING → slot s i = slot s j → i = j.
Proof. unfold slot, RING. intros. dlia. Qed.
Lemma slot_lt s i : (slot s i < 8)%nat.
Proof. unfold slot, RING. dlia. Qed.

Lemma find_done_vacant s n i : 0 ≤ i → i + Z.of_nat n ≤ RING → (∀ j, i ≤ j < RING → vacant s (slot s j)) → find_done n i s = None.
Proof.
  revert i. induction n as [|n IH]; intros i Hi Hn Hv; [done|]. cbn [find_done]. fold (slot s i). destruct (Hv i) as (a & m & ->); [lia|]. cbn. apply IH; [lia|lia|].
  intros j Hj. apply Hv. lia.
Qed.

Lemma recv_empty s fresh : pending s [] fresh → recv s = (None, s).
Proof. intros [H1 _ H3 _ _]. unfold recv. rewrite (find_done_vacant s); [done|lia|done|]. intros j Hj. apply H3. unfold len. cbn. lia. Qed.

Lemma slot_0 s : rings_ok s → slot s 0 = Z.to_nat (rx_tail s).
Proof. intros [[? ?] _ _ _ _]. unfold slot, RING in *. rewrite Z.add_0_r, Z.mod_small by lia. done. Qed.

(** Taking the first frame. *)
Lemma recv_first s f P fresh : pending s (f :: P) fresh → ∃ s', recv s = (if len f <? 14 then None else Some f, s') ∧ pending s' P false.
Proof.
  intros [Hok Hf Hv Hh Ht]. pose proof Hok as [Htl Hd Hb Ha Hap]. destruct (Hf 0%nat f eq_refl) as (Hl & a & Ed & Ep). change (Z.of_nat 0) with 0 in Ed.
  assert (find_done (Z.to_nat RING) 0 s = Some (rx_tail s)) as Ef.
  { change (Z.to_nat RING) with 8%nat. cbn [find_done]. fold (slot s 0). rewrite Ed. cbn. f_equal. rewrite Z.add_0_r. by apply Z.mod_small. }
  rewrite (slot_0 s Hok) in Ed. pose proof (Ha _ _ Ed) as Eb. cbn in Eb.
  exists (rearm (rx_tail s) (mkRx a (len f) RX_DD) s). split.
  { unfold recv. rewrite Ef, Ed, Eb. cbn [rx_len]. destruct (len f <? 14); [done|]. do 2 f_equal. unfold len. by rewrite Nat2Z.id. }
  assert (∀ i, slot (rearm (rx_tail s) (mkRx a (len f) RX_DD) s) i = slot s (i + 1)) as Es.
  { intros i. unfold slot, rearm. cbn. rewrite Zplus_mod_idemp_l. do 2 f_equal. lia. }
  assert (∀ k, k ≠ Z.to_nat (rx_tail s) → rx_desc (rearm (rx_tail s) (mkRx a (len f) RX_DD) s) !! k = rx_desc s !! k) as Ek.
  { intros k Hk. cbn. by apply list_lookup_insert_ne. }
  assert (∀ i, 0 ≤ i < RING → i ≠ 0 → slot s i ≠ Z.to_nat (rx_tail s)) as Hne.
  { intros i Hi Hi0 E. rewrite <- (slot_0 s Hok) in E. apply slot_inj in E; [done|lia|done|unfold RING; lia]. }
  assert (len (f :: P) = len P + 1) as Elen by (unfold len; cbn; lia). assert (len P + 1 ≤ 8) as HP by (destruct fresh; lia).
  split.
  - split; [cbn; unfold RING; dlia|cbn; by rewrite length_insert|done| |exact Hap].
    intros k d Hk. destruct (decide (k = Z.to_nat (rx_tail s))) as [->|Hn]; [|rewrite Ek in Hk by done; by apply Ha].
    cbn in Hk. rewrite list_lookup_insert_eq in Hk by (rewrite Hd; unfold RING in *; lia). injection Hk as <-. done.
  - intros i g Hg. rewrite Es. destruct (Hf (S i) g Hg) as (Hgl & b & Eb' & Epb). replace (Z.of_nat (S i)) with (Z.of_nat i + 1) in Eb' by lia.
    split; [done|]. exists b. split; [|done]. apply lookup_lt_Some in Hg. rewrite Ek; [done|]. apply Hne; unfold len, RING in *; lia.
  - intros i Hi. unfold vacant. rewrite Es. unfold RING in Hi. destruct (decide (i = 7)) as [->|].
    + assert (slot s (7 + 1) = Z.to_nat (rx_tail s)) as -> by (unfold slot, RING in *; dlia). exists a, (len f). cbn. apply list_lookup_insert_eq. rewrite Hd. unfold RING in *. lia.
    + rewrite Ek by (apply Hne; unfold RING, len in *; lia). apply Hv. unfold RING. lia.
  - cbn. rewrite Hh, Zplus_mod_idemp_l. f_equal. lia.
  - cbn. split; [done|lia].
Qed.

(** A frame that arrives. *)
Lemma arrive_pending s P fresh f : pending s P fresh → len f ≤ 2048 → RDH s ≠ RDT s → pending (arrive f s) (P ++ [f]) fresh.
Proof.
  intros [Hok Hf Hv Hh Ht] Hl Hne. rewrite arrive_stores by done. pose proof Hok as [Htl Hd Hb Ha Hap].
  assert (len P < 8 ∧ (fresh = true → len P < 7)) as [Hm Hm7] by (destruct fresh; unfold len, RING in *; [destruct Ht as (E1 & E2 & ?)|destruct Ht as [E2 ?]]; rewrite Hh, E2 in Hne; dlia).
  destruct (Hv (len P)) as (a & n & Ed); [unfold RING; lia|]. assert (Z.to_nat (RDH s) = slot s (len P)) as Er by (by rewrite Hh).
  pose proof (Ha _ _ Ed) as Eb. cbn in Eb. unfold stored. rewrite Er, Ed. cbn [rx_addr].
  match goal with |- pending ?x _ _ => set (s' := x) end.
  assert (∀ i, slot s' i = slot s i) as Es by done.
  assert (∀ i, 0 ≤ i < RING → i ≠ len P → rx_desc s' !! slot s i = rx_desc s !! slot s i) as Ek.
  { intros i Hi Hn. unfold s'. cbn. apply list_lookup_insert_ne. intros E. apply Hn. symmetry in E. apply slot_inj in E; unfold len, RING in *; lia. }
  assert (rx_desc s' !! slot s (len P) = Some (mkRx a (len f) RX_DD)) as Enew by (apply list_lookup_insert_eq; rewrite Hd; apply slot_lt).
  split.
  - split; [done|unfold s'; cbn; by rewrite length_insert|done| |exact Hap].
    intros k d Hk. unfold s' in Hk. cbn in Hk. destruct (decide (k = slot s (len P))) as [->|]; [|rewrite list_lookup_insert_ne in Hk by done; by apply Ha].
    rewrite list_lookup_insert_eq in Hk by (rewrite Hd; apply slot_lt). by injection Hk as <-.
  - intros i g Hg. rewrite Es. apply lookup_app_Some in Hg as [Hg|[Hi Hg]].
    + destruct (Hf i g Hg) as (Hgl & b & Ebd & Epb). split; [done|]. exists b. assert (i < length P)%nat as Hlt by (by eapply lookup_lt_Some).
      rewrite Ek by (unfold len, RING in *; lia). split; [done|]. pose proof (Ha _ _ Ebd) as Ebb. cbn in Ebb.
      unfold s'. cbn. rewrite peek_poke_out; [done|]. destruct (Hap _ _ _ _ Ebb Eb) as [|]; [|unfold len in *; lia..].
      intros E. apply slot_inj in E; unfold len, RING in *; lia.
    + apply list_lookup_singleton_Some in Hg as [Hi' <-]. assert (Z.of_nat i = len P) as -> by (unfold len; lia). split; [done|]. exists a. split; [done|]. apply peek_poke_same.
  - intros i Hi. unfold vacant. rewrite Es. unfold len in Hi. rewrite length_app in Hi. cbn in Hi. rewrite Ek by (unfold len, RING in *; lia). apply Hv. unfold len. lia.
  - unfold s'. cbn. rewrite Hh, Zplus_mod_idemp_l. f_equal. unfold len. rewrite length_app. cbn. lia.
  - unfold s'. cbn. unfold len in *. rewrite length_app. cbn. destruct fresh; lia.
Qed.

(** ** Runs

    The card with the frames it has stored and those [recv] has returned. *)
Definition run_state := (E1000 * list (list Z) * list (list Z))%type.

Inductive nic_step : run_state → run_state → Prop :=
| n_arrive s acc got f : len f ≤ 2048 → nic_step (s, acc, got) (arrive f s, if decide (RDH s = RDT s) then acc else acc ++ [f], got)
| n_recv s acc got : nic_step (s, acc, got) (snd (recv s), acc, got ++ option_list (fst (recv s))).

(** Frames shorter than an Ethernet header are dropped. *)
Definition proper (f : list Z) : Prop := 14 ≤ len f.
#[local] Instance proper_dec f : Decision (proper f).
Proof. unfold proper. apply _. Defined.

(** [taken] left the ring, [P] is in it. *)
Definition run_inv (x : run_state) : Prop :=
  let '(s, acc, got) := x in
  ∃ taken P fresh, pending s P fresh ∧ acc = taken ++ P ∧ got = filter proper taken ∧ (taken ≠ [] → fresh = false).

Lemma run_inv_step x y : nic_step x y → run_inv x → run_inv y.
Proof.
  intros [s acc got f Hl|s acc got] (taken & P & fresh & Hp & -> & -> & Hf).
  - destruct (decide (RDH s = RDT s)) as [E|E]; [rewrite arrive_full by done; by exists taken, P, fresh|].
    exists taken, (P ++ [f]), fresh. split_and!; [by apply arrive_pending|by rewrite app_assoc|done|done].
  - destruct P as [|f P].
    + rewrite (recv_empty s fresh Hp). exists taken, [], fresh. cbn. by rewrite !app_nil_r.
    + destruct (recv_first s f P fresh Hp) as (s' & -> & Hp'). exists (taken ++ [f]), P, false. split_and!; [done|by rewrite <- app_assoc| |done].
      rewrite filter_app. f_equal. cbn [fst]. destruct (Z.ltb_spec (len f) 14) as [Hs|Hs].
      * by rewrite filter_cons_False by (unfold proper; lia).
      * by rewrite filter_cons_True by (unfold proper; lia).
Qed.

Lemma init_pending m ral rah bufs : length bufs = 8%nat →
  (∀ j k a b, bufs !! j = Some a → bufs !! k = Some b → j ≠ k → a + 2048 ≤ b ∨ b + 2048 ≤ a) → pending (init_rings m ral rah bufs) [] true.
Proof.
  intros Hl Hap. split; [| |intros i _|done|done].
  - split; [done|cbn; by rewrite length_fmap|done| |done]. intros k d Hk. cbn in Hk. rewrite list_lookup_fmap in Hk. cbn. by destruct (bufs !! k); [injection Hk as <-|].
  - done.
  - destruct (lookup_lt_is_Some_2 bufs (slot (init_rings m ral rah bufs) i)) as [a Ea]; [rewrite Hl; apply slot_lt|]. exists a, 0. cbn [rx_desc init_rings]. by rewrite list_lookup_fmap, Ea.
Qed.

(** Caught up with the card, nothing changes any more. *)
Lemma deaf_step s acc got y : pending s [] false → nic_step (s, acc, got) y → y = (s, acc, got).
Proof.
  intros Hp Hs. pose proof (p_head _ _ _ Hp) as Eh. pose proof (p_tail _ _ _ Hp) as [Et _]. pose proof (p_ok _ _ _ Hp) as [Htl _ _ _ _].
  assert (RDH s = RDT s) as E by (rewrite Eh, Et; unfold len; cbn; rewrite Z.add_0_r; by apply Z.mod_small).
  inversion Hs as [? ? ? f Hl|]; subst; [by rewrite arrive_full, decide_True|]. rewrite (recv_empty s false Hp). cbn. by rewrite app_nil_r.
Qed.
End rx.

(** C37: the frames [recv] returns are the ones the card stored, in order and each once, less
    those shorter than a header. But [recv] gives the tail register the slot after the one it
    emptied instead of that one: when the driver has taken a first frame and then all there
    are, head and tail are equal, the card has no descriptor, and no frame is ever received
    again, however many arrive and however often the driver polls. *)
Theorem drained_ring_is_deaf `{!E1000Card} (m : memory) (ral rah : Z) (bufs : list Z) (s : E1000) (acc got : list (list Z))
    (Hbufs : length bufs = 8%nat) (Hapart : ∀ j k a b, bufs !! j = Some a → bufs !! k = Some b → j ≠ k → a + 2048 ≤ b ∨ b + 2048 ≤ a)
    (Hrun : rtc nic_step (init_rings m ral rah bufs, [], []) (s, acc, got)) :
  ∃ taken rest, acc = taken ++ rest ∧ got = filter proper taken ∧
    (taken ≠ [] → rest = [] → ∀ s' acc' got', rtc nic_step (s, acc, got) (s', acc', got') → acc' = acc ∧ got' = got ∧ recv s' = (None, s')).
Proof.
  assert (run_inv (s, acc, got)) as (taken & P & fresh & Hp & -> & -> & Hf).
  { revert Hrun. generalize (s, acc, got). apply rtc_ind_r; [|intros x y _ Hs Hx; by eapply run_inv_step].
    exists [], [], true. split_and!; [by apply init_pending|done|done|done]. }
  exists taken, P. split_and!; [done|done|]. intros Ht -> s' acc' got' Hr. rewrite (Hf Ht) in Hp.
  assert ((s', acc', got') = (s, taken ++ [], filter proper taken)) as E.
  { revert Hr. generalize (s', acc', got'). apply rtc_ind_r; [done|]. intros x y _ Hs ->. by apply deaf_step. }
  injection E as -> -> ->. split_and!; [done|done|]. by apply (recv_empty s false).
Qed.

#[global] Program Instance manual_card : E1000Card := {| arrive f s := if decide (RDH s = RDT s) then s else stored f s |}.
Next Obligation. intros f s E. cbn. by case_decide. Qed.
Next Obligation. intros f s E _. cbn. by case_decide. Qed.

Definition demo_bufs : list Z := (λ k, 4096 * k) <$> seqZ 1 8.
Definition demo_nic : E1000 := init_rings (λ _, 0) 0x12345452 0x5634 demo_bufs.

Lemma demo_apart j k a b : demo_bufs !! j = Some a → demo_bufs !! k = Some b → j ≠ k → a + 2048 ≤ b ∨ b + 2048 ≤ a.
Proof.
  unfold demo_bufs. rewrite !list_lookup_fmap. intros (x & [-> _]%lookup_seqZ & ->)%fmap_Some (y & [-> _]%lookup_seqZ & ->)%fmap_Some Hjk. lia.
Qed.

(** One frame arrives and is taken: none after it is. *)
Lemma drained_ring_is_deaf_witness : ∃ s, rtc nic_step (demo_nic, [], []) (s, [seqZ 1 20], [seqZ 1 20]) ∧
  ∀ s' acc' got', rtc nic_step (s, [seqZ 1 20], [seqZ 1 20]) (s', acc', got') → got' = [seqZ 1 20].
Proof.
  set (s1 := arrive (seqZ 1 20) demo_nic). exists (snd (recv s1)).
  assert (rtc nic_step (demo_nic, [], []) (snd (recv s1), [seqZ 1 20], [seqZ 1 20])) as Hr.
  { eapply rtc_l; [apply (n_arrive demo_nic [] [] (seqZ 1 20)); vm_compute; discriminate|]. apply rtc_once. apply (n_recv s1 [seqZ 1 20] []). }
  split; [exact Hr|]. intros s' acc' got' Hr'.
  destruct (drained_ring_is_deaf (λ _, 0) 0x12345452 0x5634 demo_bufs _ _ _ eq_refl demo_apart Hr) as (taken & rest & E1 & E2 & H).
  destruct taken as [|f taken]; [discriminate|]. destruct (H ltac:(discriminate) ltac:(destruct taken; [by injection E1|by destruct taken]) s' acc' got' Hr') as (_ & -> & _). reflexivity.
Defined.
