(* ===== verification/Files.v ===== *)
(** The file-manager windows of [kernel/src/main.rs]: navigators with their history and cache,
    the two panes and their hit tests, selection, marquee and scroll bar, drag and drop, and
    the small number formatters of that file.

    Coordinates are plain integers, as in [Desktop]. Drawing is left out; where a cell is drawn
    is [cell_rect]. [None] for the controller: no disk was found. *)

From stdpp Require Import prelude list numbers strings.
From S2P Require Import Prelude Text Pmm Memory Hepfs Elf Display Media Desktop Mouse.

Local Open Scope Z_scope.

(** ** Navigators *)

(** [(ino, name, is_dir, size)] *)
Definition info : Type := Z * list Z * bool * Z.

Record HepfsNav := mkNav {
  nav_ino : Z; nav_path : list Z; back : list (Z * list Z); fwd : list (Z * list Z);   (** stacks, top last *)
  selected : option (Z * Z); selected_at : Z; range_selected : list Z; scroll : Z;
  cache_ino : option Z; cache_gen : Z; cache_entries : list info }.

Definition hepfs_nav_new : HepfsNav := mkNav ROOT_INO (txt "/") [] [] None 0 [] 0 None 0 [].

Definition set_place (i : Z) (p : list Z) (b f : list (Z * list Z)) (n : HepfsNav) : HepfsNav :=
  mkNav i p b f (selected n) (selected_at n) (range_selected n) (scroll n) (cache_ino n) (cache_gen n) (cache_entries n).
Definition set_selection (s : option (Z * Z)) (at_ : Z) (r : list Z) (n : HepfsNav) : HepfsNav :=
  mkNav (nav_ino n) (nav_path n) (back n) (fwd n) s at_ r (scroll n) (cache_ino n) (cache_gen n) (cache_entries n).
Definition set_scroll (v : Z) (n : HepfsNav) : HepfsNav :=
  mkNav (nav_ino n) (nav_path n) (back n) (fwd n) (selected n) (selected_at n) (range_selected n) v (cache_ino n) (cache_gen n) (cache_entries n).
Definition set_cache (i : option Z) (g : Z) (e : list info) (n : HepfsNav) : HepfsNav :=
  mkNav (nav_ino n) (nav_path n) (back n) (fwd n) (selected n) (selected_at n) (range_selected n) (scroll n) i g e.

(** The Back button, and the row [..]: the selected row stays selected. *)
Definition go_back (n : HepfsNav) : HepfsNav :=
  match last (back n) with
  | Some (pino, ppath) =>
    set_scroll 0 (set_selection (selected n) (selected_at n) [] (set_place pino ppath (removelast (back n)) (fwd n ++ [(nav_ino n, nav_path n)]) n))
  | None => n
  end.

(** The Forward button. *)
Definition go_forward (n : HepfsNav) : HepfsNav :=
  match last (fwd n) with
  | Some (nino, npath) =>
    set_scroll 0 (set_selection (selected n) (selected_at n) [] (set_place nino npath (back n ++ [(nav_ino n, nav_path n)]) (removelast (fwd n)) n))
  | None => n
  end.

(** [if path == "/" { "/{name}" } else { "{path}/{name}" }] *)
Definition join_path (path name : list Z) : list Z := if beq path (txt "/") then txt "/" ++ name else path ++ txt "/" ++ name.

(** Opening a directory row. *)
Definition enter_dir (ino : Z) (name : list Z) (n : HepfsNav) : HepfsNav :=
  set_scroll 0 (set_selection None (selected_at n) [] (set_place ino (join_path (nav_path n) name) (back n ++ [(nav_ino n, nav_path n)]) [] n)).

(** A desktop icon's or pinned folder's new window: only the place is set. *)
Definition open_at (ino : Z) (path : list Z) (n : HepfsNav) : HepfsNav := set_place ino path (back n) (fwd n) n.

(** ** The grid *)

Definition HEPFS_TREE_W_NUM : Z := 35.
Definition HEPFS_TREE_W_DEN : Z := 100.
Definition GRID_CELL_W : Z := 72.
Definition GRID_CELL_H : Z := 60.
Definition HEPFS_SCROLLBAR_W : Z := 8.

Definition left_w (ww : Z) : Z := ww * HEPFS_TREE_W_NUM / HEPFS_TREE_W_DEN.
Definition right_w (ww : Z) : Z := ssub ww (left_w ww + 1).

Definition grid_cols (right_w : Z) : Z := Z.max (ssub right_w HEPFS_SCROLLBAR_W / GRID_CELL_W) 1.

Definition grid_idx_at (rel_x rel_y right_w scroll_rows : Z) : Z :=
  let cols := grid_cols right_w in
  let col := Z.min (Z.max rel_x 0 / GRID_CELL_W) (cols - 1) in
  let visual_row := Z.max rel_y 0 / GRID_CELL_H in
  (visual_row + scroll_rows) * cols + col.

(** Where [render_hepfs_window] draws cell [idx] of a window it is given at [(wx, wy)], if it does: the
    rows above the scroll offset and those that do not fit are skipped. *)
Definition cell_rect (wx wy ww wh scroll idx : Z) : option (Z * Z) :=
  let cols := grid_cols (right_w ww) in
  let row := idx / cols in
  if row <? scroll then None
  else
    let list_top := wy + 23 in
    let cy := list_top + (row - scroll) * GRID_CELL_H in
    if list_top + ssub wh 23 <? cy + GRID_CELL_H then None
    else Some (wx + left_w ww + 1 + idx mod cols * GRID_CELL_W, cy).

(** The render loop of [task_blink] draws a window at its eased position, negative
    coordinates taken as 0. *)
Definition drawn_cell (r : rect) (scroll idx : Z) : option (Z * Z) :=
  let '(x, y, w, h) := r in cell_rect (Z.max x 0) (Z.max y 0) w h scroll idx.

(** The rows and the largest scroll offset of a pane with [total] cells. *)
Definition div_ceil (a b : Z) : Z := (a + b - 1) / b.
Definition max_scroll_of (total right_w list_h : Z) : Z :=
  ssub (div_ceil total (grid_cols right_w)) (Z.max (div_ceil list_h GRID_CELL_H) 1).

(** The loop of [fs_marquee_hits] over the cells. *)
Definition marquee_cells (wx wy ww wh scroll total rx0 rx1 ry0 ry1 : Z) : list Z :=
  let rw := right_w ww in
  let right_x := wx + left_w ww + 1 in
  let list_top := wy + 23 in
  let list_h := Z.max (wh - 23) 0 in
  let cols := grid_cols rw in
  List.filter (λ idx,
    let row := idx / cols in
    if row <? scroll then false
    else
      let cy := list_top + (row - scroll) * GRID_CELL_H in
      if list_top + list_h <? cy + GRID_CELL_H then false
      else
        let cx := right_x + idx mod cols * GRID_CELL_W in
        (cx <? rx1) && (rx0 <? cx + GRID_CELL_W) && (cy <? ry1) && (ry0 <? cy + GRID_CELL_H))
    (seqZ 0 total).

(** ** Numbers as text *)

(** The digits of [n], last first, into [tmp] from index [i - 1] down; an index below 0 panics. *)
Fixpoint digits_down (fuel : nat) (n i : Z) (tmp : list Z) : outcome (Z * list Z) :=
  match fuel with
  | O => Ok (i, tmp)
  | S fuel =>
    if n =? 0 then Ok (i, tmp)
    else if i =? 0 then Panic "index out of bounds"
    else digits_down fuel (n / 10) (i - 1) (<[Z.to_nat (i - 1) := 0x30 + n mod 10]> tmp)
  end.

(** [if pos < 12 { buf[pos] = b; pos += 1 }] for each byte *)
Definition put_bytes (cap : nat) (l : list Z) (buf : list Z) : list Z := take cap (buf ++ l).

(** The text of [write_num], without the zeros that fill its array. *)
Definition write_num (n : Z) (suffix : list Z) : outcome (list Z) :=
  '(i, tmp) ← (if n =? 0 then Ok (7, <[7%nat := 0x30]> (replicate 8 0)) else digits_down 20 n 8 (replicate 8 0));
  let buf := put_bytes 12 (drop (Z.to_nat i) tmp) [] in
  Ok (put_bytes 12 suffix (buf ++ [0x20])).

Definition fmt_size (bytes : Z) : outcome (list Z) :=
  if bytes <? 1024 then write_num bytes (txt "B")
  else if bytes <? 1024 * 1024 then write_num (bytes / 1024) (txt "KB")
  else write_num (bytes / 1024 / 1024) (txt "MB").

(** [b'0' + (n / 10) as u8] *)
Definition two_digits (n : Z) : list Z := [u8 (0x30 + u8 (n / 10)); u8 (0x30 + u8 (n mod 10))].
Definition fmt_hms (h m s : Z) : list Z := utf8_or (txt "00:00:00") (two_digits h ++ [0x3A] ++ two_digits m ++ [0x3A] ++ two_digits s).

(** ** Clicks in time *)

(** [is_double_click] on [LAST_CLICK] and the time stamp counter. *)
Definition is_double_click (now tsc_per_ms win row col : Z) (last : option (Z * Z * Z * Z)) : bool * option (Z * Z * Z * Z) :=
  let window := Z.min (tsc_per_ms * 400) (2 ^ 64 - 1) in
  let double :=
    match last with
    | Some (w, r, c, t) => (w =? win) && (r =? row) && (Z.abs (c - col) <=? 1) && (u64 (now - t) <=? window)
    | None => false
    end in
  (double, if double then None else Some (win, row, col, now)).

Definition with_parent (p : Z) (e : Z * list Z * bool) : Z * Z * list Z * bool := (p, fst (fst e), snd (fst e), snd e).
Definition flat {A} (o : option (option A)) : option A := match o with Some x => x | None => None end.

(** ** Files windows, their navigators and the disk *)

Inductive FileRowAction := RowNone | RowOpen | RowRename.

Record FileDrag := mkDrag {
  from_parent : Z; from_path : list Z; fd_ino : Z; fd_name : list Z; start_x : Z; start_y : Z; moved : bool;
  fd_win : Z; fd_is_dir : bool; pending_action : FileRowAction; extra : list (Z * list Z * bool) }.

Section files.
Context {D F : Type} `{!Drive D} `{!FrameSource F}.
Abbreviation ui := (@ui D F).

(** [HEPFS_NAVS], what the desktop and the disk hold, and the drags under way. *)
Record fm := mkFm {
  navs : list (Z * HepfsNav); fm_ui : ui; FILE_DRAG : option FileDrag; FS_MARQUEE : option (Z * Z * Z); FS_SCROLL_DRAG : option (Z * Z * Z * Z) }.

Definition set_navs (l : list (Z * HepfsNav)) (s : fm) : fm := mkFm l (fm_ui s) (FILE_DRAG s) (FS_MARQUEE s) (FS_SCROLL_DRAG s).
Definition set_ui (u : ui) (s : fm) : fm := mkFm (navs s) u (FILE_DRAG s) (FS_MARQUEE s) (FS_SCROLL_DRAG s).
Definition set_drag (v : option FileDrag) (s : fm) : fm := mkFm (navs s) (fm_ui s) v (FS_MARQUEE s) (FS_SCROLL_DRAG s).
Definition set_marquee (v : option (Z * Z * Z)) (s : fm) : fm := mkFm (navs s) (fm_ui s) (FILE_DRAG s) v (FS_SCROLL_DRAG s).
Definition set_scroll_drag (v : option (Z * Z * Z * Z)) (s : fm) : fm := mkFm (navs s) (fm_ui s) (FILE_DRAG s) (FS_MARQUEE s) v.

(** [navs.iter().find(|(id, _)| *id == win_id)] and its mutable form *)
Fixpoint find_nav (w : Z) (l : list (Z * HepfsNav)) : option HepfsNav :=
  match l with [] => None | (id, n) :: l => if id =? w then Some n else find_nav w l end.
Fixpoint update_nav (w : Z) (f : HepfsNav → HepfsNav) (l : list (Z * HepfsNav)) : list (Z * HepfsNav) :=
  match l with [] => [] | (id, n) :: l => if id =? w then (id, f n) :: l else (id, n) :: update_nav w f l end.

Definition on_nav (w : Z) (f : HepfsNav → HepfsNav) (s : fm) : fm := set_navs (update_nav w f (navs s)) s.
Definition redraw (s : fm) : fm := set_ui (on_desk (set_dirty true) (fm_ui s)) s.

Definition fm_disk {A} (c : ST (fs D F) A) (s : fm) : outcome (option A * fm) :=
  '(a, u) ← with_disk c (fm_ui s); Ok (a, set_ui u s).

(** *** Listings *)

Fixpoint resolve_infos (l : list (Z * list Z)) : ST (fs D F) (list info) :=
  match l with
  | [] => mret []
  | (i, name) :: l => inode ← read_inode i; r ← resolve_infos l; mret ((i, name, flags inode =? F_DIR, size inode) :: r)
  end.

Definition list_dir_with_info (ino : Z) : ST (fs D F) (list info) := l ← list_dir ino; resolve_infos l.

(** On the navigators and the disk; both locks are held. *)
Definition hepfs_list_dir_cached (w ino : Z) : ST (list (Z * HepfsNav) * fs D F) (list info) := λ '(l, d),
  match find_nav w l with
  | None => '(r, d) ← list_dir_with_info ino d; Ok (r, (l, d))
  | Some nav =>
    let gen := generation d in
    if bool_decide (cache_ino nav = Some ino) && (cache_gen nav =? gen) then Ok (cache_entries nav, (l, d))
    else
      '(entries, d) ← list_dir_with_info ino d;
      Ok (entries, (update_nav w (set_cache (Some ino) gen entries) l, d))
  end.

Definition cached_listing (w ino : Z) (s : fm) : outcome (option (list info) * fm) :=
  match u_disk (fm_ui s) with
  | None => Ok (None, s)
  | Some d =>
    '(r, (l, d)) ← hepfs_list_dir_cached w ino (navs s, d);
    Ok (Some r, set_navs l (set_ui (mkUi (desk (fm_ui s)) (u_pins (fm_ui s)) (u_snd (fm_ui s)) (Some d)) s))
  end.

(** [filter(|(ino, _)| read_inode(ino).flags == F_DIR).nth(k)]: no inode is read past the one found. *)
Fixpoint nth_dir (k : Z) (l : list (Z * list Z)) : ST (fs D F) (option (Z * list Z * bool)) :=
  match l with
  | [] => mret None
  | (i, name) :: l =>
    inode ← read_inode i;
    if flags inode =? F_DIR then (if k =? 0 then mret (Some (i, name, true)) else nth_dir (k - 1) l) else nth_dir k l
  end.

(** The [k]-th row of a pane without its [..] row, with the flags of its inode. *)
Definition row_entry (pane cur_ino k : Z) : ST (fs D F) (option (Z * list Z * bool)) :=
  l ← list_dir cur_ino;
  if pane =? 3 then nth_dir k l
  else
    match l !! Z.to_nat k with
    | Some (i, name) => inode ← read_inode i; mret (Some (i, name, flags inode =? F_DIR))
    | None => mret None
    end.

Definition resolve_fs_row (w pane idx : Z) (s : fm) : outcome (option (Z * list Z * bool) * fm) :=
  match find_nav w (navs s) with
  | None => Ok (None, s)
  | Some n =>
    let at_root := nav_ino n =? ROOT_INO in
    if negb at_root && (idx =? 0) then Ok (None, s)
    else '(r, s) ← fm_disk (row_entry pane (nav_ino n) (if at_root then idx else idx - 1)) s; Ok (flat r, s)
  end.

Fixpoint resolve_rows (w pane : Z) (rows : list Z) (s : fm) : outcome (list (Z * list Z * bool) * fm) :=
  match rows with
  | [] => Ok ([], s)
  | r :: rows => '(o, s) ← resolve_fs_row w pane r s; '(l, s) ← resolve_rows w pane rows s; Ok (option_list o ++ l, s)
  end.

(** [selected_fs_entry]: parent, inode, name, kind. *)
Definition selected_fs_entry (w : Z) (s : fm) : outcome (option (Z * Z * list Z * bool) * fm) :=
  match find_nav w (navs s) with
  | Some n =>
    match selected n with
    | Some (pane, idx) => '(r, s) ← resolve_fs_row w pane idx s; Ok (option_map (with_parent (nav_ino n)) r, s)
    | None => Ok (None, s)
    end
  | None => Ok (None, s)
  end.

Definition selected_fs_entries (w : Z) (s : fm) : outcome (list (Z * Z * list Z * bool) * fm) :=
  match find_nav w (navs s) with
  | Some n =>
    match selected n with
    | Some (pane, idx) =>
      '(l, s) ← resolve_rows w pane (if 1 <? len (range_selected n) then range_selected n else [idx]) s;
      Ok (map (with_parent (nav_ino n)) l, s)
    | None => Ok ([], s)
    end
  | None => Ok ([], s)
  end.

(** *** Scrolling and the marquee *)

Definition hepfs_scroll_max (w right_w list_h : Z) (s : fm) : outcome (option Z * fm) :=
  match find_nav w (navs s) with
  | None => Ok (None, s)
  | Some n =>
    '(r, s) ← cached_listing w (nav_ino n) s;
    Ok (match r with
        | None => None
        | Some l =>
          let total := len l + (if nav_ino n =? ROOT_INO then 0 else 1) in
          let m := max_scroll_of total right_w list_h in if m =? 0 then None else Some m
        end, s)
  end.

Definition fs_marquee_hits (w wx wy ww wh rx0 rx1 ry0 ry1 : Z) (s : fm) : outcome (list Z * fm) :=
  match find_nav w (navs s) with
  | None => Ok ([], s)
  | Some n =>
    '(r, s) ← cached_listing w (nav_ino n) s;
    Ok (match r with
        | None => []
        | Some l => marquee_cells wx wy ww wh (scroll n) (len l + (if nav_ino n =? ROOT_INO then 0 else 1)) rx0 rx1 ry0 ry1
        end, s)
  end.

(** A frame of a marquee: with the button held, the cells under it are the selection. *)
Definition marquee_frame (held : bool) (mx my : Z) (s : fm) : outcome fm :=
  if negb held then Ok (set_marquee None s)
  else
    match FS_MARQUEE s with
    | None => Ok s
    | Some (w, sx, sy) =>
      match find_win w (windows (desk (fm_ui s))) with
      | None => Ok s
      | Some win =>
        '(hits, s) ← fs_marquee_hits w (wx win) (wy win) (ww win) (wh win) (Z.min sx mx) (Z.max sx mx) (Z.min sy my) (Z.max sy my) s;
        Ok (redraw (on_nav w (λ n, match hits with
                                   | [] => set_selection None (selected_at n) [] n
                                   | h :: _ => set_selection (Some (4, h)) (selected_at n) hits n
                                   end) s))
      end
    end.

(** A frame of a scroll-bar drag. *)
Definition scroll_frame (held : bool) (my : Z) (s : fm) : fm :=
  if negb held then set_scroll_drag None s
  else
    match FS_SCROLL_DRAG s with
    | None => s
    | Some (w, list_top, list_h, max_scroll) =>
      let row := Z.max (my - list_top) 0 * max_scroll / Z.max list_h 1 in
      redraw (on_nav w (set_scroll (Z.min row max_scroll)) s)
    end.

(** What drawing a Files window changes: its listing is cached and the scroll offset is cut to
    what the listing needs. *)
Definition render_scroll (w ww wh : Z) (s : fm) : outcome fm :=
  let cur_ino := default ROOT_INO (nav_ino <$> find_nav w (navs s)) in
  '(r, s) ← cached_listing w cur_ino s;
  Ok match r with
     | None => s
     | Some l =>
       let total := len l + (if cur_ino =? ROOT_INO then 0 else 1) in
       let m := max_scroll_of total (right_w ww) (ssub wh 23) in
       on_nav w (λ n, set_scroll (Z.min (scroll n) m) n) s
     end.

(** Whether row [row] of a pane is drawn as selected. *)
Definition is_highlighted (n : HepfsNav) (pane row : Z) : bool :=
  bool_decide (selected n = Some (pane, row))
  || bool_decide (fst <$> selected n = Some pane) && bool_decide (row ∈ range_selected n).

(** The scroll bar under the pointer: window, pane width, top and height. *)
Definition in_files (w : Window) (mx my : Z) : bool :=
  bool_decide (app_kind w = Files) && negb (minimized w) && in_rect (wx w) (wy w) (ww w) (wh w) mx my.

Definition on_fs_scrollbar (mx my : Z) (d : Desktop) : option (Z * Z * Z * Z) :=
  match find_top (λ w, in_files w mx my && bool_decide (topmost_window_id_at d mx my = Some (win_id w))) (windows d) with
  | None => None
  | Some win =>
    let rw := right_w (ww win) in
    let list_top := wy win + 23 in
    let track_x := wx win + left_w (ww win) + 1 + ssub rw HEPFS_SCROLLBAR_W in
    if (track_x <=? mx) && (mx <? track_x + HEPFS_SCROLLBAR_W) && (list_top <=? my) then Some (win_id win, rw, list_top, Z.max (wh win - 23) 0) else None
  end.

Definition arm_scroll (sb : Z * Z * Z * Z) (s : fm) : outcome fm :=
  let '(w, rw, list_top, list_h) := sb in
  '(m, s) ← hepfs_scroll_max w rw list_h s;
  Ok match m with Some m => set_scroll_drag (Some (w, list_top, list_h, m)) s | None => s end.

(** *** Clicks *)

(** What a click means: window, zone (0 back, 1 forward, 2 the rest of the bar, 3 and 4 the
    panes), row. Only the first Files window of the list that contains the point is asked. *)
Definition hepfs_click (mx my : Z) (s : fm) : option (Z * Z * Z) :=
  let d := desk (fm_ui s) in
  match snd <$> list_find (λ w, in_files w mx my) (windows d) with
  | None => None
  | Some win =>
    if negb (bool_decide (topmost_window_id_at d mx my = Some (win_id win))) then None
    else
      let rel_x := mx - wx win in
      let rel_y := my - wy win in
      if rel_y <? 22 then Some (win_id win, if rel_x <? 22 then 0 else if rel_x <? 44 then 1 else 2, 0)
      else if rel_x <=? left_w (ww win) then Some (win_id win, 3, Z.max (rel_y - 23) 0 / 14)
      else
        let sc := default 0 (scroll <$> find_nav (win_id win) (navs s)) in
        Some (win_id win, 4, grid_idx_at (rel_x - left_w (ww win) - 1) (rel_y - 23) (right_w (ww win)) sc)
  end.

(** A plain click on a row: the selection at once, the action when the button comes up. *)
Definition click_row (now pane idx : Z) (n : HepfsNav) : HepfsNav * FileRowAction :=
  let was_selected := bool_decide (selected n = Some (pane, idx)) in
  let elapsed := ssub now (selected_at n) in
  let in_group := bool_decide (idx ∈ range_selected n) in
  let n' := if in_group then set_selection (selected n) now (range_selected n) n else set_selection (Some (pane, idx)) now [] n in
  (n', if was_selected && (elapsed <=? ICON_DBLCLICK_TICKS) then RowOpen else if was_selected && (elapsed <=? ICON_RENAME_TICKS) then RowRename else RowNone).

(** Shift: every row between the anchor and this one. *)
Definition shift_row (pane idx : Z) (n : HepfsNav) : HepfsNav :=
  match selected n with
  | Some (apane, aidx) =>
    if apane =? pane then set_selection (selected n) (selected_at n) (seqZ (Z.min aidx idx) (Z.abs (aidx - idx) + 1)) n else n
  | None => n
  end.

(** [now]: the tick count; [shift]: whether the key is held. *)
Definition pane_click (now : Z) (shift : bool) (mx my w pane idx : Z) (s : fm) : outcome fm :=
  let '(cur_ino, cur_path) := default (ROOT_INO, txt "/") ((λ n, (nav_ino n, nav_path n)) <$> find_nav w (navs s)) in
  let at_root := cur_ino =? ROOT_INO in
  if negb at_root && (idx =? 0) then Ok (redraw (on_nav w go_back s))
  else
    '(r, s) ← fm_disk (row_entry pane cur_ino (if at_root then idx else ssub idx 1)) s;
    match flat r with
    | Some (ino, name, is_dir) =>
      if shift then Ok (redraw (on_nav w (shift_row pane idx) s))
      else
        match find_nav w (navs s) with
        | None => Ok s
        | Some n =>
          let '(n', action) := click_row now pane idx n in
          let s := redraw (on_nav w (λ _, n') s) in
          '(ex, s) ← resolve_rows w pane (if 1 <? len (range_selected n') then List.filter (λ r, negb (r =? idx)) (range_selected n') else []) s;
          Ok (set_drag (Some (mkDrag cur_ino cur_path ino name mx my false w is_dir action ex)) s)
        end
    | None =>
      if pane =? 4 then Ok (redraw (set_marquee (Some (w, mx, my)) (on_nav w (λ n, set_selection None (selected_at n) [] n) s))) else Ok s
    end.

(** A fresh click that is not on a scroll bar. *)
Definition files_click (now : Z) (shift : bool) (mx my : Z) (s : fm) : outcome fm :=
  match hepfs_click mx my s with
  | Some (w, zone, idx) =>
    if zone =? 0 then Ok (redraw (on_nav w go_back s))
    else if zone =? 1 then Ok (redraw (on_nav w go_forward s))
    else if (zone =? 3) || (zone =? 4) then pane_click now shift mx my w zone idx s
    else Ok s
  | None => Ok s
  end.

(** The right click the desktop left pending: the menu of a row, or of the pane. *)
Definition context_resolve (s : fm) : outcome fm :=
  match fs_context_menu_pending (desk (fm_ui s)) with
  | None => Ok s
  | Some (w, rx, ry) =>
    let s := set_ui (on_desk (set_fs_context_menu_pending None) (fm_ui s)) s in
    match find_win w (windows (desk (fm_ui s))) with
    | None => Ok s
    | Some win =>
      let '(cur_ino, cur_path) := default (ROOT_INO, txt "/") ((λ n, (nav_ino n, nav_path n)) <$> find_nav w (navs s)) in
      let at_root := cur_ino =? ROOT_INO in
      let rel_x := rx - wx win in
      let rel_y := ry - wy win in
      if rel_y <? 22 then Ok s
      else
        let pane := if rel_x <=? left_w (ww win) then 3 else 4 in
        let entry_idx :=
          if pane =? 3 then Z.max ((rel_y - 22) / 14) 0
          else grid_idx_at (rel_x - left_w (ww win) - 1) (rel_y - 22) (right_w (ww win)) (default 0 (scroll <$> find_nav w (navs s))) in
        if negb at_root && (entry_idx =? 0) then Ok s
        else
          let menu k s := set_ui (on_desk (λ d, set_dirty true (set_context_menu_kind k (set_context_menu (Some (rx, ry)) d))) (fm_ui s)) s in
          '(r, s) ← fm_disk (row_entry pane cur_ino (if at_root then entry_idx else entry_idx - 1)) s;
          match flat r with
          | Some (ino, name, is_dir) =>
            let '(is_selected_row, range) :=
              default (false, []) ((λ n, (bool_decide (selected n = Some (pane, entry_idx)), range_selected n)) <$> find_nav w (navs s)) in
            '(ex, s) ← resolve_rows w pane (if is_selected_row && (1 <? len range) then List.filter (λ r, negb (r =? entry_idx)) range else []) s;
            Ok (menu (CmFsRow w cur_ino cur_path ino name is_dir (is_pinned_file ino (u_pins (fm_ui s))) ex) s)
          | None => Ok (menu (CmFsPane w cur_ino cur_path) s)
          end
    end
  end.

(** *** Drag and drop *)

(** The directory a drop on the row lands in. *)
Definition drop_row (on_tree : bool) (dir_ino k drag_ino : Z) : ST (fs D F) (option Z) :=
  r ← row_entry (if on_tree then 3 else 4) dir_ino k;
  mret (match r with Some (i, _, true) => if i =? drag_ino then None else Some i | _ => None end).

Definition drop_target (fd : FileDrag) (win : Window) (n : HepfsNav) (mx my : Z) (s : fm) : outcome (Z * fm) :=
  let rel_x := mx - wx win in
  let rel_y := my - wy win in
  let at_root := nav_ino n =? ROOT_INO in
  let on_tree := rel_x <=? left_w (ww win) in
  if 22 <=? rel_y then
    let entry_idx := if on_tree then Z.max ((rel_y - 22) / 14) 0 else grid_idx_at (rel_x - left_w (ww win) - 1) (rel_y - 22) (right_w (ww win)) (scroll n) in
    if negb at_root && (entry_idx =? 0) then Ok (default (nav_ino n) (fst <$> last (back n)), s)
    else '(r, s) ← fm_disk (drop_row on_tree (nav_ino n) (if at_root then entry_idx else entry_idx - 1) (fd_ino fd)) s; Ok (default (nav_ino n) (flat r), s)
  else Ok (nav_ino n, s).

Fixpoint move_all (from to_ : Z) (names : list (list Z)) : ST (fs D F) unit :=
  match names with [] => mret tt | nm :: names => move_entry from to_ nm ≫= λ _, move_all from to_ names end.

Definition drag_names (fd : FileDrag) : list (list Z) := fd_name fd :: ((λ e, snd (fst e)) <$> extra fd).

Definition refresh (s : fm) : outcome fm := u ← refresh_desktop_icons (fm_ui s); Ok (set_ui u s).

(** On the dock: pinned; on another window or the taskbar: nothing; else into /home/desktop. *)
Definition resolve_file_drop_outside_windows (fd : FileDrag) (mx my : Z) (s : fm) : outcome (bool * fm) :=
  let d := desk (fm_ui s) in
  if in_pin_dock mx my (fb_h d) then
    let pin p := foldl (λ p e, pin_file (fst (fst e)) (from_path fd) (snd (fst e)) (snd e) p) (pin_file (fd_ino fd) (from_path fd) (fd_name fd) (fd_is_dir fd) p) (extra fd) in
    Ok (true, redraw (set_ui (on_pins pin (fm_ui s)) s))
  else if existsb (λ w, negb (minimized w) && chrome_hit w mx my) (windows d) || (fb_h d - TASKBAR_H <=? my) then Ok (false, s)
  else
    '(_, s) ← fm_disk (r ← Hepfs.lookup home_desktop;
                       match r with
                       | Some ino => if ino =? from_parent fd then mret tt else move_all (from_parent fd) ino (drag_names fd)
                       | None => mret tt
                       end) s;
    s ← refresh s; Ok (true, redraw s).

Definition resolve_file_drop (fd : FileDrag) (mx my : Z) (s : fm) : outcome (bool * fm) :=
  let d := desk (fm_ui s) in
  match find_top (λ w, in_files w mx my && bool_decide (topmost_window_id_at d mx my = Some (win_id w))) (windows d) with
  | None => resolve_file_drop_outside_windows fd mx my s
  | Some win =>
    match find_nav (win_id win) (navs s) with
    | None => Ok (false, s)
    | Some n =>
      '(target, s) ← drop_target fd win n mx my s;
      '(_, s) ← fm_disk (move_all (from_parent fd) target (drag_names fd)) s;
      s ← refresh s; Ok (true, redraw s)
    end
  end.

(** A frame of a drag: with the button held it may begin to move; released it is dropped, or
    the row's action runs. [Some]: a file to open, by path. *)
Definition drag_frame (held : bool) (mx my : Z) (s : fm) : outcome (option (list Z) * fm) :=
  match FILE_DRAG s with
  | None => Ok (None, s)
  | Some fd =>
    if held then
      let far := (8 <? Z.abs (mx - start_x fd)) || (8 <? Z.abs (my - start_y fd)) in
      Ok (None, if negb (moved fd) && far
                then set_drag (Some (mkDrag (from_parent fd) (from_path fd) (fd_ino fd) (fd_name fd) (start_x fd) (start_y fd) true (fd_win fd) (fd_is_dir fd) (pending_action fd) (extra fd))) s
                else s)
    else
      let s := set_drag None s in
      if moved fd then '(_, s) ← resolve_file_drop fd mx my s; Ok (None, s)
      else
        match pending_action fd with
        | RowNone => Ok (None, s)
        | RowOpen =>
          if fd_is_dir fd then Ok (None, redraw (on_nav (fd_win fd) (enter_dir (fd_ino fd) (fd_name fd)) s))
          else Ok (Some (join_path (default (txt "/") (nav_path <$> find_nav (fd_win fd) (navs s))) (fd_name fd)), s)
        | RowRename => Ok (None, set_ui (on_desk (begin_rename_fs_pane (fd_win fd) (from_parent fd) (fd_name fd)) (fm_ui s)) s)
        end
  end.

(** A new Files window at the root. *)
Definition spawn_files (tsc : Z) (s : fm) : Z * fm :=
  let '(d, id) := add_window tsc Files (txt "HepFS") 160 90 260 160 (desk (fm_ui s)) in
  (id, set_navs (navs s ++ [(id, hepfs_nav_new)]) (set_ui (on_desk (λ _, set_dirty true d) (fm_ui s)) s)).

(** A directory to open from the desktop, a menu or a pin: a window of its own, in front. *)
Definition open_dir_entry (tsc ino : Z) (name parent_path : list Z) (s : fm) : Z * fm :=
  let '(id, s) := spawn_files tsc s in
  let s := on_nav id (open_at ino (join_path parent_path name)) s in
  (id, set_ui (on_desk (λ d, set_dirty true (bring_to_front id (set_windows (update_win id (show tsc) (windows d)) d))) (fm_ui s)) s).

(** The keys of a focused Files window: copy and paste. [true]: the key was taken; [fuel] bounds
    the depth of a copied tree, as in [Mouse]. *)
Definition files_key (fuel : nat) (ctrl : bool) (c w : Z) (s : fm) : outcome (bool * fm) :=
  match find_nav w (navs s) with
  | None => Ok (false, s)
  | Some n =>
    if (u8 c =? 0x03) || ((c =? 0x43) && ctrl) then
      '(l, s) ← selected_fs_entries w s;
      Ok (true, set_ui (set_clipboard l (fm_ui s)) s)
    else if (u8 c =? 0x16) || ((c =? 0x56) && ctrl) then
      match fs_clipboard (u_pins (fm_ui s)) with
      | [] => Ok (true, s)
      | clip => '(_, s) ← fm_disk (paste_all fuel clip (nav_ino n)) s; s ← refresh s; Ok (true, redraw s)
      end
    else Ok (false, s)
  end.
End files.
