(* ===== verification/FilesSpec.v ===== *)
(** The file-manager windows: their history is a browser's, a click reaches the cell drawn
    under it, the marquee selects the cells it touches; and where drop, overlap and cache
    disagree with what is on the screen. *)

From Stdlib Require Import ZifyBool.
From stdpp Require Import prelude list numbers strings.
From S2P Require Import Prelude Text Pmm Memory Hepfs HepfsBlock HepfsRep HepfsRead HepfsFile HepfsDir HepfsOps HepfsSpec Elf Display Media Desktop Mouse MouseSpec Files.

Local Open Scope Z_scope.

(** ** History *)

(** The places visited and where one is among them. *)
Record history := mkHistory { places : list (Z * list Z); at_ : nat }.

Inductive nav_op := OpBack | OpForward | OpEnter (ino : Z) (name : list Z).

(** What a browser does. *)
Definition hist_step (o : nav_op) (h : history) : history :=
  match o with
  | OpBack => mkHistory (places h) (at_ h - 1)
  | OpForward => mkHistory (places h) (if decide (S (at_ h) < length (places h))%nat then S (at_ h) else at_ h)
  | OpEnter ino name =>
    match places h !! at_ h with
    | Some (_, path) => mkHistory (take (S (at_ h)) (places h) ++ [(ino, join_path path name)]) (S (at_ h))
    | None => h
    end
  end.

Definition nav_step (o : nav_op) : HepfsNav → HepfsNav :=
  match o with OpBack => go_back | OpForward => go_forward | OpEnter ino name => enter_dir ino name end.

Definition here (n : HepfsNav) : Z * list Z := (nav_ino n, nav_path n).
Definition history_of (n : HepfsNav) : history := mkHistory (back n ++ here n :: reverse (fwd n)) (length (back n)).

Lemma last_removelast {A} (l : list A) x : last l = Some x → l = removelast l ++ [x].
Proof. intros H. apply last_Some in H as [l' ->]. by rewrite removelast_last. Qed.

Lemma nav_step_history o n : history_of (nav_step o n) = hist_step o (history_of n).
Proof.
  destruct o as [| |ino name]; unfold history_of, hist_step; cbn [places at_ nav_step].
  - unfold go_back. destruct (last (back n)) as [[i p]|] eqn:E.
    + apply last_removelast in E. set (b := removelast (back n)) in *. cbn -[reverse removelast]. fold b. rewrite E. rewrite reverse_app, length_app. cbn -[reverse].
      rewrite <- app_assoc. cbn -[reverse]. f_equal. lia.
    + apply last_None in E. by rewrite E.
  - unfold go_forward. destruct (last (fwd n)) as [[i p]|] eqn:E.
    + apply last_removelast in E. set (f := removelast (fwd n)) in *. cbn -[reverse removelast]. fold f. rewrite E, !reverse_app, !length_app. cbn -[reverse].
      rewrite <- app_assoc. cbn -[reverse]. f_equal. rewrite decide_True by (rewrite ?length_app; change (length (reverse [(i, p)])) with 1%nat; lia). lia.
    + apply last_None in E. rewrite E. cbn -[reverse]. f_equal. rewrite decide_False; [done|]. rewrite length_app. cbn. lia.
  - assert ((back n ++ here n :: reverse (fwd n)) !! length (back n) = Some (here n)) as -> by (by apply list_lookup_middle).
    unfold enter_dir. cbn -[reverse]. f_equal; [|rewrite length_app; cbn; lia].
    rewrite take_app_ge by lia. replace (S (length (back n)) - length (back n))%nat with 1%nat by lia. cbn -[reverse]. by rewrite take_0.
Qed.

(** Every place was entered from the one before it. *)
Definition nested (l : list (Z * list Z)) : Prop :=
  ∀ k p q, l !! k = Some p → l !! S k = Some q → ∃ name, snd q = join_path (snd p) name.

Lemma nested_step o h : (at_ h < length (places h))%nat → nested (places h) →
  (at_ (hist_step o h) < length (places (hist_step o h)))%nat ∧ nested (places (hist_step o h)) ∧ head (places (hist_step o h)) = head (places h).
Proof.
  intros Hl Hn. destruct o as [| |ino name]; cbn.
  - split_and!; [lia|done|done].
  - split_and!; [case_decide; lia|done|done].
  - destruct (lookup_lt_is_Some_2 _ _ Hl) as [[i path] E]. rewrite E. cbn. assert (length (take (S (at_ h)) (places h)) = S (at_ h)) as El by (rewrite length_take; lia).
    split_and!; [rewrite length_app, El; cbn; lia| |destruct (places h); [done|]; done].
    intros k p q Hp Hq. destruct (decide (S k < S (at_ h))%nat).
    + rewrite lookup_app_l in Hp, Hq by lia. rewrite lookup_take_lt in Hp, Hq by lia. by eapply Hn.
    + assert (k = at_ h) as -> by (apply lookup_lt_Some in Hq; rewrite length_app, El in Hq; cbn in Hq; lia).
      rewrite lookup_app_l, lookup_take_lt, E in Hp by lia. injection Hp as <-. rewrite lookup_app_r, El, Nat.sub_diag in Hq by lia. injection Hq as <-. by exists name.
Qed.

Definition nav_run (ops : list nav_op) (n : HepfsNav) : HepfsNav := foldl (λ n o, nav_step o n) n ops.
Definition hist_run (ops : list nav_op) (h : history) : history := foldl (λ h o, hist_step o h) h ops.

Lemma nav_run_history ops n : history_of (nav_run ops n) = hist_run ops (history_of n).
Proof. revert n. induction ops as [|o ops IH]; intros n; [done|].
  change (nav_run (o :: ops) n) with (nav_run ops (nav_step o n)). by rewrite IH, nav_step_history. Qed.

Lemma hist_run_nested ops h : (at_ h < length (places h))%nat → nested (places h) →
  nested (places (hist_run ops h)) ∧ head (places (hist_run ops h)) = head (places h).
Proof.
  revert h. induction ops as [|o ops IH]; intros h Hl Hn; [done|].
  change (hist_run (o :: ops) h) with (hist_run ops (hist_step o h)).
  destruct (nested_step o h Hl Hn) as (H1 & H2 & H3). rewrite <- H3. by apply IH.
Qed.

Lemma history_here n : places (history_of n) !! at_ (history_of n) = Some (here n).
Proof. by apply list_lookup_middle. Qed.

Lemma history_back n : places (history_of n) !! (length (back n) - 1)%nat = match back n with [] => Some (here n) | _ => last (back n) end.
Proof.
  cbn [history_of places]. destruct (back n) as [|x b] eqn:E; [done|]. rewrite last_lookup. rewrite lookup_app_l by (cbn; lia).
  f_equal. cbn. lia.
Qed.

(** C26: a Files window's two stacks are a browser's history: after any mouse-driven sequence of
    Back (or [..]), Forward and opened folders, the stacks read as the list of places a browser
    that started at [/] would keep, with the same position in it, the window shows the place at
    that position, and while Back is possible it leads to the folder the shown path is in. *)
Theorem nav_history ops : let n := nav_run ops hepfs_nav_new in
  history_of n = hist_run ops (mkHistory [(ROOT_INO, txt "/")] 0) ∧
  places (history_of n) !! at_ (history_of n) = Some (nav_ino n, nav_path n) ∧
  match last (back n) with
  | Some (pino, ppath) => nav_ino (go_back n) = pino ∧ ∃ name, nav_path n = join_path ppath name
  | None => (nav_ino n, nav_path n) = (ROOT_INO, txt "/")
  end.
Proof.
  intros n. assert (history_of n = hist_run ops (mkHistory [(ROOT_INO, txt "/")] 0)) as E by apply nav_run_history.
  destruct (hist_run_nested ops (mkHistory [(ROOT_INO, txt "/")] 0)) as [Hn Hh]; [cbn; lia| |].
  { intros k p q Hp Hq. apply lookup_lt_Some in Hq. cbn in Hq. lia. }
  rewrite <- E in Hn, Hh. split_and!; [done|apply history_here|].
  destruct (last (back n)) as [[pino ppath]|] eqn:El.
  - split; [unfold go_back; by rewrite El|]. pose proof (history_here n) as Hq. pose proof (history_back n) as Hp.
    destruct (back n) as [|x b] eqn:Eb; [done|]. rewrite El in Hp.
    assert (at_ (history_of n) = S (length (x :: b) - 1)) as Ea by (cbn; rewrite Eb; cbn; lia).
    rewrite Ea in Hq. by destruct (Hn _ _ _ Hp Hq) as [name Hname]; exists name.
  - apply last_None in El. cbn in Hh. rewrite El in Hh. cbn in Hh. by injection Hh as -> ->.
Qed.

(** ** Clicks, drops, the marquee and the drawing *)

Lemma grid_cols_pos rw : 1 ≤ grid_cols rw.
Proof. unfold grid_cols. lia. Qed.

Lemma cell_rect_Some wx wy ww wh sc idx cx cy : cell_rect wx wy ww wh sc idx = Some (cx, cy) ↔
  let cols := grid_cols (right_w ww) in
  sc ≤ idx / cols ∧ (idx / cols - sc + 1) * GRID_CELL_H ≤ ssub wh 23 ∧
  cx = wx + left_w ww + 1 + idx mod cols * GRID_CELL_W ∧ cy = wy + 23 + (idx / cols - sc) * GRID_CELL_H.
Proof.
  unfold cell_rect. cbv zeta. destruct (_ <? sc) eqn:E1; [split; [done|lia]|]. destruct (_ <? _ + GRID_CELL_H) eqn:E2.
  - split; [done|]. lia.
  - split; [intros [= <- <-]; lia|]. intros (? & ? & -> & ->). done.
Qed.

(** The cell at a point [dx] pixels to the right of and [dy] below the corner of a cell. *)
Lemma grid_idx_far ww sc idx dx dy : 0 ≤ idx → sc ≤ idx / grid_cols (right_w ww) → 0 ≤ dx → 0 ≤ dy →
  let c := grid_cols (right_w ww) in
  grid_idx_at (idx mod c * GRID_CELL_W + dx) ((idx / c - sc) * GRID_CELL_H + dy) (right_w ww) sc =
  idx + Z.min (dx / GRID_CELL_W) (c - 1 - idx mod c) + dy / GRID_CELL_H * c.
Proof.
  intros Hi Hs Hx Hy. unfold grid_idx_at. cbv zeta. pose proof (grid_cols_pos (right_w ww)) as Hc. set (c := grid_cols _) in *.
  pose proof (Z.mod_pos_bound idx c ltac:(lia)). pose proof (Z.div_mod idx c ltac:(lia)). unfold GRID_CELL_W, GRID_CELL_H in *.
  rewrite !Z.max_l by lia. rewrite !Z.div_add_l by lia. nia.
Qed.

Lemma marquee_cells_spec wx wy ww wh sc total rx0 rx1 ry0 ry1 idx :
  idx ∈ marquee_cells wx wy ww wh sc total rx0 rx1 ry0 ry1 ↔
  0 ≤ idx < total ∧ ∃ cx cy, cell_rect wx wy ww wh sc idx = Some (cx, cy) ∧
    cx < rx1 ∧ rx0 < cx + GRID_CELL_W ∧ cy < ry1 ∧ ry0 < cy + GRID_CELL_H.
Proof.
  unfold marquee_cells. cbv zeta. rewrite list_elem_of_In, filter_In, <- list_elem_of_In, elem_of_seqZ.
  assert (0 ≤ idx < 0 + total ↔ 0 ≤ idx < total) as -> by lia. apply and_iff_compat_l. unfold cell_rect. cbv zeta. fold (ssub wh 23).
  destruct (_ <? sc); [split; [done|by intros (?&?&?&?)]|]. destruct (_ <? _ + GRID_CELL_H); [split; [done|by intros (?&?&?&?)]|].
  split; [intros H; do 2 eexists; split; [done|lia]|intros (?&?&[= <- <-]&?); lia].
Qed.

Section windows.
Context {D F : Type} `{!Drive D} `{!FrameSource F}.
Implicit Types (s : fm (D := D) (F := F)) (win : Window) (n : HepfsNav).

(** The pointer is on a Files window the click handler asks, and that window is in front. *)
Definition asked (mx my : Z) s win n : Prop :=
  snd <$> list_find (λ w, in_files w mx my) (windows (desk (fm_ui s))) = Some win ∧
  topmost_window_id_at (desk (fm_ui s)) mx my = Some (win_id win) ∧ find_nav (win_id win) (navs s) = Some n.

(** How far a window hangs over the left and the top edge of the screen. *)
Definition over_left win : Z := Z.max (- wx win) 0.
Definition over_top win : Z := Z.max (- wy win) 0.

(** The cell a hit test finds for a point, [k] lines off, of a drawn cell: as far to the right
    and below as the window hangs over the edges, the last column being the last. *)
Definition hit_cell win idx dx dy : Z :=
  let cols := grid_cols (right_w (ww win)) in
  idx + Z.min ((dx + over_left win) / GRID_CELL_W) (cols - 1 - idx mod cols) + (dy + over_top win) / GRID_CELL_H * cols.

Lemma hit_cell_on_screen win idx dx dy : 0 ≤ wx win → 0 ≤ wy win → 0 ≤ dx < GRID_CELL_W →
  hit_cell win idx dx dy = idx + dy / GRID_CELL_H * grid_cols (right_w (ww win)).
Proof.
  intros Hx Hy Hd. unfold hit_cell, over_left, over_top. rewrite !Z.max_r, !Z.add_0_r by lia. rewrite (Z.div_small dx) by done.
  pose proof (grid_cols_pos (right_w (ww win))). pose proof (Z.mod_pos_bound idx (grid_cols (right_w (ww win))) ltac:(lia)).
  rewrite Z.min_l by lia. lia.
Qed.

Lemma drawn_cell_Some tsc tpm win sc idx cx cy : anim win = None → drawn_cell (eased_rect tsc tpm win) sc idx = Some (cx, cy) ↔
  let cols := grid_cols (right_w (ww win)) in
  sc ≤ idx / cols ∧ (idx / cols - sc + 1) * GRID_CELL_H ≤ ssub (wh win) 23 ∧
  cx = wx win + over_left win + left_w (ww win) + 1 + idx mod cols * GRID_CELL_W ∧
  cy = wy win + over_top win + 23 + (idx / cols - sc) * GRID_CELL_H.
Proof.
  intros Ha. unfold eased_rect. rewrite Ha. unfold drawn_cell, win_rect. rewrite cell_rect_Some. cbv zeta. unfold over_left, over_top.
  replace (wx win + Z.max (- wx win) 0) with (Z.max (wx win) 0) by lia. by replace (wy win + Z.max (- wy win) 0) with (Z.max (wy win) 0) by lia.
Qed.

Lemma click_on_cell tsc tpm mx my s win n idx cx cy : asked mx my s win n → anim win = None → 0 ≤ idx →
  drawn_cell (eased_rect tsc tpm win) (scroll n) idx = Some (cx, cy) → in_rect cx cy GRID_CELL_W GRID_CELL_H mx my = true →
  hepfs_click mx my s = Some (win_id win, 4, hit_cell win idx (mx - cx) (my - cy)) ∧
  grid_idx_at (mx - wx win - left_w (ww win) - 1) (my - wy win - 22) (right_w (ww win)) (scroll n) =
    hit_cell win idx (mx - cx) (my - cy + 1).
Proof.
  intros (Hf & Ht & Hn) Ha Hi Hc Hp. apply drawn_cell_Some in Hc as (Hs & _ & -> & ->); [|done]. unfold in_rect in Hp.
  unfold hit_cell. pose proof (grid_cols_pos (right_w (ww win))) as Hpos. set (c := grid_cols (right_w (ww win))) in *.
  unfold GRID_CELL_W, GRID_CELL_H in *. assert (0 ≤ over_left win ∧ 0 ≤ over_top win) as [Hol Hot] by (unfold over_left, over_top; lia).
  pose proof (Z.mod_pos_bound idx c ltac:(lia)) as Hm.
  set (dx := mx - (wx win + over_left win + left_w (ww win) + 1 + idx mod c * 72)) in *.
  set (dy := my - (wy win + over_top win + 23 + (idx / c - scroll n) * 60)) in *.
  assert (0 ≤ dx < 72 ∧ 0 ≤ dy < 60) as [Hx Hy] by (unfold dx, dy; lia).
  pose proof (grid_idx_far (ww win) (scroll n) idx (dx + over_left win) (dy + over_top win) Hi Hs ltac:(lia) ltac:(lia)) as G.
  pose proof (grid_idx_far (ww win) (scroll n) idx (dx + over_left win) (dy + 1 + over_top win) Hi Hs ltac:(lia) ltac:(lia)) as G1.
  fold c in G, G1. unfold GRID_CELL_W, GRID_CELL_H in *.
  replace (idx mod c * 72 + (dx + over_left win)) with (mx - wx win - left_w (ww win) - 1) in G, G1 by (unfold dx; lia).
  replace ((idx / c - scroll n) * 60 + (dy + over_top win)) with (my - wy win - 23) in G by (unfold dy; lia).
  replace ((idx / c - scroll n) * 60 + (dy + 1 + over_top win)) with (my - wy win - 22) in G1 by (unfold dy; lia).
  split; [|exact G1]. unfold hepfs_click. cbv zeta. rewrite Hf, Ht, bool_decide_eq_true_2 by done. cbn [negb]. rewrite Hn.
  change (default 0 (scroll <$> Some n)) with (scroll n).
  rewrite (proj2 (Z.ltb_ge _ _)) by (unfold dy in *; nia). rewrite (proj2 (Z.leb_gt _ _)) by (unfold dx in *; lia). by rewrite G.
Qed.

(** C27: where a click, a drop and the marquee find a drawn cell, for a window in front that is
    not being animated, at any position. A click on a drawn cell is found [over_left] pixels to
    the right and [over_top] below, the pixels the window hangs over the left and top edges of
    the screen, since drawing alone takes negative coordinates as 0; the marquee's cells are off
    by the same amount. On a window that does not hang over, the click is thus on the cell's own
    row of the listing and the marquee selects exactly the drawn cells it overlaps. A drop counts
    from one pixel higher: on the last line of a cell it lands on the cell below. *)
Theorem grid_matches_drawing tsc tpm mx my s win n idx cx cy (Hask : asked mx my s win n) (Hanim : anim win = None) (Hidx : 0 ≤ idx)
    (Hcell : drawn_cell (eased_rect tsc tpm win) (scroll n) idx = Some (cx, cy)) :
  let drop_at := grid_idx_at (mx - wx win - left_w (ww win) - 1) (my - wy win - 22) (right_w (ww win)) (scroll n) in
  (in_rect cx cy GRID_CELL_W GRID_CELL_H mx my = true →
     hepfs_click mx my s = Some (win_id win, 4, hit_cell win idx (mx - cx) (my - cy)) ∧
     drop_at = hit_cell win idx (mx - cx) (my - cy + 1) ∧
     (0 ≤ wx win → 0 ≤ wy win → hepfs_click mx my s = Some (win_id win, 4, idx) ∧
        drop_at = idx + (if my =? cy + GRID_CELL_H - 1 then grid_cols (right_w (ww win)) else 0))) ∧
  ∀ total rx0 rx1 ry0 ry1, idx ∈ marquee_cells (wx win) (wy win) (ww win) (wh win) (scroll n) total rx0 rx1 ry0 ry1 ↔
    idx < total ∧ cx - over_left win < rx1 ∧ rx0 < cx - over_left win + GRID_CELL_W ∧
    cy - over_top win < ry1 ∧ ry0 < cy - over_top win + GRID_CELL_H.
Proof.
  cbv zeta. split.
  - intros Hp. destruct (click_on_cell tsc tpm mx my s win n idx cx cy Hask Hanim Hidx Hcell Hp) as [-> ->].
    split; [done|]. split; [done|]. intros Hx Hy. unfold in_rect in Hp. rewrite !hit_cell_on_screen by (done || lia).
    unfold GRID_CELL_H in *. rewrite (Z.div_small (my - cy)) by lia. split; [do 2 f_equal; lia|]. f_equal.
    destruct (Z.eqb_spec my (cy + 60 - 1)); [replace (my - cy + 1) with 60 by lia; rewrite Z.div_same by lia; lia|].
    rewrite Z.div_small by lia. lia.
  - intros. rewrite marquee_cells_spec. apply drawn_cell_Some in Hcell as (H1 & H2 & -> & ->); [|done].
    set (cx := wx win + over_left win + _ + _ + _). set (cy := wy win + over_top win + _ + _).
    assert (cell_rect (wx win) (wy win) (ww win) (wh win) (scroll n) idx = Some (cx - over_left win, cy - over_top win)) as E.
    { apply cell_rect_Some. cbv zeta. unfold cx, cy. lia. }
    rewrite E. split; [intros (? & ? & ? & [= <- <-] & ?); split; [lia|done]|]. intros [? ?]. split; [lia|]. by do 2 eexists.
Qed.

(** On a window resized over the left edge a click can miss the cell it is on. *)
Lemma overhang_misses win idx dx dy : 0 ≤ dx < GRID_CELL_W → 0 ≤ dy < GRID_CELL_H → over_top win = 0 → 0 ≤ idx →
  GRID_CELL_W ≤ dx + over_left win → idx mod grid_cols (right_w (ww win)) + 1 < grid_cols (right_w (ww win)) → idx < hit_cell win idx dx dy.
Proof.
  intros Hx Hy Ht Hi Ho Hc. unfold hit_cell. rewrite Ht, Z.add_0_r, (Z.div_small dy) by done. unfold GRID_CELL_W in *.
  assert (1 ≤ (dx + over_left win) / 72) by (apply Z.div_le_lower_bound; lia). lia.
Qed.

(** With two Files windows under the pointer the click handler asks the first of the list; when
    the other is in front the click does nothing. *)
Lemma overlap_swallows_click now shift mx my s win : snd <$> list_find (λ w, in_files w mx my) (windows (desk (fm_ui s))) = Some win →
  topmost_window_id_at (desk (fm_ui s)) mx my ≠ Some (win_id win) → files_click now shift mx my s = Ok s.
Proof. intros Hf Ht. unfold files_click, hepfs_click. cbv zeta. by rewrite Hf, bool_decide_eq_false_2 by done. Qed.

(** ** The cache *)

(** the listing a Files window caches goes stale: writing a file does not bump the
    generation, so after a write that leaves the file [data] long the window that had its
    directory cached is still handed the old listing, sizes included. *)
Theorem cached_size_stale (d : fs D F) g ino data w l nav dir :
  fs_rep d g → 0 ≤ ino < MAX_INODES → flags (inode_at (bl d) ino) = F_FILE → Forall is_byte data →
  4 + 2 * nch data ≤ room (bl d) (cap d) → 40 + 16 * nch data ≤ avail d →
  find_nav w l = Some nav → cache_ino nav = Some dir → cache_gen nav = generation d →
  wp (write_file ino data) d (λ _ d', size (inode_at (bl d') ino) = len data ∧
    hepfs_list_dir_cached w dir (l, d') = Ok (cache_entries nav, (l, d'))).
Proof.
  intros Hr Hi Hf Hb H1 H2 Hn Hc Hg. eapply wp_mono; [by apply (write_file_spec d g)|].
  intros [] d' (g' & _ & _ & Eg & _ & (_ & Hs & _) & _). split; [done|].
  unfold hepfs_list_dir_cached. rewrite Hn, Hc. unfold generation in *. rewrite Eg, Hg, Z.eqb_refl, bool_decide_eq_true_2 by done. done.
Qed.
End windows.

(** ** Scrolling *)

(** C29: how far the icon grid scrolls. At some offset the scroll bar allows, the last row of a
    listing is drawn exactly when all rows fit or the
    pane's height is a whole number of cells: otherwise the pane counts the row it can only show
    in part as visible, does not draw it, and the last row can never be seen. *)
Theorem last_row_reachable_iff wx wy ww wh total : 0 < total → 23 < wh →
  let rw := right_w ww in let rows := div_ceil total (grid_cols rw) in
  (∃ sc, 0 ≤ sc ≤ max_scroll_of total rw (wh - 23) ∧ is_Some (cell_rect wx wy ww wh sc (total - 1))) ↔
  rows * GRID_CELL_H ≤ wh - 23 ∨ (wh - 23) mod GRID_CELL_H = 0.
Proof.
  intros Ht Hw rw rows. pose proof (grid_cols_pos rw) as Hc.
  assert ((total - 1) / grid_cols rw = rows - 1) as Er.
  { unfold rows, div_ceil. replace (total + grid_cols rw - 1) with (total - 1 + 1 * grid_cols rw) by lia. rewrite Z.div_add by lia. lia. }
  assert (0 ≤ (total - 1) / grid_cols rw) by (apply Z.div_pos; lia).
  assert (∀ sc, is_Some (cell_rect wx wy ww wh sc (total - 1)) ↔ sc ≤ rows - 1 ∧ (rows - sc) * GRID_CELL_H ≤ wh - 23) as Hd.
  { intros sc. split.
    - intros [[cx cy] E]. apply cell_rect_Some in E. fold rw in E. unfold ssub in E. cbv zeta in E. rewrite Er in E. unfold GRID_CELL_H in *. lia.
    - intros ?. eexists (_, _). apply cell_rect_Some. fold rw. unfold ssub. cbv zeta. rewrite Er. unfold GRID_CELL_H in *. split_and!; [lia|lia|done|done]. }
  setoid_rewrite Hd. unfold max_scroll_of, ssub. fold rows. unfold div_ceil, GRID_CELL_H in *. split.
  - intros (sc & ? & ?). dlia.
  - intros [?|?]; [exists 0; lia|]. exists (Z.max (rows - (wh - 23) / 60) 0). dlia.
Qed.

(** ** Witnesses *)

(** One Files window of the default size, showing its root. *)
Definition demo_fm : fm (D := ram_disk) (F := pmm) := snd (open_dir_entry 0 ROOT_INO [] (txt "/") (mkFm [] demo_start None None None)).
Definition demo_win : Window := default (window_new 0 0 Files [] 0 0 0 0) (find_win 0 (windows (desk (fm_ui demo_fm)))).
Definition demo_nav : HepfsNav := default hepfs_nav_new (find_nav 0 (navs demo_fm)).

(** The same once its opening animation is over. *)
Definition demo_still : fm (D := ram_disk) (F := pmm) :=
  set_ui (on_desk (λ d, set_windows (set_anim None <$> windows d) d) (fm_ui demo_fm)) demo_fm.

Lemma grid_matches_drawing_witness : hepfs_click 330 180 demo_still = Some (0, 4, 3) ∧
  3 ∈ marquee_cells (wx demo_win) (wy demo_win) (ww demo_win) (wh demo_win) (scroll demo_nav) 5 300 325 100 180.
Proof.
  destruct (grid_matches_drawing 0 1 330 180 demo_still (set_anim None demo_win) demo_nav 3 324 173) as [Hc Hm].
  - vm_compute. done.
  - reflexivity.
  - lia.
  - vm_compute. reflexivity.
  - split; [apply Hc; vm_compute; (reflexivity || discriminate)|]. apply Hm. vm_compute. done.
Defined.

Definition stale_nav (d : fs ram_disk pmm) : HepfsNav := set_cache (Some ROOT_INO) (generation d) [(1, demo_name, false, 0)] hepfs_nav_new.

Lemma cached_size_stale_witness : ∃ ino,
  wp (write_file ino demo_data) demo_file (λ _ d', size (inode_at (bl d') ino) = 10 ∧
    hepfs_list_dir_cached 1 ROOT_INO ([(1, stale_nav demo_file)], d') = Ok ([(1, demo_name, false, 0)], ([(1, stale_nav demo_file)], d'))).
Proof.
  destruct demo_file_spec as (ino & g & Hc & Hh & Hroom & Hav). destruct demo_data_ok as [Hb Hn].
  exists ino. apply (cached_size_stale demo_file g ino demo_data 1 [(1, stale_nav demo_file)] (stale_nav demo_file) ROOT_INO).
  - apply Hc.
  - pose proof (proj1 (cr_fresh _ _ _ _ _ _ _ Hc)). lia.
  - apply Hh.
  - exact Hb.
  - rewrite Hn. lia.
  - rewrite Hn. lia.
  - reflexivity.
  - reflexivity.
  - reflexivity.
Defined.

(** The default window shows two columns: with five entries its last row is out of reach. *)
Lemma last_row_reachable_iff_witness :
  (¬ ∃ sc, 0 ≤ sc ≤ max_scroll_of 5 (right_w 260) (160 - 23) ∧ is_Some (cell_rect 160 90 260 160 sc (5 - 1))).
Proof.
  intros H. destruct (last_row_reachable_iff 160 90 260 160 5 ltac:(lia) ltac:(lia)) as [H1 _].
  destruct (H1 H) as [A|A]; vm_compute in A; [by apply A|discriminate A].
Defined.
