(* ===== verification/Ahci.v ===== *)
(** The SATA disk ([kernel/src/ahci.rs]) and its driver process ([userspace/ahcid/src/main.rs]):
    the search for a port, command slot 0 in memory, issuing a command, IDENTIFY, and the
    mailbox between kernel and process.

    Command header, command table and data buffers are bytes of physical memory, at the offsets
    of the [repr(C)] structs. The port is outside the sources: it is the class [SataPort], whose
    laws are what the AHCI specification says of a command slot (the Fatal state after a task
    file error included) and ATA of READ and WRITE DMA EXT. Where the two sides of the mailbox
    meet, every access to a field they share is a step of its own; a transfer is one step.

    Not modelled: PCI enabling, the mapping of registers, logging, launching the process. *)

From stdpp Require Import prelude list numbers strings.
From S2P Require Import Prelude Pmm Memory.

Local Open Scope Z_scope.

(** ** Constants *)

Definition PORT_SIG : Z := 0x24.
Definition PORT_SSTS : Z := 0x28.
Definition HBA_PI : Z := 0x0C.
Definition CMD_ST : Z := 1.
Definition CMD_FRE : Z := 0x10.
Definition CMD_FR : Z := 0x4000.
Definition CMD_CR : Z := 0x8000.
Definition TFD_BSY : Z := 0x80.
Definition TFD_DRQ : Z := 0x08.
Definition IS_TFES : Z := 0x40000000.
Definition SIG_ATA : Z := 0x101.
Definition ATA_CMD_READ_DMA_EXT : Z := 0x25.
Definition ATA_CMD_WRITE_DMA_EXT : Z := 0x35.
Definition ATA_CMD_IDENTIFY : Z := 0xEC.
Definition CTBA_PRDT_OFFSET : Z := 128.

(** ** Finding the disk *)

Section registers.
(** A register's value by its offset from ABAR. *)
Variable r32 : Z → Z.

Definition port_base_of (i : Z) : Z := 0x100 + i * 0x80.

Definition is_disk (i : Z) : bool :=
  let ssts := r32 (port_base_of i + PORT_SSTS) in
  (Z.land ssts 0xF =? 3) && (Z.land (Z.shiftr ssts 8) 0xF =? 1) && (r32 (port_base_of i + PORT_SIG) =? SIG_ATA).

(** The loop over the 32 ports: [i] is the next one. *)
Fixpoint find_port (fuel : nat) (pi i : Z) : option Z :=
  match fuel with
  | O => None
  | S fuel => if Z.land pi (Z.shiftl 1 i) =? 0 then find_port fuel pi (i + 1) else if is_disk i then Some i else find_port fuel pi (i + 1)
  end.
Definition found_port : option Z := find_port 32 (r32 HBA_PI) 0.
End registers.

(** [bar5 & !0xF] *)
Definition abar_phys_of (bar5 : Z) : Z := Z.land bar5 (Z.lnot 0xF).

(** [for _ in 0..n { if reg & mask == 0 { return true } }]; [v i] is the register at the [i]-th look. *)
Fixpoint wait_clear (fuel i : nat) (mask : Z) (v : nat → Z) : bool :=
  match fuel with O => false | S fuel => if Z.land (v i) mask =? 0 then true else wait_clear fuel (S i) mask v end.

(** The value [stop_port] writes to [PORT_CMD], and its wait. *)
Definition stop_cmd (cmd : Z) : Z := Z.land cmd (Z.lnot (Z.lor CMD_ST CMD_FRE)).
Definition stop_port (v : nat → Z) : bool := wait_clear (Z.to_nat 50000000) 0 (Z.lor CMD_CR CMD_FR) v.

(** ** Command slot 0 *)

Record FisRegH2D := mkFis {
  fis_type : Z; fis_flags : Z; command : Z; featurel : Z; lba0 : Z; lba1 : Z; lba2 : Z; device : Z;
  lba3 : Z; lba4 : Z; lba5 : Z; featureh : Z; countl : Z; counth : Z; icc : Z; control : Z }.

Definition fis_bytes (f : FisRegH2D) : list Z :=
  [fis_type f; fis_flags f; command f; featurel f; lba0 f; lba1 f; lba2 f; device f; lba3 f; lba4 f; lba5 f; featureh f; countl f; counth f; icc f; control f; 0; 0; 0; 0].

Definition lba_fis (cmd lba count : Z) : FisRegH2D :=
  mkFis 0x27 0x80 cmd 0 (u8 lba) (u8 (Z.shiftr lba 8)) (u8 (Z.shiftr lba 16)) 0x40
    (u8 (Z.shiftr lba 24)) (u8 (Z.shiftr lba 32)) (u8 (Z.shiftr lba 40)) 0 (u8 count) (u8 (Z.shiftr count 8)) 0 0.

Definition identify_fis : FisRegH2D := mkFis 0x27 0x80 ATA_CMD_IDENTIFY 0 0 0 0 0 0 0 0 0 0 0 0 0.

(** [PrdtEntry]: the 64-bit address in two halves, a reserved word, the length less one. *)
Definition prdt_bytes (phys n : Z) : list Z :=
  le_bytes 4 (u32 phys) ++ le_bytes 4 (u32 (Z.shiftr phys 32)) ++ le_bytes 4 0 ++ le_bytes 4 (Z.max (n - 1) 0).

(** The fields of [CmdHeader] a command sets: [dw0], [prdtl], [prdbc]. *)
Definition header_bytes (write : bool) (prdtl : Z) : list Z := le_bytes 2 (Z.lor 5 (if write then 64 else 0)) ++ le_bytes 2 prdtl ++ le_bytes 4 0.

Definition build_command (clb ctba : Z) (fis : FisRegH2D) (xfer : option (Z * Z)) (write : bool) (m : memory) : memory :=
  let m := poke m ctba (fis_bytes fis) in
  let m := match xfer with Some (phys, n) => poke m (ctba + CTBA_PRDT_OFFSET) (prdt_bytes phys n) | None => m end in
  poke m clb (header_bytes write (match xfer with Some _ => 1 | None => 0 end)).

(** [init] pointing the slot at its table, in pages it has cleared. *)
Definition init_slot (clb fb ctba : Z) (m : memory) : memory :=
  let m := zero_page (zero_page (zero_page m clb) fb) ctba in
  poke (poke m (clb + 8) (le_bytes 4 (u32 ctba) ++ le_bytes 4 (u32 (Z.shiftr ctba 32)))) (clb + 2) (le_bytes 2 0).

(** *** What a port makes of it *)

Definition table_of (m : memory) (clb : Z) : Z := le_val (peek m (clb + 8) 8).
Definition fis_lba (l : list Z) : Z := le_val (take 3 (drop 4 l) ++ take 3 (drop 8 l)).
Definition fis_count (l : list Z) : Z := le_val (take 2 (drop 12 l)).

(** A transfer of [n] sectors from [lba] to or from [buf], in slot 0 of the list at [clb]. *)
Record sata_cmd (m : memory) (clb : Z) (write : bool) (lba n buf : Z) : Prop := {
  sc_dw0 : le_val (peek m clb 2) = if write then 69 else 5;
  sc_prdtl : le_val (peek m (clb + 2) 2) = 1;
  sc_type : m (table_of m clb) = 0x27 ∧ m (table_of m clb + 1) = 0x80 ∧ m (table_of m clb + 7) = 0x40;
  sc_op : m (table_of m clb + 2) = if write then ATA_CMD_WRITE_DMA_EXT else ATA_CMD_READ_DMA_EXT;
  sc_lba : fis_lba (peek m (table_of m clb) 20) = lba;
  sc_count : fis_count (peek m (table_of m clb) 20) = n;
  sc_base : le_val (peek m (table_of m clb + CTBA_PRDT_OFFSET) 8) = buf;
  sc_len : le_val (peek m (table_of m clb + CTBA_PRDT_OFFSET + 12) 4) = n * 512 - 1;
  sc_even : buf mod 2 = 0;
  sc_pos : 0 < n }.

(** [PORT_IS] and [PORT_CI] at the [i]-th look after a command was issued. *)
Definition completes (k : nat) (v : nat → Z * Z) : Prop :=
  (∀ i, Z.land (v i).1 IS_TFES = 0) ∧ (∀ i, (i < k)%nat → Z.land (v i).2 1 ≠ 0) ∧ Z.land (v k).2 1 = 0.
Definition errors (k : nat) (v : nat → Z * Z) : Prop :=
  (∀ i, (i < k)%nat → Z.land (v i).1 IS_TFES = 0) ∧ Z.land (v k).1 IS_TFES ≠ 0 ∧ ∀ i, Z.land (v i).2 1 ≠ 0.
Definition hangs (v : nat → Z * Z) : Prop := ∀ i, Z.land (v i).1 IS_TFES = 0 ∧ Z.land (v i).2 1 ≠ 0.

Class SataPort (P : Type) := {
  sp_byte : P → Z → Z;
  sp_sectors : P → Z;
  sp_clb : P → Z;
  sp_halted : P → bool;
  sp_lat : P → nat;
  sp_tfd : P → nat → Z;
  (** [PORT_CI] set to 1. *)
  sp_issue : P → memory → (nat → Z * Z) * memory * P;
  (** [PORT_IS] cleared. *)
  sp_ack : P → P;
  sp_tfd_law : ∀ p, ∃ k, (k ≤ sp_lat p)%nat ∧ Z.land (sp_tfd p k) (Z.lor TFD_BSY TFD_DRQ) = 0;
  sp_ack_law : ∀ p, sp_byte (sp_ack p) = sp_byte p ∧ sp_sectors (sp_ack p) = sp_sectors p ∧ sp_clb (sp_ack p) = sp_clb p ∧ sp_halted (sp_ack p) = sp_halted p;
  sp_keeps_law : ∀ p m v m' p', sp_issue p m = (v, m', p') → sp_sectors p' = sp_sectors p ∧ sp_clb p' = sp_clb p;
  sp_read_law : ∀ p m lba n buf, sata_cmd m (sp_clb p) false lba n buf → sp_halted p = false → lba + n ≤ sp_sectors p →
    ∃ v k p', (k ≤ sp_lat p)%nat ∧ sp_issue p m = (v, poke m buf (sp_byte p <$> seqZ (lba * 512) (n * 512)), p') ∧ completes k v ∧
      sp_halted p' = false ∧ ∀ o, sp_byte p' o = sp_byte p o;
  sp_write_law : ∀ p m lba n buf, sata_cmd m (sp_clb p) true lba n buf → sp_halted p = false → lba + n ≤ sp_sectors p →
    ∃ v k p', (k ≤ sp_lat p)%nat ∧ sp_issue p m = (v, m, p') ∧ completes k v ∧ sp_halted p' = false ∧
      ∀ o, sp_byte p' o = if bool_decide (lba * 512 ≤ o < lba * 512 + n * 512) then m (buf + (o - lba * 512)) else sp_byte p o;
  sp_error_law : ∀ p m w lba n buf, sata_cmd m (sp_clb p) w lba n buf → sp_halted p = false → sp_sectors p ≤ lba →
    ∃ v k p', (k ≤ sp_lat p)%nat ∧ sp_issue p m = (v, m, p') ∧ errors k v ∧ sp_halted p' = true ∧ ∀ o, sp_byte p' o = sp_byte p o;
  sp_halted_law : ∀ p m, sp_halted p = true → ∃ v p', sp_issue p m = (v, m, p') ∧ hangs v ∧ sp_halted p' = true ∧ ∀ o, sp_byte p' o = sp_byte p o
}.

Section ahci.
Context {P : Type} `{!SataPort P}.

(** ** Issuing a command *)

Definition BUSY_SPINS : nat := Z.to_nat 200000000.
Definition CMD_SPINS : nat := Z.to_nat 500000000.

Definition wait_not_busy (p : P) : bool := wait_clear BUSY_SPINS 0 (Z.lor TFD_BSY TFD_DRQ) (sp_tfd p).

(** The polling loop; on a task file error [PORT_IS] is cleared. *)
Fixpoint poll_done (fuel i : nat) (v : nat → Z * Z) (p : P) : bool * P :=
  match fuel with
  | O => (false, p)
  | S fuel =>
    if negb (Z.land (v i).1 IS_TFES =? 0) then (false, sp_ack p)
    else if Z.land (v i).2 1 =? 0 then (true, p)
    else poll_done fuel (S i) v p
  end.

Definition issue_command (clb ctba : Z) (fis : FisRegH2D) (xfer : option (Z * Z)) (write : bool) (m : memory) (p : P) : bool * memory * P :=
  let m := build_command clb ctba fis xfer write m in
  if negb (wait_not_busy p) then (false, m, p)
  else
    let '(v, m, p) := sp_issue p m in
    let '(ok, p) := poll_done CMD_SPINS 0 v p in
    (ok, m, p).

(** The sector count an IDENTIFY page at [a] gives. *)
Definition word (m : memory) (a i : Z) : Z := le_val (peek m (a + 2 * i) 2).
Definition identify_sectors (m : memory) (a : Z) : Z :=
  if negb (Z.land (word m a 83) (Z.shiftl 1 10) =? 0) then
    foldl (λ s i, Z.lor s (Z.shiftl (word m a (100 + i)) (16 * i))) 0 [0; 1; 2; 3]
  else Z.lor (Z.shiftl (word m a 61) 16) (word m a 60).

(** The page [buf] was allocated for it and is freed again. *)
Definition identify (clb ctba buf : Z) (m : memory) (p : P) : option Z * memory * P :=
  let m := poke m buf (replicate 512 0) in
  let '(ok, m, p) := issue_command clb ctba identify_fis (Some (buf, 512)) false m p in
  (if ok then Some (identify_sectors m buf) else None, m, p).

(** ** The mailbox *)

Record Mailbox := mkMailbox {
  mb_abar : Z; mb_clb : Z; mb_ctba : Z; mb_port_base : Z; mb_sector_size : Z; mb_op : Z; mb_status : Z; mb_lba : Z; mb_count : Z; mb_stop : Z }.
Definition eta_mailbox (b : Mailbox) : Mailbox :=
  mkMailbox (mb_abar b) (mb_clb b) (mb_ctba b) (mb_port_base b) (mb_sector_size b) (mb_op b) (mb_status b) (mb_lba b) (mb_count b) (mb_stop b).
Definition set_op (v : Z) (b : Mailbox) : Mailbox := ltac:(upd eta_mailbox mb_op b v).
Definition set_status (v : Z) (b : Mailbox) : Mailbox := ltac:(upd eta_mailbox mb_status b v).
Definition set_lba (v : Z) (b : Mailbox) : Mailbox := ltac:(upd eta_mailbox mb_lba b v).
Definition set_count (v : Z) (b : Mailbox) : Mailbox := ltac:(upd eta_mailbox mb_count b v).
Definition set_stop (v : Z) (b : Mailbox) : Mailbox := ltac:(upd eta_mailbox mb_stop b v).

(** The mailbox [init] prepares. *)
Definition init_mailbox (abar clb ctba port_base : Z) : Mailbox := mkMailbox abar clb ctba port_base 512 0 0 0 0 0.

(** [offset_of!(Mailbox, data)] *)
Definition DATA_OFF : Z := 56.
Definition MAILBOX_WAIT_SPINS : nat := Z.to_nat 500000000.

Record request := mkReq { r_write : bool; r_lba : Z; r_count : Z; r_buf : Z }.
Definition op_code (r : request) : Z := if r_write r then 2 else 1.

(** Where the kernel is in [read_sectors] or [write_sectors]; a read looks at [status] twice. *)
Inductive kpc := KIdle | KLba (r : request) | KCount (r : request) | KStatus (r : request) | KOp (r : request)
  | KPoll (r : request) (n : nat) | KAgain (r : request) | KTake (r : request) (ok : bool) | KAck (r : request) (ok : bool).

(** Where [ahcid] is in its loop. *)
Inductive dpc := DTop | DOp | DLba (op : Z) | DCount (op lba : Z) | DIssue (op lba count : Z) | DStatus (st : Z) | DClear | DWait | DGone.

(** A transfer as an observer sees it: direction, place, success and, then, the bytes. *)
Record transfer := mkTr { t_write : bool; t_lba : Z; t_count : Z; t_ok : bool; t_data : list Z }.

Record box := mkBox { ram : memory; port : P; mb : Mailbox; kat : kpc; dat : dpc;
  issued : list transfer;    (** every request [ahcid] carried out, with what the mailbox's buffer then holds *)
  answered : list transfer;  (** every request the kernel saw answered, with what its own buffer then holds *)
  expired : bool             (** whether a request was ever given up *) }.

Definition set_k (k : kpc) (s : box) : box := mkBox (ram s) (port s) (mb s) k (dat s) (issued s) (answered s) (expired s).
Definition set_d (d : dpc) (s : box) : box := mkBox (ram s) (port s) (mb s) (kat s) d (issued s) (answered s) (expired s).
Definition set_mb (b : Mailbox) (s : box) : box := mkBox (ram s) (port s) b (kat s) (dat s) (issued s) (answered s) (expired s).
Definition set_ram (m : memory) (s : box) : box := mkBox m (port s) (mb s) (kat s) (dat s) (issued s) (answered s) (expired s).
Definition expire_request (s : box) : box := mkBox (ram s) (port s) (mb s) (kat s) (dat s) (issued s) (answered s) true.

Variable mailbox_phys : Z.
Definition data_phys : Z := mailbox_phys + DATA_OFF.
Definition bytes_of (count : Z) : nat := Z.to_nat (u32 (count * 512)).

Definition seen (w : bool) (lba count : Z) (ok : bool) (m : memory) (a : Z) : transfer :=
  mkTr w lba count ok (if ok then peek m a (bytes_of count) else []).
Definition answer (r : request) (ok : bool) (s : box) : box :=
  mkBox (ram s) (port s) (mb s) (kat s) (dat s) (issued s) (answered s ++ [seen (r_write r) (r_lba r) (r_count r) ok (ram s) (r_buf r)]) (expired s).

(** A call: a length of 0 or above the buffer's is refused, else a write's bytes are copied. *)
Definition kernel_start (r : request) (s : box) : box :=
  let n := u32 (r_count r * 512) in
  if (n =? 0) || (4096 <? n) then answer r false s
  else set_k (KLba r) (if r_write r then set_ram (poke (ram s) data_phys (peek (ram s) (r_buf r) (bytes_of (r_count r)))) s else s).

Definition kernel_step (s : box) : box :=
  match kat s with
  | KIdle => s
  | KLba r => set_k (KCount r) (set_mb (set_lba (r_lba r) (mb s)) s)
  | KCount r => set_k (KStatus r) (set_mb (set_count (r_count r) (mb s)) s)
  | KStatus r => set_k (KOp r) (set_mb (set_status 0 (mb s)) s)
  | KOp r => set_k (KPoll r MAILBOX_WAIT_SPINS) (set_mb (set_op (op_code r) (mb s)) s)
  | KPoll r O => expire_request (set_k (KTake r false) s)
  | KPoll r (S n) =>
    if mb_status (mb s) =? 0 then set_k (KPoll r n) s
    else if r_write r then set_k (KTake r (mb_status (mb s) =? 1)) s
    else set_k (KAgain r) s
  | KAgain r => set_k (KTake r (mb_status (mb s) =? 1)) s
  | KTake r ok =>
    set_k (KAck r ok) (if ok && negb (r_write r) then set_ram (poke (ram s) (r_buf r) (peek (ram s) data_phys (bytes_of (r_count r)))) s else s)
  | KAck r ok => answer r ok (set_k KIdle (set_mb (set_status 0 (mb s)) s))
  end.

Definition ahcid_issue (op lba count : Z) (s : box) : box :=
  let write := op =? 2 in
  let '(ok, m, p) := issue_command (mb_clb (mb s)) (mb_ctba (mb s)) (lba_fis (if write then ATA_CMD_WRITE_DMA_EXT else ATA_CMD_READ_DMA_EXT) lba (u16 count))
    (Some (data_phys, u32 (count * mb_sector_size (mb s)))) write (ram s) (port s) in
  mkBox m p (mb s) (kat s) (DStatus (if ok then 1 else 2)) (issued s ++ [seen write lba count ok m data_phys]) (answered s) (expired s).

Definition ahcid_step (s : box) : box :=
  match dat s with
  | DTop => set_d (if mb_stop (mb s) =? 0 then DOp else DGone) s
  | DOp => set_d (if mb_op (mb s) =? 0 then DWait else DLba (mb_op (mb s))) s
  | DLba op => set_d (DCount op (mb_lba (mb s))) s
  | DCount op lba => set_d (DIssue op lba (mb_count (mb s))) s
  | DIssue op lba count => ahcid_issue op lba count s
  | DStatus st => set_d DClear (set_mb (set_status st (mb s)) s)
  | DClear => set_d DWait (set_mb (set_op 0 (mb s)) s)
  | DWait => set_d DTop s
  | DGone => s
  end.

(** [stop_service] asking, which waits for the lock every transaction holds, and
    [start_service] launching the process anew. *)
Definition stop_service (s : box) : box := set_mb (set_stop 1 (mb s)) s.
Definition start_service (s : box) : box := set_d DTop (set_mb (set_stop 0 (mb s)) s).

(** Kernel, process and service commands in any order, one access at a time. *)
Variable valid : request → Prop.

Inductive box_step (s : box) : box → Prop :=
| step_start r : kat s = KIdle → valid r → box_step s (kernel_start r s)
| step_kernel : box_step s (kernel_step s)
| step_ahcid : box_step s (ahcid_step s)
| step_stop : kat s = KIdle → box_step s (stop_service s)
| step_restart : dat s = DGone → box_step s (start_service s).
End ahci.

Arguments mkBox {P}.
