(* ===== verification/AhciSpec.v ===== *)
(** The SATA driver: what a command in memory asks of the port, that the mailbox path is a disk
    as long as no request is given up, and what one error does to it. *)

From stdpp Require Import prelude list numbers strings.
From S2P Require Import Prelude Pmm Memory Ahci.

Local Open Scope Z_scope.

Lemma sata_spins_pos : MAILBOX_WAIT_SPINS ≠ O.
Proof. unfold MAILBOX_WAIT_SPINS. lia. Qed.
Lemma sata_spins_three : (3 < BUSY_SPINS)%nat ∧ (3 < CMD_SPINS)%nat.
Proof. unfold BUSY_SPINS, CMD_SPINS. lia. Qed.
#[local] Opaque MAILBOX_WAIT_SPINS BUSY_SPINS CMD_SPINS.

(** ** Bytes in memory *)

Lemma peek_poke_sub m a l k n : (k + n ≤ length l)%nat → peek (poke m a l) (a + Z.of_nat k) n = take n (drop k l).
Proof.
  intros H. apply list_eq. intros i. destruct (decide (i < n)%nat) as [Hi|Hi].
  - rewrite lookup_peek by done. rewrite lookup_take_lt, lookup_drop by done. destruct (lookup_lt_is_Some_2 l (k + i)) as [b Hb]; [lia|]. rewrite Hb.
    f_equal. apply poke_in; [|lia]. by replace (Z.to_nat _) with (k + i)%nat by lia.
  - rewrite !lookup_ge_None_2; [done|rewrite length_take, length_drop; lia|rewrite length_peek; lia].
Qed.

Lemma le_val_app l1 l2 : le_val (l1 ++ l2) = le_val l1 + 2 ^ (8 * len l1) * le_val l2.
Proof.
  induction l1 as [|b l1 IH]; [cbn [app le_val]; change (len []) with 0; lia|]. change ((b :: l1) ++ l2) with (b :: (l1 ++ l2)). cbn [le_val]. rewrite IH.
  unfold len. cbn [length]. replace (8 * Z.of_nat (S (length l1))) with (8 + 8 * Z.of_nat (length l1)) by lia. rewrite Z.pow_add_r by lia. lia.
Qed.

Lemma halves_val x : 0 ≤ x < 2 ^ 64 → le_val (le_bytes 4 (u32 x) ++ le_bytes 4 (u32 (Z.shiftr x 32))) = x.
Proof.
  intros H. rewrite le_val_app. unfold len. rewrite length_le_bytes. rewrite !le_val_bytes by (change (8 * Z.of_nat 4) with 32; unfold wrap; dlia).
  change (8 * Z.of_nat 4) with 32. rewrite Z.shiftr_div_pow2 by lia. unfold wrap. dlia.
Qed.

Lemma lba_fis_val c lba n : 0 ≤ lba < 2 ^ 48 → fis_lba (fis_bytes (lba_fis c lba n)) = lba.
Proof.
  intros H. transitivity (le_val (le_bytes 6 lba)); [|by apply le_val_bytes]. unfold fis_lba, fis_bytes, lba_fis. cbn -[Z.shiftr]. unfold wrap.
  rewrite !Z.shiftr_div_pow2 by lia. rewrite !Zdiv_Zdiv by lia. done.
Qed.

Lemma lba_fis_count c lba n : 0 ≤ n < 2 ^ 16 → fis_count (fis_bytes (lba_fis c lba n)) = n.
Proof.
  intros H. transitivity (le_val (le_bytes 2 n)); [|by apply le_val_bytes]. unfold fis_count, fis_bytes, lba_fis. cbn -[Z.shiftr]. unfold wrap.
  by rewrite !Z.shiftr_div_pow2 by lia.
Qed.

(** ** One command *)

Section command.
Context {P : Type} `{!SataPort P}.
Context (clb ctba : Z) (Hclb : 0 ≤ clb) (Hctba : 0 ≤ ctba < 2 ^ 64) (Hapart : clb + 4096 ≤ ctba ∨ ctba + 4096 ≤ clb).
Context (Hlat : ∀ p : P, (sp_lat p < BUSY_SPINS)%nat ∧ (sp_lat p < CMD_SPINS)%nat).

Definition op_of (w : bool) : Z := if w then ATA_CMD_WRITE_DMA_EXT else ATA_CMD_READ_DMA_EXT.
Definition command_for (w : bool) (lba n buf : Z) : memory → memory := build_command clb ctba (lba_fis (op_of w) lba n) (Some (buf, n * 512)) w.

(** Where the slot is. *)
Definition in_slot (x : Z) : Prop := clb ≤ x < clb + 4096 ∨ ctba ≤ x < ctba + 4096.

Lemma command_outside w lba n buf m x : ¬ in_slot x → command_for w lba n buf m x = m x.
Proof. intros H. unfold in_slot in H. unfold command_for, build_command, CTBA_PRDT_OFFSET. rewrite !poke_out; [done|unfold len; cbn; lia..]. Qed.

Lemma command_table w lba n buf m : table_of m clb = ctba → table_of (command_for w lba n buf m) clb = ctba.
Proof.
  intros <-. unfold table_of in *. f_equal. unfold command_for, build_command, CTBA_PRDT_OFFSET. apply peek_ext. intros x Hx.
  rewrite !poke_out; [done|unfold len; cbn; lia..].
Qed.

Lemma command_sound w lba n buf m : table_of m clb = ctba → 0 ≤ lba < 2 ^ 48 → 0 < n ≤ 8 → 0 ≤ buf < 2 ^ 64 → buf mod 2 = 0 →
  sata_cmd (command_for w lba n buf m) clb w lba n buf.
Proof.
  intros Ht Hl Hn Hb He. pose proof (command_table w lba n buf m Ht) as Ht'. set (m' := command_for w lba n buf m) in *.
  set (f := fis_bytes (lba_fis (op_of w) lba n)). set (d := prdt_bytes buf (n * 512)). set (h := header_bytes w 1).
  assert (∀ k j, (k + j ≤ 8)%nat → peek m' (clb + Z.of_nat k) j = take j (drop k h)) as Hh.
  { intros k j H. unfold m', command_for, build_command. cbv zeta. fold h. apply peek_poke_sub. cbn. lia. }
  assert (∀ k j, (k + j ≤ 16)%nat → peek m' (ctba + CTBA_PRDT_OFFSET + Z.of_nat k) j = take j (drop k d)) as Hd.
  { intros k j H. unfold m', command_for, build_command. cbv zeta. fold d. rewrite peek_poke_out by (unfold len, CTBA_PRDT_OFFSET; cbn; lia).
    apply peek_poke_sub. cbn. lia. }
  assert (∀ k j, (k + j ≤ 20)%nat → peek m' (ctba + Z.of_nat k) j = take j (drop k f)) as Hf.
  { intros k j H. unfold m', command_for, build_command. cbv zeta. fold f. rewrite peek_poke_out by (unfold len; cbn; lia).
    rewrite peek_poke_out by (unfold len, CTBA_PRDT_OFFSET; cbn; lia). apply peek_poke_sub. cbn. lia. }
  assert (∀ k b, (k < 20)%nat → f !! k = Some b → m' (ctba + Z.of_nat k) = b) as Hb1.
  { intros k b Hk E. specialize (Hf k 1%nat ltac:(lia)). cbn in Hf. rewrite Z.add_0_r in Hf. rewrite (drop_S _ _ _ E) in Hf. cbn in Hf. by injection Hf. }
  split; rewrite ?Ht'; try done; [..|lia].
  - specialize (Hh 0%nat 2%nat ltac:(lia)). rewrite Z.add_0_r in Hh. rewrite Hh. by destruct w.
  - specialize (Hh 2%nat 2%nat ltac:(lia)). change (Z.of_nat 2) with 2 in Hh. rewrite Hh. by destruct w.
  - split_and!; [rewrite <- (Z.add_0_r ctba); apply (Hb1 0%nat)|apply (Hb1 1%nat)|apply (Hb1 7%nat)]; done || lia.
  - apply (Hb1 2%nat); [lia|]. by destruct w.
  - specialize (Hf 0%nat 20%nat ltac:(lia)). rewrite Z.add_0_r in Hf. rewrite Hf. by apply lba_fis_val.
  - specialize (Hf 0%nat 20%nat ltac:(lia)). rewrite Z.add_0_r in Hf. rewrite Hf. apply lba_fis_count. lia.
  - specialize (Hd 0%nat 8%nat ltac:(lia)). rewrite Z.add_0_r in Hd. rewrite Hd. by apply halves_val.
  - specialize (Hd 12%nat 4%nat ltac:(lia)). change (Z.of_nat 12) with 12 in Hd. rewrite Hd.
    change (take 4 (drop 12 d)) with (le_bytes 4 (Z.max (n * 512 - 1) 0)). rewrite le_val_bytes; [lia|]. change (8 * Z.of_nat 4) with 32. lia.
Qed.

(** The waits. *)
Lemma wait_clear_at fuel i k mask v : (k < fuel)%nat → Z.land (v (i + k)%nat) mask = 0 → wait_clear fuel i mask v = true.
Proof.
  revert i k. induction fuel as [|fuel IH]; intros i k Hk E; [lia|]. cbn. destruct (Z.eqb_spec (Z.land (v i) mask) 0) as [|Hne]; [done|].
  destruct k as [|k]; [by rewrite Nat.add_0_r in E|]. apply (IH (S i) k); [lia|]. by rewrite <- Nat.add_succ_comm in E.
Qed.

Lemma not_busy p : wait_not_busy p = true.
Proof. destruct (sp_tfd_law p) as (k & Hk & E). apply (wait_clear_at _ 0 k); [|done]. destruct (Hlat p). lia. Qed.

Lemma poll_completes fuel i k v (p : P) : (k < fuel)%nat → (∀ j, Z.land (v j).1 IS_TFES = 0) → (∀ j, (i ≤ j < i + k)%nat → Z.land (v j).2 1 ≠ 0) →
  Z.land (v (i + k)%nat).2 1 = 0 → poll_done fuel i v p = (true, p).
Proof.
  revert i k. induction fuel as [|fuel IH]; intros i k Hk H1 H2 H3; [lia|]. cbn. rewrite H1. cbn.
  destruct k as [|k]; [by rewrite Nat.add_0_r in H3; rewrite H3|]. destruct (Z.eqb_spec (Z.land (v i).2 1) 0) as [E|E]; [exfalso; apply (H2 i); [lia|done]|].
  apply (IH (S i) k); [lia|done| |by rewrite <- Nat.add_succ_comm in H3]. intros j Hj. apply H2. lia.
Qed.

Lemma poll_errors fuel i k v (p : P) : (k < fuel)%nat → (∀ j, (i ≤ j < i + k)%nat → Z.land (v j).1 IS_TFES = 0) → Z.land (v (i + k)%nat).1 IS_TFES ≠ 0 →
  (∀ j, Z.land (v j).2 1 ≠ 0) → poll_done fuel i v p = (false, sp_ack p).
Proof.
  revert i k. induction fuel as [|fuel IH]; intros i k Hk H1 H2 H3; [lia|]. cbn. destruct k as [|k].
  - rewrite Nat.add_0_r in H2. by rewrite (proj2 (Z.eqb_neq _ _) H2).
  - rewrite H1 by lia. cbn. rewrite (proj2 (Z.eqb_neq _ _) (H3 i)). apply (IH (S i) k); [lia| |by rewrite <- Nat.add_succ_comm in H2|done].
    intros j Hj. apply H1. lia.
Qed.

Lemma poll_hangs fuel i v (p : P) : hangs v → poll_done fuel i v p = (false, p).
Proof. intros H. revert i. induction fuel as [|fuel IH]; intros i; [done|]. cbn. destruct (H i) as [-> E]. cbn. by rewrite (proj2 (Z.eqb_neq _ _) E). Qed.

(** A transfer the disk can carry out or must refuse, with a buffer away from the slot. *)
Record place_ok (sectors lba n buf : Z) : Prop := {
  pl_lba : 0 ≤ lba < 2 ^ 48;
  pl_n : 0 < n ≤ 8;
  pl_side : lba + n ≤ sectors ∨ sectors ≤ lba;
  pl_buf : 0 ≤ buf < 2 ^ 64 ∧ buf mod 2 = 0;
  pl_apart : ∀ x, buf ≤ x < buf + n * 512 → ¬ in_slot x }.

Definition good (p : P) (lba n : Z) : bool := negb (sp_halted p) && (lba + n <=? sp_sectors p).

Lemma peek_fresh m a (g : Z → Z) o n : 0 ≤ n → peek (poke m a (g <$> seqZ o n)) a (Z.to_nat n) = g <$> seqZ o n.
Proof. intros H. replace (Z.to_nat n) with (length (g <$> seqZ o n)) by (rewrite length_fmap, length_seqZ; lia). apply peek_poke_same. Qed.

Lemma issue_result w lba n buf m p : sp_clb p = clb → table_of m clb = ctba → place_ok (sp_sectors p) lba n buf →
  ∃ m' p', issue_command clb ctba (lba_fis (op_of w) lba n) (Some (buf, n * 512)) w m p = (good p lba n, m', p') ∧
    sp_sectors p' = sp_sectors p ∧ sp_clb p' = clb ∧ sp_halted p' = negb (good p lba n) ∧ table_of m' clb = ctba ∧
    (∀ x, ¬ in_slot x → (buf ≤ x < buf + n * 512 → w || negb (good p lba n) = true) → m' x = m x) ∧
    (good p lba n = true → w = false → peek m' buf (Z.to_nat (n * 512)) = sp_byte p <$> seqZ (lba * 512) (n * 512)) ∧
    ∀ o, sp_byte p' o = if good p lba n && w && bool_decide (lba * 512 ≤ o < lba * 512 + n * 512) then m (buf + (o - lba * 512)) else sp_byte p o.
Proof.
  intros Hc Ht [Hl Hn Hside [Hb He] Hap]. destruct (Hlat p) as [_ Hp]. pose proof (command_sound w lba n buf m Ht Hl Hn Hb He) as Hs.
  pose proof (command_table w lba n buf m Ht) as Ht'. pose proof (command_outside w lba n buf m) as Ho.
  unfold issue_command. rewrite not_busy. cbn [negb]. fold (command_for w lba n buf m). set (m1 := command_for w lba n buf m) in *. rewrite <- Hc in Hs.
  unfold good. destruct (sp_halted p) eqn:Eh; cbn [negb andb].
  - destruct (sp_halted_law p m1 Eh) as (v & p' & E & Hv & Eh' & Hby). destruct (sp_keeps_law _ _ _ _ _ E) as [E1 E2].
    rewrite E, poll_hangs by done. exists m1, p'. split_and!; try done; [congruence|auto].
  - destruct Hside as [Hin|Hout].
    + rewrite (proj2 (Z.leb_le _ _) Hin). cbn [negb andb]. destruct w.
      * destruct (sp_write_law _ _ _ _ _ Hs Eh Hin) as (v & k & p' & Hk & E & (C1 & C2 & C3) & Eh' & Hby). destruct (sp_keeps_law _ _ _ _ _ E) as [E1 E2].
        rewrite E, (poll_completes _ 0 k) by (done || lia || (intros; apply C2; lia)). exists m1, p'. split_and!; try done; [congruence|auto|].
        intros o. rewrite Hby. cbn. case_bool_decide; [|done]. apply Ho, Hap. lia.
      * destruct (sp_read_law _ _ _ _ _ Hs Eh Hin) as (v & k & p' & Hk & E & (C1 & C2 & C3) & Eh' & Hby). destruct (sp_keeps_law _ _ _ _ _ E) as [E1 E2].
        rewrite E, (poll_completes _ 0 k) by (done || lia || (intros; apply C2; lia)). eexists _, p'. split_and!; try done; [congruence|..].
        -- rewrite <- Ht'. unfold table_of. f_equal. apply peek_ext. intros x Hx. apply poke_out. unfold len. rewrite length_fmap, length_seqZ.
           intros Hx'. apply (Hap x); [lia|]. left. lia.
        -- intros x Hx Hx'. rewrite poke_out; [by apply Ho|]. unfold len. rewrite length_fmap, length_seqZ. intros ?. specialize (Hx' ltac:(lia)). done.
        -- intros _ _. apply peek_fresh. lia.
    + rewrite (proj2 (Z.leb_gt _ _)) by lia. cbn [negb andb].
      destruct (sp_error_law _ _ _ _ _ _ Hs Eh Hout) as (v & k & p' & Hk & E & (C1 & C2 & C3) & Eh' & Hby). destruct (sp_keeps_law _ _ _ _ _ E) as [E1 E2].
      rewrite E, (poll_errors _ 0 k) by (done || lia || (intros; apply C1; lia)). destruct (sp_ack_law p') as (A1 & A2 & A3 & A4).
      exists m1, (sp_ack p'). split_and!; [done|congruence|congruence|congruence|done|auto|done|]. intros o. rewrite A1. apply Hby.
Qed.

(** one failed transfer ends the disk. A request that starts beyond the disk is answered
    with an error, which leaves the port in its Fatal state; nothing restarts the port, so
    whatever sound transfer is asked for afterwards fails too and the medium stays as it is. *)
Theorem one_error_ends_disk w1 lba1 n1 buf1 m p : sp_clb p = clb → table_of m clb = ctba → place_ok (sp_sectors p) lba1 n1 buf1 → sp_sectors p ≤ lba1 →
  ∃ m1 p1, issue_command clb ctba (lba_fis (op_of w1) lba1 n1) (Some (buf1, n1 * 512)) w1 m p = (false, m1, p1) ∧
    ∀ w2 lba2 n2 buf2 m2, table_of m2 clb = ctba → place_ok (sp_sectors p) lba2 n2 buf2 →
      ∃ m3 p2, issue_command clb ctba (lba_fis (op_of w2) lba2 n2) (Some (buf2, n2 * 512)) w2 m2 p1 = (false, m3, p2) ∧
        sp_halted p2 = true ∧ ∀ o, sp_byte p2 o = sp_byte p o.
Proof.
  intros Hc Ht H1 Hout. destruct (issue_result w1 lba1 n1 buf1 m p Hc Ht H1) as (m1 & p1 & E & Es & Ec & Eh & _ & _ & _ & Hby).
  assert (good p lba1 n1 = false) as Eg by (unfold good; destruct H1; rewrite (proj2 (Z.leb_gt _ _)) by lia; by destruct (sp_halted p)).
  rewrite Eg in *. exists m1, p1. split; [done|]. intros w2 lba2 n2 buf2 m2 Ht2 H2. rewrite <- Es in H2.
  destruct (issue_result w2 lba2 n2 buf2 m2 p1 Ec Ht2 H2) as (m3 & p2 & E2 & _ & _ & Eh2 & _ & _ & _ & Hby2).
  assert (good p1 lba2 n2 = false) as Eg2 by (unfold good; by rewrite Eh). rewrite Eg2 in *. exists m3, p2. split_and!; [done|done|].
  intros o. by rewrite Hby2, Hby.
Qed.

(** ** The mailbox path *)

Section box.
Context (mailbox_phys nsec : Z) (Hmb : 0 ≤ mailbox_phys ∧ mailbox_phys + 8192 < 2 ^ 64 ∧ mailbox_phys mod 2 = 0).
Context (Hslot : ∀ x, mailbox_phys ≤ x < mailbox_phys + 8192 → ¬ in_slot x).
Implicit Types (s : @box P) (r : request).

(** Requests of up to a block, on the disk or beyond it, into buffers away from the driver's. *)
Record request_ok r : Prop := {
  rq_lba : 0 ≤ r_lba r < 2 ^ 48;
  rq_n : 0 < r_count r ≤ 8;
  rq_side : r_lba r + r_count r ≤ nsec ∨ nsec ≤ r_lba r;
  rq_slot : ∀ x, r_buf r ≤ x < r_buf r + r_count r * 512 → ¬ in_slot x;
  rq_box : r_buf r + r_count r * 512 ≤ mailbox_phys ∨ mailbox_phys + 8192 ≤ r_buf r }.

(** *** A disk's log *)

Definition tr_sound (med : Z → Z) (t : transfer) : Prop :=
  t_ok t = true → t_write t = false → t_data t = med <$> seqZ (t_lba t * 512) (t_count t * 512).
Definition tr_apply (med : Z → Z) (t : transfer) : Z → Z := λ o,
  if t_ok t && t_write t && bool_decide (t_lba t * 512 ≤ o < t_lba t * 512 + t_count t * 512) then default 0 (t_data t !! Z.to_nat (o - t_lba t * 512)) else med o.

(** The medium after a log, and that every read of it returned what the medium then held. *)
Definition after (med : Z → Z) (l : list transfer) : Z → Z := foldl tr_apply med l.
Fixpoint log_sound (med : Z → Z) (l : list transfer) : Prop :=
  match l with [] => True | t :: l => tr_sound med t ∧ log_sound (tr_apply med t) l end.

Lemma log_snoc med l t : log_sound med (l ++ [t]) ↔ log_sound med l ∧ tr_sound (after med l) t.
Proof. revert med. induction l as [|t' l IH]; intros med; cbn; [tauto|]. rewrite IH. unfold after. cbn. tauto. Qed.
Lemma after_snoc med l t : after med (l ++ [t]) = tr_apply (after med l) t.
Proof. unfold after. by rewrite foldl_app. Qed.

(** *** The invariant *)

Definition size_of r : nat := bytes_of (r_count r).
Definition in_box r s : list Z := peek (ram s) (data_phys mailbox_phys) (size_of r).
Definition in_buf r s : list Z := peek (ram s) (r_buf r) (size_of r).
Definition done_as r (ok : bool) (data : list Z) : transfer := mkTr (r_write r) (r_lba r) (r_count r) ok (if ok then data else []).
Definition code (ok : bool) : Z := if ok then 1 else 2.

Definition resting (d : dpc) : Prop := match d with DTop | DOp | DWait | DGone => True | _ => False end.
Definition nowork s : Prop := dat s = DClear ∨ (mb_op (mb s) = 0 ∧ resting (dat s)).
Definition fresh r s : Prop :=
  mb_lba (mb s) = r_lba r ∧ mb_count (mb s) = r_count r ∧ (mb_op (mb s) = op_code r ∨ mb_op (mb s) = 0) ∧
  match dat s with
  | DLba op => op = op_code r
  | DCount op lba => op = op_code r ∧ lba = r_lba r
  | DIssue op lba c => op = op_code r ∧ lba = r_lba r ∧ c = r_count r
  | DStatus _ => False
  | _ => True
  end.
Definition loaded r s : Prop := r_write r = true → in_box r s = in_buf r s.
Definition asking r s : Prop := request_ok r ∧ loaded r s ∧ issued s = answered s ∧ nowork s.

Definition kernel_inv s : Prop :=
  match kat s with
  | KIdle => issued s = answered s ∧ nowork s
  | KLba r => asking r s
  | KCount r => asking r s ∧ mb_lba (mb s) = r_lba r
  | KStatus r => asking r s ∧ mb_lba (mb s) = r_lba r ∧ mb_count (mb s) = r_count r
  | KOp r => asking r s ∧ mb_lba (mb s) = r_lba r ∧ mb_count (mb s) = r_count r ∧ mb_status (mb s) = 0
  | KPoll r _ => request_ok r ∧ loaded r s ∧
      ((issued s = answered s ∧ fresh r s ∧ mb_status (mb s) = 0) ∨
       ∃ ok, issued s = answered s ++ [done_as r ok (in_box r s)] ∧ ((dat s = DStatus (code ok) ∧ mb_status (mb s) = 0) ∨ (nowork s ∧ mb_status (mb s) = code ok)))
  | KAgain r => request_ok r ∧ loaded r s ∧ ∃ ok, issued s = answered s ++ [done_as r ok (in_box r s)] ∧ nowork s ∧ mb_status (mb s) = code ok
  | KTake r ok => request_ok r ∧ loaded r s ∧ issued s = answered s ++ [done_as r ok (in_box r s)] ∧ nowork s
  | KAck r ok => request_ok r ∧ issued s = answered s ++ [done_as r ok (in_buf r s)] ∧ nowork s
  end.

Definition port_inv (med : Z → Z) s : Prop :=
  sp_clb (port s) = clb ∧ mb_clb (mb s) = clb ∧ mb_ctba (mb s) = ctba ∧ mb_sector_size (mb s) = 512 ∧ table_of (ram s) clb = ctba ∧ sp_sectors (port s) = nsec ∧
  log_sound med (issued s) ∧ ∀ o, sp_byte (port s) o = after med (issued s) o.

Lemma sata_size_small r : request_ok r → Z.of_nat (size_of r) = r_count r * 512 ∧ r_count r * 512 ≤ 4096.
Proof. intros [_ ? _ _ _]. unfold size_of, bytes_of. rewrite wrap_small by (unfold is_u; lia). lia. Qed.

(** *** Steps of the process *)

(** Only where [ahcid] is changes. *)
Lemma move_keeps s d : dat s ≠ DClear → (∀ st, dat s ≠ DStatus st) → (nowork s → resting d) → (∀ r, fresh r s → fresh r (set_d d s)) → kernel_inv s → kernel_inv (set_d d s).
Proof.
  intros Hc Hs Hn Hf. assert (nowork s → nowork (set_d d s)) as Hn' by (intros H; right; destruct H as [?|[? ?]]; [done|]; split; [done|by apply Hn; right]).
  unfold kernel_inv. cbn. destruct (kat s); unfold asking, loaded, in_box, in_buf; cbn; naive_solver.
Qed.

Lemma data_even : data_phys mailbox_phys mod 2 = 0 ∧ 0 ≤ data_phys mailbox_phys < 2 ^ 64.
Proof. unfold data_phys, DATA_OFF. dlia. Qed.

(** [ahcid] carrying out the request posted. *)
Lemma issue_keeps med r n s : kat s = KPoll r n → dat s = DIssue (op_code r) (r_lba r) (r_count r) → port_inv med s → kernel_inv s →
  kernel_inv (ahcid_step mailbox_phys s) ∧ port_inv med (ahcid_step mailbox_phys s).
Proof.
  intros Ek Ed (Pc & Mc & Mt & Ms & Tt & Ps & Lg & Md) Hk. unfold kernel_inv in Hk. rewrite Ek in Hk. destruct Hk as (Hr & Hl & Hk).
  assert (issued s = answered s ∧ mb_status (mb s) = 0) as [Hi H0].
  { destruct Hk as [(? & _ & ?)|(ok & _ & [[E _]|[[E|[_ E]] _]])]; [done|congruence..|]. by rewrite Ed in E. }
  destruct (sata_size_small r Hr) as [Esz Hsz]. pose proof data_even as [He Hd]. set (w := r_write r). set (data := data_phys mailbox_phys) in *.
  assert (∀ x, data ≤ x < data + r_count r * 512 → ¬ in_slot x) as Hds by (intros x Hx; apply Hslot; unfold data, data_phys, DATA_OFF in *; lia).
  assert (place_ok (sp_sectors (port s)) (r_lba r) (r_count r) data) as Hp by (destruct Hr; split; rewrite ?Ps; done).
  destruct (issue_result w _ _ _ (ram s) (port s) Pc Tt Hp) as (m' & p' & E & Es & Ec & _ & Ht & Hout & Hrd & Hby). set (g := good (port s) (r_lba r) (r_count r)) in *.
  assert (ahcid_step mailbox_phys s = mkBox m' p' (mb s) (kat s) (DStatus (code g)) (issued s ++ [done_as r g (peek m' data (size_of r))]) (answered s) (expired s)) as ->.
  { unfold ahcid_step. rewrite Ed. unfold ahcid_issue. assert ((op_code r =? 2) = w) as -> by (unfold op_code, w; by destruct (r_write r)).
    fold (op_of w). rewrite Mc, Mt, Ms. destruct Hr as [_ Hn _ _ _]. rewrite !wrap_small by (unfold is_u; lia). fold data. rewrite E. done. }
  assert (w = true → peek m' data (size_of r) = peek (ram s) data (size_of r)) as Hsame.
  { intros Hw. apply peek_ext. intros x Hx. apply Hout; [apply Hds; lia|by rewrite Hw]. }
  split.
  - unfold kernel_inv. cbn. rewrite Ek. split_and!; [done| |].
    + intros Hw. specialize (Hl Hw). unfold in_box, in_buf in *. cbn [ram]. fold data in Hl |- *. rewrite (Hsame Hw), Hl. symmetry. apply peek_ext. intros x Hx.
      destruct Hr. apply Hout; [apply rq_slot0; lia|by unfold w; rewrite Hw].
    + right. exists g. rewrite Hi. split; [done|by left].
  - unfold port_inv. cbn. split_and!; [done..|congruence| |].
    + rewrite log_snoc. split; [done|]. intros Hg Hw. cbn in Hg, Hw. cbn. rewrite Hg. replace (size_of r) with (Z.to_nat (r_count r * 512)) by lia.
      rewrite Hrd by done. apply list_fmap_ext. intros ? o _. apply Md.
    + intros o. rewrite after_snoc, Hby. unfold tr_apply. cbn. fold w. destruct g eqn:Eg; cbn; [|apply Md]. destruct w eqn:Ew; cbn; [|apply Md].
      case_bool_decide; [|apply Md]. rewrite Hsame by done. rewrite lookup_peek by lia. cbn. f_equal. lia.
Qed.

(** A request is under way exactly while the kernel polls. *)
Lemma at_work s : kernel_inv s → ¬ nowork s → ∃ r n, kat s = KPoll r n ∧ request_ok r ∧ loaded r s ∧
  ((issued s = answered s ∧ fresh r s ∧ mb_status (mb s) = 0) ∨
   ∃ ok, issued s = answered s ++ [done_as r ok (in_box r s)] ∧ dat s = DStatus (code ok) ∧ mb_status (mb s) = 0).
Proof.
  intros Hk Hn. unfold kernel_inv, asking in Hk. destruct (kat s) as [|r|r|r|r|r n|r|r ok|r ok].
  - by destruct Hk.
  - by destruct Hk as (_ & _ & _ & ?).
  - by destruct Hk as ((_ & _ & _ & ?) & _).
  - by destruct Hk as ((_ & _ & _ & ?) & _).
  - by destruct Hk as ((_ & _ & _ & ?) & _).
  - exists r, n. destruct Hk as (? & ? & [?|(ok & ? & [?|[? _]])]); [|..|done]; (split_and!; [done..|]); [by left|right; by exists ok].
  - by destruct Hk as (_ & _ & ok & _ & ? & _).
  - by destruct Hk as (_ & _ & _ & ?).
  - by destruct Hk as (_ & _ & ?).
Qed.

Lemma busy_no_work s op lba c : dat s = DIssue op lba c → ¬ nowork s.
Proof. intros E [E'|[_ H]]; [congruence|]. by rewrite E in H. Qed.
Lemma status_no_work s st : dat s = DStatus st → ¬ nowork s.
Proof. intros E [E'|[_ H]]; [congruence|]. by rewrite E in H. Qed.

Lemma ahcid_keeps med s : port_inv med s → kernel_inv s → kernel_inv (ahcid_step mailbox_phys s) ∧ port_inv med (ahcid_step mailbox_phys s).
Proof.
  intros Hp Hk. destruct (dat s) as [| |op|op lba|op lba c|st| | |] eqn:Ed.
  1,2,3,4,8: (unfold ahcid_step; rewrite Ed; (split; [|exact Hp]); apply move_keeps; rewrite ?Ed; try done; unfold nowork, fresh; cbn; rewrite ?Ed).
  - by destruct (mb_stop (mb s) =? 0).
  - by destruct (mb_stop (mb s) =? 0).
  - intros [?|[-> _]]; done.
  - intros r (? & ? & Ho & _). split_and!; try done. destruct (Z.eqb_spec (mb_op (mb s)) 0); naive_solver.
  - naive_solver.
  - naive_solver.
  - naive_solver.
  - naive_solver.
  - naive_solver.
  - destruct (at_work s Hk) as (r & n & Ek & _ & _ & [(_ & (_ & _ & _ & Hf) & _)|(ok & _ & E & _)]); [exact (busy_no_work s _ _ _ Ed)| |congruence].
    rewrite Ed in Hf. destruct Hf as (-> & -> & ->). by eapply issue_keeps.
  - destruct (at_work s Hk) as (r & n & Ek & Hr & Hl & [(_ & (_ & _ & _ & Hf) & _)|(ok & Hi & E & _)]); [exact (status_no_work s _ Ed)|by rewrite Ed in Hf|].
    unfold ahcid_step. rewrite Ed. rewrite Ed in E. injection E as ->. split; [|exact Hp]. unfold kernel_inv. cbn. rewrite Ek. split_and!; [done..|].
    right. exists ok. split; [done|]. right. split; [by left|done].
  - unfold ahcid_step. rewrite Ed. split; [|exact Hp]. set (s' := set_d DWait (set_mb (set_op 0 (mb s)) s)).
    assert (nowork s') as Hn by (by right). assert (∀ r, fresh r s → fresh r s') as Hf by (intros r (? & ? & _ & _); by split_and!; auto).
    assert (∀ st, dat s ≠ DStatus st) as Hs by (by rewrite Ed). unfold kernel_inv in *. change (kat s') with (kat s). destruct (kat s) as [|r|r|r|r|r n|r|r ok|r ok].
    + by destruct Hk.
    + by destruct Hk as (? & ? & ? & _).
    + by destruct Hk as ((? & ? & ? & _) & ?).
    + by destruct Hk as ((? & ? & ? & _) & ?).
    + by destruct Hk as ((? & ? & ? & _) & ?).
    + destruct Hk as (? & ? & [(? & Hfr & ?)|(ok & Hi & [[E _]|[_ Hst]])]); [| by apply Hs in E|]; (split_and!; [done..|]).
      * left. split_and!; [done|by apply Hf|done].
      * right. exists ok. split; [exact Hi|]. by right.
    + destruct Hk as (? & ? & ok & Hi & _ & Hst). split_and!; [done..|]. exists ok. split; [exact Hi|done].
    + by destruct Hk as (? & ? & ? & _).
    + by destruct Hk as (? & ? & _).
  - unfold ahcid_step. by rewrite Ed.
Qed.

(** *** Steps of the kernel *)

(** Copying a request's bytes into the mailbox or out of it leaves the slot alone. *)
Lemma table_poke m a l : (∀ x, a ≤ x < a + len l → ¬ in_slot x) → table_of (poke m a l) clb = table_of m clb.
Proof. intros H. unfold table_of. f_equal. apply peek_ext. intros x Hx. apply poke_out. intros Hx'. apply (H x Hx'). left. lia. Qed.

Lemma box_apart r : request_ok r → ∀ l : list Z, length l = size_of r → ∀ x, data_phys mailbox_phys ≤ x < data_phys mailbox_phys + len l → ¬ in_slot x.
Proof. intros Hr l Hl x Hx. destruct (sata_size_small r Hr). apply Hslot. unfold len, data_phys, DATA_OFF in *. lia. Qed.
Lemma buf_apart r : request_ok r → ∀ l : list Z, length l = size_of r → ∀ x, r_buf r ≤ x < r_buf r + len l → ¬ in_slot x.
Proof. intros Hr l Hl x Hx. destruct (sata_size_small r Hr). destruct Hr. apply rq_slot0. unfold len in *. lia. Qed.

Lemma sata_start_keeps med r s : kat s = KIdle → request_ok r → port_inv med s → kernel_inv s →
  kernel_inv (kernel_start mailbox_phys r s) ∧ port_inv med (kernel_start mailbox_phys r s).
Proof.
  intros Ek Hr Hp Hk. unfold kernel_inv in Hk. rewrite Ek in Hk. destruct Hk as [Hi Hn]. destruct (sata_size_small r Hr) as [E1 E2].
  unfold kernel_start. assert (u32 (r_count r * 512) = r_count r * 512) as -> by (destruct Hr; rewrite wrap_small by (unfold is_u; lia); done).
  assert (0 < r_count r) by (destruct Hr; lia). rewrite (proj2 (Z.eqb_neq _ 0)), (proj2 (Z.ltb_ge 4096 _)) by lia. cbn [orb].
  fold (size_of r). fold (in_buf r s). assert (length (in_buf r s) = size_of r) as El by (unfold in_buf; by rewrite length_peek).
  destruct (r_write r) eqn:Ew.
  - split.
    + unfold kernel_inv. cbn. split_and!; [done| |done|done]. intros _. unfold in_box, in_buf. cbn [ram set_k set_ram]. fold (in_buf r s).
      rewrite peek_poke_len, peek_poke_out by (done || (unfold len; rewrite El; destruct Hr; unfold data_phys, DATA_OFF; lia)). done.
    + unfold port_inv. cbn [ram set_k set_ram port mb issued]. rewrite table_poke by (by apply box_apart with r). exact Hp.
  - split; [|exact Hp]. unfold kernel_inv. cbn. split_and!; [done|unfold loaded; by rewrite Ew|done|done].
Qed.

Lemma sata_kernel_keeps med s : expired (kernel_step mailbox_phys s) = false → port_inv med s → kernel_inv s →
  kernel_inv (kernel_step mailbox_phys s) ∧ port_inv med (kernel_step mailbox_phys s).
Proof.
  intros He Hp Hk. unfold kernel_inv in Hk. unfold kernel_step in *. destruct (kat s) as [|r|r|r|r|r n|r|r ok|r ok] eqn:Ek.
  - split; [|exact Hp]. unfold kernel_inv. by rewrite Ek.
  - split; [|exact Hp]. destruct Hk as (? & ? & ? & ?). by split_and!.
  - split; [|exact Hp]. destruct Hk as ((? & ? & ? & ?) & ?). by split_and!.
  - split; [|exact Hp]. destruct Hk as ((? & ? & ? & ?) & ? & ?). by split_and!.
  - split; [|exact Hp]. destruct Hk as ((? & ? & ? & Hn) & ? & ? & ?). unfold kernel_inv. cbn. split_and!; [done..|]. left. split_and!; [done| |done].
    unfold fresh. cbn. split_and!; [done|done|by left|]. destruct Hn as [->|[_ Hn]]; [done|]. by destruct (dat s).
  - destruct n as [|n]; [done|]. destruct (Z.eqb_spec (mb_status (mb s)) 0) as [E|E]; [by split; [|exact Hp]|].
    destruct Hk as (Hr & Hl & [(_ & _ & ?)|(ok & Hi & [[_ ?]|[Hn Est]])]); [done..|].
    destruct (r_write r); (split; [|exact Hp]); unfold kernel_inv; cbn [kat set_k].
    + rewrite Est. split_and!; [done|done| |done]. cbn [issued answered set_k]. rewrite Hi. by destruct ok.
    + split; [done|]. split; [done|]. exists ok. by split_and!.
  - destruct Hk as (Hr & Hl & ok & Hi & Hn & Est). split; [|exact Hp]. unfold kernel_inv. cbn [kat set_k]. rewrite Est.
    split_and!; [done|done| |done]. cbn [issued answered set_k]. rewrite Hi. by destruct ok.
  - destruct Hk as (Hr & Hl & Hi & Hn). destruct ok; cbn [andb]; [|by split; [|exact Hp]]. destruct (r_write r) eqn:Ew; cbn [negb].
    + split; [|exact Hp]. unfold kernel_inv. cbn. split_and!; [done| |done]. rewrite Hi. unfold in_buf. cbn. by rewrite (Hl Ew).
    + fold (size_of r). fold (in_box r s). assert (length (in_box r s) = size_of r) as El by (unfold in_box; by rewrite length_peek). split.
      * unfold kernel_inv. cbn. split_and!; [done| |done]. rewrite Hi. unfold in_buf. cbn. by rewrite peek_poke_len.
      * unfold port_inv. cbn [ram set_k set_ram port mb issued]. rewrite table_poke by (by apply (buf_apart r)). exact Hp.
  - destruct Hk as (Hr & Hi & Hn). split; [|exact Hp]. unfold kernel_inv. cbn. split; [|done]. rewrite Hi. done.
Qed.

Abbreviation step := (box_step mailbox_phys request_ok).

Lemma step_expired s s' : step s s' → expired s' = false → expired s = false.
Proof.
  intros [r _ _| | | |]; try done.
  - unfold kernel_start. destruct (_ || _); [done|]. by destruct (r_write r).
  - unfold kernel_step. destruct (kat s) as [| | | | |r [|n]| |r ok|]; try done; repeat case_match; done.
  - unfold ahcid_step. destruct (dat s); try done. unfold ahcid_issue. by destruct (issue_command _ _ _ _ _ _ _) as [[? ?] ?].
Qed.

Lemma sata_step_keeps med s s' : step s s' → expired s' = false → kernel_inv s ∧ port_inv med s → kernel_inv s' ∧ port_inv med s'.
Proof.
  intros [r Ek Hr| | |Ek|Ed] He [Hk Hp]; [by apply sata_start_keeps|by apply sata_kernel_keeps|by apply ahcid_keeps|by split|].
  split; [|exact Hp]. unfold start_service.
  apply (move_keeps (set_mb (set_stop 0 (mb s)) s) DTop); cbn; rewrite ?Ed; try done. intros r (? & ? & ? & _). by split_and!.
Qed.

(** Kernel and [ahcid] when the first request comes: an empty mailbox of [init]. *)
Definition box_start (m : memory) (p : P) (abar base : Z) : box := mkBox m p (init_mailbox abar clb ctba base) KIdle DTop [] [] false.

(** C12: as long as no request is given up, the mailbox path is a disk. However kernel, [ahcid]
    and the service commands interleave, one access to the mailbox at a time, the requests the
    kernel sees answered, with place, success and data bytes, are exactly the transfers that
    were carried out, in order, up to one still under way; every successful read returned what
    the medium then held, and the medium is what the successful writes made of it. *)
Theorem mailbox_is_a_disk m p abar base s : table_of m clb = ctba → sp_clb p = clb → sp_sectors p = nsec →
  rtc step (box_start m p abar base) s → expired s = false →
  ∃ pending, issued s = answered s ++ pending ∧ (length pending ≤ 1)%nat ∧ (kat s = KIdle → pending = []) ∧
    log_sound (sp_byte p) (issued s) ∧ ∀ o, sp_byte (port s) o = after (sp_byte p) (issued s) o.
Proof.
  intros Ht Hc Hn Hr He. assert (kernel_inv s ∧ port_inv (sp_byte p) s) as [Hk (_ & _ & _ & _ & _ & _ & Hlog & Hmed)].
  { revert s Hr He. apply (rtc_ind_r (λ s, expired s = false → kernel_inv s ∧ port_inv (sp_byte p) s)).
    - intros _. split; [by split; [|right]|by split_and!].
    - intros s s' _ Hst IH He. eapply sata_step_keeps; [done..|]. apply IH. by eapply step_expired. }
  assert (∃ pending, issued s = answered s ++ pending ∧ (length pending ≤ 1)%nat ∧ (kat s = KIdle → pending = [])) as (l & ? & ? & ?).
  { assert (∀ t, issued s = answered s ++ [t] → kat s ≠ KIdle → ∃ pending, issued s = answered s ++ pending ∧ (length pending ≤ 1)%nat ∧ (kat s = KIdle → pending = [])) as H1
      by (intros t H0 H2; exists [t]; by split_and!).
    assert (issued s = answered s → ∃ pending, issued s = answered s ++ pending ∧ (length pending ≤ 1)%nat ∧ (kat s = KIdle → pending = [])) as H2
      by (intros H0; exists []; rewrite app_nil_r; split_and!; [done|cbn; lia|done]).
    unfold kernel_inv, asking in Hk. destruct (kat s) eqn:Ek.
    - apply H2, Hk.
    - apply H2, Hk.
    - apply H2, Hk.
    - apply H2, Hk.
    - apply H2, Hk.
    - destruct Hk as (_ & _ & [[? _]|(ok & ? & _)]); [by apply H2|by eapply H1].
    - destruct Hk as (_ & _ & ok & ? & _). by eapply H1.
    - destruct Hk as (_ & _ & ? & _). by eapply H1.
    - destruct Hk as (_ & ? & _). by eapply H1. }
  exists l. by split_and!.
Qed.

(** *** A late answer *)

Lemma sata_kernel_rtc s s' : rtc step (kernel_step mailbox_phys s) s' → rtc step s s'.
Proof. intros H. eapply rtc_l; [apply step_kernel|exact H]. Qed.
Lemma ahcid_rtc s s' : rtc step (ahcid_step mailbox_phys s) s' → rtc step s s'.
Proof. intros H. eapply rtc_l; [apply step_ahcid|exact H]. Qed.

Definition posted r (b : Mailbox) : Mailbox := set_op (op_code r) (set_status 0 (set_count (r_count r) (set_lba (r_lba r) b))).

Lemma sata_post_request r s : kat s = KIdle → request_ok r →
  ∃ m, table_of m clb = table_of (ram s) clb ∧ rtc step s (mkBox m (port s) (posted r (mb s)) (KPoll r MAILBOX_WAIT_SPINS) (dat s) (issued s) (answered s) (expired s)).
Proof.
  intros Ek Hr. destruct (sata_size_small r Hr) as [_ Hn]. assert (0 < r_count r) by (destruct Hr; lia).
  assert (∃ m, table_of m clb = table_of (ram s) clb ∧ kernel_start mailbox_phys r s = set_k (KLba r) (set_ram m s)) as (m & Ht & E).
  { unfold kernel_start. assert (u32 (r_count r * 512) = r_count r * 512) as -> by (rewrite wrap_small by (unfold is_u; lia); done).
    rewrite (proj2 (Z.eqb_neq _ 0)), (proj2 (Z.ltb_ge 4096 _)) by lia. cbn [orb]. destruct (r_write r); [|exists (ram s); split; [done|by destruct s]].
    eexists. split; [|done]. apply table_poke, (box_apart r Hr). apply length_peek. }
  exists m. split; [done|]. eapply rtc_l; [by apply step_start|]. rewrite E. do 4 apply sata_kernel_rtc. apply rtc_refl.
Qed.

Lemma poll_expires r n s : kat s = KPoll r n → mb_status (mb s) = 0 → rtc step s (expire_request (set_k (KTake r false) s)).
Proof.
  revert s. induction n as [|n IH]; intros s Ek E0; apply sata_kernel_rtc; unfold kernel_step; rewrite Ek; [apply rtc_refl|]. rewrite E0. cbn.
  apply (IH (set_k (KPoll r n) s)); done.
Qed.

Lemma take_step r ok s : ∃ m, kernel_step mailbox_phys (set_k (KTake r ok) s) = set_k (KAck r ok) (set_ram m s).
Proof. unfold kernel_step. cbn [kat set_k]. destruct (ok && negb (r_write r)); eexists; [done|by destruct s]. Qed.

(** [ahcid] finding the request and carrying it out. *)
Lemma sata_serve_request r s : request_ok r → r_lba r + r_count r ≤ nsec → sp_halted (port s) = false → port_inv (sp_byte (port s)) (set_mb (mb s) (mkBox (ram s) (port s) (mb s) (kat s) (dat s) [] [] false)) →
  dat s = DTop → mb_stop (mb s) = 0 → mb_op (mb s) = op_code r → mb_lba (mb s) = r_lba r → mb_count (mb s) = r_count r →
  ∃ m p t, t_lba t = r_lba r ∧ t_ok t = true ∧ rtc step s (mkBox m p (mb s) (kat s) (DStatus 1) (issued s ++ [t]) (answered s) (expired s)).
Proof.
  intros Hr Hin Hh (Pc & Mc & Mt & Ms & Tt & Ps & _) Ed Es Eo El En. cbn in Pc, Mc, Mt, Ms, Tt, Ps. pose proof data_even as [He Hd].
  assert (op_code r ≠ 0) as Hop by (unfold op_code; by destruct (r_write r)). destruct (sata_size_small r Hr) as [_ Hsz].
  assert (place_ok (sp_sectors (port s)) (r_lba r) (r_count r) (data_phys mailbox_phys)) as Hp
    by (destruct Hr; split; rewrite ?Ps; try done; intros x Hx; apply Hslot; unfold data_phys, DATA_OFF in *; lia).
  destruct (issue_result (r_write r) _ _ _ (ram s) (port s) Pc Tt Hp) as (m' & p' & E & _).
  assert (good (port s) (r_lba r) (r_count r) = true) as Eg by (unfold good; rewrite Hh, Ps; cbn; lia). rewrite Eg in E.
  assert (ahcid_step mailbox_phys (ahcid_step mailbox_phys (ahcid_step mailbox_phys (ahcid_step mailbox_phys s))) = set_d (DIssue (op_code r) (r_lba r) (r_count r)) s) as E4.
  { assert (ahcid_step mailbox_phys s = set_d DOp s) as -> by (unfold ahcid_step; by rewrite Ed, Es).
    cbn. rewrite Eo, (proj2 (Z.eqb_neq _ 0)) by done. cbn. by rewrite El, En. }
  exists m', p', (done_as r true (peek m' (data_phys mailbox_phys) (size_of r))). split; [done|]. split; [done|].
  do 4 apply ahcid_rtc. rewrite E4. apply ahcid_rtc. cbn. unfold ahcid_issue. cbn [mb ram port set_d].
  assert ((op_code r =? 2) = r_write r) as -> by (unfold op_code; by destruct (r_write r)). fold (op_of (r_write r)). rewrite Mc, Mt, Ms.
  destruct Hr as [_ Hn _ _ _]. rewrite !wrap_small by (unfold is_u; lia). rewrite E. apply rtc_refl.
Qed.

(** Once a request has been given up, an answer may be another's. The kernel gives up on a
    request [ahcid] is still busy with and posts the next; the answer to the first then counts
    for the second, which is reported as done, and was never carried out: clearing [op]
    has wiped it from the mailbox. *)
Theorem late_answer_believed m p abar base r1 r2 : table_of m clb = ctba → sp_clb p = clb → sp_sectors p = nsec → sp_halted p = false →
  request_ok r1 → r_lba r1 + r_count r1 ≤ nsec → request_ok r2 →
  ∃ s, rtc step (box_start m p abar base) s ∧ kat s = KIdle ∧ nowork s ∧
    map (λ t, (t_lba t, t_ok t)) (answered s) = [(r_lba r1, false); (r_lba r2, true)] ∧ map t_lba (issued s) = [r_lba r1].
Proof.
  intros Ht Hc Hn Hh H1 Hin H2. destruct (sata_post_request r1 (box_start m p abar base) eq_refl H1) as (m1 & Ht1 & R1). cbn [box_start port mb dat issued answered expired ram] in *.
  set (s1 := mkBox m1 _ _ _ _ _ _ _) in R1. destruct (sata_serve_request r1 s1) as (m2 & p2 & t & Et & Eok & R2); [done|done|done| |done..|].
  { split_and!; try done; cbn [ram set_mb s1]; congruence. }
  cbn [s1 mb kat issued answered expired app] in R2. set (s2 := mkBox m2 _ _ _ _ _ _ _) in R2. pose proof (poll_expires r1 _ s2 eq_refl eq_refl) as R3.
  set (s3 := kernel_step mailbox_phys (kernel_step mailbox_phys (expire_request (set_k (KTake r1 false) s2)))). destruct (sata_post_request r2 s3 eq_refl H2) as (m4 & _ & R4).
  set (s4 := mkBox m4 _ _ _ _ _ _ _) in R4. set (s5 := ahcid_step mailbox_phys (ahcid_step mailbox_phys s4)).
  assert (rtc step s5 (set_k (KTake r2 true) s5)) as R6.
  { destruct MAILBOX_WAIT_SPINS as [|n] eqn:Ew; [by apply sata_spins_pos in Ew|]. assert (kat s5 = KPoll r2 (S n)) as Ek by reflexivity.
    apply sata_kernel_rtc. unfold kernel_step. rewrite Ek. change (mb_status (mb s5)) with 1. cbn [Z.eqb]. destruct (r_write r2); [apply rtc_refl|apply sata_kernel_rtc, rtc_refl]. }
  destruct (take_step r2 true s5) as [m6 E6]. exists (kernel_step mailbox_phys (set_k (KAck r2 true) (set_ram m6 s5))). split_and!.
  - etrans; [exact R1|]. etrans; [exact R2|]. etrans; [exact R3|]. etrans; [|etrans; [exact R4|]]; [do 2 apply sata_kernel_rtc; apply rtc_refl|].
    etrans; [|etrans; [exact R6|]]; [do 2 apply ahcid_rtc; apply rtc_refl|]. apply sata_kernel_rtc. rewrite E6. apply sata_kernel_rtc, rtc_refl.
  - reflexivity.
  - right. split; [reflexivity|exact I].
  - reflexivity.
  - cbn. by rewrite Et.
Qed.
End box.
End command.

(** The port that is used is the first implemented one with a disk on it. *)
Lemma find_port_first r32 fuel pi i : match find_port r32 fuel pi i with
  | Some k => i ≤ k < i + Z.of_nat fuel ∧ Z.land pi (Z.shiftl 1 k) ≠ 0 ∧ is_disk r32 k = true ∧ ∀ j, i ≤ j < k → Z.land pi (Z.shiftl 1 j) = 0 ∨ is_disk r32 j = false
  | None => ∀ j, i ≤ j < i + Z.of_nat fuel → Z.land pi (Z.shiftl 1 j) = 0 ∨ is_disk r32 j = false
  end.
Proof.
  revert i. induction fuel as [|fuel IH]; intros i; cbn [find_port]; [lia|]. specialize (IH (i + 1)).
  assert (∀ j, i ≤ j → j = i ∨ i + 1 ≤ j) as Hj by lia.
  destruct (Z.eqb_spec (Z.land pi (Z.shiftl 1 i)) 0) as [E|E]; [|destruct (is_disk r32 i) eqn:Ed].
  - destruct (find_port r32 fuel pi (i + 1)) as [k|].
    + destruct IH as (? & ? & ? & H). split_and!; [lia|lia|done|done|]. intros j ?. destruct (Hj j) as [->|]; [lia|by left|apply H; lia].
    + intros j ?. destruct (Hj j) as [->|]; [lia|by left|apply IH; lia].
  - split_and!; [lia|lia|done|done|lia].
  - destruct (find_port r32 fuel pi (i + 1)) as [k|].
    + destruct IH as (? & ? & ? & H). split_and!; [lia|lia|done|done|]. intros j ?. destruct (Hj j) as [->|]; [lia|by right|apply H; lia].
    + intros j ?. destruct (Hj j) as [->|]; [lia|by right|apply IH; lia].
Qed.

(** ** Witnesses *)

(** A disk of 64 sectors that answers at the fourth look. *)
Record toy_port := mkPort { tp_bytes : Z → Z; tp_clb : Z; tp_halted : bool }.

Definition tp_issue (p : toy_port) (m : memory) : (nat → Z * Z) * memory * toy_port :=
  if tp_halted p then (λ _, (0, 1), m, p)
  else
    let t := table_of m (tp_clb p) in
    let lba := fis_lba (peek m t 20) in
    let n := fis_count (peek m t 20) * 512 in
    let buf := le_val (peek m (t + CTBA_PRDT_OFFSET) 8) in
    if 64 <=? lba then (λ i, (if (i <? 3)%nat then 0 else IS_TFES, 1), m, mkPort (tp_bytes p) (tp_clb p) true)
    else
      let v := λ i, (0, if (i <? 3)%nat then 1 else 0) in
      if m (t + 2) =? ATA_CMD_WRITE_DMA_EXT
      then (v, m, mkPort (λ o, if bool_decide (lba * 512 ≤ o < lba * 512 + n) then m (buf + (o - lba * 512)) else tp_bytes p o) (tp_clb p) false)
      else (v, poke m buf (tp_bytes p <$> seqZ (lba * 512) n), mkPort (tp_bytes p) (tp_clb p) false).

Lemma looks_complete : completes 3 (λ i, (0, if (i <? 3)%nat then 1 else 0)).
Proof. split_and!; [done| |done]. intros [|[|[|i]]] Hi; [done..|lia]. Qed.
Lemma looks_error : errors 3 (λ i, (if (i <? 3)%nat then 0 else IS_TFES, 1)).
Proof. split_and!; [|done|done]. intros [|[|[|i]]] Hi; [done..|lia]. Qed.

#[export] Instance toy_sata : SataPort toy_port.
Proof.
  refine {| sp_byte := tp_bytes; sp_sectors := λ _, 64; sp_clb := tp_clb; sp_halted := tp_halted; sp_lat := λ _, 3%nat; sp_tfd := λ _ _, 0; sp_issue := tp_issue; sp_ack := λ p, p |}.
  - intros p. exists 0%nat. split; [lia|done].
  - done.
  - intros p m v m' p'. unfold tp_issue. destruct (tp_halted p); [by intros [= _ _ <-]|]. cbv zeta. destruct (64 <=? _); [by intros [= _ _ <-]|].
    destruct (_ =? ATA_CMD_WRITE_DMA_EXT); by intros [= _ _ <-].
  - intros p m lba n buf [_ _ _ Ho Hl Hn Hb _ _ Hp] Hh Hin. unfold tp_issue. cbv zeta. rewrite Hh, Hl, Hn, Hb, Ho, (proj2 (Z.leb_gt _ _)) by lia.
    eexists _, 3%nat, _. split; [done|]. split; [done|]. split; [exact looks_complete|done].
  - intros p m lba n buf [_ _ _ Ho Hl Hn Hb _ _ Hp] Hh Hin. unfold tp_issue. cbv zeta. rewrite Hh, Hl, Hn, Hb, Ho, (proj2 (Z.leb_gt _ _)) by lia.
    eexists _, 3%nat, _. split; [done|]. split; [done|]. split; [exact looks_complete|done].
  - intros p m w lba n buf [_ _ _ Ho Hl Hn Hb _ _ Hp] Hh Hout. unfold tp_issue. cbv zeta. rewrite Hh, Hl, (proj2 (Z.leb_le _ _)) by lia.
    eexists _, 3%nat, _. split; [done|]. split; [done|]. split; [exact looks_error|done].
  - intros p m Hh. unfold tp_issue. rewrite Hh. eexists _, p. by split_and!.
Defined.

Definition toy_sata_ram : memory := init_slot 0x1000 0x3000 0x2000 (λ a, a mod 256).
Definition toy_sata_disk : toy_port := mkPort (λ o, o mod 251) 0x1000 false.

Lemma toy_table : table_of toy_sata_ram 0x1000 = 0x2000.
Proof. vm_compute. reflexivity. Qed.
Lemma toy_sata_lat : ∀ p : toy_port, (sp_lat p < BUSY_SPINS)%nat ∧ (sp_lat p < CMD_SPINS)%nat.
Proof. intros p. exact sata_spins_three. Qed.
Lemma toy_apart : ∀ x, 0x10000 ≤ x → ¬ in_slot 0x1000 0x2000 x.
Proof. unfold in_slot. lia. Qed.
Lemma toy_place_ok lba : 0 ≤ lba ≤ 56 ∨ 64 ≤ lba < 100 → place_ok 0x1000 0x2000 64 lba 8 0x20000.
Proof. intros H. split; [lia|lia|lia|split; [lia|reflexivity]|]. intros x Hx. apply toy_apart. lia. Qed.
Definition toy_rq (lba : Z) : request := mkReq true lba 8 0x20000.
Lemma toy_rq_ok lba : 0 ≤ lba ≤ 56 → request_ok 0x1000 0x2000 0x10000 64 (toy_rq lba).
Proof. intros H. split; cbn; [lia|lia|lia| |lia]. intros x Hx. apply toy_apart. lia. Qed.

(** A transfer at sector 64 fails; sector 8 cannot be read any more. *)
Lemma one_error_ends_disk_witness : ∃ m1 p1, issue_command 0x1000 0x2000 (lba_fis (op_of false) 64 8) (Some (0x20000, 8 * 512)) false toy_sata_ram toy_sata_disk = (false, m1, p1) ∧
  ∃ m2 p2, issue_command 0x1000 0x2000 (lba_fis (op_of false) 8 8) (Some (0x20000, 8 * 512)) false toy_sata_ram p1 = (false, m2, p2).
Proof.
  destruct (one_error_ends_disk 0x1000 0x2000 ltac:(lia) ltac:(lia) toy_sata_lat false 64 8 0x20000 toy_sata_ram toy_sata_disk) as (m1 & p1 & E & H).
  - reflexivity.
  - exact toy_table.
  - apply toy_place_ok. lia.
  - cbn. lia.
  - exists m1, p1. split; [exact E|]. destruct (H false 8 8 0x20000 toy_sata_ram toy_table) as (m2 & p2 & E2 & _); [apply toy_place_ok; lia|]. exists m2, p2. exact E2.
Defined.

Lemma mailbox_is_a_disk_witness : let s := kernel_start 0x10000 (toy_rq 8) (box_start 0x1000 0x2000 toy_sata_ram toy_sata_disk 0xFEB00000 0x100) in
  kat s = KLba (toy_rq 8) ∧ ∃ pending, issued s = answered s ++ pending ∧ (length pending ≤ 1)%nat.
Proof.
  intros s. split; [vm_compute; reflexivity|].
  destruct (mailbox_is_a_disk 0x1000 0x2000 ltac:(lia) ltac:(lia) toy_sata_lat 0x10000 64 ltac:(split_and!; [lia|lia|reflexivity]) ltac:(intros; apply toy_apart; lia)
    toy_sata_ram toy_sata_disk 0xFEB00000 0x100 s) as (l & Hi & Hl & _).
  - exact toy_table.
  - reflexivity.
  - reflexivity.
  - apply rtc_once. apply step_start; [reflexivity|]. apply toy_rq_ok. lia.
  - reflexivity.
  - exists l. split; [exact Hi|exact Hl].
Defined.

(** A write of sector 16 is reported as done and never was. *)
Lemma late_answer_believed_witness : ∃ s, rtc (box_step 0x10000 (request_ok 0x1000 0x2000 0x10000 64)) (box_start 0x1000 0x2000 toy_sata_ram toy_sata_disk 0xFEB00000 0x100) s ∧
  map (λ t, (t_lba t, t_ok t)) (answered s) = [(8, false); (16, true)] ∧ map t_lba (issued s) = [8].
Proof.
  destruct (late_answer_believed 0x1000 0x2000 ltac:(lia) ltac:(lia) toy_sata_lat 0x10000 64 ltac:(split_and!; [lia|lia|reflexivity]) ltac:(intros; apply toy_apart; lia)
    toy_sata_ram toy_sata_disk 0xFEB00000 0x100 (toy_rq 8) (toy_rq 16)) as (s & Hr & _ & _ & Ha & Hi).
  - exact toy_table.
  - reflexivity.
  - reflexivity.
  - reflexivity.
  - apply toy_rq_ok. lia.
  - cbn. lia.
  - apply toy_rq_ok. lia.
  - exists s. split; [exact Hr|]. split; [exact Ha|exact Hi].
Defined.
