(* ===== verification/Hepbl.v ===== *)
(** The boot loader ([hepbl/src/main.rs]): the search for the ACPI tables, the choice of a
    graphics mode, the page tables it builds, loading the kernel's ELF file, the memory map, and
    what it hands to the kernel.

    The firmware is outside the sources: the class [BootServices] says of [allocate_pages] what
    the UEFI specification does. Memory is the firmware's identity mapping, a byte per physical
    address. [die] prints a message and stops: it is a [Panic].

    Not modelled: the console, the file protocol ([kernel.elf] is its bytes), the retry around
    [ExitBootServices] and the jump. *)

From stdpp Require Import prelude list numbers strings.
From S2P Require Import Prelude Pmm Memory Paging Display.

Local Open Scope Z_scope.

Definition BOOTINFO_MAGIC : Z := 0x486570424C210001.
Definition HHDM_OFFSET : Z := 0xFFFF800000000000.
Definition MAX_MEMMAP : Z := 128.
Definition EFI_CONVENTIONAL_MEMORY : Z := 7.

(** ** The configuration table *)

Definition Guid : Type := Z * Z * Z * list Z.
Definition ACPI_20_TABLE_GUID : Guid := (0x8868e871, 0xe4f1, 0x11d3, [0xbc; 0x22; 0x00; 0x80; 0xc7; 0x3c; 0x88; 0x81]).
Definition ACPI_10_TABLE_GUID : Guid := (0xeb9d2d30, 0x2d88, 0x11d3, [0x9a; 0x16; 0x00; 0x90; 0x27; 0x3f; 0xc1; 0x4d]).
Definition guid_eq (a b : Guid) : bool := bool_decide (a = b).

(** Entries are GUID and address; [acpi1] is the last 1.0 entry seen. *)
Fixpoint find_rsdp_from (l : list (Guid * Z)) (acpi1 : Z) : Z :=
  match l with
  | [] => acpi1
  | (g, t) :: l => if guid_eq g ACPI_20_TABLE_GUID then t else find_rsdp_from l (if guid_eq g ACPI_10_TABLE_GUID then t else acpi1)
  end.
Definition find_rsdp (l : list (Guid * Z)) : Z := find_rsdp_from l 0.

(** ** The graphics mode *)

Record GopModeInfo := mkGop { h_res : Z; v_res : Z; pixel_format : Z; red_mask : Z; green_mask : Z; blue_mask : Z; pixels_per_scanline : Z }.

Definition mode_score (i : GopModeInfo) : Z :=
  let w := h_res i in let h := v_res i in
  if (w =? 1280) && (h =? 800) then 2 ^ 40
  else if (w =? 1024) && (h =? 768) then 2 ^ 39
  else if (w <=? 1440) && (h <=? 900) then w * h
  else 0.

(** The loop over the modes, from number [m]; [None]: the query failed. *)
Fixpoint best_mode_from (l : list (option GopModeInfo)) (m : Z) (best : option Z) (score : Z) : option Z :=
  match l with
  | [] => best
  | None :: l => best_mode_from l (m + 1) best score
  | Some i :: l =>
    if 2 <? pixel_format i then best_mode_from l (m + 1) best score
    else if score <? mode_score i then best_mode_from l (m + 1) (Some m) (mode_score i)
    else best_mode_from l (m + 1) best score
  end.
Definition best_mode (l : list (option GopModeInfo)) : option Z := best_mode_from l 0 None 0.

(** [u32::trailing_zeros] *)
Fixpoint trailing_zeros (fuel : nat) (v : Z) : Z :=
  match fuel with O => 0 | S n => if Z.odd v then 0 else 1 + trailing_zeros n (Z.div2 v) end.

Definition shifts (i : GopModeInfo) : Z * Z * Z :=
  if pixel_format i =? 0 then (0, 8, 16)
  else if pixel_format i =? 1 then (16, 8, 0)
  else (trailing_zeros 32 (red_mask i), trailing_zeros 32 (green_mask i), trailing_zeros 32 (blue_mask i)).

(** ** Memory from the firmware *)

(** [AllocateAnyPages] of [EfiLoaderData]: page-aligned, in physical memory, not handed out
    before. [bs_owned] tells the pages handed out. *)
Class BootServices (U : Type) := {
  allocate_pages : U → Z → option Z * U;
  bs_owned : U → Z → bool;
  bs_law : ∀ u n a u', 0 < n → allocate_pages u n = (Some a, u') →
    a mod PAGE_SIZE = 0 ∧ 0 ≤ a ∧ a + n * PAGE_SIZE ≤ 2 ^ 52 ∧
    (∀ x, bs_owned u' x = bs_owned u x || (bool_decide (a ≤ x < a + n * PAGE_SIZE))) ∧ (∀ x, a ≤ x < a + n * PAGE_SIZE → bs_owned u x = false)
}.

Record loader (U : Type) := mkLoader { uefi : U; lram : memory }.
Arguments mkLoader {U}. Arguments uefi {U}. Arguments lram {U}.

(** [ptr::write_bytes(a, 0, n)] *)
Definition zero_range (m : memory) (a n : Z) : memory := λ x, if (a <=? x) && (x <? a + n) then 0 else m x.

Section hepbl.
Context {U : Type} `{!BootServices U}.

Definition on_ram (f : memory → memory) : ST (loader U) unit := modify (λ s, mkLoader (uefi s) (f (lram s))).

Definition alloc (msg : string) (n : Z) : ST (loader U) Z := λ s,
  match allocate_pages (uefi s) n with (Some a, u) => Ok (a, mkLoader u (lram s)) | (None, _) => Panic msg end.

Definition alloc_zeroed_page : ST (loader U) Z :=
  a ← alloc "page alloc" 1; on_ram (λ m, zero_range m a 4096) ≫= λ _, mret a.

(** ** Page tables *)

Definition PTE_P : Z := 1.
Definition PTE_W : Z := 2.
Definition pte (phys : Z) : Z := Z.lor (Z.lor phys PTE_P) PTE_W.
Definition put (m : memory) (table i v : Z) : memory := write64 m (table + 8 * i) v.

(** One level of [map4k]. *)
Definition next_table (table i : Z) : ST (loader U) Z :=
  e ← gets (λ s, read64 (lram s) (table + 8 * i));
  if negb (Z.land e PTE_P =? 0) then mret (Z.land e 0x000FFFFFFFFFF000)
  else p ← alloc_zeroed_page; on_ram (λ m, put m table i (pte p)) ≫= λ _, mret p.

Definition map4k (pml4 virt phys : Z) : ST (loader U) unit :=
  p3 ← next_table pml4 (i4 virt);
  p2 ← next_table p3 (i3 virt);
  p1 ← next_table p2 (i2 virt);
  on_ram (λ m, put m p1 (i1 virt) (pte phys)).

(** The three nested loops of [build_page_tables]. *)
Definition fill_pt (pt frame_base : Z) (m : memory) : memory :=
  foldl (λ m j, put m pt j (pte (Z.lor frame_base (Z.shiftl j 12)))) m (seqZ 0 512).
Definition fill_pd (pd pts g : Z) (m : memory) : memory :=
  foldl (λ m i, let pt := pts + (g * 512 + i) * 4096 in
                fill_pt pt (Z.lor (Z.shiftl g 30) (Z.shiftl i 21)) (put m pd i (pte pt))) m (seqZ 0 512).
Definition fill_pdpt (pdpt pds pts : Z) (m : memory) : memory :=
  foldl (λ m g, let pd := pds + g * 4096 in fill_pd pd pts g (put m pdpt g (pte pd))) m (seqZ 0 4).

Definition TABLE_PAGES : Z := 1 + 4 + 2048.

Definition build_page_tables : ST (loader U) Z :=
  pml4 ← alloc_zeroed_page;
  base ← alloc "hhdm tables alloc" TABLE_PAGES;
  on_ram (λ m, zero_range m base (TABLE_PAGES * 4096)) ≫= λ _,
  on_ram (fill_pdpt base (base + 4096) (base + 4096 * 5)) ≫= λ _,
  on_ram (λ m, put (put m pml4 0 (pte base)) pml4 256 (pte base)) ≫= λ _,
  mret pml4.

(** ** The kernel's ELF file *)

Section elf.
(** The file's bytes; reads past its end are not checked. *)
Variable data : memory.

Definition rd (a : Z) (n : nat) : Z := le_val (peek data a n).

Fixpoint map_run (n : nat) (pml4 virt phys : Z) : ST (loader U) unit :=
  match n with O => mret tt | S n => map4k pml4 virt phys ≫= λ _, map_run n pml4 (u64 (virt + 4096)) (phys + 4096) end.

(** One program header. *)
Definition load_segment (ph pml4 : Z) : ST (loader U) unit :=
  if negb (rd ph 4 =? 1) then mret tt
  else
    let p_offset := rd (ph + 8) 8 in
    let p_vaddr := rd (ph + 16) 8 in
    let p_filesz := rd (ph + 32) 8 in
    let p_memsz := rd (ph + 40) 8 in
    let vstart := Z.land p_vaddr (Z.lnot 0xFFF) in
    let vend := Z.land (u64 (p_vaddr + p_memsz + 0xFFF)) (Z.lnot 0xFFF) in
    let pages := u64 (vend - vstart) / 4096 in
    phys ← alloc "segment alloc" pages;
    on_ram (λ m, zero_range m phys (pages * 4096)) ≫= λ _,
    on_ram (λ m, poke m (phys + (p_vaddr - vstart)) (peek data p_offset (Z.to_nat p_filesz))) ≫= λ _,
    map_run (Z.to_nat pages) pml4 vstart phys.

Fixpoint load_segments (n : nat) (ph phentsize pml4 : Z) : ST (loader U) unit :=
  match n with O => mret tt | S n => load_segment ph pml4 ≫= λ _, load_segments n (ph + phentsize) phentsize pml4 end.

Definition load_kernel_elf (flen pml4 : Z) : ST (loader U) Z :=
  if flen <? 64 then panic "kernel too small"
  else if negb (rd 0 4 =? 0x464C457F) then panic "bad ELF magic"
  else if negb (data 4 =? 2) then panic "not ELF64"
  else load_segments (Z.to_nat (rd 56 2)) (rd 32 8) (rd 54 2) pml4 ≫= λ _, mret (rd 24 8).
End elf.

(** ** The memory map *)

Record MemoryDescriptor := mkDesc { d_typ : Z; phys_start : Z; num_pages : Z }.

Definition region_of (d : MemoryDescriptor) : MemRegion :=
  mkRegion (phys_start d) (u64 (num_pages d * 4096)) (if d_typ d =? EFI_CONVENTIONAL_MEMORY then 1 else 0).

(** [acc] is [memmap[0..n]], last first. *)
Fixpoint convert (ds : list MemoryDescriptor) (acc : list MemRegion) : list MemRegion :=
  match ds with
  | [] => acc
  | d :: ds =>
    let r := region_of d in
    match acc with
    | prev :: acc' =>
      if (typ prev =? typ r) && (u64 (base prev + rlen prev) =? base r) then convert ds (mkRegion (base prev) (u64 (rlen prev + rlen r)) (typ prev) :: acc')
      else if MAX_MEMMAP <=? len acc then acc
      else convert ds (r :: acc)
    | [] => convert ds [r]
    end
  end.
Definition memmap_of (ds : list MemoryDescriptor) : list MemRegion := reverse (convert ds []).

(** ** The hand-over *)

(** What the jump carries: page table, stack pointer, entry point and [RDI]. *)
Record handoff := mkHandoff { h_cr3 : Z; h_rsp : Z; h_rip : Z; h_rdi : Z }.

(** [BootInfo]: what the display takes of it, the memory map and the RSDP. *)
Record boot_page := mkBootPage { bi_magic : Z; bi_display : BootInfo; bi_memmap : list MemRegion; bi_rsdp : Z }.

Definition boot_info (fb_base : Z) (i : GopModeInfo) (tables : list (Guid * Z)) (ds : list MemoryDescriptor) : boot_page :=
  let '(rs, gs, bl) := shifts i in
  mkBootPage BOOTINFO_MAGIC (mkBoot HHDM_OFFSET (u64 (HHDM_OFFSET + fb_base)) (h_res i) (v_res i) (pixels_per_scanline i * 4) 32 rs gs bl)
    (memmap_of ds) (find_rsdp tables).

(** From the loaded file to the jump: tables, kernel, stack and the pages of [BootInfo] and of
    the memory map. *)
Definition prepare (data : memory) (flen : Z) : ST (loader U) handoff :=
  pml4 ← build_page_tables;
  entry ← load_kernel_elf data flen pml4;
  stack_phys ← alloc "stack alloc" 16;
  bi_phys ← alloc "bootinfo alloc" 1;
  on_ram (λ m, zero_range m bi_phys 4096) ≫= λ _,
  _ ← alloc "memmap buf" 16;
  mret (mkHandoff pml4 (u64 (HHDM_OFFSET + stack_phys + 16 * 4096 - 8)) entry (u64 (HHDM_OFFSET + bi_phys))).
End hepbl.
