(* ===== verification/HepblSpec.v ===== *)
(** The boot loader: its page tables translate exactly the first four gigabytes, twice; the
    memory map it hands over lets the frame allocator free conventional memory only; the mode,
    the tables and the stack it picks. *)

From stdpp Require Import prelude list numbers strings.
From S2P Require Import Prelude Pmm Memory Paging Display Hepbl.

Local Open Scope Z_scope.

(** ** Entries *)

Lemma lor_low a b k : 0 ≤ k → a mod 2 ^ k = 0 → 0 ≤ b < 2 ^ k → Z.lor a b = a + b.
Proof.
  intros Hk Ha Hb. rewrite <- Z.add_lor_land. assert (Z.land a b = 0) as ->; [|lia]. apply Z.bits_inj'. intros i Hi. rewrite Z.land_spec, Z.bits_0.
  destruct (decide (i < k)).
  - rewrite <- (Z.mod_pow2_bits_low a k i) by lia. rewrite Ha. by rewrite Z.bits_0.
  - rewrite (testbit_is_u k b i) by (unfold is_u; lia). apply andb_false_r.
Qed.

Lemma pte_lor a : pte a = Z.lor a 3.
Proof. unfold pte, PTE_P, PTE_W. by rewrite <- Z.lor_assoc. Qed.

Lemma pte_u64 a : phys_page a → is_u 64 (pte a).
Proof. intros H. rewrite pte_lor. apply entry_u64; [done|lia]. Qed.

Lemma read_put m t i v : is_u 64 v → read64 (put m t i v) (t + 8 * i) = v.
Proof. apply read64_write64. Qed.
Lemma put_out m t i v x : ¬ (t + 8 * i ≤ x < t + 8 * i + 8) → put m t i v x = m x.
Proof. apply write64_out. Qed.
Lemma read_put_ne m t i v a : a + 8 ≤ t + 8 * i ∨ t + 8 * i + 8 ≤ a → read64 (put m t i v) a = read64 m a.
Proof. apply read64_write64_ne. Qed.

Lemma walk_pte m a i p f b : read64 m (a + 8 * i) = pte b → phys_page b → walk m a (i :: p) f = walk m b p (Z.land f (pte b)).
Proof.
  intros E Hb. cbn [walk]. rewrite E. assert (present (pte b) = true) as -> by (rewrite present_bit, pte_lor, entry_flag by (done || lia); done).
  assert ((Z.land (pte b) PS =? 0) = true) as ->.
  { unfold PS. rewrite land_bit_eqb by lia. rewrite pte_lor, entry_flag by (done || lia). done. }
  rewrite orb_true_r. cbn [andb]. by rewrite pte_lor, entry_addr_lor by (done || lia).
Qed.

Lemma walk_absent m a i p f : read64 m (a + 8 * i) = 0 → walk m a (i :: p) f = None.
Proof. intros E. cbn [walk]. by rewrite E. Qed.

(** ** Loops that write memory *)

(** A fold in which turn [i] writes only inside [R i]: away from the other turns its result is
    that of one turn. *)
Lemma fold_at (f : memory → Z → memory) (R : Z → Z → Prop) n k a m : 0 ≤ k < n → (∀ m i x, 0 ≤ i < n → ¬ R i x → f m i x = m x) →
  (∀ i x, 0 ≤ i < n → i ≠ k → a ≤ x < a + 8 → ¬ R i x) → ∃ m0, read64 (foldl f m (seqZ 0 n)) a = read64 (f m0 k) a.
Proof.
  intros Hk Hf Hr. replace n with (k + (1 + (n - k - 1))) by lia. rewrite seqZ_app, (seqZ_app (0 + k) 1), !foldl_app by lia.
  exists (foldl f m (seqZ 0 k)). set (m1 := foldl f m (seqZ 0 k)). change (seqZ (0 + k) 1) with [0 + k]. cbn [foldl]. rewrite Z.add_0_l.
  apply read64_ext. intros x Hx. assert (∀ l m', (∀ i, i ∈ l → 0 ≤ i < n ∧ i ≠ k) → foldl f m' l x = m' x) as H.
  { induction l as [|i l IH]; intros m' Hl; [done|]. cbn. rewrite IH by (intros j Hj; apply Hl; by right). apply Hf; [apply Hl; by left|].
    apply Hr; [apply Hl; by left|apply Hl; by left|done]. }
  apply H. intros i Hi. apply elem_of_seqZ in Hi. lia.
Qed.

Lemma fold_out (f : memory → Z → memory) (R : Z → Z → Prop) n m x : (∀ m i x, 0 ≤ i < n → ¬ R i x → f m i x = m x) → (∀ i, 0 ≤ i < n → ¬ R i x) →
  foldl f m (seqZ 0 n) x = m x.
Proof.
  intros Hf Hr. assert (∀ l m', (∀ i, i ∈ l → 0 ≤ i < n) → foldl f m' l x = m' x) as H.
  { induction l as [|i l IH]; intros m' Hl; [done|]. cbn. rewrite IH by (intros j Hj; apply Hl; by right). apply Hf; [|apply Hr]; apply Hl; by left. }
  apply H. intros i Hi. apply elem_of_seqZ in Hi. lia.
Qed.

(** Frames and tables by number. *)
Definition pt_of (pts g i : Z) : Z := pts + (g * 512 + i) * 4096.

Section fill.
Context (base : Z) (Hb : 0 ≤ base) (Ha : base mod 4096 = 0) (Hm : base + TABLE_PAGES * 4096 ≤ 2 ^ 52).
Abbreviation pdpt := base.
Abbreviation pds := (base + 4096).
Abbreviation pts := (base + 4096 * 5).

Lemma fill_pt_out pt fb m x : ¬ (pt ≤ x < pt + 4096) → fill_pt pt fb m x = m x.
Proof.
  intros H. unfold fill_pt. apply (fold_out _ (λ j x, pt + 8 * j ≤ x < pt + 8 * j + 8)).
  - intros m' i y _ Hy. by apply put_out.
  - lia.
Qed.

Lemma fill_pt_read pt fb j m : 0 ≤ j < 512 → is_u 64 (pte (Z.lor fb (Z.shiftl j 12))) → read64 (fill_pt pt fb m) (pt + 8 * j) = pte (Z.lor fb (Z.shiftl j 12)).
Proof.
  intros Hj Hv. unfold fill_pt. destruct (fold_at (λ m j, put m pt j (pte (Z.lor fb (Z.shiftl j 12)))) (λ j x, pt + 8 * j ≤ x < pt + 8 * j + 8) 512 j (pt + 8 * j) m) as [m0 ->].
  - lia.
  - intros m' i y _ Hy. by apply put_out.
  - lia.
  - by apply read_put.
Qed.

(** What turn [i] of the middle loop, and turn [g] of the outer one, write. *)
Definition pd_row (pd g i x : Z) : Prop := pd + 8 * i ≤ x < pd + 8 * i + 8 ∨ pt_of pts g i ≤ x < pt_of pts g i + 4096.
Definition pdpt_row (g x : Z) : Prop := pdpt + 8 * g ≤ x < pdpt + 8 * g + 8 ∨ pds + g * 4096 ≤ x < pds + g * 4096 + 4096 ∨ pt_of pts g 0 ≤ x < pt_of pts (g + 1) 0.

Definition pd_turn (pd g : Z) (m : memory) (i : Z) : memory :=
  fill_pt (pt_of pts g i) (Z.lor (Z.shiftl g 30) (Z.shiftl i 21)) (put m pd i (pte (pt_of pts g i))).
Definition pdpt_turn (m : memory) (g : Z) : memory := fill_pd (pds + g * 4096) pts g (put m pdpt g (pte (pds + g * 4096))).

Lemma pd_turn_out pd g m i x : ¬ pd_row pd g i x → pd_turn pd g m i x = m x.
Proof. unfold pd_row, pd_turn. intros H. rewrite fill_pt_out, put_out by lia. done. Qed.

Lemma fill_pd_out pd g m x : ¬ (pd ≤ x < pd + 4096) → ¬ (pt_of pts g 0 ≤ x < pt_of pts (g + 1) 0) → fill_pd pd pts g m x = m x.
Proof.
  intros H1 H2. apply (fold_out (pd_turn pd g) (pd_row pd g)).
  - intros m' i y _ Hy. by apply pd_turn_out.
  - unfold pd_row, pt_of in *. lia.
Qed.

Lemma pdpt_turn_out m g x : 0 ≤ g < 4 → ¬ pdpt_row g x → pdpt_turn m g x = m x.
Proof. unfold pdpt_row, pdpt_turn. intros Hg H. rewrite fill_pd_out, put_out by lia. done. Qed.

Lemma fill_pdpt_out m x : (∀ g, 0 ≤ g < 4 → ¬ pdpt_row g x) → fill_pdpt pdpt pds pts m x = m x.
Proof. intros H. apply (fold_out pdpt_turn pdpt_row); [|done]. intros. by apply pdpt_turn_out. Qed.

Lemma pd_page g : 0 ≤ g < 4 → phys_page (pds + g * 4096).
Proof. unfold phys_page, PAGE_SIZE, TABLE_PAGES in *. intros. split; [lia|dlia]. Qed.
Lemma pt_page g i : 0 ≤ g < 4 → 0 ≤ i < 512 → phys_page (pt_of pts g i).
Proof. unfold phys_page, pt_of, PAGE_SIZE, TABLE_PAGES in *. intros. split; [lia|dlia]. Qed.

(** The frame the innermost loop names. *)
Lemma frame_sum g i j : 0 ≤ g < 4 → 0 ≤ i < 512 → 0 ≤ j < 512 → Z.lor (Z.lor (Z.shiftl g 30) (Z.shiftl i 21)) (Z.shiftl j 12) = g * 2 ^ 30 + i * 2 ^ 21 + j * 2 ^ 12.
Proof.
  intros Hg Hi Hj. rewrite !Z.shiftl_mul_pow2 by lia. rewrite (lor_low (g * 2 ^ 30) (i * 2 ^ 21) 30) by (lia || apply Z.mod_mul; lia).
  rewrite (lor_low _ (j * 2 ^ 12) 21); [lia|lia| |lia]. replace (g * 2 ^ 30 + i * 2 ^ 21) with ((g * 512 + i) * 2 ^ 21) by lia. apply Z.mod_mul. lia.
Qed.
Lemma frame_sum_page g i j : 0 ≤ g < 4 → 0 ≤ i < 512 → 0 ≤ j < 512 → phys_page (g * 2 ^ 30 + i * 2 ^ 21 + j * 2 ^ 12).
Proof. unfold phys_page, PAGE_SIZE. intros. split; [lia|dlia]. Qed.

(** The three levels as a reader finds them. *)
Lemma pdpt_entry m g : 0 ≤ g < 4 → read64 (fill_pdpt pdpt pds pts m) (pdpt + 8 * g) = pte (pds + g * 4096).
Proof.
  intros Hg. destruct (fold_at pdpt_turn pdpt_row 4 g (pdpt + 8 * g) m) as [m0 E]; [done|intros; by apply pdpt_turn_out| |].
  - unfold pdpt_row, pt_of. lia.
  - etrans; [exact E|]. unfold pdpt_turn. rewrite <- (read_put m0 pdpt g (pte (pds + g * 4096))) at 2 by (by apply pte_u64, pd_page).
    apply read64_ext. intros x Hx. apply fill_pd_out; unfold pt_of; lia.
Qed.

Lemma pd_entry m g i : 0 ≤ g < 4 → 0 ≤ i < 512 → read64 (fill_pdpt pdpt pds pts m) (pds + g * 4096 + 8 * i) = pte (pt_of pts g i).
Proof.
  intros Hg Hi. destruct (fold_at pdpt_turn pdpt_row 4 g (pds + g * 4096 + 8 * i) m) as [m0 E]; [done|intros; by apply pdpt_turn_out| |].
  - unfold pdpt_row, pt_of. lia.
  - etrans; [exact E|]. unfold pdpt_turn. destruct (fold_at (pd_turn (pds + g * 4096) g) (pd_row (pds + g * 4096) g) 512 i (pds + g * 4096 + 8 * i)
      (put m0 pdpt g (pte (pds + g * 4096)))) as [m1 E1]; [done|intros; by apply pd_turn_out|unfold pd_row, pt_of; lia|].
    etrans; [exact E1|]. unfold pd_turn. rewrite <- (read_put m1 (pds + g * 4096) i (pte (pt_of pts g i))) at 2 by (by apply pte_u64, pt_page).
    apply read64_ext. intros x Hx. apply fill_pt_out. unfold pt_of. lia.
Qed.

Lemma pt_entry m g i j : 0 ≤ g < 4 → 0 ≤ i < 512 → 0 ≤ j < 512 →
  read64 (fill_pdpt pdpt pds pts m) (pt_of pts g i + 8 * j) = pte (g * 2 ^ 30 + i * 2 ^ 21 + j * 2 ^ 12).
Proof.
  intros Hg Hi Hj. destruct (fold_at pdpt_turn pdpt_row 4 g (pt_of pts g i + 8 * j) m) as [m0 E]; [done|intros; by apply pdpt_turn_out| |].
  - unfold pdpt_row, pt_of. lia.
  - etrans; [exact E|]. unfold pdpt_turn. destruct (fold_at (pd_turn (pds + g * 4096) g) (pd_row (pds + g * 4096) g) 512 i (pt_of pts g i + 8 * j)
      (put m0 pdpt g (pte (pds + g * 4096)))) as [m1 E1]; [done|intros; by apply pd_turn_out|unfold pd_row, pt_of; lia|].
    etrans; [exact E1|]. unfold pd_turn. rewrite <- frame_sum by done. apply fill_pt_read; [done|]. rewrite frame_sum by done. by apply pte_u64, frame_sum_page.
Qed.
End fill.

(** ** The page tables *)

Lemma zero_range_in m a n x : a ≤ x < a + n → zero_range m a n x = 0.
Proof. intros H. unfold zero_range. by rewrite (proj2 (Z.leb_le _ _)), (proj2 (Z.ltb_lt _ _)) by lia. Qed.
Lemma zero_range_out m a n x : ¬ (a ≤ x < a + n) → zero_range m a n x = m x.
Proof. intros H. unfold zero_range. destruct (Z.leb_spec a x); [|done]. by rewrite (proj2 (Z.ltb_ge _ _)) by lia. Qed.
Lemma read64_zeros m a : (∀ x, a ≤ x < a + 8 → m x = 0) → read64 m a = 0.
Proof. intros H. rewrite <- (read64_ext m (λ _, 0)) by (intros; symmetry; by apply H). reflexivity. Qed.

Lemma split_virt v : v mod 2 ^ 39 = i3 v * 2 ^ 30 + i2 v * 2 ^ 21 + i1 v * 2 ^ 12 + v mod 4096.
Proof.
  unfold i3, i2, i1. rewrite !idx_div by lia. replace (v / 2 ^ 30) with (v / 2 ^ 12 / 512 / 512) by (rewrite !Z.div_div by lia; done).
  replace (v / 2 ^ 21) with (v / 2 ^ 12 / 512) by (rewrite !Z.div_div by lia; done). change (2 ^ 12) with 4096. dlia.
Qed.

Lemma land_all e4 e3 e2 e1 k : 0 ≤ k < 64 →
  (Z.land (Z.land (Z.land (Z.land (Z.land U64_MAX e4) e3) e2) e1) (bit k) =? 0) = negb (Z.testbit e4 k && Z.testbit e3 k && Z.testbit e2 k && Z.testbit e1 k).
Proof.
  intros Hk. rewrite land_bit_eqb, !Z.land_spec by lia. f_equal. change U64_MAX with (Z.ones 64). rewrite Z.ones_spec_low by lia. done.
Qed.

Section tables.
Context {U : Type} `{!BootServices U}.

(** What a walk through the tables gives. *)
Definition boot_mapping (v : Z) : option (Z * bool * bool) :=
  let o := v mod 2 ^ 39 in if bool_decide ((i4 v = 0 ∨ i4 v = 256) ∧ o < 2 ^ 32) then Some (o, true, false) else None.

(** The direct map as a reader finds it in memory. *)
Record direct (m : memory) (root base : Z) : Prop := {
  di_pages : phys_page root ∧ phys_page base ∧ base + TABLE_PAGES * 4096 ≤ 2 ^ 52;
  di_root : ∀ i, i = 0 ∨ i = 256 → read64 m (root + 8 * i) = pte base;
  di_pdpt : ∀ g, 0 ≤ g < 4 → read64 m (base + 8 * g) = pte (base + 4096 + g * 4096);
  di_rest : ∀ g, 4 ≤ g < 512 → read64 m (base + 8 * g) = 0;
  di_pd : ∀ g i, 0 ≤ g < 4 → 0 ≤ i < 512 → read64 m (base + 4096 + g * 4096 + 8 * i) = pte (pt_of (base + 4096 * 5) g i);
  di_pt : ∀ g i j, 0 ≤ g < 4 → 0 ≤ i < 512 → 0 ≤ j < 512 → read64 m (pt_of (base + 4096 * 5) g i + 8 * j) = pte (g * 2 ^ 30 + i * 2 ^ 21 + j * 2 ^ 12) }.

Lemma direct_translate m root base v : direct m root base → i4 v = 0 ∨ i4 v = 256 → translate m root v = boot_mapping v.
Proof.
  intros [(Hr & Hbp & Hm) D0 D1 D1' D2 D3] H4. pose proof Hbp as [Hb Ha]. unfold PAGE_SIZE in Ha. assert (0 ≤ base) as H0 by lia.
  pose proof (idx_range v 30) as I3. pose proof (idx_range v 21) as I2. pose proof (idx_range v 12) as I1. fold (i3 v) in *. fold (i2 v) in *. fold (i1 v) in *.
  pose proof (split_virt v) as Hsp. pose proof (Z.mod_pos_bound v 4096 ltac:(lia)). unfold boot_mapping. cbv zeta. unfold translate, indices.
  rewrite (walk_pte m root (i4 v) _ _ base) by auto. destruct (decide (i3 v < 4)) as [H3|H3].
  - assert (0 ≤ i3 v < 4) by lia. rewrite bool_decide_true by (split; [done|]; lia).
    rewrite (walk_pte m base (i3 v) _ _ (base + 4096 + i3 v * 4096)) by (auto || by apply pd_page).
    rewrite (walk_pte m (base + 4096 + i3 v * 4096) (i2 v) _ _ (pt_of (base + 4096 * 5) (i3 v) (i2 v))) by (auto || by apply pt_page).
    rewrite (walk_pte m (pt_of (base + 4096 * 5) (i3 v) (i2 v)) (i1 v) _ _ (i3 v * 2 ^ 30 + i2 v * 2 ^ 21 + i1 v * 2 ^ 12)) by (auto || by apply frame_sum_page).
    cbn [walk mbind option_bind]. unfold WRITE, USER. rewrite !land_all by lia. rewrite !pte_lor, !entry_flag by (done || lia || by apply pd_page || by apply pt_page || by apply frame_sum_page).
    cbn. by rewrite <- Hsp.
  - rewrite bool_decide_false by lia. rewrite walk_absent; [done|]. apply D1'. lia.
Qed.

(** What the loops and the last two entries leave. *)
Lemma tables_direct pml4 base m : phys_page pml4 → phys_page base → base + TABLE_PAGES * 4096 ≤ 2 ^ 52 → pml4 + 4096 ≤ base ∨ base + TABLE_PAGES * 4096 ≤ pml4 →
  (∀ x, pml4 ≤ x < pml4 + 4096 → m x = 0) → (∀ x, base ≤ x < base + TABLE_PAGES * 4096 → m x = 0) →
  let m' := put (put (fill_pdpt base (base + 4096) (base + 4096 * 5) m) pml4 0 (pte base)) pml4 256 (pte base) in
  direct m' pml4 base ∧ ∀ i, 0 ≤ i < 512 → i ≠ 0 → i ≠ 256 → read64 m' (pml4 + 8 * i) = 0.
Proof.
  intros Hp Hbp Hm Hap Z1 Z2 m2. pose proof Hbp as [Hb Ha]. unfold PAGE_SIZE in Ha. assert (0 ≤ base) as H0 by lia. set (m1 := fill_pdpt _ _ _ m) in m2.
  assert (∀ x, pml4 ≤ x < pml4 + 4096 → m1 x = 0) as P1.
  { intros x Hx. unfold m1. rewrite fill_pdpt_out; [by apply Z1|]. intros g Hg. unfold pdpt_row, pt_of, TABLE_PAGES in *. lia. }
  assert (∀ a, base ≤ a → a + 8 ≤ base + TABLE_PAGES * 4096 → read64 m2 a = read64 m1 a) as P2.
  { intros a ? ?. unfold m2. rewrite !read_put_ne; [done|lia..]. }
  split; [split; [done|..]|].
  - intros i [-> | ->]; unfold m2; [rewrite read_put_ne by lia|]; by apply read_put, pte_u64.
  - intros g Hg. rewrite P2 by (unfold TABLE_PAGES; lia). by apply pdpt_entry.
  - intros g Hg. rewrite P2 by (unfold TABLE_PAGES; lia). apply read64_zeros. intros x Hx. unfold m1.
    rewrite fill_pdpt_out; [apply Z2; unfold TABLE_PAGES; lia|]. intros g' Hg'. unfold pdpt_row, pt_of. lia.
  - intros g i Hg Hi. rewrite P2 by (unfold TABLE_PAGES; lia). by apply pd_entry.
  - intros g i j Hg Hi Hj. rewrite P2 by (unfold pt_of, TABLE_PAGES; lia). by apply pt_entry.
  - intros i Hi Hi0 Hi1. unfold m2. rewrite !read_put_ne by lia. apply read64_zeros. intros x Hx. apply P1. lia.
Qed.

(** The tables as they stand after [build_page_tables]: their pages are the firmware's. *)
Record tables_built (s' : loader U) (root base : Z) : Prop := {
  tb_direct : direct (lram s') root base;
  tb_zero : ∀ i, 0 ≤ i < 512 → i ≠ 0 → i ≠ 256 → read64 (lram s') (root + 8 * i) = 0;
  tb_apart : root + 4096 ≤ base ∨ base + TABLE_PAGES * 4096 ≤ root;
  tb_owned : ∀ x, root ≤ x < root + 4096 ∨ base ≤ x < base + TABLE_PAGES * 4096 → bs_owned (uefi s') x = true }.

Lemma build_spec (s : loader U) pml4 u1 base u2 : allocate_pages (uefi s) 1 = (Some pml4, u1) → allocate_pages u1 TABLE_PAGES = (Some base, u2) →
  wp build_page_tables s (λ r s', r = pml4 ∧ tables_built s' pml4 base).
Proof.
  intros E1 E2. destruct (bs_law (uefi s) 1 pml4 u1 ltac:(lia) E1) as (A1 & A2 & A3 & A4 & _). destruct (bs_law u1 TABLE_PAGES base u2 ltac:(unfold TABLE_PAGES; lia) E2) as (B1 & B2 & B3 & B4 & B5).
  assert (pml4 + 4096 ≤ base ∨ base + TABLE_PAGES * 4096 ≤ pml4) as Hap.
  { destruct (decide (pml4 + 4096 ≤ base ∨ base + TABLE_PAGES * 4096 ≤ pml4)) as [|Hn]; [done|]. exfalso.
    specialize (B5 (Z.max pml4 base) ltac:(unfold PAGE_SIZE, TABLE_PAGES in *; lia)). rewrite A4, bool_decide_true in B5 by (unfold PAGE_SIZE, TABLE_PAGES in *; lia).
    by rewrite orb_true_r in B5. }
  unfold PAGE_SIZE in *. unfold wp, build_page_tables, alloc_zeroed_page, alloc, on_ram, modify, mbind, ST_bind, mret, ST_ret. rewrite E1. cbn [uefi lram]. rewrite E2.
  split; [done|]. cbn [lram uefi]. destruct (tables_direct pml4 base (zero_range (zero_range (lram s) pml4 4096) base (TABLE_PAGES * 4096))) as [Hd Hz];
    unfold phys_page, PAGE_SIZE; [by split; [lia|]|split; [unfold TABLE_PAGES in *; lia|done]|lia|done|..].
  - intros x Hx. rewrite zero_range_out, zero_range_in by lia. done.
  - intros x Hx. by apply zero_range_in.
  - split; [done|done|done|]. cbn. intros x [Hx|Hx]; rewrite B4, A4; [rewrite (bool_decide_true (pml4 ≤ x < _)) by lia; by rewrite orb_true_r|].
    rewrite (bool_decide_true (base ≤ x < _)) by lia. apply orb_true_r.
Qed.

Lemma built_translate s' root base v : tables_built s' root base → translate (lram s') root v = boot_mapping v.
Proof.
  intros [Hd Hz _ _]. destruct (decide (i4 v = 0 ∨ i4 v = 256)) as [H4|H4]; [by apply (direct_translate _ _ base)|]. unfold boot_mapping. rewrite bool_decide_false by tauto.
  unfold translate, indices. rewrite walk_absent; [done|]. apply Hz; [apply idx_range|tauto|tauto].
Qed.

Lemma hhdm_indices p : 0 ≤ p < 2 ^ 39 → i4 (HHDM_OFFSET + p) = 256 ∧ (HHDM_OFFSET + p) mod 2 ^ 39 = p.
Proof. intros H. unfold i4, HHDM_OFFSET. rewrite idx_div by lia. dlia. Qed.
Lemma low_indices v : 0 ≤ v < 2 ^ 39 → i4 v = 0 ∧ v mod 2 ^ 39 = v.
Proof. intros H. unfold i4. rewrite idx_div by lia. dlia. Qed.

Lemma boot_mapping_hhdm p : 0 ≤ p < 2 ^ 39 → boot_mapping (HHDM_OFFSET + p) = if p <? 2 ^ 32 then Some (p, true, false) else None.
Proof.
  intros H. unfold boot_mapping. destruct (hhdm_indices p H) as [-> ->]. destruct (Z.ltb_spec p (2 ^ 32)); [by rewrite bool_decide_true by auto|by rewrite bool_decide_false by lia].
Qed.

(** The boot page tables are the direct map the kernel is promised. Whenever the firmware
    gives the memory, they are built, and the processor's walk through them maps virtual
    address [HHDM_OFFSET + p] to [p], writable and not for users, for exactly the [p] below
    4 GiB, the low addresses likewise to themselves, and nothing else. *)
Theorem boot_tables_are_direct_map (s : loader U) pml4 u1 base u2 : allocate_pages (uefi s) 1 = (Some pml4, u1) → allocate_pages u1 TABLE_PAGES = (Some base, u2) →
  wp build_page_tables s (λ root s', ∀ v,
    (∀ p, 0 ≤ p < 2 ^ 39 → v = HHDM_OFFSET + p → translate (lram s') root v = if p <? 2 ^ 32 then Some (p, true, false) else None) ∧
    (0 ≤ v < 2 ^ 39 → translate (lram s') root v = if v <? 2 ^ 32 then Some (v, true, false) else None) ∧
    (i4 v ≠ 0 → i4 v ≠ 256 → translate (lram s') root v = None)).
Proof.
  intros E1 E2. eapply wp_mono; [by eapply build_spec|]. intros root s' (-> & Hb) v. rewrite (built_translate s' pml4 base) by done. split_and!.
  - intros p Hp ->. by apply boot_mapping_hhdm.
  - intros Hv. unfold boot_mapping. destruct (low_indices v Hv) as [-> ->]. destruct (Z.ltb_spec v (2 ^ 32)); [by rewrite bool_decide_true by auto|by rewrite bool_decide_false by lia].
  - intros H0 H256. unfold boot_mapping. by rewrite bool_decide_false by tauto.
Qed.
End tables.

(** ** The memory map *)

Definition desc_ok (d : MemoryDescriptor) : Prop := phys_start d mod 4096 = 0 ∧ 0 ≤ phys_start d ∧ 0 ≤ num_pages d ∧ phys_start d + num_pages d * 4096 < 2 ^ 64.

(** Page [p] lies in the range, or in conventional memory. *)
Definition page_in (a n p : Z) : Prop := a ≤ p * 4096 ∧ (p + 1) * 4096 ≤ a + n.
Definition conventional (ds : list MemoryDescriptor) (p : Z) : Prop :=
  ∃ d, d ∈ ds ∧ d_typ d = EFI_CONVENTIONAL_MEMORY ∧ page_in (phys_start d) (num_pages d * 4096) p.

Record region_good (ds : list MemoryDescriptor) (r : MemRegion) : Prop := {
  rg_align : base r mod 4096 = 0 ∧ rlen r mod 4096 = 0;
  rg_range : 0 ≤ base r ∧ 0 ≤ rlen r ∧ base r + rlen r < 2 ^ 64;
  rg_sound : typ r = 1 → ∀ p, page_in (base r) (rlen r) p → conventional ds p }.

Definition complete (ds : list MemoryDescriptor) (l : list MemRegion) : Prop := ∀ p, conventional ds p → ∃ r, r ∈ l ∧ typ r = 1 ∧ page_in (base r) (rlen r) p.

Lemma conventional_more ds l p : conventional ds p → conventional (ds ++ l) p.
Proof. intros (d' & Hd & ?). exists d'. split; [|done]. apply elem_of_app. by left. Qed.
Lemma good_more ds l r : region_good ds r → region_good (ds ++ l) r.
Proof. intros [? ? Hs]. split; [done..|]. intros Ht p Hp. by apply conventional_more, (Hs Ht). Qed.
Lemma conventional_new ds d p : conventional (ds ++ [d]) p → conventional ds p ∨ (d_typ d = EFI_CONVENTIONAL_MEMORY ∧ page_in (phys_start d) (num_pages d * 4096) p).
Proof. intros (d' & Hd & ?). apply elem_of_app in Hd as [?|Hd]; [left; by exists d'|]. apply list_elem_of_singleton in Hd as ->. by right. Qed.

Lemma region_of_spec ds d : desc_ok d → region_good (ds ++ [d]) (region_of d) ∧ rlen (region_of d) = num_pages d * 4096 ∧
  base (region_of d) = phys_start d ∧ (typ (region_of d) = 1 ↔ d_typ d = EFI_CONVENTIONAL_MEMORY).
Proof.
  intros (Ha & Hs & Hn & He). assert (u64 (num_pages d * 4096) = num_pages d * 4096) as E by (apply wrap_small; unfold is_u; lia).
  assert (typ (region_of d) = 1 ↔ d_typ d = EFI_CONVENTIONAL_MEMORY) as Ht by (unfold region_of; cbn; destruct (Z.eqb_spec (d_typ d) EFI_CONVENTIONAL_MEMORY); done).
  split_and!; [|done|done|done]. split; cbn; rewrite ?E; [split; [done|apply Z.mod_mul; lia]|lia|].
  intros H p Hp. exists d. split; [apply elem_of_app; right; by left|]. split; [by apply Ht|done].
Qed.

(** Merging a region with the one it continues. *)
Lemma merge_good ds d r : region_good (ds ++ [d]) r → desc_ok d → typ r = typ (region_of d) → base r + rlen r = phys_start d →
  region_good (ds ++ [d]) (mkRegion (base r) (rlen r + rlen (region_of d)) (typ r)).
Proof.
  intros [[A1 A2] R Hs] Hd Et Eb. destruct (region_of_spec ds d Hd) as ([_ _ Hs'] & El & Eb' & _). rewrite Eb' in Hs'. destruct Hd as (Ha & ? & ? & ?).
  rewrite El in *. split; cbn; [split; [done|dlia]|lia|]. intros Hty p [P1 P2]. destruct (decide ((p + 1) * 4096 ≤ base r + rlen r)) as [?|?].
  - apply Hs; [done|]. by split.
  - apply Hs'; [congruence|]. split; [dlia|lia].
Qed.

Lemma convert_spec ds seen acc : Forall desc_ok ds → Forall (region_good seen) acc → complete seen acc → len acc ≤ MAX_MEMMAP →
  Forall (region_good (seen ++ ds)) (convert ds acc) ∧ len (convert ds acc) ≤ MAX_MEMMAP ∧ (len (convert ds acc) < MAX_MEMMAP → complete (seen ++ ds) (convert ds acc)).
Proof.
  revert seen acc. induction ds as [|d ds IH]; intros seen acc Hds Hg Hc Hl; [rewrite app_nil_r; cbn; split_and!; [done|done|done]|].
  apply Forall_cons in Hds as [Hd Hds]. destruct (region_of_spec seen d Hd) as (Hr & El & Eb & Et). replace (seen ++ d :: ds) with ((seen ++ [d]) ++ ds) by (by rewrite <- app_assoc).
  assert (Forall (region_good (seen ++ [d])) acc) as Hg' by (eapply Forall_impl; [exact Hg|]; intros; by apply good_more).
  assert (∀ acc', (∀ r, r ∈ acc → r ∈ acc' ∨ ∃ r', r' ∈ acc' ∧ typ r' = typ r ∧ ∀ p, page_in (base r) (rlen r) p → page_in (base r') (rlen r') p) →
    (∃ r', r' ∈ acc' ∧ typ r' = typ (region_of d) ∧ ∀ p, page_in (phys_start d) (num_pages d * 4096) p → page_in (base r') (rlen r') p) → complete (seen ++ [d]) acc') as Hcomp.
  { intros acc' H1 (r2 & H2 & E2 & P2) p Hp. apply conventional_new in Hp as [Hp|[Hty Hp]].
    - destruct (Hc p Hp) as (r & Hin & Hty & Hpg). destruct (H1 r Hin) as [?|(r' & ? & E & HP)]; [by exists r|]. exists r'. split_and!; [done|congruence|by apply HP].
    - exists r2. split_and!; [done|rewrite E2; by apply Et|by apply P2]. }
  assert (∀ p, page_in (phys_start d) (num_pages d * 4096) p → page_in (base (region_of d)) (rlen (region_of d)) p) as Hself by (by rewrite Eb, El).
  assert (∃ r', r' ∈ region_of d :: acc ∧ typ r' = typ (region_of d) ∧ ∀ p, page_in (phys_start d) (num_pages d * 4096) p → page_in (base r') (rlen r') p) as Hnew
    by (exists (region_of d); split_and!; [by left|done|done]).
  assert (let r := if MAX_MEMMAP <=? len acc then acc else convert ds (region_of d :: acc) in
    Forall (region_good ((seen ++ [d]) ++ ds)) r ∧ len r ≤ MAX_MEMMAP ∧ (len r < MAX_MEMMAP → complete ((seen ++ [d]) ++ ds) r)) as Hpush.
  { cbv zeta. destruct (Z.leb_spec MAX_MEMMAP (len acc)).
    - split_and!; [|done|lia]. eapply Forall_impl; [exact Hg'|]. intros; by apply good_more.
    - apply IH; [done|by constructor| |unfold len in *; cbn; lia]. apply Hcomp; [|done]. intros r Hr'. left. by right. }
  cbn [convert]. cbv zeta. destruct acc as [|prev acc]; [exact Hpush|]. apply Forall_cons in Hg' as [Hprev Hacc].
  destruct ((typ prev =? typ (region_of d)) && (u64 (base prev + rlen prev) =? base (region_of d))) eqn:E; [|exact Hpush].
  pose proof (rg_range _ _ Hprev) as R. apply andb_true_iff in E as [E1 E2]. rewrite wrap_small in E2 by (unfold is_u; lia). apply Z.eqb_eq in E1, E2. rewrite Eb in E2.
  pose proof Hd as (_ & D1 & D2 & D3). rewrite (wrap_small 64 (rlen prev + _)) by (unfold is_u; rewrite El; lia). apply IH; [done|by constructor; [apply merge_good|]|..|done].
  apply Hcomp.
  - intros r Hr'. apply elem_of_cons in Hr' as [->|Hr']; [right|left; by right]. eexists. split; [by left|]. cbn. split; [done|]. intros p [? ?]. split; [done|]. cbn in El. rewrite El. lia.
  - eexists. split; [by left|]. cbn. split; [done|]. intros p [? ?]. cbn in El. split; [lia|rewrite El; lia].
Qed.

Lemma memmap_of_spec ds : Forall desc_ok ds → Forall (region_good ds) (memmap_of ds) ∧ len (memmap_of ds) ≤ MAX_MEMMAP ∧ (len (memmap_of ds) < MAX_MEMMAP → complete ds (memmap_of ds)).
Proof.
  intros H. destruct (convert_spec ds [] [] H) as (H1 & H2 & H3); [constructor| |unfold len, MAX_MEMMAP; cbn; lia|].
  { intros p (d & Hd & _). by apply not_elem_of_nil in Hd. }
  cbn [app] in *. unfold memmap_of, len in *. rewrite length_reverse. split_and!; [by apply Forall_reverse|done|]. intros Hl p Hp.
  destruct (H3 Hl p Hp) as (r & Hr & ?). exists r. split; [by apply elem_of_reverse|done].
Qed.

Lemma good_region_ok ds r : region_good ds r → region_ok r.
Proof. intros [_ R _]. unfold region_ok, is_u. lia. Qed.

(** The frames [init] frees of a region are its whole pages. *)
Lemma frees_page ds r p : region_good ds r → frees r p = true ↔ typ r = 1 ∧ 0x100000 ≤ base r ∧ page_in (base r) (rlen r) p.
Proof.
  intros [[A1 A2] R _]. unfold frees, region_usable, region_first, region_last, page_in, PAGE_SIZE. rewrite wrap_small by (unfold is_u; lia).
  rewrite !andb_true_iff, bool_decide_eq_true, Z.eqb_eq, Z.leb_le. split; intros H; destruct_and?; split_and?; try done; dlia.
Qed.

Lemma covered_true l p : covered l p = true ↔ ∃ r, r ∈ l ∧ frees r p = true.
Proof. unfold covered. rewrite existsb_exists. by setoid_rewrite list_elem_of_In. Qed.

(** C4: the memory map handed over is safe. Whatever well-formed map the firmware gives, with
    any number of descriptors, the frame allocator that the kernel initialises from the
    loader's merged map frees only pages of conventional memory, none below 1 MiB; and unless
    the 128 entries are used up, every conventional page is free except those of a merged
    region that starts below 1 MiB. *)
Theorem boot_memory_safe ds s : Forall desc_ok ds → length (BITMAP s) = Z.to_nat (MAX_PAGES / 64) →
  wp (init (memmap_of ds)) s (λ _ s', ∀ p, valid_page p →
    (used s' p = false → 256 ≤ p ∧ conventional ds p) ∧
    (len (memmap_of ds) < MAX_MEMMAP → conventional ds p → used s' p = true → ∃ r, r ∈ memmap_of ds ∧ page_in (base r) (rlen r) p ∧ base r < 0x100000)).
Proof.
  intros Hds Hs. destruct (memmap_of_spec ds Hds) as (Hg & _ & Hc). rewrite Forall_forall in Hg.
  eapply wp_mono; [apply init_spec; [exact Hs|apply Forall_forall; intros r Hr; by eapply good_region_ok, Hg]|].
  intros _ s' (_ & Hu & _) p Hp. rewrite Hu by done. split.
  - intros H. apply negb_false_iff, covered_true in H as (r & Hr & Hf). apply (frees_page ds) in Hf as (Ht & Hb & Hpg); [|by apply Hg]. split; [unfold page_in in Hpg; lia|].
    by apply (rg_sound _ _ (Hg r Hr)).
  - intros Hl Hcv H. destruct (Hc Hl p Hcv) as (r & Hr & Ht & Hpg). exists r. split_and!; [done|done|]. apply negb_true_iff in H.
    destruct (decide (base r < 0x100000)) as [?|Hb]; [done|]. assert (covered (memmap_of ds) p = true) as E; [|congruence].
    apply covered_true. exists r. split; [done|]. apply (frees_page ds); [by apply Hg|]. split_and!; [done|lia|done].
Qed.

(** Low memory, a hole, two conventional pieces in a row and a reserved one. *)
Definition demo_descs : list MemoryDescriptor := [mkDesc 7 0 160; mkDesc 7 0x100000 8; mkDesc 7 0x108000 8; mkDesc 0 0x110000 1].

Lemma boot_memory_safe_witness :
  memmap_of demo_descs = demo_map ∧
  wp (init (memmap_of demo_descs)) demo_boot (λ _ s', ∀ p, valid_page p →
    (used s' p = false → 256 ≤ p ∧ conventional demo_descs p) ∧
    (len (memmap_of demo_descs) < MAX_MEMMAP → conventional demo_descs p → used s' p = true →
      ∃ r, r ∈ memmap_of demo_descs ∧ page_in (base r) (rlen r) p ∧ base r < 0x100000)).
Proof.
  split; [reflexivity|]. apply (boot_memory_safe demo_descs demo_boot); [|exact demo_boot_len].
  unfold demo_descs. repeat constructor; cbn; lia.
Defined.

(** ** The graphics mode and the ACPI tables *)

Definition usable_mode (l : list (option GopModeInfo)) (m : Z) (i : GopModeInfo) : Prop :=
  0 ≤ m ∧ l !! Z.to_nat m = Some (Some i) ∧ pixel_format i ≤ 2 ∧ 0 < mode_score i.

(** The loop keeps the best mode seen. *)
Lemma best_mode_from_spec l : ∀ pre b sc, 0 ≤ sc →
  match b with Some m => ∃ i, usable_mode pre m i ∧ mode_score i = sc | None => sc = 0 end →
  (∀ m i, usable_mode pre m i → mode_score i ≤ sc) →
  match best_mode_from l (len pre) b sc with
  | Some m => ∃ i, usable_mode (pre ++ l) m i ∧ ∀ m' i', usable_mode (pre ++ l) m' i' → mode_score i' ≤ mode_score i
  | None => ∀ m i, ¬ usable_mode (pre ++ l) m i
  end.
Proof.
  induction l as [|o l IH]; intros pre b sc Hsc Hb Hbest.
  { cbn. rewrite app_nil_r. destruct b as [m|]; [destruct Hb as (i & Hm & <-); by exists i|]. intros m i H. specialize (Hbest m i H) as ?. destruct H as (_ & _ & _ & ?). lia. }
  assert (len (pre ++ [o]) = len pre + 1) as El by (unfold len; rewrite length_app; cbn; lia).
  assert (∀ m i, usable_mode pre m i → usable_mode (pre ++ [o]) m i) as Hup.
  { intros m i (? & Hl & ?). split; [done|]. split; [by apply lookup_app_l_Some|done]. }
  assert (∀ m i, usable_mode (pre ++ [o]) m i → usable_mode pre m i ∨ (m = len pre ∧ o = Some i)) as Hnew.
  { intros m i (Hm & Hl & ?). apply lookup_app_Some in Hl as [Hl|[Hge Hl]]; [by left|right]. apply list_lookup_singleton_Some in Hl as [E ->]. unfold len. split; [lia|done]. }
  replace (pre ++ o :: l) with ((pre ++ [o]) ++ l) by (by rewrite <- app_assoc).
  assert ((∀ i, o = Some i → pixel_format i ≤ 2 → mode_score i ≤ sc) → match best_mode_from l (len pre + 1) b sc with
    | Some m => ∃ i, usable_mode ((pre ++ [o]) ++ l) m i ∧ ∀ m' i', usable_mode ((pre ++ [o]) ++ l) m' i' → mode_score i' ≤ mode_score i
    | None => ∀ m i, ¬ usable_mode ((pre ++ [o]) ++ l) m i end) as Hskip.
  { intros Ho. rewrite <- El. apply IH; [done| |].
    - destruct b as [m|]; [|done]. destruct Hb as (i & ? & ?). exists i. auto.
    - intros m i Hu. pose proof Hu as (_ & _ & Hp & _). destruct (Hnew m i Hu) as [?|[_ Eo]]; [by eapply Hbest|by apply Ho]. }
  destruct o as [i|]; cbn [best_mode_from]; [|by apply Hskip].
  destruct (Z.ltb_spec 2 (pixel_format i)); [apply Hskip; intros ? [= <-]; lia|]. destruct (Z.ltb_spec sc (mode_score i)) as [Hlt|Hge]; [|apply Hskip; by intros ? [= <-] _].
  rewrite <- El. apply IH; [lia| |].
  - exists i. split; [|done]. split; [unfold len; lia|]. split; [|lia]. unfold len. rewrite Nat2Z.id. rewrite lookup_app_r by lia. by rewrite Nat.sub_diag.
  - intros m i' Hu. destruct (Hnew m i' Hu) as [Hu'|[_ [= ->]]]; [|lia]. specialize (Hbest m i' Hu'). lia.
Qed.

(** The loader picks a mode whenever one fits, and the best of those that do. *)
Lemma best_mode_best l :
  match best_mode l with
  | Some m => ∃ i, usable_mode l m i ∧ ∀ m' i', usable_mode l m' i' → mode_score i' ≤ mode_score i
  | None => ∀ m i, ¬ usable_mode l m i
  end.
Proof.
  apply (best_mode_from_spec l [] None 0); [done|done|]. intros m i (_ & Hl & _). done.
Qed.

(** The first ACPI 2.0 entry wins over any 1.0 entry. *)
Lemma find_rsdp_first pre t post : Forall (λ e, e.1 ≠ ACPI_20_TABLE_GUID) pre → find_rsdp (pre ++ (ACPI_20_TABLE_GUID, t) :: post) = t.
Proof.
  unfold find_rsdp. generalize 0. induction pre as [|[g t'] pre IH]; intros a H; cbn [app find_rsdp_from].
  - unfold guid_eq. by rewrite bool_decide_true.
  - apply Forall_cons in H as [Hg H]. unfold guid_eq at 1. rewrite bool_decide_false by done. by apply IH.
Qed.

(** A colour mask's shift is the place of its lowest bit. *)
Lemma trailing_zeros_spec n v : 0 < v < 2 ^ Z.of_nat n → Z.testbit v (trailing_zeros n v) = true ∧ ∀ k, 0 ≤ k < trailing_zeros n v → Z.testbit v k = false.
Proof.
  revert v. induction n as [|n IH]; intros v Hv; [cbn in Hv; lia|]. cbn [trailing_zeros]. destruct (Z.odd v) eqn:E.
  - split; [by rewrite Z.bit0_odd|lia].
  - pose proof (Z.div2_odd v) as Hd. rewrite E in Hd. cbn in Hd. rewrite Nat2Z.inj_succ, Z.pow_succ_r in Hv by lia. destruct (IH (Z.div2 v)) as [H1 H2]; [lia|].
    assert (0 ≤ trailing_zeros n (Z.div2 v)) as H0 by (clear; generalize (Z.div2 v); induction n as [|n IH]; intros w; cbn; [lia|]; destruct (Z.odd w); [lia|]; specialize (IH (Z.div2 w)); lia).
    split; [rewrite Z.add_1_l, <- Z.div2_bits, <- Z.div2_div by done; exact H1|].
    intros k Hk. destruct (decide (k = 0)) as [->|]; [by rewrite Z.bit0_odd|]. replace k with (Z.succ (k - 1)) by lia. rewrite <- Z.div2_bits, <- Z.div2_div by lia. apply H2. lia.
Qed.
