(* ===== verification/HepblLoad.v ===== *)
(** The boot loader putting the kernel in place: every segment of the file is where it was
    linked, through tables of its own, and the direct map is as it was. *)

From stdpp Require Import prelude list gmap numbers strings.
From S2P Require Import Prelude Pmm Memory Paging Display Hepbl HepblSpec.

Local Open Scope Z_scope.

(** ** Running out of memory *)

(** The only way to stop short: the firmware has no pages left. *)
Definition oom {S A} (c : ST S A) (s : S) (Q : A → S → Prop) : Prop :=
  match c s with Ok (a, s') => Q a s' | Panic msg => msg ∈ ["page alloc"; "hhdm tables alloc"; "segment alloc"; "stack alloc"; "bootinfo alloc"; "memmap buf"]%string end.

Lemma oom_bind {S A B} (c : ST S A) (k : A → ST S B) s Q : oom c s (λ a s', oom (k a) s' Q) → oom (c ≫= k) s Q.
Proof. unfold oom, mbind, ST_bind. by destruct (c s) as [[a s']|]. Qed.
Lemma oom_ok {S A} (c : ST S A) s Q a s' : oom c s Q → c s = Ok (a, s') → Q a s'.
Proof. unfold oom. intros H E. by rewrite E in H. Qed.
Lemma oom_mono {S A} (c : ST S A) s (Q Q' : A → S → Prop) : oom c s Q → (∀ a s', Q a s' → Q' a s') → oom c s Q'.
Proof. unfold oom. destruct (c s) as [[a s']|]; auto. Qed.
Lemma oom_pair {S A B C} (c : ST S A) (d : A → ST S B) (k : A → B → ST S C) s P Q : oom (a ← c; b ← d a; mret (a, b)) s (λ '(a, b) s', P a b s') →
  (∀ a b s', P a b s' → oom (k a b) s' Q) → oom (a ← c; b ← d a; k a b) s Q.
Proof.
  unfold oom, mbind, ST_bind, mret, ST_ret. destruct (c s) as [[a s1]|]; [|done]. destruct (d a s1) as [[b s2]|]; [|done]. intros H Hk. by apply Hk.
Qed.
Lemma oom_step {S A B} (c : ST S A) (k : A → ST S B) s P Q : oom c s P → (∀ a s', P a s' → oom (k a) s' Q) → oom (c ≫= k) s Q.
Proof. intros H1 H2. apply oom_bind. by eapply oom_mono. Qed.

Lemma pages_apart a b x : phys_page a → phys_page b → a ≠ b → a ≤ x < a + 4096 → ¬ (b ≤ x < b + 4096).
Proof. unfold phys_page, PAGE_SIZE. intros [_ Ha] [_ Hb] Hne Hx. dlia. Qed.

Section load.
Context {U : Type} `{!BootServices U} (root : Z).
Implicit Types (s : loader U) (T : gmap (list Z) Z) (L : list Z → Z).

(** ** Trees of tables *)

(** [T] gives the table at every path of indices, [L] the last-level entry at every full path.
    The two entries of the direct map are apart. *)
Definition slot (p : list Z) (i : Z) : Prop := p = [] → i ≠ 0 ∧ i ≠ 256.

Record ktree T L s : Prop := {
  kt_root : T !! [] = Some root;
  kt_page : ∀ p a, T !! p = Some a → phys_page a ∧ ∀ x, a ≤ x < a + 4096 → bs_owned (uefi s) x = true;
  kt_inj : ∀ p q a, T !! p = Some a → T !! q = Some a → p = q;
  kt_up : ∀ p i b, T !! (p ++ [i]) = Some b → is_Some (T !! p);
  kt_entry : ∀ p a i, T !! p = Some a → (length p ≤ 2)%nat → 0 ≤ i < 512 → slot p i →
    read64 (lram s) (a + 8 * i) = match T !! (p ++ [i]) with Some b => pte b | None => 0 end;
  kt_leaf : ∀ p a i, T !! p = Some a → length p = 3%nat → 0 ≤ i < 512 → read64 (lram s) (a + 8 * i) = L (p ++ [i]);
  kt_none : ∀ p i, length p = 3%nat → T !! p = None → L (p ++ [i]) = 0 }.

Definition in_tables T (x : Z) : Prop := ∃ p a, T !! p = Some a ∧ a ≤ x < a + 4096.

(** What other memory keeps: pages handed out before that are not tables, and the entries of
    the direct map. *)
Record kstep T T' s s' : Prop := {
  ks_sub : T ⊆ T';
  ks_owned : ∀ x, bs_owned (uefi s) x = true → bs_owned (uefi s') x = true;
  ks_frame : ∀ x, bs_owned (uefi s) x = true → ¬ in_tables T x → lram s' x = lram s x ∧ ¬ in_tables T' x;
  ks_root : ∀ x, root ≤ x < root + 8 ∨ root + 2048 ≤ x < root + 2056 → lram s' x = lram s x }.

Lemma kstep_refl T s : kstep T T s s.
Proof. by split. Qed.
Lemma kstep_trans T1 T2 T3 s1 s2 s3 : kstep T1 T2 s1 s2 → kstep T2 T3 s2 s3 → kstep T1 T3 s1 s3.
Proof.
  intros [A1 A2 A3 A4] [B1 B2 B3 B4]. split; [by etrans|auto| |intros x Hx; by rewrite B4, A4].
  intros x Ho Hn. destruct (A3 x Ho Hn) as [E1 N1]. destruct (B3 x (A2 x Ho) N1) as [E2 N2]. by rewrite E2, E1.
Qed.

(** An entry of a table, apart from the others. *)
Lemma entry_bytes a i x : 0 ≤ i < 512 → a + 8 * i ≤ x < a + 8 * i + 8 → a ≤ x < a + 4096.
Proof. lia. Qed.

(** A fresh page becomes the table at [p ++ [i]]. *)
Section fresh.
Context T L s (p : list Z) (a i b : Z) (u' : U).
Context (K : ktree T L s) (Hp : T !! p = Some a) (Hlen : (length p ≤ 2)%nat) (Hi : 0 ≤ i < 512) (Hs : slot p i) (Hn : T !! (p ++ [i]) = None).
Context (Hal : allocate_pages (uefi s) 1 = (Some b, u')).

Definition grown : loader U := mkLoader u' (put (zero_range (lram s) b 4096) a i (pte b)).
Abbreviation T' := (<[p ++ [i] := b]> T).

Lemma fresh_law : phys_page b ∧ (∀ x, b ≤ x < b + 4096 → bs_owned (uefi s) x = false ∧ bs_owned u' x = true) ∧ (∀ x, bs_owned (uefi s) x = true → bs_owned u' x = true).
Proof.
  destruct (bs_law (uefi s) 1 b u' ltac:(lia) Hal) as (A1 & A2 & A3 & A4 & A5). unfold phys_page, PAGE_SIZE in *. split; [split; [lia|done]|split].
  - intros x Hx. split; [apply A5; lia|]. rewrite A4, bool_decide_true by lia. apply orb_true_r.
  - intros x Hx. by rewrite A4, Hx.
Qed.

Lemma fresh_ne q c : T !! q = Some c → c ≠ b.
Proof.
  intros Hq ->. destruct (kt_page _ _ _ K _ _ Hq) as [_ Ho]. destruct fresh_law as (_ & Hf & _). destruct (Hf b) as [E _]; [lia|]. by rewrite Ho in E by lia.
Qed.

Lemma grown_old q c j : T !! q = Some c → 0 ≤ j < 512 → (q, j) ≠ (p, i) → read64 (lram grown) (c + 8 * j) = read64 (lram s) (c + 8 * j).
Proof.
  intros Hq Hj Hne. destruct (kt_page _ _ _ K _ _ Hq) as [Hc _]. destruct (kt_page _ _ _ K _ _ Hp) as [Ha _]. destruct fresh_law as (Hb & _ & _).
  apply read64_ext. intros x Hx. pose proof (entry_bytes _ _ _ Hj Hx) as Hxc. cbn. rewrite put_out.
  - apply zero_range_out. by apply (pages_apart c b x Hc Hb (fresh_ne _ _ Hq)).
  - intros Hx'. destruct (decide (c = a)) as [->|Hca]; [|exact (pages_apart c a x Hc Ha Hca Hxc (entry_bytes a i x Hi Hx'))].
    assert (q = p) as -> by (by eapply kt_inj). assert (j ≠ i) by congruence. lia.
Qed.

Lemma grown_new j : 0 ≤ j < 512 → read64 (lram grown) (b + 8 * j) = 0.
Proof.
  intros Hj. destruct (kt_page _ _ _ K _ _ Hp) as [Ha _]. destruct fresh_law as (Hb & _ & _). apply read64_zeros. intros x Hx. pose proof (entry_bytes _ _ _ Hj Hx) as Hxb.
  cbn. rewrite put_out; [by apply zero_range_in|]. intros Hx'. apply (pages_apart b a x Hb Ha); [|done|exact (entry_bytes a i x Hi Hx')]. intros E. symmetry in E. by apply (fresh_ne _ _ Hp).
Qed.

Lemma below_none j : T !! ((p ++ [i]) ++ [j]) = None.
Proof. destruct (T !! ((p ++ [i]) ++ [j])) eqn:E; [|done]. apply (kt_up _ _ _ K) in E. rewrite Hn in E. by destruct E. Qed.

Lemma grown_tree : ktree T' L grown.
Proof.
  destruct fresh_law as (Hb & Hf & Hmono). split.
  - rewrite lookup_insert_ne by (by destruct p). apply K.
  - intros q c Hq. apply lookup_insert_Some in Hq as [[<- <-]|[_ Hq]]; [split; [done|]; intros x Hx; by apply Hf|].
    destruct (kt_page _ _ _ K _ _ Hq) as [? Ho]. split; [done|]. intros x Hx. by apply Hmono, Ho.
  - intros q q' c Hq Hq'. apply lookup_insert_Some in Hq as [[<- <-]|[_ Hq]]; apply lookup_insert_Some in Hq' as [[<- E]|[_ Hq']]; try done.
    + by apply fresh_ne in Hq'.
    + rewrite <- E in Hq. by apply fresh_ne in Hq.
    + by eapply kt_inj.
  - intros q j c Hq. apply lookup_insert_Some in Hq as [[E <-]|[_ Hq]].
    + apply app_inj_tail in E as [-> ->]. destruct (decide (q = q ++ [j])) as [E|E]; [rewrite <- E in Hn; congruence|]. exists a. rewrite lookup_insert_ne by congruence. done.
    + apply (kt_up _ _ _ K) in Hq as [c' Hc']. destruct (decide (q = p ++ [i])) as [->|?]; [exists b; by rewrite lookup_insert_eq|exists c'; by rewrite lookup_insert_ne].
  - intros q c j Hq Hl Hj Hsl. apply lookup_insert_Some in Hq as [[<- <-]|[Hne Hq]].
    + rewrite grown_new by done. rewrite lookup_insert_ne by (intros E; apply (f_equal length) in E; rewrite !length_app in E; cbn in E; lia). by rewrite below_none.
    + destruct (decide ((q, j) = (p, i))) as [[= -> ->]|Hd].
      * rewrite lookup_insert_eq. assert (c = a) as -> by congruence. apply read_put, pte_u64, Hb.
      * rewrite (grown_old q c j Hq Hj Hd). rewrite lookup_insert_ne by (intros E; apply app_inj_tail in E as [E1 E2]; congruence). by eapply kt_entry.
  - intros q c j Hq Hl Hj. apply lookup_insert_Some in Hq as [[<- <-]|[Hne Hq]].
    + rewrite grown_new by done. symmetry. by eapply kt_none.
    + rewrite (grown_old q c j Hq Hj); [by eapply kt_leaf|]. intros [= E1 E2]. rewrite E1 in Hl. lia.
  - intros q j Hl Hq. apply lookup_insert_None in Hq as [Hq _]. by eapply kt_none.
Qed.

Lemma grown_step : kstep T T' s grown.
Proof.
  destruct fresh_law as (Hb & Hf & Hmono). destruct (kt_page _ _ _ K _ _ Hp) as [Ha _]. destruct (kt_page _ _ _ K _ _ (kt_root _ _ _ K)) as [Hr Hro]. split.
  - by apply insert_subseteq.
  - exact Hmono.
  - intros x Ho Hx. assert (¬ (b ≤ x < b + 4096)) as Hxb by (intros H; destruct (Hf x H); congruence). split.
    + cbn. rewrite put_out; [by apply zero_range_out|]. intros H. apply Hx. exists p, a. split; [done|]. exact (entry_bytes a i x Hi H).
    + intros (q & c & Hq & Hc). apply lookup_insert_Some in Hq as [[<- <-]|[_ Hq]]; [done|]. apply Hx. by exists q, c.
  - intros x Hx. assert (root ≤ x < root + 4096) as Hxr by lia. cbn. rewrite put_out.
    + apply zero_range_out. intros H. destruct (Hf x H) as [E _]. by rewrite Hro in E.
    + intros H. destruct (decide (root = a)) as [<-|Hne]; [|exact (pages_apart root a x Hr Ha Hne Hxr (entry_bytes a i x Hi H))].
      assert (p = []) as -> by (eapply kt_inj; [done..|apply K]). destruct (Hs eq_refl). lia.
Qed.
End fresh.

Lemma next_table_spec T L s p a i : ktree T L s → T !! p = Some a → (length p ≤ 2)%nat → 0 ≤ i < 512 → slot p i →
  oom (next_table a i) s (λ b s', ∃ T', ktree T' L s' ∧ kstep T T' s s' ∧ T' !! (p ++ [i]) = Some b).
Proof.
  intros K Hp Hl Hi Hs. unfold next_table. apply oom_bind. unfold oom at 1, gets. rewrite (kt_entry _ _ _ K p a i Hp Hl Hi Hs). destruct (T !! (p ++ [i])) as [b|] eqn:E.
  - destruct (kt_page _ _ _ K _ _ E) as [Hb _]. assert ((Z.land (pte b) PTE_P =? 0) = false) as ->.
    { change PTE_P with (bit 0). rewrite land_bit_eqb, pte_lor, entry_flag by (done || lia). done. }
    cbn [negb]. unfold oom, mret, ST_ret. exists T. split; [done|]. split; [apply kstep_refl|]. rewrite E. f_equal. symmetry. rewrite pte_lor. apply (entry_addr_lor b 3 Hb). lia.
  - cbn [Z.land Z.eqb negb]. apply oom_bind. unfold oom at 1, alloc_zeroed_page, alloc, mbind, ST_bind. destruct (allocate_pages (uefi s) 1) as [[b|] u'] eqn:Ea; [|set_solver].
    unfold on_ram, modify, oom, mret, ST_ret. cbn. exists (<[p ++ [i] := b]> T).
    split; [by eapply grown_tree|]. split; [by eapply grown_step|]. apply lookup_insert_eq.
Qed.

(** ** Mapping pages *)

Definition upd_leaf L (k : list Z) (e : Z) : list Z → Z := λ q, if bool_decide (q = k) then e else L q.

Lemma put_leaf T L s p a i e : ktree T L s → T !! p = Some a → length p = 3%nat → 0 ≤ i < 512 → is_u 64 e →
  let s' := mkLoader (uefi s) (put (lram s) a i e) in ktree T (upd_leaf L (p ++ [i]) e) s' ∧ kstep T T s s'.
Proof.
  intros K Hp Hl Hi He s'. destruct (kt_page _ _ _ K _ _ Hp) as [Ha _]. destruct (kt_page _ _ _ K _ _ (kt_root _ _ _ K)) as [Hr _].
  assert (∀ q c j, T !! q = Some c → 0 ≤ j < 512 → (q, j) ≠ (p, i) → read64 (lram s') (c + 8 * j) = read64 (lram s) (c + 8 * j)) as Hold.
  { intros q c j Hq Hj Hne. destruct (kt_page _ _ _ K _ _ Hq) as [Hc _]. apply read64_ext. intros x Hx. pose proof (entry_bytes _ _ _ Hj Hx) as Hxc. cbn. apply put_out. intros Hx'.
    destruct (decide (c = a)) as [->|Hca]; [|exact (pages_apart c a x Hc Ha Hca Hxc (entry_bytes a i x Hi Hx'))].
    assert (q = p) as -> by (by eapply kt_inj). assert (j ≠ i) by congruence. lia. }
  split; split; try apply K; try done.
  - intros q c j Hq Hlq Hj Hsl. rewrite (Hold q c j Hq Hj); [by eapply kt_entry|]. intros [= E1 E2]. rewrite E1 in Hlq. lia.
  - intros q c j Hq Hlq Hj. unfold upd_leaf. case_bool_decide as E.
    + apply app_inj_tail in E as [-> ->]. assert (c = a) as -> by congruence. by apply read_put.
    + rewrite (Hold q c j Hq Hj); [by eapply kt_leaf|]. intros [= -> ->]. done.
  - intros q j Hlq Hq. unfold upd_leaf. rewrite bool_decide_false; [by eapply kt_none|]. intros E. apply app_inj_tail in E as [-> ->]. congruence.
  - intros x Ho Hx. split; [|done]. cbn. apply put_out. intros H. apply Hx. exists p, a. split; [done|]. exact (entry_bytes a i x Hi H).
  - intros x Hx. assert (root ≤ x < root + 4096) as Hxr by lia. cbn. apply put_out. intros H. destruct (decide (root = a)) as [<-|Hne].
    + assert (p = []) as -> by (eapply kt_inj; [done..|apply K]). done.
    + exact (pages_apart root a x Hr Ha Hne Hxr (entry_bytes a i x Hi H)).
Qed.

Definition other_half (v : Z) : Prop := i4 v ≠ 0 ∧ i4 v ≠ 256.

Lemma map4k_spec T L s v phys : ktree T L s → other_half v → phys_page phys →
  oom (map4k root v phys) s (λ _ s', ∃ T', ktree T' (upd_leaf L (indices v) (pte phys)) s' ∧ kstep T T' s s').
Proof.
  intros K Hv Hph. unfold map4k. pose proof (idx_range v 39). pose proof (idx_range v 30). pose proof (idx_range v 21). pose proof (idx_range v 12). fold (i4 v) (i3 v) (i2 v) (i1 v) in *.
  eapply oom_step; [apply (next_table_spec T L s [] root (i4 v)); [done|apply K|cbn; lia|done|by intros _]|]. intros p3 s3 (T3 & K3 & S3 & E3).
  eapply oom_step; [apply (next_table_spec T3 L s3 [i4 v] p3 (i3 v)); [done|done|cbn; lia|done|done]|]. intros p2 s2 (T2 & K2 & S2 & E2).
  eapply oom_step; [apply (next_table_spec T2 L s2 [i4 v; i3 v] p2 (i2 v)); [done|done|cbn; lia|done|done]|]. intros p1 s1 (T1 & K1 & S1 & E1).
  unfold oom, on_ram, modify. destruct (put_leaf T1 L s1 [i4 v; i3 v; i2 v] p1 (i1 v) (pte phys)) as [K0 S0]; [done|done|done|done|by apply pte_u64|].
  exists T1. split; [exact K0|]. do 3 (eapply kstep_trans; [done|]). exact S0.
Qed.

(** The kernel's half: the last 512 GiB. *)
Definition TOP : Z := 2 ^ 64 - 2 ^ 39.
Definition in_top (v : Z) : Prop := TOP ≤ v < 2 ^ 64.

Lemma top_half v : in_top v → other_half v.
Proof. unfold in_top, TOP, other_half, i4. intros H. rewrite idx_div by lia. dlia. Qed.

Lemma indices_shift v : indices v = indices (v - (2 ^ 64 - 2 ^ 48)).
Proof.
  unfold indices, i4, i3, i2, i1. rewrite !idx_div by lia. assert (∀ k, 0 ≤ k ≤ 39 → (v - (2 ^ 64 - 2 ^ 48)) / 2 ^ k mod 512 = v / 2 ^ k mod 512) as H; [|by rewrite !H by lia].
  intros k Hk. replace (v - (2 ^ 64 - 2 ^ 48)) with (v + (- (2 ^ 16 - 1) * 2 ^ (39 - k) * 512) * 2 ^ k).
  - rewrite Z.div_add, Z.mod_add by lia. done.
  - replace (2 ^ 64 - 2 ^ 48) with ((2 ^ 16 - 1) * 512 * (2 ^ (39 - k) * 2 ^ k)); [lia|]. rewrite <- Z.pow_add_r by lia. replace (39 - k + k) with 39 by lia. reflexivity.
Qed.

Lemma indices_top v w : in_top v → in_top w → indices v = indices w → v / 4096 = w / 4096.
Proof.
  unfold in_top, TOP. intros Hv Hw E. rewrite (indices_shift v), (indices_shift w) in E. apply indices_page in E; [|lia|lia]. dlia.
Qed.

Lemma indices_floor v : indices (v / 4096 * 4096) = indices v.
Proof.
  unfold indices, i4, i3, i2, i1. rewrite !idx_div by lia. assert (∀ k, 12 ≤ k → v / 4096 * 4096 / 2 ^ k = v / 2 ^ k) as H; [|by rewrite !H by lia].
  intros k Hk. replace k with (12 + (k - 12)) by lia. rewrite Z.pow_add_r by lia. change (2 ^ 12) with 4096. rewrite <- !Z.div_div by lia. by rewrite Z.div_mul by lia.
Qed.

Lemma map_run_spec n T L s v phys : ktree T L s → v mod 4096 = 0 → (n = 0%nat ∨ TOP ≤ v ∧ v + Z.of_nat n * 4096 ≤ 2 ^ 64) →
  phys mod 4096 = 0 → 0 ≤ phys → phys + Z.of_nat n * 4096 ≤ 2 ^ 52 →
  oom (map_run n root v phys) s (λ _ s', ∃ T' L', ktree T' L' s' ∧ kstep T T' s s' ∧
    (∀ k, 0 ≤ k < Z.of_nat n → L' (indices (v + k * 4096)) = pte (phys + k * 4096)) ∧
    (∀ q, (∀ k, 0 ≤ k < Z.of_nat n → q ≠ indices (v + k * 4096)) → L' q = L q)).
Proof.
  revert T L s v phys. induction n as [|n IH]; intros T L s v phys K Hv Hr Hpm Hp0 Hp.
  { unfold oom, map_run, mret, ST_ret. exists T, L. split; [done|]. split; [apply kstep_refl|]. split; [lia|done]. }
  destruct Hr as [?|[Ht Hr]]; [done|]. cbn [map_run]. assert (in_top v) as Hvt by (unfold in_top; lia).
  eapply oom_step; [apply map4k_spec; [exact K|by apply top_half|unfold phys_page, PAGE_SIZE; split; [lia|done]]|]. intros _ s1 (T1 & K1 & S1).
  assert (n = 0%nat ∨ u64 (v + 4096) = v + 4096) as Hu by (destruct n; [by left|right]; apply wrap_small; unfold is_u, TOP in *; lia).
  assert ((n = 0%nat ∨ TOP ≤ u64 (v + 4096) ∧ u64 (v + 4096) + Z.of_nat n * 4096 ≤ 2 ^ 64) ∧ u64 (v + 4096) mod 4096 = 0) as [Hr' Hm'].
  { destruct Hu as [Hu|Hu]; [split; [by left|]; unfold wrap; dlia|]. rewrite Hu. split; [right; lia|dlia]. }
  eapply oom_mono; [apply (IH T1 _ s1 (u64 (v + 4096)) (phys + 4096) K1 Hm' Hr'); [dlia|lia|lia]|]. intros _ s2 (T2 & L2 & K2 & S2 & H1 & H2).
  assert (∀ k, 0 ≤ k < Z.of_nat n → u64 (v + 4096) + k * 4096 = v + (k + 1) * 4096) as Hk by (intros k ?; destruct Hu as [-> | ->]; [lia|lia]).
  exists T2, L2. split; [done|]. split; [by eapply kstep_trans|]. split.
  - intros k Hkr. destruct (decide (k = 0)) as [->|Hk0].
    + rewrite !Z.add_0_r. rewrite H2; [unfold upd_leaf; by rewrite bool_decide_true|]. intros j Hj. rewrite Hk by done. intros E. apply indices_top in E; [dlia|done|unfold in_top; lia].
    + specialize (H1 (k - 1) ltac:(lia)). rewrite Hk in H1 by lia. replace (k - 1 + 1) with k in H1 by lia. rewrite H1. f_equal. lia.
  - intros q Hq. rewrite H2; [|intros k Hkr; rewrite Hk by done; apply Hq; lia]. unfold upd_leaf. rewrite bool_decide_false; [done|]. specialize (Hq 0 ltac:(lia)). by rewrite Z.add_0_r in Hq.
Qed.

(** ** Segments *)

(** Memory and allocations may change away from the tables. *)
Lemma ktree_ext T L s s' : ktree T L s → (∀ x, bs_owned (uefi s) x = true → bs_owned (uefi s') x = true ∧ lram s' x = lram s x) → ktree T L s' ∧ kstep T T s s'.
Proof.
  intros K H. assert (∀ q c j, T !! q = Some c → 0 ≤ j < 512 → read64 (lram s') (c + 8 * j) = read64 (lram s) (c + 8 * j)) as Hold.
  { intros q c j Hq Hj. destruct (kt_page _ _ _ K _ _ Hq) as [_ Ho]. apply read64_ext. intros x Hx. by apply H, Ho, (entry_bytes _ j). }
  split; split; try apply K; try done.
  - intros q c Hq. destruct (kt_page _ _ _ K _ _ Hq) as [? Ho]. split; [done|]. intros x Hx. by apply H, Ho.
  - intros q c j Hq Hl Hj Hs. rewrite (Hold q c j Hq Hj). by eapply kt_entry.
  - intros q c j Hq Hl Hj. rewrite (Hold q c j Hq Hj). by eapply kt_leaf.
  - intros x Hx. by apply H.
  - intros x Hx Hn. split; [by apply H|done].
  - intros x Hx. apply H. eapply kt_page; [done|apply K|lia].
Qed.

Section file.
Context (data : memory) (Hdata : ∀ x, is_byte (data x)).

Definition p_type (ph : Z) : Z := rd data ph 4.
Definition p_offset (ph : Z) : Z := rd data (ph + 8) 8.
Definition p_vaddr (ph : Z) : Z := rd data (ph + 16) 8.
Definition p_filesz (ph : Z) : Z := rd data (ph + 32) 8.
Definition p_memsz (ph : Z) : Z := rd data (ph + 40) 8.

(** A segment linked into the kernel's half. *)
Definition seg_ok (ph : Z) : Prop := TOP ≤ p_vaddr ph ∧ p_vaddr ph + p_memsz ph + 0xFFF < 2 ^ 64 ∧ p_filesz ph ≤ p_memsz ph ∧ 0 < p_memsz ph.

(** No page of one segment is also another's. *)
Definition same_page (v ph : Z) : Prop := p_vaddr ph / 4096 ≤ v / 4096 ≤ (p_vaddr ph + p_memsz ph - 1) / 4096.
Definition seg_apart (ph ph' : Z) : Prop := ∀ v, same_page v ph → ¬ same_page v ph'.

(** Where byte [k] of the segment is, and that it holds what the file says. *)
Definition byte_of (ph k : Z) : Z := if k <? p_filesz ph then data (p_offset ph + k) else 0.
Definition placed T L s (ph : Z) : Prop := ∀ k, 0 ≤ k < p_memsz ph → ∃ a, L (indices (p_vaddr ph + k)) = pte a ∧ phys_page a ∧
  let x := a + (p_vaddr ph + k) mod 4096 in bs_owned (uefi s) x = true ∧ ¬ in_tables T x ∧ lram s x = byte_of ph k.

Lemma placed_keeps T L s T' L' s' ph : placed T L s ph → kstep T T' s s' → (∀ k, 0 ≤ k < p_memsz ph → L' (indices (p_vaddr ph + k)) = L (indices (p_vaddr ph + k))) → placed T' L' s' ph.
Proof.
  intros H S HL k Hk. destruct (H k Hk) as (a & E & Ha & Ho & Hn & Em). exists a. rewrite HL by done. destruct (ks_frame _ _ _ _ S _ Ho Hn) as [E' N'].
  split; [done|]. split; [done|]. split; [by apply (ks_owned _ _ _ _ S)|]. split; [done|by rewrite E'].
Qed.

Lemma rd_range a n : 0 ≤ rd data a n < 2 ^ (8 * Z.of_nat n).
Proof. unfold rd. pose proof (le_val_range (peek data a n)) as H. rewrite length_peek in H. apply H. apply Forall_forall. intros b Hb. unfold peek in Hb. apply list_elem_of_fmap in Hb as (i & -> & _). apply Hdata. Qed.

Lemma floor_land v : Z.land v (Z.lnot 0xFFF) = v / 4096 * 4096.
Proof. rewrite <- Z.ldiff_land. change 0xFFF with (Z.ones 12). rewrite Z.ldiff_ones_r by lia. rewrite Z.shiftl_mul_pow2, Z.shiftr_div_pow2 by lia. done. Qed.

Lemma boot_segment_spec T L s ph : ktree T L s → (p_type ph = 1 → seg_ok ph) →
  oom (load_segment data ph root) s (λ _ s', ∃ T' L', ktree T' L' s' ∧ kstep T T' s s' ∧ (p_type ph = 1 → placed T' L' s' ph) ∧
    ∀ v, in_top v → (p_type ph = 1 → ¬ same_page v ph) → L' (indices v) = L (indices v)).
Proof.
  intros K Hok. unfold load_segment. fold (p_type ph). destruct (Z.eqb_spec (p_type ph) 1) as [Et|Et]; cbn [negb].
  2:{ unfold oom, mret, ST_ret. exists T, L. split; [done|]. split; [apply kstep_refl|]. by split. }
  destruct (Hok Et) as (Htop & Hend & Hfm & Hm0). fold (p_offset ph) (p_vaddr ph) (p_filesz ph) (p_memsz ph). set (va := p_vaddr ph) in *. set (ms := p_memsz ph) in *. set (fz := p_filesz ph) in *.
  assert (0 ≤ fz) as Hf0 by apply rd_range. rewrite !floor_land, (wrap_small 64 (va + ms + 0xFFF)) by (unfold is_u, TOP in *; lia).
  set (vs := va / 4096 * 4096). set (ve := (va + ms + 0xFFF) / 4096 * 4096). assert (vs ≤ va < vs + 4096) as Hvs by (unfold vs; dlia). assert (va + ms ≤ ve ≤ va + ms + 0xFFF) as Hve by (unfold ve; dlia).
  set (pages := (ve - vs) / 4096). assert (ve - vs = pages * 4096) as Hpg by (unfold pages, ve, vs; dlia). rewrite (wrap_small 64 (ve - vs)) by (unfold is_u, TOP in *; lia). fold pages.
  assert (0 < pages) as Hp0 by lia. assert (vs mod 4096 = 0) as Hvm by (unfold vs; apply Z.mod_mul; lia). assert (TOP ≤ vs) as Hts by (unfold vs, TOP in *; dlia).
  apply oom_bind. unfold oom at 1, alloc. destruct (allocate_pages (uefi s) pages) as [[phys|] u'] eqn:Ea; [|set_solver].
  destruct (bs_law _ _ _ _ Hp0 Ea) as (A1 & A2 & A3 & A4 & A5). unfold PAGE_SIZE in *.
  apply oom_bind. unfold oom at 1, on_ram, modify. apply oom_bind. unfold oom at 1, on_ram, modify. cbn [uefi lram].
  set (img := peek data (p_offset ph) (Z.to_nat fz)). assert (len img = fz) as Hil by (unfold len, img; rewrite length_peek; lia).
  set (m2 := poke (zero_range (lram s) phys (pages * 4096)) (phys + (va - vs)) img). set (s2 := mkLoader u' m2).
  destruct (ktree_ext T L s s2 K) as [K2 S2].
  { intros x Hx. cbn. split; [by rewrite A4, Hx|]. assert (¬ (phys ≤ x < phys + pages * 4096)) as Hnx by (intros H; apply A5 in H; congruence).
    unfold m2. rewrite poke_out by lia. by apply zero_range_out. }
  assert (∀ x, phys ≤ x < phys + pages * 4096 → bs_owned (uefi s2) x = true ∧ ¬ in_tables T x) as Hfresh.
  { intros x Hx. split; [cbn; rewrite A4, bool_decide_true by done; apply orb_true_r|]. intros (q & c & Hq & Hc). destruct (kt_page _ _ _ K _ _ Hq) as [_ Ho].
    specialize (A5 x Hx). rewrite Ho in A5 by done. done. }
  eapply oom_mono; [apply (map_run_spec _ T L s2 vs phys K2 Hvm); [right; lia|done|done|lia]|]. intros _ s3 (T3 & L3 & K3 & S3 & H1 & H2). rewrite Z2Nat.id in H1, H2 by lia.
  exists T3, L3. split; [done|]. split; [by eapply kstep_trans|]. split.
  - intros _ k Hk. set (j := (va - vs + k) / 4096). assert (0 ≤ j < pages) as Hj by (unfold j; clearbody pages; dlia).
    assert ((va + k) / 4096 * 4096 = vs + j * 4096) as Ev by (unfold j; clearbody vs; dlia).
    assert (j * 4096 + (va + k) mod 4096 = va - vs + k) as Eo by (unfold j; clearbody vs; dlia).
    fold va. exists (phys + j * 4096). split; [rewrite <- indices_floor, Ev; by apply H1|]. split; [split; [lia|unfold PAGE_SIZE; dlia]|].
    cbv zeta. replace (phys + j * 4096 + (va + k) mod 4096) with (phys + (va - vs + k)) by lia. destruct (Hfresh (phys + (va - vs + k))) as [Ho Hn]; [lia|].
    destruct (ks_frame _ _ _ _ S3 _ Ho Hn) as [E3 N3]. split_and!; [by apply (ks_owned _ _ _ _ S3)|done|]. rewrite E3. change (lram s2) with m2. unfold m2, byte_of. fold fz.
    destruct (Z.ltb_spec k fz).
    + apply poke_in; [|lia]. unfold img. replace (Z.to_nat _) with (Z.to_nat k) by lia. rewrite lookup_peek by lia. f_equal. f_equal. lia.
    + rewrite poke_out by lia. apply zero_range_in. lia.
  - intros v Hv Hns. apply H2. intros j Hj E. apply indices_top in E; [|done|unfold in_top, TOP in *; lia]. apply (Hns Et). unfold same_page. fold va ms.
    clearbody pages ve. unfold vs in *. dlia.
Qed.

Lemma boot_segments_spec n T L s ph es : ktree T L s → (∀ i, 0 ≤ i < Z.of_nat n → p_type (ph + i * es) = 1 → seg_ok (ph + i * es)) →
  (∀ i j, 0 ≤ i < j → j < Z.of_nat n → p_type (ph + i * es) = 1 → p_type (ph + j * es) = 1 → seg_apart (ph + i * es) (ph + j * es)) →
  oom (load_segments data n ph es root) s (λ _ s', ∃ T' L', ktree T' L' s' ∧ kstep T T' s s' ∧
    (∀ i, 0 ≤ i < Z.of_nat n → p_type (ph + i * es) = 1 → placed T' L' s' (ph + i * es)) ∧
    ∀ v, in_top v → (∀ i, 0 ≤ i < Z.of_nat n → p_type (ph + i * es) = 1 → ¬ same_page v (ph + i * es)) → L' (indices v) = L (indices v)).
Proof.
  revert T L s ph. induction n as [|n IH]; intros T L s ph K Hok Hap.
  { unfold oom, load_segments, mret, ST_ret. exists T, L. split; [done|]. split; [apply kstep_refl|]. split; [lia|done]. }
  cbn [load_segments]. assert (∀ i, ph + es + i * es = ph + (i + 1) * es) as Hsh by lia. pose proof (Hok 0) as Hok0. rewrite Z.add_0_r in Hok0.
  eapply oom_step; [apply (boot_segment_spec T L s ph K); intros; apply Hok0; [lia|done]|]. intros _ s1 (T1 & L1 & K1 & S1 & P1 & Q1).
  eapply oom_mono; [apply (IH T1 L1 s1 (ph + es) K1)|].
  - intros i Hi. rewrite Hsh. apply Hok. lia.
  - intros i j Hij Hj. rewrite !Hsh. apply Hap; lia.
  - intros _ s2 (T2 & L2 & K2 & S2 & P2 & Q2). exists T2, L2. split; [done|]. split; [by eapply kstep_trans|]. split.
    + intros i Hi Ht. destruct (decide (i = 0)) as [->|Hi0].
      * rewrite Z.mul_0_l, Z.add_0_r in *. apply (placed_keeps T1 L1 s1); [by apply P1|done|]. intros k Hk. destruct (Hok0 ltac:(lia) Ht) as (? & ? & ? & ?). apply Q2; [unfold in_top, TOP in *; lia|].
        intros j Hj Hjt. rewrite Hsh in *. specialize (Hap 0 (j + 1) ltac:(lia) ltac:(lia)). rewrite Z.mul_0_l, Z.add_0_r in Hap. apply (Hap Ht Hjt). unfold same_page. split; apply Z.div_le_mono; lia.
      * specialize (P2 (i - 1) ltac:(lia)). rewrite Hsh in P2. replace (i - 1 + 1) with i in P2 by lia. by apply P2.
    + intros v Hv Hn. rewrite Q2; [apply Q1; [done|]|done|].
      * specialize (Hn 0 ltac:(lia)). by rewrite Z.mul_0_l, Z.add_0_r in Hn.
      * intros i Hi. rewrite Hsh. apply Hn. lia.
Qed.
End file.

(** ** Walks *)

Lemma pte_nonzero a : phys_page a → pte a ≠ 0.
Proof. intros H E. assert (Z.testbit (pte a) 0 = true) as Hb by (rewrite pte_lor, entry_flag by (done || lia); done). by rewrite E in Hb. Qed.

Lemma translate_leaf_at T L s v a : ktree T L s → other_half v → L (indices v) = pte a → phys_page a → translate (lram s) root v = Some (a + v mod 4096, true, false).
Proof.
  intros K Hv HL Ha. pose proof (idx_range v 39). pose proof (idx_range v 30). pose proof (idx_range v 21). pose proof (idx_range v 12). fold (i4 v) (i3 v) (i2 v) (i1 v) in *.
  destruct (T !! [i4 v; i3 v; i2 v]) as [p1|] eqn:E1; [|pose proof (kt_none _ _ _ K [i4 v; i3 v; i2 v] (i1 v) eq_refl E1) as E; change (L (indices v) = 0) in E; rewrite HL in E; by apply pte_nonzero in E].
  destruct (kt_up _ _ _ K [i4 v; i3 v] (i2 v) p1 E1) as [p2 E2]. destruct (kt_up _ _ _ K [i4 v] (i3 v) p2 E2) as [p3 E3].
  destruct (kt_page _ _ _ K _ _ E1) as [G1 _]. destruct (kt_page _ _ _ K _ _ E2) as [G2 _]. destruct (kt_page _ _ _ K _ _ E3) as [G3 _].
  unfold translate, indices. rewrite (walk_pte _ root (i4 v) _ _ p3); [|rewrite (kt_entry _ _ _ K [] root (i4 v)) by (apply K || cbn; lia || done || by intros _); cbn [app]; by rewrite E3|done].
  rewrite (walk_pte _ p3 (i3 v) _ _ p2); [|rewrite (kt_entry _ _ _ K [i4 v] p3 (i3 v)) by (cbn; lia || done); cbn [app]; by rewrite E2|done].
  rewrite (walk_pte _ p2 (i2 v) _ _ p1); [|rewrite (kt_entry _ _ _ K [i4 v; i3 v] p2 (i2 v)) by (cbn; lia || done); cbn [app]; by rewrite E1|done].
  rewrite (walk_pte _ p1 (i1 v) _ _ a); [|rewrite (kt_leaf _ _ _ K [i4 v; i3 v; i2 v] p1 (i1 v)) by done; exact HL|done].
  cbn [walk mbind option_bind]. unfold WRITE, USER. rewrite !land_all by lia. rewrite !pte_lor, !entry_flag by (done || lia). reflexivity.
Qed.

(** The tables of [build_page_tables], seen as a tree without branches of the kernel's. *)
Lemma built_tree s base : tables_built s root base → ktree {[ [] := root ]} (λ _, 0) s.
Proof.
  intros [[(Hr & _ & _) _ _ _ _ _] Hz _ Ho]. split.
  - apply lookup_singleton_eq.
  - intros p a Hp. apply lookup_singleton_Some in Hp as [<- <-]. split; [done|]. intros x Hx. apply Ho. by left.
  - intros p q a Hp Hq. apply lookup_singleton_Some in Hp as [<- _]. by apply lookup_singleton_Some in Hq as [<- _].
  - intros p i b Hp. apply lookup_singleton_Some in Hp as [E _]. by destruct p.
  - intros p a i Hp _ Hi Hs. apply lookup_singleton_Some in Hp as [<- <-]. rewrite lookup_singleton_ne by done. destruct (Hs eq_refl). by apply Hz.
  - intros p a i Hp Hl. by apply lookup_singleton_Some in Hp as [<- _].
  - done.
Qed.

Lemma built_keeps T' s s' base : tables_built s root base → kstep {[ [] := root ]} T' s s' → direct (lram s') root base.
Proof.
  intros [Hd _ Hap Ho] S. pose proof Hd as [Hp D0 D1 D1' D2 D3].
  assert (∀ a, base ≤ a → a + 8 ≤ base + TABLE_PAGES * 4096 → read64 (lram s') a = read64 (lram s) a) as Hk.
  { intros a H1 H2. apply read64_ext. intros x Hx. apply (ks_frame _ _ _ _ S); [apply Ho; right; lia|]. intros (p & c & Hc & Hxc). apply lookup_singleton_Some in Hc as [_ <-]. lia. }
  split; [done|..].
  - intros i Hi. rewrite <- (D0 i Hi). apply read64_ext. intros x Hx. apply (ks_root _ _ _ _ S). destruct Hi as [-> | ->]; lia.
  - intros g Hg. rewrite <- D1 by done. apply Hk; unfold TABLE_PAGES; lia.
  - intros g Hg. rewrite <- (D1' g) by done. apply Hk; unfold TABLE_PAGES; lia.
  - intros g i Hg Hi. rewrite <- D2 by done. apply Hk; unfold TABLE_PAGES; lia.
  - intros g i j Hg Hi Hj. rewrite <- D3 by done. apply Hk; unfold pt_of, TABLE_PAGES; lia.
Qed.
End load.

Section boot.
Context {U : Type} `{!BootServices U}.

(** An ELF file whose loadable segments lie in the kernel's half, on pages of their own. *)
Record kernel_ok (data : memory) (flen : Z) : Prop := {
  ko_bytes : ∀ x, is_byte (data x);
  ko_head : 64 ≤ flen ∧ rd data 0 4 = 0x464C457F ∧ data 4 = 2;
  ko_segs : ∀ i, 0 ≤ i < rd data 56 2 → let ph := rd data 32 8 + i * rd data 54 2 in p_type data ph = 1 → seg_ok data ph;
  ko_apart : ∀ i j, 0 ≤ i < j → j < rd data 56 2 → let ph k := rd data 32 8 + k * rd data 54 2 in
    p_type data (ph i) = 1 → p_type data (ph j) = 1 → seg_apart data (ph i) (ph j) }.

(** ** Enough memory *)

(** [room] is a number of pages the firmware is sure to have left. *)
Definition has_room (room : U → Z) : Prop := ∀ u n, 0 < n ≤ room u → ∃ a u', allocate_pages u n = (Some a, u') ∧ room u - n ≤ room u'.

(** With [n] pages of room the computation returns, and takes no more than those. *)
Definition needs {A} (room : U → Z) (n : Z) (c : ST (loader U) A) : Prop :=
  ∀ s, n ≤ room (uefi s) → ∃ a s', c s = Ok (a, s') ∧ room (uefi s) - n ≤ room (uefi s').

Section room.
Context (room : U → Z) (Hroom : has_room room).

Lemma needs_bind {A B} n k (c : ST (loader U) A) (f : A → ST (loader U) B) : 0 ≤ k → needs room n c → (∀ a, needs room k (f a)) → needs room (n + k) (c ≫= f).
Proof.
  intros Hk Hc Hf s Hs. destruct (Hc s) as (a & s1 & E & Hs1); [lia|]. destruct (Hf a s1) as (b & s2 & E2 & Hs2); [lia|].
  exists b, s2. unfold mbind, ST_bind. rewrite E. split; [exact E2|lia].
Qed.
Lemma needs_more {A} n k (c : ST (loader U) A) : n ≤ k → needs room n c → needs room k c.
Proof. intros Hk Hc s Hs. destruct (Hc s) as (a & s' & E & H); [lia|]. exists a, s'. split; [done|lia]. Qed.
Lemma needs_ret {A} (a : A) : needs room 0 (mret a).
Proof. intros s Hs. exists a, s. split; [done|lia]. Qed.
Lemma needs_ram f : needs room 0 (on_ram f).
Proof. intros s Hs. eexists _, _. split; [reflexivity|cbn; lia]. Qed.
Lemma needs_alloc msg n : 0 < n → needs room n (alloc msg n).
Proof. intros Hn s Hs. destruct (Hroom (uefi s) n) as (a & u' & E & H); [lia|]. unfold alloc. rewrite E. by eexists _, _. Qed.

Lemma needs_page : needs room 1 alloc_zeroed_page.
Proof.
  apply (needs_bind 1 0); [lia|by apply needs_alloc|]. intros a. apply (needs_bind 0 0); [lia|apply needs_ram|]. intros _. apply needs_ret.
Qed.
Lemma needs_next t i : needs room 1 (next_table t i).
Proof.
  apply (needs_bind 0 1); [lia|intros s Hs; eexists _, _; split; [reflexivity|lia]|]. intros e. destruct (negb _).
  - eapply needs_more, needs_ret. lia.
  - apply (needs_bind 1 0); [lia|apply needs_page|]. intros q. apply (needs_bind 0 0); [lia|apply needs_ram|]. intros _. apply needs_ret.
Qed.
Lemma needs_map4k root v phys : needs room 3 (map4k root v phys).
Proof.
  apply (needs_bind 1 2); [lia|apply needs_next|]. intros p3. apply (needs_bind 1 1); [lia|apply needs_next|]. intros p2.
  apply (needs_bind 1 0); [lia|apply needs_next|]. intros p1. apply needs_ram.
Qed.
Lemma needs_run n root v phys : needs room (3 * Z.of_nat n) (map_run n root v phys).
Proof.
  revert v phys. induction n as [|n IH]; intros v phys; [apply needs_ret|]. replace (3 * Z.of_nat (S n)) with (3 + 3 * Z.of_nat n) by lia.
  apply needs_bind; [lia|apply needs_map4k|]. intros _. apply IH.
Qed.

Lemma needs_tables : needs room (1 + TABLE_PAGES) build_page_tables.
Proof.
  apply needs_bind; [unfold TABLE_PAGES; lia|apply needs_page|]. intros p. replace TABLE_PAGES with (TABLE_PAGES + 0) at 1 by lia.
  apply needs_bind; [lia|by apply needs_alloc|]. intros b. do 3 (apply (needs_bind 0 0); [lia|apply needs_ram|]; intros _). apply needs_ret.
Qed.

(** Pages a segment touches: each takes one for itself and up to three for tables. *)
Definition seg_pages (data : memory) (ph : Z) : Z := (p_vaddr data ph + p_memsz data ph - 1) / 4096 - p_vaddr data ph / 4096 + 1.
Definition seg_cost (data : memory) (ph : Z) : Z := if p_type data ph =? 1 then 4 * seg_pages data ph else 0.
Fixpoint segs_cost (data : memory) (n : nat) (ph es : Z) : Z := match n with O => 0 | S n => seg_cost data ph + segs_cost data n (ph + es) es end.

Lemma needs_segment data ph root : (∀ x, is_byte (data x)) → (p_type data ph = 1 → seg_ok data ph) → needs room (seg_cost data ph) (load_segment data ph root) ∧ 0 ≤ seg_cost data ph.
Proof.
  intros Hd Hok. unfold load_segment, seg_cost. fold (p_type data ph). destruct (Z.eqb_spec (p_type data ph) 1) as [Et|Et]; cbn [negb]; [|split; [apply needs_ret|lia]].
  destruct (Hok Et) as (Htop & Hend & Hfm & Hm0). fold (p_offset data ph) (p_vaddr data ph) (p_filesz data ph) (p_memsz data ph). unfold seg_pages.
  set (va := p_vaddr data ph) in *. set (ms := p_memsz data ph) in *. rewrite !floor_land, (wrap_small 64 (va + ms + 0xFFF)) by (unfold is_u, TOP in *; lia).
  clearbody va ms. set (vs := va / 4096 * 4096). set (ve := (va + ms + 0xFFF) / 4096 * 4096). assert (vs ≤ va < vs + 4096) as Hvs by (unfold vs; dlia).
  assert (va + ms ≤ ve ≤ va + ms + 0xFFF) as Hve by (unfold ve; dlia). rewrite (wrap_small 64 (ve - vs)) by (unfold is_u, TOP in *; lia). set (pages := (ve - vs) / 4096).
  replace ((va + ms - 1) / 4096 - va / 4096 + 1) with pages by (unfold pages, ve, vs; dlia). assert (0 < pages) as Hp by (unfold pages, ve, vs; dlia).
  split; [|lia]. replace (4 * pages) with (pages + 3 * pages) by lia. apply needs_bind; [lia|by apply needs_alloc|]. intros phys.
  do 2 (apply (needs_bind 0 (3 * pages)); [lia|apply needs_ram|]; intros _). rewrite <- (Z2Nat.id pages) at 1 by lia. apply needs_run.
Qed.

Lemma needs_segments data n ph es root : (∀ x, is_byte (data x)) → (∀ i, 0 ≤ i < Z.of_nat n → p_type data (ph + i * es) = 1 → seg_ok data (ph + i * es)) →
  needs room (segs_cost data n ph es) (load_segments data n ph es root) ∧ 0 ≤ segs_cost data n ph es.
Proof.
  intros Hd. revert ph. induction n as [|n IH]; intros ph Hok; [split; [apply needs_ret|done]|]. cbn [load_segments segs_cost].
  destruct (IH (ph + es)) as [H1 H2]; [intros i Hi; replace (ph + es + i * es) with (ph + (i + 1) * es) by lia; apply Hok; lia|].
  destruct (needs_segment data ph root Hd) as [H3 H4]; [specialize (Hok 0 ltac:(lia)); by rewrite Z.add_0_r in Hok|].
  split; [|lia]. by apply needs_bind.
Qed.

Definition boot_cost (data : memory) : Z := 1 + TABLE_PAGES + (segs_cost data (Z.to_nat (rd data 56 2)) (rd data 32 8) (rd data 54 2) + (16 + (1 + 16))).

Lemma needs_prepare data flen : kernel_ok data flen → needs room (boot_cost data) (prepare data flen).
Proof.
  intros [Hby (Hh1 & Hh2 & Hh3) Hsegs _]. assert (Z.of_nat (Z.to_nat (rd data 56 2)) = rd data 56 2) as En by (apply Z2Nat.id, rd_range, Hby).
  destruct (needs_segments data (Z.to_nat (rd data 56 2)) (rd data 32 8) (rd data 54 2) 0 Hby) as [_ H0]; [rewrite En; exact Hsegs|].
  apply needs_bind; [lia|apply needs_tables|]. intros root. set (k := segs_cost _ _ _ _) in *. apply needs_bind; [lia| |].
  - unfold load_kernel_elf. rewrite (proj2 (Z.ltb_ge _ _)), Hh2, Hh3 by lia. cbn [Z.eqb Pos.eqb negb]. replace k with (k + 0) by lia. apply needs_bind; [lia| |intros e; apply needs_ret].
    apply needs_segments; [done|]. rewrite En. exact Hsegs.
  - intros e. apply needs_bind; [lia|by apply needs_alloc|]. intros st. apply needs_bind; [lia|by apply needs_alloc|]. intros bi. apply (needs_bind 0 16); [lia|apply needs_ram|].
    intros _. apply (needs_bind 16 0); [lia|by apply needs_alloc|]. intros mm. apply needs_ret.
Qed.
End room.

(** ** The rest of the way *)

(** Pages handed out before stay so and keep their contents. *)
Definition grows (s s' : loader U) : Prop := ∀ x, bs_owned (uefi s) x = true → bs_owned (uefi s') x = true ∧ lram s' x = lram s x.

Lemma handed_trans s1 s2 s3 : grows s1 s2 → grows s2 s3 → grows s1 s3.
Proof. intros H1 H2 x Hx. destruct (H1 x Hx) as [Ho E]. destruct (H2 x Ho) as [Ho' E']. split; [done|congruence]. Qed.

Lemma alloc_grows msg n (s : loader U) : 0 < n → msg ∈ ["stack alloc"; "bootinfo alloc"; "memmap buf"]%string →
  oom (alloc msg n) s (λ a s', grows s s' ∧ lram s' = lram s ∧ a mod 4096 = 0 ∧ 0 ≤ a ∧ ∀ x, a ≤ x < a + n * 4096 → bs_owned (uefi s) x = false).
Proof.
  intros Hn Hm. unfold oom, alloc. destruct (allocate_pages (uefi s) n) as [[a|] u'] eqn:E; [|set_solver]. destruct (bs_law _ _ _ _ Hn E) as (A1 & A2 & A3 & A4 & A5).
  split_and!; [|done|done|done|done]. intros x Hx. cbn. by rewrite A4, Hx.
Qed.

Lemma zero_grows (s s' : loader U) a n : grows s s' → (∀ x, a ≤ x < a + n → bs_owned (uefi s) x = false) → grows s (mkLoader (uefi s') (zero_range (lram s') a n)).
Proof.
  intros H Ha x Hx. destruct (H x Hx) as [Ho E]. cbn. split; [done|]. rewrite zero_range_out; [done|]. intros Hr. specialize (Ha x Hr). congruence.
Qed.

(** Tables and segments after [load_kernel_elf]. *)
Record loaded (data : memory) (root : Z) (s : loader U) : Prop := {
  lo_direct : ∃ s1 base T, tables_built s1 root base ∧ kstep root {[ [] := root ]} T s1 s ∧
    ∃ L, ktree root T L s ∧ ∀ i, 0 ≤ i < rd data 56 2 → p_type data (rd data 32 8 + i * rd data 54 2) = 1 → placed data T L s (rd data 32 8 + i * rd data 54 2) }.

Lemma load_spec data flen (s : loader U) : kernel_ok data flen →
  oom (root ← build_page_tables; entry ← load_kernel_elf data flen root; mret (root, entry)) s (λ '(root, entry) s', entry = rd data 24 8 ∧ loaded data root s').
Proof.
  intros [Hby (Hh1 & Hh2 & Hh3) Hsegs Hap]. destruct (allocate_pages (uefi s) 1) as [[pml4|] u1] eqn:E1.
  2:{ unfold oom, build_page_tables, alloc_zeroed_page, alloc, mbind, ST_bind. rewrite E1. set_solver. }
  destruct (allocate_pages u1 TABLE_PAGES) as [[base|] u2] eqn:E2.
  2:{ unfold oom, build_page_tables, alloc_zeroed_page, alloc, on_ram, modify, mbind, ST_bind, mret, ST_ret. rewrite E1. cbn [uefi lram]. rewrite E2. set_solver. }
  destruct (wp_inv _ _ _ (build_spec s pml4 u1 base u2 E1 E2)) as (r & s1 & Eb & -> & Hb).
  apply oom_bind. unfold oom at 1. rewrite Eb. apply oom_bind. unfold load_kernel_elf. rewrite (proj2 (Z.ltb_ge _ _)), Hh2, Hh3 by lia. cbn [Z.eqb Pos.eqb negb].
  assert (Z.of_nat (Z.to_nat (rd data 56 2)) = rd data 56 2) as En by (apply Z2Nat.id, rd_range, Hby).
  eapply oom_step; [apply (boot_segments_spec pml4 data Hby _ _ _ s1 _ _ (built_tree pml4 s1 base Hb)); rewrite En; [exact Hsegs|exact Hap]|].
  intros _ s2 (T & L & K & S & P & _). rewrite En in P. unfold oom, mret, ST_ret. cbv beta iota. split; [reflexivity|]. split. exists s1, base, T. split; [done|]. split; [done|]. by exists L.
Qed.

Lemma loaded_grows data root s s' : loaded data root s → grows s s' → loaded data root s'.
Proof.
  intros [(s1 & base & T & Hb & S & L & K & P)] H. destruct (ktree_ext root T L s s' K H) as [K' S']. split. exists s1, base, T.
  split; [done|]. split; [by eapply kstep_trans|]. exists L. split; [done|]. intros i Hi Ht. eapply placed_keeps; [by apply P|exact S'|done].
Qed.

Lemma loaded_direct data root s v : loaded data root s → i4 v = 0 ∨ i4 v = 256 → translate (lram s) root v = boot_mapping v.
Proof. intros [(s1 & base & T & Hb & S & _)] Hv. apply (direct_translate _ _ base); [by eapply built_keeps|done]. Qed.

(** Byte [k] of a segment, through the walk, in a page handed out by then. *)
Lemma loaded_byte data flen root s s' i k : kernel_ok data flen → loaded data root s → grows s s' →
  0 ≤ i < rd data 56 2 → let ph := rd data 32 8 + i * rd data 54 2 in p_type data ph = 1 → 0 ≤ k < p_memsz data ph →
  ∃ x, translate (lram s') root (p_vaddr data ph + k) = Some (x, true, false) ∧ lram s' x = byte_of data ph k ∧ bs_owned (uefi s) x = true.
Proof.
  intros [_ _ Hsegs _] [(_ & _ & T & _ & _ & L & K & P)] G Hi ph Ht Hk. destruct (P i Hi Ht k Hk) as (a & EL & Ha & Ho & _ & Em). destruct (ktree_ext root T L s s' K G) as [K' _].
  assert (seg_ok data ph) as (? & ? & ? & ?) by exact (Hsegs i Hi Ht). exists (a + (p_vaddr data ph + k) mod 4096). split_and!; [|exact (eq_trans (proj2 (G _ Ho)) Em)|exact Ho].
  eapply translate_leaf_at; [done|apply top_half|done|done]. unfold in_top, TOP in *. lia.
Qed.

(** What the kernel finds when the loader has jumped to it. *)
Definition kernel_placed (data : memory) (h : handoff) (s' : loader U) (stack : Z) : Prop :=
  ∀ i k, 0 ≤ i < rd data 56 2 → let ph := rd data 32 8 + i * rd data 54 2 in p_type data ph = 1 → 0 ≤ k < p_memsz data ph →
    ∃ x, translate (lram s') (h_cr3 h) (p_vaddr data ph + k) = Some (x, true, false) ∧ lram s' x = byte_of data ph k ∧ ¬ (stack ≤ x < stack + 65536).

Definition stack_given (h : handoff) (s' : loader U) (stack : Z) : Prop :=
  h_rsp h = u64 (HHDM_OFFSET + stack + 65528) ∧ h_rsp h mod 16 = 8 ∧
  (stack + 65536 ≤ 2 ^ 32 → ∀ k, 0 ≤ k < 65536 → translate (lram s') (h_cr3 h) (HHDM_OFFSET + stack + k) = Some (stack + k, true, false)) ∧
  (2 ^ 32 ≤ stack < 2 ^ 38 → translate (lram s') (h_cr3 h) (h_rsp h - 8) = None).

Lemma loaded_stack data s root entry bi stack : loaded data root s → stack mod 4096 = 0 → 0 ≤ stack →
  stack_given (mkHandoff root (u64 (HHDM_OFFSET + stack + 16 * 4096 - 8)) entry bi) s stack.
Proof.
  intros Hl Ha H0. unfold stack_given. cbn [h_rsp h_cr3]. replace (HHDM_OFFSET + stack + 16 * 4096 - 8) with (HHDM_OFFSET + stack + 65528) by lia. split_and!; [done|..].
  - unfold wrap, HHDM_OFFSET. dlia.
  - intros Hs k Hk. destruct (hhdm_indices (stack + k)) as [E4 Em]; [lia|]. rewrite Z.add_assoc in *. rewrite (loaded_direct data) by auto.
    rewrite <- Z.add_assoc, boot_mapping_hhdm by lia. by rewrite (proj2 (Z.ltb_lt _ _)) by lia.
  - intros Hs. rewrite wrap_small by (unfold is_u, HHDM_OFFSET; lia). replace (HHDM_OFFSET + stack + 65528 - 8) with (HHDM_OFFSET + (stack + 65520)) by lia.
    destruct (hhdm_indices (stack + 65520)) as [E4 Em]; [lia|]. rewrite (loaded_direct data) by auto. rewrite boot_mapping_hhdm by lia. by rewrite (proj2 (Z.ltb_ge _ _)) by lia.
Qed.

(** C3: the loader puts the kernel where it was linked. It stops short only when the firmware
    has no pages left, which cannot be while it has [boot_cost] pages of room: 2087 and four for
    each page of a segment. When it jumps, it jumps to the file's entry point; byte [k] of
    every loadable segment is found at its virtual address through the processor's walk, with
    the file's byte or zero beyond it, mapped writable for the kernel and apart from the stack;
    the direct map maps exactly the first 4 GiB; the stack pointer is 8 modulo 16, and its
    64 KiB are mapped if they lie below 4 GiB, while from 4 GiB on the first push faults. *)
Theorem kernel_in_place data flen (s : loader U) : kernel_ok data flen →
  (∀ room, has_room room → boot_cost data ≤ room (uefi s) → ∃ h s', prepare data flen s = Ok (h, s')) ∧
  oom (prepare data flen) s (λ h s',
    h_rip h = rd data 24 8 ∧
    (∀ v, i4 v = 0 ∨ i4 v = 256 → translate (lram s') (h_cr3 h) v = boot_mapping v) ∧
    ∃ stack, kernel_placed data h s' stack ∧ stack_given h s' stack).
Proof.
  intros Hko. split.
  { intros room Hroom Hs. destruct (needs_prepare room Hroom data flen Hko s Hs) as (r & s' & E & _). by exists r, s'. }
  unfold prepare. apply (oom_pair _ _ _ s (λ root e s', e = rd data 24 8 ∧ loaded data root s')); [exact (load_spec data flen s Hko)|]. intros root e s2 (-> & Hl).
  eapply oom_step; [apply alloc_grows; [lia|set_solver]|]. intros stack s3 (G3 & _ & A3 & P3 & F3).
  eapply oom_step; [apply alloc_grows; [lia|set_solver]|]. intros bi s4 (G4 & _ & A4 & P4 & F4).
  apply oom_bind. unfold oom at 1, on_ram, modify. eapply oom_step; [apply alloc_grows; [lia|set_solver]|]. intros _ s5 (G5 & _ & _). unfold oom, mret, ST_ret. cbn [h_rip h_cr3].
  assert (grows s2 s5) as G.
  { eapply handed_trans; [exact G3|]. eapply handed_trans; [apply (zero_grows s3 s4 bi 4096 G4)|exact G5]. intros x Hx. apply F4. lia. }
  pose proof (loaded_grows _ _ _ _ Hl G) as Hl5. split_and!; [done|intros v Hv; by apply (loaded_direct data)|]. exists stack. split; [|by apply (loaded_stack data)].
  intros i k Hi ph Ht Hk. destruct (loaded_byte data flen root s2 s5 i k Hko Hl G Hi Ht Hk) as (x & Hx & Hm & Ho). exists x. split_and!; [exact Hx|exact Hm|].
  intros Hr. rewrite F3 in Ho by lia. done.
Qed.
End boot.

(** A firmware that hands out pages in order, from 1 MiB to 4 GiB, and a kernel of two
    segments: three bytes of code, then five bytes of which two are in the file. *)
Definition toy_alloc (u : N) (n : Z) : option Z * N :=
  if bool_decide (0 < n ∧ 256 + Z.of_N u + n ≤ 2 ^ 20) then (Some ((256 + Z.of_N u) * 4096), (u + Z.to_N n)%N) else (None, u).

#[export]
Program Instance toy_firmware : BootServices N := {
  allocate_pages := toy_alloc;
  bs_owned u x := bool_decide (0x100000 ≤ x < (256 + Z.of_N u) * 4096) }.
Next Obligation.
  intros u n a u' Hn. unfold toy_alloc, PAGE_SIZE. case_bool_decide as H; [|done]. intros [= <- <-]. rewrite N2Z.inj_add, Z2N.id by lia.
  split_and!; [apply Z.mod_mul; lia|lia|lia| |].
  - intros x. apply eq_true_iff_eq. rewrite orb_true_iff, !bool_decide_eq_true. lia.
  - intros x Hx. apply bool_decide_eq_false. lia.
Qed.

Definition toy_phdr (off va fsz msz : Z) : list Z := le_bytes 4 1 ++ le_bytes 4 5 ++ le_bytes 8 off ++ le_bytes 8 va ++ le_bytes 8 va ++ le_bytes 8 fsz ++ le_bytes 8 msz ++ le_bytes 8 4096.
Definition toy_elf : list Z :=
  [0x7F; 0x45; 0x4C; 0x46; 2; 1; 1; 0] ++ replicate 8 0 ++ le_bytes 2 2 ++ le_bytes 2 62 ++ le_bytes 4 1 ++ le_bytes 8 0xFFFFFFFF80000001 ++ le_bytes 8 64 ++ le_bytes 8 0 ++
  le_bytes 4 0 ++ le_bytes 2 64 ++ le_bytes 2 56 ++ le_bytes 2 2 ++ replicate 6 0 ++
  toy_phdr 176 0xFFFFFFFF80000000 3 3 ++ toy_phdr 179 0xFFFFFFFF80001FFE 2 5 ++ [0x90; 0xFA; 0xF4; 0x11; 0x22].
Definition toy_kernel : memory := λ x, default 0 (toy_elf !! Z.to_nat x).
Definition toy_loader : loader N := mkLoader 0%N (λ _, 0).

Lemma toy_kernel_ok : kernel_ok toy_kernel (len toy_elf).
Proof.
  assert (∀ i : Z, 0 ≤ i < 2 → i = 0 ∨ i = 1) as H2 by lia. split.
  - intros x. unfold toy_kernel. destruct (toy_elf !! Z.to_nat x) as [b|] eqn:E; [|done]. cbn. apply list_elem_of_lookup_2 in E. revert b E. apply Forall_forall.
    unfold toy_elf, toy_phdr. repeat (apply Forall_app_2; [first [apply le_bytes_byte|apply Forall_replicate; done|repeat constructor; done]|]). repeat constructor; done.
  - split_and!; [vm_compute; discriminate|reflexivity|reflexivity].
  - intros i Hi. change (0 ≤ i < 2) in Hi. destruct (H2 i Hi) as [-> | ->]; cbv zeta; intros _; vm_compute; split_and!; (reflexivity || discriminate).
  - intros i j Hi Hj. change (j < 2) in Hj. assert (i = 0) as -> by lia. assert (j = 1) as -> by lia. cbv zeta. intros _ _ v [_ H] [H' _].
    refine (Z.lt_irrefl _ (Z.le_lt_trans _ _ _ (Z.le_trans _ _ _ H' H) _)). vm_compute. reflexivity.
Qed.

Lemma toy_has_room : has_room (λ u : N, 2 ^ 20 - 256 - Z.of_N u).
Proof. intros u n Hn. cbn. unfold toy_alloc. rewrite bool_decide_true by lia. eexists _, _. split; [reflexivity|]. rewrite N2Z.inj_add, Z2N.id by lia. lia. Qed.

(** The file's fields, evaluated. *)
Lemma toy_fields : rd toy_kernel 24 8 = 0xFFFFFFFF80000001 ∧ rd toy_kernel 56 2 = 2 ∧ rd toy_kernel 32 8 + 1 * rd toy_kernel 54 2 = 120 ∧ boot_cost toy_kernel = 2099.
Proof. vm_compute. done. Qed.
Lemma toy_segment : p_type toy_kernel 120 = 1 ∧ p_memsz toy_kernel 120 = 5 ∧ p_vaddr toy_kernel 120 + 1 = 0xFFFFFFFF80001FFF ∧ byte_of toy_kernel 120 1 = 0x22.
Proof. vm_compute. done. Qed.

Lemma kernel_in_place_witness : ∃ h s', prepare toy_kernel (len toy_elf) toy_loader = Ok (h, s') ∧ h_rip h = 0xFFFFFFFF80000001 ∧
  translate (lram s') (h_cr3 h) (HHDM_OFFSET + 0xB8000) = Some (0xB8000, true, false) ∧ h_rsp h mod 16 = 8 ∧
  ∃ x, translate (lram s') (h_cr3 h) 0xFFFFFFFF80001FFF = Some (x, true, false) ∧ lram s' x = 0x22.
Proof.
  destruct (kernel_in_place toy_kernel (len toy_elf) toy_loader toy_kernel_ok) as [Hr Ho]. destruct toy_fields as (E0 & E1 & E2 & EC). destruct toy_segment as (E3 & E4 & E5 & E6).
  destruct (Hr _ toy_has_room) as (h & s' & E); [rewrite EC; cbn; lia|]. apply (oom_ok _ _ _ _ _ Ho) in E as Hq. destruct Hq as (He & Hd & st & Hs & _ & Hm & _). rewrite E0 in He.
  specialize (Hs 1 1). cbv zeta in Hs. rewrite E1, E2, E4, E5, E6 in Hs. destruct (Hs ltac:(lia) E3 ltac:(lia)) as (x & Hx & Hv & _).
  exists h, s'. split; [exact E|]. split; [exact He|]. split; [rewrite Hd by (right; vm_compute; reflexivity); vm_compute; reflexivity|]. split; [exact Hm|]. exists x. split; [exact Hx|exact Hv].
Defined.
